(* ===== verification/_CoqProject ===== *)
-Q . S2P
Prelude.v
LinearProbe.v
HashIndex.v
DirtyTracker.v
Wire.v
KeyBTree.v
SlabAlloc.v
DimRegistry.v
Overlay.v
IoBatch.v
Uring.v
PageMap.v
DimBin.v
BinKeys.v
BinFlush.v
BinOps.v
BinPut.v
BinStore.v
Names.v
CkptMeta.v
Engine.v
EngineProps.v
EngineGet.v
EnginePut.v
EngineMap.v
DeltaFile.v
DeltaProps.v
Recover.v
Scheduler.v
Export.v
ExportProps.v
ExportRun.v
ImportRun.v
ExportMap.v
Replica.v
Arena.v
IoPoller.v
Epoll.v
Kqueue.v
Protocol.v
Server.v
ServerLoop.v
StoreSpec.v
ServerSend.v
ServerPull.v
Client.v
ClientProps.v
ServerProps.v
ServerFrames.v
PushProps.v
LoopProps.v
EndToEnd.v
Programs.v
