(* ===== verification/Prelude.v ===== *)
(** * GravelDB: a verification library

    GravelDB stores embeddings, arrays of [dim] floats, by a 64-bit feature id. A
    database (graveldb.c) keeps one file pair per dimension, a _bin_: a data file
    of fixed-size entries and a key file whose slot [i] holds the feature of entry
    [i]. An index in memory maps a feature to its dimension and entry; it is
    rebuilt from the key files when the database is opened. Writes go to page
    buffers in memory, which a flush writes to the data file after the keys; a
    checkpoint freezes the set of dirty pages and dumps them to delta files while
    new writes go to an overlay. The library is single-threaded. Around it,
    example/ has a parameter server, which serves a database over TCP with one
    event loop per thread, and the client library that talks to it.

    ** Files

    - [Prelude]: outcomes of C code ([res]: a value, undefined behaviour, or no
      return), the state monad [M], machine-width wrap-around ([u8] to [u64],
      [i32]), arrays with checked access ([rd], [wr]), binary search, tactics, the
      hint database, list and integer lemmas.
    - [LinearProbe]: open addressing with linear probing over any slot type: the
      probe, the insertion, the backward-shift deletion, and the invariant that
      every key is reachable from its home slot ([lp_inv]). [HashIndex], [Overlay],
      [DimRegistry] and [PageMap] instantiate it.
    - [HashIndex]: src/hash_index.c, the feature index with incremental rehash.
    - [DirtyTracker]: src/dirty_tracker.c, the radix bitmap of dirty pages.
    - [Wire]: src/wire.h, the on-disk formats; the two byte orders of the host are
      instances of the class [WireHost].
    - [KeyBTree]: src/key_btree.h, the buffer of key writes.
    - [SlabAlloc]: src/slab_alloc.c, object pools. It implements the class
      [ObjectPool] of [Overlay], against which overlay and bins are modelled.
    - [DimRegistry]: src/dim_registry.c, dimension to bin in three lookup modes.
    - [Overlay]: src/overlay.c, the write isolation buffer of a checkpoint.
    - [IoBatch]: src/io_uring_flush.c in its portable build, with the system it
      calls: files and buffers as contents, and a stream of answers ([answers]) that
      decides which calls and allocations fail; the empty stream means success.
    - [Uring]: the io_uring build of the same file, over liburing and the kernel as the
      class [IoUring] with the laws [RingLaws].
    - [PageMap]: the page table and the write buffer of dimbin.h.
    - [DimBin]: src/dimbin.c, all the operations of a bin, in [M (BinSt P)].
    - [BinKeys], [BinFlush], [BinOps], [BinPut], [BinStore]: properties of a bin: the
      key file, the flush, allocation of entries and isolation during a checkpoint,
      batched writes to the page buffers, and what reserving space, taking an entry
      and buffering its key keep.
    - [Names]: the paths of the files, and the reader of delta file names.
    - [CkptMeta]: the checksum and the meta file of src/checkpoint.c.
    - [Engine]: src/graveldb.c, the public operations, in [M (DbSt P)].
    - [EngineProps]: properties of the database; [EngineGet]: a batched read is one
      lookup per feature, whatever the pages it groups; [EnginePut]: a batched write is
      an update of the features, over the index and all bins ([put_db]); [EngineMap]:
      deletion, and the public operations as a refinement of a finite map ([stores]).
    - [DeltaFile]: delta files, full copies, replay and recovery of
      src/checkpoint.c; [DeltaProps] and [Recover] hold their properties.
    - [Scheduler]: the checkpoint scheduler of src/checkpoint.c and its properties.
      The responses of waiting callers are a shared store of linked records.
    - [Export]: the export state machine, the import and the parser of
      src/checkpoint.c; [ExportProps] follows the phases of a batch, [ExportRun] a
      whole export and the parse of its dump, [ImportRun] an import, entry by entry.
      [ExportMap]: the entries that an export finds are the features of the database.
    - [Replica]: example/replica/replica.c, a master and a replica with two databases in one
      file system, whose reload is interleaved with its readers ([replica_run]).
    - [Programs]: the options of example/server/main.c, and example/minimal/minimal.c.
    - [Arena]: the memory of a connection in example/server/server.c, a bump
      allocator with overflow blocks, and the heap below it.
    - [IoPoller], [Epoll], [Kqueue]: example/server/io_poller.c in its three builds, the
      last two over the kernel as the classes [EpollSys] and [KqueueSys] with their laws.
    - [Protocol]: example/protocol/graveldb_wire.h, and the socket: the bytes that
      have arrived, those written, and a stream of answers of the system.
    - [Server]: connections, responses, request handlers and the framing of messages
      of server.c, in [M HSt]. The database is the class [Store]. [ServerLoop]: one
      iteration of each event loop, and creation, start, stop and destruction.
    - [StoreSpec]: what the server relies on when it reads, the class [ReadStore];
      the engine is an instance ([engine_store], [engine_reads]), and so is a map
      whose gets take some polls ([MapStore]), for examples.
    - [ServerSend]: the send list; [ServerPull]: the two kinds of pull, which share
      one state machine ([submit_next], [resume], [drive]).
    - [Client]: example/client/client.c; [ClientProps]: its calls.
    - [ServerProps], [PushProps], [EndToEnd]: messages, and the round trips of client,
      server and engine. [ServerFrames]: the message loop and the reads that feed it.
      [LoopProps]: what all handlers and loops keep, with a hint
      database of frame rules.

    Definitions have the names of the C functions and types; a loop that is a
    definition of its own is named after what it does, and its comment says where
    it comes from. A struct is a record. A pointer to an array owned by a struct is
    an [option] of a list, [None] for [NULL]; bins and page buffers, which are
    shared, live in maps from addresses. Results of allocations are arguments (a
    [bool] per call) or answers of the system.

    ** What the theorems show

    - Index: in a table with room, a lookup, insertion, update and removal act on
      the map of stored features as on a finite map, in the middle of a rehash when
      the key is not hidden by an emptied slot; completion of the rehash stores the
      whole map in one table; iteration visits each feature once. This holds up to
      2^29 slots, where the 32-bit products of the load check do not wrap. Runs of
      the code show a stored key that is missed during a rehash, after a put or after
      the removal of another key, and a table of 2^31 slots that grows to none.
    - Dirty tracker: marking adds exactly one page to the set, a scan returns the
      set in increasing order up to the limit, and after a swap the frozen set is
      what was marked before and the active one what is marked after. When the root of
      a segment cannot be allocated in front of two or more others, the pages of the
      last one are lost, for every tracker.
    - Wire: each header round trips, and the two host orders produce the same bytes.
    - Meta file: whatever call fails, the meta file afterwards is the old one or the
      new one, and it is the new one when the result is OK; a file whose magic or
      generation was altered in one byte is refused.
    - Delta files: replaying the delta that a bin dumped brings every dumped page of
      another bin's data file to the dumped content and leaves the others; recovery
      applies exactly the deltas newer than the meta file, oldest first. The checksum
      is not looked at, and a truncated delta still raises the bump pointer.
    - Scheduler: all the callers that asked for a full checkpoint are told the same
      epoch at the next safepoint; a response that is registered twice makes the
      broadcast run forever; the cooldown counts from the checkpoint before the full.
    - Export: begin, enough steps and end write a dump with the header, the entries
      in use in the order of their index and the trailer; parsing it on any host
      calls the callback on those entries in that order. In a database whose bin was
      flushed, keys and pages, and has pages without slack, these are the features of
      the dimension in the map that the database answers gets from. An id that ends in
      the magic number cuts the dump short.
    - Import and replica: a dump that was exported from one database, flushed and without
      slack, and loaded into another one, none of whose pages is buffered, updates the map
      that the second one stores with the features of the dimension in the map of the first.
      While the replica reloads, every reader finds a complete database, however the steps
      interleave, and the reload ends after one step of [main] per 256 entries and three. A load loses errors of writes, is hidden by
      buffered pages and never gives entries back; the readers never count a hit.
    - Key buffer: insertion refines insertion in a sorted map, keeps the B-tree
      invariant, and never exceeds the arena; collection yields the sorted map.
    - Slab allocator: an object handed out is inside a page of the pool, aligned
      and disjoint from the free ones; freeing returns it; statistics and
      destruction do not account for all the pages.
    - Registry and overlay: both refine finite maps, in all lookup modes and through
      their upgrades; the overlay has the same defect as the index while it grows.
    - Bin: the key file after a key flush is the previous file with the buffered
      keys written; a flush makes the data file equal, on every page, to the buffer
      of that page or to what it was, and empties the buffer; live entries stay
      distinct through allocations and frees, and a freed entry is the next one handed out unless the list of free ones cannot grow; during a checkpoint writes reach the
      overlay and neither the buffer nor the files; outside of one a batch refines
      the overwriting of the entries in the bin's pages. A page that holds
      [bump_ptr] is zeroed when it is loaded again, which loses stored entries.
    - io_uring: a batch of any size, through a queue of any depth, ends with every request
      completed once, each written file synced, nothing pending, and the number of
      failures as the result, while submitting and waiting do not fail; an interrupted wait reports an idle ring that is not.
    - Engine: a batched read in a settled database answers each feature as a single
      lookup in index, overlay, page buffers and data file does, and changes neither;
      any sequence of batched writes, deletions and reads, without a flush, of a database
      with room and memory returns what the same operations on a finite map return. The
      conditions are those of [stores]: a system without failures, no checkpoint, a
      settled index, pages without slack, and no page that a flush left partly filled;
      a checkpoint step makes progress through the phases and the last one
      advances the epoch; the loss of a page is shown through the public operations, and so is a
      read that looks for an entry at the wrong offset.

    - Connection memory: objects of an arena are aligned, inside its blocks and
      disjoint, whatever the system refuses, and its destruction releases exactly
      its blocks. The poller refines a map from descriptors to interest and pointer, and
      its three builds are interchangeable for a server that always reads, while the
      kernel can watch its descriptors and has memory.
    - Requests: for dimensions up to 1024 and callers with buffers, a pull goes from the client's call through the server's handler to
      the engine and back, chunk by chunk and across polls that answer
      [GRAVELDB_AGAIN], and the caller finds what the database holds; the streaming
      pull gives the same; a push puts exactly the caller's entries, and what one
      client pushed another one pulls, over the engine. What is queued
      reaches the socket once and in order, whatever the writes accept. How the
      network cuts the requests into reads makes no difference.
    - Loops: in every state a server can reach the counter of connections is right; a
      read-only server performs nothing but reads on its store, and refuses the
      other requests. Sending while a get is in flight releases its memory, which the
      resumption that finds the get done then uses; a length
      that wraps around stops the server; a client that passes no buffers misreads
      dimensions, and one whose errno is stale hangs at the end of the stream.

    ** Bounds and fuel

    Loops over arrays are structural. Where the C loop has another measure the
    definition takes fuel, and running out of it is [Diverge], which no theorem
    accepts as a result: probes get one round per slot plus one ([probe] returns
    before, since a table keeps an empty slot); doubling loops get one round per bit
    of the type; the loop of [dump_budget] gets one round per dirty block, each round
    consuming one; [poll_get] gets two rounds, since the portable build answers the
    first poll. [load_dump] needs one round for each 256 entries of the dump and one more, and its
    polls one each. The rounding of [detect_page_size] gets 17, the exponent of its bound.
    [complete_waiters] gets one round more than there are responses, [copy_file] and
    [parse_entries] one more than there are bytes in the file; the export theorems
    bound the steps by four per batch. In the server, [flush_rounds] gets one round
    more than there are bytes queued, since each round sends one or returns;
    [pull_submit_next_chunk] and [stream_submit_next_chunk] one more than ids are
    left ([chunk_fuel]); [process_messages] one more than bytes have arrived
    ([message_fuel]), which is enough unless a length wraps around. [wait_rounds]
    gets one more than requests are pending. The client's
    [send_all] and [recv_all] get two rounds more than the system has answers,
    [parse_pull] and [parse_frame] one more than the body has bytes, [recv_frames]
    one more than bytes are to come, [await_rounds] one more than responses are
    pending. [drive] repeats the resumption of a pull by the event loop; the theorems
    give a number of rounds that completes it. [client_close] takes the number of
    polls that a get in flight needs.

    ** Not modelled

    liburing and the kernel are a parameter of [Uring]; bins and engine are modelled over
    the portable build, in which a request is carried out when it is submitted. Directories are not objects of their own: a path is a name in one table, the
    order in which a directory is read is an argument ([readdir_order]), and making a
    directory has no effect. The content of memory from [malloc] is an argument
    ([fresh], [junk]) where the code may read it. Floats are four bytes and are never
    interpreted. Of the server, the threads of the workers are not interleaved with
    each other, the timeout of poll is left out, and so are the temporaries that
    [graveldb_batch_put] takes from the arena of a connection; the host is
    little-endian. A step of the replica's threads is one call of the library; what the
    programs print is left out, and so are the signals of example/server/main.c. tests/ and
    bench/ are programs that use the library and are outside of it.

    ** Plan

    [graveldb_flush] as the sum of the flushes of its bins; opening a database after a
    flush restores the index; the engine over the io_uring build. *)

From stdpp Require Export base numbers list gmap sorting.
From Stdlib Require Export ZArith Lia.

#[global] Open Scope Z_scope.

(** * Outcomes of C code

    A computation either returns a value, has undefined behaviour (an access
    outside an array, a null dereference), or does not return (a loop whose
    exit condition is never met). *)

Inductive res (A : Type) : Type :=
| Ret (a : A)
| Ub
| Diverge.
Arguments Ret {A} a.
Arguments Ub {A}.
Arguments Diverge {A}.

Definition res_bind {A B} (m : res A) (k : A -> res B) : res B :=
  match m with
  | Ret a => k a
  | Ub => Ub
  | Diverge => Diverge
  end.

Declare Scope res_scope.
Delimit Scope res_scope with res.
Notation "'let!' x ':=' m 'in' k" := (res_bind m (fun x => k))
  (at level 10, x name, m at level 100, k at level 200) : res_scope.
Notation "'let!' ' p ':=' m 'in' k" := (res_bind m (fun p => k))
  (at level 10, p strict pattern, m at level 100, k at level 200) : res_scope.
#[global] Open Scope res_scope.

(** * Code that changes a state

    A step takes the state and either returns a value with the new state or has
    one of the other outcomes. *)

Definition M (S A : Type) : Type := S -> res (A * S).

Definition ret {S A} (a : A) : M S A := fun s => Ret (a, s).
Definition bindM {S A B} (m : M S A) (k : A -> M S B) : M S B :=
  fun s => res_bind (m s) (fun r => k (fst r) (snd r)).
Definition lift {S A} (r : res A) : M S A := fun s => res_bind r (fun a => Ret (a, s)).
Definition gets {S A} (f : S -> A) : M S A := fun s => Ret (f s, s).
Definition modify {S} (f : S -> S) : M S unit := fun s => Ret (tt, f s).

Notation "'let*' x ':=' m 'in' k" := (bindM m (fun x => k))
  (at level 10, x name, m at level 100, k at level 200) : res_scope.
Notation "'let*' ' p ':=' m 'in' k" := (bindM m (fun p => k))
  (at level 10, p strict pattern, m at level 100, k at level 200) : res_scope.
Notation "'do*' m 'in' k" := (bindM m (fun _ => k))
  (at level 10, m at level 100, k at level 200) : res_scope.

(** [for] over a list, and [if] without an else branch. *)
Fixpoint forM {S A} (l : list A) (f : A -> M S unit) : M S unit :=
  match l with
  | [] => ret tt
  | a :: l => do* f a in forM l f
  end.
Definition when {S} (b : bool) (m : M S unit) : M S unit := if b then m else ret tt.

Lemma bindM_ret {S A B} (m : M S A) (k : A -> M S B) s a s' : m s = Ret (a, s') -> bindM m k s = k a s'.
Proof. intros H. unfold bindM. by rewrite H. Qed.

(** * Machine integers: a w-bit unsigned value is a [Z] with its wrap-around
    written out. *)

Definition u8 (z : Z) : Z := z mod 2 ^ 8.
Definition u16 (z : Z) : Z := z mod 2 ^ 16.
Definition u32 (z : Z) : Z := z mod 2 ^ 32.
Definition u64 (z : Z) : Z := z mod 2 ^ 64.

(** Conversion of an unsigned 32-bit value to [int32_t]/[int]. *)
Definition i32 (z : Z) : Z := (z + 2 ^ 31) mod 2 ^ 32 - 2 ^ 31.

(** [x >> n] and [x << n] at 32 and 64 bits are written with [Z.shiftr] and
    the wrap of [Z.shiftl]. *)
Definition UINT32_MAX : Z := 2 ^ 32 - 1.

(** * Status codes: [graveldb_status_t] of include/graveldb.h *)

Inductive graveldb_status_t : Type :=
| GRAVELDB_OK
| GRAVELDB_AGAIN
| GRAVELDB_FLUSH_NEEDED
| GRAVELDB_ERR_IO
| GRAVELDB_ERR_OOM
| GRAVELDB_ERR_NOT_FOUND
| GRAVELDB_ERR_CORRUPT
| GRAVELDB_ERR_FULL
| GRAVELDB_ERR_INVALID
| GRAVELDB_ERR_BUSY
| GRAVELDB_ERR_DIM_MISMATCH.

#[export] Instance graveldb_status_eq_dec : EqDecision graveldb_status_t.
Proof. solve_decision. Defined.

(** * Arrays: a C array is a list; an access outside it is undefined. *)

Definition rd {A} (l : list A) (i : Z) : res A :=
  if 0 <=? i then match l !! Z.to_nat i with Some x => Ret x | None => Ub end else Ub.

Definition wr {A} (l : list A) (i : Z) (x : A) : res (list A) :=
  if (0 <=? i) && (i <? Z.of_nat (length l)) then Ret (<[Z.to_nat i := x]> l) else Ub.

(** Dereference of a pointer that may be [NULL]. *)
Definition deref {A} (p : option A) : res A :=
  match p with Some a => Ret a | None => Ub end.

Definition zlen {A} (l : list A) : Z := Z.of_nat (length l).

(** Number of elements satisfying a boolean test. *)
Definition countb {A} (f : A -> bool) (l : list A) : Z :=
  zlen (List.filter f l).

(** * Automation *)

Create HintDb gravel.
Create Rewrite HintDb gravel_rw.

(** Case analysis on the innermost boolean comparison of the goal or of a
    hypothesis, with the propositional fact it decides. *)
Ltac zb :=
  match goal with
  | |- context [?a =? ?b] => destruct (Z.eqb_spec a b)
  | |- context [?a <? ?b] => destruct (Z.ltb_spec a b)
  | |- context [?a <=? ?b] => destruct (Z.leb_spec a b)
  | H : context [?a =? ?b] |- _ => destruct (Z.eqb_spec a b)
  | H : context [?a <? ?b] |- _ => destruct (Z.ltb_spec a b)
  | H : context [?a <=? ?b] |- _ => destruct (Z.leb_spec a b)
  end.

(** Rewrites the comparisons of the goal that the context decides. *)
Ltac zdec :=
  repeat match goal with
  | |- context [?a =? ?b] => first [rewrite (proj2 (Z.eqb_eq a b)) by lia | rewrite (proj2 (Z.eqb_neq a b)) by lia]
  | |- context [?a <? ?b] => first [rewrite (proj2 (Z.ltb_lt a b)) by lia | rewrite (proj2 (Z.ltb_ge a b)) by lia]
  | |- context [?a <=? ?b] => first [rewrite (proj2 (Z.leb_le a b)) by lia | rewrite (proj2 (Z.leb_gt a b)) by lia]
  end; cbn [negb andb orb].

(** * Monad laws used by the components *)

Lemma res_bind_ret_inv {A B} (m : res A) (k : A -> res B) b :
  res_bind m k = Ret b -> exists a, m = Ret a /\ k a = Ret b.
Proof. destruct m; simpl; intros; try discriminate; eauto. Qed.

(** Splits a hypothesis [let! x := m in k = Ret b] into its two halves. *)
Ltac mbind H :=
  let a := fresh "a" in let E := fresh "E" in
  apply res_bind_ret_inv in H as [a [E H]].

(** * Array lemmas *)

Section arrays.
Context {A : Type}.
Implicit Types l : list A.

Lemma rd_ret l i x : rd l i = Ret x <-> 0 <= i /\ l !! Z.to_nat i = Some x.
Proof.
  unfold rd. zb; [|split; [discriminate | lia]].
  destruct (l !! Z.to_nat i) eqn:E; naive_solver.
Qed.

Lemma rd_in_range l i : 0 <= i < zlen l -> exists x, rd l i = Ret x.
Proof.
  unfold zlen. intros [H1 H2].
  destruct (lookup_lt_is_Some_2 l (Z.to_nat i)) as [x Hx]; [lia|].
  exists x. apply rd_ret. auto.
Qed.

Lemma rd_ret_range l i x : rd l i = Ret x -> 0 <= i < zlen l.
Proof.
  intros [H1 H2]%rd_ret. apply lookup_lt_Some in H2. unfold zlen. lia.
Qed.

Lemma wr_ret l i x : 0 <= i < zlen l -> wr l i x = Ret (<[Z.to_nat i := x]> l).
Proof. unfold wr, zlen. intros. repeat zb; simpl; auto; lia. Qed.

Lemma wr_ret_inv l i x l' :
  wr l i x = Ret l' -> 0 <= i < zlen l /\ l' = <[Z.to_nat i := x]> l.
Proof. unfold wr, zlen. repeat zb; simpl; intros; simplify_eq; split; auto; lia. Qed.

Lemma zlen_insert l (i : nat) x : zlen (<[i := x]> l) = zlen l.
Proof. unfold zlen. by rewrite length_insert. Qed.

Lemma zlen_nonneg l : 0 <= zlen l.
Proof. unfold zlen. lia. Qed.

Lemma zlen_app l1 l2 : zlen (l1 ++ l2) = zlen l1 + zlen l2.
Proof. unfold zlen. rewrite length_app. lia. Qed.

Lemma zlen_replicate n (x : A) : zlen (replicate n x) = Z.of_nat n.
Proof. unfold zlen. by rewrite length_replicate. Qed.

Lemma rd_insert_eq l i x : 0 <= i < zlen l -> rd (<[Z.to_nat i := x]> l) i = Ret x.
Proof.
  intros. apply rd_ret. split; [lia|]. apply list_lookup_insert_eq. unfold zlen in *. lia.
Qed.

Lemma rd_insert_ne l i j x : 0 <= i -> i <> j -> rd (<[Z.to_nat i := x]> l) j = rd l j.
Proof.
  intros. unfold rd. zb; auto. rewrite list_lookup_insert_ne by lia. done.
Qed.

Lemma rd_list_eq l1 l2 :
  zlen l1 = zlen l2 -> (forall i x, rd l1 i = Ret x -> rd l2 i = Ret x) -> l1 = l2.
Proof.
  intros HL H. apply list_eq_same_length with (length l1); unfold zlen in *; try lia.
  intros i x y Hi H1 H2.
  assert (rd l1 (Z.of_nat i) = Ret x) as Hx.
  { apply rd_ret. rewrite Nat2Z.id. split; auto; lia. }
  apply H, rd_ret in Hx as [_ Hx]. rewrite Nat2Z.id in Hx. congruence.
Qed.

Lemma rd_elem l i x : rd l i = Ret x -> x ∈ l.
Proof. intros [_ H]%rd_ret. by eapply list_elem_of_lookup_2. Qed.

Lemma elem_rd l x : x ∈ l -> exists i, rd l i = Ret x.
Proof.
  intros [i Hi]%list_elem_of_lookup. exists (Z.of_nat i). apply rd_ret.
  rewrite Nat2Z.id. split; auto; lia.
Qed.

Lemma rd_cons x l i : 0 < i -> rd (x :: l) i = rd l (i - 1).
Proof.
  intros. unfold rd. repeat zb; try lia.
  replace (Z.to_nat i) with (S (Z.to_nat (i - 1))) by lia. done.
Qed.

Lemma elem_of_split_at l i x : x ∈ l <-> x ∈ take i l \/ x ∈ drop i l.
Proof. rewrite <- (take_drop i l) at 1. apply elem_of_app. Qed.

Lemma elem_of_insert_at l i x y :
  y ∈ take i l ++ x :: drop i l <-> y = x \/ y ∈ l.
Proof. rewrite elem_of_app, elem_of_cons, (elem_of_split_at l i). tauto. Qed.

(** ** Counting *)

Lemma countb_nil (f : A -> bool) : countb f [] = 0.
Proof. reflexivity. Qed.

Lemma countb_cons (f : A -> bool) x l : countb f (x :: l) = (if f x then 1 else 0) + countb f l.
Proof. unfold countb, zlen. simpl. destruct (f x); simpl length; lia. Qed.

Lemma countb_nonneg (f : A -> bool) l : 0 <= countb f l.
Proof. unfold countb. apply zlen_nonneg. Qed.

Lemma countb_le (f : A -> bool) l : countb f l <= zlen l.
Proof.
  induction l as [|x l IH]; [done|]. rewrite countb_cons. unfold zlen in *. simpl length.
  destruct (f x); lia.
Qed.

Lemma countb_app (f : A -> bool) l1 l2 : countb f (l1 ++ l2) = countb f l1 + countb f l2.
Proof. induction l1 as [|x l IH]; [done|]. simpl. rewrite !countb_cons, IH. lia. Qed.

Lemma countb_insert (f : A -> bool) l i x y :
  rd l i = Ret y ->
  countb f (<[Z.to_nat i := x]> l) =
  countb f l - (if f y then 1 else 0) + (if f x then 1 else 0).
Proof.
  intros [_ H]%rd_ret. rewrite insert_take_drop by (by eapply lookup_lt_Some).
  rewrite <- (take_drop_middle l _ _ H) at 3.
  rewrite !countb_app, !countb_cons. lia.
Qed.

Lemma countb_full (f : A -> bool) l :
  countb f l = zlen l -> forall i x, rd l i = Ret x -> f x = true.
Proof.
  intros H i x Hx. destruct (f x) eqn:E; auto. exfalso.
  apply rd_elem in Hx. apply list_elem_of_split in Hx as (l1 & l2 & ->).
  rewrite countb_app, countb_cons, E in H. rewrite zlen_app in H.
  pose proof (countb_le f l1). pose proof (countb_le f l2).
  unfold zlen in *. simpl length in H. lia.
Qed.

Lemma countb_lt_ex (f : A -> bool) l :
  countb f l < zlen l -> exists i x, rd l i = Ret x /\ f x = false.
Proof.
  induction l as [|x l IH]; [unfold countb, zlen; simpl; lia|].
  rewrite countb_cons. unfold zlen in *. simpl length. destruct (f x) eqn:E; intros H.
  - destruct IH as (i & y & Hi & Hy); [lia|]. exists (i + 1), y. split; auto.
    apply rd_ret in Hi as [H0 Hi]. apply rd_ret. split; [lia|].
    replace (Z.to_nat (i + 1)) with (S (Z.to_nat i)) by lia. done.
  - exists 0, x. split; auto.
Qed.

Lemma countb_pos (f : A -> bool) l i x : rd l i = Ret x -> f x = true -> 0 < countb f l.
Proof.
  intros Hx%rd_elem Hf. apply list_elem_of_split in Hx as (l1 & l2 & ->).
  rewrite countb_app, countb_cons, Hf.
  pose proof (countb_nonneg f l1). pose proof (countb_nonneg f l2). lia.
Qed.

Lemma countb_zero (f : A -> bool) l : (forall x, x ∈ l -> f x = false) -> countb f l = 0.
Proof.
  induction l as [|x l IH]; intros H; [done|]. rewrite countb_cons, IH, H; auto; set_solver.
Qed.

Lemma countb_0_replicate (f : A -> bool) n x : f x = false -> countb f (replicate n x) = 0.
Proof. intros H. induction n; simpl; [done|]. rewrite countb_cons, H, IHn. done. Qed.

Lemma rd_replicate n (x y : A) i : rd (replicate n x) i = Ret y -> y = x /\ 0 <= i < Z.of_nat n.
Proof.
  intros H. pose proof (rd_ret_range _ _ _ H) as Hr. rewrite zlen_replicate in Hr.
  apply rd_ret in H as [H1 H]. apply lookup_replicate in H as [-> ?]. auto.
Qed.

Lemma rd_replicate_eq n (x : A) i : 0 <= i < Z.of_nat n -> rd (replicate n x) i = Ret x.
Proof. intros. apply rd_ret. split; [lia|]. apply lookup_replicate. split; auto; lia. Qed.

End arrays.

#[export] Hint Rewrite @zlen_insert @zlen_app @zlen_replicate : gravel_rw.
#[export] Hint Resolve zlen_nonneg countb_nonneg countb_le : gravel.

(** * Integer lemmas *)

Lemma u8_range z : 0 <= u8 z < 2 ^ 8.
Proof. apply Z.mod_pos_bound. lia. Qed.
Lemma u16_range z : 0 <= u16 z < 2 ^ 16.
Proof. apply Z.mod_pos_bound. lia. Qed.
Lemma u32_range z : 0 <= u32 z < 2 ^ 32.
Proof. apply Z.mod_pos_bound. lia. Qed.
Lemma u64_range z : 0 <= u64 z < 2 ^ 64.
Proof. apply Z.mod_pos_bound. lia. Qed.
Lemma u8_id z : 0 <= z < 2 ^ 8 -> u8 z = z.
Proof. apply Z.mod_small. Qed.
Lemma u16_id z : 0 <= z < 2 ^ 16 -> u16 z = z.
Proof. apply Z.mod_small. Qed.
Lemma u32_id z : 0 <= z < 2 ^ 32 -> u32 z = z.
Proof. apply Z.mod_small. Qed.
Lemma u64_id z : 0 <= z < 2 ^ 64 -> u64 z = z.
Proof. apply Z.mod_small. Qed.

#[export] Hint Resolve u8_range u16_range u32_range u64_range : gravel.

(** [x & (2^b - 1)] is the remainder modulo [2^b]. *)
Lemma land_mask x b : 0 <= b -> Z.land x (2 ^ b - 1) = x mod 2 ^ b.
Proof.
  intros. replace (2 ^ b - 1) with (Z.ones b) by (rewrite Z.ones_equiv; lia).
  by apply Z.land_ones.
Qed.

(** A power-of-two capacity together with its mask. *)
Definition pow2_cap (cap : Z) : Prop := exists b, 0 <= b /\ cap = 2 ^ b.

Lemma pow2_cap_pos cap : pow2_cap cap -> 0 < cap.
Proof. intros (b & ? & ->). lia. Qed.

Lemma pow2_cap_double cap : pow2_cap cap -> pow2_cap (cap * 2).
Proof. intros (b & ? & ->). exists (b + 1). split; [lia|]. rewrite Z.pow_add_r; lia. Qed.

Lemma land_cap x cap : pow2_cap cap -> Z.land x (cap - 1) = x mod cap.
Proof. intros (b & ? & ->). by apply land_mask. Qed.

Lemma u32_mod_cap x cap : pow2_cap cap -> cap <= 2 ^ 32 -> u32 x mod cap = x mod cap.
Proof.
  intros (b & ? & ->) Hle. unfold u32.
  assert (b <= 32) by (apply Z.pow_le_mono_r_iff in Hle; lia).
  apply Z.mod_mod_divide.
  exists (2 ^ (32 - b)). rewrite <- Z.pow_add_r by lia. f_equal. lia.
Qed.

#[export] Hint Resolve pow2_cap_pos pow2_cap_double : gravel.

(** * Binary search, as segment_find and the B-tree nodes write it *)

Inductive search : Type :=
| Found (i : Z)
| Missing (i : Z).

(** [while (lo <= hi) { mid = (lo + hi) / 2; ... }] on the keys of an array. *)
Fixpoint bsearch_loop {A} (key : A -> Z) (fuel : nat) (l : list A) (k lo hi : Z) : res search :=
  match fuel with
  | O => Diverge
  | S fuel =>
    if lo <=? hi then
      let mid := (lo + hi) / 2 in
      let! x := rd l mid in
      if key x =? k then Ret (Found mid)
      else if key x <? k then bsearch_loop key fuel l k (mid + 1) hi
      else bsearch_loop key fuel l k lo (mid - 1)
    else Ret (Missing lo)
  end.

(** Every round shrinks the interval, so one round per element is enough. *)
Definition bsearch {A} (key : A -> Z) (l : list A) (k : Z) : res search :=
  bsearch_loop key (S (length l)) l k 0 (zlen l - 1).

Section bsearch.
Context {A : Type} (key : A -> Z).
Implicit Types l : list A.

(** Arrays whose keys strictly increase. *)
Definition sorted_by l : Prop := StronglySorted Z.lt (key <$> l).

Lemma sorted_by_lt l i j a b :
  sorted_by l -> rd l i = Ret a -> rd l j = Ret b -> i < j -> key a < key b.
Proof.
  unfold sorted_by. intros Hs [Hi Ha]%rd_ret [Hj Hb]%rd_ret Hij.
  rewrite <- (take_drop_middle _ _ _ Ha), fmap_app in Hs. apply StronglySorted_app_1_r in Hs.
  apply StronglySorted_cons in Hs as [Hs _]. rewrite Forall_forall in Hs. apply Hs.
  apply list_elem_of_fmap. exists b. split; auto.
  apply list_elem_of_lookup. exists (Z.to_nat j - S (Z.to_nat i))%nat.
  rewrite lookup_drop, <- Hb. f_equal. lia.
Qed.

(** What the search promises: the index of the key, or the point whose
    insertion keeps the array sorted. *)
Definition search_post l (k : Z) (r : search) : Prop :=
  match r with
  | Found i => exists x, rd l i = Ret x /\ key x = k
  | Missing i => 0 <= i <= zlen l /\
     (forall x, x ∈ take (Z.to_nat i) l -> key x < k) /\
     (forall x, x ∈ drop (Z.to_nat i) l -> k < key x)
  end.

Lemma bsearch_loop_spec fuel l k lo hi :
  sorted_by l -> 0 <= lo <= hi + 1 -> hi < zlen l -> (Z.to_nat (hi - lo + 1) < fuel)%nat ->
  (forall j x, rd l j = Ret x -> j < lo -> key x < k) ->
  (forall j x, rd l j = Ret x -> hi < j -> k < key x) ->
  exists r, bsearch_loop key fuel l k lo hi = Ret r /\ search_post l k r.
Proof.
  intros Hs. revert lo hi. induction fuel as [|fuel IH]; intros lo hi Hlo Hhi Hf Hl Hr; [lia|].
  cbn [bsearch_loop]. destruct (Z.leb_spec lo hi) as [Hle|Hgt].
  - assert (lo <= (lo + hi) / 2 <= hi) as Hm by (split; [apply Z.div_le_lower_bound|apply Z.div_le_upper_bound]; lia).
    destruct (rd_in_range l ((lo + hi) / 2)) as [s E]; [lia|]. rewrite E. cbn [res_bind].
    destruct (Z.eqb_spec (key s) k) as [Heq|Hne]; [eexists; split; [done|]; simpl; eauto|].
    destruct (Z.ltb_spec (key s) k); apply IH; try lia; auto.
    + intros j a Ha Hj. destruct (Z.eq_dec j ((lo + hi) / 2)) as [->|]; [congruence|].
      assert (key a < key s); [|lia]. eapply (sorted_by_lt l j); eauto. lia.
    + intros j a Ha Hj. destruct (Z.eq_dec j ((lo + hi) / 2)) as [->|]; [assert (a = s) by congruence; subst; lia|].
      assert (key s < key a); [|lia]. eapply (sorted_by_lt l _ j); eauto. lia.
  - exists (Missing lo). split; [done|]. simpl. split_and!; auto; try lia.
    + intros s [i Hi]%list_elem_of_lookup. apply lookup_take_Some in Hi as [Hi Hlt].
      apply (Hl (Z.of_nat i)); [|lia]. apply rd_ret. rewrite Nat2Z.id. split; auto; lia.
    + intros s [i Hi]%list_elem_of_lookup. rewrite lookup_drop in Hi.
      apply (Hr (lo + Z.of_nat i)); [|lia]. apply rd_ret. split; [lia|]. rewrite <- Hi. f_equal. lia.
Qed.

Lemma bsearch_spec l k : sorted_by l -> exists r, bsearch key l k = Ret r /\ search_post l k r.
Proof.
  intros Hs. unfold bsearch. apply bsearch_loop_spec; auto; unfold zlen; try lia.
  - intros j s H. apply rd_ret_range in H. lia.
  - intros j s H. apply rd_ret_range in H. unfold zlen in H. lia.
Qed.

(** Inserting at the point the search returns keeps the array sorted. *)
Lemma sorted_by_insert l i s :
  sorted_by l ->
  (forall a, a ∈ take i l -> key a < key s) ->
  (forall a, a ∈ drop i l -> key s < key a) ->
  sorted_by (take i l ++ s :: drop i l).
Proof.
  unfold sorted_by. intros Hs Hl Hr. rewrite <- (take_drop i l), fmap_app in Hs.
  apply StronglySorted_app in Hs as (Hlr & H1 & H2). rewrite fmap_app, fmap_cons.
  apply StronglySorted_app. split_and!; auto.
  - intros x y (a & -> & Ha)%list_elem_of_fmap [->|Hy]%elem_of_cons; [auto|].
    apply Hlr; auto. apply list_elem_of_fmap. eauto.
  - apply StronglySorted_cons. split; auto. apply Forall_forall.
    intros x (a & -> & Ha)%list_elem_of_fmap. auto.
Qed.

End bsearch.
