(* ===== verification/LinearProbe.v ===== *)
(** Open addressing with linear probing.

    Four tables of GravelDB share this scheme: [HashIndex] (hash_index.c), the
    overlay (overlay.c), the page map of the write buffer (dimbin.h) and the
    hash mode of the dimension registry (dim_registry.c). This file holds the
    probe loops, written once over a class of slot types, the reachability
    invariant of linear probing, and what the loops compute under it,
    including the backward-shift deletion of hash_index.c. *)

From S2P Require Import Prelude.

(** What a table's slots are: the key field, the sentinel key of an empty
    slot, and the 32-bit hash applied before the mask. *)
Class ProbeSlot (Slot : Type) := {
  skey : Slot -> Z;
  ekey : Z;
  phash : Z -> Z;
  phash_nonneg : forall k, 0 <= phash k
}.

(** ** The loops *)

Section loops.
Context {Slot : Type} {PS : ProbeSlot Slot}.
Implicit Types (slots : list Slot) (mask k h : Z).

(** [hash(key) & mask] *)
Definition home (mask k : Z) : Z := Z.land (phash k) mask.

(** [(h + 1) & mask] on [uint32_t] *)
Definition next (mask h : Z) : Z := Z.land (u32 (h + 1)) mask.

Definition occ (s : Slot) : bool := negb (skey s =? ekey).

(** How a search loop is left: at the slot holding the key, at an empty slot,
    or because the guard [h == start] was met. *)
Inductive probe_result : Type :=
| PFound (h : Z)
| PEmpty (h : Z)
| PWrapped (h : Z).

(** [while (slots[h].key != EMPTY) { if (slots[h].key == k) ...; h = (h+1) & mask;
     if (h == start) break; }]; [stop] is [None] for the loops without the guard. *)
Fixpoint probe (fuel : nat) slots mask k (stop : option Z) h : res probe_result :=
  match fuel with
  | O => Diverge
  | S fuel =>
    let! s := rd slots h in
    if skey s =? ekey then Ret (PEmpty h)
    else if skey s =? k then Ret (PFound h)
    else
      let h' := next mask h in
      match stop with
      | Some start => if h' =? start then Ret (PWrapped h') else probe fuel slots mask k stop h'
      | None => probe fuel slots mask k stop h'
      end
  end.

(** [while (slots[h].key != EMPTY) h = (h+1) & mask;] *)
Fixpoint probe_free (fuel : nat) slots mask h : res Z :=
  match fuel with
  | O => Diverge
  | S fuel =>
    let! s := rd slots h in
    if skey s =? ekey then Ret h else probe_free fuel slots mask (next mask h)
  end.

(** Every slot is visited at most once before a loop repeats itself, so the
    capacity plus one is enough fuel: a loop that needs more never ends. *)
Definition probe_fuel slots : nat := S (length slots).

(** The test "[ideal] is not in the cyclic interval (empty, j]" of the
    backward-shift deletion. *)
Definition displaced (ideal empty j : Z) : bool :=
  if empty <? j then (ideal <=? empty) || (j <? ideal)
  else (ideal <=? empty) && (j <? ideal).

(** The shift loop of hash_index_remove: [h] is the slot of the removed key,
    [empty] the current hole. *)
Fixpoint shift_loop (fuel : nat) slots mask h empty j : res (list Slot * Z) :=
  match fuel with
  | O => Diverge
  | S fuel =>
    let! s := rd slots j in
    if skey s =? ekey then Ret (slots, empty)
    else
      let ideal := home mask (skey s) in
      let! '(slots', empty') :=
        (if displaced ideal empty j
         then let! sl := wr slots empty s in Ret (sl, j)
         else Ret (slots, empty)) in
      let j' := next mask j in
      if j' =? h then Ret (slots', empty') else shift_loop fuel slots' mask h empty' j'
  end.

End loops.

(** ** Cyclic arithmetic on slot positions *)

Section cyclic.
Variable n : Z.

(** The position [d] steps after [a], and the number of steps from [a] to [b]. *)
Definition cyc (a d : Z) : Z := if a + d <? n then a + d else a + d - n.
Definition dst (a b : Z) : Z := if a <=? b then b - a else b - a + n.

Ltac cyc_tac := intros; unfold cyc, dst in *; repeat zb; try lia.

Lemma cyc_range a d : 0 <= a < n -> 0 <= d <= n -> 0 <= cyc a d < n.
Proof. cyc_tac. Qed.
Lemma dst_range a b : 0 <= a < n -> 0 <= b < n -> 0 <= dst a b < n.
Proof. cyc_tac. Qed.
Lemma cyc_dst a b : 0 <= a < n -> 0 <= b < n -> cyc a (dst a b) = b.
Proof. cyc_tac. Qed.
Lemma dst_cyc a d : 0 <= a < n -> 0 <= d < n -> dst a (cyc a d) = d.
Proof. cyc_tac. Qed.
Lemma cyc_0 a : 0 <= a < n -> cyc a 0 = a.
Proof. cyc_tac. Qed.
Lemma cyc_full a : 0 <= a < n -> cyc a n = a.
Proof. cyc_tac. Qed.
Lemma cyc_inj a d e : 0 <= a < n -> 0 <= d < n -> 0 <= e < n -> cyc a d = cyc a e -> d = e.
Proof. cyc_tac. Qed.
Lemma cyc_cyc a d e : 0 <= a < n -> 0 <= d -> 0 <= e -> d + e <= n -> cyc (cyc a d) e = cyc a (d + e).
Proof. cyc_tac. Qed.
Lemma dst_same a : dst a a = 0.
Proof. cyc_tac. Qed.
Lemma dst_pos a b : 0 <= a < n -> 0 <= b < n -> a <> b -> 0 < dst a b.
Proof. cyc_tac. Qed.
Lemma dst_chain a b c :
  0 <= a < n -> 0 <= b < n -> 0 <= c < n -> dst a b <= dst a c -> dst a c = dst a b + dst b c.
Proof. cyc_tac. Qed.

Hypothesis n_pow2 : pow2_cap n.
Hypothesis n_u32 : n <= 2 ^ 32.

Lemma next_cyc h : 0 <= h < n -> next (n - 1) h = cyc h 1.
Proof.
  intros. unfold next. rewrite land_cap, u32_mod_cap by done. unfold cyc. zb.
  - apply Z.mod_small. lia.
  - replace (h + 1) with n by lia. rewrite Z.mod_same; lia.
Qed.

End cyclic.

#[export] Hint Resolve cyc_range dst_range : gravel.

(** ** What the loops compute *)

Section theory.
Context {Slot : Type} {PS : ProbeSlot Slot}.
Implicit Types (slots : list Slot) (k h : Z).

(** A table: a power-of-two number of slots that fits in [uint32_t]. *)
Definition table slots : Prop := pow2_cap (zlen slots) /\ zlen slots <= 2 ^ 31.

#[local] Abbreviation hm slots k := (home (zlen slots - 1) k).

(** The slot at position [i] is occupied; it is occupied by another key. *)
Definition occ_at slots (i : Z) : Prop := exists s, rd slots i = Ret s /\ occ s = true.
Definition other_at slots k (i : Z) : Prop :=
  exists s, rd slots i = Ret s /\ occ s = true /\ skey s <> k.

(** The key of every occupied slot is reachable from its home slot without
    crossing an empty slot, and no key is stored twice. *)
Definition reach slots : Prop :=
  forall i s, rd slots i = Ret s -> occ s = true ->
  forall d, 0 <= d < dst (zlen slots) (hm slots (skey s)) i ->
  occ_at slots (cyc (zlen slots) (hm slots (skey s)) d).

Definition uniq slots : Prop :=
  forall i j s t, rd slots i = Ret s -> rd slots j = Ret t ->
  occ s = true -> skey s = skey t -> i = j.

(** The slots a table stores, as a set. *)
Definition stored slots (s : Slot) : Prop := s ∈ slots /\ occ s = true.

Definition absent slots k : Prop := forall s, stored slots s -> skey s <> k.

Lemma occ_true s : occ s = true <-> skey s <> ekey.
Proof. unfold occ. zb; simpl; split; intros; congruence. Qed.
Lemma occ_false s : occ s = false <-> skey s = ekey.
Proof. unfold occ. zb; simpl; split; intros; congruence. Qed.

Lemma table_pos slots : table slots -> 0 < zlen slots.
Proof. intros [H _]. by apply pow2_cap_pos. Qed.

Lemma home_range slots k : table slots -> 0 <= hm slots k < zlen slots.
Proof.
  intros [H ?]. unfold home. rewrite land_cap by done.
  apply Z.mod_pos_bound. by apply pow2_cap_pos.
Qed.

Lemma next_range slots h : table slots -> 0 <= h < zlen slots ->
  next (zlen slots - 1) h = cyc (zlen slots) h 1.
Proof. intros [??] ?. apply next_cyc; auto; lia. Qed.

Lemma table_insert slots (i : nat) s : table slots -> table (<[i := s]> slots).
Proof. unfold table. by rewrite zlen_insert. Qed.

Lemma stored_rd slots s : stored slots s <-> exists i, rd slots i = Ret s /\ occ s = true.
Proof.
  split.
  - intros [[i Hi]%elem_rd Ho]. eauto.
  - intros (i & Hi & Ho). split; auto. by eapply rd_elem.
Qed.

Hint Resolve home_range table_pos table_insert : gravel.

(** *** The search loop, from any point of its way *)

Section scan.
Variables (slots : list Slot) (k start : Z) (stop : option Z).
Hypothesis Htab : table slots.
Hypothesis Hstart : 0 <= start < zlen slots.
Hypothesis Hstop : stop = None \/ stop = Some start.
#[local] Abbreviation nn := (zlen slots).

Lemma probe_step fuel d :
  0 <= d < nn -> other_at slots k (cyc nn start d) -> d + 1 < nn ->
  probe (S fuel) slots (nn - 1) k stop (cyc nn start d) =
  probe fuel slots (nn - 1) k stop (cyc nn start (d + 1)).
Proof.
  intros Hd (s & Hs & Ho%occ_true & Hk) Hd'. simpl. rewrite Hs. simpl.
  destruct (Z.eqb_spec (skey s) ekey); [congruence|].
  destruct (Z.eqb_spec (skey s) k); [congruence|].
  rewrite next_range by (try done; apply cyc_range; lia).
  rewrite cyc_cyc by lia.
  destruct Hstop as [->| ->]; [done|].
  destruct (Z.eqb_spec (cyc nn start (d + 1)) start) as [E|]; [|done].
  rewrite <- (cyc_0 nn start) in E at 2 by lia.
  apply cyc_inj in E; lia.
Qed.

Lemma probe_scan fuel d d' s :
  0 <= d <= d' -> d' < nn ->
  (forall e, d <= e < d' -> other_at slots k (cyc nn start e)) ->
  rd slots (cyc nn start d') = Ret s -> (occ s = true -> skey s = k) ->
  (Z.to_nat (d' - d) < fuel)%nat ->
  probe fuel slots (nn - 1) k stop (cyc nn start d) =
  Ret (if occ s then PFound (cyc nn start d') else PEmpty (cyc nn start d')).
Proof.
  revert d. induction fuel as [|fuel IH]; intros d Hd Hd' Hall Hs Hk Hf; [lia|].
  destruct (decide (d = d')) as [->|Hne].
  - simpl. rewrite Hs. simpl. destruct (occ s) eqn:Ho.
    + apply occ_true in Ho as Ho'. destruct (Z.eqb_spec (skey s) ekey); [congruence|].
      rewrite (Hk eq_refl), Z.eqb_refl. done.
    + apply occ_false in Ho. rewrite Ho, Z.eqb_refl. done.
  - rewrite probe_step by (try apply Hall; lia). apply IH; auto; try lia.
    intros e He. apply Hall. lia.
Qed.

Lemma probe_full fuel d :
  0 <= d < nn -> stop = Some start ->
  (forall e, d <= e < nn -> other_at slots k (cyc nn start e)) ->
  (Z.to_nat (nn - d) <= fuel)%nat ->
  probe fuel slots (nn - 1) k stop (cyc nn start d) = Ret (PWrapped start).
Proof.
  revert d. induction fuel as [|fuel IH]; intros d Hd Hst Hall Hf; [lia|].
  destruct (decide (d + 1 = nn)) as [Hl|Hl].
  - destruct (Hall d) as (s & Hs & Ho%occ_true & Hk); [lia|]. simpl. rewrite Hs. simpl.
    destruct (Z.eqb_spec (skey s) ekey); [congruence|].
    destruct (Z.eqb_spec (skey s) k); [congruence|].
    rewrite next_range by (try done; apply cyc_range; lia).
    rewrite cyc_cyc by lia. rewrite Hl, cyc_full, Hst, Z.eqb_refl by done. done.
  - rewrite probe_step by (try apply Hall; lia). apply IH; auto; try lia.
    intros e He. apply Hall. lia.
Qed.

Lemma probe_scan0 fuel d' s :
  0 <= d' < nn ->
  (forall e, 0 <= e < d' -> other_at slots k (cyc nn start e)) ->
  rd slots (cyc nn start d') = Ret s -> (occ s = true -> skey s = k) ->
  (Z.to_nat d' < fuel)%nat ->
  probe fuel slots (nn - 1) k stop start =
  Ret (if occ s then PFound (cyc nn start d') else PEmpty (cyc nn start d')).
Proof.
  intros. rewrite <- (probe_scan fuel 0 d' s) by (auto; lia). by rewrite cyc_0.
Qed.

Lemma probe_full0 fuel :
  stop = Some start -> (forall e, 0 <= e < nn -> other_at slots k (cyc nn start e)) ->
  (Z.to_nat nn <= fuel)%nat ->
  probe fuel slots (nn - 1) k stop start = Ret (PWrapped start).
Proof.
  intros. rewrite <- (probe_full fuel 0) by (auto; lia). by rewrite cyc_0.
Qed.

(** A scan either meets an empty slot or the key, or sees other keys only. *)
Lemma scan_cases (m : nat) :
  Z.of_nat m <= nn ->
  (forall e, 0 <= e < Z.of_nat m -> other_at slots k (cyc nn start e)) \/
  exists d s, 0 <= d < Z.of_nat m /\
    (forall e, 0 <= e < d -> other_at slots k (cyc nn start e)) /\
    rd slots (cyc nn start d) = Ret s /\ (occ s = true -> skey s = k).
Proof.
  induction m as [|m IH]; intros Hm; [left; lia|].
  destruct IH as [IH|(d & s & Hd & H1 & H2 & H3)]; [lia| |right; exists d, s; split; auto; lia].
  destruct (rd_in_range slots (cyc nn start (Z.of_nat m))) as [s Hs].
  { apply cyc_range; lia. }
  destruct (occ s) eqn:Ho; [destruct (decide (skey s = k))|].
  - right. exists (Z.of_nat m), s. repeat split; auto; lia.
  - left. intros e He. destruct (decide (e = Z.of_nat m)) as [->|]; [|apply IH; lia].
    exists s. auto.
  - right. exists (Z.of_nat m), s. repeat split; auto; try lia. congruence.
Qed.

End scan.

(** *** The search loop started at the key's home slot *)

(** Every slot on the way from the home slot of [k] to [h] holds another key. *)
Definition path_other slots k h : Prop :=
  forall d, 0 <= d < dst (zlen slots) (hm slots k) h ->
  other_at slots k (cyc (zlen slots) (hm slots k) d).

Definition probe_post slots k (r : probe_result) : Prop :=
  match r with
  | PFound h => exists s, rd slots h = Ret s /\ occ s = true /\ skey s = k
  | PEmpty h => (exists s, rd slots h = Ret s /\ occ s = false) /\ path_other slots k h
  | PWrapped h => h = hm slots k /\ forall i, 0 <= i < zlen slots -> other_at slots k i
  end.

(** With the guard the loop always ends; without it, it ends when the table has
    an empty slot. *)
Lemma probe_spec slots k stop :
  table slots -> k <> ekey ->
  (stop = Some (hm slots k) \/ (stop = None /\ exists i s, rd slots i = Ret s /\ occ s = false)) ->
  exists r, probe (probe_fuel slots) slots (zlen slots - 1) k stop (hm slots k) = Ret r /\
            probe_post slots k r /\ (stop = None -> forall h, r <> PWrapped h).
Proof.
  intros Ht Hk Hstop. pose proof (home_range slots k Ht) as Hh.
  pose proof (table_pos _ Ht) as Hn.
  assert (stop = None \/ stop = Some (hm slots k)) as Hst by tauto.
  destruct (scan_cases slots k (hm slots k) Hh (length slots)) as [Hall|(d & s & Hd & H1 & H2 & H3)].
  { unfold zlen. lia. }
  - fold (zlen slots) in Hall.
    assert (forall i, 0 <= i < zlen slots -> other_at slots k i) as Hoth.
    { intros i Hi. rewrite <- (cyc_dst (zlen slots) (hm slots k) i) by done.
      apply Hall. by apply dst_range. }
    destruct Hstop as [->|(-> & i & s & Hi & Ho)].
    + eexists. split; [apply probe_full0; auto; unfold probe_fuel, zlen; lia|].
      split; [by split|discriminate].
    + destruct (Hoth i) as (s' & Hs' & Ho' & _); [by eapply rd_ret_range|]. congruence.
  - fold (zlen slots) in Hd.
    eexists. split; [eapply probe_scan0; eauto; unfold probe_fuel, zlen in *; lia|].
    destruct (occ s) eqn:Ho; (split; [|discriminate]); simpl.
    + exists s. auto.
    + split; [exists s; auto|]. intros e He. rewrite dst_cyc in He by lia. auto.
Qed.

Lemma path_other_absent slots k h :
  table slots -> reach slots -> path_other slots k h ->
  (exists s, rd slots h = Ret s /\ occ s = false) -> absent slots k.
Proof.
  intros Ht Hr Hp (sh & Hsh & Hoh) s (i & Hi & Ho)%stored_rd <-.
  pose proof (rd_ret_range _ _ _ Hi). pose proof (rd_ret_range _ _ _ Hsh).
  pose proof (home_range slots (skey s) Ht).
  destruct (Z.lt_ge_cases (dst (zlen slots) (hm slots (skey s)) i)
              (dst (zlen slots) (hm slots (skey s)) h)) as [Hlt|Hge].
  - destruct (Hp (dst (zlen slots) (hm slots (skey s)) i)) as (t & Ht' & _ & Hne).
    { pose proof (dst_range (zlen slots) (hm slots (skey s)) i). lia. }
    rewrite cyc_dst in Ht' by done. congruence.
  - destruct (decide (i = h)) as [->|Hne]; [congruence|].
    destruct (Hr i s Hi Ho (dst (zlen slots) (hm slots (skey s)) h)) as (t & Ht' & Ho').
    { pose proof (dst_range (zlen slots) (hm slots (skey s)) h).
      assert (dst (zlen slots) (hm slots (skey s)) h <> dst (zlen slots) (hm slots (skey s)) i); [|lia].
      intros E. apply Hne. rewrite <- (cyc_dst (zlen slots) (hm slots (skey s)) i), <- E by done.
      by apply cyc_dst. }
    rewrite cyc_dst in Ht' by done. congruence.
Qed.

(** Under the reachability invariant the search is complete: it misses only
    keys that are not stored. *)
Lemma probe_complete slots k r :
  table slots -> reach slots -> probe_post slots k r ->
  match r with
  | PFound h => exists s, rd slots h = Ret s /\ skey s = k /\ stored slots s
  | PEmpty _ | PWrapped _ => absent slots k
  end.
Proof.
  intros Ht Hr Hp. destruct r as [h|h|h]; simpl in Hp.
  - destruct Hp as (s & Hs & Ho & Hk). exists s. repeat split; auto. by eapply rd_elem.
  - destruct Hp as [He Hp]. by eapply path_other_absent.
  - destruct Hp as [_ Hp]. intros s (i & Hi & Ho)%stored_rd.
    destruct (Hp i) as (t & Ht' & _ & Hne); [by eapply rd_ret_range|]. congruence.
Qed.

Lemma probe_found_uniq slots k i s t :
  uniq slots -> stored slots t -> skey t = k ->
  rd slots i = Ret s -> skey s = k -> t = s.
Proof.
  intros Hu (j & Hj & Ho)%stored_rd Hk Hi Hs.
  assert (j = i) as -> by (eapply Hu; eauto; congruence). congruence.
Qed.

(** *** Writing into a table *)

(** Inserting at the empty slot the search stopped at. *)
Lemma reach_insert slots h s old :
  table slots -> reach slots -> rd slots h = Ret old -> occ old = false ->
  path_other slots (skey s) h -> reach (<[Z.to_nat h := s]> slots).
Proof.
  intros Ht Hr Hh Hoh Hp i t Hi Ho d. rewrite zlen_insert. intros Hd.
  pose proof (rd_ret_range _ _ _ Hh) as Hhr. pose proof (rd_ret_range _ _ _ Hi) as Hir.
  rewrite zlen_insert in Hir.
  set (p := cyc (zlen slots) (hm slots (skey t)) d).
  assert (occ_at slots p -> occ_at (<[Z.to_nat h:=s]> slots) p) as Hmono.
  { intros (x & Hx & Hox). exists x. split; auto. rewrite rd_insert_ne; auto; [lia|].
    intros <-. congruence. }
  apply Hmono. destruct (decide (i = h)) as [->|Hne].
  - rewrite rd_insert_eq in Hi by done. simplify_eq.
    destruct (Hp d Hd) as (x & Hx & Hox & _). exists x. auto.
  - rewrite rd_insert_ne in Hi by (auto; lia). by eapply Hr.
Qed.

Lemma uniq_insert slots h s old :
  uniq slots -> absent slots (skey s) -> rd slots h = Ret old -> occ old = false ->
  uniq (<[Z.to_nat h := s]> slots).
Proof.
  intros Hu Ha Hh Hoh i j a b Hi Hj Ho Hk.
  pose proof (rd_ret_range _ _ _ Hh) as Hhr.
  destruct (decide (i = h)) as [->|Hi']; destruct (decide (j = h)) as [->|Hj']; auto;
    rewrite ?rd_insert_eq in * by done; rewrite ?rd_insert_ne in * by (auto; lia); simplify_eq.
  - exfalso. apply (Ha b); [|done]. apply stored_rd. exists j. split; auto.
    apply occ_true in Ho. apply occ_true. congruence.
  - exfalso. apply (Ha a); [|done]. apply stored_rd. eauto.
  - by eapply Hu.
Qed.

Lemma stored_insert slots h s old t :
  rd slots h = Ret old -> occ old = false -> occ s = true ->
  stored (<[Z.to_nat h := s]> slots) t <-> t = s \/ stored slots t.
Proof.
  intros Hh Hoh Ho. pose proof (rd_ret_range _ _ _ Hh) as Hhr. rewrite !stored_rd. split.
  - intros (i & Hi & Hoi). destruct (decide (i = h)) as [->|Hne].
    + rewrite rd_insert_eq in Hi by done. simplify_eq. auto.
    + rewrite rd_insert_ne in Hi by (auto; lia). eauto.
  - intros [->|(i & Hi & Hoi)].
    + exists h. by rewrite rd_insert_eq.
    + exists i. split; auto. rewrite rd_insert_ne; auto; [lia|]. intros <-. congruence.
Qed.

(** Overwriting the slot of a key keeps its key. *)
Lemma reach_update slots h s old :
  reach slots -> rd slots h = Ret old -> occ old = true -> skey s = skey old ->
  reach (<[Z.to_nat h := s]> slots).
Proof.
  intros Hr Hh Hoh Hk i t Hi Ho d. rewrite zlen_insert. intros Hd.
  pose proof (rd_ret_range _ _ _ Hh) as Hhr.
  assert (forall p, occ_at slots p -> occ_at (<[Z.to_nat h:=s]> slots) p) as Hmono.
  { intros p (x & Hx & Hox). destruct (decide (h = p)) as [<-|].
    - exists s. rewrite rd_insert_eq by done. split; auto. apply occ_true in Hoh. apply occ_true. congruence.
    - exists x. rewrite rd_insert_ne by (auto; lia). auto. }
  apply Hmono. destruct (decide (i = h)) as [->|Hne].
  - rewrite rd_insert_eq in Hi by done. simplify_eq. rewrite Hk in *. by eapply Hr.
  - rewrite rd_insert_ne in Hi by (auto; lia). by eapply Hr.
Qed.

Lemma uniq_update slots h s old :
  uniq slots -> rd slots h = Ret old -> occ old = true -> skey s = skey old ->
  uniq (<[Z.to_nat h := s]> slots).
Proof.
  intros Hu Hh Hoh Hk i j a b Hi Hj Ho Hab.
  pose proof (rd_ret_range _ _ _ Hh) as Hhr.
  destruct (decide (i = h)) as [->|Hi']; destruct (decide (j = h)) as [->|Hj']; auto;
    rewrite ?rd_insert_eq in * by done; rewrite ?rd_insert_ne in * by (auto; lia); simplify_eq.
  - eapply Hu; eauto; congruence.
  - eapply Hu; eauto; congruence.
  - by eapply Hu.
Qed.

Lemma stored_update slots h s old t :
  uniq slots -> rd slots h = Ret old -> occ old = true -> skey s = skey old ->
  stored (<[Z.to_nat h := s]> slots) t <-> t = s \/ (stored slots t /\ skey t <> skey s).
Proof.
  intros Hu Hh Hoh Hk. pose proof (rd_ret_range _ _ _ Hh) as Hhr. rewrite !stored_rd. split.
  - intros (i & Hi & Hoi). destruct (decide (i = h)) as [->|Hne].
    + rewrite rd_insert_eq in Hi by done. simplify_eq. auto.
    + rewrite rd_insert_ne in Hi by (auto; lia). right. split; eauto.
      intros E. apply Hne. eapply Hu; eauto. congruence.
  - intros [->|[(i & Hi & Hoi) Hne]].
    + exists h. rewrite rd_insert_eq by done. split; auto.
      apply occ_true in Hoh. apply occ_true. congruence.
    + exists i. split; auto. rewrite rd_insert_ne; auto; [lia|]. intros <-. congruence.
Qed.

(** Emptying the slot of a key. *)
Lemma stored_clear slots h s E t :
  uniq slots -> rd slots h = Ret s -> occ s = true -> occ E = false ->
  stored (<[Z.to_nat h := E]> slots) t <-> stored slots t /\ skey t <> skey s.
Proof.
  intros Hu Hh Ho HE. pose proof (rd_ret_range _ _ _ Hh) as Hhr. rewrite !stored_rd. split.
  - intros (i & Hi & Hoi). destruct (decide (i = h)) as [->|Hne].
    + rewrite rd_insert_eq in Hi by done. congruence.
    + rewrite rd_insert_ne in Hi by (auto; lia). split; eauto.
  - intros [(i & Hi & Hoi) Hne]. exists i. split; auto.
    rewrite rd_insert_ne; auto; [lia|]. intros <-. congruence.
Qed.

Lemma uniq_clear slots h E :
  uniq slots -> 0 <= h < zlen slots -> occ E = false -> uniq (<[Z.to_nat h := E]> slots).
Proof.
  intros Hu Hhr HE i j a b Hi Hj Ho Hk.
  assert (a <> E /\ b <> E) as [Ha Hb].
  { apply occ_true in Ho. apply occ_false in HE. split; congruence. }
  destruct (decide (i = h)) as [->|Hi']; destruct (decide (j = h)) as [->|Hj']; auto;
    rewrite ?rd_insert_eq in * by done; rewrite ?rd_insert_ne in * by (auto; lia); simplify_eq.
  - by eapply Hu.
Qed.

(** A table with fewer stored slots than capacity has an empty slot. *)
Lemma has_empty slots :
  countb occ slots < zlen slots -> exists i s, rd slots i = Ret s /\ occ s = false.
Proof. apply countb_lt_ex. Qed.

Lemma reach_replicate m s : occ s = false -> reach (replicate m s).
Proof. intros Hs i t [-> _]%rd_replicate Ho. congruence. Qed.
Lemma uniq_replicate m s : occ s = false -> uniq (replicate m s).
Proof. intros Hs i j a b [-> _]%rd_replicate _ Ho. congruence. Qed.
Lemma stored_replicate m s t : occ s = false -> ~ stored (replicate m s) t.
Proof. intros Hs (i & [-> _]%rd_replicate & Ho)%stored_rd. congruence. Qed.

(** Keys stored once make the stored slots a list without duplicates, so the
    number of stored slots is determined by the set of stored slots. *)
Lemma uniq_NoDup slots : uniq slots -> NoDup (List.filter occ slots).
Proof.
  induction slots as [|x l IH]; intros Hu; simpl; [constructor|].
  assert (uniq l) as Hu'.
  { intros i j a b Hi Hj Ho Hk. pose proof (rd_ret_range _ _ _ Hi). pose proof (rd_ret_range _ _ _ Hj).
    cut (i + 1 = j + 1); [lia|]. eapply (Hu (i + 1) (j + 1) a b); auto; rewrite rd_cons by lia.
    - by replace (i + 1 - 1) with i by lia.
    - by replace (j + 1 - 1) with j by lia. }
  destruct (occ x) eqn:Ho; [|auto]. constructor; [|auto].
  rewrite list_elem_of_In, filter_In, <- list_elem_of_In. intros [[i Hi]%elem_rd _].
  pose proof (rd_ret_range _ _ _ Hi). cut (0 = i + 1); [lia|].
  eapply (Hu 0 (i + 1) x x); auto. rewrite rd_cons by lia. by replace (i + 1 - 1) with i by lia.
Qed.

Lemma stored_filter slots s : stored slots s <-> s ∈ List.filter occ slots.
Proof. unfold stored. by rewrite !list_elem_of_In, filter_In. Qed.

Lemma nocc_delete T F s :
  uniq T -> uniq F -> stored T s -> (forall x, stored F x <-> stored T x /\ skey x <> skey s) ->
  countb occ F = countb occ T - 1.
Proof.
  intros HT HF Hs H. unfold countb, zlen.
  assert (List.filter occ T ≡ₚ s :: List.filter occ F) as ->; [|simpl length; lia].
  apply NoDup_Permutation.
  - by apply uniq_NoDup.
  - constructor; [|by apply uniq_NoDup]. rewrite <- stored_filter, H. tauto.
  - intros x. rewrite elem_of_cons, <- !stored_filter, H.
    split; [|intros [->|[]]; auto]. intros Hx.
    destruct (decide (skey x = skey s)) as [E|]; [left|auto].
    apply stored_rd in Hs as (i & Hi & Ho). by apply (probe_found_uniq T (skey s) i).
Qed.

(** *** The loop that only looks for an empty slot *)

Lemma probe_free_probe fuel slots mask k h :
  k <> ekey -> absent slots k ->
  probe_free fuel slots mask h =
  match probe fuel slots mask k None h with
  | Ret (PEmpty h') => Ret h'
  | Ret _ => Ub
  | Ub => Ub
  | Diverge => Diverge
  end.
Proof.
  intros Hk Ha. revert h. induction fuel as [|fuel IH]; intros h; [done|]. simpl.
  destruct (rd slots h) as [s| |] eqn:Hs; [|done|done]. simpl.
  destruct (Z.eqb_spec (skey s) ekey) as [|Hne]; [done|].
  destruct (Z.eqb_spec (skey s) k) as [E|]; [|apply IH].
  exfalso. apply (Ha s); auto. apply stored_rd. exists h. split; auto. by apply occ_true.
Qed.

Lemma probe_free_spec slots k :
  table slots -> k <> ekey -> absent slots k ->
  (exists i s, rd slots i = Ret s /\ occ s = false) ->
  exists h s, probe_free (probe_fuel slots) slots (zlen slots - 1) (hm slots k) = Ret h /\
    rd slots h = Ret s /\ occ s = false /\ path_other slots k h.
Proof.
  intros Ht Hk Ha He.
  destruct (probe_spec slots k None Ht Hk) as (r & Hr & Hp & Hw); [auto|].
  rewrite (probe_free_probe _ _ _ k) by done. rewrite Hr.
  destruct r as [h|h|h]; simpl in Hp.
  - destruct Hp as (s & Hs & Ho & Hsk). exfalso. apply (Ha s); auto. apply stored_rd. eauto.
  - destruct Hp as [(s & Hs & Ho) Hp]. eauto 10.
  - exfalso. by eapply Hw.
Qed.

(** *** Backward-shift deletion *)

Lemma displaced_dst n ideal e j :
  0 <= ideal < n -> 0 <= e < n -> 0 <= j < n -> e <> j ->
  displaced ideal e j = true <-> dst n e j <= dst n ideal j.
Proof.
  intros. unfold displaced, dst. repeat zb; simpl; split; intros; try lia; try discriminate; auto.
Qed.

Section shift.
Variables (T0 : list Slot) (k h : Z).
Hypothesis Htab : table T0.
Hypothesis Hh : 0 <= h < zlen T0.
#[local] Abbreviation nn := (zlen T0).
#[local] Abbreviation hom k := (home (nn - 1) k).

(** Position [i] holds [s], and is not the hole [e]. *)
Definition at_hole slots e i s : Prop := rd slots i = Ret s /\ occ s = true /\ i <> e.

(** After [t] steps from [h], with the hole [te] steps from [h]: the slots other
    than the hole are the initial ones without [k]; a way to a stored key
    crosses the hole only beyond the scan position; the rest is untouched. *)
Record shift_inv slots (te t : Z) : Prop := {
  si_steps : 0 <= te < t;
  si_len : zlen slots = nn;
  si_stored : forall s, (exists i, at_hole slots (cyc nn h te) i s) <-> stored T0 s /\ skey s <> k;
  si_uniq : forall i j s s', at_hole slots (cyc nn h te) i s -> at_hole slots (cyc nn h te) j s' ->
    skey s = skey s' -> i = j;
  si_path : forall i s, at_hole slots (cyc nn h te) i s ->
    forall d, 0 <= d < dst nn (hom (skey s)) i ->
    (exists s', at_hole slots (cyc nn h te) (cyc nn (hom (skey s)) d) s') \/
    (cyc nn (hom (skey s)) d = cyc nn h te /\ t - te <= dst nn (cyc nn h te) i);
  si_rest : forall u, t <= u < nn -> rd slots (cyc nn h u) = rd T0 (cyc nn h u)
}.

Lemma hom_range x : 0 <= hom x < nn.
Proof. by apply home_range. Qed.

Lemma at_hole_range slots e i s : zlen slots = nn -> at_hole slots e i s -> 0 <= i < nn.
Proof. intros <- (H & _). by eapply rd_ret_range. Qed.

Lemma dst_step te t : 0 <= te < t -> t < nn -> dst nn (cyc nn h te) (cyc nn h t) = t - te.
Proof.
  intros. replace t with (te + (t - te)) at 1 by lia.
  rewrite <- cyc_cyc by lia. apply dst_cyc; [apply cyc_range; lia | lia].
Qed.

(** The first hole is the slot of [k]. *)
Lemma shift_init s :
  reach T0 -> uniq T0 -> rd T0 h = Ret s -> skey s = k -> k <> ekey -> shift_inv T0 0 1.
Proof.
  intros Hr Hu Hs Hk Hne. pose proof (cyc_0 nn h Hh) as C0. split; rewrite ?C0; auto; try lia.
  - intros x. unfold at_hole. rewrite stored_rd. split.
    + intros (i & Hi & Ho & Hih). split; [eauto|]. intros E. apply Hih. eapply Hu; eauto. congruence.
    + intros [(i & Hi & Ho) Hx]. exists i. repeat split; auto. intros ->. congruence.
  - intros i j x y (Hi & Hoi & _) (Hj & Hoj & _) E. eapply Hu; eauto.
  - intros i x (Hi & Ho & Hne') d Hd. destruct (Hr i x Hi Ho d Hd) as (y & Hy & Hoy).
    destruct (decide (cyc nn (hom (skey x)) d = h)) as [E|]; [right|left; exists y; by split].
    split; [done|]. pose proof (rd_ret_range _ _ _ Hi). pose proof (dst_pos nn h i). lia.
Qed.

(** The scan met an empty slot: the hole can be cleared. *)
Lemma shift_final slots te t E s :
  shift_inv slots te t -> t < nn -> rd slots (cyc nn h t) = Ret s -> occ s = false ->
  occ E = false ->
  let F := <[Z.to_nat (cyc nn h te) := E]> slots in
  reach F /\ uniq F /\ forall x, stored F x <-> stored T0 x /\ skey x <> k.
Proof.
  intros [H1 H2 H3 H4 H5 H6] Hte Hs Ho HE F. set (e := cyc nn h te) in *.
  assert (0 <= e < nn) as He by (apply cyc_range; lia).
  assert (zlen F = nn) as HF by (unfold F; by rewrite zlen_insert).
  assert (forall i x, rd F i = Ret x /\ occ x = true <-> at_hole slots e i x) as Hat.
  { intros i x. unfold F, at_hole. destruct (decide (i = e)) as [->|Hne].
    - rewrite rd_insert_eq by lia. split; [intros [? ?]; congruence | tauto].
    - rewrite rd_insert_ne by (auto; lia). tauto. }
  split_and!.
  - intros i x Hi Ho' d. rewrite HF. intros Hd.
    assert (at_hole slots e i x) as Hax by (by apply Hat).
    destruct (H5 i x Hax d Hd) as [(y & Hy)|[E1 E2]].
    { exists y. by apply Hat. }
    exfalso. pose proof (at_hole_range _ _ _ _ H2 Hax) as Hir.
    pose proof (hom_range (skey x)) as Hhr.
    assert (dst nn (hom (skey x)) e = d) as De.
    { rewrite <- E1. apply dst_cyc; auto. pose proof (dst_range nn (hom (skey x)) i). lia. }
    pose proof (dst_chain nn (hom (skey x)) e i) as Hc.
    pose proof (dst_step te t) as Hej. fold e in Hej.
    assert (dst nn e i <> t - te) as Hneq.
    { intros Eq. assert (i = cyc nn h t) as ->.
      { rewrite <- (cyc_dst nn e i), Eq by auto. unfold e. rewrite cyc_cyc by lia. f_equal. lia. }
      destruct Hax as (Hax & Hox & _). congruence. }
    destruct (H5 i x Hax (d + (t - te))) as [(y & Hy)|[E3 _]]; [lia| |].
    + rewrite <- cyc_cyc, E1 in Hy; auto; try lia.
      2: { pose proof (dst_range nn (hom (skey x)) i). lia. }
      unfold e in Hy at 2. rewrite cyc_cyc in Hy by lia.
      replace (te + (t - te)) with t in Hy by lia. destruct Hy as (Hy & Hoy & _). congruence.
    + rewrite <- E1 in E3. apply cyc_inj in E3; auto; pose proof (dst_range nn (hom (skey x)) i); lia.
  - intros i j x y Hi Hj Ho' Hk. apply (H4 i j x y); auto; apply Hat; auto.
    split; auto. apply occ_true in Ho'. apply occ_true. congruence.
  - intros x. rewrite <- H3, stored_rd. split; intros (i & Hi); exists i; by apply Hat.
Qed.

(** A key whose home slot lies after the hole stays. *)
Lemma shift_keep slots te t s :
  shift_inv slots te t -> t < nn -> rd slots (cyc nn h t) = Ret s -> occ s = true ->
  displaced (hom (skey s)) (cyc nn h te) (cyc nn h t) = false ->
  shift_inv slots te (t + 1).
Proof.
  intros [H1 H2 H3 H4 H5 H6] Ht Hs Ho Hd. split; auto; try lia; [|intros u Hu; apply H6; lia].
  intros i x Hx d Hdd. destruct (H5 i x Hx d Hdd) as [Hl|[E1 E2]]; [by left|].
  destruct (decide (dst nn (cyc nn h te) i = t - te)) as [Eq|]; [|right; split; auto; lia].
  exfalso. pose proof (at_hole_range _ _ _ _ H2 Hx) as Hir. pose proof (hom_range (skey x)) as Hhr.
  assert (0 <= cyc nn h te < nn) as He by (apply cyc_range; lia).
  assert (i = cyc nn h t) as ->.
  { rewrite <- (cyc_dst nn (cyc nn h te) i), Eq by auto. rewrite cyc_cyc by lia. f_equal. lia. }
  destruct Hx as (Hx & _ & Hne). rewrite Hs in Hx. simplify_eq.
  apply not_true_iff_false in Hd. apply Hd. rewrite (displaced_dst nn); auto.
  assert (dst nn (hom (skey x)) (cyc nn h te) = d) as De.
  { rewrite <- E1. apply dst_cyc; auto. pose proof (dst_range nn (hom (skey x)) (cyc nn h t)). lia. }
  pose proof (dst_chain nn (hom (skey x)) (cyc nn h te) (cyc nn h t)). lia.
Qed.

(** A key whose home slot lies before the hole moves into it. *)
Lemma shift_move slots te t s :
  shift_inv slots te t -> t < nn -> rd slots (cyc nn h t) = Ret s -> occ s = true ->
  displaced (hom (skey s)) (cyc nn h te) (cyc nn h t) = true ->
  shift_inv (<[Z.to_nat (cyc nn h te) := s]> slots) t (t + 1).
Proof.
  intros [H1 H2 H3 H4 H5 H6] Ht Hs Ho Hd.
  set (e := cyc nn h te) in *. set (j := cyc nn h t) in *.
  assert (0 <= e < nn) as He by (apply cyc_range; lia).
  assert (0 <= j < nn) as Hj by (apply cyc_range; lia).
  assert (e <> j) as Hej. { intros E. apply cyc_inj in E; lia. }
  apply (displaced_dst nn) in Hd; auto using hom_range.
  assert (at_hole slots e j s) as Hjs by (split_and!; auto).
  assert (forall i x, at_hole (<[Z.to_nat e := s]> slots) j i x <->
            (i = e /\ x = s) \/ (at_hole slots e i x /\ i <> j)) as Hat.
  { intros i x. unfold at_hole. destruct (decide (i = e)) as [->|Hne].
    - rewrite rd_insert_eq by lia. split; [intros (E & _); simplify_eq; auto|].
      intros [[_ ->]|[(_ & _ & ?) _]]; [auto|done].
    - rewrite rd_insert_ne by (auto; lia). tauto. }
  split; fold j; try lia.
  - by rewrite zlen_insert.
  - intros x. rewrite <- H3. split.
    + intros (i & [[-> ->]|[Hi _]]%Hat); eauto.
    + intros (i & Hi). destruct (decide (i = j)) as [->|].
      * exists e. apply Hat. left. split; auto. destruct Hi, Hjs. congruence.
      * exists i. apply Hat. auto.
  - intros i i' x y Hi Hi' Hk. apply Hat in Hi, Hi'.
    destruct Hi as [[-> ->]|[Hi Hi2]], Hi' as [[-> ->]|[Hi' Hi2']]; auto.
    + exfalso. apply Hi2'. symmetry. by eapply H4.
    + exfalso. apply Hi2. by eapply H4.
    + by eapply H4.
  - intros i x Hi d Hdd. apply Hat in Hi. pose proof (hom_range (skey x)) as Hhr.
    assert (forall p y, at_hole slots e p y \/ p = e -> p <> j ->
      exists y', at_hole (<[Z.to_nat e:=s]> slots) j p y') as Hin.
    { intros p y [Hp| ->] Hpj; [exists y | exists s]; apply Hat; auto. }
    destruct Hi as [[-> ->]|[Hi Hij]].
    + (* the moved key: its way ends before the old hole *)
      pose proof (dst_range nn (hom (skey s)) j). pose proof (dst_range nn e j).
      pose proof (dst_range nn (hom (skey s)) e).
      assert (dst nn (hom (skey s)) j = dst nn (hom (skey s)) e + dst nn e j) as Hch.
      { apply dst_chain; auto. unfold dst in *. repeat zb; lia. }
      destruct (H5 j s Hjs d) as [(y & Hy)|[E _]]; [lia| |].
      * left. apply (Hin _ y); auto. intros E.
        assert (dst nn (hom (skey s)) j = d) by (rewrite <- E; apply dst_cyc; lia). lia.
      * assert (dst nn (hom (skey s)) e = d) by (rewrite <- E; apply dst_cyc; lia). lia.
    + destruct (decide (cyc nn (hom (skey x)) d = j)) as [Ej|Nj].
      * right. split; auto. pose proof (at_hole_range _ _ _ _ H2 Hi).
        pose proof (dst_pos nn j i). lia.
      * left. destruct (H5 i x Hi d Hdd) as [(y & Hy)|[E _]]; [apply (Hin _ y)|apply (Hin _ x)]; auto.
  - intros u Hu. rewrite rd_insert_ne; [apply H6; lia|lia|].
    intros E. apply cyc_inj in E; lia.
Qed.

(** With an empty slot in the table, the deletion ends at it, and what is left
    is the table without the key. *)
Lemma shift_loop_spec tz sz slots te t fuel :
  t <= tz < nn -> rd T0 (cyc nn h tz) = Ret sz -> occ sz = false ->
  shift_inv slots te t -> (Z.to_nat (tz - t) < fuel)%nat ->
  exists slots' e', shift_loop fuel slots (nn - 1) h (cyc nn h te) (cyc nn h t) = Ret (slots', e') /\
    zlen slots' = nn /\ 0 <= e' < nn /\
    forall E, occ E = false ->
    let F := <[Z.to_nat e' := E]> slots' in
    reach F /\ uniq F /\ forall x, stored F x <-> stored T0 x /\ skey x <> k.
Proof.
  intros Htz Hz Hoz. revert slots te t Htz.
  induction fuel as [|fuel IH]; intros slots te t Htz Hinv Hf; [lia|].
  pose proof Hinv as [H1 H2 H3 H4 H5 H6]. simpl.
  destruct (rd_in_range slots (cyc nn h t)) as [s Hs]. { rewrite H2. apply cyc_range; lia. }
  rewrite Hs. simpl. destruct (Z.eqb_spec (skey s) ekey) as [Ek|Ek].
  - exists slots, (cyc nn h te). split_and!; auto; try (apply cyc_range; lia).
    intros E HE. eapply shift_final; eauto; [lia|]. by apply occ_false.
  - apply occ_true in Ek.
    assert (t < tz) as Hlt. { destruct (decide (t = tz)) as [->|]; [|lia]. rewrite H6 in Hs by lia. congruence. }
    assert (next (nn - 1) (cyc nn h t) = cyc nn h (t + 1)) as Hn.
    { rewrite next_range by (auto; apply cyc_range; lia). apply cyc_cyc; lia. }
    assert ((cyc nn h (t + 1) =? h) = false) as Hnh.
    { apply Z.eqb_neq. intros E. rewrite <- (cyc_0 nn h) in E at 2 by done. apply cyc_inj in E; lia. }
    destruct (displaced (hom (skey s)) (cyc nn h te) (cyc nn h t)) eqn:Ed.
    + rewrite wr_ret by (rewrite H2; apply cyc_range; lia). simpl. rewrite Hn, Hnh.
      apply IH; try lia. apply shift_move; auto; lia.
    + simpl. rewrite Hn, Hnh. apply IH; try lia. eapply shift_keep; eauto; lia.
Qed.

End shift.

Lemma shift_loop_delete slots h s :
  table slots -> reach slots -> uniq slots -> rd slots h = Ret s -> occ s = true ->
  (exists i x, rd slots i = Ret x /\ occ x = false) ->
  exists slots' e',
    shift_loop (probe_fuel slots) slots (zlen slots - 1) h h (next (zlen slots - 1) h) =
      Ret (slots', e') /\
    zlen slots' = zlen slots /\ 0 <= e' < zlen slots /\
    forall E, occ E = false ->
    let F := <[Z.to_nat e' := E]> slots' in
    reach F /\ uniq F /\ forall x, stored F x <-> stored slots x /\ skey x <> skey s.
Proof.
  intros Ht Hr Hu Hs Ho (i & x & Hi & Hx).
  pose proof (rd_ret_range _ _ _ Hs) as Hh. pose proof (rd_ret_range _ _ _ Hi) as Hir.
  assert (h <> i) as Hne by congruence.
  rewrite next_range by done. pose proof (dst_range (zlen slots) h i Hh Hir).
  pose proof (shift_loop_spec slots (skey s) h Ht Hh (dst (zlen slots) h i) x slots 0 1
                (probe_fuel slots)) as HS.
  rewrite cyc_0 in HS by done. apply HS; auto.
  - pose proof (dst_pos (zlen slots) h i). lia.
  - by rewrite cyc_dst.
  - eapply shift_init; eauto. by apply occ_true.
  - unfold probe_fuel, zlen in *. lia.
Qed.

End theory.

#[export] Hint Resolve home_range table_pos table_insert : gravel.
