(* ===== verification/HashIndex.v ===== *)
(** HashIndex: feat_id -> (dim_idx, entry_idx), src/hash_index.c.

    Open addressing with linear probing and incremental rehash: growing the
    table keeps the previous one beside it and every operation migrates a
    batch of its slots. The state and the operations come first, then the
    invariant [hi_inv idx m], which says that [idx] stores exactly the finite
    map [m], then what each operation does to [m]. *)

From S2P Require Import Prelude LinearProbe.

(** ** State (graveldb_impl.h) *)

Definition HASH_REHASH_BATCH : Z := 16.

Record HashSlot : Type := mkHashSlot { feat_id : Z; dim_idx : Z; entry_idx : Z }.

Record HashIndex : Type := mkHashIndex {
  hi_slots : option (list HashSlot);
  hi_capacity : Z;
  hi_count : Z;
  hi_mask : Z;
  hi_old_slots : option (list HashSlot);
  hi_old_capacity : Z;
  hi_old_mask : Z;
  hi_rehash_cursor : Z
}.

(** The index an iterator points to is the argument of its operations. *)
Record HashIter : Type := mkHashIter { it_pos : Z; it_in_old : bool }.

Definition empty_slot : HashSlot := mkHashSlot 0 0 0.

(** ** Operations *)

(** Truncation of the final 64-bit value to [uint32_t] included. *)
Definition hash64 (key : Z) : Z :=
  let key := Z.lxor key (Z.shiftr key 30) in
  let key := u64 (key * 0xbf58476d1ce4e5b9) in
  let key := Z.lxor key (Z.shiftr key 27) in
  let key := u64 (key * 0x94d049bb133111eb) in
  let key := Z.lxor key (Z.shiftr key 31) in
  u32 key.

Lemma hash64_nonneg key : 0 <= hash64 key.
Proof. unfold hash64. apply u32_range. Qed.

#[export] Instance hash_slot_probe : ProbeSlot HashSlot := {
  skey := feat_id; ekey := 0; phash := hash64; phash_nonneg := hash64_nonneg
}.

Definition insert_into_table (slots : list HashSlot) (mask fid dim entry : Z) : res (list HashSlot) :=
  let! h := probe_free (probe_fuel slots) slots mask (home mask fid) in
  wr slots h (mkHashSlot fid dim entry).

(** [slot->feat_id = 0]: the other fields keep their values. *)
Definition clear_slot (s : HashSlot) : HashSlot := mkHashSlot 0 (dim_idx s) (entry_idx s).

(** The migration loop of rehash_step. *)
Fixpoint rehash_loop (fuel : nat) (slots : list HashSlot) (mask : Z) (old : list HashSlot)
    (old_capacity cursor migrated : Z) : res (list HashSlot * list HashSlot * Z) :=
  match fuel with
  | O => Diverge
  | S fuel =>
    if (cursor <? old_capacity) && (migrated <? HASH_REHASH_BATCH) then
      let! slot := rd old cursor in
      if negb (feat_id slot =? 0) then
        let! slots' := insert_into_table slots mask (feat_id slot) (dim_idx slot) (entry_idx slot) in
        let! old' := wr old cursor (clear_slot slot) in
        rehash_loop fuel slots' mask old' old_capacity (u32 (cursor + 1)) (migrated + 1)
      else rehash_loop fuel slots mask old old_capacity (u32 (cursor + 1)) migrated
    else Ret (slots, old, cursor)
  end.

Definition rehash_step (idx : HashIndex) : res HashIndex :=
  match hi_old_slots idx with
  | None => Ret idx
  | Some old =>
    let! slots := deref (hi_slots idx) in
    let! '(slots', old', cursor') :=
      rehash_loop (S (length old)) slots (hi_mask idx) old (hi_old_capacity idx) (hi_rehash_cursor idx) 0 in
    if hi_old_capacity idx <=? cursor' then
      Ret (mkHashIndex (Some slots') (hi_capacity idx) (hi_count idx) (hi_mask idx) None 0 0 0)
    else
      Ret (mkHashIndex (Some slots') (hi_capacity idx) (hi_count idx) (hi_mask idx)
             (Some old') (hi_old_capacity idx) (hi_old_mask idx) cursor')
  end.

(** [alloc_ok] is the outcome of the [calloc] of the new table. *)
Definition hash_index_begin_grow (alloc_ok : bool) (idx : HashIndex) : graveldb_status_t * HashIndex :=
  let new_cap := u32 (hi_capacity idx * 2) in
  if negb alloc_ok then (GRAVELDB_ERR_OOM, idx)
  else (GRAVELDB_OK,
        mkHashIndex (Some (replicate (Z.to_nat new_cap) empty_slot)) new_cap (hi_count idx)
          (u32 (new_cap - 1)) (hi_slots idx) (hi_capacity idx) (hi_mask idx) 0).

(** [uint32_t cap = 1; while (cap < capacity) cap <<= 1;]: after 32 doublings
    [cap] is 0 and the loop never ends, so 34 rounds of fuel are enough. *)
Fixpoint init_cap (fuel : nat) (cap capacity : Z) : res Z :=
  match fuel with
  | O => Diverge
  | S fuel => if cap <? capacity then init_cap fuel (u32 (cap * 2)) capacity else Ret cap
  end.

Definition hash_index_init (alloc_ok : bool) (idx : HashIndex) (capacity : Z) :
    res (graveldb_status_t * HashIndex) :=
  let! cap := init_cap 34 1 capacity in
  if negb alloc_ok then
    Ret (GRAVELDB_ERR_OOM,
         mkHashIndex None (hi_capacity idx) (hi_count idx) (hi_mask idx) (hi_old_slots idx)
           (hi_old_capacity idx) (hi_old_mask idx) (hi_rehash_cursor idx))
  else
    Ret (GRAVELDB_OK,
         mkHashIndex (Some (replicate (Z.to_nat cap) empty_slot)) cap 0 (u32 (cap - 1)) None 0 0 0).

Definition hash_index_destroy (idx : HashIndex) : HashIndex :=
  mkHashIndex None 0 0 (hi_mask idx) None 0 (hi_old_mask idx) (hi_rehash_cursor idx).

Definition set_slots (idx : HashIndex) (sl : list HashSlot) : HashIndex :=
  mkHashIndex (Some sl) (hi_capacity idx) (hi_count idx) (hi_mask idx) (hi_old_slots idx)
    (hi_old_capacity idx) (hi_old_mask idx) (hi_rehash_cursor idx).
Definition set_old_slots (idx : HashIndex) (sl : list HashSlot) : HashIndex :=
  mkHashIndex (hi_slots idx) (hi_capacity idx) (hi_count idx) (hi_mask idx) (Some sl)
    (hi_old_capacity idx) (hi_old_mask idx) (hi_rehash_cursor idx).
Definition set_count (idx : HashIndex) (c : Z) : HashIndex :=
  mkHashIndex (hi_slots idx) (hi_capacity idx) c (hi_mask idx) (hi_old_slots idx)
    (hi_old_capacity idx) (hi_old_mask idx) (hi_rehash_cursor idx).

(** The search of the previous table: guarded by [oh == start]. A missing
    table behaves as a table without the key. *)
Definition probe_old (idx : HashIndex) (fid : Z) : res (option Z) :=
  match hi_old_slots idx with
  | None => Ret None
  | Some old =>
    let oh := home (hi_old_mask idx) fid in
    let! r := probe (probe_fuel old) old (hi_old_mask idx) fid (Some oh) oh in
    match r with PFound i => Ret (Some i) | _ => Ret None end
  end.

(** The search and the write of hash_index_put, after the table has grown. *)
Definition put_at (idx : HashIndex) (fid dim entry : Z) : res (graveldb_status_t * HashIndex) :=
  let! slots := deref (hi_slots idx) in
  let! r := probe (probe_fuel slots) slots (hi_mask idx) fid None (home (hi_mask idx) fid) in
  match r with
  | PFound h =>
    let! sl := wr slots h (mkHashSlot fid dim entry) in
    Ret (GRAVELDB_OK, set_slots idx sl)
  | PEmpty h | PWrapped h =>
    let! o := probe_old idx fid in
    match o with
    | Some oh =>
      let! old := deref (hi_old_slots idx) in
      let! sl := wr old oh (mkHashSlot fid dim entry) in
      Ret (GRAVELDB_OK, set_old_slots idx sl)
    | None =>
      let! sl := wr slots h (mkHashSlot fid dim entry) in
      Ret (GRAVELDB_OK, set_count (set_slots idx sl) (u32 (hi_count idx + 1)))
    end
  end.

Definition hash_index_put (alloc_ok : bool) (idx : HashIndex) (fid dim entry : Z) :
    res (graveldb_status_t * HashIndex) :=
  if fid =? 0 then Ret (GRAVELDB_ERR_INVALID, idx) else
  let! idx := rehash_step idx in
  let '(st, idx) :=
    match hi_old_slots idx with
    | None => if u32 (hi_capacity idx * 7) <? u32 (hi_count idx * 10)
              then hash_index_begin_grow alloc_ok idx else (GRAVELDB_OK, idx)
    | Some _ => (GRAVELDB_OK, idx)
    end in
  if negb (bool_decide (st = GRAVELDB_OK)) then Ret (st, idx) else put_at idx fid dim entry.

(** The second search of hash_index_get: the previous table. *)
Definition get_in_old (idx : HashIndex) (fid : Z) : res (graveldb_status_t * option (Z * Z) * HashIndex) :=
  let! o := probe_old idx fid in
  match o with
  | Some i =>
    let! old := deref (hi_old_slots idx) in
    let! s := rd old i in
    Ret (GRAVELDB_OK, Some (dim_idx s, entry_idx s), idx)
  | None => Ret (GRAVELDB_ERR_NOT_FOUND, None, idx)
  end.

(** [*out_dim_idx] and [*out_entry_idx] are written on success only. *)
Definition hash_index_get (idx : HashIndex) (fid : Z) :
    res (graveldb_status_t * option (Z * Z) * HashIndex) :=
  if fid =? 0 then Ret (GRAVELDB_ERR_NOT_FOUND, None, idx) else
  let! idx := rehash_step idx in
  let! slots := deref (hi_slots idx) in
  let h := home (hi_mask idx) fid in
  let! r := probe (probe_fuel slots) slots (hi_mask idx) fid (Some h) h in
  match r with
  | PFound i =>
    let! s := rd slots i in
    Ret (GRAVELDB_OK, Some (dim_idx s, entry_idx s), idx)
  | PEmpty _ | PWrapped _ => get_in_old idx fid
  end.

(** The second search of hash_index_remove: the slot of the previous table is
    cleared in place. *)
Definition remove_in_old (idx : HashIndex) (fid : Z) : res (graveldb_status_t * HashIndex) :=
  let! o := probe_old idx fid in
  match o with
  | Some i =>
    let! old := deref (hi_old_slots idx) in
    let! s := rd old i in
    let! sl := wr old i (clear_slot s) in
    Ret (GRAVELDB_OK, set_count (set_old_slots idx sl) (u32 (hi_count idx - 1)))
  | None => Ret (GRAVELDB_ERR_NOT_FOUND, idx)
  end.

Definition hash_index_remove (idx : HashIndex) (fid : Z) : res (graveldb_status_t * HashIndex) :=
  if fid =? 0 then Ret (GRAVELDB_ERR_NOT_FOUND, idx) else
  let! idx := rehash_step idx in
  let! slots := deref (hi_slots idx) in
  let h := home (hi_mask idx) fid in
  let! r := probe (probe_fuel slots) slots (hi_mask idx) fid (Some h) h in
  match r with
  | PFound h =>
    let! '(sl, empty) := shift_loop (probe_fuel slots) slots (hi_mask idx) h h (next (hi_mask idx) h) in
    let! s := rd sl empty in
    let! sl' := wr sl empty (clear_slot s) in
    Ret (GRAVELDB_OK, set_count (set_slots idx sl') (u32 (hi_count idx - 1)))
  | PEmpty _ | PWrapped _ => remove_in_old idx fid
  end.

Definition hash_iter_init : HashIter := mkHashIter 0 false.

(** One of the two scans of hash_iter_next: the slots from [pos] on. *)
Fixpoint iter_scan (fuel : nat) (slots : list HashSlot) (cap pos : Z) : res (option HashSlot * Z) :=
  match fuel with
  | O => Diverge
  | S fuel =>
    if pos <? cap then
      let! s := rd slots pos in
      if negb (feat_id s =? 0) then Ret (Some s, u32 (pos + 1))
      else iter_scan fuel slots cap (u32 (pos + 1))
    else Ret (None, pos)
  end.

Definition iter_old (idx : HashIndex) (it : HashIter) : res (option HashSlot * HashIter) :=
  if it_pos it <? hi_old_capacity idx then
    let! old := deref (hi_old_slots idx) in
    let! '(r, pos) := iter_scan (S (length old)) old (hi_old_capacity idx) (it_pos it) in
    Ret (r, mkHashIter pos true)
  else Ret (None, it).

(** Returns [Some slot] for [true] with the out parameters set, [None] for [false]. *)
Definition hash_iter_next (idx : HashIndex) (it : HashIter) : res (option HashSlot * HashIter) :=
  if negb (it_in_old it) then
    let! slots := deref (hi_slots idx) in
    let! '(r, pos) := iter_scan (S (length slots)) slots (hi_capacity idx) (it_pos it) in
    match r with
    | Some s => Ret (Some s, mkHashIter pos false)
    | None =>
      match hi_old_slots idx with
      | Some _ => iter_old idx (mkHashIter 0 true)
      | None => Ret (None, mkHashIter pos false)
      end
    end
  else iter_old idx it.

(** [while (idx->old_slots) rehash_step(idx);]: each round moves the cursor, so
    the old capacity bounds the number of rounds. *)
Fixpoint finish_loop (fuel : nat) (idx : HashIndex) : res HashIndex :=
  match fuel with
  | O => Diverge
  | S fuel =>
    match hi_old_slots idx with
    | None => Ret idx
    | Some _ => let! idx' := rehash_step idx in finish_loop fuel idx'
    end
  end.

Definition hash_index_finish_rehash (idx : HashIndex) : res HashIndex :=
  finish_loop (S (S (Z.to_nat (hi_old_capacity idx)))) idx.

(** ** The invariant *)

#[local] Abbreviation nocc := (countb (occ (Slot := HashSlot))).

(** A previous table under migration beside the current table [new]: the slots
    below the cursor are migrated, no key is in both tables, and the load
    leaves room for the rest of the migration. *)
Record old_ok (idx : HashIndex) (new old : list HashSlot) : Prop := {
  oo_table : table old;
  oo_cap : hi_old_capacity idx = zlen old;
  oo_mask : hi_old_mask idx = zlen old - 1;
  oo_double : zlen new = zlen old * 2;
  oo_cursor : 0 <= hi_rehash_cursor idx < zlen old;
  oo_done : forall i s, rd old i = Ret s -> i < hi_rehash_cursor idx -> occ s = false;
  oo_uniq : uniq old;
  oo_disj : forall s t, stored new s -> stored old t -> feat_id s <> feat_id t;
  oo_count : hi_count idx = nocc new + nocc old;
  oo_load : 160 * hi_count idx + 10 * nocc old <= 119 * zlen old + 330
}.

(** The slots stored by an index, in either table. *)
Definition hi_stored (idx : HashIndex) (s : HashSlot) : Prop :=
  (exists new, hi_slots idx = Some new /\ stored new s) \/
  (exists old, hi_old_slots idx = Some old /\ stored old s).

Definition slot_of (k : Z) (v : Z * Z) : HashSlot := mkHashSlot k v.1 v.2.

(** [idx] stores exactly the map [m]. *)
Definition models (idx : HashIndex) (m : gmap Z (Z * Z)) : Prop :=
  forall k v, m !! k = Some v <-> hi_stored idx (slot_of k v).

Record hi_inv (idx : HashIndex) (m : gmap Z (Z * Z)) : Prop := {
  hi_models : models idx m;
  hi_new : exists new,
    hi_slots idx = Some new /\ table new /\ hi_capacity idx = zlen new /\
    hi_mask idx = zlen new - 1 /\ reach new /\ uniq new /\
    match hi_old_slots idx with
    | None => hi_count idx = nocc new /\ 10 * hi_count idx <= 7 * zlen new + 10
    | Some old => old_ok idx new old
    end
}.

(** No slot before the scan position of the previous table has been lost: a way
    to one of its keys crosses only occupied slots or migrated ones. *)
Definition old_intact (old : list HashSlot) (cursor : Z) : Prop :=
  forall i s, rd old i = Ret s -> occ s = true ->
  forall d, 0 <= d < dst (zlen old) (home (zlen old - 1) (feat_id s)) i ->
  occ_at old (cyc (zlen old) (home (zlen old - 1) (feat_id s)) d) \/
  cyc (zlen old) (home (zlen old - 1) (feat_id s)) d < cursor.

(** The key is stored in the previous table, but the search does not see it. *)
Definition hi_lost (idx : HashIndex) (k : Z) : Prop :=
  (exists old s, hi_old_slots idx = Some old /\ stored old s /\ feat_id s = k) /\
  probe_old idx k = Ret None.

(** ** Migration *)

Lemma insert_into_table_spec new s :
  table new -> reach new -> uniq new -> occ s = true -> absent new (feat_id s) ->
  nocc new < zlen new ->
  exists new', insert_into_table new (zlen new - 1) (feat_id s) (dim_idx s) (entry_idx s) = Ret new' /\
    zlen new' = zlen new /\ reach new' /\ uniq new' /\ nocc new' = nocc new + 1 /\
    forall t, stored new' t <-> t = s \/ stored new t.
Proof.
  intros Ht Hr Hu Ho Ha Hc. unfold insert_into_table.
  destruct (probe_free_spec new (feat_id s) Ht) as (h & e & Hp & He & Hoe & Hpath);
    [by apply occ_true in Ho | done | by apply has_empty |].
  rewrite Hp. simpl. pose proof (rd_ret_range _ _ _ He) as Hh. rewrite wr_ret by done.
  replace (mkHashSlot (feat_id s) (dim_idx s) (entry_idx s)) with s by (by destruct s).
  eexists. split; [done|]. rewrite zlen_insert. split_and!; auto.
  - by eapply reach_insert.
  - by eapply uniq_insert.
  - rewrite (countb_insert _ _ _ _ e) by done. rewrite Hoe, Ho. lia.
  - intros t. by eapply stored_insert.
Qed.

(** What a batch of the migration keeps, for the slots [P] of both tables. *)
Record migrating (P : HashSlot -> Prop) (new old : list HashSlot) (cursor : Z) : Prop := {
  mg_new : table new /\ reach new /\ uniq new;
  mg_old : table old /\ uniq old;
  mg_cursor : 0 <= cursor <= zlen old;
  mg_done : forall i s, rd old i = Ret s -> i < cursor -> occ s = false;
  mg_disj : forall s t, stored new s -> stored old t -> feat_id s <> feat_id t;
  mg_room : nocc new + nocc old <= zlen new;
  mg_stored : forall s, stored new s \/ stored old s <-> P s
}.

Lemma old_intact_clear old cursor s :
  old_intact old cursor -> rd old cursor = Ret s -> occ s = true ->
  old_intact (<[Z.to_nat cursor := clear_slot s]> old) (cursor + 1).
Proof.
  intros Hin Hs Ho i t Hi Hot d. rewrite zlen_insert. intros Hd.
  pose proof (rd_ret_range _ _ _ Hs) as Hr.
  assert (i <> cursor) as Hne.
  { intros ->. rewrite rd_insert_eq in Hi by done. by simplify_eq. }
  rewrite rd_insert_ne in Hi by (auto; lia).
  set (p := cyc (zlen old) (home (zlen old - 1) (feat_id t)) d).
  destruct (Hin i t Hi Hot d Hd) as [(x & Hx & Hox)|Hlt]; [fold p in Hx|fold p in Hlt; right; lia].
  destruct (decide (p = cursor)); [right; lia|]. left. exists x. split; auto.
  rewrite rd_insert_ne; auto; lia.
Qed.

Lemma migrating_move P new old cursor s new' :
  migrating P new old cursor -> rd old cursor = Ret s -> occ s = true ->
  zlen new' = zlen new -> reach new' -> uniq new' -> nocc new' = nocc new + 1 ->
  (forall t, stored new' t <-> t = s \/ stored new t) ->
  migrating P new' (<[Z.to_nat cursor := clear_slot s]> old) (cursor + 1) /\
  nocc (<[Z.to_nat cursor := clear_slot s]> old) = nocc old - 1.
Proof.
  intros [[Ht Hr] [Hto Huo] Hc Hd Hdj Hrm Hst] Hs Ho Hl Hr' Hu' Hn' Hs'.
  pose proof (rd_ret_range _ _ _ Hs) as Hrg.
  assert (nocc (<[Z.to_nat cursor := clear_slot s]> old) = nocc old - 1) as Hno.
  { rewrite (countb_insert _ _ _ _ s) by done. rewrite Ho. unfold occ. simpl. lia. }
  pose proof (fun t => stored_clear old cursor s (clear_slot s) t Huo Hs Ho eq_refl) as Hcl.
  split; [|done]. split; rewrite ?zlen_insert; try lia.
  - split_and!; auto. unfold table. rewrite Hl. apply Ht.
  - split; [by apply table_insert|]. by apply uniq_clear.
  - intros i t Hi Hlt. destruct (decide (i = cursor)) as [->|].
    + rewrite rd_insert_eq in Hi by done. by simplify_eq.
    + rewrite rd_insert_ne in Hi by (auto; lia). eapply Hd; eauto. lia.
  - intros a b [->|Ha]%Hs' [Hb Hne]%Hcl; [intros E; by apply Hne|]. by apply Hdj.
  - intros t. rewrite Hs', Hcl, <- Hst. split; [intros [[->|]|[]]; auto|].
    + right. apply stored_rd. eauto.
    + intros [|Hb]; auto. destruct (decide (skey t = skey s)) as [E|]; auto.
      left. left. by apply (probe_found_uniq old (skey s) cursor).
Qed.

(** One batch: it ends, keeps the stored slots, and either finishes or moves a
    full batch. *)
Lemma rehash_loop_spec P fuel new old cursor migrated :
  migrating P new old cursor -> 0 <= migrated <= HASH_REHASH_BATCH ->
  (Z.to_nat (zlen old - cursor) < fuel)%nat ->
  exists new' old' cursor',
    rehash_loop fuel new (zlen new - 1) old (zlen old) cursor migrated = Ret (new', old', cursor') /\
    migrating P new' old' cursor' /\ zlen new' = zlen new /\ zlen old' = zlen old /\
    nocc new' + nocc old' = nocc new + nocc old /\ nocc old' <= nocc old /\
    cursor <= cursor' /\
    (cursor' = zlen old \/ (nocc old' = nocc old - (HASH_REHASH_BATCH - migrated) /\
                           HASH_REHASH_BATCH - migrated <= cursor' - cursor)) /\
    (old_intact old cursor -> old_intact old' cursor').
Proof.
  revert new old cursor migrated. induction fuel as [|fuel IH]; intros new old cursor migrated Hm Hmig Hf; [lia|].
  simpl. pose proof Hm as [[Ht Hr] [Hto Huo] Hc Hd Hdj Hrm Hst]. destruct Hr as [Hr Hu].
  assert (zlen old <= 2 ^ 31) as Hb by apply Hto.
  destruct (Z.ltb_spec cursor (zlen old)); simpl.
  2: { exists new, old, cursor. split_and!; auto; try lia. }
  destruct (Z.ltb_spec migrated HASH_REHASH_BATCH); simpl.
  2: { exists new, old, cursor. split_and!; auto; try lia. }
  destruct (rd_in_range old cursor) as [s Hs]; [lia|]. rewrite Hs. simpl.
  rewrite u32_id by lia. destruct (Z.eqb_spec (feat_id s) 0) as [E|E]; simpl.
  - assert (occ s = false) as Ho by (by apply occ_false).
    destruct (IH new old (cursor + 1) migrated) as (n' & o' & c' & H1 & H2 & H3 & H4 & H5 & H6 & H7 & H8 & H9); auto; try lia.
    { split; auto; try lia. intros i t Hi Hlt. destruct (decide (i = cursor)) as [->|]; [congruence|].
      eapply Hd; eauto. lia. }
    exists n', o', c'. split_and!; auto; try lia.
    intros Hin. apply H9. intros i t Hi Ht' d Hdd. destruct (Hin i t Hi Ht' d Hdd); [auto|right; lia].
  - assert (occ s = true) as Ho by (by apply occ_true).
    assert (stored old s) as Hso by (apply stored_rd; eauto).
    pose proof (countb_pos occ old cursor s Hs Ho) as Hpos.
    destruct (insert_into_table_spec new s) as (new' & Hi & Hl & Hr' & Hu' & Hn' & Hs'); auto; try lia.
    { intros t Hst'. by apply Hdj. }
    rewrite Hi. simpl. rewrite wr_ret by lia. simpl.
    destruct (migrating_move P new old cursor s new') as [Hm' Hno]; auto.
    destruct (IH new' (<[Z.to_nat cursor := clear_slot s]> old) (cursor + 1) (migrated + 1)) as
      (n' & o' & c' & H1 & H2 & H3 & H4 & H5 & H6 & H7 & H8 & H9); rewrite ?zlen_insert in *; auto; try lia.
    rewrite Hl in H1. exists n', o', c'. split_and!; auto; try lia.
    intros Hin. apply H9. by apply old_intact_clear.
Qed.

(** ** The stored map through the two tables *)

Definition old_stored (o : option (list HashSlot)) (s : HashSlot) : Prop :=
  match o with Some old => stored old s | None => False end.

Lemma hi_stored_iff idx new s :
  hi_slots idx = Some new -> hi_stored idx s <-> stored new s \/ old_stored (hi_old_slots idx) s.
Proof.
  intros Hn. unfold hi_stored. rewrite Hn. destruct (hi_old_slots idx); simpl; naive_solver.
Qed.

Lemma models_same idx idx' m :
  models idx m -> (forall t, hi_stored idx' t <-> hi_stored idx t) -> models idx' m.
Proof. intros Hm H k v. rewrite H. apply Hm. Qed.

Lemma models_insert idx idx' m k v :
  models idx m ->
  (forall t, hi_stored idx' t <-> t = slot_of k v \/ (hi_stored idx t /\ feat_id t <> k)) ->
  models idx' (<[k := v]> m).
Proof.
  intros Hm H k' v'. rewrite H, lookup_insert. case_decide as E.
  - subst. split; [intros [= ->]; by left|]. intros [E|[_ E]]; [|done].
    destruct v, v'. unfold slot_of in E. simpl in E. congruence.
  - rewrite (Hm k' v'). split; [intros; right; split; auto; simpl; congruence|].
    intros [E'|[? _]]; auto. destruct v, v'. unfold slot_of in E'. simpl in E'. congruence.
Qed.

Lemma models_delete idx idx' m k :
  models idx m -> (forall t, hi_stored idx' t <-> hi_stored idx t /\ feat_id t <> k) ->
  models idx' (delete k m).
Proof.
  intros Hm H k' v'. rewrite H, lookup_delete. case_decide as E.
  - subst. split; [done|]. by intros [_ ?].
  - rewrite (Hm k' v'). split; [intros; split; auto; simpl; congruence|]. by intros [? _].
Qed.

Lemma slot_of_eta s : slot_of (feat_id s) (dim_idx s, entry_idx s) = s.
Proof. by destruct s. Qed.

Lemma models_lookup idx m s :
  models idx m -> hi_stored idx s -> m !! feat_id s = Some (dim_idx s, entry_idx s).
Proof. intros Hm Hs. apply Hm. by rewrite slot_of_eta. Qed.

Lemma models_absent idx m k :
  models idx m -> (forall t, hi_stored idx t -> feat_id t <> k) -> m !! k = None.
Proof.
  intros Hm H. destruct (m !! k) as [v|] eqn:E; [|done]. apply Hm in E. by apply H in E.
Qed.

(** rehash_step keeps the stored map; an unfinished step leaves room for one
    more insertion. *)
Lemma rehash_step_spec idx m :
  hi_inv idx m ->
  exists idx', rehash_step idx = Ret idx' /\ hi_inv idx' m /\
    hi_capacity idx' = hi_capacity idx /\ (hi_old_slots idx = None -> idx' = idx) /\
    forall old old', hi_old_slots idx = Some old -> hi_old_slots idx' = Some old' ->
      16 <= hi_rehash_cursor idx' /\ hi_old_capacity idx' = hi_old_capacity idx /\
      hi_rehash_cursor idx < hi_rehash_cursor idx' /\
      160 * (hi_count idx' + 1) + 10 * nocc old' <= 119 * zlen old' + 330 /\
      (old_intact old (hi_rehash_cursor idx) -> old_intact old' (hi_rehash_cursor idx')).
Proof.
  intros [Hm (new & Hn & Ht & Hcap & Hmask & Hr & Hu & Hold)]. unfold rehash_step.
  destruct (hi_old_slots idx) as [old|] eqn:Eo.
  2: { exists idx. split_and!; auto; [|congruence]. split; auto. exists new. rewrite Eo. auto 10. }
  rewrite Hn. cbn [deref res_bind]. destruct Hold as [Hto Hoc Hom Hdb Hcu Hdn Huo Hdj Hct Hld].
  pose proof (countb_nonneg occ old) as Hno. pose proof (table_pos _ Hto) as Hpo.
  destruct (rehash_loop_spec (hi_stored idx) (S (length old)) new old (hi_rehash_cursor idx) 0)
    as (new' & old' & cur' & H1 & [[Ht' Hr'] [Hto' Huo'] Hc' Hd' Hdj' Hrm' Hst'] & H3 & H4 & H5 & H6 & H7 & H8 & H9).
  { split; auto; try lia. intros s. rewrite (hi_stored_iff idx new) by done. by rewrite Eo. }
  { unfold HASH_REHASH_BATCH. lia. }
  { unfold zlen in *. lia. }
  destruct Hr' as [Hr' Hu']. rewrite Hmask, Hoc, H1. cbn [res_bind].
  destruct (Z.leb_spec (zlen old) cur').
  - assert (cur' = zlen old) as -> by lia.
    assert (forall x, x ∈ old' -> occ x = false) as Hemp.
    { intros x [i Hi]%elem_rd. apply (Hd' i x Hi). pose proof (rd_ret_range _ _ _ Hi). lia. }
    assert (nocc old' = 0) as Hz by (by apply countb_zero).
    eexists. split; [done|]. split_and!; simpl; auto; try congruence. split.
    + apply (models_same idx); auto. intros t. rewrite <- Hst'.
      rewrite (hi_stored_iff _ new') by done. simpl. split; [tauto|].
      intros [|[Hx Ho]]; auto. rewrite Hemp in Ho; done.
    + exists new'. simpl. rewrite H3. split_and!; auto; lia.
  - destruct H8 as [|[H8 H8']]; [lia|]. unfold HASH_REHASH_BATCH in *.
    eexists. split; [done|]. split_and!; simpl; auto; try congruence.
    + split.
      * apply (models_same idx); auto. intros t. rewrite <- Hst'. by rewrite (hi_stored_iff _ new').
      * exists new'. simpl. split_and!; auto; try lia. split; simpl; auto; lia.
    + intros old0 old1 [= <-] [= <-]. split_and!; auto; lia.
Qed.

(** ** The searches *)

(** The search of the current table, with or without the [start] guard. *)
Lemma probe_new idx m new k stop :
  hi_inv idx m -> hi_slots idx = Some new -> k <> 0 ->
  stop = Some (home (zlen new - 1) k) \/ (stop = None /\ nocc new < zlen new) ->
  exists r, probe (probe_fuel new) new (zlen new - 1) k stop (home (zlen new - 1) k) = Ret r /\
    probe_post new k r /\
    match r with
    | PFound h => exists s, rd new h = Ret s /\ feat_id s = k /\ stored new s
    | PEmpty _ | PWrapped _ => absent new k
    end /\ (stop = None -> forall h, r <> PWrapped h).
Proof.
  intros [_ (new' & Hn & Ht & _ & _ & Hr & _)] Hn' Hk Hst.
  assert (new' = new) as -> by congruence.
  destruct (probe_spec new k stop) as (r & H1 & H2 & H3); auto.
  { destruct Hst as [|[? ?]]; auto. right. split; auto. by apply has_empty. }
  exists r. split_and!; auto. pose proof (probe_complete new k r Ht Hr H2). by destruct r.
Qed.

(** The guarded search of the previous table always ends, and what it finds is
    the key's slot; a stored key it misses is lost. *)
Lemma probe_old_spec idx m k :
  hi_inv idx m -> k <> 0 ->
  exists o, probe_old idx k = Ret o /\
    match o with
    | Some i => exists old s, hi_old_slots idx = Some old /\ rd old i = Ret s /\
                  feat_id s = k /\ stored old s
    | None => forall t, old_stored (hi_old_slots idx) t -> feat_id t = k -> hi_lost idx k
    end.
Proof.
  intros [_ (new & Hn & _ & _ & _ & _ & _ & Hold)] Hk. unfold hi_lost, probe_old.
  destruct (hi_old_slots idx) as [old|] eqn:Eo; [|by exists None].
  destruct Hold as [Hto Hoc Hom Hdb Hcu Hdn Huo Hdj Hct Hld]. rewrite Hom.
  destruct (probe_spec old k (Some (home (zlen old - 1) k))) as (r & H1 & H2 & _); auto.
  rewrite H1. simpl. destruct r as [h|h|h].
  - simpl in H2. destruct H2 as (s & Hs & Ho & Hks). eexists. split; [done|].
    exists old, s. split_and!; auto. apply stored_rd. eauto.
  - eexists. split; [done|]. simpl. intros t Ht Hkt. eauto 10.
  - eexists. split; [done|]. simpl. intros t Ht Hkt. eauto 10.
Qed.

Lemma not_lost_settled idx k : hi_old_slots idx = None -> ~ hi_lost idx k.
Proof. intros H [(old & s & Ho & _) _]. congruence. Qed.

Lemma not_lost_absent idx m k : models idx m -> m !! k = None -> ~ hi_lost idx k.
Proof.
  intros Hm Hk [(old & s & Ho & Hs & <-) _].
  rewrite (models_lookup idx m s) in Hk by (auto; right; eauto). done.
Qed.

(** A key of the previous table is seen when its way starts at or after the
    cursor and does not wrap around. *)
Lemma not_lost_after_cursor idx m old i s :
  hi_inv idx m -> hi_old_slots idx = Some old -> old_intact old (hi_rehash_cursor idx) ->
  rd old i = Ret s -> occ s = true ->
  hi_rehash_cursor idx <= home (zlen old - 1) (feat_id s) <= i -> ~ hi_lost idx (feat_id s).
Proof.
  intros [_ (new & _ & _ & _ & _ & _ & _ & Hold)] Eo Hint Hi Ho Hc [_ Hp].
  rewrite Eo in Hold. destruct Hold as [Hto Hoc Hom Hdb Hcu Hdn Huo Hdj Hct Hld].
  unfold probe_old in Hp. rewrite Eo, Hom in Hp.
  pose proof (home_range old (feat_id s) Hto) as Hh. pose proof (rd_ret_range _ _ _ Hi) as Hir.
  assert (cyc (zlen old) (home (zlen old - 1) (feat_id s)) (i - home (zlen old - 1) (feat_id s)) = i) as Hci.
  { unfold cyc. zb; lia. }
  erewrite (probe_scan0 old (feat_id s) _ (Some _) Hto Hh) with
    (d' := i - home (zlen old - 1) (feat_id s)) in Hp; [| |lia| |rewrite Hci; exact Hi|done|].
  - rewrite Ho in Hp. done.
  - by right.
  - intros e He. destruct (Hint i s Hi Ho e) as [(x & Hx & Hox)|Hlt].
    { unfold dst. zb; lia. }
    + exists x. split_and!; auto. intros E.
      assert (cyc (zlen old) (home (zlen old - 1) (feat_id s)) e = i) as E' by (eapply Huo; eauto).
      unfold cyc in E'. zb; lia.
    + unfold cyc in Hlt. zb; lia.
  - unfold probe_fuel, zlen in *. lia.
Qed.

(** ** get *)

(** What a search of the index may answer about key [fid] of the map [m]. *)
Definition get_post (idx : HashIndex) (m : gmap Z (Z * Z)) (fid : Z)
    (st : graveldb_status_t) (out : option (Z * Z)) : Prop :=
  (st = GRAVELDB_OK /\ m !! fid = out /\ is_Some out) \/
  (st = GRAVELDB_ERR_NOT_FOUND /\ out = None /\ (m !! fid = None \/ hi_lost idx fid)).

(** A key missing from both searches is not stored, or lost. *)
Lemma both_missed idx m new fid :
  hi_inv idx m -> hi_slots idx = Some new -> absent new fid ->
  (forall t, old_stored (hi_old_slots idx) t -> feat_id t = fid -> hi_lost idx fid) ->
  m !! fid = None \/ hi_lost idx fid.
Proof.
  intros [Hm _] Hn Ha Hpost. destruct (m !! fid) as [v|] eqn:E; [|by left]. right.
  apply Hm in E. apply (hi_stored_iff _ new) in E as [E|E]; auto.
  - by apply Ha in E.
  - by apply (Hpost _ E).
Qed.

Lemma get_in_old_spec idx m new fid :
  hi_inv idx m -> hi_slots idx = Some new -> fid <> 0 -> absent new fid ->
  exists st out, get_in_old idx fid = Ret (st, out, idx) /\ get_post idx m fid st out.
Proof.
  intros Hinv Hn Hk Ha. destruct (probe_old_spec idx m fid) as (o & Ho & Hpost); auto.
  unfold get_in_old, get_post. rewrite Ho. simpl. destruct o as [i|].
  - destruct Hpost as (old & s & Eo & Hrd & Hks & Hst). rewrite Eo. simpl. rewrite Hrd. simpl.
    eexists _, _. split; [done|]. left. split_and!; auto. rewrite <- Hks.
    apply models_lookup with idx; [apply Hinv|]. right. eauto.
  - eexists _, _. split; [done|]. right. split_and!; auto. by eapply both_missed.
Qed.

Lemma hash_index_get_spec idx m fid :
  hi_inv idx m -> fid <> 0 ->
  exists idx', rehash_step idx = Ret idx' /\ hi_inv idx' m /\
    exists st out, hash_index_get idx fid = Ret (st, out, idx') /\ get_post idx' m fid st out.
Proof.
  intros Hinv Hk. destruct (rehash_step_spec idx m Hinv) as (idx' & Hs & Hinv' & _).
  exists idx'. split_and!; auto. unfold hash_index_get.
  destruct (Z.eqb_spec fid 0); [done|]. rewrite Hs. cbn [res_bind].
  pose proof Hinv' as [Hm (new & Hn & Ht & Hcap & Hmask & Hr & Hu & Hold)].
  rewrite Hn, Hmask. cbn [deref res_bind].
  destruct (probe_new idx' m new fid (Some (home (zlen new - 1) fid))) as (r & H1 & _ & H2 & _); auto.
  rewrite H1. cbn [res_bind]. destruct r as [h|h|h]; [|by eapply get_in_old_spec..].
  destruct H2 as (s & Hrd & Hks & Hst). rewrite Hrd. simpl. eexists _, _. split; [done|]. left.
  split_and!; auto. rewrite <- Hks. apply models_lookup with idx'; auto. left. eauto.
Qed.

(** ** put *)

(** Ready for an insertion: the invariant with room for one more key. *)
Record put_ready (idx : HashIndex) (m : gmap Z (Z * Z)) (new : list HashSlot) : Prop := {
  pr_inv : hi_inv idx m;
  pr_new : hi_slots idx = Some new;
  pr_room : nocc new < zlen new;
  pr_load : match hi_old_slots idx with
            | None => 10 * (hi_count idx + 1) <= 7 * zlen new + 10
            | Some old => 160 * (hi_count idx + 1) + 10 * nocc old <= 119 * zlen old + 330
            end
}.

Lemma occ_slot_of k v : k <> 0 -> occ (slot_of k v) = true.
Proof. intros. by apply occ_true. Qed.

(** Overwriting the key's slot in the current table. *)
Lemma put_found_new idx m new h s k v :
  hi_inv idx m -> hi_slots idx = Some new -> rd new h = Ret s -> feat_id s = k -> stored new s ->
  hi_inv (set_slots idx (<[Z.to_nat h := slot_of k v]> new)) (<[k := v]> m).
Proof.
  intros [Hm (new' & Hn & Ht & Hcap & Hmask & Hr & Hu & Hold)] Hn' Hs Hk Hst.
  assert (new' = new) as -> by congruence.
  assert (occ s = true) as Ho by apply Hst.
  assert (skey (slot_of k v) = skey s) as Hkey by done.
  set (new2 := <[Z.to_nat h := slot_of k v]> new).
  pose proof (fun t => stored_update new h (slot_of k v) s t Hu Hs Ho Hkey) as Hup. fold new2 in Hup.
  assert (nocc new2 = nocc new) as Hcnt.
  { unfold new2. rewrite (countb_insert _ _ _ _ s) by done.
    assert (occ (slot_of k v) = true) as -> by (rewrite <- Ho; unfold occ; by rewrite Hkey).
    rewrite Ho. lia. }
  assert (zlen new2 = zlen new) as Hl by apply zlen_insert.
  assert (forall t, old_stored (hi_old_slots idx) t -> feat_id t <> k) as Hdis.
  { intros t Hto. destruct (hi_old_slots idx) as [old|]; [|done].
    destruct Hold. intros E. eapply oo_disj0; eauto. congruence. }
  split.
  - apply (models_insert idx); auto. intros t.
    rewrite (hi_stored_iff _ new2), (hi_stored_iff idx new) by done. simpl.
    rewrite Hup. specialize (Hdis t). simpl. naive_solver.
  - exists new2. simpl. rewrite Hl. split_and!; auto.
    + by apply table_insert.
    + by eapply reach_update.
    + by eapply uniq_update.
    + destruct (hi_old_slots idx) as [old|]; [|by rewrite Hcnt].
      destruct Hold. split; simpl; auto; [by rewrite Hl| |by rewrite Hcnt].
      intros a b [->|[Ha _]]%Hup Hb; [|by apply oo_disj0]. simpl. intros E. by apply (Hdis b).
Qed.

(** Overwriting the key's slot in the previous table. *)
Lemma put_found_old idx m new old i s k v :
  hi_inv idx m -> hi_slots idx = Some new -> absent new k ->
  hi_old_slots idx = Some old -> rd old i = Ret s -> feat_id s = k -> stored old s ->
  hi_inv (set_old_slots idx (<[Z.to_nat i := slot_of k v]> old)) (<[k := v]> m).
Proof.
  intros [Hm (new' & Hn & Ht & Hcap & Hmask & Hr & Hu & Hold)] Hn' Ha Eo Hs Hk Hst.
  assert (new' = new) as -> by congruence. rewrite Eo in Hold.
  destruct Hold as [Hto Hoc Hom Hdb Hcu Hdn Huo Hdj Hct Hld].
  assert (occ s = true) as Ho by apply Hst.
  assert (skey (slot_of k v) = skey s) as Hkey by done.
  assert (occ (slot_of k v) = true) as Hov by (rewrite <- Ho; unfold occ; by rewrite Hkey).
  set (old2 := <[Z.to_nat i := slot_of k v]> old).
  pose proof (fun t => stored_update old i (slot_of k v) s t Huo Hs Ho Hkey) as Hup. fold old2 in Hup.
  assert (nocc old2 = nocc old) as Hcnt.
  { unfold old2. rewrite (countb_insert _ _ _ _ s) by done. rewrite Hov, Ho. lia. }
  assert (zlen old2 = zlen old) as Hl by apply zlen_insert.
  pose proof (rd_ret_range _ _ _ Hs) as Hir.
  split.
  - apply (models_insert idx); auto. intros t.
    rewrite (hi_stored_iff _ new), (hi_stored_iff idx new) by done. rewrite Eo. simpl.
    rewrite Hup. specialize (Ha t). simpl in *. naive_solver.
  - exists new. simpl. split_and!; auto. split; simpl; rewrite ?Hl, ?Hcnt; auto.
    + by apply table_insert.
    + intros j t Hj Hlt. unfold old2 in Hj. destruct (decide (j = i)) as [->|].
      * rewrite (Hdn i s) in Ho by done. done.
      * rewrite rd_insert_ne in Hj by (auto; lia). eauto.
    + by eapply uniq_update.
    + intros a b Hsa [->|[Hb _]]%Hup; [by apply Ha|]. by apply Hdj.
Qed.

(** A new key goes to the empty slot of the current table the search ended at. *)
Lemma put_insert idx m new h e k v :
  put_ready idx m new -> rd new h = Ret e -> occ e = false -> path_other new k h -> k <> 0 ->
  absent new k -> (forall t, old_stored (hi_old_slots idx) t -> feat_id t <> k) ->
  hi_inv (set_count (set_slots idx (<[Z.to_nat h := slot_of k v]> new)) (hi_count idx + 1))
         (<[k := v]> m).
Proof.
  intros [[Hm (new' & Hn & Ht & Hcap & Hmask & Hr & Hu & Hold)] Hn' Hroom Hload] He Hoe Hp Hk Ha Hdis.
  assert (new' = new) as -> by congruence.
  pose proof (occ_slot_of k v Hk) as Hov.
  set (new2 := <[Z.to_nat h := slot_of k v]> new).
  pose proof (fun t => stored_insert new h (slot_of k v) e t He Hoe Hov) as Hup. fold new2 in Hup.
  assert (nocc new2 = nocc new + 1) as Hcnt.
  { unfold new2. rewrite (countb_insert _ _ _ _ e) by done. rewrite Hov, Hoe. lia. }
  assert (zlen new2 = zlen new) as Hl by apply zlen_insert.
  split.
  - apply (models_insert idx); auto. intros t.
    rewrite (hi_stored_iff _ new2), (hi_stored_iff idx new) by done. simpl.
    rewrite Hup. specialize (Hdis t). specialize (Ha t). simpl in *. naive_solver.
  - exists new2. simpl. rewrite Hl. split_and!; auto.
    + by apply table_insert.
    + by eapply reach_insert.
    + by eapply uniq_insert.
    + destruct (hi_old_slots idx) as [old|]; [|lia].
      destruct Hold. split; simpl; auto; try lia.
      intros a b [->|Hsa]%Hup Hb; [|by apply oo_disj0]. simpl. intros E. by apply (Hdis b).
Qed.

Lemma put_at_spec idx m new k d e :
  put_ready idx m new -> k <> 0 -> ~ hi_lost idx k ->
  exists idx', put_at idx k d e = Ret (GRAVELDB_OK, idx') /\ hi_inv idx' (<[k := (d, e)]> m) /\
    hi_capacity idx' = hi_capacity idx.
Proof.
  intros Hrdy Hk Hnl. pose proof Hrdy as [Hinv Hn Hroom Hload].
  pose proof Hinv as [Hm (new' & Hn' & Ht & Hcap & Hmask & Hr & Hu & Hold)].
  assert (new' = new) as -> by congruence.
  unfold put_at. rewrite Hn, Hmask. cbn [deref res_bind].
  destruct (probe_new idx m new k None) as (r & H1 & Hpost & H2 & Hnw); auto.
  rewrite H1. cbn [res_bind]. fold (slot_of k (d, e)). change (mkHashSlot k d e) with (slot_of k (d, e)).
  destruct r as [h|h|h]; [| |by destruct (Hnw eq_refl h)].
  - destruct H2 as (s & Hs & Hks & Hst). rewrite wr_ret by (by eapply rd_ret_range).
    eexists. split; [done|]. split; [by eapply put_found_new|done].
  - destruct (probe_old_spec idx m k) as (o & Ho & Hpo); auto. rewrite Ho. cbn [res_bind].
    destruct o as [i|].
    + destruct Hpo as (old & s & Eo & Hs & Hks & Hst). rewrite Eo. cbn [deref res_bind].
      rewrite wr_ret by (by eapply rd_ret_range). eexists. split; [done|].
      split; [by eapply put_found_old|done].
    + simpl in Hpost. destruct Hpost as [(x & Hx & Hox) Hp].
      rewrite wr_ret by (by eapply rd_ret_range). eexists. split; [done|].
      assert (0 <= hi_count idx + 1 < 2 ^ 32) as Hb.
      { pose proof (countb_nonneg occ new). assert (zlen new <= 2 ^ 31) by apply Ht.
        destruct (hi_old_slots idx) as [old|]; [|lia]. destruct Hold.
        pose proof (countb_nonneg occ old). pose proof (countb_le occ old). lia. }
      rewrite u32_id by done.
      split; [eapply put_insert; eauto|done].
Qed.

(** The table after growing: empty, beside the previous one. *)
Lemma begin_grow_spec idx m :
  hi_inv idx m -> hi_old_slots idx = None -> hi_capacity idx <= 2 ^ 29 ->
  exists idx' new', hash_index_begin_grow true idx = (GRAVELDB_OK, idx') /\
    put_ready idx' m new' /\ hi_capacity idx' = hi_capacity idx * 2 /\
    forall k, k <> 0 -> ~ hi_lost idx' k.
Proof.
  intros [Hm (new & Hn & Ht & Hcap & Hmask & Hr & Hu & Hold)] Eo Hc.
  rewrite Eo in Hold. destruct Hold as [Hct Hld]. pose proof (table_pos _ Ht) as Hpos.
  unfold hash_index_begin_grow. simpl. rewrite u32_id by lia.
  set (new2 := replicate (Z.to_nat (hi_capacity idx * 2)) empty_slot).
  assert (zlen new2 = zlen new * 2) as Hl by (unfold new2; rewrite zlen_replicate; lia).
  assert (nocc new2 = 0) as Hz by (by apply countb_0_replicate).
  assert (forall t, ~ stored new2 t) as Hemp by (intros t; by apply stored_replicate).
  pose proof (countb_le occ new) as Hle. pose proof (countb_nonneg occ new) as Hnn.
  rewrite Hn, Hcap, Hmask, u32_id by lia.
  eexists _, new2. split; [done|]. split; [|split; [simpl; lia|]].
  - split; simpl; auto; try lia. split.
    + apply (models_same idx); auto. intros t.
      rewrite (hi_stored_iff _ new2), (hi_stored_iff idx new) by done. rewrite Eo. simpl.
      specialize (Hemp t). tauto.
    + exists new2. simpl. rewrite Hl. split_and!; auto.
      * split; rewrite Hl; [by apply pow2_cap_double; apply Ht|lia].
      * by apply reach_replicate.
      * by apply uniq_replicate.
      * split; simpl; auto; try lia.
        -- intros i s Hi Hlt. pose proof (rd_ret_range _ _ _ Hi). lia.
        -- intros s t Hs. by apply Hemp in Hs.
  - intros k Hk [(old & s & Ho & Hs & Hks) Hp]. simpl in Ho. injection Ho as <-.
    unfold probe_old in Hp. cbn [hi_old_slots hi_old_mask] in Hp.
    destruct (probe_spec new k (Some (home (zlen new - 1) k))) as (r & H1 & H2 & _); auto.
    rewrite H1 in Hp. simpl in Hp. pose proof (probe_complete new k r Ht Hr H2) as Hcm.
    destruct r as [h|h|h]; [done| |]; by apply Hcm in Hs.
Qed.

(** The state hash_index_put reaches before it searches for the key. *)
Lemma put_prepare alloc_ok idx m k :
  hi_inv idx m -> hi_capacity idx <= 2 ^ 29 -> k <> 0 ->
  exists idx1, rehash_step idx = Ret idx1 /\ hi_inv idx1 m /\
    (hi_old_slots idx = None -> idx1 = idx) /\
    exists st idx2,
      match hi_old_slots idx1 with
      | None => if u32 (hi_capacity idx1 * 7) <? u32 (hi_count idx1 * 10)
                then hash_index_begin_grow alloc_ok idx1 else (GRAVELDB_OK, idx1)
      | Some _ => (GRAVELDB_OK, idx1)
      end = (st, idx2) /\
      ((st = GRAVELDB_ERR_OOM /\ alloc_ok = false /\ idx2 = idx1) \/
       (st = GRAVELDB_OK /\ (exists new, put_ready idx2 m new) /\
        hi_capacity idx2 <= hi_capacity idx * 2 /\ (hi_lost idx2 k -> hi_lost idx1 k))).
Proof.
  intros Hinv Hc Hk. destruct (rehash_step_spec idx m Hinv) as (idx1 & Hs & Hinv1 & Hcap1 & Hid & Hmid).
  exists idx1. split_and!; auto.
  pose proof Hinv1 as [Hm (new & Hn & Ht & Hcap & Hmask & Hr & Hu & Hold)].
  pose proof (table_pos _ Ht) as Hpos. pose proof (countb_nonneg occ new) as Hnn.
  destruct (hi_old_slots idx1) as [old|] eqn:Eo.
  - eexists _, idx1. split; [done|]. right. split_and!; auto; [|lia]. exists new. split; auto; rewrite ?Eo.
    + destruct (hi_old_slots idx) as [old0|] eqn:Eo0; [|specialize (Hid eq_refl); congruence].
      destruct (Hmid old0 old) as (Hc16 & _ & _ & Hl & _); auto.
      destruct Hold. pose proof (countb_nonneg occ old). lia.
    + destruct (hi_old_slots idx) as [old0|] eqn:Eo0; [|specialize (Hid eq_refl); congruence].
      destruct (Hmid old0 old) as (Hc16 & _ & _ & Hl & _); auto.
  - destruct Hold as [Hct Hld]. rewrite !u32_id by lia.
    destruct (Z.ltb_spec (hi_capacity idx1 * 7) (hi_count idx1 * 10)) as [Hg|Hg].
    + destruct alloc_ok.
      * destruct (begin_grow_spec idx1 m) as (idx2 & new2 & Hb & Hrd & Hc2 & Hnl); auto; [lia|].
        rewrite Hb. eexists _, idx2. split; [done|]. right. split_and!; eauto; [lia|].
        intros Hl. by destruct (Hnl k Hk).
      * eexists _, _. split; [done|]. left. auto.
    + eexists _, idx1. split; [done|]. right. split_and!; auto; [|lia]. exists new.
      split; auto; rewrite ?Eo; lia.
Qed.

Lemma hash_index_put_spec alloc_ok idx m k d e :
  hi_inv idx m -> hi_capacity idx <= 2 ^ 29 -> k <> 0 ->
  exists idx1, rehash_step idx = Ret idx1 /\
    (~ hi_lost idx1 k ->
     exists st idx', hash_index_put alloc_ok idx k d e = Ret (st, idx') /\
      ((st = GRAVELDB_OK /\ hi_inv idx' (<[k := (d, e)]> m) /\ hi_capacity idx' <= hi_capacity idx * 2) \/
       (st = GRAVELDB_ERR_OOM /\ alloc_ok = false /\ hi_inv idx' m))).
Proof.
  intros Hinv Hc Hk.
  destruct (put_prepare alloc_ok idx m k) as (idx1 & Hs & Hinv1 & _ & st & idx2 & Hg & Hcase); auto.
  exists idx1. split; auto. intros Hnl. unfold hash_index_put.
  destruct (Z.eqb_spec k 0); [done|]. rewrite Hs. cbn [res_bind]. rewrite Hg.
  destruct Hcase as [(-> & Ha & ->)|(-> & (new & Hr) & Hc2 & Hl)].
  - eexists _, _. split; [done|]. right. auto.
  - destruct (put_at_spec idx2 m new k d e) as (idx' & Hp & Hi & Hcp); auto.
    exists GRAVELDB_OK, idx'. split; [done|]. left. split_and!; auto. lia.
Qed.

(** ** remove *)

(** Backward-shift deletion in the current table. *)
Lemma remove_new idx m new h s slots' e' x :
  hi_inv idx m -> hi_slots idx = Some new -> rd new h = Ret s -> stored new s ->
  zlen slots' = zlen new -> 0 <= e' < zlen new -> rd slots' e' = Ret x ->
  (forall E, occ E = false ->
    let F := <[Z.to_nat e' := E]> slots' in
    reach F /\ uniq F /\ forall t, stored F t <-> stored new t /\ skey t <> skey s) ->
  hi_inv (set_count (set_slots idx (<[Z.to_nat e' := clear_slot x]> slots')) (hi_count idx - 1))
         (delete (feat_id s) m).
Proof.
  intros [Hm (new' & Hn & Ht & Hcap & Hmask & Hr & Hu & Hold)] Hn' Hs Hst Hl He Hx HF.
  assert (new' = new) as -> by congruence.
  destruct (HF (clear_slot x)) as (HrF & HuF & HsF); [done|].
  set (F := <[Z.to_nat e' := clear_slot x]> slots') in *.
  assert (nocc F = nocc new - 1) as Hcnt by (by apply (nocc_delete new F s)).
  assert (zlen F = zlen new) as HlF by (unfold F; rewrite zlen_insert; done).
  assert (forall t, old_stored (hi_old_slots idx) t -> feat_id t <> feat_id s) as Hdis.
  { intros t Hto. destruct (hi_old_slots idx) as [old|]; [|done].
    destruct Hold. intros E. by apply (oo_disj0 s t). }
  split.
  - apply (models_delete idx); auto. intros t.
    rewrite (hi_stored_iff _ F), (hi_stored_iff idx new) by done. simpl.
    rewrite HsF. specialize (Hdis t). simpl. naive_solver.
  - exists F. simpl. rewrite HlF. split_and!; auto.
    + unfold table. by rewrite HlF.
    + destruct (hi_old_slots idx) as [old|]; [|lia].
      destruct Hold. split; simpl; auto; try lia. intros a b [Ha _]%HsF. by apply oo_disj0.
Qed.

(** Clearing the key's slot of the previous table. *)
Lemma remove_old idx m new old i s :
  hi_inv idx m -> hi_slots idx = Some new -> absent new (feat_id s) ->
  hi_old_slots idx = Some old -> rd old i = Ret s -> stored old s ->
  hi_inv (set_count (set_old_slots idx (<[Z.to_nat i := clear_slot s]> old)) (hi_count idx - 1))
         (delete (feat_id s) m).
Proof.
  intros [Hm (new' & Hn & Ht & Hcap & Hmask & Hr & Hu & Hold)] Hn' Ha Eo Hs Hst.
  assert (new' = new) as -> by congruence. rewrite Eo in Hold.
  destruct Hold as [Hto Hoc Hom Hdb Hcu Hdn Huo Hdj Hct Hld].
  assert (occ s = true) as Ho by apply Hst.
  pose proof (rd_ret_range _ _ _ Hs) as Hir.
  set (old2 := <[Z.to_nat i := clear_slot s]> old).
  pose proof (fun t => stored_clear old i s (clear_slot s) t Huo Hs Ho eq_refl) as Hup. fold old2 in Hup.
  assert (nocc old2 = nocc old - 1) as Hcnt.
  { unfold old2. rewrite (countb_insert _ _ _ _ s) by done. rewrite Ho. unfold occ. simpl. lia. }
  assert (zlen old2 = zlen old) as Hl by apply zlen_insert.
  split.
  - apply (models_delete idx); auto. intros t.
    rewrite (hi_stored_iff _ new), (hi_stored_iff idx new) by done. rewrite Eo. simpl.
    rewrite Hup. specialize (Ha t). simpl in *. naive_solver.
  - exists new. simpl. split_and!; auto. split; simpl; rewrite ?Hl, ?Hcnt; auto; try lia.
    + by apply table_insert.
    + intros j t Hj Hlt. unfold old2 in Hj. destruct (decide (j = i)) as [->|].
      * rewrite rd_insert_eq in Hj by done. by simplify_eq.
      * rewrite rd_insert_ne in Hj by (auto; lia). eauto.
    + by apply uniq_clear.
    + intros a b Hsa [Hb _]%Hup. by apply Hdj.
Qed.

Definition remove_post (idx : HashIndex) (m : gmap Z (Z * Z)) (fid : Z)
    (st : graveldb_status_t) (idx' : HashIndex) : Prop :=
  (st = GRAVELDB_OK /\ is_Some (m !! fid) /\ hi_inv idx' (delete fid m)) \/
  (st = GRAVELDB_ERR_NOT_FOUND /\ idx' = idx /\ (m !! fid = None \/ hi_lost idx fid)).

Lemma hi_count_range idx m : hi_inv idx m -> 0 <= hi_count idx < 2 ^ 32.
Proof.
  intros [_ (new & _ & [_ Ht] & _ & _ & _ & _ & Hold)].
  pose proof (countb_nonneg occ new). pose proof (countb_le occ new).
  destruct (hi_old_slots idx) as [old|]; [|lia].
  destruct Hold. pose proof (countb_nonneg occ old). pose proof (countb_le occ old). lia.
Qed.

Lemma remove_in_old_spec idx m new fid :
  hi_inv idx m -> hi_slots idx = Some new -> fid <> 0 -> absent new fid ->
  exists st idx', remove_in_old idx fid = Ret (st, idx') /\ remove_post idx m fid st idx'.
Proof.
  intros Hinv Hn Hk Ha. destruct (probe_old_spec idx m fid) as (o & Ho & Hpost); auto.
  unfold remove_in_old, remove_post. rewrite Ho. cbn [res_bind]. destruct o as [i|].
  - destruct Hpost as (old & s & Eo & Hrd & Hks & Hst). rewrite Eo. cbn [deref res_bind].
    rewrite Hrd. cbn [res_bind]. rewrite wr_ret by (by eapply rd_ret_range). cbn [res_bind].
    pose proof (hi_count_range idx m Hinv). pose proof (countb_pos occ old i s Hrd (proj2 Hst)).
    pose proof (countb_nonneg occ new).
    assert (hi_count idx = nocc new + nocc old).
    { destruct Hinv as [_ (new' & Hn' & _ & _ & _ & _ & _ & Hold)]. rewrite Eo in Hold.
      destruct Hold. congruence. }
    rewrite u32_id by lia. eexists _, _. split; [done|]. left. split_and!; auto.
    + rewrite <- Hks. erewrite models_lookup; [eauto|apply Hinv|]. right. eauto.
    + rewrite <- Hks. apply remove_old with new; auto. by rewrite Hks.
  - eexists _, _. split; [done|]. right. split_and!; auto. by eapply both_missed.
Qed.

(** After a step, the current table of an index of at least 4 slots has an
    empty slot. *)
Lemma step_room idx m idx1 new :
  hi_inv idx m -> 4 <= hi_capacity idx -> rehash_step idx = Ret idx1 -> hi_slots idx1 = Some new ->
  nocc new < zlen new.
Proof.
  intros Hinv H4 Hs Hn.
  destruct (rehash_step_spec idx m Hinv) as (idx' & Hs' & Hinv1 & Hcap1 & Hid & Hmid).
  assert (idx' = idx1) as -> by congruence.
  destruct Hinv1 as [_ (new' & Hn' & Ht & Hcap & _ & _ & _ & Hold)].
  assert (new' = new) as -> by congruence. rewrite Hcap1 in Hcap.
  destruct (hi_old_slots idx1) as [old|] eqn:Eo; [|lia].
  destruct (hi_old_slots idx) as [old0|] eqn:Eo0; [|specialize (Hid eq_refl); congruence].
  destruct (Hmid old0 old) as (Hc16 & _ & _ & Hl & _); auto.
  destruct Hold. pose proof (countb_nonneg occ old). lia.
Qed.

Lemma hash_index_remove_spec idx m fid :
  hi_inv idx m -> 4 <= hi_capacity idx -> fid <> 0 ->
  exists idx1, rehash_step idx = Ret idx1 /\ hi_inv idx1 m /\ (hi_old_slots idx = None -> idx1 = idx) /\
    exists st idx', hash_index_remove idx fid = Ret (st, idx') /\ remove_post idx1 m fid st idx'.
Proof.
  intros Hinv H4 Hk. destruct (rehash_step_spec idx m Hinv) as (idx1 & Hs & Hinv1 & _ & Hid & _).
  exists idx1. split_and!; auto. unfold hash_index_remove.
  destruct (Z.eqb_spec fid 0); [done|]. rewrite Hs. cbn [res_bind].
  pose proof Hinv1 as [Hm (new & Hn & Ht & _ & Hmask & Hr & Hu & Hold)].
  pose proof (step_room idx m idx1 new Hinv H4 Hs Hn) as Hroom.
  rewrite Hn, Hmask. cbn [deref res_bind].
  destruct (probe_new idx1 m new fid (Some (home (zlen new - 1) fid))) as (r & H1 & _ & H2 & _); auto.
  rewrite H1. cbn [res_bind]. destruct r as [h|h|h]; [|by eapply remove_in_old_spec..].
  destruct H2 as (s & Hrd & Hks & Hst).
  destruct (shift_loop_delete new h s) as (sl & e' & Hsh & Hl & He & HF); auto; [apply Hst|by apply has_empty|].
  rewrite Hsh. cbn [res_bind]. destruct (rd_in_range sl e') as [x Hx]; [lia|]. rewrite Hx. cbn [res_bind].
  rewrite wr_ret by lia. cbn [res_bind].
  pose proof (countb_pos occ new h s Hrd (proj2 Hst)). pose proof (hi_count_range idx1 m Hinv1).
  assert (0 < hi_count idx1) as Hpos.
  { destruct (hi_old_slots idx1) as [old|]; [destruct Hold; pose proof (countb_nonneg occ old)|]; lia. }
  rewrite u32_id by lia. eexists _, _. split; [done|]. left. split_and!; auto.
  - rewrite <- Hks. erewrite models_lookup; eauto. left. eauto.
  - rewrite <- Hks. by eapply remove_new.
Qed.

(** ** finish_rehash *)

Lemma finish_loop_spec fuel idx m :
  hi_inv idx m ->
  (Z.to_nat (hi_old_capacity idx - hi_rehash_cursor idx) + 1 < fuel)%nat ->
  exists idx', finish_loop fuel idx = Ret idx' /\ hi_inv idx' m /\ hi_old_slots idx' = None /\
    hi_capacity idx' = hi_capacity idx.
Proof.
  revert idx. induction fuel as [|fuel IH]; intros idx Hinv Hf; [lia|]. simpl.
  destruct (hi_old_slots idx) as [old|] eqn:Eo; [|exists idx; auto].
  destruct (rehash_step_spec idx m Hinv) as (idx1 & Hs & Hinv1 & Hcap & _ & Hmid).
  rewrite Hs. cbn [res_bind].
  destruct (hi_old_slots idx1) as [old1|] eqn:Eo1.
  - destruct (Hmid old old1) as (_ & Hoc & Hcur & _); auto.
    assert (hi_rehash_cursor idx1 < hi_old_capacity idx1).
    { destruct Hinv1 as [_ (new' & _ & _ & _ & _ & _ & _ & Hold)]. rewrite Eo1 in Hold.
      destruct Hold. lia. }
    destruct (IH idx1) as (idx' & H1 & H2 & H3 & H4); auto; [lia|]. exists idx'. split_and!; auto. lia.
  - destruct fuel as [|fuel]; [lia|]. simpl. rewrite Eo1. exists idx1. auto.
Qed.

(** ** init *)

Lemma init_cap_spec fuel i capacity :
  (i <= 31)%nat -> capacity <= 2 ^ 31 -> (31 - i < fuel)%nat ->
  2 ^ Z.of_nat i < 2 * capacity \/ i = 0%nat ->
  exists b, init_cap fuel (2 ^ Z.of_nat i) capacity = Ret (2 ^ b) /\ 0 <= b <= 31 /\
    capacity <= 2 ^ b /\ (2 ^ b < 2 * capacity \/ b = 0).
Proof.
  revert i. induction fuel as [|fuel IH]; intros i Hi Hc Hf Hlt; [lia|]. simpl.
  destruct (Z.ltb_spec (2 ^ Z.of_nat i) capacity) as [Hl|Hl].
  2: { exists (Z.of_nat i). split_and!; auto; lia. }
  assert (i < 31)%nat as Hi'.
  { destruct (decide (i = 31%nat)) as [->|]; [simpl in Hl; lia|lia]. }
  assert (2 ^ Z.of_nat i * 2 = 2 ^ Z.of_nat (S i)) as E.
  { rewrite Nat2Z.inj_succ, Z.pow_succ_r by lia. lia. }
  rewrite E, u32_id.
  - apply IH; try lia.
  - split; [lia|]. apply Z.pow_lt_mono_r; lia.
Qed.

Lemma init_cap_zero fuel capacity : 0 < capacity -> init_cap fuel 0 capacity = Diverge.
Proof.
  intros Hc. induction fuel as [|fuel IH]; [done|]. simpl.
  destruct (Z.ltb_spec 0 capacity); [done|lia].
Qed.

(** Past 2^31 the doubled capacity is 0, and stays 0. *)
Lemma init_cap_diverge j fuel capacity :
  (j <= 31)%nat -> 2 ^ 31 < capacity ->
  init_cap (S j + fuel) (2 ^ (31 - Z.of_nat j)) capacity = Diverge.
Proof.
  intros Hj Hc. induction j as [|j IH]; cbn [init_cap Nat.add].
  - destruct (Z.ltb_spec (2 ^ (31 - Z.of_nat 0)) capacity); [|simpl in *; lia].
    change (u32 (2 ^ (31 - Z.of_nat 0) * 2)) with 0. apply init_cap_zero. lia.
  - assert (2 ^ (31 - Z.of_nat (S j)) <= 2 ^ 30) by (apply Z.pow_le_mono_r; lia).
    destruct (Z.ltb_spec (2 ^ (31 - Z.of_nat (S j))) capacity); [|lia].
    rewrite u32_id by lia.
    replace (2 ^ (31 - Z.of_nat (S j)) * 2) with (2 ^ (31 - Z.of_nat j)); [apply IH; lia|].
    rewrite Z.mul_comm, <- Z.pow_succ_r by lia. f_equal. lia.
Qed.

Lemma hi_inv_empty cap :
  pow2_cap cap -> cap <= 2 ^ 31 ->
  hi_inv (mkHashIndex (Some (replicate (Z.to_nat cap) empty_slot)) cap 0 (cap - 1) None 0 0 0) ∅.
Proof.
  intros Hp Hc. pose proof (pow2_cap_pos cap Hp) as Hpos.
  set (new := replicate (Z.to_nat cap) empty_slot).
  assert (zlen new = cap) as Hl by (unfold new; rewrite zlen_replicate; lia).
  assert (nocc new = 0) as Hz by (by apply countb_0_replicate).
  split.
  - intros k v. rewrite lookup_empty, (hi_stored_iff _ new) by done. split; [done|].
    intros [H|[]]. by apply stored_replicate in H.
  - exists new. simpl. rewrite Hl. split_and!; auto; try lia.
    + unfold table. by rewrite Hl.
    + by apply reach_replicate.
    + by apply uniq_replicate.
Qed.

(** ** Iteration *)

(** A caller's loop over the iterator: [while (hash_iter_next(&it, ...))]. *)
Fixpoint iter_all (fuel : nat) (idx : HashIndex) (it : HashIter) : res (list HashSlot) :=
  match fuel with
  | O => Diverge
  | S fuel =>
    let! '(r, it') := hash_iter_next idx it in
    match r with
    | None => Ret []
    | Some s => let! l := iter_all fuel idx it' in Ret (s :: l)
    end
  end.

#[local] Abbreviation occs := (List.filter (occ (Slot := HashSlot))).

Lemma drop_rd (l : list HashSlot) pos s :
  rd l pos = Ret s -> drop (Z.to_nat pos) l = s :: drop (Z.to_nat (pos + 1)) l.
Proof.
  intros [Hp Hs]%rd_ret. replace (Z.to_nat (pos + 1)) with (S (Z.to_nat pos)) by lia.
  by apply drop_S.
Qed.

Lemma iter_scan_spec fuel slots pos :
  zlen slots <= 2 ^ 31 -> 0 <= pos <= zlen slots -> (Z.to_nat (zlen slots - pos) < fuel)%nat ->
  (exists s p', iter_scan fuel slots (zlen slots) pos = Ret (Some s, p') /\ pos < p' <= zlen slots /\
     occs (drop (Z.to_nat pos) slots) = s :: occs (drop (Z.to_nat p') slots)) \/
  (iter_scan fuel slots (zlen slots) pos = Ret (None, zlen slots) /\
     occs (drop (Z.to_nat pos) slots) = []).
Proof.
  intros Hb. revert pos. induction fuel as [|fuel IH]; intros pos Hp Hf; [lia|]. simpl.
  destruct (Z.ltb_spec pos (zlen slots)) as [Hl|Hl].
  2: { right. assert (pos = zlen slots) as -> by lia. split; [done|].
       rewrite drop_ge; [done|]. unfold zlen. lia. }
  destruct (rd_in_range slots pos) as [s Hs]; [lia|]. rewrite Hs. simpl.
  rewrite (drop_rd _ _ _ Hs), u32_id by lia. simpl. assert (occ s = negb (feat_id s =? 0)) as -> by done.
  destruct (Z.eqb_spec (feat_id s) 0); simpl.
  - destruct (IH (pos + 1)) as [(t & p' & H1 & H2 & H3)|[H1 H2]]; try lia.
    + left. exists t, p'. split_and!; auto; lia.
    + right. auto.
  - left. exists s, (pos + 1). split_and!; auto; lia.
Qed.

(** The slots an iterator has still to visit. *)
Definition remaining (new old : list HashSlot) (it : HashIter) : list HashSlot :=
  if it_in_old it then occs (drop (Z.to_nat (it_pos it)) old)
  else occs (drop (Z.to_nat (it_pos it)) new) ++ occs old.

Lemma iter_old_spec idx old pos :
  (hi_old_slots idx = Some old /\ hi_old_capacity idx = zlen old /\ zlen old <= 2 ^ 31) ->
  0 <= pos <= zlen old ->
  exists r it', iter_old idx (mkHashIter pos true) = Ret (r, it') /\
    match r with
    | Some s => it_in_old it' = true /\ 0 <= it_pos it' <= zlen old /\
                occs (drop (Z.to_nat pos) old) = s :: occs (drop (Z.to_nat (it_pos it')) old)
    | None => occs (drop (Z.to_nat pos) old) = []
    end.
Proof.
  intros (Eo & Hc & Hb) Hp. unfold iter_old. cbn [it_pos]. rewrite Hc, Eo. cbn [deref res_bind].
  destruct (Z.ltb_spec pos (zlen old)).
  - destruct (iter_scan_spec (S (length old)) old pos) as [(s & p' & H1 & H2 & H3)|[H1 H2]]; auto.
    { unfold zlen in *. lia. }
    + rewrite H1. cbn [res_bind]. eexists _, _. split; [done|]. simpl. split_and!; auto; lia.
    + rewrite H1. cbn [res_bind]. eexists _, _. split; [done|]. done.
  - eexists _, _. split; [done|]. simpl. rewrite drop_ge; [done|]. unfold zlen in *. lia.
Qed.

(** One call visits the next stored slot, in table order. *)
Lemma hash_iter_next_spec idx m new old it :
  hi_inv idx m -> hi_slots idx = Some new -> old = default [] (hi_old_slots idx) ->
  (it_in_old it = true -> is_Some (hi_old_slots idx)) ->
  0 <= it_pos it <= (if it_in_old it then zlen old else zlen new) ->
  exists r it', hash_iter_next idx it = Ret (r, it') /\
    match r with
    | Some s => remaining new old it = s :: remaining new old it' /\
                (it_in_old it' = true -> is_Some (hi_old_slots idx)) /\
                0 <= it_pos it' <= (if it_in_old it' then zlen old else zlen new)
    | None => remaining new old it = []
    end.
Proof.
  intros [_ (new' & Hn' & [_ Htb] & Hcap & _ & _ & _ & Hold)] Hn Hdef Hio Hp.
  assert (new' = new) as -> by congruence.
  assert (forall o, hi_old_slots idx = Some o -> old = o /\ hi_old_capacity idx = zlen o /\ zlen o <= 2 ^ 31) as Ho.
  { intros o Eo. rewrite Eo in Hold. destruct Hold as [[_ ?] ? _ _ _ _ _ _ _ _]. rewrite Hdef, Eo. auto. }
  unfold hash_iter_next, remaining. destruct it as [pos []]; cbn [it_in_old it_pos negb] in *.
  - destruct Hio as [o Eo]; [done|]. destruct (Ho o Eo) as (-> & Hc & Hb).
    destruct (iter_old_spec idx o pos) as (r & it' & H1 & H2); auto. rewrite H1.
    exists r, it'. split; [done|]. destruct r as [s|]; [|done]. destruct H2 as (-> & H3 & H4).
    split_and!; eauto; lia.
  - rewrite Hn, Hcap. cbn [deref res_bind].
    destruct (iter_scan_spec (S (length new)) new pos) as [(s & p' & H1 & H2 & H3)|[H1 H2]]; auto.
    { unfold zlen in *. lia. }
    + rewrite H1. cbn [res_bind]. eexists _, _. split; [done|]. cbn [it_in_old it_pos].
      rewrite H3. split_and!; auto; try discriminate; lia.
    + rewrite H1. cbn [res_bind]. rewrite H2. simpl app.
      destruct (hi_old_slots idx) as [o|] eqn:Eo; [|eexists _, _; split; [done|]; by rewrite Hdef].
      destruct (Ho o eq_refl) as (-> & Hc & Hb).
      destruct (iter_old_spec idx o 0) as (r & it' & H3 & H4); auto. { unfold zlen. lia. }
      rewrite H3. exists r, it'. split; [done|]. change (Z.to_nat 0) with 0%nat in H4. rewrite drop_0 in H4.
      destruct r as [s|]; [|done]. destruct H4 as (-> & H5 & H6). split_and!; eauto; lia.
Qed.

Lemma iter_all_spec fuel idx m new old it :
  hi_inv idx m -> hi_slots idx = Some new -> old = default [] (hi_old_slots idx) ->
  (it_in_old it = true -> is_Some (hi_old_slots idx)) ->
  0 <= it_pos it <= (if it_in_old it then zlen old else zlen new) ->
  (length (remaining new old it) < fuel)%nat ->
  iter_all fuel idx it = Ret (remaining new old it).
Proof.
  intros Hinv Hn Ho. revert it. induction fuel as [|fuel IH]; intros it Hio Hp Hf; [lia|]. simpl.
  destruct (hash_iter_next_spec idx m new old it) as (r & it' & H1 & H2); auto.
  rewrite H1. simpl. destruct r as [s|]; [|by rewrite H2]. destruct H2 as (H2 & H3 & H4).
  rewrite H2 in *. rewrite IH; auto. simpl in Hf. lia.
Qed.

Lemma hi_stored_list idx m new old :
  hi_inv idx m -> hi_slots idx = Some new -> old = default [] (hi_old_slots idx) ->
  forall s, s ∈ occs new ++ occs old <-> hi_stored idx s.
Proof.
  intros Hinv Hn -> s. rewrite (hi_stored_iff idx new) by done.
  rewrite elem_of_app, <- !stored_filter. unfold old_stored.
  destruct (hi_old_slots idx); simpl; [tauto|]. unfold stored. set_solver.
Qed.

Lemma hi_keys_NoDup idx m new old :
  hi_inv idx m -> hi_slots idx = Some new -> old = default [] (hi_old_slots idx) ->
  NoDup (feat_id <$> (occs new ++ occs old)).
Proof.
  intros [_ (new' & Hn' & _ & _ & _ & _ & Hu & Hold)] Hn ->. assert (new' = new) as -> by congruence.
  assert (forall T : list HashSlot, uniq T -> NoDup (feat_id <$> occs T)) as Hnd.
  { intros T HT. apply NoDup_fmap_2_strong; [|by apply uniq_NoDup].
    intros x y Hx%stored_filter (i & Hi & Ho)%stored_filter%stored_rd E.
    by apply (probe_found_uniq T (skey y) i). }
  rewrite fmap_app. destruct (hi_old_slots idx) as [old|]; simpl.
  - destruct Hold. apply NoDup_app. split_and!; auto.
    intros k (s & -> & Hs)%list_elem_of_fmap (t & E & Ht)%list_elem_of_fmap.
    apply stored_filter in Hs, Ht. by apply (oo_disj0 s t).
  - rewrite app_nil_r. auto.
Qed.

(** ** Properties *)

(** C7: looking up a key of an index that stores the map [m] never reads
    outside the tables and always ends; the answer GRAVELDB_OK carries exactly
    the location [m] gives the key, the stored map is unchanged, and when no
    migration is in progress GRAVELDB_ERR_NOT_FOUND is answered only for keys
    that [m] does not have. *)
Theorem hash_index_get_correct (idx : HashIndex) (m : gmap Z (Z * Z)) (fid : Z) :
  hi_inv idx m -> fid <> 0 ->
  exists st out idx', hash_index_get idx fid = Ret (st, out, idx') /\ hi_inv idx' m /\
    (st = GRAVELDB_OK -> m !! fid = out /\ is_Some out) /\
    (m !! fid = None -> st = GRAVELDB_ERR_NOT_FOUND) /\
    (hi_old_slots idx = None -> out = m !! fid /\ (st = GRAVELDB_OK <-> is_Some (m !! fid))).
Proof.
  intros Hinv Hk. destruct (hash_index_get_spec idx m fid) as (idx' & Hs & Hi & st & out & Hg & Hp); auto.
  exists st, out, idx'. split_and!; auto.
  - intros ->. destruct Hp as [(_ & ? & ?)|(? & _)]; done.
  - intros Hn. destruct Hp as [(-> & E & [v Hv])|(-> & _)]; [congruence|done].
  - intros Ho. destruct Hp as [(-> & E & Hv)|(-> & -> & Hc)]; [by rewrite E|].
    assert (m !! fid = None) as Hnone.
    { destruct Hc as [|[(old & s & Hold & _) _]]; auto. exfalso.
      destruct (rehash_step_spec idx m Hinv) as (idx1 & Hs1 & _ & _ & Hid & _).
      specialize (Hid Ho). congruence. }
    rewrite Hnone. split; [done|]. split; [done|]. by intros [? ?].
Qed.

(** C6: storing (dim, entry) under a key turns an index for [m] of at most 2^29 slots into an index
    for [<[key := (dim, entry)]> m], in every state in which no migration is in progress (the growing
    of the table included) and, during a migration, for every new key; it never reads outside the
    tables, its unguarded search loop ends, and the only failure is that of the allocation of a
    larger table, which leaves [m] stored. Above 2^29 slots the 32-bit products of the load check
    and of the growth wrap ([hash_index_put_grows_to_nothing]). *)
Theorem hash_index_put_correct (alloc_ok : bool) (idx : HashIndex) (m : gmap Z (Z * Z)) (fid dim entry : Z) :
  hi_inv idx m -> hi_capacity idx <= 2 ^ 29 -> fid <> 0 ->
  hi_old_slots idx = None \/ m !! fid = None ->
  exists st idx', hash_index_put alloc_ok idx fid dim entry = Ret (st, idx') /\
    ((st = GRAVELDB_OK /\ hi_inv idx' (<[fid := (dim, entry)]> m)) \/
     (st = GRAVELDB_ERR_OOM /\ alloc_ok = false /\ hi_inv idx' m)).
Proof.
  intros Hinv Hc Hk Hor.
  destruct (hash_index_put_spec alloc_ok idx m fid dim entry) as (idx1 & Hs & Hp); auto.
  destruct (rehash_step_spec idx m Hinv) as (idx1' & Hs' & Hinv1 & _ & Hid & _).
  assert (idx1' = idx1) as -> by congruence.
  destruct Hp as (st & idx' & Hput & Hcase).
  { destruct Hor as [Ho|Hn]; [rewrite (Hid Ho); by apply not_lost_settled|].
    eapply not_lost_absent; [apply Hinv1|done]. }
  exists st, idx'. split; [done|]. destruct Hcase as [(? & ? & _)|]; auto.
Qed.

(** Completing a migration always ends, with no previous table left and
    the stored map unchanged: what a migration hides is not lost. *)
Theorem hash_index_finish_rehash_correct (idx : HashIndex) (m : gmap Z (Z * Z)) :
  hi_inv idx m ->
  exists idx', hash_index_finish_rehash idx = Ret idx' /\ hi_inv idx' m /\
    hi_old_slots idx' = None /\ hi_capacity idx' = hi_capacity idx.
Proof.
  intros Hinv. unfold hash_index_finish_rehash. destruct (hi_old_slots idx) as [old|] eqn:Eo.
  - apply finish_loop_spec; auto. destruct Hinv as [_ (new & _ & _ & _ & _ & _ & _ & Hold)].
    rewrite Eo in Hold. destruct Hold. lia.
  - exists idx. simpl. rewrite Eo. auto.
Qed.

(** Every lookup of the index answers from [m], and no migration is in progress. *)
Definition looks_up (idx : HashIndex) (m : gmap Z (Z * Z)) : Prop :=
  hi_old_slots idx = None /\
  forall k, k <> 0 -> hash_index_get idx k = Ret (match m !! k with Some _ => GRAVELDB_OK | None => GRAVELDB_ERR_NOT_FOUND end, m !! k, idx).

Lemma settled_looks_up idx m : hi_inv idx m -> hi_old_slots idx = None -> looks_up idx m.
Proof.
  intros Hinv Ho. split; [done|]. intros k Hk. destruct (hash_index_get_spec idx m k Hinv Hk) as (idx' & Hs & _ & st & out & -> & Hp).
  unfold rehash_step in Hs. rewrite Ho in Hs. injection Hs as <-. destruct Hp as [(-> & <- & [v Hv])|(-> & -> & [Hn|Hl])].
  - by rewrite Hv.
  - by rewrite Hn.
  - by apply not_lost_settled in Hl.
Qed.

(** A removal does not start a migration. *)
Lemma remove_settled idx fid st idx' : hi_old_slots idx = None -> hash_index_remove idx fid = Ret (st, idx') -> hi_old_slots idx' = None.
Proof.
  intros Ho. unfold hash_index_remove. destruct (fid =? 0); [by intros [= _ <-]|]. unfold rehash_step. rewrite Ho. cbn [res_bind].
  destruct (deref (hi_slots idx)) as [sl| |]; [|done..]. cbn [res_bind]. destruct (probe _ _ _ _ _ _) as [r| |]; [|done..]. cbn [res_bind].
  destruct r as [h|h|h]; [|unfold remove_in_old, probe_old; rewrite Ho; by intros [= _ <-]..].
  destruct (shift_loop _ _ _ _ _ _) as [[sl1 em]| |]; [|done..]. cbn [res_bind]. destruct (rd sl1 em) as [s| |]; [|done..]. cbn [res_bind].
  destruct (wr sl1 em _) as [sl2| |]; [|done..]. by intros [= _ <-].
Qed.

(** C8: removing a key of an index of at least 4 slots turns an index for [m] into an index for
    [delete key m]. Without a migration in progress GRAVELDB_ERR_NOT_FOUND is answered exactly when
    [m] does not have the key, and after the backward shift every lookup, of the removed key and of
    any other one, answers from the new map. During a migration the previous table is not shifted, so
    that a lookup can miss other keys ([hash_index_remove_hides_keys]) and the removal itself can
    miss its key and answer NOT_FOUND with [m] unchanged; the map is kept all the same: once the
    migration is complete every lookup answers from it. *)
Theorem hash_index_remove_correct (idx : HashIndex) (m : gmap Z (Z * Z)) (fid : Z) :
  hi_inv idx m -> 4 <= hi_capacity idx -> fid <> 0 ->
  exists st idx' idx'', hash_index_remove idx fid = Ret (st, idx') /\ hash_index_finish_rehash idx' = Ret idx'' /\
    (hi_old_slots idx = None -> idx'' = idx') /\
    ((st = GRAVELDB_OK /\ is_Some (m !! fid) /\ hi_inv idx' (delete fid m) /\ looks_up idx'' (delete fid m)) \/
     (st = GRAVELDB_ERR_NOT_FOUND /\ hi_inv idx' m /\ looks_up idx'' m /\ (hi_old_slots idx = None -> m !! fid = None))).
Proof.
  intros Hinv H4 Hk.
  destruct (hash_index_remove_spec idx m fid) as (idx1 & Hs & Hi & Hid & st & idx' & Hr & Hp); auto.
  assert (forall m', hi_inv idx' m' -> exists idx'', hash_index_finish_rehash idx' = Ret idx'' /\ (hi_old_slots idx = None -> idx'' = idx') /\ looks_up idx'' m') as Hfin.
  { intros m' Hm'. destruct (hash_index_finish_rehash_correct idx' m' Hm') as (idx'' & E & Hi'' & Ho & _). exists idx''. split; [done|]. split; [|by apply settled_looks_up].
    intros Hn. pose proof (remove_settled _ _ _ _ Hn Hr) as Hn'. unfold hash_index_finish_rehash in E. cbn [finish_loop] in E. rewrite Hn' in E. by injection E as <-. }
  destruct Hp as [(-> & H1 & H2)|(-> & -> & Hc)].
  - destruct (Hfin _ H2) as (idx'' & E & H3 & H5). exists GRAVELDB_OK, idx', idx''. split_and!; auto.
  - destruct (Hfin m Hi) as (idx'' & E & H3 & H5). exists GRAVELDB_ERR_NOT_FOUND, idx1, idx''. split_and!; auto. right. split_and!; auto.
    intros Ho. rewrite (Hid Ho) in Hc. destruct Hc as [|Hc]; [done|]. by apply not_lost_settled in Hc.
Qed.

(** The index obtained by storing keys 1..46 in an index of 64 slots. *)
Definition index_unset : HashIndex := mkHashIndex None 0 0 0 None 0 0 0.

Fixpoint put_keys (keys : list Z) (idx : HashIndex) : res HashIndex :=
  match keys with
  | [] => Ret idx
  | k :: keys =>
    let! '(st, idx') := hash_index_put true idx k 0 k in
    if bool_decide (st = GRAVELDB_OK) then put_keys keys idx' else Ub
  end.

Definition run_46 : res HashIndex :=
  let! '(_, idx) := hash_index_init true index_unset 64 in
  put_keys (Z.of_nat <$> seq 1 46) idx.

(** A lookup during a migration can miss a stored key. Migrated slots of
    the previous table are emptied in table order, which cuts the way to a key
    stored behind them: after 46 successful puts into an index of 64 slots
    (the 46th starts the migration) key 37 is answered GRAVELDB_ERR_NOT_FOUND,
    and it is found again once the migration is complete. *)
Theorem hash_index_get_misses_key :
  (let! idx := run_46 in
   let! '(st, out, _) := hash_index_get idx 37 in Ret (st, out)) = Ret (GRAVELDB_ERR_NOT_FOUND, None) /\
  (let! idx := run_46 in
   let! idx := hash_index_finish_rehash idx in
   let! '(st, out, _) := hash_index_get idx 37 in Ret (st, out)) = Ret (GRAVELDB_OK, Some (0, 37)).
Proof. split; vm_compute; reflexivity. Qed.

(** A removal during a migration can hide other keys. The slot of the previous table is emptied in
    place, without the shift of the current one: after the same 46 puts, key 15 and key 25 are found;
    once key 10 is removed they are answered GRAVELDB_ERR_NOT_FOUND. *)
Theorem hash_index_remove_hides_keys :
  let get k idx := let! '(st, _, _) := hash_index_get idx k in Ret st in
  (let! idx := run_46 in
   let! a := get 15 idx in
   let! b := get 25 idx in
   let! '(st, idx) := hash_index_remove idx 10 in
   let! a' := get 15 idx in
   let! b' := get 25 idx in
   Ret (a, b, st, a', b')) = Ret (GRAVELDB_OK, GRAVELDB_OK, GRAVELDB_OK, GRAVELDB_ERR_NOT_FOUND, GRAVELDB_ERR_NOT_FOUND).
Proof. vm_compute. reflexivity. Qed.

(** A table of 2^31 slots grows to nothing. The capacity is doubled in 32 bits: when the counter of a
    table of 2^31 slots says that it is full (10 * count, in 32 bits, above 7 * 2^31 mod 2^32 = 2^31,
    which is so from 214748365 keys on), the put allocates a table of 0 slots and reads behind it. *)
Theorem hash_index_put_grows_to_nothing (idx : HashIndex) (fid dim entry : Z) :
  hi_capacity idx = 2 ^ 31 -> hi_old_slots idx = None -> 2 ^ 31 < u32 (hi_count idx * 10) -> fid <> 0 ->
  hash_index_put true idx fid dim entry = Ub.
Proof.
  intros Hc Ho Hn Hk. unfold hash_index_put, rehash_step. rewrite (proj2 (Z.eqb_neq _ _) Hk), Ho. cbn [res_bind]. rewrite Hc.
  change (u32 (2 ^ 31 * 7)) with (2 ^ 31). rewrite Ho, (proj2 (Z.ltb_lt _ _) Hn). unfold hash_index_begin_grow. rewrite Hc. cbn [negb].
  rewrite bool_decide_true by done. change (u32 (2 ^ 31 * 2)) with 0. unfold put_at. cbn [hi_slots Z.to_nat replicate deref res_bind probe probe_fuel length].
  by destruct (home _ _).
Qed.

(** during a migration that no removal has disturbed, a key of the previous
    table is found whenever its home slot is at or after the cursor and its
    slot is not before its home slot: only ways across the cursor are cut. *)
Theorem hash_index_get_behind_cursor (idx idx' : HashIndex) (m : gmap Z (Z * Z))
    (old old' : list HashSlot) (i : Z) (s : HashSlot) :
  hi_inv idx m -> hi_old_slots idx = Some old -> old_intact old (hi_rehash_cursor idx) ->
  rehash_step idx = Ret idx' -> hi_old_slots idx' = Some old' ->
  rd old' i = Ret s -> feat_id s <> 0 ->
  hi_rehash_cursor idx' <= home (zlen old' - 1) (feat_id s) <= i ->
  hash_index_get idx (feat_id s) = Ret (GRAVELDB_OK, Some (dim_idx s, entry_idx s), idx').
Proof.
  intros Hinv Eo Hint Hs Eo' Hi Hk Hc.
  destruct (rehash_step_spec idx m Hinv) as (idx1 & Hs1 & Hinv1 & _ & _ & Hmid).
  assert (idx1 = idx') as -> by congruence.
  destruct (Hmid old old') as (_ & _ & _ & _ & Hint'); auto.
  assert (occ s = true) as Ho by (by apply occ_true).
  assert (m !! feat_id s = Some (dim_idx s, entry_idx s)) as Hm.
  { apply models_lookup with idx'; [apply Hinv1|]. right. exists old'. split; auto.
    apply stored_rd. eauto. }
  pose proof (not_lost_after_cursor idx' m old' i s Hinv1 Eo' (Hint' Hint) Hi Ho Hc) as Hnl.
  destruct (hash_index_get_spec idx m (feat_id s)) as (idx2 & Hs2 & _ & st & out & Hg & Hp); auto.
  assert (idx2 = idx') as -> by congruence. rewrite Hg.
  destruct Hp as [(-> & E & _)|(_ & _ & [|])]; [congruence..|done].
Qed.

(** initialisation takes the smallest power of two that holds the requested
    capacity (up to 2^31) and gives an index for the empty map, and never
    returns for a larger request: the doubling of a 32-bit value passes from
    2^31 to 0. *)
Theorem hash_index_init_correct (idx : HashIndex) (capacity : Z) :
  0 <= capacity < 2 ^ 32 ->
  (capacity <= 2 ^ 31 /\
   exists idx' b, hash_index_init true idx capacity = Ret (GRAVELDB_OK, idx') /\ hi_inv idx' ∅ /\
     hi_capacity idx' = 2 ^ b /\ capacity <= 2 ^ b /\ (2 ^ b < 2 * capacity \/ b = 0)) \/
  (2 ^ 31 < capacity /\ hash_index_init true idx capacity = Diverge).
Proof.
  intros Hc. destruct (Z.le_gt_cases capacity (2 ^ 31)) as [Hle|Hgt].
  - left. split; auto. destruct (init_cap_spec 34 0 capacity) as (b & Hi & Hb & Hcb & Hs); auto; try lia.
    assert (2 ^ b <= 2 ^ 31) by (apply Z.pow_le_mono_r; lia).
    assert (0 < 2 ^ b) by (apply Z.pow_pos_nonneg; lia).
    unfold hash_index_init. change (2 ^ Z.of_nat 0) with 1 in Hi. rewrite Hi. cbn [res_bind negb].
    rewrite u32_id by lia. eexists _, b. split_and!; auto. apply hi_inv_empty; auto. exists b. split; auto; lia.
  - right. split; auto. unfold hash_index_init.
    pose proof (init_cap_diverge 31 2 capacity) as Hd.
    change (32 + 2)%nat with 34%nat in Hd. change (2 ^ (31 - Z.of_nat 31)) with 1 in Hd. by rewrite Hd by lia.
Qed.

(** C22: iterating over an index for [m] ends after at most one call per key and one more, and visits
    every key of [m] exactly once, with its location, also during a migration. *)
Theorem hash_iter_visits_all (idx : HashIndex) (m : gmap Z (Z * Z)) (fuel : nat) :
  hi_inv idx m -> (size m < fuel)%nat ->
  exists l, iter_all fuel idx hash_iter_init = Ret l /\
    ((fun s => (feat_id s, (dim_idx s, entry_idx s))) <$> l) ≡ₚ map_to_list m.
Proof.
  intros Hinv Hf. pose proof Hinv as [Hm (new & Hn & _)].
  set (old := default [] (hi_old_slots idx)).
  assert (((fun s => (feat_id s, (dim_idx s, entry_idx s))) <$> (occs new ++ occs old)) ≡ₚ map_to_list m) as Hp.
  { apply NoDup_Permutation.
    - apply (NoDup_fmap_1 fst). rewrite <- list_fmap_compose. by eapply hi_keys_NoDup.
    - apply NoDup_map_to_list.
    - intros [k v]. rewrite elem_of_map_to_list, (Hm k v), <- (hi_stored_list idx m new old) by done.
      rewrite list_elem_of_fmap. split.
      + intros (s & [= -> ->] & Hs). by rewrite slot_of_eta.
      + intros Hs. exists (slot_of k v). split; auto. by destruct v. }
  assert (remaining new old hash_iter_init = occs new ++ occs old) as Hrem.
  { unfold remaining. simpl. by rewrite drop_0. }
  exists (occs new ++ occs old). split; [|done]. rewrite <- Hrem.
  eapply iter_all_spec; eauto; simpl; [discriminate|pose proof (zlen_nonneg new); lia|].
  rewrite Hrem. apply Permutation_length in Hp. rewrite length_fmap in Hp.
  rewrite Hp. by rewrite <- map_size_to_list || rewrite length_map_to_list.
Qed.

(** ** Witnesses *)

(** Storing distinct new keys. *)
Lemma put_keys_inv keys idx m :
  hi_inv idx m -> hi_capacity idx * 2 ^ zlen keys <= 2 ^ 29 -> NoDup keys ->
  (forall k, k ∈ keys -> k <> 0 /\ m !! k = None) ->
  exists idx' m', put_keys keys idx = Ret idx' /\ hi_inv idx' m'.
Proof.
  revert idx m. induction keys as [|k keys IH]; intros idx m Hinv Hc Hnd Hk; [simpl; eauto|].
  simpl. apply NoDup_cons in Hnd as [Hni Hnd].
  assert (zlen (k :: keys) = zlen keys + 1) as El by (unfold zlen; simpl length; lia).
  rewrite El, Z.pow_add_r in Hc by (auto with gravel; lia).
  assert (1 <= 2 ^ zlen keys) by (pose proof (zlen_nonneg keys); pose proof (Z.pow_pos_nonneg 2 (zlen keys)); lia).
  assert (0 < hi_capacity idx) as Hpos.
  { destruct Hinv as [_ (new & _ & Ht & -> & _)]. by apply table_pos. }
  destruct (Hk k) as [Hk0 Hkn]; [set_solver|].
  destruct (hash_index_put_spec true idx m k 0 k) as (idx1 & Hs & Hp); auto; [nia|].
  destruct Hp as (st & idx' & Hput & [(-> & Hinv' & Hc')|(_ & [=] & _)]).
  { destruct (rehash_step_spec idx m Hinv) as (i1 & Hs1 & [Hm1 _] & _).
    assert (i1 = idx1) as -> by congruence. by eapply not_lost_absent. }
  rewrite Hput. simpl. apply (IH idx' (<[k := (0, k)]> m)); auto.
  - nia.
  - intros k' Hk'. destruct (Hk k') as [? ?]; [set_solver|]. split; auto.
    rewrite lookup_insert_ne; auto. congruence.
Qed.

(** An executable version of [old_intact]. *)
Definition intactb (old : list HashSlot) (cursor : Z) : bool :=
  forallb (fun i =>
    match rd old (Z.of_nat i) with
    | Ret s => negb (occ s) ||
        forallb (fun d =>
          let p := cyc (zlen old) (home (zlen old - 1) (feat_id s)) (Z.of_nat d) in
          (p <? cursor) || match rd old p with Ret x => occ x | _ => false end)
        (seq 0 (Z.to_nat (dst (zlen old) (home (zlen old - 1) (feat_id s)) (Z.of_nat i))))
    | _ => true
    end) (seq 0 (length old)).

Lemma intactb_sound old cursor : intactb old cursor = true -> old_intact old cursor.
Proof.
  intros H i s Hi Ho d Hd. pose proof (rd_ret_range _ _ _ Hi) as Hr.
  unfold intactb in H. rewrite forallb_forall in H.
  assert (In (Z.to_nat i) (seq 0 (length old))) as Hin by (apply in_seq; unfold zlen in Hr; lia).
  apply H in Hin. rewrite Z2Nat.id, Hi, Ho in Hin by lia. simpl in Hin.
  rewrite forallb_forall in Hin. clear H. pose proof (Hin (Z.to_nat d)) as H.
  rewrite in_seq in H. specialize (H ltac:(lia)).
  rewrite Z2Nat.id in H by lia. apply orb_true_iff in H as [H|H].
  - right. by apply Z.ltb_lt.
  - left. unfold occ_at. destruct (rd old (cyc _ _ _)) as [x| |]; [eauto|done..].
Qed.

Definition index_16 : HashIndex := mkHashIndex (Some (replicate 16 empty_slot)) 16 0 15 None 0 0 0.

Lemma index_16_inv : hi_inv index_16 ∅.
Proof. apply (hi_inv_empty 16); [exists 4; lia|lia]. Qed.

Definition index_16_5 : HashIndex :=
  Eval vm_compute in
    match hash_index_put true index_16 5 0 7 with Ret (_, idx) => idx | _ => index_unset end.

Lemma index_16_5_inv : hi_inv index_16_5 {[ 5 := (0, 7) ]}.
Proof.
  destruct (hash_index_put_spec true index_16 ∅ 5 0 7) as (idx1 & Hs & Hp);
    [apply index_16_inv | simpl; lia | done |].
  destruct Hp as (st & idx' & Hput & [(-> & Hinv & _)|(_ & [=] & _)]).
  { vm_compute in Hs. injection Hs as <-. by apply not_lost_settled. }
  vm_compute in Hput. injection Hput as <-. exact Hinv.
Qed.

(** 24 keys in an index of 32 slots: the last put started a migration. *)
Definition index_24 : HashIndex :=
  Eval vm_compute in
    match (let! '(_, idx) := hash_index_init true index_unset 32 in put_keys (Z.of_nat <$> seq 1 24) idx)
    with Ret idx => idx | _ => index_unset end.

Definition index_24_step : HashIndex :=
  Eval vm_compute in match rehash_step index_24 with Ret idx => idx | _ => index_unset end.

Lemma index_24_inv : exists m, hi_inv index_24 m.
Proof.
  destruct (put_keys_inv (Z.of_nat <$> seq 1 24)
    (mkHashIndex (Some (replicate 32 empty_slot)) 32 0 31 None 0 0 0) ∅) as (idx & m & Hp & Hi).
  - apply (hi_inv_empty 32); [exists 5; lia|lia].
  - vm_compute. discriminate.
  - apply NoDup_fmap_2; [intros x y; lia|]. apply NoDup_seq.
  - intros k (i & -> & Hi%elem_of_seq)%list_elem_of_fmap. split; [lia|apply lookup_empty].
  - vm_compute in Hp. injection Hp as <-. eauto.
Qed.

Lemma hash_index_get_correct_witness :
  exists st out idx', hash_index_get index_16_5 5 = Ret (st, out, idx') /\ out = Some (0, 7).
Proof.
  destruct (hash_index_get_correct index_16_5 {[ 5 := (0, 7) ]} 5 index_16_5_inv ltac:(done))
    as (st & out & idx' & H1 & _ & _ & _ & H2).
  exists st, out, idx'. split; [exact H1|]. by destruct (H2 eq_refl) as [-> _].
Defined.

Lemma hash_index_put_correct_witness :
  exists st idx', hash_index_put true index_16 5 0 7 = Ret (st, idx') /\
    ((st = GRAVELDB_OK /\ hi_inv idx' (<[5 := (0, 7)]> ∅)) \/
     (st = GRAVELDB_ERR_OOM /\ true = false /\ hi_inv idx' ∅)).
Proof.
  apply (hash_index_put_correct true index_16 ∅ 5 0 7 index_16_inv); [simpl; lia|done|by left].
Defined.

Lemma hash_index_remove_correct_witness :
  exists st idx' idx'', hash_index_remove index_16_5 5 = Ret (st, idx') /\ hash_index_finish_rehash idx' = Ret idx'' /\
    (hi_old_slots index_16_5 = None -> idx'' = idx') /\
    ((st = GRAVELDB_OK /\ is_Some (({[ 5 := (0, 7) ]} : gmap Z (Z * Z)) !! 5) /\
      hi_inv idx' (delete 5 {[ 5 := (0, 7) ]}) /\ looks_up idx'' (delete 5 {[ 5 := (0, 7) ]})) \/
     (st = GRAVELDB_ERR_NOT_FOUND /\ hi_inv idx' {[ 5 := (0, 7) ]} /\ looks_up idx'' {[ 5 := (0, 7) ]} /\
      (hi_old_slots index_16_5 = None -> ({[ 5 := (0, 7) ]} : gmap Z (Z * Z)) !! 5 = None))).
Proof.
  apply (hash_index_remove_correct index_16_5 {[ 5 := (0, 7) ]} 5 index_16_5_inv); [simpl; lia|done].
Defined.

Lemma hash_index_finish_rehash_correct_witness :
  exists idx', hash_index_finish_rehash index_24 = Ret idx' /\ hi_old_slots idx' = None.
Proof.
  destruct index_24_inv as [m Hm].
  destruct (hash_index_finish_rehash_correct index_24 m Hm) as (idx' & H1 & _ & H2 & _). eauto.
Defined.

Lemma hash_index_get_behind_cursor_witness :
  hash_index_get index_24 15 = Ret (GRAVELDB_OK, Some (0, 15), index_24_step).
Proof.
  destruct index_24_inv as [m Hm].
  apply (hash_index_get_behind_cursor index_24 index_24_step m
    (default [] (hi_old_slots index_24)) (default [] (hi_old_slots index_24_step)) 26 (mkHashSlot 15 0 15) Hm);
    [reflexivity|apply intactb_sound; vm_compute; reflexivity|vm_compute; reflexivity..|done|].
  vm_compute. split; discriminate.
Defined.

Lemma hash_index_init_correct_witness :
  (100 <= 2 ^ 31 /\
   exists idx' b, hash_index_init true index_unset 100 = Ret (GRAVELDB_OK, idx') /\ hi_inv idx' ∅ /\
     hi_capacity idx' = 2 ^ b /\ 100 <= 2 ^ b /\ (2 ^ b < 2 * 100 \/ b = 0)) \/
  (2 ^ 31 < 100 /\ hash_index_init true index_unset 100 = Diverge).
Proof. apply (hash_index_init_correct index_unset 100). lia. Defined.

Lemma hash_iter_visits_all_witness :
  exists l, iter_all 2 index_16_5 hash_iter_init = Ret l /\
    ((fun s => (feat_id s, (dim_idx s, entry_idx s))) <$> l) ≡ₚ
      map_to_list ({[ 5 := (0, 7) ]} : gmap Z (Z * Z)).
Proof.
  apply (hash_iter_visits_all index_16_5 {[ 5 := (0, 7) ]} 2 index_16_5_inv).
  rewrite map_size_singleton. lia.
Defined.
