(* ===== verification/DirtyTracker.v ===== *)
(** DirtyTracker: the double-buffered set of dirty pages, src/dirty_tracker.c.

    A tree has a sorted array of segments, each a radix tree of 64-bit bitmaps.
    The state and operations come first; then the set of pages a tree holds
    ([tree_has]) and what marking, scanning, swapping and resizing do to it. *)

From S2P Require Import Prelude.

(** ** State (dirty_tracker.h) *)

(** [children] has 64 entries; at depth 0 [bits] is the page bitmap, above it is
    the summary of the children that are not [NULL]. *)
#[warnings="-register-all"]
Inductive DirtyNode : Type :=
| mkDirtyNode (bits : Z) (children : list (option DirtyNode)).

Definition bits (n : DirtyNode) : Z := match n with mkDirtyNode b _ => b end.
Definition children (n : DirtyNode) : list (option DirtyNode) := match n with mkDirtyNode _ c => c end.

Record DirtySegment : Type := mkDirtySegment { segment_id : Z; root : DirtyNode }.

(** The first [segment_count] entries of the segment array; the array itself
    has room for [segment_cap]. *)
Record DirtyTree : Type := mkDirtyTree {
  segments : list DirtySegment;
  segment_cap : Z;
  segment_span : Z;
  depth : Z
}.

Definition segment_count (t : DirtyTree) : Z := zlen (segments t).

Record DirtyTracker : Type := mkDirtyTracker {
  active : DirtyTree;
  ckpt : DirtyTree;
  dt_capacity : Z;
  generation : Z
}.

(** Outcomes of the allocations of one mark: growing the segment array, the
    root of a new segment, and the node created below depth [d]. *)
Record MarkAlloc : Type := mkMarkAlloc {
  ok_realloc : bool;
  ok_root : bool;
  ok_node : nat -> bool
}.

(** ** Operations *)

Definition node_create : DirtyNode := mkDirtyNode 0 (replicate 64 None).

(** [__builtin_ctzll] of a non-zero value. *)
Fixpoint pos_ctz (p : positive) : Z :=
  match p with xO q => 1 + pos_ctz q | _ => 0 end.
Definition ctz (z : Z) : Z := match z with Zpos p => pos_ctz p | _ => 0 end.

(** [while (bits && cond) { idx = ctz(bits); bits &= bits - 1; body(idx); }].
    Each round clears a bit, so 65 rounds of fuel are enough. *)
Fixpoint for_bits {S : Type} (fuel : nat) (b : Z) (cond : S -> bool) (body : Z -> S -> res S) (st : S) : res S :=
  match fuel with
  | O => Diverge
  | Datatypes.S fuel =>
    if negb (b =? 0) && cond st then
      let idx := ctz b in
      let! st' := body idx st in
      for_bits fuel (Z.land b (b - 1)) cond body st'
    else Ret st
  end.

(** The number of nodes freed, in place of the frees. *)
Fixpoint node_destroy (d : nat) (node : option DirtyNode) {struct d} : res Z :=
  match node with
  | None => Ret 0
  | Some n =>
    match d with
    | O => Ret 1
    | S d' =>
      let! freed := for_bits 65 (bits n) (fun _ => true)
        (fun idx freed =>
           let! c := rd (children n) idx in
           let! k := node_destroy d' c in Ret (freed + k)) 0 in
      Ret (freed + 1)
    end
  end.

Fixpoint node_mark (ok : nat -> bool) (node : DirtyNode) (offset : Z) (d : nat) {struct d} : res DirtyNode :=
  match d with
  | O => Ret (mkDirtyNode (Z.lor (bits node) (Z.shiftl 1 (Z.land offset 63))) (children node))
  | S d' =>
    let shift := Z.of_nat d * 6 in
    let child_idx := Z.land (Z.shiftr offset shift) 63 in
    let! c := rd (children node) child_idx in
    match c with
    | None =>
      if ok d' then
        let! c' := node_mark ok node_create offset d' in
        let! cs := wr (children node) child_idx (Some c') in
        Ret (mkDirtyNode (Z.lor (bits node) (Z.shiftl 1 child_idx)) cs)
      else Ret node
    | Some c0 =>
      let! c' := node_mark ok c0 offset d' in
      let! cs := wr (children node) child_idx (Some c') in
      Ret (mkDirtyNode (bits node) cs)
    end
  end.

(** [out] is the filled part of the output array, [count] its length. *)
Fixpoint node_scan (node : DirtyNode) (d : nat) (base max_pages max_out : Z) (out : list Z) {struct d} : res (list Z) :=
  match d with
  | O =>
    for_bits 65 (bits node) (fun out => zlen out <? max_out)
      (fun bit_pos out =>
         let page_idx := u32 (base + bit_pos) in
         Ret (if page_idx <? max_pages then out ++ [page_idx] else out)) out
  | S d' =>
    for_bits 65 (bits node) (fun out => zlen out <? max_out)
      (fun child_idx out =>
         let! child := rd (children node) child_idx in
         match child with
         | None => Ret out
         | Some c =>
           let child_base := u32 (base + u32 (Z.shiftl child_idx (Z.of_nat d * 6))) in
           node_scan c d' child_base max_pages max_out out
         end) out
  end.

(** A 32-bit value is at most 64 after six divisions. *)
Fixpoint compute_depth_loop (fuel : nat) (s d : Z) : res Z :=
  match fuel with
  | O => Diverge
  | S fuel => if 64 <? s then compute_depth_loop fuel (s / 64) (u8 (d + 1)) else Ret d
  end.
Definition compute_depth (span : Z) : res Z := compute_depth_loop 7 span 0.

Definition tree_init (span : Z) : res DirtyTree :=
  let span := if span =? 0 then 262144 else span in
  let! d := compute_depth span in
  Ret (mkDirtyTree [] 0 span d).

(** The freed nodes are counted; the tree becomes all zeros. *)
Fixpoint tree_destroy_loop (segs : list DirtySegment) (d : Z) : res Z :=
  match segs with
  | [] => Ret 0
  | s :: segs =>
    let! k := node_destroy (Z.to_nat d) (Some (root s)) in
    let! r := tree_destroy_loop segs d in
    Ret (k + r)
  end.
Definition tree_destroy (t : DirtyTree) : res (Z * DirtyTree) :=
  let! freed := tree_destroy_loop (segments t) (depth t) in
  Ret (freed, mkDirtyTree [] 0 0 0).

(** The index of the segment, or [~insertion_point], which is
    [- insertion_point - 1]. *)
Definition segment_find (t : DirtyTree) (id : Z) : res Z :=
  let! r := bsearch segment_id (segments t) id in
  Ret (match r with Found mid => mid | Missing lo => Z.lnot lo end).

(** The index of the segment's entry, [None] for a null root, and the tree. The
    entries are shifted before the root is allocated: when that fails, the
    first [segment_count] entries are those of the shifted array. *)
Definition segment_get_or_create (al : MarkAlloc) (t : DirtyTree) (id : Z) : res (option Z * DirtyTree) :=
  let! idx := segment_find t id in
  if 0 <=? idx then Ret (Some idx, t) else
  let insert_at := Z.lnot idx in
  let segs := segments t in
  let '(grown, cap) :=
    if segment_cap t <=? segment_count t
    then (ok_realloc al, if negb (segment_cap t =? 0) then u16 (segment_cap t * 2) else 4)
    else (true, segment_cap t) in
  if negb grown then Ret (None, t)
  else if cap <=? segment_count t then Ub
  else
    let! shifted :=
      if insert_at <? segment_count t then
        let! s := rd segs insert_at in
        Ret (take (Z.to_nat insert_at) segs ++ s :: drop (Z.to_nat insert_at) segs)
      else Ret segs in
    if negb (ok_root al) then
      Ret (None, mkDirtyTree (take (length segs) shifted) cap (segment_span t) (depth t))
    else
      Ret (Some insert_at,
           mkDirtyTree (take (Z.to_nat insert_at) segs ++
                        mkDirtySegment id node_create :: drop (Z.to_nat insert_at) segs)
                       cap (segment_span t) (depth t)).

Definition tree_mark (al : MarkAlloc) (t : DirtyTree) (page_idx : Z) : res DirtyTree :=
  let id := page_idx / segment_span t in
  let offset := page_idx mod segment_span t in
  let! '(r, t) := segment_get_or_create al t id in
  match r with
  | None => Ret t
  | Some i =>
    let! s := rd (segments t) i in
    let! n := node_mark (ok_node al) (root s) offset (Z.to_nat (depth t)) in
    let! segs := wr (segments t) i (mkDirtySegment (segment_id s) n) in
    Ret (mkDirtyTree segs (segment_cap t) (segment_span t) (depth t))
  end.

Fixpoint tree_scan_loop (segs : list DirtySegment) (span d max_pages max_out : Z) (out : list Z) : res (list Z) :=
  match segs with
  | [] => Ret out
  | s :: segs =>
    if zlen out <? max_out then
      let base := u32 (segment_id s * span) in
      let! out := node_scan (root s) (Z.to_nat d) base max_pages max_out out in
      tree_scan_loop segs span d max_pages max_out out
    else Ret out
  end.
Definition tree_scan (t : DirtyTree) (max_pages max_out : Z) : res (list Z) :=
  tree_scan_loop (segments t) (segment_span t) (depth t) max_pages max_out [].

Definition span_from_estimate (estimated_pages : Z) : Z :=
  if estimated_pages =? 0 then 262144
  else if estimated_pages <=? 4096 then 4096
  else if estimated_pages <=? 262144 then 262144
  else 16777216.

(** [cfg] is [None] for a null configuration, else its [estimated_pages]. *)
Definition dirty_tracker_init (cfg : option Z) : res (graveldb_status_t * DirtyTracker) :=
  let est := match cfg with Some e => if negb (e =? 0) then e else 0 | None => 0 end in
  let span := span_from_estimate est in
  let cap := if 0 <? est then est else 262144 in
  let! a := tree_init span in
  let! c := tree_init span in
  Ret (GRAVELDB_OK, mkDirtyTracker a c cap 0).

Definition dirty_tracker_destroy (dt : DirtyTracker) : res (Z * DirtyTracker) :=
  let! '(f1, a) := tree_destroy (active dt) in
  let! '(f2, c) := tree_destroy (ckpt dt) in
  Ret (f1 + f2, mkDirtyTracker a c 0 0).

Definition dirty_tracker_mark (al : MarkAlloc) (dt : DirtyTracker) (page_idx : Z) : res DirtyTracker :=
  let! a := tree_mark al (active dt) page_idx in
  Ret (mkDirtyTracker a (ckpt dt) (dt_capacity dt) (generation dt)).

Definition dirty_tracker_scan (dt : DirtyTracker) (max_out : Z) : res (list Z) :=
  tree_scan (active dt) (dt_capacity dt) max_out.

Definition dirty_tracker_scan_ckpt (dt : DirtyTracker) (max_out : Z) : res (list Z) :=
  tree_scan (ckpt dt) (dt_capacity dt) max_out.

Definition dirty_tracker_swap (dt : DirtyTracker) : res DirtyTracker :=
  let! '(_, _) := tree_destroy (ckpt dt) in
  let c := active dt in
  let! a := tree_init (segment_span c) in
  Ret (mkDirtyTracker a c (dt_capacity dt) (u64 (generation dt + 1))).

Definition dirty_tracker_resize (dt : DirtyTracker) (new_capacity : Z) : graveldb_status_t * DirtyTracker :=
  if new_capacity <=? dt_capacity dt then (GRAVELDB_OK, dt)
  else (GRAVELDB_OK, mkDirtyTracker (active dt) (ckpt dt) new_capacity (generation dt)).

(** ** Loops over the set bits of a word *)

(** The positions of the set bits of a 64-bit word, ascending. *)
Definition bit_list (b : Z) : list Z := List.filter (Z.testbit b) (Z.of_nat <$> seq 0 64).

(** A loop over a list with the loop condition tested before each round. *)
Fixpoint fold_while {S : Type} (cond : S -> bool) (body : Z -> S -> res S) (l : list Z) (st : S) : res S :=
  match l with
  | [] => Ret st
  | i :: l => if cond st then let! st' := body i st in fold_while cond body l st' else Ret st
  end.

Lemma pos_ctz_spec p :
  0 <= pos_ctz p /\ Z.testbit (Zpos p) (pos_ctz p) = true /\
  forall i, i < pos_ctz p -> Z.testbit (Zpos p) i = false.
Proof.
  induction p as [q IH|q IH|]; simpl pos_ctz.
  - split_and!; auto; [lia|]. intros i Hi. apply Z.testbit_neg_r. lia.
  - destruct IH as (H1 & H2 & H3). change (Zpos q~0) with (2 * Zpos q). split_and!; [lia| |].
    + replace (1 + pos_ctz q) with (Z.succ (pos_ctz q)) by lia. by rewrite Z.double_bits_succ.
    + intros i Hi. destruct (Z.lt_ge_cases i 0); [by apply Z.testbit_neg_r|].
      destruct (Z.eq_dec i 0) as [->|]; [apply Z.testbit_even_0|].
      replace i with (Z.succ (i - 1)) by lia. rewrite Z.double_bits_succ. apply H3. lia.
  - split_and!; auto; [lia|]. intros i Hi. apply Z.testbit_neg_r. lia.
Qed.

Lemma ctz_spec b :
  0 < b -> 0 <= ctz b /\ Z.testbit b (ctz b) = true /\ forall i, i < ctz b -> Z.testbit b i = false.
Proof. destruct b as [|p|p]; try lia. intros _. apply pos_ctz_spec. Qed.

Lemma testbit_range b i : 0 <= b < 2 ^ 64 -> Z.testbit b i = true -> 0 <= i < 64.
Proof.
  intros Hb Hi. destruct (Z.lt_ge_cases i 0); [by rewrite Z.testbit_neg_r in Hi|].
  destruct (Z.lt_ge_cases i 64); [lia|].
  rewrite <- (Z.mod_small b (2 ^ 64)), Z.mod_pow2_bits_high in Hi by lia. done.
Qed.

(** [bits & (bits - 1)] clears the lowest set bit. *)
Lemma clear_lowest b i :
  0 < b -> Z.testbit (Z.land b (b - 1)) i = Z.testbit b i && negb (i =? ctz b).
Proof.
  intros Hb. destruct (ctz_spec b Hb) as (Hc & Ht & Hl). set (c := ctz b) in *.
  assert (Z.ldiff (2 ^ c) b = 0) as Hld.
  { apply Z.bits_inj'. intros n Hn. rewrite Z.ldiff_spec, Z.bits_0, Z.pow2_bits_eqb by lia.
    destruct (Z.eqb_spec c n) as [->|]; [by rewrite Ht|done]. }
  assert (b - 2 ^ c = Z.ldiff b (2 ^ c)) as Hsub by (by apply Z.sub_nocarry_ldiff).
  assert (b - 1 = Z.lxor (Z.ldiff b (2 ^ c)) (Z.ones c)) as ->.
  { rewrite <- Z.add_nocarry_lxor, <- Hsub, Z.ones_equiv; [lia|].
    apply Z.bits_inj'. intros n Hn.
    rewrite Z.land_spec, Z.ldiff_spec, Z.bits_0, Z.testbit_ones_nonneg by lia.
    destruct (Z.ltb_spec n c); [|by rewrite andb_false_r]. by rewrite Hl. }
  destruct (Z.lt_ge_cases i 0); [by rewrite !Z.testbit_neg_r|].
  rewrite Z.land_spec, Z.lxor_spec, Z.ldiff_spec, Z.pow2_bits_eqb, Z.testbit_ones_nonneg by lia.
  destruct (Z.lt_ge_cases i c) as [Hi|Hi]; [by rewrite Hl|].
  destruct (Z.ltb_spec i c); [lia|]. rewrite xorb_false_r.
  rewrite (Z.eqb_sym c i). by destruct (Z.testbit b i).
Qed.

Lemma clear_lowest_range b : 0 < b < 2 ^ 64 -> 0 <= Z.land b (b - 1) < b.
Proof.
  intros Hb. split; [apply Z.land_nonneg; lia|].
  assert (Z.land b (b - 1) <= b) as Hle.
  { assert (Z.ldiff (Z.land b (b - 1)) b = 0) as E.
    { apply Z.bits_inj'. intros n Hn. rewrite Z.ldiff_spec, Z.land_spec, Z.bits_0.
      destruct (Z.testbit b n); [by rewrite andb_false_r|done]. }
    apply Z.sub_nocarry_ldiff in E. assert (0 <= Z.ldiff b (Z.land b (b - 1))); [|lia].
    apply Z.ldiff_nonneg. lia. }
  assert (Z.land b (b - 1) <> b); [|lia]. intros E.
  destruct (ctz_spec b) as (_ & Ht & _); [lia|].
  pose proof (clear_lowest b (ctz b)) as Hcl. rewrite E, Ht, Z.eqb_refl in Hcl.
  specialize (Hcl ltac:(lia)). done.
Qed.

Lemma filter_none {A} (f : A -> bool) (l : list A) :
  (forall x, x ∈ l -> f x = false) -> List.filter f l = [].
Proof. induction l as [|x l IH]; intros H; [done|]. simpl. rewrite H by set_solver. apply IH. set_solver. Qed.

Lemma filter_same {A} (f g : A -> bool) (l : list A) :
  (forall x, x ∈ l -> f x = g x) -> List.filter f l = List.filter g l.
Proof.
  induction l as [|x l IH]; intros H; [done|]. simpl. rewrite H by set_solver.
  rewrite IH by set_solver. done.
Qed.

Lemma bit_list_elem b i : 0 <= b < 2 ^ 64 -> i ∈ bit_list b <-> Z.testbit b i = true.
Proof.
  intros Hb. unfold bit_list. rewrite list_elem_of_In, filter_In, <- list_elem_of_In, list_elem_of_fmap.
  split; [tauto|]. intros Ht. split; auto. pose proof (testbit_range b i Hb Ht).
  exists (Z.to_nat i). split; [lia|]. apply elem_of_seq. lia.
Qed.

Lemma bit_list_step b :
  0 < b < 2 ^ 64 -> bit_list b = ctz b :: bit_list (Z.land b (b - 1)).
Proof.
  intros Hb. destruct (ctz_spec b) as (Hc & Ht & Hl); [lia|].
  pose proof (testbit_range b (ctz b) ltac:(lia) Ht) as Hr. unfold bit_list.
  assert (seq 0 64 = seq 0 (Z.to_nat (ctz b)) ++ Z.to_nat (ctz b) :: seq (S (Z.to_nat (ctz b))) (63 - Z.to_nat (ctz b))) as ->.
  { replace 64%nat with (Z.to_nat (ctz b) + S (63 - Z.to_nat (ctz b)))%nat at 1 by lia. by rewrite seq_app. }
  rewrite fmap_app, !List.filter_app. cbn [fmap list_fmap List.filter]. rewrite Z2Nat.id, Ht by lia.
  rewrite clear_lowest, Z.eqb_refl, andb_false_r by lia.
  rewrite (filter_none (Z.testbit b)), (filter_none (Z.testbit (Z.land b (b - 1)))).
  - simpl. f_equal. apply filter_same. intros x (j & -> & Hj%elem_of_seq)%list_elem_of_fmap.
    rewrite clear_lowest by lia. destruct (Z.eqb_spec (Z.of_nat j) (ctz b)); [lia|]. by rewrite andb_true_r.
  - intros x (j & -> & Hj%elem_of_seq)%list_elem_of_fmap. rewrite clear_lowest, Hl by lia. done.
  - intros x (j & -> & Hj%elem_of_seq)%list_elem_of_fmap. apply Hl. lia.
Qed.

Lemma bit_list_0 : bit_list 0 = [].
Proof. apply filter_none. intros x _. apply Z.bits_0. Qed.

Lemma bit_list_length b : (length (bit_list b) <= 64)%nat.
Proof.
  unfold bit_list. etrans; [apply filter_length_le|]. rewrite length_fmap, length_seq. done.
Qed.

Lemma sorted_filter (f : Z -> bool) l : StronglySorted Z.lt l -> StronglySorted Z.lt (List.filter f l).
Proof.
  induction 1 as [|x l Hl IH Hx]; simpl; [constructor|]. destruct (f x); [|done]. constructor; auto.
  rewrite Forall_forall in *. intros y [Hy _]%list_elem_of_In%filter_In. apply Hx. by apply list_elem_of_In.
Qed.

Lemma sorted_seq k m : StronglySorted Z.lt (Z.of_nat <$> seq k m).
Proof.
  revert k. induction m as [|m IH]; intros k; simpl; constructor; auto.
  apply Forall_forall. intros x (j & -> & Hj%elem_of_seq)%list_elem_of_fmap. lia.
Qed.

Lemma bit_list_sorted b : StronglySorted Z.lt (bit_list b).
Proof. apply sorted_filter, sorted_seq. Qed.

(** The sum of [f] over a list of indices. *)
Definition zsum {A} (f : A -> Z) (l : list A) : Z := foldr (fun x acc => f x + acc) 0 l.

Lemma bit_list_sum (f : Z -> Z) b :
  (forall i, 0 <= i < 64 -> Z.testbit b i = false -> f i = 0) ->
  zsum f (bit_list b) = zsum f (Z.of_nat <$> seq 0 64).
Proof.
  unfold bit_list. intros H.
  assert (forall i, i ∈ Z.of_nat <$> seq 0 64 -> Z.testbit b i = false -> f i = 0) as Hf.
  { intros i (j & -> & Hj%elem_of_seq)%list_elem_of_fmap. apply H. lia. }
  clear H. induction (Z.of_nat <$> seq 0 64) as [|i l IH]; [done|]. simpl.
  destruct (Z.testbit b i) eqn:E; simpl; rewrite IH by (intros; apply Hf; auto; set_solver); [done|].
  rewrite (Hf i); auto; set_solver.
Qed.

#[local] Opaque bit_list.

(** The loop of the source visits the set bits in ascending order. *)
Lemma for_bits_fold {S : Type} fuel b (cond : S -> bool) body st :
  0 <= b < 2 ^ 64 -> (length (bit_list b) < fuel)%nat ->
  for_bits fuel b cond body st = fold_while cond body (bit_list b) st.
Proof.
  revert b st. induction fuel as [|fuel IH]; intros b st Hb Hf; [lia|]. cbn [for_bits].
  destruct (Z.eqb_spec b 0) as [->|Hne]; [by rewrite bit_list_0|]. cbn [negb andb].
  rewrite bit_list_step in * by lia. cbn [fold_while]. destruct (cond st); [|done].
  destruct (body (ctz b) st) as [st'| |]; [|done..]. cbn [res_bind].
  apply IH; [|cbn [length] in Hf; lia]. pose proof (clear_lowest_range b). lia.
Qed.

Lemma for_bits_65 {S : Type} b (cond : S -> bool) body st :
  0 <= b < 2 ^ 64 -> for_bits 65 b cond body st = fold_while cond body (bit_list b) st.
Proof. intros. apply for_bits_fold; auto. pose proof (bit_list_length b). lia. Qed.


(** ** The set of pages of a node *)

(** A node at depth [d] covers [64^(d+1)] pages. *)
Definition cover (d : nat) : Z := 2 ^ (6 * (Z.of_nat d + 1)).

Fixpoint wf_node (d : nat) (n : DirtyNode) : Prop :=
  0 <= bits n < 2 ^ 64 /\
  match d with
  | O => True
  | S d' =>
    zlen (children n) = 64 /\
    forall i c, rd (children n) i = Ret c ->
      match c with
      | Some c => Z.testbit (bits n) i = true /\ wf_node d' c
      | None => Z.testbit (bits n) i = false
      end
  end.

(** Membership of the page at offset [o] of the node's range. *)
Fixpoint node_has (d : nat) (n : DirtyNode) (o : Z) : bool :=
  match d with
  | O => Z.testbit (bits n) o
  | S d' =>
    match rd (children n) (o / cover d') with
    | Ret (Some c) => node_has d' c (o mod cover d')
    | _ => false
    end
  end.

(** The offsets a node holds, in the order of the bitmaps. *)
Fixpoint node_pages (d : nat) (n : DirtyNode) : list Z :=
  match d with
  | O => bit_list (bits n)
  | S d' =>
    flat_map (fun i =>
      match rd (children n) i with
      | Ret (Some c) => (fun o => i * cover d' + o) <$> node_pages d' c
      | _ => []
      end) (bit_list (bits n))
  end.

Lemma cover_pos d : 0 < cover d.
Proof. unfold cover. lia. Qed.

Lemma cover_S d : cover (S d) = 64 * cover d.
Proof.
  unfold cover. replace (6 * (Z.of_nat (S d) + 1)) with (6 + 6 * (Z.of_nat d + 1)) by lia.
  rewrite Z.pow_add_r by lia. done.
Qed.

Lemma cover_0 : cover 0 = 64.
Proof. reflexivity. Qed.

#[local] Hint Resolve cover_pos : gravel.

Lemma div_range o a b : 0 < a -> 0 <= o < b * a -> 0 <= o / a < b.
Proof. intros. split; [apply Z.div_pos; lia|]. apply Z.div_lt_upper_bound; lia. Qed.

(** The two halves of an offset determine it. *)
Lemma split_offset i o a : 0 < a -> 0 <= o < a -> (i * a + o) / a = i /\ (i * a + o) mod a = o.
Proof.
  intros. rewrite Z.add_comm. rewrite Z.div_add, Z.mod_add by lia.
  rewrite Z.div_small, Z.mod_small by lia. lia.
Qed.

Lemma elem_of_flat_map {A B} (f : A -> list B) l y : y ∈ flat_map f l <-> exists x, x ∈ l /\ y ∈ f x.
Proof. rewrite list_elem_of_In, in_flat_map. by setoid_rewrite list_elem_of_In. Qed.

Lemma wf_node_bits d n : wf_node d n -> 0 <= bits n < 2 ^ 64.
Proof. destruct d; simpl; tauto. Qed.

Lemma node_pages_elem d n o :
  wf_node d n -> o ∈ node_pages d n <-> 0 <= o < cover d /\ node_has d n o = true.
Proof.
  revert n o. induction d as [|d IH]; intros n o Hw; pose proof (wf_node_bits _ _ Hw) as Hb; simpl.
  - rewrite bit_list_elem by auto. rewrite cover_0. split; [|tauto].
    intros Ht. split; auto. by eapply testbit_range.
  - rewrite elem_of_flat_map. destruct Hw as (_ & Hl & Hc). pose proof (cover_pos d). split.
    + intros (i & Hi & Ho). rewrite bit_list_elem in Hi by auto. pose proof (testbit_range _ _ Hb Hi).
      destruct (rd (children n) i) as [[c|]| |] eqn:E; try (by apply elem_of_nil in Ho).
      apply Hc in E as Hci. destruct Hci as [_ Hwc].
      apply list_elem_of_fmap in Ho as (o' & -> & [Ho' Hh]%IH); [|done].
      destruct (split_offset i o' (cover d)) as [E1 E2]; [lia..|]. rewrite E1, E2, E.
      rewrite cover_S. split; [nia|done].
    + intros [Ho Hh]. rewrite cover_S in Ho. exists (o / cover d).
      destruct (rd (children n) (o / cover d)) as [[c|]| |] eqn:E; try done.
      apply Hc in E as [Ht Hwc]. rewrite bit_list_elem by auto. split; [done|].
      apply list_elem_of_fmap. exists (o mod cover d). split.
      * rewrite (Z.div_mod o (cover d)) at 1 by lia. lia.
      * apply IH; auto. split; auto. apply Z.mod_pos_bound. lia.
Qed.

(** Concatenating blocks that lie in consecutive ranges keeps the order. *)
Lemma sorted_flat_map {A} (g : A -> Z) (f : A -> list Z) (a : Z) l :
  0 < a -> StronglySorted Z.lt (g <$> l) ->
  (forall x, x ∈ l -> StronglySorted Z.lt (f x) /\ forall y, y ∈ f x -> g x * a <= y < (g x + 1) * a) ->
  StronglySorted Z.lt (flat_map f l).
Proof.
  intros Ha. induction l as [|i l IH]; intros Hl Hf; simpl; [constructor|].
  apply StronglySorted_cons in Hl as [Hi Hl].
  apply StronglySorted_app. split_and!; [|apply Hf; set_solver|apply IH; auto; set_solver].
  intros x y Hx (j & Hj & Hy)%elem_of_flat_map. rewrite Forall_forall in Hi.
  assert (g i < g j) by (apply Hi; set_solver).
  destruct (Hf i) as [_ H1]; [set_solver|]. destruct (Hf j) as [_ H2]; [set_solver|].
  apply H1 in Hx. apply H2 in Hy. nia.
Qed.

Lemma sorted_shift k l : StronglySorted Z.lt l -> StronglySorted Z.lt ((fun o => k + o) <$> l).
Proof. apply StronglySorted_fmap. intros. lia. Qed.

Lemma node_pages_sorted d n : wf_node d n -> StronglySorted Z.lt (node_pages d n).
Proof.
  revert n. induction d as [|d IH]; intros n Hw; [apply bit_list_sorted|].
  pose proof (wf_node_bits _ _ Hw) as Hb. destruct Hw as (_ & Hl & Hc). simpl.
  apply (sorted_flat_map id) with (cover d); [apply cover_pos|rewrite list_fmap_id; apply bit_list_sorted|].
  intros i Hi. destruct (rd (children n) i) as [[c|]| |] eqn:E;
    try (split; [constructor|intros y Hy; by apply elem_of_nil in Hy]).
  apply Hc in E as [_ Hwc]. split; [by apply sorted_shift, IH|].
  intros y (o & -> & [Ho _]%node_pages_elem)%list_elem_of_fmap; auto. unfold id. lia.
Qed.

(** ** Marking in a node *)

Lemma wf_node_create d : wf_node d node_create.
Proof.
  destruct d; simpl; split; try lia; auto. split; [done|].
  intros i c H. apply (rd_replicate 64) in H as [-> _]. apply Z.bits_0.
Qed.

Lemma node_has_create d o : node_has d node_create o = false.
Proof.
  destruct d as [|d]; cbn [node_has]; [apply Z.bits_0|].
  destruct (rd (children node_create) (o / cover d)) as [c| |] eqn:E; auto.
  apply (rd_replicate 64) in E as [-> _]. done.
Qed.

Lemma shiftl_1 i : 0 <= i -> Z.shiftl 1 i = 2 ^ i.
Proof. intros. by rewrite Z.shiftl_mul_pow2, Z.mul_1_l. Qed.

Lemma set_bit b i p : 0 <= i -> 0 <= p ->
  Z.testbit (Z.lor b (Z.shiftl 1 i)) p = Z.testbit b p || (p =? i).
Proof.
  intros. rewrite shiftl_1, Z.lor_spec, Z.pow2_bits_eqb by lia. by rewrite (Z.eqb_sym i p).
Qed.

Lemma set_bit_range b i : 0 <= b < 2 ^ 64 -> 0 <= i < 64 -> 0 <= Z.lor b (Z.shiftl 1 i) < 2 ^ 64.
Proof.
  intros Hb Hi. rewrite shiftl_1 by lia. split; [apply Z.lor_nonneg; lia|].
  assert (2 ^ i <= 2 ^ 63) by (apply Z.pow_le_mono_r; lia).
  destruct (Z.eq_dec b 0) as [->|]; [rewrite Z.lor_0_l; lia|].
  assert (0 <= 2 ^ i) by lia. assert (0 < Z.lor b (2 ^ i)).
  { assert (Z.lor b (2 ^ i) <> 0); [|assert (0 <= Z.lor b (2 ^ i)) by (apply Z.lor_nonneg; lia); lia].
    intros [? _]%Z.lor_eq_0_iff. lia. }
  apply Z.log2_lt_pow2; [lia|]. rewrite Z.log2_lor by lia.
  apply Z.max_lub_lt; [apply Z.log2_lt_pow2; lia|]. rewrite Z.log2_pow2; lia.
Qed.

Lemma offset_split o d :
  0 <= o ->
  Z.land (Z.shiftr o (Z.of_nat (S d) * 6)) 63 = (o mod cover (S d)) / cover d /\
  o mod cover d = (o mod cover (S d)) mod cover d.
Proof.
  intros Ho. pose proof (cover_pos d). rewrite cover_S. rewrite Z.shiftr_div_pow2 by lia.
  change 63 with (2 ^ 6 - 1). rewrite land_mask by lia. change (2 ^ 6) with 64.
  replace (2 ^ (Z.of_nat (S d) * 6)) with (cover d) by (unfold cover; f_equal; lia).
  rewrite (Z.mul_comm 64), Z.rem_mul_r, (Z.mul_comm (cover d) (_ mod 64)) by lia. split.
  - rewrite Z.div_add by lia. rewrite (Z.div_small (o mod cover d)); [lia|]. apply Z.mod_pos_bound. lia.
  - rewrite Z.mod_add by lia. by rewrite Z.mod_mod by lia.
Qed.

Lemma offset_eqb p q a : 0 < a -> (p =? q) = (p / a =? q / a) && (p mod a =? q mod a).
Proof.
  intros. pose proof (Z.div_mod p a). pose proof (Z.div_mod q a).
  destruct (Z.eqb_spec p q) as [->|]; [by rewrite !Z.eqb_refl|].
  destruct (Z.eqb_spec (p / a) (q / a)); [|done].
  destruct (Z.eqb_spec (p mod a) (q mod a)); [|done]. nia.
Qed.

(** Replacing child [i] of a node: the summary bit and the pages. *)
Lemma set_child d n i c c' b p :
  wf_node (S d) n -> 0 <= i < 64 -> rd (children n) i = Ret c ->
  b = match c with Some _ => bits n | None => Z.lor (bits n) (Z.shiftl 1 i) end ->
  wf_node d c' ->
  wf_node (S d) (mkDirtyNode b (<[Z.to_nat i := Some c']> (children n))) /\
  (0 <= p < cover (S d) ->
   node_has (S d) (mkDirtyNode b (<[Z.to_nat i := Some c']> (children n))) p =
   if p / cover d =? i then node_has d c' (p mod cover d) else node_has (S d) n p).
Proof.
  intros (Hb & Hl & Hc) Hi Hci Hbe Hw. pose proof (Hc _ _ Hci) as Hcc. split.
  - split; [|split].
    + simpl. destruct c; subst b; [done|]. by apply set_bit_range.
    + cbn [children]. by rewrite zlen_insert.
    + cbn [children bits]. intros j x Hx. pose proof (rd_ret_range _ _ _ Hx) as Hj.
      destruct (Z.eq_dec j i) as [->|Hne].
      * rewrite rd_insert_eq in Hx by lia. simplify_eq. split; [|done].
        destruct c; [tauto|]. rewrite set_bit by lia. by rewrite Z.eqb_refl, orb_true_r.
      * rewrite rd_insert_ne in Hx by lia. apply Hc in Hx. subst b. destruct c; [done|].
        rewrite set_bit by lia. destruct (Z.eqb_spec j i); [lia|]. by rewrite orb_false_r.
  - intros Hp. cbn [node_has children]. destruct (Z.eqb_spec (p / cover d) i) as [->|Hne].
    + rewrite rd_insert_eq by lia. done.
    + rewrite rd_insert_ne by lia. done.
Qed.

(** [node_mark] adds the page, or nothing when an allocation on its path fails;
    the pages already marked stay. *)
Lemma node_mark_spec ok d n o :
  wf_node d n -> 0 <= o ->
  exists n' added, node_mark ok n o d = Ret n' /\ wf_node d n' /\
    ((forall k, ok k = true) -> added = true) /\
    forall p, 0 <= p < cover d -> node_has d n' p = node_has d n p || (added && (p =? o mod cover d)).
Proof.
  revert n. induction d as [|d IH]; intros n Hw Ho.
  - eexists _, true. split; [reflexivity|]. pose proof (wf_node_bits _ _ Hw) as Hb.
    change 63 with (2 ^ 6 - 1). rewrite land_mask by lia. change (2 ^ 6) with 64.
    pose proof (Z.mod_pos_bound o 64 ltac:(lia)). split_and!; auto.
    + split; [|done]. apply set_bit_range; auto.
    + intros p Hp. cbn [node_has bits]. rewrite set_bit by lia. done.
  - destruct (offset_split o d Ho) as [E1 E2]. cbn [node_mark]. rewrite E1.
    set (q := o mod cover (S d)) in *. pose proof (cover_pos d) as Hd.
    assert (0 <= q < 64 * cover d) as Hq by (rewrite <- cover_S; apply Z.mod_pos_bound, cover_pos).
    pose proof (div_range q _ _ Hd Hq) as Hi. set (i := q / cover d) in *.
    destruct (rd_in_range (children n) i) as [c Hc]; [destruct Hw as (_ & -> & _); lia|].
    rewrite Hc. cbn [res_bind].
    assert (forall c0 b, wf_node d c0 ->
      b = match c with Some _ => bits n | None => Z.lor (bits n) (Z.shiftl 1 i) end ->
      (forall p, 0 <= p < cover (S d) -> p / cover d = i -> node_has d c0 (p mod cover d) = node_has (S d) n p) ->
      exists n' added,
        (let! c' := node_mark ok c0 o d in let! cs := wr (children n) i (Some c') in Ret (mkDirtyNode b cs)) = Ret n' /\
        wf_node (S d) n' /\ ((forall k, ok k = true) -> added = true) /\
        forall p, 0 <= p < cover (S d) -> node_has (S d) n' p = node_has (S d) n p || (added && (p =? q))) as Hgo.
    { intros c0 b Hw0 Hb Hsame. destruct (IH c0 Hw0 Ho) as (c' & added & -> & Hw' & Hok & Hh). cbn [res_bind].
      rewrite wr_ret by (destruct Hw as (_ & -> & _); lia). cbn [res_bind]. eexists _, added.
      split; [reflexivity|]. split_and!; auto.
      - by eapply (set_child d n i c c' b 0).
      - intros p Hp. destruct (set_child d n i c c' b p) as [_ ->]; auto.
        rewrite (offset_eqb p q (cover d)) by auto. fold i. rewrite <- E2.
        destruct (Z.eqb_spec (p / cover d) i) as [E|]; [|by rewrite andb_false_r, orb_false_r].
        cbn [andb]. rewrite Hh by (apply Z.mod_pos_bound; lia). by rewrite Hsame. }
    destruct c as [c0|].
    + apply Hgo; auto; [by destruct Hw as (_ & _ & Hw); apply Hw in Hc as [_ ?]|].
      intros p Hp E. cbn [node_has]. by rewrite E, Hc.
    + destruct (ok d) eqn:Eok.
      * apply Hgo; auto using wf_node_create.
        intros p Hp E. cbn [node_has]. by rewrite E, Hc, node_has_create.
      * exists n, false. split_and!; auto; [intros Hok; by rewrite Hok in Eok|].
        intros p Hp. by rewrite orb_false_r.
Qed.

(** ** Scanning a node *)

(** What a scan adds to the output: the pages below [max_pages], cut at [max_out]. *)
Definition push (max_pages max_out : Z) (out pages : list Z) : list Z :=
  out ++ take (Z.to_nat (max_out - zlen out)) (List.filter (fun p => p <? max_pages) pages).

Section scan.
Context (mp mo : Z).

Lemma push_nil out : push mp mo out [] = out.
Proof. unfold push. simpl. by rewrite take_nil, app_nil_r. Qed.

Lemma push_full out l : mo <= zlen out -> push mp mo out l = out.
Proof. intros. unfold push. replace (Z.to_nat (mo - zlen out)) with 0%nat by lia. by rewrite take_0, app_nil_r. Qed.

Lemma push_one out p : zlen out < mo -> push mp mo out [p] = if p <? mp then out ++ [p] else out.
Proof.
  intros. unfold push. simpl. destruct (p <? mp); [|by rewrite take_nil, app_nil_r].
  rewrite take_ge; [done|]. simpl. lia.
Qed.

Lemma push_app out l1 l2 : push mp mo (push mp mo out l1) l2 = push mp mo out (l1 ++ l2).
Proof.
  unfold push. rewrite List.filter_app, take_app, <- app_assoc. do 2 f_equal.
  f_equal. rewrite zlen_app. unfold zlen. rewrite length_take. lia.
Qed.

Lemma fold_while_push body f l out :
  (forall i out, i ∈ l -> zlen out < mo -> body i out = Ret (push mp mo out (f i))) ->
  fold_while (fun out => zlen out <? mo) body l out = Ret (push mp mo out (flat_map f l)).
Proof.
  revert out. induction l as [|i l IH]; intros out H; simpl; [by rewrite push_nil|].
  destruct (Z.ltb_spec (zlen out) mo); [|by rewrite push_full by lia].
  rewrite H by (auto; set_solver). cbn [res_bind]. rewrite IH by (intros; apply H; auto; set_solver).
  by rewrite push_app.
Qed.

Lemma flat_map_single {A B} (f : A -> B) l : flat_map (fun x => [f x]) l = f <$> l.
Proof. induction l as [|x l IH]; [done|]. simpl. by rewrite IH. Qed.

Lemma fmap_flat_map {A B C} (g : B -> C) (f : A -> list B) l :
  g <$> flat_map f l = flat_map (fun x => g <$> f x) l.
Proof. induction l as [|x l IH]; [done|]. simpl. by rewrite fmap_app, IH. Qed.

Lemma node_scan_spec d n base out :
  wf_node d n -> 0 <= base -> base + cover d <= 2 ^ 32 ->
  node_scan n d base mp mo out = Ret (push mp mo out ((fun o => base + o) <$> node_pages d n)).
Proof.
  revert n base out. induction d as [|d IH]; intros n base out Hw Hb Hc;
    pose proof (wf_node_bits _ _ Hw) as Hbits; cbn [node_scan node_pages].
  - rewrite for_bits_65, (fold_while_push _ (fun i => [base + i])); [|idtac|done].
    + by rewrite (flat_map_single (Z.add base)).
    + intros i o Hi Ho. rewrite bit_list_elem in Hi by auto. pose proof (testbit_range _ _ Hbits Hi).
      rewrite cover_0 in Hc. cbv zeta. rewrite u32_id, push_one by lia. done.
  - rewrite for_bits_65 by auto. rewrite cover_S in Hc. pose proof (cover_pos d).
    rewrite (fold_while_push _ (fun i => (fun o : Z => base + o) <$>
      match rd (children n) i with
      | Ret (Some c) => (fun o => i * cover d + o) <$> node_pages d c
      | _ => []
      end)).
    + by rewrite fmap_flat_map.
    + destruct Hw as (_ & Hl & Hw). intros i o Hi Ho. rewrite bit_list_elem in Hi by auto.
      pose proof (testbit_range _ _ Hbits Hi) as Hir.
      destruct (rd_in_range (children n) i) as [c E]; [lia|]. rewrite E. cbn [res_bind].
      destruct c as [c|]; [|by rewrite push_nil].
      assert (u32 (base + u32 (Z.shiftl i (Z.of_nat (S d) * 6))) = base + i * cover d) as ->.
      { rewrite Z.shiftl_mul_pow2 by lia.
        replace (2 ^ (Z.of_nat (S d) * 6)) with (cover d) by (unfold cover; f_equal; lia).
        rewrite (u32_id (i * cover d)) by nia. apply u32_id. nia. }
      rewrite IH; [|by apply Hw in E as [_ ?]|nia..]. do 2 f_equal. rewrite <- list_fmap_compose.
      apply list_fmap_ext. intros. simpl. lia.
Qed.

End scan.

(** ** The sorted segment array *)

#[local] Abbreviation sorted_segs := (sorted_by segment_id).

(** ** Trees *)

(** The capacities the array doubling goes through before it wraps. *)
Definition cap_ok (c : Z) : Prop := c = 0 \/ exists k, 0 <= k <= 13 /\ c = 2 ^ (k + 2).

Record wf_tree (t : DirtyTree) : Prop := {
  wt_depth : 0 <= depth t <= 4;
  wt_span : segment_span t = cover (Z.to_nat (depth t));
  wt_sorted : sorted_segs (segments t);
  wt_segs : forall s, s ∈ segments t ->
    0 <= segment_id s /\ (segment_id s + 1) * segment_span t <= 2 ^ 32 /\
    wf_node (Z.to_nat (depth t)) (root s);
  wt_cap : cap_ok (segment_cap t);
  wt_count : segment_count t <= segment_cap t
}.

(** The page [p] is marked in [t]. *)
Definition tree_has (t : DirtyTree) (p : Z) : Prop :=
  exists s, s ∈ segments t /\ segment_id s = p / segment_span t /\
    node_has (Z.to_nat (depth t)) (root s) (p mod segment_span t) = true.

(** The pages of a tree in scan order. *)
Definition tree_pages (t : DirtyTree) : list Z :=
  flat_map (fun s => (fun o => segment_id s * segment_span t + o) <$>
                     node_pages (Z.to_nat (depth t)) (root s)) (segments t).

Section tree.
Context (t : DirtyTree) (Hwf : wf_tree t).

Lemma span_pos : 0 < segment_span t.
Proof. rewrite (wt_span t Hwf). apply cover_pos. Qed.

(** The span divides the page space. *)
Lemma span_divides : exists k, 2 ^ 32 = k * segment_span t.
Proof.
  rewrite (wt_span t Hwf). pose proof (wt_depth t Hwf). unfold cover.
  exists (2 ^ (32 - 6 * (depth t + 1))). rewrite <- Z.pow_add_r by lia. f_equal. lia.
Qed.

Lemma page_segment p : 0 <= p < 2 ^ 32 -> 0 <= p / segment_span t /\ (p / segment_span t + 1) * segment_span t <= 2 ^ 32.
Proof.
  intros Hp. pose proof span_pos. destruct span_divides as [k Hk]. rewrite Hk in *.
  pose proof (div_range p (segment_span t) k). nia.
Qed.

Lemma tree_pages_elem p : p ∈ tree_pages t <-> tree_has t p.
Proof.
  pose proof span_pos as Hsp. unfold tree_pages, tree_has. rewrite elem_of_flat_map.
  split; intros (s & Hs & H); exists s; destruct (wt_segs t Hwf s Hs) as (_ & _ & Hw).
  - apply list_elem_of_fmap in H as (o & -> & [Ho Hh]%node_pages_elem); auto.
    rewrite <- (wt_span t Hwf) in Ho. destruct (split_offset (segment_id s) o _ Hsp Ho) as [-> ->]. auto.
  - destruct H as [Hid Hh]. split; auto. apply list_elem_of_fmap. exists (p mod segment_span t).
    rewrite Hid. split; [rewrite (Z.div_mod p (segment_span t)) at 1; lia|].
    apply node_pages_elem; auto. split; auto. rewrite <- (wt_span t Hwf). by apply Z.mod_pos_bound.
Qed.

Lemma tree_pages_sorted : StronglySorted Z.lt (tree_pages t).
Proof.
  pose proof span_pos as Hsp.
  apply (sorted_flat_map segment_id) with (segment_span t); [done|apply (wt_sorted t Hwf)|].
  intros s Hs. destruct (wt_segs t Hwf s Hs) as (_ & _ & Hw). split; [by apply sorted_shift, node_pages_sorted|].
  intros y (o & -> & [Ho _]%node_pages_elem)%list_elem_of_fmap; auto.
  rewrite <- (wt_span t Hwf) in Ho. lia.
Qed.

Lemma tree_scan_spec mp mo : tree_scan t mp mo = Ret (push mp mo [] (tree_pages t)).
Proof.
  unfold tree_scan, tree_pages. generalize ([] : list Z) as out. pose proof span_pos.
  pose proof (wt_segs t Hwf) as Hs. induction (segments t) as [|s segs IH]; intros out; simpl; [by rewrite push_nil|].
  destruct (Z.ltb_spec (zlen out) mo); [|by rewrite push_full by lia].
  destruct (Hs s) as (H1 & H2 & H3); [set_solver|]. rewrite u32_id by nia.
  rewrite node_scan_spec by (auto; rewrite <- ?(wt_span t Hwf); nia). cbn [res_bind].
  rewrite IH by (intros; apply Hs; set_solver). by rewrite push_app.
Qed.

End tree.

(** ** Marking in a tree *)

Definition next_cap (c : Z) : Z := if negb (c =? 0) then u16 (c * 2) else 4.

Lemma cap_ok_grow c : cap_ok c -> c < 32768 -> cap_ok (next_cap c) /\ c < next_cap c.
Proof.
  unfold next_cap. intros [->|(k & Hk & ->)] Hlt; simpl.
  - split; [right; exists 0; split; [lia|done]|lia].
  - destruct (Z.eqb_spec (2 ^ (k + 2)) 0); [lia|]. cbn [negb].
    assert (k + 2 < 15) by (apply (Z.pow_lt_mono_r_iff 2); lia).
    assert (2 ^ (k + 2) <= 2 ^ 14) by (apply Z.pow_le_mono_r; lia).
    rewrite u16_id by lia. split; [|lia]. right. exists (k + 1). split; [lia|].
    replace (k + 1 + 2) with (Z.succ (k + 2)) by lia. rewrite Z.pow_succ_r; lia.
Qed.

(** The segment of [id] is there, holding what it held before. *)
Definition segment_ready (t t' : DirtyTree) (id i : Z) (s : DirtySegment) : Prop :=
  wf_tree t' /\ rd (segments t') i = Ret s /\ segment_id s = id /\
  segment_span t' = segment_span t /\ depth t' = depth t /\
  segment_count t <= segment_count t' <= segment_count t + 1 /\
  forall p, tree_has t' p <-> tree_has t p.

Lemma new_segment_ready t id i cap :
  wf_tree t -> 0 <= id -> (id + 1) * segment_span t <= 2 ^ 32 -> 0 <= i <= segment_count t ->
  (forall s, s ∈ take (Z.to_nat i) (segments t) -> segment_id s < id) ->
  (forall s, s ∈ drop (Z.to_nat i) (segments t) -> id < segment_id s) ->
  cap_ok cap -> segment_count t < cap ->
  segment_ready t (mkDirtyTree (take (Z.to_nat i) (segments t) ++
                       mkDirtySegment id node_create :: drop (Z.to_nat i) (segments t))
                      cap (segment_span t) (depth t)) id i (mkDirtySegment id node_create).
Proof.
  intros Hwf Hid Hid' Hi Hl Hr Hc Hlt.
  assert (segment_count (mkDirtyTree (take (Z.to_nat i) (segments t) ++
                       mkDirtySegment id node_create :: drop (Z.to_nat i) (segments t))
                      cap (segment_span t) (depth t)) = segment_count t + 1) as Hcnt.
  { unfold segment_count, zlen in *. cbn [segments]. rewrite length_app, length_take. simpl. rewrite length_drop. lia. }
  split; [constructor; cbn [depth segment_span segments segment_cap]|split_and!]; auto.
  - apply (wt_depth t Hwf).
  - apply (wt_span t Hwf).
  - apply sorted_by_insert; auto. apply (wt_sorted t Hwf).
  - intros s [->|Hs]%elem_of_insert_at; [split_and!; auto using wf_node_create|by apply (wt_segs t Hwf)].
  - lia.
  - apply rd_ret. split; [lia|]. cbn [segments]. unfold segment_count, zlen in Hi.
    rewrite lookup_app_r by (rewrite length_take; lia).
    replace (Z.to_nat i - length (take (Z.to_nat i) (segments t)))%nat with 0%nat by (rewrite length_take; lia). done.
  - lia.
  - lia.
  - intros p. unfold tree_has. cbn [segments segment_span depth]. split.
    + intros (s & [->|Hs]%elem_of_insert_at & H2 & H3); [|eauto]. cbn [root] in H3. by rewrite node_has_create in H3.
    + intros (s & Hs & H). exists s. rewrite elem_of_insert_at. eauto.
Qed.

(** The allocation of the root of segment [id] does no harm: it succeeds, or it is not needed, or
    at most one segment comes after the new one, so that shifting it changes no entry in use. *)
Definition root_safe (al : MarkAlloc) (t : DirtyTree) (id : Z) : Prop :=
  ok_root al = true \/ (exists s, s ∈ segments t /\ segment_id s = id) \/
  (forall i j s s', rd (segments t) i = Ret s -> rd (segments t) j = Ret s' -> id < segment_id s -> id < segment_id s' -> i = j).

(** The tree with another capacity of the segment array. *)
Definition with_cap (t : DirtyTree) (cap : Z) : DirtyTree := mkDirtyTree (segments t) cap (segment_span t) (depth t).

Lemma with_cap_wf t cap : wf_tree t -> cap_ok cap -> segment_count t <= cap -> wf_tree (with_cap t cap).
Proof. intros [] Hc Hl. by constructor. Qed.

Lemma segment_get_or_create_spec al t id :
  wf_tree t -> 0 <= id -> (id + 1) * segment_span t <= 2 ^ 32 -> segment_count t < 32768 ->
  root_safe al t id ->
  ((ok_realloc al = false \/ ok_root al = false) /\ exists cap, wf_tree (with_cap t cap) /\
     segment_get_or_create al t id = Ret (None, with_cap t cap)) \/
  exists i t' s, segment_get_or_create al t id = Ret (Some i, t') /\ segment_ready t t' id i s.
Proof.
  intros Hwf Hid Hid' Hcnt Hsafe. unfold segment_get_or_create.
  unfold segment_find. destruct (bsearch_spec segment_id (segments t) id (wt_sorted t Hwf)) as (r & -> & Hpost).
  destruct r as [i|i]; cbn [res_bind]; [destruct Hpost as (s & Hi & Hs)|destruct Hpost as (Hi & Hl & Hr)].
  - right. pose proof (rd_ret_range _ _ _ Hi). destruct (Z.leb_spec 0 i); [|lia].
    exists i, t, s. split; auto. split_and!; auto; try lia; done.
  - destruct (Z.leb_spec 0 (Z.lnot i)); [unfold Z.lnot in *; lia|]. rewrite Z.lnot_involutive.
    pose proof (wt_cap t Hwf) as Hc. pose proof (wt_count t Hwf) as Hcc.
    assert (0 <= segment_count t) by apply zlen_nonneg.
    assert (forall cap, cap_ok cap -> segment_count t < cap -> let r :=
      (if cap <=? segment_count t then Ub
       else
        let! shifted :=
          if i <? segment_count t then
            let! s := rd (segments t) i in
            Ret (take (Z.to_nat i) (segments t) ++ s :: drop (Z.to_nat i) (segments t))
          else Ret (segments t) in
        if negb (ok_root al) then
          Ret (None, mkDirtyTree (take (length (segments t)) shifted) cap (segment_span t) (depth t))
        else
          Ret (Some i, mkDirtyTree (take (Z.to_nat i) (segments t) ++
                        mkDirtySegment id node_create :: drop (Z.to_nat i) (segments t))
                       cap (segment_span t) (depth t))) in
      (ok_root al = false /\ r = Ret (None, with_cap t cap)) \/
      exists i0 t' s, r = Ret (Some i0, t') /\ segment_ready t t' id i0 s) as Hgo.
    { intros cap Hcap Hlt. cbv zeta. destruct (Z.leb_spec cap (segment_count t)); [lia|]. destruct (ok_root al) eqn:Hok.
      - right. exists i. do 2 eexists. split; [|by apply new_segment_ready].
        destruct (Z.ltb_spec i (segment_count t)) as [Hi'|]; [|done].
        destruct (rd_in_range (segments t) i) as [s ->]; [unfold segment_count in Hi'; lia|]. done.
      - left. split; [done|]. destruct (Z.ltb_spec i (segment_count t)) as [Hi'|]; [|cbn [res_bind negb]; by rewrite take_ge by lia].
        destruct (rd_in_range (segments t) i) as [s Hs]; [unfold segment_count in Hi'; lia|].
        assert (s ∈ drop (Z.to_nat i) (segments t)) as Hsd.
        { apply rd_ret in Hs as [_ Hs]. apply list_elem_of_lookup. exists 0%nat. by rewrite lookup_drop, Nat.add_0_r. }
        pose proof (Hr s Hsd) as Hsi. pose proof (rd_elem _ _ _ Hs) as Hsel. destruct Hsafe as [|[(s' & Hs' & E)|Hall]]; [congruence| |].
        + exfalso. rewrite <- (take_drop (Z.to_nat i) (segments t)) in Hs'. apply elem_of_app in Hs' as [Hs'|Hs']; [pose proof (Hl s' Hs')|pose proof (Hr s' Hs')]; lia.
        + rewrite Hs. cbn [res_bind negb]. unfold segment_count, zlen in *. assert (Z.to_nat i = (length (segments t) - 1)%nat) as Ei.
          { destruct (rd_in_range (segments t) (zlen (segments t) - 1)) as [s' Hs']; [unfold zlen; lia|]. rewrite (Hall i (zlen (segments t) - 1) s s' Hs Hs' Hsi); [unfold zlen; lia|].
            apply Hr. apply rd_ret in Hs' as [_ Hs']. apply list_elem_of_lookup. exists (length (segments t) - 1 - Z.to_nat i)%nat. rewrite lookup_drop. unfold zlen in Hs'.
            replace (Z.to_nat i + (length (segments t) - 1 - Z.to_nat i))%nat with (Z.to_nat (Z.of_nat (length (segments t)) - 1)) by lia. done. }
          unfold with_cap. do 3 f_equal. apply rd_ret in Hs as [_ Hs]. rewrite take_app, length_take.
          rewrite take_take. replace (_ `min` _)%nat with (Z.to_nat i) by lia. replace (_ - _)%nat with 1%nat by lia. simpl. rewrite take_0. rewrite <- (take_S_r _ _ _ Hs). apply take_ge. lia. }
    destruct (Z.leb_spec (segment_cap t) (segment_count t)).
    + destruct (ok_realloc al); [|left; split; [by left|]; exists (segment_cap t); split; [by apply with_cap_wf|by destruct t]]. cbn [negb].
      destruct (cap_ok_grow (segment_cap t)); [auto|lia|]. destruct (Hgo (next_cap (segment_cap t))) as [[Hx1 Hx2]|Hx]; [auto|lia| |by right].
      left. split; [by right|]. eexists. split; [|exact Hx2]. apply with_cap_wf; [done|done|lia].
    + cbn [negb]. destruct (Hgo (segment_cap t)) as [[Hx1 Hx2]|Hx]; [auto|lia| |by right].
      left. split; [by right|]. eexists. split; [|exact Hx2]. by apply with_cap_wf.
Qed.

Lemma insert_same_id segs i s n :
  rd segs i = Ret s -> segment_id <$> <[Z.to_nat i := mkDirtySegment (segment_id s) n]> segs = segment_id <$> segs.
Proof.
  intros [_ H]%rd_ret. rewrite list_fmap_insert. apply list_insert_id. by rewrite list_lookup_fmap, H.
Qed.

Lemma elem_of_set {A} (l : list A) i x a :
  0 <= i < zlen l -> a ∈ <[Z.to_nat i := x]> l <-> a = x \/ exists j, j <> i /\ rd l j = Ret a.
Proof.
  intros Hi. split.
  - intros [j Hj]%elem_rd. destruct (Z.eq_dec j i) as [->|].
    + rewrite rd_insert_eq in Hj by lia. left. congruence.
    + rewrite rd_insert_ne in Hj by lia. eauto.
  - intros [->|(j & Hne & Hj)].
    + apply rd_elem with i. by apply rd_insert_eq.
    + apply rd_elem with j. by rewrite rd_insert_ne by lia.
Qed.

Lemma mod_same_seg p q a : 0 < a -> p / a = q / a -> p mod a = q mod a -> p = q.
Proof. intros. rewrite (Z.div_mod p a), (Z.div_mod q a) by lia. congruence. Qed.

(** [tree_mark] adds exactly the page; when the array or a node cannot be
    allocated the tree keeps what it had. *)
Lemma tree_mark_spec al t p :
  wf_tree t -> 0 <= p < 2 ^ 32 -> segment_count t < 32768 -> root_safe al t (p / segment_span t) ->
  exists t' added, tree_mark al t p = Ret t' /\ wf_tree t' /\
    segment_span t' = segment_span t /\ segment_count t' <= segment_count t + 1 /\
    (ok_realloc al = true -> ok_root al = true -> (forall d, ok_node al d = true) -> added = true) /\
    forall q, tree_has t' q <-> tree_has t q \/ (added = true /\ q = p).
Proof.
  intros Hwf Hp Hcnt Hok. destruct (page_segment t Hwf p Hp) as [Hid Hid']. unfold tree_mark.
  destruct (segment_get_or_create_spec al t (p / segment_span t)) as
    [[Hr (cap & Hw & ->)]|(i & t1 & s & -> & Hwf1 & Hi & Hs & Hsp & Hd & Hc & Hh)]; auto; cbn [res_bind].
  { exists (with_cap t cap), false. split_and!; auto; [unfold segment_count, with_cap; simpl; lia|destruct Hr; congruence|]. intros q. split; [by left|]. by intros [?|[? _]]. }
  rewrite Hi. cbn [res_bind]. pose proof (rd_elem _ _ _ Hi) as Hel. pose proof (rd_ret_range _ _ _ Hi) as Hir.
  destruct (wt_segs t1 Hwf1 s Hel) as (Hs1 & Hs2 & Hs3). pose proof (span_pos t1 Hwf1) as Hpos.
  pose proof (wt_span t1 Hwf1) as Hcov. rewrite <- Hsp. rewrite <- Hsp in Hs.
  destruct (node_mark_spec (ok_node al) _ (root s) (p mod segment_span t1) Hs3) as (n & added & -> & Hwn & Ha & Hn);
    [by apply Z.mod_pos_bound|]. cbn [res_bind]. rewrite wr_ret by auto. cbn [res_bind].
  rewrite <- Hcov, Z.mod_mod in Hn by lia.
  assert (forall q, (q mod segment_span t1 =? p mod segment_span t1) = true -> q / segment_span t1 = p / segment_span t1 -> q = p) as Heq.
  { intros q E%Z.eqb_eq E2. by eapply mod_same_seg. }
  eexists _, added. split; [reflexivity|]. split_and!; auto; cbn [segment_span].
  - constructor; cbn [depth segment_span segments segment_cap segment_count]; try apply Hwf1.
    + unfold sorted_by. rewrite (insert_same_id _ _ s) by auto. apply Hwf1.
    + intros a [->|(j & _ & Hj%rd_elem)]%elem_of_set; [done|by apply Hwf1|done].
    + unfold segment_count. cbn [segments]. rewrite zlen_insert. apply Hwf1.
  - unfold segment_count in *. cbn [segments]. rewrite zlen_insert. lia.
  - intros q. rewrite <- Hh. unfold tree_has. cbn [segments segment_span depth].
    pose proof (Z.mod_pos_bound q (segment_span t1) Hpos) as Hq. specialize (Hn _ Hq). split.
    + intros (a & [->|(j & _ & Hj%rd_elem)]%elem_of_set & H2 & H3); [|eauto|done].
      cbn [segment_id root] in *. rewrite Hn in H3.
      apply orb_true_iff in H3 as [H3|H3]; [eauto|]. apply andb_true_iff in H3 as [-> H3]. right. split; auto.
      apply Heq; auto. congruence.
    + intros [(a & Ha1 & Ha2 & Ha3)|[-> ->]].
      * apply elem_rd in Ha1 as [j Hj]. destruct (Z.eq_dec j i) as [->|Hne].
        -- assert (a = s) by congruence. subst a. eexists. rewrite elem_of_set by auto.
           split; [by left|]. cbn [segment_id root]. rewrite Hn, Ha3. auto.
        -- exists a. rewrite elem_of_set by auto. split; [right; eauto|auto].
      * eexists. rewrite elem_of_set by auto. split; [by left|]. cbn [segment_id root].
        rewrite Hn, Z.eqb_refl, orb_true_r. auto.
Qed.

(** The segments of a tree are distinct, so their number is bounded by the page
    space: spans of 262144 pages and more never fill the 16-bit array. *)
Lemma sorted_length l k : StronglySorted Z.lt l -> (forall x, x ∈ l -> k <= x) -> forall m, (forall x, x ∈ l -> x < m) -> k <= m -> zlen l <= m - k.
Proof.
  intros Hs. revert k. induction Hs as [|x l Hl IH Hx]; intros k Hk m Hm Hkm; [unfold zlen; simpl; lia|].
  assert (k <= x) by (apply Hk; set_solver). assert (x < m) by (apply Hm; set_solver).
  rewrite Forall_forall in Hx. assert (zlen l <= m - (x + 1)).
  { apply IH; [|intros; apply Hm; set_solver|lia]. intros y Hy%Hx. lia. }
  unfold zlen in *. simpl length. lia.
Qed.

Lemma segment_count_bound t : wf_tree t -> segment_count t * segment_span t <= 2 ^ 32.
Proof.
  intros Hwf. pose proof (span_pos t Hwf) as Hsp. destruct (span_divides t Hwf) as [k Hk].
  assert (segment_count t <= k - 0); [|nia]. unfold segment_count.
  replace (zlen (segments t)) with (zlen (segment_id <$> segments t)) by (unfold zlen; by rewrite length_fmap).
  apply sorted_length; [apply Hwf| | |nia]; intros x (s & -> & Hs)%list_elem_of_fmap;
    destruct (wt_segs t Hwf s Hs) as (H1 & H2 & _); nia.
Qed.

(** ** Freeing *)

(** The allocated nodes of a tree, whatever the summary bitmaps say. *)
Fixpoint node_count (d : nat) (n : DirtyNode) : Z :=
  match d with
  | O => 1
  | S d' =>
    1 + zsum (fun i => match rd (children n) i with Ret (Some c) => node_count d' c | _ => 0 end)
             (Z.of_nat <$> seq 0 64)
  end.

Lemma fold_while_sum (body : Z -> Z -> res Z) (f : Z -> Z) l acc :
  (forall i acc, i ∈ l -> body i acc = Ret (acc + f i)) ->
  fold_while (fun _ => true) body l acc = Ret (acc + zsum f l).
Proof.
  revert acc. induction l as [|i l IH]; intros acc H; simpl; [f_equal; lia|].
  rewrite H by set_solver. cbn [res_bind]. rewrite IH by (intros; apply H; set_solver). f_equal. lia.
Qed.

Lemma node_destroy_spec d n : wf_node d n -> node_destroy d (Some n) = Ret (node_count d n).
Proof.
  revert n. induction d as [|d IH]; intros n Hw; [done|]. pose proof (wf_node_bits _ _ Hw) as Hb.
  destruct Hw as (_ & Hl & Hw). cbn [node_destroy node_count].
  rewrite for_bits_65 by auto.
  rewrite (fold_while_sum _ (fun i => match rd (children n) i with Ret (Some c) => node_count d c | _ => 0 end)).
  - cbn [res_bind]. f_equal. rewrite bit_list_sum; [lia|]. intros i Hi Ht.
    destruct (rd (children n) i) as [[c|]| |] eqn:E; auto. apply Hw in E as [? _]. congruence.
  - intros i acc Hi. rewrite bit_list_elem in Hi by auto. pose proof (testbit_range _ _ Hb Hi).
    destruct (rd_in_range (children n) i) as [c E]; [lia|]. rewrite E. cbn [res_bind].
    destruct c as [c|]; [|apply Hw in E; congruence].
    rewrite IH by (by apply Hw in E as [_ ?]). done.
Qed.

Definition tree_nodes (t : DirtyTree) : Z :=
  zsum (fun s => node_count (Z.to_nat (depth t)) (root s)) (segments t).

Lemma tree_destroy_spec t : wf_tree t -> tree_destroy t = Ret (tree_nodes t, mkDirtyTree [] 0 0 0).
Proof.
  intros Hwf. unfold tree_destroy, tree_nodes. pose proof (wt_segs t Hwf) as Hs.
  assert (forall segs, (forall s, s ∈ segs -> s ∈ segments t) ->
    tree_destroy_loop segs (depth t) = Ret (zsum (fun s => node_count (Z.to_nat (depth t)) (root s)) segs)) as Hgo.
  { induction segs as [|s segs IH]; intros Hin; [done|]. cbn [tree_destroy_loop].
    rewrite node_destroy_spec by (apply Hs, Hin; set_solver). cbn [res_bind].
    rewrite IH by (intros; apply Hin; set_solver). done. }
  rewrite Hgo by auto. done.
Qed.

(** ** The tracker *)

Record wf_tracker (dt : DirtyTracker) : Prop := {
  wd_active : wf_tree (active dt);
  wd_ckpt : wf_tree (ckpt dt)
}.

(** [pages] marked in order, every allocation succeeding. *)
Definition alloc_succeeds : MarkAlloc := mkMarkAlloc true true (fun _ => true).

Fixpoint mark_all (dt : DirtyTracker) (pages : list Z) : res DirtyTracker :=
  match pages with
  | [] => Ret dt
  | p :: pages => let! dt := dirty_tracker_mark alloc_succeeds dt p in mark_all dt pages
  end.

Lemma wf_tree_empty d : 0 <= d <= 4 -> wf_tree (mkDirtyTree [] 0 (cover (Z.to_nat d)) d).
Proof.
  intros. constructor; cbn [depth segment_span segments segment_cap]; auto; try done.
  - constructor.
  - intros s Hs. by apply elem_of_nil in Hs.
  - by left.
Qed.

Lemma tree_has_empty c sp d p : ~ tree_has (mkDirtyTree [] c sp d) p.
Proof. intros (s & Hs & _). by apply elem_of_nil in Hs. Qed.

Lemma compute_depth_cover d : 0 <= d <= 4 -> compute_depth (cover (Z.to_nat d)) = Ret d.
Proof.
  intros. assert (d = 0 \/ d = 1 \/ d = 2 \/ d = 3 \/ d = 4) as H5 by lia.
  destruct_or! H5; subst d; reflexivity.
Qed.

Lemma tree_init_cover d :
  0 <= d <= 4 -> tree_init (cover (Z.to_nat d)) = Ret (mkDirtyTree [] 0 (cover (Z.to_nat d)) d).
Proof.
  intros. unfold tree_init. pose proof (cover_pos (Z.to_nat d)). destruct (Z.eqb_spec (cover (Z.to_nat d)) 0); [lia|].
  by rewrite compute_depth_cover.
Qed.

Lemma swap_spec dt :
  wf_tracker dt ->
  exists dt', dirty_tracker_swap dt = Ret dt' /\ wf_tracker dt' /\ ckpt dt' = active dt /\
    segment_span (active dt') = segment_span (active dt) /\ dt_capacity dt' = dt_capacity dt /\
    generation dt' = u64 (generation dt + 1) /\ segments (active dt') = [].
Proof.
  intros [Ha Hc]. unfold dirty_tracker_swap. rewrite tree_destroy_spec by auto. cbn [res_bind].
  pose proof (wt_depth _ Ha). rewrite (wt_span _ Ha), tree_init_cover by lia. cbn [res_bind].
  eexists. split; [reflexivity|]. split_and!; auto. constructor; auto. apply wf_tree_empty. lia.
Qed.

(** Marking a list of pages, for a span that never fills the segment array. *)
Lemma mark_all_spec dt pages :
  wf_tracker dt -> 262144 <= segment_span (active dt) -> (forall p, p ∈ pages -> 0 <= p < 2 ^ 32) ->
  exists dt', mark_all dt pages = Ret dt' /\ wf_tracker dt' /\
    segment_span (active dt') = segment_span (active dt) /\
    ckpt dt' = ckpt dt /\ dt_capacity dt' = dt_capacity dt /\
    forall q, tree_has (active dt') q <-> tree_has (active dt) q \/ q ∈ pages.
Proof.
  revert dt. induction pages as [|p pages IH]; intros dt Hwf Hsp Hin.
  - exists dt. split_and!; auto. intros q. rewrite elem_of_nil. tauto.
  - simpl. unfold dirty_tracker_mark. destruct Hwf as [Ha Hc]. pose proof (segment_count_bound _ Ha) as Hb.
    destruct (tree_mark_spec alloc_succeeds (active dt) p Ha) as (t' & added & -> & Hwf' & Hsp' & _ & Hadd & Hh);
      [apply Hin; set_solver|nia|by left|]. cbn [res_bind]. rewrite (Hadd eq_refl eq_refl (fun _ => eq_refl)) in Hh.
    destruct (IH (mkDirtyTracker t' (ckpt dt) (dt_capacity dt) (generation dt)))
      as (dt' & -> & Hwfd & Hspd & Hckd & Hcapd & Hhd); [by constructor|cbn [active]; lia|intros; apply Hin; set_solver|].
    exists dt'. split_and!; auto; [cbn [active] in Hspd; lia|].
    intros q. rewrite Hhd. cbn [active]. rewrite Hh, elem_of_cons. tauto.
Qed.

(** What a scan of a well-formed tree returns. *)
Lemma scan_sorted t cap mo :
  wf_tree t -> 0 <= mo ->
  exists l, tree_scan t cap mo = Ret (take (Z.to_nat mo) l) /\ StronglySorted Z.lt l /\
    forall p, p ∈ l <-> tree_has t p /\ p < cap.
Proof.
  intros Hwf Hmo. exists (List.filter (fun p => p <? cap) (tree_pages t)). split_and!.
  - rewrite tree_scan_spec by auto. unfold push. simpl. do 3 f_equal. unfold zlen. simpl. lia.
  - by apply sorted_filter, tree_pages_sorted.
  - intros p. rewrite list_elem_of_In, filter_In, <- list_elem_of_In, tree_pages_elem by auto.
    by rewrite Z.ltb_lt.
Qed.

Lemma dirty_tracker_init_pos est :
  0 < est ->
  dirty_tracker_init (Some est) =
  let! a := tree_init (span_from_estimate est) in Ret (GRAVELDB_OK, mkDirtyTracker a a est 0).
Proof.
  intros. unfold dirty_tracker_init. destruct (Z.eqb_spec est 0); [lia|]. cbn [negb].
  destruct (Z.ltb_spec 0 est); [|lia]. by destruct (tree_init (span_from_estimate est)).
Qed.

(** ** Properties *)

(** C23: marking a page of a well-formed tracker with fewer than 32768 segments keeps it well
    formed and adds exactly that page to the active set; the checkpoint set is untouched. When the
    segment array or an inner node of a tree cannot be allocated the mark is dropped silently and
    every page marked before is still marked; the same when the root of a new segment cannot be
    allocated and at most one segment comes after it ([root_safe]). The case that is left out, a
    root that cannot be allocated before two or more segments, loses marked pages
    ([dirty_tracker_mark_loses_segment]). *)
Theorem dirty_tracker_mark_correct al dt p :
  wf_tracker dt -> 0 <= p < 2 ^ 32 -> segment_count (active dt) < 32768 ->
  root_safe al (active dt) (p / segment_span (active dt)) ->
  exists dt' added, dirty_tracker_mark al dt p = Ret dt' /\ wf_tracker dt' /\ ckpt dt' = ckpt dt /\
    (ok_realloc al = true -> ok_root al = true -> (forall d, ok_node al d = true) -> added = true) /\
    forall q, tree_has (active dt') q <-> tree_has (active dt) q \/ (added = true /\ q = p).
Proof.
  intros [Ha Hc] Hp Hcnt Hok. unfold dirty_tracker_mark.
  destruct (tree_mark_spec al (active dt) p) as (t' & added & -> & Hwf & _ & _ & Hadd & Hh); auto.
  eexists _, added. split; [reflexivity|]. split_and!; auto. by constructor.
Qed.

(** A scan of the active set returns the marked pages below the capacity,
    each once and in ascending order, cut at [max_out]. *)
Theorem dirty_tracker_scan_correct dt max_out :
  wf_tracker dt -> 0 <= max_out ->
  exists l, dirty_tracker_scan dt max_out = Ret (take (Z.to_nat max_out) l) /\
    StronglySorted Z.lt l /\ forall p, p ∈ l <-> tree_has (active dt) p /\ p < dt_capacity dt.
Proof. intros [Ha _] Hmo. by apply scan_sorted. Qed.

(** C25: the checkpoint protocol. After [init] for an estimate of 0 or above
    4096 pages, any pages [ps] marked, a swap and any pages [qs] marked after
    it, the checkpoint scan returns exactly the pages of [ps] below the
    capacity, sorted and without repetition, and the active scan those of [qs]. *)
Theorem dirty_tracker_checkpoint_protocol est ps qs max_out :
  est = 0 \/ 4096 < est < 2 ^ 32 -> 0 <= max_out ->
  (forall p, p ∈ ps ++ qs -> 0 <= p < 2 ^ 32) ->
  exists dt dt1 dt2 dt3 l m,
    dirty_tracker_init (Some est) = Ret (GRAVELDB_OK, dt) /\ mark_all dt ps = Ret dt1 /\
    dirty_tracker_swap dt1 = Ret dt2 /\ mark_all dt2 qs = Ret dt3 /\
    dirty_tracker_scan_ckpt dt3 max_out = Ret (take (Z.to_nat max_out) l) /\
    dirty_tracker_scan dt3 max_out = Ret (take (Z.to_nat max_out) m) /\
    StronglySorted Z.lt l /\ StronglySorted Z.lt m /\
    (forall p, p ∈ l <-> p ∈ ps /\ p < dt_capacity dt) /\
    (forall p, p ∈ m <-> p ∈ qs /\ p < dt_capacity dt).
Proof.
  intros Hest Hmo Hin.
  assert (exists d cap, 2 <= d <= 3 /\ dirty_tracker_init (Some est) =
    Ret (GRAVELDB_OK, mkDirtyTracker (mkDirtyTree [] 0 (cover (Z.to_nat d)) d) (mkDirtyTree [] 0 (cover (Z.to_nat d)) d) cap 0)) as (d & cap & Hd & E).
  { destruct Hest as [->|He]; [exists 2; eexists; split; [lia|reflexivity]|].
    rewrite dirty_tracker_init_pos by lia. unfold span_from_estimate. repeat zb; try lia;
      first [exists 2; eexists; split; [lia|reflexivity] | exists 3; eexists; split; [lia|reflexivity]]. }
  assert (262144 <= cover (Z.to_nat d)) as Hcov.
  { unfold cover. change 262144 with (2 ^ 18). apply Z.pow_le_mono_r; lia. }
  set (dt := mkDirtyTracker _ _ _ _) in E.
  assert (wf_tracker dt) as Hwf by (constructor; apply wf_tree_empty; lia).
  destruct (mark_all_spec dt ps) as (dt1 & E1 & Hwf1 & Hsp1 & Hck1 & Hcap1 & Hh1); auto; [intros; apply Hin; set_solver|].
  destruct (swap_spec dt1 Hwf1) as (dt2 & E2 & Hwf2 & Hck2 & Hsp2 & Hcap2 & _ & Hemp).
  destruct (mark_all_spec dt2 qs) as (dt3 & E3 & [Hwa Hwc] & _ & Hck3 & Hcap3 & Hh3);
    [auto|rewrite Hsp2, Hsp1; done|intros; apply Hin; set_solver|].
  destruct (scan_sorted (ckpt dt3) (dt_capacity dt3) max_out) as (l & El & Sl & Ml); auto.
  destruct (scan_sorted (active dt3) (dt_capacity dt3) max_out) as (m & Em & Sm & Mm); auto.
  assert (dt_capacity dt3 = dt_capacity dt) as Hcap by congruence.
  exists dt, dt1, dt2, dt3, l, m. split_and!; auto; intros p.
  - rewrite Ml, Hck3, Hck2, Hh1, Hcap. unfold dt at 1. cbn [active]. pose proof (tree_has_empty 0 (cover (Z.to_nat d)) d p). tauto.
  - rewrite Mm, Hh3, Hcap. assert (~ tree_has (active dt2) p); [|tauto].
    unfold tree_has. rewrite Hemp. intros (s & Hs & _). by apply elem_of_nil in Hs.
Qed.

(** initialisation. The span is a power of 64 that matches the depth, both
    trees are empty, and the depths are 1, 2 and 3 for estimates up to 4096, up to
    262144 and above: one less than the depths the header and the comments give. *)
Theorem dirty_tracker_init_correct est :
  0 < est < 2 ^ 32 ->
  exists dt, dirty_tracker_init (Some est) = Ret (GRAVELDB_OK, dt) /\ wf_tracker dt /\
    dt_capacity dt = est /\ generation dt = 0 /\
    depth (active dt) = (if est <=? 4096 then 1 else if est <=? 262144 then 2 else 3) /\
    segment_span (active dt) = 64 ^ (depth (active dt) + 1) /\
    (forall p, ~ tree_has (active dt) p) /\ (forall p, ~ tree_has (ckpt dt) p).
Proof.
  intros Hest. rewrite dirty_tracker_init_pos by lia. unfold span_from_estimate.
  repeat zb; try lia; eexists; (split; [reflexivity|]);
    split_and!; try done; try apply tree_has_empty; constructor;
    first [apply (wf_tree_empty 1); lia | apply (wf_tree_empty 2); lia | apply (wf_tree_empty 3); lia].
Qed.

(** Destroying a well-formed tracker frees each of its nodes once: the
    summary bitmaps lead to every allocated child. *)
Theorem dirty_tracker_destroy_frees_all dt :
  wf_tracker dt ->
  dirty_tracker_destroy dt =
  Ret (tree_nodes (active dt) + tree_nodes (ckpt dt),
       mkDirtyTracker (mkDirtyTree [] 0 0 0) (mkDirtyTree [] 0 0 0) 0 0).
Proof.
  intros [Ha Hc]. unfold dirty_tracker_destroy. by rewrite !tree_destroy_spec by auto.
Qed.

(** Shifting the entries from [i] on and dropping the one that no longer fits keeps exactly the
    entries before the last one. *)
Lemma shifted_out {A} (l : list A) (y x z : A) i : (i < length l)%nat -> l !! i = Some x ->
  z ∈ take (S (length l)) (take i (l ++ [y]) ++ x :: drop i (l ++ [y])) <-> z ∈ l.
Proof.
  intros Hi Hx. rewrite (take_app_le l [y] i), (drop_app_le l [y] i) by lia. rewrite take_app, length_take, take_take.
  replace (S (length l) `min` i)%nat with i by lia. replace (S (length l) - i `min` length l)%nat with (S (length l - i)) by lia.
  simpl. rewrite take_app_le by (rewrite length_drop; lia). rewrite (take_ge (drop i l)) by (rewrite length_drop; lia).
  rewrite elem_of_app, elem_of_cons. rewrite <- (take_drop i l) at 3. rewrite elem_of_app.
  assert (x ∈ drop i l); [|naive_solver]. apply list_elem_of_lookup. exists 0%nat. by rewrite lookup_drop, Nat.add_0_r.
Qed.

(** The segment array after a root could not be allocated before two or more segments. *)
Lemma segment_create_oom al t id (segs : list DirtySegment) (mid last : DirtySegment) :
  wf_tree t -> segment_count t < 32768 -> ok_realloc al = true -> ok_root al = false ->
  segments t = (segs ++ [mid]) ++ [last] -> (forall s, s ∈ segments t -> segment_id s <> id) -> id < segment_id mid ->
  exists l cap, segment_get_or_create al t id = Ret (None, mkDirtyTree l cap (segment_span t) (depth t)) /\ forall s, s ∈ l <-> s ∈ segs ++ [mid].
Proof.
  intros Ha Hcnt Hre Hro Es Hnew Hmid. unfold segment_get_or_create, segment_find.
  destruct (bsearch_spec segment_id (segments t) id (wt_sorted t Ha)) as (r & -> & Hpost).
  destruct r as [i|i]; cbn [res_bind]; [destruct Hpost as (s & Hi%rd_elem & Hs); by destruct (Hnew s)|destruct Hpost as (Hi & Hl & Hr)].
  destruct (Z.leb_spec 0 (Z.lnot i)); [unfold Z.lnot in *; lia|]. rewrite Z.lnot_involutive.
  pose proof (wt_cap t Ha) as Hc. pose proof (wt_count t Ha) as Hcc.
  assert (length (segments t) = S (length (segs ++ [mid]))) as El by (rewrite Es, length_app; simpl; lia).
  assert (Z.to_nat i < length (segs ++ [mid]))%nat as Hlt.
  { destruct (Nat.lt_ge_cases (Z.to_nat i) (length (segs ++ [mid]))) as [|Hge]; [done|]. assert (mid ∈ take (Z.to_nat i) (segments t)) as Hm; [|apply Hl in Hm; lia].
    rewrite Es, take_app_ge by done. apply elem_of_app. left. set_solver. }
  destruct (lookup_lt_is_Some_2 (segs ++ [mid]) (Z.to_nat i) Hlt) as [x Hx].
  assert (rd (segments t) i = Ret x) as Hrd by (apply rd_ret; split; [lia|]; rewrite Es, lookup_app_l; done).
  assert (i < segment_count t) as Hic by (unfold segment_count, zlen; lia).
  destruct (Z.leb_spec (segment_cap t) (segment_count t)); rewrite ?Hre; cbn [negb].
  - destruct (cap_ok_grow (segment_cap t)) as [_ Hg]; [auto|lia|]. change (if negb (segment_cap t =? 0) then u16 (segment_cap t * 2) else 4) with (next_cap (segment_cap t)).
    rewrite (proj2 (Z.leb_gt _ _)) by lia. rewrite (proj2 (Z.ltb_lt _ _) Hic), Hrd, Hro. cbn [res_bind negb]. eexists _, _. split; [done|]. intros s. rewrite El, Es. by apply shifted_out.
  - rewrite (proj2 (Z.leb_gt _ _)) by lia. rewrite (proj2 (Z.ltb_lt _ _) Hic), Hrd, Hro. cbn [res_bind negb]. eexists _, _. split; [done|]. intros s. rewrite El, Es. by apply shifted_out.
Qed.

(** C24: a failed allocation of a new segment's root loses marked pages. The entries of the segment
    array are shifted before the allocation and not shifted back. In a well-formed tracker of fewer
    than 32768 segments, when the segment of the page is new and would come before two or more
    others, [mid] and [last] being the last two, a mark whose array could be grown and whose root
    could not be allocated adds nothing and drops every page of the last segment, and no other,
    from the active set. *)
Theorem dirty_tracker_mark_loses_segment al dt p (segs : list DirtySegment) (mid last : DirtySegment)
  (Hwf : wf_tracker dt)
  (Hcnt : segment_count (active dt) < 32768)
  (Hrealloc : ok_realloc al = true)
  (Hroot : ok_root al = false)
  (Hsegs : segments (active dt) = (segs ++ [mid]) ++ [last])
  (Hnew : forall s, s ∈ segments (active dt) -> segment_id s <> p / segment_span (active dt))
  (Hmid : p / segment_span (active dt) < segment_id mid) :
  exists dt', dirty_tracker_mark al dt p = Ret dt' /\ ckpt dt' = ckpt dt /\
    forall q, tree_has (active dt') q <-> tree_has (active dt) q /\ q / segment_span (active dt) <> segment_id last.
Proof.
  destruct Hwf as [Ha _]. destruct (segment_create_oom al (active dt) _ segs mid last Ha Hcnt Hrealloc Hroot Hsegs Hnew Hmid) as (l & cap & E & Hl).
  unfold dirty_tracker_mark, tree_mark. rewrite E. cbn [res_bind]. eexists. split; [done|]. split; [done|]. intros q. unfold tree_has. cbn [active segments segment_span depth].
  pose proof (wt_sorted _ Ha) as Hso. unfold sorted_by in Hso. rewrite Hsegs, fmap_app in Hso. apply StronglySorted_app in Hso as (Hlt & _).
  split.
  - intros (s & Hs & Eq & Hh). apply Hl in Hs. split; [exists s; split; [rewrite Hsegs; set_solver|done]|]. rewrite <- Eq.
    assert (segment_id s < segment_id last); [|lia]. apply Hlt; [by apply list_elem_of_fmap_2|by apply list_elem_of_singleton].
  - intros [(s & Hs & Eq & Hh) Hne]. exists s. split; [|done]. apply Hl. rewrite Hsegs in Hs. apply elem_of_app in Hs as [Hs| ->%list_elem_of_singleton]; [done|congruence].
Qed.

(** a failed allocation of a new segment's root loses marked pages. The
    entries are shifted before the allocation and not shifted back: with pages
    in segments 0, 3 and 5 marked, a mark in segment 1 that runs out of memory
    drops segment 5 from the array and leaves segment 3 in it twice. *)
Theorem segment_oom_loses_pages :
  (let! '(_, dt) := dirty_tracker_init (Some 100000000) in
   let! dt := mark_all dt [5; 50331648; 83886080] in
   let! before := dirty_tracker_scan dt 10 in
   let! dt := dirty_tracker_mark (mkMarkAlloc true false (fun _ => true)) dt 20000000 in
   let! after := dirty_tracker_scan dt 10 in
   Ret (before, after))
  = Ret ([5; 50331648; 83886080], [5; 50331648; 50331648]).
Proof. vm_compute. reflexivity. Qed.

(** ** Witnesses *)

(** The tracker [init] builds for 5000 estimated pages. *)
Definition dt_empty : DirtyTracker :=
  mkDirtyTracker (mkDirtyTree [] 0 (cover 2) 2) (mkDirtyTree [] 0 (cover 2) 2) 5000 0.

Lemma dt_empty_wf : wf_tracker dt_empty.
Proof. constructor; apply (wf_tree_empty 2); lia. Qed.

Lemma dirty_tracker_mark_correct_witness :
  exists dt' added, dirty_tracker_mark alloc_succeeds dt_empty 77 = Ret dt' /\ wf_tracker dt' /\
    ckpt dt' = ckpt dt_empty /\
    (ok_realloc alloc_succeeds = true -> ok_root alloc_succeeds = true -> (forall d, ok_node alloc_succeeds d = true) -> added = true) /\
    forall q, tree_has (active dt') q <-> tree_has (active dt_empty) q \/ (added = true /\ q = 77).
Proof. apply (dirty_tracker_mark_correct alloc_succeeds dt_empty 77); [apply dt_empty_wf|lia|reflexivity|left; reflexivity]. Defined.

(** Pages of the segments 0, 3 and 5 are marked; the mark of a page of segment 1 loses those of segment 5. *)
Definition three_segments : DirtyTracker :=
  match (let! '(_, dt) := dirty_tracker_init (Some 100000000) in mark_all dt [5; 50331648; 83886080]) with Ret dt => dt | _ => dt_empty end.

Lemma three_segments_wf : wf_tracker three_segments.
Proof.
  set (dt := mkDirtyTracker (mkDirtyTree [] 0 (cover 3) 3) (mkDirtyTree [] 0 (cover 3) 3) 100000000 0).
  assert (wf_tracker dt) as Hw by (constructor; apply (wf_tree_empty 3); lia).
  destruct (mark_all_spec dt [5; 50331648; 83886080] Hw) as (dt' & E & Hw' & _); [vm_compute; congruence| |].
  { apply Forall_forall. repeat constructor; lia. }
  assert (three_segments = dt') as ->; [|done]. unfold three_segments.
  assert (dirty_tracker_init (Some 100000000) = Ret (GRAVELDB_OK, dt)) as -> by (vm_compute; reflexivity). cbn [res_bind]. by rewrite E.
Qed.

Lemma dirty_tracker_mark_loses_segment_witness :
  let al := mkMarkAlloc true false (fun _ => true) in
  exists dt', dirty_tracker_mark al three_segments 20000000 = Ret dt' /\ ckpt dt' = ckpt three_segments /\
    forall q, tree_has (active dt') q <-> tree_has (active three_segments) q /\ q / 16777216 <> 5.
Proof.
  apply (dirty_tracker_mark_loses_segment (mkMarkAlloc true false (fun _ => true)) three_segments 20000000
    (take 1 (segments (active three_segments))) (nth 1 (segments (active three_segments)) (mkDirtySegment 0 node_create)) (nth 2 (segments (active three_segments)) (mkDirtySegment 0 node_create))).
  - exact three_segments_wf.
  - vm_compute. reflexivity.
  - reflexivity.
  - reflexivity.
  - vm_compute. reflexivity.
  - apply Forall_forall. vm_compute. repeat constructor; discriminate.
  - vm_compute. reflexivity.
Defined.

Lemma dirty_tracker_scan_correct_witness :
  exists l, dirty_tracker_scan dt_empty 16 = Ret (take (Z.to_nat 16) l) /\
    StronglySorted Z.lt l /\ forall p, p ∈ l <-> tree_has (active dt_empty) p /\ p < dt_capacity dt_empty.
Proof. apply (dirty_tracker_scan_correct dt_empty 16); [apply dt_empty_wf|lia]. Defined.

Lemma dirty_tracker_checkpoint_protocol_witness :
  exists dt dt1 dt2 dt3 l m,
    dirty_tracker_init (Some 5000) = Ret (GRAVELDB_OK, dt) /\ mark_all dt [4000; 7; 7] = Ret dt1 /\
    dirty_tracker_swap dt1 = Ret dt2 /\ mark_all dt2 [9; 600000] = Ret dt3 /\
    dirty_tracker_scan_ckpt dt3 8 = Ret (take (Z.to_nat 8) l) /\
    dirty_tracker_scan dt3 8 = Ret (take (Z.to_nat 8) m) /\
    StronglySorted Z.lt l /\ StronglySorted Z.lt m /\
    (forall p, p ∈ l <-> p ∈ [4000; 7; 7] /\ p < dt_capacity dt) /\
    (forall p, p ∈ m <-> p ∈ [9; 600000] /\ p < dt_capacity dt).
Proof.
  apply (dirty_tracker_checkpoint_protocol 5000 [4000; 7; 7] [9; 600000] 8); [lia|lia|].
  apply Forall_forall. repeat constructor; lia.
Defined.

Lemma dirty_tracker_init_correct_witness :
  exists dt, dirty_tracker_init (Some 5000) = Ret (GRAVELDB_OK, dt) /\ wf_tracker dt /\
    dt_capacity dt = 5000 /\ generation dt = 0 /\
    depth (active dt) = (if 5000 <=? 4096 then 1 else if 5000 <=? 262144 then 2 else 3) /\
    segment_span (active dt) = 64 ^ (depth (active dt) + 1) /\
    (forall p, ~ tree_has (active dt) p) /\ (forall p, ~ tree_has (ckpt dt) p).
Proof. apply (dirty_tracker_init_correct 5000). lia. Defined.

Lemma dirty_tracker_destroy_frees_all_witness :
  dirty_tracker_destroy dt_empty =
  Ret (tree_nodes (active dt_empty) + tree_nodes (ckpt dt_empty),
       mkDirtyTracker (mkDirtyTree [] 0 0 0) (mkDirtyTree [] 0 0 0) 0 0).
Proof. apply (dirty_tracker_destroy_frees_all dt_empty). apply dt_empty_wf. Defined.
