(* ===== verification/Wire.v ===== *)
(** Wire: the little-endian header formats of src/wire.h.

    [wire_put_*]/[wire_get_*] exist twice in the source, as a [memcpy] on
    little-endian hosts and as byte shifts on the others. [WireHost] is the
    interface the header codecs use and [WireHostOk] the promise that makes the
    format the same on every host; both variants are shown to keep it, and the
    codecs are verified against the interface. *)

From S2P Require Import Prelude.

(** ** Byte buffers *)

(** [memcpy] of [bs] to [buf + off], and of [n] bytes from [buf + off]. *)
Definition copy_to (buf : list Z) (off : Z) (bs : list Z) : res (list Z) :=
  if (0 <=? off) && (off + zlen bs <=? zlen buf)
  then Ret (take (Z.to_nat off) buf ++ bs ++ drop (Z.to_nat off + length bs) buf) else Ub.

Definition copy_from (buf : list Z) (off n : Z) : res (list Z) :=
  if (0 <=? off) && (0 <=? n) && (off + n <=? zlen buf)
  then Ret (take (Z.to_nat n) (drop (Z.to_nat off) buf)) else Ub.

(** The bytes of an [n]-byte value in the memory of a little-endian host. *)
Fixpoint le_split (n : nat) (v : Z) : list Z :=
  match n with O => [] | S n => u8 v :: le_split n (Z.shiftr v 8) end.
Fixpoint le_combine (bs : list Z) : Z :=
  match bs with [] => 0 | b :: bs => Z.lor b (Z.shiftl (le_combine bs) 8) end.

(** ** The accessors of a host *)

Class WireHost := {
  wire_put_u32 : list Z -> Z -> Z -> res (list Z);
  wire_put_u64 : list Z -> Z -> Z -> res (list Z);
  wire_get_u32 : list Z -> Z -> res Z;
  wire_get_u64 : list Z -> Z -> res Z
}.

(** Little-endian hosts: wire format is the native one. *)
#[export] Instance host_le : WireHost := {
  wire_put_u32 buf off v := copy_to buf off (le_split 4 v);
  wire_put_u64 buf off v := copy_to buf off (le_split 8 v);
  wire_get_u32 buf off := let! bs := copy_from buf off 4 in Ret (le_combine bs);
  wire_get_u64 buf off := let! bs := copy_from buf off 8 in Ret (le_combine bs)
}.

(** The byte-shift fallback. *)
Definition be_put_u32 (buf : list Z) (off v : Z) : res (list Z) :=
  let! buf := wr buf (off + 0) (u8 v) in
  let! buf := wr buf (off + 1) (u8 (Z.shiftr v 8)) in
  let! buf := wr buf (off + 2) (u8 (Z.shiftr v 16)) in
  wr buf (off + 3) (u8 (Z.shiftr v 24)).

Definition be_put_u64 (buf : list Z) (off v : Z) : res (list Z) :=
  let! buf := wr buf (off + 0) (u8 v) in
  let! buf := wr buf (off + 1) (u8 (Z.shiftr v 8)) in
  let! buf := wr buf (off + 2) (u8 (Z.shiftr v 16)) in
  let! buf := wr buf (off + 3) (u8 (Z.shiftr v 24)) in
  let! buf := wr buf (off + 4) (u8 (Z.shiftr v 32)) in
  let! buf := wr buf (off + 5) (u8 (Z.shiftr v 40)) in
  let! buf := wr buf (off + 6) (u8 (Z.shiftr v 48)) in
  wr buf (off + 7) (u8 (Z.shiftr v 56)).

Definition be_get_u32 (buf : list Z) (off : Z) : res Z :=
  let! b0 := rd buf (off + 0) in
  let! b1 := rd buf (off + 1) in
  let! b2 := rd buf (off + 2) in
  let! b3 := rd buf (off + 3) in
  Ret (Z.lor (Z.lor (Z.lor b0 (u32 (Z.shiftl b1 8))) (u32 (Z.shiftl b2 16))) (u32 (Z.shiftl b3 24))).

Definition be_get_u64 (buf : list Z) (off : Z) : res Z :=
  let! b0 := rd buf (off + 0) in
  let! b1 := rd buf (off + 1) in
  let! b2 := rd buf (off + 2) in
  let! b3 := rd buf (off + 3) in
  let! b4 := rd buf (off + 4) in
  let! b5 := rd buf (off + 5) in
  let! b6 := rd buf (off + 6) in
  let! b7 := rd buf (off + 7) in
  Ret (Z.lor (Z.lor (Z.lor (Z.lor (Z.lor (Z.lor (Z.lor b0
         (u64 (Z.shiftl b1 8))) (u64 (Z.shiftl b2 16))) (u64 (Z.shiftl b3 24)))
         (u64 (Z.shiftl b4 32))) (u64 (Z.shiftl b5 40))) (u64 (Z.shiftl b6 48))) (u64 (Z.shiftl b7 56))).

#[export] Instance host_be : WireHost := {
  wire_put_u32 := be_put_u32;
  wire_put_u64 := be_put_u64;
  wire_get_u32 := be_get_u32;
  wire_get_u64 := be_get_u64
}.

(** ** Header codecs *)

Definition wire_bswap32 (v : Z) : Z :=
  Z.lor (Z.lor (Z.lor (Z.land (Z.shiftr v 24) 0xFF) (Z.land (Z.shiftr v 8) 0xFF00))
               (Z.land (u32 (Z.shiftl v 8)) 0xFF0000)) (Z.land (u32 (Z.shiftl v 24)) 0xFF000000).

Definition WIRE_META_SIZE : Z := 16.
Definition WIRE_DELTA_HDR_SIZE : Z := 40.
Definition WIRE_DELTA_ENTRY_SIZE : Z := 8.
Definition WIRE_CKPT_EXPORT_HDR_SIZE : Z := 48.
Definition GRAVELDB_CKPT_EXPORT_MAGIC : Z := 0x434B4558.
Definition CKPT_EXPORT_FULL : Z := 1.
Definition CKPT_EXPORT_DELTA : Z := 2.

Record DeltaHdr : Type := mkDeltaHdr {
  dh_magic : Z; dh_version : Z; dh_generation : Z; dh_dim : Z; dh_entry_size : Z;
  dh_bump_ptr : Z; dh_num_entries : Z; dh_checksum : Z
}.

Record CkptExportHdr : Type := mkCkptExportHdr {
  ch_magic : Z; ch_version : Z; ch_type : Z; ch_generation : Z; ch_dim : Z; ch_entry_size : Z;
  ch_num_entries : Z; ch_base_gen : Z; ch_checksum : Z
}.

Section codecs.
Context {host : WireHost}.

Definition wire_encode_meta (buf : list Z) (magic generation checksum : Z) : res (list Z) :=
  let! buf := wire_put_u32 buf 0 magic in
  let! buf := wire_put_u64 buf 4 generation in
  wire_put_u32 buf 12 checksum.

Definition wire_decode_meta (buf : list Z) : res (Z * Z * Z) :=
  let! magic := wire_get_u32 buf 0 in
  let! generation := wire_get_u64 buf 4 in
  let! checksum := wire_get_u32 buf 12 in
  Ret (magic, generation, checksum).

Definition wire_encode_delta_hdr (buf : list Z) (h : DeltaHdr) : res (list Z) :=
  let! buf := wire_put_u32 buf 0 (dh_magic h) in
  let! buf := wire_put_u32 buf 4 (dh_version h) in
  let! buf := wire_put_u64 buf 8 (dh_generation h) in
  let! buf := wire_put_u32 buf 16 (dh_dim h) in
  let! buf := wire_put_u32 buf 20 (dh_entry_size h) in
  let! buf := wire_put_u64 buf 24 (dh_bump_ptr h) in
  let! buf := wire_put_u32 buf 32 (dh_num_entries h) in
  wire_put_u32 buf 36 (dh_checksum h).

Definition wire_decode_delta_hdr (buf : list Z) : res DeltaHdr :=
  let! magic := wire_get_u32 buf 0 in
  let! version := wire_get_u32 buf 4 in
  let! generation := wire_get_u64 buf 8 in
  let! dim := wire_get_u32 buf 16 in
  let! entry_size := wire_get_u32 buf 20 in
  let! bump_ptr := wire_get_u64 buf 24 in
  let! num_entries := wire_get_u32 buf 32 in
  let! checksum := wire_get_u32 buf 36 in
  Ret (mkDeltaHdr magic version generation dim entry_size bump_ptr num_entries checksum).

Definition wire_encode_delta_entry (buf : list Z) (pg_start pg_count : Z) : res (list Z) :=
  let! buf := wire_put_u32 buf 0 pg_start in
  wire_put_u32 buf 4 pg_count.

Definition wire_decode_delta_entry (buf : list Z) : res (Z * Z) :=
  let! pg_start := wire_get_u32 buf 0 in
  let! pg_count := wire_get_u32 buf 4 in
  Ret (pg_start, pg_count).

Definition wire_encode_ckpt_export_hdr (buf : list Z) (h : CkptExportHdr) : res (list Z) :=
  let! buf := wire_put_u32 buf 0 (ch_magic h) in
  let! buf := wire_put_u32 buf 4 (ch_version h) in
  let! buf := wire_put_u32 buf 8 (ch_type h) in
  let! buf := wire_put_u64 buf 12 (ch_generation h) in
  let! buf := wire_put_u32 buf 20 (ch_dim h) in
  let! buf := wire_put_u32 buf 24 (ch_entry_size h) in
  let! buf := wire_put_u64 buf 28 (ch_num_entries h) in
  let! buf := wire_put_u64 buf 36 (ch_base_gen h) in
  wire_put_u32 buf 44 (ch_checksum h).

Definition wire_decode_ckpt_export_hdr (buf : list Z) : res CkptExportHdr :=
  let! magic := wire_get_u32 buf 0 in
  let! version := wire_get_u32 buf 4 in
  let! type := wire_get_u32 buf 8 in
  let! generation := wire_get_u64 buf 12 in
  let! dim := wire_get_u32 buf 20 in
  let! entry_size := wire_get_u32 buf 24 in
  let! num_entries := wire_get_u64 buf 28 in
  let! base_gen := wire_get_u64 buf 36 in
  let! checksum := wire_get_u32 buf 44 in
  Ret (mkCkptExportHdr magic version type generation dim entry_size num_entries base_gen checksum).

End codecs.

(** ** Little-endian bytes *)

Definition is_byte (b : Z) : Prop := 0 <= b < 256.

Lemma le_split_length n v : length (le_split n v) = n.
Proof. revert v. induction n; intros v; simpl; auto. Qed.

Lemma zlen_le_split n v : zlen (le_split n v) = Z.of_nat n.
Proof. unfold zlen. by rewrite le_split_length. Qed.

Lemma le_split_bytes n v : Forall is_byte (le_split n v).
Proof. revert v. induction n; intros v; simpl; constructor; auto. apply u8_range. Qed.

Lemma lor_byte b x : is_byte b -> 0 <= x -> Z.lor b (Z.shiftl x 8) = b + x * 256.
Proof.
  unfold is_byte. intros Hb Hx. rewrite Z.shiftl_mul_pow2 by lia. change (2 ^ 8) with 256.
  rewrite <- Z.add_nocarry_lor; [done|].
  apply Z.bits_inj'. intros n Hn. rewrite Z.land_spec, Z.bits_0. change 256 with (2 ^ 8).
  destruct (Z.lt_ge_cases n 8).
  - rewrite Z.mul_pow2_bits_low by lia. by rewrite andb_false_r.
  - rewrite <- (Z.mod_small b (2 ^ 8)), Z.mod_pow2_bits_high by lia. done.
Qed.

Lemma le_combine_range bs : Forall is_byte bs -> 0 <= le_combine bs < 256 ^ zlen bs.
Proof.
  induction 1 as [|b bs Hb Hbs IH]; [simpl; unfold zlen; simpl; lia|]. simpl.
  rewrite lor_byte by (auto; lia). unfold zlen in *. simpl length. unfold is_byte in Hb.
  rewrite Nat2Z.inj_succ, Z.pow_succ_r by lia. lia.
Qed.

Lemma le_combine_split n v : 0 <= v < 256 ^ Z.of_nat n -> le_combine (le_split n v) = v.
Proof.
  revert v. induction n as [|n IH]; intros v Hv; [simpl in *; lia|]. simpl.
  rewrite Nat2Z.inj_succ, Z.pow_succ_r in Hv by lia.
  rewrite Z.shiftr_div_pow2 by lia. change (2 ^ 8) with 256.
  assert (0 <= v / 256 < 256 ^ Z.of_nat n).
  { split; [apply Z.div_pos; lia|]. apply Z.div_lt_upper_bound; lia. }
  rewrite IH, lor_byte by (auto; apply u8_range || lia). unfold u8. change (2 ^ 8) with 256.
  pose proof (Z.div_mod v 256). lia.
Qed.

Lemma le_split_combine bs : Forall is_byte bs -> le_split (length bs) (le_combine bs) = bs.
Proof.
  induction 1 as [|b bs Hb Hbs IH]; [done|]. simpl. pose proof (le_combine_range bs Hbs).
  rewrite lor_byte by (auto; lia). rewrite Z.shiftr_div_pow2 by lia. unfold u8. change (2 ^ 8) with 256.
  unfold is_byte in Hb. rewrite Z.mod_add, Z.mod_small, Z.div_add, Z.div_small by lia. by rewrite Z.add_0_l, IH.
Qed.

(** ** Overwriting and reading a window of a buffer *)

Definition splice (buf : list Z) (off : Z) (bs : list Z) : list Z :=
  take (Z.to_nat off) buf ++ bs ++ drop (Z.to_nat off + length bs) buf.
Definition window (buf : list Z) (off : Z) (n : nat) : list Z := take n (drop (Z.to_nat off) buf).

Definition in_buf (buf : list Z) (off : Z) (n : Z) : Prop := 0 <= off /\ 0 <= n /\ off + n <= zlen buf.

Lemma copy_to_splice buf off bs : in_buf buf off (zlen bs) -> copy_to buf off bs = Ret (splice buf off bs).
Proof. intros (? & ? & ?). unfold copy_to. repeat zb; try lia. done. Qed.

Lemma copy_from_window buf off n : in_buf buf off n -> copy_from buf off n = Ret (window buf off (Z.to_nat n)).
Proof. intros (? & ? & ?). unfold copy_from. repeat zb; try lia. done. Qed.

Lemma zlen_splice buf off bs : in_buf buf off (zlen bs) -> zlen (splice buf off bs) = zlen buf.
Proof.
  unfold in_buf, zlen, splice. intros (? & ? & ?). rewrite !length_app, length_take, length_drop. lia.
Qed.

Lemma splice_bytes buf off bs : Forall is_byte buf -> Forall is_byte bs -> Forall is_byte (splice buf off bs).
Proof. intros. unfold splice. rewrite !Forall_app. auto using Forall_take, Forall_drop. Qed.

Lemma window_bytes buf off n : Forall is_byte buf -> Forall is_byte (window buf off n).
Proof. intros. unfold window. auto using Forall_take, Forall_drop. Qed.

Lemma window_length buf off n : in_buf buf off (Z.of_nat n) -> length (window buf off n) = n.
Proof. unfold in_buf, zlen, window. intros (? & ? & ?). rewrite length_take, length_drop. lia. Qed.

Lemma window_splice_same buf off bs n :
  in_buf buf off (zlen bs) -> n = length bs -> window (splice buf off bs) off n = bs.
Proof.
  unfold in_buf, zlen, window, splice. intros (? & ? & ?) ->.
  rewrite drop_app_ge by (rewrite length_take; lia).
  replace (Z.to_nat off - length (take (Z.to_nat off) buf))%nat with 0%nat by (rewrite length_take; lia).
  rewrite drop_0, take_app_le, take_ge by lia. done.
Qed.

Lemma window_splice_other buf off bs off' n :
  in_buf buf off (zlen bs) -> 0 <= off' -> off' + Z.of_nat n <= off \/ off + zlen bs <= off' ->
  window (splice buf off bs) off' n = window buf off' n.
Proof.
  unfold in_buf, zlen, window, splice. intros (? & ? & ?) Hoff [Hd|Hd]; apply list_eq; intros i;
    destruct (decide (i < n)%nat); try (by rewrite !lookup_take_ge by lia);
    rewrite !lookup_take_lt, !lookup_drop by lia.
  - rewrite lookup_app_l by (rewrite length_take; lia). by rewrite lookup_take_lt by lia.
  - rewrite lookup_app_r by (rewrite length_take; lia).
    rewrite length_take, lookup_app_r, lookup_drop by lia. f_equal. lia.
Qed.

Lemma splice_cons buf off b bs :
  in_buf buf off (1 + zlen bs) -> splice buf off (b :: bs) = splice (<[Z.to_nat off := b]> buf) (off + 1) bs.
Proof.
  unfold in_buf, zlen, splice. intros (? & ? & ?).
  replace (Z.to_nat (off + 1)) with (S (Z.to_nat off)) by lia.
  rewrite take_S_r with (x := b) by (apply list_lookup_insert_eq; lia).
  rewrite take_insert_ge, <- app_assoc by lia. simpl. f_equal. f_equal. f_equal.
  rewrite drop_insert_lt by lia. f_equal. lia.
Qed.

Lemma splice_nil buf off : splice buf off [] = buf.
Proof. unfold splice. rewrite Nat.add_0_r. apply take_drop. Qed.

Lemma window_cons buf off n b :
  rd buf off = Ret b -> window buf off (S n) = b :: window buf (off + 1) n.
Proof.
  intros [H1 H2]%rd_ret. unfold window. rewrite (drop_S _ b) by auto. simpl.
  by replace (Z.to_nat (off + 1)) with (S (Z.to_nat off)) by lia.
Qed.

(** ** Every host writes and reads the same bytes *)

Class WireHostOk (host : WireHost) : Prop := {
  put_u32_ok buf off v : in_buf buf off 4 -> wire_put_u32 buf off v = Ret (splice buf off (le_split 4 v));
  put_u64_ok buf off v : in_buf buf off 8 -> wire_put_u64 buf off v = Ret (splice buf off (le_split 8 v));
  get_u32_ok buf off : in_buf buf off 4 -> Forall is_byte buf ->
    wire_get_u32 buf off = Ret (le_combine (window buf off 4));
  get_u64_ok buf off : in_buf buf off 8 -> Forall is_byte buf ->
    wire_get_u64 buf off = Ret (le_combine (window buf off 8))
}.

#[export] Instance host_le_ok : WireHostOk host_le.
Proof.
  constructor; intros; simpl; first [by apply copy_to_splice | by rewrite copy_from_window by auto].
Qed.

Lemma put_byte buf off k b bs (m : list Z -> res (list Z)) :
  in_buf buf (off + k) (1 + zlen bs) ->
  (forall buf', zlen buf' = zlen buf -> m buf' = Ret (splice buf' (off + (k + 1)) bs)) ->
  (let! buf' := wr buf (off + k) b in m buf') = Ret (splice buf (off + k) (b :: bs)).
Proof.
  intros Hin Hm. pose proof Hin as (? & ? & ?). pose proof (zlen_nonneg bs).
  rewrite wr_ret by lia. cbn [res_bind]. rewrite Hm by apply zlen_insert.
  rewrite splice_cons by auto. do 2 f_equal. lia.
Qed.

Lemma put_last_byte buf off k b :
  in_buf buf (off + k) 1 -> wr buf (off + k) b = Ret (splice buf (off + k) [b]).
Proof.
  intros Hin. pose proof Hin as (? & ? & ?). rewrite wr_ret by lia. by rewrite splice_cons, splice_nil.
Qed.

Ltac put_bytes :=
  first [ apply put_last_byte; unfold in_buf, zlen in *; simpl length; lia
        | apply put_byte; [unfold in_buf, zlen in *; simpl length; lia | intros ? ?; put_bytes] ].

Lemma shiftr_8 v k : 0 <= k -> Z.shiftr (Z.shiftr v k) 8 = Z.shiftr v (k + 8).
Proof. intros. by apply Z.shiftr_shiftr. Qed.

Lemma shift_byte b k w : is_byte b -> 0 <= k -> k + 8 <= w -> Z.shiftl b k mod 2 ^ w = Z.shiftl b k.
Proof.
  unfold is_byte. intros. rewrite Z.shiftl_mul_pow2 by lia. apply Z.mod_small.
  assert (2 ^ (8 + k) <= 2 ^ w) by (apply Z.pow_le_mono_r; lia).
  rewrite Z.pow_add_r in * by lia. nia.
Qed.

Lemma rd_byte buf off n k :
  in_buf buf off n -> Forall is_byte buf -> 0 <= k < n -> exists b, rd buf (off + k) = Ret b /\ is_byte b.
Proof.
  intros (? & ? & ?) HF Hk. destruct (rd_in_range buf (off + k)) as [b Hb]; [lia|]. exists b. split; auto.
  rewrite Forall_forall in HF. by eapply HF, rd_elem.
Qed.

Lemma window_cons_at buf off k n b :
  rd buf (off + k) = Ret b -> window buf (off + k) (S n) = b :: window buf (off + (k + 1)) n.
Proof. intros. rewrite Z.add_assoc. by apply window_cons. Qed.

Lemma lor_shift_out b x k : 0 <= k -> Z.shiftl (Z.lor b (Z.shiftl x 8)) k = Z.lor (Z.shiftl b k) (Z.shiftl x (k + 8)).
Proof. intros. rewrite Z.shiftl_lor, Z.shiftl_shiftl by lia. do 2 f_equal. lia. Qed.

Lemma be_put_u32_ok buf off v :
  in_buf buf off 4 -> be_put_u32 buf off v = Ret (splice buf off (le_split 4 v)).
Proof.
  intros Hin. replace off with (off + 0) at 2 by lia. cbn [le_split].
  rewrite !shiftr_8 by lia. unfold be_put_u32. unfold in_buf in Hin. put_bytes.
Qed.

Lemma be_put_u64_ok buf off v :
  in_buf buf off 8 -> be_put_u64 buf off v = Ret (splice buf off (le_split 8 v)).
Proof.
  intros Hin. replace off with (off + 0) at 2 by lia. cbn [le_split].
  rewrite !shiftr_8 by lia. unfold be_put_u64. unfold in_buf in Hin. put_bytes.
Qed.

(** Reads the byte at [off + k] and folds it out of the window. *)
Ltac get_byte H HF k :=
  let b := fresh "b" in let E := fresh "E" in let Hb := fresh "Hb" in
  destruct (rd_byte _ _ _ k H HF) as (b & E & Hb); [lia|];
  rewrite E; cbn [res_bind]; rewrite (window_cons_at _ _ _ _ _ E);
  let t := eval vm_compute in (k + 1) in change (k + 1) with t.

Ltac shifts_out := rewrite ?lor_shift_out by lia; rewrite ?Z.shiftl_0_l, ?Z.lor_0_r, ?Z.lor_assoc; reflexivity.

Lemma be_get_u32_ok buf off :
  in_buf buf off 4 -> Forall is_byte buf -> be_get_u32 buf off = Ret (le_combine (window buf off 4)).
Proof.
  intros H HF. replace off with (off + 0) at 2 by lia. unfold be_get_u32.
  get_byte H HF 0. get_byte H HF 1. get_byte H HF 2. get_byte H HF 3.
  change (window buf (off + 4) 0) with (@nil Z). cbn [le_combine]. f_equal. unfold u32.
  rewrite !shift_byte by (auto; lia). shifts_out.
Qed.

Lemma be_get_u64_ok buf off :
  in_buf buf off 8 -> Forall is_byte buf -> be_get_u64 buf off = Ret (le_combine (window buf off 8)).
Proof.
  intros H HF. replace off with (off + 0) at 2 by lia. unfold be_get_u64.
  get_byte H HF 0. get_byte H HF 1. get_byte H HF 2. get_byte H HF 3.
  get_byte H HF 4. get_byte H HF 5. get_byte H HF 6. get_byte H HF 7.
  change (window buf (off + 8) 0) with (@nil Z). cbn [le_combine]. f_equal. unfold u64.
  rewrite !shift_byte by (auto; lia). shifts_out.
Qed.

#[export] Instance host_be_ok : WireHostOk host_be.
Proof.
  constructor; intros; simpl;
    [by apply be_put_u32_ok|by apply be_put_u64_ok|by apply be_get_u32_ok|by apply be_get_u64_ok].
Qed.

(** ** Codecs: written on one host, read on any other *)

Definition is_u32 (v : Z) : Prop := 0 <= v < 2 ^ 32.
Definition is_u64 (v : Z) : Prop := 0 <= v < 2 ^ 64.

Section portable.
Context (hw hr : WireHost) {hw_ok : WireHostOk hw} {hr_ok : WireHostOk hr}.

Lemma get_u32_window buf off v :
  in_buf buf off 4 -> Forall is_byte buf -> is_u32 v -> window buf off 4 = le_split 4 v ->
  @wire_get_u32 hr buf off = Ret v.
Proof. intros ? ? Hv E. rewrite get_u32_ok, E, le_combine_split; auto. Qed.

Lemma get_u64_window buf off v :
  in_buf buf off 8 -> Forall is_byte buf -> is_u64 v -> window buf off 8 = le_split 8 v ->
  @wire_get_u64 hr buf off = Ret v.
Proof. intros ? ? Hv E. rewrite get_u64_ok, E, le_combine_split; auto. Qed.

(** One write: the field, and everything outside it unchanged. *)
Definition wrote (buf buf' : list Z) (off : Z) (n : nat) (v : Z) : Prop :=
  zlen buf' = zlen buf /\ Forall is_byte buf' /\ window buf' off n = le_split n v /\
  forall off' m, 0 <= off' -> off' + Z.of_nat m <= off \/ off + Z.of_nat n <= off' ->
    window buf' off' m = window buf off' m.

Lemma splice_wrote buf off n v :
  in_buf buf off (Z.of_nat n) -> Forall is_byte buf -> wrote buf (splice buf off (le_split n v)) off n v.
Proof.
  intros H HF. rewrite <- (zlen_le_split n v) in H. split_and!.
  - by apply zlen_splice.
  - apply splice_bytes; auto using le_split_bytes.
  - apply window_splice_same; auto. by rewrite le_split_length.
  - intros off' m Hoff Hd. apply window_splice_other; auto. by rewrite zlen_le_split.
Qed.

Lemma put_u32_wrote buf off v :
  in_buf buf off 4 -> Forall is_byte buf ->
  exists buf', @wire_put_u32 hw buf off v = Ret buf' /\ wrote buf buf' off 4 v.
Proof. intros. rewrite put_u32_ok by auto. eexists. split; [done|]. by apply splice_wrote. Qed.

Lemma put_u64_wrote buf off v :
  in_buf buf off 8 -> Forall is_byte buf ->
  exists buf', @wire_put_u64 hw buf off v = Ret buf' /\ wrote buf buf' off 8 v.
Proof. intros. rewrite put_u64_ok by auto. eexists. split; [done|]. by apply splice_wrote. Qed.

(** Runs the next write of an encoder, or the next read of a decoder. *)
Ltac put_next :=
  match goal with
  | HF : Forall is_byte ?buf |- context [@wire_put_u32 hw ?buf ?off ?v] =>
    let b := fresh "buf" in let E := fresh "E" in let HL := fresh "HL" in
    destruct (put_u32_wrote buf off v) as (b & E & HL & ? & ? & ?);
    [unfold in_buf; lia | exact HF | rewrite E; cbn [res_bind]]
  | HF : Forall is_byte ?buf |- context [@wire_put_u64 hw ?buf ?off ?v] =>
    let b := fresh "buf" in let E := fresh "E" in let HL := fresh "HL" in
    destruct (put_u64_wrote buf off v) as (b & E & HL & ? & ? & ?);
    [unfold in_buf; lia | exact HF | rewrite E; cbn [res_bind]]
  end.

Ltac find_window :=
  match goal with
  | H : window ?b ?o ?n = le_split _ _ |- window ?b ?o ?n = _ => exact H
  | H : forall off' m, _ -> _ -> window ?b off' m = _ |- window ?b _ _ = _ => rewrite H by lia; find_window
  end.

Ltac get_next :=
  match goal with
  | |- context [@wire_get_u32 hr ?b ?o] =>
    erewrite (get_u32_window b o); [|unfold in_buf; lia|eassumption| |find_window]; [cbn [res_bind]|eassumption]
  | |- context [@wire_get_u64 hr ?b ?o] =>
    erewrite (get_u64_window b o); [|unfold in_buf; lia|eassumption| |find_window]; [cbn [res_bind]|eassumption]
  end.

(** Closes [exists buf', Ret b = Ret buf' /\ zlen buf' = zlen buf /\ decode = Ret _]. *)
Ltac codec := repeat put_next; eexists; split; [reflexivity|]; split; [lia|]; repeat get_next; try reflexivity.

Lemma meta_decode_encode buf magic generation checksum :
  zlen buf = WIRE_META_SIZE -> Forall is_byte buf -> is_u32 magic -> is_u64 generation -> is_u32 checksum ->
  exists buf', @wire_encode_meta hw buf magic generation checksum = Ret buf' /\ zlen buf' = WIRE_META_SIZE /\
    @wire_decode_meta hr buf' = Ret (magic, generation, checksum).
Proof.
  unfold WIRE_META_SIZE. intros Hl HF Hm Hg Hc. unfold wire_encode_meta, wire_decode_meta. codec.
Qed.

(** The fields of a delta header fit their wire widths. *)
Definition delta_hdr_ok (h : DeltaHdr) : Prop :=
  is_u32 (dh_magic h) /\ is_u32 (dh_version h) /\ is_u64 (dh_generation h) /\ is_u32 (dh_dim h) /\
  is_u32 (dh_entry_size h) /\ is_u64 (dh_bump_ptr h) /\ is_u32 (dh_num_entries h) /\ is_u32 (dh_checksum h).

Lemma delta_hdr_decode_encode buf h :
  zlen buf = WIRE_DELTA_HDR_SIZE -> Forall is_byte buf -> delta_hdr_ok h ->
  exists buf', @wire_encode_delta_hdr hw buf h = Ret buf' /\ zlen buf' = WIRE_DELTA_HDR_SIZE /\
    @wire_decode_delta_hdr hr buf' = Ret h.
Proof.
  unfold WIRE_DELTA_HDR_SIZE. intros Hl HF (? & ? & ? & ? & ? & ? & ? & ?).
  unfold wire_encode_delta_hdr, wire_decode_delta_hdr. codec. by destruct h.
Qed.

Lemma delta_entry_decode_encode buf pg_start pg_count :
  zlen buf = WIRE_DELTA_ENTRY_SIZE -> Forall is_byte buf -> is_u32 pg_start -> is_u32 pg_count ->
  exists buf', @wire_encode_delta_entry hw buf pg_start pg_count = Ret buf' /\
    zlen buf' = WIRE_DELTA_ENTRY_SIZE /\ @wire_decode_delta_entry hr buf' = Ret (pg_start, pg_count).
Proof.
  unfold WIRE_DELTA_ENTRY_SIZE. intros Hl HF ? ?.
  unfold wire_encode_delta_entry, wire_decode_delta_entry. codec.
Qed.

Definition ckpt_export_hdr_ok (h : CkptExportHdr) : Prop :=
  is_u32 (ch_magic h) /\ is_u32 (ch_version h) /\ is_u32 (ch_type h) /\ is_u64 (ch_generation h) /\
  is_u32 (ch_dim h) /\ is_u32 (ch_entry_size h) /\ is_u64 (ch_num_entries h) /\ is_u64 (ch_base_gen h) /\
  is_u32 (ch_checksum h).

Lemma ckpt_export_hdr_decode_encode buf h :
  zlen buf = WIRE_CKPT_EXPORT_HDR_SIZE -> Forall is_byte buf -> ckpt_export_hdr_ok h ->
  exists buf', @wire_encode_ckpt_export_hdr hw buf h = Ret buf' /\ zlen buf' = WIRE_CKPT_EXPORT_HDR_SIZE /\
    @wire_decode_ckpt_export_hdr hr buf' = Ret h.
Proof.
  unfold WIRE_CKPT_EXPORT_HDR_SIZE. intros Hl HF (? & ? & ? & ? & ? & ? & ? & ? & ?).
  unfold wire_encode_ckpt_export_hdr, wire_decode_ckpt_export_hdr. codec. by destruct h.
Qed.

End portable.

(** ** Byte swapping *)

Lemma byte_high b n : is_byte b -> 8 <= n -> Z.testbit b n = false.
Proof.
  unfold is_byte. intros. rewrite <- (Z.mod_small b (2 ^ 8)), Z.mod_pow2_bits_high by lia. done.
Qed.

Lemma lor_byte_bit b x n :
  is_byte b -> 0 <= n -> Z.testbit (Z.lor b (Z.shiftl x 8)) n = if n <? 8 then Z.testbit b n else Z.testbit x (n - 8).
Proof.
  intros. rewrite Z.lor_spec. zb.
  - rewrite Z.shiftl_spec_low by lia. by rewrite orb_false_r.
  - rewrite Z.shiftl_spec by lia. by rewrite byte_high by auto.
Qed.

Lemma mask_bit x k n : 0 <= k -> 0 <= n ->
  Z.testbit (Z.land x (Z.shiftl 0xFF k)) n = (k <=? n) && (n <? k + 8) && Z.testbit x n.
Proof.
  intros. rewrite Z.land_spec, Z.shiftl_spec by lia. change 0xFF with (Z.ones 8).
  destruct (Z.leb_spec k n); simpl.
  - rewrite Z.testbit_ones_nonneg by lia. repeat zb; try lia; simpl; by rewrite ?andb_true_r, ?andb_false_r.
  - rewrite (Z.testbit_neg_r _ (n - k)) by lia. by rewrite andb_false_r.
Qed.

Lemma u32_shiftl_bit x k n : 0 <= n < 32 -> Z.testbit (u32 (Z.shiftl x k)) n = Z.testbit x (n - k).
Proof. intros. unfold u32. rewrite Z.mod_pow2_bits_low by lia. apply Z.shiftl_spec. lia. Qed.

Lemma combine4_bit b0 b1 b2 b3 i :
  is_byte b0 -> is_byte b1 -> is_byte b2 -> is_byte b3 -> 0 <= i ->
  Z.testbit (le_combine [b0; b1; b2; b3]) i =
  if i <? 8 then Z.testbit b0 i else if i <? 16 then Z.testbit b1 (i - 8)
  else if i <? 24 then Z.testbit b2 (i - 16) else if i <? 32 then Z.testbit b3 (i - 24) else false.
Proof.
  intros H0 H1 H2 H3 Hi. cbn [le_combine]. rewrite Z.shiftl_0_l, Z.lor_0_r.
  do 3 (rewrite lor_byte_bit by (auto; lia); zb; [repeat zb; try lia; f_equal; lia|]).
  replace (i - 8 - 8 - 8) with (i - 24) by lia. repeat zb; try lia; [done|]. apply byte_high; auto. lia.
Qed.

Lemma bswap32_bytes b0 b1 b2 b3 :
  is_byte b0 -> is_byte b1 -> is_byte b2 -> is_byte b3 ->
  wire_bswap32 (le_combine [b0; b1; b2; b3]) = le_combine [b3; b2; b1; b0].
Proof.
  intros H0 H1 H2 H3. apply Z.bits_inj'. intros n Hn. rewrite combine4_bit by auto.
  assert (Hv := fun i => combine4_bit b0 b1 b2 b3 i H0 H1 H2 H3).
  generalize dependent (le_combine [b0; b1; b2; b3]). intros v Hv. unfold wire_bswap32.
  change 0xFF00 with (Z.shiftl 0xFF 8). change 0xFF0000 with (Z.shiftl 0xFF 16).
  change 0xFF000000 with (Z.shiftl 0xFF 24). rewrite <- (Z.shiftl_0_r 0xFF) at 1.
  rewrite !Z.lor_spec, !mask_bit, !Z.shiftr_spec by lia.
  destruct (Z.ltb_spec n 32) as [Hlt|Hge]; [|by zdec]. rewrite !u32_shiftl_bit by lia.
  assert (n < 8 \/ 8 <= n < 16 \/ 16 <= n < 24 \/ 24 <= n < 32) as Hc by lia.
  destruct_or! Hc; zdec; rewrite ?orb_false_r; rewrite Hv by lia; zdec; f_equal; lia.
Qed.

Lemma is_u32_bytes v :
  is_u32 v -> exists b0 b1 b2 b3, is_byte b0 /\ is_byte b1 /\ is_byte b2 /\ is_byte b3 /\
    v = le_combine [b0; b1; b2; b3] /\ le_split 4 v = [b0; b1; b2; b3].
Proof.
  intros Hv. exists (u8 v), (u8 (Z.shiftr v 8)), (u8 (Z.shiftr (Z.shiftr v 8) 8)), (u8 (Z.shiftr (Z.shiftr (Z.shiftr v 8) 8) 8)).
  split_and!; try apply u8_range; [|done]. symmetry. by apply (le_combine_split 4).
Qed.

(** ** Properties *)

(** a checkpoint meta record encoded into a 16-byte buffer on one host
    decodes to the same magic, generation and checksum on any host. *)
Theorem wire_meta_roundtrip (hw hr : WireHost) buf magic generation checksum :
  WireHostOk hw -> WireHostOk hr ->
  zlen buf = WIRE_META_SIZE -> Forall is_byte buf -> is_u32 magic -> is_u64 generation -> is_u32 checksum ->
  exists buf', @wire_encode_meta hw buf magic generation checksum = Ret buf' /\ zlen buf' = WIRE_META_SIZE /\
    @wire_decode_meta hr buf' = Ret (magic, generation, checksum).
Proof. intros. by apply meta_decode_encode. Qed.

(** A delta header encoded on one host decodes to the same eight fields on
    any host, and so does a delta entry header. *)
Theorem wire_delta_roundtrip (hw hr : WireHost) buf ebuf h pg_start pg_count :
  WireHostOk hw -> WireHostOk hr ->
  zlen buf = WIRE_DELTA_HDR_SIZE -> Forall is_byte buf -> delta_hdr_ok h ->
  zlen ebuf = WIRE_DELTA_ENTRY_SIZE -> Forall is_byte ebuf -> is_u32 pg_start -> is_u32 pg_count ->
  (exists buf', @wire_encode_delta_hdr hw buf h = Ret buf' /\ @wire_decode_delta_hdr hr buf' = Ret h) /\
  (exists ebuf', @wire_encode_delta_entry hw ebuf pg_start pg_count = Ret ebuf' /\
     @wire_decode_delta_entry hr ebuf' = Ret (pg_start, pg_count)).
Proof.
  intros Hw Hr Hl HF Hh Hel HeF Hs Hc. split.
  - destruct (delta_hdr_decode_encode hw hr buf h) as (buf' & ? & _ & ?); eauto.
  - destruct (delta_entry_decode_encode hw hr ebuf pg_start pg_count) as (buf' & ? & _ & ?); eauto.
Qed.

(** an export header encoded on one host decodes to the same nine fields on
    any host, within its 48 bytes. *)
Theorem wire_ckpt_export_roundtrip (hw hr : WireHost) buf h :
  WireHostOk hw -> WireHostOk hr ->
  zlen buf = WIRE_CKPT_EXPORT_HDR_SIZE -> Forall is_byte buf -> ckpt_export_hdr_ok h ->
  exists buf', @wire_encode_ckpt_export_hdr hw buf h = Ret buf' /\
    zlen buf' = WIRE_CKPT_EXPORT_HDR_SIZE /\ @wire_decode_ckpt_export_hdr hr buf' = Ret h.
Proof. intros. by apply ckpt_export_hdr_decode_encode. Qed.

(** the two variants of the accessors agree: a value put by the [memcpy]
    variant is read by the byte-shift variant and the other way round, and
    [wire_bswap32] is its own inverse and turns the byte order around, which is
    what the endianness diagnostics of a magic number rely on. *)
Theorem wire_hosts_agree buf off v :
  in_buf buf off 4 -> Forall is_byte buf -> is_u32 v ->
  be_put_u32 buf off v = copy_to buf off (le_split 4 v) /\
  be_get_u32 buf off = (let! bs := copy_from buf off 4 in Ret (le_combine bs)) /\
  wire_bswap32 (wire_bswap32 v) = v /\ le_split 4 (wire_bswap32 v) = rev (le_split 4 v).
Proof.
  intros Hin HF Hv. destruct (is_u32_bytes v Hv) as (b0 & b1 & b2 & b3 & H0 & H1 & H2 & H3 & E & Es). split_and!.
  - by rewrite be_put_u32_ok, copy_to_splice by auto.
  - by rewrite be_get_u32_ok, copy_from_window by auto.
  - subst v. by rewrite !bswap32_bytes by auto.
  - rewrite Es, E, bswap32_bytes by auto. apply (le_split_combine [b3; b2; b1; b0]). repeat constructor; auto; apply H0 || apply H1 || apply H2 || apply H3.
Qed.

(** ** Witnesses *)

Lemma wire_meta_roundtrip_witness :
  exists buf', @wire_encode_meta host_be (replicate 16 0) 0x474D4554 7 99 = Ret buf' /\ zlen buf' = WIRE_META_SIZE /\
    @wire_decode_meta host_le buf' = Ret (0x474D4554, 7, 99).
Proof.
  apply (wire_meta_roundtrip host_be host_le (replicate 16 0) 0x474D4554 7 99);
    [typeclasses eauto | typeclasses eauto | reflexivity | apply Forall_replicate; unfold is_byte; lia | unfold is_u32; lia | unfold is_u64; lia | unfold is_u32; lia].
Defined.

Lemma wire_delta_roundtrip_witness :
  (exists buf', @wire_encode_delta_hdr host_le (replicate 40 0) (mkDeltaHdr 1 2 3 4 5 6 7 8) = Ret buf' /\
     @wire_decode_delta_hdr host_be buf' = Ret (mkDeltaHdr 1 2 3 4 5 6 7 8)) /\
  (exists ebuf', @wire_encode_delta_entry host_le (replicate 8 0) 300 2 = Ret ebuf' /\
     @wire_decode_delta_entry host_be ebuf' = Ret (300, 2)).
Proof.
  apply (wire_delta_roundtrip host_le host_be (replicate 40 0) (replicate 8 0) (mkDeltaHdr 1 2 3 4 5 6 7 8) 300 2);
    first [ typeclasses eauto | reflexivity | apply Forall_replicate; unfold is_byte; lia
          | unfold delta_hdr_ok, is_u32, is_u64; simpl; lia | unfold is_u32; lia ].
Defined.

Lemma wire_ckpt_export_roundtrip_witness :
  exists buf', @wire_encode_ckpt_export_hdr host_be (replicate 48 0)
                 (mkCkptExportHdr GRAVELDB_CKPT_EXPORT_MAGIC 1 CKPT_EXPORT_FULL 9 8 32 1000 0 77) = Ret buf' /\
    zlen buf' = WIRE_CKPT_EXPORT_HDR_SIZE /\
    @wire_decode_ckpt_export_hdr host_le buf' =
      Ret (mkCkptExportHdr GRAVELDB_CKPT_EXPORT_MAGIC 1 CKPT_EXPORT_FULL 9 8 32 1000 0 77).
Proof.
  apply (wire_ckpt_export_roundtrip host_be host_le (replicate 48 0)
           (mkCkptExportHdr GRAVELDB_CKPT_EXPORT_MAGIC 1 CKPT_EXPORT_FULL 9 8 32 1000 0 77));
    first [ typeclasses eauto | reflexivity | apply Forall_replicate; unfold is_byte; lia
          | unfold ckpt_export_hdr_ok, is_u32, is_u64, GRAVELDB_CKPT_EXPORT_MAGIC, CKPT_EXPORT_FULL; simpl; lia ].
Defined.

Lemma wire_hosts_agree_witness :
  be_put_u32 [0; 0; 0; 0; 0] 1 0x434B4558 = copy_to [0; 0; 0; 0; 0] 1 (le_split 4 0x434B4558) /\
  be_get_u32 [0; 0; 0; 0; 0] 1 = (let! bs := copy_from [0; 0; 0; 0; 0] 1 4 in Ret (le_combine bs)) /\
  wire_bswap32 (wire_bswap32 0x434B4558) = 0x434B4558 /\
  le_split 4 (wire_bswap32 0x434B4558) = rev (le_split 4 0x434B4558).
Proof.
  apply (wire_hosts_agree [0; 0; 0; 0; 0] 1 0x434B4558);
    [unfold in_buf, zlen; simpl; lia | repeat constructor; lia | unfold is_u32; lia].
Defined.
