(* ===== verification/KeyBTree.v ===== *)
(** KeyBTree: the in-memory B-tree that buffers key writes, src/key_btree.h.

    A tree maps [entry_idx] to [feat_id]; its nodes come from a fixed arena. The
    abstract state is the finite map of the entries, [kbt_inv] relates a tree to
    it, and the properties show that insertion implements map update, that the
    collected entries are the sorted map, and that the reserve of three nodes
    that [kbt_full] keeps is enough for every arena the bins create. *)

From S2P Require Import Prelude.

(** ** State *)

Definition KBT_ORDER : Z := 64.
Definition KBT_MAX_KEYS : Z := 2 * KBT_ORDER - 1.
Definition KBT_MIN_KEYS : Z := KBT_ORDER - 1.

(** [sizeof(KBTNode)]: n, leaf and padding, keys, padding, vals, children. *)
Definition KBT_NODE_SIZE : Z := 8 + 127 * 4 + 4 + 127 * 8 + 128 * 8.

(** The first [n] pairs of [keys] and [vals], and the first [n + 1] children of
    an internal node. *)
#[warnings="-register-all"]
Inductive KBTNode : Type :=
| mkKBTNode (leaf : bool) (ents : list (Z * Z)) (children : list KBTNode).

Definition leaf (x : KBTNode) : bool := match x with mkKBTNode l _ _ => l end.
Definition ents (x : KBTNode) : list (Z * Z) := match x with mkKBTNode _ e _ => e end.
Definition children (x : KBTNode) : list KBTNode := match x with mkKBTNode _ _ c => c end.
Definition n (x : KBTNode) : Z := zlen (ents x).

(** The arena is a capacity and a bump count: nodes are never given back one by
    one. A null arena has capacity 0. *)
Record KeyBTree : Type := mkKeyBTree {
  root : option KBTNode;
  count : Z;
  arena_cap : Z;
  arena_used : Z
}.

(** ** Operations *)

Definition kbt_init (alloc_ok : bool) (budget_bytes : Z) : KeyBTree :=
  let budget_bytes := Z.land (u64 (budget_bytes + 4095)) (Z.lxor (2 ^ 64 - 1) 4095) in
  let cap := u32 (budget_bytes / KBT_NODE_SIZE) in
  let cap := if cap <? 4 then 4 else cap in
  mkKeyBTree None 0 (if alloc_ok then cap else 0) 0.

Definition kbt_full (t : KeyBTree) : bool := u32 (arena_cap t - arena_used t) <? 3.

Definition set_used (t : KeyBTree) (used : Z) : KeyBTree := mkKeyBTree (root t) (count t) (arena_cap t) used.

Definition kbt_alloc_node (t : KeyBTree) (lf : bool) : option KBTNode * KeyBTree :=
  if arena_cap t <=? arena_used t then (None, t)
  else (Some (mkKBTNode lf [] []), set_used t (u32 (arena_used t + 1))).

Definition kbt_destroy (t : KeyBTree) : KeyBTree := mkKeyBTree None 0 0 0.
Definition kbt_clear (t : KeyBTree) : KeyBTree := mkKeyBTree None 0 (arena_cap t) 0.

(** Splits the full child [y] of [x] at index [i]; the shifts of [x]'s arrays
    are insertions. A full [x] has no room for the median. *)
Definition kbt_split_child (t : KeyBTree) (x : KBTNode) (i : Z) : res (KeyBTree * KBTNode) :=
  let! y := rd (children x) i in
  match kbt_alloc_node t (leaf y) with
  | (None, t) => Ret (t, x)
  | (Some z, t) =>
    let z := mkKBTNode (leaf y) (take 63 (drop 64 (ents y)))
                       (if leaf y then [] else take 64 (drop 64 (children y))) in
    let! median := rd (ents y) KBT_MIN_KEYS in
    let y := mkKBTNode (leaf y) (take 63 (ents y)) (take 64 (children y)) in
    if KBT_MAX_KEYS <=? n x then Ub
    else
      let i := Z.to_nat i in
      Ret (t, mkKBTNode (leaf x) (take i (ents x) ++ median :: drop i (ents x))
                        (take i (children x) ++ y :: z :: drop (S i) (children x)))
  end.

(** The inserted flag, the tree (its arena) and the node. A leaf that is already
    full has no room: the write is outside [keys]. *)
Fixpoint kbt_insert_nonfull (fuel : nat) (t : KeyBTree) (x : KBTNode) (entry_idx feat_id : Z) : res (bool * KeyBTree * KBTNode) :=
  match fuel with
  | O => Diverge
  | S fuel =>
    let! r := bsearch fst (ents x) entry_idx in
    match r with
    | Found mid =>
      let! e := wr (ents x) mid (entry_idx, feat_id) in
      Ret (false, t, mkKBTNode (leaf x) e (children x))
    | Missing lo =>
      if leaf x then
        if KBT_MAX_KEYS <=? n x then Ub
        else Ret (true, t, mkKBTNode (leaf x) (take (Z.to_nat lo) (ents x) ++ (entry_idx, feat_id) :: drop (Z.to_nat lo) (ents x)) (children x))
      else
        let descend t x i :=
          let! c := rd (children x) i in
          let! '(b, t, c) := kbt_insert_nonfull fuel t c entry_idx feat_id in
          let! cs := wr (children x) i c in
          Ret (b, t, mkKBTNode (leaf x) (ents x) cs) in
        let! c := rd (children x) lo in
        if n c =? KBT_MAX_KEYS then
          let! '(t, x) := kbt_split_child t x lo in
          let! e := rd (ents x) lo in
          if fst e =? entry_idx then
            let! es := wr (ents x) lo (entry_idx, feat_id) in
            Ret (false, t, mkKBTNode (leaf x) es (children x))
          else descend t x (if fst e <? entry_idx then lo + 1 else lo)
        else descend t x lo
    end
  end.

(** The number of levels, which bounds the recursion of an insertion. *)
Fixpoint levels (x : KBTNode) : nat :=
  match x with mkKBTNode _ _ cs => S (foldr (fun c acc => Nat.max (levels c) acc) 0%nat cs) end.

Definition kbt_insert (t : KeyBTree) (entry_idx feat_id : Z) : res (bool * KeyBTree) :=
  let finish t x :=
    let! '(inserted, t, x) := kbt_insert_nonfull (S (levels x)) t x entry_idx feat_id in
    Ret (inserted, mkKeyBTree (Some x) (if (inserted : bool) then u32 (count t + 1) else count t) (arena_cap t) (arena_used t)) in
  match root t with
  | None =>
    match kbt_alloc_node t true with
    | (None, t) => Ret (false, t)
    | (Some r, t) => Ret (true, mkKeyBTree (Some (mkKBTNode (leaf r) [(entry_idx, feat_id)] [])) 1 (arena_cap t) (arena_used t))
    end
  | Some r =>
    if n r =? KBT_MAX_KEYS then
      match kbt_alloc_node t false with
      | (None, t) => Ret (false, t)
      | (Some s, t) =>
        let s := mkKBTNode (leaf s) (ents s) [r] in
        let! '(t, s) := kbt_split_child t s 0 in
        finish t s
      end
    else finish t r
  end.

(** In-order walk: a child before each entry, and one after the last. *)
Fixpoint interleave {A} (cs : list (list A)) (es : list A) : list A :=
  match es, cs with
  | [], [] => []
  | [], c :: _ => c
  | e :: es, [] => e :: interleave [] es
  | e :: es, c :: cs => c ++ e :: interleave cs es
  end.

(** The entries written to [out], in order. *)
Fixpoint kbt_collect_node (x : KBTNode) : list (Z * Z) :=
  match x with
  | mkKBTNode lf es cs => if lf then es else interleave (map kbt_collect_node cs) es
  end.
Definition kbt_collect (t : KeyBTree) : list (Z * Z) :=
  match root t with None => [] | Some r => kbt_collect_node r end.

(** The calls [fn(entry_idx, feat_id, ctx)], each transforming the context. *)
Section iterate.
Context {ctx : Type} (fn : Z -> Z -> ctx -> ctx).
Fixpoint run_interleave (cs : list (ctx -> ctx)) (es : list (Z * Z)) (c : ctx) : ctx :=
  match es, cs with
  | [], [] => c
  | [], g :: _ => g c
  | e :: es, [] => run_interleave [] es (fn (fst e) (snd e) c)
  | e :: es, g :: cs => run_interleave cs es (fn (fst e) (snd e) (g c))
  end.
Fixpoint kbt_iterate_node (x : KBTNode) : ctx -> ctx :=
  match x with
  | mkKBTNode lf es cs => if lf then run_interleave [] es else run_interleave (map kbt_iterate_node cs) es
  end.
Definition kbt_iterate (t : KeyBTree) (c : ctx) : ctx :=
  match root t with None => c | Some r => kbt_iterate_node r c end.
End iterate.

(** ** Sorted association lists *)

#[local] Abbreviation sorted := (sorted_by (@fst Z Z)).

Fixpoint ainsert (k v : Z) (l : list (Z * Z)) : list (Z * Z) :=
  match l with
  | [] => [(k, v)]
  | e :: l => if fst e <? k then e :: ainsert k v l else if fst e =? k then (k, v) :: l else (k, v) :: e :: l
  end.

Lemma ainsert_left k v l1 l2 :
  (forall e, e ∈ l1 -> fst e < k) -> ainsert k v (l1 ++ l2) = l1 ++ ainsert k v l2.
Proof.
  induction l1 as [|e l1 IH]; intros H; [done|]. simpl.
  assert (fst e < k) by (apply H; set_solver). zdec. f_equal. apply IH. set_solver.
Qed.

Lemma ainsert_right k v l1 l2 :
  (forall e, e ∈ l2 -> k < fst e) -> ainsert k v (l1 ++ l2) = ainsert k v l1 ++ l2.
Proof.
  intros H. induction l1 as [|e l1 IH]; simpl.
  - destruct l2 as [|e l2]; [done|]. simpl. assert (k < fst e) by (apply H; set_solver). by zdec.
  - rewrite IH. repeat zb; done.
Qed.

Lemma ainsert_gt k v l : (forall e, e ∈ l -> k < fst e) -> ainsert k v l = (k, v) :: l.
Proof. intros H. apply (ainsert_right k v [] l H). Qed.

Lemma ainsert_hit k v v0 l : ainsert k v ((k, v0) :: l) = (k, v) :: l.
Proof. simpl. by zdec. Qed.

Lemma ainsert_keys k v l e : e ∈ ainsert k v l -> e = (k, v) \/ e ∈ l.
Proof.
  induction l as [|a l IH]; simpl; [set_solver|]. repeat zb; set_solver.
Qed.

Lemma sorted_cons e l : sorted (e :: l) <-> (forall a, a ∈ l -> fst e < fst a) /\ sorted l.
Proof.
  unfold sorted_by. rewrite fmap_cons, StronglySorted_cons, Forall_forall. split; intros [H1 H2]; split; auto.
  - intros a Ha. apply H1. apply list_elem_of_fmap. eauto.
  - intros x (a & -> & Ha)%list_elem_of_fmap. auto.
Qed.

Lemma sorted_app l1 l2 :
  sorted (l1 ++ l2) <-> (forall a b, a ∈ l1 -> b ∈ l2 -> fst a < fst b) /\ sorted l1 /\ sorted l2.
Proof.
  unfold sorted_by. rewrite fmap_app, StronglySorted_app. split; intros (H1 & H2 & H3); split_and!; auto.
  - intros a b Ha Hb. apply H1; apply list_elem_of_fmap; eauto.
  - intros x y (a & -> & Ha)%list_elem_of_fmap (b & -> & Hb)%list_elem_of_fmap. auto.
Qed.

Lemma ainsert_sorted k v l : sorted l -> sorted (ainsert k v l).
Proof.
  induction l as [|e l IH]; intros Hs; simpl; [apply sorted_cons; split; [set_solver|constructor]|].
  apply sorted_cons in Hs as [H1 H2]. destruct (Z.ltb_spec (fst e) k); [|destruct (Z.eqb_spec (fst e) k)].
  - apply sorted_cons. split; auto. intros a [->|Ha]%ainsert_keys; auto.
  - apply sorted_cons. split; auto. intros a Ha. apply H1 in Ha. simpl. lia.
  - apply sorted_cons. split; [|apply sorted_cons; auto].
    intros a [->|Ha]%elem_of_cons; simpl; [lia|]. apply H1 in Ha. lia.
Qed.

Lemma ainsert_map k v l : list_to_map (ainsert k v l) = <[k := v]> (list_to_map l : gmap Z Z).
Proof.
  induction l as [|[k' v'] l IH]; [done|]. simpl.
  destruct (Z.ltb_spec k' k); [|destruct (Z.eqb_spec k' k) as [->|]]; simpl.
  - rewrite IH. apply insert_insert_ne. lia.
  - by rewrite insert_insert_eq.
  - done.
Qed.

Definition has_key (k : Z) (l : list (Z * Z)) : bool := existsb (fun e => fst e =? k) l.

Lemma has_key_true k l : has_key k l = true <-> exists v, (k, v) ∈ l.
Proof.
  unfold has_key. rewrite existsb_exists. setoid_rewrite <- list_elem_of_In. split.
  - intros ([k' v] & H & E%Z.eqb_eq). simpl in E. subst. eauto.
  - intros [v H]. exists (k, v). split; auto. apply Z.eqb_refl.
Qed.

Lemma has_key_app k l1 l2 : has_key k (l1 ++ l2) = has_key k l1 || has_key k l2.
Proof. apply existsb_app. Qed.

Lemma has_key_ne k l : (forall e, e ∈ l -> fst e <> k) -> has_key k l = false.
Proof.
  intros H. destruct (has_key k l) eqn:E; [|done]. apply has_key_true in E as [v E]. by apply H in E.
Qed.

Lemma ainsert_length k v l : sorted l -> zlen (ainsert k v l) = zlen l + (if has_key k l then 0 else 1).
Proof.
  induction l as [|e l IH]; intros Hs; [done|]. apply sorted_cons in Hs as [H1 H2]. unfold zlen in *. simpl.
  repeat zb; simpl; try lia; [rewrite Nat2Z.inj_succ, IH by auto; fold (has_key k l); lia|].
  rewrite has_key_ne; [lia|]. intros a Ha. apply H1 in Ha. lia.
Qed.

(** ** Walks around a position *)

Fixpoint left_of {A} (cs : list (list A)) (es : list A) : list A :=
  match cs, es with c :: cs, e :: es => c ++ e :: left_of cs es | _, _ => [] end.
Fixpoint right_of {A} (es : list A) (cs : list (list A)) : list A :=
  match es, cs with e :: es, c :: cs => e :: c ++ right_of es cs | _, _ => [] end.

Lemma interleave_right {A} (c : list A) cs es :
  length cs = length es -> interleave (c :: cs) es = c ++ right_of es cs.
Proof.
  revert c cs. induction es as [|e es IH]; intros c [|c' cs] H; simplify_eq/=; [by rewrite app_nil_r|].
  f_equal. f_equal. by apply IH.
Qed.

Lemma interleave_left {A} (cs1 : list (list A)) es1 cs2 es2 :
  length cs1 = length es1 -> interleave (cs1 ++ cs2) (es1 ++ es2) = left_of cs1 es1 ++ interleave cs2 es2.
Proof.
  revert es1. induction cs1 as [|c cs1 IH]; intros [|e es1] H; simplify_eq/=; [done|].
  rewrite <- app_assoc. simpl. f_equal. f_equal. by apply IH.
Qed.

(** The walk around child [i]. *)
Lemma interleave_split {A} (cs1 : list (list A)) c cs2 es1 es2 :
  length cs1 = length es1 -> length cs2 = length es2 ->
  interleave (cs1 ++ c :: cs2) (es1 ++ es2) = left_of cs1 es1 ++ c ++ right_of es2 cs2.
Proof. intros. by rewrite interleave_left, interleave_right. Qed.

(** The walk around entry [e]. *)
Lemma interleave_entry {A} (cs1 cs2 : list (list A)) e es1 es2 :
  length cs1 = S (length es1) ->
  interleave (cs1 ++ cs2) (es1 ++ e :: es2) = interleave cs1 es1 ++ e :: interleave cs2 es2.
Proof.
  revert cs1. induction es1 as [|e1 es1 IH]; intros [|c [|c' cs1]] H; simplify_eq/=; [done|].
  rewrite <- app_assoc. simpl. f_equal. f_equal. apply (IH (c' :: cs1)). simpl. lia.
Qed.

Lemma interleave_elem {A} (cs : list (list A)) es e : e ∈ es -> e ∈ interleave cs es.
Proof.
  revert cs. induction es as [|e' es IH]; intros cs; [by rewrite elem_of_nil|].
  intros [->|He]%elem_of_cons; destruct cs; simpl; set_solver.
Qed.

Lemma interleave_sorted cs es : sorted (interleave cs es) -> sorted es.
Proof.
  revert cs. induction es as [|e es IH]; intros [|c cs]; simpl; try by constructor.
  - intros [H1 H2]%sorted_cons. apply sorted_cons. split; eauto. intros a Ha. apply H1. by apply interleave_elem.
  - intros (_ & _ & [H1 H2]%sorted_cons)%sorted_app. apply sorted_cons. split; eauto.
    intros a Ha. apply H1. by apply interleave_elem.
Qed.

Lemma left_of_lt cs es k :
  length cs = length es -> sorted (left_of cs es) -> (forall e, e ∈ es -> fst e < k) ->
  forall a, a ∈ left_of cs es -> fst a < k.
Proof.
  revert es. induction cs as [|c cs IH]; intros [|e es] Hl Hs He a Ha; simplify_eq/=; [set_solver|].
  apply sorted_app in Hs as (H1 & _ & [H2 H3]%sorted_cons).
  assert (fst e < k) by (apply He; set_solver).
  apply elem_of_app in Ha as [Ha|[->|Ha]%elem_of_cons]; auto.
  - specialize (H1 a e Ha). assert (fst a < fst e) by (apply H1; set_solver). lia.
  - eapply IH; eauto. set_solver.
Qed.

Lemma right_of_gt cs es k :
  length cs = length es -> sorted (right_of es cs) -> (forall e, e ∈ es -> k < fst e) ->
  forall a, a ∈ right_of es cs -> k < fst a.
Proof.
  destruct es as [|e es]; destruct cs as [|c cs]; intros Hl Hs He a Ha; simplify_eq/=; [set_solver|].
  assert (k < fst e) by (apply He; set_solver). apply sorted_cons in Hs as [H1 _].
  apply elem_of_cons in Ha as [->|Ha]; auto. apply H1 in Ha. lia.
Qed.

(** ** Shape of a tree *)

(** All leaves at depth [d] below [x]; the nodes below [x] are at least half full. *)
Fixpoint shape (d : nat) (x : KBTNode) : Prop :=
  match d with
  | O => leaf x = true /\ children x = []
  | S d' => leaf x = false /\ length (children x) = S (length (ents x)) /\
            Forall (fun c => 63 <= n c <= 127 /\ shape d' c) (children x)
  end.

#[local] Abbreviation contents := kbt_collect_node.

Fixpoint nodes (x : KBTNode) : Z :=
  match x with mkKBTNode _ _ cs => 1 + foldr (fun c acc => nodes c + acc) 0 cs end.

Definition nodes_of (cs : list KBTNode) : Z := foldr (fun c acc => nodes c + acc) 0 cs.

Lemma nodes_eq x : nodes x = 1 + nodes_of (children x).
Proof. by destruct x. Qed.

Lemma nodes_of_app l1 l2 : nodes_of (l1 ++ l2) = nodes_of l1 + nodes_of l2.
Proof. induction l1 as [|x l1 IH]; simpl; [done|]. fold (nodes_of (l1 ++ l2)) (nodes_of l1). lia. Qed.

Lemma nodes_of_cons c l : nodes_of (c :: l) = nodes c + nodes_of l.
Proof. done. Qed.

Lemma contents_leaf x : shape 0 x -> contents x = ents x.
Proof. destruct x as [lf es cs]. intros [H _]. simpl in *. by rewrite H. Qed.

Lemma contents_internal d x : shape (S d) x -> contents x = interleave (contents <$> children x) (ents x).
Proof. destruct x as [lf es cs]. intros [H _]. simpl in *. by rewrite H. Qed.

Lemma contents_ents_sorted d x : shape d x -> sorted (contents x) -> sorted (ents x).
Proof.
  destruct d; intros Hsh; [by rewrite contents_leaf|].
  rewrite (contents_internal d) by auto. apply interleave_sorted.
Qed.

Lemma split_list {A} (l : list A) i x :
  rd l i = Ret x -> l = take (Z.to_nat i) l ++ x :: drop (S (Z.to_nat i)) l /\ length (take (Z.to_nat i) l) = Z.to_nat i.
Proof.
  intros [H0 H]%rd_ret. split; [by rewrite take_drop_middle|]. apply lookup_lt_Some in H. rewrite length_take. lia.
Qed.

(** Replacing an entry keeps everything around it. *)
Lemma contents_entry d x i e :
  shape d x -> rd (ents x) i = Ret e ->
  exists P Q, contents x = P ++ e :: Q /\
    forall e', contents (mkKBTNode (leaf x) (<[Z.to_nat i := e']> (ents x)) (children x)) = P ++ e' :: Q.
Proof.
  intros Hsh Hi. destruct (split_list _ _ _ Hi) as [Es Hl]. pose proof (rd_ret_range _ _ _ Hi) as Hr.
  assert (forall e', <[Z.to_nat i := e']> (ents x) = take (Z.to_nat i) (ents x) ++ e' :: drop (S (Z.to_nat i)) (ents x)) as Hins.
  { intros e'. apply insert_take_drop. unfold zlen in Hr. lia. }
  destruct d as [|d].
  - rewrite contents_leaf by auto. exists (take (Z.to_nat i) (ents x)), (drop (S (Z.to_nat i)) (ents x)).
    split; auto. intros e'. rewrite contents_leaf; [apply Hins|]. split; apply Hsh.
  - rewrite (contents_internal d) by auto. set (cs := contents <$> children x).
    destruct Hsh as (Hlf & Hlc & Hch).
    assert (cs = take (S (Z.to_nat i)) cs ++ drop (S (Z.to_nat i)) cs) as Ec by (by rewrite take_drop).
    assert (length (take (S (Z.to_nat i)) cs) = S (length (take (Z.to_nat i) (ents x)))) as Hlen.
    { rewrite Hl, length_take. unfold cs. rewrite length_fmap, Hlc. unfold zlen in Hr. lia. }
    exists (interleave (take (S (Z.to_nat i)) cs) (take (Z.to_nat i) (ents x))),
      (interleave (drop (S (Z.to_nat i)) cs) (drop (S (Z.to_nat i)) (ents x))). split.
    + etrans; [|by apply interleave_entry]. by rewrite take_drop, <- Es.
    + intros e'. simpl. rewrite Hlf, Hins. etrans; [|by apply interleave_entry]. by rewrite take_drop.
Qed.

Lemma shape_set_entry d x i e :
  shape d x -> shape d (mkKBTNode (leaf x) (<[Z.to_nat i := e]> (ents x)) (children x)).
Proof. destruct d; simpl; [done|]. by rewrite length_insert. Qed.

(** Updating the entry that holds the key. *)
Lemma update_entry d x i v v0 k :
  shape d x -> sorted (contents x) -> rd (ents x) i = Ret (k, v0) ->
  let x' := mkKBTNode (leaf x) (<[Z.to_nat i := (k, v)]> (ents x)) (children x) in
  shape d x' /\ contents x' = ainsert k v (contents x) /\ has_key k (contents x) = true /\ n x' = n x /\ nodes x' = nodes x.
Proof.
  intros Hsh Hs Hi x'. destruct (contents_entry d x i (k, v0) Hsh Hi) as (P & Q & E & E').
  split_and!.
  - by apply shape_set_entry.
  - unfold x'. rewrite E', E, ainsert_left; [by rewrite ainsert_hit|].
    rewrite E in Hs. apply sorted_app in Hs as (H1 & _). intros e He. apply (H1 e (k, v0)); set_solver.
  - rewrite E. apply has_key_true. exists v0. set_solver.
  - unfold n. simpl. by rewrite zlen_insert.
  - by rewrite !nodes_eq.
Qed.

Definition set_child (x : KBTNode) (i : Z) (c : KBTNode) : KBTNode :=
  mkKBTNode (leaf x) (ents x) (<[Z.to_nat i := c]> (children x)).

Lemma contents_at d x i c :
  shape (S d) x -> rd (children x) i = Ret c ->
  contents x = left_of (contents <$> take (Z.to_nat i) (children x)) (take (Z.to_nat i) (ents x)) ++ contents c ++
               right_of (drop (Z.to_nat i) (ents x)) (contents <$> drop (S (Z.to_nat i)) (children x)).
Proof.
  intros Hsh Hc. pose proof Hsh as (Hlf & Hlen & Hch). destruct (split_list _ _ _ Hc) as [Es Hti].
  pose proof (rd_ret_range _ _ _ Hc) as Hir. unfold zlen in Hir. rewrite Hlen in Hir.
  rewrite (contents_internal d) by auto.
  transitivity (interleave (contents <$> (take (Z.to_nat i) (children x) ++ c :: drop (S (Z.to_nat i)) (children x)))
    (take (Z.to_nat i) (ents x) ++ drop (Z.to_nat i) (ents x))); [by rewrite <- Es, take_drop|].
  rewrite fmap_app, fmap_cons. apply interleave_split.
  - rewrite length_fmap, !length_take, Hlen. lia.
  - rewrite length_fmap, !length_drop, Hlen. lia.
Qed.

(** The entries around child [i]: smaller keys before, larger keys after. *)
Lemma contents_child d x i c k :
  shape (S d) x -> sorted (contents x) -> rd (children x) i = Ret c ->
  (forall e, e ∈ take (Z.to_nat i) (ents x) -> fst e < k) ->
  (forall e, e ∈ drop (Z.to_nat i) (ents x) -> k < fst e) ->
  exists L R, contents x = L ++ contents c ++ R /\
    (forall e, e ∈ L -> fst e < k) /\ (forall e, e ∈ R -> k < fst e) /\
    (forall c', shape d c' -> contents (set_child x i c') = L ++ contents c' ++ R).
Proof.
  intros Hsh Hs Hc Hl Hr. pose proof Hsh as (Hlf & Hlen & Hch).
  pose proof (rd_ret_range _ _ _ Hc) as Hir. unfold zlen in Hir. rewrite Hlen in Hir.
  assert (length (contents <$> take (Z.to_nat i) (children x)) = length (take (Z.to_nat i) (ents x))) as HL1
    by (rewrite length_fmap, !length_take, Hlen; lia).
  assert (length (contents <$> drop (S (Z.to_nat i)) (children x)) = length (drop (Z.to_nat i) (ents x))) as HL2
    by (rewrite length_fmap, !length_drop, Hlen; lia).
  set (L := left_of (contents <$> take (Z.to_nat i) (children x)) (take (Z.to_nat i) (ents x))) in *.
  set (R := right_of (drop (Z.to_nat i) (ents x)) (contents <$> drop (S (Z.to_nat i)) (children x))) in *.
  assert (contents x = L ++ contents c ++ R) as E by (by apply (contents_at d)).
  exists L, R. rewrite E in Hs. apply sorted_app in Hs as (_ & HsL & (_ & _ & HsR)%sorted_app).
  split_and!; auto; [by apply left_of_lt|by apply right_of_gt|].
  intros c' Hc'. unfold set_child. simpl. rewrite Hlf, insert_take_drop by lia.
  change (map contents) with (fmap (M := list) contents). rewrite fmap_app, fmap_cons.
  rewrite <- (take_drop (Z.to_nat i) (ents x)) at 1. by apply interleave_split.
Qed.

(** Replacing the child the search descends into. *)
Lemma update_child d x i c c' k v :
  shape (S d) x -> sorted (contents x) -> rd (children x) i = Ret c ->
  (forall e, e ∈ take (Z.to_nat i) (ents x) -> fst e < k) ->
  (forall e, e ∈ drop (Z.to_nat i) (ents x) -> k < fst e) ->
  shape d c' -> 63 <= n c' <= 127 -> contents c' = ainsert k v (contents c) ->
  shape (S d) (set_child x i c') /\ contents (set_child x i c') = ainsert k v (contents x) /\
  has_key k (contents x) = has_key k (contents c) /\ n (set_child x i c') = n x /\
  nodes (set_child x i c') = nodes x - nodes c + nodes c'.
Proof.
  intros Hsh Hs Hc Hl Hr Hsc Hnc Ec.
  destruct (contents_child d x i c k) as (L & R & E & HL & HR & E'); auto.
  pose proof Hsh as (Hlf & Hlen & Hch). pose proof (rd_ret_range _ _ _ Hc) as Hir. unfold zlen in Hir.
  destruct (split_list _ _ _ Hc) as [Es _]. split_and!; auto.
  - split_and!; auto; cbn [children ents set_child]; [by rewrite length_insert|by apply Forall_insert].
  - rewrite E', E, Ec, ainsert_left, ainsert_right; auto.
  - rewrite E, !has_key_app, (has_key_ne k L), (has_key_ne k R), orb_false_r; auto.
    + intros e He. apply HR in He. lia.
    + intros e He. apply HL in He. lia.
  - assert (nodes_of (children x) = nodes_of (take (Z.to_nat i) (children x)) + (nodes c + nodes_of (drop (S (Z.to_nat i)) (children x)))) as Hn
      by (rewrite Es at 1; by rewrite nodes_of_app, nodes_of_cons).
    rewrite (nodes_eq x), (nodes_eq (set_child x i c')), Hn. cbn [children set_child]. rewrite insert_take_drop, nodes_of_app, nodes_of_cons by lia. lia.
Qed.

(** ** Splitting *)

Lemma kbt_alloc_node_ok t lf :
  0 <= arena_used t < arena_cap t -> arena_cap t < 2 ^ 32 ->
  kbt_alloc_node t lf = (Some (mkKBTNode lf [] []), set_used t (arena_used t + 1)).
Proof. intros. unfold kbt_alloc_node. zdec. by rewrite u32_id by lia. Qed.

(** The two halves of a full node. *)
Definition lower (y : KBTNode) : KBTNode := mkKBTNode (leaf y) (take 63 (ents y)) (take 64 (children y)).
Definition upper (y : KBTNode) : KBTNode :=
  mkKBTNode (leaf y) (take 63 (drop 64 (ents y))) (if leaf y then [] else take 64 (drop 64 (children y))).

Lemma take_all {A} (l : list A) k : (length l <= k)%nat -> take k l = l.
Proof. apply take_ge. Qed.

Lemma split_halves d y m :
  shape d y -> n y = 127 -> rd (ents y) KBT_MIN_KEYS = Ret m ->
  shape d (lower y) /\ shape d (upper y) /\ n (lower y) = 63 /\ n (upper y) = 63 /\
  contents y = contents (lower y) ++ m :: contents (upper y) /\
  nodes (lower y) + nodes (upper y) = nodes y + 1.
Proof.
  intros Hsh Hn Hm. change KBT_MIN_KEYS with 63 in Hm. unfold n, zlen in Hn.
  destruct (split_list _ _ _ Hm) as [Es _]. change (Z.to_nat 63) with 63%nat in Es.
  assert (length (drop 64 (ents y)) = 63%nat) as Hd by (rewrite length_drop; lia).
  assert (take 63 (drop 64 (ents y)) = drop 64 (ents y)) as Ht by (apply take_ge; lia).
  assert (length (take 63 (ents y)) = 63%nat) as Htl by (rewrite length_take; lia).
  assert (n (lower y) = 63 /\ n (upper y) = 63) as [Hn1 Hn2].
  { unfold n, zlen, lower, upper. cbn [ents]. rewrite Ht. lia. }
  destruct d as [|d].
  - destruct Hsh as [Hlf Hcs]. unfold lower, upper in *. rewrite Hlf, Hcs, Ht in *. split_and!; auto; try done.
    + destruct y as [lf es cs]. simpl in *. by rewrite Hlf.
    + rewrite !nodes_eq. simpl. rewrite Hcs. done.
  - destruct Hsh as (Hlf & Hlen & Hch).
    assert (length (take 64 (children y)) = 64%nat) as Hc1 by (rewrite length_take; lia).
    assert (length (drop 64 (children y)) = 64%nat) as Hc2 by (rewrite length_drop; lia).
    assert (take 64 (drop 64 (children y)) = drop 64 (children y)) as Hct by (apply take_ge; lia).
    assert (shape (S d) (lower y)) as Hs1.
    { unfold lower. split_and!; cbn [leaf children ents]; auto using Forall_take. lia. }
    assert (shape (S d) (upper y)) as Hs2.
    { unfold upper. rewrite Hlf. split_and!; cbn [leaf children ents]; auto using Forall_take, Forall_drop.
      rewrite Hct, Ht. lia. }
    split_and!; auto.
    + rewrite !(contents_internal d) by (auto; split_and!; auto). unfold lower, upper. cbn [children ents].
      rewrite Hlf, Hct, Ht. rewrite Es at 1. rewrite <- (take_drop 64 (children y)) at 1.
      rewrite fmap_app. apply interleave_entry. rewrite length_fmap. lia.
    + rewrite !nodes_eq. unfold lower, upper. cbn [children]. rewrite Hlf, Hct.
      rewrite <- (take_drop 64 (children y)) at 3. rewrite nodes_of_app. lia.
Qed.

Lemma rd_app_r {A} (l1 l2 : list A) i j : i = zlen l1 + j -> 0 <= j -> rd (l1 ++ l2) i = rd l2 j.
Proof.
  unfold rd, zlen. intros -> Hj. zdec. rewrite lookup_app_r by lia.
  by replace (Z.to_nat (Z.of_nat (length l1) + j) - length l1)%nat with (Z.to_nat j) by lia.
Qed.

Lemma zlen_take_to {A} (l : list A) i : 0 <= i <= zlen l -> zlen (take (Z.to_nat i) l) = i.
Proof. unfold zlen. intros. rewrite length_take. lia. Qed.

Definition split_node (x : KBTNode) (i : Z) (m : Z * Z) (y : KBTNode) : KBTNode :=
  mkKBTNode (leaf x) (take (Z.to_nat i) (ents x) ++ m :: drop (Z.to_nat i) (ents x))
    (take (Z.to_nat i) (children x) ++ lower y :: upper y :: drop (S (Z.to_nat i)) (children x)).

Lemma split_node_shape d x i m y :
  shape (S d) x -> rd (children x) i = Ret y -> n y = 127 -> rd (ents y) KBT_MIN_KEYS = Ret m ->
  shape (S d) (split_node x i m y) /\ contents (split_node x i m y) = contents x /\
  n (split_node x i m y) = n x + 1 /\ nodes (split_node x i m y) = nodes x + 1 /\ 0 <= i <= n x.
Proof.
  intros Hsh Hi Hn Hm. pose proof Hsh as (Hlf & Hlen & Hch). pose proof (rd_ret_range _ _ _ Hi) as Hir.
  unfold zlen in Hir. rewrite Hlen in Hir. destruct (split_list _ _ _ Hi) as [Es _].
  assert (shape d y) as Hy by (rewrite Forall_forall in Hch; apply Hch; by eapply rd_elem).
  destruct (split_halves d y m Hy Hn Hm) as (Hs1 & Hs2 & Hn1 & Hn2 & Ec & Hnd).
  assert (shape (S d) (split_node x i m y)) as Hsh'.
  { unfold split_node. split_and!; cbn [leaf ents children]; auto.
    - rewrite !length_app. simpl. rewrite !length_take, !length_drop. lia.
    - apply Forall_app. split; [by apply Forall_take|].
      constructor; [split; [lia|done]|]. constructor; [split; [lia|done]|]. by apply Forall_drop. }
  assert (length (contents <$> take (Z.to_nat i) (children x)) = length (take (Z.to_nat i) (ents x))) as HL1
    by (rewrite length_fmap, !length_take, Hlen; lia).
  assert (length (contents <$> drop (S (Z.to_nat i)) (children x)) = length (drop (Z.to_nat i) (ents x))) as HL2
    by (rewrite length_fmap, !length_drop, Hlen; lia).
  split_and!; auto.
  - rewrite !(contents_internal d) by auto. unfold split_node. cbn [ents children].
    rewrite fmap_app, !fmap_cons, interleave_split by (simpl; auto).
    rewrite <- (contents_internal d), (contents_at d x i y) by auto. cbn [right_of]. by rewrite Ec, <- !app_assoc.
  - unfold n, zlen, split_node. cbn [ents]. rewrite length_app. simpl. rewrite length_take, length_drop. lia.
  - assert (nodes_of (children x) = nodes_of (take (Z.to_nat i) (children x)) + (nodes y + nodes_of (drop (S (Z.to_nat i)) (children x)))) as Hno
      by (rewrite Es at 1; by rewrite nodes_of_app, nodes_of_cons).
    rewrite (nodes_eq x), (nodes_eq (split_node x i m y)), Hno. unfold split_node. cbn [children].
    rewrite nodes_of_app, !nodes_of_cons. lia.
  - lia.
  - unfold n, zlen. lia.
Qed.

Lemma kbt_split_child_spec d t x i y :
  shape (S d) x -> n x < 127 -> rd (children x) i = Ret y -> n y = 127 ->
  0 <= arena_used t < arena_cap t -> arena_cap t < 2 ^ 32 ->
  exists m, rd (ents y) KBT_MIN_KEYS = Ret m /\
    kbt_split_child t x i = Ret (set_used t (arena_used t + 1), split_node x i m y).
Proof.
  intros Hsh Hnx Hi Hn Hu Hc. unfold kbt_split_child. rewrite Hi. cbn [res_bind].
  rewrite kbt_alloc_node_ok by auto.
  destruct (rd_in_range (ents y) KBT_MIN_KEYS) as [m Hm]; [change KBT_MIN_KEYS with 63; unfold n in Hn; lia|].
  rewrite Hm. cbn [res_bind]. change KBT_MAX_KEYS with 127. zdec. eauto.
Qed.

(** ** Insertion into a node that is not full *)

(** The outcome of an insertion at depth [d] that allocates at most [a] nodes. *)
Definition insert_post (d : nat) (a : Z) (t : KeyBTree) (x : KBTNode) (k v : Z) (r : res (bool * KeyBTree * KBTNode)) : Prop :=
  exists x', r = Ret (negb (has_key k (contents x)), set_used t (arena_used t + (nodes x' - nodes x)), x') /\
    shape d x' /\ contents x' = ainsert k v (contents x) /\ n x <= n x' <= n x + 1 /\
    0 <= nodes x' - nodes x <= a.

Lemma set_used_id t : set_used t (arena_used t) = t.
Proof. by destruct t. Qed.

Lemma insert_post_update d a t x i v v0 k :
  0 <= a -> shape d x -> sorted (contents x) -> rd (ents x) i = Ret (k, v0) ->
  insert_post d a t x k v
    (let! e := wr (ents x) i (k, v) in Ret (false, t, mkKBTNode (leaf x) e (children x))).
Proof.
  intros Ha Hsh Hs Hi. destruct (update_entry d x i v v0 k Hsh Hs Hi) as (H1 & H2 & H3 & H4 & H5).
  rewrite wr_ret by (by eapply rd_ret_range). cbn [res_bind]. eexists. rewrite H3. simpl negb.
  split; [by rewrite H5, Z.sub_diag, Z.add_0_r, set_used_id|]. split_and!; auto; lia.
Qed.

(** One more level: the recursive call on the child, then the store. *)
Lemma insert_post_descend d a fuel t x i c k v :
  shape (S d) x -> sorted (contents x) -> rd (children x) i = Ret c -> n c < 127 ->
  (forall e, e ∈ take (Z.to_nat i) (ents x) -> fst e < k) ->
  (forall e, e ∈ drop (Z.to_nat i) (ents x) -> k < fst e) ->
  (sorted (contents c) -> insert_post d a t c k v (kbt_insert_nonfull fuel t c k v)) ->
  exists x',
    (let! c := rd (children x) i in
     let! '(b, t, c) := kbt_insert_nonfull fuel t c k v in
     let! cs := wr (children x) i c in
     Ret (b, t, mkKBTNode (leaf x) (ents x) cs)) =
    Ret (negb (has_key k (contents x)), set_used t (arena_used t + (nodes x' - nodes x)), x') /\
    shape (S d) x' /\ contents x' = ainsert k v (contents x) /\ n x' = n x /\
    0 <= nodes x' - nodes x <= a.
Proof.
  intros Hsh Hs Hc Hn Hl Hr IH. destruct (contents_child d x i c k) as (L & R & E & _ & _ & _); auto.
  assert (63 <= n c /\ shape d c) as [Hn63 Hshc].
  { destruct Hsh as (_ & _ & Hch). rewrite Forall_forall in Hch. apply rd_elem in Hc. apply Hch in Hc as [? ?]. auto with lia. }
  rewrite Hc. cbn [res_bind]. destruct IH as (c' & -> & Hs' & Ec & Hnc & Hnd).
  { rewrite E in Hs. by apply sorted_app in Hs as (_ & _ & (_ & ? & _)%sorted_app). }
  cbn [res_bind]. rewrite wr_ret by (by eapply rd_ret_range). cbn [res_bind].
  destruct (update_child d x i c c' k v) as (H1 & H2 & H3 & H4 & H5); auto; [lia|].
  exists (set_child x i c'). rewrite H3. split; [|split_and!; auto; lia].
  do 3 f_equal. f_equal. lia.
Qed.

Lemma take_insert_at {A} (l : list A) i m : (i <= length l)%nat -> take i (take i l ++ m :: drop i l) = take i l.
Proof. intros. rewrite take_app_le, take_take by (rewrite length_take; lia). f_equal. lia. Qed.

Lemma drop_insert_at {A} (l : list A) i m : (i <= length l)%nat -> drop i (take i l ++ m :: drop i l) = m :: drop i l.
Proof.
  intros. rewrite drop_app_ge by (rewrite length_take; lia). by replace (i - length (take i l))%nat with 0%nat by (rewrite length_take; lia).
Qed.

Lemma insert_nonfull_leaf t x k v lo :
  shape 0 x -> n x < 127 -> search_post fst (ents x) k (Missing lo) ->
  insert_post 0 0 t x k v
    (Ret (true, t, mkKBTNode (leaf x) (take (Z.to_nat lo) (ents x) ++ (k, v) :: drop (Z.to_nat lo) (ents x)) (children x))).
Proof.
  intros Hsh Hn (Hlo & Hl & Hr). set (x' := mkKBTNode _ _ _).
  assert (nodes x' - nodes x = 0) as Hnd by (rewrite !nodes_eq; unfold x'; cbn [children]; lia).
  exists x'. rewrite Hnd, Z.add_0_r, set_used_id, contents_leaf by auto.
  assert (has_key k (ents x) = false) as ->.
  { apply has_key_ne. intros e [He|He]%(elem_of_split_at _ (Z.to_nat lo)); [apply Hl in He|apply Hr in He]; lia. }
  assert (shape 0 x') as Hsh' by (destruct Hsh; by split).
  split; [done|]. split; [done|]. split; [|split; [|lia]].
  - rewrite contents_leaf by auto. unfold x'. cbn [ents].
    rewrite <- (take_drop (Z.to_nat lo) (ents x)) at 3. rewrite ainsert_left, ainsert_gt; auto.
  - unfold n, zlen, x' in *. cbn [ents]. rewrite length_app. simpl. rewrite length_take, length_drop. lia.
Qed.

(** What the node holds around the promoted median. *)
Lemma split_node_sides d x i m y :
  shape (S d) x -> 0 <= i <= n x ->
  let x1 := split_node x i m y in
  rd (ents x1) i = Ret m /\
  rd (children x1) i = Ret (lower y) /\ rd (children x1) (i + 1) = Ret (upper y) /\
  take (Z.to_nat i) (ents x1) = take (Z.to_nat i) (ents x) /\
  drop (Z.to_nat i) (ents x1) = m :: drop (Z.to_nat i) (ents x) /\
  take (Z.to_nat (i + 1)) (ents x1) = take (Z.to_nat i) (ents x) ++ [m] /\
  drop (Z.to_nat (i + 1)) (ents x1) = drop (Z.to_nat i) (ents x).
Proof.
  intros (_ & Hlen & _) Hi x1. unfold x1, split_node. cbn [ents children].
  assert (Z.to_nat i <= length (ents x))%nat as Hle by (unfold n, zlen in Hi; lia).
  assert (zlen (take (Z.to_nat i) (children x)) = i) as Hzc by (apply zlen_take_to; unfold zlen; lia).
  assert (zlen (take (Z.to_nat i) (ents x)) = i) as Hze by (apply zlen_take_to; unfold zlen; lia).
  replace (Z.to_nat (i + 1)) with (S (Z.to_nat i)) by lia. split_and!.
  - by rewrite (rd_app_r _ _ i 0) by lia.
  - by rewrite (rd_app_r _ _ i 0) by lia.
  - by rewrite (rd_app_r _ _ (i + 1) 1) by lia.
  - by apply take_insert_at.
  - by apply drop_insert_at.
  - rewrite (take_S_r _ _ m); [by rewrite take_insert_at by lia|].
    rewrite lookup_app_r by (unfold zlen in Hze; lia).
    by replace (Z.to_nat i - length (take (Z.to_nat i) (ents x)))%nat with 0%nat by (unfold zlen in Hze; lia).
  - rewrite <- Nat.add_1_r, <- drop_drop, drop_insert_at by lia. done.
Qed.

(** An insertion into the node that the split left. *)
Lemma insert_post_split d a t x x1 k v x' :
  contents x1 = contents x -> n x1 = n x + 1 -> nodes x1 = nodes x + 1 ->
  shape (S d) x' -> contents x' = ainsert k v (contents x1) -> n x' = n x1 ->
  0 <= nodes x' - nodes x1 <= a ->
  insert_post (S d) (a + 1) t x k v
    (Ret (negb (has_key k (contents x1)), set_used (set_used t (arena_used t + 1)) (arena_used t + 1 + (nodes x' - nodes x1)), x')).
Proof.
  intros Ec En End H1 H2 H3 H4. exists x'. rewrite <- Ec. split; [|split_and!; auto; lia].
  unfold set_used. cbn [root count arena_cap arena_used].
  by replace (arena_used t + 1 + (nodes x' - nodes x1)) with (arena_used t + (nodes x' - nodes x)) by lia.
Qed.

(** Descending next to a split child. *)
Lemma insert_post_split_descend d a fuel t x x1 i c k v :
  contents x1 = contents x -> n x1 = n x + 1 -> nodes x1 = nodes x + 1 ->
  shape (S d) x1 -> sorted (contents x1) -> rd (children x1) i = Ret c -> n c = 63 ->
  (forall e, e ∈ take (Z.to_nat i) (ents x1) -> fst e < k) ->
  (forall e, e ∈ drop (Z.to_nat i) (ents x1) -> k < fst e) ->
  (sorted (contents c) -> insert_post d a (set_used t (arena_used t + 1)) c k v
     (kbt_insert_nonfull fuel (set_used t (arena_used t + 1)) c k v)) ->
  insert_post (S d) (a + 1) t x k v
    (let! c := rd (children x1) i in
     let! '(b, t, c) := kbt_insert_nonfull fuel (set_used t (arena_used t + 1)) c k v in
     let! cs := wr (children x1) i c in Ret (b, t, mkKBTNode (leaf x1) (ents x1) cs)).
Proof.
  intros Ec En End Hsh Hs Hi Hn Hl Hr IH.
  destruct (insert_post_descend d a fuel (set_used t (arena_used t + 1)) x1 i c k v) as (x' & -> & H1 & H2 & H3 & H4); auto; [lia|].
  by apply insert_post_split.
Qed.

(** The recursive call: the node keeps its shape, gains the entry and allocates
    at most one node per level below it. *)
Lemma kbt_insert_nonfull_spec d : forall fuel t x k v,
  shape d x -> n x < 127 -> sorted (contents x) -> (d < fuel)%nat ->
  0 <= arena_used t -> arena_used t + Z.of_nat d <= arena_cap t -> arena_cap t < 2 ^ 32 ->
  insert_post d (Z.of_nat d) t x k v (kbt_insert_nonfull fuel t x k v).
Proof.
  induction d as [|d IH]; intros [|fuel] t x k v Hsh Hn Hs Hf Hu Hcap Hc32; try lia; cbn [kbt_insert_nonfull];
    destruct (bsearch_spec fst (ents x) k) as (r & -> & Hpost); try (by eapply contents_ents_sorted); cbn [res_bind];
    (destruct r as [mid|lo]; [destruct Hpost as ([k' v0] & Hm & Hk); simpl in Hk; subst k'; eapply insert_post_update; eauto; lia|]);
    change KBT_MAX_KEYS with 127.
  { pose proof (insert_nonfull_leaf t x k v lo Hsh Hn Hpost) as Hleaf. destruct Hsh as [Hlf _].
    rewrite Hlf in Hleaf |- *. by zdec. }
  pose proof Hsh as (Hlf & Hlen & Hch). rewrite Hlf. destruct Hpost as (Hlo & Hl & Hr).
  destruct (rd_in_range (children x) lo) as [c Hc]; [unfold zlen in *; lia|]. rewrite Hc. cbn [res_bind].
  rewrite Forall_forall in Hch. destruct (Hch c) as [Hnc Hshc]; [by eapply rd_elem|].
  destruct (Z.eqb_spec (n c) 127) as [Hfull|Hnf].
  - destruct (kbt_split_child_spec d t x lo c) as (m & Hm & ->); auto; [lia|]. cbn [res_bind].
    destruct (split_node_shape d x lo m c) as (Hsh' & Ec & En & End & Hlo2); auto.
    destruct (split_halves d c m) as (Hs1 & Hs2 & Hn1 & Hn2 & _); auto.
    destruct (split_node_sides d x lo m c Hsh Hlo2) as (Hem & Hcl & Hcu & Ht & Hd & Ht1 & Hd1).
    set (x1 := split_node x lo m c) in *. rewrite Hem. cbn [res_bind]. rewrite <- Ec in Hs.
    replace (Z.of_nat (S d)) with (Z.of_nat d + 1) by lia.
    assert (forall c0, shape d c0 -> n c0 = 63 -> sorted (contents c0) ->
      insert_post d (Z.of_nat d) (set_used t (arena_used t + 1)) c0 k v (kbt_insert_nonfull fuel (set_used t (arena_used t + 1)) c0 k v)) as Hrec
      by (intros; apply IH; auto; cbn [arena_used arena_cap set_used]; lia).
    destruct (Z.eqb_spec (fst m) k) as [Hk|Hne]; [|destruct (Z.ltb_spec (fst m) k)].
    + destruct m as [k' v0]. simpl in Hk. subst k'.
      destruct (update_entry (S d) x1 lo v v0 k) as (H1 & H2 & H3 & H4 & H5); auto.
      rewrite wr_ret by (by eapply rd_ret_range). cbn [res_bind].
      set (x' := mkKBTNode _ _ _) in *.
      replace false with (negb (has_key k (contents x1))) by (by rewrite H3).
      replace (set_used t (arena_used t + 1)) with
        (set_used (set_used t (arena_used t + 1)) (arena_used t + 1 + (nodes x' - nodes x1)))
        by (rewrite H5, Z.sub_diag, Z.add_0_r; done).
      apply insert_post_split; auto. lia.
    + eapply insert_post_split_descend; eauto.
      * rewrite Ht1. intros e [He|He%list_elem_of_singleton]%elem_of_app; [auto|by subst].
      * by rewrite Hd1.
    + eapply insert_post_split_descend; eauto.
      * by rewrite Ht.
      * rewrite Hd. intros e [->|He]%elem_of_cons; [lia|auto].
  - destruct (insert_post_descend d (Z.of_nat d) fuel t x lo c k v) as (x' & E & H1 & H2 & H3 & H4); auto; [lia| |].
    + intros Hsc. apply IH; auto; lia.
    + rewrite Hc, Hlf in E. exists x'. split; [exact E|]. split_and!; auto; lia.
Qed.

(** ** Size of the trees *)

(** The least number of nodes of a subtree of depth [d] that is at least half full. *)
Fixpoint min_nodes (d : nat) : Z := match d with O => 1 | S d => 1 + 64 * min_nodes d end.

Lemma min_nodes_pos d : 1 <= min_nodes d.
Proof. induction d; simpl; lia. Qed.

Lemma nodes_of_ge m cs : (forall c, c ∈ cs -> m <= nodes c) -> m * zlen cs <= nodes_of cs.
Proof.
  induction cs as [|c cs IH]; intros H; [unfold zlen; simpl; lia|]. rewrite nodes_of_cons.
  assert (m <= nodes c) by (apply H; set_solver). assert (m * zlen cs <= nodes_of cs) by (apply IH; set_solver).
  unfold zlen in *. simpl length. lia.
Qed.

Lemma shape_min_nodes d x : shape d x -> 63 <= n x -> min_nodes d <= nodes x.
Proof.
  revert x. induction d as [|d IH]; intros x Hsh Hn; rewrite nodes_eq; cbn [min_nodes].
  - destruct Hsh as [_ ->]. done.
  - destruct Hsh as (_ & Hlen & Hch). rewrite Forall_forall in Hch.
    assert (min_nodes d * zlen (children x) <= nodes_of (children x)).
    { apply nodes_of_ge. intros c Hc. apply Hch in Hc as [? ?]. apply IH; auto. lia. }
    pose proof (min_nodes_pos d). unfold n, zlen in *. nia.
Qed.

Lemma shape_nodes_root d x : shape (S d) x -> 1 + (n x + 1) * min_nodes d <= nodes x.
Proof.
  intros (_ & Hlen & Hch). rewrite Forall_forall in Hch. rewrite nodes_eq.
  assert (min_nodes d * zlen (children x) <= nodes_of (children x)).
  { apply nodes_of_ge. intros c Hc. apply Hch in Hc as [? ?]. apply shape_min_nodes; auto. lia. }
  unfold n, zlen in *. nia.
Qed.

(** 8320 nodes is the largest arena in which a tree of three levels cannot
    have a full root. *)
Definition ARENA_BOUND : Z := 8320.

Lemma depth_bound d x :
  shape d x -> 1 <= n x -> nodes x <= ARENA_BOUND -> (d <= 2)%nat /\ (n x = 127 -> (d <= 1)%nat).
Proof.
  unfold ARENA_BOUND. intros Hsh Hn Hb. destruct d as [|[|[|d]]]; try (split; lia).
  - apply shape_nodes_root in Hsh. cbn [min_nodes] in Hsh. split; [lia|]. intros. nia.
  - apply shape_nodes_root in Hsh. cbn [min_nodes] in Hsh. pose proof (min_nodes_pos d). nia.
Qed.

Lemma shape_levels d x : shape d x -> levels x = S d.
Proof.
  revert x. induction d as [|d IH]; intros [lf es cs] Hsh; simpl in Hsh.
  - destruct Hsh as [_ ->]. done.
  - destruct Hsh as (_ & Hlen & Hch). simpl. f_equal. destruct cs as [|c cs]; [done|].
    assert (forall l, Forall (fun c => 63 <= n c <= 127 /\ shape d c) l -> (foldr (fun c acc => Nat.max (levels c) acc) 0 l <= S d)%nat) as Hle.
    { induction 1 as [|a l [_ Ha] Hl IHl]; simpl; [lia|]. rewrite (IH a) by auto. lia. }
    apply Forall_cons in Hch as [[_ Hc] Hcs]. simpl. rewrite (IH c) by auto. apply Hle in Hcs. lia.
Qed.

Lemma interleave_length {A} (cs : list (list A)) es :
  length (interleave cs es) = (length es + foldr (fun c acc => length c + acc) 0 (take (S (length es)) cs))%nat.
Proof.
  revert cs. induction es as [|e es IH]; intros [|c cs]; simpl; try (rewrite ?take_0; simpl; lia).
  - rewrite IH. simpl. lia.
  - rewrite length_app. simpl. rewrite IH. simpl. lia.
Qed.

Lemma contents_length d x : shape d x -> n x <= 127 -> zlen (contents x) <= 127 * nodes x.
Proof.
  revert x. induction d as [|d IH]; intros x Hsh Hn; rewrite nodes_eq.
  - rewrite contents_leaf by auto. destruct Hsh as [_ ->]. unfold n in Hn. simpl. lia.
  - rewrite (contents_internal d) by auto. destruct Hsh as (_ & Hlen & Hch). unfold zlen. rewrite interleave_length.
    rewrite take_ge by (rewrite length_fmap; lia). unfold n, zlen in Hn.
    assert (Z.of_nat (foldr (fun c acc => length c + acc)%nat 0%nat (contents <$> children x)) <= 127 * nodes_of (children x)); [|lia].
    clear Hlen Hn. induction Hch as [|c cs [Hc1 Hc2] Hcs IHcs]; [simpl; lia|].
    rewrite fmap_cons, nodes_of_cons. simpl. apply IH in Hc2; [|lia]. unfold zlen in Hc2. lia.
Qed.

(** ** The invariant *)

(** [t] holds the map [m]; every node of the arena is in the tree. *)
Definition kbt_inv (t : KeyBTree) (m : gmap Z Z) : Prop :=
  0 <= arena_cap t < 2 ^ 32 /\
  match root t with
  | None => arena_used t = 0 /\ count t = 0 /\ m = ∅
  | Some r => exists d, shape d r /\ 1 <= n r <= 127 /\ sorted (contents r) /\
      list_to_map (contents r) = m /\ count t = zlen (contents r) /\
      arena_used t = nodes r /\ arena_used t <= arena_cap t
  end.

Lemma nodes_pos x : 1 <= nodes x.
Proof.
  assert (forall d y, (levels y <= d)%nat -> 1 <= nodes y) as H.
  { induction d as [|d IH]; intros [lf es cs] Hd; simpl in Hd; [lia|]. rewrite nodes_eq. cbn [children].
    assert (0 <= nodes_of cs); [|lia]. apply le_S_n in Hd.
    induction cs as [|c cs IHcs]; [done|]. simpl in Hd. rewrite nodes_of_cons.
    assert (1 <= nodes c) by (apply IH; lia). assert (0 <= nodes_of cs) by (apply IHcs; lia). lia. }
  by apply (H (levels x)).
Qed.

(** When no child is full the first level allocates nothing. *)
Lemma insert_nonfull_below d fuel t x k v :
  shape (S d) x -> n x < 127 -> (forall c, c ∈ children x -> n c < 127) -> sorted (contents x) -> (S d < fuel)%nat ->
  0 <= arena_used t -> arena_used t + Z.of_nat d <= arena_cap t -> arena_cap t < 2 ^ 32 ->
  insert_post (S d) (Z.of_nat d) t x k v (kbt_insert_nonfull fuel t x k v).
Proof.
  intros Hsh Hn Hnf Hs Hf Hu Hcap Hc32. destruct fuel as [|fuel]; [lia|]. cbn [kbt_insert_nonfull].
  destruct (bsearch_spec fst (ents x) k) as (r & -> & Hpost); [by eapply contents_ents_sorted|]. cbn [res_bind].
  destruct r as [mid|lo]; [destruct Hpost as ([k' v0] & Hm & Hk); simpl in Hk; subst k'; eapply insert_post_update; eauto; lia|].
  pose proof Hsh as (Hlf & Hlen & Hch). rewrite Hlf. destruct Hpost as (Hlo & Hl & Hr).
  destruct (rd_in_range (children x) lo) as [c Hc]; [unfold zlen in *; lia|]. rewrite Hc. cbn [res_bind].
  change KBT_MAX_KEYS with 127. pose proof (Hnf c (rd_elem _ _ _ Hc)). zdec.
  destruct (insert_post_descend d (Z.of_nat d) fuel t x lo c k v) as (x' & E & H1 & H2 & H3 & H4); auto.
  - intros Hsc. apply kbt_insert_nonfull_spec; auto; try lia.
    rewrite Forall_forall in Hch. apply Hch. by eapply rd_elem.
  - rewrite Hc, Hlf in E. exists x'. split; [exact E|]. split_and!; auto; lia.
Qed.

Lemma has_key_map k l : negb (has_key k l) = bool_decide ((list_to_map l : gmap Z Z) !! k = None).
Proof.
  destruct (has_key k l) eqn:E; simpl; symmetry.
  - apply bool_decide_eq_false. apply has_key_true in E as [v E]. rewrite <- not_elem_of_list_to_map.
    intros H. apply H. apply list_elem_of_fmap. by exists (k, v).
  - apply bool_decide_eq_true. apply not_elem_of_list_to_map. intros ([k' v] & Hk & Hin)%list_elem_of_fmap.
    simpl in Hk. subst k'. assert (has_key k l = true); [|congruence]. apply has_key_true. eauto.
Qed.

(** The end of an insertion: the node it left becomes the root. *)
Lemma insert_finish d a t x k v m :
  insert_post d a t x k v (kbt_insert_nonfull (S (levels x)) t x k v) ->
  sorted (contents x) -> list_to_map (contents x) = m -> count t = zlen (contents x) ->
  1 <= n x -> n x < 127 -> arena_used t = nodes x -> arena_used t + a <= arena_cap t ->
  0 <= arena_cap t <= ARENA_BOUND ->
  exists t', (let! '(inserted, t, x) := kbt_insert_nonfull (S (levels x)) t x k v in
    Ret (inserted, mkKeyBTree (Some x) (if (inserted : bool) then u32 (count t + 1) else count t) (arena_cap t) (arena_used t)))
    = Ret (bool_decide (m !! k = None), t') /\ kbt_inv t' (<[k := v]> m) /\ arena_cap t' = arena_cap t.
Proof.
  unfold ARENA_BOUND. intros (x' & -> & Hsh & Ec & Hn & Hnd) Hs Hm Hcnt Hn1 Hn2 Hu Hcap Hb. cbn [res_bind].
  rewrite has_key_map, Hm. eexists. split; [reflexivity|]. cbn [set_used arena_cap arena_used count].
  split; [|done]. split; [cbn [arena_cap]; lia|]. exists d. cbn [arena_cap arena_used count root].
  pose proof (contents_length d x' Hsh ltac:(lia)) as Hlen.
  split_and!; auto; try lia.
  - rewrite Ec. by apply ainsert_sorted.
  - by rewrite Ec, ainsert_map, Hm.
  - rewrite Ec, ainsert_length in * by auto. rewrite <- Hm, <- has_key_map.
    destruct (has_key k (contents x)); simpl; [lia|]. rewrite u32_id; [lia|]. pose proof (zlen_nonneg (contents x)). lia.
Qed.

(** Growing the tree at a full root, which takes two nodes. *)
Lemma grow_root d t r :
  shape d r -> n r = 127 -> root t = Some r -> arena_used t = nodes r -> arena_used t + 2 <= arena_cap t ->
  arena_cap t < 2 ^ 32 ->
  exists t1 s1,
    (match kbt_alloc_node t false with
     | (None, t) => Ret (t, r)
     | (Some s, t) => kbt_split_child t (mkKBTNode (leaf s) (ents s) [r]) 0
     end) = Ret (t1, s1) /\ fst (kbt_alloc_node t false) <> None /\
    count t1 = count t /\ arena_cap t1 = arena_cap t /\ arena_used t1 = arena_used t + 2 /\
    shape (S d) s1 /\ n s1 = 1 /\ contents s1 = contents r /\ nodes s1 = nodes r + 2 /\
    (forall c, c ∈ children s1 -> n c < 127).
Proof.
  intros Hsh Hn Hr Hu Hcap Hc32. pose proof (nodes_pos r). rewrite kbt_alloc_node_ok by lia. cbn [leaf ents fst].
  set (s := mkKBTNode false [] [r]).
  assert (shape (S d) s) as Hss by (split_and!; auto; constructor; [split; auto; lia|constructor]).
  destruct (kbt_split_child_spec d (set_used t (arena_used t + 1)) s 0 r) as (md & Hmd & ->); auto;
    [done|cbn [arena_used arena_cap set_used]; lia|].
  destruct (split_node_shape d s 0 md r) as (Hsh' & Ec & En & End & _); auto.
  destruct (split_halves d r md) as (_ & _ & Hn1 & Hn2 & _); auto.
  eexists _, _. split; [reflexivity|]. cbn [count arena_cap arena_used set_used]. split_and!; auto; try done; try lia.
  - rewrite End, nodes_eq. simpl. lia.
  - unfold split_node, s. simpl. intros c [->|[->|Hc%elem_of_nil]%elem_of_cons]%elem_of_cons; [lia|lia|done].
Qed.

(** ** Properties *)

Lemma kbt_insert_spec t m k v :
  kbt_inv t m -> kbt_full t = false -> arena_cap t <= ARENA_BOUND ->
  exists t', kbt_insert t k v = Ret (bool_decide (m !! k = None), t') /\
    kbt_inv t' (<[k := v]> m) /\ arena_cap t' = arena_cap t.
Proof.
  intros [Hc32 Hinv] Hfull Hb. unfold kbt_insert. destruct (root t) as [r|] eqn:Er.
  - destruct Hinv as (d & Hsh & Hn & Hs & Hm & Hcnt & Hu & Hcap). pose proof (nodes_pos r).
    assert (arena_used t + 3 <= arena_cap t) as Hroom.
    { unfold kbt_full in Hfull. rewrite u32_id in Hfull by lia. apply Z.ltb_ge in Hfull. lia. }
    destruct (depth_bound d r Hsh) as [Hd Hdf]; [lia..|]. change KBT_MAX_KEYS with 127.
    destruct (Z.eqb_spec (n r) 127) as [Hnr|Hnr].
    + specialize (Hdf Hnr). destruct (grow_root d t r) as (t1 & s1 & E & Hal & H1 & H2 & H3 & H4 & H5 & H6 & H7 & H8); auto; try lia.
      destruct (kbt_alloc_node t false) as [[s|] t']; [|done]. rewrite E. cbn [res_bind]. rewrite <- H2.
      eapply (insert_finish (S d) (Z.of_nat d)); try congruence; try lia.
      apply insert_nonfull_below; auto; try lia; [congruence|]. rewrite (shape_levels (S d)) by auto. lia.
    + eapply (insert_finish d (Z.of_nat d)); auto; try lia.
      apply kbt_insert_nonfull_spec; auto; try lia. rewrite (shape_levels d) by auto. lia.
  - destruct Hinv as (Hu & Hcnt & ->). unfold kbt_full in Hfull. rewrite Hu, Z.sub_0_r, u32_id in Hfull by lia.
    apply Z.ltb_ge in Hfull. rewrite kbt_alloc_node_ok by lia. rewrite lookup_empty, bool_decide_eq_true_2 by done.
    eexists. split; [reflexivity|]. split; [|done]. split; [cbn [arena_cap set_used]; lia|].
    exists 0%nat. cbn [root count arena_cap arena_used set_used]. split_and!; auto; try done; try (simpl; lia).
    apply sorted_cons. split; [set_solver|constructor].
Qed.

(** C26: insertion implements map update. On a tree with room for three nodes
    in an arena of at most 8320 nodes, [kbt_insert] returns, keeps the
    invariant, overwrites or adds the entry, leaves every other entry, and
    reports whether the key was new. *)
Theorem kbt_insert_correct t m k v :
  kbt_inv t m -> kbt_full t = false -> arena_cap t <= ARENA_BOUND ->
  exists t', kbt_insert t k v = Ret (bool_decide (m !! k = None), t') /\
    kbt_inv t' (<[k := v]> m) /\ arena_cap t' = arena_cap t.
Proof. apply kbt_insert_spec. Qed.

Lemma kbt_clear_inv t m : kbt_inv t m -> kbt_inv (kbt_clear t) ∅.
Proof. intros [H _]. by split. Qed.

(** An empty tree has all of its arena. *)
Lemma kbt_empty_room t : kbt_inv t ∅ -> 3 <= arena_cap t -> kbt_full t = false.
Proof.
  intros [Hc Ht] H3. assert (arena_used t = 0) as Hu.
  { destruct (root t) as [r|]; [|by destruct Ht]. destruct Ht as (d & Hs & Hn & _ & Hm & _). exfalso.
    assert (contents r = []) as E by (destruct (contents r) as [|[k v] l]; [done|]; simpl in Hm; by apply insert_non_empty in Hm).
    destruct d as [|d]; [rewrite contents_leaf in E by done|rewrite (contents_internal d) in E by done; apply (f_equal length) in E; rewrite interleave_length in E].
    - unfold n in Hn. rewrite E in Hn. unfold zlen in Hn. simpl in Hn. lia.
    - destruct Hs as (_ & Hlen & _). unfold n, zlen in *. rewrite take_ge in E by (rewrite length_fmap; lia). simpl in E. lia. }
  unfold kbt_full. rewrite Hu, u32_id by lia. apply Z.ltb_ge. lia.
Qed.

Lemma kbt_inv_collect t m :
  kbt_inv t m -> sorted (kbt_collect t) /\ list_to_map (kbt_collect t) = m /\ zlen (kbt_collect t) = count t.
Proof.
  intros [_ H]. unfold kbt_collect. destruct (root t) as [r|]; [|destruct H as (_ & -> & ->); split_and!; [constructor|done..]].
  by destruct H as (d & _ & _ & Hs & Hm & Hc & _).
Qed.

Section iterate_fold.
Context {ctx : Type} (fn : Z -> Z -> ctx -> ctx).

#[local] Abbreviation run := (fold_left (fun c e => fn (fst e) (snd e) c)).

Lemma run_interleave_fold (gs : list (ctx -> ctx)) cs es c :
  Forall2 (fun g l => forall c, g c = run l c) gs cs -> run_interleave fn gs es c = run (interleave cs es) c.
Proof.
  revert gs cs c. induction es as [|e es IH]; intros gs cs c H; destruct H as [|g l gs cs Hg Hgs]; simpl; auto.
  - rewrite fold_left_app. simpl. rewrite <- Hg. by apply IH.
Qed.

Lemma interleave_nil_l {A} (es : list A) : interleave [] es = es.
Proof. induction es; simpl; by f_equal. Qed.

Lemma iterate_node_fold d : forall x c, (levels x <= d)%nat -> kbt_iterate_node fn x c = run (kbt_collect_node x) c.
Proof.
  induction d as [|d IH]; intros [lf es cs] c Hd; simpl in Hd; [lia|]. simpl. destruct lf.
  - rewrite (run_interleave_fold [] [] es c) by constructor. by rewrite interleave_nil_l.
  - apply run_interleave_fold. apply le_S_n in Hd.
    induction cs as [|x cs IHcs]; [constructor|]. simpl in Hd. constructor; [intros; apply IH; lia|apply IHcs; lia].
Qed.
End iterate_fold.

(** What the flush reads. The collected entries are the map, each key once
    and in ascending order, as many as [count] says, and the iteration callback
    sees exactly these entries in this order. *)
Theorem kbt_collect_correct {ctx} (fn : Z -> Z -> ctx -> ctx) t m c :
  kbt_inv t m ->
  StronglySorted Z.lt (fst <$> kbt_collect t) /\ list_to_map (kbt_collect t) = m /\
  zlen (kbt_collect t) = count t /\
  kbt_iterate fn t c = fold_left (fun c e => fn (fst e) (snd e) c) (kbt_collect t) c.
Proof.
  intros H. destruct (kbt_inv_collect t m H) as (H1 & H2 & H3). split_and!; auto.
  unfold kbt_iterate, kbt_collect. destruct (root t) as [r|]; [|done]. by apply (iterate_node_fold fn (levels r)).
Qed.

Lemma mask_down x : 0 <= x < 2 ^ 64 -> Z.land x (Z.lxor (2 ^ 64 - 1) 4095) = x - x mod 4096.
Proof.
  intros Hx. assert (Z.land x (Z.lxor (2 ^ 64 - 1) 4095) = Z.ldiff x 4095) as ->.
  { apply Z.bits_inj'. intros i Hi. rewrite Z.land_spec, Z.lxor_spec, Z.ldiff_spec.
    destruct (Z.ltb_spec i 64).
    - replace (2 ^ 64 - 1) with (Z.ones 64) by done. rewrite Z.testbit_ones_nonneg by lia. zdec.
      by destruct (Z.testbit 4095 i).
    - rewrite <- (Z.mod_small x (2 ^ 64)), Z.mod_pow2_bits_high by lia. done. }
  change 4095 with (Z.ones 12). rewrite Z.ldiff_ones_r by lia. change 4096 with (2 ^ 12).
  rewrite Z.shiftl_mul_pow2, Z.shiftr_div_pow2 by lia. pose proof (Z.div_mod x (2 ^ 12)). lia.
Qed.

(** an arena of any of the budgets the bins use, 256 KB to 16 MB, starts as
    the empty map, has room for an insertion and is within the bound that the
    three-node reserve needs; a failed allocation of the arena leaves a tree that
    is full at once, so an insertion changes nothing. *)
Theorem kbt_init_correct budget_bytes :
  2 ^ 18 <= budget_bytes <= 2 ^ 24 ->
  kbt_inv (kbt_init true budget_bytes) ∅ /\ kbt_full (kbt_init true budget_bytes) = false /\
  102 <= arena_cap (kbt_init true budget_bytes) <= 6553 /\
  kbt_inv (kbt_init false budget_bytes) ∅ /\ kbt_full (kbt_init false budget_bytes) = true /\
  (forall k v, kbt_insert (kbt_init false budget_bytes) k v = Ret (false, kbt_init false budget_bytes)).
Proof.
  intros Hb. assert (102 <= arena_cap (kbt_init true budget_bytes) <= 6553) as Hcap.
  { unfold kbt_init. cbn [arena_cap]. rewrite u64_id by lia. rewrite mask_down by lia.
    pose proof (Z.mod_pos_bound (budget_bytes + 4095) 4096 ltac:(lia)).
    pose proof (Z.div_mod (budget_bytes + 4095) 4096 ltac:(lia)).
    set (b := budget_bytes + 4095 - (budget_bytes + 4095) mod 4096) in *.
    assert (2 ^ 18 <= b <= 2 ^ 24 + 4095 - 4095) as Hbb by (unfold b; lia).
    change KBT_NODE_SIZE with 2560.
    assert (102 <= b / 2560 < 6554) by (split; [apply Z.div_le_lower_bound|apply Z.div_lt_upper_bound]; lia).
    rewrite u32_id by lia. zdec. lia. }
  split_and!; try lia; try done.
  - split; [lia|]. done.
  - unfold kbt_full. change (arena_used (kbt_init true budget_bytes)) with 0. rewrite u32_id by lia. zdec. done.
Qed.

(** ** Witnesses *)

Definition t_empty : KeyBTree := mkKeyBTree None 0 102 0.

Lemma t_empty_inv : kbt_inv t_empty ∅.
Proof. by split. Qed.

Lemma kbt_insert_correct_witness :
  exists b t', kbt_insert t_empty 7 70 = Ret (b, t') /\ kbt_inv t' (<[7 := 70]> ∅) /\ arena_cap t' = arena_cap t_empty.
Proof.
  destruct (kbt_insert_correct t_empty ∅ 7 70) as (t' & H); [apply t_empty_inv | reflexivity | vm_compute; discriminate |].
  eexists _, t'. exact H.
Defined.

(** Three entries out of order, the first overwritten. *)
Definition t_three : KeyBTree :=
  mkKeyBTree (Some (mkKBTNode true [(3, 31); (7, 70); (9, 90)] [])) 3 102 1.

Definition m_three : gmap Z Z := {[3 := 31; 7 := 70; 9 := 90]}.

Lemma t_three_inv : kbt_inv t_three m_three.
Proof.
  split; [simpl; lia|]. exists 0%nat. split_and!; try done.
  repeat (apply sorted_cons; split; [intros a Ha; repeat (apply elem_of_cons in Ha as [->|Ha]); simpl; try lia; by apply elem_of_nil in Ha|]).
  constructor.
Qed.

Lemma kbt_collect_correct_witness :
  StronglySorted Z.lt (fst <$> kbt_collect t_three) /\ list_to_map (kbt_collect t_three) = m_three /\
  zlen (kbt_collect t_three) = count t_three /\
  kbt_iterate (fun k v c => c + k) t_three 0 = fold_left (fun c e => c + fst e) (kbt_collect t_three) 0.
Proof. apply (kbt_collect_correct (fun k v c => c + k) t_three m_three 0). apply t_three_inv. Defined.

Lemma kbt_init_correct_witness :
  kbt_inv (kbt_init true (2 ^ 20)) ∅ /\ kbt_full (kbt_init true (2 ^ 20)) = false /\
  102 <= arena_cap (kbt_init true (2 ^ 20)) <= 6553 /\
  kbt_inv (kbt_init false (2 ^ 20)) ∅ /\ kbt_full (kbt_init false (2 ^ 20)) = true /\
  (forall k v, kbt_insert (kbt_init false (2 ^ 20)) k v = Ret (false, kbt_init false (2 ^ 20))).
Proof. apply (kbt_init_correct (2 ^ 20)). lia. Defined.
