(* ===== verification/SlabAlloc.v ===== *)
(** SlabAlloc: the pool allocator, src/slab_alloc.c.

    A pool keeps its free objects in a list threaded through their first word.
    That word is the memory modelled here ([links]); the operating system's
    answers to the requests for pages are an argument ([os]). [pool_inv] says
    that the free list and the objects handed out are together exactly the
    objects of the pool's pages. *)

From S2P Require Import Prelude.

(** ** State *)

Definition SLAB_PAGE_SIZE : Z := 64 * 1024.
Definition SLAB_MIN_OBJ_SIZE : Z := 32.
Definition SLAB_MAX_POOLS : Z := 32.
Definition SLAB_DEFAULT_ALIGNMENT : Z := 16.

Record SlabPage : Type := mkSlabPage { base : Z; pg_obj_size : Z; total_objects : Z; allocated : Z }.

Record SlabPool : Type := mkSlabPool {
  obj_size : Z; alignment : Z; page_size : Z;
  free_head : Z; free_count : Z;
  pages : list SlabPage;
  page_count : Z; total_allocated : Z; total_freed : Z; alloc_fast : Z; alloc_slow : Z
}.

(** [links]: the [next] word of each object. [os]: the answers to the next
    requests for a page, [None] when [malloc] or [posix_memalign] fails. *)
Record Mem : Type := mkMem { links : gmap Z Z; os : list (option Z) }.

(** The allocator: [pools] has 32 slots of pool pointers. *)
Record SlabAllocator : Type := mkSlabAllocator {
  al_pools : list (option Z);
  num_pools : Z;
  initialized : bool;
  total_pages : Z; total_bytes : Z; large_allocs : Z; large_bytes : Z
}.

(** The allocator, the pools by address, and the memory. *)
Record Slab : Type := mkSlab { alloc : SlabAllocator; heap : gmap Z SlabPool; mem : Mem }.

(** ** Pools *)

Definition slab_page_create (os : list (option Z)) (obj_size alignment page_size : Z) : option SlabPage * list (option Z) :=
  match os with
  | Some mem :: os => (Some (mkSlabPage mem obj_size (u32 (page_size / obj_size)) 0), os)
  | None :: os => (None, os)
  | [] => (None, [])
  end.

(** [for (i = 0; i < n; i++)]: object [i] is pushed on the free list. *)
Fixpoint carve (fuel : nat) (lk : gmap Z Z) (base obj_size i head : Z) : gmap Z Z * Z :=
  match fuel with
  | O => (lk, head)
  | S fuel => let node := base + i * obj_size in carve fuel (<[node := head]> lk) base obj_size (i + 1) node
  end.

Definition slab_pool_grow (p : SlabPool) (m : Mem) : SlabPool * Mem :=
  match slab_page_create (os m) (obj_size p) (alignment p) (page_size p) with
  | (None, os) => (p, mkMem (links m) os)
  | (Some page, os) =>
    let n := total_objects page in
    let '(lk, head) := carve (Z.to_nat n) (links m) (base page) (obj_size p) 0 (free_head p) in
    (mkSlabPool (obj_size p) (alignment p) (page_size p) head (u64 (free_count p + n))
                (mkSlabPage (base page) (pg_obj_size page) n n :: pages p) (u32 (page_count p + 1))
                (total_allocated p) (total_freed p) (alloc_fast p) (u64 (alloc_slow p + 1)),
     mkMem lk os)
  end.

(** [NULL] is 0. *)
Definition pop (p : SlabPool) (m : Mem) (fast : bool) : res (Z * SlabPool * Mem) :=
  let node := free_head p in
  let! next := deref (links m !! node) in
  Ret (node, mkSlabPool (obj_size p) (alignment p) (page_size p) next (u64 (free_count p - 1)) (pages p) (page_count p)
               (u64 (total_allocated p + 1)) (total_freed p) (if fast then u64 (alloc_fast p + 1) else alloc_fast p) (alloc_slow p), m).

Definition slab_pool_alloc (p : SlabPool) (m : Mem) : res (Z * SlabPool * Mem) :=
  if negb (free_head p =? 0) then pop p m true
  else
    let '(p, m) := slab_pool_grow p m in
    if free_head p =? 0 then Ret (0, p, m) else pop p m false.

Definition slab_pool_free (p : SlabPool) (m : Mem) (ptr : Z) : SlabPool * Mem :=
  if ptr =? 0 then (p, m)
  else
    (mkSlabPool (obj_size p) (alignment p) (page_size p) ptr (u64 (free_count p + 1)) (pages p) (page_count p)
       (total_allocated p) (u64 (total_freed p + 1)) (alloc_fast p) (alloc_slow p),
     mkMem (<[ptr := free_head p]> (links m)) (os m)).

(** [out] is the filled part of the output; each round fills one entry. *)
Fixpoint bulk_loop (todo : nat) (p : SlabPool) (m : Mem) (out : list Z) : res (list Z * SlabPool * Mem) :=
  match todo with
  | O => Ret (out, p, m)
  | S todo =>
    let '(p, m) := if free_head p =? 0 then slab_pool_grow p m else (p, m) in
    if free_head p =? 0 then Ret (out, p, m)
    else
      let node := free_head p in
      let! next := deref (links m !! node) in
      bulk_loop todo (mkSlabPool (obj_size p) (alignment p) (page_size p) next (u64 (free_count p - 1)) (pages p)
                        (page_count p) (total_allocated p) (total_freed p) (alloc_fast p) (alloc_slow p)) m (out ++ [node])
  end.

Definition slab_pool_alloc_bulk (p : SlabPool) (m : Mem) (count : Z) : res (list Z * SlabPool * Mem) :=
  if count <=? 0 then Ret ([], p, m)
  else
    let! '(out, p, m) := bulk_loop (Z.to_nat count) p m [] in
    let got := zlen out in
    Ret (out, mkSlabPool (obj_size p) (alignment p) (page_size p) (free_head p) (free_count p) (pages p) (page_count p)
                (u64 (total_allocated p + got)) (total_freed p) (u64 (alloc_fast p + got)) (alloc_slow p), m).

(** Null entries are skipped, but [count] is what the counters grow by. *)
Fixpoint push_all (lk : gmap Z Z) (head : Z) (ptrs : list Z) : gmap Z Z * Z :=
  match ptrs with
  | [] => (lk, head)
  | p :: ptrs => if p =? 0 then push_all lk head ptrs else push_all (<[p := head]> lk) p ptrs
  end.

Definition slab_pool_free_bulk (p : SlabPool) (m : Mem) (ptrs : list Z) : SlabPool * Mem :=
  let '(lk, head) := push_all (links m) (free_head p) ptrs in
  (mkSlabPool (obj_size p) (alignment p) (page_size p) head (u64 (free_count p + zlen ptrs)) (pages p) (page_count p)
     (total_allocated p) (u64 (total_freed p + zlen ptrs)) (alloc_fast p) (alloc_slow p),
   mkMem lk (os m)).

(** ** The allocator *)

Definition slab_allocator_init : graveldb_status_t * SlabAllocator :=
  (GRAVELDB_OK, mkSlabAllocator (replicate 32 None) 0 true 0 0 0 0).

Definition set_pools (a : SlabAllocator) (ps : list (option Z)) (np : Z) : SlabAllocator :=
  mkSlabAllocator ps np (initialized a) (total_pages a) (total_bytes a) (large_allocs a) (large_bytes a).

(** [addr]: the answer of [calloc] for the pool. *)
Definition slab_pool_create (s : Slab) (osz align : Z) (addr : option Z) : res (option Z * Slab) :=
  let a := alloc s in
  if SLAB_MAX_POOLS <=? num_pools a then Ret (None, s)
  else
    let osz := if osz <? SLAB_MIN_OBJ_SIZE then SLAB_MIN_OBJ_SIZE else osz in
    let align := if align =? 0 then SLAB_DEFAULT_ALIGNMENT else align in
    let osz := u64 (u64 (osz + align - 1) / align * align) in
    match addr with
    | None => Ret (None, s)
    | Some pool =>
      let '(p, m) := slab_pool_grow (mkSlabPool osz align SLAB_PAGE_SIZE 0 0 [] 0 0 0 0 0) (mem s) in
      let! ps := wr (al_pools a) (num_pools a) (Some pool) in
      let a := mkSlabAllocator ps (num_pools a + 1) (initialized a) (u64 (total_pages a + page_count p))
                 (u64 (total_bytes a + page_count p * SLAB_PAGE_SIZE)) (large_allocs a) (large_bytes a) in
      Ret (Some pool, mkSlab a (<[pool := p]> (heap s)) m)
    end.

(** Finds the pool among the first [num_pools] slots and moves the last one to
    its place. *)
Fixpoint unregister (fuel : nat) (ps : list (option Z)) (np i pool : Z) : res (list (option Z) * Z) :=
  match fuel with
  | O => Ret (ps, np)
  | S fuel =>
    if i <? np then
      let! q := rd ps i in
      if bool_decide (q = Some pool) then
        let! lst := rd ps (np - 1) in
        let! ps := wr ps i lst in
        Ret (ps, np - 1)
      else unregister fuel ps np (i + 1) pool
    else Ret (ps, np)
  end.

(** The pool and its pages are freed: it leaves the heap. *)
Definition slab_pool_destroy (s : Slab) (pool : Z) : res Slab :=
  let! p := deref (heap s !! pool) in
  let a := alloc s in
  let k := zlen (pages p) in
  let a := mkSlabAllocator (al_pools a) (num_pools a) (initialized a) (u64 (total_pages a - k))
             (u64 (total_bytes a - k * SLAB_PAGE_SIZE)) (large_allocs a) (large_bytes a) in
  let! '(ps, np) := unregister (Z.to_nat (num_pools a)) (al_pools a) (num_pools a) 0 pool in
  Ret (mkSlab (set_pools a ps np) (delete pool (heap s)) (mem s)).

Fixpoint destroy_loop (fuel : nat) (s : Slab) (i : Z) : res Slab :=
  match fuel with
  | O => Ret s
  | S fuel =>
    if i <? num_pools (alloc s) then
      let! q := rd (al_pools (alloc s)) i in
      match q with
      | None => destroy_loop fuel s (i + 1)
      | Some pool =>
        let! s := slab_pool_destroy s pool in
        let! ps := wr (al_pools (alloc s)) i None in
        destroy_loop fuel (mkSlab (set_pools (alloc s) ps (num_pools (alloc s))) (heap s) (mem s)) (i + 1)
      end
    else Ret s
  end.

Definition slab_allocator_destroy (s : Slab) : res Slab :=
  let! s := destroy_loop (Z.to_nat (num_pools (alloc s))) s 0 in
  let a := alloc s in
  Ret (mkSlab (mkSlabAllocator (al_pools a) 0 false (total_pages a) (total_bytes a) (large_allocs a) (large_bytes a)) (heap s) (mem s)).

(** ** Size-based requests *)

Definition round_up (size align : Z) : Z := u64 (u64 (size + align - 1) / align * align).

(** The first registered pool that satisfies a test. *)
Fixpoint find_pool (ps : list (option Z)) (hp : gmap Z SlabPool) (test : SlabPool -> bool) : res (option Z) :=
  match ps with
  | [] => Ret None
  | None :: ps => find_pool ps hp test
  | Some q :: ps =>
    let! p := deref (hp !! q) in
    if test p then Ret (Some q) else find_pool ps hp test
  end.

Definition registered (a : SlabAllocator) : list (option Z) := take (Z.to_nat (num_pools a)) (al_pools a).

Definition min_size (z : Z) : Z := if z <? SLAB_MIN_OBJ_SIZE then SLAB_MIN_OBJ_SIZE else z.

Definition slab_find_or_create_pool (s : Slab) (size : Z) (addr : option Z) : res (option Z * Slab) :=
  let aligned_size := min_size (round_up size SLAB_DEFAULT_ALIGNMENT) in
  let! r := find_pool (registered (alloc s)) (heap s) (fun p => obj_size p =? aligned_size) in
  match r with
  | Some q => Ret (Some q, s)
  | None => slab_pool_create s size SLAB_DEFAULT_ALIGNMENT addr
  end.

Definition set_large (a : SlabAllocator) (n b : Z) : SlabAllocator :=
  mkSlabAllocator (al_pools a) (num_pools a) (initialized a) (total_pages a) (total_bytes a) (u64 n) (u64 b).

(** An allocation in a pool of the heap. *)
Definition alloc_in (s : Slab) (q : Z) : res (Z * Slab) :=
  let! p := deref (heap s !! q) in
  let! '(ptr, p, m) := slab_pool_alloc p (mem s) in
  Ret (ptr, mkSlab (alloc s) (<[q := p]> (heap s)) m).

Definition free_in (s : Slab) (q ptr : Z) : res Slab :=
  let! p := deref (heap s !! q) in
  let '(p, m) := slab_pool_free p (mem s) ptr in
  Ret (mkSlab (alloc s) (<[q := p]> (heap s)) m).

(** [sys]: the answer of the fallback allocation, 0 when it fails. *)
Definition slab_alloc (s : Slab) (size : Z) (addr : option Z) (sys : Z) : res (Z * Slab) :=
  if size =? 0 then Ret (0, s)
  else
    let! '(q, s) := slab_find_or_create_pool s size addr in
    match q with
    | Some q => alloc_in s q
    | None =>
      let a := alloc s in
      Ret (sys, if sys =? 0 then s else mkSlab (set_large a (large_allocs a + 1) (large_bytes a + size)) (heap s) (mem s))
    end.

Definition slab_free (s : Slab) (ptr size : Z) : res Slab :=
  if ptr =? 0 then Ret s
  else
    let aligned_size := min_size (round_up size SLAB_DEFAULT_ALIGNMENT) in
    let! r := find_pool (registered (alloc s)) (heap s) (fun p => obj_size p =? aligned_size) in
    match r with
    | Some q => free_in s q ptr
    | None => let a := alloc s in
              Ret (mkSlab (set_large a (large_allocs a - 1) (large_bytes a - size)) (heap s) (mem s))
    end.

Definition slab_alloc_aligned (s : Slab) (size align : Z) (addr : option Z) (sys : Z) : res (Z * Slab) :=
  let aligned_size := min_size (round_up size align) in
  let! r := find_pool (registered (alloc s)) (heap s)
              (fun p => (obj_size p =? aligned_size) && (align <=? alignment p)) in
  match r with
  | Some q => alloc_in s q
  | None =>
    let! '(q, s) := if aligned_size <=? SLAB_PAGE_SIZE / 4 then slab_pool_create s size align addr else Ret (None, s) in
    match q with
    | Some q => alloc_in s q
    | None =>
      let a := alloc s in
      Ret (sys, if sys =? 0 then s else mkSlab (set_large a (large_allocs a + 1) (large_bytes a + size)) (heap s) (mem s))
    end
  end.

(** The pointer lies in a page of the pool. *)
Definition owns (ptr : Z) (p : SlabPool) : bool :=
  existsb (fun pg => (base pg <=? ptr) && (ptr <? base pg + page_size p)) (pages p).

Definition slab_free_aligned (s : Slab) (ptr size : Z) : res Slab :=
  if ptr =? 0 then Ret s
  else
    let! r := find_pool (registered (alloc s)) (heap s) (fun p => (size <=? obj_size p) && owns ptr p) in
    match r with
    | Some q => free_in s q ptr
    | None => let a := alloc s in
              Ret (mkSlab (set_large a (large_allocs a - 1) (large_bytes a - size)) (heap s) (mem s))
    end.

(** One row of [SlabAllocStats]. *)
Definition pool_stats (p : SlabPool) : Z * Z * Z * Z * Z * Z * Z * Z :=
  (obj_size p, alignment p, total_allocated p, total_freed p, free_count p, alloc_fast p, alloc_slow p, page_count p).

Record SlabAllocStats : Type := mkSlabAllocStats {
  st_total_pages : Z; st_total_bytes_from_os : Z; st_large_alloc_count : Z; st_large_alloc_bytes : Z;
  st_num_pools : Z; st_pools : list (option (Z * Z * Z * Z * Z * Z * Z * Z))
}.

(** [None] is a row left at zero. *)
Definition slab_allocator_stats (s : Slab) : SlabAllocStats :=
  let a := alloc s in
  mkSlabAllocStats (total_pages a) (total_bytes a) (large_allocs a) (large_bytes a) (num_pools a)
    ((fun q => q ≫= (fun q => pool_stats <$> heap s !! q)) <$> registered a).

(** ** Invariant of a pool *)

(** The list threaded through [lk] from [h] is [L], null terminated. *)
Fixpoint chain (lk : gmap Z Z) (h : Z) (L : list Z) : Prop :=
  match L with
  | [] => h = 0
  | a :: L => h = a /\ a <> 0 /\ exists nx, lk !! a = Some nx /\ chain lk nx L
  end.

(** The objects of a page. *)
Definition objects (sz : Z) (pg : SlabPage) : list Z := (fun i => base pg + Z.of_nat i * sz) <$> seq 0 (Z.to_nat (total_objects pg)).

Definition all_objects (p : SlabPool) : list Z := flat_map (objects (obj_size p)) (pages p).

(** [A] are the objects handed out: with the free list they are all objects,
    and no object is listed twice. *)
Record pool_inv (p : SlabPool) (lk : gmap Z Z) (A : list Z) : Prop := {
  pi_size : 0 < obj_size p <= page_size p;
  pi_page : page_size p < 2 ^ 32;
  pi_free : exists L, chain lk (free_head p) L /\ L ++ A ≡ₚ all_objects p /\ free_count p = zlen L;
  pi_nodup : NoDup (all_objects p);
  pi_nonnull : forall a, a ∈ all_objects p -> 0 < a;
  pi_bound : zlen (all_objects p) < 2 ^ 63;
  pi_pages : forall pg, pg ∈ pages p -> total_objects pg = page_size p / obj_size p
}.

Lemma chain_frame lk lk' h L : chain lk h L -> (forall a, a ∈ L -> lk' !! a = lk !! a) -> chain lk' h L.
Proof.
  revert h. induction L as [|a L IH]; intros h; simpl; [done|]. intros (-> & Hne & nx & Hnx & HL) Hfr.
  split_and!; auto. exists nx. rewrite Hfr by set_solver. split; auto. apply IH; auto. set_solver.
Qed.

Lemma chain_push lk h L a : chain lk h L -> a <> 0 -> a ∉ L -> chain (<[a := h]> lk) a (a :: L).
Proof.
  intros HL Hne Hnin. split_and!; auto. exists h. rewrite lookup_insert_eq. split; auto.
  eapply chain_frame; eauto. intros b Hb. apply lookup_insert_ne. set_solver.
Qed.

(** ** Growing *)

(** What [posix_memalign] promises for the next page: an address that is not
    null and a block that shares nothing with the pool's objects. *)
Definition fresh_page (p : SlabPool) (b : Z) : Prop :=
  0 < b /\ forall i, 0 <= i < page_size p / obj_size p -> b + i * obj_size p ∉ all_objects p.

Lemma push_all_spec lk h L ptrs :
  chain lk h L -> NoDup ptrs -> (forall a, a ∈ ptrs -> 0 < a /\ a ∉ L) ->
  chain (fst (push_all lk h ptrs)) (snd (push_all lk h ptrs)) (reverse ptrs ++ L) /\
  forall a, a ∉ ptrs -> fst (push_all lk h ptrs) !! a = lk !! a.
Proof.
  revert lk h L. induction ptrs as [|a ptrs IH]; intros lk h L HL Hnd Hp; simpl; [done|].
  apply NoDup_cons in Hnd as [Ha Hnd]. destruct (Hp a) as [Hpos HaL]; [set_solver|]. zdec.
  destruct (IH (<[a := h]> lk) a (a :: L)) as [H1 H2]; auto.
  - apply chain_push; auto. lia.
  - intros b Hb. destruct (Hp b) as [? ?]; [set_solver|]. split; auto. set_solver.
  - rewrite reverse_cons, <- app_assoc. split; auto. intros b Hb. rewrite H2 by set_solver.
    apply lookup_insert_ne. set_solver.
Qed.

Lemma carve_push k lk b sz i h :
  0 < b -> 0 < sz -> 0 <= i ->
  carve k lk b sz i h = push_all lk h ((fun j => b + (i + Z.of_nat j) * sz) <$> seq 0 k).
Proof.
  intros Hb Hsz. revert lk i h. induction k as [|k IH]; intros lk i h Hi; [done|]. cbn [carve].
  rewrite IH by lia. cbn [seq]. rewrite fmap_cons. cbn [push_all].
  assert (b + (i + Z.of_nat 0) * sz = b + i * sz) as -> by lia.
  assert (b + i * sz <> 0) by nia. zdec. f_equal.
  rewrite <- fmap_S_seq, <- list_fmap_compose. apply list_fmap_ext. intros j x _. simpl. lia.
Qed.

Lemma objects_elem sz pg a : a ∈ objects sz pg <-> exists i, 0 <= i < total_objects pg /\ a = base pg + i * sz.
Proof.
  unfold objects. rewrite list_elem_of_fmap. split.
  - intros (i & -> & Hi%elem_of_seq). exists (Z.of_nat i). split; [lia|done].
  - intros (i & Hi & ->). exists (Z.to_nat i). rewrite elem_of_seq. split; [by rewrite Z2Nat.id by lia|lia].
Qed.

Lemma objects_NoDup sz pg : 0 < sz -> NoDup (objects sz pg).
Proof. intros. apply NoDup_fmap_2_strong; [|apply NoDup_seq]. intros i j _ _ E. nia. Qed.

Lemma zlen_objects sz pg : 0 <= total_objects pg -> zlen (objects sz pg) = total_objects pg.
Proof. intros. unfold zlen, objects. rewrite length_fmap, length_seq. lia. Qed.

(** The objects of a page at [b]. *)
Definition page_objects (p : SlabPool) (b : Z) : list Z :=
  objects (obj_size p) (mkSlabPage b (obj_size p) (page_size p / obj_size p) (page_size p / obj_size p)).

(** The state after a successful growth: [k] new objects on the free list. *)
Lemma slab_pool_grow_spec p m A b os' :
  pool_inv p (links m) A -> os m = Some b :: os' -> fresh_page p b ->
  zlen (all_objects p) + page_size p / obj_size p < 2 ^ 63 ->
  let '(p', m') := slab_pool_grow p m in
  pool_inv p' (links m') A /\ os m' = os' /\ free_head p' <> 0 /\
  obj_size p' = obj_size p /\ total_allocated p' = total_allocated p /\ total_freed p' = total_freed p /\
  page_size p' = page_size p /\ all_objects p' = page_objects p b ++ all_objects p /\
  (forall a, a ∈ A -> links m' !! a = links m !! a).
Proof.
  intros [Hsz Hps (L & HL & Hperm & Hcnt) Hnd Hnn Hbd Hpg] Hos [Hb Hfr] Hroom.
  unfold slab_pool_grow, slab_page_create. rewrite Hos. cbn [base total_objects pg_obj_size].
  set (k := page_size p / obj_size p) in *.
  assert (1 <= k) as Hk1 by (apply Z.div_le_lower_bound; lia).
  assert (k <= page_size p) as Hkp by (apply Z.div_le_upper_bound; nia).
  rewrite u32_id by lia. rewrite carve_push by lia.
  set (pg := mkSlabPage b (obj_size p) k k).
  assert (((fun j => b + (0 + Z.of_nat j) * obj_size p) <$> seq 0 (Z.to_nat k)) = objects (obj_size p) pg) as -> by done.
  assert (forall a, a ∈ objects (obj_size p) pg -> 0 < a /\ a ∉ all_objects p) as Hnew.
  { intros a (i & Hi & ->)%objects_elem. simpl in *. split; [nia|by apply Hfr]. }
  assert (forall a, a ∈ L -> a ∈ all_objects p) as HLin by (intros a Ha; rewrite <- Hperm; set_solver).
  assert (forall a, a ∈ A -> a ∈ all_objects p) as HAin by (intros a Ha; rewrite <- Hperm; set_solver).
  destruct (push_all_spec (links m) (free_head p) L (objects (obj_size p) pg)) as [Hc Hf]; auto.
  { apply objects_NoDup. lia. }
  { intros a Ha. apply Hnew in Ha as [? Ha]. split; auto. }
  destruct (push_all (links m) (free_head p) (objects (obj_size p) pg)) as [lk h]. cbn [fst snd] in Hc, Hf.
  assert (zlen (objects (obj_size p) pg) = k) as Hzk by (apply zlen_objects; simpl; lia).
  assert (zlen L <= zlen (all_objects p)) as HzL by (unfold zlen; rewrite <- Hperm, length_app; lia).
  set (p' := mkSlabPool _ _ _ _ _ _ _ _ _ _ _).
  assert (all_objects p' = objects (obj_size p) pg ++ all_objects p) as Hall by done.
  split_and!; cbn [links os free_head obj_size total_allocated total_freed]; auto.
  - constructor; cbn [obj_size page_size free_head free_count]; auto.
    + exists (reverse (objects (obj_size p) pg) ++ L). split; [done|]. split.
      * rewrite Hall. rewrite <- app_assoc, Hperm. by rewrite reverse_Permutation.
      * unfold p'. cbn [free_count]. rewrite u64_id; rewrite ?zlen_app; unfold zlen in *; rewrite ?length_reverse; lia.
    + rewrite Hall. apply NoDup_app. split_and!; auto; [apply objects_NoDup; lia|]. intros a Ha. by apply Hnew in Ha as [_ ?].
    + rewrite Hall. intros a [Ha|Ha]%elem_of_app; [by apply Hnew in Ha as [? _]|auto].
    + rewrite Hall, zlen_app. lia.
    + intros pg' [->|Hin]%elem_of_cons; [done|auto].
  - destruct (reverse (objects (obj_size p) pg)) as [|a R] eqn:ER; simpl in Hc.
    + apply (f_equal length) in ER. rewrite length_reverse in ER. unfold zlen in Hzk. cbn [length] in ER. lia.
    + destruct Hc as (-> & ? & _). done.
  - intros a Ha. apply Hf. intros Hn. apply Hnew in Hn as [_ Hn]. by apply Hn, HAin.
Qed.

(** ** Taking an object *)

(** [p'] is [p] after the head of the free list was taken. *)
Definition took (p p' : SlabPool) (next : Z) : Prop :=
  obj_size p' = obj_size p /\ page_size p' = page_size p /\ pages p' = pages p /\
  free_head p' = next /\ free_count p' = u64 (free_count p - 1).

Lemma took_inv p lk A :
  pool_inv p lk A -> free_head p <> 0 ->
  exists next, lk !! free_head p = Some next /\ free_head p ∈ all_objects p /\ ~ (free_head p ∈ A) /\
    (forall p', took p p' next -> pool_inv p' lk (free_head p :: A) /\ all_objects p' = all_objects p).
Proof.
  intros [Hsz Hps (L & HL & Hperm & Hcnt) Hnd Hnn Hbd Hpg] Hne.
  destruct L as [|a L]; simpl in HL; [done|]. destruct HL as (Ea & _ & nx & Hnx & HL). rewrite Ea in *.
  exists nx. assert (NoDup ((a :: L) ++ A)) as Hnd' by (by rewrite Hperm).
  simpl in Hnd'. apply NoDup_cons in Hnd' as [Hni Hnd']. split_and!; auto.
  - rewrite <- Hperm. set_solver.
  - set_solver.
  - intros p' (E1 & E2 & E3 & E4 & E5).
    assert (all_objects p' = all_objects p) as Hall by (unfold all_objects; by rewrite E1, E3).
    split; [|done]. constructor; rewrite ?E1, ?E2, ?E3, ?Hall; auto. exists L. rewrite E4, E5. split_and!; auto.
    + rewrite <- Hperm. simpl. by rewrite Permutation_middle.
    + rewrite Hcnt. assert (zlen (a :: L) <= zlen (all_objects p)) by (unfold zlen; rewrite <- Hperm, length_app; lia).
      unfold zlen in *. cbn [length] in *. rewrite u64_id; lia.
Qed.

(** What the operating system promises for its answers: addresses that are not
    null, of blocks that share nothing with each other or with [objs]. *)
Fixpoint os_fresh (p : SlabPool) (objs : list Z) (os : list (option Z)) : Prop :=
  match os with
  | [] => True
  | None :: os => os_fresh p objs os
  | Some b :: os =>
    0 < b /\ (forall i, 0 <= i < page_size p / obj_size p -> b + i * obj_size p ∉ objs) /\
    os_fresh p (page_objects p b ++ objs) os
  end.

(** The answers are fresh and leave the counters below [2^63]. *)
Definition os_ok (p : SlabPool) (os : list (option Z)) : Prop :=
  os_fresh p (all_objects p) os /\ zlen (all_objects p) + zlen os * (page_size p / obj_size p) < 2 ^ 63.

Lemma os_fresh_ext p p' objs os :
  obj_size p' = obj_size p -> page_size p' = page_size p -> os_fresh p objs os -> os_fresh p' objs os.
Proof.
  intros E1 E2. revert objs. induction os as [|[b|] os IH]; intros objs; simpl; auto.
  rewrite E1, E2. intros (? & ? & H). split_and!; auto. unfold page_objects in *. rewrite E1, E2. by apply IH.
Qed.

Lemma took_os_ok p p' next os : took p p' next -> os_ok p os -> os_ok p' os.
Proof.
  intros (E1 & E2 & E3 & _) [H1 H2]. assert (all_objects p' = all_objects p) as Hall by (unfold all_objects; by rewrite E1, E3).
  split; rewrite ?Hall, ?E1, ?E2; auto. by eapply os_fresh_ext.
Qed.

(** Growing: a new page, or the same pool when the system refuses. *)
Definition grew (p : SlabPool) (m : Mem) (A : list Z) (p' : SlabPool) (m' : Mem) : Prop :=
  pool_inv p' (links m') A /\ os_ok p' (os m') /\ obj_size p' = obj_size p /\ page_size p' = page_size p /\
  total_allocated p' = total_allocated p /\ total_freed p' = total_freed p /\
  (forall a, a ∈ A -> links m' !! a = links m !! a) /\
  ((os m = None :: os m' \/ (os m = [] /\ os m' = [])) /\ p' = p \/
   (exists b, os m = Some b :: os m') /\ free_head p' <> 0).

Lemma slab_pool_grow_ok p m A :
  pool_inv p (links m) A -> os_ok p (os m) ->
  exists p' m', slab_pool_grow p m = (p', m') /\ grew p m A p' m'.
Proof.
  intros Hinv [Hf Hr]. destruct (os m) as [|[b|] os'] eqn:Eos; simpl in Hf.
  - unfold slab_pool_grow, slab_page_create. rewrite Eos. eexists _, _. split; [done|].
    unfold grew. cbn [links os]. split_and!; auto. split; done.
  - destruct Hf as (Hb & Hfr & Hf').
    assert (1 <= page_size p / obj_size p) by (destruct Hinv; apply Z.div_le_lower_bound; lia).
    unfold zlen in Hr. cbn [length] in Hr.
    pose proof (slab_pool_grow_spec p m A b os' Hinv Eos ltac:(by split) ltac:(unfold zlen; nia)) as H2.
    destruct (slab_pool_grow p m) as [p' m']. destruct H2 as (H2 & H3 & H4 & H5 & H6 & H7 & H8 & H9 & H10).
    exists p', m'. split; [done|]. unfold grew. rewrite H3. split_and!; auto; [|right; eauto].
    split.
    + rewrite H9. eapply os_fresh_ext; [| |exact Hf']; auto.
    + rewrite H9, H5, H8, zlen_app. unfold page_objects. rewrite zlen_objects by (simpl; lia). simpl. unfold zlen. nia.
  - unfold slab_pool_grow, slab_page_create. rewrite Eos. eexists _, _. split; [done|].
    unfold grew. cbn [links os]. split_and!; auto. split; auto. unfold zlen in *. cbn [length] in Hr.
    assert (0 <= page_size p / obj_size p) by (destruct Hinv; apply Z.div_pos; lia). nia.
Qed.

(** ** Properties of pools *)

(** C27: an allocation from a pool whose objects are not larger than its pages returns an object of the
    pool's pages that is not handed out already, or null exactly when the free list is empty and the
    system refuses a page; the objects handed out before are not written. *)
Theorem slab_pool_alloc_correct p m A :
  pool_inv p (links m) A -> os_ok p (os m) ->
  exists ptr p' m', slab_pool_alloc p m = Ret (ptr, p', m') /\ os_ok p' (os m') /\
    (forall a, a ∈ A -> links m' !! a = links m !! a) /\
    (ptr = 0 /\ pool_inv p' (links m') A /\ free_head p = 0 /\ (os m = None :: os m' \/ os m = []) \/
     ptr <> 0 /\ pool_inv p' (links m') (ptr :: A) /\ ptr ∈ all_objects p' /\ ptr ∉ A).
Proof.
  intros Hinv Hos. unfold slab_pool_alloc. destruct (Z.eqb_spec (free_head p) 0) as [H0|H0]; cbn [negb].
  - destruct (slab_pool_grow_ok p m A Hinv Hos) as (p1 & m1 & -> & H1 & H2 & _ & _ & _ & _ & H7 & H8).
    destruct (Z.eqb_spec (free_head p1) 0) as [Hz|Hz].
    + exists 0, p1, m1. split_and!; auto. left. split_and!; auto. destruct H8 as [(Hr & _)|(_ & ?)]; [destruct Hr as [Hr|(Hr & _)]; auto|done].
    + destruct (took_inv p1 (links m1) A H1 Hz) as (nx & Hnx & Hin & Hni & Hp). unfold pop. rewrite Hnx. cbn [deref res_bind].
      set (p2 := mkSlabPool _ _ _ _ _ _ _ _ _ _ _). assert (took p1 p2 nx) as Ht by done.
      destruct (Hp p2 Ht) as [Hi Ha]. exists (free_head p1), p2, m1. split; [done|].
      split; [by eapply took_os_ok|]. split; [done|]. right. rewrite Ha. auto.
  - destruct (took_inv p (links m) A Hinv H0) as (nx & Hnx & Hin & Hni & Hp). unfold pop. rewrite Hnx. cbn [deref res_bind].
    set (p2 := mkSlabPool _ _ _ _ _ _ _ _ _ _ _). assert (took p p2 nx) as Ht by done.
    destruct (Hp p2 Ht) as [Hi Ha]. exists (free_head p), p2, m. split; [done|].
    split; [by eapply took_os_ok|]. split; [done|]. right. rewrite Ha. auto.
Qed.

(** One object pushed back. *)
Lemma push_inv p p' lk A ptrs :
  pool_inv p lk (ptrs ++ A) ->
  obj_size p' = obj_size p -> page_size p' = page_size p -> pages p' = pages p ->
  free_head p' = snd (push_all lk (free_head p) ptrs) -> free_count p' = u64 (free_count p + zlen ptrs) ->
  pool_inv p' (fst (push_all lk (free_head p) ptrs)) A /\
  (forall a, a ∈ A -> fst (push_all lk (free_head p) ptrs) !! a = lk !! a).
Proof.
  intros [Hsz Hps (L & HL & Hperm & Hcnt) Hnd Hnn Hbd Hpg] E1 E2 E3 E4 E5.
  assert (all_objects p' = all_objects p) as Hall by (unfold all_objects; by rewrite E1, E3).
  assert (NoDup (L ++ ptrs ++ A)) as Hnd' by (by rewrite Hperm).
  apply NoDup_app in Hnd' as (HndL & HdL & (Hndp & Hdp & HndA)%NoDup_app).
  destruct (push_all_spec lk (free_head p) L ptrs) as [Hc Hf]; auto.
  { intros a Ha. split; [apply Hnn; rewrite <- Hperm; set_solver|]. intros HaL. apply (HdL a HaL). set_solver. }
  split; [constructor; rewrite ?E1, ?E2, ?E3, ?Hall; auto|].
  - exists (reverse ptrs ++ L). rewrite E4, E5. split_and!; auto.
    + rewrite reverse_Permutation, <- Hperm, <- app_assoc. rewrite (Permutation_app_comm ptrs), <- app_assoc.
      by rewrite (Permutation_app_comm A).
    + assert (zlen L + zlen ptrs <= zlen (all_objects p)) by (unfold zlen; rewrite <- Hperm, !length_app; lia).
      rewrite Hcnt, u64_id; rewrite ?zlen_app; unfold zlen in *; rewrite ?length_reverse; lia.
  - intros a Ha. apply Hf. intros Hp. by apply (Hdp a Hp).
Qed.

(** Freeing an object that was handed out puts it back on the free list:
    the pool holds the remaining objects and their contents. *)
Theorem slab_pool_free_correct p m A ptr :
  pool_inv p (links m) (ptr :: A) ->
  let '(p', m') := slab_pool_free p m ptr in
  pool_inv p' (links m') A /\ free_head p' = ptr /\ total_freed p' = u64 (total_freed p + 1) /\
  (forall a, a ∈ A -> links m' !! a = links m !! a).
Proof.
  intros Hinv. unfold slab_pool_free.
  assert (0 < ptr) as Hpos.
  { destruct Hinv as [_ _ (L & _ & Hperm & _) _ Hnn _ _]. apply Hnn. rewrite <- Hperm. set_solver. }
  zdec. set (p' := mkSlabPool _ _ _ _ _ _ _ _ _ _ _).
  destruct (push_inv p p' (links m) A [ptr]) as [H1 H2]; auto; simpl in *; [by zdec|].
  revert H1 H2. zdec. auto.
Qed.

Lemma bulk_loop_spec todo p m A out :
  pool_inv p (links m) (reverse out ++ A) -> os_ok p (os m) ->
  exists out' p' m', bulk_loop todo p m out = Ret (out', p', m') /\
    pool_inv p' (links m') (reverse out' ++ A) /\ os_ok p' (os m') /\
    (exists got, out' = out ++ got /\ (length got <= todo)%nat /\
       (Forall is_Some (os m) -> (todo <= length (os m))%nat -> length got = todo)) /\
    (forall a, a ∈ reverse out ++ A -> links m' !! a = links m !! a).
Proof.
  revert p m out. induction todo as [|todo IH]; intros p m out Hinv Hos; cbn [bulk_loop].
  { exists out, p, m. split; [done|]. split; [done|]. split; [done|]. split; [|done]. exists []. by rewrite app_nil_r. }
  assert (exists p1 m1, (if free_head p =? 0 then slab_pool_grow p m else (p, m)) = (p1, m1) /\
    pool_inv p1 (links m1) (reverse out ++ A) /\ os_ok p1 (os m1) /\
    (Forall is_Some (os m) -> (S todo <= length (os m))%nat -> free_head p1 <> 0 /\ (todo <= length (os m1))%nat /\ Forall is_Some (os m1)) /\
    (forall a, a ∈ reverse out ++ A -> links m1 !! a = links m !! a)) as (p1 & m1 & -> & Hi1 & Ho1 & Hs1 & Hf1).
  { destruct (Z.eqb_spec (free_head p) 0) as [H0|H0].
    - destruct (slab_pool_grow_ok p m _ Hinv Hos) as (p1 & m1 & -> & H1 & H2 & _ & _ & _ & _ & H7 & H8).
      exists p1, m1. split; [done|]. split; [done|]. split; [done|]. split; [|done]. intros HF Hl.
      destruct H8 as [(Hr & _)|((b & Hr) & Hne)].
      + destruct Hr as [Hr|(Hr & _)]; rewrite Hr in HF, Hl; [|simpl in Hl; lia].
        apply Forall_cons in HF as [HF _]. by destruct HF.
      + rewrite Hr in HF, Hl. apply Forall_cons in HF as [_ HF]. simpl in Hl. split_and!; auto. lia.
    - exists p, m. split; [done|]. split; [done|]. split; [done|]. split; [|done]. intros HF Hl. split_and!; auto. lia. }
  destruct (Z.eqb_spec (free_head p1) 0) as [Hz|Hz].
  { exists out, p1, m1. split; [done|]. split; [done|]. split; [done|]. split; [|done].
    exists []. rewrite app_nil_r. split_and!; [done|simpl; lia|]. intros HF Hl. by destruct (Hs1 HF Hl). }
  destruct (took_inv p1 (links m1) _ Hi1 Hz) as (nx & Hnx & Hin & Hni & Hp). rewrite Hnx. cbn [deref res_bind].
  set (p2 := mkSlabPool _ _ _ _ _ _ _ _ _ _ _). assert (took p1 p2 nx) as Ht by done. destruct (Hp p2 Ht) as [Hi2 Ha2].
  assert (reverse (out ++ [free_head p1]) ++ A = free_head p1 :: reverse out ++ A) as Hrev by (by rewrite reverse_app).
  destruct (IH p2 m1 (out ++ [free_head p1])) as (out' & p' & m' & -> & H1 & H2 & (got & -> & Hg1 & Hg2) & H4).
  { by rewrite Hrev. }
  { by eapply took_os_ok. }
  eexists _, p', m'. split; [done|]. split; [done|]. split; [done|]. split.
  - exists (free_head p1 :: got). rewrite <- app_assoc. split_and!; auto; [simpl; lia|].
    intros HF Hl. destruct (Hs1 HF Hl) as (_ & Hl1 & HF1). simpl. by rewrite Hg2.
  - intros a Ha. rewrite H4 by (rewrite Hrev; set_solver). by apply Hf1.
Qed.

(** A bulk allocation returns at most [count] objects, all different and
    none handed out before, and all [count] when the system grants every page. *)
Theorem slab_pool_alloc_bulk_correct p m A count :
  pool_inv p (links m) A -> os_ok p (os m) -> 0 < count ->
  exists out p' m', slab_pool_alloc_bulk p m count = Ret (out, p', m') /\
    pool_inv p' (links m') (reverse out ++ A) /\ NoDup out /\ (forall a, a ∈ out -> a ∉ A) /\
    zlen out <= count /\ (Forall is_Some (os m) -> count <= zlen (os m) -> zlen out = count) /\
    (forall a, a ∈ A -> links m' !! a = links m !! a).
Proof.
  intros Hinv Hos Hc. unfold slab_pool_alloc_bulk. zdec.
  destruct (bulk_loop_spec (Z.to_nat count) p m A []) as (out & p' & m' & -> & H1 & H2 & (got & E & Hg1 & Hg2) & H4); auto.
  simpl in E. subst got. cbn [res_bind].
  assert (NoDup (reverse out ++ A)) as Hnd.
  { destruct H1 as [_ _ (L & _ & Hperm & _) Hnd _ _ _]. rewrite <- Hperm in Hnd. by apply NoDup_app in Hnd as (_ & _ & ?). }
  apply NoDup_app in Hnd as (Hnd & Hdis & _).
  eexists out, _, m'. split; [done|]. split; [by destruct H1; constructor|]. split_and!.
  - by rewrite reverse_Permutation in Hnd.
  - intros a Ha. apply Hdis. by apply elem_of_reverse.
  - unfold zlen. lia.
  - intros HF Hl. unfold zlen in *. rewrite Hg2; auto; lia.
  - intros a Ha. apply H4. set_solver.
Qed.

Lemma chain_det lk h L L' : chain lk h L -> chain lk h L' -> L = L'.
Proof.
  revert h L'. induction L as [|a L IH]; intros h [|a' L'] H1 H2; simpl in *; naive_solver.
Qed.

(** a bulk free that is given a null entry breaks the pool: the entry is
    skipped but counted, so [free_count] no longer is the length of the free
    list. Without null entries a bulk free returns exactly the objects. *)
Theorem slab_pool_free_bulk_correct p m A ptrs :
  pool_inv p (links m) (ptrs ++ A) ->
  (let '(p', m') := slab_pool_free_bulk p m ptrs in pool_inv p' (links m') A) /\
  (let '(p', m') := slab_pool_free_bulk p m [0] in forall A', ~ pool_inv p' (links m') A').
Proof.
  intros Hinv. split.
  - unfold slab_pool_free_bulk. destruct (push_all (links m) (free_head p) ptrs) as [lk h] eqn:E.
    set (p' := mkSlabPool _ _ _ _ _ _ _ _ _ _ _).
    destruct (push_inv p p' (links m) A ptrs) as [H1 _]; auto; rewrite E in *; done.
  - destruct Hinv as [_ _ (L & HL & Hperm & Hcnt) _ _ Hbd _]. simpl. intros A' [_ _ (L' & HL' & _ & Hcnt') _ _ _ _].
    cbn [free_head free_count] in *. assert (L' = L) by (by eapply chain_det). subst L'.
    assert (zlen L <= zlen (all_objects p)) by (unfold zlen; rewrite <- Hperm, length_app; lia).
    rewrite Hcnt, u64_id in Hcnt' by (change (zlen [0]) with 1; pose proof (zlen_nonneg L); lia).
    change (zlen [0]) with 1 in Hcnt'. lia.
Qed.

(** ** The allocator *)

(** Three pools, created one after the other on an empty allocator. *)
Definition three_pools : res Slab :=
  let s := mkSlab (snd slab_allocator_init) ∅ (mkMem ∅ [Some 65536; Some 131072; Some 196608]) in
  let! '(_, s) := slab_pool_create s 16384 4096 (Some 1000) in
  let! '(_, s) := slab_pool_create s 32768 4096 (Some 2000) in
  let! '(_, s) := slab_pool_create s 65536 4096 (Some 3000) in
  Ret s.

(** destroying the allocator leaks pools. [slab_pool_destroy] moves the last
    pool into the slot of the destroyed one, and the loop of
    [slab_allocator_destroy] then clears that slot: of three pools the last is
    never freed, while the allocator ends with no pools registered. *)
Theorem slab_allocator_destroy_leaks :
  (let! s := three_pools in
   let! s' := slab_allocator_destroy s in
   Ret (registered (alloc s), fst <$> map_to_list (heap s'), num_pools (alloc s')))
  = Ret ([Some 1000; Some 2000; Some 3000], [3000], 0).
Proof. vm_compute. reflexivity. Qed.

(** the allocator's page statistics underflow. Pages added after the
    creation of a pool are not counted, but destroying the pool subtracts all
    its pages: a pool that grew once leaves [total_pages] at [2^64 - 1]. *)
Theorem slab_stats_underflow :
  (let s := mkSlab (snd slab_allocator_init) ∅ (mkMem ∅ [Some 65536; Some 131072]) in
   let! '(_, s) := slab_pool_create s 65536 4096 (Some 1000) in
   let! '(a, s) := slab_alloc_aligned s 65536 4096 None 0 in
   let! '(b, s) := slab_alloc_aligned s 65536 4096 None 0 in
   let! s := slab_free_aligned s a 65536 in
   let! s := slab_free_aligned s b 65536 in
   let! s := slab_pool_destroy s 1000 in
   Ret (a, b, st_total_pages (slab_allocator_stats s), st_total_bytes_from_os (slab_allocator_stats s)))
  = Ret (65536, 131072, 2 ^ 64 - 1, 2 ^ 64 - 65536).
Proof. vm_compute. reflexivity. Qed.

(** ** Witnesses *)

(** A pool of 16 KB objects with one page, one object handed out. *)
Definition p0 : SlabPool := mkSlabPool 16384 4096 65536 0 0 [] 0 0 0 0 0.
Definition m0 : Mem := mkMem ∅ [Some 65536; Some 131072].

Lemma p0_inv : pool_inv p0 (links m0) [].
Proof.
  constructor; simpl; try lia; try done.
  - exists []. done.
  - constructor.
  - intros a Ha. by apply elem_of_nil in Ha.
  - intros pg Hpg. by apply elem_of_nil in Hpg.
Qed.

Lemma p0_os : os_ok p0 (os m0).
Proof.
  split; [|vm_compute; done]. cbn [m0 os os_fresh]. change (all_objects p0) with (@nil Z).
  change (obj_size p0) with 16384. change (page_size p0 / 16384) with 4.
  split; [lia|]. split; [intros i Hi; apply not_elem_of_nil|]. split; [lia|]. split; [|done].
  intros i Hi [(j & Hj & E)%objects_elem|Ha%elem_of_nil]%elem_of_app; [|done].
  cbn [total_objects base] in *. change (page_size p0 / obj_size p0) with 4 in Hj. change (obj_size p0) with 16384 in E. lia.
Qed.

Lemma slab_pool_alloc_correct_witness :
  exists ptr p' m', slab_pool_alloc p0 m0 = Ret (ptr, p', m') /\ os_ok p' (os m') /\
    (forall a, a ∈ [] -> links m' !! a = links m0 !! a) /\
    (ptr = 0 /\ pool_inv p' (links m') [] /\ free_head p0 = 0 /\ (os m0 = None :: os m' \/ os m0 = []) \/
     ptr <> 0 /\ pool_inv p' (links m') [ptr] /\ ptr ∈ all_objects p' /\ ptr ∉ []).
Proof. apply (slab_pool_alloc_correct p0 m0 []); [apply p0_inv | apply p0_os]. Defined.

(** A pool whose four objects are all handed out. *)
Definition p1 : SlabPool := mkSlabPool 16384 4096 65536 0 0 [mkSlabPage 65536 16384 4 4] 1 4 0 4 1.

Lemma p1_inv : pool_inv p1 (links m0) [65536; 81920; 98304; 114688].
Proof.
  constructor; [simpl; lia | simpl; lia | | | | vm_compute; reflexivity |].
  - exists []. done.
  - apply (bool_decide_unpack _). vm_compute. done.
  - intros a Ha. change (all_objects p1) with [65536; 81920; 98304; 114688] in Ha.
    repeat (apply elem_of_cons in Ha as [->|Ha]; [lia|]). by apply elem_of_nil in Ha.
  - intros pg [->|Hpg%elem_of_nil]%elem_of_cons; done.
Qed.

Lemma slab_pool_free_correct_witness :
  let '(p', m') := slab_pool_free p1 m0 65536 in
  pool_inv p' (links m') [81920; 98304; 114688] /\ free_head p' = 65536 /\ total_freed p' = u64 (total_freed p1 + 1) /\
  (forall a, a ∈ [81920; 98304; 114688] -> links m' !! a = links m0 !! a).
Proof. apply (slab_pool_free_correct p1 m0 [81920; 98304; 114688] 65536). apply p1_inv. Defined.

Lemma slab_pool_alloc_bulk_correct_witness :
  exists out p' m', slab_pool_alloc_bulk p0 m0 6 = Ret (out, p', m') /\
    pool_inv p' (links m') (reverse out ++ []) /\ NoDup out /\ (forall a, a ∈ out -> a ∉ []) /\
    zlen out <= 6 /\ (Forall is_Some (os m0) -> 6 <= zlen (os m0) -> zlen out = 6) /\
    (forall a, a ∈ [] -> links m' !! a = links m0 !! a).
Proof. apply (slab_pool_alloc_bulk_correct p0 m0 [] 6); [apply p0_inv | apply p0_os | lia]. Defined.

Lemma slab_pool_free_bulk_correct_witness :
  (let '(p', m') := slab_pool_free_bulk p1 m0 [65536; 81920] in pool_inv p' (links m') [98304; 114688]) /\
  (let '(p', m') := slab_pool_free_bulk p1 m0 [0] in forall A', ~ pool_inv p' (links m') A').
Proof. apply (slab_pool_free_bulk_correct p1 m0 [98304; 114688] [65536; 81920]). apply p1_inv. Defined.
