(* ===== verification/DimRegistry.v ===== *)
(** DimRegistry: the adaptive map from a dimension to its bin, src/dim_registry.c.

    The registry is a linear array up to 8 dimensions, a sorted array up to 64
    and a hash table above. [reg_inv] relates all three representations to one
    finite map; lookup and registration are shown to implement it through the
    upgrades. *)

From S2P Require Import Prelude LinearProbe.

(** ** State (dim_registry.h) *)

Inductive DimRegMode : Type := DIM_REG_LINEAR | DIM_REG_SORTED | DIM_REG_HASH.

Definition DIM_REG_THRESHOLD_LINEAR : Z := 8.
Definition DIM_REG_THRESHOLD_SORTED : Z := 64.

Record DimRegEntry : Type := mkDimRegEntry { dim : Z; bin_idx : Z }.
Record DimRegHashSlot : Type := mkDimRegHashSlot { hs_dim : Z; hs_bin_idx : Z }.

(** [bins] and [entries] are the filled parts of their arrays, [None] after a
    failed allocation; [bin] pointers are addresses. *)
Record DimRegistry : Type := mkDimRegistry {
  mode : DimRegMode;
  count : Z;
  capacity : Z;
  bins : option (list Z);
  entries : option (list DimRegEntry);
  entries_cap : Z;
  slots : option (list DimRegHashSlot);
  hash_cap : Z;
  hash_mask : Z;
  lookups : Z;
  upgrades : Z
}.

(** Outcomes of the allocations of one registration. *)
Record RegAlloc : Type := mkRegAlloc { ok_bins : bool; ok_entries : bool; ok_sorted : bool; ok_slots : bool }.

(** ** Operations *)

(** [dim] is an [int]; the hash works on its 32-bit pattern. *)
Definition dim_hash (d : Z) : Z :=
  let x := u32 d in
  let x := u32 (Z.lxor (Z.shiftr x 16) x * 0x45d9f3b) in
  let x := u32 (Z.lxor (Z.shiftr x 16) x * 0x45d9f3b) in
  Z.lxor (Z.shiftr x 16) x.

Definition next_pow2_u16 (v : Z) : Z :=
  let v := u16 (v - 1) in
  let v := Z.lor v (Z.shiftr v 1) in
  let v := Z.lor v (Z.shiftr v 2) in
  let v := Z.lor v (Z.shiftr v 4) in
  let v := Z.lor v (Z.shiftr v 8) in
  let v := u16 (v + 1) in
  if v <? 16 then 16 else v.

Definition dim_registry_init (ok_e ok_b : bool) : DimRegistry :=
  mkDimRegistry DIM_REG_LINEAR 0 DIM_REG_THRESHOLD_LINEAR (if ok_b then Some [] else None)
    (if ok_e then Some [] else None) DIM_REG_THRESHOLD_LINEAR None 0 0 0 0.

Definition dim_registry_destroy (reg : DimRegistry) : DimRegistry :=
  mkDimRegistry DIM_REG_LINEAR 0 0 None None 0 None 0 0 0 0.

Fixpoint linear_scan (es : list DimRegEntry) (d : Z) : Z :=
  match es with
  | [] => -1
  | e :: es => if dim e =? d then bin_idx e else linear_scan es d
  end.

Definition linear_find (reg : DimRegistry) (d : Z) : res Z :=
  if count reg =? 0 then Ret (-1) else let! es := deref (entries reg) in Ret (linear_scan es d).

Definition sorted_find (reg : DimRegistry) (d : Z) : res Z :=
  let! es := deref (entries reg) in
  let! r := bsearch dim es d in
  match r with
  | Found mid => let! e := rd es mid in Ret (bin_idx e)
  | Missing _ => Ret (-1)
  end.

(** The position of the first entry that is not below [d], then the insertion. *)
Fixpoint sorted_insert (es : list DimRegEntry) (d b : Z) : list DimRegEntry :=
  match es with
  | [] => [mkDimRegEntry d b]
  | e :: es' => if dim e <? d then e :: sorted_insert es' d b else mkDimRegEntry d b :: es
  end.

Definition slot_free (s : DimRegHashSlot) : bool := (hs_dim s =? 0) && (hs_bin_idx s =? 0).

(** [for (probe = 0; probe <= mask; probe++, idx = (idx + 1) & mask)]: [mask + 1]
    rounds, or no end when [mask] is the largest 16-bit value. *)
Fixpoint hash_find_loop (rounds : nat) (sl : list DimRegHashSlot) (mask d idx : Z) : res Z :=
  match rounds with
  | O => if mask =? 65535 then Diverge else Ret (-1)
  | S rounds =>
    let! s := rd sl idx in
    if slot_free s then Ret (-1)
    else if hs_dim s =? d then Ret (hs_bin_idx s)
    else hash_find_loop rounds sl mask d (Z.land (idx + 1) mask)
  end.

Definition hash_find (reg : DimRegistry) (d : Z) : res Z :=
  let! sl := deref (slots reg) in
  let mask := hash_mask reg in
  hash_find_loop (Z.to_nat (mask + 1)) sl mask d (Z.land (dim_hash d) mask).

Fixpoint hash_insert_loop (rounds : nat) (sl : list DimRegHashSlot) (mask d b idx : Z) : res (list DimRegHashSlot) :=
  match rounds with
  | O => if mask =? 65535 then Diverge else Ret sl
  | S rounds =>
    let! s := rd sl idx in
    if slot_free s then wr sl idx (mkDimRegHashSlot d b)
    else hash_insert_loop rounds sl mask d b (Z.land (idx + 1) mask)
  end.

Definition hash_insert (sl : list DimRegHashSlot) (mask d b : Z) : res (list DimRegHashSlot) :=
  hash_insert_loop (Z.to_nat (mask + 1)) sl mask d b (Z.land (dim_hash d) mask).

(** Insertion sort; the sorted prefix is kept last entry first, the order in
    which the inner loop visits it. *)
Fixpoint insert_back (e : DimRegEntry) (prefix : list DimRegEntry) : list DimRegEntry :=
  match prefix with
  | [] => [e]
  | x :: prefix' => if dim e <? dim x then x :: insert_back e prefix' else e :: prefix
  end.
Definition insertion_sort (es : list DimRegEntry) : list DimRegEntry :=
  reverse (fold_left (fun prefix e => insert_back e prefix) es []).

Definition upgrade_to_sorted (al : RegAlloc) (reg : DimRegistry) : res DimRegistry :=
  let! es := deref (entries reg) in
  let es := insertion_sort es in
  let '(es, cap) := if entries_cap reg <? DIM_REG_THRESHOLD_SORTED
                    then ((if ok_sorted al then Some es else None), DIM_REG_THRESHOLD_SORTED)
                    else (Some es, entries_cap reg) in
  Ret (mkDimRegistry DIM_REG_SORTED (count reg) (capacity reg) (bins reg) es cap (slots reg) (hash_cap reg)
         (hash_mask reg) (lookups reg) (u64 (upgrades reg + 1))).

Definition empty_slots (cap : Z) : list DimRegHashSlot := replicate (Z.to_nat cap) (mkDimRegHashSlot 0 0).

Fixpoint insert_entries (sl : list DimRegHashSlot) (mask : Z) (es : list DimRegEntry) : res (list DimRegHashSlot) :=
  match es with
  | [] => Ret sl
  | e :: es => let! sl := hash_insert sl mask (dim e) (bin_idx e) in insert_entries sl mask es
  end.

Definition upgrade_to_hash (al : RegAlloc) (reg : DimRegistry) : res DimRegistry :=
  let new_cap := next_pow2_u16 (u16 (count reg * 4)) in
  let new_cap := if new_cap <? 128 then 128 else new_cap in
  if negb (ok_slots al) then Ub else
  let! es := deref (entries reg) in
  let! sl := insert_entries (empty_slots new_cap) (u16 (new_cap - 1)) es in
  Ret (mkDimRegistry DIM_REG_HASH (count reg) (capacity reg) (bins reg) (entries reg) (entries_cap reg) (Some sl) new_cap
         (u16 (new_cap - 1)) (lookups reg) (u64 (upgrades reg + 1))).

Fixpoint insert_slots (sl : list DimRegHashSlot) (mask : Z) (old : list DimRegHashSlot) : res (list DimRegHashSlot) :=
  match old with
  | [] => Ret sl
  | s :: old =>
    let! sl := if slot_free s then Ret sl else hash_insert sl mask (hs_dim s) (hs_bin_idx s) in
    insert_slots sl mask old
  end.

Definition hash_grow (al : RegAlloc) (reg : DimRegistry) : res DimRegistry :=
  let new_cap := u16 (hash_cap reg * 2) in
  let new_mask := u16 (new_cap - 1) in
  let! old := deref (slots reg) in
  if negb (ok_slots al) then Ub else
  let! sl := insert_slots (empty_slots new_cap) new_mask old in
  Ret (mkDimRegistry (mode reg) (count reg) (capacity reg) (bins reg) (entries reg) (entries_cap reg) (Some sl) new_cap
         new_mask (lookups reg) (upgrades reg)).

Definition bump_lookups (reg : DimRegistry) : DimRegistry :=
  mkDimRegistry (mode reg) (count reg) (capacity reg) (bins reg) (entries reg) (entries_cap reg) (slots reg) (hash_cap reg)
    (hash_mask reg) (u64 (lookups reg + 1)) (upgrades reg).

Definition dim_registry_find (reg : DimRegistry) (d : Z) : res (Z * DimRegistry) :=
  let reg := bump_lookups reg in
  let! r := match mode reg with
            | DIM_REG_LINEAR => linear_find reg d
            | DIM_REG_SORTED => sorted_find reg d
            | DIM_REG_HASH => hash_find reg d
            end in
  Ret (r, reg).

(** The growth of the bins array, [None] when its allocation fails. *)
Definition grow_bins (al : RegAlloc) (reg : DimRegistry) : option Z :=
  if capacity reg <=? count reg then
    let new_cap := u16 (capacity reg * 2) in
    let new_cap := if new_cap <? 16 then 16 else new_cap in
    if ok_bins al then Some new_cap else None
  else Some (capacity reg).

(** The growth of the entries array: the capacity and whether the array is there. *)
Definition grow_entries (al : RegAlloc) (reg : DimRegistry) : Z * bool :=
  if entries_cap reg <=? count reg then (u16 (entries_cap reg * 2), ok_entries al) else (entries_cap reg, true).

Definition with_entries (reg : DimRegistry) (cap : Z) (bs : list Z) (es : option (list DimRegEntry)) (ecap cnt : Z) : DimRegistry :=
  mkDimRegistry (mode reg) cnt cap (Some bs) es ecap (slots reg) (hash_cap reg) (hash_mask reg) (lookups reg) (upgrades reg).

(** A write at index [count] of the entries, past the capacity it is undefined. *)
Definition append_entry (es : list DimRegEntry) (ecap d b : Z) : res (list DimRegEntry) :=
  if ecap <=? zlen es then Ub else Ret (es ++ [mkDimRegEntry d b]).

Definition dim_registry_put (al : RegAlloc) (reg : DimRegistry) (d bin : Z) : res (Z * DimRegistry) :=
  let! '(existing, reg) := dim_registry_find reg d in
  if 0 <=? existing then Ret (existing, reg) else
  let b := count reg in
  match grow_bins al reg with
  | None => Ret (-1, reg)
  | Some cap =>
    let! bs := deref (bins reg) in
    if cap <=? zlen bs then Ub else
    let bs := bs ++ [bin] in
    let '(ecap, present) := grow_entries al reg in
    match mode reg with
    | DIM_REG_LINEAR =>
      if negb present then Ret (-1, with_entries reg cap bs None ecap (count reg))
      else
        let! es := deref (entries reg) in
        let! es := append_entry es ecap d b in
        let reg := with_entries reg cap bs (Some es) ecap (u16 (count reg + 1)) in
        let! reg := if DIM_REG_THRESHOLD_LINEAR <? count reg then upgrade_to_sorted al reg else Ret reg in
        Ret (b, reg)
    | DIM_REG_SORTED =>
      if negb present then Ret (-1, with_entries reg cap bs None ecap (count reg))
      else
        let! es := deref (entries reg) in
        if ecap <=? zlen es then Ub else
        let reg := with_entries reg cap bs (Some (sorted_insert es d b)) ecap (u16 (count reg + 1)) in
        let! reg := if DIM_REG_THRESHOLD_SORTED <? count reg then upgrade_to_hash al reg else Ret reg in
        Ret (b, reg)
    | DIM_REG_HASH =>
      let! reg := if u32 (hash_cap reg * 3) <? u32 ((count reg + 1) * 4) then hash_grow al reg else Ret reg in
      let! sl := deref (slots reg) in
      let! sl := hash_insert sl (hash_mask reg) d b in
      if negb present then Ub else
      let! es := deref (entries reg) in
      let! es := append_entry es ecap d b in
      Ret (b, mkDimRegistry (mode reg) (u16 (count reg + 1)) cap (Some bs) (Some es) ecap (Some sl) (hash_cap reg)
                (hash_mask reg) (lookups reg) (upgrades reg))
    end
  end.

Definition dim_registry_get_bin (reg : DimRegistry) (b : Z) : res Z :=
  let! bs := deref (bins reg) in rd bs b.

Definition dim_registry_count (reg : DimRegistry) : Z := count reg.

(** ** The hash table *)

Lemma lxor_nonneg a b : 0 <= a -> 0 <= b -> 0 <= Z.lxor a b.
Proof. intros. apply Z.lxor_nonneg. tauto. Qed.

Lemma dim_hash_nonneg d : 0 <= dim_hash d.
Proof.
  unfold dim_hash. apply lxor_nonneg; [apply Z.shiftr_nonneg|]; apply u32_range.
Qed.

#[export] Instance dim_slot : ProbeSlot DimRegHashSlot := {|
  skey := hs_dim; ekey := 0; phash := dim_hash; phash_nonneg := dim_hash_nonneg
|}.

(** Slots without a dimension are all zero, so the two tests for an empty slot agree. *)
Definition slots_clean (sl : list DimRegHashSlot) : Prop := forall s, s ∈ sl -> hs_dim s = 0 -> hs_bin_idx s = 0.

Lemma slot_free_occ sl s : slots_clean sl -> s ∈ sl -> slot_free s = negb (occ s).
Proof.
  intros Hc Hs. unfold slot_free, occ. cbn [skey ekey dim_slot]. rewrite negb_involutive.
  destruct (Z.eqb_spec (hs_dim s) 0) as [E|]; [|done]. rewrite (Hc s) by auto. done.
Qed.

Section hash.
Context (sl : list DimRegHashSlot) (Ht : table sl) (Hc : slots_clean sl) (Hsz : zlen sl <= 32768).
#[local] Abbreviation nn := (zlen sl).

Lemma step_cyc h : 0 <= h < nn -> Z.land (h + 1) (nn - 1) = cyc nn h 1.
Proof.
  intros Hh. rewrite <- (next_range sl h Ht Hh). unfold next. rewrite u32_id; [done|]. lia.
Qed.

Lemma find_step rounds d h s :
  rd sl h = Ret s -> occ s = true -> hs_dim s <> d -> 0 <= h < nn ->
  hash_find_loop (S rounds) sl (nn - 1) d h = hash_find_loop rounds sl (nn - 1) d (cyc nn h 1).
Proof.
  intros Hr Ho Hd Hh. cbn [hash_find_loop]. rewrite Hr. cbn [res_bind].
  rewrite (slot_free_occ sl) by (auto; by eapply rd_elem). rewrite Ho. cbn [negb]. zdec. by rewrite step_cyc.
Qed.

Lemma find_scan j d start e rounds s :
  0 <= start < nn -> 0 <= e -> e + Z.of_nat j < nn ->
  (forall e', e <= e' < e + Z.of_nat j -> other_at sl d (cyc nn start e')) ->
  rd sl (cyc nn start (e + Z.of_nat j)) = Ret s -> (occ s = true -> hs_dim s = d) -> (j < rounds)%nat ->
  hash_find_loop rounds sl (nn - 1) d (cyc nn start e) = Ret (if occ s then hs_bin_idx s else -1).
Proof.
  intros Hst. revert e rounds. induction j as [|j IH]; intros e rounds He Hlt Hoth Hs Hk Hr; destruct rounds as [|rounds]; try lia.
  - rewrite Z.add_0_r in Hs. cbn [hash_find_loop]. rewrite Hs. cbn [res_bind].
    rewrite (slot_free_occ sl) by (auto; by eapply rd_elem).
    destruct (occ s) eqn:Eo; cbn [negb]; [|done]. rewrite Hk by auto. by rewrite Z.eqb_refl.
  - destruct (Hoth e) as (s' & Hs' & Ho' & Hd'); [lia|].
    rewrite (find_step rounds d _ s') by (auto; apply cyc_range; lia).
    rewrite cyc_cyc by lia. apply IH; auto; try lia.
    + intros e' He'. apply Hoth. lia.
    + rewrite <- Hs. f_equal. f_equal. lia.
Qed.

Lemma find_full j d start e :
  0 <= start < nn -> 0 <= e -> e + Z.of_nat j <= nn ->
  (forall e', e <= e' < e + Z.of_nat j -> other_at sl d (cyc nn start e')) ->
  hash_find_loop j sl (nn - 1) d (cyc nn start e) = Ret (-1).
Proof.
  intros Hst. revert e. induction j as [|j IH]; intros e He Hlt Hoth.
  - cbn [hash_find_loop]. zdec. done.
  - destruct (Hoth e) as (s' & Hs' & Ho' & Hd'); [lia|].
    rewrite (find_step j d _ s') by (auto; apply cyc_range; lia).
    rewrite cyc_cyc by lia. apply IH; try lia. intros e' He'. apply Hoth. lia.
Qed.

(** The counted loop finds what the guarded probe finds. *)
Lemma hash_find_loop_spec d :
  d <> 0 -> reach sl -> uniq sl ->
  (exists s, stored sl s /\ hs_dim s = d /\
     hash_find_loop (Z.to_nat nn) sl (nn - 1) d (home (nn - 1) d) = Ret (hs_bin_idx s)) \/
  (absent sl d /\ hash_find_loop (Z.to_nat nn) sl (nn - 1) d (home (nn - 1) d) = Ret (-1)).
Proof.
  intros Hd Hr Hu. pose proof (home_range sl d Ht) as Hh. set (start := home (nn - 1) d) in *.
  assert (0 < nn) by (by apply table_pos).
  destruct (scan_cases sl d start Hh (Z.to_nat nn)) as [Hall|(e & s & He & Hoth & Hs & Hk)]; [lia| |].
  - right. split.
    + intros s (i & Hi & Ho)%stored_rd E. pose proof (rd_ret_range _ _ _ Hi) as Hir.
      destruct (Hall (dst nn start i)) as (s' & Hs' & _ & Hne); [pose proof (dst_range nn start i Hh Hir); lia|].
      rewrite cyc_dst in Hs' by auto. congruence.
    + rewrite <- (cyc_0 nn start Hh) at 1. apply find_full; [auto|lia|lia|]. intros. apply Hall. lia.
  - assert (hash_find_loop (Z.to_nat nn) sl (nn - 1) d start = Ret (if occ s then hs_bin_idx s else -1)) as Hf.
    { rewrite <- (cyc_0 nn start Hh) at 1. apply (find_scan (Z.to_nat e)); auto; try lia.
      - intros e' He'. apply Hoth. lia.
      - rewrite <- Hs. f_equal. f_equal. lia. }
    rewrite Hf. destruct (occ s) eqn:Eo.
    + left. exists s. split_and!; auto. apply stored_rd. eauto.
    + right. split; [|done]. eapply path_other_absent; eauto. intros x Hx. apply Hoth.
      fold start in Hx. rewrite dst_cyc in Hx by (auto; lia). lia.
Qed.

Lemma insert_scan j d b start e rounds s :
  0 <= start < nn -> 0 <= e -> e + Z.of_nat j < nn ->
  (forall e', e <= e' < e + Z.of_nat j -> occ_at sl (cyc nn start e')) ->
  rd sl (cyc nn start (e + Z.of_nat j)) = Ret s -> occ s = false -> (j < rounds)%nat ->
  hash_insert_loop rounds sl (nn - 1) d b (cyc nn start e) =
  Ret (<[Z.to_nat (cyc nn start (e + Z.of_nat j)) := mkDimRegHashSlot d b]> sl).
Proof.
  intros Hst. revert e rounds. induction j as [|j IH]; intros e rounds He Hlt Hocc Hs Ho Hr; destruct rounds as [|rounds]; try lia.
  - rewrite Z.add_0_r in *. cbn [hash_insert_loop]. rewrite Hs. cbn [res_bind].
    rewrite (slot_free_occ sl) by (auto; by eapply rd_elem). rewrite Ho. cbn [negb].
    apply wr_ret. apply cyc_range; lia.
  - destruct (Hocc e) as (s' & Hs' & Ho'); [lia|]. cbn [hash_insert_loop]. rewrite Hs'. cbn [res_bind].
    rewrite (slot_free_occ sl) by (auto; by eapply rd_elem). rewrite Ho'. cbn [negb].
    rewrite step_cyc, cyc_cyc by (try apply cyc_range; lia).
    replace (e + Z.of_nat (S j)) with (e + 1 + Z.of_nat j) in * by lia. apply IH; auto; try lia.
    intros e' He'. apply Hocc. lia.
Qed.

(** Inserting a dimension that is absent, into a table with an empty slot. *)
Lemma hash_insert_spec d b :
  d <> 0 -> reach sl -> uniq sl -> absent sl d -> countb occ sl < nn ->
  exists sl', hash_insert sl (nn - 1) d b = Ret sl' /\ zlen sl' = nn /\ table sl' /\ slots_clean sl' /\
    reach sl' /\ uniq sl' /\ countb occ sl' = countb occ sl + 1 /\
    (forall s, stored sl' s <-> s = mkDimRegHashSlot d b \/ stored sl s).
Proof.
  intros Hd Hr Hu Ha Hcnt. pose proof (home_range sl d Ht) as Hh. assert (0 < nn) by (by apply table_pos).
  set (start := home (nn - 1) d) in *.
  destruct (scan_cases sl d start Hh (Z.to_nat nn)) as [Hall|(e & s & He & Hoth & Hs & Hk)]; [lia| |].
  - exfalso. destruct (has_empty sl Hcnt) as (i & s & Hi & Ho). pose proof (rd_ret_range _ _ _ Hi) as Hir.
    destruct (Hall (dst nn start i)) as (s' & Hs' & Ho' & _); [pose proof (dst_range nn start i Hh Hir); lia|].
    rewrite cyc_dst in Hs' by auto. congruence.
  - assert (occ s = false) as Ho.
    { destruct (occ s) eqn:E; [|done]. exfalso. apply (Ha s); [apply stored_rd; eauto|auto]. }
    assert (path_other sl d (cyc nn start e)) as Hpath.
    { intros x Hx. apply Hoth. fold start in Hx. rewrite dst_cyc in Hx by (auto; lia). lia. }
    set (new := mkDimRegHashSlot d b).
    assert (occ new = true) as Hon by (apply occ_true; done).
    exists (<[Z.to_nat (cyc nn start e) := new]> sl). split_and!.
    + unfold hash_insert. change (Z.land (dim_hash d) (nn - 1)) with start.
      rewrite <- (cyc_0 nn start Hh) at 1. replace (Z.to_nat (nn - 1 + 1)) with (Z.to_nat nn) by lia.
      assert (0 + Z.of_nat (Z.to_nat e) = e) as He0 by lia.
      pose proof (insert_scan (Z.to_nat e) d b start 0 (Z.to_nat nn) s) as Hins. rewrite He0 in Hins.
      apply Hins; auto; try lia. intros e' He'. destruct (Hoth e') as (x & Hx & Hox & _); [lia|]. by exists x.
    + apply zlen_insert.
    + by apply table_insert.
    + intros x Hx Hx0. apply elem_rd in Hx as [i Hi]. destruct (Z.eq_dec i (cyc nn start e)) as [->|Hne].
      * rewrite rd_insert_eq in Hi by (apply cyc_range; lia). by simplify_eq.
      * rewrite rd_insert_ne in Hi by (auto; apply cyc_range; lia). apply Hc; auto. by eapply rd_elem.
    + by eapply reach_insert.
    + by eapply uniq_insert.
    + rewrite (countb_insert _ _ _ _ s) by auto. rewrite Ho, Hon. lia.
    + intros x. by eapply stored_insert.
Qed.

End hash.

(** ** The invariant *)

(** [m] maps each registered dimension to the index of its bin. *)
Definition entries_of (es : list DimRegEntry) (m : gmap Z Z) : Prop :=
  NoDup (dim <$> es) /\ forall d b, mkDimRegEntry d b ∈ es <-> m !! d = Some b.

Definition hash_of (sl : list DimRegHashSlot) (m : gmap Z Z) : Prop :=
  table sl /\ slots_clean sl /\ reach sl /\ uniq sl /\ zlen sl <= 32768 /\
  (forall d b, stored sl (mkDimRegHashSlot d b) <-> m !! d = Some b).

Definition u16_cap (c : Z) : Prop := exists k, 3 <= k <= 15 /\ c = 2 ^ k.

Record reg_inv (reg : DimRegistry) (m : gmap Z Z) (bs : list Z) : Prop := {
  ri_bins : bins reg = Some bs;
  ri_count : count reg = zlen bs;
  ri_cap : u16_cap (capacity reg) /\ count reg <= capacity reg;
  ri_ecap : u16_cap (entries_cap reg) /\ count reg <= entries_cap reg;
  ri_dom : forall d b, m !! d = Some b -> d <> 0 /\ 0 <= b < count reg;
  ri_es : exists es, entries reg = Some es /\ zlen es = count reg /\
    match mode reg with
    | DIM_REG_LINEAR => entries_of es m /\ count reg <= 8
    | DIM_REG_SORTED => entries_of es m /\ sorted_by dim es /\ 64 <= entries_cap reg /\ 8 < count reg <= 64
    | DIM_REG_HASH => exists sl, slots reg = Some sl /\ zlen sl = hash_cap reg /\ hash_mask reg = hash_cap reg - 1 /\
        hash_of sl m /\ countb occ sl = count reg /\ count reg * 4 <= hash_cap reg * 3 /\ u16_cap (hash_cap reg)
    end
}.

Lemma u16_cap_double c : u16_cap c -> c < 32768 -> u16_cap (u16 (c * 2)) /\ u16 (c * 2) = 2 * c /\ 8 <= c.
Proof.
  intros (k & Hk & ->) Hlt. assert (k < 15) by (apply (Z.pow_lt_mono_r_iff 2); lia).
  assert (2 ^ k <= 2 ^ 14) by (apply Z.pow_le_mono_r; lia).
  assert (2 ^ 3 <= 2 ^ k) by (apply Z.pow_le_mono_r; lia).
  rewrite u16_id by lia. split_and!; [|lia|lia]. exists (k + 1). split; [lia|].
  replace (k + 1) with (Z.succ k) by lia. rewrite Z.pow_succ_r; lia.
Qed.

Lemma u16_cap_range c : u16_cap c -> 8 <= c <= 32768.
Proof.
  intros (k & Hk & ->). split; [change 8 with (2 ^ 3)|change 32768 with (2 ^ 15)]; apply Z.pow_le_mono_r; lia.
Qed.

(** ** Lookup *)

Lemma linear_scan_spec es m d :
  entries_of es m -> linear_scan es d = default (-1) (m !! d).
Proof.
  intros [Hnd Hm]. assert (forall b, m !! d = Some b <-> mkDimRegEntry d b ∈ es) as Hd by (intros b; by rewrite Hm).
  clear Hm. revert Hnd Hd. generalize (m !! d). clear m.
  induction es as [|[d' b'] es IH]; intros o Hnd Hd; simpl.
  - destruct o as [b|]; [|done]. destruct (Hd b) as [H _]. by apply elem_of_nil in H.
  - apply NoDup_cons in Hnd as [Hni Hnd]. simpl in Hni. destruct (Z.eqb_spec d' d) as [->|Hne].
    + destruct (Hd b') as [_ ->]; [done|]. set_solver.
    + apply IH; auto. intros b. rewrite Hd. rewrite elem_of_cons. split; [intros [[= -> ->]|H]; done|auto].
Qed.

Lemma sorted_find_spec es m d :
  entries_of es m -> sorted_by dim es ->
  (let! r := bsearch dim es d in
   match r with Found mid => let! e := rd es mid in Ret (bin_idx e) | Missing _ => Ret (-1) end) = Ret (default (-1) (m !! d)).
Proof.
  intros [Hnd Hm] Hs. destruct (bsearch_spec dim es d Hs) as (r & -> & Hpost). cbn [res_bind].
  destruct r as [i|i].
  - destruct Hpost as ([d' b'] & Hi & Hk). simpl in Hk. subst d'. rewrite Hi. cbn [res_bind bin_idx].
    destruct (Hm d b') as [H _]. rewrite H by (by eapply rd_elem). done.
  - destruct Hpost as (Hi & Hl & Hr). destruct (m !! d) as [b|] eqn:E; [|done]. apply Hm in E.
    apply (elem_of_split_at _ (Z.to_nat i)) in E as [E|E]; [apply Hl in E|apply Hr in E]; simpl in E; lia.
Qed.

Lemma hash_find_spec sl m d :
  hash_of sl m -> d <> 0 ->
  hash_find_loop (Z.to_nat (zlen sl)) sl (zlen sl - 1) d (home (zlen sl - 1) d) = Ret (default (-1) (m !! d)).
Proof.
  intros (Ht & Hc & Hr & Hu & Hsz & Hm) Hd.
  destruct (hash_find_loop_spec sl Ht Hc Hsz d Hd Hr Hu) as [([d' b] & Hs & E & ->)|[Ha ->]].
  - simpl in E. subst d'. apply Hm in Hs as ->. done.
  - destruct (m !! d) as [b|] eqn:E; [|done]. apply Hm in E. by apply Ha in E.
Qed.

Lemma find_spec reg m bs d :
  reg_inv reg m bs -> d <> 0 -> dim_registry_find reg d = Ret (default (-1) (m !! d), bump_lookups reg).
Proof.
  intros [Hb Hcnt Hcap Hecap Hdom (es & Hes & Hlen & Hmode)] Hd. unfold dim_registry_find.
  change (mode (bump_lookups reg)) with (mode reg). destruct (mode reg).
  - unfold linear_find. change (count (bump_lookups reg)) with (count reg). change (entries (bump_lookups reg)) with (entries reg).
    rewrite Hes. destruct Hmode as [He _]. destruct (Z.eqb_spec (count reg) 0) as [H0|].
    + rewrite H0 in Hlen. destruct es; [|unfold zlen in Hlen; simpl in Hlen; lia].
      pose proof (linear_scan_spec [] m d He) as Hs. simpl in *. by rewrite <- Hs.
    + cbn [deref res_bind]. by rewrite (linear_scan_spec es m d).
  - unfold sorted_find. change (entries (bump_lookups reg)) with (entries reg). rewrite Hes. cbn [deref res_bind].
    destruct Hmode as (He & Hs & _). rewrite (sorted_find_spec es m d) by auto. done.
  - destruct Hmode as (sl & Hsl & Hz & Hmask & Hh & _). unfold hash_find.
    change (slots (bump_lookups reg)) with (slots reg). change (hash_mask (bump_lookups reg)) with (hash_mask reg).
    rewrite Hsl, Hmask, <- Hz. cbn [deref res_bind]. replace (Z.to_nat (zlen sl - 1 + 1)) with (Z.to_nat (zlen sl)) by lia.
    change (Z.land (dim_hash d) (zlen sl - 1)) with (home (zlen sl - 1) d).
    by rewrite (hash_find_spec sl m d).
Qed.

Lemma bump_inv reg m bs : reg_inv reg m bs -> reg_inv (bump_lookups reg) m bs.
Proof. intros [? ? ? ? ? ?]. by constructor. Qed.

(** ** Registration *)

Lemma entries_of_perm es es' m : es ≡ₚ es' -> entries_of es m -> entries_of es' m.
Proof.
  intros Hp [Hnd Hm]. split; [by rewrite <- Hp|]. intros d b. rewrite <- Hp. apply Hm.
Qed.

Lemma entries_of_snoc es m d b :
  entries_of es m -> m !! d = None -> entries_of (es ++ [mkDimRegEntry d b]) (<[d := b]> m).
Proof.
  intros [Hnd Hm] Hd. split.
  - rewrite fmap_app. apply NoDup_app. split_and!; auto; [|apply NoDup_singleton].
    intros x Hx Hx'. apply list_elem_of_singleton in Hx'. simpl in Hx'. subst x.
    apply list_elem_of_fmap in Hx as ([d' b'] & E & Hin). simpl in E. subst d'. apply Hm in Hin. congruence.
  - intros d' b'. rewrite elem_of_app, list_elem_of_singleton. destruct (Z.eq_dec d' d) as [->|Hne].
    + rewrite lookup_insert_eq. split; [|intros [= ->]; auto].
      intros [H|[= ->]]; [|done]. apply Hm in H. congruence.
    + rewrite lookup_insert_ne, Hm by auto. split; [intros [H|[= -> ->]]; done|auto].
Qed.

Lemma insert_back_perm e l : insert_back e l ≡ₚ e :: l.
Proof.
  induction l as [|x l IH]; simpl; [done|]. destruct (dim e <? dim x); [|done]. rewrite IH. constructor.
Qed.

Lemma insertion_sort_perm es : insertion_sort es ≡ₚ es.
Proof.
  unfold insertion_sort. rewrite reverse_Permutation.
  assert (forall acc, fold_left (fun prefix e => insert_back e prefix) es acc ≡ₚ acc ++ es) as H.
  { induction es as [|e es IH]; intros acc; simpl; [by rewrite app_nil_r|].
    rewrite IH, insert_back_perm. simpl. by rewrite Permutation_middle. }
  by rewrite H.
Qed.

(** Descending, the order of the reversed prefix. *)
Definition desc (l : list DimRegEntry) : Prop := StronglySorted Z.gt (dim <$> l).

Lemma insert_back_desc e l : desc l -> dim e ∉ dim <$> l -> desc (insert_back e l).
Proof.
  unfold desc. induction l as [|x l IH]; intros Hs Hni; simpl; [repeat constructor|].
  rewrite fmap_cons in Hs, Hni. apply StronglySorted_cons in Hs as [Hx Hs].
  rewrite Forall_forall in Hx. destruct (Z.ltb_spec (dim e) (dim x)).
  - rewrite fmap_cons. apply StronglySorted_cons. split; [|apply IH; auto; set_solver].
    apply Forall_forall. intros y Hy. rewrite insert_back_perm, fmap_cons in Hy.
    apply elem_of_cons in Hy as [->|Hy]; [lia|auto].
  - rewrite !fmap_cons. apply StronglySorted_cons. split; [|apply StronglySorted_cons; rewrite Forall_forall; auto].
    apply Forall_forall. intros y [->|Hy]%elem_of_cons; [|apply Hx in Hy; lia].
    assert (dim e <> dim x) by set_solver. lia.
Qed.

Lemma sorted_snoc (l : list Z) x : StronglySorted Z.lt l -> Forall (fun y => y < x) l -> StronglySorted Z.lt (l ++ [x]).
Proof.
  intros Hs HF. apply StronglySorted_app. split_and!; [|done|repeat constructor].
  intros a b Ha Hb. rewrite Forall_forall in HF. set_solver.
Qed.

Lemma desc_reverse l : desc l -> StronglySorted Z.lt (dim <$> reverse l).
Proof.
  unfold desc. induction l as [|x l IH]; intros Hs; [constructor|]. rewrite fmap_cons in Hs.
  apply StronglySorted_cons in Hs as [Hx Hs]. rewrite reverse_cons, fmap_app. apply sorted_snoc; auto.
  rewrite Forall_forall in *. intros y Hy. rewrite reverse_Permutation in Hy. apply Hx in Hy. lia.
Qed.

Lemma insertion_sort_sorted es : NoDup (dim <$> es) -> sorted_by dim (insertion_sort es).
Proof.
  intros Hnd. unfold sorted_by, insertion_sort.
  assert (forall acc, desc acc -> NoDup (dim <$> acc ++ es) -> desc (fold_left (fun prefix e => insert_back e prefix) es acc)) as H.
  { induction es as [|e es IH]; intros acc Hd Hn; simpl; [done|]. rewrite fmap_app in Hn.
    apply NoDup_app in Hn as (H1 & H2 & H3). rewrite fmap_cons in H2, H3. apply NoDup_cons in H3 as [H3 H4].
    apply IH; auto.
    - apply insert_back_desc; auto. intros Hin. apply (H2 _ Hin). set_solver.
    - rewrite insert_back_perm, fmap_app, fmap_cons. simpl. apply NoDup_cons. split; [set_solver|].
      apply NoDup_app. split_and!; auto. set_solver. }
  apply desc_reverse, H; [constructor|done].
Qed.

Lemma sorted_insert_perm es d b : sorted_insert es d b ≡ₚ es ++ [mkDimRegEntry d b].
Proof.
  induction es as [|e es IH]; simpl; [done|]. destruct (dim e <? d); [by rewrite IH|].
  change (e :: es ++ [mkDimRegEntry d b]) with ((e :: es) ++ [mkDimRegEntry d b]). by rewrite Permutation_app_comm.
Qed.

Lemma sorted_insert_sorted es d b :
  sorted_by dim es -> d ∉ dim <$> es -> sorted_by dim (sorted_insert es d b).
Proof.
  unfold sorted_by. induction es as [|e es IH]; intros Hs Hni; simpl; [repeat constructor|].
  rewrite fmap_cons in Hs, Hni. apply StronglySorted_cons in Hs as [He Hs]. rewrite Forall_forall in He.
  destruct (Z.ltb_spec (dim e) d).
  - rewrite fmap_cons. apply StronglySorted_cons. split; [|apply IH; auto; set_solver].
    apply Forall_forall. intros y Hy. rewrite sorted_insert_perm, fmap_app in Hy.
    apply elem_of_app in Hy as [Hy|Hy%list_elem_of_singleton]; [auto|simpl in Hy; lia].
  - rewrite !fmap_cons. apply StronglySorted_cons. split; [|apply StronglySorted_cons; rewrite Forall_forall; auto].
    apply Forall_forall. simpl. assert (d <> dim e) by set_solver.
    intros y [->|Hy]%elem_of_cons; [lia|]. apply He in Hy. lia.
Qed.

Lemma not_in_dims es m d : entries_of es m -> m !! d = None -> d ∉ dim <$> es.
Proof.
  intros [_ Hm] Hd ([d' b] & -> & Hin)%list_elem_of_fmap. apply Hm in Hin. simpl in Hd. congruence.
Qed.

(** Filling a hash table from a list of pairs. *)
Fixpoint insert_pairs (sl : list DimRegHashSlot) (mask : Z) (ps : list (Z * Z)) : res (list DimRegHashSlot) :=
  match ps with [] => Ret sl | p :: ps => let! sl := hash_insert sl mask (fst p) (snd p) in insert_pairs sl mask ps end.

Lemma insert_entries_pairs sl mask es :
  insert_entries sl mask es = insert_pairs sl mask ((fun e => (dim e, bin_idx e)) <$> es).
Proof. revert sl. induction es as [|e es IH]; intros sl; simpl; [done|]. destruct (hash_insert _ _ _ _); simpl; auto. Qed.

Lemma insert_slots_pairs sl mask old :
  insert_slots sl mask old = insert_pairs sl mask ((fun s => (hs_dim s, hs_bin_idx s)) <$> List.filter (fun s => negb (slot_free s)) old).
Proof.
  revert sl. induction old as [|s old IH]; intros sl; simpl; [done|]. destruct (slot_free s); simpl; [apply IH|].
  destruct (hash_insert _ _ _ _); simpl; auto.
Qed.

Definition hash_wf (sl : list DimRegHashSlot) : Prop :=
  table sl /\ slots_clean sl /\ reach sl /\ uniq sl /\ zlen sl <= 32768.

Lemma insert_pairs_spec ps sl :
  hash_wf sl -> NoDup (fst <$> ps) -> (forall p, p ∈ ps -> fst p <> 0 /\ absent sl (fst p)) ->
  countb occ sl + zlen ps <= zlen sl ->
  exists sl', insert_pairs sl (zlen sl - 1) ps = Ret sl' /\ hash_wf sl' /\ zlen sl' = zlen sl /\
    countb occ sl' = countb occ sl + zlen ps /\
    forall d b, stored sl' (mkDimRegHashSlot d b) <-> stored sl (mkDimRegHashSlot d b) \/ (d, b) ∈ ps.
Proof.
  revert sl. induction ps as [|[d b] ps IH]; intros sl (Ht & Hc & Hr & Hu & Hz) Hnd Hp Hcnt; simpl.
  - exists sl. split_and!; auto; [unfold hash_wf; auto|unfold zlen; simpl; lia|]. intros. rewrite elem_of_nil. tauto.
  - rewrite fmap_cons in Hnd. apply NoDup_cons in Hnd as [Hni Hnd]. simpl in Hni.
    destruct (Hp (d, b)) as [Hd0 Habs]; [set_solver|]. simpl in Hd0, Habs.
    assert (zlen ((d, b) :: ps) = zlen ps + 1) as Hzl by (unfold zlen; simpl length; lia).
    destruct (hash_insert_spec sl Ht Hc Hz d b) as (sl1 & -> & Hz1 & Ht1 & Hc1 & Hr1 & Hu1 & Hn1 & Hs1); auto;
      [pose proof (zlen_nonneg ps); lia|]. cbn [res_bind]. rewrite <- Hz1.
    destruct (IH sl1) as (sl' & -> & Hwf & Hz' & Hn' & Hs'); auto.
    + unfold hash_wf. split_and!; auto. lia.
    + intros [d' b'] Hin. destruct (Hp (d', b')) as [? Ha]; [set_solver|]. split; auto. simpl in *.
      intros s [->|Hs]%Hs1; [|by apply Ha]. simpl. intros <-. apply Hni. apply list_elem_of_fmap. by exists (d, b').
    + lia.
    + exists sl'. split_and!; auto; try lia. intros d' b'. rewrite Hs', Hs1, elem_of_cons. naive_solver.
Qed.

Lemma empty_slots_wf cap :
  u16_cap cap -> hash_wf (empty_slots cap) /\ zlen (empty_slots cap) = cap /\ countb occ (empty_slots cap) = 0 /\
  forall s, ~ stored (empty_slots cap) s.
Proof.
  intros Hc. pose proof (u16_cap_range cap Hc). unfold empty_slots.
  assert (zlen (replicate (Z.to_nat cap) (mkDimRegHashSlot 0 0)) = cap) as Hz by (rewrite zlen_replicate; lia).
  assert (occ (mkDimRegHashSlot 0 0) = false) as Ho by done. split_and!; auto.
  - split; [split; [rewrite Hz; destruct Hc as (k & Hk & ->); exists k; split; [lia|done]|lia]|].
    split; [intros s Hs _; by apply elem_of_replicate in Hs as [-> _]|].
    split; [by apply reach_replicate|]. split; [by apply uniq_replicate|lia].
  - by apply countb_0_replicate.
  - intros s. by apply stored_replicate.
Qed.

(** The capacity the upgrade chooses for 65 dimensions. *)
Lemma upgrade_cap : next_pow2_u16 (u16 (65 * 4)) = 512.
Proof. reflexivity. Qed.

Lemma entries_pairs es m d b : entries_of es m -> (d, b) ∈ (fun e => (dim e, bin_idx e)) <$> es <-> m !! d = Some b.
Proof.
  intros [_ Hm]. rewrite list_elem_of_fmap. split.
  - intros ([d' b'] & [= -> ->] & Hin). by apply Hm.
  - intros H%Hm. exists (mkDimRegEntry d b). auto.
Qed.

(** Filling a fresh table with all registered dimensions. *)
Lemma build_table cap ps m :
  u16_cap cap -> NoDup (fst <$> ps) -> (forall d b, (d, b) ∈ ps <-> m !! d = Some b) ->
  (forall d b, m !! d = Some b -> d <> 0) -> zlen ps <= cap ->
  exists sl, insert_pairs (empty_slots cap) (cap - 1) ps = Ret sl /\ zlen sl = cap /\ hash_of sl m /\ countb occ sl = zlen ps.
Proof.
  intros Hc Hnd Hps Hdom Hlen. destruct (empty_slots_wf cap Hc) as (Hwf & Hz & Hn & He).
  destruct (insert_pairs_spec ps (empty_slots cap)) as (sl & E & (H1 & H2 & H3 & H4 & H5) & Hz' & Hn' & Hs); auto.
  - intros [d b] Hin. split; [by eapply Hdom, Hps|]. intros s Hs. by apply He in Hs.
  - lia.
  - rewrite Hz in E. exists sl. split_and!; auto; try lia. unfold hash_of. split_and!; auto.
    intros d b. rewrite Hs, <- Hps. split; [intros [Hx|]; [by apply He in Hx|done]|auto].
Qed.

Lemma upgrade_to_hash_spec al reg es m :
  ok_slots al = true -> count reg = 65 -> entries reg = Some es -> zlen es = 65 -> entries_of es m ->
  (forall d b, m !! d = Some b -> d <> 0) ->
  exists sl, upgrade_to_hash al reg =
    Ret (mkDimRegistry DIM_REG_HASH (count reg) (capacity reg) (bins reg) (entries reg) (entries_cap reg) (Some sl) 512 511
           (lookups reg) (u64 (upgrades reg + 1))) /\
    zlen sl = 512 /\ hash_of sl m /\ countb occ sl = 65.
Proof.
  intros Hal Hcnt Hes Hlen Heo Hdom. unfold upgrade_to_hash. rewrite Hcnt, upgrade_cap, Hal, Hes. cbn [negb deref res_bind].
  change (512 <? 128) with false. cbv iota. change (u16 (512 - 1)) with (512 - 1). rewrite insert_entries_pairs.
  assert (zlen ((fun e => (dim e, bin_idx e)) <$> es) = 65) as Hz by (unfold zlen in *; by rewrite length_fmap).
  destruct (build_table 512 ((fun e => (dim e, bin_idx e)) <$> es) m) as (sl & -> & H1 & H2 & H3); auto.
  - exists 9. split; [lia|done].
  - rewrite <- list_fmap_compose. apply Heo.
  - intros d b. by apply entries_pairs.
  - lia.
  - exists sl. rewrite Hz in H3. auto.
Qed.

Lemma hash_grow_spec al reg sl m :
  ok_slots al = true -> slots reg = Some sl -> zlen sl = hash_cap reg -> hash_of sl m -> u16_cap (hash_cap reg) ->
  hash_cap reg < 32768 -> (forall d b, m !! d = Some b -> d <> 0) ->
  exists sl', hash_grow al reg =
    Ret (mkDimRegistry (mode reg) (count reg) (capacity reg) (bins reg) (entries reg) (entries_cap reg) (Some sl')
           (2 * hash_cap reg) (2 * hash_cap reg - 1) (lookups reg) (upgrades reg)) /\
    zlen sl' = 2 * hash_cap reg /\ hash_of sl' m /\ countb occ sl' = countb occ sl /\ u16_cap (2 * hash_cap reg).
Proof.
  intros Hal Hsl Hz (Ht & Hc & Hr & Hu & Hsz & Hm) Hcap Hlt Hdom. unfold hash_grow. rewrite Hal, Hsl. cbn [negb deref res_bind].
  destruct (u16_cap_double _ Hcap Hlt) as (Hc2 & Ec2 & H8). rewrite Ec2 in *.
  replace (u16 (2 * hash_cap reg - 1)) with (2 * hash_cap reg - 1) by (rewrite u16_id; lia).
  rewrite insert_slots_pairs.
  assert (List.filter (fun s => negb (slot_free s)) sl = List.filter occ sl) as ->.
  { assert (forall l, (forall s, s ∈ l -> s ∈ sl) -> List.filter (fun s => negb (slot_free s)) l = List.filter occ l) as Hf; [|by apply Hf].
    induction l as [|s l IH]; intros Hl; simpl; [done|]. rewrite (slot_free_occ sl), negb_involutive by (auto; apply Hl; set_solver).
    rewrite IH by (intros; apply Hl; set_solver). done. }
  set (ps := (fun s => (hs_dim s, hs_bin_idx s)) <$> List.filter occ sl).
  assert (zlen ps = countb occ sl) as Hzp by (unfold ps, zlen, countb; by rewrite length_fmap).
  destruct (build_table (2 * hash_cap reg) ps m) as (sl' & -> & H1 & H2 & H3); auto.
  - unfold ps. rewrite <- list_fmap_compose. apply NoDup_fmap_2_strong; [|by apply uniq_NoDup].
    intros a b Ha Hb E. apply stored_filter in Ha, Hb. apply stored_rd in Ha as (i & Hi & Hoi). apply stored_rd in Hb as (j & Hj & Hoj).
    assert (i = j) as -> by (exact (Hu i j a b Hi Hj Hoi E)). congruence.
  - intros d b. unfold ps. rewrite list_elem_of_fmap, <- Hm. split.
    + intros ([d' b'] & [= -> ->] & Hin). exact (proj2 (stored_filter sl _) Hin).
    + intros Hs. exists (mkDimRegHashSlot d b). split; [done|]. exact (proj1 (stored_filter sl _) Hs).
  - rewrite Hzp. pose proof (countb_le occ sl). lia.
  - exists sl'. rewrite <- Hzp. split_and!; auto.
Qed.

Lemma insert_dom (m : gmap Z Z) d c :
  (forall d b, m !! d = Some b -> d <> 0 /\ 0 <= b < c) -> d <> 0 -> 0 <= c ->
  forall d' b', <[d := c]> m !! d' = Some b' -> d' <> 0 /\ 0 <= b' < c + 1.
Proof.
  intros H Hd Hc d' b'. destruct (Z.eq_dec d' d) as [->|Hne].
  - rewrite lookup_insert_eq. intros [= <-]. lia.
  - rewrite lookup_insert_ne by auto. intros [? ?]%H. lia.
Qed.

Lemma grow_bins_spec al reg :
  ok_bins al = true -> u16_cap (capacity reg) -> count reg <= capacity reg -> count reg < 24576 ->
  exists cap, grow_bins al reg = Some cap /\ u16_cap cap /\ count reg < cap.
Proof.
  intros Hal Hc Hle Hlt. unfold grow_bins. rewrite Hal. destruct (Z.leb_spec (capacity reg) (count reg)); [|by eauto].
  destruct (u16_cap_double _ Hc ltac:(lia)) as (H1 & E & H8). rewrite E in *. zdec. eexists. split; [done|]. split; [done|lia].
Qed.

Lemma grow_entries_spec al reg :
  ok_entries al = true -> u16_cap (entries_cap reg) -> count reg <= entries_cap reg -> count reg < 24576 ->
  exists cap, grow_entries al reg = (cap, true) /\ u16_cap cap /\ count reg < cap /\ entries_cap reg <= cap.
Proof.
  intros Hal Hc Hle Hlt. unfold grow_entries. rewrite Hal. destruct (Z.leb_spec (entries_cap reg) (count reg)).
  - destruct (u16_cap_double _ Hc ltac:(lia)) as (H1 & E & H8). rewrite E in *. eexists. split; [done|]. split_and!; auto; lia.
  - eexists. split; [done|]. split_and!; auto; lia.
Qed.

(** All allocations of a registration succeed. *)
Definition alloc_all : RegAlloc := mkRegAlloc true true true true.

(** The facts every mode of a registration starts from. *)
Record put_pre (reg : DimRegistry) (m : gmap Z Z) (bs : list Z) (d cap ecap : Z) (es : list DimRegEntry) : Prop := {
  pp_count : count reg = zlen bs /\ 0 <= count reg < 24576;
  pp_dim : d <> 0 /\ m !! d = None;
  pp_cap : u16_cap cap /\ count reg < cap;
  pp_ecap : u16_cap ecap /\ count reg < ecap;
  pp_dom : forall d' b', <[d := count reg]> m !! d' = Some b' -> d' <> 0 /\ 0 <= b' < count reg + 1;
  pp_dom0 : forall d b, m !! d = Some b -> d <> 0;
  pp_es : entries reg = Some es /\ zlen es = count reg
}.

Lemma zlen_snoc {A} (l : list A) x : zlen (l ++ [x]) = zlen l + 1.
Proof. rewrite zlen_app. done. Qed.

Lemma put_linear reg m bs d bin es cap ecap :
  put_pre reg m bs d cap ecap es -> mode reg = DIM_REG_LINEAR -> entries_of es m -> count reg <= 8 ->
  exists reg', (let! es := append_entry es ecap d (count reg) in
      let reg' := with_entries reg cap (bs ++ [bin]) (Some es) ecap (u16 (count reg + 1)) in
      let! reg' := if DIM_REG_THRESHOLD_LINEAR <? count reg' then upgrade_to_sorted alloc_all reg' else Ret reg' in
      Ret (count reg, reg')) = Ret (count reg, reg') /\ reg_inv reg' (<[d := count reg]> m) (bs ++ [bin]).
Proof.
  intros [[Hcnt Hlt] [Hd Hm] [Hc Hclt] [Hec Helt] Hdom _ [Hes Hlen]] Hmode Heo H8.
  unfold append_entry. rewrite Hlen. zdec. cbn [res_bind]. rewrite u16_id by lia.
  pose proof (entries_of_snoc es m d (count reg) Heo Hm) as He'. set (es' := es ++ [mkDimRegEntry d (count reg)]) in *.
  assert (zlen es' = count reg + 1) as Hze by (unfold es'; rewrite zlen_snoc; lia).
  unfold DIM_REG_THRESHOLD_LINEAR. cbn [count with_entries]. destruct (Z.ltb_spec 8 (count reg + 1)) as [Hup|Hup].
  - unfold upgrade_to_sorted. cbn [entries with_entries deref res_bind entries_cap]. unfold DIM_REG_THRESHOLD_SORTED.
    pose proof (insertion_sort_perm es') as Hp.
    assert (forall c, u16_cap c -> 64 <= c -> reg_inv (mkDimRegistry DIM_REG_SORTED (count reg + 1) cap (Some (bs ++ [bin]))
      (Some (insertion_sort es')) c (slots reg) (hash_cap reg) (hash_mask reg) (lookups reg) (u64 (upgrades reg + 1)))
      (<[d := count reg]> m) (bs ++ [bin])) as Hinv.
    { intros c Hc' Hc64. constructor; cbn; auto; try (split; [done|lia]); [rewrite zlen_snoc; lia|].
      eexists. split; [done|]. split; [unfold zlen in *; by rewrite Hp|].
      split; [by apply (entries_of_perm es')|]. split; [apply insertion_sort_sorted, He'|lia]. }
    destruct (Z.ltb_spec ecap 64); cbn [ok_sorted alloc_all]; eexists; (split; [done|]); apply Hinv; auto; try lia.
    exists 6. split; [lia|done].
  - cbn [res_bind]. eexists. split; [done|]. constructor; cbn; auto; try (split; [done|lia]); [rewrite zlen_snoc; lia|].
    eexists. split; [done|]. split; [done|]. rewrite Hmode. split; [done|lia].
Qed.

Lemma put_sorted reg m bs d bin es cap ecap :
  put_pre reg m bs d cap ecap es -> mode reg = DIM_REG_SORTED -> entries_of es m -> sorted_by dim es ->
  8 < count reg <= 64 -> 64 <= ecap ->
  exists reg', (if ecap <=? zlen es then Ub else
      let reg' := with_entries reg cap (bs ++ [bin]) (Some (sorted_insert es d (count reg))) ecap (u16 (count reg + 1)) in
      let! reg' := if DIM_REG_THRESHOLD_SORTED <? count reg' then upgrade_to_hash alloc_all reg' else Ret reg' in
      Ret (count reg, reg')) = Ret (count reg, reg') /\ reg_inv reg' (<[d := count reg]> m) (bs ++ [bin]).
Proof.
  intros [[Hcnt Hlt] [Hd Hm] [Hc Hclt] [Hec Helt] Hdom _ [Hes Hlen]] Hmode Heo Hso H8 H64.
  rewrite Hlen. zdec. rewrite u16_id by lia. pose proof (sorted_insert_perm es d (count reg)) as Hp.
  assert (entries_of (sorted_insert es d (count reg)) (<[d := count reg]> m)) as He'.
  { eapply entries_of_perm; [symmetry; exact Hp|]. by apply entries_of_snoc. }
  assert (sorted_by dim (sorted_insert es d (count reg))) as Hs' by (apply sorted_insert_sorted; [auto|by eapply not_in_dims]).
  set (es' := sorted_insert es d (count reg)) in *.
  assert (zlen es' = count reg + 1) as Hze by (unfold zlen in *; rewrite Hp, length_app; simpl; lia).
  unfold DIM_REG_THRESHOLD_SORTED. cbn [count with_entries]. destruct (Z.ltb_spec 64 (count reg + 1)) as [Hup|Hup].
  - destruct (upgrade_to_hash_spec alloc_all (with_entries reg cap (bs ++ [bin]) (Some es') ecap (count reg + 1)) es' (<[d := count reg]> m))
      as (sl & -> & Hz & Hh & Hcs); auto; cbn [count with_entries]; try lia; [intros d' b' [? _]%Hdom; done|].
    cbn [res_bind]. eexists. split; [done|]. constructor; cbn; auto; try (split; [done|lia]); [rewrite zlen_snoc; lia|].
    eexists. split; [done|]. split; [done|]. exists sl. split; [done|]. split; [done|]. split; [done|]. split; [done|].
    split; [lia|]. split; [lia|]. exists 9. split; [lia|done].
  - cbn [res_bind]. eexists. split; [done|]. constructor; cbn; auto; try (split; [done|lia]); [rewrite zlen_snoc; lia|].
    eexists. split; [done|]. split; [done|]. rewrite Hmode. split; [done|]. split; [done|lia].
Qed.

Lemma put_hash reg m bs d bin es sl cap ecap :
  put_pre reg m bs d cap ecap es -> mode reg = DIM_REG_HASH -> slots reg = Some sl -> zlen sl = hash_cap reg ->
  hash_mask reg = hash_cap reg - 1 -> hash_of sl m -> countb occ sl = count reg -> count reg * 4 <= hash_cap reg * 3 ->
  u16_cap (hash_cap reg) ->
  exists reg', (let! r := if u32 (hash_cap reg * 3) <? u32 ((count reg + 1) * 4) then hash_grow alloc_all reg else Ret reg in
      let! sl := deref (slots r) in
      let! sl := hash_insert sl (hash_mask r) d (count reg) in
      let! es := deref (entries r) in
      let! es := append_entry es ecap d (count reg) in
      Ret (count reg, mkDimRegistry (mode r) (u16 (count r + 1)) cap (Some (bs ++ [bin])) (Some es) ecap (Some sl) (hash_cap r)
                (hash_mask r) (lookups r) (upgrades r))) = Ret (count reg, reg') /\
    reg_inv reg' (<[d := count reg]> m) (bs ++ [bin]).
Proof.
  intros [[Hcnt Hlt] [Hd Hm] [Hc Hclt] [Hec Helt] Hdom Hdom0 [Hes Hlen]] Hmode Hsl Hz Hmask Hh Hcs Hload Hcap.
  pose proof (u16_cap_range _ Hcap).
  assert (exists reg1 sl1, (if u32 (hash_cap reg * 3) <? u32 ((count reg + 1) * 4) then hash_grow alloc_all reg else Ret reg) = Ret reg1 /\
    count reg1 = count reg /\ mode reg1 = DIM_REG_HASH /\ entries reg1 = Some es /\ slots reg1 = Some sl1 /\ zlen sl1 = hash_cap reg1 /\
    hash_mask reg1 = hash_cap reg1 - 1 /\ hash_of sl1 m /\ countb occ sl1 = count reg /\ (count reg + 1) * 4 <= hash_cap reg1 * 3 /\
    u16_cap (hash_cap reg1)) as (reg1 & sl1 & -> & E1 & E2 & E3 & E4 & E5 & E6 & Hh1 & E7 & E8 & E9).
  { rewrite !u32_id by lia. destruct (Z.ltb_spec (hash_cap reg * 3) ((count reg + 1) * 4)) as [Hg|Hg].
    - destruct (hash_grow_spec alloc_all reg sl m) as (sl' & -> & H1 & H2 & H3 & H4); auto; [lia|].
      eexists _, sl'. split; [done|]. cbn. repeat (split; [done||lia|]). done.
    - exists reg, sl. repeat (split; [done||lia|]). done. }
  cbn [res_bind]. rewrite E4. cbn [deref res_bind]. destruct Hh1 as (Ht & Hcl & Hr & Hu & Hsz & Hst). rewrite E6, <- E5.
  destruct (hash_insert_spec sl1 Ht Hcl Hsz d (count reg)) as (sl2 & -> & H1 & H2 & H3 & H4 & H5 & H6 & H7); auto; try lia.
  { intros [d' b'] Hs <-. apply Hst in Hs. simpl in Hm. congruence. }
  cbn [res_bind]. rewrite E3. cbn [deref res_bind]. unfold append_entry. rewrite Hlen. zdec. cbn [res_bind].
  rewrite E1, u16_id by lia. eexists. split; [done|].
  constructor; cbn; auto; try (split; [done|lia]); [rewrite zlen_snoc; lia|].
  eexists. split; [done|]. split; [rewrite zlen_snoc; lia|]. rewrite E2. exists sl2.
  split; [done|]. split; [lia|]. split; [done|]. split; [|split; [lia|split; [lia|by rewrite E5]]].
  split; [done|]. split; [done|]. split; [done|]. split; [done|]. split; [lia|].
  intros d' b'. rewrite H7, Hst. destruct (Z.eq_dec d' d) as [->|Hne].
  - rewrite lookup_insert_eq, Hm. split; [intros [[= ->]|]; done|intros [= ->]; auto].
  - rewrite lookup_insert_ne by auto. split; [intros [[= -> ->]|]; done|auto].
Qed.

(** ** Properties *)

(** A lookup returns the bin index of a registered dimension and -1 for
    any other, in every mode of the registry. *)
Theorem dim_registry_find_correct reg m bs d :
  reg_inv reg m bs -> d <> 0 ->
  exists reg', dim_registry_find reg d = Ret (default (-1) (m !! d), reg') /\ reg_inv reg' m bs.
Proof. intros Hinv Hd. rewrite (find_spec reg m bs) by auto. eauto using bump_inv. Qed.

(** C28: registering a dimension, when memory is granted, refines map insertion through every mode and
    upgrade, up to 24576 dimensions: a new dimension gets the next index and its bin is found there, a
    registered one keeps its index and bin. *)
Theorem dim_registry_put_correct reg m bs d bin :
  reg_inv reg m bs -> d <> 0 -> count reg < 24576 ->
  exists reg', 
    dim_registry_put alloc_all reg d bin = Ret (default (count reg) (m !! d), reg') /\
    reg_inv reg' (if decide (m !! d = None) then <[d := count reg]> m else m)
                 (if decide (m !! d = None) then bs ++ [bin] else bs) /\
    (m !! d = None -> dim_registry_get_bin reg' (count reg) = Ret bin).
Proof.
  intros Hinv Hd Hlt. unfold dim_registry_put. rewrite (find_spec reg m bs) by auto. cbn [res_bind].
  pose proof (bump_inv _ _ _ Hinv) as [Hb Hcnt [Hc1 Hc2] [He1 He2] Hdom (es & Hes & Hlen & Hmode)].
  change (count reg) with (count (bump_lookups reg)) in *. set (reg1 := bump_lookups reg) in *.
  assert (0 <= count reg1) by (rewrite Hcnt; apply zlen_nonneg).
  destruct (m !! d) as [b|] eqn:Em; cbn [default].
  { destruct (Hdom d b Em) as [_ ?]. cbn [from_option]. unfold id. zdec. exists reg1. rewrite !decide_False by done.
    split; [done|]. split; [by apply bump_inv|done]. }
  change (0 <=? -1) with false. cbv iota. rewrite !decide_True by done.
  destruct (grow_bins_spec alloc_all reg1) as (cap & -> & Hcap & Hcl); auto. rewrite Hb. cbn [deref res_bind]. rewrite <- Hcnt. zdec.
  destruct (grow_entries_spec alloc_all reg1) as (ecap & -> & Hecap & Hecl & Hecm); auto.
  assert (put_pre reg1 m bs d cap ecap es) as Hpre.
  { constructor; auto. - intros d' b'. by apply insert_dom. - intros d' b' Hx. by apply Hdom in Hx as [? _]. }
  assert (forall r reg', reg_inv reg' (<[d := count reg1]> m) (bs ++ [bin]) -> r = Ret (count reg1, reg') ->
    exists reg', r = Ret (count reg1, reg') /\ reg_inv reg' (<[d := count reg1]> m) (bs ++ [bin]) /\
      (None = @None Z -> dim_registry_get_bin reg' (count reg1) = Ret bin)) as Hfin.
  { intros r reg' Hi ->. exists reg'. split_and!; auto. intros _. unfold dim_registry_get_bin.
    rewrite (ri_bins _ _ _ Hi). cbn [deref res_bind]. apply rd_ret. split; [lia|]. rewrite Hcnt. unfold zlen.
    rewrite Nat2Z.id, lookup_app_r, Nat.sub_diag by lia. done. }
  destruct (mode reg1) eqn:Emode; cbn [negb].
  - destruct Hmode as [Heo H8]. rewrite Hes. cbn [deref res_bind].
    destruct (put_linear reg1 m bs d bin es cap ecap) as (reg' & E & Hi); auto. by eapply Hfin.
  - destruct Hmode as (Heo & Hso & H64 & H8). rewrite Hes. cbn [deref res_bind].
    destruct (put_sorted reg1 m bs d bin es cap ecap) as (reg' & E & Hi); auto; [lia|]. by eapply Hfin.
  - destruct Hmode as (sl & Hsl & Hz & Hmask & Hh & Hcs & Hload & Hcap').
    destruct (put_hash reg1 m bs d bin es sl cap ecap) as (reg' & E & Hi); auto. by eapply Hfin.
Qed.

(** The table of 32768 slots cannot grow: its doubled capacity wraps to 0 and
    the first slot moved is written outside the new, empty array. *)
Lemma hash_grow_wraps reg sl s :
  slots reg = Some sl -> hash_cap reg = 32768 -> s ∈ sl -> slot_free s = false -> hash_grow alloc_all reg = Ub.
Proof.
  intros Hsl Hcap Hin Hf. unfold hash_grow. rewrite Hsl, Hcap. cbn [deref res_bind alloc_all ok_slots negb].
  change (u16 (32768 * 2)) with 0. change (empty_slots 0) with (@nil DimRegHashSlot). change (u16 (0 - 1)) with 65535.
  assert (forall l, s ∈ l -> insert_slots [] 65535 l = Ub) as ->; auto.
  induction l as [|x l IH]; intros Hl; [by apply elem_of_nil in Hl|].
  apply elem_of_cons in Hl as [<-|Hl]; cbn [insert_slots].
  - rewrite Hf. unfold hash_insert. destruct (Z.to_nat (65535 + 1)) eqn:E; [lia|]. cbn [hash_insert_loop].
    unfold rd at 1. by destruct (0 <=? Z.land (dim_hash (hs_dim s)) 65535).
  - destruct (slot_free x); cbn [res_bind]; [by apply IH|].
    unfold hash_insert. destruct (Z.to_nat (65535 + 1)) eqn:E; [lia|]. cbn [hash_insert_loop].
    unfold rd at 1. by destruct (0 <=? Z.land (dim_hash (hs_dim x)) 65535).
Qed.

(** ** Witnesses *)

Definition reg0 : DimRegistry := dim_registry_init true true.

Lemma reg0_inv : reg_inv reg0 ∅ [].
Proof.
  constructor; try done.
  - split; [exists 3; split; [lia|done]|done].
  - split; [exists 3; split; [lia|done]|done].
  - exists []. split; [done|]. split; [done|]. split; [|done]. split; [constructor|].
    intros d b. rewrite lookup_empty, elem_of_nil. done.
Qed.

Lemma dim_registry_find_correct_witness :
  exists reg', dim_registry_find reg0 128 = Ret (default (-1) ((∅ : gmap Z Z) !! 128), reg') /\ reg_inv reg' ∅ [].
Proof. apply (dim_registry_find_correct reg0 ∅ [] 128); [apply reg0_inv | lia]. Defined.

Lemma dim_registry_put_correct_witness :
  exists r reg', dim_registry_put alloc_all reg0 128 5000 = Ret (r, reg') /\
    reg_inv reg' (<[128 := 0]> ∅) [5000] /\ dim_registry_get_bin reg' 0 = Ret 5000.
Proof.
  destruct (dim_registry_put_correct reg0 ∅ [] 128 5000) as (reg' & H1 & H2 & H3); [apply reg0_inv | lia | reflexivity |].
  eexists _, reg'. split; [exact H1|]. split; [exact H2 | exact (H3 eq_refl)].
Defined.
