(* ===== verification/Overlay.v ===== *)
(** Overlay: the write isolation buffer of a checkpoint, src/overlay.c.

    A linear-probing table from entry ids to embedding buffers. The buffers come
    from a dedicated slab pool, which the overlay uses through the interface
    [ObjectPool]; [slab_object_pool] shows that the slab allocator keeps it. *)

From S2P Require Import Prelude LinearProbe SlabAlloc.

(** ** What the overlay needs from its pool *)

(** [pool_alloc] is one allocation, 0 for a failure; [pool_owns p A] says that
    [A] are the objects of [p] that are handed out. *)
Class ObjectPool (P : Type) := {
  pool_alloc : P -> res (Z * P);
  pool_owns : P -> list Z -> Prop;
  pool_alloc_ok p A : pool_owns p A ->
    exists ptr p', pool_alloc p = Ret (ptr, p') /\
      (ptr = 0 /\ pool_owns p' A \/ ptr <> 0 /\ ~ (ptr ∈ A) /\ pool_owns p' (ptr :: A))
}.

Lemma slab_pool_alloc_ok (p : SlabPool * Mem) A :
  pool_inv p.1 (links p.2) A /\ os_ok p.1 (os p.2) ->
  exists ptr p',
    (let! '(ptr, p1, m1) := slab_pool_alloc p.1 p.2 in Ret (ptr, (p1, m1))) = Ret (ptr, p') /\
    (ptr = 0 /\ (pool_inv p'.1 (links p'.2) A /\ os_ok p'.1 (os p'.2)) \/
     ptr <> 0 /\ ~ (ptr ∈ A) /\ (pool_inv p'.1 (links p'.2) (ptr :: A) /\ os_ok p'.1 (os p'.2))).
Proof.
  intros [Hinv Hos]. unfold slab_pool_alloc. destruct p as [p m]. cbn [fst snd] in *.
  destruct (Z.eqb_spec (free_head p) 0) as [H0|H0]; cbn [negb].
  - destruct (slab_pool_grow_ok p m A Hinv Hos) as (p1 & m1 & -> & H1 & H2 & _).
    destruct (Z.eqb_spec (free_head p1) 0) as [Hz|Hz]; [exists 0, (p1, m1); split; [done|]; by left|].
    destruct (took_inv p1 (links m1) A H1 Hz) as (nx & Hnx & _ & Hni & Hp). unfold pop. rewrite Hnx. cbn [deref res_bind].
    set (p2 := mkSlabPool _ _ _ _ _ _ _ _ _ _ _). assert (took p1 p2 nx) as Ht by done. destruct (Hp p2 Ht) as [Hi _].
    exists (free_head p1), (p2, m1). split; [done|]. right. split; [done|]. split; [done|]. split; [done|by eapply took_os_ok].
  - destruct (took_inv p (links m) A Hinv H0) as (nx & Hnx & _ & Hni & Hp). unfold pop. rewrite Hnx. cbn [deref res_bind].
    set (p2 := mkSlabPool _ _ _ _ _ _ _ _ _ _ _). assert (took p p2 nx) as Ht by done. destruct (Hp p2 Ht) as [Hi _].
    exists (free_head p), (p2, m). split; [done|]. right. split; [done|]. split; [done|]. split; [done|by eapply took_os_ok].
Qed.

(** The slab pool with its memory is such a pool. *)
#[export] Instance slab_object_pool : ObjectPool (SlabPool * Mem) := {|
  pool_alloc p := let! '(ptr, p1, m1) := slab_pool_alloc p.1 p.2 in Ret (ptr, (p1, m1));
  pool_owns p A := pool_inv p.1 (links p.2) A /\ os_ok p.1 (os p.2);
  pool_alloc_ok := slab_pool_alloc_ok
|}.

(** ** State (overlay.h) *)

Definition OVERLAY_EMPTY : Z := UINT32_MAX.
Definition OVERLAY_REHASH_BATCH : Z := 16.
Definition OVERLAY_INITIAL_CAP : Z := 256.
Definition OVERLAY_TOMB_INITIAL : Z := 256.

(** [data] is the address of the embedding, 0 for [NULL]. *)
Record OverlaySlot : Type := mkOverlaySlot { entry_id : Z; data : Z }.

Definition empty_slot : OverlaySlot := mkOverlaySlot OVERLAY_EMPTY 0.

(** [emb]: the embeddings in the pool's objects, as bit patterns of floats. *)
Record OverlayBuffer (P : Type) : Type := mkOverlayBuffer {
  slots : option (list OverlaySlot);
  capacity : Z; count : Z; mask : Z;
  old_slots : option (list OverlaySlot);
  old_capacity : Z; old_mask : Z; rehash_cursor : Z;
  tombstones : option (list Z);
  tomb_capacity : Z;
  memory_used : Z; budget_bytes : Z;
  data_pool : option P;
  emb : gmap Z (list Z)
}.
Arguments mkOverlayBuffer {P}.
Arguments slots {P}. Arguments capacity {P}. Arguments count {P}. Arguments mask {P}.
Arguments old_slots {P}. Arguments old_capacity {P}. Arguments old_mask {P}. Arguments rehash_cursor {P}.
Arguments tombstones {P}. Arguments tomb_capacity {P}. Arguments memory_used {P}. Arguments budget_bytes {P}.
Arguments data_pool {P}. Arguments emb {P}.

Definition overlay_hash (id : Z) : Z :=
  let h := Z.lxor id (Z.shiftr id 16) in
  let h := u32 (h * 0x45d9f3b) in
  Z.lxor h (Z.shiftr h 16).

(** The hash of a 32-bit id. *)
Lemma overlay_hash_nonneg id : 0 <= overlay_hash (u32 id).
Proof.
  unfold overlay_hash. apply Z.lxor_nonneg. pose proof (u32_range (Z.lxor (u32 id) (Z.shiftr (u32 id) 16) * 0x45d9f3b)).
  assert (0 <= Z.shiftr (u32 (Z.lxor (u32 id) (Z.shiftr (u32 id) 16) * 0x45d9f3b)) 16) by (apply Z.shiftr_nonneg; lia). tauto.
Qed.

#[export] Instance overlay_slot : ProbeSlot OverlaySlot := {|
  skey := entry_id; ekey := OVERLAY_EMPTY; phash k := overlay_hash (u32 k); phash_nonneg := overlay_hash_nonneg
|}.

(** ** Operations *)

Section ops.
Context {P : Type} `{!ObjectPool P}.
Implicit Types ob : OverlayBuffer P.

Definition overlay_full ob : bool :=
  if budget_bytes ob =? 0 then false else budget_bytes ob <=? memory_used ob.

(** The slot [insert_into_table] returns, with its data set. *)
Definition insert_into_table (sl : list OverlaySlot) (mask : Z) (s : OverlaySlot) : res (list OverlaySlot) :=
  let! h := probe_free (probe_fuel sl) sl mask (home mask (entry_id s)) in
  wr sl h s.

Fixpoint rehash_loop (fuel : nat) (sl : list OverlaySlot) (mask : Z) (old : list OverlaySlot) (old_cap cursor migrated : Z) :
    res (list OverlaySlot * list OverlaySlot * Z) :=
  match fuel with
  | O => Diverge
  | S fuel =>
    if (cursor <? old_cap) && (migrated <? OVERLAY_REHASH_BATCH) then
      let! s := rd old cursor in
      if negb (entry_id s =? OVERLAY_EMPTY) then
        let! sl := insert_into_table sl mask s in
        let! old := wr old cursor (mkOverlaySlot OVERLAY_EMPTY (data s)) in
        rehash_loop fuel sl mask old old_cap (u32 (cursor + 1)) (migrated + 1)
      else rehash_loop fuel sl mask old old_cap (u32 (cursor + 1)) migrated
    else Ret (sl, old, cursor)
  end.

Definition overlay_rehash_step ob : res (OverlayBuffer P) :=
  match old_slots ob with
  | None => Ret ob
  | Some old =>
    let! sl := deref (slots ob) in
    let! '(sl, old, cursor) := rehash_loop (S (length old)) sl (mask ob) old (old_capacity ob) (rehash_cursor ob) 0 in
    let '(old, ocap, omask, cursor) :=
      if old_capacity ob <=? cursor then (None, 0, 0, 0) else (Some old, old_capacity ob, old_mask ob, cursor) in
    Ret (mkOverlayBuffer (Some sl) (capacity ob) (count ob) (mask ob) old ocap omask cursor
           (tombstones ob) (tomb_capacity ob) (memory_used ob) (budget_bytes ob) (data_pool ob) (emb ob))
  end.

Definition overlay_begin_grow (alloc_ok : bool) ob : graveldb_status_t * OverlayBuffer P :=
  let new_cap := u32 (capacity ob * 2) in
  if negb alloc_ok then (GRAVELDB_ERR_OOM, ob)
  else (GRAVELDB_OK,
        mkOverlayBuffer (Some (replicate (Z.to_nat new_cap) empty_slot)) new_cap (count ob) (u32 (new_cap - 1))
          (slots ob) (capacity ob) (mask ob) 0
          (tombstones ob) (tomb_capacity ob) (memory_used ob) (budget_bytes ob) (data_pool ob) (emb ob)).

(** The cleared structure; the pool has been destroyed with the embeddings. *)
Definition zero_overlay : OverlayBuffer P :=
  mkOverlayBuffer None 0 0 0 None 0 0 0 None 0 0 0 None ∅.

(** [ok_slots], [ok_tombs]: the two [malloc]s. [has_alloc]: the allocator
    pointer. [pool]: the answer of [slab_pool_create]. *)
Definition overlay_init (ok_slots ok_tombs has_alloc : bool) (pool : option P) ob (dim : Z) : graveldb_status_t * OverlayBuffer P :=
  let cap := OVERLAY_INITIAL_CAP in
  if negb ok_slots then
    (GRAVELDB_ERR_OOM, mkOverlayBuffer None (capacity ob) (count ob) (mask ob) (old_slots ob) (old_capacity ob) (old_mask ob)
       (rehash_cursor ob) (tombstones ob) (tomb_capacity ob) (memory_used ob) (budget_bytes ob) (data_pool ob) (emb ob))
  else
    let sl := replicate (Z.to_nat cap) empty_slot in
    if negb ok_tombs then
      (GRAVELDB_ERR_OOM, mkOverlayBuffer None cap 0 (cap - 1) None 0 0 0 None OVERLAY_TOMB_INITIAL
         (memory_used ob) (budget_bytes ob) (data_pool ob) (emb ob))
    else if negb has_alloc || (dim <=? 0) then (GRAVELDB_ERR_INVALID, zero_overlay)
    else
      match pool with
      | None => (GRAVELDB_ERR_OOM, zero_overlay)
      | Some p => (GRAVELDB_OK, mkOverlayBuffer (Some sl) cap 0 (cap - 1) None 0 0 0 (Some []) OVERLAY_TOMB_INITIAL 0 0 (Some p) ∅)
      end.

Definition overlay_destroy ob : OverlayBuffer P := zero_overlay.

Definition set_emb ob (e : gmap Z (list Z)) : OverlayBuffer P :=
  mkOverlayBuffer (slots ob) (capacity ob) (count ob) (mask ob) (old_slots ob) (old_capacity ob) (old_mask ob)
    (rehash_cursor ob) (tombstones ob) (tomb_capacity ob) (memory_used ob) (budget_bytes ob) (data_pool ob) e.

(** [memcpy] to and from the object at an address of the data pool. [d] is what is copied, [dim] floats.
    The objects have the size for the dimension given to [overlay_init]; dimbin.c passes the same
    dimension to every call, so that a copy fills its object and never goes past it. *)
Definition store_emb ob (ptr : Z) (d : list Z) : res (OverlayBuffer P) :=
  if ptr =? 0 then Ub else Ret (set_emb ob (<[ptr := d]> (emb ob))).
Definition load_emb ob (ptr : Z) : res (list Z) := deref (emb ob !! ptr).

(** The search in the current table, and the one in the previous table. *)
Definition probe_new ob (id : Z) : res (list OverlaySlot * probe_result) :=
  let! sl := deref (slots ob) in
  let h := home (mask ob) id in
  let! r := probe (probe_fuel sl) sl (mask ob) id (Some h) h in
  Ret (sl, r).

Definition probe_old ob (id : Z) : res (option OverlaySlot) :=
  match old_slots ob with
  | None => Ret None
  | Some old =>
    let oh := home (old_mask ob) id in
    let! r := probe (probe_fuel old) old (old_mask ob) id (Some oh) oh in
    match r with PFound i => let! s := rd old i in Ret (Some s) | _ => Ret None end
  end.

Definition SLOT_SIZE : Z := 16.

(** The search and the write of [overlay_put], after the table has grown. *)
Definition put_at ob (id : Z) (d : list Z) (dim : Z) : res (graveldb_status_t * OverlayBuffer P) :=
  let! '(sl, r) := probe_new ob id in
  match r with
  | PFound h => let! s := rd sl h in let! ob := store_emb ob (data s) d in Ret (GRAVELDB_OK, ob)
  | PEmpty h | PWrapped h =>
    let! o := probe_old ob id in
    match o with
    | Some s => let! ob := store_emb ob (data s) d in Ret (GRAVELDB_OK, ob)
    | None =>
      let! p := deref (data_pool ob) in
      let! '(ptr, p) := pool_alloc p in
      let! s := rd sl h in
      let! sl' := wr sl h (if ptr =? 0 then mkOverlaySlot OVERLAY_EMPTY 0 else mkOverlaySlot id ptr) in
      let with_slots c mu e := mkOverlayBuffer (Some sl') (capacity ob) c (mask ob) (old_slots ob) (old_capacity ob) (old_mask ob)
        (rehash_cursor ob) (tombstones ob) (tomb_capacity ob) mu (budget_bytes ob) (Some p) e in
      if ptr =? 0 then Ret (GRAVELDB_ERR_OOM, with_slots (count ob) (memory_used ob) (emb ob))
      else Ret (GRAVELDB_OK, with_slots (u32 (count ob + 1)) (u64 (memory_used ob + (dim * 4 + SLOT_SIZE))) (<[ptr := d]> (emb ob)))
    end
  end.

Definition overlay_put (alloc_ok : bool) ob (id : Z) (d : list Z) (dim : Z) : res (graveldb_status_t * OverlayBuffer P) :=
  let! ob := overlay_rehash_step ob in
  let '(st, ob) :=
    match old_slots ob with
    | None => if u32 (capacity ob * 7) <? u32 (count ob * 10) then overlay_begin_grow alloc_ok ob else (GRAVELDB_OK, ob)
    | Some _ => (GRAVELDB_OK, ob)
    end in
  if negb (bool_decide (st = GRAVELDB_OK)) then Ret (st, ob) else put_at ob id d dim.

(** The slot of an id in either table. *)
Definition find_slot ob (id : Z) : res (option OverlaySlot) :=
  let! '(sl, r) := probe_new ob id in
  match r with
  | PFound h => let! s := rd sl h in Ret (Some s)
  | PEmpty _ | PWrapped _ => probe_old ob id
  end.

(** [Some d]: true, with [buf] filled; [None]: false. *)
Definition overlay_get ob (id : Z) : res (option (list Z) * OverlayBuffer P) :=
  let! ob := overlay_rehash_step ob in
  let! o := find_slot ob id in
  match o with
  | Some s => let! d := load_emb ob (data s) in Ret (Some d, ob)
  | None => Ret (None, ob)
  end.

Definition overlay_contains ob (id : Z) : res (bool * OverlayBuffer P) :=
  let! ob := overlay_rehash_step ob in
  let! o := find_slot ob id in
  Ret (match o with Some _ => true | None => false end, ob).

Definition overlay_tombstone (alloc_ok : bool) ob (id : Z) : res (graveldb_status_t * OverlayBuffer P) :=
  let set_tombs t c := mkOverlayBuffer (slots ob) (capacity ob) (count ob) (mask ob) (old_slots ob) (old_capacity ob) (old_mask ob)
    (rehash_cursor ob) t c (memory_used ob) (budget_bytes ob) (data_pool ob) (emb ob) in
  let! ts := deref (tombstones ob) in
  if tomb_capacity ob <=? zlen ts then
    let cap := u32 (tomb_capacity ob * 2) in
    if negb alloc_ok then Ret (GRAVELDB_ERR_OOM, set_tombs None cap)
    else if cap <=? zlen ts then Ub
    else Ret (GRAVELDB_OK, set_tombs (Some (ts ++ [id])) cap)
  else Ret (GRAVELDB_OK, set_tombs (Some (ts ++ [id])) (tomb_capacity ob)).

End ops.

(** ** The invariant of an overlay that is not growing *)

Section correct.
Context {P : Type} `{!ObjectPool P}.
Implicit Types (ob : OverlayBuffer P) (m : gmap Z (list Z)).

#[local] Abbreviation nocc := (countb (occ (Slot := OverlaySlot))).

(** The buffers of the stored slots are distinct objects of the pool, and the
    entries they hold are [m]. *)
Record ov_data (sl : list OverlaySlot) (e : gmap Z (list Z)) (A : list Z) m : Prop := {
  od_owned : forall s, stored sl s -> data s <> 0 /\ data s ∈ A;
  od_inj : forall s t, stored sl s -> stored sl t -> data s = data t -> s = t;
  od_some : forall s, stored sl s -> is_Some (e !! data s);
  od_models : forall id d, m !! id = Some d <-> exists s, stored sl s /\ entry_id s = id /\ e !! data s = Some d
}.

Record ov_inv ob m : Prop := {
  ov_old : old_slots ob = None;
  ov_slots : exists sl p A,
    slots ob = Some sl /\ data_pool ob = Some p /\ pool_owns p A /\
    table sl /\ zlen sl <= 2 ^ 28 /\ reach sl /\ uniq sl /\
    capacity ob = zlen sl /\ mask ob = zlen sl - 1 /\ count ob = nocc sl /\
    10 * count ob <= 7 * zlen sl + 10 /\ 4 <= zlen sl /\ ov_data sl (emb ob) A m
}.

(** The next insertion does not start to grow the table. *)
Definition ov_room ob : Prop := 10 * count ob <= 7 * capacity ob.

Lemma od_lookup sl e A m s : ov_data sl e A m -> stored sl s -> m !! entry_id s = e !! data s.
Proof.
  intros [_ _ Hs Hm] Hst. destruct (Hs s Hst) as [d Hd]. rewrite Hd. apply Hm. eauto.
Qed.
Lemma od_absent sl e A m k : ov_data sl e A m -> absent sl k -> m !! k = None.
Proof.
  intros [_ _ _ Hm] Ha. destruct (m !! k) as [d|] eqn:E; [|done].
  apply Hm in E as (s & Hs & Hk & _). by apply Ha in Hs.
Qed.

(** Overwriting the buffer of a stored slot. *)
Lemma od_update sl e A m s d :
  uniq sl -> ov_data sl e A m -> stored sl s -> ov_data sl (<[data s := d]> e) A (<[entry_id s := d]> m).
Proof.
  intros Hu [H1 H2 H3 H4] Hs. split; auto.
  - intros t Ht. rewrite lookup_insert. case_decide; eauto.
  - intros id d'. rewrite lookup_insert. case_decide as E.
    + subst. split.
      * intros [= <-]. exists s. rewrite lookup_insert_eq. auto.
      * intros (t & Ht & E & Hd). assert (t = s) as -> by (apply stored_rd in Hs as (i & Hi & _); by eapply probe_found_uniq).
        rewrite lookup_insert_eq in Hd. congruence.
    + rewrite H4. split; intros (t & Ht & Hk & Hd); exists t; (split; [done|]; split; [done|]).
      * rewrite lookup_insert_ne; [done|]. intros E'. apply H2 in E'; auto. congruence.
      * rewrite lookup_insert_ne in Hd; [done|]. intros E'. apply H2 in E'; auto. congruence.
Qed.

(** A new slot with a fresh object. *)
Lemma od_insert sl sl' e A m id ptr d :
  ov_data sl e A m -> absent sl id -> ptr <> 0 -> ~ (ptr ∈ A) ->
  (forall t, stored sl' t <-> t = mkOverlaySlot id ptr \/ stored sl t) ->
  ov_data sl' (<[ptr := d]> e) (ptr :: A) (<[id := d]> m).
Proof.
  intros Hod Ha Hz Hf Hst. pose proof Hod as [H1 H2 H3 H4].
  assert (forall t, stored sl t -> ptr <> data t) as Hne by (intros t Ht ->; by apply Hf, H1).
  split.
  - intros s [->|Hs]%Hst; [split; [done|]; set_solver|]. split; [by apply H1|]. apply elem_of_cons. right. by apply H1.
  - intros s t [->|Hs]%Hst [->|Ht]%Hst E; auto; [by apply Hne in E|by apply eq_sym, Hne in E].
  - intros s [->|Hs]%Hst; simpl; [rewrite lookup_insert_eq; eauto|]. rewrite lookup_insert_ne by auto. auto.
  - intros id' d'. rewrite lookup_insert. case_decide as E.
    + subst id'. split.
      * intros [= <-]. exists (mkOverlaySlot id ptr). rewrite Hst. simpl. rewrite lookup_insert_eq. auto.
      * intros (s & [->|Hs]%Hst & Hk & Hd); [simpl in Hd; rewrite lookup_insert_eq in Hd; congruence|]. by apply Ha in Hs.
    + rewrite H4. split; intros (s & Hs & Hk & Hd).
      * exists s. rewrite Hst, lookup_insert_ne by auto. auto.
      * apply Hst in Hs as [->|Hs]; [simpl in Hk; congruence|]. rewrite lookup_insert_ne in Hd by auto. eauto.
Qed.

Lemma od_same sl sl' e A m :
  ov_data sl e A m -> (forall t, stored sl' t <-> stored sl t) -> ov_data sl' e A m.
Proof.
  intros [H1 H2 H3 H4] H. split; intros *; rewrite ?H; auto. rewrite H4. by setoid_rewrite H.
Qed.

(** An empty slot rewritten as empty changes nothing a search sees. *)
Lemma rewrite_empty (sl : list OverlaySlot) h s E :
  rd sl h = Ret s -> occ s = false -> occ E = false -> reach sl -> uniq sl ->
  let sl' := <[Z.to_nat h := E]> sl in
  reach sl' /\ uniq sl' /\ nocc sl' = nocc sl /\ forall t, stored sl' t <-> stored sl t.
Proof.
  intros Hs Ho HE Hr Hu sl'. pose proof (rd_ret_range _ _ _ Hs) as Hh.
  assert (forall i t, occ t = true -> rd sl' i = Ret t <-> rd sl i = Ret t) as Hsame.
  { intros i t Ht. unfold sl'. destruct (decide (i = h)) as [->|].
    - rewrite rd_insert_eq by done. split; intros; simplify_eq; congruence.
    - by rewrite rd_insert_ne by (auto; lia). }
  split; [|split; [by apply uniq_clear|split]].
  - intros i t Hi Ht d. unfold sl' at 1 2 3 4 5. rewrite zlen_insert. intros Hd. apply Hsame in Hi; [|done].
    destruct (Hr i t Hi Ht d Hd) as (x & Hx & Hox). exists x. split; [|done]. by apply Hsame.
  - unfold sl'. rewrite (countb_insert _ _ _ _ s) by done. rewrite Ho, HE. lia.
  - intros t. rewrite !stored_rd. split; intros (i & Hi & Ht); exists i; (split; [|done]); by apply Hsame.
Qed.

Lemma ov_probe ob m sl id :
  ov_inv ob m -> slots ob = Some sl -> id <> OVERLAY_EMPTY ->
  exists r, probe_new ob id = Ret (sl, r) /\ probe_post sl id r /\ (forall h, r <> PWrapped h) /\
    match r with PFound h => exists s, rd sl h = Ret s /\ skey s = id /\ stored sl s | _ => absent sl id end.
Proof.
  intros [_ (sl' & p & A & Hsl & _ & _ & Ht & Hb & Hr & _ & _ & Hm & Hc & Hl & H4 & _)] E Hid. assert (sl' = sl) as -> by congruence.
  destruct (probe_spec sl id (Some (home (zlen sl - 1) id))) as (r & H1 & H2 & _); [done|done|by left|].
  pose proof (probe_complete sl id r Ht Hr H2) as Hpc.
  exists r. unfold probe_new. rewrite E, Hm. cbn [deref res_bind]. rewrite H1. split; [done|]. split; [done|]. split; [|by destruct r].
  intros h ->. simpl in H2. destruct (has_empty sl) as (i & s & Hi & Ho); [lia|].
  destruct H2 as [_ H2]. destruct (H2 i) as (s' & Hs' & Ho' & _); [by eapply rd_ret_range|]. congruence.
Qed.

Lemma ov_rehash ob m : ov_inv ob m -> overlay_rehash_step ob = Ret ob.
Proof. intros [H _]. unfold overlay_rehash_step. by rewrite H. Qed.

Lemma ov_find ob m sl id :
  ov_inv ob m -> slots ob = Some sl -> id <> OVERLAY_EMPTY ->
  exists o, find_slot ob id = Ret o /\
    match o with Some s => stored sl s /\ entry_id s = id | None => absent sl id end.
Proof.
  intros Hi Hs Hid. destruct (ov_probe ob m sl id Hi Hs Hid) as (r & Hp & _ & _ & Hc). unfold find_slot. rewrite Hp. cbn [res_bind].
  unfold probe_old. rewrite (ov_old _ _ Hi). destruct r as [h|h|h]; [|by exists None|by exists None].
  destruct Hc as (s & -> & Hk & Hst). exists (Some s). auto.
Qed.

Lemma ov_put_at ob m id d dim :
  ov_inv ob m -> ov_room ob -> id <> OVERLAY_EMPTY ->
  exists st ob', put_at ob id d dim = Ret (st, ob') /\ capacity ob' = capacity ob /\ count ob <= count ob' <= count ob + 1 /\
    (st = GRAVELDB_OK /\ ov_inv ob' (<[id := d]> m) \/
     st = GRAVELDB_ERR_OOM /\ m !! id = None /\ ov_inv ob' m).
Proof.
  intros Hi Hroom Hid. pose proof Hi as [Hold (sl & p & A & Hsl & Hp & Ho & Ht & Hb & Hr & Hu & Hc & Hm & Hn & Hl & H4 & Hd)].
  destruct (ov_probe ob m sl id Hi Hsl Hid) as (r & Hpr & Hpost & Hw & Hres). unfold put_at, probe_old. rewrite Hpr, Hold. cbn [res_bind].
  destruct r as [h|h|h]; [| |by destruct (Hw h)].
  - destruct Hres as (s & Hs & <- & Hst). rewrite Hs. cbn [res_bind]. unfold store_emb.
    destruct (od_owned _ _ _ _ Hd s Hst) as [Hz _]. rewrite (proj2 (Z.eqb_neq _ _) Hz). eexists _, _. split; [done|]. split; [done|]. split; [simpl; lia|]. left. split; [done|].
    split; [done|]. exists sl, p, A. do 12 (split; [done|]). by apply od_update.
  - destruct Hpost as [(s & Hs & Hos) Hpath]. destruct (pool_alloc_ok p A Ho) as (ptr & p' & Hal & Hcase).
    rewrite Hp. cbn [deref res_bind]. rewrite Hal. cbn [res_bind]. rewrite Hs. cbn [res_bind].
    pose proof (rd_ret_range _ _ _ Hs) as Hh. rewrite wr_ret by done. cbn [res_bind].
    destruct (Z.eqb_spec ptr 0) as [->|Hz].
    + destruct Hcase as [[_ Ho']|[Hz _]]; [|done]. eexists _, _. split; [done|]. split; [done|]. split; [simpl; lia|]. right. split; [done|].
      split; [by eapply od_absent|]. destruct (rewrite_empty sl h s empty_slot Hs Hos eq_refl Hr Hu) as (Hr' & Hu' & Hn' & Hst').
      split; [done|]. eexists _, p', A. simpl. rewrite zlen_insert.
      do 3 (split; [done|]). split; [by apply table_insert|]. do 5 (split; [done|]).
      split; [by rewrite Hn; symmetry; exact Hn'|]. do 2 (split; [done|]). by eapply od_same.
    + destruct Hcase as [[? _]|(_ & Hf & Ho')]; [done|].
      pose proof (countb_le occ sl). pose proof (countb_nonneg occ sl).
      assert (u32 (count ob + 1) = count ob + 1) as Eu by (apply u32_id; lia).
      eexists _, _. split; [done|]. split; [done|]. split; [simpl; lia|]. left. split; [done|].
      assert (occ (mkOverlaySlot id ptr) = true) as Hocc by (by apply occ_true).
      pose proof (fun t => stored_insert sl h (mkOverlaySlot id ptr) s t Hs Hos Hocc) as Hst.
      split; [done|]. eexists _, p', (ptr :: A). simpl. rewrite zlen_insert.
      assert (nocc (<[Z.to_nat h := mkOverlaySlot id ptr]> sl) = nocc sl + 1) as Hn'.
      { rewrite (countb_insert _ _ _ _ s) by done. rewrite Hos, Hocc. lia. }
      unfold ov_room in Hroom. rewrite Eu.
      do 3 (split; [done|]). split; [by apply table_insert|]. split; [done|]. split; [by eapply reach_insert|].
      split; [by eapply uniq_insert|]. do 2 (split; [done|]). split; [lia|]. split; [lia|]. split; [done|]. by apply (od_insert sl).
Qed.

Lemma overlay_put_spec ob m id d dim alloc_ok :
  ov_inv ob m -> ov_room ob -> 0 <= id < OVERLAY_EMPTY ->
  exists st ob', overlay_put alloc_ok ob id d dim = Ret (st, ob') /\ capacity ob' = capacity ob /\ count ob <= count ob' <= count ob + 1 /\
    (st = GRAVELDB_OK /\ ov_inv ob' (<[id := d]> m) \/
     st = GRAVELDB_ERR_OOM /\ m !! id = None /\ ov_inv ob' m).
Proof.
  intros Hi Hroom Hid. unfold overlay_put. rewrite (ov_rehash ob m Hi). cbn [res_bind].
  pose proof Hi as [Hold (sl & p & A & _ & _ & _ & Ht & Hb & _ & _ & Hc & _ & Hn & Hl & _)]. rewrite Hold.
  pose proof (countb_nonneg occ sl). unfold ov_room in Hroom.
  rewrite !u32_id by lia. rewrite (proj2 (Z.ltb_ge _ _)) by lia. apply ov_put_at; auto. lia.
Qed.

(** C29: while the overlay is not growing, [overlay_put] ends, and either stores the
    embedding under the id, whatever it held before, and keeps every other
    entry, or reports that no object could be allocated and changes no entry. *)
Theorem overlay_put_correct ob m id d dim alloc_ok :
  ov_inv ob m -> ov_room ob -> 0 <= id < OVERLAY_EMPTY ->
  exists st ob', overlay_put alloc_ok ob id d dim = Ret (st, ob') /\
    (st = GRAVELDB_OK /\ ov_inv ob' (<[id := d]> m) \/
     st = GRAVELDB_ERR_OOM /\ m !! id = None /\ ov_inv ob' m).
Proof.
  intros Hi Hroom Hid. destruct (overlay_put_spec ob m id d dim alloc_ok Hi Hroom Hid) as (st & ob' & E & _ & _ & H). eauto.
Qed.

(** While the overlay is not growing, [overlay_get] and [overlay_contains] end,
    change nothing, and answer exactly what the overlay stores. *)
Theorem overlay_get_correct ob m id :
  ov_inv ob m -> 0 <= id < OVERLAY_EMPTY ->
  overlay_get ob id = Ret (m !! id, ob) /\
  overlay_contains ob id = Ret (match m !! id with Some _ => true | None => false end, ob).
Proof.
  intros Hi Hid. unfold overlay_get, overlay_contains. rewrite (ov_rehash ob m Hi). cbn [res_bind].
  pose proof Hi as [_ (sl & p & A & Hsl & _ & _ & _ & _ & _ & _ & _ & _ & _ & _ & _ & Hd)].
  destruct (ov_find ob m sl id Hi Hsl) as (o & Ho & Hc); [lia|]. rewrite Ho. cbn [res_bind].
  destruct o as [s|].
  - destruct Hc as [Hst <-]. rewrite (od_lookup _ _ _ _ s Hd Hst). unfold load_emb.
    destruct (od_some _ _ _ _ Hd s Hst) as [x ->]. done.
  - by rewrite (od_absent _ _ _ _ id Hd Hc).
Qed.

Lemma overlay_init_inv (p : P) ob dim :
  pool_owns p [] -> 0 < dim ->
  exists ob', overlay_init true true true (Some p) ob dim = (GRAVELDB_OK, ob') /\ ov_inv ob' ∅ /\ ov_room ob'.
Proof.
  intros Ho Hd. unfold overlay_init. cbn [negb orb]. rewrite (proj2 (Z.leb_gt _ _)) by lia.
  eexists. split; [done|]. set (sl := replicate _ _).
  assert (forall t, ~ stored sl t) as Hst by (intros t; by apply stored_replicate).
  split; [|done]. split; [done|]. exists sl, p, []. do 3 (split; [done|]).
  split; [split; [by exists 8|done]|]. split; [done|]. split; [by apply reach_replicate|]. split; [by apply uniq_replicate|].
  do 5 (split; [vm_compute; congruence|]). split; try (intros s Hs; by apply Hst in Hs); [intros s t Hs; by apply Hst in Hs|].
  intros id d. rewrite lookup_empty. split; [done|]. intros (s & Hs & _). by apply Hst in Hs.
Qed.

(** Entries put one after the other, and the statuses. *)
Fixpoint overlay_puts (ob : OverlayBuffer P) (l : list (Z * list Z)) (dim : Z) : res (list graveldb_status_t * OverlayBuffer P) :=
  match l with
  | [] => Ret ([], ob)
  | (id, d) :: l =>
    let! '(st, ob) := overlay_put true ob id d dim in
    let! '(sts, ob) := overlay_puts ob l dim in
    Ret (st :: sts, ob)
  end.

End correct.

(** ** Losing entries while the table grows *)

(** A pool of 64-byte objects with one page of 1024 of them. *)
Definition small_pool : SlabPool * Mem :=
  (mkSlabPool 64 64 65536 0 0 [] 0 0 0 0 0, mkMem ∅ [Some 65536]).

Definition sample_entries (n : nat) : list (Z * list Z) := (fun i => (Z.of_nat i, [Z.of_nat i])) <$> seq 0 n.

(** an overlay that is growing can answer that it does not hold an entry that
    was put into it. The entries 0 to 188 are put, every put succeeds, and the
    next [overlay_get] and [overlay_contains] of entry 72 answer false: the slots
    migrated before it have been emptied, so the search of the previous table
    stops too early. *)
Theorem overlay_get_misses_entry :
  (let! '(sts, ob) := overlay_puts (snd (overlay_init true true true (Some small_pool) zero_overlay 1)) (sample_entries 189) 1 in
   let! '(d, _) := overlay_get ob 72 in
   let! '(b, _) := overlay_contains ob 72 in
   Ret (bool_decide (sts = replicate 189 GRAVELDB_OK), count ob, d, b))
  = Ret (true, 189, None, false).
Proof. vm_compute. reflexivity. Qed.

(** ** Witnesses *)

Lemma overlay_start : exists ob, overlay_init true true true (Some (p0, m0)) zero_overlay 1 = (GRAVELDB_OK, ob) /\ ov_inv ob ∅ /\ ov_room ob.
Proof. apply overlay_init_inv; [|lia]. split; [apply p0_inv | apply p0_os]. Qed.

Definition start_overlay : OverlayBuffer (SlabPool * Mem) := snd (overlay_init true true true (Some (p0, m0)) zero_overlay 1).

Lemma overlay_put_correct_witness :
  exists st ob', overlay_put true start_overlay 7 [42] 1 = Ret (st, ob') /\
    (st = GRAVELDB_OK /\ ov_inv ob' (<[7 := [42]]> ∅) \/
     st = GRAVELDB_ERR_OOM /\ (∅ : gmap Z (list Z)) !! 7 = None /\ ov_inv ob' ∅).
Proof.
  destruct overlay_start as (ob & E & Hi & Hr). assert (start_overlay = ob) as -> by (unfold start_overlay; by rewrite E).
  apply (overlay_put_correct ob ∅ 7 [42] 1 true Hi Hr). vm_compute. split; congruence.
Defined.

Lemma overlay_get_correct_witness :
  overlay_get start_overlay 7 = Ret ((∅ : gmap Z (list Z)) !! 7, start_overlay) /\
  overlay_contains start_overlay 7 = Ret (match (∅ : gmap Z (list Z)) !! 7 with Some _ => true | None => false end, start_overlay).
Proof.
  destruct overlay_start as (ob & E & Hi & Hr). assert (start_overlay = ob) as -> by (unfold start_overlay; by rewrite E).
  apply (overlay_get_correct ob ∅ 7 Hi). vm_compute. split; congruence.
Defined.
