(* ===== verification/IoBatch.v ===== *)
(** IoBatch: files, page buffers and the batch I/O layer, src/io_uring_flush.c.

    [Sys] is what the code sees of the system: the files behind the open
    descriptors, the buffers it has allocated, and the answers the system gives
    to the next calls. A descriptor stands for the file it is open on; the
    position of sequential reads and writes is kept by the code that uses it. The operations of io_uring_flush.c are those of its
    portable build (GRAVELDB_USE_IO_URING 0), where a submitted request is
    carried out at once; the other build hands the requests to the kernel. *)

From stdpp Require Import strings.
From S2P Require Import Prelude.

(** ** The system *)

(** [answers]: what the next calls that can fail return. A missing answer is
    success; a negative one is a failure; a non-negative one is the number of
    bytes transferred. [synced]: the descriptors [fdatasync] was called on.
    [names]: the directory entries, from paths to files. *)
Record Sys : Type := mkSys {
  files : gmap Z (list Z);
  bufs : gmap Z (list Z);
  answers : list Z;
  synced : list Z;
  names : gmap string Z
}.

Definition set_files (s : Sys) (f : gmap Z (list Z)) : Sys := mkSys f (bufs s) (answers s) (synced s) (names s).
Definition set_bufs (s : Sys) (b : gmap Z (list Z)) : Sys := mkSys (files s) b (answers s) (synced s) (names s).
Definition set_names (s : Sys) (n : gmap string Z) : Sys := mkSys (files s) (bufs s) (answers s) (synced s) n.

Definition ask : M Sys (option Z) := fun s =>
  match answers s with
  | [] => Ret (None, s)
  | a :: l => Ret (Some a, mkSys (files s) (bufs s) l (synced s) (names s))
  end.

(** [malloc], [realloc] and the calls that only succeed or fail. *)
Definition sys_ok : M Sys bool :=
  let* a := ask in
  ret (match a with Some a => 0 <=? a | None => true end).

(** The content of a file after a write; a gap is read as zeros. *)
Definition file_write (f : list Z) (off : Z) (b : list Z) : list Z :=
  match b with
  | [] => f
  | _ => take (Z.to_nat off) (f ++ replicate (Z.to_nat off - length f) 0) ++ b ++ drop (Z.to_nat off + length b) f
  end.

Definition pwrite (fd : Z) (b : list Z) (off : Z) : M Sys Z :=
  let* a := ask in
  let* fs := gets files in
  match a, fs !! fd with
  | _, None => ret (-1)
  | Some k, Some f =>
    if k <? 0 then ret (-1)
    else
      let b := take (Z.to_nat k) b in
      do* modify (fun s => set_files s (<[fd := file_write f off b]> (files s))) in ret (zlen b)
  | None, Some f =>
    do* modify (fun s => set_files s (<[fd := file_write f off b]> (files s))) in ret (zlen b)
  end.

(** The count and the bytes read. *)
Definition pread (fd len off : Z) : M Sys (Z * list Z) :=
  let* a := ask in
  let* fs := gets files in
  match a, fs !! fd with
  | _, None => ret (-1, [])
  | Some k, Some f =>
    if k <? 0 then ret (-1, [])
    else let b := take (Z.to_nat (Z.min k len)) (drop (Z.to_nat off) f) in ret (zlen b, b)
  | None, Some f => let b := take (Z.to_nat len) (drop (Z.to_nat off) f) in ret (zlen b, b)
  end.

(** [ftruncate], and [fallocate], which never shortens a file. *)
Definition ftruncate (fd size : Z) : M Sys Z :=
  let* ok := sys_ok in
  let* fs := gets files in
  match fs !! fd with
  | Some f =>
    if (ok : bool) then
      do* modify (fun s => set_files s (<[fd := take (Z.to_nat size) f ++ replicate (Z.to_nat size - length f) 0]> (files s))) in ret 0
    else ret (-1)
  | None => ret (-1)
  end.

(** The answer -2 is [EOPNOTSUPP] or [ENOSYS]. *)
Definition fallocate (fd size : Z) : M Sys Z :=
  let* a := ask in
  let* fs := gets files in
  match fs !! fd with
  | Some f =>
    match a with
    | Some a => if a <? 0 then ret a else
        do* modify (fun s => set_files s (<[fd := f ++ replicate (Z.to_nat size - length f) 0]> (files s))) in ret 0
    | None => do* modify (fun s => set_files s (<[fd := f ++ replicate (Z.to_nat size - length f) 0]> (files s))) in ret 0
    end
  | None => ret (-1)
  end.

Definition fdatasync (fd : Z) : M Sys Z :=
  let* ok := sys_ok in
  do* modify (fun s => mkSys (files s) (bufs s) (answers s) (synced s ++ [fd]) (names s)) in
  ret (if ok then 0 else -1).

(** A descriptor that is not in use, above the standard ones. *)
Definition new_fd (fs : gmap Z (list Z)) : Z := map_fold (fun k _ n => Z.max (k + 1) n) 3 fs.

(** [open]: -1 when the system refuses, or when the file is missing and is not to
    be created. *)
Definition open_path (creat trunc : bool) (path : string) : M Sys Z :=
  let* ok := sys_ok in
  if negb ok then ret (-1)
  else
    let* ns := gets names in
    match ns !! path with
    | Some fd =>
      do* when trunc (modify (fun s => set_files s (<[fd := []]> (files s)))) in
      ret fd
    | None =>
      if creat then
        let* fs := gets files in
        let fd := new_fd fs in
        do* modify (fun s => set_names (set_files s (<[fd := []]> (files s))) (<[path := fd]> (names s))) in
        ret fd
      else ret (-1)
    end.

(** [rename] and [unlink]; the file of a name that goes away stays open. *)
Definition rename (a b : string) : M Sys Z :=
  let* ok := sys_ok in
  let* ns := gets names in
  match ns !! a with
  | Some fd => if (ok : bool) then do* modify (fun s => set_names s (<[b := fd]> (delete a ns))) in ret 0 else ret (-1)
  | None => ret (-1)
  end.
Definition unlink (path : string) : M Sys unit := modify (fun s => set_names s (delete path (names s))).

(** [write] at the end of a file that is only appended to. *)
Definition write_end (fd : Z) (b : list Z) : M Sys Z :=
  let* fs := gets files in
  pwrite fd b (match fs !! fd with Some f => zlen f | None => 0 end).

(** The first [len] bytes of a buffer; reading past its end is undefined. *)
Definition buf_bytes (p len : Z) : M Sys (list Z) :=
  let* bs := gets bufs in
  let* b := lift (deref (bs !! p)) in
  if zlen b <? len then lift Ub else ret (take (Z.to_nat len) b).

(** [memcpy(buf + off, b, length b)] *)
Definition buf_write (p off : Z) (b : list Z) : M Sys unit :=
  let* bs := gets bufs in
  let* old := lift (deref (bs !! p)) in
  if (off <? 0) || (zlen old <? off + zlen b) then lift Ub
  else modify (fun s => set_bufs s (<[p := take (Z.to_nat off) old ++ b ++ drop (Z.to_nat off + length b) old]> (bufs s))).

(** ** The batch context *)

Definition URING_MAX_FDS : Z := 64.

Record uring_io_ctx_t : Type := mkUringIoCtx {
  pending : Z; errors : Z; initialized : bool; fsync_fds : list Z
}.

Definition fsync_fd_count (c : uring_io_ctx_t) : Z := zlen (fsync_fds c).

Definition uring_io_init : Z * uring_io_ctx_t := (0, mkUringIoCtx 0 0 true []).

Definition uring_io_track_fd_fallback (c : uring_io_ctx_t) (fd : Z) : uring_io_ctx_t :=
  if existsb (Z.eqb fd) (fsync_fds c) then c
  else if fsync_fd_count c <? URING_MAX_FDS then mkUringIoCtx (pending c) (errors c) (initialized c) (fsync_fds c ++ [fd])
  else c.

Definition add_error (c : uring_io_ctx_t) : uring_io_ctx_t :=
  mkUringIoCtx (pending c) (u32 (errors c + 1)) (initialized c) (fsync_fds c).
Definition add_pending (c : uring_io_ctx_t) : uring_io_ctx_t :=
  mkUringIoCtx (u32 (pending c + 1)) (errors c) (initialized c) (fsync_fds c).

(** A write request with the bytes of its buffer. *)
Definition write_request (c : uring_io_ctx_t) (fd : Z) (b : list Z) (offset : Z) : M Sys (Z * uring_io_ctx_t) :=
  if negb (initialized c) then ret (-1, c) else
  let* wr := pwrite fd b offset in
  if (wr <? 0) || negb (wr =? zlen b) then ret (-1, add_error c)
  else ret (0, uring_io_track_fd_fallback (add_pending c) fd).

Definition uring_io_submit_write (c : uring_io_ctx_t) (fd buf len offset : Z) : M Sys (Z * uring_io_ctx_t) :=
  if negb (initialized c) then ret (-1, c) else
  let* b := buf_bytes buf len in
  write_request c fd b offset.

(** The bytes of an iovec, one buffer after the other. *)
Fixpoint iov_bytes (iov : list (Z * Z)) : M Sys (list Z) :=
  match iov with
  | [] => ret []
  | (p, len) :: iov =>
    let* b := buf_bytes p len in
    let* bs := iov_bytes iov in
    ret (b ++ bs)
  end.

Definition pwritev (fd : Z) (iov : list (Z * Z)) (offset : Z) : M Sys Z :=
  let* b := iov_bytes iov in pwrite fd b offset.

Definition iov_len (iov : list (Z * Z)) : Z := foldr (fun e n => snd e + n) 0 iov.

Definition uring_io_submit_writev (c : uring_io_ctx_t) (fd : Z) (iov : list (Z * Z)) (offset : Z) : M Sys (Z * uring_io_ctx_t) :=
  if negb (initialized c) then ret (-1, c) else
  let* wr := pwritev fd iov offset in
  if (wr <? 0) || negb (wr =? iov_len iov) then ret (-1, add_error c)
  else ret (0, uring_io_track_fd_fallback (add_pending c) fd).

(** A read request: the answer, the bytes that arrive in the buffer, and the
    context. *)
Definition read_request (c : uring_io_ctx_t) (fd len offset : Z) : M Sys (Z * list Z * uring_io_ctx_t) :=
  if negb (initialized c) then ret (-1, [], c) else
  let* '(rd, b) := pread fd len offset in
  if rd <? 0 then ret (-1, [], add_error c) else ret (0, b, add_pending c).

Definition uring_io_submit_read (c : uring_io_ctx_t) (fd buf len offset : Z) : M Sys (Z * uring_io_ctx_t) :=
  let* '(r, b, c) := read_request c fd len offset in
  do* buf_write buf 0 b in
  ret (r, c).

Definition uring_io_submit_fsyncs (c : uring_io_ctx_t) : M Sys Z :=
  if negb (initialized c) then ret (-1)
  else do* forM (fsync_fds c) (fun fd => let* _ := fdatasync fd in ret tt) in ret 0.

Definition uring_io_wait (c : uring_io_ctx_t) : Z * uring_io_ctx_t :=
  if negb (initialized c) then (errors c, c)
  else (errors c, mkUringIoCtx 0 (errors c) (initialized c) (fsync_fds c)).

Definition uring_io_poll (c : uring_io_ctx_t) : Z * uring_io_ctx_t :=
  if negb (initialized c) then (0, c)
  else (0, mkUringIoCtx 0 (errors c) (initialized c) (fsync_fds c)).

Definition uring_io_destroy (c : uring_io_ctx_t) : uring_io_ctx_t :=
  if negb (initialized c) then c else mkUringIoCtx (pending c) (errors c) false (fsync_fds c).

Definition uring_io_reset (c : uring_io_ctx_t) : uring_io_ctx_t :=
  if negb (initialized c) then c else mkUringIoCtx 0 0 (initialized c) [].

Definition uring_io_available : bool := false.

(** ** Reading back what was written *)

Definition file_byte (f : list Z) (i : Z) : Z := default 0 (f !! Z.to_nat i).

Lemma length_file_write f off b :
  0 <= off -> b <> [] -> zlen (file_write f off b) = Z.max (zlen f) (off + zlen b).
Proof.
  intros H Hb. unfold file_write, zlen. destruct b as [|x b]; [done|].
  rewrite !length_app, length_take, length_app, length_replicate, length_drop. simpl length. lia.
Qed.

(** A write changes the bytes it covers and no others. *)
Lemma file_byte_write f off b i :
  0 <= off -> 0 <= i ->
  file_byte (file_write f off b) i =
  if (off <=? i) && (i <? off + zlen b) then default 0 (b !! Z.to_nat (i - off)) else file_byte f i.
Proof.
  intros Ho Hi. unfold file_byte, file_write. destruct b as [|x b'] eqn:Eb.
  { unfold zlen. simpl. repeat zb; simpl; auto; lia. }
  rewrite <- Eb. assert (length b = S (length b')) as Hl by (by rewrite Eb). clear Eb.
  set (pre := take (Z.to_nat off) _).
  assert (length pre = Z.to_nat off) as Hp.
  { unfold pre. rewrite length_take, length_app, length_replicate. lia. }
  unfold zlen. destruct (Z.leb_spec off i); simpl.
  - rewrite lookup_app_r by lia. rewrite Hp. replace (Z.to_nat i - Z.to_nat off)%nat with (Z.to_nat (i - off)) by lia.
    destruct (Z.ltb_spec i (off + Z.of_nat (length b))); simpl.
    + by rewrite lookup_app_l by lia.
    + rewrite lookup_app_r by lia. rewrite lookup_drop. do 2 f_equal. lia.
  - rewrite lookup_app_l by lia. unfold pre. rewrite lookup_take_lt by lia.
    destruct (decide (Z.to_nat i < length f)%nat); [by rewrite lookup_app_l|].
    rewrite lookup_app_r by lia. rewrite (lookup_ge_None_2 f) by lia. rewrite lookup_replicate_2 by lia. done.
Qed.

(** ** Names *)

(** Every name is that of a file of its own, above the standard descriptors. *)
Record names_ok (y : Sys) : Prop := {
  no_file p fd : names y !! p = Some fd -> 3 <= fd /\ is_Some (files y !! fd);
  no_inj p q fd : names y !! p = Some fd -> names y !! q = Some fd -> p = q
}.

Lemma new_fd_fresh fs : 3 <= new_fd fs /\ forall k, is_Some (fs !! k) -> k < new_fd fs.
Proof.
  unfold new_fd. apply (map_fold_weak_ind (fun n fs => 3 <= n /\ forall k, is_Some (fs !! k) -> k < n)).
  - split; [lia|]. intros k [x Hx]. by rewrite lookup_empty in Hx.
  - intros i x m r Hi [H3 IH]. split; [lia|]. intros k [z Hz]. apply lookup_insert_Some in Hz as [[<- _]|[_ Hz]]; [lia|].
    assert (k < r) by eauto. lia.
Qed.

(** What [open] does. *)
Lemma open_path_spec creat trunc p y : names_ok y ->
  exists fd y', open_path creat trunc p y = Ret (fd, y') /\ names_ok y' /\ (answers y = [] -> answers y' = []) /\
    (fd = -1 /\ names y' = names y /\ files y' = files y /\ (answers y = [] -> creat = false /\ names y !! p = None) \/
     3 <= fd /\ names y' = <[p := fd]> (names y) /\ (forall k, k <> fd -> files y' !! k = files y !! k) /\
     (names y !! p = Some fd \/ creat = true /\ names y !! p = None /\ files y !! fd = None) /\
     files y' !! fd = if trunc then Some [] else match names y !! p with Some _ => files y !! fd | None => Some [] end).
Proof.
  intros [N1 N2]. unfold open_path. unfold bindM at 1. assert (exists ok l, sys_ok y = Ret (ok, mkSys (files y) (bufs y) l (synced y) (names y)) /\
    (answers y = [] -> l = [] /\ ok = true)) as (ok & l & -> & Hq).
  { unfold sys_ok, bindM, ask, ret. destruct y as [fs bs [|a l] sy ns]; simpl; eexists _, _; split; [reflexivity|done|reflexivity|done]. }
  cbn [res_bind fst snd]. set (y1 := mkSys _ _ l _ _). destruct ok; cbn [negb].
  2: { exists (-1), y1. split; [done|]. split; [by split|]. split; [intros H; by apply Hq|]. left. split_and!; try done. intros H. by apply Hq in H as [_ ?]. }
  unfold gets. unfold bindM at 1. cbn [res_bind fst snd]. change (names y1) with (names y). destruct (names y !! p) as [fd|] eqn:Ep.
  - destruct (N1 p fd Ep) as [H3 [f Hf]]. exists fd.
    exists (if trunc then set_files y1 (<[fd := []]> (files y)) else y1). split; [by destruct trunc|].
    split; [|split; [destruct trunc; intros H; by apply Hq|]].
    + split; intros q; destruct trunc; simpl; try (by eauto); intros fd' Hq'; destruct (N1 q fd' Hq') as [? ?]; split; try done.
      destruct (decide (fd' = fd)) as [->|]; [rewrite lookup_insert_eq; eauto|by rewrite lookup_insert_ne].
    + right. split; [done|]. split; [destruct trunc; simpl; by rewrite insert_id|].
      split; [|split; [by left|]]; destruct trunc; simpl; try done.
      * intros k Hk. by rewrite lookup_insert_ne.
      * by rewrite lookup_insert_eq.
  - destruct creat.
    2: { exists (-1), y1. split; [done|]. split; [by split|]. split; [intros H; by apply Hq|]. left. by split_and!. }
    destruct (new_fd_fresh (files y)) as [F1 F2]. set (fd := new_fd (files y)) in *. exists fd.
    assert (files y !! fd = None) as Ef. { destruct (files y !! fd) eqn:E; [|done]. specialize (F2 fd ltac:(by eexists)). lia. }
    exists (set_names (set_files y1 (<[fd := []]> (files y))) (<[p := fd]> (names y))). split; [reflexivity|]. split; [|split; [intros H; by apply Hq|]].
    + clearbody fd. split; simpl.
      * intros q fd' [[<- <-]|[Hne H]]%lookup_insert_Some; [split; [done|]; rewrite lookup_insert_eq; by eexists|]. destruct (N1 q fd' H) as [? [f Hf]].
        split; [done|]. rewrite lookup_insert_ne by congruence. eauto.
      * intros q q' fd' H H'. apply lookup_insert_Some in H as [[E1 E2]|[_ H]], H' as [[E3 E4]|[_ H']]; [congruence| | |by eapply N2].
        { destruct (N1 _ _ H') as [_ [? ?]]. congruence. }
        { destruct (N1 _ _ H) as [_ [? ?]]. congruence. }
    + right. split; [done|]. split; [done|]. simpl. split; [intros k Hk; by rewrite lookup_insert_ne|].
      split; [by right|]. rewrite lookup_insert_eq. by destruct trunc.
Qed.

(** A write changes its file only; a complete one puts all its bytes there. *)
Lemma pwrite_frame fd b off y f : files y !! fd = Some f ->
  exists n y', pwrite fd b off y = Ret (n, y') /\ names y' = names y /\ (forall k, k <> fd -> files y' !! k = files y !! k) /\
    is_Some (files y' !! fd) /\ (n = zlen b -> files y' !! fd = Some (file_write f off b)) /\
    (answers y = [] -> answers y' = [] /\ n = zlen b).
Proof.
  intros Hf. unfold pwrite, bindM, ask, gets, modify, ret. destruct y as [fs bs l sy ns]; simpl in *.
  destruct l as [|a l]; cbn [res_bind fst snd files answers]; rewrite Hf; [|destruct (Z.ltb_spec a 0)]; cbn [res_bind fst snd].
  - eexists _, _. split; [reflexivity|]. simpl. split_and!; try done; [intros; by rewrite lookup_insert_ne|rewrite lookup_insert_eq; by eexists|by rewrite lookup_insert_eq].
  - eexists _, _. split; [reflexivity|]. simpl. split_and!; try done. unfold zlen. lia.
  - eexists _, _. split; [reflexivity|]. simpl. split_and!; try done; [intros; by rewrite lookup_insert_ne|rewrite lookup_insert_eq; by eexists|].
    intros E. rewrite lookup_insert_eq. do 2 f_equal. apply take_ge. unfold zlen in E. rewrite length_take in E. lia.
Qed.

Lemma fdatasync_frame fd y : exists n y', fdatasync fd y = Ret (n, y') /\ names y' = names y /\ files y' = files y /\
  (answers y = [] -> answers y' = [] /\ n = 0).
Proof.
  unfold fdatasync, sys_ok, bindM, ask, modify, ret. destruct y as [fs bs [|a l] sy ns]; simpl; [by eexists _, _|].
  destruct (0 <=? a); by eexists _, _.
Qed.

Lemma sys_ok_frame y : exists ok y', sys_ok y = Ret (ok, y') /\ names y' = names y /\ files y' = files y /\
  (answers y = [] -> answers y' = [] /\ ok = true).
Proof.
  unfold sys_ok, bindM, ask, ret. destruct y as [fs bs [|a l] sy ns]; simpl; [by eexists _, _|]. by eexists _, _.
Qed.

Lemma rename_spec a b fd y : names_ok y -> names y !! a = Some fd -> a <> b ->
  exists n y', rename a b y = Ret (n, y') /\ names_ok y' /\ files y' = files y /\ (answers y = [] -> answers y' = [] /\ n = 0) /\
    (n = 0 /\ names y' = <[b := fd]> (delete a (names y)) \/ n = -1 /\ names y' = names y).
Proof.
  intros [N1 N2] Ha Hab. unfold rename. destruct (sys_ok_frame y) as (ok & y1 & E & En & Ef & Hq). unfold bindM at 1. rewrite E. cbn [res_bind fst snd].
  unfold gets. unfold bindM at 1. cbn [res_bind fst snd]. rewrite En, Ha. destruct ok.
  - eexists 0, _. split; [reflexivity|]. simpl. split; [|split; [done|]; split; [intros H; split; [by apply Hq|done]|by left]].
    split; simpl; rewrite ?Ef.
    + intros p fd' [[<- <-]|[Hne H]]%lookup_insert_Some; [by eapply N1|]. apply lookup_delete_Some in H as [_ H]. by eapply N1.
    + intros p q fd' H H'. apply lookup_insert_Some in H as [[E1 E2]|[_ H]], H' as [[E3 E4]|[_ H']]; [congruence| | |].
      * apply lookup_delete_Some in H' as [Hq' H']. destruct Hq'. subst fd'. by eapply N2.
      * apply lookup_delete_Some in H as [Hq' H]. destruct Hq'. subst fd'. by eapply N2.
      * apply lookup_delete_Some in H as [_ H], H' as [_ H']. by eapply N2.
  - exists (-1), y1. split; [done|]. split; [split; rewrite ?En, ?Ef; [apply N1|apply N2]|]. split; [done|]. split; [intros H; by apply Hq in H as [_ ?]|by right].
Qed.

(** ** Calls that succeed *)

Lemma pwrite_quiet y fd f b off :
  answers y = [] -> files y !! fd = Some f ->
  pwrite fd b off y = Ret (zlen b, set_files y (<[fd := file_write f off b]> (files y))).
Proof. intros Ha Hf. unfold pwrite, bindM, ask, gets, modify, ret. rewrite Ha. cbn [res_bind fst snd]. by rewrite Hf. Qed.

Lemma pread_quiet y fd f len off :
  answers y = [] -> files y !! fd = Some f ->
  pread fd len off y = Ret (zlen (take (Z.to_nat len) (drop (Z.to_nat off) f)), take (Z.to_nat len) (drop (Z.to_nat off) f), y).
Proof. intros Ha Hf. unfold pread, bindM, ask, gets, ret. rewrite Ha. cbn [res_bind fst snd]. by rewrite Hf. Qed.

Lemma sys_ok_quiet y : answers y = [] -> sys_ok y = Ret (true, y).
Proof. intros Ha. unfold sys_ok, ask, bindM, ret. by rewrite Ha. Qed.

(** [open] of a file that is there. *)
Lemma open_quiet y p fd : answers y = [] -> names y !! p = Some fd -> open_path false false p y = Ret (fd, y).
Proof. intros Ha Hn. unfold open_path. unfold bindM at 1. rewrite sys_ok_quiet by done. cbn [res_bind fst snd negb]. unfold bindM, gets, when, ret. simpl. by rewrite Hn. Qed.

(** A check of [names_ok]. *)
Definition names_okb (y : Sys) : bool :=
  let l := map_to_list (names y) in
  forallb (fun e => (3 <=? snd e) && bool_decide (is_Some (files y !! snd e))) l && bool_decide (NoDup (snd <$> l)).

Lemma names_okb_ok y : names_okb y = true -> names_ok y.
Proof.
  unfold names_okb. intros [H1 H2]%andb_true_iff. rewrite forallb_forall in H1. apply bool_decide_eq_true_1 in H2. split.
  - intros p fd Hp. assert (In (p, fd) (map_to_list (names y))) as Hin by (apply list_elem_of_In; by apply elem_of_map_to_list).
    specialize (H1 _ Hin). simpl in H1. apply andb_true_iff in H1 as [H3%Z.leb_le H4%bool_decide_eq_true_1]. done.
  - intros p q fd Hp Hq. apply elem_of_map_to_list in Hp, Hq. apply list_elem_of_lookup in Hp as [i Hi], Hq as [j Hj].
    assert (i = j) as ->; [|congruence]. eapply NoDup_lookup; [exact H2| |]; rewrite list_lookup_fmap; [by rewrite Hi|by rewrite Hj].
Qed.
