(* ===== verification/Uring.v ===== *)
(** Uring: the io_uring build of src/io_uring_flush.c.

    liburing and the kernel are the class [IoUring]: the operations on a ring that the
    code calls. What their documentation promises is the class [RingLaws], stated over
    the requests that a ring has been given; a ring that completes requests in any
    order and with any results is an instance ([KRing]). *)

From S2P Require Import Prelude IoBatch.

(** ** Requests and rings *)

(** The operations that are prepared; buffers and vectors are addresses. A sync of the
    data waits for the requests before it ([IOSQE_IO_DRAIN]). *)
Inductive Request : Type :=
| PrepWrite (fd buf len offset : Z)
| PrepWritev (fd iov iovcnt offset : Z)
| PrepRead (fd buf len offset : Z)
| PrepFsync (fd : Z).

(** [sqe_room]: whether [io_uring_get_sqe] returns an entry; [sqe_prep]: it is taken and
    filled. [cqes]: the results of the completions that [io_uring_for_each_cqe] visits. *)
Class IoUring (R : Type) : Type := {
  sqe_room : R -> bool;
  sqe_prep : Request -> R -> R;
  io_uring_submit : R -> Z * R;
  io_uring_wait_cqe : R -> Z * R;
  cqes : R -> list Z;
  io_uring_cq_advance : Z -> R -> R
}.

Definition URING_QUEUE_DEPTH : Z := 1024.

(** ** The code *)

Section code.
Context {R : Type} `{!IoUring R}.

(** The context, with the ring that its field [ring] points to. *)
Record UringSt : Type := mkUringSt { u_ctx : uring_io_ctx_t; u_ring : option R }.

#[local] Abbreviation U A := (M UringSt A).

Definition set_ctx (f : uring_io_ctx_t -> uring_io_ctx_t) : U unit := modify (fun s => mkUringSt (f (u_ctx s)) (u_ring s)).
Definition on_ring {A} (f : R -> A * R) : U A := fun s =>
  let! r := deref (u_ring s) in let '(a, r) := f r in Ret (a, mkUringSt (u_ctx s) (Some r)).
Definition upd_ring (f : R -> R) : U unit := on_ring (fun r => (tt, f r)).
Definition the_ring : U R := fun s => let! r := deref (u_ring s) in Ret (r, s).

(** [ok]: the allocation; [ring]: what [io_uring_queue_init_params] makes, [None] when it
    fails. *)
Definition uring_io_init (ok : bool) (ring : option R) : Z * UringSt :=
  if negb ok then (-1, mkUringSt (mkUringIoCtx 0 0 false []) None)
  else match ring with
       | None => (-1, mkUringSt (mkUringIoCtx 0 0 false []) None)
       | Some r => (0, mkUringSt (mkUringIoCtx 0 0 true []) (Some r))
       end.

Definition uring_io_track_fd (c : uring_io_ctx_t) (fd : Z) : uring_io_ctx_t :=
  if bool_decide (fd ∈ fsync_fds c) then c
  else if fsync_fd_count c <? URING_MAX_FDS then mkUringIoCtx (pending c) (errors c) (initialized c) (fsync_fds c ++ [fd])
  else c.

Definition failures (l : list Z) : Z := zlen (filter (fun res => res < 0) l).

(** The completions that are there are counted and released. *)
Definition reap : U Z :=
  let* r := the_ring in
  let l := cqes r in
  do* upd_ring (io_uring_cq_advance (zlen l)) in
  do* set_ctx (fun c => mkUringIoCtx (u32 (pending c - zlen l)) (u32 (errors c + failures l)) (initialized c) (fsync_fds c)) in
  ret (zlen l).

(** Whether an entry can be taken, after making room if there was none. *)
Definition uring_io_get_sqe : U bool :=
  let* r := the_ring in
  if sqe_room r then ret true
  else
    let* n := on_ring io_uring_submit in
    if n <? 0 then ret false
    else
      let* n := on_ring io_uring_wait_cqe in
      if n <? 0 then ret false
      else
        do* (let* _ := reap in ret tt) in
        let* r := the_ring in
        ret (sqe_room r).

Definition is_initialized : U bool := gets (fun s => initialized (u_ctx s)).

(** What the four kinds of submission have in common; [track]: the descriptor is to be
    synced later. *)
Definition submit_request (q : Request) (track : option Z) : U Z :=
  let* ok := uring_io_get_sqe in
  if negb ok then ret (-1)
  else
    do* upd_ring (sqe_prep q) in
    do* set_ctx (fun c => mkUringIoCtx (u32 (pending c + 1)) (errors c) (initialized c) (fsync_fds c)) in
    do* (match track with Some fd => set_ctx (fun c => uring_io_track_fd c fd) | None => ret tt end) in
    ret 0.

Definition uring_io_submit_write (fd buf len offset : Z) : U Z :=
  let* i := is_initialized in
  if negb i then ret (-1) else submit_request (PrepWrite fd buf (u32 len) offset) (Some fd).

Definition uring_io_submit_writev (fd iov iovcnt offset : Z) : U Z :=
  let* i := is_initialized in
  if negb i then ret (-1) else submit_request (PrepWritev fd iov (u32 iovcnt) offset) (Some fd).

Definition uring_io_submit_read (fd buf len offset : Z) : U Z :=
  let* i := is_initialized in
  if negb i then ret (-1) else submit_request (PrepRead fd buf (u32 len) offset) None.

Fixpoint submit_fsync_list (fds : list Z) : U Z :=
  match fds with
  | [] => ret 0
  | fd :: fds =>
    let* rc := submit_request (PrepFsync fd) None in
    if rc <? 0 then ret (-1) else submit_fsync_list fds
  end.

Definition uring_io_submit_fsyncs : U Z :=
  let* i := is_initialized in
  if negb i then ret (-1)
  else let* fds := gets (fun s => fsync_fds (u_ctx s)) in submit_fsync_list fds.

Definition count_error (c : uring_io_ctx_t) : uring_io_ctx_t :=
  mkUringIoCtx (pending c) (u32 (errors c + 1)) (initialized c) (fsync_fds c).

Definition error_result : U Z := gets (fun s => i32 (errors (u_ctx s))).

(** Every round that does not fail releases a completion. *)
Fixpoint wait_rounds (fuel : nat) : U unit :=
  match fuel with
  | O => fun _ => Diverge
  | S fuel =>
    let* p := gets (fun s => pending (u_ctx s)) in
    if 0 <? p then
      let* n := on_ring io_uring_wait_cqe in
      if n <? 0 then set_ctx count_error
      else do* (let* _ := reap in ret tt) in wait_rounds fuel
    else ret tt
  end.

Definition wait_fuel (c : uring_io_ctx_t) : nat := S (Z.to_nat (pending c)).

Definition uring_io_wait : U Z :=
  let* c := gets u_ctx in
  if negb (initialized c) || (pending c =? 0) then error_result
  else
    let* n := on_ring io_uring_submit in
    if n <? 0 then do* set_ctx count_error in error_result
    else
      do* wait_rounds (wait_fuel c) in
      do* set_ctx (fun c => mkUringIoCtx 0 (errors c) (initialized c) (fsync_fds c)) in
      error_result.

Definition uring_io_poll : U Z :=
  let* c := gets u_ctx in
  if negb (initialized c) || (pending c =? 0) then ret 0
  else
    let* _ := on_ring io_uring_submit in
    let* r := the_ring in
    do* when (0 <? zlen (cqes r)) (let* _ := reap in ret tt) in
    gets (fun s => i32 (pending (u_ctx s))).

Definition uring_io_destroy : U unit :=
  let* i := is_initialized in
  if negb i then ret tt
  else modify (fun s => mkUringSt (mkUringIoCtx (pending (u_ctx s)) (errors (u_ctx s)) false (fsync_fds (u_ctx s))) None).

Definition uring_io_reset : U unit :=
  let* i := is_initialized in
  if negb i then ret tt
  else set_ctx (fun c => mkUringIoCtx 0 0 (initialized c) []).

(** [probe]: the result of [io_uring_queue_init] for a ring of one entry. *)
Definition uring_io_available (probe : Z) : bool := negb (probe <? 0).
End code.
Arguments UringSt R : clear implicits.

(** ** What a ring promises *)

(** [r_prepared]: entries that were filled and not submitted; [r_kernel]: submitted and
    not completed; [r_done]: completions that were not released, with their results;
    [r_reaped]: all that were. [healthy]: submitting and waiting do not fail. *)
Class RingLaws (R : Type) `{!IoUring R} : Type := {
  r_prepared : R -> list Request;
  r_kernel : R -> list Request;
  r_done : R -> list (Request * Z);
  r_reaped : R -> list (Request * Z);
  healthy : R -> Prop;
  law_cqes r : cqes r = snd <$> r_done r;
  law_full r : healthy r -> sqe_room r = false -> r_prepared r <> [];
  law_prep q r : healthy r -> sqe_room r = true ->
    healthy (sqe_prep q r) /\ r_prepared (sqe_prep q r) = r_prepared r ++ [q] /\ r_kernel (sqe_prep q r) = r_kernel r /\
    r_done (sqe_prep q r) = r_done r /\ r_reaped (sqe_prep q r) = r_reaped r;
  law_submit r n r' : healthy r -> io_uring_submit r = (n, r') ->
    0 <= n /\ healthy r' /\ sqe_room r' = true /\ r_prepared r' = [] /\ r_reaped r' = r_reaped r /\
    r_kernel r' ++ (fst <$> r_done r') ≡ₚ r_prepared r ++ r_kernel r ++ (fst <$> r_done r);
  law_wait r n r' : healthy r -> r_kernel r ++ (fst <$> r_done r) <> [] -> io_uring_wait_cqe r = (n, r') ->
    0 <= n /\ healthy r' /\ sqe_room r' = sqe_room r /\ r_prepared r' = r_prepared r /\ r_reaped r' = r_reaped r /\
    r_done r' <> [] /\ r_kernel r' ++ (fst <$> r_done r') ≡ₚ r_kernel r ++ (fst <$> r_done r);
  law_advance r k : healthy r -> 0 <= k <= zlen (r_done r) ->
    healthy (io_uring_cq_advance k r) /\ sqe_room (io_uring_cq_advance k r) = sqe_room r /\
    r_prepared (io_uring_cq_advance k r) = r_prepared r /\ r_kernel (io_uring_cq_advance k r) = r_kernel r /\
    r_done (io_uring_cq_advance k r) = drop (Z.to_nat k) (r_done r) /\
    r_reaped (io_uring_cq_advance k r) = r_reaped r ++ take (Z.to_nat k) (r_done r)
}.

Section laws.
Context {R : Type} `{!IoUring R} `{!RingLaws R}.
Implicit Types (r : R) (c : uring_io_ctx_t).

(** The requests that are under way, and all that were ever given to the ring. *)
Definition outstanding r : list Request := r_prepared r ++ r_kernel r ++ (fst <$> r_done r).

(** The context counts the requests under way, and the failures that were seen. *)
Record uring_ok (log : list Request) (fds : list Z) c r : Prop := {
  uo_init : initialized c = true;
  uo_healthy : healthy r;
  uo_log : outstanding r ++ (fst <$> r_reaped r) ≡ₚ log;
  uo_pending : pending c = zlen (outstanding r);
  uo_errors : errors c = failures (snd <$> r_reaped r);
  uo_bound : zlen log < 2 ^ 32;
  uo_fds : fsync_fds c = fds
}.

Lemma failures_app l1 l2 : failures (l1 ++ l2) = failures l1 + failures l2.
Proof. unfold failures. by rewrite filter_app, zlen_app. Qed.

Lemma failures_bound l : 0 <= failures l <= zlen l.
Proof. unfold failures, zlen. pose proof (length_filter (fun res => res < 0) l). lia. Qed.

Lemma perm_zlen {A} (l l' : list A) : l ≡ₚ l' -> zlen l = zlen l'.
Proof. intros H. unfold zlen. by rewrite H. Qed.

Lemma uring_ok_size log fds c r : uring_ok log fds c r -> zlen (outstanding r) + zlen (r_reaped r) = zlen log.
Proof. intros H. rewrite <- (perm_zlen _ _ (uo_log _ _ _ _ H)), zlen_app. unfold zlen. by rewrite length_fmap. Qed.

(** Steps of the ring that keep what is under way. *)
Lemma uring_ok_ring log fds c r r' : uring_ok log fds c r -> healthy r' -> outstanding r' ≡ₚ outstanding r -> r_reaped r' = r_reaped r ->
  uring_ok log fds c r'.
Proof.
  intros [] Hh Hp Hr. constructor; auto.
  - by rewrite Hp, Hr.
  - by rewrite (perm_zlen _ _ Hp).
  - by rewrite Hr.
Qed.

Lemma reap_spec log fds c r : uring_ok log fds c r ->
  exists c' r', reap (mkUringSt c (Some r)) = Ret (zlen (r_done r), mkUringSt c' (Some r')) /\ uring_ok log fds c' r' /\
    pending c' = pending c - zlen (r_done r) /\ sqe_room r' = sqe_room r /\ r_prepared r' = r_prepared r.
Proof.
  intros Hok. pose proof (uring_ok_size _ _ _ _ Hok) as Hsz. pose proof Hok as [Hi Hh Hlog Hp He Hb Hf].
  assert (Hz : zlen (cqes r) = zlen (r_done r)) by (rewrite law_cqes; unfold zlen; by rewrite length_fmap).
  destruct (law_advance r (zlen (r_done r)) Hh) as (Hh' & Hroom & Hp' & Hk' & Hd' & Hr'); [pose proof (zlen_nonneg (r_done r)); lia|].
  unfold reap, the_ring. unfold bindM at 1. cbn [u_ring deref res_bind fst snd]. unfold bindM, upd_ring, on_ring, set_ctx, modify, ret.
  cbn [u_ring u_ctx deref res_bind fst snd]. rewrite Hz. eexists _, _. split; [reflexivity|]. cbn [pending].
  assert (Ha : zlen (outstanding r) = zlen (r_prepared r) + zlen (r_kernel r) + zlen (r_done r)).
  { unfold outstanding, zlen. rewrite !length_app, length_fmap. lia. }
  pose proof (zlen_nonneg (r_prepared r)). pose proof (zlen_nonneg (r_kernel r)). pose proof (zlen_nonneg (r_done r)). pose proof (zlen_nonneg (r_reaped r)).
  assert (Hu : u32 (pending c - zlen (r_done r)) = pending c - zlen (r_done r)) by (apply Z.mod_small; lia).
  split; [|split; [exact Hu|by split]].
  assert (Hdrop : drop (Z.to_nat (zlen (r_done r))) (r_done r) = []) by (apply drop_ge; unfold zlen; lia).
  assert (Htake : take (Z.to_nat (zlen (r_done r))) (r_done r) = r_done r) by (apply take_ge; unfold zlen; lia).
  rewrite Hdrop in Hd'. rewrite Htake in Hr'. constructor; cbn; auto.
  - rewrite <- Hlog. unfold outstanding. rewrite Hp', Hk', Hd', Hr', fmap_app. cbn. rewrite app_nil_r, <- !app_assoc.
    do 2 f_equiv. apply Permutation_app_comm.
  - unfold u32. change (u32 (pending c - zlen (r_done r))) with ((pending c - zlen (r_done r)) mod 2 ^ 32) in Hu. rewrite Hu.
    unfold outstanding. rewrite Hp', Hk', Hd'. unfold zlen in *. rewrite !length_app. cbn. lia.
  - rewrite Hr', fmap_app, failures_app, <- He, law_cqes. apply Z.mod_small. rewrite He.
    pose proof (failures_bound (snd <$> r_reaped r)). pose proof (failures_bound (snd <$> r_done r)). unfold zlen in *. rewrite !length_fmap in *. lia.
Qed.

Lemma get_sqe_spec log fds c r : uring_ok log fds c r ->
  exists c' r', uring_io_get_sqe (mkUringSt c (Some r)) = Ret (true, mkUringSt c' (Some r')) /\ uring_ok log fds c' r' /\ sqe_room r' = true.
Proof.
  intros Hok. unfold uring_io_get_sqe. unfold bindM at 1, the_ring at 1. cbn [u_ring deref res_bind fst snd].
  destruct (sqe_room r) eqn:Er; [by exists c, r|].
  destruct (io_uring_submit r) as [n r1] eqn:E1. destruct (law_submit r n r1 (uo_healthy _ _ _ _ Hok) E1) as (Hn & Hh1 & Hroom1 & Hp1 & Hr1 & Hperm1).
  unfold bindM at 1, on_ring at 1. cbn [u_ring u_ctx deref res_bind fst snd]. rewrite E1. cbn [res_bind fst snd]. rewrite (proj2 (Z.ltb_ge n 0)) by lia.
  assert (Hok1 : uring_ok log fds c r1).
  { apply (uring_ok_ring _ _ _ r); auto. unfold outstanding. by rewrite Hp1. }
  destruct (io_uring_wait_cqe r1) as [n2 r2] eqn:E2. destruct (law_wait r1 n2 r2 Hh1) as (Hn2 & Hh2 & Hroom2 & Hp2 & Hr2 & _ & Hperm2); [|done|].
  { intros X. rewrite X in Hperm1. apply Permutation_nil in Hperm1. apply app_eq_nil in Hperm1 as [X1 _]. by apply (law_full r (uo_healthy _ _ _ _ Hok) Er). }
  unfold bindM at 1, on_ring at 1. cbn [u_ring u_ctx deref res_bind fst snd]. rewrite E2. cbn [res_bind fst snd]. rewrite (proj2 (Z.ltb_ge n2 0)) by lia.
  assert (Hok2 : uring_ok log fds c r2).
  { apply (uring_ok_ring _ _ _ r1); auto. unfold outstanding. rewrite Hp2. by f_equiv. }
  destruct (reap_spec log fds c r2 Hok2) as (c3 & r3 & E3 & Hok3 & _ & Hroom3 & _).
  unfold bindM at 1. unfold bindM at 1. rewrite E3. cbn [res_bind fst snd]. unfold bindM, ret, the_ring. cbn [u_ring deref res_bind fst snd].
  exists c3, r3. split; [|split; [done|congruence]]. do 3 f_equal. congruence.
Qed.

(** The descriptors to sync after one more write. *)
Definition tracked (fds : list Z) (fd : Z) : list Z :=
  if bool_decide (fd ∈ fds) then fds else if zlen fds <? URING_MAX_FDS then fds ++ [fd] else fds.
Definition track_opt (fds : list Z) (t : option Z) : list Z := match t with Some fd => tracked fds fd | None => fds end.

Lemma track_spec c fd : uring_io_track_fd c fd = mkUringIoCtx (pending c) (errors c) (initialized c) (tracked (fsync_fds c) fd).
Proof.
  unfold uring_io_track_fd, tracked, fsync_fd_count. destruct c as [p e i l]. cbn. case_bool_decide; [done|]. by destruct (_ <? _).
Qed.

Lemma submit_request_spec log fds c r q t : uring_ok log fds c r -> zlen log + 1 < 2 ^ 32 ->
  exists c' r', submit_request q t (mkUringSt c (Some r)) = Ret (0, mkUringSt c' (Some r')) /\ uring_ok (log ++ [q]) (track_opt fds t) c' r'.
Proof.
  intros Hok Hb. destruct (get_sqe_spec log fds c r Hok) as (c1 & r1 & E1 & Hok1 & Hroom). unfold submit_request.
  rewrite (bindM_ret _ _ _ _ _ E1). cbn [negb]. pose proof (uring_ok_size _ _ _ _ Hok1) as Hsz. pose proof Hok1 as [Hi Hh Hlog Hp He _ Hf].
  destruct (law_prep q r1 Hh Hroom) as (Hh2 & Hp2 & Hk2 & Hd2 & Hr2).
  assert (Hout : outstanding (sqe_prep q r1) ≡ₚ q :: outstanding r1).
  { unfold outstanding. rewrite Hp2, Hk2, Hd2, <- app_assoc. cbn. symmetry. apply Permutation_middle. }
  pose proof (zlen_nonneg (outstanding r1)). pose proof (zlen_nonneg (r_reaped r1)).
  set (c2 := mkUringIoCtx (u32 (pending c1 + 1)) (errors c1) (initialized c1) (track_opt (fsync_fds c1) t)).
  assert (Hc2 : pending c2 = pending c1 + 1) by (apply Z.mod_small; lia).
  exists c2, (sqe_prep q r1). split.
  - unfold bindM, upd_ring, on_ring, set_ctx, modify, ret. cbn [u_ring u_ctx deref res_bind fst snd]. destruct t as [fd|]; [|done]. cbn [res_bind fst snd].
    by rewrite track_spec.
  - constructor; auto.
    + rewrite Hout, Hr2. rewrite <- Hlog. cbn. rewrite <- Permutation_cons_append. done.
    + rewrite Hc2, Hp, (perm_zlen _ _ Hout). unfold zlen. cbn. lia.
    + cbn. by rewrite Hr2.
    + rewrite zlen_app. done.
    + cbn. by rewrite Hf.
Qed.

Lemma initialized_ret log fds c r : uring_ok log fds c r -> is_initialized (mkUringSt c (Some r)) = Ret (true, mkUringSt c (Some r)).
Proof. intros H. unfold is_initialized, gets. cbn. by rewrite (uo_init _ _ _ _ H). Qed.

Lemma submit_fsync_list_spec l : forall log fds c r, uring_ok log fds c r -> zlen log + zlen l < 2 ^ 32 ->
  exists c' r', submit_fsync_list l (mkUringSt c (Some r)) = Ret (0, mkUringSt c' (Some r')) /\ uring_ok (log ++ (PrepFsync <$> l)) fds c' r'.
Proof.
  induction l as [|fd l IH]; intros log fds c r Hok Hb; cbn [submit_fsync_list].
  { exists c, r. split; [done|]. cbn. by rewrite app_nil_r. }
  assert (Hz : zlen (fd :: l) = 1 + zlen l) by (unfold zlen; cbn; lia). pose proof (zlen_nonneg l).
  destruct (submit_request_spec log fds c r (PrepFsync fd) None Hok) as (c1 & r1 & E1 & Hok1); [lia|].
  rewrite (bindM_ret _ _ _ _ _ E1). change (0 <? 0) with false. cbv iota.
  destruct (IH _ _ _ _ Hok1) as (c2 & r2 & E2 & Hok2); [rewrite zlen_app; unfold zlen in *; cbn; lia|].
  exists c2, r2. split; [done|]. by rewrite <- app_assoc in Hok2.
Qed.

Lemma wait_rounds_spec fuel : forall log fds c r, uring_ok log fds c r -> r_prepared r = [] -> pending c < Z.of_nat fuel ->
  exists c' r', wait_rounds fuel (mkUringSt c (Some r)) = Ret (tt, mkUringSt c' (Some r')) /\ uring_ok log fds c' r' /\ pending c' = 0.
Proof.
  induction fuel as [|fuel IH]; intros log fds c r Hok Hp Hf.
  { pose proof (uo_pending _ _ _ _ Hok). pose proof (zlen_nonneg (outstanding r)). lia. }
  cbn [wait_rounds]. unfold bindM at 1, gets. cbn [res_bind fst snd u_ctx]. destruct (Z.ltb_spec 0 (pending c)) as [Hpos|Hz].
  - destruct (io_uring_wait_cqe r) as [n r1] eqn:E1.
    destruct (law_wait r n r1 (uo_healthy _ _ _ _ Hok)) as (Hn & Hh1 & _ & Hp1 & Hr1 & Hd1 & Hperm); [|done|].
    { intros X. rewrite (uo_pending _ _ _ _ Hok) in Hpos. unfold outstanding in Hpos. rewrite Hp, X in Hpos. unfold zlen in Hpos. cbn in Hpos. lia. }
    unfold bindM at 1, on_ring at 1. cbn [u_ring u_ctx deref res_bind fst snd]. rewrite E1. cbn [res_bind fst snd]. rewrite (proj2 (Z.ltb_ge n 0)) by lia.
    assert (Hok1 : uring_ok log fds c r1).
    { apply (uring_ok_ring _ _ _ r); auto. unfold outstanding. rewrite Hp1. by f_equiv. }
    destruct (reap_spec log fds c r1 Hok1) as (c2 & r2 & E2 & Hok2 & Hp2 & _ & Hpr2).
    unfold bindM at 1. unfold bindM at 1. rewrite E2. cbn [res_bind fst snd]. apply IH; [done|congruence|].
    assert (0 < zlen (r_done r1)) by (destruct (r_done r1); [done|unfold zlen; cbn; lia]). lia.
  - exists c, r. split; [done|]. split; [done|]. pose proof (uo_pending _ _ _ _ Hok). pose proof (zlen_nonneg (outstanding r)). lia.
Qed.

Lemma uring_wait_spec log fds c r : uring_ok log fds c r ->
  exists c' r', uring_io_wait (mkUringSt c (Some r)) = Ret (i32 (failures (snd <$> r_reaped r')), mkUringSt c' (Some r')) /\
    uring_ok log fds c' r' /\ pending c' = 0.
Proof.
  intros Hok. unfold uring_io_wait. unfold bindM at 1, gets at 1. cbn [res_bind fst snd u_ctx]. rewrite (uo_init _ _ _ _ Hok). cbn [negb orb].
  destruct (Z.eqb_spec (pending c) 0) as [Hz|Hnz].
  { exists c, r. unfold error_result, gets. cbn [u_ctx]. by rewrite (uo_errors _ _ _ _ Hok). }
  destruct (io_uring_submit r) as [n r1] eqn:E1. destruct (law_submit r n r1 (uo_healthy _ _ _ _ Hok) E1) as (Hn & Hh1 & _ & Hp1 & Hr1 & Hperm1).
  unfold bindM at 1, on_ring at 1. cbn [u_ring u_ctx deref res_bind fst snd]. rewrite E1. cbn [res_bind fst snd]. rewrite (proj2 (Z.ltb_ge n 0)) by lia.
  assert (Hok1 : uring_ok log fds c r1).
  { apply (uring_ok_ring _ _ _ r); auto. unfold outstanding. by rewrite Hp1. }
  destruct (wait_rounds_spec (wait_fuel c) log fds c r1 Hok1 Hp1) as (c2 & r2 & E2 & Hok2 & Hz2); [unfold wait_fuel; lia|].
  rewrite (bindM_ret _ _ _ _ _ E2). exists c2, r2. unfold bindM, set_ctx, modify, error_result, gets. cbn [res_bind fst snd u_ctx errors].
  rewrite (uo_errors _ _ _ _ Hok2). split; [|done]. do 3 f_equal. destruct c2 as [p e i l]. cbn in *. rewrite <- (uo_errors _ _ _ _ Hok2). by subst p.
Qed.

(** ** Batches *)

Inductive UringOp : Type := OpWrite (fd buf len offset : Z) | OpWritev (fd iov iovcnt offset : Z) | OpRead (fd buf len offset : Z).

Definition run_op (o : UringOp) : M (UringSt R) Z :=
  match o with
  | OpWrite fd buf len off => uring_io_submit_write fd buf len off
  | OpWritev fd iov n off => uring_io_submit_writev fd iov n off
  | OpRead fd buf len off => uring_io_submit_read fd buf len off
  end.
Definition op_request (o : UringOp) : Request :=
  match o with
  | OpWrite fd buf len off => PrepWrite fd buf (u32 len) off
  | OpWritev fd iov n off => PrepWritev fd iov (u32 n) off
  | OpRead fd buf len off => PrepRead fd buf (u32 len) off
  end.
Definition op_writes (o : UringOp) : option Z :=
  match o with OpWrite fd _ _ _ | OpWritev fd _ _ _ => Some fd | OpRead _ _ _ _ => None end.

(** The results of the calls. *)
Fixpoint run_uring (ops : list UringOp) : M (UringSt R) (list Z) :=
  match ops with
  | [] => ret []
  | o :: ops => let* rc := run_op o in let* rcs := run_uring ops in ret (rc :: rcs)
  end.

Lemma run_op_spec log fds c r o : uring_ok log fds c r -> zlen log + 1 < 2 ^ 32 ->
  exists c' r', run_op o (mkUringSt c (Some r)) = Ret (0, mkUringSt c' (Some r')) /\ uring_ok (log ++ [op_request o]) (track_opt fds (op_writes o)) c' r'.
Proof.
  intros Hok Hb. pose proof (initialized_ret _ _ _ _ Hok) as Ei.
  destruct o; cbn [run_op]; unfold uring_io_submit_write, uring_io_submit_writev, uring_io_submit_read;
    rewrite (bindM_ret _ _ _ _ _ Ei); cbn [negb]; by apply (submit_request_spec log fds).
Qed.

Lemma run_uring_spec ops : forall log fds c r, uring_ok log fds c r -> zlen log + zlen ops < 2 ^ 32 ->
  exists c' r', run_uring ops (mkUringSt c (Some r)) = Ret (replicate (length ops) 0, mkUringSt c' (Some r')) /\
    uring_ok (log ++ (op_request <$> ops)) (foldl track_opt fds (op_writes <$> ops)) c' r'.
Proof.
  induction ops as [|o ops IH]; intros log fds c r Hok Hb; cbn [run_uring].
  { exists c, r. split; [done|]. cbn. by rewrite app_nil_r. }
  assert (Hz : zlen (o :: ops) = 1 + zlen ops) by (unfold zlen; cbn; lia). pose proof (zlen_nonneg ops).
  destruct (run_op_spec log fds c r o Hok) as (c1 & r1 & E1 & Hok1); [lia|]. rewrite (bindM_ret _ _ _ _ _ E1).
  destruct (IH _ _ _ _ Hok1) as (c2 & r2 & E2 & Hok2); [rewrite zlen_app; unfold zlen in *; cbn; lia|].
  rewrite (bindM_ret _ _ _ _ _ E2). exists c2, r2. split; [done|]. by rewrite <- app_assoc in Hok2.
Qed.

(** The descriptors that are synced: each once, only those written, and all of those
    unless the table of 64 is full. *)
Definition synced_for (ops : list UringOp) (fds : list Z) : Prop :=
  NoDup fds /\ zlen fds <= URING_MAX_FDS /\ (forall fd, fd ∈ fds -> Some fd ∈ op_writes <$> ops) /\
  (zlen fds < URING_MAX_FDS -> forall fd, Some fd ∈ op_writes <$> ops -> fd ∈ fds).

Lemma synced_track ts : forall fds, NoDup fds -> zlen fds <= URING_MAX_FDS ->
  let l := foldl track_opt fds ts in
  NoDup l /\ zlen l <= URING_MAX_FDS /\ (forall fd, fd ∈ fds -> fd ∈ l) /\ (forall fd, fd ∈ l -> fd ∈ fds \/ Some fd ∈ ts) /\
  (zlen l < URING_MAX_FDS -> forall fd, Some fd ∈ ts -> fd ∈ l).
Proof.
  induction ts as [|t ts IH]; intros fds Hnd Hsz; cbn [foldl].
  { repeat split; auto. intros _ fd Hfd. by apply elem_of_nil in Hfd. }
  assert (Ht : NoDup (track_opt fds t) /\ zlen (track_opt fds t) <= URING_MAX_FDS /\ (forall fd, fd ∈ fds -> fd ∈ track_opt fds t) /\
    (forall fd, fd ∈ track_opt fds t -> fd ∈ fds \/ t = Some fd) /\
    (zlen (track_opt fds t) < URING_MAX_FDS -> forall fd, t = Some fd -> fd ∈ track_opt fds t)).
  { destruct t as [fd|]; cbn [track_opt]; [|by repeat split; auto]. unfold tracked. case_bool_decide as Hin.
    { repeat split; auto. by intros _ ? [= <-]. }
    destruct (Z.ltb_spec (zlen fds) URING_MAX_FDS).
    - split; [apply NoDup_app; split; [done|split; [|apply NoDup_singleton]]; set_solver|]. rewrite zlen_app. change (zlen [fd]) with 1.
      split; [lia|]. split; [set_solver|]. split; [set_solver|]. intros _ ? [= <-]. set_solver.
    - repeat split; auto. lia. }
  destruct Ht as (H1 & H2 & H3 & H4 & H5). destruct (IH _ H1 H2) as (K1 & K2 & K3 & K4 & K5). split; [done|]. split; [done|]. split; [auto|]. split.
  - intros fd Hfd. destruct (K4 fd Hfd) as [Hx|Hx]; [|right; by right]. destruct (H4 _ Hx) as [Hz| ->]; [by left|]. right. by left.
  - intros Hlt fd [Hx|Hx]%elem_of_cons; [|by apply K5]. apply K3. apply H5; [|by symmetry].
    destruct (Z.lt_ge_cases (zlen (track_opt fds t)) URING_MAX_FDS) as [|Hge]; [done|]. exfalso.
    assert (Hle : zlen (track_opt fds t) <= zlen (foldl track_opt (track_opt fds t) ts)); [|lia].
    unfold zlen. apply Nat2Z.inj_le. apply submseteq_length. by apply NoDup_submseteq.
Qed.

(** C40: a batch through io_uring, on a ring that stays healthy: io_uring_submit and io_uring_wait_cqe
    never fail, and a submit takes every prepared entry (an interrupted wait is
    [uring_wait_interrupted]). Whatever writes and reads are submitted, however many times the submission
    queue fills up on the way, and in whatever order and with whatever results the kernel completes them:
    every call returns 0; after [uring_io_submit_fsyncs], [uring_io_wait] returns; the completions that
    were released are exactly the requests of the batch and one fsync for each descriptor written (while
    there are no more than 64 of them), each once; nothing is pending; and the result is the number of
    completions that failed. *)
Theorem uring_batch_correct (ops : list UringOp) (r : R) :
  healthy r -> outstanding r = [] -> r_reaped r = [] -> zlen ops + URING_MAX_FDS < 2 ^ 32 ->
  exists fds s1 s2 c r', synced_for ops fds /\
    run_uring ops (snd (uring_io_init true (Some r))) = Ret (replicate (length ops) 0, s1) /\
    uring_io_submit_fsyncs s1 = Ret (0, s2) /\
    uring_io_wait s2 = Ret (i32 (failures (snd <$> r_reaped r')), mkUringSt c (Some r')) /\
    fst <$> r_reaped r' ≡ₚ (op_request <$> ops) ++ (PrepFsync <$> fds) /\ outstanding r' = [] /\ pending c = 0.
Proof.
  intros Hh Ho Hr Hsz. unfold URING_MAX_FDS in Hsz.
  assert (Hok0 : uring_ok [] [] (mkUringIoCtx 0 0 true []) r).
  { constructor; cbn; auto; [by rewrite Ho, Hr|by rewrite Ho|by rewrite Hr|done]. }
  destruct (run_uring_spec ops _ _ _ _ Hok0) as (c1 & r1 & E1 & Hok1); [unfold zlen at 1; cbn; lia|]. cbn [app] in Hok1.
  set (fds := foldl track_opt [] (op_writes <$> ops)) in *.
  destruct (synced_track (op_writes <$> ops) []) as (K1 & K2 & _ & K4 & K5); [constructor|done|]. fold fds in K1, K2, K4, K5.
  destruct (submit_fsync_list_spec fds _ _ _ _ Hok1) as (c2 & r2 & E2 & Hok2); [unfold URING_MAX_FDS, zlen in *; rewrite length_fmap; lia|].
  destruct (uring_wait_spec _ _ _ _ Hok2) as (c3 & r3 & E3 & Hok3 & Hp3).
  assert (Hnil : outstanding r3 = []).
  { pose proof (uo_pending _ _ _ _ Hok3) as Hp. rewrite Hp3 in Hp. unfold zlen in Hp. by destruct (outstanding r3). }
  exists fds, (mkUringSt c1 (Some r1)), (mkUringSt c2 (Some r2)), c3, r3. split; [|split; [exact E1|split; [|split; [exact E3|split; [|done]]]]].
  - split; [done|]. split; [done|]. split; [|done]. intros fd Hfd. destruct (K4 fd Hfd) as [Hx|]; [by apply elem_of_nil in Hx|done].
  - unfold uring_io_submit_fsyncs. rewrite (bindM_ret _ _ _ _ _ (initialized_ret _ _ _ _ Hok1)). cbn [negb].
    unfold bindM at 1, gets. cbn [res_bind fst snd u_ctx]. rewrite (uo_fds _ _ _ _ Hok1). exact E2.
  - pose proof (uo_log _ _ _ _ Hok3) as Hlog. by rewrite Hnil in Hlog.
Qed.
End laws.

(** ** A ring *)

(** The kernel takes the results of its operations from [k_results] (0 when there are
    none left), completes at least one request when it is waited for, and all of them
    when [k_eager]; [k_broken]: waiting is interrupted. *)
Record KRing : Type := mkKRing {
  k_depth : Z;
  k_prepared : list Request;
  k_kernel : list Request;
  k_done : list (Request * Z);
  k_reaped : list (Request * Z);
  k_results : list Z;
  k_eager : bool;
  k_broken : bool
}.

(** The [n] requests that came last are completed first. *)
Definition k_complete (n : nat) (k : KRing) : KRing :=
  let m := (length (k_kernel k) - n)%nat in
  let l := drop m (k_kernel k) in
  mkKRing (k_depth k) (k_prepared k) (take m (k_kernel k)) (k_done k ++ zip l (take (length l) (k_results k ++ replicate (length l) 0)))
          (k_reaped k) (drop (length l) (k_results k)) (k_eager k) (k_broken k).

#[export] Instance kring_ops : IoUring KRing := {
  sqe_room k := zlen (k_prepared k) <? k_depth k;
  sqe_prep q k := mkKRing (k_depth k) (k_prepared k ++ [q]) (k_kernel k) (k_done k) (k_reaped k) (k_results k) (k_eager k) (k_broken k);
  io_uring_submit k :=
    (zlen (k_prepared k), mkKRing (k_depth k) [] (k_kernel k ++ k_prepared k) (k_done k) (k_reaped k) (k_results k) (k_eager k) (k_broken k));
  io_uring_wait_cqe k := if k_broken k then (-4, k) else (0, k_complete (if k_eager k then length (k_kernel k) else 1%nat) k);
  cqes k := snd <$> k_done k;
  io_uring_cq_advance n k :=
    mkKRing (k_depth k) (k_prepared k) (k_kernel k) (drop (Z.to_nat n) (k_done k)) (k_reaped k ++ take (Z.to_nat n) (k_done k))
            (k_results k) (k_eager k) (k_broken k)
}.

Lemma zip_results (l : list Request) (rs : list Z) : fst <$> zip l (take (length l) (rs ++ replicate (length l) 0)) = l.
Proof. apply fst_zip. rewrite length_take, length_app, length_replicate. lia. Qed.

Lemma k_complete_perm n k : k_kernel (k_complete n k) ++ (fst <$> k_done (k_complete n k)) ≡ₚ k_kernel k ++ (fst <$> k_done k).
Proof.
  unfold k_complete. cbn. rewrite fmap_app, zip_results. rewrite (Permutation_app_comm (fst <$> k_done k)), app_assoc.
  by rewrite take_drop.
Qed.

#[export] Program Instance kring_laws : RingLaws KRing := {
  r_prepared := k_prepared;
  r_kernel := k_kernel;
  r_done := k_done;
  r_reaped := k_reaped;
  healthy k := k_broken k = false /\ 0 < k_depth k
}.
Next Obligation. done. Qed.
Next Obligation.
  intros k [_ Hd] Hf Hn. cbn in Hf. apply Z.ltb_ge in Hf. rewrite Hn in Hf. change (zlen []) with 0 in Hf. lia.
Qed.
Next Obligation. by intros q k Hh _. Qed.
Next Obligation.
  intros k n k' [Hb Hd] [= <- <-]. cbn. split; [apply zlen_nonneg|]. split; [done|]. split; [apply Z.ltb_lt; exact Hd|]. split; [done|]. split; [done|].
  rewrite <- app_assoc. apply Permutation_app_swap_app.
Qed.
Next Obligation.
  intros k n k' [Hb Hd] Hne. cbn. rewrite Hb. intros [= <- <-]. split; [done|]. split; [done|]. split; [done|]. split; [done|]. split; [done|].
  split; [|apply k_complete_perm]. intros X. pose proof (k_complete_perm (if k_eager k then length (k_kernel k) else 1%nat) k) as Hp.
  rewrite X in Hp. cbn in Hp, X. apply app_eq_nil in X as [X1 X2]. rewrite X1 in Hne. cbn in Hne. rewrite app_nil_r in Hne.
  apply (f_equal (fmap fst)) in X2. rewrite zip_results in X2. cbn in X2. apply (f_equal length) in X2. rewrite length_drop in X2. cbn in X2.
  destruct (k_kernel k) as [|q l]; [done|]. destruct (k_eager k); cbn in X2; lia.
Qed.
Next Obligation. by intros k n Hh Hn. Qed.

(** A queue of two entries: the batch of three writes fills it, and one write fails. *)
Definition ring_sample : KRing := mkKRing 2 [] [] [] [] [0; -5] false false.
Definition ring_ops : list UringOp := [OpWrite 3 100 16 0; OpWritev 4 200 2 64; OpRead 3 300 16 16; OpWrite 3 400 16 32].

Lemma uring_batch_correct_witness :
  exists fds s1 s2 c r', synced_for ring_ops fds /\
    run_uring ring_ops (snd (uring_io_init true (Some ring_sample))) = Ret (replicate (length ring_ops) 0, s1) /\
    uring_io_submit_fsyncs s1 = Ret (0, s2) /\
    uring_io_wait s2 = Ret (i32 (failures (snd <$> r_reaped r')), mkUringSt c (Some r')) /\
    fst <$> r_reaped r' ≡ₚ (op_request <$> ring_ops) ++ (PrepFsync <$> fds) /\ outstanding r' = [] /\ pending c = 0.
Proof. apply (uring_batch_correct ring_ops ring_sample); done. Defined.

(** ** An interrupted wait *)

(** An interruption makes the batch look finished. When [io_uring_wait_cqe] fails,
    which it does on a signal, [uring_io_wait] reports one error more and nothing
    pending, while the requests are still with the kernel, which goes on to read and
    write the caller's buffers; a further call of [uring_io_wait] returns at once. *)
Theorem uring_wait_interrupted (c : uring_io_ctx_t) (k : KRing) :
  k_broken k = true -> initialized c = true -> 0 < pending c < 2 ^ 32 -> 0 <= errors c < 2 ^ 31 - 1 ->
  exists c' k', uring_io_wait (mkUringSt c (Some k)) = Ret (errors c + 1, mkUringSt c' (Some k')) /\
    pending c' = 0 /\ k_kernel k' = k_kernel k ++ k_prepared k /\
    uring_io_wait (mkUringSt c' (Some k')) = Ret (errors c + 1, mkUringSt c' (Some k')).
Proof.
  intros Hb Hi Hp He. destruct c as [p e i l]. cbn in Hi, Hp, He. subst i.
  assert (Hu : u32 (e + 1) = e + 1) by (apply Z.mod_small; lia).
  assert (Hi32 : i32 (e + 1) = e + 1) by (unfold i32; rewrite Z.mod_small by lia; lia).
  set (k1 := snd (io_uring_submit k)).
  assert (Hw : forall n, wait_rounds (S n) (mkUringSt (mkUringIoCtx p e true l) (Some k1)) = Ret (tt, mkUringSt (mkUringIoCtx p (e + 1) true l) (Some k1))).
  { intros n. cbn [wait_rounds]. unfold bindM at 1, gets. cbn [res_bind fst snd u_ctx pending]. rewrite (proj2 (Z.ltb_lt 0 p)) by lia.
    assert (Ek : io_uring_wait_cqe k1 = (-4, k1)) by (unfold k1; cbn; by rewrite Hb).
    unfold bindM at 1, on_ring. cbn [u_ring u_ctx deref res_bind fst snd]. rewrite Ek. cbn [res_bind fst snd]. change (-4 <? 0) with true. cbv iota.
    unfold set_ctx, modify, count_error. cbn. by rewrite Hu. }
  exists (mkUringIoCtx 0 (e + 1) true l), k1. split; [|split; [done|split; [done|]]].
  - unfold uring_io_wait. unfold bindM at 1, gets at 1. cbn [res_bind fst snd u_ctx initialized pending negb orb].
    rewrite (proj2 (Z.eqb_neq p 0)) by lia. unfold bindM at 1, on_ring at 1. cbn [u_ring u_ctx deref res_bind fst snd].
    rewrite (surjective_pairing (io_uring_submit k)). cbn [res_bind fst snd]. fold k1. change (fst (io_uring_submit k)) with (zlen (k_prepared k)).
    rewrite (proj2 (Z.ltb_ge (zlen (k_prepared k)) 0)) by apply zlen_nonneg. unfold wait_fuel. rewrite (bindM_ret _ _ _ _ _ (Hw _)).
    unfold bindM, set_ctx, modify, error_result, gets. cbn [res_bind fst snd u_ctx u_ring errors initialized fsync_fds]. by rewrite Hi32.
  - unfold uring_io_wait, bindM, gets, error_result. cbn [res_bind fst snd u_ctx initialized pending negb orb errors]. change (0 =? 0) with true. cbv iota.
    unfold gets. cbn [u_ctx errors]. by rewrite Hi32.
Qed.

Lemma uring_wait_interrupted_witness :
  exists c' k', uring_io_wait (mkUringSt (mkUringIoCtx 1 0 true []) (Some (mkKRing 2 [PrepRead 3 100 16 0] [] [] [] [] false true))) = Ret (0 + 1, mkUringSt c' (Some k')) /\
    pending c' = 0 /\ k_kernel k' = [] ++ [PrepRead 3 100 16 0] /\
    uring_io_wait (mkUringSt c' (Some k')) = Ret (0 + 1, mkUringSt c' (Some k')).
Proof. apply (uring_wait_interrupted (mkUringIoCtx 1 0 true []) (mkKRing 2 [PrepRead 3 100 16 0] [] [] [] [] false true)); cbn; lia || done. Defined.
