(* ===== verification/PageMap.v ===== *)
(** PageMap: the write buffer of a bin, src/dimbin.h and [pagemap_grow] of
    src/dimbin.c.

    An open-addressing table from page ids to page buffers, and the free list
    the buffers of flushed pages are recycled through. *)

From S2P Require Import Prelude LinearProbe Overlay IoBatch.

(** ** State *)

Definition PAGE_SLOT_EMPTY : Z := UINT32_MAX.

(** [pdata] is the address of the page buffer, 0 for [NULL]. *)
Record PageSlot : Type := mkPageSlot { page_id : Z; pdata : Z }.

Definition no_page : PageSlot := mkPageSlot PAGE_SLOT_EMPTY 0.

(** A slot after [memset(slots, 0xFF, ...)]. *)
Definition ff_page : PageSlot := mkPageSlot PAGE_SLOT_EMPTY (2 ^ 64 - 1).

(** [page_pool]: the recycled buffers, the one taken next first; [pool_count] is
    its length. *)
Record WriteBuffer : Type := mkWriteBuffer {
  wslots : option (list PageSlot);
  wcapacity : Z; wcount : Z; max_pages : Z; flush_bytes : Z;
  page_pool : list Z; pool_capacity : Z
}.

Definition set_pages (wb : WriteBuffer) (sl : list PageSlot) (cap cnt : Z) : WriteBuffer :=
  mkWriteBuffer (Some sl) cap cnt (max_pages wb) (flush_bytes wb) (page_pool wb) (pool_capacity wb).
Definition set_pool (wb : WriteBuffer) (pool : list Z) (cap : Z) : WriteBuffer :=
  mkWriteBuffer (wslots wb) (wcapacity wb) (wcount wb) (max_pages wb) (flush_bytes wb) pool cap.
Definition set_flush_bytes (wb : WriteBuffer) (n : Z) : WriteBuffer :=
  mkWriteBuffer (wslots wb) (wcapacity wb) (wcount wb) (max_pages wb) n (page_pool wb) (pool_capacity wb).

(** ** Operations *)

Lemma page_hash_nonneg k : 0 <= u32 (k * 2654435761).
Proof. apply u32_range. Qed.

#[export] Instance page_slot : ProbeSlot PageSlot := {|
  skey := page_id; ekey := PAGE_SLOT_EMPTY; phash k := u32 (k * 2654435761); phash_nonneg := page_hash_nonneg
|}.

Definition pagemap_find (slots : list PageSlot) (capacity pg : Z) : res Z :=
  let mask := u32 (capacity - 1) in
  let! r := probe (probe_fuel slots) slots mask pg None (home mask pg) in
  Ret (match r with PFound h | PEmpty h | PWrapped h => h end).

(** The loop of [pagemap_remove]: every slot up to the next empty one is taken
    out and put back. *)
Fixpoint reinsert_loop (fuel : nat) (slots : list PageSlot) (capacity idx : Z) : res (list PageSlot) :=
  match fuel with
  | O => Diverge
  | S fuel =>
    let! tmp := rd slots idx in
    if page_id tmp =? PAGE_SLOT_EMPTY then Ret slots
    else
      let! slots := wr slots idx no_page in
      let! new_idx := pagemap_find slots capacity (page_id tmp) in
      let! slots := wr slots new_idx tmp in
      reinsert_loop fuel slots capacity (next (u32 (capacity - 1)) idx)
  end.

Definition pagemap_remove (slots : list PageSlot) (capacity rm_idx : Z) : res (list PageSlot) :=
  let! slots := wr slots rm_idx no_page in
  reinsert_loop (probe_fuel slots) slots capacity (next (u32 (capacity - 1)) rm_idx).

(** Puts the occupied slots of [old] into [slots], in table order. *)
Fixpoint reinsert_all (old : list PageSlot) (slots : list PageSlot) (capacity : Z) : res (list PageSlot) :=
  match old with
  | [] => Ret slots
  | s :: old =>
    if page_id s =? PAGE_SLOT_EMPTY then reinsert_all old slots capacity
    else
      let! idx := pagemap_find slots capacity (page_id s) in
      let! slots := wr slots idx s in
      reinsert_all old slots capacity
  end.

Definition pagemap_grow (alloc_ok : bool) (old_slots : option (list PageSlot)) (new_cap : Z) : res (option (list PageSlot)) :=
  if negb alloc_ok then Ret None
  else
    let slots := replicate (Z.to_nat new_cap) no_page in
    match old_slots with
    | None => Ret (Some slots)
    | Some old => let! slots := reinsert_all old slots new_cap in Ret (Some slots)
    end.

(** When the free list cannot grow, the buffer, which the slab allocator owns,
    is given to [free]: undefined. *)
Definition write_buf_recycle_page (wb : WriteBuffer) (buf : Z) : M Sys WriteBuffer :=
  if pool_capacity wb <=? zlen (page_pool wb) then
    let new_cap := if negb (pool_capacity wb =? 0) then u32 (pool_capacity wb * 2) else 64 in
    let* ok := sys_ok in
    if negb ok then lift Ub else ret (set_pool wb (buf :: page_pool wb) new_cap)
  else ret (set_pool wb (buf :: page_pool wb) (pool_capacity wb)).

(** The address, 0 when the allocator has none; a page of the allocator holds
    [page_size] bytes of no particular value, here zeros. *)
Definition write_buf_acquire_page {P} `{!ObjectPool P} (wb : WriteBuffer) (al : P) (page_size : Z) : M Sys (Z * WriteBuffer * P) :=
  match page_pool wb with
  | buf :: pool => ret (buf, set_pool wb pool (pool_capacity wb), al)
  | [] =>
    let* '(ptr, al) := lift (pool_alloc al) in
    if ptr =? 0 then ret (0, wb, al)
    else
      do* modify (fun s => set_bufs s (<[ptr := replicate (Z.to_nat page_size) 0]> (bufs s))) in
      ret (ptr, wb, al)
  end.

(** ** What the table stores *)

Definition pages_inv (sl : list PageSlot) : Prop := table sl /\ reach sl /\ uniq sl /\ countb occ sl < zlen sl.

(** [pagemap_find] ends at the page's slot, or at the slot it belongs in. *)
Lemma pagemap_find_spec sl pg :
  pages_inv sl -> 0 <= pg < PAGE_SLOT_EMPTY ->
  exists h s, pagemap_find sl (zlen sl) pg = Ret h /\ rd sl h = Ret s /\
    (page_id s = pg /\ stored sl s \/ page_id s = PAGE_SLOT_EMPTY /\ absent sl pg /\ path_other sl pg h).
Proof.
  intros (Ht & Hr & Hu & Hc) Hpg. unfold pagemap_find. pose proof (table_pos sl Ht).
  assert (zlen sl <= 2 ^ 31) by apply Ht. rewrite u32_id by lia.
  destruct (probe_spec sl pg None) as (r & Hp & Hpost & Hw); [done|simpl; lia|right; split; [done|by apply has_empty]|].
  rewrite Hp. pose proof (probe_complete sl pg r Ht Hr Hpost) as Hc'. destruct r as [h|h|h].
  - destruct Hc' as (s & Hs & Hk & Hst). exists h, s. auto.
  - destruct Hpost as [(s & Hs & Ho%occ_false) Hpath]. exists h, s. split; [done|]. split; [done|]. right. auto.
  - by destruct (Hw eq_refl h).
Qed.

(** A new page goes to the slot [pagemap_find] stopped at. *)
Lemma pagemap_insert_spec sl s h e :
  pages_inv sl -> rd sl h = Ret e -> page_id e = PAGE_SLOT_EMPTY -> 0 <= page_id s < PAGE_SLOT_EMPTY ->
  absent sl (page_id s) -> path_other sl (page_id s) h ->
  let sl' := <[Z.to_nat h := s]> sl in
  zlen sl' = zlen sl /\ table sl' /\ reach sl' /\ uniq sl' /\ countb occ sl' = countb occ sl + 1 /\
  forall t, stored sl' t <-> t = s \/ stored sl t.
Proof.
  intros (Ht & Hr & Hu & Hc) He Hk Hs Ha Hp sl'. assert (occ e = false) as Hoe by (by apply occ_false).
  assert (occ s = true) as Hos by (apply occ_true; simpl; lia). unfold sl'. rewrite zlen_insert.
  split; [done|]. split; [by apply table_insert|]. split; [by eapply reach_insert|]. split; [by eapply uniq_insert|].
  split; [|intros t; by eapply stored_insert]. rewrite (countb_insert _ _ _ _ e) by done. rewrite Hoe, Hos. lia.
Qed.

Lemma reinsert_all_spec old sl :
  pages_inv sl -> countb occ sl + countb occ old < zlen sl -> NoDup (page_id <$> List.filter occ old) ->
  (forall s, s ∈ old -> occ s = true -> 0 <= page_id s < PAGE_SLOT_EMPTY /\ absent sl (page_id s)) ->
  exists sl', reinsert_all old sl (zlen sl) = Ret sl' /\ pages_inv sl' /\ zlen sl' = zlen sl /\
    countb occ sl' = countb occ sl + countb occ old /\
    forall t, stored sl' t <-> stored sl t \/ (t ∈ old /\ occ t = true).
Proof.
  revert sl. induction old as [|s old IH]; intros sl Hi Hc Hnd Hall.
  { exists sl. split; [done|]. split; [done|]. split; [done|]. split; [unfold countb, zlen; simpl; lia|].
    intros t. split; [auto|]. intros [|[[]%elem_of_nil _]]; auto. }
  simpl. rewrite countb_cons in *. destruct (Z.eqb_spec (page_id s) PAGE_SLOT_EMPTY) as [E|E].
  - assert (occ s = false) as Ho by (by apply occ_false). rewrite Ho in *. simpl in Hnd. rewrite Ho in Hnd.
    destruct (IH sl) as (sl' & -> & H1 & H2 & H3 & H4); [done|lia|done|intros; apply Hall; set_solver|].
    exists sl'. split; [done|]. split; [done|]. split; [done|]. split; [lia|]. intros t. rewrite H4, elem_of_cons.
    split; [naive_solver|]. intros [|[[->|] Ht]]; auto. congruence.
  - assert (occ s = true) as Ho by (by apply occ_true). rewrite Ho in *. simpl in Hnd. rewrite Ho in Hnd.
    rewrite fmap_cons in Hnd. apply NoDup_cons in Hnd as [Hni Hnd].
    destruct (Hall s) as [Hrg Ha]; [set_solver|done|].
    destruct (pagemap_find_spec sl (page_id s) Hi Hrg) as (h & e & -> & He & [[Hk Hst]|(Hk & _ & Hpath)]); [by apply Ha in Hst|].
    pose proof (countb_nonneg occ old) as Hnn. pose proof (rd_ret_range _ _ _ He) as Hh.
    cbn [res_bind]. rewrite wr_ret by done. cbn [res_bind].
    destruct (pagemap_insert_spec sl s h e Hi He Hk Hrg Ha Hpath) as (Hl & Ht' & Hr' & Hu' & Hc' & Hst').
    destruct (IH (<[Z.to_nat h := s]> sl)) as (sl' & E' & H1 & H2 & H3 & H4).
    { split; [done|]. split; [done|]. split; [done|lia]. } { lia. } { done. }
    { intros t Ht Hot. destruct (Hall t) as [Hrt Hat]; [set_solver|done|]. split; [done|].
      intros x [->|Hx]%Hst'; [|by apply Hat]. intros Ek. apply Hni. simpl in Ek. rewrite Ek. apply list_elem_of_fmap_2.
      apply list_elem_of_In, filter_In. by rewrite <- list_elem_of_In. }
    rewrite Hl in E'. exists sl'. split; [done|]. split; [done|]. split; [lia|]. split; [lia|].
    intros t. rewrite H4, Hst', elem_of_cons. split; [|naive_solver]. intros [[->|]|[]]; auto.
Qed.

Lemma NoDup_map_inj {A B} (f : A -> B) (l : list A) :
  NoDup l -> (forall x y, x ∈ l -> y ∈ l -> f x = f y -> x = y) -> NoDup (f <$> l).
Proof.
  induction 1 as [|x l Hx Hnd IH]; intros Hf; [constructor|]. rewrite fmap_cons. constructor.
  - intros (y & E & Hy)%list_elem_of_fmap. rewrite (Hf x y) in Hx; set_solver.
  - apply IH. intros; apply Hf; set_solver.
Qed.

(** The stored pages have distinct ids. *)
Lemma uniq_ids (sl : list PageSlot) : uniq sl -> NoDup (page_id <$> List.filter occ sl).
Proof.
  intros Hu. apply NoDup_map_inj; [by apply uniq_NoDup|].
  intros x y Hx Hy E. apply stored_filter in Hx, Hy. apply stored_rd in Hy as (i & Hi & _). by eapply probe_found_uniq.
Qed.

Lemma pages_inv_empty n s : pow2_cap (Z.of_nat n) -> Z.of_nat n <= 2 ^ 31 -> page_id s = PAGE_SLOT_EMPTY -> pages_inv (replicate n s).
Proof.
  intros Hp Hn Hs. assert (occ s = false) as Ho by (by apply occ_false). pose proof (pow2_cap_pos _ Hp).
  assert (zlen (replicate n s) = Z.of_nat n) as Hl by (unfold zlen; by rewrite length_replicate).
  split; [unfold table; by rewrite Hl|]. split; [by apply reach_replicate|]. split; [by apply uniq_replicate|].
  rewrite countb_zero, Hl; [done|]. intros x [-> _]%elem_of_replicate. done.
Qed.


(** [pagemap_grow] keeps the stored pages. *)
Lemma pagemap_grow_spec sl new_cap :
  pages_inv sl -> (forall s, stored sl s -> 0 <= page_id s < PAGE_SLOT_EMPTY) ->
  pow2_cap new_cap -> zlen sl <= new_cap <= 2 ^ 31 ->
  exists sl', pagemap_grow true (Some sl) new_cap = Ret (Some sl') /\ pages_inv sl' /\ zlen sl' = new_cap /\
    countb occ sl' = countb occ sl /\ forall t, stored sl' t <-> stored sl t.
Proof.
  intros (Ht & Hr & Hu & Hc) Hid Hp Hn. unfold pagemap_grow. cbn [negb].
  set (e := replicate (Z.to_nat new_cap) no_page). pose proof (pow2_cap_pos _ Hp).
  assert (zlen e = new_cap) as Hl by (unfold e, zlen; rewrite length_replicate; lia).
  assert (countb occ e = 0) as He by (apply countb_zero; by intros x [-> _]%elem_of_replicate).
  assert (pages_inv e) as Hie by (apply pages_inv_empty; rewrite ?Z2Nat.id; auto; lia).
  destruct (reinsert_all_spec sl e Hie) as (sl' & E & H1 & H2 & H3 & H4); [lia|by apply uniq_ids| |].
  { intros s Hs Ho. split; [by apply Hid|]. intros t Hst. by apply stored_replicate in Hst. }
  rewrite Hl in E. rewrite E. exists sl'. split; [done|]. split; [done|]. split; [lia|]. split; [lia|].
  intros t. rewrite H4. split; [|auto]. intros [Hst|]; [by apply stored_replicate in Hst|done].
Qed.
