(* ===== verification/DimBin.v ===== *)
(** DimBin: the storage of one dimension, src/dimbin.c and src/dimbin.h.

    A bin keeps its embeddings in a data file and the feature ids of its entries
    in a key file. Embeddings are written into page buffers ([PageMap]) and
    reach the file in [dimbin_flush]; ids are buffered in the B-tree
    ([KeyBTree]); during a checkpoint embeddings go to the overlay ([Overlay]).
    This file holds the state and all the operations; BinKeys.v and BinFlush.v
    hold their properties. *)

From Stdlib Require Import String.
From S2P Require Import Prelude LinearProbe Overlay DirtyTracker KeyBTree IoBatch PageMap.

(** ** State *)

Definition GRAVELDB_PAGE_SIZE_DEFAULT : Z := 4096.
Definition GRAVELDB_MAX_FLUSH_BATCH : Z := 65536.
Definition KEY_COALESCE_THRESH : Z := 4.
Definition KEY_PAGE_SIZE : Z := 4096.
Definition KEYS_PER_PAGE : Z := 512.
Definition PEEPHOLE_GAP_MAX : Z := 4.
Definition FLUSH_WATERMARK_NUMER : Z := 3.
Definition FLUSH_WATERMARK_DENOM : Z := 4.
Definition FLUSH_IOV_MAX : nat := 1024.
Definition OVERLAY_REPLAY_CHUNK : nat := 1024.

(** [entry_idx], [feat_id] *)
Definition KeyWriteEntry : Type := Z * Z.

(** [entry_id], and the bytes [data] points to. *)
Definition EmbWriteEntry : Type := Z * list Z.

(** [free_list]: the free entries, the one reused next first; [free_count] is
    its length. The allocator is the one of the database, set by the caller. *)
Record DimBin (P : Type) : Type := mkDimBin {
  dim : Z;
  page_size : Z;
  entry_size : Z;
  entries_per_page : Z;
  fd : Z;
  key_fd : Z;
  file_path : option string;
  key_file_path : option string;
  bump_ptr : Z;
  free_list : option (list Z);
  free_capacity : Z;
  dirty : DirtyTracker;
  write_buf : WriteBuffer;
  key_buf : KeyBTree;
  overlay : OverlayBuffer P;
  in_checkpoint : bool;
  flush_needed : bool;
  overlay_budget : Z;
  allocator : option P;
  total_entries : Z;
  total_pages : Z;
  io_errors : Z;
  data_file_size : Z;
  key_file_size : Z
}.
Arguments mkDimBin {P}.
Arguments dim {P}. Arguments page_size {P}. Arguments entry_size {P}. Arguments entries_per_page {P}.
Arguments fd {P}. Arguments key_fd {P}. Arguments file_path {P}. Arguments key_file_path {P}.
Arguments bump_ptr {P}. Arguments free_list {P}. Arguments free_capacity {P}. Arguments dirty {P}.
Arguments write_buf {P}. Arguments key_buf {P}. Arguments overlay {P}. Arguments in_checkpoint {P}.
Arguments flush_needed {P}. Arguments overlay_budget {P}. Arguments allocator {P}. Arguments total_entries {P}.
Arguments total_pages {P}. Arguments io_errors {P}. Arguments data_file_size {P}. Arguments key_file_size {P}.

(** Assignment to a field. *)
Section setters.
Context {P : Type}.
Implicit Types s : DimBin P.
Definition set_bump_ptr s (v : Z) : DimBin P :=
  mkDimBin (dim s) (page_size s) (entry_size s) (entries_per_page s) (fd s) (key_fd s) (file_path s) (key_file_path s) v (free_list
    s) (free_capacity s) (dirty s) (write_buf s) (key_buf s) (overlay s) (in_checkpoint s) (flush_needed s)
    (overlay_budget s) (allocator s) (total_entries s) (total_pages s) (io_errors s) (data_file_size s) (key_file_size
    s).
Definition set_free_list s (v : option (list Z)) : DimBin P :=
  mkDimBin (dim s) (page_size s) (entry_size s) (entries_per_page s) (fd s) (key_fd s) (file_path s) (key_file_path s) (bump_ptr s)
    v (free_capacity s) (dirty s) (write_buf s) (key_buf s) (overlay s) (in_checkpoint s) (flush_needed s)
    (overlay_budget s) (allocator s) (total_entries s) (total_pages s) (io_errors s) (data_file_size s) (key_file_size
    s).
Definition set_free_capacity s (v : Z) : DimBin P :=
  mkDimBin (dim s) (page_size s) (entry_size s) (entries_per_page s) (fd s) (key_fd s) (file_path s) (key_file_path s) (bump_ptr s)
    (free_list s) v (dirty s) (write_buf s) (key_buf s) (overlay s) (in_checkpoint s) (flush_needed s) (overlay_budget
    s) (allocator s) (total_entries s) (total_pages s) (io_errors s) (data_file_size s) (key_file_size s).
Definition set_dirty s (v : DirtyTracker) : DimBin P :=
  mkDimBin (dim s) (page_size s) (entry_size s) (entries_per_page s) (fd s) (key_fd s) (file_path s) (key_file_path s) (bump_ptr s)
    (free_list s) (free_capacity s) v (write_buf s) (key_buf s) (overlay s) (in_checkpoint s) (flush_needed s)
    (overlay_budget s) (allocator s) (total_entries s) (total_pages s) (io_errors s) (data_file_size s) (key_file_size
    s).
Definition set_write_buf s (v : WriteBuffer) : DimBin P :=
  mkDimBin (dim s) (page_size s) (entry_size s) (entries_per_page s) (fd s) (key_fd s) (file_path s) (key_file_path s) (bump_ptr s)
    (free_list s) (free_capacity s) (dirty s) v (key_buf s) (overlay s) (in_checkpoint s) (flush_needed s)
    (overlay_budget s) (allocator s) (total_entries s) (total_pages s) (io_errors s) (data_file_size s) (key_file_size
    s).
Definition set_key_buf s (v : KeyBTree) : DimBin P :=
  mkDimBin (dim s) (page_size s) (entry_size s) (entries_per_page s) (fd s) (key_fd s) (file_path s) (key_file_path s) (bump_ptr s)
    (free_list s) (free_capacity s) (dirty s) (write_buf s) v (overlay s) (in_checkpoint s) (flush_needed s)
    (overlay_budget s) (allocator s) (total_entries s) (total_pages s) (io_errors s) (data_file_size s) (key_file_size
    s).
Definition set_overlay s (v : OverlayBuffer P) : DimBin P :=
  mkDimBin (dim s) (page_size s) (entry_size s) (entries_per_page s) (fd s) (key_fd s) (file_path s) (key_file_path s) (bump_ptr s)
    (free_list s) (free_capacity s) (dirty s) (write_buf s) (key_buf s) v (in_checkpoint s) (flush_needed s)
    (overlay_budget s) (allocator s) (total_entries s) (total_pages s) (io_errors s) (data_file_size s) (key_file_size
    s).
Definition set_in_checkpoint s (v : bool) : DimBin P :=
  mkDimBin (dim s) (page_size s) (entry_size s) (entries_per_page s) (fd s) (key_fd s) (file_path s) (key_file_path s) (bump_ptr s)
    (free_list s) (free_capacity s) (dirty s) (write_buf s) (key_buf s) (overlay s) v (flush_needed s) (overlay_budget
    s) (allocator s) (total_entries s) (total_pages s) (io_errors s) (data_file_size s) (key_file_size s).
Definition set_flush_needed s (v : bool) : DimBin P :=
  mkDimBin (dim s) (page_size s) (entry_size s) (entries_per_page s) (fd s) (key_fd s) (file_path s) (key_file_path s) (bump_ptr s)
    (free_list s) (free_capacity s) (dirty s) (write_buf s) (key_buf s) (overlay s) (in_checkpoint s) v (overlay_budget
    s) (allocator s) (total_entries s) (total_pages s) (io_errors s) (data_file_size s) (key_file_size s).
Definition set_allocator s (v : option P) : DimBin P :=
  mkDimBin (dim s) (page_size s) (entry_size s) (entries_per_page s) (fd s) (key_fd s) (file_path s) (key_file_path s) (bump_ptr s)
    (free_list s) (free_capacity s) (dirty s) (write_buf s) (key_buf s) (overlay s) (in_checkpoint s) (flush_needed s)
    (overlay_budget s) v (total_entries s) (total_pages s) (io_errors s) (data_file_size s) (key_file_size s).
Definition set_overlay_budget s (v : Z) : DimBin P :=
  mkDimBin (dim s) (page_size s) (entry_size s) (entries_per_page s) (fd s) (key_fd s) (file_path s) (key_file_path s) (bump_ptr s)
    (free_list s) (free_capacity s) (dirty s) (write_buf s) (key_buf s) (overlay s) (in_checkpoint s) (flush_needed s) v
    (allocator s) (total_entries s) (total_pages s) (io_errors s) (data_file_size s) (key_file_size s).
Definition set_total_entries s (v : Z) : DimBin P :=
  mkDimBin (dim s) (page_size s) (entry_size s) (entries_per_page s) (fd s) (key_fd s) (file_path s) (key_file_path s) (bump_ptr s)
    (free_list s) (free_capacity s) (dirty s) (write_buf s) (key_buf s) (overlay s) (in_checkpoint s) (flush_needed s)
    (overlay_budget s) (allocator s) v (total_pages s) (io_errors s) (data_file_size s) (key_file_size s).
Definition set_total_pages s (v : Z) : DimBin P :=
  mkDimBin (dim s) (page_size s) (entry_size s) (entries_per_page s) (fd s) (key_fd s) (file_path s) (key_file_path s) (bump_ptr s)
    (free_list s) (free_capacity s) (dirty s) (write_buf s) (key_buf s) (overlay s) (in_checkpoint s) (flush_needed s)
    (overlay_budget s) (allocator s) (total_entries s) v (io_errors s) (data_file_size s) (key_file_size s).
Definition set_io_errors s (v : Z) : DimBin P :=
  mkDimBin (dim s) (page_size s) (entry_size s) (entries_per_page s) (fd s) (key_fd s) (file_path s) (key_file_path s) (bump_ptr s)
    (free_list s) (free_capacity s) (dirty s) (write_buf s) (key_buf s) (overlay s) (in_checkpoint s) (flush_needed s)
    (overlay_budget s) (allocator s) (total_entries s) (total_pages s) v (data_file_size s) (key_file_size s).
Definition set_data_file_size s (v : Z) : DimBin P :=
  mkDimBin (dim s) (page_size s) (entry_size s) (entries_per_page s) (fd s) (key_fd s) (file_path s) (key_file_path s) (bump_ptr s)
    (free_list s) (free_capacity s) (dirty s) (write_buf s) (key_buf s) (overlay s) (in_checkpoint s) (flush_needed s)
    (overlay_budget s) (allocator s) (total_entries s) (total_pages s) (io_errors s) v (key_file_size s).
Definition set_key_file_size s (v : Z) : DimBin P :=
  mkDimBin (dim s) (page_size s) (entry_size s) (entries_per_page s) (fd s) (key_fd s) (file_path s) (key_file_path s) (bump_ptr s)
    (free_list s) (free_capacity s) (dirty s) (write_buf s) (key_buf s) (overlay s) (in_checkpoint s) (flush_needed s)
    (overlay_budget s) (allocator s) (total_entries s) (total_pages s) (io_errors s) (data_file_size s) v.
End setters.

Definition zero_wb : WriteBuffer := mkWriteBuffer None 0 0 0 0 [] 0.
Definition zero_dirty : DirtyTracker := mkDirtyTracker (mkDirtyTree [] 0 0 0) (mkDirtyTree [] 0 0 0) 0 0.
Definition zero_kbt : KeyBTree := mkKeyBTree None 0 0 0.

(** [memset(s, 0, sizeof( *s)); s->fd = -1; s->key_fd = -1;] *)
Definition zero_bin {P} : DimBin P :=
  mkDimBin 0 0 0 0 (-1) (-1) None None 0 None 0 zero_dirty zero_wb zero_kbt zero_overlay false false 0 None 0 0 0 0 0.

(** A bin and the system. *)
Record BinSt (P : Type) : Type := mkBinSt { bin : DimBin P; sys : Sys }.
Arguments mkBinSt {P}. Arguments bin {P}. Arguments sys {P}.

(** ** Operations *)

(** The bytes of a [uint64_t] in a data file, in the host's order. *)
Definition key_bytes (v : Z) : list Z := (fun i => Z.land (Z.shiftr v (8 * Z.of_nat i)) 255) <$> seq 0 8.

Definition align_up (val align : Z) : Z :=
  if align =? 0 then val else Z.land (u64 (val + align - 1)) (Z.lxor (2 ^ 64 - 1) (u64 (align - 1))).

(** Splits a list where [ok] fails between neighbours. *)
Fixpoint runs {A} (ok : A -> A -> bool) (l : list A) : list (list A) :=
  match l with
  | [] => []
  | x :: l =>
    match runs ok l with
    | (y :: r) :: rs => if ok x y then (x :: y :: r) :: rs else [x] :: (y :: r) :: rs
    | _ => [[x]]
    end
  end.

(** Splits a list into pieces of at most [n] elements. *)
Fixpoint chunks_of {A} (fuel n : nat) (l : list A) : list (list A) :=
  match fuel, l with
  | S fuel, _ :: _ => take n l :: chunks_of fuel n (drop n l)
  | _, _ => []
  end.

Section ops.
Context {P : Type} `{!ObjectPool P}.
#[local] Abbreviation B := (M (BinSt P)).

Definition onsys {A} (m : M Sys A) : B A := fun st =>
  let! '(a, y) := m (sys st) in Ret (a, mkBinSt (bin st) y).
Definition get_bin : B (DimBin P) := gets bin.
Definition upd (f : DimBin P -> DimBin P) : B unit := modify (fun st => mkBinSt (f (bin st)) (sys st)).

(** *** Files *)

Definition graveldb_preallocate (fd new_size : Z) : M Sys Z :=
  let* r := fallocate fd new_size in
  if r =? 0 then ret 0
  else if negb (r =? -2) then ret (-1)
  else ftruncate fd new_size.

(** [fstat]: the size, or -1. *)
Definition fstat_size (fd : Z) : M Sys Z :=
  let* ok := sys_ok in
  let* fs := gets files in
  ret (match fs !! fd with Some f => if (ok : bool) then zlen f else -1 | None => -1 end).

(** [while (size < required) size *= 2;]: after 64 doublings [size] is 0 and the
    loop never ends. *)
Fixpoint double_until (fuel : nat) (size required : Z) : res Z :=
  match fuel with
  | O => Diverge
  | S fuel => if size <? required then double_until fuel (u64 (size * 2)) required else Ret size
  end.

(** *** Initialisation *)

(** [memcpy] of all but the last four characters, then ".keys". *)
Definition key_path (p : string) : res string :=
  let len := String.length p in
  if (len <? 4)%nat then Ub else Ret (String.append (String.substring 0 (len - 4) p) ".keys"%string).

(** [while (wb_cap < write_max * 2) wb_cap *= 2;] on [uint32_t]. *)
Fixpoint wb_cap_loop (fuel : nat) (cap limit : Z) : res Z :=
  match fuel with
  | O => Diverge
  | S fuel => if cap <? limit then wb_cap_loop fuel (u32 (cap * 2)) limit else Ret cap
  end.

Definition init_geometry (dim entry_align page_sz : Z) : res (Z * Z * Z) :=
  let page_sz := if negb (page_sz =? 0) then page_sz else GRAVELDB_PAGE_SIZE_DEFAULT in
  let entry_sz := align_up (u64 (dim * 4)) entry_align in
  if entry_sz =? 0 then Ub
  else
    let epp := i32 (page_sz / entry_sz) in
    if epp =? 0 then Ret (u32 entry_sz, entry_sz, 1) else Ret (page_sz, entry_sz, epp).

(** The failure exit: everything is released and the structure cleared. *)
Definition init_fail (rc : graveldb_status_t) : M Sys (graveldb_status_t * DimBin P) := ret (rc, zero_bin).

(** The buffers of a bin whose files are open: the part after the [fstat]s. *)
Definition init_buffers (s : DimBin P) (buffer_size : Z) : M Sys (graveldb_status_t * DimBin P) :=
  let* ok := sys_ok in
  if negb ok then init_fail GRAVELDB_ERR_OOM else
  let initial_pages := if 0 <? total_pages s then u32 (total_pages s) else 1024 in
  let* '(rc, dt) := lift (dirty_tracker_init (Some initial_pages)) in
  if negb (bool_decide (rc = GRAVELDB_OK)) then init_fail rc else
  if page_size s =? 0 then lift Ub else
  let max_pgs := buffer_size / page_size s in
  let max_pgs := if max_pgs =? 0 then 1024 else max_pgs in
  let write_max := if max_pgs =? 0 then 64 else max_pgs in
  let* wb_cap := lift (wb_cap_loop 40 64 (u64 (write_max * 2))) in
  let* ok := sys_ok in
  if negb ok then init_fail GRAVELDB_ERR_OOM else
  let wb := mkWriteBuffer (Some (replicate (Z.to_nat wb_cap) no_page)) wb_cap 0 write_max 0 [] 0 in
  let* ok := sys_ok in
  if negb ok then init_fail GRAVELDB_ERR_OOM else
  let budget := u64 (write_max * entries_per_page s * 40) in
  let budget := if budget <? 262144 then 262144 else budget in
  let budget := if 16777216 <? budget then 16777216 else budget in
  let* ok := sys_ok in
  ret (GRAVELDB_OK,
       mkDimBin (dim s) (page_size s) (entry_size s) (entries_per_page s) (fd s) (key_fd s) (file_path s) (key_file_path s)
         (bump_ptr s) (Some []) 1024 dt wb (kbt_init ok budget) zero_overlay false false 0 None
         (total_entries s) (total_pages s) 0 (data_file_size s) (key_file_size s)).

Definition dimbin_init (dim : Z) (path : string) (buffer_size entry_align page_sz : Z) :
    M Sys (graveldb_status_t * DimBin P) :=
  let* '(psz, esz, epp) := lift (init_geometry dim entry_align page_sz) in
  let* ok := sys_ok in
  if negb ok then init_fail GRAVELDB_ERR_OOM else
  let* ok := sys_ok in
  if negb ok then init_fail GRAVELDB_ERR_OOM else
  let* kpath := lift (key_path path) in
  let* open_fd := open_path true false path in
  if open_fd <? 0 then init_fail GRAVELDB_ERR_IO else
  let* open_key_fd := open_path true false kpath in
  if open_key_fd <? 0 then init_fail GRAVELDB_ERR_IO else
  let* size := fstat_size open_fd in
  if size <? 0 then init_fail GRAVELDB_ERR_IO else
  let* ksize := fstat_size open_key_fd in
  let ksize := if 0 <=? ksize then ksize else 0 in
  let key_slots := ksize / 8 in
  let data_slots := if 0 <? size then size / esz else 0 in
  let bump := if key_slots <? data_slots then key_slots else data_slots in
  init_buffers
    (mkDimBin dim psz esz epp open_fd open_key_fd (Some path) (Some kpath) bump None 0 zero_dirty zero_wb zero_kbt
       zero_overlay false false 0 None bump (u64 (bump + u64 epp - 1) / u64 epp) 0 size ksize) buffer_size.

(** The buffers handed back to the allocator. *)
Definition dimbin_destroy (s : DimBin P) : res (list Z * DimBin P) :=
  let! '(_, _) := dirty_tracker_destroy (dirty s) in
  let in_use := match wslots (write_buf s) with
                | Some sl => pdata <$> List.filter (fun x => negb (page_id x =? PAGE_SLOT_EMPTY) && negb (pdata x =? 0)) sl
                | None => []
                end in
  Ret (in_use ++ reverse (page_pool (write_buf s)), zero_bin).

(** *** Entries *)

(** Grows the data file to [new_size], or to [required] bytes when that fails. *)
Definition grow_data_file (new_size required : Z) : B unit :=
  let* s := get_bin in
  let* r := onsys (graveldb_preallocate (fd s) new_size) in
  if r =? 0 then upd (fun s => set_data_file_size s new_size)
  else
    let* r := onsys (graveldb_preallocate (fd s) required) in
    when (r =? 0) (upd (fun s => set_data_file_size s required)).

Definition dimbin_reserve (count : Z) : B unit :=
  let* s := get_bin in
  let future_bump := u64 (bump_ptr s + count) in
  let required := u64 (future_bump * entry_size s) in
  do* when (data_file_size s <? required)
        (let new_size := if 0 <? data_file_size s then u64 (data_file_size s * 2) else u64 (page_size s * 256) in
         let* new_size := lift (double_until 66 new_size required) in
         grow_data_file new_size required) in
  let key_required := u64 (future_bump * 8) in
  when (key_file_size s <? key_required)
    (let new_size := if 0 <? key_file_size s then u64 (key_file_size s * 2) else 8192 in
     let* new_size := lift (double_until 66 new_size key_required) in
     let* r := onsys (graveldb_preallocate (key_fd s) new_size) in
     when (r =? 0) (upd (fun s => set_key_file_size s new_size))).

Definition dimbin_alloc_entry : B Z :=
  let* s := get_bin in
  let* free := lift (deref (free_list s)) in
  match free with
  | e :: free => do* upd (fun s => set_free_list s (Some free)) in ret e
  | [] =>
    let slot := u32 (bump_ptr s) in
    do* upd (fun s => set_bump_ptr s (u64 (bump_ptr s + 1))) in
    let required := u64 (u32 (slot + 1) * entry_size s) in
    do* when (data_file_size s <? required)
          (let new_size := if 0 <? data_file_size s then u64 (data_file_size s * 2) else u64 (page_size s * 256) in
           let new_size := if new_size <? required then u64 (required * 2) else new_size in
           grow_data_file new_size required) in
    let key_required := u32 (slot + 1) * 8 in
    do* when (key_file_size s <? key_required)
          (let new_size := if 0 <? key_file_size s then u64 (key_file_size s * 2) else 8192 in
           let new_size := if new_size <? key_required then u64 (key_required * 2) else new_size in
           let* r := onsys (ftruncate (key_fd s) new_size) in
           when (r =? 0) (upd (fun s => set_key_file_size s new_size))) in
    do* when (total_entries s <=? slot)
          (upd (fun s => set_total_pages (set_total_entries s (u32 (slot + 1)))
                           (u64 (u32 (slot + 1) + u64 (entries_per_page s) - 1) / u64 (entries_per_page s)))) in
    ret slot
  end.

(** *** Keys *)

Definition io_error : B unit := upd (fun s => set_io_errors s (u64 (io_errors s + 1))).

Definition dimbin_put_key (entry_idx feat_id : Z) : B graveldb_status_t :=
  let* s := get_bin in
  let* wr := onsys (pwrite (key_fd s) (key_bytes feat_id) (entry_idx * 8)) in
  if negb (wr =? 8) then do* io_error in ret GRAVELDB_ERR_IO else ret GRAVELDB_OK.

(** [kp[slots[k]] = vals[k]] for every accumulated key. *)
Fixpoint patch_keys (page : list Z) (ents : list (Z * Z)) : res (list Z) :=
  match ents with
  | [] => Ret page
  | (slot, v) :: ents =>
    if (slot <? 0) || (KEYS_PER_PAGE <=? slot) then Ub
    else patch_keys (take (Z.to_nat (slot * 8)) page ++ key_bytes v ++ drop (Z.to_nat (slot * 8) + 8) page) ents
  end.

(** The page as read, the rest of it zeros. *)
Definition load_key_page (s : DimBin P) (pg_off : Z) : M Sys (list Z) :=
  if pg_off <? key_file_size s then
    let* '(_, b) := pread (key_fd s) KEY_PAGE_SIZE pg_off in
    ret (b ++ replicate (Z.to_nat KEY_PAGE_SIZE - length b) 0)
  else ret (replicate (Z.to_nat KEY_PAGE_SIZE) 0).

Definition flush_key_page (page : Z) (ents : list (Z * Z)) : B unit :=
  let* s := get_bin in
  if KEY_COALESCE_THRESH <=? zlen ents then
    let pg_off := page * KEY_PAGE_SIZE in
    let* b := onsys (load_key_page s pg_off) in
    let* b := lift (patch_keys b ents) in
    let* wr := onsys (pwrite (key_fd s) b pg_off) in
    when (negb (wr =? KEY_PAGE_SIZE)) io_error
  else
    forM ents (fun e =>
      let off := u64 (page * KEYS_PER_PAGE + fst e) * 8 in
      let* wr := onsys (pwrite (key_fd s) (key_bytes (snd e)) off) in
      when (negb (wr =? 8)) io_error).

(** The scan of [dimbin_put_keys_batch]: [acc] holds the keys of page [cur],
    which has room for 512. *)
Fixpoint put_keys_loop (entries : list KeyWriteEntry) (cur : Z) (acc : list (Z * Z)) : B unit :=
  match entries with
  | [] => when (0 <? zlen acc) (flush_key_page cur acc)
  | (idx, fid) :: entries =>
    let pg := idx / KEYS_PER_PAGE in
    let slot := idx mod KEYS_PER_PAGE in
    if negb (pg =? cur) then
      do* flush_key_page cur acc in
      put_keys_loop entries pg [(slot, fid)]
    else if KEYS_PER_PAGE <=? zlen acc then lift Ub
    else put_keys_loop entries cur (acc ++ [(slot, fid)])
  end.

Definition dimbin_put_keys_batch (entries : list KeyWriteEntry) : B unit :=
  match entries with
  | [] => ret tt
  | (idx0, _) :: _ =>
    if zlen entries <? KEY_COALESCE_THRESH then
      forM entries (fun e => let* _ := dimbin_put_key (fst e) (snd e) in ret tt)
    else put_keys_loop entries (idx0 / KEYS_PER_PAGE) []
  end.

Definition dimbin_flush_keys : B graveldb_status_t :=
  let* s := get_bin in
  if KeyBTree.count (key_buf s) =? 0 then ret GRAVELDB_OK
  else
    let* ok := onsys sys_ok in
    if negb ok then ret GRAVELDB_ERR_OOM
    else
      do* dimbin_put_keys_batch (kbt_collect (key_buf s)) in
      do* upd (fun s => set_key_buf s (kbt_clear (key_buf s))) in
      ret GRAVELDB_OK.

Definition dimbin_buf_key (entry_idx feat_id : Z) : B unit :=
  let* s := get_bin in
  do* when (kbt_full (key_buf s)) (let* _ := dimbin_flush_keys in ret tt) in
  let* s := get_bin in
  let* '(_, t) := lift (kbt_insert (key_buf s) entry_idx feat_id) in
  upd (fun s => set_key_buf s t).

Definition dimbin_free_entry (entry_idx : Z) : B unit :=
  let* s := get_bin in
  let* free := lift (deref (free_list s)) in
  let push cap :=
    do* upd (fun s => set_free_capacity (set_free_list s (Some (entry_idx :: free))) cap) in
    dimbin_buf_key entry_idx 0 in
  if free_capacity s <=? zlen free then
    let new_cap := u32 (free_capacity s * 2) in
    let* ok := onsys sys_ok in
    if negb ok then ret tt
    else if new_cap <=? zlen free then lift Ub else push new_cap
  else push (free_capacity s).

(** *** Flush *)

Definition get_slots : B (list PageSlot) :=
  let* s := get_bin in lift (deref (wslots (write_buf s))).

Definition collect_pages (sl : list PageSlot) : list Z :=
  take (Z.to_nat GRAVELDB_MAX_FLUSH_BATCH) (page_id <$> List.filter (fun x => negb (page_id x =? PAGE_SLOT_EMPTY)) sl).

(** What the write loop keeps: the I/O context, the status, and the array of
    iovec pointers kept until the wait. *)
Record FlushLocals : Type := mkFlushLocals { io_ctx : uring_io_ctx_t; frc : graveldb_status_t; iov_heap_count : Z; iov_heap_cap : Z }.

Definition set_rc (l : FlushLocals) (rc : graveldb_status_t) : FlushLocals :=
  mkFlushLocals (io_ctx l) rc (iov_heap_count l) (iov_heap_cap l).
Definition set_ctx (l : FlushLocals) (c : uring_io_ctx_t) : FlushLocals :=
  mkFlushLocals c (frc l) (iov_heap_count l) (iov_heap_cap l).

(** The iovec of a chunk: the buffers of its pages. *)
Fixpoint build_iov (sl : list PageSlot) (cap psz : Z) (chunk : list Z) : res (list (Z * Z)) :=
  match chunk with
  | [] => Ret []
  | pg :: chunk =>
    let! h := pagemap_find sl cap pg in
    let! x := rd sl h in
    let! iov := build_iov sl cap psz chunk in
    Ret (if page_id x =? pg then (pdata x, psz) :: iov else iov)
  end.

(** [iov_heap_ptrs[iov_heap_count++] = iov], growing the array. *)
Definition keep_iov (l : FlushLocals) : M Sys FlushLocals :=
  let full l := ret (if iov_heap_count l <? iov_heap_cap l
                     then mkFlushLocals (io_ctx l) (frc l) (iov_heap_count l + 1) (iov_heap_cap l) else l) in
  if iov_heap_cap l <=? iov_heap_count l then
    let* ok := sys_ok in
    full (if (ok : bool) then mkFlushLocals (io_ctx l) (frc l) (iov_heap_count l) (if iov_heap_cap l =? 0 then 16 else iov_heap_cap l * 2)
          else l)
  else full l.

(** The submission of a chunk's iovec. *)
Definition submit_iov (use_uring : bool) (s : DimBin P) (l : FlushLocals) (iov : list (Z * Z)) (off : Z) : M Sys FlushLocals :=
  match iov with
  | [] => ret l
  | [(b, len)] =>
    if use_uring then
      let* '(r, c) := uring_io_submit_write (io_ctx l) (fd s) b len off in
      ret (set_ctx (if r <? 0 then set_rc l GRAVELDB_ERR_IO else l) c)
    else
      let* bs := buf_bytes b len in
      let* wr := pwrite (fd s) bs off in
      ret (if negb (wr =? len) then set_rc l GRAVELDB_ERR_IO else l)
  | _ =>
    if use_uring then
      let* '(r, c) := uring_io_submit_writev (io_ctx l) (fd s) iov off in
      ret (set_ctx (if r <? 0 then set_rc l GRAVELDB_ERR_IO else l) c)
    else
      let* wr := pwritev (fd s) iov off in
      ret (if (wr <? 0) || negb (wr =? zlen iov * page_size s) then set_rc l GRAVELDB_ERR_IO else l)
  end.

(** One [writev] of at most [FLUSH_IOV_MAX] consecutive pages; [false] leaves the
    loop over the chunks of a sub-run. *)
Definition flush_chunk (use_uring : bool) (l : FlushLocals) (chunk : list Z) : B (bool * FlushLocals) :=
  let* s := get_bin in
  let* sl := get_slots in
  let on_heap := (use_uring && (1 <? zlen chunk)) || (128 <? zlen chunk) in
  let* ok := if on_heap then onsys sys_ok else ret true in
  if negb ok then ret (false, set_rc l GRAVELDB_ERR_OOM)
  else
    let* iov := lift (build_iov sl (wcapacity (write_buf s)) (page_size s) chunk) in
    let* l := onsys (submit_iov use_uring s l iov (hd 0 chunk * page_size s)) in
    let* l := if on_heap && (use_uring && (1 <? zlen iov)) then onsys (keep_iov l) else ret l in
    ret (true, l).

Fixpoint flush_chunks (use_uring : bool) (l : FlushLocals) (cs : list (list Z)) : B FlushLocals :=
  match cs with
  | [] => ret l
  | c :: cs =>
    let* '(go, l) := flush_chunk use_uring l c in
    if (go : bool) then flush_chunks use_uring l cs else ret l
  end.

(** The consecutive sub-runs of a run, one after the other. *)
Fixpoint flush_subruns (use_uring : bool) (l : FlushLocals) (rs : list (list Z)) : B FlushLocals :=
  match rs with
  | [] => ret l
  | r :: rs =>
    let* l := flush_chunks use_uring l (chunks_of (List.length r) FLUSH_IOV_MAX r) in
    flush_subruns use_uring l rs
  end.

Definition gap_ok (a b : Z) : bool := b <=? u32 (a + PEEPHOLE_GAP_MAX + 1).
Definition consecutive (a b : Z) : bool := b =? u32 (a + 1).

(** The runs of dirty pages with gaps of at most [PEEPHOLE_GAP_MAX]. *)
Fixpoint flush_runs (use_uring : bool) (l : FlushLocals) (rs : list (list Z)) : B FlushLocals :=
  match rs with
  | [] => ret l
  | r :: rs =>
    let* l := flush_subruns use_uring l (runs consecutive r) in
    do* upd (fun s => set_write_buf s (set_flush_bytes (write_buf s) (u64 (flush_bytes (write_buf s) + zlen r * page_size s)))) in
    flush_runs use_uring l rs
  end.

(** The wait for the writes, and the synchronisation. *)
Definition flush_wait (use_uring sync : bool) (l : FlushLocals) : B graveldb_status_t :=
  let* s := get_bin in
  if use_uring then
    do* when sync (onsys (let* _ := uring_io_submit_fsyncs (io_ctx l) in ret tt)) in
    ret (if 0 <? fst (uring_io_wait (io_ctx l)) then GRAVELDB_ERR_IO else frc l)
  else if sync then
    let* r1 := onsys (fdatasync (key_fd s)) in
    let* r2 := onsys (fdatasync (fd s)) in
    ret (if negb (r1 =? 0) || negb (r2 =? 0) then GRAVELDB_ERR_IO else frc l)
  else ret (frc l).

(** Recycles the buffers of the flushed pages; [clear] also empties their slots. *)
Fixpoint recycle_pages (clear : bool) (pages : list Z) : B unit :=
  match pages with
  | [] => ret tt
  | pg :: pages =>
    let* s := get_bin in
    let* sl := get_slots in
    let wb := write_buf s in
    let* h := lift (pagemap_find sl (wcapacity wb) pg) in
    let* x := lift (rd sl h) in
    do* when (page_id x =? pg)
          (let* wb := onsys (write_buf_recycle_page wb (pdata x)) in
           let* sl := lift (if clear then wr sl h no_page else Ret sl) in
           upd (fun s => set_write_buf s (set_pages wb sl (wcapacity wb) (wcount wb)))) in
    recycle_pages clear pages
  end.

(** The rehash in place: slot by slot, in table order. *)
Fixpoint rehash_in_place (fuel : nat) (sl : list PageSlot) (cap ci cnt : Z) : res (list PageSlot * Z) :=
  match fuel with
  | O => Ret (sl, cnt)
  | S fuel =>
    let! t := rd sl ci in
    if page_id t =? PAGE_SLOT_EMPTY then rehash_in_place fuel sl cap (ci + 1) cnt
    else
      let! sl := wr sl ci no_page in
      let! h := pagemap_find sl cap (page_id t) in
      let! sl := wr sl h t in
      rehash_in_place fuel sl cap (ci + 1) (cnt + 1)
  end.

Definition flush_release_all (pages : list Z) : B unit :=
  do* recycle_pages false pages in
  upd (fun s => set_write_buf s (set_pages (write_buf s) (replicate (Z.to_nat (wcapacity (write_buf s))) ff_page) (wcapacity (write_buf s)) 0)).

Definition flush_release_some (pages : list Z) : B unit :=
  do* recycle_pages true pages in
  let* s := get_bin in
  let* sl := get_slots in
  let wb := write_buf s in
  let cap := wcapacity wb in
  let remaining := u32 (wcount wb - zlen pages) in
  let* ok := if 0 <? remaining then onsys sys_ok else ret false in
  if (ok : bool) then
    let tmp := take (Z.to_nat remaining) (List.filter (fun x => negb (page_id x =? PAGE_SLOT_EMPTY)) sl) in
    let* sl := lift (reinsert_all tmp (replicate (Z.to_nat cap) ff_page) cap) in
    upd (fun s => set_write_buf s (set_pages (write_buf s) sl cap (zlen tmp)))
  else
    let* '(sl, cnt) := lift (rehash_in_place (Z.to_nat cap) sl cap 0 0) in
    upd (fun s => set_write_buf s (set_pages (write_buf s) sl cap cnt)).

(** The value pages: written, waited for, and their buffers released. *)
Definition flush_pages (sync : bool) (pages : list Z) : B graveldb_status_t :=
  let '(r, c) := uring_io_init in
  let use_uring := r =? 0 in
  let* l := flush_runs use_uring (mkFlushLocals c GRAVELDB_OK 0 0) (runs gap_ok pages) in
  let* rc := flush_wait use_uring sync l in
  let* s := get_bin in
  do* (if zlen pages =? i32 (wcount (write_buf s)) then flush_release_all pages else flush_release_some pages) in
  ret rc.

Definition dimbin_flush (sync : bool) : B graveldb_status_t :=
  let* key_rc := dimbin_flush_keys in
  if negb (bool_decide (key_rc = GRAVELDB_OK)) then ret key_rc
  else
    do* upd (fun s => set_flush_needed s false) in
    let* s := get_bin in
    if wcount (write_buf s) =? 0 then ret GRAVELDB_OK
    else
      let* sl := get_slots in
      let pages := collect_pages sl in
      if zlen pages =? 0 then ret GRAVELDB_OK
      else flush_pages sync (merge_sort Z.le pages).

(** *** Embeddings *)

(** Grows the page table past 70% load; [false] when there is no memory. *)
Definition grow_page_map : B bool :=
  let* s := get_bin in
  let wb := write_buf s in
  if u32 (wcapacity wb * 7) <=? u32 (wcount wb * 10) then
    let new_cap := u32 (wcapacity wb * 2) in
    let* ok := onsys sys_ok in
    let* sl := lift (pagemap_grow ok (wslots wb) new_cap) in
    match sl with
    | None => ret false
    | Some sl => do* upd (fun s => set_write_buf s (set_pages (write_buf s) sl new_cap (wcount (write_buf s)))) in ret true
    end
  else ret true.

(** What a new page buffer holds: the committed page, or zeros. *)
Definition load_page (s : DimBin P) (pg : Z) : M Sys (list Z) :=
  let psz := page_size s in
  let first_committed := u32 (bump_ptr s / u32 (entries_per_page s)) in
  if (pg <? first_committed) && (pg * psz <? data_file_size s) then
    let* '(_, b) := pread (fd s) psz (pg * psz) in
    ret (b ++ replicate (Z.to_nat psz - List.length b) 0)
  else ret (replicate (Z.to_nat psz) 0).

(** The address of the page's buffer, 0 for [NULL]. *)
Definition write_buf_ensure_page (pg : Z) : B Z :=
  let* s := get_bin in
  let* sl := get_slots in
  let* h := lift (pagemap_find sl (wcapacity (write_buf s)) pg) in
  let* x := lift (rd sl h) in
  if page_id x =? pg then ret (pdata x)
  else
    do* when (max_pages (write_buf s) <=? wcount (write_buf s)) (let* _ := dimbin_flush false in ret tt) in
    let* ok := grow_page_map in
    if negb ok then ret 0
    else
      let* s := get_bin in
      let* al := lift (deref (allocator s)) in
      let* '(mem, wb, al) := onsys (write_buf_acquire_page (write_buf s) al (page_size s)) in
      do* upd (fun s => set_allocator (set_write_buf s wb) (Some al)) in
      if mem =? 0 then ret 0
      else
        let* b := onsys (load_page s pg) in
        do* onsys (modify (fun y => set_bufs y (<[mem := b]> (bufs y)))) in
        let* sl := get_slots in
        let* h := lift (pagemap_find sl (wcapacity wb) pg) in
        let* sl := lift (wr sl h (mkPageSlot pg mem)) in
        do* upd (fun s => set_write_buf s (set_pages wb sl (wcapacity wb) (u32 (wcount wb + 1)))) in
        ret mem.

Definition dimbin_should_flush (s : DimBin P) : bool :=
  let threshold := u32 (u64 (max_pages (write_buf s) * FLUSH_WATERMARK_NUMER) / FLUSH_WATERMARK_DENOM) in
  threshold <=? wcount (write_buf s).

(** Writes during a checkpoint: to the overlay, with backpressure. *)
Fixpoint put_overlay (entries : list EmbWriteEntry) : B graveldb_status_t :=
  match entries with
  | [] => ret GRAVELDB_OK
  | (id, d) :: entries =>
    let* s := get_bin in
    if overlay_full (overlay s) then ret GRAVELDB_ERR_BUSY
    else
      let n := dim s * 4 in
      if zlen d <? n then lift Ub
      else
        let* ok := onsys sys_ok in
        let* '(rc, ob) := lift (overlay_put ok (overlay s) id (take (Z.to_nat n) d) (dim s)) in
        do* upd (fun s => set_overlay s ob) in
        if negb (bool_decide (rc = GRAVELDB_OK)) then ret rc else put_overlay entries
  end.

(** The insertion sort by page: [done] is the sorted prefix, last entry first. *)
Fixpoint sort_insert (epp : Z) (e : EmbWriteEntry) (done : list EmbWriteEntry) : list EmbWriteEntry :=
  match done with
  | x :: done' => if fst e / epp <? fst x / epp then x :: sort_insert epp e done' else e :: done
  | [] => [e]
  end.
Definition sort_by_page (epp : Z) (entries : list EmbWriteEntry) : list EmbWriteEntry :=
  reverse (foldl (fun done e => sort_insert epp e done) [] entries).

(** The first [entry_size] bytes of the embedding. *)
Definition entry_bytes (s : DimBin P) (d : list Z) : res (list Z) :=
  if zlen d <? entry_size s then Ub else Ret (take (Z.to_nat (entry_size s)) d).

(** The answers to the allocations that a mark may make: the segment array, the root of a new
    segment, and a node for each level below it (a tree has a depth of at most 4). *)
Definition mark_answers : B MarkAlloc :=
  let* array := onsys sys_ok in
  let* root := onsys sys_ok in
  let* n0 := onsys sys_ok in
  let* n1 := onsys sys_ok in
  let* n2 := onsys sys_ok in
  let* n3 := onsys sys_ok in
  ret (mkMarkAlloc array root (fun d => nth d [n0; n1; n2; n3] true)).

Definition mark_page (pg : Z) : B unit :=
  let* al := mark_answers in
  let* s := get_bin in
  let* dt := lift (dirty_tracker_mark al (dirty s) pg) in
  upd (fun s => set_dirty s dt).

(** Writes that bypass the buffer, through an array of 4096 bytes. *)
Fixpoint put_direct (s : DimBin P) (pg : Z) (l : list EmbWriteEntry) (rc : graveldb_status_t) : B graveldb_status_t :=
  match l with
  | [] => ret rc
  | e :: l =>
    let* b := lift (if 4096 <? entry_size s then Ub else entry_bytes s (snd e)) in
    let* wr := onsys (pwrite (fd s) b (fst e * entry_size s)) in
    do* mark_page pg in
    put_direct s pg l (if wr <? 0 then GRAVELDB_ERR_IO else rc)
  end.

(** The entries of one page: into its buffer, or straight to the file. *)
Definition put_page (pg : Z) (group : list EmbWriteEntry) : B graveldb_status_t :=
  let* s := get_bin in
  do* when (dt_capacity (dirty s) <=? pg)
        (upd (fun s => set_dirty s (snd (dirty_tracker_resize (dirty s) (if pg <? 1024 then 1024 else u32 ((pg + 1) * 2)))))) in
  let epp := u32 (entries_per_page s) in
  let* page := write_buf_ensure_page pg in
  if negb (page =? 0) then
    do* forM group (fun e =>
          let* b := lift (entry_bytes s (snd e)) in
          onsys (buf_write page (u32 (fst e mod epp * u32 (entry_size s))) b)) in
    do* mark_page pg in
    ret GRAVELDB_OK
  else put_direct s pg group GRAVELDB_OK.

Fixpoint put_groups (epp : Z) (groups : list (list EmbWriteEntry)) (rc : graveldb_status_t) : B graveldb_status_t :=
  match groups with
  | [] => ret rc
  | g :: groups =>
    let* r := put_page (match g with e :: _ => fst e / epp | [] => 0 end) g in
    put_groups epp groups (if bool_decide (r = GRAVELDB_OK) then rc else r)
  end.

Definition dimbin_put_batch (entries : list EmbWriteEntry) : B graveldb_status_t :=
  match entries with
  | [] => ret GRAVELDB_OK
  | _ =>
    let* s := get_bin in
    if in_checkpoint s then put_overlay entries
    else
      let* ok := if zlen entries <=? 256 then ret true else onsys sys_ok in
      if negb ok then ret GRAVELDB_ERR_OOM
      else
        let epp := u32 (entries_per_page s) in
        if epp =? 0 then lift Ub
        else
          let groups := runs (fun a b => fst b / epp =? fst a / epp) (sort_by_page epp entries) in
          let* rc := put_groups epp groups GRAVELDB_OK in
          let* s := get_bin in
          do* when (dimbin_should_flush s) (upd (fun s => set_flush_needed s true)) in
          ret rc
  end.

(** *** Checkpoints *)

(** [pool]: the answer of [slab_pool_create] for the overlay. *)
Definition dimbin_checkpoint_begin (ok_slots ok_tombs : bool) (pool : option P) : B graveldb_status_t :=
  let* _ := dimbin_flush true in
  let* s := get_bin in
  let* dt := lift (dirty_tracker_swap (dirty s)) in
  let has_alloc := match allocator s with Some _ => true | None => false end in
  let ob := snd (overlay_init ok_slots ok_tombs has_alloc pool (overlay s) (dim s)) in
  let ob := mkOverlayBuffer (slots ob) (capacity ob) (Overlay.count ob) (mask ob) (old_slots ob) (old_capacity ob) (old_mask ob)
              (rehash_cursor ob) (tombstones ob) (tomb_capacity ob) (memory_used ob) (overlay_budget s) (data_pool ob) (emb ob) in
  do* upd (fun s => set_in_checkpoint (set_overlay (set_dirty s dt) ob) true) in
  ret GRAVELDB_OK.

(** The entries of an overlay table, in table order. *)
Fixpoint overlay_entries (ob : OverlayBuffer P) (sl : list OverlaySlot) : res (list EmbWriteEntry) :=
  match sl with
  | [] => Ret []
  | x :: sl =>
    let! l := overlay_entries ob sl in
    if entry_id x =? OVERLAY_EMPTY then Ret l
    else let! d := load_emb ob (data x) in Ret ((entry_id x, d) :: l)
  end.

(** Both tables: the current one, then the one being migrated. *)
Definition replay_entries (ob : OverlayBuffer P) : res (list EmbWriteEntry) :=
  let! sl := deref (slots ob) in
  let! l1 := overlay_entries ob sl in
  match old_slots ob with
  | None => Ret l1
  | Some old => let! l2 := overlay_entries ob old in Ret (l1 ++ l2)
  end.

Definition dimbin_checkpoint_end : B graveldb_status_t :=
  do* upd (fun s => set_in_checkpoint s false) in
  let* s := get_bin in
  let total := Overlay.count (overlay s) in
  do* when (0 <? total)
        (let* ok := onsys sys_ok in
         let* l := lift (replay_entries (overlay s)) in
         let groups := if (ok : bool) then
                         let l := take (Z.to_nat total) l in chunks_of (List.length l) OVERLAY_REPLAY_CHUNK l
                       else (fun e => [e]) <$> l in
         forM groups (fun g => let* _ := dimbin_put_batch g in ret tt)) in
  do* forM (default [] (tombstones (overlay s))) dimbin_free_entry in
  do* upd (fun s => set_overlay s (overlay_destroy (overlay s))) in
  ret GRAVELDB_OK.

End ops.
