(* ===== verification/BinKeys.v ===== *)
(** BinKeys: what reaches the key file of a bin.

    The properties of the key half of src/dimbin.c ([dimbin_put_key],
    [flush_key_page], [dimbin_put_keys_batch], [dimbin_flush_keys]): the batched,
    page-coalescing writes store exactly the buffered keys, at the slots of
    their entries, and leave every other slot as it was. *)

From S2P Require Import Prelude LinearProbe SlabAlloc Overlay DirtyTracker KeyBTree IoBatch PageMap DimBin.

#[local] Arguments file_write : simpl never.
#[local] Arguments key_bytes : simpl never.

(** ** The key file as an array of slots *)

(** The eight bytes of slot [i]. *)
Definition key_at (f : list Z) (i : Z) : list Z := (fun j => file_byte f (i * 8 + Z.of_nat j)) <$> seq 0 8.

(** The slots after the writes of [l], the last write of a slot counting. *)
Definition upd_keys (l : list (Z * Z)) (g : Z -> list Z) (j : Z) : list Z :=
  foldl (fun acc e => if fst e =? j then key_bytes (snd e) else acc) (g j) l.

Lemma upd_keys_app l1 l2 g j : upd_keys (l1 ++ l2) g j = upd_keys l2 (upd_keys l1 g) j.
Proof. unfold upd_keys. by rewrite foldl_app. Qed.
Lemma upd_keys_ext l g g' j : g j = g' j -> upd_keys l g j = upd_keys l g' j.
Proof. unfold upd_keys. by intros ->. Qed.
Lemma upd_keys_other l g j : (forall e, e ∈ l -> fst e <> j) -> upd_keys l g j = g j.
Proof.
  revert g. induction l as [|e l IH]; intros g H; [done|].
  change (upd_keys (e :: l) g j) with (upd_keys l (fun _ => if fst e =? j then key_bytes (snd e) else g j) j).
  rewrite IH by (intros; apply H; set_solver). rewrite (proj2 (Z.eqb_neq _ _)); [done|]. apply H. set_solver.
Qed.

(** Writes to distinct slots: each slot holds its key. *)
Lemma upd_keys_map l g j :
  NoDup (fst <$> l) ->
  upd_keys l g j = match (list_to_map l : gmap Z Z) !! j with Some v => key_bytes v | None => g j end.
Proof.
  revert g. induction l as [|[i v] l IH]; intros g Hnd; [done|]. rewrite fmap_cons in Hnd. apply NoDup_cons in Hnd as [Hni Hnd].
  change (upd_keys ((i, v) :: l) g j) with (upd_keys l (fun _ => if i =? j then key_bytes v else g j) j).
  simpl. destruct (Z.eqb_spec i j) as [->|Hne].
  - rewrite lookup_insert_eq, upd_keys_other; [done|]. intros e He E. apply Hni. simpl. rewrite <- E. by apply list_elem_of_fmap_2.
  - rewrite lookup_insert_ne by done. by rewrite IH.
Qed.

Lemma length_key_bytes v : length (key_bytes v) = 8%nat.
Proof. done. Qed.

Lemma key_bytes_nth v j : (j < 8)%nat -> key_bytes v !! j = Some (Z.land (Z.shiftr v (8 * Z.of_nat j)) 255).
Proof. intros H. unfold key_bytes. rewrite list_lookup_fmap, lookup_seq_lt by done. done. Qed.

Lemma key_at_write f i v j :
  0 <= i -> 0 <= j -> key_at (file_write f (i * 8) (key_bytes v)) j = if i =? j then key_bytes v else key_at f j.
Proof.
  intros Hi Hj. unfold key_at. assert (zlen (key_bytes v) = 8) as Hz by done. destruct (Z.eqb_spec i j) as [->|Hne].
  - trans ((fun i => Z.land (Z.shiftr v (8 * Z.of_nat i)) 255) <$> seq 0 8); [|done].
    apply list_fmap_ext. intros k x Hx. apply lookup_seq in Hx as [-> Hx]. rewrite Nat.add_0_l.
    rewrite file_byte_write, Hz by lia. zdec. replace (Z.to_nat (j * 8 + Z.of_nat k - j * 8)) with k by lia.
    by rewrite key_bytes_nth by lia.
  - apply list_fmap_ext. intros k x Hx. apply lookup_seq in Hx as [-> Hx]. rewrite Nat.add_0_l.
    rewrite file_byte_write, Hz by lia.
    destruct (Z.leb_spec (i * 8) (j * 8 + Z.of_nat k)); [|done].
    destruct (Z.ltb_spec (j * 8 + Z.of_nat k) (i * 8 + 8)); [lia|done].
Qed.

Section keys.
Context {P : Type} `{!ObjectPool P}.
Implicit Types st : BinSt P.

(** The state with the content of one file replaced. *)
Definition with_file st (fd : Z) (f : list Z) : BinSt P := mkBinSt (bin st) (set_files (sys st) (<[fd := f]> (files (sys st)))).

Lemma with_file_twice st fd f g : with_file (with_file st fd f) fd g = with_file st fd g.
Proof. unfold with_file, set_files. simpl. by rewrite insert_insert_eq. Qed.

Lemma with_file_same st fd f : files (sys st) !! fd = Some f -> with_file st fd f = st.
Proof. intros H. unfold with_file, set_files. rewrite insert_id by done. destruct st as [? []]. done. Qed.

(** The key file of a state in which every call succeeds. *)
Record key_st st (f : list Z) : Prop := {
  ks_quiet : answers (sys st) = [];
  ks_file : files (sys st) !! key_fd (bin st) = Some f
}.

Lemma key_st_with st f g : key_st st f -> key_st (with_file st (key_fd (bin st)) g) g.
Proof. intros [H1 H2]. split; [done|]. simpl. by rewrite lookup_insert_eq. Qed.

Lemma onsys_pwrite st f b off :
  key_st st f -> onsys (pwrite (key_fd (bin st)) b off) st = Ret (zlen b, with_file st (key_fd (bin st)) (file_write f off b)).
Proof. intros [H1 H2]. unfold onsys. rewrite (pwrite_quiet _ _ f) by done. done. Qed.

Lemma put_key_spec st f i v :
  key_st st f ->
  dimbin_put_key i v st = Ret (GRAVELDB_OK, with_file st (key_fd (bin st)) (file_write f (i * 8) (key_bytes v))).
Proof.
  intros H. unfold dimbin_put_key, get_bin, gets, bindM. cbn [res_bind fst snd]. rewrite (onsys_pwrite st f) by done. done.
Qed.

(** A sequence of single writes. *)
Fixpoint write_keys (f : list Z) (l : list (Z * Z)) : list Z :=
  match l with [] => f | (i, v) :: l => write_keys (file_write f (i * 8) (key_bytes v)) l end.

Lemma key_at_write_keys f l j :
  0 <= j -> (forall e, e ∈ l -> 0 <= fst e) -> key_at (write_keys f l) j = upd_keys l (key_at f) j.
Proof.
  intros Hj. revert f. induction l as [|[i v] l IH]; intros f H; [done|]. simpl. rewrite IH by (intros; apply H; set_solver).
  assert (0 <= i) by (apply (H (i, v)); set_solver).
  change (upd_keys ((i, v) :: l) (key_at f) j) with (upd_keys l (fun _ => if i =? j then key_bytes v else key_at f j) j).
  apply upd_keys_ext. by rewrite key_at_write.
Qed.

Definition at_page (pg : Z) (ents : list (Z * Z)) : list (Z * Z) := (fun e => (pg * 512 + fst e, snd e)) <$> ents.

Lemma upd_keys_at_page pg ents g g' s :
  g' (pg * 512 + s) = g s -> upd_keys (at_page pg ents) g' (pg * 512 + s) = upd_keys ents g s.
Proof.
  revert g g'. induction ents as [|e ents IH]; intros g g' H; [done|].
  change (upd_keys (at_page pg (e :: ents)) g' (pg * 512 + s))
    with (upd_keys (at_page pg ents) (fun _ => if pg * 512 + fst e =? pg * 512 + s then key_bytes (snd e) else g' (pg * 512 + s)) (pg * 512 + s)).
  change (upd_keys (e :: ents) g s) with (upd_keys ents (fun _ => if fst e =? s then key_bytes (snd e) else g s) s).
  apply IH. rewrite H. destruct (Z.eqb_spec (fst e) s); zdec; done.
Qed.

(** *** Sparse pages: one write per key *)

Lemma sparse_spec st f pg ents :
  key_st st f -> 0 <= pg < 2 ^ 23 -> (forall e, e ∈ ents -> 0 <= fst e < 512) ->
  forM ents (fun e => bindM (onsys (pwrite (key_fd (bin st)) (key_bytes (snd e)) (u64 (pg * KEYS_PER_PAGE + fst e) * 8)))
                        (fun wr => when (negb (wr =? 8)) io_error)) st
  = Ret (tt, with_file st (key_fd (bin st)) (write_keys f (at_page pg ents))).
Proof.
  intros Hst Hpg. revert st f Hst. induction ents as [|[i v] ents IH]; intros st f Hst H.
  { simpl. unfold ret. by rewrite with_file_same by apply Hst. }
  cbn [forM]. assert (0 <= i < 512) by (apply (H (i, v)); set_solver).
  unfold bindM at 1 2. cbn [fst snd]. rewrite (onsys_pwrite st f) by done. cbn [res_bind fst snd].
  rewrite u64_id by (change KEYS_PER_PAGE with 512; lia).
  specialize (IH _ _ (key_st_with st f (file_write f ((pg * KEYS_PER_PAGE + i) * 8) (key_bytes v)) Hst)). cbn [bin with_file] in IH.
  cbn [when negb]. unfold ret. change (zlen (key_bytes v) =? 8) with true. cbn [negb when res_bind fst snd].
  unfold ret. cbn [res_bind fst snd]. rewrite IH by (intros; apply H; set_solver). by rewrite with_file_twice.
Qed.

(** *** Dense pages: read, patch, write back *)

Lemma splice_file_write b off x :
  0 <= off -> x <> [] -> off + zlen x <= zlen b ->
  take (Z.to_nat off) b ++ x ++ drop (Z.to_nat off + length x) b = file_write b off x /\ zlen (file_write b off x) = zlen b.
Proof.
  intros Ho Hx Hl. split; [|rewrite length_file_write by done; pose proof (zlen_nonneg x); lia].
  unfold file_write. destruct x as [|y x]; [done|]. f_equal. rewrite take_app_le; [done|]. unfold zlen in *. simpl in *. lia.
Qed.

Lemma patch_keys_spec b ents :
  zlen b = 4096 -> (forall e, e ∈ ents -> 0 <= fst e < 512) ->
  exists b', patch_keys b ents = Ret b' /\ zlen b' = 4096 /\ forall s, 0 <= s -> key_at b' s = upd_keys ents (key_at b) s.
Proof.
  revert b. induction ents as [|[i v] ents IH]; intros b Hb H; [by exists b|].
  assert (0 <= i < 512) as Hi by (apply (H (i, v)); set_solver). cbn [patch_keys]. change KEYS_PER_PAGE with 512. zdec.
  destruct (splice_file_write b (i * 8) (key_bytes v)) as [E Hl]; [lia|done|change (zlen (key_bytes v)) with 8; lia|].
  change (length (key_bytes v)) with 8%nat in E. rewrite E.
  destruct (IH (file_write b (i * 8) (key_bytes v))) as (b' & -> & H1 & H2); [lia|intros; apply H; set_solver|].
  exists b'. split; [done|]. split; [done|]. intros s Hs. rewrite H2 by done.
  change (upd_keys ((i, v) :: ents) (key_at b) s) with (upd_keys ents (fun _ => if i =? s then key_bytes v else key_at b s) s).
  apply upd_keys_ext. by rewrite key_at_write by lia.
Qed.

Lemma file_byte_load f off i :
  0 <= off -> 0 <= i < 4096 ->
  file_byte (take 4096 (drop (Z.to_nat off) f) ++ replicate (4096 - length (take 4096 (drop (Z.to_nat off) f))) 0) i = file_byte f (off + i).
Proof.
  intros Ho Hi. unfold file_byte. set (t := take 4096 _).
  assert (t !! Z.to_nat i = f !! Z.to_nat (off + i)) as E.
  { unfold t. rewrite lookup_take_lt by lia. rewrite lookup_drop. f_equal. lia. }
  destruct (decide (Z.to_nat i < length t)%nat); [by rewrite lookup_app_l, E|].
  rewrite lookup_app_r, lookup_replicate_2 by lia. rewrite <- E. by rewrite lookup_ge_None_2 by lia.
Qed.

Lemma key_at_ext f g i j : (forall k, 0 <= k < 8 -> file_byte f (i * 8 + k) = file_byte g (j * 8 + k)) -> key_at f i = key_at g j.
Proof. intros H. apply list_fmap_ext. intros k x Hx. apply lookup_seq in Hx as [-> Hx]. apply H. lia. Qed.

(** A page written back changes its own slots only. *)
Lemma key_at_page f pg b j :
  0 <= pg -> 0 <= j -> zlen b = 4096 ->
  key_at (file_write f (pg * 4096) b) j = if (pg * 512 <=? j) && (j <? pg * 512 + 512) then key_at b (j - pg * 512) else key_at f j.
Proof.
  intros Hp Hj Hb. destruct (Z.leb_spec (pg * 512) j), (Z.ltb_spec j (pg * 512 + 512)); cbn [andb]; apply key_at_ext; intros k Hk;
    rewrite file_byte_write, Hb by lia; zdec; try done; try lia.
  unfold file_byte. do 2 f_equal. lia.
Qed.

Lemma dense_spec st f pg ents :
  key_st st f -> 0 <= pg < 2 ^ 23 -> pg * 4096 < key_file_size (bin st) -> (forall e, e ∈ ents -> 0 <= fst e < 512) ->
  KEY_COALESCE_THRESH <= zlen ents ->
  exists f', flush_key_page pg ents st = Ret (tt, with_file st (key_fd (bin st)) f') /\
    forall j, 0 <= j -> key_at f' j = upd_keys (at_page pg ents) (key_at f) j.
Proof.
  intros Hst Hpg Hks Hents Hn. unfold flush_key_page, get_bin, gets. unfold bindM at 1. cbn [res_bind fst snd]. zdec.
  set (b0 := take 4096 (drop (Z.to_nat (pg * 4096)) f)). set (b := b0 ++ replicate (4096 - length b0) 0).
  assert (onsys (load_key_page (bin st) (pg * KEY_PAGE_SIZE)) st = Ret (b, st)) as Hload.
  { unfold onsys, load_key_page. change KEY_PAGE_SIZE with 4096. zdec. unfold bindM.
    rewrite (pread_quiet _ _ f) by apply Hst. change (Z.to_nat 4096) with 4096%nat. fold b0. cbn. by destruct st. }
  assert (zlen b = 4096) as Hb. { unfold b, b0, zlen. rewrite length_app, length_replicate, length_take. lia. }
  destruct (patch_keys_spec b ents Hb Hents) as (b' & Hp & Hb' & Hk).
  unfold bindM at 1. rewrite Hload. cbn [res_bind fst snd]. unfold lift, bindM at 1. rewrite Hp. cbn [res_bind fst snd].
  unfold bindM at 1. rewrite (onsys_pwrite st f) by done. cbn [res_bind fst snd]. rewrite Hb'.
  change (4096 =? KEY_PAGE_SIZE) with true. cbn [negb when]. change KEY_PAGE_SIZE with 4096.
  eexists. split; [done|]. intros j Hj. rewrite key_at_page by (done || lia).
  destruct (Z.leb_spec (pg * 512) j); cbn [andb]; [destruct (Z.ltb_spec j (pg * 512 + 512))|].
  - rewrite Hk by lia. replace j with (pg * 512 + (j - pg * 512)) at 2 by lia. symmetry. apply upd_keys_at_page.
    replace (pg * 512 + (j - pg * 512)) with j by lia. apply key_at_ext. intros k Hk8. unfold b, b0. rewrite file_byte_load by lia. f_equal. lia.
  - symmetry. apply upd_keys_other. intros e (e0 & -> & He)%list_elem_of_fmap. simpl. apply Hents in He. lia.
  - symmetry. apply upd_keys_other. intros e (e0 & -> & He)%list_elem_of_fmap. simpl. apply Hents in He. lia.
Qed.

Lemma flush_key_page_spec st f pg ents :
  key_st st f -> 0 <= pg < 2 ^ 23 -> pg * 4096 < key_file_size (bin st) -> (forall e, e ∈ ents -> 0 <= fst e < 512) ->
  exists f', flush_key_page pg ents st = Ret (tt, with_file st (key_fd (bin st)) f') /\
    forall j, 0 <= j -> key_at f' j = upd_keys (at_page pg ents) (key_at f) j.
Proof.
  intros Hst Hpg Hks Hents. destruct (Z.leb_spec KEY_COALESCE_THRESH (zlen ents)) as [Hn|Hn]; [by apply dense_spec|].
  exists (write_keys f (at_page pg ents)). split.
  - unfold flush_key_page, get_bin, gets. unfold bindM at 1. cbn [res_bind fst snd]. zdec. by apply sparse_spec.
  - intros j Hj. apply key_at_write_keys; [done|]. intros e (e0 & -> & He)%list_elem_of_fmap. simpl. apply Hents in He. lia.
Qed.

(** *** Batches *)

Lemma sorted_length_le (l : list Z) lo hi :
  StronglySorted Z.lt l -> (forall x, x ∈ l -> lo <= x < hi) -> lo <= hi -> zlen l <= hi - lo.
Proof.
  revert lo. induction l as [|x l IH]; intros lo Hs Hr Hle; [unfold zlen; simpl; lia|].
  apply StronglySorted_inv in Hs as [Hs Hx]. rewrite Forall_forall in Hx. assert (lo <= x < hi) by (apply Hr; set_solver).
  assert (zlen l <= hi - (x + 1)) as Hl.
  { apply IH; [done| |lia]. intros y Hy. assert (lo <= y < hi) by (apply Hr; set_solver). assert (x < y) by (by apply Hx). lia. }
  unfold zlen in *. simpl length. lia.
Qed.

Lemma lt_sorted_NoDup (l : list Z) : StronglySorted Z.lt l -> NoDup l.
Proof.
  induction 1 as [|x l Hs IH Hx]; constructor; [|done]. intros Hin. rewrite Forall_forall in Hx. apply Hx in Hin. lia.
Qed.

(** The keys of a batch: entries of the bin, within the tracked key file. *)
Definition keys_in (ks : Z) (l : list (Z * Z)) : Prop := forall e, e ∈ l -> 0 <= fst e < 2 ^ 32 /\ fst e * 8 < ks.

Lemma at_page_snoc pg acc idx v : idx / 512 = pg -> at_page pg (acc ++ [(idx mod 512, v)]) = at_page pg acc ++ [(idx, v)].
Proof. intros <-. unfold at_page. rewrite fmap_app. simpl. do 3 f_equal. pose proof (Z.div_mod idx 512). lia. Qed.

Lemma acc_room cur acc idx v entries :
  StronglySorted Z.lt (fst <$> at_page cur acc ++ (idx, v) :: entries) -> (forall e, e ∈ acc -> 0 <= fst e < 512) ->
  idx / 512 = cur -> zlen acc < 512.
Proof.
  intros Hs Ha Hi. assert (zlen (fst <$> at_page cur (acc ++ [(idx mod 512, v)])) <= 512) as Hl.
  { pose proof (sorted_length_le (fst <$> at_page cur (acc ++ [(idx mod 512, v)])) (cur * 512) (cur * 512 + 512)) as HL.
    cut (zlen (fst <$> at_page cur (acc ++ [(idx mod 512, v)])) <= cur * 512 + 512 - cur * 512); [lia|]. apply HL; [| |lia].
    - rewrite at_page_snoc by done. rewrite (cons_middle (idx, v)), app_assoc, fmap_app in Hs.
      by apply StronglySorted_app_1_l in Hs.
    - intros x (e & -> & (e0 & -> & He)%list_elem_of_fmap)%list_elem_of_fmap. simpl.
      apply elem_of_app in He as [He|He%list_elem_of_singleton]; [apply Ha in He; lia|].
      subst e0. simpl. pose proof (Z.mod_pos_bound idx 512). lia. }
  unfold zlen, at_page in *. rewrite !length_fmap, length_app in Hl. simpl in Hl. lia.
Qed.

Lemma put_keys_loop_spec entries st f cur acc :
  key_st st f -> 0 <= cur < 2 ^ 23 -> cur * 4096 < key_file_size (bin st) -> (forall e, e ∈ acc -> 0 <= fst e < 512) ->
  keys_in (key_file_size (bin st)) entries -> StronglySorted Z.lt (fst <$> at_page cur acc ++ entries) ->
  exists f', put_keys_loop entries cur acc st = Ret (tt, with_file st (key_fd (bin st)) f') /\
    forall j, 0 <= j -> key_at f' j = upd_keys (at_page cur acc ++ entries) (key_at f) j.
Proof.
  revert st f cur acc. induction entries as [|[idx v] entries IH]; intros st f cur acc Hst Hc Hks Ha Hin Hs.
  { cbn [put_keys_loop]. destruct acc as [|a acc]; simpl.
    - exists f. unfold ret. rewrite with_file_same by apply Hst. done.
    - rewrite app_nil_r. by apply flush_key_page_spec. }
  cbn [put_keys_loop]. change KEYS_PER_PAGE with 512. destruct (Hin (idx, v)) as [Hr Hk]; [set_solver|]. simpl in Hr, Hk.
  pose proof (Z.mod_pos_bound idx 512) as Hm. pose proof (Z.div_mod idx 512) as Hdm.
  assert (keys_in (key_file_size (bin st)) entries) as Hin' by (intros e He; apply Hin; set_solver).
  destruct (Z.eqb_spec (idx / 512) cur) as [E|E]; cbn [negb].
  - pose proof (acc_room cur acc idx v entries Hs Ha E). zdec.
    destruct (IH st f cur (acc ++ [(idx mod 512, v)])) as (f' & -> & Hf); auto.
    { intros e [He|He%list_elem_of_singleton]%elem_of_app; [auto|subst e; simpl; lia]. }
    { rewrite at_page_snoc by done. by rewrite <- app_assoc. }
    exists f'. split; [done|]. intros j Hj. rewrite Hf, at_page_snoc by done. by rewrite <- app_assoc.
  - destruct (flush_key_page_spec st f cur acc) as (f1 & E1 & Hf1); auto. unfold bindM. rewrite E1. cbn [res_bind fst snd].
    destruct (IH (with_file st (key_fd (bin st)) f1) f1 (idx / 512) [(idx mod 512, v)]) as (f' & E' & Hf); auto.
    { by eapply key_st_with. } { split; [apply Z.div_pos; lia|apply Z.div_lt_upper_bound; lia]. }
    { simpl. lia. }
    { intros e He%list_elem_of_singleton. subst e. simpl. lia. }
    { change [(idx mod 512, v)] with ([] ++ [(idx mod 512, v)]). rewrite at_page_snoc by done. simpl.
      rewrite fmap_app in Hs. by apply StronglySorted_app_1_r in Hs. }
    rewrite E'. simpl. rewrite with_file_twice. exists f'. split; [done|]. intros j Hj. rewrite Hf by done.
    change [(idx mod 512, v)] with ([] ++ [(idx mod 512, v)]). rewrite at_page_snoc by done. simpl.
    rewrite upd_keys_app. by apply upd_keys_ext, Hf1.
Qed.

Lemma put_each_spec l st f :
  key_st st f ->
  forM l (fun e => bindM (dimbin_put_key (fst e) (snd e)) (fun _ => ret tt)) st
  = Ret (tt, with_file st (key_fd (bin st)) (write_keys f l)).
Proof.
  revert st f. induction l as [|[i v] l IH]; intros st f Hst; [unfold ret; simpl; by rewrite with_file_same by apply Hst|].
  cbn [forM fst snd]. unfold bindM at 1 2. rewrite (put_key_spec st f) by done. cbn [res_bind fst snd ret].
  rewrite (IH _ (file_write f (i * 8) (key_bytes v))) by (by eapply key_st_with). cbn [bin with_file]. by rewrite with_file_twice.
Qed.

(** The coalescing batch writes what single writes would. *)
Lemma put_keys_batch_spec l st f :
  key_st st f -> keys_in (key_file_size (bin st)) l -> StronglySorted Z.lt (fst <$> l) ->
  exists f', dimbin_put_keys_batch l st = Ret (tt, with_file st (key_fd (bin st)) f') /\
    forall j, 0 <= j -> key_at f' j = upd_keys l (key_at f) j.
Proof.
  intros Hst Hin Hs. unfold dimbin_put_keys_batch. destruct l as [|[i v] l].
  { exists f. unfold ret. by rewrite with_file_same by apply Hst. }
  match goal with |- context [if ?b then _ else _] => destruct b end.
  - eexists. split; [exact (put_each_spec ((i, v) :: l) st f Hst)|]. intros j Hj. apply key_at_write_keys; [done|].
    intros e He. apply Hin in He. lia.
  - destruct (Hin (i, v)) as [Hr Hk]; [set_solver|]. simpl in Hr, Hk. pose proof (Z.div_mod i 512). pose proof (Z.mod_pos_bound i 512).
    apply (put_keys_loop_spec ((i, v) :: l) st f (i / 512) []); auto.
    + split; [apply Z.div_pos; lia|apply Z.div_lt_upper_bound; lia].
    + lia.
    + intros e He%elem_of_nil. done.
Qed.

(** *** The flush of the buffered keys *)

Definition with_key_buf st (t : KeyBTree) : BinSt P := mkBinSt (set_key_buf (bin st) t) (sys st).

Lemma flush_keys_spec st f m :
  key_st st f -> kbt_inv (key_buf (bin st)) m ->
  (forall k v, m !! k = Some v -> 0 <= k < 2 ^ 32 /\ k * 8 < key_file_size (bin st)) ->
  exists f' t, dimbin_flush_keys st = Ret (GRAVELDB_OK, with_key_buf (with_file st (key_fd (bin st)) f') t) /\ kbt_inv t ∅ /\
    arena_cap t = arena_cap (key_buf (bin st)) /\
    forall j, 0 <= j -> key_at f' j = match m !! j with Some v => key_bytes v | None => key_at f j end.
Proof.
  intros Hst Hinv Hm. pose proof (kbt_inv_collect _ _ Hinv) as (Hs & Hl & Hc).
  unfold dimbin_flush_keys, get_bin, gets. unfold bindM at 1. cbn [res_bind fst snd].
  destruct (Z.eqb_spec (KeyBTree.count (key_buf (bin st))) 0) as [E|E].
  - assert (kbt_collect (key_buf (bin st)) = []) as Ec.
    { destruct (kbt_collect (key_buf (bin st))); [done|]. unfold zlen in Hc. simpl length in Hc. lia. }
    rewrite Ec in Hl. simpl in Hl. subst m. exists f, (key_buf (bin st)). rewrite with_file_same by apply Hst.
    split; [unfold with_key_buf, ret; by destruct st as [[] ?]|]. split; [done|]. split; [done|]. intros j Hj. by rewrite lookup_empty.
  - unfold bindM at 1. unfold onsys at 1. rewrite sys_ok_quiet by apply Hst. cbn [res_bind fst snd negb].
    assert (NoDup (fst <$> kbt_collect (key_buf (bin st)))) as Hnd.
    { by apply lt_sorted_NoDup. }
    destruct (put_keys_batch_spec (kbt_collect (key_buf (bin st))) st f) as (f' & Ef & Hf); auto.
    { intros [k v] He. apply (Hm k v). rewrite <- Hl. by apply elem_of_list_to_map. }
    replace (mkBinSt (bin st) (sys st)) with st by (by destruct st). unfold bindM at 1. rewrite Ef. cbn [res_bind fst snd].
    exists f', (kbt_clear (key_buf (bin st))). split; [done|]. split; [by eapply kbt_clear_inv|]. split; [done|].
    intros j Hj. rewrite Hf by done. by rewrite upd_keys_map, Hl.
Qed.

(** C30: [dimbin_flush_keys] stores the buffered keys. When the calls succeed, each
    buffered key is in the slot of its entry, every other slot and every other
    file is as before, no error is counted, and the buffer is empty: the page
    coalescing writes exactly what single writes would. *)
Theorem dimbin_flush_keys_correct st f m :
  answers (sys st) = [] -> files (sys st) !! key_fd (bin st) = Some f ->
  kbt_inv (key_buf (bin st)) m ->
  (forall k v, m !! k = Some v -> 0 <= k < 2 ^ 32 /\ k * 8 < key_file_size (bin st)) ->
  exists f' st', dimbin_flush_keys st = Ret (GRAVELDB_OK, st') /\
    files (sys st') = <[key_fd (bin st) := f']> (files (sys st)) /\
    (forall j, 0 <= j -> key_at f' j = match m !! j with Some v => key_bytes v | None => key_at f j end) /\
    kbt_inv (key_buf (bin st')) ∅ /\ io_errors (bin st') = io_errors (bin st).
Proof.
  intros Ha Hf Hinv Hm. destruct (flush_keys_spec st f m) as (f' & t & E & Ht & _ & Hk); auto; [by split|].
  exists f', (with_key_buf (with_file st (key_fd (bin st)) f') t). auto.
Qed.

End keys.

(** ** Witness *)

Definition key_bin : DimBin (SlabPool * Mem) :=
  mkDimBin 4 4096 16 256 3 4 None None 16 (Some []) 1024 zero_dirty zero_wb t_three zero_overlay false false 0 None 16 1 0 8192 8192.
Definition key_state : BinSt (SlabPool * Mem) := mkBinSt key_bin (mkSys (<[3 := []]> (<[4 := replicate 128 1]> ∅)) ∅ [] [] ∅).

Lemma dimbin_flush_keys_correct_witness :
  exists f' st', dimbin_flush_keys key_state = Ret (GRAVELDB_OK, st') /\
    files (sys st') = <[key_fd (bin key_state) := f']> (files (sys key_state)) /\
    (forall j, 0 <= j -> key_at f' j = match m_three !! j with Some v => key_bytes v | None => key_at (replicate 128 1) j end) /\
    kbt_inv (key_buf (bin st')) ∅ /\ io_errors (bin st') = io_errors (bin key_state).
Proof.
  apply (dimbin_flush_keys_correct key_state (replicate 128 1) m_three); [done|done|apply t_three_inv|].
  intros k v Hk. unfold m_three in Hk. simpl in *.
  repeat (apply lookup_insert_Some in Hk as [[<- _]|[_ Hk]]; [simpl; lia|]).
  apply lookup_singleton_Some in Hk as [<- _]. simpl. lia.
Defined.
