(* ===== verification/BinFlush.v ===== *)
(** BinFlush: what a flush does to the data file of a bin.

    The properties of the page half of src/dimbin.c ([dimbin_flush] and the page
    buffers): the runs, sub-runs and chunks of the write loop write every
    buffered page to its place and nothing else, and the buffers are recycled. *)

From Stdlib Require Import String.
From S2P Require Import Prelude LinearProbe SlabAlloc Overlay DirtyTracker KeyBTree IoBatch PageMap DimBin BinKeys.

#[local] Arguments file_write : simpl never.

(** ** Splitting the dirty pages *)

Lemma runs_cons_ne {A} (ok : A -> A -> bool) x l : exists r rs, runs ok (x :: l) = (x :: r) :: rs.
Proof. simpl. destruct (runs ok l) as [|[|y r] rs]; [by eexists _, _..|]. destruct (ok x y); by eexists _, _. Qed.

(** The runs put together are the list. *)
Lemma runs_concat {A} (ok : A -> A -> bool) l : concat (runs ok l) = l.
Proof.
  induction l as [|x l IH]; [done|]. simpl. destruct l as [|z l]; [done|].
  destruct (runs_cons_ne ok z l) as (r & rs & E). rewrite E in *. destruct (ok x z); simpl in *; by rewrite IH.
Qed.

Lemma runs_elem {A} (ok : A -> A -> bool) l r x : r ∈ runs ok l -> x ∈ r -> x ∈ l.
Proof. intros Hr Hx. rewrite <- (runs_concat ok l). apply list_elem_of_In, in_concat. exists r. by rewrite <- !list_elem_of_In. Qed.

(** A run of elements with the same key. *)
Lemma runs_key {A K} (ok : A -> A -> bool) (key : A -> K) l r e x :
  (forall a b, ok a b = true -> key b = key a) -> r ∈ runs ok l -> e ∈ r -> head r = Some x -> key e = key x.
Proof.
  intros Hok. revert r x. induction l as [|y l IH]; intros r x Hr He Hx; [by apply elem_of_nil in Hr|]. simpl in Hr.
  destruct l as [|z l]; [apply list_elem_of_singleton in Hr as ->; apply list_elem_of_singleton in He; by simplify_eq/=|].
  destruct (runs_cons_ne ok z l) as (t & rs & E). rewrite E in *. destruct (ok y z) eqn:Ez.
  - apply elem_of_cons in Hr as [->|Hr]; [|apply (IH r x); set_solver]. simplify_eq/=.
    apply elem_of_cons in He as [->|He]; [done|]. rewrite <- (Hok _ _ Ez). apply (IH (z :: t) z); set_solver.
  - apply elem_of_cons in Hr as [->|Hr]; [|by apply (IH r x)]. apply list_elem_of_singleton in He. by simplify_eq/=.
Qed.

Lemma runs_nonempty {A} (ok : A -> A -> bool) l r : r ∈ runs ok l -> r <> [].
Proof.
  revert r. induction l as [|y l IH]; intros r Hr; [by apply elem_of_nil in Hr|]. simpl in Hr. destruct l as [|z l]; [by apply list_elem_of_singleton in Hr as ->|].
  destruct (runs_cons_ne ok z l) as (t & rs & E). rewrite E in *. destruct (ok y z); apply elem_of_cons in Hr as [->|Hr]; try done; apply IH; set_solver.
Qed.

(** A sub-run is an interval of pages. *)
Lemma runs_consecutive l r :
  (forall x, x ∈ l -> 0 <= x < UINT32_MAX) -> r ∈ runs consecutive l -> exists p, r = seqZ p (zlen r) /\ r <> [].
Proof.
  revert r. induction l as [|x l IH]; intros r Hl Hr; [by apply elem_of_nil in Hr|]. simpl in Hr.
  assert (0 <= x < UINT32_MAX) as Hx by (apply Hl; set_solver).
  assert (forall r, r ∈ runs consecutive l -> exists p, r = seqZ p (zlen r) /\ r <> []) as IH' by (intros; apply IH; [intros; apply Hl; set_solver|done]).
  assert (forall y, exists p, [y] = seqZ p (zlen [y]) /\ [y] <> []) as H1 by (intros y; exists y; split; [|done]; change (zlen [y]) with 1; by rewrite seqZ_cons by lia).
  destruct l as [|z l]; [apply list_elem_of_singleton in Hr as ->; apply H1|].
  destruct (runs_cons_ne consecutive z l) as (r1 & rs & E). rewrite E in *.
  unfold consecutive in Hr at 1. destruct (Z.eqb_spec z (u32 (x + 1))) as [Ez|Ez].
  - apply elem_of_cons in Hr as [->|Hr]; [|apply IH'; set_solver].
    destruct (IH' (z :: r1)) as (p & Ep & _); [set_solver|]. exists x. split; [|done].
    rewrite u32_id in Ez by (unfold UINT32_MAX in *; lia). unfold zlen in *. simpl length in *.
    assert (z = p) as Ezp by (rewrite seqZ_cons in Ep by lia; by injection Ep).
    rewrite (seqZ_cons x) by lia. f_equal. replace (Z.succ x) with p by lia.
    replace (Z.pred (Z.of_nat (S (S (length r1))))) with (Z.of_nat (S (length r1))) by lia. done.
  - apply elem_of_cons in Hr as [->|Hr]; [apply H1|]. by apply IH'.
Qed.

Lemma chunks_concat {A} fuel n (l : list A) : (0 < n)%nat -> (length l <= fuel)%nat -> concat (chunks_of fuel n l) = l.
Proof.
  intros Hn. revert l. induction fuel as [|fuel IH]; intros l Hl; destruct l as [|x l]; simpl; try done; [simpl in Hl; lia|].
  destruct n as [|n]; [lia|]. simpl. rewrite IH; [by rewrite take_drop|]. rewrite length_drop. simpl in Hl. lia.
Qed.

Lemma chunks_interval fuel n p (m : Z) c :
  (0 < n)%nat -> 0 <= m -> c ∈ chunks_of fuel n (seqZ p m) -> exists q, c = seqZ q (zlen c) /\ c <> [].
Proof.
  intros Hn. revert p m. induction fuel as [|fuel IH]; intros p m Hm Hc; [by apply elem_of_nil in Hc|].
  simpl in Hc. destruct (seqZ p m) as [|x l] eqn:E; [by apply elem_of_nil in Hc|]. rewrite <- E in Hc.
  assert (0 < m) as Hpos. { destruct (decide (m = 0)) as [->|]; [|lia]. done. }
  assert (seqZ p m = seqZ p (Z.of_nat n `min` m) ++ seqZ (p + Z.of_nat n `min` m) (m - Z.of_nat n `min` m)) as Es.
  { rewrite <- seqZ_app by lia. f_equal. lia. }
  assert (length (seqZ p (Z.of_nat n `min` m)) = Z.to_nat (Z.of_nat n `min` m)) as Hlen by apply length_seqZ.
  apply elem_of_cons in Hc as [->|Hc].
  - destruct (decide (Z.of_nat n <= m)) as [Hle|Hle].
    + exists p. rewrite Z.min_l in Es, Hlen by lia. rewrite Es, take_app_length' by lia.
      split; [unfold zlen; by rewrite Hlen, Nat2Z.id || (rewrite Hlen; f_equal; lia)|]. rewrite seqZ_cons by lia. done.
    + exists p. rewrite take_ge by (rewrite length_seqZ; lia). split; [unfold zlen; rewrite length_seqZ; f_equal; lia|]. by rewrite E.
  - destruct (decide (Z.of_nat n <= m)) as [Hle|Hle].
    + rewrite Z.min_l in Es, Hlen by lia. rewrite Es, drop_app_length' in Hc by lia. apply IH in Hc; [done|lia].
    + rewrite drop_ge in Hc by (rewrite length_seqZ; lia). destruct fuel; by apply elem_of_nil in Hc.
Qed.

(** ** Pages of a file *)

Section written.
Variables (psz : Z) (pgc : Z -> list Z).
Hypothesis Hpsz : 0 < psz.

(** [g] is [f] with the pages [L] replaced. *)
Definition written (f g : list Z) (L : list Z) : Prop :=
  forall k, 0 <= k ->
  file_byte g k = if bool_decide (k / psz ∈ L) then default 0 (pgc (k / psz) !! Z.to_nat (k mod psz)) else file_byte f k.

Lemma written_nil f : written f f [].
Proof. intros k Hk. rewrite bool_decide_false; [done|]. apply not_elem_of_nil. Qed.

Lemma written_app f g h L1 L2 : written f g L1 -> written g h L2 -> written f h (L1 ++ L2).
Proof.
  intros H1 H2 k Hk. rewrite H2, H1 by done. repeat case_bool_decide; try done; set_solver.
Qed.

Lemma concat_uniform (L : list Z) i d r :
  (forall x, x ∈ L -> zlen (pgc x) = psz) -> 0 <= r < psz -> 0 <= i ->
  L !! Z.to_nat i = Some d -> concat (pgc <$> L) !! Z.to_nat (i * psz + r) = pgc d !! Z.to_nat r.
Proof.
  intros HL Hr Hi. revert i Hi. induction L as [|x L IH]; intros i Hi Hd; [done|].
  assert (zlen (pgc x) = psz) as Hx by (apply HL; set_solver). simpl. unfold zlen in Hx.
  destruct (decide (i = 0)) as [->|Hne].
  - simpl in Hd. injection Hd as ->. rewrite Z.mul_0_l, Z.add_0_l, lookup_app_l by lia. done.
  - replace (Z.to_nat i) with (S (Z.to_nat (i - 1))) in Hd by lia. simpl in Hd.
    rewrite lookup_app_r by nia. rewrite <- (IH ltac:(intros; apply HL; set_solver) (i - 1)); [|lia|done]. f_equal. nia.
Qed.

Lemma zlen_concat (L : list Z) : (forall x, x ∈ L -> zlen (pgc x) = psz) -> zlen (concat (pgc <$> L)) = zlen L * psz.
Proof.
  induction L as [|x L IH]; intros H; [done|]. rewrite fmap_cons. cbn [concat].
  assert (zlen (pgc x) = psz) as Hx by (apply H; set_solver). specialize (IH ltac:(intros; apply H; set_solver)).
  unfold zlen in *. rewrite length_app. simpl length. lia.
Qed.

(** An interval of pages written at once. *)
Lemma written_interval f p n :
  0 <= p -> (forall x, x ∈ seqZ p n -> zlen (pgc x) = psz) ->
  written f (file_write f (p * psz) (concat (pgc <$> seqZ p n))) (seqZ p n).
Proof.
  intros Hp HL k Hk. rewrite file_byte_write by nia. rewrite zlen_concat by done.
  assert (zlen (seqZ p n) = Z.max 0 n) as Hn by (unfold zlen; rewrite length_seqZ; lia). rewrite Hn.
  pose proof (Z.div_mod k psz) as Hdm. pose proof (Z.mod_pos_bound k psz Hpsz) as Hm. set (q := k / psz) in *.
  case_bool_decide as Hin; rewrite elem_of_seqZ in Hin.
  - zdec. rewrite (proj2 (Z.leb_le _ _)) by nia. rewrite (proj2 (Z.ltb_lt _ _)) by nia. cbn [andb].
    f_equal. rewrite <- (concat_uniform (seqZ p n) (q - p) q (k mod psz)); [f_equal; nia|done|done|lia|].
    apply lookup_seqZ. lia.
  - destruct (Z.leb_spec (p * psz) k); [|done]. destruct (Z.ltb_spec k (p * psz + Z.max 0 n * psz)); [|done]. exfalso. nia.
Qed.

End written.

(** ** The write loop *)

Section flush.
Context {P : Type} `{!ObjectPool P}.
Implicit Types st : BinSt P.

(** The buffer address of a page, and the bytes in it. *)
Definition page_addr (sl : list PageSlot) (pg : Z) : Z :=
  match List.find (fun x => page_id x =? pg) sl with Some x => pdata x | None => 0 end.
Definition page_content (sl : list PageSlot) (bf : gmap Z (list Z)) (pg : Z) : list Z := default [] (bf !! page_addr sl pg).

Lemma page_addr_stored sl x : uniq sl -> stored sl x -> page_addr sl (page_id x) = pdata x.
Proof.
  intros Hu Hx. unfold page_addr. destruct (List.find _ sl) as [y|] eqn:E.
  - apply List.find_some in E as [Hy%list_elem_of_In Ek%Z.eqb_eq]. apply elem_rd in Hy as [i Hi].
    by rewrite (probe_found_uniq sl (page_id x) i y x Hu Hx eq_refl Hi Ek).
  - destruct Hx as [Hin _]. apply list_elem_of_In in Hin. eapply List.find_none in E; [|done]. simpl in E. rewrite Z.eqb_refl in E. done.
Qed.

Lemma get_slots_ret st sl : wslots (write_buf (bin st)) = Some sl -> get_slots st = Ret (sl, st).
Proof. intros H. unfold get_slots, get_bin, gets, bindM, lift. cbn [res_bind fst snd]. by rewrite H. Qed.

Section loop.
Variables (sl : list PageSlot) (psz : Z) (bf : gmap Z (list Z)).
Hypothesis Hpsz : 0 < psz.
Hypothesis Hinv : pages_inv sl.

(** The page [pg] is buffered. *)
Definition buffered (pg : Z) : Prop :=
  0 <= pg < UINT32_MAX /\ (exists x, stored sl x /\ page_id x = pg) /\
  bf !! page_addr sl pg = Some (page_content sl bf pg) /\ zlen (page_content sl bf pg) = psz.

#[local] Abbreviation pgc := (page_content sl bf).

Record data_st st (f : list Z) : Prop := {
  ds_quiet : answers (sys st) = [];
  ds_file : files (sys st) !! fd (bin st) = Some f;
  ds_slots : wslots (write_buf (bin st)) = Some sl;
  ds_cap : wcapacity (write_buf (bin st)) = zlen sl;
  ds_psz : page_size (bin st) = psz;
  ds_bufs : bufs (sys st) = bf
}.

Lemma data_st_with st f g : data_st st f -> data_st (with_file st (fd (bin st)) g) g.
Proof. intros [H1 H2 H3 H4 H5 H6]. split; try done. simpl. by rewrite lookup_insert_eq. Qed.

Definition locals_ok (l : FlushLocals) : Prop :=
  initialized (io_ctx l) = true /\ errors (io_ctx l) = 0 /\ frc l = GRAVELDB_OK.

Lemma find_buffered pg : buffered pg -> exists h, pagemap_find sl (zlen sl) pg = Ret h /\ rd sl h = Ret (mkPageSlot pg (page_addr sl pg)).
Proof.
  intros (Hr & (x & Hx & <-) & _). destruct (pagemap_find_spec sl (page_id x) Hinv) as (h & s & Hf & Hs & [[Hk Hst]|(_ & Ha & _)]).
  - unfold PAGE_SLOT_EMPTY. lia.
  - exists h. split; [done|]. assert (s = x) as ->.
    { symmetry. apply (probe_found_uniq sl (page_id x) h); [apply Hinv|done|done|done|done]. }
    rewrite page_addr_stored by (done || apply Hinv). rewrite Hs. by destruct x.
  - by apply Ha in Hx.
Qed.

Lemma build_iov_spec chunk :
  (forall pg, pg ∈ chunk -> buffered pg) -> build_iov sl (zlen sl) psz chunk = Ret ((fun pg => (page_addr sl pg, psz)) <$> chunk).
Proof.
  induction chunk as [|pg chunk IH]; intros H; [done|]. cbn [build_iov].
  destruct (find_buffered pg) as (h & -> & E); [apply H; set_solver|]. cbn [res_bind]. rewrite E. cbn [res_bind].
  rewrite IH by (intros; apply H; set_solver). cbn [res_bind page_id]. by rewrite Z.eqb_refl.
Qed.

Lemma buf_bytes_page y pg : bufs y = bf -> buffered pg -> buf_bytes (page_addr sl pg) psz y = Ret (pgc pg, y).
Proof.
  intros Hb (_ & _ & Hl & Hz). unfold buf_bytes, gets, bindM. cbn [res_bind fst snd]. rewrite Hb, Hl. cbn.
  rewrite Hz, Z.ltb_irrefl. unfold ret. rewrite take_ge; [done|]. unfold zlen in Hz. lia.
Qed.

Lemma iov_bytes_spec y chunk :
  bufs y = bf -> (forall pg, pg ∈ chunk -> buffered pg) ->
  iov_bytes ((fun pg => (page_addr sl pg, psz)) <$> chunk) y = Ret (concat (pgc <$> chunk), y).
Proof.
  intros Hb. induction chunk as [|pg chunk IH]; intros H; [done|]. rewrite !fmap_cons. cbn [iov_bytes]. unfold bindM at 1.
  rewrite buf_bytes_page by (done || apply H; set_solver). cbn [res_bind fst snd]. unfold bindM. rewrite IH by (intros; apply H; set_solver). done.
Qed.

Lemma iov_len_spec (chunk : list Z) : iov_len ((fun pg => (page_addr sl pg, psz)) <$> chunk) = zlen chunk * psz.
Proof. induction chunk as [|pg chunk IH]; [done|]. rewrite fmap_cons. simpl. rewrite IH. unfold zlen. simpl length. lia. Qed.

Lemma submitted_ok l c : locals_ok l -> initialized c = true -> errors c = 0 ->
  locals_ok (set_ctx (if 0 <? 0 then set_rc l GRAVELDB_ERR_IO else l) c).
Proof. intros (H1 & H2 & H3) ??. by split. Qed.

Lemma track_ok c fd : initialized c = true -> errors c = 0 ->
  initialized (uring_io_track_fd_fallback (add_pending c) fd) = true /\ errors (uring_io_track_fd_fallback (add_pending c) fd) = 0.
Proof. intros ??. unfold uring_io_track_fd_fallback. destruct (existsb _ _); [done|]. by destruct (_ <? _). Qed.

(** A chunk of consecutive pages reaches the file in one request. *)
Lemma submit_iov_spec st f l chunk :
  data_st st f -> locals_ok l -> chunk <> [] -> (forall pg, pg ∈ chunk -> buffered pg) ->
  exists l', onsys (submit_iov true (bin st) l ((fun pg => (page_addr sl pg, psz)) <$> chunk) (hd 0 chunk * psz)) st
    = Ret (l', with_file st (fd (bin st)) (file_write f (hd 0 chunk * psz) (concat (pgc <$> chunk)))) /\ locals_ok l'.
Proof.
  intros [H1 H2 H3 H4 H5 H6] (L1 & L2 & L3) Hne H. destruct chunk as [|p [|q chunk]]; [done| |].
  - cbn [fmap list_fmap hd submit_iov]. unfold onsys, uring_io_submit_write, write_request, bindM. rewrite L1. cbn [negb].
    rewrite buf_bytes_page by (done || apply H; set_solver). cbn [res_bind fst snd].
    rewrite (pwrite_quiet _ _ f) by done. cbn [res_bind fst snd].
    assert (zlen (pgc p) = psz) as Hz by (apply H; set_solver). rewrite Hz. zdec. cbn [ret res_bind fst snd concat]. rewrite app_nil_r.
    destruct (track_ok (io_ctx l) (fd (bin st)) L1 L2). eexists. split; [done|]. by apply submitted_ok.
  - set (c := p :: q :: chunk) in *. assert (submit_iov true (bin st) l ((fun pg => (page_addr sl pg, psz)) <$> c) (hd 0 c * psz) =
      bindM (uring_io_submit_writev (io_ctx l) (fd (bin st)) ((fun pg => (page_addr sl pg, psz)) <$> c) (hd 0 c * psz))
        (fun '(r, x) => ret (set_ctx (if r <? 0 then set_rc l GRAVELDB_ERR_IO else l) x))) as ->.
    { unfold c. cbn [fmap list_fmap submit_iov]. done. }
    unfold onsys, uring_io_submit_writev, pwritev, bindM. rewrite L1. cbn [negb].
    rewrite iov_bytes_spec by done. cbn [res_bind fst snd]. rewrite (pwrite_quiet _ _ f) by done. cbn [res_bind fst snd].
    rewrite iov_len_spec. rewrite (zlen_concat psz pgc) by first [done | intros; by apply H]. pose proof (zlen_nonneg c).
    rewrite (proj2 (Z.ltb_ge _ _)) by nia. rewrite Z.eqb_refl. cbn [negb orb ret res_bind fst snd].
    destruct (track_ok (io_ctx l) (fd (bin st)) L1 L2). eexists. split; [done|]. by apply submitted_ok.
Qed.

Lemma onsys_sys_ok st : answers (sys st) = [] -> onsys sys_ok st = Ret (true, st).
Proof. intros H. unfold onsys. rewrite sys_ok_quiet by done. by destruct st. Qed.

Lemma keep_iov_spec st l :
  answers (sys st) = [] -> locals_ok l -> exists l', onsys (keep_iov l) st = Ret (l', st) /\ locals_ok l'.
Proof.
  intros Ha Hl. unfold keep_iov. destruct (iov_heap_cap l <=? iov_heap_count l).
  - unfold onsys, bindM. rewrite sys_ok_quiet by done. cbn [res_bind fst snd ret].
    destruct (_ <? _); (eexists; split; [by destruct st|]; done).
  - unfold onsys, ret. cbn [res_bind]. destruct (_ <? _); (eexists; split; [by destruct st|]; done).
Qed.

(** The state after writes to the data file; only the byte counter of the write
    buffer changes beside it. *)
Definition fl_rel st st' (f' : list Z) : Prop :=
  (exists n, bin st' = set_write_buf (bin st) (set_flush_bytes (write_buf (bin st)) n)) /\
  sys st' = set_files (sys st) (<[fd (bin st) := f']> (files (sys st))).

Lemma fl_rel_with st f' : fl_rel st (with_file st (fd (bin st)) f') f'.
Proof. split; [|done]. exists (flush_bytes (write_buf (bin st))). simpl. by destruct st as [[? ? ? ? ? ? ? ? ? ? ? ? [] ?] ?]. Qed.

Lemma fl_rel_trans st st1 st2 f1 f2 : fl_rel st st1 f1 -> fl_rel st1 st2 f2 -> fl_rel st st2 f2.
Proof.
  intros [[n1 B1] S1] [[n2 B2] S2]. split; [exists n2; by rewrite B2, B1|].
  rewrite S2, B1. simpl. rewrite S1. unfold set_files. simpl. by rewrite insert_insert_eq.
Qed.

Lemma fl_rel_data st st' f f' : fl_rel st st' f' -> data_st st f -> data_st st' f'.
Proof.
  intros [[n B] S] [H1 H2 H3 H4 H5 H6]. split; rewrite ?B, ?S; simpl; auto. by rewrite lookup_insert_eq.
Qed.

(** A step of the write loop that writes the pages [L]. *)
Definition flushes (m : FlushLocals -> M (BinSt P) FlushLocals) (L : list Z) : Prop :=
  forall st f l, data_st st f -> locals_ok l ->
  exists l' st' f', m l st = Ret (l', st') /\ fl_rel st st' f' /\ locals_ok l' /\ written psz pgc f f' L.

Lemma flushes_nil : flushes (fun l => ret l) [].
Proof.
  intros st f l Hst Hl. exists l, st, f. split; [done|]. split; [|split; [done|apply written_nil]].
  destruct Hst as [_ H _ _ _ _]. pose proof (fl_rel_with st f) as Hf. by rewrite with_file_same in Hf.
Qed.

Lemma flushes_bind m1 m2 L1 L2 : flushes m1 L1 -> flushes m2 L2 -> flushes (fun l => bindM (m1 l) m2) (L1 ++ L2).
Proof.
  intros H1 H2 st f l Hst Hl. destruct (H1 st f l Hst Hl) as (l1 & st1 & f1 & E1 & R1 & O1 & W1).
  destruct (H2 st1 f1 l1 (fl_rel_data _ _ _ _ R1 Hst) O1) as (l2 & st2 & f2 & E2 & R2 & O2 & W2).
  exists l2, st2, f2. unfold bindM. rewrite E1. cbn [res_bind fst snd]. split; [done|]. split; [by eapply fl_rel_trans|].
  split; [done|]. by eapply written_app.
Qed.

Lemma flush_chunk_spec st f l chunk p :
  data_st st f -> locals_ok l -> chunk = seqZ p (zlen chunk) -> chunk <> [] -> (forall pg, pg ∈ chunk -> buffered pg) ->
  exists l' f', flush_chunk true l chunk st = Ret (true, l', with_file st (fd (bin st)) f') /\ locals_ok l' /\ written psz pgc f f' chunk.
Proof.
  intros Hst Hl Ec Hne Hb. pose proof Hst as [H1 H2 H3 H4 H5 H6].
  unfold flush_chunk, get_bin, gets. unfold bindM at 1. cbn [res_bind fst snd].
  rewrite (bindM_ret _ _ _ _ _ (get_slots_ret st sl H3)). unfold bindM at 1.
  assert (forall b : bool, (if b then onsys sys_ok else ret true) st = Ret (true, st)) as Hok.
  { intros []; [by apply onsys_sys_ok|done]. }
  rewrite Hok. cbn [res_bind fst snd negb]. unfold bindM at 1. rewrite H4, H5, build_iov_spec by done. cbn [lift res_bind fst snd].
  destruct (submit_iov_spec st f l chunk Hst Hl Hne Hb) as (l1 & E1 & O1). unfold bindM at 1. rewrite E1. cbn [res_bind fst snd].
  set (f' := file_write f (hd 0 chunk * psz) (concat (pgc <$> chunk))) in *.
  assert (written psz pgc f f' chunk) as Hw.
  { assert (hd 0 chunk = p) as Hhd. { rewrite Ec. rewrite seqZ_cons; [done|]. destruct chunk; [done|]. unfold zlen. simpl. lia. }
    assert (p ∈ chunk) as Hp. { destruct chunk as [|x c]; [done|]. simpl in Hhd. subst x. set_solver. }
    unfold f'. rewrite Hhd. rewrite Ec at 1 2. apply written_interval; [done|apply Hb in Hp; destruct Hp; lia|].
    rewrite <- Ec. intros x Hx. by apply Hb. }
  unfold bindM. destruct (_ && _).
  - destruct (keep_iov_spec (with_file st (fd (bin st)) f') l1 H1 O1) as (l2 & -> & O2). exists l2, f'. done.
  - exists l1, f'. done.
Qed.

Lemma flush_chunks_spec cs :
  (forall c, c ∈ cs -> exists p, c = seqZ p (zlen c) /\ c <> []) -> (forall pg, pg ∈ concat cs -> buffered pg) ->
  flushes (fun l => flush_chunks true l cs) (concat cs).
Proof.
  induction cs as [|c cs IH]; intros Hc Hb; [apply flushes_nil|]. intros st f l Hst Hl.
  destruct (Hc c) as (p & Ep & Hne); [set_solver|].
  destruct (flush_chunk_spec st f l c p Hst Hl Ep Hne) as (l1 & f1 & E1 & O1 & W1).
  { intros pg Hpg. apply Hb. cbn [concat]. set_solver. }
  destruct (IH ltac:(intros; apply Hc; set_solver) ltac:(intros; apply Hb; cbn [concat]; set_solver)
              (with_file st (fd (bin st)) f1) f1 l1) as (l2 & st2 & f2 & E2 & R2 & O2 & W2); [by eapply data_st_with|done|].
  exists l2, st2, f2. cbn [flush_chunks]. unfold bindM. rewrite E1. cbn [res_bind fst snd]. split; [done|].
  split; [eapply fl_rel_trans; [apply fl_rel_with|done]|]. split; [done|]. cbn [concat]. by eapply written_app.
Qed.

Lemma flush_subruns_spec rs :
  (forall r, r ∈ rs -> exists p, r = seqZ p (zlen r) /\ r <> []) -> (forall pg, pg ∈ concat rs -> buffered pg) ->
  flushes (fun l => flush_subruns true l rs) (concat rs).
Proof.
  induction rs as [|r rs IH]; intros Hr Hb; [apply flushes_nil|]. cbn [flush_subruns concat].
  destruct (Hr r) as (p & Ep & Hne); [set_solver|].
  assert (concat (chunks_of (length r) FLUSH_IOV_MAX r) = r) as Ec by (apply chunks_concat; unfold FLUSH_IOV_MAX; lia).
  apply flushes_bind; [|apply IH; [intros; apply Hr; set_solver|intros; apply Hb; cbn [concat]; set_solver]].
  cut (flushes (fun l => flush_chunks true l (chunks_of (length r) FLUSH_IOV_MAX r)) (concat (chunks_of (length r) FLUSH_IOV_MAX r)));
    [by rewrite Ec|]. apply flush_chunks_spec.
  - intros c Hc. rewrite Ep in Hc at 2. eapply chunks_interval; [| |exact Hc]; [unfold FLUSH_IOV_MAX; lia|apply zlen_nonneg].
  - rewrite Ec. intros pg Hpg. apply Hb. cbn [concat]. set_solver.
Qed.

Lemma flush_runs_spec rs :
  (forall pg, pg ∈ concat rs -> buffered pg) -> flushes (fun l => flush_runs true l rs) (concat rs).
Proof.
  induction rs as [|r rs IH]; intros Hb; [apply flushes_nil|]. cbn [flush_runs concat].
  assert (forall pg, pg ∈ r -> buffered pg) as Hr by (intros; apply Hb; cbn [concat]; set_solver).
  apply flushes_bind.
  - cut (flushes (fun l => flush_subruns true l (runs consecutive r)) (concat (runs consecutive r)));
      [by rewrite runs_concat|]. apply flush_subruns_spec.
    + intros x Hx. apply (runs_consecutive r); [|done]. intros y Hy. by apply Hr.
    + rewrite runs_concat. done.
  - intros st f l Hst Hl. unfold upd, modify, bindM. cbn [res_bind fst snd].
    set (n := u64 _). set (st1 := mkBinSt (set_write_buf (bin st) (set_flush_bytes (write_buf (bin st)) n)) (sys st)).
    assert (fl_rel st st1 f) as R1.
    { split; [by exists n|]. simpl. destruct Hst as [_ Hf _ _ _ _]. unfold set_files. rewrite insert_id by done. by destruct (sys st). }
    destruct (IH ltac:(intros; apply Hb; cbn [concat]; set_solver) st1 f l (fl_rel_data _ _ _ _ R1 Hst) Hl) as (l2 & st2 & f2 & E2 & R2 & O2 & W2).
    exists l2, st2, f2. split; [done|]. split; [exact (fl_rel_trans _ _ _ _ _ R1 R2)|]. done.
Qed.

(** The buffers of the flushed pages go to the free list. *)
Lemma recycle_spec pages st f :
  data_st st f -> (forall pg, pg ∈ pages -> buffered pg) ->
  exists cap, recycle_pages false pages st =
    Ret (tt, mkBinSt (set_write_buf (bin st) (set_pool (write_buf (bin st)) (reverse (page_addr sl <$> pages) ++ page_pool (write_buf (bin st))) cap)) (sys st)).
Proof.
  revert st. induction pages as [|pg pages IH]; intros st Hst Hb.
  { exists (pool_capacity (write_buf (bin st))). unfold ret. simpl. do 2 f_equal. by destruct st as [[? ? ? ? ? ? ? ? ? ? ? ? [] ?] ?]. }
  pose proof Hst as [H1 H2 H3 H4 H5 H6]. cbn [recycle_pages]. unfold get_bin, gets. unfold bindM at 1. cbn [res_bind fst snd].
  rewrite (bindM_ret _ _ _ _ _ (get_slots_ret st sl H3)).
  destruct (find_buffered pg) as (h & Ef & Er); [apply Hb; set_solver|]. unfold bindM at 1. rewrite H4, Ef. cbn [lift res_bind fst snd].
  unfold bindM at 1. rewrite Er. cbn [lift res_bind fst snd page_id pdata]. rewrite Z.eqb_refl. cbn [when].
  assert (exists cap, onsys (write_buf_recycle_page (write_buf (bin st)) (page_addr sl pg)) st
    = Ret (set_pool (write_buf (bin st)) (page_addr sl pg :: page_pool (write_buf (bin st))) cap, st)) as (cap & Er1).
  { unfold write_buf_recycle_page. destruct (_ <=? _); [|eexists; unfold onsys, ret; cbn [res_bind]; by destruct st].
    eexists. unfold onsys, bindM. rewrite sys_ok_quiet by done. cbn [res_bind fst snd negb ret]. by destruct st. }
  unfold bindM at 1 2. rewrite Er1. cbn [res_bind fst snd lift]. unfold bindM at 1. cbn [lift res_bind fst snd upd modify].
  set (st1 := mkBinSt _ _). assert (st1 = mkBinSt (set_write_buf (bin st) (set_pool (write_buf (bin st)) (page_addr sl pg :: page_pool (write_buf (bin st))) cap)) (sys st)) as E1.
  { unfold st1, set_pages, set_pool. simpl. by rewrite H3. }
  destruct (IH st1) as (cap2 & E2); [|intros; apply Hb; set_solver|].
  { rewrite E1. by split. }
  exists cap2. rewrite E2, E1. simpl. rewrite reverse_cons, <- app_assoc. done.
Qed.

End loop.

Lemma fsyncs_spec fds y : answers y = [] ->
  forM fds (fun fd => bindM (fdatasync fd) (fun _ => ret tt)) y = Ret (tt, mkSys (files y) (bufs y) [] (synced y ++ fds) (names y)).
Proof.
  revert y. induction fds as [|a fds IH]; intros y Ha.
  { cbn [forM]. unfold ret. rewrite app_nil_r. destruct y. simpl in Ha. by subst. }
  cbn [forM]. unfold bindM at 1 2. unfold fdatasync, bindM. rewrite sys_ok_quiet by done.
  cbn [res_bind fst snd modify ret]. rewrite IH by done. simpl. by rewrite <- app_assoc.
Qed.

Lemma flush_wait_spec sync l st :
  answers (sys st) = [] -> locals_ok l ->
  exists sy, flush_wait true sync l st = Ret (GRAVELDB_OK, mkBinSt (bin st) (mkSys (files (sys st)) (bufs (sys st)) [] sy (names (sys st)))).
Proof.
  intros Ha (H1 & H2 & H3). unfold flush_wait, get_bin, gets. unfold bindM at 1. cbn [res_bind fst snd].
  assert (fst (uring_io_wait (io_ctx l)) = 0) as Hw by (unfold uring_io_wait; by rewrite H1, H2).
  unfold bindM. destruct sync; cbn [when].
  - unfold onsys, uring_io_submit_fsyncs. rewrite H1. cbn [negb]. unfold bindM at 1 2. rewrite fsyncs_spec by done.
    cbn [res_bind fst snd ret]. rewrite Hw, H3. simpl. eauto.
  - cbn [ret res_bind fst snd]. unfold ret. rewrite Hw, H3. simpl. exists (synced (sys st)).
    destruct st as [? []]. simpl in *. by subst.
Qed.

(** ** The whole flush *)

(** The write buffer of a bin: the page table [sl], with a full page buffer for
    every stored page. *)
Record buf_st st (sl : list PageSlot) : Prop := {
  bs_slots : wslots (write_buf (bin st)) = Some sl;
  bs_cap : wcapacity (write_buf (bin st)) = zlen sl;
  bs_inv : pages_inv sl;
  bs_psz : 0 < page_size (bin st);
  bs_count : wcount (write_buf (bin st)) = countb occ sl;
  bs_batch : countb occ sl <= GRAVELDB_MAX_FLUSH_BATCH;
  bs_bufs : forall x, stored sl x -> 0 <= page_id x < UINT32_MAX /\
              exists b, bufs (sys st) !! pdata x = Some b /\ zlen b = page_size (bin st)
}.

Lemma collect_pages_spec sl : countb occ sl <= GRAVELDB_MAX_FLUSH_BATCH -> collect_pages sl = page_id <$> List.filter occ sl.
Proof.
  intros H. unfold collect_pages. apply take_ge. rewrite length_fmap.
  change (List.filter (fun x => negb (page_id x =? PAGE_SLOT_EMPTY)) sl) with (List.filter occ sl). unfold countb, zlen, GRAVELDB_MAX_FLUSH_BATCH in *. lia.
Qed.

Lemma stored_buffered st sl pg :
  buf_st st sl -> pg ∈ page_id <$> List.filter occ sl -> buffered sl (page_size (bin st)) (bufs (sys st)) pg.
Proof.
  intros Hb (x & -> & Hx)%list_elem_of_fmap. apply stored_filter in Hx. destruct (bs_bufs _ _ Hb x Hx) as (Hr & b & Hl & Hz).
  assert (page_addr sl (page_id x) = pdata x) as Ea by (apply page_addr_stored; [apply Hb|done]).
  split; [done|]. split; [eauto|]. unfold page_content. rewrite Ea, Hl. done.
Qed.

(** The pages of the write buffer, in any order [L]. *)
Lemma flush_pages_spec sync st sl f L :
  buf_st st sl -> answers (sys st) = [] -> files (sys st) !! fd (bin st) = Some f -> L ≡ₚ page_id <$> List.filter occ sl ->
  exists n cap f' sy, flush_pages sync L st = Ret (GRAVELDB_OK,
    mkBinSt (set_write_buf (bin st) (mkWriteBuffer (Some (replicate (Z.to_nat (zlen sl)) ff_page)) (zlen sl) 0 (max_pages (write_buf (bin st)))
               n (reverse (page_addr sl <$> L) ++ page_pool (write_buf (bin st))) cap))
            (mkSys (<[fd (bin st) := f']> (files (sys st))) (bufs (sys st)) [] sy (names (sys st)))) /\
    written (page_size (bin st)) (page_content sl (bufs (sys st))) f f' L.
Proof.
  intros Hb Ha Hf HL. pose proof Hb as [B1 B2 B3 B4 B5 B6 B7].
  assert (forall pg, pg ∈ L -> buffered sl (page_size (bin st)) (bufs (sys st)) pg) as HbL.
  { intros pg Hpg. rewrite HL in Hpg. by apply stored_buffered. }
  assert (data_st sl (page_size (bin st)) (bufs (sys st)) st f) as Hst by done.
  destruct (flush_runs_spec sl (page_size (bin st)) (bufs (sys st)) B4 B3 (runs gap_ok L) ltac:(by rewrite runs_concat)
              st f (mkFlushLocals (mkUringIoCtx 0 0 true []) GRAVELDB_OK 0 0) Hst ltac:(done)) as (l1 & st1 & f1 & E1 & [[n R1] R2] & O1 & W1).
  rewrite runs_concat in W1. unfold flush_pages. cbn [uring_io_init]. change (0 =? 0) with true. unfold bindM at 1. rewrite E1. cbn [res_bind fst snd].
  destruct (flush_wait_spec sync l1 st1) as (sy & E2); [by rewrite R2|done|]. unfold bindM at 1. rewrite E2. cbn [res_bind fst snd].
  set (st2 := mkBinSt (bin st1) _). unfold get_bin, gets. unfold bindM at 1. cbn [res_bind fst snd].
  assert (zlen L = countb occ sl) as Hlen. { unfold countb, zlen. rewrite HL. by rewrite length_fmap. }
  assert (wcount (write_buf (bin st2)) = countb occ sl) as Hwc by (unfold st2; simpl; rewrite R1; done).
  rewrite Hwc. pose proof (countb_nonneg occ sl). unfold GRAVELDB_MAX_FLUSH_BATCH in B6. unfold i32. rewrite Z.mod_small by lia.
  rewrite (proj2 (Z.eqb_eq _ _)) by lia. unfold flush_release_all.
  assert (data_st sl (page_size (bin st)) (bufs (sys st)) st2 f1) as Hst2.
  { unfold st2. split; simpl; rewrite ?R1, ?R2; simpl; auto. by rewrite lookup_insert_eq. }
  destruct (recycle_spec sl (page_size (bin st)) (bufs (sys st)) B4 B3 L st2 f1 Hst2 HbL) as (cap & E3).
  unfold bindM. rewrite E3. cbn [res_bind fst snd upd modify ret]. exists n, cap, f1, sy. split; [|done].
  unfold st2, set_pages, set_pool. simpl. rewrite R1, R2. simpl. rewrite B2. done.
Qed.

(** The bytes of the data file after a flush: the buffered pages are in place and
    every other byte is as before. *)
Definition flushed st (sl : list PageSlot) (f f' : list Z) : Prop :=
  (forall x b i, stored sl x -> bufs (sys st) !! pdata x = Some b -> 0 <= i < page_size (bin st) ->
     file_byte f' (page_id x * page_size (bin st) + i) = default 0 (b !! Z.to_nat i)) /\
  (forall k, 0 <= k -> (forall x, stored sl x -> page_id x <> k / page_size (bin st)) -> file_byte f' k = file_byte f k).

Lemma written_flushed st sl f f' L :
  buf_st st sl -> L ≡ₚ page_id <$> List.filter occ sl ->
  written (page_size (bin st)) (page_content sl (bufs (sys st))) f f' L -> flushed st sl f f'.
Proof.
  intros Hb HL Hw. pose proof (bs_psz _ _ Hb) as Hp. split.
  - intros x b i Hx Hl Hi. destruct (bs_bufs _ _ Hb x Hx) as [Hr _].
    rewrite Hw by nia. rewrite Z.div_add_l, (Z.div_small i), Z.add_0_r by lia.
    rewrite (Z.add_comm (_ * _)), Z.mod_add, Z.mod_small by lia.
    rewrite bool_decide_true by (rewrite HL; apply list_elem_of_fmap_2; exact (proj1 (stored_filter _ _) Hx)).
    unfold page_content. rewrite page_addr_stored; [by rewrite Hl|apply Hb|done].
  - intros k Hk Hno. rewrite Hw by done. rewrite bool_decide_false; [done|]. rewrite HL.
    intros (x & E & Hx%stored_filter)%list_elem_of_fmap. by apply (Hno x).
Qed.

(** The buffer is empty, and its page buffers are in the free list. *)
Definition emptied (sl : list PageSlot) (wb wb' : WriteBuffer) : Prop :=
  wcount wb' = 0 /\ (exists sl', wslots wb' = Some sl' /\ wcapacity wb' = zlen sl' /\ pages_inv sl' /\ forall x, ~ stored sl' x) /\
  page_pool wb' ≡ₚ (pdata <$> List.filter occ sl) ++ page_pool wb.

Lemma flush_addrs sl L : uniq sl -> L ≡ₚ page_id <$> List.filter occ sl -> page_addr sl <$> L ≡ₚ pdata <$> List.filter occ sl.
Proof.
  intros Hu ->. rewrite <- list_fmap_compose.
  assert (forall l : list PageSlot, (forall x, x ∈ l -> stored sl x) -> (page_addr sl ∘ page_id) <$> l = pdata <$> l) as H.
  { induction l as [|x l IH]; intros Hl; [done|]. rewrite !fmap_cons, IH by (intros; apply Hl; set_solver). f_equal.
    simpl. apply page_addr_stored; [done|]. apply Hl. set_solver. }
  rewrite H; [done|]. intros x Hx. exact (proj2 (stored_filter _ _) Hx).
Qed.

(** C5: a flush whose calls succeed, of a bin with at most 65536 buffered pages (GRAVELDB_MAX_FLUSH_BATCH)
    and buffered keys inside the key file, moves everything to the files: it returns OK, every buffered
    page is at its place in the data file, every other byte of it is as before, every buffered key is in
    its slot of the key file and the other slots are as before, and afterwards both buffers are empty and
    the page buffers are in the free list. (With more pages a flush writes the first 65536 and keeps the
    rest buffered.) *)
Theorem dimbin_flush_correct st sl f kf m sync :
  answers (sys st) = [] -> files (sys st) !! fd (bin st) = Some f -> files (sys st) !! key_fd (bin st) = Some kf ->
  fd (bin st) <> key_fd (bin st) -> buf_st st sl -> kbt_inv (key_buf (bin st)) m ->
  (forall k v, m !! k = Some v -> 0 <= k < 2 ^ 32 /\ k * 8 < key_file_size (bin st)) ->
  exists st' f' kf', dimbin_flush sync st = Ret (GRAVELDB_OK, st') /\
    files (sys st') = <[fd (bin st) := f']> (<[key_fd (bin st) := kf']> (files (sys st))) /\ flushed st sl f f' /\
    (forall j, 0 <= j -> key_at kf' j = match m !! j with Some v => key_bytes v | None => key_at kf j end) /\
    emptied sl (write_buf (bin st)) (write_buf (bin st')) /\ kbt_inv (key_buf (bin st')) ∅ /\ flush_needed (bin st') = false.
Proof.
  intros Ha Hf Hkf Hne Hb Hk Hm. destruct (flush_keys_spec st kf m) as (kf' & t & E1 & Ht & _ & Hkeys); [by split|done|done|].
  unfold dimbin_flush. unfold bindM at 1. rewrite E1. cbn [res_bind fst snd]. rewrite bool_decide_true by done. cbn [negb].
  set (st1 := mkBinSt (set_flush_needed (set_key_buf (bin st) t) false) (set_files (sys st) (<[key_fd (bin st) := kf']> (files (sys st))))).
  unfold upd, modify. unfold bindM at 1. cbn [res_bind fst snd]. change (mkBinSt _ _) with st1. unfold get_bin, gets. unfold bindM at 1. cbn [res_bind fst snd].
  assert (buf_st st1 sl) as Hb1 by (destruct Hb; split; done).
  assert (files (sys st1) !! fd (bin st1) = Some f) as Hf1 by (simpl; by rewrite lookup_insert_ne).
  pose proof Hb as [B1 B2 B3 B4 B5 B6 B7]. change (wcount (write_buf (bin st1))) with (wcount (write_buf (bin st))). rewrite B5.
  assert (insert (M := gmap Z (list Z)) (fd (bin st)) f (<[key_fd (bin st) := kf']> (files (sys st))) = <[key_fd (bin st) := kf']> (files (sys st))) as Hid.
  { apply insert_id. by rewrite lookup_insert_ne. }
  destruct (Z.eqb_spec (countb occ sl) 0) as [E0|E0].
  - assert (List.filter occ sl = []) as Hnil. { apply nil_length_inv. unfold countb, zlen in E0. lia. }
    assert (forall x, ~ stored sl x) as Hns. { intros x Hx%stored_filter. rewrite Hnil in Hx. by apply elem_of_nil in Hx. }
    exists st1, f, kf'. split; [done|]. split; [by rewrite Hid|]. split; [split; [intros x b i Hx; by apply Hns in Hx|done]|].
    split; [done|]. split; [|done]. split; [by rewrite <- E0|]. split; [by exists sl|]. by rewrite Hnil.
  - rewrite (bindM_ret _ _ _ _ _ (get_slots_ret st1 sl B1)). rewrite collect_pages_spec by done.
    set (L0 := page_id <$> List.filter occ sl). assert (zlen L0 = countb occ sl) as Hz by (unfold L0, countb, zlen; by rewrite length_fmap).
    rewrite Hz. rewrite (proj2 (Z.eqb_neq _ _)) by done.
    assert (merge_sort Z.le L0 ≡ₚ page_id <$> List.filter occ sl) as HL by (apply merge_sort_Permutation).
    destruct (flush_pages_spec sync st1 sl f (merge_sort Z.le L0) Hb1 Ha Hf1 HL) as (n & cap & f' & sy & E2 & W).
    rewrite E2. eexists _, f', kf'. split; [done|]. split; [done|]. split; [by apply (written_flushed st1 _ _ _ (merge_sort Z.le L0))|].
    split; [done|]. split; [|done]. split; [done|]. split.
    + eexists. split; [done|]. simpl. assert (zlen (replicate (Z.to_nat (zlen sl)) ff_page) = zlen sl) as Hl.
      { unfold zlen. rewrite length_replicate. lia. }
      split; [by rewrite Hl|]. destruct B3 as ([Hp2 Hle] & _). split; [|intros x; by apply stored_replicate].
      apply pages_inv_empty; rewrite ?Z2Nat.id; auto; apply zlen_nonneg.
    + simpl. rewrite reverse_Permutation. by rewrite flush_addrs by (done || apply B3).
Qed.

End flush.

(** ** Losing entries of a partly filled page *)

(** A page source of 4 KB pages, and a file system without files: the files of
    the bin get the descriptors 3 and 4. *)
Definition page_source : SlabPool * Mem := (mkSlabPool 4096 4096 65536 0 0 [] 0 0 0 0 0, mkMem ∅ [Some 65536]).
Definition fresh_sys : Sys := mkSys ∅ ∅ [] [] ∅.

(** A new bin for embeddings of four floats. *)
Definition fresh_bin : res (BinSt (SlabPool * Mem)) :=
  let! '(r, y) := dimbin_init 4 "dim_4.dat"%string 1048576 0 4096 fresh_sys in
  Ret (mkBinSt (set_allocator (snd r) (Some page_source)) y).

(** An entry is put and flushed, then another entry of the same page. *)
Definition put_flush_put_flush : M (BinSt (SlabPool * Mem)) (Z * Z) :=
  let* a := dimbin_alloc_entry in
  let* _ := dimbin_put_batch [(a, replicate 16 7)] in
  let* _ := dimbin_flush true in
  let* b := dimbin_alloc_entry in
  let* _ := dimbin_put_batch [(b, replicate 16 9)] in
  let* _ := dimbin_flush true in
  ret (a, b).

(** a flush can destroy entries flushed before. In a new bin entry 0 is
    allocated, put and flushed, and then entry 1: [write_buf_ensure_page] takes
    the page of [bump_ptr] for unused and fills it with zeros, so the second
    flush writes zeros over entry 0. *)
Theorem dimbin_flush_loses_entry :
  (let! st := fresh_bin in
   let! '(ids, st) := put_flush_put_flush st in
   let f := default [] (files (sys st) !! 3) in
   Ret (ids, take 16 f, take 16 (drop 16 f)))
  = Ret ((0, 1), replicate 16 0, replicate 16 9).
Proof. vm_compute. reflexivity. Qed.

(** A synchronous flush calls [fdatasync] on the data file only. *)
Lemma flush_sync_skips_keys :
  (let! st := fresh_bin in
   let! '(_, st) := bindM dimbin_alloc_entry (fun a =>
     do* dimbin_buf_key a 101 in
     let* _ := dimbin_put_batch [(a, replicate 16 7)] in
     dimbin_flush true) st in
   Ret (synced (sys st), take 8 (default [] (files (sys st) !! 4))))
  = Ret ([3], [101; 0; 0; 0; 0; 0; 0; 0]).
Proof. vm_compute. reflexivity. Qed.

(** ** Witness *)

(** Page 1 buffered in a table of four slots, and the three keys of [t_three]. *)
Definition no_pages : list PageSlot := replicate 4 no_page.
Definition one_page : list PageSlot := <[1%nat := mkPageSlot 1 100]> no_pages.
Definition flush_bin : DimBin (SlabPool * Mem) :=
  mkDimBin 4 16 16 1 3 4 None None 16 (Some []) 1024 zero_dirty (mkWriteBuffer (Some one_page) 4 1 64 0 [] 0)
    t_three zero_overlay false true 0 None 16 1 0 8192 8192.
Definition flush_state : BinSt (SlabPool * Mem) :=
  mkBinSt flush_bin (mkSys (<[3 := replicate 64 1]> (<[4 := replicate 128 1]> ∅)) (<[100 := replicate 16 5]> ∅) [] [] ∅).

Lemma one_page_inv : pages_inv one_page /\ (forall t, stored one_page t <-> t = mkPageSlot 1 100 \/ stored no_pages t) /\ countb occ one_page = 1.
Proof.
  assert (pages_inv no_pages) as Hi by (apply pages_inv_empty; [by exists 2|lia|done]).
  destruct (pagemap_insert_spec no_pages (mkPageSlot 1 100) 1 no_page Hi) as (H1 & H2 & H3 & H4 & H5 & H6); [done|done|simpl; unfold PAGE_SLOT_EMPTY, UINT32_MAX; lia| | |].
  - intros s Hs. by apply stored_replicate in Hs.
  - intros d Hd. assert (dst (zlen no_pages) (home (zlen no_pages - 1) (page_id (mkPageSlot 1 100))) 1 = 0) as E by (vm_compute; reflexivity).
    rewrite E in Hd. lia.
  - split; [|split; [exact H6|done]]. split; [done|]. split; [done|]. split; [done|]. vm_compute. done.
Qed.

Lemma flush_state_buf : buf_st flush_state one_page.
Proof.
  destruct one_page_inv as (H1 & H2 & H3). split; [done|done|done|simpl; lia|done|rewrite H3; unfold GRAVELDB_MAX_FLUSH_BATCH; lia|].
  intros x [->|Hx]%H2; [|by apply stored_replicate in Hx]. split; [simpl; unfold UINT32_MAX; lia|]. by exists (replicate 16 5).
Qed.

Lemma dimbin_flush_correct_witness :
  exists st' f' kf', dimbin_flush true flush_state = Ret (GRAVELDB_OK, st') /\
    files (sys st') = <[3 := f']> (<[4 := kf']> (files (sys flush_state))) /\ flushed flush_state one_page (replicate 64 1) f' /\
    (forall j, 0 <= j -> key_at kf' j = match m_three !! j with Some v => key_bytes v | None => key_at (replicate 128 1) j end) /\
    emptied one_page (write_buf (bin flush_state)) (write_buf (bin st')) /\ kbt_inv (key_buf (bin st')) ∅ /\ flush_needed (bin st') = false.
Proof.
  apply (dimbin_flush_correct flush_state one_page (replicate 64 1) (replicate 128 1) m_three true);
    [done|done|done|done|apply flush_state_buf|apply t_three_inv|].
  intros k v Hk. unfold m_three in Hk. simpl in *.
  repeat (apply lookup_insert_Some in Hk as [[<- _]|[_ Hk]]; [simpl; lia|]).
  apply lookup_singleton_Some in Hk as [<- _]. simpl. lia.
Defined.
