(* ===== verification/BinOps.v ===== *)
(** BinOps: entry allocation and writes during a checkpoint.

    Two contracts of src/dimbin.c the engine relies on: the entries a bin hands
    out are distinct, whatever the system answers, and a write during a
    checkpoint reaches the overlay only. *)

From S2P Require Import Prelude LinearProbe SlabAlloc Overlay DirtyTracker KeyBTree IoBatch PageMap DimBin BinKeys.

(** ** Calls that always return *)

Definition total {A} (m : M Sys A) : Prop := forall y, exists a y', m y = Ret (a, y').

Lemma total_ret {A} (a : A) : total (ret a).
Proof. intros y. by eexists _, _. Qed.
Lemma total_bind {A B} (m : M Sys A) (k : A -> M Sys B) : total m -> (forall a, total (k a)) -> total (bindM m k).
Proof. intros Hm Hk y. destruct (Hm y) as (a & y1 & E). unfold bindM. rewrite E. apply Hk. Qed.
Lemma total_ask : total ask.
Proof. intros y. unfold ask. destruct (answers y); by eexists _, _. Qed.
Lemma total_gets {A} (f : Sys -> A) : total (gets f).
Proof. intros y. by eexists _, _. Qed.
Lemma total_modify f : total (modify f).
Proof. intros y. by eexists _, _. Qed.
Create HintDb total.
#[export] Hint Resolve total_ret total_bind total_ask total_gets total_modify : total.

(** Splits the branches of a call and its sequences. *)
Ltac total_tac :=
  repeat first [progress intros | apply total_bind | solve [auto with total] | case_match].

Lemma total_sys_ok : total sys_ok.
Proof. unfold sys_ok. total_tac. Qed.
#[export] Hint Resolve total_sys_ok : total.
Lemma total_pwrite fd b off : total (pwrite fd b off).
Proof. unfold pwrite. total_tac. Qed.
Lemma total_ftruncate fd n : total (ftruncate fd n).
Proof. unfold ftruncate. total_tac. Qed.
Lemma total_fallocate fd n : total (fallocate fd n).
Proof. unfold fallocate. total_tac. Qed.
#[export] Hint Resolve total_pwrite total_ftruncate total_fallocate : total.
Lemma total_preallocate fd n : total (graveldb_preallocate fd n).
Proof. unfold graveldb_preallocate. total_tac. Qed.
#[export] Hint Resolve total_preallocate : total.

Section ops.
Context {P : Type} `{!ObjectPool P}.
Implicit Types (st : BinSt P) (s : DimBin P).

(** A step of a bin that returns and relates the bins before and after it. *)
Definition steps (R : DimBin P -> DimBin P -> Prop) {A} (m : M (BinSt P) A) : Prop :=
  forall st, exists a st', m st = Ret (a, st') /\ R (bin st) (bin st').

(** The parts of a bin that growing its files leaves alone. *)
Definition same_entries s s' : Prop :=
  free_list s' = free_list s /\ bump_ptr s' = bump_ptr s /\ free_capacity s' = free_capacity s /\ key_buf s' = key_buf s.

#[export] Instance same_entries_refl : Reflexive same_entries.
Proof. done. Qed.
#[export] Instance same_entries_trans : Transitive same_entries.
Proof. intros a b c (? & ? & ? & ?) (? & ? & ? & ?). split_and!; congruence. Qed.

Lemma steps_ret {A} (a : A) : steps same_entries (ret a).
Proof. intros st. by eexists _, _. Qed.
Lemma steps_bind {A B} (m : M (BinSt P) A) (k : A -> M (BinSt P) B) :
  steps same_entries m -> (forall a, steps same_entries (k a)) -> steps same_entries (bindM m k).
Proof.
  intros Hm Hk st. destruct (Hm st) as (a & st1 & E & R1). destruct (Hk a st1) as (b & st2 & E2 & R2).
  exists b, st2. unfold bindM. rewrite E. split; [done|]. by etrans.
Qed.
Lemma steps_onsys {A} (m : M Sys A) : total m -> steps same_entries (onsys m).
Proof. intros Hm st. destruct (Hm (sys st)) as (a & y & E). unfold onsys. rewrite E. by eexists _, _. Qed.
Lemma steps_get : steps same_entries get_bin.
Proof. intros st. by eexists _, _. Qed.
Lemma steps_upd f : (forall s, same_entries s (f s)) -> steps same_entries (upd f).
Proof. intros Hf st. eexists _, _. split; [done|]. apply Hf. Qed.
Lemma steps_when b m : steps same_entries m -> steps same_entries (when b m).
Proof. destruct b; [done|]. intros _. apply steps_ret. Qed.

Ltac steps_tac :=
  repeat first [progress intros | apply steps_bind | apply steps_when | apply steps_ret | apply steps_get
               | apply steps_onsys; solve [auto with total] | apply steps_upd; done | case_match].

Lemma grow_data_file_steps n r : steps same_entries (grow_data_file n r).
Proof. unfold grow_data_file. steps_tac. Qed.

(** The free entries and the entries in use, [A], are distinct and below the
    bump pointer. *)
Definition entries_ok s (A : list Z) : Prop :=
  exists free, free_list s = Some free /\ NoDup (free ++ A) /\ (forall e, e ∈ free ++ A -> 0 <= e < bump_ptr s) /\
  0 <= bump_ptr s /\ zlen free <= free_capacity s.

Lemma entries_ok_same s s' A : same_entries s s' -> entries_ok s A -> entries_ok s' A.
Proof. intros (E1 & E2 & E3 & _) (free & H1 & H2 & H3 & H4). exists free. rewrite E1, E2, E3. auto. Qed.

(** The entry that is handed out next: the one given back last, else the one at the bump pointer. *)
Definition next_entry s : Z := match free_list s with Some (e :: _) => e | _ => bump_ptr s end.

(** The part of an allocation after the slot is taken: the files grow. *)
Lemma alloc_rest_spec slot s0 :
  steps same_entries
    (do* when (data_file_size s0 <? u64 (u32 (slot + 1) * entry_size s0))
          (let new_size := if 0 <? data_file_size s0 then u64 (data_file_size s0 * 2) else u64 (page_size s0 * 256) in
           let new_size := if new_size <? u64 (u32 (slot + 1) * entry_size s0) then u64 (u64 (u32 (slot + 1) * entry_size s0) * 2) else new_size in
           grow_data_file new_size (u64 (u32 (slot + 1) * entry_size s0))) in
     do* when (key_file_size s0 <? u32 (slot + 1) * 8)
          (let new_size := if 0 <? key_file_size s0 then u64 (key_file_size s0 * 2) else 8192 in
           let new_size := if new_size <? u32 (slot + 1) * 8 then u64 (u32 (slot + 1) * 8 * 2) else new_size in
           let* r := onsys (ftruncate (key_fd s0) new_size) in
           when (r =? 0) (upd (fun s => set_key_file_size s new_size))) in
     do* when (total_entries s0 <=? slot)
          (upd (fun s => set_total_pages (set_total_entries s (u32 (slot + 1)))
                           (u64 (u32 (slot + 1) + u64 (entries_per_page s) - 1) / u64 (entries_per_page s)))) in
     ret slot).
Proof. steps_tac; apply grow_data_file_steps. Qed.

Lemma alloc_entry_spec st A :
  entries_ok (bin st) A -> bump_ptr (bin st) < 2 ^ 32 ->
  exists e st', dimbin_alloc_entry st = Ret (e, st') /\ ~ (e ∈ A) /\ entries_ok (bin st') (e :: A) /\ 0 <= e < 2 ^ 32 /\
    key_buf (bin st') = key_buf (bin st) /\ e = next_entry (bin st) /\ free_list (bin st') = tail <$> free_list (bin st).
Proof.
  intros (free & Hfree & Hnd & Hr & Hb & Hcap) Hlt. unfold dimbin_alloc_entry, get_bin, gets. unfold bindM at 1. cbn [res_bind fst snd].
  unfold bindM at 1. rewrite Hfree. cbn [deref lift res_bind fst snd]. destruct free as [|e free].
  - rewrite (u32_id (bump_ptr (bin st))) by lia. set (slot := bump_ptr (bin st)) in *. unfold bindM at 1, upd, modify. cbn [res_bind fst snd].
    set (st1 := mkBinSt _ _). destruct (alloc_rest_spec slot (bin st) st1) as (x & st2 & E & R).
    assert (x = slot) as ->.
    { revert E. unfold bindM at 1. destruct (when _ _ st1) as [[a st3]| |]; simpl; [|done|done].
      unfold bindM at 1. destruct (when _ _ st3) as [[b st4]| |]; simpl; [|done|done].
      unfold bindM at 1. destruct (when _ _ st4) as [[c st5]| |]; simpl; [|done|done]. unfold ret. by intros [= ->]. }
    exists slot, st2. split; [exact E|]. simpl in Hnd, Hr.
    assert (~ (slot ∈ A)) as Hni by (intros Hin; apply Hr in Hin; lia). split; [done|]. split; [|split; [lia|split; [by apply R|split; [unfold next_entry; by rewrite Hfree|]; destruct R as (R1 & _); rewrite R1; simpl; by rewrite Hfree]]].
    apply (entries_ok_same (bin st1)); [done|]. exists []. simpl. rewrite u64_id by lia. split; [done|]. split; [by constructor|].
    split; [|split; [lia|done]]. intros e [->|He]%elem_of_cons; [lia|]. apply Hr in He. lia.
  - eexists e, _. split; [done|]. simpl in Hnd. apply NoDup_cons in Hnd as [Hni Hnd]. rewrite elem_of_app in Hni.
    split; [tauto|]. assert (0 <= e < bump_ptr (bin st)) by (apply Hr; set_solver). split; [|split; [lia|split; [done|split; [unfold next_entry; by rewrite Hfree|simpl; try done; by rewrite Hfree]]]].
    exists free. simpl. split; [done|]. split; [|split; [|split; [done|unfold zlen in *; simpl length in *; lia]]].
    + apply NoDup_app. apply NoDup_app in Hnd as (H1 & H2 & H3). split; [done|]. split; [|constructor; [tauto|done]].
      intros x Hx. rewrite elem_of_cons. intros [->|Hx2]; [tauto|]. by apply (H2 x).
    + intros x Hx. apply Hr. set_solver.
Qed.

Lemma entries_ok_drop s e A : entries_ok s (e :: A) -> entries_ok s A.
Proof.
  intros (free & H1 & H2 & H3 & H4). exists free. split; [done|]. split; [|split; [|done]].
  - rewrite NoDup_app in *. destruct H2 as (? & H2 & H5). apply NoDup_cons in H5 as [? ?]. split; [done|]. split; [|done].
    intros x Hx Hin. apply (H2 x Hx). set_solver.
  - intros x Hx. apply H3. set_solver.
Qed.

Lemma buf_key_room st m e v :
  kbt_inv (key_buf (bin st)) m -> kbt_full (key_buf (bin st)) = false -> arena_cap (key_buf (bin st)) <= ARENA_BOUND ->
  exists t, dimbin_buf_key e v st = Ret (tt, mkBinSt (set_key_buf (bin st) t) (sys st)) /\ kbt_inv t (<[e := v]> m).
Proof.
  intros Hi Hf Hb. unfold dimbin_buf_key, get_bin, gets, bindM. cbn [res_bind fst snd]. rewrite Hf. cbn [when ret res_bind fst snd].
  unfold ret. cbn [res_bind fst snd]. destruct (kbt_insert_spec (key_buf (bin st)) m e v Hi Hf Hb) as (t & E & Ht & _).
  rewrite E. cbn [lift res_bind fst snd]. exists t. done.
Qed.

(** A free entry that was pushed: the key of its slot is 0 in the key buffer. *)
Lemma free_push_spec st m A e free cap :
  entries_ok (bin st) (e :: A) -> free_list (bin st) = Some free ->
  kbt_inv (key_buf (bin st)) m -> kbt_full (key_buf (bin st)) = false -> arena_cap (key_buf (bin st)) <= ARENA_BOUND -> zlen free < cap ->
  exists st', bindM (upd (fun s => set_free_capacity (set_free_list s (Some (e :: free))) cap)) (fun _ => dimbin_buf_key e 0) st = Ret (tt, st') /\
    entries_ok (bin st') A /\ free_list (bin st') = Some (e :: free) /\ kbt_inv (key_buf (bin st')) (<[e := 0]> m) /\ bump_ptr (bin st') = bump_ptr (bin st).
Proof.
  intros (free' & Hfree & Hnd & Hr & Hb & Hlen) E0 Hk Hfull Hcap Hc. assert (free' = free) as -> by congruence.
  unfold upd, modify, bindM. cbn [res_bind fst snd]. set (st1 := mkBinSt _ _). destruct (buf_key_room st1 m e 0) as (t & E & Ht); [done..|].
  exists (mkBinSt (set_key_buf (bin st1) t) (sys st1)). split; [done|]. split; [|done].
  exists (e :: free). simpl. split; [done|]. assert (e :: free ++ A ≡ₚ free ++ e :: A) as HP by (apply Permutation_middle).
  split; [by rewrite HP|]. split; [intros x Hx; apply Hr; by rewrite <- HP|]. split; [done|]. unfold zlen in *. simpl length. lia.
Qed.

(** C31: a bin never hands out an entry twice. Whatever the system answers, in a bin whose bump
    pointer fits in 32 bits, an allocation returns the entry that was given back last or else the
    one at the bump pointer; it is not in use, and the entries in use and the free ones stay
    distinct. Giving an entry in use back, while the key buffer has room and the capacity of the
    free list can be doubled in 32 bits, puts it at the head of the free list and a 0 for its key
    into the key buffer; only when the list is full and cannot be reallocated nothing changes, and
    the entry is lost. In both cases the other entries in use stay distinct from the free ones. *)
Theorem dimbin_entries_distinct st A e m :
  entries_ok (bin st) A -> bump_ptr (bin st) < 2 ^ 32 ->
  kbt_inv (key_buf (bin st)) m -> kbt_full (key_buf (bin st)) = false -> arena_cap (key_buf (bin st)) <= ARENA_BOUND ->
  0 < free_capacity (bin st) < 2 ^ 31 ->
  (exists st', dimbin_alloc_entry st = Ret (next_entry (bin st), st') /\ ~ (next_entry (bin st) ∈ A) /\
     entries_ok (bin st') (next_entry (bin st) :: A) /\ free_list (bin st') = tail <$> free_list (bin st)) /\
  (forall A', A = e :: A' ->
   exists st', dimbin_free_entry e st = Ret (tt, st') /\ entries_ok (bin st') A' /\
     (free_list (bin st') = cons e <$> free_list (bin st) /\ kbt_inv (key_buf (bin st')) (<[e := 0]> m) \/
      bin st' = bin st /\ free_capacity (bin st) <= zlen (default [] (free_list (bin st))) /\ exists y, sys_ok (sys st) = Ret (false, y))).
Proof.
  intros Hok Hlt Hk Hfull Hcap Hfc. split.
  { destruct (alloc_entry_spec st A Hok Hlt) as (x & st' & H1 & H2 & H3 & _ & _ & -> & H4). by exists st'. }
  intros A' ->. pose proof Hok as (free & Hfree & _ & _ & _ & Hlen). rewrite Hfree. simpl.
  unfold dimbin_free_entry, get_bin, gets. unfold bindM at 1. cbn [res_bind fst snd].
  unfold bindM at 1. rewrite Hfree. cbn [deref lift res_bind fst snd]. destruct (Z.leb_spec (free_capacity (bin st)) (zlen free)) as [Hle|Hle].
  - unfold bindM at 1. destruct (total_sys_ok (sys st)) as (ok & y & Eok). unfold onsys. rewrite Eok. cbn [res_bind fst snd].
    destruct ok; cbn [negb].
    + destruct (Z.leb_spec (u32 (free_capacity (bin st) * 2)) (zlen free)) as [H2|H2].
      { exfalso. rewrite u32_id in H2 by lia. lia. }
      destruct (free_push_spec (mkBinSt (bin st) y) m A' e free (u32 (free_capacity (bin st) * 2)) Hok Hfree Hk Hfull Hcap H2) as (st' & E & H3 & H4 & H5 & _). exists st'. auto.
    + eexists. split; [done|]. split; [by eapply entries_ok_drop|]. right. split; [done|]. split; [done|]. by eexists.
  - destruct (free_push_spec st m A' e free (free_capacity (bin st)) Hok Hfree Hk Hfull Hcap Hle) as (st' & E & H3 & H4 & H5 & _). exists st'. auto.
Qed.

(** ** Writes during a checkpoint *)

(** The overlay's entries after the puts [l] of embeddings of [n] bytes. *)
Definition put_entries (n : Z) (m : gmap Z (list Z)) (l : list EmbWriteEntry) : gmap Z (list Z) :=
  foldl (fun m e => <[fst e := take (Z.to_nat n) (snd e)]> m) m l.

(** Only the overlay differs; files and page buffers are the same. *)
Definition isolated st st' : Prop :=
  (exists ob, bin st' = set_overlay (bin st) ob) /\ files (sys st') = files (sys st) /\ bufs (sys st') = bufs (sys st).

Lemma isolated_trans st st1 st2 : isolated st st1 -> isolated st1 st2 -> isolated st st2.
Proof. intros ([o1 B1] & F1 & U1) ([o2 B2] & F2 & U2). split; [exists o2; by rewrite B2, B1|]. split; congruence. Qed.

Lemma isolated_refl st y : files y = files (sys st) -> bufs y = bufs (sys st) -> isolated st (mkBinSt (bin st) y).
Proof. intros. split; [|done]. exists (overlay (bin st)). by destruct (bin st). Qed.

Lemma sys_ok_isolated y : exists b y', sys_ok y = Ret (b, y') /\ files y' = files y /\ bufs y' = bufs y.
Proof. unfold sys_ok, ask, bindM, ret. destruct (answers y) as [|a l]; by eexists _, _. Qed.

Lemma put_overlay_spec entries st m :
  ov_inv (overlay (bin st)) m ->
  10 * (Overlay.count (overlay (bin st)) + zlen entries) <= 7 * Overlay.capacity (overlay (bin st)) ->
  (forall e, e ∈ entries -> 0 <= fst e < OVERLAY_EMPTY /\ dim (bin st) * 4 <= zlen (snd e)) ->
  exists rc st' k, put_overlay entries st = Ret (rc, st') /\ isolated st st' /\
    ov_inv (overlay (bin st')) (put_entries (dim (bin st) * 4) m (take k entries)) /\
    (rc = GRAVELDB_OK /\ take k entries = entries \/ rc = GRAVELDB_ERR_BUSY \/ rc = GRAVELDB_ERR_OOM).
Proof.
  revert st m. induction entries as [|[id d] entries IH]; intros st m Hi Hroom He.
  { exists GRAVELDB_OK, st, 0%nat. split; [done|]. split; [|split; [done|by left]]. destruct st as [b y]. by apply (isolated_refl (mkBinSt b y)). }
  destruct (He (id, d)) as [Hid Hlen]; [set_solver|]. simpl in Hid, Hlen.
  cbn [put_overlay]. unfold get_bin, gets. unfold bindM at 1. cbn [res_bind fst snd].
  destruct (overlay_full (overlay (bin st))).
  { exists GRAVELDB_ERR_BUSY, st, 0%nat. split; [done|]. split; [|split; [done|by right; left]]. destruct st as [b y]. by apply (isolated_refl (mkBinSt b y)). }
  zdec. destruct (sys_ok_isolated (sys st)) as (ok & y & Eok & Fy & Uy). unfold bindM at 1. unfold onsys. rewrite Eok. cbn [res_bind fst snd].
  destruct (overlay_put_spec (overlay (bin st)) m id (take (Z.to_nat (dim (bin st) * 4)) d) (dim (bin st)) ok Hi) as (rc & ob & E & Hcap & Hcnt & Hres).
  { unfold ov_room. unfold zlen in Hroom. simpl length in Hroom. lia. } { done. }
  unfold bindM at 1. rewrite E. cbn [lift res_bind fst snd]. unfold upd, modify, bindM at 1. cbn [res_bind fst snd].
  set (st1 := mkBinSt (set_overlay (bin st) ob) y).
  assert (isolated st st1) as I1 by (split; [by exists ob|]; done).
  destruct Hres as [[-> Hov]|(-> & _ & Hov)]; [|rewrite bool_decide_false by done; exists GRAVELDB_ERR_OOM, st1, 0%nat; do 2 (split; [done|]); split; [exact Hov|]; by right; right].
  rewrite bool_decide_true by done. cbn [negb].
  destruct (IH st1 (<[id := take (Z.to_nat (dim (bin st) * 4)) d]> m)) as (rc & st2 & k & E2 & I2 & O2 & R2); [done| |intros; apply He; set_solver|].
  { unfold st1. simpl. rewrite Hcap. unfold zlen in *. simpl length in *. lia. }
  exists rc, st2, (S k). split; [done|]. split; [by eapply isolated_trans|]. split; [exact O2|].
  destruct R2 as [[-> Ek]|R2]; [left; split; [done|]; simpl; by f_equal|by right].
Qed.

(** Snapshot isolation. While a checkpoint is taken, [dimbin_put_batch] returns
    and touches nothing a checkpoint reads: the files, the page buffers, the
    dirty pages and the keys are as before, and the overlay holds a prefix of
    the batch, all of it when the status is OK; otherwise the overlay is full
    or out of memory. *)
Theorem dimbin_put_batch_isolated st m entries :
  in_checkpoint (bin st) = true -> ov_inv (overlay (bin st)) m ->
  10 * (Overlay.count (overlay (bin st)) + zlen entries) <= 7 * Overlay.capacity (overlay (bin st)) ->
  (forall e, e ∈ entries -> 0 <= fst e < OVERLAY_EMPTY /\ dim (bin st) * 4 <= zlen (snd e)) ->
  exists rc st' k, dimbin_put_batch entries st = Ret (rc, st') /\ isolated st st' /\
    ov_inv (overlay (bin st')) (put_entries (dim (bin st) * 4) m (take k entries)) /\
    (rc = GRAVELDB_OK /\ take k entries = entries \/ rc = GRAVELDB_ERR_BUSY \/ rc = GRAVELDB_ERR_OOM).
Proof.
  intros Hc Hi Hroom He. destruct (put_overlay_spec entries st m Hi Hroom He) as (rc & st' & k & E & H).
  exists rc, st', k. split; [|done]. unfold dimbin_put_batch. destruct entries as [|e entries]; [done|].
  unfold get_bin, gets, bindM. cbn [res_bind fst snd]. by rewrite Hc.
Qed.

End ops.

(** ** Witnesses *)

Definition ops_bin (c : bool) (ob : OverlayBuffer (SlabPool * Mem)) : DimBin (SlabPool * Mem) :=
  mkDimBin 1 4096 4 1024 3 4 None None 5 (Some [2; 4]) 1024 zero_dirty zero_wb t_three ob c false 0 None 5 1 0 8192 8192.
Definition ops_state (c : bool) (ob : OverlayBuffer (SlabPool * Mem)) : BinSt (SlabPool * Mem) :=
  mkBinSt (ops_bin c ob) (mkSys (<[3 := []]> (<[4 := []]> ∅)) ∅ [-1] [] ∅).

Lemma ops_entries c ob : entries_ok (bin (ops_state c ob)) [1; 3].
Proof.
  exists [2; 4]. split; [done|]. split; [apply (bool_decide_unpack _); vm_compute; done|]. split; [|split; [simpl; lia|vm_compute; congruence]].
  intros e He. simpl in He. repeat (apply elem_of_cons in He as [->|He]; [simpl; lia|]). by apply elem_of_nil in He.
Qed.

Lemma dimbin_entries_distinct_witness :
  let st := ops_state false zero_overlay in
  (exists st', dimbin_alloc_entry st = Ret (2, st') /\ ~ (2 ∈ [1; 3]) /\ entries_ok (bin st') [2; 1; 3] /\ free_list (bin st') = Some [4]) /\
  exists st', dimbin_free_entry 1 st = Ret (tt, st') /\ entries_ok (bin st') [3] /\
    (free_list (bin st') = Some [1; 2; 4] /\ kbt_inv (key_buf (bin st')) (<[1 := 0]> m_three) \/
     bin st' = bin st /\ 1024 <= 2 /\ exists y, sys_ok (sys st) = Ret (false, y)).
Proof.
  intros st. destruct (dimbin_entries_distinct st [1; 3] 1 m_three) as [H1 H2]; [apply ops_entries|simpl; lia|apply t_three_inv|done| |simpl; lia|].
  - vm_compute. congruence.
  - split; [exact H1|]. exact (H2 [3] eq_refl).
Defined.

Lemma dimbin_put_batch_isolated_witness :
  let st := ops_state true start_overlay in
  exists rc st' k, dimbin_put_batch [(1, [1; 1; 1; 1]); (3, [2; 2; 2; 2])] st = Ret (rc, st') /\ isolated st st' /\
    ov_inv (overlay (bin st')) (put_entries 4 ∅ (take k [(1, [1; 1; 1; 1]); (3, [2; 2; 2; 2])])) /\
    (rc = GRAVELDB_OK /\ take k [(1, [1; 1; 1; 1]); (3, [2; 2; 2; 2])] = [(1, [1; 1; 1; 1]); (3, [2; 2; 2; 2])] \/
     rc = GRAVELDB_ERR_BUSY \/ rc = GRAVELDB_ERR_OOM).
Proof.
  intros st. assert (ov_inv start_overlay ∅) as Hi.
  { destruct overlay_start as (ob & E & Hi & _). unfold start_overlay. by rewrite E. }
  apply (dimbin_put_batch_isolated st ∅ [(1, [1; 1; 1; 1]); (3, [2; 2; 2; 2])]); [done|exact Hi|vm_compute; congruence|].
  intros e He. repeat (apply elem_of_cons in He as [->|He]; [vm_compute; split; [split; congruence|congruence]|]). by apply elem_of_nil in He.
Defined.
