(* ===== verification/BinPut.v ===== *)
(** BinPut: a batched write is seen by every later read.

    What a reader of a bin sees of an entry, [bin_entry], is the buffered page when
    the page is in the write buffer and the data file otherwise. [dimbin_put_batch]
    of src/dimbin.c replaces the entries of the batch and no others, through the
    page buffers or, when there is no memory for one, through the file. *)

From S2P Require Import Prelude LinearProbe Wire SlabAlloc Overlay DirtyTracker KeyBTree IoBatch PageMap DimBin BinKeys BinFlush BinOps.

#[local] Arguments file_write : simpl never.

(** ** Entries of a paged store *)

(** Entry [id] of the pages [V], as bytes. *)
Definition entry_of (esz epp : Z) (V : Z -> Z -> Z) (id : Z) : list Z :=
  (fun r => V (id / epp) (id mod epp * esz + r)) <$> seqZ 0 esz.

(** The entries after a write. *)
Definition set_entry (esz : Z) (E : Z -> list Z) (e : EmbWriteEntry) : Z -> list Z :=
  fun id => if id =? fst e then take (Z.to_nat esz) (snd e) else E id.

Lemma bytes_take esz (d : list Z) : 0 <= esz <= zlen d -> (fun r => default 0 (d !! Z.to_nat r)) <$> seqZ 0 esz = take (Z.to_nat esz) d.
Proof.
  intros H. apply list_eq. intros i. rewrite list_lookup_fmap. unfold zlen in H.
  destruct (decide (i < Z.to_nat esz)%nat) as [Hi|Hi].
  - rewrite lookup_take_lt by done. rewrite lookup_seqZ_lt by lia. simpl. rewrite Z.add_0_l, Nat2Z.id.
    destruct (lookup_lt_is_Some_2 d i) as [x ->]; [lia|]. done.
  - rewrite lookup_take_ge by lia. rewrite lookup_seqZ_ge by lia. done.
Qed.

(** A write of the bytes of one entry. *)
Lemma entry_of_write esz epp V V' (e : EmbWriteEntry) id :
  0 < epp -> 0 <= esz <= zlen (snd e) -> 0 <= fst e -> 0 <= id ->
  (forall r, 0 <= r < epp * esz -> V' (id / epp) r =
     if (id / epp =? fst e / epp) && (fst e mod epp * esz <=? r) && (r <? fst e mod epp * esz + esz)
     then default 0 (snd e !! Z.to_nat (r - fst e mod epp * esz)) else V (id / epp) r) ->
  entry_of esz epp V' id = set_entry esz (entry_of esz epp V) e id.
Proof.
  intros Hp Hz He Hid HV. unfold set_entry, entry_of. pose proof (Z.mod_pos_bound id epp Hp) as Hm. pose proof (Z.mod_pos_bound (fst e) epp Hp) as Hm'.
  assert (forall r, r ∈ seqZ 0 esz -> 0 <= r < esz) as Hr by (intros r Hr%elem_of_seqZ; lia).
  pose proof (Z.div_mod id epp) as D1. pose proof (Z.div_mod (fst e) epp) as D2.
  destruct (Z.eqb_spec id (fst e)) as [->|Hne].
  - rewrite <- bytes_take by done. apply list_fmap_ext. intros i r Hi. apply list_elem_of_lookup_2 in Hi. apply Hr in Hi.
    rewrite HV by nia. zdec. do 2 f_equal. lia.
  - apply list_fmap_ext. intros i r Hi. apply list_elem_of_lookup_2 in Hi. apply Hr in Hi.
    rewrite HV by nia. destruct (Z.eqb_spec (id / epp) (fst e / epp)) as [Eq|]; [|done].
    assert (id mod epp <> fst e mod epp) by nia. cbn [andb].
    destruct (Z.leb_spec (fst e mod epp * esz) (id mod epp * esz + r)); [|done]. cbn [andb].
    destruct (Z.ltb_spec (id mod epp * esz + r) (fst e mod epp * esz + esz)); [|done]. exfalso. nia.
Qed.

(** Writes in a row: the last one of an entry counts. *)
Lemma set_entries_lookup esz (l : list EmbWriteEntry) E id :
  foldl (set_entry esz) E l id = default (E id) (put_entries esz ∅ l !! id).
Proof.
  assert (forall m, foldl (set_entry esz) (fun id => default (E id) (m !! id)) l id = default (E id) (put_entries esz m l !! id)) as H.
  { induction l as [|e l IH] using rev_ind; intros m; [done|]. unfold put_entries in *. rewrite !foldl_app. cbn [foldl].
    unfold set_entry at 1. destruct (Z.eqb_spec id (fst e)) as [->|Hne].
    - by rewrite lookup_insert_eq.
    - rewrite lookup_insert_ne by done. apply IH. }
  rewrite <- H. f_equal.
Qed.

(** The order of the batch does not matter between entries of different pages. *)
Lemma put_entries_sorted esz epp (l : list EmbWriteEntry) m :
  put_entries esz m (sort_by_page epp l) = put_entries esz m l.
Proof.
  set (ins := fun m (e : EmbWriteEntry) => <[fst e := take (Z.to_nat esz) (snd e)]> m : gmap Z (list Z)).
  assert (forall e d, foldr (fun e m => ins m e) m (sort_insert epp e d) = ins (foldr (fun e m => ins m e) m d) e) as Hins.
  { intros e d. induction d as [|x d IH]; [done|]. cbn [sort_insert]. destruct (Z.ltb_spec (fst e / epp) (fst x / epp)) as [Hl|Hl]; [|done].
    cbn [foldr]. rewrite IH. unfold ins. apply insert_insert_ne. intros E. rewrite E in Hl. lia. }
  assert (forall d, foldl ins m (reverse d) = foldr (fun e m => ins m e) m d) as Hrev.
  { intros d. induction d as [|x d IH]; [done|]. rewrite reverse_cons, foldl_app. cbn [foldl foldr]. by rewrite IH. }
  unfold put_entries, sort_by_page. change (foldl (fun m e => _) m) with (foldl ins m).
  assert (forall d, foldl ins m (reverse (foldl (fun done e => sort_insert epp e done) d l)) = foldl ins (foldl ins m (reverse d)) l) as H.
  { induction l as [|e l IH]; intros d; [done|]. cbn [foldl]. rewrite IH. f_equal.
    rewrite !Hrev. apply Hins. }
  rewrite H. done.
Qed.

(** ** The groups of a batch *)

(** What keeps two entries in one group. *)
Definition page_eq (epp : Z) (a b : EmbWriteEntry) : bool := fst b / epp =? fst a / epp.

(** The page of a group. *)
Definition group_page (epp : Z) (g : list EmbWriteEntry) : Z := match g with e :: _ => fst e / epp | [] => 0 end.

(** The entries of a run have the page of its first one. *)
Lemma runs_same_page epp (l : list EmbWriteEntry) g e x :
  g ∈ runs (page_eq epp) l -> e ∈ g -> head g = Some x -> fst e / epp = fst x / epp.
Proof.
  apply (runs_key (page_eq epp) (fun e => fst e / epp)). intros a b. apply Z.eqb_eq.
Qed.

Definition page_le (epp : Z) (a b : EmbWriteEntry) : Prop := fst a / epp <= fst b / epp.

Lemma sort_insert_elem epp e d x : x ∈ sort_insert epp e d <-> x = e \/ x ∈ d.
Proof.
  induction d as [|y d IH]; [simpl; rewrite list_elem_of_singleton, elem_of_nil; tauto|]. simpl.
  destruct (_ <? _); rewrite !elem_of_cons, ?IH, ?elem_of_cons; tauto.
Qed.

Lemma sort_insert_len epp e d : List.length (sort_insert epp e d) = S (List.length d).
Proof. induction d as [|y d IH]; [done|]. simpl. destruct (_ <? _); simpl; congruence. Qed.

Lemma sort_by_page_len epp (l : list EmbWriteEntry) : zlen (sort_by_page epp l) = zlen l.
Proof.
  unfold sort_by_page, zlen. rewrite length_reverse. f_equal.
  assert (forall d, List.length (foldl (fun done e => sort_insert epp e done) d l) = (List.length d + List.length l)%nat) as ->; [|done].
  induction l as [|e l IH]; intros d; simpl; [lia|]. rewrite IH, sort_insert_len. lia.
Qed.

Lemma sort_insert_sorted epp e d : StronglySorted (flip (page_le epp)) d -> StronglySorted (flip (page_le epp)) (sort_insert epp e d).
Proof.
  induction 1 as [|x d Hs IH Hall]; [repeat constructor|]. simpl. destruct (Z.ltb_spec (fst e / epp) (fst x / epp)).
  - constructor; [done|]. apply Forall_forall. intros y [->|Hy]%sort_insert_elem; [unfold flip, page_le; lia|].
    rewrite Forall_forall in Hall. by apply Hall.
  - constructor; [by constructor|]. rewrite Forall_forall in *. intros y [->|Hy]%elem_of_cons; [unfold flip, page_le; lia|].
    specialize (Hall y Hy). unfold flip, page_le in *. lia.
Qed.

Lemma sorted_reverse {A} (R : A -> A -> Prop) l : StronglySorted (flip R) l -> StronglySorted R (reverse l).
Proof.
  induction 1 as [|x l Hs IH Hall]; [constructor|]. rewrite reverse_cons. apply StronglySorted_app_2; [|done|repeat constructor].
  intros y z Hy ->%list_elem_of_singleton. rewrite elem_of_reverse in Hy. rewrite Forall_forall in Hall. exact (Hall y Hy).
Qed.

Lemma sort_by_page_sorted epp l : StronglySorted (page_le epp) (sort_by_page epp l) /\ forall x, x ∈ sort_by_page epp l <-> x ∈ l.
Proof.
  unfold sort_by_page. assert (forall d, StronglySorted (flip (page_le epp)) d ->
    StronglySorted (flip (page_le epp)) (foldl (fun done e => sort_insert epp e done) d l) /\
    forall x, x ∈ foldl (fun done e => sort_insert epp e done) d l <-> x ∈ d \/ x ∈ l) as H.
  { induction l as [|e l IH]; intros d Hd; [simpl; split; [done|]; intros; rewrite elem_of_nil; tauto|]. simpl.
    destruct (IH (sort_insert epp e d)) as [H1 H2]; [by apply sort_insert_sorted|]. split; [done|]. intros x.
    rewrite H2, sort_insert_elem, elem_of_cons. tauto. }
  destruct (H [] ltac:(constructor)) as [H1 H2]. split; [by apply sorted_reverse|]. intros x. rewrite elem_of_reverse, H2, elem_of_nil. tauto.
Qed.

(** The runs of a list that is sorted by a key have different keys. *)
Lemma runs_keys_nodup {A} (key : A -> Z) (l : list A) :
  StronglySorted (fun a b => key a <= key b) l ->
  NoDup ((fun g => match g with e :: _ => key e | [] => 0 end) <$> runs (fun a b => key b =? key a) l).
Proof.
  set (ok := fun a b => key b =? key a).
  induction 1 as [|x l Hs IH Hall]; [constructor|]. simpl. destruct l as [|z l]; [simpl; constructor; [apply not_elem_of_nil|constructor]|].
  destruct (runs_cons_ne ok z l) as (r & rs & E). rewrite E in *. destruct (ok x z) eqn:Ek.
  - apply Z.eqb_eq in Ek. rewrite !fmap_cons in *. simpl in *. by rewrite <- Ek.
  - apply Z.eqb_neq in Ek. rewrite fmap_cons. constructor; [|done].
    intros (g & Eg & Hg)%list_elem_of_fmap. simpl in Eg. rewrite <- E in Hg.
    assert (forall y, y ∈ z :: l -> key z <= key y) as Hz.
    { intros y [->|Hy]%elem_of_cons; [lia|]. apply StronglySorted_inv in Hs as [_ Hf]. rewrite Forall_forall in Hf. by apply Hf. }
    rewrite Forall_forall in Hall. pose proof (Hall z ltac:(set_solver)) as H1.
    destruct g as [|y g].
    { by apply runs_nonempty in Hg. }
    assert (y ∈ z :: l) as Hy by (apply (runs_elem ok _ (y :: g)); [done|set_solver]). apply Hz in Hy. simpl in Eg. lia.
Qed.

(** The runs of a sorted batch are on different pages. *)
Lemma runs_pages_nodup epp (l : list EmbWriteEntry) :
  StronglySorted (page_le epp) l -> NoDup (group_page epp <$> runs (page_eq epp) l).
Proof. exact (runs_keys_nodup (fun e => fst e / epp) l). Qed.

(** ** What a reader sees *)

(** The pool has memory for [n] objects. *)
Fixpoint pool_grants {P : Type} `{!ObjectPool P} (n : nat) (p : P) : Prop :=
  match n with
  | O => True
  | S n => exists ptr p', pool_alloc p = Ret (ptr, p') /\ ptr <> 0 /\ pool_grants n p'
  end.

Lemma pool_grants_less {P : Type} `{!ObjectPool P} n (p : P) : pool_grants (S n) p -> pool_grants n p.
Proof. revert p. induction n as [|n IH]; intros p (ptr & p' & E & Hn & Hg); [done|]. exists ptr, p'. split_and!; [done..|by apply IH]. Qed.
Lemma pool_grants_le {P : Type} `{!ObjectPool P} n k (p : P) : (k <= n)%nat -> pool_grants n p -> pool_grants k p.
Proof. induction 1 as [|n Hle IH]; [done|]. intros H. by apply IH, pool_grants_less. Qed.

Section put.
Context {P : Type} `{!ObjectPool P}.
Implicit Types st : BinSt P.

(** The buffers of other bins, which have the same allocator, and their content. *)
Variables (others : Z -> Prop) (theirs : gmap Z (list Z)).

(** Byte [r] of page [pg]: from the write buffer if the page is there, from the
    data file otherwise. *)
Definition page_view st (pg r : Z) : Z :=
  match List.find (fun x => page_id x =? pg) (default [] (wslots (write_buf (bin st)))) with
  | Some x => default 0 (default [] (bufs (sys st) !! pdata x) !! Z.to_nat r)
  | None => file_byte (default [] (files (sys st) !! fd (bin st))) (pg * page_size (bin st) + r)
  end.

Definition bin_entry st (id : Z) : list Z := entry_of (entry_size (bin st)) (entries_per_page (bin st)) (page_view st) id.

(** The addresses of the page buffers, in use and recycled. *)
Definition buf_addrs st (sl : list PageSlot) : list Z := (pdata <$> List.filter occ sl) ++ page_pool (write_buf (bin st)).

(** A bin that is ready for writes: a well-formed page table [sl] over distinct
    buffers, which the allocator knows, and entries that fit in a page. *)
Record put_st st (sl : list PageSlot) (f : list Z) : Prop := {
  ps_buf : buf_st st sl;
  ps_quiet : answers (sys st) = [];
  ps_file : files (sys st) !! fd (bin st) = Some f;
  ps_cap : 4 <= zlen sl <= 2 ^ 28;
  ps_alloc : exists al A, allocator (bin st) = Some al /\ pool_owns al A /\ (forall a, a ∈ buf_addrs st sl -> a ∈ A) /\
               forall a, others a -> a ∈ A /\ ~ (a ∈ buf_addrs st sl);
  ps_others : forall a, others a -> bufs (sys st) !! a = theirs !! a;
  ps_nodup : NoDup (buf_addrs st sl);
  ps_nz : forall a, a ∈ buf_addrs st sl -> a <> 0;
  ps_esz : 0 < entry_size (bin st);
  ps_epp : 0 < entries_per_page (bin st) < 2 ^ 31;
  ps_fit : entries_per_page (bin st) * entry_size (bin st) <= page_size (bin st) < 2 ^ 32
}.

(** The parts of a bin a write leaves alone: all but the write buffer, the
    allocator, the dirty pages and the request for a flush. *)
Definition touched st st' : Prop :=
  exists wb al dt fl, bin st' = set_flush_needed (set_dirty (set_allocator (set_write_buf (bin st) wb) al) dt) fl /\
    max_pages wb = max_pages (write_buf (bin st)).

Lemma touched_refl st st' : bin st' = bin st -> touched st st'.
Proof. intros E. exists (write_buf (bin st)), (allocator (bin st)), (dirty (bin st)), (flush_needed (bin st)). rewrite E. by destruct (bin st). Qed.

Lemma touched_trans st st1 st2 : touched st st1 -> touched st1 st2 -> touched st st2.
Proof.
  intros (w1 & a1 & d1 & l1 & E1 & M1) (w2 & a2 & d2 & l2 & E2 & M2). exists w2, a2, d2, l2. rewrite E2, M2, E1. split; [by destruct (bin st)|]. simpl. congruence.
Qed.

Lemma view_stored st sl f x r : put_st st sl f -> stored sl x -> page_view st (page_id x) r = default 0 (default [] (bufs (sys st) !! pdata x) !! Z.to_nat r).
Proof.
  intros Hp Hx. unfold page_view. rewrite (bs_slots _ _ (ps_buf _ _ _ Hp)). change (default [] (Some ?l)) with l.
  assert (uniq sl) as Hu by apply (bs_inv _ _ (ps_buf _ _ _ Hp)).
  destruct (List.find _ sl) as [y|] eqn:E.
  - apply List.find_some in E as [Hy%list_elem_of_In Ek%Z.eqb_eq]. apply elem_rd in Hy as [i Hi].
    by rewrite (probe_found_uniq sl (page_id x) i y x Hu Hx eq_refl Hi Ek).
  - destruct Hx as [Hin _]. apply list_elem_of_In in Hin. eapply List.find_none in E; [|done]. simpl in E. by rewrite Z.eqb_refl in E.
Qed.

Lemma view_absent st sl f pg r : put_st st sl f -> absent sl pg -> 0 <= pg < UINT32_MAX -> page_view st pg r = file_byte f (pg * page_size (bin st) + r).
Proof.
  intros Hp Ha Hpg. unfold page_view. rewrite (bs_slots _ _ (ps_buf _ _ _ Hp)), (ps_file _ _ _ Hp). change (default [] (Some ?l)) with l.
  destruct (List.find _ sl) as [y|] eqn:E; [|done]. apply List.find_some in E as [Hy%list_elem_of_In Ek%Z.eqb_eq].
  destruct (Ha y); [|exact Ek]. split; [done|]. apply occ_true. simpl. unfold PAGE_SLOT_EMPTY. lia.
Qed.

(** Every page is in the table or not. *)
Lemma stored_or_absent sl pg : (exists x : PageSlot, stored sl x /\ page_id x = pg) \/ absent sl pg.
Proof.
  destruct (List.find (fun x => occ x && (page_id x =? pg)) sl) as [y|] eqn:E.
  - apply List.find_some in E as [Hy%list_elem_of_In [Ho Ek%Z.eqb_eq]%andb_true_iff]. left. by exists y.
  - right. intros x [Hin%list_elem_of_In Ho] Ek. eapply List.find_none in E; [|done]. simpl in E. simpl in Ek. by rewrite Ho, Ek, Z.eqb_refl in E.
Qed.

(** ** Writing into a buffered page *)

Lemma addr_in_use st sl x : stored sl x -> pdata x ∈ buf_addrs st sl.
Proof. intros Hx. unfold buf_addrs. rewrite elem_of_app. left. apply list_elem_of_fmap_2. exact (proj1 (stored_filter _ _) Hx). Qed.

(** Different pages have different buffers. *)
Lemma addr_inj st sl f x y : put_st st sl f -> stored sl x -> stored sl y -> pdata x = pdata y -> x = y.
Proof.
  intros Hp Hx Hy E. pose proof (ps_nodup _ _ _ Hp) as Hnd. unfold buf_addrs in Hnd. apply NoDup_app in Hnd as (Hnd & _).
  rewrite stored_filter in Hx, Hy. apply list_elem_of_lookup in Hx as [i Hi], Hy as [j Hj].
  assert (i = j) as ->; [|congruence]. eapply NoDup_lookup; [exact Hnd| |]; rewrite list_lookup_fmap; [by rewrite Hi|]. rewrite Hj. simpl. by rewrite E.
Qed.

(** The state after [memcpy] of [d] to offset [off] of the buffer of [x]. *)
Definition poked st (x : PageSlot) (off : Z) (d b : list Z) : BinSt P :=
  mkBinSt (bin st) (set_bufs (sys st) (<[pdata x := splice b off d]> (bufs (sys st)))).

Lemma poked_put st sl f x off d b :
  put_st st sl f -> stored sl x -> bufs (sys st) !! pdata x = Some b -> 0 <= off -> off + zlen d <= page_size (bin st) ->
  put_st (poked st x off d b) sl f.
Proof.
  intros Hp Hx Hb Ho Hd. destruct Hp as [[B1 B2 B3 B4 B5 B6 B7] H2 H3 H4 H5 Hoth H6 H7 H8 H9 H10]. split; try done; cycle 1.
  { intros a Ha. unfold poked. simpl. rewrite lookup_insert_ne; [by apply Hoth|]. intros <-. destruct H5 as (al & A & _ & _ & _ & Hdis). by apply (Hdis _ Ha), addr_in_use. }
  split; try done.
  intros y Hy. split; [by apply B7|]. unfold poked. simpl. destruct (B7 y Hy) as (_ & by' & Hby & Hzy).
  destruct (decide (pdata x = pdata y)) as [E|E].
  - rewrite <- E, lookup_insert_eq. eexists. split; [done|]. rewrite E, Hby in Hb. injection Hb as <-.
    unfold splice, zlen in *. rewrite !length_app, length_take, length_drop. lia.
  - rewrite lookup_insert_ne by done. eauto.
Qed.

Lemma poked_view st sl f x off d b q r :
  put_st st sl f -> stored sl x -> bufs (sys st) !! pdata x = Some b -> 0 <= off -> off + zlen d <= page_size (bin st) -> 0 <= r ->
  0 <= q < UINT32_MAX ->
  page_view (poked st x off d b) q r =
  if (q =? page_id x) && (off <=? r) && (r <? off + zlen d) then default 0 (d !! Z.to_nat (r - off)) else page_view st q r.
Proof.
  intros Hp Hx Hb Ho Hd Hr Hq. pose proof (poked_put st sl f x off d b Hp Hx Hb Ho Hd) as Hp'.
  assert (zlen b = page_size (bin st)) as Hz. { destruct (bs_bufs _ _ (ps_buf _ _ _ Hp) x Hx) as (_ & b' & E & Hz). congruence. }
  destruct (stored_or_absent sl q) as [(y & Hy & <-)|Ha].
  - rewrite (view_stored _ _ _ y r Hp' Hy), (view_stored _ _ _ y r Hp Hy). unfold poked. simpl. destruct (Z.eqb_spec (page_id y) (page_id x)) as [E|E].
    + assert (y = x) as ->. { destruct Hx as [Hx1 Hx2]. apply elem_rd in Hx1 as [i Hi]. apply (probe_found_uniq sl (page_id x) i); try done. apply (bs_inv _ _ (ps_buf _ _ _ Hp)). }
      rewrite lookup_insert_eq, Hb. change (default [] (Some ?l)) with l. cbn [andb]. unfold splice, zlen in *.
      assert (length (take (Z.to_nat off) b) = Z.to_nat off) as Hl by (rewrite length_take; lia).
      destruct (Z.leb_spec off r); cbn [andb].
      * rewrite lookup_app_r by lia. rewrite Hl. replace (Z.to_nat r - Z.to_nat off)%nat with (Z.to_nat (r - off)) by lia.
        destruct (Z.ltb_spec r (off + Z.of_nat (length d))); [by rewrite lookup_app_l by lia|].
        rewrite lookup_app_r by lia. rewrite lookup_drop. do 2 f_equal. lia.
      * rewrite lookup_app_l by lia. by rewrite lookup_take_lt by lia.
    + cbn [andb]. rewrite lookup_insert_ne; [done|]. intros E'. apply E. symmetry. f_equal. by apply (addr_inj st sl f).
  - rewrite (view_absent _ _ _ q r Hp' Ha Hq), (view_absent _ _ _ q r Hp Ha Hq). unfold poked. simpl.
    destruct (Z.eqb_spec q (page_id x)) as [E|E]; [|done]. by destruct (Ha x Hx).
Qed.

(** The bounds of an entry of a batch. *)
Definition entry_fits st (e : EmbWriteEntry) : Prop :=
  0 <= fst e < UINT32_MAX /\ entry_size (bin st) <= zlen (snd e).

Lemma set_entries_ext esz (l : list EmbWriteEntry) E E' id : E id = E' id -> foldl (set_entry esz) E l id = foldl (set_entry esz) E' l id.
Proof. intros H. rewrite !set_entries_lookup. by rewrite H. Qed.

Lemma page_range st sl f e : put_st st sl f -> entry_fits st e -> 0 <= fst e / entries_per_page (bin st) < UINT32_MAX.
Proof. intros Hp [He _]. pose proof (ps_epp _ _ _ Hp). split; [apply Z.div_pos; lia|]. apply Z.div_lt_upper_bound; [lia|]. unfold UINT32_MAX in *. nia. Qed.

(** One entry goes to its place in the buffer of its page. *)
Lemma poke_entry st sl f x (e : EmbWriteEntry) :
  put_st st sl f -> stored sl x -> entry_fits st e -> fst e / entries_per_page (bin st) = page_id x ->
  exists st', bindM (lift (entry_bytes (bin st) (snd e)))
                (fun b => onsys (buf_write (pdata x) (u32 (fst e mod u32 (entries_per_page (bin st)) * u32 (entry_size (bin st)))) b)) st = Ret (tt, st') /\
    put_st st' sl f /\ bin st' = bin st /\ files (sys st') = files (sys st) /\
    forall id, 0 <= id < UINT32_MAX -> bin_entry st' id = set_entry (entry_size (bin st)) (bin_entry st) e id.
Proof.
  intros Hp Hx [He Hd] Hpg. pose proof (ps_esz _ _ _ Hp) as Hes. pose proof (ps_epp _ _ _ Hp) as Hep. pose proof (ps_fit _ _ _ Hp) as Hfit.
  set (esz := entry_size (bin st)) in *. set (epp := entries_per_page (bin st)) in *.
  destruct (bs_bufs _ _ (ps_buf _ _ _ Hp) x Hx) as (_ & b & Hb & Hz). pose proof (Z.mod_pos_bound (fst e) epp ltac:(lia)) as Hm.
  assert (0 <= fst e mod epp * esz /\ fst e mod epp * esz + esz <= page_size (bin st)) as [Ho1 Ho2] by nia.
  rewrite (u32_id epp) by lia. rewrite (u32_id esz) by nia. rewrite (u32_id (_ * _)) by lia. set (off := fst e mod epp * esz) in *.
  set (d := take (Z.to_nat esz) (snd e)). assert (zlen d = esz) as Hdl by (unfold d, zlen in *; rewrite length_take; lia).
  assert (off + zlen d <= page_size (bin st)) as Hod by lia.
  exists (poked st x off d b). unfold entry_bytes. fold esz. rewrite (proj2 (Z.ltb_ge _ _)) by done. fold d.
  unfold bindM at 1. cbn [lift res_bind fst snd]. unfold onsys, buf_write, gets, bindM. cbn [res_bind fst snd]. rewrite Hb. cbn [deref lift res_bind fst snd].
  rewrite Hz, Hdl. zdec. split; [done|]. split; [by apply poked_put|]. split; [done|]. split; [done|].
  intros id Hid. unfold bin_entry. change (bin (poked st x off d b)) with (bin st). fold esz epp.
  apply entry_of_write; [lia|lia|lia|lia|]. intros r Hr.
  assert (0 <= id / epp < UINT32_MAX) as Hq. { split; [apply Z.div_pos; lia|]. apply Z.div_lt_upper_bound; [lia|]. unfold UINT32_MAX in *. nia. }
  rewrite (poked_view st sl f) by (done || lia). rewrite Hdl, Hpg. fold off.
  destruct ((id / epp =? page_id x) && (off <=? r) && (r <? off + esz)) eqn:E; [|done].
  apply andb_true_iff in E as [[_ E1%Z.leb_le]%andb_true_iff E2%Z.ltb_lt]. unfold d. by rewrite lookup_take_lt by lia.
Qed.

(** [s]: the bin the loop captured, with the entries' geometry. *)
Lemma poke_group (group : list EmbWriteEntry) st sl f x (s : DimBin P) :
  put_st st sl f -> stored sl x -> entry_size s = entry_size (bin st) -> entries_per_page s = entries_per_page (bin st) ->
  (forall e, e ∈ group -> entry_fits st e /\ fst e / entries_per_page (bin st) = page_id x) ->
  exists st', forM group (fun e => bindM (lift (entry_bytes s (snd e)))
                (fun b => onsys (buf_write (pdata x) (u32 (fst e mod u32 (entries_per_page s) * u32 (entry_size s))) b))) st = Ret (tt, st') /\
    put_st st' sl f /\ bin st' = bin st /\ files (sys st') = files (sys st) /\
    forall id, 0 <= id < UINT32_MAX -> bin_entry st' id = foldl (set_entry (entry_size (bin st))) (bin_entry st) group id.
Proof.
  intros Hp Hx Hs1 Hs2. revert st Hp Hs1 Hs2. induction group as [|e group IH]; intros st Hp Hs1 Hs2 Hg; [exists st; by split_and!|]. cbn [forM].
  destruct (Hg e) as [He1 He2]; [set_solver|]. destruct (poke_entry st sl f x e Hp Hx He1 He2) as (st1 & E1 & Hp1 & B1 & F1 & V1).
  destruct (IH st1 Hp1) as (st2 & E2 & Hp2 & B2 & F2 & V2); [by rewrite B1..| |].
  { intros e' He'. destruct (Hg e') as [H1 H2]; [set_solver|]. unfold entry_fits. by rewrite B1. }
  exists st2. assert (entry_bytes s (snd e) = entry_bytes (bin st) (snd e)) as Eb by (unfold entry_bytes; by rewrite Hs1).
  rewrite <- Eb, <- Hs1, <- Hs2 in E1. rewrite (bindM_ret _ _ _ _ _ E1). split; [done|]. split; [done|]. split; [congruence|]. split; [congruence|].
  intros id Hid. rewrite V2 by done. cbn [foldl]. rewrite B1. by apply set_entries_ext, V1.
Qed.

(** ** Getting the buffer of a page *)

(** The page can be loaded with what it holds: it is buffered, or committed (below the page of the bump
    pointer and inside the data file), or empty in the file. The page of the bump pointer, once it was
    flushed and evicted with entries on it, is none of these: [write_buf_ensure_page] zeroes it instead
    of reading it (dimbin.c:478), and its entries are lost. *)
Definition page_ready st (sl : list PageSlot) (f : list Z) (pg : Z) : Prop :=
  (exists x, stored sl x /\ page_id x = pg) \/
  (pg <? u32 (bump_ptr (bin st) / u32 (entries_per_page (bin st)))) && (pg * page_size (bin st) <? data_file_size (bin st)) = true \/
  (forall r, 0 <= r < page_size (bin st) -> file_byte f (pg * page_size (bin st) + r) = 0).

Lemma filter_insert_perm (sl : list PageSlot) h (e x : PageSlot) :
  rd sl h = Ret e -> occ e = false -> occ x = true -> List.filter occ (<[Z.to_nat h := x]> sl) ≡ₚ x :: List.filter occ sl.
Proof.
  intros He Hoe Hox. apply rd_ret in He as [Hh He]. rewrite insert_take_drop by (by eapply lookup_lt_Some).
  rewrite <- (take_drop_middle sl (Z.to_nat h) e He) at 3. rewrite !List.filter_app. simpl. rewrite Hoe, Hox.
  by rewrite Permutation_middle.
Qed.

Lemma view_same st st' sl sl' f q r :
  put_st st sl f -> put_st st' sl' f -> (forall t, stored sl' t <-> stored sl t) -> bufs (sys st') = bufs (sys st) ->
  page_size (bin st') = page_size (bin st) -> 0 <= q < UINT32_MAX -> page_view st' q r = page_view st q r.
Proof.
  intros Hp Hp' Hs Hb Hz Hq. destruct (stored_or_absent sl q) as [(x & Hx & <-)|Ha].
  - rewrite (view_stored st sl f), (view_stored st' sl' f), Hb by (done || by apply Hs). done.
  - rewrite (view_absent st sl f), (view_absent st' sl' f), Hz by (done || intros y Hy%Hs; by apply Ha). done.
Qed.

(** The page table grows when it is 70% full, so there is room for one more. *)
Lemma grow_page_map_spec st sl f :
  put_st st sl f ->
  exists wb sl1, let st1 := mkBinSt (set_write_buf (bin st) wb) (sys st) in
    grow_page_map st = Ret (true, st1) /\ put_st st1 sl1 f /\ (forall t, stored sl1 t <-> stored sl t) /\
    max_pages wb = max_pages (write_buf (bin st)) /\ page_pool wb = page_pool (write_buf (bin st)) /\
    countb occ sl1 = countb occ sl /\ countb occ sl1 + 1 < zlen sl1 /\ zlen sl1 <= 2 ^ 27 * 2.
Proof.
  intros Hp. pose proof Hp as [[B1 B2 B3 B4 B5 B6 B7] H2 H3 H4 H5 Hoth H6 H7 H8 H9 H10]. pose proof (countb_nonneg occ sl) as Hc0.
  assert (countb occ sl < zlen sl) as Hlt by apply B3.
  unfold grow_page_map, get_bin, gets. unfold bindM at 1. cbn [res_bind fst snd]. rewrite B2, B5. unfold GRAVELDB_MAX_FLUSH_BATCH in B6.
  rewrite (u32_id (zlen sl * 7)), (u32_id (countb occ sl * 10)) by lia.
  destruct (Z.leb_spec (zlen sl * 7) (countb occ sl * 10)) as [Hg|Hg].
  - rewrite (u32_id (zlen sl * 2)) by lia. unfold bindM at 1. unfold onsys at 1. rewrite sys_ok_quiet by done. cbn [res_bind fst snd].
    destruct (pagemap_grow_spec sl (zlen sl * 2)) as (sl1 & E & G1 & G2 & G3 & G4); [done|intros s Hs; by apply B7| |lia|].
    { apply pow2_cap_double. apply B3. }
    rewrite B1. unfold bindM at 1. rewrite E. cbn [lift res_bind fst snd]. unfold upd, modify, bindM. cbn [res_bind fst snd].
    eexists (set_pages (write_buf (bin st)) sl1 (zlen sl * 2) (wcount (write_buf (bin st)))), sl1. split; [by destruct st|].
    assert (forall a, a ∈ pdata <$> List.filter occ sl1 <-> a ∈ pdata <$> List.filter occ sl) as Hadr.
    { intros a. rewrite !list_elem_of_fmap. split; intros (x & -> & Hx); exists x; (split; [done|]); rewrite <- stored_filter in *; by apply G4. }
    split; [|split; [done|split; [done|split; [done|split; [done|split; lia]]]]].
    assert (length (List.filter occ sl1) = length (List.filter occ sl)) as Hlen by (unfold countb, zlen in G3; lia).
    assert (List.filter occ sl1 ≡ₚ List.filter occ sl) as HP.
    { apply submseteq_length_Permutation; [|lia]. apply NoDup_submseteq; [apply uniq_NoDup, G1|]. intros x Hx. rewrite <- stored_filter in *. by apply G4. }
    split; try done; [|simpl; lia|..].
    + split; simpl; try done; unfold GRAVELDB_MAX_FLUSH_BATCH; try lia. intros x Hx%G4. by apply B7.
    + destruct H5 as (al & A & E1 & E2 & E3 & E4). exists al, A. split; [done|]. split; [done|]. unfold buf_addrs in *. simpl.
      assert (forall a, a ∈ (pdata <$> List.filter occ sl1) ++ page_pool (write_buf (bin st)) <-> a ∈ (pdata <$> List.filter occ sl) ++ page_pool (write_buf (bin st))) as Hadr'
        by (intros a; by rewrite !elem_of_app, Hadr).
      split; intros a Ha; [by apply E3, Hadr'|]. rewrite Hadr'. by apply E4.
    + unfold buf_addrs in *. simpl. by rewrite HP.
    + intros a Ha. apply H7. unfold buf_addrs in *. simpl in Ha. rewrite elem_of_app in *. by rewrite Hadr in Ha.
  - exists (write_buf (bin st)), sl. assert (mkBinSt (set_write_buf (bin st) (write_buf (bin st))) (sys st) = st) as -> by (by destruct st as [[] ?]).
    split_and!; done || lia.
Qed.

(** What is loaded is what a reader sees. *)
Lemma load_page_spec st sl f pg :
  put_st st sl f -> 0 <= pg < UINT32_MAX -> absent sl pg -> page_ready st sl f pg ->
  exists b, load_page (bin st) pg (sys st) = Ret (b, sys st) /\ zlen b = page_size (bin st) /\
    forall r, 0 <= r < page_size (bin st) -> default 0 (b !! Z.to_nat r) = page_view st pg r.
Proof.
  intros Hp Hpg Ha Hr. pose proof (bs_psz _ _ (ps_buf _ _ _ Hp)) as Hps. unfold load_page.
  destruct (_ && _) eqn:E.
  - unfold bindM. rewrite (pread_quiet _ _ f) by apply Hp. cbn [res_bind fst snd ret]. eexists. split; [done|].
    set (b := take _ _). assert (length b <= Z.to_nat (page_size (bin st)))%nat as Hl by (unfold b; rewrite length_take; lia).
    split; [unfold zlen; rewrite length_app, length_replicate; lia|]. intros r Hrr. rewrite (view_absent st sl f) by done.
    unfold file_byte. destruct (decide (Z.to_nat r < length b)%nat) as [Hin|Hout].
    + rewrite lookup_app_l by done. unfold b. rewrite lookup_take_lt by lia. rewrite lookup_drop. do 2 f_equal. nia.
    + rewrite lookup_app_r by lia. rewrite lookup_replicate_2 by lia. rewrite lookup_ge_None_2; [done|].
      unfold b in Hout. rewrite length_take, length_drop in Hout. nia.
  - eexists. split; [done|]. split; [rewrite zlen_replicate; lia|]. intros r Hrr. rewrite lookup_replicate_2 by lia.
    rewrite (view_absent st sl f) by done. destruct Hr as [(x & Hx & Hk)|[Hr|Hr]]; [by destruct (Ha x)|congruence|]. by rewrite Hr.
Qed.

(** Memory for [k] more page buffers. *)
Definition grants st (k : nat) : Prop := forall al, allocator (bin st) = Some al -> pool_grants k al.

(** A page buffer from the free list or the allocator: none, or one that nothing
    else uses. *)
Lemma acquire_spec st sl f :
  put_st st sl f ->
  exists al, allocator (bin st) = Some al /\ exists mem wb al' y,
    write_buf_acquire_page (write_buf (bin st)) al (page_size (bin st)) (sys st) = Ret (mem, wb, al', y) /\
    wb = set_pool (write_buf (bin st)) (page_pool wb) (pool_capacity wb) /\ answers y = [] /\ files y = files (sys st) /\
    (forall k, pool_grants (S k) al -> mem <> 0 /\ pool_grants k al') /\
    (mem = 0 /\ y = sys st /\ put_st (mkBinSt (set_allocator (set_write_buf (bin st) wb) (Some al')) y) sl f \/
     mem <> 0 /\ (forall a, a <> mem -> bufs y !! a = bufs (sys st) !! a) /\ NoDup (mem :: (pdata <$> List.filter occ sl) ++ page_pool wb) /\
     (forall a, a ∈ page_pool wb -> a <> 0) /\
     exists A, pool_owns al' A /\ (forall a, a = mem \/ a ∈ (pdata <$> List.filter occ sl) ++ page_pool wb -> a ∈ A) /\
       forall a, others a -> a ∈ A /\ a <> mem /\ ~ (a ∈ (pdata <$> List.filter occ sl) ++ page_pool wb)).
Proof.
  intros Hp. pose proof Hp as [Hb H2 H3 H4 (al & A & Eal & Hown & Hin & Hout) Hoth H6 H7 H8 H9 H10]. exists al. split; [done|].
  unfold write_buf_acquire_page. destruct (page_pool (write_buf (bin st))) as [|buf pool] eqn:Epool.
  - destruct (pool_alloc_ok al A Hown) as (ptr & al' & E & Hres). unfold bindM at 1. rewrite E. cbn [lift res_bind fst snd].
    destruct Hres as [[-> Ho]|(Hnz & Hni & Ho)].
    + exists 0, (write_buf (bin st)), al', (sys st). split; [done|]. split; [by destruct (write_buf (bin st))|]. split; [done|]. split; [done|].
      split; [intros k (ptr & p' & E' & Hn & Hg); congruence|]. left.
      split; [done|]. split; [done|]. destruct Hb. split; try done. exists al', A. done.
    + rewrite (proj2 (Z.eqb_neq _ _)) by done. unfold modify, bindM. cbn [res_bind fst snd ret].
      eexists ptr, (write_buf (bin st)), al', _. split; [done|]. split; [by destruct (write_buf (bin st))|]. split; [done|]. split; [done|].
      split; [intros k (ptr' & p' & E' & Hn & Hg); split; [done|congruence]|]. right.
      split; [done|]. split; [intros a Ha; simpl; by rewrite lookup_insert_ne|]. unfold buf_addrs in *. rewrite Epool in *.
      split; [constructor; [intros Hx; by apply Hni, Hin|done]|]. split; [intros a Ha; apply H7; set_solver|].
      exists (ptr :: A). split; [done|]. split; [intros a [->|Ha]; [set_solver|]; apply elem_of_cons; right; by apply Hin|].
      intros a Ha. destruct (Hout a Ha) as [Ha1 Ha2]. split; [set_solver|]. split; [by intros ->|done].
  - eexists buf, _, al, (sys st). split; [done|]. split; [done|]. split; [done|]. split; [done|].
    split; [intros k Hg; split; [apply H7; unfold buf_addrs; rewrite Epool; set_solver|by apply pool_grants_less]|]. right. simpl. unfold buf_addrs in *. rewrite Epool in *.
    split; [apply H7; set_solver|]. split; [done|]. split; [by rewrite Permutation_middle|]. split; [intros a Ha; apply H7; set_solver|].
    exists A. split; [done|]. split; [intros a [->|Ha]; apply Hin; set_solver|].
    intros a Ha. destruct (Hout a Ha) as [Ha1 Ha2]. split; [done|]. split; [intros ->; apply Ha2; set_solver|]. intros Hx. apply Ha2. set_solver.
Qed.

(** The state with a new page [pg] in the buffer [mem]. *)
Lemma insert_page_put st sl f pg h e mem b wb al' y :
  put_st st sl f -> 0 <= pg < UINT32_MAX -> rd sl h = Ret e -> page_id e = PAGE_SLOT_EMPTY -> absent sl pg -> path_other sl pg h ->
  countb occ sl + 1 < zlen sl -> countb occ sl < GRAVELDB_MAX_FLUSH_BATCH ->
  wb = set_pool (write_buf (bin st)) (page_pool wb) (pool_capacity wb) -> answers y = [] -> files y = files (sys st) ->
  mem <> 0 -> (forall a, a <> mem -> bufs y !! a = bufs (sys st) !! a) -> NoDup (mem :: (pdata <$> List.filter occ sl) ++ page_pool wb) ->
  (forall a, a ∈ page_pool wb -> a <> 0) ->
  (exists A, pool_owns al' A /\ (forall a, a = mem \/ a ∈ (pdata <$> List.filter occ sl) ++ page_pool wb -> a ∈ A) /\
     forall a, others a -> a ∈ A /\ a <> mem /\ ~ (a ∈ (pdata <$> List.filter occ sl) ++ page_pool wb)) ->
  zlen b = page_size (bin st) ->
  let sl' := <[Z.to_nat h := mkPageSlot pg mem]> sl in
  put_st (mkBinSt (set_write_buf (set_allocator (set_write_buf (bin st) wb) (Some al')) (set_pages wb sl' (wcapacity wb) (u32 (wcount wb + 1))))
                  (set_bufs y (<[mem := b]> (bufs y)))) sl' f /\
  countb occ sl' = countb occ sl + 1 /\ (forall t, stored sl' t <-> t = mkPageSlot pg mem \/ stored sl t).
Proof.
  intros Hp Hpg He Hk Ha Hpath Hroom Hbatch Ewb Hy Hf Hm Hbufs Hnd Hnz (A & Hown & HA & Hout) Hbl sl'.
  pose proof Hp as [[B1 B2 B3 B4 B5 B6 B7] H2 H3 H4 H5 Hoth H6 H7 H8 H9 H10].
  destruct (pagemap_insert_spec sl (mkPageSlot pg mem) h e B3 He Hk Hpg Ha Hpath) as (Hl & Ht & Hr & Hu & Hc & Hst). fold sl' in Hl, Ht, Hr, Hu, Hc, Hst.
  assert (List.filter occ sl' ≡ₚ mkPageSlot pg mem :: List.filter occ sl) as HP.
  { apply (filter_insert_perm sl h e); [done|by apply occ_false|]. apply occ_true. simpl. unfold PAGE_SLOT_EMPTY. lia. }
  assert (wcount wb = countb occ sl /\ wcapacity wb = zlen sl) as [Ec1 Ec2] by (rewrite Ewb; done).
  pose proof (countb_nonneg occ sl) as Hc0. unfold GRAVELDB_MAX_FLUSH_BATCH in Hbatch.
  assert (forall a, a ∈ (pdata <$> List.filter occ sl') ++ page_pool wb <-> a = mem \/ a ∈ (pdata <$> List.filter occ sl) ++ page_pool wb) as Hadr.
  { intros a. rewrite HP, fmap_cons. simpl. by rewrite elem_of_cons. }
  split; [|split; [lia|done]]. split; simpl; try done.
  - split; simpl; try done.
    + by rewrite Ec2, Hl.
    + split; [done|]. split; [done|]. split; [done|]. lia.
    + rewrite Ec1, u32_id by lia. lia.
    + unfold GRAVELDB_MAX_FLUSH_BATCH. lia.
    + intros x [->|Hx]%Hst; [split; [done|]; simpl; rewrite lookup_insert_eq; eauto|]. destruct (B7 x Hx) as (Hxr & bx & E1 & E2). split; [done|].
      assert (pdata x <> mem) as Hxm. { intros Ex. apply NoDup_cons in Hnd as [Hni _]. apply Hni. rewrite elem_of_app. left. rewrite <- Ex. apply list_elem_of_fmap_2. exact (proj1 (stored_filter _ _) Hx). }
      exists bx. rewrite lookup_insert_ne by done. rewrite Hbufs by done. done.
  - by rewrite Hf.
  - lia.
  - exists al', A. split; [done|]. split; [done|]. split; [intros a Hx; apply HA; by apply Hadr|]. intros a Hz. destruct (Hout a Hz) as (Ha1 & Ha2 & Ha3).
    split; [done|]. unfold buf_addrs. simpl. rewrite Hadr. tauto.
  - intros a Hz. destruct (Hout a Hz) as (_ & Ha2 & _). rewrite lookup_insert_ne by done. rewrite Hbufs by done. by apply Hoth.
  - unfold buf_addrs. simpl. by rewrite HP, fmap_cons.
  - intros a Hx. unfold buf_addrs in Hx. simpl in Hx. apply Hadr in Hx as [->|Hx]; [done|]. apply elem_of_app in Hx as [Hx|Hx]; [|by apply Hnz].
    apply H7. unfold buf_addrs. set_solver.
Qed.

(** What getting a page buffer leaves as it was. *)
Definition page_kept st sl st' sl' : Prop :=
  touched st st' /\ dirty (bin st') = dirty (bin st) /\ files (sys st') = files (sys st) /\
  countb occ sl' <= countb occ sl + 1 /\ (forall t, stored sl t -> stored sl' t) /\
  (forall q r, 0 <= q < UINT32_MAX -> 0 <= r < page_size (bin st) -> page_view st' q r = page_view st q r).

Lemma new_page_view st sl f st' sl' pg mem b q r :
  put_st st sl f -> put_st st' sl' f -> absent sl pg -> (forall t, stored sl' t <-> t = mkPageSlot pg mem \/ stored sl t) ->
  bufs (sys st') !! mem = Some b -> (forall x, stored sl x -> bufs (sys st') !! pdata x = bufs (sys st) !! pdata x) ->
  (forall r, 0 <= r < page_size (bin st) -> default 0 (b !! Z.to_nat r) = page_view st pg r) ->
  page_size (bin st') = page_size (bin st) -> 0 <= q < UINT32_MAX -> 0 <= r < page_size (bin st) -> page_view st' q r = page_view st q r.
Proof.
  intros Hp Hp' Ha Hst Hm Hbufs Hb Hz Hq Hr. destruct (stored_or_absent sl q) as [(x & Hx & <-)|Hq'].
  - rewrite (view_stored st sl f), (view_stored st' sl' f) by (done || apply Hst; by right). by rewrite Hbufs.
  - destruct (decide (q = pg)) as [->|Hne].
    + change pg with (page_id (mkPageSlot pg mem)) at 1. rewrite (view_stored st' sl' f) by (done || apply Hst; by left). simpl. rewrite Hm. by apply Hb.
    + rewrite (view_absent st sl f), (view_absent st' sl' f), Hz; try done. intros x [->|Hx]%Hst; [by intros E; apply Hne|]. by apply Hq'.
Qed.

(** The address of the page's buffer; [0] when there is no memory for one. *)
Lemma ensure_page_spec st sl f pg :
  put_st st sl f -> 0 <= pg < UINT32_MAX -> wcount (write_buf (bin st)) < max_pages (write_buf (bin st)) ->
  countb occ sl < GRAVELDB_MAX_FLUSH_BATCH -> page_ready st sl f pg ->
  exists p st' sl', write_buf_ensure_page pg st = Ret (p, st') /\ put_st st' sl' f /\ page_kept st sl st' sl' /\
    (forall k, grants st (S k) -> p <> 0 /\ grants st' k) /\
    (p = 0 /\ absent sl' pg \/ p <> 0 /\ exists x, stored sl' x /\ page_id x = pg /\ pdata x = p).
Proof.
  intros Hp Hpg Hmax Hbatch Hready. pose proof Hp as [[B1 B2 B3 B4 B5 B6 B7] H2 H3 H4 H5 Hoth H6 H7 H8 H9 H10].
  unfold write_buf_ensure_page, get_bin at 1, gets. unfold bindM at 1. cbn [res_bind fst snd]. rewrite (bindM_ret _ _ _ _ _ (get_slots_ret st sl B1)).
  destruct (pagemap_find_spec sl pg B3) as (h & e & Ef & He & [[Hk Hst]|(Hk & Habs & _)]); [done| |].
  { unfold bindM at 1. rewrite B2, Ef. cbn [lift res_bind fst snd]. unfold bindM at 1. rewrite He. cbn [lift res_bind fst snd]. rewrite Hk, Z.eqb_refl.
    exists (pdata e), st, sl. split; [done|]. split; [done|]. split; [split; [by apply touched_refl|split_and!; done || lia]|].
    split; [intros k Hg; split; [apply H7; by apply addr_in_use|intros al Ha; by apply pool_grants_less, Hg]|]. right.
    split; [apply H7; by apply addr_in_use|]. eauto. }
  unfold bindM at 1. rewrite B2, Ef. cbn [lift res_bind fst snd]. unfold bindM at 1. rewrite He. cbn [lift res_bind fst snd]. rewrite Hk.
  rewrite (proj2 (Z.eqb_neq _ _)) by (unfold PAGE_SLOT_EMPTY; lia). rewrite (proj2 (Z.leb_gt _ _)) by done. cbn [when].
  unfold bindM at 1. cbn [ret res_bind fst snd].
  destruct (grow_page_map_spec st sl f Hp) as (wb1 & sl1 & Eg & Hp1 & S1 & M1 & P1 & C1 & R1 & L1). set (st1 := mkBinSt _ _) in Eg, Hp1.
  unfold bindM at 1. rewrite Eg. cbn [res_bind fst snd negb]. unfold get_bin, gets. unfold bindM at 1. cbn [res_bind fst snd].
  assert (absent sl1 pg) as Habs1 by (intros x Hx%S1; by apply Habs).
  assert (page_ready st1 sl1 f pg) as Hr1. { destruct Hready as [(x & Hx & Ex)|Hr]; [|by right]. by destruct (Habs x). }
  assert (forall q r, 0 <= q < UINT32_MAX -> page_view st1 q r = page_view st q r) as V1 by (intros; by apply (view_same st st1 sl sl1 f)).
  destruct (acquire_spec st1 sl1 f Hp1) as (al & Eal & mem & wb & al' & y & Ea & Ewb & Hy & Hfy & Hgr & Hres).
  assert (forall k, grants st (S k) -> mem <> 0 /\ pool_grants k al') as Hgr' by (intros k Hg; apply Hgr, Hg, Eal). clear Hgr.
  unfold bindM at 1. rewrite Eal. cbn [deref lift res_bind fst snd]. unfold bindM at 1. unfold onsys at 1. rewrite Ea. cbn [res_bind fst snd].
  unfold upd at 1, modify. unfold bindM at 1. cbn [res_bind fst snd].
  assert (touched st st1) as T1 by (exists wb1, (allocator (bin st)), (dirty (bin st)), (flush_needed (bin st)); split; [by destruct (bin st)|done]).
  assert (max_pages wb = max_pages wb1) as Mwb by (by rewrite Ewb).
  destruct Hres as [(-> & -> & Hp2)|(Hm & Hbufs & Hnd & Hnz & HA)].
  { cbn [Z.eqb]. set (st2 := mkBinSt _ _) in Hp2. exists 0, st2, sl1. split; [done|]. split; [done|]. split; [|split; [intros k Hg; by destruct (Hgr' k Hg)|by left]].
    split; [exists wb, (Some al'), (dirty (bin st)), (flush_needed (bin st)); split; [by destruct (bin st)|congruence]|]. split; [done|]. split; [done|].
    split; [lia|]. split; [intros t Ht; by apply S1|]. intros q r Hq Hr. rewrite <- V1 by done. by apply (view_same st1 st2 sl1 sl1 f). }
  rewrite (proj2 (Z.eqb_neq _ _)) by done.
  destruct (load_page_spec st1 sl1 f pg Hp1 Hpg Habs1 Hr1) as (b & El & Hbl & Hbv).
  assert (load_page (bin st1) pg y = Ret (b, y)) as El'.
  { revert El. unfold load_page. destruct (_ && _); [|by intros [= <-]]. unfold bindM.
    rewrite (pread_quiet (sys st1) _ f), (pread_quiet y _ f); [|done|rewrite Hfy; apply Hp1|apply Hp1|apply Hp1]. by intros [= <-]. }
  unfold bindM at 1. unfold onsys at 1. cbn [sys bin]. rewrite El'. cbn [res_bind fst snd].
  unfold bindM at 1. unfold onsys at 1, modify. cbn [sys bin res_bind fst snd].
  pose proof (ps_buf _ _ _ Hp1) as [D1 D2 D3 D4 D5 D6 D7].
  destruct (pagemap_find_spec sl1 pg D3) as (h1 & e1 & Ef1 & He1 & [[Hk1 Hst1]|(Hk1 & _ & Hpath1)]); [done|by destruct (Habs1 e1)|].
  set (st2 := mkBinSt _ _). assert (get_slots st2 = Ret (sl1, st2)) as Eslots by (apply get_slots_ret; simpl; rewrite Ewb; exact D1).
  rewrite (bindM_ret _ _ _ _ _ Eslots). assert (wcapacity wb = zlen sl1) as Ecap by (rewrite Ewb; exact D2).
  unfold bindM at 1. rewrite Ecap, Ef1. cbn [lift res_bind fst snd]. pose proof (rd_ret_range _ _ _ He1) as Hh1.
  unfold bindM at 1. rewrite wr_ret by done. cbn [lift res_bind fst snd]. unfold upd, modify, bindM. cbn [res_bind fst snd ret]. rewrite <- Ecap.
  destruct (insert_page_put st1 sl1 f pg h1 e1 mem b wb al' y Hp1 Hpg He1 Hk1 Habs1 Hpath1 R1 ltac:(lia) Ewb Hy Hfy Hm Hbufs Hnd Hnz HA Hbl)
    as (Hp3 & C3 & S3). set (st3 := mkBinSt _ _) in Hp3. exists mem, st3, (<[Z.to_nat h1 := mkPageSlot pg mem]> sl1). split; [done|]. split; [done|].
  split; [|split; [intros k Hg; destruct (Hgr' k Hg) as [_ Hg']; split; [done|by intros ? [= <-]]|right; split; [done|]; exists (mkPageSlot pg mem); split; [apply S3; by left|done]]].
  split; [exists (set_pages wb (<[Z.to_nat h1 := mkPageSlot pg mem]> sl1) (wcapacity wb) (u32 (wcount wb + 1))), (Some al'), (dirty (bin st)), (flush_needed (bin st));
    split; [unfold st3, st1; by destruct (bin st)|simpl; congruence]|]. split; [done|]. split; [done|].
  split; [lia|]. split; [intros t Ht; apply S3; right; by apply S1|]. intros q r Hq Hr. rewrite <- V1 by done.
  apply (new_page_view st1 sl1 f st3 (<[Z.to_nat h1 := mkPageSlot pg mem]> sl1) pg mem b); try done.
  - simpl. by rewrite lookup_insert_eq.
  - intros x Hx. simpl. assert (pdata x <> mem) as Hxm.
    { intros Ex. apply NoDup_cons in Hnd as [Hni _]. apply Hni. rewrite elem_of_app. left. rewrite <- Ex. apply list_elem_of_fmap_2. exact (proj1 (stored_filter _ _) Hx). }
    rewrite lookup_insert_ne by done. by rewrite Hbufs.
Qed.

(** ** The entries of one page *)

Lemma mark_answers_quiet (st : BinSt P) : answers (sys st) = [] ->
  mark_answers st = Ret (mkMarkAlloc true true (fun d => nth d [true; true; true; true] true), st).
Proof. intros Ha. unfold mark_answers. by rewrite !(bindM_ret _ _ _ _ _ (onsys_sys_ok st Ha)). Qed.

(** Marking a page dirty, with room for one more segment. *)
Lemma mark_page_spec st pg :
  answers (sys st) = [] -> wf_tracker (dirty (bin st)) -> segment_count (active (dirty (bin st))) < 32768 -> 0 <= pg < 2 ^ 32 ->
  exists dt, mark_page pg st = Ret (tt, mkBinSt (set_dirty (bin st) dt) (sys st)) /\ wf_tracker dt /\ ckpt dt = ckpt (dirty (bin st)) /\
    dt_capacity dt = dt_capacity (dirty (bin st)) /\
    segment_count (active dt) <= segment_count (active (dirty (bin st))) + 1 /\
    (forall q, tree_has (active dt) q <-> tree_has (active (dirty (bin st))) q \/ q = pg).
Proof.
  intros Ha [Hwa Hwc] Hs Hpg. unfold mark_page. rewrite (bindM_ret _ _ _ _ _ (mark_answers_quiet st Ha)).
  unfold get_bin, gets. unfold bindM at 1. cbn [res_bind fst snd bin].
  destruct (tree_mark_spec (mkMarkAlloc true true (fun d => nth d [true; true; true; true] true)) (active (dirty (bin st))) pg Hwa Hpg Hs (or_introl eq_refl)) as (t & added & E & W & _ & C & Ad & Hh).
  unfold dirty_tracker_mark. unfold bindM at 1. rewrite E. cbn [lift res_bind fst snd]. unfold upd, modify. cbn [bin sys].
  eexists. split; [reflexivity|]. split; [by split|]. split; [done|]. split; [done|]. split; [done|]. intros q. rewrite (Ad eq_refl eq_refl) in Hh by (by intros [|[|[|[|[]]]]]). simpl.
  rewrite Hh. naive_solver.
Qed.

Lemma leb_add_l a b c : (a + b <=? a + c) = (b <=? c).
Proof. destruct (Z.leb_spec b c); [apply Z.leb_le|apply Z.leb_gt]; lia. Qed.
Lemma ltb_add_l a b c : (a + b <? a + c) = (b <? c).
Proof. destruct (Z.ltb_spec b c); [apply Z.ltb_lt|apply Z.ltb_ge]; lia. Qed.

(** A write to the file of a page that is not buffered. *)
Lemma direct_entry st sl f (e : EmbWriteEntry) :
  put_st st sl f -> entry_fits st e -> absent sl (fst e / entries_per_page (bin st)) ->
  page_size (bin st) = entries_per_page (bin st) * entry_size (bin st) ->
  let d := take (Z.to_nat (entry_size (bin st))) (snd e) in
  let f' := file_write f (fst e * entry_size (bin st)) d in
  let st' := mkBinSt (bin st) (set_files (sys st) (<[fd (bin st) := f']> (files (sys st)))) in
  put_st st' sl f' /\
  (forall k, 0 <= k -> k / page_size (bin st) <> fst e / entries_per_page (bin st) -> file_byte f' k = file_byte f k) /\
  forall id, 0 <= id < UINT32_MAX -> bin_entry st' id = set_entry (entry_size (bin st)) (bin_entry st) e id.
Proof.
  intros Hp [He Hd] Habs Hgeo d f' st'. pose proof (ps_esz _ _ _ Hp) as Hes. pose proof (ps_epp _ _ _ Hp) as Hep. pose proof (ps_fit _ _ _ Hp) as Hfit.
  set (esz := entry_size (bin st)) in *. set (epp := entries_per_page (bin st)) in *. set (psz := page_size (bin st)) in *.
  assert (zlen d = esz) as Hdl by (unfold d, zlen in *; rewrite length_take; lia). pose proof (Z.mod_pos_bound (fst e) epp ltac:(lia)) as Hm.
  pose proof (Z.div_mod (fst e) epp ltac:(lia)) as Hdm. assert (0 <= fst e / epp) as Hq0 by (apply Z.div_pos; lia).
  assert (fst e * esz = fst e / epp * psz + fst e mod epp * esz) as Hoff by nia.
  assert (put_st st' sl f') as Hp'. { destruct Hp as [[] ? ? ? ? ? ? ? ? ? ?]. split; try done. simpl. by rewrite lookup_insert_eq. }
  split; [done|].
  assert (forall k, 0 <= k -> file_byte f' k = if (fst e * esz <=? k) && (k <? fst e * esz + esz) then default 0 (d !! Z.to_nat (k - fst e * esz)) else file_byte f k) as Hfb.
  { intros k Hk. unfold f'. rewrite file_byte_write by nia. by rewrite Hdl. }
  split.
  - intros k Hk Hne. rewrite Hfb by done. destruct (Z.leb_spec (fst e * esz) k); [|done]. destruct (Z.ltb_spec k (fst e * esz + esz)); [|done].
    exfalso. apply Hne. symmetry. apply (Z.div_unique k psz _ (k - fst e / epp * psz)); [left; nia|lia].
  - intros id Hid. unfold bin_entry. change (bin st') with (bin st). fold esz epp. apply entry_of_write; [lia|lia|lia|lia|]. intros r Hr.
    assert (0 <= id / epp < UINT32_MAX) as Hq. { split; [apply Z.div_pos; lia|]. apply Z.div_lt_upper_bound; [lia|]. unfold UINT32_MAX in *. nia. }
    destruct (stored_or_absent sl (id / epp)) as [(x & Hx & Ex)|Ha].
    + rewrite <- Ex. rewrite (view_stored st' sl f'), (view_stored st sl f) by done. simpl.
      destruct (Z.eqb_spec (page_id x) (fst e / epp)) as [E|E]; [by destruct (Habs x)|done].
    + rewrite (view_absent st' sl f'), (view_absent st sl f) by done. change (page_size (bin st')) with psz. fold psz. rewrite Hfb by nia.
      destruct (Z.eqb_spec (id / epp) (fst e / epp)) as [E|E]; cbn [andb].
      * rewrite E, Hoff. set (q := fst e / epp) in *. set (m := fst e mod epp) in *.
        rewrite <- (Z.add_assoc (q * psz) (m * esz) esz), leb_add_l, ltb_add_l.
        destruct (Z.leb_spec (m * esz) r); [|done]. destruct (Z.ltb_spec r (m * esz + esz)); [|done]. cbn [andb].
        unfold d. rewrite lookup_take_lt by lia. do 2 f_equal. lia.
      * destruct (Z.leb_spec (fst e * esz) (id / epp * psz + r)); [|done]. destruct (Z.ltb_spec (id / epp * psz + r) (fst e * esz + esz)); [|done].
        exfalso. apply E. set (a := id / epp) in *. set (c := fst e / epp) in *. nia.
Qed.

Lemma touched_const st st' : touched st st' ->
  fd (bin st') = fd (bin st) /\ page_size (bin st') = page_size (bin st) /\ entry_size (bin st') = entry_size (bin st) /\
  entries_per_page (bin st') = entries_per_page (bin st) /\ bump_ptr (bin st') = bump_ptr (bin st) /\
  data_file_size (bin st') = data_file_size (bin st) /\ max_pages (write_buf (bin st')) = max_pages (write_buf (bin st)).
Proof. intros (wb & al & dt & fl & E & M). rewrite E. split_and!; done. Qed.

(** The pages of a list of entries. *)
Definition pages_of st (l : list EmbWriteEntry) : list Z := (fun e => fst e / entries_per_page (bin st)) <$> l.

(** What writing the entries [l] does to a bin. *)
Record put_post st sl (f : list Z) st' sl' (f' : list Z) (l : list EmbWriteEntry) : Prop := {
  pp_bin : touched st st';
  pp_files : files (sys st') = <[fd (bin st) := f']> (files (sys st));
  pp_stored : forall t, stored sl t -> stored sl' t;
  pp_len : zlen f <= zlen f';
  pp_other : forall k, 0 <= k -> ~ (k / page_size (bin st) ∈ pages_of st l) -> file_byte f' k = file_byte f k;
  pp_ckpt : ckpt (dirty (bin st')) = ckpt (dirty (bin st));
  pp_tracker : wf_tracker (dirty (bin st'));
  pp_segs : segment_count (active (dirty (bin st'))) <= segment_count (active (dirty (bin st))) + zlen l;
  pp_dirty : forall q, tree_has (active (dirty (bin st'))) q <-> tree_has (active (dirty (bin st))) q \/ q ∈ pages_of st l;
  pp_count : countb occ sl' <= countb occ sl + zlen l;
  pp_view : forall id, 0 <= id < UINT32_MAX -> bin_entry st' id = foldl (set_entry (entry_size (bin st))) (bin_entry st) l id
}.

(** With memory for its pages every page of [l] ends up in a buffer. *)
Definition put_buffered st st' sl' (l : list EmbWriteEntry) : Prop :=
  forall k, grants st (length l + k) -> grants st' k /\ forall q, q ∈ pages_of st l -> exists x, stored sl' x /\ page_id x = q.

Lemma put_buffered_trans st sl f st1 sl1 f1 l1 st2 sl2 f2 l2 :
  put_post st sl f st1 sl1 f1 l1 -> put_post st1 sl1 f1 st2 sl2 f2 l2 -> put_buffered st st1 sl1 l1 -> put_buffered st1 st2 sl2 l2 -> put_buffered st st2 sl2 (l1 ++ l2).
Proof.
  intros A B H1 H2 k Hg. rewrite length_app, <- Nat.add_assoc in Hg. destruct (H1 _ Hg) as [Hg1 S1]. destruct (H2 _ Hg1) as [Hg2 S2]. split; [done|].
  destruct (touched_const _ _ (pp_bin _ _ _ _ _ _ _ A)) as (_ & _ & _ & C4 & _). unfold pages_of in *. rewrite C4 in S2.
  intros q. rewrite fmap_app, elem_of_app. intros [Hq|Hq]; [|by apply S2]. destruct (S1 q Hq) as (x & Hx & E). exists x. split; [|done]. by apply (pp_stored _ _ _ _ _ _ _ B).
Qed.

Lemma put_post_trans st sl f st1 sl1 f1 l1 st2 sl2 f2 l2 :
  put_post st sl f st1 sl1 f1 l1 -> put_post st1 sl1 f1 st2 sl2 f2 l2 -> put_post st sl f st2 sl2 f2 (l1 ++ l2).
Proof.
  intros [A1 A2 A3 A11 A4 A5 A6 A7 A8 A9 A10] [B1 B2 B3 B11 B4 B5 B6 B7 B8 B9 B10].
  destruct (touched_const _ _ A1) as (C1 & C2 & C3 & C4 & _). assert (pages_of st1 l2 = pages_of st l2) as Epg by (unfold pages_of; by rewrite C4).
  assert (forall q, q ∈ pages_of st (l1 ++ l2) <-> q ∈ pages_of st l1 \/ q ∈ pages_of st l2) as Happ by (intros q; unfold pages_of; by rewrite fmap_app, elem_of_app).
  split; [by eapply touched_trans|rewrite B2, A2, C1; apply insert_insert_eq|auto|lia| |congruence|done|rewrite zlen_app; lia| |rewrite zlen_app; lia|].
  - intros k Hk Hn. rewrite Happ in Hn. rewrite B4, A4 by (rewrite ?C2, ?Epg; tauto || lia). done.
  - intros q. rewrite B8, A8, Epg, Happ. tauto.
  - intros id Hid. rewrite B10, foldl_app by done. rewrite C3. by apply set_entries_ext, A10.
Qed.

Lemma put_post_nil st sl f : put_st st sl f -> wf_tracker (dirty (bin st)) -> put_post st sl f st sl f [].
Proof.
  intros Hp Hw. split; try done; [by apply touched_refl|by rewrite insert_id by apply Hp|unfold zlen; simpl; lia| |unfold zlen; simpl; lia].
  intros q. unfold pages_of. simpl. rewrite elem_of_nil. tauto.
Qed.

Lemma put_buffered_nil st sl : put_buffered st st sl [].
Proof. intros k Hg. split; [done|]. by intros q ?%elem_of_nil. Qed.

(** A change of the dirty pages only. *)
Lemma put_st_dirty st sl f dt : put_st st sl f -> put_st (mkBinSt (set_dirty (bin st) dt) (sys st)) sl f.
Proof. intros [[] ? ? ? ? ? ? ? ? ? ?]. split; try done. Qed.

(** [put_direct] writes its entries to the file. *)
Lemma put_direct_spec (group : list EmbWriteEntry) st sl f s pg :
  put_st st sl f -> wf_tracker (dirty (bin st)) -> segment_count (active (dirty (bin st))) + zlen group <= 32768 -> 0 <= pg < UINT32_MAX ->
  absent sl pg -> page_size (bin st) = entries_per_page (bin st) * entry_size (bin st) -> entry_size (bin st) <= 4096 ->
  entry_size s = entry_size (bin st) -> fd s = fd (bin st) ->
  (forall e, e ∈ group -> entry_fits st e /\ fst e / entries_per_page (bin st) = pg) ->
  exists st' f', put_direct s pg group GRAVELDB_OK st = Ret (GRAVELDB_OK, st') /\ put_st st' sl f' /\ put_post st sl f st' sl f' group.
Proof.
  revert st f. induction group as [|e group IH]; intros st f Hp Hw Hsc Hpg Habs Hgeo Hes Hs1 Hs2 Hg.
  { exists st, f. split; [done|]. split; [done|]. by apply put_post_nil. }
  destruct (Hg e) as [He1 He2]; [set_solver|]. rewrite <- He2 in Habs. destruct (direct_entry st sl f e Hp He1 Habs Hgeo) as (Hp1 & Ho1 & V1).
  set (d := take _ _) in *. set (f1 := file_write f _ d) in *. set (st1 := mkBinSt _ _) in *. rewrite He2 in *.
  cbn [put_direct]. unfold entry_bytes. rewrite Hs1, Hs2. rewrite (proj2 (Z.ltb_ge 4096 _)) by done. rewrite (proj2 (Z.ltb_ge (zlen (snd e)) _)) by apply He1.
  unfold bindM at 1. cbn [lift res_bind fst snd]. fold d. unfold bindM at 1. unfold onsys at 1. rewrite (pwrite_quiet _ _ f) by apply Hp. cbn [res_bind fst snd].
  fold f1. fold st1. rewrite (proj2 (Z.ltb_ge (zlen d) 0)) by apply zlen_nonneg.
  assert (zlen (e :: group) = 1 + zlen group) as Hlen by (unfold zlen; simpl; lia). pose proof (zlen_nonneg group).
  destruct (mark_page_spec st1 pg) as (dt & Em & W & Ck & Dc & Sc & Th); [by apply Hp|done|simpl; lia|unfold UINT32_MAX in Hpg; lia|].
  rewrite (bindM_ret _ _ _ _ _ Em). set (st2 := mkBinSt _ _).
  assert (put_post st sl f st2 sl f1 [e]) as Hpost1.
  { split; try done.
    - exists (write_buf (bin st)), (allocator (bin st)), dt, (flush_needed (bin st)). split; [unfold st2, st1; by destruct (bin st)|done].
    - assert (d <> []) as Hd by (intros Hd; destruct He1; unfold d in Hd; apply (f_equal zlen) in Hd; pose proof (ps_esz _ _ _ Hp); unfold zlen in *; rewrite length_take in Hd; simpl in Hd; lia).
      unfold f1. rewrite length_file_write; [lia| |done]. destruct He1. pose proof (ps_esz _ _ _ Hp). nia.
    - intros k Hk Hn. apply Ho1; [done|]. intros E. apply Hn. unfold pages_of. simpl. rewrite list_elem_of_singleton. congruence.
    - intros q. simpl. rewrite Th. simpl. rewrite list_elem_of_singleton, He2. done.
    - change (zlen [e]) with 1. lia. }
  destruct (IH st2 f1) as (st' & f' & E & Hp' & Hpost2); try done; [by apply put_st_dirty|simpl in *; lia|intros e' He'; apply Hg; set_solver|].
  exists st', f'. split; [done|]. split; [done|]. by apply (put_post_trans _ _ _ st2 sl f1 [e]).
Qed.

(** [put_page] writes the entries of one page, through its buffer or directly. *)
Lemma put_page_spec (group : list EmbWriteEntry) st sl f pg :
  put_st st sl f -> wf_tracker (dirty (bin st)) -> segment_count (active (dirty (bin st))) + zlen group <= 32768 -> group <> [] ->
  wcount (write_buf (bin st)) < max_pages (write_buf (bin st)) -> countb occ sl < GRAVELDB_MAX_FLUSH_BATCH -> page_ready st sl f pg ->
  page_size (bin st) = entries_per_page (bin st) * entry_size (bin st) -> entry_size (bin st) <= 4096 ->
  (forall e, e ∈ group -> entry_fits st e /\ fst e / entries_per_page (bin st) = pg) ->
  exists st' sl' f', put_page pg group st = Ret (GRAVELDB_OK, st') /\ put_st st' sl' f' /\ put_post st sl f st' sl' f' group /\ put_buffered st st' sl' group.
Proof.
  intros Hp Hw Hsc Hne Hmax Hbatch Hready Hgeo Hes Hg.
  assert (0 <= pg < UINT32_MAX) as Hpg. { destruct group as [|e group]; [done|]. destruct (Hg e) as [He <-]; [set_solver|]. by apply (page_range st sl f). }
  unfold put_page, get_bin, gets. unfold bindM at 1. cbn [res_bind fst snd]. set (res := when _ _).
  assert (exists c g, res st = Ret (tt, mkBinSt (set_dirty (bin st) (mkDirtyTracker (active (dirty (bin st))) (ckpt (dirty (bin st))) c g)) (sys st))) as (c & g & Er).
  { unfold res. destruct (_ <=? pg); cbn [when].
    - unfold upd, modify, dirty_tracker_resize. destruct (_ <=? _); simpl; [exists (dt_capacity (dirty (bin st))), (generation (dirty (bin st)))|by eexists _, _].
      do 3 f_equal. by destruct (dirty (bin st)).
    - exists (dt_capacity (dirty (bin st))), (generation (dirty (bin st))). unfold ret. destruct st as [[] y]. do 3 f_equal. simpl. f_equal. by destruct dirty. }
  rewrite (bindM_ret _ _ _ _ _ Er). set (st1 := mkBinSt _ _). assert (put_st st1 sl f) as Hp1 by (by apply put_st_dirty).
  assert (wf_tracker (dirty (bin st1))) as Hw1 by (destruct Hw; by split).
  destruct (ensure_page_spec st1 sl f pg Hp1 Hpg Hmax Hbatch Hready) as (p & st2 & sl2 & Ep & Hp2 & (T2 & D2 & F2 & C2 & S2 & V2) & Hgr & Hres).
  rewrite (bindM_ret _ _ _ _ _ Ep). destruct (touched_const _ _ T2) as (K1 & K2 & K3 & K4 & K5 & K6 & K7). simpl in K1, K2, K3, K4.
  assert (touched st st2) as T02. { eapply touched_trans; [|exact T2]. exists (write_buf (bin st)), (allocator (bin st)), (mkDirtyTracker (active (dirty (bin st))) (ckpt (dirty (bin st))) c g), (flush_needed (bin st)). split; [unfold st1; by destruct (bin st)|done]. }
  assert (forall id, 0 <= id < UINT32_MAX -> bin_entry st2 id = bin_entry st id) as Hview.
  { intros id Hid. unfold bin_entry, entry_of. rewrite K3, K4. apply list_fmap_ext. intros i r Hi. apply list_elem_of_lookup_2, elem_of_seqZ in Hi.
    pose proof (ps_epp _ _ _ Hp) as He. pose proof (Z.mod_pos_bound id (entries_per_page (bin st)) ltac:(lia)).
    rewrite V2; [done| |simpl; nia]. split; [apply Z.div_pos; lia|]. apply Z.div_lt_upper_bound; [lia|]. unfold UINT32_MAX in *. nia. }
  assert (forall e, e ∈ group -> entry_fits st2 e /\ fst e / entries_per_page (bin st2) = pg) as Hg2.
  { intros e He. destruct (Hg e He) as [[H1 H2] H3]. unfold entry_fits. rewrite K3, K4. done. }
  assert (files (sys st2) = <[fd (bin st) := f]> (files (sys st))) as Hf2. { rewrite F2. simpl. by rewrite insert_id by apply Hp. }
  assert (1 <= zlen group) as Hlen by (destruct group; [done|]; unfold zlen; simpl; lia).
  assert (forall q, q ∈ pages_of st group <-> q = pg) as Hpages.
  { intros q. unfold pages_of. rewrite list_elem_of_fmap. split; [intros (e & -> & He); by apply Hg|]. intros ->. destruct group as [|e group]; [done|].
    exists e. destruct (Hg e) as [_ E]; [set_solver|]. split; [done|set_solver]. }
  destruct Hres as [[-> Habs]|(Hnz & x & Hx & Exp & Exd)].
  - cbn [Z.eqb negb]. destruct (put_direct_spec group st2 sl2 f (bin st) pg) as (st' & f' & E & Hp' & Hpost);
      rewrite ?D2, ?K1, ?K2, ?K3, ?K4; try done; [intros e He; destruct (Hg2 e He); by rewrite <- K4|].
    exists st', sl2, f'. split; [done|]. split; [done|]. destruct Hpost as [P1 P2 P3 P11 P4 P5 P6 P7 P8 P9 P10].
    assert (pages_of st2 group = pages_of st group) as Epg by (unfold pages_of; by rewrite K4). rewrite Epg, D2 in *. rewrite K2 in P4.
    split.
    2: { intros k Hg0. destruct group as [|e0 g0]; [done|]. by destruct (Hgr (length g0 + k)%nat). }
    split; try done; [by eapply touched_trans|rewrite P2, Hf2, K1; apply insert_insert_eq|lia|].
    intros id Hid. rewrite P10 by done. rewrite K3. by apply set_entries_ext, Hview.
  - rewrite (proj2 (Z.eqb_neq _ _)) by done. cbn [negb]. subst p.
    destruct (poke_group group st2 sl2 f x (bin st) Hp2 Hx) as (st3 & E3 & Hp3 & B3 & F3 & V3); [by rewrite ?K3, ?K4..| |].
    { intros e He. destruct (Hg2 e He) as [H1 H2]. split; [done|]. congruence. }
    rewrite (bindM_ret _ _ _ _ _ E3).
    assert (dirty (bin st3) = dirty (bin st1)) as D3 by congruence.
    destruct (mark_page_spec st3 pg) as (dt & Em & W & Ck & Dc & Sc & Th); [by apply Hp3|by rewrite D3|rewrite D3; simpl; lia|unfold UINT32_MAX in Hpg; lia|].
    rewrite (bindM_ret _ _ _ _ _ Em). set (st4 := mkBinSt _ _). exists st4, sl2, f. split; [done|]. split; [by apply put_st_dirty|].
    split.
    2: { intros k Hg0. destruct group as [|e0 g0]; [done|]. destruct (Hgr (length g0 + k)%nat) as [_ Hg']; [done|].
         split; [|intros q ->%Hpages; by exists x]. intros al Hal. apply (pool_grants_le (length g0 + k)); [lia|]. apply Hg'. unfold st4 in Hal. simpl in Hal. by rewrite B3 in Hal. }
    split; try done.
    + eapply touched_trans; [exact T02|]. exists (write_buf (bin st2)), (allocator (bin st2)), dt, (flush_needed (bin st2)). unfold st4. rewrite B3. split; [by destruct (bin st2)|done].
    + simpl. congruence.
    + simpl. rewrite Ck, D3. done.
    + simpl. rewrite D3 in Sc. simpl in Sc. lia.
    + intros q. simpl. rewrite Th, D3, Hpages. done.
    + lia.
    + intros id Hid. change (bin_entry st4 id) with (bin_entry st3 id). rewrite V3 by done. rewrite K3. by apply set_entries_ext, Hview.
Qed.

(** ** The groups of a batch *)

(** A page stays ready while other pages are written. *)
Lemma page_ready_kept st sl f st' sl' f' l pg :
  put_st st sl f -> put_post st sl f st' sl' f' l -> 0 <= pg -> ~ (pg ∈ pages_of st l) -> page_ready st sl f pg -> page_ready st' sl' f' pg.
Proof.
  intros Hp [T _ S _ O _ _ _ _ _ _] Hpg Hn Hr. destruct (touched_const _ _ T) as (K1 & K2 & K3 & K4 & K5 & K6 & _).
  unfold page_ready. rewrite K2, K4, K5, K6. destruct Hr as [(x & Hx & Ex)|[Hr|Hr]]; [left; eauto|by right; left|right; right].
  intros r Hrr. rewrite O; [by apply Hr|nia|]. assert ((pg * page_size (bin st) + r) / page_size (bin st) = pg) as ->; [|done].
  symmetry. apply (Z.div_unique _ _ _ r); [by left|lia].
Qed.

Lemma put_groups_spec (groups : list (list EmbWriteEntry)) st sl f :
  put_st st sl f -> wf_tracker (dirty (bin st)) -> segment_count (active (dirty (bin st))) + zlen (concat groups) <= 32768 ->
  countb occ sl + zlen (concat groups) <= max_pages (write_buf (bin st)) -> countb occ sl + zlen (concat groups) <= GRAVELDB_MAX_FLUSH_BATCH ->
  page_size (bin st) = entries_per_page (bin st) * entry_size (bin st) -> entry_size (bin st) <= 4096 ->
  NoDup (group_page (entries_per_page (bin st)) <$> groups) ->
  (forall g, g ∈ groups -> g <> [] /\ page_ready st sl f (group_page (entries_per_page (bin st)) g) /\
     forall e, e ∈ g -> entry_fits st e /\ fst e / entries_per_page (bin st) = group_page (entries_per_page (bin st)) g) ->
  exists st' sl' f', put_groups (entries_per_page (bin st)) groups GRAVELDB_OK st = Ret (GRAVELDB_OK, st') /\ put_st st' sl' f' /\
    put_post st sl f st' sl' f' (concat groups) /\ put_buffered st st' sl' (concat groups).
Proof.
  revert st sl f. induction groups as [|g groups IH]; intros st sl f Hp Hw Hsc Hmax Hbatch Hgeo Hes Hnd Hg.
  { exists st, sl, f. split; [done|]. split; [done|]. split; [by apply put_post_nil|apply put_buffered_nil]. }
  simpl concat in *. rewrite zlen_app in *. pose proof (zlen_nonneg (concat groups)).
  destruct (Hg g ltac:(set_solver)) as (Hne & Hready & Hents).
  assert (1 <= zlen g) as Hlen by (destruct g; [done|]; unfold zlen; simpl; lia). pose proof (bs_count _ _ (ps_buf _ _ _ Hp)) as Hc.
  destruct (put_page_spec g st sl f (group_page (entries_per_page (bin st)) g)) as (st1 & sl1 & f1 & E1 & Hp1 & Hq1 & Hb1); try done; [lia..|].
  pose proof Hq1 as [T1 _ _ _ _ _ W1 S1 _ N1 _]. destruct (touched_const _ _ T1) as (K1 & K2 & K3 & K4 & K5 & K6 & K7).
  rewrite fmap_cons in Hnd. apply NoDup_cons in Hnd as [Hni Hnd].
  assert (forall q, q ∈ pages_of st g -> q = group_page (entries_per_page (bin st)) g) as Hpg.
  { intros q (e & -> & He)%list_elem_of_fmap. by apply Hents. }
  destruct (IH st1 sl1 f1) as (st2 & sl2 & f2 & E2 & Hp2 & Hq2 & Hb2); try done; rewrite ?K2, ?K3, ?K4, ?K7; try done; [lia..| |].
  { intros g' Hg'. destruct (Hg g' ltac:(set_solver)) as (Hne' & Hready' & Hents'). split; [done|]. split; [|unfold entry_fits in *; by rewrite K3].
    apply (page_ready_kept st sl f st1 sl1 f1 g); try done.
    - destruct g' as [|e g']; [done|]. destruct (Hents' e ltac:(set_solver)) as [He <-].
      apply Z.div_pos; [apply He|]. pose proof (ps_epp _ _ _ Hp). lia.
    - intros Hin%Hpg. apply Hni. rewrite <- Hin. by apply list_elem_of_fmap_2. }
  exists st2, sl2, f2. split; [|split; [done|split; [by apply (put_post_trans _ _ _ st1 sl1 f1)|by apply (put_buffered_trans _ sl f st1 sl1 f1 _ _ _ f2)]]].
  cbn [put_groups]. unfold group_page in E1. rewrite (bindM_ret _ _ _ _ _ E1). rewrite bool_decide_eq_true_2 by done. by rewrite <- K4.
Qed.

Lemma put_st_flag st sl f b : put_st st sl f -> put_st (mkBinSt (set_flush_needed (bin st) b) (sys st)) sl f.
Proof. intros [[] ? ? ? ? ? ? ? ? ? ?]. split; try done. Qed.

Lemma put_post_flag st sl f st' sl' f' l b : put_post st sl f st' sl' f' l -> put_post st sl f (mkBinSt (set_flush_needed (bin st') b) (sys st')) sl' f' l.
Proof.
  intros [A1 A2 A3 A11 A4 A5 A6 A7 A8 A9 A10]. split; try done. eapply touched_trans; [exact A1|].
  exists (write_buf (bin st')), (allocator (bin st')), (dirty (bin st')), b. split; [by destruct (bin st')|done].
Qed.

Lemma put_post_entry st sl f st' sl' f' epp entries id :
  put_post st sl f st' sl' f' (sort_by_page epp entries) -> 0 <= id < UINT32_MAX ->
  bin_entry st' id = default (bin_entry st id) (put_entries (entry_size (bin st)) ∅ entries !! id).
Proof. intros Hq Hid. rewrite (pp_view _ _ _ _ _ _ _ Hq) by done. by rewrite set_entries_lookup, put_entries_sorted. Qed.

(** What a batch does to a bin: the entries of it are written in the order of their pages. *)
Lemma dimbin_put_batch_spec st sl f (entries : list EmbWriteEntry) :
  put_st st sl f -> in_checkpoint (bin st) = false -> wf_tracker (dirty (bin st)) ->
  segment_count (active (dirty (bin st))) + zlen entries <= 32768 ->
  countb occ sl + zlen entries <= max_pages (write_buf (bin st)) -> countb occ sl + zlen entries <= GRAVELDB_MAX_FLUSH_BATCH ->
  page_size (bin st) = entries_per_page (bin st) * entry_size (bin st) -> entry_size (bin st) <= 4096 ->
  (forall e, e ∈ entries -> entry_fits st e /\ page_ready st sl f (fst e / entries_per_page (bin st))) ->
  exists st' sl' f', dimbin_put_batch entries st = Ret (GRAVELDB_OK, st') /\ put_st st' sl' f' /\
    put_post st sl f st' sl' f' (sort_by_page (entries_per_page (bin st)) entries) /\
    put_buffered st st' sl' (sort_by_page (entries_per_page (bin st)) entries).
Proof.
  intros Hst Hck Hdt Hsegs Hmax Hbatch Hgeo Hesz Hents. destruct entries as [|e0 l0] eqn:El.
  { exists st, sl, f. split; [done|]. split; [done|]. split; [by apply put_post_nil|apply put_buffered_nil]. }
  rewrite <- El in *. assert (dimbin_put_batch entries = dimbin_put_batch (e0 :: l0)) as -> by (by rewrite El). unfold dimbin_put_batch. rewrite <- El.
  pose proof (ps_epp _ _ _ Hst) as Hepp. set (epp := entries_per_page (bin st)) in *.
  assert (u32 epp = epp) as Hu by (apply u32_id; lia).
  destruct (sort_by_page_sorted epp entries) as [Hsort Hin]. set (groups := runs (page_eq epp) (sort_by_page epp entries)).
  pose proof (sort_by_page_len epp entries) as Hlen.
  destruct (put_groups_spec groups st sl f) as (st' & sl' & f' & E & Hp' & Hq & Hbf); unfold groups; rewrite ?runs_concat, ?Hlen; try done; [by apply runs_pages_nodup| |].
  { intros g Hg. pose proof (runs_nonempty _ _ _ Hg) as Hne. split; [done|]. destruct g as [|x g']; [done|].
    assert (forall e, e ∈ x :: g' -> e ∈ entries) as Hsub by (intros e He; apply Hin; by apply (runs_elem _ _ _ e Hg)).
    split; [apply Hents, Hsub; set_solver|]. intros e He. split; [by apply Hents, Hsub|]. by apply (runs_same_page epp _ _ e x Hg He). }
  fold groups in E, Hq, Hbf. unfold groups in Hq, Hbf. rewrite runs_concat in Hq, Hbf. fold epp in E.
  unfold get_bin, gets. unfold bindM at 1. cbn [res_bind fst snd]. rewrite Hck. fold epp. rewrite Hu.
  assert ((if zlen entries <=? 256 then ret true else onsys sys_ok) st = Ret (true, st)) as Eok.
  { destruct (_ <=? 256); [done|]. unfold onsys. rewrite sys_ok_quiet by apply Hst. by destruct st. }
  rewrite (bindM_ret _ _ _ _ _ Eok). cbn [negb]. rewrite (proj2 (Z.eqb_neq epp 0)) by lia.
  change (runs _ _) with groups. rewrite (bindM_ret _ _ _ _ _ E). unfold bindM at 1. cbn [res_bind fst snd].
  set (fin := if dimbin_should_flush (bin st') then mkBinSt (set_flush_needed (bin st') true) (sys st') else st').
  exists fin, sl', f'. split; [unfold fin; by destruct (dimbin_should_flush (bin st'))|].
  unfold fin. destruct (dimbin_should_flush (bin st')); [|done]. split; [by apply put_st_flag|]. split; [by apply put_post_flag|done].
Qed.

(** C4: a batched write outside a checkpoint is seen by every later read. On a system without failures,
    for a bin whose pages have no slack and whose entries have at most 4096 bytes, and a batch for which
    the write buffer and the dirty pages have room (at most 65536 buffered pages and 32768 segments), each
    page of which is in the write buffer, committed, or zero in the file ([page_ready]; a page that a
    flush left partly filled at the bump pointer is not, and is zeroed by the put: [dimbin_flush_loses_entry]
    of BinFlush.v): whether the pages are buffered, loaded from the file or there is no memory for a
    buffer, [dimbin_put_batch] returns OK, every entry of the batch reads as its last value in the batch,
    every other entry of the bin reads as before, and the dirty pages are exactly the old ones and those
    of the batch; the page buffers that the allocator gave to [others] are left alone. *)
Theorem dimbin_put_batch_correct st sl f (entries : list EmbWriteEntry)
  (Hst : put_st st sl f)
  (Hck : in_checkpoint (bin st) = false)
  (Hdt : wf_tracker (dirty (bin st)))
  (Hsegs : segment_count (active (dirty (bin st))) + zlen entries <= 32768)
  (Hmax : countb occ sl + zlen entries <= max_pages (write_buf (bin st)))
  (Hbatch : countb occ sl + zlen entries <= GRAVELDB_MAX_FLUSH_BATCH)
  (Hgeo : page_size (bin st) = entries_per_page (bin st) * entry_size (bin st))
  (Hesz : entry_size (bin st) <= 4096)
  (Hents : forall e, e ∈ entries -> entry_fits st e /\ page_ready st sl f (fst e / entries_per_page (bin st))) :
  exists st' sl' f', dimbin_put_batch entries st = Ret (GRAVELDB_OK, st') /\ put_st st' sl' f' /\
    (forall id, 0 <= id < UINT32_MAX -> bin_entry st' id = default (bin_entry st id) (put_entries (entry_size (bin st)) ∅ entries !! id)) /\
    (forall q, tree_has (active (dirty (bin st'))) q <-> tree_has (active (dirty (bin st))) q \/ q ∈ pages_of st entries) /\
    (forall a, others a -> bufs (sys st') !! a = bufs (sys st) !! a).
Proof.
  destruct (dimbin_put_batch_spec st sl f entries) as (st' & sl' & f' & E & Hp' & Hq & _); try done.
  exists st', sl', f'. split; [done|]. split; [done|]. split; [|split].
  - intros id Hid. by eapply put_post_entry.
  - intros q. rewrite (pp_dirty _ _ _ _ _ _ _ Hq). unfold pages_of. rewrite !list_elem_of_fmap. by setoid_rewrite (proj2 (sort_by_page_sorted _ entries)).
  - intros a Ha. by rewrite (ps_others _ _ _ Hp' a Ha), (ps_others _ _ _ Hst a Ha).
Qed.

End put.

(** ** Witness *)

(** Four pages of four entries in the file, nothing buffered, memory for page buffers. *)
Definition put_tracker : DirtyTracker := mkDirtyTracker (mkDirtyTree [] 0 4096 1) (mkDirtyTree [] 0 4096 1) 1024 0.
Definition put_bin : DimBin (SlabPool * Mem) :=
  mkDimBin 1 16 4 4 3 4 None None 16 (Some []) 1024 put_tracker (mkWriteBuffer (Some no_pages) 4 0 64 0 [] 0)
    t_three zero_overlay false false 0 (Some (p0, m0)) 16 64 0 8192 8192.
Definition put_state : BinSt (SlabPool * Mem) := mkBinSt put_bin (mkSys (<[3 := replicate 64 1]> (<[4 := []]> ∅)) ∅ [] [] ∅).

Lemma put_state_ok : put_st (fun _ => False) ∅ put_state no_pages (replicate 64 1).
Proof.
  split; try done; try (simpl; lia).
  - split; try done; [apply pages_inv_empty; [by exists 2|lia|done]|]. intros x Hx. by apply stored_replicate in Hx.
  - exists (p0, m0), []. split; [done|]. split; [split; [apply p0_inv | apply p0_os]|]. split; [|done]. intros a Ha. by apply elem_of_nil in Ha.
  - constructor.
  - intros a Ha. by apply elem_of_nil in Ha.
Qed.

Lemma dimbin_put_batch_correct_witness :
  let entries := [(1, [9; 9; 9; 9]); (5, [8; 8; 8; 8]); (1, [7; 7; 7; 7])] in
  exists st' sl' f', dimbin_put_batch entries put_state = Ret (GRAVELDB_OK, st') /\ put_st (fun _ => False) ∅ st' sl' f' /\
    (forall id, 0 <= id < UINT32_MAX -> bin_entry st' id = default (bin_entry put_state id) (put_entries 4 ∅ entries !! id)) /\
    (forall q, tree_has (active (dirty (bin st'))) q <-> tree_has (active put_tracker) q \/ q ∈ pages_of put_state entries) /\
    (forall a, False -> bufs (sys st') !! a = bufs (sys put_state) !! a).
Proof.
  intros entries. apply (dimbin_put_batch_correct (fun _ => False) ∅ put_state no_pages (replicate 64 1) entries put_state_ok); try done.
  - constructor; apply (wf_tree_empty 1); lia.
  - intros e He. repeat (apply elem_of_cons in He as [->|He]; [split; [vm_compute; split; [split; congruence|congruence]|right; left; vm_compute; done]|]).
    by apply elem_of_nil in He.
Defined.
