(* ===== verification/BinStore.v ===== *)
(** BinStore: the steps of a put on a bin that come before the embeddings are written.

    [dimbin_reserve], [dimbin_alloc_entry] and [dimbin_buf_key] of src/dimbin.c grow the
    files, take entries and buffer keys. They leave what a reader sees ([grew]) and keep a
    bin ready for writes ([bin_ready]), which [dimbin_put_batch] then needs. *)

From S2P Require Import Prelude LinearProbe Wire SlabAlloc Overlay DirtyTracker KeyBTree IoBatch PageMap DimBin BinKeys BinFlush BinOps BinPut.

#[local] Arguments file_write : simpl never.

(** ** Sizes *)

Lemma double_until_spec required : required <= 2 ^ 62 -> forall fuel size, 0 < size -> required <= size * 2 ^ Z.of_nat fuel ->
  exists k, 0 <= k /\ double_until (S fuel) size required = Ret (size * 2 ^ k) /\ required <= size * 2 ^ k <= Z.max size (2 * required).
Proof.
  intros Hr. induction fuel as [|fuel IH]; intros size Hs Hf.
  - exists 0. rewrite Nat2Z.inj_0, Z.pow_0_r, Z.mul_1_r in *. cbn [double_until]. rewrite (proj2 (Z.ltb_ge _ _)) by done. split_and!; [done|done|lia|lia].
  - cbn [double_until] in *. destruct (Z.ltb_spec size required) as [Hl|Hl].
    + rewrite u64_id by lia. destruct (IH (size * 2)) as (k & Hk & E & Hb); [lia|rewrite Nat2Z.inj_succ, Z.pow_succ_r in Hf by lia; lia|].
      exists (k + 1). replace (size * 2 ^ (k + 1)) with (size * 2 * 2 ^ k) by (rewrite Z.pow_add_r by lia; lia). split; [lia|]. split; [exact E|].
      pose proof (Z.pow_pos_nonneg 2 k). nia.
    + exists 0. rewrite Z.pow_0_r, Z.mul_1_r. split_and!; [done|done|lia|lia].
Qed.

Lemma file_byte_zeros (f : list Z) n k : file_byte (f ++ replicate n 0) k = file_byte f k.
Proof.
  unfold file_byte. destruct (decide (Z.to_nat k < length f)%nat) as [H|H].
  - by rewrite lookup_app_l by done.
  - rewrite lookup_app_r by lia. rewrite (lookup_ge_None_2 f) by lia. destruct (replicate n 0 !! _) as [x|] eqn:E; [|done].
    by apply lookup_replicate in E as [-> _].
Qed.

Lemma nodup_below (l : list Z) n : 0 <= n -> NoDup l -> (forall x, x ∈ l -> 0 <= x < n) -> zlen l <= n.
Proof.
  intros Hn Hnd Hl. assert (length l <= length (seqZ 0 n))%nat as H; [|rewrite length_seqZ in H; unfold zlen; lia].
  apply submseteq_length, NoDup_submseteq; [done|]. intros x Hx. apply elem_of_seqZ. specialize (Hl x Hx). lia.
Qed.

Section store.
Context {P : Type} `{!ObjectPool P}.
Implicit Types st : BinSt P.

(** ** Steps that a reader does not see *)

Record grew st (f : list Z) st' (f' : list Z) : Prop := {
  gw_dim : dim (bin st') = dim (bin st);
  gw_psz : page_size (bin st') = page_size (bin st);
  gw_esz : entry_size (bin st') = entry_size (bin st);
  gw_epp : entries_per_page (bin st') = entries_per_page (bin st);
  gw_fd : fd (bin st') = fd (bin st);
  gw_key_fd : key_fd (bin st') = key_fd (bin st);
  gw_dirty : dirty (bin st') = dirty (bin st);
  gw_buf : write_buf (bin st') = write_buf (bin st);
  gw_ckpt : in_checkpoint (bin st') = in_checkpoint (bin st);
  gw_alloc : allocator (bin st') = allocator (bin st);
  gw_bump : bump_ptr (bin st) <= bump_ptr (bin st');
  gw_size : data_file_size (bin st) <= data_file_size (bin st');
  gw_bufs : bufs (sys st') = bufs (sys st);
  gw_quiet : answers (sys st') = answers (sys st);
  gw_zeros : exists n, f' = f ++ replicate n 0;
  gw_file : files (sys st) !! fd (bin st) = Some f -> files (sys st') !! fd (bin st) = Some f';
  gw_files : forall g, g <> fd (bin st) -> g <> key_fd (bin st) -> files (sys st') !! g = files (sys st) !! g
}.

Lemma grew_refl st f : grew st f st f.
Proof. split; try done. exists 0%nat. by rewrite app_nil_r. Qed.

Lemma grew_trans st f st1 f1 st2 f2 : grew st f st1 f1 -> grew st1 f1 st2 f2 -> grew st f st2 f2.
Proof.
  intros [A1 A2 A3 A4 A5 A6 A7 A8 A9 A10 A11 A12 A13 A14 [n ->] A16 A17] [B1 B2 B3 B4 B5 B6 B7 B8 B9 B10 B11 B12 B13 B14 [n' ->] B16 B17].
  split; try congruence; [lia|lia| | |].
  - exists (n + n')%nat. by rewrite replicate_add, app_assoc.
  - rewrite <- A5. intros Hf. apply B16. rewrite A5 in Hf |- *. by apply A16.
  - intros g H1 H2. rewrite B17, A17; congruence.
Qed.

(** The free entries are distinct, below the bump pointer, and fit into their array. *)
Definition free_ok (b : DimBin P) : Prop :=
  exists free, free_list b = Some free /\ NoDup free /\ (forall e, e ∈ free -> 0 <= e < bump_ptr b) /\ zlen free <= free_capacity b /\ 0 < free_capacity b.

(** All pages. *)
Definition all_pages (pg : Z) : Prop := True.

Section ready.
Variables (others : Z -> Prop) (theirs : gmap Z (list Z)).
(** The pages that must be loadable: all of them for a bin that takes puts. *)
Variable loads : Z -> Prop.

Lemma put_st_grew st sl f st' f' : put_st others theirs st sl f -> grew st f st' f' -> put_st others theirs st' sl f'.
Proof.
  intros [[B1 B2 B3 B4 B5 B6 B7] H2 H3 H4 H5 H6 H7 H8 H9 H10 H11] [A1 A2 A3 A4 A5 A6 A7 A8 A9 A10 A11 A12 A13 A14 A15 A16 A17].
  unfold buf_addrs in *. split; rewrite ?A2, ?A3, ?A4, ?A5, ?A8, ?A10, ?A13, ?A14; auto.
  - split; rewrite ?A2, ?A8, ?A13; auto.
  - unfold buf_addrs. by rewrite A8.
  - unfold buf_addrs. by rewrite A8.
  - unfold buf_addrs. by rewrite A8.
Qed.

Lemma bin_entry_grew st sl f st' f' id : put_st others theirs st sl f -> grew st f st' f' -> bin_entry st' id = bin_entry st id.
Proof.
  intros Hp Hg. pose proof Hg as [A1 A2 A3 A4 A5 A6 A7 A8 A9 A10 A11 A12 A13 A14 [n ->] A16 A17]. unfold bin_entry. rewrite A3, A4. apply list_fmap_ext. intros i r _.
  unfold page_view. rewrite A2, A5, A8, A13, (A16 (ps_file _ _ _ _ _ Hp)), (ps_file _ _ _ _ _ Hp). case_match; [done|]. apply file_byte_zeros.
Qed.

Lemma page_ready_grew st sl f st' f' pg : put_st others theirs st sl f -> grew st f st' f' -> 0 <= bump_ptr (bin st) -> bump_ptr (bin st') < 2 ^ 32 ->
  page_ready st sl f pg -> page_ready st' sl f' pg.
Proof.
  intros Hp [A1 A2 A3 A4 A5 A6 A7 A8 A9 A10 A11 A12 A13 A14 [n ->] A16 A17] Hb Hb' [Hr|[Hr|Hr]]; unfold page_ready; [by left|right; left|right; right].
  - pose proof (ps_epp _ _ _ _ _ Hp) as He. apply andb_true_iff in Hr as [H1%Z.ltb_lt H2%Z.ltb_lt]. apply andb_true_iff. rewrite A2, A4.
    rewrite (u32_id (entries_per_page _)) in * by lia. rewrite u32_id in *; [| |];
      try (split; [apply Z.div_pos; lia|]; apply Z.div_lt_upper_bound; nia).
    split; apply Z.ltb_lt; [|lia]. pose proof (Z.div_le_mono (bump_ptr (bin st)) (bump_ptr (bin st')) (entries_per_page (bin st))). lia.
  - intros r. rewrite A2. rewrite file_byte_zeros. apply Hr.
Qed.

(** ** Bins that are ready for writes *)

(** A bin with room for [n] more entries, outside a checkpoint: its pages have no slack ([br_geo]), its
    entries fit into the array of 4096 bytes of a write past the buffer ([br_esz]), the pages in [loads]
    can be loaded ([br_pages], see [page_ready]), its free entries are below the bump pointer, its files
    cover its entries, whole pages of the data file, and its key buffer is well formed. *)
Record bin_ready st (sl : list PageSlot) (f : list Z) (n : Z) : Prop := {
  br_put : put_st others theirs st sl f;
  br_ckpt : in_checkpoint (bin st) = false;
  br_tracker : wf_tracker (dirty (bin st));
  br_segs : segment_count (active (dirty (bin st))) + n <= 32768;
  br_max : countb occ sl + n <= max_pages (write_buf (bin st));
  br_batch : countb occ sl + n <= GRAVELDB_MAX_FLUSH_BATCH;
  br_geo : page_size (bin st) = entries_per_page (bin st) * entry_size (bin st);
  br_esz : entry_size (bin st) <= 4096;
  br_pages : forall pg, 0 <= pg -> loads pg -> page_ready st sl f pg;
  br_free : free_ok (bin st);
  br_bump : 0 <= bump_ptr (bin st) /\ 0 <= n /\ bump_ptr (bin st) + n < 2 ^ 31;
  br_data : bump_ptr (bin st) * entry_size (bin st) <= data_file_size (bin st) <= zlen f /\ data_file_size (bin st) <= 2 ^ 62 /\
    exists k, data_file_size (bin st) = k * page_size (bin st);
  br_keys : bump_ptr (bin st) * 8 <= key_file_size (bin st) <= 2 ^ 62;
  br_key_file : exists kf, key_fd (bin st) <> fd (bin st) /\ files (sys st) !! key_fd (bin st) = Some kf;
  br_key_buf : exists mk, kbt_inv (key_buf (bin st)) mk /\ 3 <= arena_cap (key_buf (bin st)) <= ARENA_BOUND /\
    forall k v, mk !! k = Some v -> 0 <= k < bump_ptr (bin st)
}.

(** The files have room for [c] more entries. *)
Definition reserved st (c : Z) : Prop :=
  (bump_ptr (bin st) + c) * entry_size (bin st) <= data_file_size (bin st) /\ (bump_ptr (bin st) + c) * 8 <= key_file_size (bin st).

Lemma reserved_le st sl f n c c' : bin_ready st sl f n -> reserved st c -> c' <= c -> reserved st c'.
Proof. intros Hr [H1 H2] Hc. pose proof (ps_esz _ _ _ _ _ (br_put _ _ _ _ Hr)). split; nia. Qed.

(** The entries in use are below the bump pointer and not free. *)
Definition uses st (U : Z -> Prop) : Prop :=
  forall e, U e -> 0 <= e < bump_ptr (bin st) /\ forall free, free_list (bin st) = Some free -> ~ (e ∈ free).

(** What [grew] and the fields that it leaves open give. *)
Lemma bin_ready_grew st sl f st' f' n n' :
  bin_ready st sl f n -> grew st f st' f' -> n' <= n ->
  bump_ptr (bin st') + n' < 2 ^ 31 ->
  free_ok (bin st') ->
  (bump_ptr (bin st') * entry_size (bin st) <= data_file_size (bin st') <= zlen f' /\ data_file_size (bin st') <= 2 ^ 62 /\
    exists k, data_file_size (bin st') = k * page_size (bin st)) ->
  bump_ptr (bin st') * 8 <= key_file_size (bin st') <= 2 ^ 62 ->
  (exists kf, files (sys st') !! key_fd (bin st) = Some kf) ->
  (exists mk, kbt_inv (key_buf (bin st')) mk /\ 3 <= arena_cap (key_buf (bin st')) <= ARENA_BOUND /\
    forall k v, mk !! k = Some v -> 0 <= k < bump_ptr (bin st')) ->
  0 <= n' -> bin_ready st' sl f' n'.
Proof.
  intros [R1 R2 R3 R4 R5 R6 R7 R8 R9 R10 R11 R12 R13 R14 R15] Hg Hn H1 H2 H3 H4 H5 H6 H7.
  pose proof Hg as [A1 A2 A3 A4 A5 A6 A7 A8 A9 A10 A11 A12 A13 A14 A15 A16 A17].
  split; rewrite ?A2, ?A3, ?A4, ?A5, ?A6, ?A7, ?A8, ?A9; auto; try lia.
  - by eapply put_st_grew.
  - intros pg Hpg Hlo. eapply page_ready_grew; [exact R1|exact Hg|lia| |by apply R9]. lia.
  - destruct R14 as (kf & Hk & _). destruct H5 as [kf' Hk']. exists kf'. by split.
Qed.

Lemma bin_ready_le st sl f n n' : bin_ready st sl f n -> 0 <= n' <= n -> bin_ready st sl f n'.
Proof. intros [] [? ?]. split; try done; lia. Qed.

(** ** Growing the files *)

Lemma preallocate_quiet st g (f : list Z) size : answers (sys st) = [] -> files (sys st) !! g = Some f ->
  onsys (graveldb_preallocate g size) st = Ret (0, with_file st g (f ++ replicate (Z.to_nat size - length f) 0)).
Proof.
  intros Ha Hf. unfold onsys, graveldb_preallocate, fallocate, ask, gets, bindM. rewrite Ha. cbn [res_bind fst snd]. by rewrite Hf.
Qed.

(** The data file gets longer: whole pages of zeros. *)
Lemma bin_ready_data st sl f n new :
  bin_ready st sl f n -> data_file_size (bin st) <= new <= 2 ^ 62 -> (exists j, new = j * page_size (bin st)) ->
  let f' := (f ++ replicate (Z.to_nat new - length f) 0)%list in
  let st' := mkBinSt (set_data_file_size (bin st) new) (set_files (sys st) (<[fd (bin st) := f']> (files (sys st)))) in
  grew st f st' f' /\ bin_ready st' sl f' n.
Proof.
  intros Hr Hn Hj f' st'. assert (zlen f' = Z.max (zlen f) new) as Hz by (unfold f', zlen; rewrite length_app, length_replicate; pose proof (br_bump _ _ _ _ Hr); pose proof (ps_esz _ _ _ _ _ (br_put _ _ _ _ Hr)); pose proof (br_data _ _ _ _ Hr); nia).
  assert (grew st f st' f') as Hg.
  { split; try done; simpl; [lia|by eexists|intros _; by rewrite lookup_insert_eq|intros g Hg _; by rewrite lookup_insert_ne]. }
  split; [done|]. destruct Hr as [R1 R2 R3 R4 R5 R6 R7 R8 R9 R10 R11 R12 R13 R14 R15]. apply (bin_ready_grew st sl f st' f' n n); try done; simpl; try lia.
  - split; [lia|]. split; [lia|done].
  - destruct R14 as (kf & Hne & Hkf). exists kf. by rewrite lookup_insert_ne.
Qed.

(** The first part of a reservation. *)
Lemma reserve_data_spec st sl f n required :
  bin_ready st sl f n -> bump_ptr (bin st) * entry_size (bin st) <= required <= 2 ^ 45 ->
  exists st' f', when (data_file_size (bin st) <? required)
      (let new_size := if 0 <? data_file_size (bin st) then u64 (data_file_size (bin st) * 2) else u64 (page_size (bin st) * 256) in
       let* new_size := lift (double_until 66 new_size required) in grow_data_file new_size required) st = Ret (tt, st') /\
    grew st f st' f' /\ bin_ready st' sl f' n /\ required <= data_file_size (bin st') /\
    bin st' = set_data_file_size (bin st) (data_file_size (bin st')).
Proof.
  intros Hr Hq. pose proof (br_data _ _ _ _ Hr) as (Hd1 & Hd2 & k & Hk). pose proof (br_put _ _ _ _ Hr) as Hp.
  pose proof (bs_psz _ _ (ps_buf _ _ _ _ _ Hp)) as Hpsz. pose proof (ps_fit _ _ _ _ _ Hp) as Hfit. pose proof (ps_file _ _ _ _ _ Hp) as Hf.
  pose proof (ps_esz _ _ _ _ _ Hp) as Hesz. pose proof (br_bump _ _ _ _ Hr) as Hbump.
  assert (0 <= data_file_size (bin st)) as Hd0 by nia.
  destruct (Z.ltb_spec (data_file_size (bin st)) required) as [Hl|Hl]; cbn [when].
  2: { exists st, f. split; [done|]. split; [apply grew_refl|]. split; [done|]. split; [done|]. by destruct (bin st). }
  set (size := if 0 <? data_file_size (bin st) then _ else _).
  assert (0 < size < 2 ^ 46 /\ exists j, size = j * page_size (bin st)) as (Hs & j & Hj).
  { unfold size. destruct (Z.ltb_spec 0 (data_file_size (bin st))); rewrite u64_id by lia; (split; [lia|]); [exists (k * 2)|exists 256]; lia. }
  destruct (double_until_spec required ltac:(lia) 65 size) as (i & Hi & Ed & Hb); [lia|cbn; nia|].
  cbv zeta. rewrite Ed. set (new := size * 2 ^ i) in *. unfold bindM at 1. cbn [lift res_bind fst snd].
  unfold grow_data_file, get_bin, gets. unfold bindM at 1. cbn [res_bind fst snd].
  rewrite (bindM_ret _ _ _ _ _ (preallocate_quiet st (fd (bin st)) f new (ps_quiet _ _ _ _ _ Hp) Hf)). cbn [Z.eqb]. unfold upd, modify.
  destruct (bin_ready_data st sl f n new Hr) as [Hg Hr']; [lia|exists (j * 2 ^ i); unfold new; rewrite Hj; lia|].
  eexists _, _. split; [done|]. split; [exact Hg|]. split; [exact Hr'|]. by split; [simpl; lia|].
Qed.

(** A step that changes the key file and what the bin knows of it. *)
Lemma bin_ready_keys st sl f n kf ks t mk :
  bin_ready st sl f n -> bump_ptr (bin st) * 8 <= ks <= 2 ^ 62 ->
  kbt_inv t mk -> 3 <= arena_cap t <= ARENA_BOUND -> (forall k v, mk !! k = Some v -> 0 <= k < bump_ptr (bin st)) ->
  let st' := mkBinSt (set_key_buf (set_key_file_size (bin st) ks) t) (set_files (sys st) (<[key_fd (bin st) := kf]> (files (sys st)))) in
  grew st f st' f /\ bin_ready st' sl f n.
Proof.
  intros Hr Hk Ht Hc Hm st'. destruct Hr as [R1 R2 R3 R4 R5 R6 R7 R8 R9 R10 R11 R12 R13 (kf0 & Hne & Hkf) R15] eqn:Er.
  assert (grew st f st' f) as Hg.
  { split; try done; simpl; [exists 0%nat; by rewrite app_nil_r|intros Hf; by rewrite lookup_insert_ne|intros g _ Hg; by rewrite lookup_insert_ne]. }
  split; [done|]. apply (bin_ready_grew st sl f st' f n n); try done; simpl; try lia; [by rewrite lookup_insert_eq; eexists|by exists mk].
Qed.

Lemma reserve_keys_spec st sl f n required :
  bin_ready st sl f n -> bump_ptr (bin st) * 8 <= required <= 2 ^ 45 ->
  exists st', when (key_file_size (bin st) <? required)
      (let new_size := if 0 <? key_file_size (bin st) then u64 (key_file_size (bin st) * 2) else 8192 in
       let* new_size := lift (double_until 66 new_size required) in
       let* r := onsys (graveldb_preallocate (key_fd (bin st)) new_size) in
       when (r =? 0) (upd (fun s => set_key_file_size s new_size))) st = Ret (tt, st') /\
    grew st f st' f /\ bin_ready st' sl f n /\ required <= key_file_size (bin st') /\
    bin st' = set_key_file_size (bin st) (key_file_size (bin st')).
Proof.
  intros Hr Hq. pose proof (br_keys _ _ _ _ Hr) as Hk. pose proof (br_key_file _ _ _ _ Hr) as (kf & Hne & Hkf). pose proof (br_bump _ _ _ _ Hr) as Hbump.
  destruct (Z.ltb_spec (key_file_size (bin st)) required) as [Hl|Hl]; cbn [when].
  2: { exists st. split; [done|]. split; [apply grew_refl|]. split; [done|]. split; [done|]. by destruct (bin st). }
  set (size := if 0 <? key_file_size (bin st) then _ else _).
  assert (0 < size < 2 ^ 46) as Hs by (unfold size; destruct (Z.ltb_spec 0 (key_file_size (bin st))); [rewrite u64_id by lia|]; lia).
  destruct (double_until_spec required ltac:(lia) 65 size) as (i & Hi & Ed & Hb); [lia|cbn; nia|].
  cbv zeta. rewrite Ed. set (new := size * 2 ^ i) in *. unfold bindM at 1. cbn [lift res_bind fst snd].
  rewrite (bindM_ret _ _ _ _ _ (preallocate_quiet st (key_fd (bin st)) kf new (ps_quiet _ _ _ _ _ (br_put _ _ _ _ Hr)) Hkf)). cbn [Z.eqb when]. unfold upd, modify.
  destruct (br_key_buf _ _ _ _ Hr) as (mk & K1 & K2 & K3).
  destruct (bin_ready_keys st sl f n (kf ++ replicate (Z.to_nat new - length kf) 0) new (key_buf (bin st)) mk Hr) as [Hg Hr']; [lia|done..|].
  eexists. split; [done|]. set (st' := mkBinSt _ _) in Hg, Hr'. set (st2 := mkBinSt _ _).
  assert (st2 = st') as -> by (unfold st2, st'; simpl; by destruct (bin st)).
  split; [done|]. split; [done|]. split; [simpl; lia|]. unfold st'. simpl. by destruct (bin st).
Qed.

(** A reservation makes room in the files for [c] entries. *)
Lemma reserve_spec st sl f n c : bin_ready st sl f n -> 0 <= c <= n ->
  exists st' f', dimbin_reserve c st = Ret (tt, st') /\ grew st f st' f' /\ bin_ready st' sl f' n /\ reserved st' c /\
    bump_ptr (bin st') = bump_ptr (bin st) /\ free_list (bin st') = free_list (bin st).
Proof.
  intros Hr Hc. pose proof (br_bump _ _ _ _ Hr) as Hb. pose proof (br_put _ _ _ _ Hr) as Hp. pose proof (ps_esz _ _ _ _ _ Hp) as He.
  pose proof (br_esz _ _ _ _ Hr) as He'.
  unfold dimbin_reserve, get_bin, gets. unfold bindM at 1. cbn [res_bind fst snd].
  rewrite (u64_id (bump_ptr (bin st) + c)), (u64_id (_ * entry_size _)), (u64_id (_ * 8)) by nia.
  destruct (reserve_data_spec st sl f n ((bump_ptr (bin st) + c) * entry_size (bin st)) Hr) as (st1 & f' & E1 & G1 & R1 & S1 & B1); [nia|].
  rewrite (bindM_ret _ _ _ _ _ E1).
  assert (key_file_size (bin st) = key_file_size (bin st1) /\ key_fd (bin st) = key_fd (bin st1) /\ bump_ptr (bin st) = bump_ptr (bin st1) /\
    entry_size (bin st) = entry_size (bin st1) /\ free_list (bin st) = free_list (bin st1)) as (-> & -> & Ebp & Ees & Efr) by (rewrite B1; done).
  destruct (reserve_keys_spec st1 sl f' n ((bump_ptr (bin st) + c) * 8) R1) as (st2 & E2 & G2 & R2 & S2 & B2); [lia|].
  exists st2, f'. split; [done|]. split; [by eapply grew_trans|]. split; [done|].
  assert (data_file_size (bin st2) = data_file_size (bin st1) /\ bump_ptr (bin st2) = bump_ptr (bin st1) /\ entry_size (bin st2) = entry_size (bin st1) /\
    free_list (bin st2) = free_list (bin st1)) as (D1 & D2 & D3 & D4) by (rewrite B2; done).
  split; [|split; congruence]. unfold reserved. rewrite D1, D2, D3, <- Ebp, <- Ees. done.
Qed.

(** ** Taking an entry *)

(** After a reservation, or when there are free entries, an entry is taken without touching
    the files: one that is not in use, whose place both files cover. *)
Lemma alloc_reserved_spec st sl f n c U : bin_ready st sl f n -> 0 < c <= n -> reserved st (c - 1) -> (free_list (bin st) = Some [] -> reserved st c) -> uses st U ->
  exists e st', dimbin_alloc_entry st = Ret (e, st') /\ grew st f st' f /\ bin_ready st' sl f (n - 1) /\ reserved st' (c - 1) /\
    sys st' = sys st /\ ~ U e /\ 0 <= e < bump_ptr (bin st') /\ uses st' (fun x => x = e \/ U x).
Proof.
  intros Hr Hc [Hw1 Hw2] Hv HU. pose proof (br_bump _ _ _ _ Hr) as Hb. pose proof (br_free _ _ _ _ Hr) as (free & Hfree & Hnd & Hlt & Hcap & Hcap0).
  pose proof (ps_esz _ _ _ _ _ (br_put _ _ _ _ Hr)) as He. pose proof (br_esz _ _ _ _ Hr) as He'. pose proof (br_data _ _ _ _ Hr) as (Hd1 & Hd2 & Hd3).
  pose proof (br_keys _ _ _ _ Hr) as Hk. destruct (br_key_buf _ _ _ _ Hr) as (mk & K1 & K2 & K3). destruct (br_key_file _ _ _ _ Hr) as (kf & Hne & Hkf).
  assert (forall st', sys st' = sys st -> forall b fr te tp, 
    bin st' = set_total_pages (set_total_entries (set_free_list (set_bump_ptr (bin st) b) (Some fr)) te) tp ->
    bump_ptr (bin st) <= b <= bump_ptr (bin st) + 1 -> (b = bump_ptr (bin st) \/ reserved st c) -> NoDup fr -> (forall e, e ∈ fr -> 0 <= e < b) -> zlen fr <= free_capacity (bin st) ->
    grew st f st' f /\ bin_ready st' sl f (n - 1) /\ reserved st' (c - 1)) as Hgo.
  { intros st' Es b fr te tp Eb Hbb Hv' Hfr1 Hfr2 Hfr3.
    assert (b * entry_size (bin st) <= (b + (c - 1)) * entry_size (bin st)) as Hm1 by (apply Z.mul_le_mono_nonneg_r; lia).
    assert ((b + (c - 1)) * entry_size (bin st) <= data_file_size (bin st) /\ (b + (c - 1)) * 8 <= key_file_size (bin st)) as [Hbd' Hbk'].
    { destruct Hv' as [->|[Hx1 Hx2]]; [by split|]. split; [|lia]. etrans; [|exact Hx1]. apply Z.mul_le_mono_nonneg_r; lia. }
    assert (grew st f st' f) as Hg by (split; rewrite ?Eb, ?Es; try done; [simpl; lia|exists 0%nat; by rewrite app_nil_r]).
    split; [done|]. split; [apply (bin_ready_grew st sl f st' f n (n - 1)); rewrite ?Eb, ?Es; simpl; try done; try lia|].
    - exists fr. by split_and!.
    - split; [lia|done].
    - by eexists.
    - exists mk. split; [done|]. split; [done|]. intros k v E. apply K3 in E. lia.
    - unfold reserved. rewrite Eb. by simpl. }
  unfold dimbin_alloc_entry, get_bin, gets. unfold bindM at 1. cbn [res_bind fst snd]. unfold bindM at 1. rewrite Hfree. cbn [deref lift res_bind fst snd].
  destruct free as [|e free].
  - pose proof (Hv Hfree) as Hv'. destruct (Hv Hfree) as [Hv1 Hv2]. rewrite !(u32_id (bump_ptr (bin st))) by lia. rewrite !(u32_id (bump_ptr (bin st) + 1)) by lia.
    rewrite (u64_id ((bump_ptr (bin st) + 1) * entry_size (bin st))) by nia. unfold bindM at 1, upd at 1, modify. cbn [res_bind fst snd].
    rewrite (u64_id (bump_ptr (bin st) + 1)) by lia. set (slot := bump_ptr (bin st)) in *.
    rewrite (proj2 (Z.ltb_ge (data_file_size (bin st)) _)) by nia. unfold bindM at 1. cbn [when ret res_bind fst snd].
    rewrite (proj2 (Z.ltb_ge (key_file_size (bin st)) _)) by lia. unfold bindM at 1. cbn [when ret res_bind fst snd].
    assert (exists st', (let* _ := when (total_entries (bin st) <=? slot)
          (upd (fun s => set_total_pages (set_total_entries s (slot + 1)) (u64 (slot + 1 + u64 (entries_per_page s) - 1) / u64 (entries_per_page s)))) in ret slot)
          (mkBinSt (set_bump_ptr (bin st) (slot + 1)) (sys st)) = Ret (slot, st') /\ sys st' = sys st /\
        exists te tp, bin st' = set_total_pages (set_total_entries (set_free_list (set_bump_ptr (bin st) (slot + 1)) (Some [])) te) tp) as (st' & E & Es & te & tp & Eb).
    { destruct (_ <=? slot); unfold bindM, upd, modify, ret; cbn [when res_bind fst snd]; eexists; (split; [done|]); (split; [done|]).
      - exists (slot + 1), (u64 (slot + 1 + u64 (entries_per_page (bin st)) - 1) / u64 (entries_per_page (bin st))). unfold set_total_pages, set_total_entries, set_free_list, set_bump_ptr. simpl. by rewrite Hfree.
      - exists (total_entries (bin st)), (total_pages (bin st)). destruct st as [[] ?]. simpl in *. by subst. }
    exists slot, st'. split; [exact E|]. destruct (Hgo st' Es (slot + 1) [] te tp Eb) as (G & R & V); [lia|by right|constructor|by intros e ?%elem_of_nil|unfold zlen; simpl; lia|].
    split; [done|]. split; [done|]. split; [done|]. split; [done|]. split; [intros Hx%HU; lia|]. rewrite Eb. simpl. split; [lia|].
    intros x Hx. rewrite Eb. simpl. split; [destruct Hx as [->|Hx]; [lia|]; apply HU in Hx; lia|]. intros fr [= <-]. apply not_elem_of_nil.
  - apply NoDup_cons in Hnd as [Hni Hnd]. set (st' := mkBinSt (set_free_list (bin st) (Some free)) (sys st)). exists e, st'. split; [done|].
    destruct (Hgo st' eq_refl (bump_ptr (bin st)) free (total_entries (bin st)) (total_pages (bin st))) as (G & R & V); [by destruct st as [[] ?]|lia|by left|done|intros; apply Hlt; set_solver|unfold zlen in *; simpl in *; lia|].
    split; [done|]. split; [done|]. split; [done|]. split; [done|]. split; [intros Hx; destruct (HU e Hx) as [_ Hx']; apply (Hx' _ Hfree); set_solver|].
    split; [apply Hlt; set_solver|]. intros x Hx. simpl. split; [destruct Hx as [->|Hx]; [apply Hlt; set_solver|by apply HU]|].
    intros fr [= <-]. destruct Hx as [->|Hx]; [done|]. destruct (HU x Hx) as [_ Hx']. intros Hin. apply (Hx' _ Hfree). set_solver.
Qed.

(** Without a reservation the files are grown first, if they have to be. [b] is the bump
    pointer that is set before. *)
Lemma alloc_data_spec st sl f n b : bin_ready st sl f n -> 1 <= n ->
  let required := (bump_ptr (bin st) + 1) * entry_size (bin st) in
  exists size f', let st1 := mkBinSt (set_data_file_size (bin st) size) (set_files (sys st) (<[fd (bin st) := f']> (files (sys st)))) in
    when (data_file_size (bin st) <? required)
      (let new_size := if 0 <? data_file_size (bin st) then u64 (data_file_size (bin st) * 2) else u64 (page_size (bin st) * 256) in
       let new_size := if new_size <? required then u64 (required * 2) else new_size in
       grow_data_file new_size required) (mkBinSt (set_bump_ptr (bin st) b) (sys st)) = Ret (tt, mkBinSt (set_bump_ptr (bin st1) b) (sys st1)) /\
    grew st f st1 f' /\ bin_ready st1 sl f' n /\ required <= size.
Proof.
  intros Hr Hn required. pose proof (br_data _ _ _ _ Hr) as (Hd1 & Hd2 & k & Hk). pose proof (br_put _ _ _ _ Hr) as Hp. pose proof (br_geo _ _ _ _ Hr) as Hgeo.
  pose proof (bs_psz _ _ (ps_buf _ _ _ _ _ Hp)) as Hpsz. pose proof (ps_fit _ _ _ _ _ Hp) as Hfit. pose proof (ps_file _ _ _ _ _ Hp) as Hf.
  pose proof (ps_esz _ _ _ _ _ Hp) as Hesz. pose proof (br_bump _ _ _ _ Hr) as Hbump. pose proof (br_esz _ _ _ _ Hr) as Hesz'. pose proof (ps_epp _ _ _ _ _ Hp) as Hepp.
  assert (required <= 2 ^ 43) as Hreq by (unfold required; nia). assert (entry_size (bin st) <= page_size (bin st)) as Hep by nia.
  destruct (Z.ltb_spec (data_file_size (bin st)) required) as [Hl|Hl]; cbn [when].
  2: { exists (data_file_size (bin st)), f. rewrite insert_id by done. cbv zeta. replace (set_files (sys st) (files (sys st))) with (sys st) by (by destruct (sys st)).
       replace (set_data_file_size (bin st) (data_file_size (bin st))) with (bin st) by (by destruct (bin st)). replace (mkBinSt (bin st) (sys st)) with st by (by destruct st).
       split; [done|]. split; [apply grew_refl|]. by split. }
  set (size := if 0 <? data_file_size (bin st) then _ else _).
  assert (required <= size <= 2 ^ 45 /\ exists j, size = j * page_size (bin st)) as (Hs & j & Hj).
  { unfold size, required in *. destruct (Z.ltb_spec 0 (data_file_size (bin st))); rewrite u64_id by lia.
    - assert (1 <= k) by nia. split; [nia|]. exists (k * 2). lia.
    - assert (bump_ptr (bin st) = 0) by nia. split; [nia|]. exists 256. lia. }
  cbv zeta. rewrite (proj2 (Z.ltb_ge size required)) by lia. unfold grow_data_file, get_bin, gets. unfold bindM at 1. cbn [res_bind fst snd].
  rewrite (bindM_ret _ _ _ _ _ (preallocate_quiet (mkBinSt (set_bump_ptr (bin st) b) (sys st)) (fd (bin st)) f size (ps_quiet _ _ _ _ _ Hp) Hf)). cbn [Z.eqb]. unfold upd, modify.
  destruct (bin_ready_data st sl f n size Hr) as [Hg Hr']; [lia|by exists j|]. eexists size, _. split; [done|]. split; [exact Hg|]. split; [exact Hr'|lia].
Qed.

Lemma alloc_keys_spec st sl f n b : bin_ready st sl f n -> 1 <= n ->
  let required := (bump_ptr (bin st) + 1) * 8 in
  exists size kf, let st1 := mkBinSt (set_key_file_size (bin st) size) (set_files (sys st) (<[key_fd (bin st) := kf]> (files (sys st)))) in
    when (key_file_size (bin st) <? required)
      (let new_size := if 0 <? key_file_size (bin st) then u64 (key_file_size (bin st) * 2) else 8192 in
       let new_size := if new_size <? required then u64 (required * 2) else new_size in
       let* r := onsys (ftruncate (key_fd (bin st)) new_size) in
       when (r =? 0) (upd (fun s => set_key_file_size s new_size))) (mkBinSt (set_bump_ptr (bin st) b) (sys st)) = Ret (tt, mkBinSt (set_bump_ptr (bin st1) b) (sys st1)) /\
    grew st f st1 f /\ bin_ready st1 sl f n /\ required <= size.
Proof.
  intros Hr Hn required. pose proof (br_keys _ _ _ _ Hr) as Hk. pose proof (br_key_file _ _ _ _ Hr) as (kf & Hne & Hkf). pose proof (br_bump _ _ _ _ Hr) as Hbump.
  destruct (br_key_buf _ _ _ _ Hr) as (mk & K1 & K2 & K3). pose proof (ps_quiet _ _ _ _ _ (br_put _ _ _ _ Hr)) as Hq.
  assert (forall size kf, bump_ptr (bin st) * 8 <= size <= 2 ^ 62 ->
    let st1 := mkBinSt (set_key_file_size (bin st) size) (set_files (sys st) (<[key_fd (bin st) := kf]> (files (sys st)))) in grew st f st1 f /\ bin_ready st1 sl f n) as Hgo.
  { intros size kf' Hs st1. destruct (bin_ready_keys st sl f n kf' size (key_buf (bin st)) mk Hr) as [Hg Hr']; [done..|].
    set (st2 := mkBinSt _ _) in Hg, Hr'. assert (st2 = st1) as <- by (unfold st2, st1; by destruct (bin st)). done. }
  destruct (Z.ltb_spec (key_file_size (bin st)) required) as [Hl|Hl]; cbn [when].
  2: { exists (key_file_size (bin st)), kf. destruct (Hgo (key_file_size (bin st)) kf ltac:(lia)) as [Hg Hr']. cbv zeta. split; [|by split; [|split]].
       rewrite insert_id by done. unfold ret. do 2 f_equal. destruct st as [[] []]. done. }
  set (size := if 0 <? key_file_size (bin st) then _ else _). assert (0 <= size <= 2 ^ 44) as Hs by (unfold size, required in *; case_match; [rewrite u64_id|]; lia).
  cbv zeta. set (new := if size <? required then _ else _). assert (required <= new <= 2 ^ 45) as Hnew.
  { unfold new. clearbody size. unfold required in *. destruct (Z.ltb_spec size ((bump_ptr (bin st) + 1) * 8)); [rewrite u64_id|]; lia. }
  unfold onsys, ftruncate, bindM, gets. cbn [sys]. rewrite sys_ok_quiet by done. cbn [res_bind fst snd]. rewrite Hkf. cbn [modify res_bind fst snd ret Z.eqb when upd].
  eexists new, _. split; [done|]. destruct (Hgo new (take (Z.to_nat new) kf ++ replicate (Z.to_nat new - length kf) 0)%list ltac:(lia)) as [Hg Hr']. split; [exact Hg|]. split; [exact Hr'|lia].
Qed.

Lemma alloc_bump st s1 s2 : free_list (bin st) = Some [] -> let slot := bump_ptr (bin st) in 0 <= slot < 2 ^ 31 -> 0 < entry_size (bin st) <= 4096 ->
  when (data_file_size (bin st) <? (slot + 1) * entry_size (bin st))
    (let new_size := if 0 <? data_file_size (bin st) then u64 (data_file_size (bin st) * 2) else u64 (page_size (bin st) * 256) in
     let new_size := if new_size <? (slot + 1) * entry_size (bin st) then u64 ((slot + 1) * entry_size (bin st) * 2) else new_size in
     grow_data_file new_size ((slot + 1) * entry_size (bin st))) (mkBinSt (set_bump_ptr (bin st) (slot + 1)) (sys st)) = Ret (tt, s1) ->
  when (key_file_size (bin st) <? (slot + 1) * 8)
    (let new_size := if 0 <? key_file_size (bin st) then u64 (key_file_size (bin st) * 2) else 8192 in
     let new_size := if new_size <? (slot + 1) * 8 then u64 ((slot + 1) * 8 * 2) else new_size in
     let* r := onsys (ftruncate (key_fd (bin st)) new_size) in
     when (r =? 0) (upd (fun s => set_key_file_size s new_size))) s1 = Ret (tt, s2) ->
  dimbin_alloc_entry st = (do* when (total_entries (bin st) <=? slot)
    (upd (fun s => set_total_pages (set_total_entries s (slot + 1)) (u64 (slot + 1 + u64 (entries_per_page s) - 1) / u64 (entries_per_page s)))) in ret slot) s2.
Proof.
  intros Hfree slot Hs He E1 E2. unfold dimbin_alloc_entry, get_bin, gets. unfold bindM at 1. cbn [res_bind fst snd]. unfold bindM at 1. rewrite Hfree. cbn [deref lift res_bind fst snd].
  fold slot. rewrite !(u32_id slot), !(u32_id (slot + 1)), (u64_id ((slot + 1) * entry_size (bin st))) by nia.
  unfold bindM at 1, upd at 1, modify. cbn [res_bind fst snd]. fold slot. rewrite (u64_id (slot + 1)) by lia. rewrite (bindM_ret _ _ _ _ _ E1), (bindM_ret _ _ _ _ _ E2). done.
Qed.

(** Taking an entry: the files are grown if nothing is free and they are full. *)
Lemma alloc_grown_spec st sl f n U : bin_ready st sl f n -> 1 <= n -> uses st U ->
  exists e st' f', dimbin_alloc_entry st = Ret (e, st') /\ grew st f st' f' /\ bin_ready st' sl f' (n - 1) /\
    ~ U e /\ 0 <= e < bump_ptr (bin st') /\ uses st' (fun x => x = e \/ U x).
Proof.
  intros Hr Hn HU. pose proof (br_bump _ _ _ _ Hr) as Hb. pose proof (br_free _ _ _ _ Hr) as (free & Hfree & _). pose proof (br_esz _ _ _ _ Hr) as He'.
  pose proof (ps_esz _ _ _ _ _ (br_put _ _ _ _ Hr)) as He. pose proof (br_data _ _ _ _ Hr) as (Hd1 & _). pose proof (br_keys _ _ _ _ Hr) as Hk.
  destruct free as [|e free].
  2: { destruct (alloc_reserved_spec st sl f n 1 U Hr) as (e' & st' & E & G & R & _ & _ & H1 & H2 & H3); [lia|split; lia|congruence|done|].
       exists e', st', f. done. }
  destruct (alloc_data_spec st sl f n (bump_ptr (bin st) + 1) Hr Hn) as (size & f1 & E1 & G1 & R1 & S1).
  set (st1 := mkBinSt (set_data_file_size _ _) _) in *. destruct (alloc_keys_spec st1 sl f1 n (bump_ptr (bin st) + 1) R1 Hn) as (ks & kf & E2 & G2 & R2 & S2). set (st2 := mkBinSt (set_key_file_size _ _) _) in *.
  destruct (alloc_reserved_spec st2 sl f1 n 1 U R2) as (e & st' & E & G & R & _ & _ & H1 & H2 & H3); [lia| |intros _; split; [exact S1|exact S2]|done|].
  { eapply reserved_le; [exact R2|split; [exact S1|exact S2]|lia]. }
  exists e, st', f1. split; [|split; [eapply grew_trans; [exact G1|by eapply grew_trans]|done]].
  rewrite <- E. rewrite (alloc_bump st _ _ Hfree ltac:(lia) ltac:(lia) E1 E2). symmetry. erewrite (alloc_bump st2 _ _ Hfree); [|simpl; lia|simpl; lia| |].
  - reflexivity.
  - rewrite (proj2 (Z.ltb_ge _ _)) by exact S1. done.
  - rewrite (proj2 (Z.ltb_ge _ _)) by exact S2. done.
Qed.

(** ** Buffering a key *)

(** The key of an entry goes to the key buffer, which is written to the key file when
    it is full. *)
Lemma buf_key_spec st sl f n e fid : bin_ready st sl f n -> 0 <= e < bump_ptr (bin st) ->
  exists st', dimbin_buf_key e fid st = Ret (tt, st') /\ grew st f st' f /\ bin_ready st' sl f n /\
    exists t, bin st' = set_key_buf (bin st) t.
Proof.
  intros Hr He. destruct (br_key_buf _ _ _ _ Hr) as (mk & K1 & K2 & K3). destruct (br_key_file _ _ _ _ Hr) as (kf & Hne & Hkf).
  pose proof (br_keys _ _ _ _ Hr) as Hk. pose proof (br_bump _ _ _ _ Hr) as Hb.
  unfold dimbin_buf_key, get_bin, gets. unfold bindM at 1. cbn [res_bind fst snd].
  assert (exists st1, when (kbt_full (key_buf (bin st))) (let* _ := dimbin_flush_keys in ret tt) st = Ret (tt, st1) /\ grew st f st1 f /\ bin_ready st1 sl f n /\
    (exists t, bin st1 = set_key_buf (bin st) t) /\ kbt_full (key_buf (bin st1)) = false) as (st1 & E1 & G1 & R1 & (t1 & B1) & F1).
  { destruct (kbt_full (key_buf (bin st))) eqn:Ef; cbn [when].
    - destruct (flush_keys_spec st kf mk) as (kf' & t & Et & Ht & Ec & _); [by split; [apply Hr|]|done| |].
      { intros k v Hkv. apply K3 in Hkv. lia. }
      rewrite (bindM_ret _ _ _ _ _ Et). unfold ret. eexists. split; [done|].
      destruct (bin_ready_keys st sl f n kf' (key_file_size (bin st)) t ∅ Hr) as [G R]; [lia|done|by rewrite Ec|by intros k v; rewrite lookup_empty|].
      set (st1 := mkBinSt _ _) in G, R. assert (with_key_buf (with_file st (key_fd (bin st)) kf') t = st1) as -> by (unfold st1, with_key_buf, with_file; simpl; by destruct (bin st)).
      split; [done|]. split; [done|]. split; [exists t; unfold st1; simpl; by destruct (bin st)|]. apply kbt_empty_room; [done|]. simpl. lia.
    - exists st. split; [done|]. split; [apply grew_refl|]. split; [done|]. split; [exists (key_buf (bin st)); by destruct (bin st)|done]. }
  rewrite (bindM_ret _ _ _ _ _ E1). unfold bindM at 1. cbn [res_bind fst snd]. destruct (br_key_buf _ _ _ _ R1) as (mk1 & K1' & K2' & K3').
  destruct (kbt_insert_spec (key_buf (bin st1)) mk1 e fid K1' F1) as (t & Ei & Ht & Hc); [lia|]. unfold bindM at 1. rewrite Ei. cbn [lift res_bind fst snd].
  unfold upd, modify. destruct (br_key_file _ _ _ _ R1) as (kf1 & _ & Hkf1).
  assert (bump_ptr (bin st1) = bump_ptr (bin st) /\ key_file_size (bin st1) = key_file_size (bin st)) as [Ebp Eks] by (by rewrite B1).
  destruct (bin_ready_keys st1 sl f n kf1 (key_file_size (bin st1)) t (<[e := fid]> mk1) R1) as [G R]; [lia|done|by rewrite Hc| |].
  { intros k v. rewrite Ebp. intros [[<- _]|[_ Hkv%K3']]%lookup_insert_Some; lia. }
  set (st' := mkBinSt _ _) in G, R. eexists. split; [done|]. assert (mkBinSt (set_key_buf (bin st1) t) (sys st1) = st') as ->.
  { unfold st'. rewrite insert_id by done. by destruct st1 as [[] []]. }
  split; [by eapply grew_trans|]. split; [done|]. exists t. unfold st'. simpl. rewrite B1. by destruct (bin st).
Qed.

(** ** Giving an entry back *)

(** The entry is free afterwards and its key is cleared; nothing that a reader sees changes. *)
Lemma free_entry_spec st sl f n e U : bin_ready st sl f n -> uses st U -> U e ->
  exists st', dimbin_free_entry e st = Ret (tt, st') /\ grew st f st' f /\ bin_ready st' sl f n /\ uses st' (fun x => U x /\ x <> e).
Proof.
  intros Hr HU Hu. pose proof (br_free _ _ _ _ Hr) as (free & Hfree & Hnd & Hlt & Hcap & Hcap0). pose proof (br_bump _ _ _ _ Hr) as Hb.
  destruct (HU e Hu) as [He Hef]. specialize (Hef _ Hfree).
  assert (forall cap, zlen free + 1 <= cap ->
    let st1 := mkBinSt (set_free_capacity (set_free_list (bin st) (Some (e :: free))) cap) (sys st) in
    exists st', dimbin_buf_key e 0 st1 = Ret (tt, st') /\ grew st f st' f /\ bin_ready st' sl f n /\ uses st' (fun x => U x /\ x <> e)) as Hpush.
  { intros cap Hc st1. assert (grew st f st1 f) as G1 by (split; try done; simpl; try lia; exists 0%nat; by rewrite app_nil_r).
    assert (bin_ready st1 sl f n) as R1.
    { pose proof Hr as [R1 R2 R3 R4 R5 R6 R7 R8 R9 R10 R11 R12 R13 (kf & Hne & Hkf) R15]. apply (bin_ready_grew st sl f st1 f n n Hr G1); [lia|simpl; lia| |exact R12|exact R13|by exists kf|exact R15|lia].
      exists (e :: free). simpl. split_and!; [done|by constructor|intros x [->|Hx]%elem_of_cons; [done|by apply Hlt]|unfold zlen in *; simpl; lia|pose proof (zlen_nonneg free); lia]. }
    destruct (buf_key_spec st1 sl f n e 0 R1 He) as (st' & E & G & R & t & B). exists st'. split; [done|]. split; [by eapply grew_trans|]. split; [done|].
    intros x [Hx Hne]. rewrite B. simpl. destruct (HU x Hx) as [H1 H2]. split; [done|]. intros fr [= <-]. specialize (H2 _ Hfree). rewrite elem_of_cons. tauto. }
  unfold dimbin_free_entry, get_bin, gets. unfold bindM at 1. cbn [res_bind fst snd]. unfold bindM at 1. rewrite Hfree. cbn [deref lift res_bind fst snd].
  destruct (Z.leb_spec (free_capacity (bin st)) (zlen free)) as [Hl|Hl].
  - assert (zlen free <= bump_ptr (bin st)) as Hz by (apply nodup_below; [lia|done|done]).
    rewrite u32_id by lia. unfold bindM at 1. unfold onsys. rewrite sys_ok_quiet by apply Hr. cbn [res_bind fst snd negb].
    rewrite (proj2 (Z.leb_gt _ _)) by lia. unfold bindM at 1, upd, modify. cbn [res_bind fst snd]. apply (Hpush (free_capacity (bin st) * 2)). lia.
  - unfold bindM at 1, upd, modify. cbn [res_bind fst snd]. apply Hpush. lia.
Qed.

(** ** After the embeddings were written *)

(** With memory for page buffers a bin is ready for more when a batch was written. *)
Lemma bin_ready_put st sl f n st' sl' f' l k :
  bin_ready st sl f n -> put_st others theirs st' sl' f' -> put_post st sl f st' sl' f' l -> put_buffered st st' sl' l -> grants st (length l + k) ->
  segment_count (active (dirty (bin st))) + (zlen l + n) <= 32768 -> countb occ sl + (zlen l + n) <= max_pages (write_buf (bin st)) ->
  countb occ sl + (zlen l + n) <= GRAVELDB_MAX_FLUSH_BATCH -> bin_ready st' sl' f' n.
Proof.
  intros Hr Hp Hq Hb Hg H1 H2 H3. destruct (Hb _ Hg) as [_ Hst]. pose proof (br_pages _ _ _ _ Hr) as Hpg. pose proof (br_put _ _ _ _ Hr) as Hp0.
  assert (forall pg, 0 <= pg -> loads pg -> page_ready st' sl' f' pg) as Hpg'.
  { intros pg H0 Hlo. destruct (decide (pg ∈ pages_of st l)) as [Hin|Hin]; [left; by apply Hst|]. eapply page_ready_kept; [exact Hp0|exact Hq|done|done|by apply Hpg]. }
  destruct Hr as [R1 R2 R3 R4 R5 R6 R7 R8 R9 R10 R11 R12 R13 R14 R15]. pose proof Hq as [(wb & al & dt & fl & E & M) Q2 Q3 Q4 Q5 Q6 Q7 Q8 Q9 Q10 Q11].
  pose proof (zlen_nonneg l). split; try done; rewrite ?E in *; simpl in *; try done; try lia.
  - destruct R12 as (? & ? & ?). split; [lia|]. by split.
  - destruct R14 as (kf & Hne & Hkf). exists kf. split; [done|]. by rewrite Q2, lookup_insert_ne.
Qed.

End ready.

(** The same bin beside fewer others, and with fewer pages that must be loadable. *)
Lemma bin_ready_others (o o' : Z -> Prop) (t t' : gmap Z (list Z)) (q q' : Z -> Prop) st sl f n :
  (forall a, o' a -> o a) -> (forall a, o' a -> t' !! a = t !! a) -> (forall a, q' a -> q a) -> bin_ready o t q st sl f n -> bin_ready o' t' q' st sl f n.
Proof.
  intros Ho Ht Hqq [R1 R2 R3 R4 R5 R6 R7 R8 R9 R10 R11 R12 R13 R14 R15]. split; try done; [|auto]. destruct R1 as [H1 H2 H3 H4 (al & A & E1 & E2 & E3 & E4) H6 H7 H8 H9 H10 H11].
  split; try done; [|intros a Ha; rewrite Ht by done; by apply H6, Ho]. exists al, A. split_and!; [done..|]. intros a Ha. by apply E4, Ho.
Qed.
End store.
