(* ===== verification/Names.v ===== *)
(** Names: the paths of a database's files.

    The formats of src/graveldb.c, src/dimbin.c and src/checkpoint.c ([snprintf])
    and the reader of delta file names ([sscanf] in [parse_delta_filename]). *)

From Stdlib Require Import String Ascii.
From stdpp Require Import strings.
From S2P Require Import Prelude.

#[local] Open Scope string_scope.
#[local] Open Scope Z_scope.

(** ** Formats *)

Definition digit (d : Z) : ascii := ascii_of_nat (Z.to_nat (48 + d)).

(** The decimal digits of [n] before [s]; 20 rounds are enough for 64 bits. *)
Fixpoint dec_go (fuel : nat) (n : Z) (s : string) : string :=
  match fuel with
  | O => s
  | S fuel => let s := String (digit (n mod 10)) s in if n <? 10 then s else dec_go fuel (n / 10) s
  end.

(** [%llu], [%d] and [%04llu] *)
Definition fmt_llu (n : Z) : string := dec_go 20 n "".
Definition fmt_d (n : Z) : string := if n <? 0 then "-" +:+ dec_go 20 (- n) "" else dec_go 20 n "".
Definition fmt_llu04 (n : Z) : string :=
  (if n <? 10 then "000" else if n <? 100 then "00" else if n <? 1000 then "0" else "") +:+ fmt_llu n.

(** [snprintf] into an array of 512 characters. *)
Definition path512 (s : string) : string := String.substring 0 511 s.

(** "%s/emb_d%d.bin", the meta file and its temporary, the checkpoint directory. *)
Definition bin_path (dir : string) (dim : Z) : string := path512 (dir +:+ "/emb_d" +:+ fmt_d dim +:+ ".bin").
Definition meta_file_path (dir : string) (dim : Z) : string := path512 (dir +:+ "/emb_d" +:+ fmt_d dim +:+ ".meta").
Definition meta_tmp_path (dir : string) (dim : Z) : string := path512 (dir +:+ "/emb_d" +:+ fmt_d dim +:+ ".meta.tmp").
Definition ckpt_dir (dir : string) : string := path512 (dir +:+ "/ckpt").

(** "gen_%04llu_d%d_delta.bin", in the checkpoint directory. *)
Definition delta_name (gen dim : Z) : string := "gen_" +:+ fmt_llu04 gen +:+ "_d" +:+ fmt_d dim +:+ "_delta.bin".
Definition delta_path (dir : string) (gen dim : Z) : string := path512 (dir +:+ "/ckpt/" +:+ delta_name gen dim).

(** "%s/ckpt/gen_%04llu_full/emb_d%d.bin" *)
Definition full_path (dir : string) (gen dim : Z) : string :=
  path512 (path512 (dir +:+ "/ckpt/gen_" +:+ fmt_llu04 gen +:+ "_full") +:+ "/emb_d" +:+ fmt_d dim +:+ ".bin").

(** "%s/ckpt/export_gen%04llu_d%d_%s.dump" *)
Definition export_path (dir : string) (gen dim : Z) (type : string) : string :=
  path512 (dir +:+ "/ckpt/export_gen" +:+ fmt_llu04 gen +:+ "_d" +:+ fmt_d dim +:+ "_" +:+ type +:+ ".dump").

(** ** Reading a name *)

Definition digit_of (a : ascii) : option Z :=
  let n := Z.of_nat (nat_of_ascii a) in if (48 <=? n) && (n <=? 57) then Some (n - 48) else None.

Definition is_space (a : ascii) : bool :=
  let n := Z.of_nat (nat_of_ascii a) in (n =? 32) || ((9 <=? n) && (n <=? 13)).

(** Digits up to the first other character. *)
Fixpoint scan_digits (s : string) (v : Z) : Z * string :=
  match s with
  | String a s' => match digit_of a with Some d => scan_digits s' (v * 10 + d) | None => (v, s) end
  | EmptyString => (v, s)
  end.

Fixpoint skip_space (s : string) : string :=
  match s with
  | String a s' => if is_space a then skip_space s' else s
  | EmptyString => s
  end.

(** At least one digit. *)
Definition scan_number (s : string) : option (Z * string) :=
  match s with
  | String a _ => match digit_of a with Some _ => Some (scan_digits s 0) | None => None end
  | EmptyString => None
  end.

(** The integer of a conversion: white space, a sign, and digits. *)
Definition scan_int (s : string) : option (Z * string) :=
  match skip_space s with
  | String a s' =>
    if (nat_of_ascii a =? 45)%nat then match scan_number s' with Some (v, s) => Some (- v, s) | None => None end
    else if (nat_of_ascii a =? 43)%nat then scan_number s'
    else scan_number (String a s')
  | EmptyString => None
  end.

(** Literal characters of the format. *)
Fixpoint scan_lit (lit s : string) : option string :=
  match lit, s with
  | EmptyString, _ => Some s
  | String a lit, String b s => if ascii_dec a b then scan_lit lit s else None
  | String _ _, EmptyString => None
  end.

(** [%llu] saturates and negates modulo [2^64]; an [int] that does not fit is
    undefined. The result is there once both numbers are converted: what follows
    them is not looked at. *)
Definition parse_delta_filename (name : string) : res (option (Z * Z)) :=
  match scan_lit "gen_" name with
  | None => Ret None
  | Some s =>
    match scan_int s with
    | None => Ret None
    | Some (g, s) =>
      match scan_lit "_d" s with
      | None => Ret None
      | Some s =>
        match scan_int s with
        | None => Ret None
        | Some (d, _) =>
          if (d <? - 2 ^ 31) || (2 ^ 31 <=? d) then Ub
          else Ret (Some (if 2 ^ 64 <=? Z.abs g then 2 ^ 64 - 1 else u64 g, d))
        end
      end
    end
  end.

(** ** Round trip *)

Lemma append_assoc (s t u : string) : (s +:+ t) +:+ u = s +:+ (t +:+ u).
Proof. induction s as [|a s IH]; [done|]. change (String a ((s +:+ t) +:+ u) = String a (s +:+ (t +:+ u))). by rewrite IH. Qed.

Lemma digit_of_digit d : 0 <= d < 10 -> digit_of (digit d) = Some d.
Proof.
  intros H. unfold digit_of, digit. rewrite nat_ascii_embedding by lia. rewrite Z2Nat.id by lia.
  rewrite (proj2 (Z.leb_le 48 _)), (proj2 (Z.leb_le _ 57)) by lia. simpl. f_equal. lia.
Qed.

Lemma scan_dec_go fuel n s v :
  0 <= n < 10 ^ Z.of_nat fuel -> (0 < fuel)%nat ->
  exists k, 0 < k /\ scan_digits (dec_go fuel n s) v = scan_digits s (v * 10 ^ k + n).
Proof.
  revert n s. induction fuel as [|fuel IH]; intros n s Hn Hf; [lia|]. cbn [dec_go].
  pose proof (Z.mod_pos_bound n 10 ltac:(lia)) as Hm. destruct (Z.ltb_spec n 10) as [Hl|Hl].
  - exists 1. split; [lia|]. cbn [scan_digits]. rewrite digit_of_digit by lia. rewrite (Z.mod_small n) by lia. f_equal.
  - assert (0 < fuel)%nat by (destruct fuel; [simpl in Hn; lia|lia]).
    rewrite Nat2Z.inj_succ, Z.pow_succ_r in Hn by lia.
    destruct (IH (n / 10) (String (digit (n mod 10)) s)) as (k & Hk & E); [|done|].
    { split; [apply Z.div_pos; lia|]. apply Z.div_lt_upper_bound; lia. }
    exists (k + 1). split; [lia|]. rewrite E. cbn [scan_digits]. rewrite digit_of_digit by lia. f_equal.
    rewrite Z.pow_add_r by lia. pose proof (Z.div_mod n 10). lia.
Qed.

Lemma dec_go_head fuel n s : 0 <= n < 10 ^ Z.of_nat fuel -> (0 < fuel)%nat ->
  exists d s', 0 <= d < 10 /\ dec_go fuel n s = String (digit d) s'.
Proof.
  revert n s. induction fuel as [|fuel IH]; intros n s Hn Hf; [lia|]. cbn [dec_go].
  pose proof (Z.mod_pos_bound n 10 ltac:(lia)) as Hm. destruct (Z.ltb_spec n 10) as [Hl|Hl]; [eauto|].
  assert (0 < fuel)%nat by (destruct fuel; [simpl in Hn; lia|lia]).
  rewrite Nat2Z.inj_succ, Z.pow_succ_r in Hn by lia. apply IH; [|done].
  split; [apply Z.div_pos; lia|]. apply Z.div_lt_upper_bound; lia.
Qed.

Lemma dec_go_app fuel n s t : dec_go fuel n s +:+ t = dec_go fuel n (s +:+ t).
Proof. revert n s. induction fuel as [|fuel IH]; intros n s; [done|]. cbn [dec_go]. case_match; [done|]. by rewrite IH. Qed.

(** A number that does not run into the rest is read back, with leading zeros. *)
Lemma scan_number_dec n (z t : string) :
  0 <= n < 10 ^ 20 -> (forall a t', t = String a t' -> digit_of a = None) -> (z = "" \/ z = "0" \/ z = "00" \/ z = "000") ->
  scan_number (z +:+ dec_go 20 n t) = Some (n, t) /\ exists d s, 0 <= d < 10 /\ z +:+ dec_go 20 n t = String (digit d) s.
Proof.
  intros Hn Ht Hz. destruct (scan_dec_go 20 n t 0 Hn ltac:(lia)) as (k & Hk & E).
  destruct (dec_go_head 20 n t Hn ltac:(lia)) as (d & s' & Hd & Eh).
  assert (scan_digits (dec_go 20 n t) 0 = (n, t)) as E'.
  { rewrite E. replace (0 * 10 ^ k + n) with n by lia. destruct t as [|a t]; [done|]. cbn [scan_digits]. by rewrite (Ht a t). }
  assert (exists d s, 0 <= d < 10 /\ z +:+ dec_go 20 n t = String (digit d) s) as Hh.
  { destruct Hz as [->|[->|[->| ->]]]; [exists d, s'; split; [done|exact Eh]| ..]; (eexists 0, _; split; [lia|reflexivity]). }
  split; [|done]. destruct Hh as (d' & s2 & Hd' & E2). unfold scan_number. rewrite E2. rewrite digit_of_digit by done. rewrite <- E2.
  f_equal. destruct Hz as [->|[->|[->| ->]]]; exact E'.
Qed.

Lemma scan_int_digit d s : 0 <= d < 10 -> scan_int (String (digit d) s) = scan_number (String (digit d) s).
Proof.
  intros Hd. assert (nat_of_ascii (digit d) = Z.to_nat (48 + d)) as En by (unfold digit; apply nat_ascii_embedding; lia).
  assert (is_space (digit d) = false) as Hsp by (unfold is_space; rewrite En, Z2Nat.id by lia; repeat zb; auto; lia).
  unfold scan_int. cbn [skip_space]. rewrite Hsp, En. by rewrite (proj2 (Nat.eqb_neq _ 45)), (proj2 (Nat.eqb_neq _ 43)) by lia.
Qed.

Lemma scan_int_unsigned n (z t : string) :
  0 <= n < 10 ^ 20 -> (forall a t', t = String a t' -> digit_of a = None) -> (z = "" \/ z = "0" \/ z = "00" \/ z = "000") ->
  scan_int (z +:+ dec_go 20 n t) = Some (n, t).
Proof.
  intros Hn Ht Hz. destruct (scan_number_dec n z t Hn Ht Hz) as (E & d & s & Hd & E2). rewrite E2 in *. by rewrite scan_int_digit.
Qed.

Lemma scan_int_signed n (t : string) :
  - 2 ^ 31 <= n < 2 ^ 31 -> (forall a t', t = String a t' -> digit_of a = None) -> scan_int (fmt_d n +:+ t) = Some (n, t).
Proof.
  intros Hn Ht. unfold fmt_d. destruct (Z.ltb_spec n 0).
  - rewrite append_assoc, dec_go_app. destruct (scan_number_dec (- n) "" t ltac:(lia) Ht (or_introl eq_refl)) as [E _].
    change (scan_int ("-" +:+ dec_go 20 (- n) ("" +:+ t)))
      with (match scan_number ("" +:+ dec_go 20 (- n) t) with Some (v, s) => Some (- v, s) | None => None end).
    rewrite E. by rewrite Z.opp_involutive.
  - rewrite dec_go_app. apply (scan_int_unsigned n "" t); [lia|done|by left].
Qed.

(** The names a checkpoint gives its delta files are read back. *)
Lemma parse_delta_name gen dim :
  0 <= gen < 2 ^ 64 -> - 2 ^ 31 <= dim < 2 ^ 31 -> parse_delta_filename (delta_name gen dim) = Ret (Some (gen, dim)).
Proof.
  intros Hg Hd. unfold parse_delta_filename, delta_name, fmt_llu04, fmt_llu.
  assert (forall s, scan_lit "gen_" ("gen_" +:+ s) = Some s) as -> by done.
  rewrite !append_assoc, dec_go_app. change ("" +:+ ?x) with x.
  rewrite scan_int_unsigned; [|lia|by intros a t' [= <- _]|repeat case_match; auto].
  assert (forall s, scan_lit "_d" ("_d" +:+ s) = Some s) as Hd2 by done. rewrite Hd2.
  rewrite scan_int_signed; [|lia|by intros a t' [= <- _]].
  rewrite Z.abs_eq, u64_id by lia. repeat zb; auto; lia.
Qed.
