(* ===== verification/CkptMeta.v ===== *)
(** CkptMeta: the checksum and the meta files of src/checkpoint.c.

    A meta file holds the generation of a bin: it is written to a temporary file,
    synced, and renamed, and it is read back with its checksum verified. *)

From Stdlib Require Import String.
From stdpp Require Import strings.
From S2P Require Import Prelude Wire IoBatch Names.

(** ** CRC-32 *)

Definition crc32_bit (crc : Z) : Z := Z.lxor (Z.shiftr crc 1) (Z.land 0xEDB88320 (u32 (- Z.land crc 1))).
Definition crc32_byte (crc b : Z) : Z := Nat.iter 8 crc32_bit (Z.lxor crc b).
Definition not32 (x : Z) : Z := u32 (Z.lnot x).

Definition crc32_simple (data : list Z) : Z := not32 (foldl crc32_byte 0xFFFFFFFF data).

(** The streaming form: call repeatedly, then finalise with [not32]. *)
Definition crc32_update (crc : Z) (data : list Z) : Z := foldl crc32_byte crc data.

(** ** Meta files *)

Definition META_MAGIC : Z := 0x4D455441.

Record BinMeta : Type := mkBinMeta { bm_magic : Z; bm_generation : Z; bm_checksum : Z }.

Section meta.
Context {host : WireHost}.

(** The sixteen bytes of a meta file. *)
Definition meta_bytes (generation : Z) : res (list Z) :=
  let! buf := wire_put_u32 (replicate (Z.to_nat WIRE_META_SIZE) 0) 0 META_MAGIC in
  let! buf := wire_put_u64 buf 4 generation in
  wire_put_u32 buf 12 (crc32_simple (take 12 buf)).

(** [fsync] of the directory, if it can be opened; its answer is not looked at. *)
Definition fsync_dir : M Sys unit :=
  let* ok := sys_ok in
  when ok (let* _ := sys_ok in ret tt).

(** [fsync] of a file: the data is on disk, or an error. *)
Definition fsync (fd : Z) : M Sys bool := let* r := fdatasync fd in ret (r =? 0).

Definition ckpt_persist_meta (dim : Z) (data_dir : string) (generation : Z) : M Sys graveldb_status_t :=
  let* buf := lift (meta_bytes generation) in
  let tmp := meta_tmp_path data_dir dim in
  let* fd := open_path true true tmp in
  if fd <? 0 then ret GRAVELDB_ERR_IO
  else
    let* wr := write_end fd buf in
    if negb (wr =? WIRE_META_SIZE) then do* unlink tmp in ret GRAVELDB_ERR_IO
    else
      let* ok := fsync fd in
      if negb ok then do* unlink tmp in ret GRAVELDB_ERR_IO
      else
        let* r := rename tmp (meta_file_path data_dir dim) in
        if negb (r =? 0) then do* unlink tmp in ret GRAVELDB_ERR_IO
        else do* fsync_dir in ret GRAVELDB_OK.

(** The status, and the record when it is OK. *)
Definition ckpt_read_meta (data_dir : string) (dim : Z) : M Sys (graveldb_status_t * option BinMeta) :=
  let* fd := open_path false false (meta_file_path data_dir dim) in
  if fd <? 0 then ret (GRAVELDB_ERR_CORRUPT, None)
  else
    let* '(rd, buf) := pread fd WIRE_META_SIZE 0 in
    if negb (rd =? WIRE_META_SIZE) then ret (GRAVELDB_ERR_CORRUPT, None)
    else
      let* '(magic, generation, checksum) := lift (wire_decode_meta buf) in
      if negb (magic =? META_MAGIC) then ret (GRAVELDB_ERR_CORRUPT, None)
      else if negb (checksum =? crc32_simple (take 12 buf)) then ret (GRAVELDB_ERR_CORRUPT, None)
      else ret (GRAVELDB_OK, Some (mkBinMeta magic generation checksum)).

End meta.

(** ** The checksum detects a changed byte *)

Lemma crc32_bit_cases c : 0 <= c < 2 ^ 32 ->
  c mod 2 = 0 /\ crc32_bit c = c / 2 \/ c mod 2 = 1 /\ crc32_bit c = Z.lxor (c / 2) 0xEDB88320.
Proof.
  intros Hc. unfold crc32_bit. rewrite Z.shiftr_div_pow2 by lia. change (2 ^ 1) with 2.
  assert (Z.land c 1 = c mod 2) as -> by (apply (Z.land_ones c 1); lia).
  pose proof (Z.mod_pos_bound c 2 ltac:(lia)). assert (c mod 2 = 0 \/ c mod 2 = 1) as [E|E] by lia; rewrite E; [left|right]; (split; [done|]).
  - apply Z.lxor_0_r.
  - by assert (Z.land 0xEDB88320 (u32 (- (1))) = 0xEDB88320) as -> by (vm_compute; done).
Qed.

#[local] Opaque crc32_bit.

Lemma lxor_u32 a b : 0 <= a < 2 ^ 32 -> 0 <= b < 2 ^ 32 -> 0 <= Z.lxor a b < 2 ^ 32.
Proof.
  intros Ha Hb. assert (0 <= Z.lxor a b) by (apply Z.lxor_nonneg; lia). split; [done|].
  apply (Z.bounded_iff_bits_nonneg 32); [lia|done|]. intros l Hl. rewrite Z.lxor_spec.
  rewrite (proj1 (Z.bounded_iff_bits_nonneg 32 a ltac:(lia) ltac:(lia)) ltac:(lia) l Hl).
  by rewrite (proj1 (Z.bounded_iff_bits_nonneg 32 b ltac:(lia) ltac:(lia)) ltac:(lia) l Hl).
Qed.

Lemma crc32_bit_range c : 0 <= c < 2 ^ 32 -> 0 <= crc32_bit c < 2 ^ 32.
Proof.
  intros Hc. assert (0 <= c / 2 < 2 ^ 31) as Hd by (split; [apply Z.div_pos; lia|apply Z.div_lt_upper_bound; lia]).
  destruct (crc32_bit_cases c Hc) as [[_ ->]|[_ ->]]; [lia|]. apply lxor_u32; lia.
Qed.

Lemma lxor_inj a b c : Z.lxor a c = Z.lxor b c -> a = b.
Proof. intros E. apply (f_equal (fun x => Z.lxor x c)) in E. by rewrite !Z.lxor_assoc, !Z.lxor_nilpotent, !Z.lxor_0_r in E. Qed.

(** A step loses nothing: the bit shifted out is the top bit of the result. *)
Lemma crc32_bit_inj a b : 0 <= a < 2 ^ 32 -> 0 <= b < 2 ^ 32 -> crc32_bit a = crc32_bit b -> a = b.
Proof.
  intros Ha Hb. pose proof (Z.div_mod a 2). pose proof (Z.div_mod b 2).
  assert (forall x, 0 <= x < 2 ^ 32 -> Z.testbit (x / 2) 31 = false) as Htop.
  { intros x Hx. assert (0 <= x / 2 < 2 ^ 31) as Hd by (split; [apply Z.div_pos; lia|apply Z.div_lt_upper_bound; lia]).
    apply (proj1 (Z.bounded_iff_bits_nonneg 31 (x / 2) ltac:(lia) ltac:(lia)) ltac:(lia)). lia. }
  destruct (crc32_bit_cases a Ha) as [[Ea ->]|[Ea ->]], (crc32_bit_cases b Hb) as [[Eb ->]|[Eb ->]]; intros E.
  - lia.
  - apply (f_equal (fun x => Z.testbit x 31)) in E. rewrite Z.lxor_spec, !Htop in E by done. discriminate E.
  - apply (f_equal (fun x => Z.testbit x 31)) in E. rewrite Z.lxor_spec, !Htop in E by done. discriminate E.
  - apply lxor_inj in E. lia.
Qed.

Lemma crc32_bits_range n c : 0 <= c < 2 ^ 32 -> 0 <= Nat.iter n crc32_bit c < 2 ^ 32.
Proof. intros Hc. induction n as [|n IH]; [done|]. by apply crc32_bit_range. Qed.

Lemma crc32_bits_inj n a b : 0 <= a < 2 ^ 32 -> 0 <= b < 2 ^ 32 -> Nat.iter n crc32_bit a = Nat.iter n crc32_bit b -> a = b.
Proof.
  intros Ha Hb. induction n as [|n IH]; simpl; [done|]. intros E. apply IH. by apply crc32_bit_inj; [apply crc32_bits_range..|].
Qed.

Lemma crc32_byte_range c b : 0 <= c < 2 ^ 32 -> is_byte b -> 0 <= crc32_byte c b < 2 ^ 32.
Proof. intros Hc Hb. apply crc32_bits_range, lxor_u32; [done|unfold is_byte in Hb; lia]. Qed.

Lemma crc32_byte_inj c b c' b' : 0 <= c < 2 ^ 32 -> 0 <= c' < 2 ^ 32 -> is_byte b -> is_byte b' ->
  crc32_byte c b = crc32_byte c' b' -> Z.lxor c b = Z.lxor c' b'.
Proof. intros Hc Hc' Hb Hb' E. unfold is_byte in *. eapply crc32_bits_inj; [| |exact E]; apply lxor_u32; lia. Qed.

Lemma crc32_update_range c l : 0 <= c < 2 ^ 32 -> Forall is_byte l -> 0 <= crc32_update c l < 2 ^ 32.
Proof. intros Hc Hl. revert c Hc. induction Hl as [|b l Hb Hl IH]; intros c Hc; [done|]. cbn. by apply IH, crc32_byte_range. Qed.

(** Different states stay different. *)
Lemma crc32_update_inj l c c' : Forall is_byte l -> 0 <= c < 2 ^ 32 -> 0 <= c' < 2 ^ 32 -> crc32_update c l = crc32_update c' l -> c = c'.
Proof.
  intros Hl. revert c c'. induction Hl as [|b l Hb Hl IH]; intros c c' Hc Hc' E; [done|]. cbn in E.
  apply IH in E; [|by apply crc32_byte_range..]. apply crc32_byte_inj in E; try done. by apply lxor_inj in E.
Qed.

Lemma not32_inj a b : 0 <= a < 2 ^ 32 -> 0 <= b < 2 ^ 32 -> not32 a = not32 b -> a = b.
Proof.
  intros Ha Hb. assert (forall x, 0 <= x < 2 ^ 32 -> not32 x = 2 ^ 32 - 1 - x) as Hn.
  { intros x Hx. unfold not32, u32, Z.lnot. rewrite <- (Z.mod_small (2 ^ 32 - 1 - x) (2 ^ 32)) by lia.
    replace (2 ^ 32 - 1 - x) with (Z.pred (- x) + 1 * 2 ^ 32) by lia. by rewrite Z.mod_add by lia. }
  rewrite !Hn by done. lia.
Qed.

Lemma not32_range a : 0 <= not32 a < 2 ^ 32.
Proof. unfold not32, u32. apply Z.mod_pos_bound. lia. Qed.

(** The checksum of data in which one byte was changed is another one. *)
Lemma crc32_one_byte l1 l2 x y : Forall is_byte l1 -> Forall is_byte l2 -> is_byte x -> is_byte y -> x <> y ->
  crc32_simple (l1 ++ x :: l2) <> crc32_simple (l1 ++ y :: l2).
Proof.
  intros H1 H2 Hx Hy Hne E. unfold crc32_simple in E. rewrite !foldl_app in E. cbn [foldl] in E.
  pose proof (crc32_update_range 0xFFFFFFFF l1 ltac:(lia) H1) as Hc. unfold crc32_update in Hc. set (c := foldl crc32_byte _ l1) in *.
  pose proof (crc32_byte_range c x Hc Hx) as Hcx. pose proof (crc32_byte_range c y Hc Hy) as Hcy.
  apply not32_inj in E; [|by apply (crc32_update_range _ l2)..]. apply (crc32_update_inj l2) in E; try done.
  apply crc32_byte_inj in E; try done. rewrite !(Z.lxor_comm c) in E. by apply lxor_inj in E.
Qed.

(** ** The bytes of a meta file *)

Definition meta_layout (gen crc : Z) : list Z := le_split 4 META_MAGIC ++ le_split 8 gen ++ le_split 4 crc.

(** The content of the meta file of a generation. *)
Definition meta_image (gen : Z) : list Z := meta_layout gen (crc32_simple (le_split 4 META_MAGIC ++ le_split 8 gen)).

(** The file behind a path. *)
Definition content (y : Sys) (p : string) : option (list Z) := names y !! p ≫= fun fd => files y !! fd.

Lemma substring_all s n : (String.length s <= n)%nat -> String.substring 0 n s = s.
Proof. revert n. induction s as [|a s IH]; intros [|n] H; simpl in *; try done; [lia|]. rewrite IH by lia. done. Qed.
Lemma length_append (s t : string) : String.length (s +:+ t) = (String.length s + String.length t)%nat.
Proof. induction s as [|a s IH]; [done|]. change (S (String.length (s +:+ t)) = S (String.length s + String.length t)). by rewrite IH. Qed.
Lemma length_dec_go fuel n s : (String.length (dec_go fuel n s) <= fuel + String.length s)%nat.
Proof.
  revert n s. induction fuel as [|fuel IH]; intros n s; [done|]. cbn [dec_go]. destruct (_ <? _); [simpl; lia|].
  specialize (IH (n / 10) (String (digit (n mod 10)) s)). cbn [String.length] in IH. lia.
Qed.
Lemma length_fmt_d n : (String.length (fmt_d n) <= 21)%nat.
Proof.
  unfold fmt_d. pose proof (length_dec_go 20 (- n) ""). pose proof (length_dec_go 20 n ""). cbn [String.length] in *.
  destruct (_ <? 0); rewrite ?length_append; cbn [String.length]; lia.
Qed.

(** A directory whose paths are not cut off. *)
Definition short_dir (dir : string) : Prop := (String.length dir <= 440)%nat.

Lemma meta_paths_differ dir dim : short_dir dir -> meta_tmp_path dir dim <> meta_file_path dir dim.
Proof.
  unfold short_dir, meta_tmp_path, meta_file_path, path512. intros Hd E. pose proof (length_fmt_d dim).
  rewrite !substring_all in E by (rewrite !length_append; simpl; lia). apply (f_equal String.length) in E.
  rewrite !length_append in E. simpl in E. lia.
Qed.

Section meta_props.
Context {host : WireHost} {host_ok : WireHostOk host}.

Lemma meta_bytes_image gen : meta_bytes gen = Ret (meta_image gen).
Proof.
  unfold meta_bytes. rewrite put_u32_ok by (vm_compute; intuition congruence). cbn [res_bind].
  rewrite put_u64_ok by (vm_compute; intuition congruence). cbn [res_bind]. rewrite put_u32_ok by (vm_compute; intuition congruence). done.
Qed.

(** Only the file [tmp] differs. *)
Definition only (tmp : string) (y y' : Sys) : Prop := names_ok y' /\ forall p, p <> tmp -> content y' p = content y p.

Lemma only_file tmp fd y y' : names_ok y -> names y !! tmp = Some fd -> names y' = names y ->
  (forall k, k <> fd -> files y' !! k = files y !! k) -> is_Some (files y' !! fd) -> only tmp y y'.
Proof.
  intros [N1 N2] Ht En Ef Hs. split; [split; rewrite En; [|by eauto]|].
  - intros p k Hk. destruct (N1 p k Hk) as [H3 H]. split; [done|]. destruct (decide (k = fd)) as [->|]; [done|]. by rewrite Ef.
  - intros p Hp. unfold content. rewrite En. destruct (names y !! p) as [k|] eqn:Ek; [|done]. simpl. apply Ef. intros ->. by apply Hp, (N2 p tmp fd).
Qed.

Lemma only_unlink tmp y : names_ok y -> exists y', unlink tmp y = Ret (tt, y') /\ answers y' = answers y /\ only tmp y y'.
Proof.
  intros [N1 N2]. eexists. split; [reflexivity|]. split; [done|]. split; [split; simpl|].
  - intros p fd [_ H]%lookup_delete_Some. by eapply N1.
  - intros p q fd [_ H]%lookup_delete_Some [_ H']%lookup_delete_Some. by eapply N2.
  - intros p Hp. unfold content. simpl. by rewrite lookup_delete_ne.
Qed.

Lemma only_trans tmp y y1 y2 : only tmp y y1 -> only tmp y1 y2 -> only tmp y y2.
Proof. intros [_ H1] [N2 H2]. split; [done|]. intros p Hp. by rewrite H2, H1. Qed.

Lemma only_same tmp y y' : names_ok y -> names y' = names y -> files y' = files y -> only tmp y y'.
Proof. intros [N1 N2] En Ef. split; [split; rewrite ?En, ?Ef; eauto|]. intros p _. unfold content. by rewrite En, Ef. Qed.

(** [open(tmp, O_CREAT | O_TRUNC)] *)
Lemma only_open tmp y : names_ok y ->
  exists fd y', open_path true true tmp y = Ret (fd, y') /\ only tmp y y' /\ (answers y = [] -> answers y' = [] /\ 0 <= fd) /\
    (fd < 0 \/ 0 <= fd /\ names y' !! tmp = Some fd /\ files y' !! fd = Some []).
Proof.
  intros Hok. destruct (open_path_spec true true tmp y Hok) as (fd & y' & E & Hok' & Hq & [(-> & En & Ef & Hf)|(H3 & En & Ef & Hold & Hnew)]).
  - exists (-1), y'. split; [done|]. split; [by apply only_same|]. split; [intros H; by destruct (Hf H)|]. left. lia.
  - exists fd, y'. split; [done|]. split; [|split; [intros H; split; [by apply Hq|lia]|right; split; [lia|]; split; [rewrite En; apply lookup_insert_eq|done]]].
    split; [done|]. intros p Hp. unfold content. rewrite En, lookup_insert_ne by done. destruct (names y !! p) as [k|] eqn:Ek; [|done]. simpl. apply Ef.
    intros ->. apply Hp. apply (no_inj _ Hok' p tmp fd); rewrite En; [by rewrite lookup_insert_ne|apply lookup_insert_eq].
Qed.

(** The end of a write that failed. *)
Lemma give_up_meta tmp y y1 (Hok : names_ok y) : only tmp y y1 ->
  exists y', (do* unlink tmp in ret GRAVELDB_ERR_IO) y1 = Ret (GRAVELDB_ERR_IO, y') /\ only tmp y y'.
Proof.
  intros H1. destruct (only_unlink tmp y1) as (y' & E & _ & H2); [apply H1|]. exists y'. unfold bindM. rewrite E. split; [done|]. by eapply only_trans.
Qed.

(** Writing a meta file, whatever the system answers. *)
Lemma persist_meta_spec dim dir gen y : names_ok y -> short_dir dir ->
  exists rc y', ckpt_persist_meta dim dir gen y = Ret (rc, y') /\ names_ok y' /\ (answers y = [] -> answers y' = [] /\ rc = GRAVELDB_OK) /\
    (forall p, p <> meta_tmp_path dir dim -> p <> meta_file_path dir dim -> content y' p = content y p) /\
    (rc = GRAVELDB_OK /\ content y' (meta_file_path dir dim) = Some (meta_image gen) \/
     rc = GRAVELDB_ERR_IO /\ content y' (meta_file_path dir dim) = content y (meta_file_path dir dim)).
Proof.
  intros Hok Hdir. pose proof (meta_paths_differ dir dim Hdir) as Hne. set (tmp := meta_tmp_path dir dim) in *. set (fin := meta_file_path dir dim) in *.
  unfold ckpt_persist_meta. rewrite meta_bytes_image. unfold bindM at 1. cbn [lift res_bind fst snd]. fold tmp fin.
  assert (forall y', only tmp y y' -> (answers y = [] -> False) -> exists rc y0, Ret (GRAVELDB_ERR_IO, y') = Ret (rc, y0) /\ names_ok y0 /\
    (answers y = [] -> answers y0 = [] /\ rc = GRAVELDB_OK) /\ (forall p, p <> tmp -> p <> fin -> content y0 p = content y p) /\
    (rc = GRAVELDB_OK /\ content y0 fin = Some (meta_image gen) \/ rc = GRAVELDB_ERR_IO /\ content y0 fin = content y fin)) as Hfail.
  { intros y' [H1 H2] Hq. exists GRAVELDB_ERR_IO, y'. split; [done|]. split; [done|]. split; [intros H; by destruct (Hq H)|]. split; [intros; by apply H2|].
    right. split; [done|]. by apply H2, not_eq_sym. }
  destruct (only_open tmp y Hok) as (fd & y1 & E1 & O1 & Q1 & H1). unfold bindM at 1. rewrite E1. cbn [res_bind fst snd].
  destruct (Z.ltb_spec fd 0) as [Hfd|Hfd]; [apply Hfail; [done|intros H; destruct (Q1 H); lia]|]. destruct H1 as [H1|(_ & Ht & Hf)]; [lia|].
  unfold bindM at 1. unfold write_end at 1, gets. unfold bindM at 1. cbn [res_bind fst snd]. rewrite Hf.
  destruct (pwrite_frame fd (meta_image gen) (zlen (@nil Z)) y1 [] Hf) as (n & y2 & E2 & En2 & Ef2 & S2 & W2 & Q2). rewrite E2. cbn [res_bind fst snd].
  assert (only tmp y1 y2) as O12 by (apply (only_file tmp fd); try done; apply O1). pose proof (only_trans _ _ _ _ O1 O12) as O2.
  change WIRE_META_SIZE with (zlen (meta_image gen)). destruct (Z.eqb_spec n (zlen (meta_image gen))) as [Hn|Hn]; cbn [negb].
  2: { destruct (give_up_meta tmp y y2 Hok O2) as (y' & -> & O'). apply Hfail; [done|]. intros H. apply Hn. apply Q2. by apply Q1. }
  unfold fsync. unfold bindM at 1. destruct (fdatasync_frame fd y2) as (r & y3 & E3 & En3 & Ef3 & Q3). unfold bindM at 1. rewrite E3. cbn [res_bind fst snd ret].
  pose proof (only_same tmp y2 y3 (proj1 O2) En3 Ef3) as O23. pose proof (only_trans _ _ _ _ O2 O23) as O3.
  assert (answers y = [] -> answers y3 = [] /\ r = 0) as Q03 by (intros H; apply Q3, Q2, Q1, H).
  destruct (Z.eqb_spec r 0) as [Hr|Hr]; cbn [negb].
  2: { destruct (give_up_meta tmp y y3 Hok O3) as (y' & -> & O'). apply Hfail; [done|]. intros H. by apply Hr, Q03. }
  destruct (rename_spec tmp fin fd y3) as (m & y4 & E4 & N4 & Ef4 & Q4 & Hm); [apply O3|by rewrite En3, En2|done|].
  unfold bindM at 1. rewrite E4. cbn [res_bind fst snd]. destruct Hm as [[-> En4]|[-> En4]].
  2: { pose proof (only_same tmp y3 y4 (proj1 O3) En4 Ef4) as O34. destruct (give_up_meta tmp y y4 Hok (only_trans _ _ _ _ O3 O34)) as (y' & E' & O').
    change (negb (-1 =? 0)) with true. cbv iota. rewrite E'. apply Hfail; [done|]. intros H. by destruct (Q4 (proj1 (Q03 H))). }
  change (negb (0 =? 0)) with false. cbv iota. destruct (sys_ok_frame y4) as (ok & y5 & E5 & En5 & Ef5 & Q5).
  assert (exists y6, fsync_dir y4 = Ret (tt, y6) /\ names y6 = names y4 /\ files y6 = files y4 /\ (answers y4 = [] -> answers y6 = [])) as (y6 & E6 & En6 & Ef6 & Q6).
  { unfold fsync_dir. unfold bindM at 1. rewrite E5. cbn [res_bind fst snd]. destruct ok; cbn [when]; [|exists y5; split_and!; try done; intros H; by apply Q5].
    destruct (sys_ok_frame y5) as (ok' & y6 & E6 & En6 & Ef6 & Q6). exists y6. unfold bindM. rewrite E6. split; [done|]. split_and!; [congruence..|].
    intros H. by apply Q6, Q5. }
  unfold bindM at 1. rewrite E6. cbn [res_bind fst snd ret]. exists GRAVELDB_OK, y6. split; [done|]. split; [by apply (only_same tmp y4)|].
  split; [intros H; split; [by apply Q6, Q4, Q03|done]|]. unfold content. rewrite En6, Ef6, En4, Ef4, Ef3. split.
  - intros p Hpt Hpf. rewrite lookup_insert_ne, lookup_delete_ne by done. rewrite En3, <- Ef3, <- En3. apply (proj2 O3); done.
  - left. split; [done|]. rewrite lookup_insert_eq. cbn. rewrite W2 by done. done.
Qed.

(** Reading a meta file on a quiet system. *)
Lemma read_meta_spec dim dir y f :
  names_ok y -> answers y = [] -> content y (meta_file_path dir dim) = Some f -> zlen f = WIRE_META_SIZE -> Forall is_byte f ->
  ckpt_read_meta dir dim y =
  Ret (if (le_combine (window f 0 4) =? META_MAGIC) && (le_combine (window f 12 4) =? crc32_simple (take 12 f))
       then (GRAVELDB_OK, Some (mkBinMeta (le_combine (window f 0 4)) (le_combine (window f 4 8)) (le_combine (window f 12 4))))
       else (GRAVELDB_ERR_CORRUPT, None), y).
Proof.
  unfold content. intros Hok Hq Hf Hl HF. destruct (names y !! meta_file_path dir dim) as [fd|] eqn:En; [|done]. simpl in Hf. unfold ckpt_read_meta.
  rewrite (bindM_ret _ _ _ _ _ (open_quiet y _ fd Hq En)). destruct (no_file _ Hok _ _ En) as [H3 _]. rewrite (proj2 (Z.ltb_ge fd 0)) by lia.
  rewrite (bindM_ret _ _ _ _ _ (pread_quiet y fd f WIRE_META_SIZE 0 Hq Hf)). rewrite drop_0, take_ge by (unfold zlen in Hl; lia).
  rewrite Hl, Z.eqb_refl. cbn [negb]. unfold wire_decode_meta. unfold WIRE_META_SIZE in Hl.
  rewrite !get_u32_ok, get_u64_ok by (done || unfold in_buf; lia). unfold bindM. cbn [lift res_bind fst snd].
  destruct (_ =? META_MAGIC); cbn [negb andb]; [|done]. destruct (_ =? _); done.
Qed.

Lemma meta_image_len gen : zlen (meta_image gen) = WIRE_META_SIZE.
Proof. done. Qed.

Lemma meta_image_bytes gen : Forall is_byte (meta_image gen).
Proof. unfold meta_image, meta_layout. rewrite !Forall_app. auto using le_split_bytes. Qed.

(** What was written is read back. *)
Lemma read_image dim dir gen y : 0 <= gen < 2 ^ 64 -> names_ok y -> answers y = [] -> content y (meta_file_path dir dim) = Some (meta_image gen) ->
  ckpt_read_meta dir dim y = Ret (GRAVELDB_OK, Some (mkBinMeta META_MAGIC gen (crc32_simple (le_split 4 META_MAGIC ++ le_split 8 gen))), y).
Proof.
  intros Hg Hok Hq Hc. rewrite (read_meta_spec dim dir y (meta_image gen)); auto using meta_image_bytes.
  set (crc := crc32_simple (le_split 4 META_MAGIC ++ le_split 8 gen)).
  change (window (meta_image gen) 0 4) with (le_split 4 META_MAGIC). change (window (meta_image gen) 4 8) with (le_split 8 gen).
  change (window (meta_image gen) 12 4) with (le_split 4 crc). change (take 12 (meta_image gen)) with (le_split 4 META_MAGIC ++ le_split 8 gen). fold crc.
  assert (0 <= crc < 256 ^ Z.of_nat 4) as Hcrc by apply not32_range. clearbody crc.
  rewrite (le_combine_split 4 META_MAGIC), (le_combine_split 8 gen), (le_combine_split 4 crc) by done. by rewrite !Z.eqb_refl.
Qed.

(** A meta file with one changed byte fails its checksum. *)
Lemma image_changed gen l1 l2 x z : meta_image gen = l1 ++ x :: l2 -> is_byte z -> z <> x ->
  le_combine (window (l1 ++ z :: l2) 12 4) <> crc32_simple (take 12 (l1 ++ z :: l2)).
Proof.
  intros E Hz Hne. pose proof (meta_image_bytes gen) as HF. pose proof (meta_image_len gen) as Hl. rewrite E in HF, Hl.
  apply Forall_app in HF as [F1 [Fx F2]%Forall_cons]. unfold WIRE_META_SIZE, zlen in Hl. rewrite length_app in Hl. simpl in Hl.
  set (crc := crc32_simple (le_split 4 META_MAGIC ++ le_split 8 gen)).
  assert (window (l1 ++ x :: l2) 12 4 = le_split 4 crc) as Ew by (by rewrite <- E).
  assert (take 12 (l1 ++ x :: l2) = le_split 4 META_MAGIC ++ le_split 8 gen) as Et by (by rewrite <- E).
  unfold window in *. change (Z.to_nat 12) with 12%nat in *. destruct (decide (List.length l1 < 12)%nat) as [Hi|Hi].
  - assert (forall w, drop 12 (l1 ++ w :: l2) = drop (12 - List.length l1 - 1) l2) as Hd.
    { intros w. rewrite drop_app_ge by lia. destruct (12 - List.length l1)%nat as [|k] eqn:Ek; [lia|]. simpl. by rewrite Nat.sub_0_r. }
    rewrite Hd in *. rewrite Ew, le_combine_split by apply not32_range. unfold crc. rewrite <- Et.
    assert (forall w, take 12 (l1 ++ w :: l2) = l1 ++ w :: take (12 - List.length l1 - 1) l2) as Htk.
    { intros w. rewrite take_app_ge by lia. destruct (12 - List.length l1)%nat as [|k] eqn:Ek; [lia|]. simpl. by rewrite Nat.sub_0_r. }
    rewrite !Htk. apply crc32_one_byte; auto using Forall_take.
  - assert (forall w, take 12 (l1 ++ w :: l2) = take 12 l1) as Htk by (intros w; apply take_app_le; lia). rewrite Htk in *. rewrite Et. fold crc.
    assert (forall w, take 4 (drop 12 (l1 ++ w :: l2)) = drop 12 l1 ++ w :: l2) as Hd.
    { intros w. rewrite drop_app_le by lia. apply take_ge. rewrite length_app, length_drop. simpl. lia. }
    rewrite Hd in *. intros E2. apply Hne. assert (le_split 4 crc = drop 12 l1 ++ z :: l2) as E3.
    { rewrite <- E2. assert (List.length (drop 12 l1 ++ z :: l2) = 4%nat) as Hl4 by (rewrite length_app, length_drop; simpl; lia).
      rewrite <- Hl4 at 1. apply le_split_combine. apply Forall_app. split; [by apply Forall_drop|]. by constructor. }
    rewrite E3 in Ew. apply app_inv_head in Ew. congruence.
Qed.

End meta_props.

(** ** Properties *)

(** C15: the meta file of a bin is replaced as a whole or not at all. For a directory name of at most 440
    characters, and whatever the system answers, [ckpt_persist_meta] returns; when it returns OK the meta
    file is the image of the new generation, which [ckpt_read_meta] reads back with that generation; on an
    error the meta file is what it was before; no file but the meta file and its temporary is touched; and
    on a system without failures the call succeeds. *)
Theorem ckpt_persist_meta_atomic (host : WireHost) dim dir gen y :
  WireHostOk host -> names_ok y -> short_dir dir -> 0 <= gen < 2 ^ 64 ->
  exists rc y', ckpt_persist_meta dim dir gen y = Ret (rc, y') /\ names_ok y' /\
    (answers y = [] -> rc = GRAVELDB_OK /\ exists meta, ckpt_read_meta dir dim y' = Ret (GRAVELDB_OK, Some meta, y') /\ bm_generation meta = gen) /\
    (forall p, p <> meta_tmp_path dir dim -> p <> meta_file_path dir dim -> content y' p = content y p) /\
    (rc = GRAVELDB_OK /\ content y' (meta_file_path dir dim) = Some (meta_image gen) \/
     rc = GRAVELDB_ERR_IO /\ content y' (meta_file_path dir dim) = content y (meta_file_path dir dim)).
Proof.
  intros Hh Hok Hdir Hg. destruct (persist_meta_spec dim dir gen y Hok Hdir) as (rc & y' & E & Hok' & Hq & Ho & Hc). exists rc, y'.
  split; [done|]. split; [done|]. split; [|done]. intros H. destruct (Hq H) as [Hq' ->]. split; [done|]. destruct Hc as [[_ Hc]|[? _]]; [|done].
  eexists. split; [by apply read_image|done].
Qed.

(** C33: a meta file in which any one byte was changed is rejected as corrupt: the CRC-32 of the
    first twelve bytes detects every change of one byte, in the data or in the checksum itself. *)
Theorem ckpt_read_meta_detects (host : WireHost) dim dir gen y l1 x z l2 :
  WireHostOk host -> names_ok y -> answers y = [] -> is_byte z -> z <> x ->
  meta_image gen = l1 ++ x :: l2 -> content y (meta_file_path dir dim) = Some (l1 ++ z :: l2) ->
  ckpt_read_meta dir dim y = Ret (GRAVELDB_ERR_CORRUPT, None, y).
Proof.
  intros Hh Hok Hq Hz Hne E Hc. pose proof (image_changed gen l1 l2 x z E Hz Hne) as Hcrc.
  assert (zlen (l1 ++ z :: l2) = WIRE_META_SIZE) as Hl. { rewrite <- (meta_image_len gen), E. unfold zlen. by rewrite !length_app. }
  rewrite (read_meta_spec dim dir y (l1 ++ z :: l2)); try done.
  - rewrite (proj2 (Z.eqb_neq _ (crc32_simple _))) by done. by rewrite andb_false_r.
  - pose proof (meta_image_bytes gen) as HF. rewrite E in HF. apply Forall_app in HF as [F1 [Fx F2]%Forall_cons]. apply Forall_app. split; [done|by constructor].
Qed.

(** ** Witnesses *)

(** A system with one file. *)
Definition one_file (f : list Z) : Sys := mkSys {[ 3 := f ]} ∅ [] [] {[ "/db/emb_d4.meta" := 3 ]}.

Lemma one_file_ok f : names_ok (one_file f).
Proof.
  split; simpl.
  - intros p fd [<- <-]%lookup_singleton_Some. split; [lia|]. by exists f.
  - intros p q fd [<- _]%lookup_singleton_Some [<- _]%lookup_singleton_Some. done.
Qed.

Definition meta_sys : Sys := one_file [1; 2].

Lemma ckpt_persist_meta_atomic_witness :
  exists rc y', @ckpt_persist_meta host_le 4 "/db" 7 meta_sys = Ret (rc, y') /\ names_ok y' /\
    (answers meta_sys = [] -> rc = GRAVELDB_OK /\
       exists meta, @ckpt_read_meta host_le "/db" 4 y' = Ret (GRAVELDB_OK, Some meta, y') /\ bm_generation meta = 7) /\
    (forall p, p <> meta_tmp_path "/db" 4 -> p <> meta_file_path "/db" 4 -> content y' p = content meta_sys p) /\
    (rc = GRAVELDB_OK /\ content y' (meta_file_path "/db" 4) = Some (meta_image 7) \/
     rc = GRAVELDB_ERR_IO /\ content y' (meta_file_path "/db" 4) = content meta_sys (meta_file_path "/db" 4)).
Proof.
  apply (ckpt_persist_meta_atomic host_le 4 "/db" 7 meta_sys); [apply _|apply one_file_ok|unfold short_dir; simpl; lia|lia].
Defined.

(** Generation 7 with the low byte of the generation changed. *)
Definition bad_meta : list Z := take 4 (meta_image 7) ++ 8 :: drop 5 (meta_image 7).
Definition bad_meta_sys : Sys := one_file bad_meta.

Lemma ckpt_read_meta_detects_witness : @ckpt_read_meta host_le "/db" 4 bad_meta_sys = Ret (GRAVELDB_ERR_CORRUPT, None, bad_meta_sys).
Proof.
  apply (ckpt_read_meta_detects host_le 4 "/db" 7 bad_meta_sys (take 4 (meta_image 7)) 7 8 (drop 5 (meta_image 7)));
    [apply _|apply one_file_ok|done|unfold is_byte; lia|lia|vm_compute; done|vm_compute; done].
Defined.
