(* ===== verification/Engine.v ===== *)
(** Engine: the database, src/graveldb.c.

    A database is the feature index ([HashIndex]), the registry of dimensions
    ([DimRegistry]) with one bin per dimension ([DimBin]), and the progress of an
    incremental checkpoint. This file holds the state and all the operations of
    the public interface; EngineProps.v holds their properties. *)

From Stdlib Require Import String.
From S2P Require Import Prelude LinearProbe Wire Overlay DirtyTracker KeyBTree HashIndex DimRegistry IoBatch PageMap DimBin Names CkptMeta.

(** ** State (graveldb_impl.h, checkpoint.h) *)

Definition GRAVELDB_DELTA_MAGIC : Z := 0x44454C54.
Definition GRAVELDB_MAX_DIRTY : Z := 1048576.

Inductive CkptPhase : Type := CKPT_IDLE | CKPT_FLUSHING | CKPT_DUMPING | CKPT_FINISHING.

(** [dirty_blocks]: the list the scan filled; [dirty_count] is its length. *)
Record CkptProgress : Type := mkCkptProgress {
  phase : CkptPhase;
  current_bin : Z;
  ckpt_fd : Z;
  dirty_blocks : list Z;
  dirty_cursor : Z;
  entries_written : Z;
  max_pages_per_step : Z
}.

Definition dirty_count (p : CkptProgress) : Z := zlen (dirty_blocks p).

(** The fields of the configuration the engine reads after [graveldb_open]. *)
Record GravelDBConfig : Type := mkGravelDBConfig {
  data_dir : option string;
  dims : list Z;
  buffer_size : Z; index_capacity : Z; entry_align : Z; cfg_page_size : Z;
  cfg_auto_create_bins : bool; cfg_overlay_budget : Z
}.

(** [bin_heap]: the bins by address. [allocator]: the allocator of the database,
    which its bins use. *)
Record GravelDB (P : Type) : Type := mkGravelDB {
  config : GravelDBConfig;
  dim_reg : DimRegistry;
  index : HashIndex;
  current_epoch : Z;
  allocator : P;
  io_ring : uring_io_ctx_t;
  auto_create_bins : bool;
  ckpt_progress : CkptProgress;
  bin_heap : gmap Z (DimBin P)
}.
Arguments mkGravelDB {P}. Arguments config {P}. Arguments dim_reg {P}. Arguments index {P}. Arguments current_epoch {P}.
Arguments allocator {P}. Arguments io_ring {P}. Arguments auto_create_bins {P}. Arguments ckpt_progress {P}. Arguments bin_heap {P}.

(** A database and the system. *)
Record DbSt (P : Type) : Type := mkDbSt { gdb : GravelDB P; gsys : Sys }.
Arguments mkDbSt {P}. Arguments gdb {P}. Arguments gsys {P}.

(** An embedding to store: feature id, dimension, and its bytes or [NULL]. *)
Record PutReq : Type := mkPutReq { pr_feat : Z; pr_dim : Z; pr_emb : option (list Z) }.

(** The pieces of a two-phase read. *)
Record BatchGetDiskRead : Type := mkDiskRead { req_idx : Z; dr_bin : Z; dr_entry_id : Z; dr_page_id : Z; offset_in_page : Z }.
Record BatchGetPageRead : Type := mkPageRead { pg_bin : Z; pg_page_id : Z; pg_buf : option (list Z); pg_reads : list BatchGetDiskRead }.
Record AsyncGetState : Type := mkAsyncGetState {
  page_reads : list BatchGetPageRead; ag_ctx : uring_io_ctx_t; ag_use_uring : bool; ag_submit_rc : graveldb_status_t
}.
(** The counters that [graveldb_stats] always sets to zero are left out. *)
Record GravelDBStats : Type := mkStats { total_features : Z; checkpoint_generation : Z; st_total_entries : Z; st_flush_bytes : Z }.
Record AsyncFlushState : Type := mkAsyncFlushState { af_use_uring : bool; af_submit_rc : graveldb_status_t }.

(** The output of a read: the buffers, [None] for [NULL], and the dimensions if
    the caller asks for them. *)
Record GetOut : Type := mkGetOut { out_embeddings : list (option (list Z)); out_dims : option (list Z) }.

(** ** Operations *)

(** The end of [detect_page_size]: [detected] is what the file system reports. *)
Fixpoint round_pow2 (fuel : nat) (p detected : Z) : Z :=
  match fuel with O => p | S fuel => if p <? detected then round_pow2 fuel (p * 2) detected else p end.
Definition detect_page_size (detected : Z) : Z :=
  if detected =? 0 then GRAVELDB_PAGE_SIZE_DEFAULT
  else
    let detected := if detected <? 512 then 512 else detected in
    let detected := if 65536 <? detected then 65536 else detected in
    round_pow2 17 1 detected.

(** The insertion sorts of the engine: [done] is the sorted prefix, last first;
    [gt x e] says that [x] goes after [e]. *)
Fixpoint insert_last {A} (gt : A -> A -> bool) (e : A) (done : list A) : list A :=
  match done with
  | x :: done' => if gt x e then x :: insert_last gt e done' else e :: done
  | [] => [e]
  end.
Definition insertion_sort_by {A} (gt : A -> A -> bool) (l : list A) : list A :=
  reverse (foldl (fun done e => insert_last gt e done) [] l).

(** A [uint64_t] of a key file, in the host's order. *)
Definition key_value (b : list Z) : Z := foldr (fun x acc => x + 256 * acc) 0 b.

Section ops.
Context {P : Type} `{!ObjectPool P} {host : WireHost}.

(** [slab_pool_create] for the embeddings of an overlay. *)
Variable create_pool : P -> option P.

(** The content of memory that [malloc] returns. *)
Variable junk : Z -> list Z.

#[local] Abbreviation D := (M (DbSt P)).

Definition on_sys {A} (m : M Sys A) : D A := fun st =>
  let! '(a, y) := m (gsys st) in Ret (a, mkDbSt (gdb st) y).
Definition get_db : D (GravelDB P) := gets gdb.
Definition upd_db (f : GravelDB P -> GravelDB P) : D unit := modify (fun st => mkDbSt (f (gdb st)) (gsys st)).

Definition set_reg (d : GravelDB P) (r : DimRegistry) : GravelDB P :=
  mkGravelDB (config d) r (index d) (current_epoch d) (allocator d) (io_ring d) (auto_create_bins d) (ckpt_progress d) (bin_heap d).
Definition set_index (d : GravelDB P) (i : HashIndex) : GravelDB P :=
  mkGravelDB (config d) (dim_reg d) i (current_epoch d) (allocator d) (io_ring d) (auto_create_bins d) (ckpt_progress d) (bin_heap d).
Definition set_epoch (d : GravelDB P) (e : Z) : GravelDB P :=
  mkGravelDB (config d) (dim_reg d) (index d) e (allocator d) (io_ring d) (auto_create_bins d) (ckpt_progress d) (bin_heap d).
Definition set_ring (d : GravelDB P) (r : uring_io_ctx_t) : GravelDB P :=
  mkGravelDB (config d) (dim_reg d) (index d) (current_epoch d) (allocator d) r (auto_create_bins d) (ckpt_progress d) (bin_heap d).
Definition set_progress (d : GravelDB P) (p : CkptProgress) : GravelDB P :=
  mkGravelDB (config d) (dim_reg d) (index d) (current_epoch d) (allocator d) (io_ring d) (auto_create_bins d) p (bin_heap d).
Definition set_bins (d : GravelDB P) (al : P) (h : gmap Z (DimBin P)) : GravelDB P :=
  mkGravelDB (config d) (dim_reg d) (index d) (current_epoch d) al (io_ring d) (auto_create_bins d) (ckpt_progress d) h.

(** An operation of the bin at an address, with the database's allocator. *)
Definition with_bin {A} (addr : Z) (m : M (BinSt P) A) : D A := fun st =>
  let d := gdb st in
  let! b := deref (bin_heap d !! addr) in
  let! '(a, bs) := m (mkBinSt (set_allocator b (Some (allocator d))) (gsys st)) in
  let al := default (allocator d) (DimBin.allocator (bin bs)) in
  Ret (a, mkDbSt (set_bins d al (<[addr := bin bs]> (bin_heap d))) (sys bs)).

Definition get_bin_at (addr : Z) : D (DimBin P) :=
  let* d := get_db in lift (deref (bin_heap d !! addr)).

(** [dim_registry_get_bin(&db->dim_reg, i)] *)
Definition bin_addr (i : Z) : D Z :=
  let* d := get_db in lift (dim_registry_get_bin (dim_reg d) i).

Definition num_bins : D Z := let* d := get_db in ret (dim_registry_count (dim_reg d)).

(** [for (i = 0; i < num_bins; i++)] with the bins' addresses. *)
Definition for_bins (f : Z -> Z -> D unit) : D unit :=
  let* n := num_bins in
  forM (seqZ 0 n) (fun i => let* a := bin_addr i in f i a).

Definition index_get (fid : Z) : D (option (Z * Z)) :=
  let* d := get_db in
  let* '(rc, o, idx) := lift (hash_index_get (index d) fid) in
  do* upd_db (fun d => set_index d idx) in
  ret (if bool_decide (rc = GRAVELDB_OK) then o else None).
Definition index_put (fid dim_idx entry_idx : Z) : D graveldb_status_t :=
  let* ok := on_sys sys_ok in
  let* d := get_db in
  let* '(rc, idx) := lift (hash_index_put ok (index d) fid dim_idx entry_idx) in
  do* upd_db (fun d => set_index d idx) in
  ret rc.
Definition index_remove (fid : Z) : D graveldb_status_t :=
  let* d := get_db in
  let* '(rc, idx) := lift (hash_index_remove (index d) fid) in
  do* upd_db (fun d => set_index d idx) in
  ret rc.

(** *** Opening and closing *)

(** The keys of a file that was read, eight bytes each. *)
Fixpoint keys_of (n : nat) (b : list Z) : list Z :=
  match n with O => [] | S n => key_value (take 8 b) :: keys_of n (drop 8 b) end.

(** One key of the scan of [rebuild_index_from_keys]. *)
Definition rebuild_key (dim_idx addr entry_idx feat_id : Z) : D unit :=
  if feat_id =? 0 then with_bin addr (dimbin_free_entry (u32 entry_idx))
  else
    let* o := index_get feat_id in
    let put := let* _ := index_put feat_id dim_idx (u32 entry_idx) in ret tt in
    match o with
    | Some (pdim, pentry) =>
      if negb (pdim =? dim_idx) then
        let zb := replicate 8 0 in
        let* paddr := bin_addr pdim in
        let* pbin := get_bin_at paddr in
        let* _ := on_sys (pwrite (key_fd pbin) zb (pentry * 8)) in
        do* with_bin paddr (dimbin_free_entry pentry) in
        let* _ := index_remove feat_id in
        let* b := get_bin_at addr in
        let* _ := on_sys (pwrite (key_fd b) zb (entry_idx * 8)) in
        with_bin addr (dimbin_free_entry (u32 entry_idx))
      else put
    | None => put
    end.

Definition rebuild_bin (dim_idx : Z) : D graveldb_status_t :=
  let* addr := bin_addr dim_idx in
  let* b := get_bin_at addr in
  if bump_ptr b =? 0 then ret GRAVELDB_OK
  else
    let* ok := on_sys sys_ok in
    if negb ok then ret GRAVELDB_ERR_OOM
    else
      let* '(rd, bytes) := on_sys (pread (key_fd b) (u64 (bump_ptr b * 8)) 0) in
      if rd <? 0 then ret GRAVELDB_OK
      else
        let keys := keys_of (Z.to_nat (rd / 8)) bytes in
        do* forM (imap (fun i k => (Z.of_nat i, k)) keys) (fun e => rebuild_key dim_idx addr (fst e) (snd e)) in
        ret GRAVELDB_OK.

Fixpoint rebuild_bins (l : list Z) : D graveldb_status_t :=
  match l with
  | [] => ret GRAVELDB_OK
  | i :: l =>
    let* rc := rebuild_bin i in
    if negb (bool_decide (rc = GRAVELDB_OK)) then ret rc else rebuild_bins l
  end.
Definition rebuild_index_from_keys : D graveldb_status_t :=
  let* n := num_bins in rebuild_bins (seqZ 0 n).

(** Creates a bin and registers it: its index, or -1; the status is the one of
    [dimbin_init]. *)
Definition new_bin (dim per_bin_buf align psz : Z) : D (graveldb_status_t * Z) :=
  let* d := get_db in
  let* dir := lift (deref (data_dir (config d))) in
  let* '(rc, b) := on_sys (dimbin_init (P := P) dim (bin_path dir dim) per_bin_buf align psz) in
  if negb (bool_decide (rc = GRAVELDB_OK)) then ret (rc, -1)
  else
    let b := set_overlay_budget (set_allocator b (Some (allocator d))) (cfg_overlay_budget (config d)) in
    let addr := fresh (dom (bin_heap d)) in
    let* ok1 := on_sys sys_ok in
    let* ok2 := on_sys sys_ok in
    let* ok3 := on_sys sys_ok in
    let* ok4 := on_sys sys_ok in
    let* '(bin_idx, reg) := lift (dim_registry_put (mkRegAlloc ok1 ok2 ok3 ok4) (dim_reg d) dim addr) in
    do* upd_db (fun d => set_reg d reg) in
    if bin_idx <? 0 then let* _ := lift (dimbin_destroy b) in ret (GRAVELDB_OK, -1)
    else
      do* upd_db (fun d => set_bins d (allocator d) (<[addr := b]> (bin_heap d))) in
      ret (GRAVELDB_OK, bin_idx).

Definition create_and_register_bin (dim : Z) : D Z :=
  let* ok := on_sys sys_ok in
  if negb ok then ret (-1)
  else
    let* d := get_db in
    let buf_size := if 0 <? buffer_size (config d) then buffer_size (config d) else 256 * 1024 * 1024 in
    let per_bin_buf := buf_size / (dim_registry_count (dim_reg d) + 1) in
    let per_bin_buf := if per_bin_buf <? 4 * 1024 * 1024 then 4 * 1024 * 1024 else per_bin_buf in
    let* '(_, bin_idx) := new_bin dim per_bin_buf (entry_align (config d)) (cfg_page_size (config d)) in
    ret bin_idx.

(** The bins of the configured dimensions, with the caller's [page_size]. *)
Fixpoint open_bins (ds : list Z) (per_bin_buf page_sz : Z) : D graveldb_status_t :=
  match ds with
  | [] => ret GRAVELDB_OK
  | dim :: ds =>
    let* ok := on_sys sys_ok in
    if negb ok then ret GRAVELDB_ERR_OOM
    else
      let* d := get_db in
      let* '(rc, bin_idx) := new_bin dim per_bin_buf (entry_align (config d)) page_sz in
      if negb (bool_decide (rc = GRAVELDB_OK)) then ret rc
      else if bin_idx <? 0 then ret GRAVELDB_ERR_OOM
      else open_bins ds per_bin_buf page_sz
  end.

(** The generation of the bin's meta file, if there is one. *)
Definition restore_generation (dir : string) (addr : Z) : D unit :=
  let* b := get_bin_at addr in
  let* '(_, meta) := on_sys (ckpt_read_meta dir (DimBin.dim b)) in
  match meta with
  | Some m =>
    with_bin addr (upd (fun b => set_dirty b (mkDirtyTracker (active (dirty b)) (ckpt (dirty b)) (dt_capacity (dirty b)) (bm_generation m))))
  | None => ret tt
  end.

(** [dimbin_destroy(s); free(s);] *)
Definition destroy_bin (addr : Z) : D unit :=
  do* with_bin addr (let* s := DimBin.get_bin in
                     let* '(_, s) := lift (dimbin_destroy s) in
                     upd (fun _ => s)) in
  upd_db (fun d => set_bins d (allocator d) (delete addr (bin_heap d))).

Definition idle_progress : CkptProgress := mkCkptProgress CKPT_IDLE 0 0 [] 0 0 0.

(** The database between the early checks and the creation of the bins. *)
Definition open_db (cfg : GravelDBConfig) (detected : Z) (al : P) (idx : HashIndex) (ok_e ok_b : bool) : GravelDB P :=
  let psz := if cfg_page_size cfg =? 0 then detect_page_size detected else cfg_page_size cfg in
  let cfg := mkGravelDBConfig (data_dir cfg) (dims cfg) (buffer_size cfg) (index_capacity cfg) (entry_align cfg) psz
               (cfg_auto_create_bins cfg) (cfg_overlay_budget cfg) in
  mkGravelDB cfg (dim_registry_init ok_e ok_b) idx 0 al (snd uring_io_init) (cfg_auto_create_bins cfg) idle_progress ∅.

(** [None]: no database is returned. [al]: the initialised slab allocator. *)
Definition graveldb_open (cfg : GravelDBConfig) (detected : Z) (al : P) :
    M Sys (graveldb_status_t * option (GravelDB P)) :=
  match data_dir cfg with
  | None => ret (GRAVELDB_ERR_INVALID, None)
  | Some dir =>
    let* ok := sys_ok in
    if negb ok then ret (GRAVELDB_ERR_OOM, None) else
    let* ok := if 0 <? zlen (dims cfg) then sys_ok else ret true in
    if negb ok then ret (GRAVELDB_ERR_OOM, None) else
    let* ok := sys_ok in
    if negb ok then ret (GRAVELDB_ERR_OOM, None) else
    let idx_cap := if 0 <? index_capacity cfg then index_capacity cfg else 2 ^ 24 in
    let* ok := sys_ok in
    let* '(rc, idx) := lift (hash_index_init ok (mkHashIndex None 0 0 0 None 0 0 0) idx_cap) in
    if negb (bool_decide (rc = GRAVELDB_OK)) then ret (rc, None) else
    let* ok_e := sys_ok in
    let* ok_b := sys_ok in
    let buf_size := if 0 <? buffer_size cfg then buffer_size cfg else 256 * 1024 * 1024 in
    let per_bin_buf := if 0 <? zlen (dims cfg) then buf_size / zlen (dims cfg) else buf_size in
    fun y =>
      let run :=
        let* rc := open_bins (dims cfg) per_bin_buf (cfg_page_size cfg) in
        if negb (bool_decide (rc = GRAVELDB_OK)) then do* for_bins (fun _ addr => destroy_bin addr) in ret rc
        else
          let* _ := rebuild_index_from_keys in
          do* for_bins (fun _ addr => restore_generation dir addr) in
          ret GRAVELDB_OK in
      let! '(rc, st) := run (mkDbSt (open_db cfg detected al idx ok_e ok_b) y) in
      Ret (rc, if bool_decide (rc = GRAVELDB_OK) then Some (gdb st) else None, gsys st)
  end.

Definition graveldb_close : D unit :=
  do* for_bins (fun _ addr => let* _ := with_bin addr (dimbin_flush true) in destroy_bin addr) in
  upd_db (fun d => set_ring (set_index (set_reg d (dim_registry_destroy (dim_reg d))) (hash_index_destroy (index d)))
                     (uring_io_destroy (io_ring d))).

(** *** Batch get *)

(** [memcpy] of [n] bytes at the start of an output buffer. *)
Definition copy_out (b src : list Z) : res (list Z) :=
  if zlen b <? zlen src then Ub else Ret (src ++ drop (List.length src) b).

Definition set_out (o : GetOut) (i : Z) (b : list Z) : res GetOut :=
  let! l := wr (out_embeddings o) i (Some b) in Ret (mkGetOut l (out_dims o)).
Definition set_dim (o : GetOut) (i d : Z) : res GetOut :=
  match out_dims o with
  | Some l => let! l := wr l i d in Ret (mkGetOut (out_embeddings o) (Some l))
  | None => Ret o
  end.

(** The page buffer of a page that is being written, if any. *)
Definition write_buf_page (pg : Z) : M (BinSt P) (option Z) :=
  let* s := DimBin.get_bin in
  let* sl := get_slots in
  let* h := lift (pagemap_find sl (wcapacity (write_buf s)) pg) in
  let* x := lift (rd sl h) in
  ret (if page_id x =? pg then Some (pdata x) else None).

(** The answer of the overlay during a checkpoint. *)
Definition overlay_read (entry_idx : Z) : M (BinSt P) (option (list Z)) :=
  let* s := DimBin.get_bin in
  if negb (in_checkpoint s) then ret None
  else
    let* '(c, ob) := lift (overlay_contains (overlay s) entry_idx) in
    do* upd (fun s => set_overlay s ob) in
    if negb c then ret None
    else
      let* '(d, ob) := lift (overlay_get ob entry_idx) in
      do* upd (fun s => set_overlay s ob) in
      ret (Some (default [] d)).

(** One request of the first phase: answered from memory, or left as a disk read. *)
Definition get_one (o : GetOut) (reads : list BatchGetDiskRead) (i fid : Z) : D (GetOut * list BatchGetDiskRead) :=
  let* r := index_get fid in
  match r with
  | None => let* o := lift (set_dim o i 0) in ret (o, reads)
  | Some (dim_idx, entry_idx) =>
    let* addr := bin_addr dim_idx in
    let* b := get_bin_at addr in
    let* o := lift (set_dim o i (DimBin.dim b)) in
    let* buf := lift (rd (out_embeddings o) i) in
    match buf with
    | None => ret (o, reads)
    | Some buf =>
      let* d := with_bin addr (overlay_read entry_idx) in
      match d with
      | Some d => let* buf := lift (copy_out buf d) in let* o := lift (set_out o i buf) in ret (o, reads)
      | None =>
        let epp := u32 (entries_per_page b) in
        if epp =? 0 then lift Ub
        else
          let pg := entry_idx / epp in
          let off := u32 (entry_idx mod epp * entry_size b) in
          let* w := with_bin addr (write_buf_page pg) in
          match w with
          | Some p =>
            let* page := on_sys (buf_bytes p (page_size b)) in
            let* buf := lift (copy_out buf (take (Z.to_nat (entry_size b)) (drop (Z.to_nat off) page))) in
            let* o := lift (set_out o i buf) in
            ret (o, reads)
          | None => ret (o, reads ++ [mkDiskRead i addr entry_idx pg off])
          end
      end
    end
  end.

Fixpoint get_all (o : GetOut) (reads : list BatchGetDiskRead) (l : list (Z * Z)) : D (GetOut * list BatchGetDiskRead) :=
  match l with
  | [] => ret (o, reads)
  | (i, fid) :: l => let* '(o, reads) := get_one o reads i fid in get_all o reads l
  end.

(** The order of the disk reads: by bin pointer, then by page. *)
Definition read_gt (a b : BatchGetDiskRead) : bool :=
  (dr_bin b <? dr_bin a) || ((dr_bin a =? dr_bin b) && (dr_page_id b <? dr_page_id a)).
Definition same_page (a b : BatchGetDiskRead) : bool := (dr_bin b =? dr_bin a) && (dr_page_id b =? dr_page_id a).

(** A single entry that fills its page is read straight into the output. *)
Definition direct_read (b : DimBin P) (reads : list BatchGetDiskRead) : bool :=
  (zlen reads =? 1) && (entries_per_page b =? 1).

(** The read of one page. *)
Definition submit_page (c : uring_io_ctx_t) (use_uring : bool) (o : GetOut) (reads : list BatchGetDiskRead) :
    D (uring_io_ctx_t * GetOut * BatchGetPageRead * graveldb_status_t) :=
  match reads with
  | [] => lift Ub
  | r :: _ =>
    let* b := get_bin_at (dr_bin r) in
    let request len off :=
      if use_uring then
        let* '(_, d, c) := on_sys (read_request c (fd b) len off) in ret (d, c, GRAVELDB_OK)
      else
        let* '(rd, d) := on_sys (pread (fd b) len off) in ret (d, c, if rd <? 0 then GRAVELDB_ERR_IO else GRAVELDB_OK) in
    if direct_read b reads then
      let* buf := lift (rd (out_embeddings o) (req_idx r)) in
      let* buf := lift (deref buf) in
      let* '(d, c, rc) := request (entry_size b) (dr_entry_id r * entry_size b) in
      let* buf := lift (copy_out buf d) in
      let* o := lift (set_out o (req_idx r) buf) in
      ret (c, o, mkPageRead (dr_bin r) (dr_page_id r) (Some buf) reads, rc)
    else
      let* ok := on_sys sys_ok in
      if negb ok then ret (c, o, mkPageRead (dr_bin r) (dr_page_id r) None reads, GRAVELDB_ERR_OOM)
      else
        let* '(d, c, rc) := request (page_size b) (dr_page_id r * page_size b) in
        let* buf := lift (copy_out (junk (page_size b)) d) in
        ret (c, o, mkPageRead (dr_bin r) (dr_page_id r) (Some buf) reads, rc)
  end.

Fixpoint submit_pages (c : uring_io_ctx_t) (use_uring : bool) (o : GetOut) (rc : graveldb_status_t) (l : list (list BatchGetDiskRead)) :
    D (uring_io_ctx_t * GetOut * list BatchGetPageRead * graveldb_status_t) :=
  match l with
  | [] => ret (c, o, [], rc)
  | reads :: l =>
    let* '(c, o, p, prc) := submit_page c use_uring o reads in
    let* '(c, o, ps, rc) := submit_pages c use_uring o (if bool_decide (prc = GRAVELDB_OK) then rc else prc) l in
    ret (c, o, p :: ps, rc)
  end.

(** [None] as state: there is nothing to wait for. *)
Definition graveldb_batch_get_submit (feat_ids : list Z) (o : GetOut) : D (graveldb_status_t * option AsyncGetState * GetOut) :=
  match feat_ids with
  | [] => ret (GRAVELDB_OK, None, o)
  | _ =>
    let* ok := if 64 <? zlen feat_ids then on_sys sys_ok else ret true in
    if negb ok then ret (GRAVELDB_ERR_OOM, None, o) else
    let* '(o, reads) := get_all o [] (imap (fun i f => (Z.of_nat i, f)) feat_ids) in
    if zlen reads =? 0 then ret (GRAVELDB_OK, None, o)
    else
      let reads := insertion_sort_by read_gt reads in
      let* ok := if 64 <? zlen reads then on_sys sys_ok else ret true in
      if negb ok then ret (GRAVELDB_ERR_OOM, None, o) else
      let* ok := on_sys sys_ok in
      if negb ok then ret (GRAVELDB_ERR_OOM, None, o) else
      let* ok := if 64 <? zlen feat_ids then ret true else on_sys sys_ok in
      if negb ok then ret (GRAVELDB_ERR_OOM, None, o) else
      let* ok := if 64 <? zlen reads then ret true else on_sys sys_ok in
      if negb ok then ret (GRAVELDB_ERR_OOM, None, o) else
      let '(r, c) := uring_io_init in
      let use_uring := r =? 0 in
      let* '(c, o, pages, rc) := submit_pages c use_uring o GRAVELDB_OK (runs same_page reads) in
      ret (GRAVELDB_OK, Some (mkAsyncGetState pages c use_uring rc), o)
  end.

(** The entries of a page go from its buffer to the requests. *)
Fixpoint scatter (o : GetOut) (page : list Z) (esz : Z) (reads : list BatchGetDiskRead) : res GetOut :=
  match reads with
  | [] => Ret o
  | r :: reads =>
    let! buf := rd (out_embeddings o) (req_idx r) in
    let! buf := deref buf in
    if zlen page <? offset_in_page r + esz then Ub
    else
      let! buf := copy_out buf (take (Z.to_nat esz) (drop (Z.to_nat (offset_in_page r)) page)) in
      let! o := set_out o (req_idx r) buf in
      scatter o page esz reads
  end.

Fixpoint scatter_pages (o : GetOut) (l : list BatchGetPageRead) : D GetOut :=
  match l with
  | [] => ret o
  | p :: l =>
    let* o := match pg_buf p with
              | None => ret o
              | Some page =>
                let* b := get_bin_at (pg_bin p) in
                if direct_read b (pg_reads p) then ret o
                else lift (scatter o page (entry_size b) (pg_reads p))
              end in
    scatter_pages o l
  end.

(** The status, the state that is left, and the outputs. *)
Definition graveldb_batch_get_poll (a : option AsyncGetState) (o : GetOut) : D (graveldb_status_t * option AsyncGetState * GetOut) :=
  match a with
  | None => ret (GRAVELDB_OK, None, o)
  | Some s =>
    let '(still_pending, c) := if ag_use_uring s then uring_io_poll (ag_ctx s) else (0, ag_ctx s) in
    if 0 <? still_pending then ret (GRAVELDB_AGAIN, Some (mkAsyncGetState (page_reads s) c (ag_use_uring s) (ag_submit_rc s)), o)
    else
      let rc := if ag_use_uring s && (0 <? errors c) then GRAVELDB_ERR_IO else ag_submit_rc s in
      let* o := scatter_pages o (page_reads s) in
      ret (rc, None, o)
  end.

Definition graveldb_batch_get_cancel (a : option AsyncGetState) : option AsyncGetState := None.

(** [while ((rc = poll()) == GRAVELDB_AGAIN);]: in the portable build the first
    poll answers, so one round is enough. *)
Fixpoint poll_get (fuel : nat) (a : option AsyncGetState) (o : GetOut) : D (graveldb_status_t * GetOut) :=
  match fuel with
  | O => lift Diverge
  | S fuel =>
    let* '(rc, a, o) := graveldb_batch_get_poll a o in
    if bool_decide (rc = GRAVELDB_AGAIN) then poll_get fuel a o else ret (rc, o)
  end.

Definition graveldb_batch_get (feat_ids : list Z) (o : GetOut) : D (graveldb_status_t * GetOut) :=
  let* '(rc, a, o) := graveldb_batch_get_submit feat_ids o in
  if negb (bool_decide (rc = GRAVELDB_OK)) then ret (rc, o) else poll_get 2 a o.

(** *** Batch put and delete *)

(** The entry of a feature of a group: the one it has, or a new one. *)
Definition put_entry (dim_idx addr fid : Z) : D (option Z) :=
  let* r := index_get fid in
  match r with
  | Some (edim, eidx) => ret (if edim =? u16 dim_idx then Some eidx else None)
  | None =>
    let* e := with_bin addr dimbin_alloc_entry in
    let* _ := index_put fid (u16 dim_idx) e in
    ret (Some e)
  end.

(** The slots and the keys of a group; with [deferred] false the embeddings are
    written here. *)
Fixpoint put_group_entries (dim_idx addr : Z) (deferred : bool) (l : list PutReq) (rc : graveldb_status_t) :
    D (graveldb_status_t * list EmbWriteEntry) :=
  match l with
  | [] => ret (rc, [])
  | r :: l =>
    match pr_emb r with
    | None => put_group_entries dim_idx addr deferred l rc
    | Some emb =>
      if pr_feat r =? 0 then put_group_entries dim_idx addr deferred l rc
      else
        let* e := put_entry dim_idx addr (pr_feat r) in
        match e with
        | None => put_group_entries dim_idx addr deferred l GRAVELDB_ERR_DIM_MISMATCH
        | Some e =>
          do* with_bin addr (dimbin_buf_key e (pr_feat r)) in
          if deferred then
            let* '(rc, ds) := put_group_entries dim_idx addr deferred l rc in
            ret (rc, (e, emb) :: ds)
          else
            let* wrc := with_bin addr (dimbin_put_batch [(e, emb)]) in
            put_group_entries dim_idx addr deferred l (if bool_decide (wrc = GRAVELDB_OK) then rc else wrc)
        end
    end
  end.

(** Single writes, when the array of a batch cannot be allocated. *)
Fixpoint put_singles (addr : Z) (ds : list EmbWriteEntry) (rc : graveldb_status_t) : D graveldb_status_t :=
  match ds with
  | [] => ret rc
  | e :: ds =>
    let* wrc := with_bin addr (dimbin_put_batch [e]) in
    put_singles addr ds (if bool_decide (wrc = GRAVELDB_OK) then rc else wrc)
  end.

(** The embeddings of a group. *)
Definition put_deferred (addr : Z) (ds : list EmbWriteEntry) (rc : graveldb_status_t) : D graveldb_status_t :=
  match ds with
  | [] => ret rc
  | _ =>
    let* ok := on_sys sys_ok in
    if (ok : bool) then
      let* wrc := with_bin addr (dimbin_put_batch ds) in
      ret (if bool_decide (wrc = GRAVELDB_OK) then rc else wrc)
    else put_singles addr ds rc
  end.

(** The bin of a dimension, created when it is missing: its index and address,
    or the status that ends the put. *)
Definition resolve_bin (dim : Z) : D (graveldb_status_t + Z * Z) :=
  let* d := get_db in
  let* '(i, reg) := lift (dim_registry_find (dim_reg d) dim) in
  do* upd_db (fun d => set_reg d reg) in
  let found i := let* a := bin_addr (u16 i) in ret (inr (i, a)) in
  if i <? 0 then
    if negb (auto_create_bins d) then ret (inl GRAVELDB_ERR_INVALID)
    else
      let* i := create_and_register_bin dim in
      if i <? 0 then ret (inl GRAVELDB_ERR_OOM) else found i
  else found i.

Fixpoint put_dim_groups (groups : list (list PutReq)) (rc : graveldb_status_t) : D graveldb_status_t :=
  match groups with
  | [] => ret rc
  | g :: groups =>
    let* r := resolve_bin (match g with x :: _ => pr_dim x | [] => 0 end) in
    match r with
    | inl e => ret e
    | inr (dim_idx, addr) =>
      let* deferred := on_sys sys_ok in
      do* with_bin addr (dimbin_reserve (zlen g)) in
      let* '(rc, ds) := put_group_entries dim_idx addr deferred g rc in
      let* rc := put_deferred addr ds rc in
      put_dim_groups groups rc
    end
  end.

Definition graveldb_batch_put (reqs : list PutReq) : D graveldb_status_t :=
  match reqs with
  | [] => ret GRAVELDB_OK
  | _ =>
    let* ok := on_sys sys_ok in
    if negb ok then ret GRAVELDB_ERR_OOM
    else
      let order := insertion_sort_by (fun a b => pr_dim b <? pr_dim a) reqs in
      put_dim_groups (runs (fun a b => pr_dim b =? pr_dim a) order) GRAVELDB_OK
  end.

Definition delete_one (fid : Z) : D unit :=
  if fid =? 0 then ret tt
  else
    let* r := index_get fid in
    match r with
    | None => ret tt
    | Some (dim_idx, entry_idx) =>
      let* addr := bin_addr dim_idx in
      let* b := get_bin_at addr in
      do* (if in_checkpoint b then
             with_bin addr (let* ok := onsys sys_ok in
                            let* s := DimBin.get_bin in
                            let* '(_, ob) := lift (overlay_tombstone ok (overlay s) entry_idx) in
                            upd (fun s => set_overlay s ob))
           else with_bin addr (dimbin_free_entry entry_idx)) in
      let* _ := index_remove fid in
      ret tt
    end.

Definition graveldb_batch_delete (feat_ids : list Z) : D graveldb_status_t :=
  do* forM feat_ids delete_one in ret GRAVELDB_OK.

(** *** Flush *)

(** Flushes the key buffers of the bins for which [cond] holds. *)
Fixpoint flush_key_buffers (cond : DimBin P -> bool) (l : list Z) (rc : graveldb_status_t) : D graveldb_status_t :=
  match l with
  | [] => ret rc
  | i :: l =>
    let* addr := bin_addr i in
    let* b := get_bin_at addr in
    if cond b then
      let* krc := with_bin addr (let* r := dimbin_flush_keys in
                                 do* upd (fun s => set_flush_needed s false) in ret r) in
      flush_key_buffers cond l (if bool_decide (krc = GRAVELDB_OK) then rc else krc)
    else flush_key_buffers cond l rc
  end.

Fixpoint sync_files (which : DimBin P -> option Z) (l : list Z) (rc : graveldb_status_t) : D graveldb_status_t :=
  match l with
  | [] => ret rc
  | i :: l =>
    let* addr := bin_addr i in
    let* b := get_bin_at addr in
    match which b with
    | None => sync_files which l rc
    | Some fd =>
      let* r := on_sys (fdatasync fd) in
      sync_files which l (if r =? 0 then rc else GRAVELDB_ERR_IO)
    end
  end.
Definition key_file_of (b : DimBin P) : option Z := if 0 <=? key_fd b then Some (key_fd b) else None.
Definition dirty_file_of (b : DimBin P) : option Z := if wcount (write_buf b) =? 0 then None else Some (fd b).

(** The write of one page through the ring of the database, or directly. *)
Definition write_page (use_uring : bool) (addr pg : Z) (rc : graveldb_status_t) : D graveldb_status_t :=
  let* w := with_bin addr (write_buf_page pg) in
  match w with
  | None => ret rc
  | Some p =>
    let* b := get_bin_at addr in
    let off := pg * page_size b in
    if use_uring then
      let* d := get_db in
      let* '(r, c) := on_sys (uring_io_submit_write (io_ring d) (fd b) p (page_size b) off) in
      do* upd_db (fun d => set_ring d c) in
      ret (if r <? 0 then GRAVELDB_ERR_IO else rc)
    else
      let* bs := on_sys (buf_bytes p (page_size b)) in
      let* wr := on_sys (pwrite (fd b) bs off) in
      ret (if negb (wr =? page_size b) then GRAVELDB_ERR_IO else rc)
  end.

Fixpoint write_pages (use_uring : bool) (addr : Z) (pages : list Z) (rc : graveldb_status_t) : D graveldb_status_t :=
  match pages with
  | [] => ret rc
  | pg :: pages => let* rc := write_page use_uring addr pg rc in write_pages use_uring addr pages rc
  end.

Fixpoint write_runs (use_uring : bool) (addr : Z) (rs : list (list Z)) (rc : graveldb_status_t) : D graveldb_status_t :=
  match rs with
  | [] => ret rc
  | r :: rs =>
    let* rc := write_pages use_uring addr r rc in
    do* with_bin addr (upd (fun s => set_write_buf s (set_flush_bytes (write_buf s) (u64 (flush_bytes (write_buf s) + zlen r * page_size s))))) in
    write_runs use_uring addr rs rc
  end.

(** The value pages of every bin with dirty pages. *)
Fixpoint submit_bins (use_uring : bool) (l : list Z) (rc : graveldb_status_t) : D graveldb_status_t :=
  match l with
  | [] => ret rc
  | i :: l =>
    let* addr := bin_addr i in
    let* b := get_bin_at addr in
    if wcount (write_buf b) =? 0 then submit_bins use_uring l rc
    else
      let* sl := lift (deref (wslots (write_buf b))) in
      let* rc := write_runs use_uring addr (runs gap_ok (merge_sort Z.le (collect_pages sl))) rc in
      submit_bins use_uring l rc
  end.

(** The pages of a flushed bin are released. *)
Definition release_bin (addr : Z) : D unit :=
  let* b := get_bin_at addr in
  if wcount (write_buf b) =? 0 then ret tt
  else
    let* sl := lift (deref (wslots (write_buf b))) in
    let pages := collect_pages sl in
    with_bin addr (if zlen pages =? i32 (wcount (write_buf b)) then flush_release_all pages else flush_release_some pages).

Definition reset_ring : D bool :=
  let* d := get_db in
  let use_uring := initialized (io_ring d) in
  do* when use_uring (upd_db (fun d => set_ring d (uring_io_reset (io_ring d)))) in
  ret use_uring.

Definition graveldb_flush : D graveldb_status_t :=
  let* n := num_bins in
  if n =? 0 then ret GRAVELDB_OK
  else
    let* rc := flush_key_buffers (fun b => negb (KeyBTree.count (key_buf b) =? 0)) (seqZ 0 n) GRAVELDB_OK in
    let* rc := sync_files key_file_of (seqZ 0 n) rc in
    let* use_uring := reset_ring in
    let* rc := submit_bins use_uring (seqZ 0 n) rc in
    let* rc :=
      if use_uring then
        let* d := get_db in
        let* _ := on_sys (uring_io_submit_fsyncs (io_ring d)) in
        let '(e, c) := uring_io_wait (io_ring d) in
        do* upd_db (fun d => set_ring d c) in
        ret (if 0 <? e then GRAVELDB_ERR_IO else rc)
      else sync_files dirty_file_of (seqZ 0 n) rc in
    do* for_bins (fun _ addr => release_bin addr) in
    ret rc.

Definition graveldb_flush_needed : D bool :=
  let* n := num_bins in
  let fix go l :=
    match l with
    | [] => ret false
    | i :: l =>
      let* addr := bin_addr i in
      let* b := get_bin_at addr in
      if flush_needed b then ret true else go l
    end in
  go (seqZ 0 n).

Definition graveldb_flush_submit : D (graveldb_status_t * option AsyncFlushState) :=
  let* n := num_bins in
  if n =? 0 then ret (GRAVELDB_OK, None)
  else
    let* rc := flush_key_buffers (fun b => flush_needed b || negb (KeyBTree.count (key_buf b) =? 0)) (seqZ 0 n) GRAVELDB_OK in
    let* rc := sync_files key_file_of (seqZ 0 n) rc in
    let* ok := on_sys sys_ok in
    if negb ok then ret (GRAVELDB_ERR_OOM, None)
    else
      let* use_uring := reset_ring in
      let* rc := submit_bins use_uring (seqZ 0 n) rc in
      let* rc :=
        if use_uring then
          let* d := get_db in
          let* _ := on_sys (uring_io_submit_fsyncs (io_ring d)) in ret rc
        else sync_files dirty_file_of (seqZ 0 n) rc in
      ret (GRAVELDB_OK, Some (mkAsyncFlushState use_uring rc)).

Definition graveldb_flush_poll (a : option AsyncFlushState) : D (graveldb_status_t * option AsyncFlushState) :=
  match a with
  | None => ret (GRAVELDB_OK, None)
  | Some s =>
    let* d := get_db in
    let '(still_pending, c) := if af_use_uring s then uring_io_poll (io_ring d) else (0, io_ring d) in
    do* upd_db (fun d => set_ring d c) in
    if 0 <? still_pending then ret (GRAVELDB_AGAIN, Some s)
    else
      let rc := if af_use_uring s && (0 <? errors c) then GRAVELDB_ERR_IO else af_submit_rc s in
      do* for_bins (fun _ addr => release_bin addr) in
      ret (rc, None)
  end.

(** *** Checkpoints *)

Definition begin_bin (addr : Z) : D graveldb_status_t :=
  let* d := get_db in
  let* ok1 := on_sys sys_ok in
  let* ok2 := on_sys sys_ok in
  with_bin addr (dimbin_checkpoint_begin ok1 ok2 (create_pool (allocator d))).

(** The first bytes of a delta file. *)
Definition delta_header (b : DimBin P) : res (list Z) :=
  wire_encode_delta_hdr (replicate (Z.to_nat WIRE_DELTA_HDR_SIZE) 0)
    (mkDeltaHdr GRAVELDB_DELTA_MAGIC 1 (generation (dirty b)) (DimBin.dim b) (u32 (entry_size b)) (bump_ptr b) 0 0).

(** A run of pages: its header and its bytes; whether both were written. *)
Definition dump_run (b : DimBin P) (cfd blk_start blk_count : Z) : M Sys bool :=
  let byte_len := blk_count * page_size b in
  let* ok := sys_ok in
  if negb ok then ret false
  else
    let* '(rd, bytes) := pread (fd b) byte_len (blk_start * page_size b) in
    if negb (rd =? byte_len) then ret false
    else
      let* e := lift (wire_encode_delta_entry (replicate (Z.to_nat WIRE_DELTA_ENTRY_SIZE) 0) blk_start blk_count) in
      let* w := write_end cfd e in
      if negb (w =? WIRE_DELTA_ENTRY_SIZE) then ret false
      else
        let* w := write_end cfd bytes in
        ret (w =? byte_len).

(** [pwrite(fd, num_entries, 4, 32)], then sync and close. *)
Definition finish_delta (cfd entries : Z) : M Sys unit :=
  let* ne := lift (wire_put_u32 (replicate 4 0) 0 (u32 entries)) in
  let* _ := pwrite cfd ne 32 in
  let* _ := fdatasync cfd in
  ret tt.

Fixpoint dump_runs (b : DimBin P) (cfd entries : Z) (rs : list (list Z)) : M Sys Z :=
  match rs with
  | [] => ret entries
  | r :: rs =>
    let* ok := dump_run b cfd (hd 0 r) (zlen r) in
    dump_runs b cfd (if (ok : bool) then entries + 1 else entries) rs
  end.

(** The delta file of a bin, in one go. *)
Definition dump_bin (dir : string) (b : DimBin P) : M Sys unit :=
  let* cfd := open_path true true (delta_path dir (generation (dirty b)) (DimBin.dim b)) in
  if cfd <? 0 then ret tt
  else
    let* ok := sys_ok in
    if negb ok then ret tt
    else
      let* dirty := lift (dirty_tracker_scan_ckpt (dirty b) GRAVELDB_MAX_DIRTY) in
      let* hdr := lift (delta_header b) in
      let* w := write_end cfd hdr in
      if negb (w =? WIRE_DELTA_HDR_SIZE) then ret tt
      else
        let* entries := dump_runs b cfd 0 (runs consecutive dirty) in
        finish_delta cfd entries.

(** Runs a step on every bin until one fails. *)
Fixpoint all_bins (f : Z -> D graveldb_status_t) (l : list Z) : D graveldb_status_t :=
  match l with
  | [] => ret GRAVELDB_OK
  | i :: l =>
    let* addr := bin_addr i in
    let* rc := f addr in
    if negb (bool_decide (rc = GRAVELDB_OK)) then ret rc else all_bins f l
  end.

Definition next_epoch : D unit := upd_db (fun d => set_epoch d (u64 (current_epoch d + 1))).

Definition graveldb_checkpoint : D graveldb_status_t :=
  let* n := num_bins in
  let* rc := all_bins begin_bin (seqZ 0 n) in
  if negb (bool_decide (rc = GRAVELDB_OK)) then ret rc
  else
    let* d := get_db in
    let* dir := lift (deref (data_dir (config d))) in
    do* for_bins (fun _ addr => let* b := get_bin_at addr in on_sys (dump_bin dir b)) in
    let* rc := all_bins (fun addr => with_bin addr dimbin_checkpoint_end) (seqZ 0 n) in
    if negb (bool_decide (rc = GRAVELDB_OK)) then ret rc
    else do* next_epoch in ret GRAVELDB_OK.

Definition graveldb_checkpoint_in_progress (d : GravelDB P) : bool :=
  match phase (ckpt_progress d) with CKPT_IDLE => false | _ => true end.

Definition upd_progress (f : CkptProgress -> CkptProgress) : D unit :=
  upd_db (fun d => set_progress d (f (ckpt_progress d))).

Definition set_phase (p : CkptProgress) (ph : CkptPhase) : CkptProgress :=
  mkCkptProgress ph 0 (ckpt_fd p) (dirty_blocks p) (dirty_cursor p) (entries_written p) (max_pages_per_step p).
Definition next_bin (p : CkptProgress) : CkptProgress :=
  mkCkptProgress (phase p) (u16 (current_bin p + 1)) (-1) [] (dirty_cursor p) (entries_written p) (max_pages_per_step p).

(** The flush of the next bin, or the end of the phase. *)
Definition step_flushing : D graveldb_status_t :=
  let* d := get_db in
  let p := ckpt_progress d in
  let* n := num_bins in
  if n <=? current_bin p then do* upd_progress (fun p => set_phase p CKPT_DUMPING) in ret GRAVELDB_OK
  else
    let* addr := bin_addr (current_bin p) in
    let* rc := begin_bin addr in
    if negb (bool_decide (rc = GRAVELDB_OK)) then ret rc
    else
      do* upd_progress (fun p => mkCkptProgress (phase p) (u16 (current_bin p + 1)) (ckpt_fd p) (dirty_blocks p) (dirty_cursor p)
                                   (entries_written p) (max_pages_per_step p)) in
      ret GRAVELDB_OK.

(** [open(delta_path, O_WRONLY | O_CREAT | O_TRUNC)] *)
Definition open_delta_file (b : DimBin P) : D Z :=
  let* d := get_db in
  let* dir := lift (deref (data_dir (config d))) in
  on_sys (open_path true true (delta_path dir (generation (dirty b)) (DimBin.dim b))).

(** Opens the delta file of the current bin and writes its header; [false] when
    the bin is skipped. *)
Definition open_delta (b : DimBin P) : D bool :=
  let* cfd := open_delta_file b in
  if cfd <? 0 then do* upd_progress next_bin in ret false
  else
    let* ok := on_sys sys_ok in
    if negb ok then do* upd_progress next_bin in ret false
    else
      let* dirty := lift (dirty_tracker_scan_ckpt (dirty b) GRAVELDB_MAX_DIRTY) in
      do* upd_progress (fun p => mkCkptProgress (phase p) (current_bin p) cfd dirty 0 0 (max_pages_per_step p)) in
      let* hdr := lift (delta_header b) in
      let* w := on_sys (write_end cfd hdr) in
      if negb (w =? WIRE_DELTA_HDR_SIZE) then do* upd_progress next_bin in ret false else ret true.

(** The length of the run of consecutive blocks at the front. *)
Definition first_run (l : list Z) : Z := match runs consecutive l with r :: _ => zlen r | [] => 0 end.

(** Dumps blocks until the budget of the step is used. *)
Fixpoint dump_budget (fuel : nat) (b : DimBin P) (budget done : Z) : D unit :=
  match fuel with
  | O => lift Diverge
  | S fuel =>
    let* d := get_db in
    let p := ckpt_progress d in
    if (dirty_cursor p <? dirty_count p) && (done <? budget) then
      let rest := drop (Z.to_nat (dirty_cursor p)) (dirty_blocks p) in
      let run := first_run rest in
      let blk_count := if budget <? u32 (done + run) then u32 (budget - done) else run in
      let* ok := on_sys (dump_run b (ckpt_fd p) (hd 0 rest) blk_count) in
      do* upd_progress (fun p => mkCkptProgress (phase p) (current_bin p) (ckpt_fd p) (dirty_blocks p) (dirty_cursor p + blk_count)
                                   (if (ok : bool) then entries_written p + 1 else entries_written p) (max_pages_per_step p)) in
      dump_budget fuel b budget (u32 (done + blk_count))
    else ret tt
  end.

Definition step_dumping (budget : Z) : D graveldb_status_t :=
  let* d := get_db in
  let p := ckpt_progress d in
  let* n := num_bins in
  if n <=? current_bin p then do* upd_progress (fun p => set_phase p CKPT_FINISHING) in ret GRAVELDB_OK
  else
    let* addr := bin_addr (current_bin p) in
    let* b := get_bin_at addr in
    let* go := if ckpt_fd p <? 0 then open_delta b else ret true in
    if negb go then ret GRAVELDB_OK
    else
      let* d := get_db in
      do* dump_budget (S (List.length (dirty_blocks (ckpt_progress d)))) b budget 0 in
      let* d := get_db in
      let p := ckpt_progress d in
      do* when (dirty_count p <=? dirty_cursor p)
            (do* on_sys (finish_delta (ckpt_fd p) (entries_written p)) in upd_progress next_bin) in
      ret GRAVELDB_OK.

Definition step_finishing : D graveldb_status_t :=
  let* n := num_bins in
  let* rc := all_bins (fun addr => with_bin addr dimbin_checkpoint_end) (seqZ 0 n) in
  if negb (bool_decide (rc = GRAVELDB_OK)) then ret rc
  else
    do* next_epoch in
    do* upd_progress (fun p => mkCkptProgress CKPT_IDLE (current_bin p) (ckpt_fd p) (dirty_blocks p) (dirty_cursor p)
                                 (entries_written p) (max_pages_per_step p)) in
    ret GRAVELDB_OK.

Definition graveldb_checkpoint_step (max_pages : Z) : D graveldb_status_t :=
  let budget := if max_pages =? 0 then 64 else max_pages in
  do* upd_progress (fun p => mkCkptProgress (phase p) (current_bin p) (ckpt_fd p) (dirty_blocks p) (dirty_cursor p)
                               (entries_written p) budget) in
  let* d := get_db in
  match phase (ckpt_progress d) with
  | CKPT_IDLE =>
    do* upd_progress (fun p => mkCkptProgress CKPT_FLUSHING 0 (-1) [] 0 0 (max_pages_per_step p)) in
    step_flushing
  | CKPT_FLUSHING => step_flushing
  | CKPT_DUMPING => step_dumping budget
  | CKPT_FINISHING => step_finishing
  end.

(** *** Statistics *)

Definition graveldb_stats : D GravelDBStats :=
  let* d := get_db in
  let* n := num_bins in
  let fix go l fl en :=
    match l with
    | [] => ret (mkStats (hi_count (index d)) (current_epoch d) en fl)
    | i :: l =>
      let* addr := bin_addr i in
      let* b := get_bin_at addr in
      go l (u64 (fl + flush_bytes (write_buf b))) (u64 (en + bump_ptr b))
    end in
  go (seqZ 0 n) 0 0.

End ops.
