(* ===== verification/EngineProps.v ===== *)
(** EngineProps: properties of the database operations of src/graveldb.c.

    The incremental checkpoint as a state machine, and end-to-end runs of the
    public interface. *)

From Stdlib Require Import String.
From S2P Require Import Prelude LinearProbe Wire SlabAlloc Overlay DirtyTracker KeyBTree HashIndex DimRegistry IoBatch PageMap DimBin Engine.

(** ** The incremental checkpoint *)

Section checkpoint.
Context {P : Type} `{!ObjectPool P} {host : WireHost}.
Variable create_pool : P -> option P.
Implicit Types st : DbSt P.

(** What a step of a bin or of the system leaves alone. *)
Definition same_ctl (d d' : GravelDB P) : Prop :=
  ckpt_progress d' = ckpt_progress d /\ dim_reg d' = dim_reg d /\ current_epoch d' = current_epoch d.

Definition frame {A} (m : M (DbSt P) A) : Prop :=
  forall st a st', m st = Ret (a, st') -> same_ctl (gdb st) (gdb st').

Lemma frame_ret {A} (a : A) : frame (ret a).
Proof. intros st x st' [= <- <-]. done. Qed.
Lemma frame_bind {A B} (m : M (DbSt P) A) (k : A -> M (DbSt P) B) : frame m -> (forall a, frame (k a)) -> frame (bindM m k).
Proof.
  intros Hm Hk st b st' H. unfold bindM in H. mbind H. destruct a as [a st1]. simpl in H.
  destruct (Hm _ _ _ E) as (? & ? & ?). destruct (Hk _ _ _ _ H) as (? & ? & ?). split_and!; congruence.
Qed.
Lemma frame_lift {A} (r : res A) : frame (lift r).
Proof. intros st a st' H. unfold lift in H. destruct r; simplify_eq/=. done. Qed.
Lemma frame_get : frame (get_db (P := P)).
Proof. intros st a st' [= <- <-]. done. Qed.
Lemma frame_sys {A} (m : M Sys A) : frame (on_sys m).
Proof. intros st a st' H. unfold on_sys in H. mbind H. destruct a0. simplify_eq. done. Qed.
Lemma frame_bin {A} addr (m : M (BinSt P) A) : frame (with_bin addr m).
Proof. intros st a st' H. unfold with_bin in H. mbind H. mbind H. destruct a1. simplify_eq. done. Qed.
Lemma frame_bin_addr i : frame (bin_addr (P := P) i).
Proof. apply frame_bind; [apply frame_get|intros; apply frame_lift]. Qed.
Lemma frame_bin_at a : frame (get_bin_at (P := P) a).
Proof. apply frame_bind; [apply frame_get|intros; apply frame_lift]. Qed.
Lemma frame_num : frame (num_bins (P := P)).
Proof. apply frame_bind; [apply frame_get|intros; apply frame_ret]. Qed.
Lemma frame_begin addr : frame (begin_bin create_pool addr).
Proof. repeat (apply frame_bind; [first [apply frame_get | apply frame_sys]|intros]). apply frame_bin. Qed.
Lemma frame_all_bins f l : (forall a, frame (f a)) -> frame (all_bins f l).
Proof.
  intros Hf. induction l as [|i l IH]; [apply frame_ret|]. apply frame_bind; [apply frame_bin_addr|]. intros a.
  apply frame_bind; [apply Hf|]. intros rc. destruct (negb _); [apply frame_ret|done].
Qed.

(** The state of a checkpoint in progress: the cursor is inside the block list
    of an open delta file. *)
Definition ckpt_ok (p : CkptProgress) : Prop :=
  0 <= current_bin p /\ (phase p = CKPT_DUMPING -> 0 <= ckpt_fd p -> 0 <= dirty_cursor p < dirty_count p) /\
  (phase p = CKPT_FLUSHING -> ckpt_fd p < 0).

(** The work left in a checkpoint of [n] bins: the phase, the bins left in it,
    whether the delta file is still to be opened, and the blocks left in it. *)
Definition ckpt_rank (n : Z) (p : CkptProgress) : Z * Z * Z * Z :=
  let left := n - current_bin p in
  match phase p with
  | CKPT_IDLE => (0, 0, 0, 0)
  | CKPT_FINISHING => (1, 0, 0, 0)
  | CKPT_DUMPING => if ckpt_fd p <? 0 then (2, left, 1, 0) else (2, left, 0, dirty_count p - dirty_cursor p)
  | CKPT_FLUSHING => (3, left, 0, 0)
  end.

Definition rank_lt (a b : Z * Z * Z * Z) : Prop :=
  let '(a1, a2, a3, a4) := a in let '(b1, b2, b3, b4) := b in
  a1 < b1 \/ a1 = b1 /\ (a2 < b2 \/ a2 = b2 /\ (a3 < b3 \/ a3 = b3 /\ a4 < b4)).

(** The end of a step, from the control state before it. *)
Definition step_post (d d' : GravelDB P) : Prop :=
  let n := DimRegistry.count (dim_reg d) in
  dim_reg d' = dim_reg d /\ ckpt_ok (ckpt_progress d') /\
  (phase (ckpt_progress d) = CKPT_FINISHING -> phase (ckpt_progress d') = CKPT_IDLE /\ current_epoch d' = u64 (current_epoch d + 1)) /\
  (phase (ckpt_progress d) <> CKPT_FINISHING -> graveldb_checkpoint_in_progress d' = true /\ current_epoch d' = current_epoch d) /\
  (phase (ckpt_progress d) <> CKPT_IDLE -> rank_lt (ckpt_rank n (ckpt_progress d')) (ckpt_rank n (ckpt_progress d))).

(** *** Operations that report success only *)

Definition returns_ok {S} (m : M S graveldb_status_t) : Prop :=
  forall (x : S) rc (y : S), m x = Ret (rc, y) -> rc = GRAVELDB_OK.

Lemma returns_ok_ret {S} : returns_ok (S := S) (ret GRAVELDB_OK).
Proof. intros x rc y [= <- _]. done. Qed.
Lemma returns_ok_bind {S A} (m : M S A) k : (forall a, returns_ok (S := S) (k a)) -> returns_ok (bindM m k).
Proof. intros Hk x rc y H. unfold bindM in H. mbind H. by eapply Hk. Qed.

Lemma begin_returns_ok ok1 ok2 (pool : option P) : returns_ok (dimbin_checkpoint_begin ok1 ok2 pool).
Proof. repeat (apply returns_ok_bind; intros). apply returns_ok_ret. Qed.
Lemma end_returns_ok : returns_ok (dimbin_checkpoint_end (P := P)).
Proof. repeat (apply returns_ok_bind; intros). apply returns_ok_ret. Qed.

Lemma with_bin_returns_ok addr (m : M (BinSt P) graveldb_status_t) : returns_ok m -> returns_ok (with_bin addr m).
Proof. intros Hm st rc st' H. unfold with_bin in H. mbind H. mbind H. destruct a0 as [r bs]. simplify_eq. by eapply Hm. Qed.

Lemma all_bins_returns_ok f l : (forall a, returns_ok (S := DbSt P) (f a)) -> returns_ok (all_bins f l).
Proof.
  intros Hf. induction l as [|i l IH]; [apply returns_ok_ret|]. apply returns_ok_bind. intros a st rc st' H.
  unfold bindM in H. mbind H. destruct a0 as [r st1]. apply Hf in E as ->. cbn [fst snd] in H.
  rewrite bool_decide_true in H by done. cbn [negb] in H. by eapply IH.
Qed.

(** *** The phases *)

(** Splits a returning sequence: the first part, framed by [Hf], is run. *)
Ltac run H Hf :=
  let a := fresh "a" in let st1 := fresh "st" in let E := fresh "E" in let F1 := fresh "Fp" in let F2 := fresh "Fr" in let F3 := fresh "Fe" in
  unfold bindM at 1 in H; apply res_bind_ret_inv in H as [[a st1] [E H]]; cbn [fst snd] in H;
  destruct (Hf _ _ _ E) as (F1 & F2 & F3).

Lemma num_bins_ret st n st' : num_bins st = Ret (n, st') -> n = DimRegistry.count (dim_reg (gdb st)) /\ st' = st.
Proof. intros [= <- <-]. done. Qed.

Lemma step_flushing_post st rc st' :
  phase (ckpt_progress (gdb st)) = CKPT_FLUSHING -> ckpt_ok (ckpt_progress (gdb st)) ->
  DimRegistry.count (dim_reg (gdb st)) < 2 ^ 16 -> step_flushing create_pool st = Ret (rc, st') ->
  rc = GRAVELDB_OK /\ step_post (gdb st) (gdb st').
Proof.
  intros Hph (Hc1 & Hc2 & Hc3) Hn H. unfold step_flushing in H. unfold get_db, gets in H. unfold bindM at 1 in H. cbn [res_bind fst snd] in H.
  unfold bindM at 1 in H. apply res_bind_ret_inv in H as [[n st1] [E H]]. apply num_bins_ret in E as [-> ->]. cbn [fst snd] in H.
  set (n := DimRegistry.count (dim_reg (gdb st))) in *. unfold step_post. fold n. unfold ckpt_rank, graveldb_checkpoint_in_progress, ckpt_ok. rewrite Hph.
  destruct (Z.leb_spec n (current_bin (ckpt_progress (gdb st)))).
  - injection H as <- <-. simpl. split; [done|]. split; [done|].
    split; [split; [lia|]; split; [|done]; intros _ ?; specialize (Hc3 Hph); lia|]. split; [done|]. split; [done|].
    intros _. destruct (_ <? 0); left; lia.
  - run H (frame_bin_addr (current_bin (ckpt_progress (gdb st)))). run H (frame_begin a).
    assert (a0 = GRAVELDB_OK) as ->.
    { revert E0. unfold begin_bin, get_db, gets, bindM. simpl. intros E0. mbind E0. mbind E0. eapply with_bin_returns_ok; [|exact E0]. apply begin_returns_ok. }
    rewrite bool_decide_true in H by done. injection H as <- <-. simpl. rewrite Fp0, Fp, Fr0, Fr, Fe0, Fe. simpl. rewrite Hph.
    split; [done|]. split; [done|]. split; [split; [unfold u16; apply Z.mod_pos_bound; lia|split; [done|intros _; by apply Hc3]]|].
    split; [done|]. split; [done|]. intros _. right. split; [done|]. left. unfold u16. rewrite Z.mod_small by lia. lia.
Qed.

(** Only the cursor and the entry count of the progress change. *)
Definition same_file (p p' : CkptProgress) : Prop :=
  phase p' = phase p /\ current_bin p' = current_bin p /\ ckpt_fd p' = ckpt_fd p /\ dirty_blocks p' = dirty_blocks p.

Lemma first_run_pos x l : 1 <= first_run (x :: l).
Proof.
  unfold first_run. simpl. destruct (runs consecutive l) as [|[|y r] rs]; [done..|].
  destruct (consecutive x y); unfold zlen; simpl length; lia.
Qed.

Lemma dump_budget_post fuel b budget dn st st' u :
  0 <= dirty_cursor (ckpt_progress (gdb st)) -> 0 <= dn -> budget < 2 ^ 32 ->
  dump_budget fuel b budget dn st = Ret (u, st') ->
  same_file (ckpt_progress (gdb st)) (ckpt_progress (gdb st')) /\
  dim_reg (gdb st') = dim_reg (gdb st) /\ current_epoch (gdb st') = current_epoch (gdb st) /\
  dirty_cursor (ckpt_progress (gdb st)) <= dirty_cursor (ckpt_progress (gdb st')) /\
  (dn < budget -> dirty_cursor (ckpt_progress (gdb st)) < dirty_count (ckpt_progress (gdb st)) ->
   dirty_cursor (ckpt_progress (gdb st)) < dirty_cursor (ckpt_progress (gdb st'))).
Proof.
  revert st dn. induction fuel as [|fuel IH]; intros st dn Hc Hd Hb H; [done|]. cbn [dump_budget] in H.
  unfold get_db, gets in H. unfold bindM at 1 in H. cbn [res_bind fst snd] in H.
  set (p := ckpt_progress (gdb st)) in *. destruct (Z.ltb_spec (dirty_cursor p) (dirty_count p)) as [Hlt|Hge]; cbn [andb] in H.
  2: { injection H as _ <-. fold p. split; [done|]. split; [done|]. split; [done|]. split; [lia|lia]. }
  destruct (Z.ltb_spec dn budget) as [Hlt2|Hge2]; cbn [andb] in H.
  2: { injection H as _ <-. fold p. split; [done|]. split; [done|]. split; [done|]. split; [lia|lia]. }
  set (rest := drop (Z.to_nat (dirty_cursor p)) (dirty_blocks p)) in *.
  assert (1 <= first_run rest) as Hrun.
  { destruct rest as [|x l] eqn:Er; [|apply first_run_pos]. exfalso. apply (f_equal List.length) in Er. unfold rest in Er.
    rewrite length_drop in Er. unfold dirty_count, zlen in Hlt. simpl in Er. lia. }
  set (blk := if budget <? u32 (dn + first_run rest) then u32 (budget - dn) else first_run rest) in *.
  assert (1 <= blk) as Hblk. { unfold blk. destruct (_ <? _); [rewrite u32_id; lia|done]. }
  run H (frame_sys (dump_run b (ckpt_fd p) (hd 0 rest) blk)).
  unfold upd_progress, upd_db, modify in H. unfold bindM at 1 in H. cbn [res_bind fst snd] in H.
  apply IH in H; [|simpl; rewrite Fp; fold p; lia|apply u32_range|done]. simpl in H. rewrite Fp, Fr, Fe in H. fold p in H.
  destruct H as ((H1 & H2 & H3 & H4) & H5 & H6 & H7 & _). split; [done|]. split; [done|]. split; [done|]. split; lia.
Qed.

Lemma frame_delta_file b : frame (open_delta_file b).
Proof. repeat (apply frame_bind; [first [apply frame_get|apply frame_lift]|intros]). apply frame_sys. Qed.

Lemma open_delta_post b st go st' :
  open_delta b st = Ret (go, st') ->
  dim_reg (gdb st') = dim_reg (gdb st) /\ current_epoch (gdb st') = current_epoch (gdb st) /\
  phase (ckpt_progress (gdb st')) = phase (ckpt_progress (gdb st)) /\
  if (go : bool) then current_bin (ckpt_progress (gdb st')) = current_bin (ckpt_progress (gdb st)) /\
                      0 <= ckpt_fd (ckpt_progress (gdb st')) /\ dirty_cursor (ckpt_progress (gdb st')) = 0
  else current_bin (ckpt_progress (gdb st')) = u16 (current_bin (ckpt_progress (gdb st)) + 1) /\ ckpt_fd (ckpt_progress (gdb st')) = -1.
Proof.
  intros H. unfold open_delta in H. run H (frame_delta_file b). destruct (Z.ltb_spec a 0).
  { injection H as <- <-. simpl. by rewrite Fp, Fr, Fe. }
  run H (frame_sys sys_ok). destruct a0; cbn [negb] in H; [|injection H as <- <-; simpl; by rewrite Fp0, Fr0, Fe0, Fp, Fr, Fe].
  run H (frame_lift (dirty_tracker_scan_ckpt (dirty b) GRAVELDB_MAX_DIRTY)).
  unfold upd_progress at 1, upd_db, modify in H. unfold bindM at 1 in H. cbn [res_bind fst snd] in H.
  run H (frame_lift (delta_header b)). run H (frame_sys (write_end a a1)).
  simpl in Fp2, Fr2, Fe2. rewrite Fp1, Fp0, Fp in Fp2. destruct (negb _).
  - injection H as <- <-. simpl. rewrite Fp3, Fp2, Fr3, Fr2, Fe3, Fe2. simpl. rewrite Fr1, Fr0, Fr, Fe1, Fe0, Fe. done.
  - injection H as <- <-. rewrite Fp3, Fp2, Fr3, Fr2, Fe3, Fe2. simpl. rewrite Fr1, Fr0, Fr, Fe1, Fe0, Fe. done.
Qed.

(** The end of a dumping step: the delta file is finished when its blocks are. *)
Lemma finish_post st rc st' :
  bindM (when (dirty_count (ckpt_progress (gdb st)) <=? dirty_cursor (ckpt_progress (gdb st)))
           (do* on_sys (finish_delta (ckpt_fd (ckpt_progress (gdb st))) (entries_written (ckpt_progress (gdb st)))) in upd_progress next_bin))
        (fun _ => ret GRAVELDB_OK) st = Ret (rc, st') ->
  rc = GRAVELDB_OK /\ dim_reg (gdb st') = dim_reg (gdb st) /\ current_epoch (gdb st') = current_epoch (gdb st) /\
  ckpt_progress (gdb st') = (if dirty_count (ckpt_progress (gdb st)) <=? dirty_cursor (ckpt_progress (gdb st))
                             then next_bin (ckpt_progress (gdb st)) else ckpt_progress (gdb st)).
Proof.
  intros H. unfold bindM at 1 in H. destruct (_ <=? _); cbn [when] in H.
  - mbind H. destruct a as [u st1]. run E (frame_sys (finish_delta (ckpt_fd (ckpt_progress (gdb st))) (entries_written (ckpt_progress (gdb st))))).
    injection E as _ <-. injection H as <- <-. simpl. by rewrite Fp, Fr, Fe.
  - injection H as <- <-. done.
Qed.

Lemma step_dumping_post budget st rc st' :
  phase (ckpt_progress (gdb st)) = CKPT_DUMPING -> ckpt_ok (ckpt_progress (gdb st)) -> 0 < budget < 2 ^ 32 ->
  DimRegistry.count (dim_reg (gdb st)) < 2 ^ 16 -> step_dumping budget st = Ret (rc, st') ->
  rc = GRAVELDB_OK /\ step_post (gdb st) (gdb st').
Proof.
  intros Hph (Hc1 & Hc2 & Hc3) Hb Hn H. unfold step_dumping in H. unfold get_db, gets in H. unfold bindM at 1 in H. cbn [res_bind fst snd] in H.
  unfold bindM at 1 in H. apply res_bind_ret_inv in H as [[n st1] [E H]]. apply num_bins_ret in E as [-> ->]. cbn [fst snd] in H.
  set (n := DimRegistry.count (dim_reg (gdb st))) in *. unfold step_post. fold n. unfold ckpt_rank, graveldb_checkpoint_in_progress, ckpt_ok. rewrite Hph.
  set (p := ckpt_progress (gdb st)) in *. specialize (Hc2 Hph).
  destruct (Z.leb_spec n (current_bin p)).
  { injection H as <- <-. simpl. do 2 (split; [done|]). split; [split; [lia|done]|]. do 2 (split; [done|]).
    intros _. destruct (_ <? 0); left; lia. }
  run H (frame_bin_addr (current_bin p)). run H (frame_bin_at a).
  assert (u16 (current_bin p + 1) = current_bin p + 1) as Hu by (unfold u16; apply Z.mod_small; lia).
  unfold bindM at 1 in H. apply res_bind_ret_inv in H as [[go st2] [E1 H]]. cbn [fst snd] in H.
  (* the delta file is open, or the bin is skipped *)
  assert (dim_reg (gdb st2) = dim_reg (gdb st) /\ current_epoch (gdb st2) = current_epoch (gdb st) /\
    phase (ckpt_progress (gdb st2)) = CKPT_DUMPING /\
    if (go : bool) then current_bin (ckpt_progress (gdb st2)) = current_bin p /\ 0 <= ckpt_fd (ckpt_progress (gdb st2)) /\
       0 <= dirty_cursor (ckpt_progress (gdb st2)) /\
       (0 <= ckpt_fd p -> ckpt_progress (gdb st2) = p)
    else current_bin (ckpt_progress (gdb st2)) = current_bin p + 1 /\ ckpt_fd (ckpt_progress (gdb st2)) = -1) as (G1 & G2 & G3 & G4).
  { destruct (Z.ltb_spec (ckpt_fd p) 0).
    - apply open_delta_post in E1. rewrite Fp0, Fp, Fr0, Fr, Fe0, Fe in E1. fold p in E1. rewrite Hph, Hu in E1.
      destruct E1 as (E1 & E2 & E3 & E4). do 3 (split; [done|]). destruct go; [|done]. destruct E4 as (E4 & E5 & E6). split; [done|]. split; [done|]. split; lia.
    - injection E1 as <- <-. rewrite Fp0, Fp, Fr0, Fr, Fe0, Fe. fold p. do 3 (split; [done|]). split; [done|]. split; [done|]. split; [lia|done]. }
  destruct go; cbn [negb] in H.
  2: { injection H as <- <-. destruct G4 as [G4 G5]. rewrite G3, G4, G5. split; [done|]. split; [done|]. split; [split; [lia|split; [lia|done]]|].
       do 2 (split; [done|]). intros _. change (-1 <? 0) with true. destruct (ckpt_fd p <? 0); right; (split; [done|]; left; lia). }
  destruct G4 as (G4 & G5 & G6 & G7). unfold bindM at 1 in H. cbn [res_bind fst snd] in H.
  unfold bindM at 1 in H. apply res_bind_ret_inv in H as [[u st3] [E2 H]]. cbn [fst snd] in H.
  apply dump_budget_post in E2; [|done|lia|lia]. destruct E2 as ((D1 & D2 & D3 & D4) & D5 & D6 & D7 & D8).
  unfold bindM at 1 in H. cbn [res_bind fst snd] in H. apply finish_post in H as (-> & K1 & K2 & K3).
  split; [done|]. split; [congruence|]. assert (dirty_count (ckpt_progress (gdb st3)) = dirty_count (ckpt_progress (gdb st2))) as Hdc by (unfold dirty_count; by rewrite D4).
  rewrite K3. destruct (Z.leb_spec (dirty_count (ckpt_progress (gdb st3))) (dirty_cursor (ckpt_progress (gdb st3)))) as [Hd|Hd]; simpl.
  - rewrite D1, G3, D2, G4, Hu. split; [split; [lia|split; [lia|done]]|]. do 2 (split; [first [done|split; [done|congruence]]|]).
    intros _. destruct (ckpt_fd p <? 0); right; (split; [done|]; left; lia).
  - rewrite D1, G3, D2, G4, D3. split; [split; [lia|split; [intros; lia|done]]|]. do 2 (split; [first [done|split; [done|congruence]]|]).
    intros _. rewrite (proj2 (Z.ltb_ge (ckpt_fd (ckpt_progress (gdb st2))) 0)) by lia. destruct (Z.ltb_spec (ckpt_fd p) 0) as [Hf|Hf].
    + right. split; [done|]. right. split; [done|]. left. lia.
    + right. split; [done|]. right. split; [done|]. right. split; [done|]. specialize (G7 Hf). rewrite Hdc. rewrite G7 in *. lia.
Qed.

Lemma step_finishing_post st rc st' :
  phase (ckpt_progress (gdb st)) = CKPT_FINISHING -> ckpt_ok (ckpt_progress (gdb st)) -> step_finishing st = Ret (rc, st') ->
  rc = GRAVELDB_OK /\ step_post (gdb st) (gdb st').
Proof.
  intros Hph (Hc1 & Hc2 & Hc3) H. unfold step_finishing in H.
  unfold bindM at 1 in H. apply res_bind_ret_inv in H as [[n st1] [E H]]. apply num_bins_ret in E as [-> ->]. cbn [fst snd] in H.
  run H (frame_all_bins (fun addr => with_bin addr dimbin_checkpoint_end) (seqZ 0 (DimRegistry.count (dim_reg (gdb st)))) (fun addr => frame_bin addr _)).
  apply all_bins_returns_ok in E as ->; [|intros; apply with_bin_returns_ok, end_returns_ok]. rewrite bool_decide_true in H by done.
  injection H as <- <-. unfold step_post, ckpt_rank, ckpt_ok. simpl. rewrite Fp, Fr, Fe, Hph. split; [done|]. split; [done|].
  split; [done|]. split; [done|]. split; [done|]. intros _. left. lia.
Qed.

(** C32: the incremental checkpoint makes progress. A step that returns reports OK
    (never AGAIN, although work remains), keeps the registry and the shape of
    the progress record, and reduces the work left: the phase, the bins of the
    phase, the delta file to open or the blocks left in it; the step that
    finishes the last phase, and no other, advances the epoch and ends the
    checkpoint. *)
Theorem graveldb_checkpoint_step_progress st max_pages rc st' :
  ckpt_ok (ckpt_progress (gdb st)) -> 0 <= max_pages < 2 ^ 32 -> DimRegistry.count (dim_reg (gdb st)) < 2 ^ 16 ->
  graveldb_checkpoint_step create_pool max_pages st = Ret (rc, st') ->
  rc = GRAVELDB_OK /\ step_post (gdb st) (gdb st').
Proof.
  intros Hok Hm Hn H. unfold graveldb_checkpoint_step in H. set (budget := if max_pages =? 0 then 64 else max_pages) in *.
  assert (0 < budget < 2 ^ 32) as Hb by (unfold budget; zb; lia).
  unfold upd_progress at 1, upd_db, modify, get_db, gets in H. unfold bindM at 1 2 in H. cbn [res_bind fst snd] in H.
  set (st1 := mkDbSt _ _) in H.
  assert (step_post (gdb st1) (gdb st') -> step_post (gdb st) (gdb st')) as Hsame by (unfold step_post, st1, ckpt_rank; simpl; done).
  destruct (phase (ckpt_progress (gdb st1))) eqn:Hph.
  - unfold upd_progress, upd_db, modify in H. unfold bindM at 1 in H. cbn [res_bind fst snd] in H.
    apply step_flushing_post in H as [-> (Q1 & Q2 & Q3 & Q4 & _)]; [|done|split; [done|split; [done|intros _; simpl; lia]]|done].
    split; [done|]. simpl in Q1, Q2, Q4. destruct (Q4 ltac:(done)) as [Q5 Q6]. simpl in Hph. unfold step_post. rewrite Hph.
    split; [done|]. split; [done|]. split; [done|]. split; [done|done].
  - apply step_flushing_post in H as [-> H]; auto.
  - apply step_dumping_post in H as [-> H]; auto.
  - apply step_finishing_post in H as [-> H]; auto.
Qed.

End checkpoint.

(** ** End-to-end runs *)

#[local] Existing Instance host_le.

Definition page_pool_4k : SlabPool * Mem := (mkSlabPool 4096 4096 65536 0 0 [] 0 0 0 0 0, mkMem ∅ [Some 65536; Some 131072]).
Definition overlay_pool (_ : SlabPool * Mem) : option (SlabPool * Mem) :=
  Some (mkSlabPool 64 64 65536 0 0 [] 0 0 0 0 0, mkMem ∅ [Some 1065536]).
Definition small_config : GravelDBConfig := mkGravelDBConfig (Some "/data"%string) [] 1048576 16 0 4096 true 0.

(** A new database, without bins. *)
Definition new_db : res (DbSt (SlabPool * Mem)) :=
  let! '(_, d, y) := graveldb_open small_config 4096 page_pool_4k (mkSys ∅ ∅ [] [] ∅) in
  let! d := deref d in Ret (mkDbSt d y).

Definition two_features : list PutReq := [mkPutReq 5 4 (Some (replicate 16 7)); mkPutReq 6 2 (Some (replicate 8 3))].
Definition two_buffers : GetOut := mkGetOut [Some (replicate 16 255); Some (replicate 8 255)] (Some [0; 0]).

(** New memory holds old data. *)
Definition stale (n : Z) : list Z := replicate (Z.to_nat n) 205.

(** A put after a flush can destroy a stored feature: feature 5 is put and read back after a flush; then
    feature 8 of the same dimension is put, and feature 5 reads as zeros. *)
Theorem graveldb_put_loses_feature :
  (let! st := new_db in
   let! '(r1, st) := graveldb_batch_put two_features st in
   let! '(r2, st) := graveldb_flush st in
   let! '(r3, o1, st) := graveldb_batch_get stale [5; 6] two_buffers st in
   let! '(r4, st) := graveldb_batch_put [mkPutReq 8 4 (Some (replicate 16 8))] st in
   let! '(r5, o2, st) := graveldb_batch_get stale [5; 6] two_buffers st in
   Ret ([r1; r2; r3; r4; r5], o1, o2))
  = Ret (replicate 5 GRAVELDB_OK,
         mkGetOut [Some (replicate 16 7); Some (replicate 8 3)] (Some [4; 2]),
         mkGetOut [Some (replicate 16 0); Some (replicate 8 3)] (Some [4; 2])).
Proof. vm_compute. reflexivity. Qed.

(** An entry that has a page of its own is read from the wrong place. An
    embedding of 600 floats takes 2400 of the 4096 bytes of its page; the flush
    writes entry 1 at byte 4096 and [graveldb_batch_get] reads it at byte 2400, so
    the answer for feature 6 is the padding of page 0 and a part of page 1. *)
Theorem graveldb_get_wrong_offset :
  (let! st := new_db in
   let! '(r1, st) := graveldb_batch_put [mkPutReq 5 600 (Some (replicate 2400 7)); mkPutReq 6 600 (Some (replicate 2400 9))] st in
   let! '(r2, st) := graveldb_flush st in
   let! '(r3, o, st) := graveldb_batch_get stale [6] (mkGetOut [Some (replicate 2400 255)] None) st in
   Ret ([r1; r2; r3], o))
  = Ret (replicate 3 GRAVELDB_OK, mkGetOut [Some (replicate 1696 0 ++ replicate 704 9)] None).
Proof. vm_compute. reflexivity. Qed.

(** A database with two bins, one step into a checkpoint. *)
Definition stepped_db : res (DbSt (SlabPool * Mem)) :=
  let! st := new_db in
  let! '(_, st) := graveldb_batch_put two_features st in
  let! '(_, st) := graveldb_checkpoint_step overlay_pool 0 st in
  Ret st.

Definition run_of {A} (r : res A) (d : A) : A := match r with Ret a => a | _ => d end.
Definition no_db : DbSt (SlabPool * Mem) := mkDbSt (open_db small_config 0 page_pool_4k (mkHashIndex None 0 0 0 None 0 0 0) true true) (mkSys ∅ ∅ [] [] ∅).

Definition db1 : DbSt (SlabPool * Mem) := run_of stepped_db no_db.
Definition step2 : graveldb_status_t * DbSt (SlabPool * Mem) := run_of (graveldb_checkpoint_step overlay_pool 0 db1) (GRAVELDB_ERR_IO, no_db).

Definition returns {A} (r : res A) : bool := match r with Ret _ => true | _ => false end.

Lemma run_of_returns {A} (r : res A) d : returns r = true -> r = Ret (run_of r d).
Proof. by destruct r. Qed.

Lemma step2_run : graveldb_checkpoint_step overlay_pool 0 db1 = Ret (fst step2, snd step2).
Proof. rewrite <- surjective_pairing. apply run_of_returns. vm_compute. reflexivity. Qed.

Lemma db1_phase : phase (ckpt_progress (gdb db1)) = CKPT_FLUSHING.
Proof. vm_compute. reflexivity. Qed.

Lemma db1_bins : DimRegistry.count (dim_reg (gdb db1)) = 2.
Proof. vm_compute. reflexivity. Qed.

Lemma db1_ckpt_ok : ckpt_ok (ckpt_progress (gdb db1)).
Proof. unfold ckpt_ok. rewrite db1_phase. split; [|split; [discriminate|intros _]]; vm_compute; congruence. Qed.

Lemma graveldb_checkpoint_step_progress_witness :
  phase (ckpt_progress (gdb db1)) = CKPT_FLUSHING /\ fst step2 = GRAVELDB_OK /\ step_post (gdb db1) (gdb (snd step2)).
Proof.
  split; [exact db1_phase|].
  apply (graveldb_checkpoint_step_progress overlay_pool db1 0 (fst step2) (snd step2)).
  - exact db1_ckpt_ok.
  - lia.
  - rewrite db1_bins. lia.
  - exact step2_run.
Defined.
