(* ===== verification/EngineGet.v ===== *)
(** EngineGet: a batched read answers every feature of the batch.

    [graveldb_batch_get] of src/graveldb.c answers from the write buffers what it
    can, sorts what is left by bin and page, reads each page once and scatters its
    entries to the callers' buffers. Here it is shown equal to one lookup per
    feature: the entry that the index gives, as a reader of its bin sees it. *)

From Stdlib Require Import String.
From stdpp Require Import sorting.
From S2P Require Import Prelude LinearProbe Wire SlabAlloc Overlay DirtyTracker KeyBTree HashIndex DimRegistry IoBatch PageMap DimBin BinKeys BinFlush BinOps BinPut Engine EngineProps.

#[local] Arguments file_write : simpl never.

(** ** Databases that differ in their bins' copy of the allocator *)

Section get.
Context {P : Type} `{!ObjectPool P}.
Implicit Types (st : DbSt P) (b : DimBin P) (y : Sys).

Definition blank b : DimBin P := set_allocator b None.

(** An operation of a bin leaves the current allocator in it; nothing else of the
    database changes in a read. *)
Record same_db st st' : Prop := {
  sd_sys : gsys st' = gsys st;
  sd_heap : blank <$> bin_heap (gdb st') = blank <$> bin_heap (gdb st);
  sd_rest : gdb st' = set_bins (gdb st) (allocator (gdb st)) (bin_heap (gdb st'))
}.
#[export] Instance db_equiv : Equiv (DbSt P) := same_db.
#[export] Instance db_equivalence : Equivalence (≡@{DbSt P}).
Proof.
  split.
  - intros st. split; [done..|]. by destruct st as [[] ?].
  - intros st st' [H1 H2 H3]. split; [done..|]. rewrite H3. simpl. by destruct st as [[] ?].
  - intros st1 st2 st3 [A1 A2 A3] [B1 B2 B3]. split; [congruence..|]. rewrite B3, A3. done.
Qed.

Lemma same_bin st st' a b' : st ≡ st' -> bin_heap (gdb st') !! a = Some b' -> exists b, bin_heap (gdb st) !! a = Some b /\ blank b' = blank b.
Proof.
  intros [_ Hh _] Hb. pose proof (f_equal (fun h => h !! a) Hh) as E. rewrite !lookup_fmap, Hb in E.
  destruct (bin_heap (gdb st) !! a) as [b|]; [|done]. exists b. split; [done|]. cbn [fmap option_fmap option_map] in E. congruence.
Qed.

Lemma same_reg st st' : st ≡ st' -> dim_reg (gdb st') = dim_reg (gdb st) /\ index (gdb st') = index (gdb st).
Proof. intros [_ _ Hr]. rewrite Hr. done. Qed.

Lemma blank_set b al : blank (set_allocator b al) = blank b.
Proof. by destruct b. Qed.

(** What two bins that differ in the allocator share. *)
Lemma blank_fields b b' : blank b' = blank b ->
  exists al, b' = set_allocator b al.
Proof. intros E. exists (DimBin.allocator b'). unfold blank in E. destruct b, b'. simpl in *. by simplify_eq. Qed.

(** A read of a bin. *)
Lemma with_bin_read {A} addr (m : M (BinSt P) A) st b a :
  bin_heap (gdb st) !! addr = Some b ->
  (forall al, m (mkBinSt (set_allocator b al) (gsys st)) = Ret (a, mkBinSt (set_allocator b al) (gsys st))) ->
  exists st', with_bin addr m st = Ret (a, st') /\ st ≡ st'.
Proof.
  intros Hb Hm. unfold with_bin. rewrite Hb. cbn [deref res_bind]. rewrite Hm. cbn [res_bind fst snd]. eexists. split; [done|].
  split; simpl; [done| |].
  - rewrite fmap_insert, blank_set. apply insert_id. by rewrite lookup_fmap, Hb.
  - by destruct b.
Qed.

(** ** Bins that can be read *)

(** The slot of a page in the write buffer. *)
Definition page_slot b (pg : Z) : option PageSlot := List.find (fun x => page_id x =? pg) (default [] (wslots (write_buf b))).
Definition in_buf b (pg : Z) : bool := bool_decide (is_Some (page_slot b pg)).

(** A bin outside a checkpoint, whose entries lie inside pages; a page of one entry has no slack,
    because the batched read takes such a bin's entries at multiples of the entry size. *)
Record readable y b : Prop := {
  rb_buf : exists sl, buf_st (mkBinSt b y) sl;
  rb_ckpt : in_checkpoint b = false;
  rb_esz : 0 < entry_size b;
  rb_epp : 0 < entries_per_page b < 2 ^ 31;
  rb_fit : entries_per_page b * entry_size b <= page_size b < 2 ^ 32;
  rb_slack : entries_per_page b = 1 -> entry_size b = page_size b
}.

(** An entry whose page is in the write buffer or in the file. *)
Definition located y b (e : Z) : Prop :=
  0 <= e < UINT32_MAX /\
  (in_buf b (e / entries_per_page b) = false ->
   exists f, files y !! fd b = Some f /\ (e / entries_per_page b + 1) * page_size b <= zlen f).

(** An entry of a bin as a reader sees it. *)
Definition entry_at y b (e : Z) : list Z := bin_entry (mkBinSt b y) e.

Lemma entry_at_len y b e : 0 <= entry_size b -> zlen (entry_at y b e) = entry_size b.
Proof. intros H. unfold entry_at, bin_entry, entry_of, zlen. simpl. rewrite length_fmap, length_seqZ. lia. Qed.

Lemma blank_same y b b' e : blank b' = blank b ->
  entry_at y b' e = entry_at y b e /\ (readable y b -> readable y b') /\ (located y b e -> located y b' e) /\ in_buf b' = in_buf b /\ DimBin.dim b' = DimBin.dim b.
Proof.
  intros [al ->]%blank_fields. split_and!; [done| |done|done|done].
  intros [[sl []] ? ? ? ? ?]. split; try done. exists sl. by split.
Qed.

Lemma page_of_bound b e : 0 < entries_per_page b -> 0 <= e < UINT32_MAX -> 0 <= e / entries_per_page b < UINT32_MAX.
Proof.
  intros Hp He. split; [apply Z.div_pos; lia|]. apply Z.le_lt_trans with e; [|lia]. apply Z.div_le_upper_bound; [lia|]. nia.
Qed.

(** The table of the write buffer answers for every page. *)
Lemma find_page y b sl pg : buf_st (mkBinSt b y) sl -> 0 <= pg < UINT32_MAX ->
  write_buf_page pg (mkBinSt b y) = Ret (pdata <$> page_slot b pg, mkBinSt b y) /\
  forall x, page_slot b pg = Some x -> exists buf, bufs y !! pdata x = Some buf /\ zlen buf = page_size b.
Proof.
  intros Hb Hpg. pose proof (bs_slots _ _ Hb) as Hsl. pose proof (bs_cap _ _ Hb) as Hcap. simpl in Hsl, Hcap.
  assert (uniq sl) as Hu by apply (bs_inv _ _ Hb). unfold page_slot. rewrite Hsl. change (default [] (Some ?l)) with l.
  assert (forall x, List.find (fun x => page_id x =? pg) sl = Some x -> stored sl x /\ page_id x = pg) as Hfind.
  { intros x Hx. apply List.find_some in Hx as [Hin%list_elem_of_In Ek%Z.eqb_eq]. split; [|done]. split; [done|]. apply occ_true. simpl. unfold PAGE_SLOT_EMPTY. lia. }
  split; [|intros x [Hx _]%Hfind; apply (bs_bufs _ _ Hb x Hx)].
  destruct (pagemap_find_spec sl pg) as (h & s & Hf & Hs & Hc); [apply Hb|unfold PAGE_SLOT_EMPTY; lia|].
  unfold write_buf_page, get_bin, gets. unfold bindM at 1. cbn [res_bind fst snd]. rewrite (bindM_ret _ _ _ _ _ (get_slots_ret (mkBinSt b y) sl Hsl)).
  unfold bindM, lift. simpl bin. rewrite Hcap, Hf. cbn [res_bind fst snd]. rewrite Hs. cbn [res_bind fst snd]. do 2 f_equal.
  destruct (List.find _ sl) as [x|] eqn:E.
  - destruct (Hfind x eq_refl) as [Hx Ek]. destruct Hc as [[Hk _]|(_ & Ha & _)]; [|by apply Ha in Hx].
    assert (x = s) as -> by (by apply (probe_found_uniq sl pg h s x Hu Hx Ek Hs)). by rewrite Hk, Z.eqb_refl.
  - destruct (Z.eqb_spec (page_id s) pg) as [Ek|]; [|done]. apply rd_elem, list_elem_of_In in Hs. eapply List.find_none in E; [|done]. simpl in E. by rewrite Ek, Z.eqb_refl in E.
Qed.

Lemma slice_nth (l : list Z) off n : 0 <= off -> 0 <= n -> off + n <= zlen l ->
  take (Z.to_nat n) (drop (Z.to_nat off) l) = (fun r => default 0 (l !! Z.to_nat (off + r))) <$> seqZ 0 n.
Proof.
  intros Ho Hn Hl. unfold zlen in Hl. apply list_eq. intros i. rewrite list_lookup_fmap. destruct (decide (i < Z.to_nat n)%nat) as [Hi|Hi].
  - rewrite lookup_take_lt by done. rewrite lookup_drop. rewrite lookup_seqZ_lt by lia. cbn [fmap option_fmap option_map].
    replace (Z.to_nat (off + (0 + Z.of_nat i))) with (Z.to_nat off + i)%nat by lia.
    destruct (lookup_lt_is_Some_2 l (Z.to_nat off + i)) as [v ->]; [lia|]. done.
  - rewrite lookup_take_ge by lia. rewrite lookup_seqZ_ge by lia. done.
Qed.

(** An entry lies inside its page. *)
Lemma entry_inside y b e : readable y b -> 0 <= e mod entries_per_page b * entry_size b /\
  e mod entries_per_page b * entry_size b + entry_size b <= page_size b /\ u32 (e mod entries_per_page b * entry_size b) = e mod entries_per_page b * entry_size b.
Proof.
  intros Hr. pose proof (rb_epp _ _ Hr). pose proof (rb_esz _ _ Hr). pose proof (rb_fit _ _ Hr). pose proof (Z.mod_pos_bound e (entries_per_page b) ltac:(lia)).
  assert ((e mod entries_per_page b + 1) * entry_size b <= entries_per_page b * entry_size b) by (apply Z.mul_le_mono_nonneg_r; lia).
  split_and!; [nia|lia|]. apply u32_id. nia.
Qed.

(** The slice of a buffered page, and of a page of the file. *)
Lemma entry_buffered y b x buf e :
  readable y b -> page_slot b (e / entries_per_page b) = Some x -> bufs y !! pdata x = Some buf -> zlen buf = page_size b ->
  take (Z.to_nat (entry_size b)) (drop (Z.to_nat (e mod entries_per_page b * entry_size b)) (take (Z.to_nat (page_size b)) buf)) = entry_at y b e.
Proof.
  intros Hr Hx Hbuf Hz. destruct (entry_inside y b e Hr) as (? & ? & _). pose proof (rb_esz _ _ Hr).
  rewrite (take_ge buf) by (unfold zlen in Hz; lia). rewrite slice_nth by lia. unfold entry_at, bin_entry, entry_of. apply list_fmap_ext. intros i r Hi.
  unfold page_view. simpl bin. simpl sys. unfold page_slot in Hx. by rewrite Hx, Hbuf.
Qed.

Lemma entry_on_file y b f e :
  readable y b -> in_buf b (e / entries_per_page b) = false -> 0 <= e -> files y !! fd b = Some f -> (e / entries_per_page b + 1) * page_size b <= zlen f ->
  take (Z.to_nat (entry_size b)) (drop (Z.to_nat (e mod entries_per_page b * entry_size b))
    (take (Z.to_nat (page_size b)) (drop (Z.to_nat (e / entries_per_page b * page_size b)) f))) = entry_at y b e.
Proof.
  intros Hr Hn He Hf Hz. destruct (entry_inside y b e Hr) as (? & ? & _). pose proof (rb_esz _ _ Hr). pose proof (rb_epp _ _ Hr). pose proof (rb_fit _ _ Hr).
  assert (0 <= e / entries_per_page b) by (apply Z.div_pos; lia). assert (0 <= e / entries_per_page b * page_size b) by nia.
  rewrite slice_nth; [|lia..|unfold zlen in *; rewrite length_take, length_drop; lia].
  unfold entry_at, bin_entry, entry_of. apply list_fmap_ext. intros i r Hi. apply list_elem_of_lookup_2, elem_of_seqZ in Hi. simpl bin in Hi.
  unfold page_view. simpl bin. simpl sys. rewrite Hf. change (default [] (Some f)) with f.
  apply bool_decide_eq_false, eq_None_not_Some in Hn. unfold page_slot in Hn. rewrite Hn.
  unfold file_byte. f_equal. rewrite lookup_take_lt by lia. rewrite lookup_drop. f_equal. lia.
Qed.

(** ** One lookup per feature *)

(** The bin and the entry of a feature: [m] is the map of the index. *)
Definition locate st (m : gmap Z (Z * Z)) (fid : Z) : option (Z * DimBin P * Z) :=
  match m !! fid with
  | Some (di, e) =>
    match dim_registry_get_bin (dim_reg (gdb st)) di with
    | Ret a => (fun b => (a, b, e)) <$> bin_heap (gdb st) !! a
    | _ => None
    end
  | None => None
  end.

(** The dimension and the embedding of a feature. *)
Definition feature st (m : gmap Z (Z * Z)) (fid : Z) : option (Z * list Z) :=
  (fun '(_, b, e) => (DimBin.dim b, entry_at (gsys st) b e)) <$> locate st m fid.

(** A database at rest that stores [m]: every feature has an entry of a bin that can be read. *)
Record read_db st (m : gmap Z (Z * Z)) : Prop := {
  rd_index : hi_inv (index (gdb st)) m;
  rd_settled : hi_old_slots (index (gdb st)) = None;
  rd_quiet : answers (gsys st) = [];
  rd_entry : forall fid v, m !! fid = Some v ->
    exists a b, locate st m fid = Some (a, b, snd v) /\ dim_registry_get_bin (dim_reg (gdb st)) (fst v) = Ret a /\
      readable (gsys st) b /\ located (gsys st) b (snd v)
}.

Lemma locate_same st st' m fid a b e : st ≡ st' -> locate st m fid = Some (a, b, e) -> exists b', locate st' m fid = Some (a, b', e) /\ blank b' = blank b.
Proof.
  intros Hs. unfold locate. destruct (same_reg _ _ Hs) as [-> _]. destruct (m !! fid) as [[di e']|]; [|done]. destruct (dim_registry_get_bin _ _) as [a'| |]; [|done..].
  intros H. destruct (bin_heap (gdb st) !! a') as [b0|] eqn:Eb; [|done]. simplify_eq/=. symmetry in Hs. destruct (same_bin _ _ _ _ Hs Eb) as (b' & -> & E). exists b'. by split.
Qed.

#[export] Instance read_db_proper : Proper ((≡) ==> (=) ==> iff) read_db.
Proof.
  assert (H : forall st st' m, st ≡ st' -> read_db st m -> read_db st' m).
  { intros st st' m Hs [H1 H2 H3 H4]. destruct (same_reg _ _ Hs) as [Er Ei]. pose proof (sd_sys _ _ Hs) as Ey. split; rewrite ?Ei, ?Ey; [done..|].
    intros fid v Hv. destruct (H4 fid v Hv) as (a & b & El & Eg & Hr & Hl). destruct (locate_same _ _ _ _ _ _ _ Hs El) as (b' & El' & Hb).
    destruct (blank_same (gsys st) b b' (snd v) Hb) as (_ & R & L & _). exists a, b'. rewrite Er. split_and!; auto. }
  intros st st' Hs m ? <-. split; apply H; [done|by symmetry].
Qed.

#[export] Instance feature_proper : Proper ((≡) ==> (=) ==> (=) ==> (=)) feature.
Proof.
  intros st st' Hs m ? <- fid ? <-. unfold feature. destruct (locate st m fid) as [[[a b] e]|] eqn:El.
  - destruct (locate_same _ _ _ _ _ _ _ Hs El) as (b' & -> & Hb). simpl. rewrite (sd_sys _ _ Hs). destruct (blank_same (gsys st) b b' e Hb) as (-> & _ & _ & _ & ->). done.
  - destruct (locate st' m fid) as [[[a b] e]|] eqn:El'; [|done]. symmetry in Hs. destruct (locate_same _ _ _ _ _ _ _ Hs El') as (b' & E & _). congruence.
Qed.

(** ** The first phase *)

(** A lookup in an index that is not migrating. *)
Lemma index_get_settled st m fid : hi_inv (index (gdb st)) m -> hi_old_slots (index (gdb st)) = None -> index_get fid st = Ret (m !! fid, st).
Proof.
  intros Hi Ho. unfold index_get, get_db, gets, upd_db, modify, lift. unfold bindM at 1. cbn [res_bind fst snd].
  assert (exists o rc, hash_index_get (index (gdb st)) fid = Ret (rc, o, index (gdb st)) /\ (if bool_decide (rc = GRAVELDB_OK) then o else None) = m !! fid) as (o & rc & E & Eo).
  { destruct (decide (fid = 0)) as [->|Hne].
    - exists None, GRAVELDB_ERR_NOT_FOUND. split; [done|]. symmetry. destruct (m !! 0) as [v|] eqn:Ev; [|done]. exfalso.
      apply (hi_models _ _ Hi) in Ev. destruct Ev as [(t & _ & _ & Hocc)|(t & _ & _ & Hocc)]; by apply occ_true in Hocc.
    - destruct (hash_index_get_spec _ _ fid Hi Hne) as (idx' & Hs & Hi' & rc & o & Hg & Hp).
      unfold rehash_step in Hs. rewrite Ho in Hs. simplify_eq. exists o, rc. split; [done|].
      destruct Hp as [(-> & E & _)|(-> & -> & Hc)]; [done|]. destruct Hc as [->|[(old & s & Hold & _) _]]; [done|].
      by rewrite Ho in Hold. }
  unfold bindM. rewrite E. cbn [res_bind fst snd]. rewrite Eo. by destruct st as [[] ?].
Qed.

Lemma index_get_ret st m fid : read_db st m -> index_get fid st = Ret (m !! fid, st).
Proof. intros Hd. apply index_get_settled; apply Hd. Qed.

(** What is left to read from the file after the first phase. *)
Definition on_disk st m (fid : Z) : bool :=
  match locate st m fid with Some (_, b, e) => negb (in_buf b (e / entries_per_page b)) | None => false end.
Definition disk_read st m (i fid : Z) : BatchGetDiskRead :=
  match locate st m fid with
  | Some (a, b, e) => mkDiskRead i a e (e / entries_per_page b) (e mod entries_per_page b * entry_size b)
  | None => mkDiskRead i 0 0 0 0
  end.

(** The content of a caller's buffer after the call, and the dimension it is told. *)
Definition answer st m (fid : Z) (buf : option (list Z)) : option (list Z) :=
  match buf, feature st m fid with Some b, Some (_, x) => Some (x ++ drop (List.length x) b) | _, _ => buf end.
Definition dim_answer st m (fid : Z) : Z := match feature st m fid with Some (d, _) => d | None => 0 end.

(** The buffer holds an embedding of the feature. *)
Definition room st m (fid : Z) (buf : option (list Z)) : Prop :=
  match buf, feature st m fid with Some b, Some (_, x) => zlen x <= zlen b | _, _ => True end.

Lemma disk_same st st' m fid i : st ≡ st' -> on_disk st' m fid = on_disk st m fid /\ disk_read st' m i fid = disk_read st m i fid.
Proof.
  intros Hs. unfold on_disk, disk_read. destruct (locate st m fid) as [[[a b] e]|] eqn:El.
  - destruct (locate_same _ _ _ _ _ _ _ Hs El) as (b' & -> & Hb). destruct (blank_same (gsys st) b b' e Hb) as (_ & _ & _ & -> & _).
    apply blank_fields in Hb as [al ->]. done.
  - destruct (locate st' m fid) as [[[a b] e]|] eqn:El'; [|done]. symmetry in Hs. destruct (locate_same _ _ _ _ _ _ _ Hs El') as (b' & E & _). congruence.
Qed.

Lemma answer_same st st' m fid buf : st ≡ st' -> answer st' m fid buf = answer st m fid buf /\ dim_answer st' m fid = dim_answer st m fid /\ (room st m fid buf -> room st' m fid buf).
Proof. intros Hs. unfold answer, dim_answer, room. assert (feature st' m fid = feature st m fid) as -> by (symmetry; by apply feature_proper). done. Qed.

Definition dims_set (o : option (list Z)) (i d : Z) : option (list Z) := (fun l => <[Z.to_nat i := d]> l) <$> o.
Definition dims_ok (o : option (list Z)) (n : Z) : Prop := match o with Some l => zlen l = n | None => True end.

Lemma set_dim_ret o i d n : dims_ok (out_dims o) n -> 0 <= i < n -> set_dim o i d = Ret (mkGetOut (out_embeddings o) (dims_set (out_dims o) i d)).
Proof. unfold dims_ok, set_dim, dims_set. destruct (out_dims o) as [l|] eqn:E; [|by destruct o; simpl in *; subst]. intros Hl Hi. rewrite wr_ret by lia. done. Qed.

Lemma copy_out_ret (b src : list Z) : zlen src <= zlen b -> copy_out b src = Ret (src ++ drop (List.length src) b).
Proof. intros H. unfold copy_out. destruct (Z.ltb_spec (zlen b) (zlen src)); [lia|done]. Qed.

(** One request. *)
Lemma get_one_spec st m o reads i fid buf n :
  read_db st m -> zlen (out_embeddings o) = n -> dims_ok (out_dims o) n -> 0 <= i -> out_embeddings o !! Z.to_nat i = Some buf -> room st m fid buf ->
  exists st', st ≡ st' /\ get_one o reads i fid st =
    Ret (mkGetOut (if on_disk st m fid then out_embeddings o else <[Z.to_nat i := answer st m fid buf]> (out_embeddings o)) (dims_set (out_dims o) i (dim_answer st m fid)),
         reads ++ (if on_disk st m fid && bool_decide (is_Some buf) then [disk_read st m i fid] else []), st').
Proof.
  intros Hd Hn Hdims Hi Hbuf Hroom. assert (0 <= i < n) as Hin by (apply lookup_lt_Some in Hbuf; unfold zlen in Hn; lia).
  unfold get_one. rewrite (bindM_ret _ _ _ _ _ (index_get_ret _ _ _ Hd)).
  destruct (m !! fid) as [[di e]|] eqn:Em.
  2: { exists st. split; [done|]. unfold bindM, lift. rewrite (set_dim_ret _ _ _ n) by done. cbn [res_bind fst snd].
       assert (locate st m fid = None) as El by (unfold locate; by rewrite Em). unfold on_disk, dim_answer, answer, feature. rewrite El. cbn [fmap option_fmap option_map andb].
       rewrite app_nil_r. do 3 f_equal. destruct buf; by rewrite list_insert_id. }
  destruct (rd_entry _ _ Hd fid _ Em) as (a & b & El & Eg & Hr & Hl). cbn [fst snd] in *.
  assert (bin_heap (gdb st) !! a = Some b) as Hb.
  { unfold locate in El. rewrite Em, Eg in El. destruct (bin_heap (gdb st) !! a); by simplify_eq/=. }
  assert (feature st m fid = Some (DimBin.dim b, entry_at (gsys st) b e)) as Ef by (unfold feature; by rewrite El).
  unfold bin_addr, get_bin_at, get_db, gets, lift. unfold bindM at 1 2. cbn [res_bind fst snd]. rewrite Eg. cbn [res_bind fst snd].
  unfold bindM at 1 2. cbn [res_bind fst snd]. rewrite Hb. cbn [deref res_bind fst snd].
  unfold bindM at 1. rewrite (set_dim_ret _ _ _ n) by done. cbn [res_bind fst snd out_embeddings].
  unfold bindM at 1. assert (rd (out_embeddings o) i = Ret buf) as Hrd by (apply rd_ret; by split). rewrite Hrd. cbn [res_bind fst snd].
  unfold on_disk, disk_read, dim_answer, answer. rewrite El, Ef. unfold room in Hroom. rewrite Ef in Hroom.
  destruct buf as [buf|]; cycle 1.
  { exists st. split; [done|]. rewrite bool_decide_eq_false_2 by (by intros []). rewrite andb_false_r, app_nil_r.
    rewrite list_insert_id by done. by destruct (negb _). }
  destruct (with_bin_read a (overlay_read e) st b None Hb) as (st1 & E1 & S1).
  { intros al. unfold overlay_read, bindM at 1. cbn [get_bin gets res_bind fst snd bin]. change (in_checkpoint (set_allocator b al)) with (in_checkpoint b). by rewrite (rb_ckpt _ _ Hr). }
  rewrite (bindM_ret _ _ _ _ _ E1). pose proof (rb_epp _ _ Hr) as Hepp. rewrite u32_id by lia. destruct (Z.eqb_spec (entries_per_page b) 0); [lia|].
  destruct (entry_inside (gsys st) b e Hr) as (O1 & O2 & ->).
  pose proof (sd_sys _ _ S1) as Ey1. assert (exists b1, bin_heap (gdb st1) !! a = Some b1 /\ blank b1 = blank b) as (b1 & Hb1 & Eb1).
  { symmetry in S1. destruct (same_bin _ _ _ _ S1 Hb) as (b1 & ? & ?). by exists b1. }
  pose proof (page_of_bound b e ltac:(lia) (proj1 Hl)) as Hpg. destruct (rb_buf _ _ Hr) as [sl Hsl].
  destruct (find_page (gsys st) b sl _ Hsl Hpg) as [_ Hbufs].
  destruct (with_bin_read a (write_buf_page (e / entries_per_page b)) st1 b1 (pdata <$> page_slot b (e / entries_per_page b)) Hb1) as (st2 & E2 & S2).
  { intros al. apply blank_fields in Eb1 as [al1 ->]. rewrite Ey1. destruct Hsl. exact (proj1 (find_page (gsys st) (set_allocator (set_allocator b al1) al) sl _ ltac:(by split) Hpg)). }
  rewrite (bindM_ret _ _ _ _ _ E2). exists st2. split; [by rewrite S1|]. unfold in_buf. destruct (page_slot b _) as [x|] eqn:Ex.
  - cbn [fmap option_fmap option_map]. rewrite bool_decide_eq_true_2 by eauto. cbn [negb andb]. destruct (Hbufs x eq_refl) as (pb & Hpb & Hz).
    unfold on_sys, buf_bytes, gets, lift. unfold bindM at 1 2 3. cbn [res_bind fst snd]. rewrite (sd_sys _ _ S2), Ey1, Hpb. cbn [deref res_bind fst snd].
    destruct (Z.ltb_spec (zlen pb) (page_size b)); [lia|]. cbn [ret res_bind fst snd]. rewrite (entry_buffered (gsys st) b x pb e Hr Ex Hpb Hz).
    unfold bindM. rewrite copy_out_ret by done. cbn [res_bind fst snd]. unfold set_out. cbn [out_embeddings out_dims]. rewrite wr_ret by lia. cbn [res_bind fst snd].
    rewrite app_nil_r. rewrite <- Ey1, <- (sd_sys _ _ S2). by destruct st2.
  - cbn [fmap option_fmap option_map]. rewrite bool_decide_eq_false_2 by (by intros []). by rewrite bool_decide_eq_true_2 by eauto.
Qed.

(** The reads that are left, [k] being the number of the first request. *)
Fixpoint disk_reads st m (k : nat) (fids : list Z) (embs : list (option (list Z))) : list BatchGetDiskRead :=
  match fids, embs with
  | fid :: fids, buf :: embs =>
    (if on_disk st m fid && bool_decide (is_Some buf) then [disk_read st m (Z.of_nat k) fid] else []) ++ disk_reads st m (S k) fids embs
  | _, _ => []
  end.

(** The buffers after the first phase. *)
Definition first_answer st m (fid : Z) (buf : option (list Z)) : option (list Z) := if on_disk st m fid then buf else answer st m fid buf.

Lemma first_same st st' m : st ≡ st' -> forall k fids embs,
  disk_reads st' m k fids embs = disk_reads st m k fids embs /\ zip_with (first_answer st' m) fids embs = zip_with (first_answer st m) fids embs /\
  dim_answer st' m <$> fids = dim_answer st m <$> fids.
Proof.
  intros Hs k fids. revert k. induction fids as [|fid fids IH]; intros k [|buf embs]; [done..| |].
  - split_and!; [done..|]. cbn [fmap list_fmap]. destruct (IH k []) as (_ & _ & ->). by destruct (answer_same st st' m fid None Hs) as (_ & -> & _).
  - cbn [disk_reads zip_with fmap list_fmap]. destruct (IH (S k) embs) as (-> & -> & ->). unfold first_answer.
    destruct (disk_same st st' m fid (Z.of_nat k) Hs) as [-> ->]. by destruct (answer_same st st' m fid buf Hs) as (-> & -> & _).
Qed.

Fixpoint number (k : nat) (fids : list Z) : list (Z * Z) := match fids with [] => [] | f :: fids => (Z.of_nat k, f) :: number (S k) fids end.
Lemma number_imap fids : imap (fun i f => (Z.of_nat i, f)) fids = number 0 fids.
Proof.
  assert (forall k, imap (fun i f => (Z.of_nat (k + i), f)) fids = number k fids) as H; [|apply (H 0%nat)].
  induction fids as [|f fids IH]; intros k; [done|]. cbn [imap number]. rewrite Nat.add_0_r. f_equal. rewrite <- (IH (S k)). apply imap_ext. intros. simpl. do 2 f_equal. lia.
Qed.

Lemma get_all_spec m fids : forall st k pre embs dims reads,
  read_db st m -> List.length pre = k -> List.length embs = List.length fids -> dims_ok dims (Z.of_nat (k + List.length fids)) ->
  Forall2 (room st m) fids embs ->
  exists st', st ≡ st' /\ get_all (mkGetOut (pre ++ embs) dims) reads (number k fids) st =
    Ret (mkGetOut (pre ++ zip_with (first_answer st m) fids embs) ((fun l => take k l ++ (dim_answer st m <$> fids)) <$> dims), reads ++ disk_reads st m k fids embs, st').
Proof.
  induction fids as [|fid fids IH]; intros st k pre embs dims reads Hd Hk Hl Hdims Hroom.
  - destruct embs; [|done]. exists st. split; [done|]. cbn [number get_all zip_with disk_reads fmap list_fmap]. rewrite !app_nil_r. do 3 f_equal.
    destruct dims as [l|]; [|done]. cbn [fmap option_fmap option_map]. rewrite app_nil_r, take_ge; [done|]. unfold dims_ok, zlen in Hdims. simpl in Hdims. lia.
  - destruct embs as [|buf embs]; [done|]. apply Forall2_cons in Hroom as [Hb Hroom]. cbn [number get_all].
    assert (zlen (pre ++ buf :: embs) = Z.of_nat (k + List.length (fid :: fids))) as Hz by (unfold zlen; rewrite length_app; simpl in *; lia).
    destruct (get_one_spec st m (mkGetOut (pre ++ buf :: embs) dims) reads (Z.of_nat k) fid buf _ Hd Hz Hdims) as (st1 & S1 & E1); [lia|cbn [out_embeddings]; rewrite Nat2Z.id, <- Hk; by apply list_lookup_middle|done|].
    rewrite (bindM_ret _ _ _ _ _ E1). cbn [out_embeddings out_dims].
    assert ((if on_disk st m fid then pre ++ buf :: embs else <[Z.to_nat (Z.of_nat k) := answer st m fid buf]> (pre ++ buf :: embs)) = (pre ++ [first_answer st m fid buf]) ++ embs) as ->.
    { unfold first_answer. rewrite Nat2Z.id, <- Hk. destruct (on_disk _ _ _); rewrite <- app_assoc; [done|]. rewrite insert_app_r_alt by lia. by rewrite Nat.sub_diag. }
    destruct (IH st1 (S k) (pre ++ [first_answer st m fid buf]) embs (dims_set dims (Z.of_nat k) (dim_answer st m fid))
                (reads ++ (if on_disk st m fid && bool_decide (is_Some buf) then [disk_read st m (Z.of_nat k) fid] else []))) as (st2 & S2 & E2).
    + by rewrite <- S1.
    + rewrite length_app. simpl. lia.
    + simpl in Hl. lia.
    + unfold dims_set, dims_ok in *. destruct dims as [l|]; [|done]. simpl. rewrite zlen_insert, Hdims. simpl. lia.
    + eapply Forall2_impl; [exact Hroom|]. intros f x Hx. by apply (answer_same st st1 m f x S1).
    + exists st2. split; [by rewrite S1|]. rewrite E2. destruct (first_same st st1 m S1 (S k) fids embs) as (-> & -> & ->). cbn [disk_reads zip_with fmap list_fmap].
      rewrite <- !app_assoc. do 3 f_equal. unfold dims_set. destruct dims as [l|]; [|done]. cbn [fmap option_fmap option_map]. f_equal.
      rewrite Nat2Z.id. unfold dims_ok, zlen in Hdims. simpl in Hdims. rewrite (take_S_r _ _ (dim_answer st m fid)) by (apply list_lookup_insert_eq; lia).
      rewrite take_insert_ge by lia. by rewrite <- app_assoc.
Qed.

(** ** The order of the reads *)

Lemma insert_last_perm {A} (gt : A -> A -> bool) e l : insert_last gt e l ≡ₚ e :: l.
Proof. induction l as [|x l IH]; [done|]. simpl. destruct (gt x e); [|done]. rewrite IH. constructor. Qed.

Lemma insertion_sort_by_perm {A} (gt : A -> A -> bool) l : insertion_sort_by gt l ≡ₚ l.
Proof.
  unfold insertion_sort_by. rewrite reverse_Permutation. assert (forall d, foldl (fun done e => insert_last gt e done) d l ≡ₚ d ++ l) as H; [|apply (H [])].
  induction l as [|e l IH]; intros d; [by rewrite app_nil_r|]. simpl. rewrite IH, insert_last_perm. apply Permutation_middle.
Qed.

(** ** The second phase

    [fids] and [embs] are the requests and the callers' buffers. *)

Section phase2.
Context (st : DbSt P) (m : gmap Z (Z * Z)) (fids : list Z) (embs : list (option (list Z))).
Hypothesis Hdb : read_db st m.
Hypothesis Hlen : List.length embs = List.length fids.
Hypothesis Hroom : Forall2 (room st m) fids embs.

(** The buffers when the requests [left] are still to be answered. *)
Definition embs_left (left : list Z) : list (option (list Z)) :=
  imap (fun i x => if decide (Z.of_nat i ∈ left) then snd x else answer st m (fst x) (snd x)) (zip fids embs).

(** A read that belongs to a request. *)
Record read_ok (r : BatchGetDiskRead) (fid : Z) (buf : list Z) (b : DimBin P) : Prop := {
  ro_pos : 0 <= req_idx r;
  ro_fid : fids !! Z.to_nat (req_idx r) = Some fid;
  ro_buf : embs !! Z.to_nat (req_idx r) = Some (Some buf);
  ro_disk : on_disk st m fid = true;
  ro_loc : locate st m fid = Some (dr_bin r, b, dr_entry_id r);
  ro_page : dr_page_id r = dr_entry_id r / entries_per_page b;
  ro_off : offset_in_page r = dr_entry_id r mod entries_per_page b * entry_size b
}.

Lemma embs_left_nth left i fid buf : fids !! i = Some fid -> embs !! i = Some buf ->
  embs_left left !! i = Some (if decide (Z.of_nat i ∈ left) then buf else answer st m fid buf).
Proof. intros Hf Hb. unfold embs_left. rewrite list_lookup_imap, lookup_zip_with, Hf. cbn [mbind option_bind]. by rewrite Hb. Qed.

Lemma embs_left_len left : List.length (embs_left left) = List.length fids.
Proof. unfold embs_left. rewrite length_imap, length_zip_with. lia. Qed.

Lemma embs_left_perm l1 l2 : (forall x, x ∈ l1 <-> x ∈ l2) -> embs_left l1 = embs_left l2.
Proof.
  intros H. unfold embs_left. apply imap_ext. intros i x _. destruct (decide (Z.of_nat i ∈ l1)), (decide (Z.of_nat i ∈ l2)); naive_solver.
Qed.

(** A request is answered. *)
Lemma embs_left_fill i fid buf left : 0 <= i -> ~ i ∈ left -> fids !! Z.to_nat i = Some fid -> embs !! Z.to_nat i = Some buf ->
  <[Z.to_nat i := answer st m fid buf]> (embs_left (i :: left)) = embs_left left.
Proof.
  intros Hi Hni Hf Hb. apply list_eq. intros j. destruct (decide (j = Z.to_nat i)) as [->|Hne].
  - rewrite list_lookup_insert_eq by (rewrite embs_left_len; by eapply lookup_lt_Some). rewrite (embs_left_nth _ _ fid buf) by done.
    rewrite decide_False; [done|]. by rewrite Z2Nat.id.
  - rewrite list_lookup_insert_ne by done. unfold embs_left. rewrite !list_lookup_imap. destruct (zip fids embs !! j) as [x|]; [|done]. cbn [fmap option_fmap option_map].
    f_equal. destruct (decide (Z.of_nat j ∈ i :: left)) as [[Hj|Hj]%elem_of_cons|Hj], (decide (Z.of_nat j ∈ left)); try done; [lia|]. exfalso. set_solver.
Qed.

Lemma disk_reads_spec : forall k l e, (forall i, l !! i = fids !! (k + i)%nat) -> (forall i, e !! i = embs !! (k + i)%nat) ->
  NoDup (req_idx <$> disk_reads st m k l e) /\
  (forall r, r ∈ disk_reads st m k l e -> Z.of_nat k <= req_idx r /\ exists fid buf b, read_ok r fid buf b) /\
  (forall i fid buf, l !! i = Some fid -> e !! i = Some (Some buf) -> on_disk st m fid = true -> Z.of_nat (k + i) ∈ req_idx <$> disk_reads st m k l e).
Proof.
  intros k l. revert k. induction l as [|fid l IH]; intros k [|buf e] Hl He.
  1-3: split_and!; [constructor|intros r Hr; by apply elem_of_nil in Hr|done].
  destruct (IH (S k) e) as (Hn & Hr & Hin).
  { intros i. rewrite Nat.add_succ_comm. by rewrite <- Hl. }
  { intros i. rewrite Nat.add_succ_comm. by rewrite <- He. }
  pose proof (Hl 0%nat) as Hf0. pose proof (He 0%nat) as He0. rewrite Nat.add_0_r in Hf0, He0. simpl in Hf0, He0. symmetry in Hf0, He0. cbn [disk_reads].
  assert (forall i f x, (fid :: l) !! S i = Some f -> (buf :: e) !! S i = Some (Some x) -> on_disk st m f = true -> Z.of_nat (k + S i) ∈ req_idx <$> disk_reads st m (S k) l e) as HinS.
  { intros i f x. simpl. rewrite <- Nat.add_succ_comm. apply Hin. }
  destruct (on_disk st m fid && bool_decide (is_Some buf)) eqn:Ec; cbn [app].
  - apply andb_true_iff in Ec as [Ed [x ->]%bool_decide_eq_true]. unfold on_disk in Ed. destruct (locate st m fid) as [[[a b] en]|] eqn:El; [|done].
    assert (read_ok (disk_read st m (Z.of_nat k) fid) fid x b) as Hok.
    { unfold disk_read. rewrite El. split; simpl; rewrite ?Nat2Z.id; [lia|done|done|unfold on_disk; by rewrite El|done..]. }
    assert (req_idx (disk_read st m (Z.of_nat k) fid) = Z.of_nat k) as Ek by (unfold disk_read; by rewrite El). split_and!.
    + cbn [fmap list_fmap]. constructor; [|done]. rewrite Ek. intros (r & E & Hin')%list_elem_of_fmap. apply Hr in Hin' as [? _]. lia.
    + intros r [->|Hr']%elem_of_cons; [rewrite Ek; split; [lia|by eexists _, _, _]|]. apply Hr in Hr' as [? ?]. split; [lia|done].
    + intros [|i] f x' Hf' Hx' Hd'; cbn [fmap list_fmap]; apply elem_of_cons; [left; rewrite Ek; f_equal; lia|right; by eapply HinS].
  - split_and!; [done| |].
    + intros r Hr'. apply Hr in Hr' as [? ?]. split; [lia|done].
    + intros [|i] f x Hf' Hx' Hd'; [|by eapply HinS]. simplify_eq/=. by rewrite Hd' in Ec.
Qed.

Lemma first_left : zip_with (first_answer st m) fids embs = embs_left (req_idx <$> disk_reads st m 0 fids embs).
Proof.
  destruct (disk_reads_spec 0 fids embs) as (_ & Hr & Hin); [done..|]. apply list_eq. intros i. rewrite lookup_zip_with.
  destruct (fids !! i) as [fid|] eqn:Ef; cbn [mbind option_bind].
  2: { symmetry. apply lookup_ge_None. rewrite embs_left_len. by apply lookup_ge_None. }
  destruct (lookup_lt_is_Some_2 embs i) as [buf Eb]; [rewrite Hlen; by eapply lookup_lt_Some|]. rewrite Eb. cbn [mbind option_bind]. rewrite (embs_left_nth _ _ fid buf) by done. f_equal. unfold first_answer.
  destruct (on_disk st m fid) eqn:Ed.
  - destruct buf as [buf|]; [|by destruct (decide _)]. rewrite decide_True; [done|]. by apply (Hin i fid buf).
  - destruct (decide _) as [(r & Ei & Hr')%list_elem_of_fmap|]; [|done]. apply Hr in Hr' as (_ & fid' & buf' & b' & []). rewrite <- Ei, Nat2Z.id in ro_fid0. congruence.
Qed.

(** What a read finds. *)
Lemma read_ok_bin r fid buf b : read_ok r fid buf b ->
  bin_heap (gdb st) !! dr_bin r = Some b /\ readable (gsys st) b /\ 0 <= dr_entry_id r < UINT32_MAX /\
  answer st m fid (Some buf) = Some (entry_at (gsys st) b (dr_entry_id r) ++ drop (List.length (entry_at (gsys st) b (dr_entry_id r))) buf) /\
  zlen (entry_at (gsys st) b (dr_entry_id r)) <= zlen buf /\
  exists f, files (gsys st) !! fd b = Some f /\ in_buf b (dr_page_id r) = false /\ (dr_page_id r + 1) * page_size b <= zlen f.
Proof.
  intros [H1 H2 H3 H4 H5 H6 H7]. assert (exists v, m !! fid = Some v /\ snd v = dr_entry_id r) as ([di e] & Em & Ee).
  { unfold locate in H5. destruct (m !! fid) as [[di e]|]; [|done]. exists (di, e). split; [done|]. destruct (dim_registry_get_bin _ _); [|done..]. destruct (bin_heap (gdb st) !! a); by simplify_eq/=. }
  destruct (rd_entry _ _ Hdb fid _ Em) as (a & b' & El & Eg & Hr & He & Hl). cbn [fst snd] in *. rewrite H5 in El. injection El as <- <- _. rewrite Ee in *.
  assert (bin_heap (gdb st) !! dr_bin r = Some b) as Hb. { unfold locate in H5. rewrite Em, Eg in H5. destruct (bin_heap (gdb st) !! dr_bin r); by simplify_eq/=. }
  assert (feature st m fid = Some (DimBin.dim b, entry_at (gsys st) b (dr_entry_id r))) as Ef by (unfold feature; by rewrite H5).
  assert (in_buf b (dr_page_id r) = false) as Hib. { unfold on_disk in H4. rewrite H5 in H4. apply negb_true_iff in H4. by rewrite H6. }
  rewrite H6 in *. destruct (Hl Hib) as (f & Hf & Hz). unfold answer. rewrite Ef. do 3 (split; [done|]). split; [done|]. split; [|by exists f].
  pose proof (Forall2_lookup_lr _ _ _ _ _ _ Hroom H2 H3) as HR. unfold room in HR. by rewrite Ef in HR.
Qed.

(** The reads of one page. *)
Record group_ok (g : list BatchGetDiskRead) (b : DimBin P) (r : BatchGetDiskRead) : Prop := {
  go_head : head g = Some r;
  go_bin : bin_heap (gdb st) !! dr_bin r = Some b;
  go_reads : forall x, x ∈ g -> dr_bin x = dr_bin r /\ dr_page_id x = dr_page_id r /\ exists fid buf, read_ok x fid buf b
}.

Definition direct (g : list BatchGetDiskRead) : bool :=
  match g with r :: _ => match bin_heap (gdb st) !! dr_bin r with Some b => direct_read b g | None => false end | [] => false end.
Definition waiting (g : list BatchGetDiskRead) : list BatchGetDiskRead := if direct g then [] else g.

(** The page of a group, read into memory. *)
Definition page_got (g : list BatchGetDiskRead) (p : BatchGetPageRead) : Prop :=
  pg_reads p = g /\ exists b r page, group_ok g b r /\ pg_bin p = dr_bin r /\ pg_buf p = Some page /\
    (direct g = false -> zlen page = page_size b /\
       forall x, x ∈ g -> take (Z.to_nat (entry_size b)) (drop (Z.to_nat (offset_in_page x)) page) = entry_at (gsys st) b (dr_entry_id x)).

Lemma get_bin_same st' a b : st ≡ st' -> bin_heap (gdb st) !! a = Some b -> exists al, get_bin_at a st' = Ret (set_allocator b al, st').
Proof.
  intros Hs Hb. symmetry in Hs. destruct (same_bin _ _ _ _ Hs Hb) as (b' & Hb' & E). symmetry in E. apply blank_fields in E as [al ->]. exists al.
  unfold get_bin_at, get_db, gets, bindM, lift. cbn [res_bind fst snd]. by rewrite Hb'.
Qed.

Lemma on_sys_read {A} (q : M Sys A) st' a : st ≡ st' -> q (gsys st) = Ret (a, gsys st) -> on_sys q st' = Ret (a, st').
Proof. intros Hs E. unfold on_sys. rewrite (sd_sys _ _ Hs), E. cbn [res_bind fst snd]. rewrite <- (sd_sys _ _ Hs). by destruct st'. Qed.

Lemma read_quiet c b f len off : initialized c = true -> files (gsys st) !! fd b = Some f ->
  read_request c (fd b) len off (gsys st) = Ret (0, take (Z.to_nat len) (drop (Z.to_nat off) f), add_pending c, gsys st).
Proof.
  intros Hc Hf. unfold read_request. rewrite Hc. cbn [negb]. unfold bindM. rewrite (pread_quiet _ _ f _ _ (rd_quiet _ _ Hdb) Hf). cbn [res_bind fst snd].
  destruct (Z.ltb_spec (zlen (take (Z.to_nat len) (drop (Z.to_nat off) f))) 0) as [H|H]; [pose proof (zlen_nonneg (take (Z.to_nat len) (drop (Z.to_nat off) f))); lia|done].
Qed.

(** The entries of a page go to their requests. *)
Lemma scatter_spec b page d rest : forall g, zlen page = page_size b -> readable (gsys st) b ->
  (forall x, x ∈ g -> (exists fid buf, read_ok x fid buf b) /\ take (Z.to_nat (entry_size b)) (drop (Z.to_nat (offset_in_page x)) page) = entry_at (gsys st) b (dr_entry_id x)) ->
  NoDup (req_idx <$> g ++ rest) ->
  scatter (mkGetOut (embs_left (req_idx <$> g ++ rest)) d) page (entry_size b) g = Ret (mkGetOut (embs_left (req_idx <$> rest)) d).
Proof.
  intros g Hp Hr. induction g as [|x g IH]; intros Hg Hnd; [done|]. cbn [app fmap list_fmap] in Hnd |- *. apply NoDup_cons in Hnd as [Hni Hnd].
  destruct (Hg x) as ((fid & buf & Hok) & Es); [set_solver|]. destruct (read_ok_bin _ _ _ _ Hok) as (_ & _ & _ & Ha & Hz & _). cbn [scatter out_embeddings].
  assert (rd (embs_left (req_idx x :: (req_idx <$> g ++ rest))) (req_idx x) = Ret (Some buf)) as Erd.
  { apply rd_ret. split; [apply Hok|]. rewrite (embs_left_nth _ _ fid (Some buf)) by apply Hok. rewrite decide_True; [done|]. rewrite Z2Nat.id by apply Hok. set_solver. }
  rewrite Erd. cbn [deref res_bind]. destruct (entry_inside (gsys st) b (dr_entry_id x) Hr) as (O1 & O2 & _). rewrite <- (ro_off _ _ _ _ Hok) in O1, O2.
  destruct (Z.ltb_spec (zlen page) (offset_in_page x + entry_size b)); [lia|]. rewrite Es, copy_out_ret by done. cbn [res_bind]. unfold set_out. cbn [out_embeddings out_dims].
  rewrite wr_ret by (by eapply rd_ret_range). cbn [res_bind]. rewrite <- Ha. rewrite embs_left_fill; [|apply Hok|done|apply Hok..]. apply IH; [|done]. intros y Hy. apply Hg. set_solver.
Qed.

Lemma scatter_pages_spec st' d : st ≡ st' -> forall gs ps, Forall2 page_got gs ps -> NoDup (req_idx <$> concat (waiting <$> gs)) ->
  scatter_pages (mkGetOut (embs_left (req_idx <$> concat (waiting <$> gs))) d) ps st' = Ret (mkGetOut (embs_left []) d, st').
Proof.
  intros Hs gs ps H. induction H as [|g p gs ps (Hreads & b & r & page & Hg & Hbin & Hbuf & Hpage) Hrest IH]; intros Hnd; [done|].
  cbn [fmap list_fmap concat] in Hnd |- *. cbn [scatter_pages]. rewrite Hbuf, Hreads. pose proof (go_bin _ _ _ Hg) as Hb.
  destruct (get_bin_same st' _ _ Hs Hb) as (al & Eb). unfold bindM at 1. rewrite Hbin. rewrite (bindM_ret _ _ _ _ _ Eb).
  change (direct_read (set_allocator b al) g) with (direct_read b g). change (entry_size (set_allocator b al)) with (entry_size b).
  assert (direct_read b g = direct g) as Ed.
  { pose proof (go_head _ _ _ Hg) as Eh. unfold direct. destruct g as [|x g]; [done|]. simplify_eq/=. by rewrite Hb. }
  rewrite Ed. assert (waiting g = if direct g then [] else g) as Ew by done. rewrite Ew in Hnd |- *. destruct (direct g) eqn:Edg.
  - cbn [ret res_bind fst snd]. by apply IH.
  - destruct (Hpage eq_refl) as [Hpl Hsl]. unfold lift. rewrite (scatter_spec b page d (concat (waiting <$> gs)) g Hpl); [..|done].
    + cbn [res_bind fst snd]. apply IH. rewrite fmap_app in Hnd. by apply NoDup_app in Hnd as (_ & _ & ?).
    + destruct g as [|x g]; [by destruct Hg|]. destruct (go_reads _ _ _ Hg x) as (_ & _ & f & bf & Hok); [set_solver|]. by destruct (read_ok_bin _ _ _ _ Hok) as (_ & ? & _).
    + intros x Hx. split; [|by apply Hsl]. by destruct (go_reads _ _ _ Hg x Hx) as (_ & _ & ?).
Qed.

(** The groups of the sorted reads. *)
Lemma groups_ok (reads : list BatchGetDiskRead) : (forall r, r ∈ reads -> exists fid buf b, read_ok r fid buf b) ->
  forall g, g ∈ runs same_page (insertion_sort_by read_gt reads) -> exists b r, group_ok g b r.
Proof.
  intros Hok g Hg. pose proof (runs_nonempty _ _ _ Hg) as Hne. destruct g as [|r g]; [done|].
  assert (forall x, x ∈ r :: g -> x ∈ reads) as Hsub. { intros x Hx. rewrite <- (insertion_sort_by_perm read_gt reads). by eapply runs_elem. }
  destruct (Hok r) as (f & bf & b & Hr); [apply Hsub; set_solver|]. destruct (read_ok_bin _ _ _ _ Hr) as (Hb & _). exists b, r. split; [done..|].
  intros x Hx. assert ((dr_bin x, dr_page_id x) = (dr_bin r, dr_page_id r)) as [= E1 E2].
  { apply (runs_key same_page (fun x => (dr_bin x, dr_page_id x)) _ _ x r) in Hg; [done| |done|done]. intros a c [E1%Z.eqb_eq E2%Z.eqb_eq]%andb_true_iff. congruence. }
  split_and!; [done..|]. destruct (Hok x (Hsub x Hx)) as (f' & bf' & b' & Hx'). destruct (read_ok_bin _ _ _ _ Hx') as (Hb' & _). exists f', bf'. congruence.
Qed.

Lemma embs_left_nil : embs_left [] = zip_with (answer st m) fids embs.
Proof.
  apply list_eq. intros i. unfold embs_left. rewrite list_lookup_imap, !lookup_zip_with. destruct (fids !! i) as [f|]; [|done]. cbn [mbind option_bind]. by destruct (embs !! i).
Qed.

Variable junk : Z -> list Z.
Hypothesis Hjunk : forall n, 0 <= n -> zlen (junk n) = n.

Lemma submit_page_spec st' c rest g b r d : st ≡ st' -> initialized c = true -> group_ok g b r -> NoDup (req_idx <$> g ++ rest) ->
  exists c' p, initialized c' = true /\ errors c' = errors c /\ page_got g p /\
    submit_page junk c true (mkGetOut (embs_left (req_idx <$> g ++ rest)) d) g st' =
    Ret (c', mkGetOut (embs_left (req_idx <$> waiting g ++ rest)) d, p, GRAVELDB_OK, st').
Proof.
  intros Hs Hc Hg Hnd. destruct g as [|r' g]; [by destruct Hg|]. pose proof (go_head _ _ _ Hg) as Eh. simplify_eq/=. pose proof (go_bin _ _ _ Hg) as Hb.
  destruct (go_reads _ _ _ Hg r) as (_ & _ & fid & buf & Hok); [set_solver|]. destruct (read_ok_bin _ _ _ _ Hok) as (_ & Hr & He & Ha & Hz & f & Hf & Hib & Hin).
  destruct (get_bin_same st' _ _ Hs Hb) as (al & Eb). unfold submit_page. rewrite (bindM_ret _ _ _ _ _ Eb). cbv zeta.
  change (fd (set_allocator b al)) with (fd b). change (page_size (set_allocator b al)) with (page_size b). change (entry_size (set_allocator b al)) with (entry_size b).
  change (direct_read (set_allocator b al) (r :: g)) with (direct_read b (r :: g)).
  unfold waiting, direct. rewrite Hb. pose proof (rb_esz _ _ Hr) as Hesz. pose proof (rb_epp _ _ Hr). pose proof (rb_fit _ _ Hr).
  assert (0 <= dr_page_id r) by (rewrite (ro_page _ _ _ _ Hok); apply Z.div_pos; lia).
  destruct (direct_read b (r :: g)) eqn:Ed.
  - assert (g = [] /\ entries_per_page b = 1) as [-> Hone].
    { unfold direct_read in Ed. apply andb_true_iff in Ed as [E1%Z.eqb_eq E2%Z.eqb_eq]. split; [|done]. destruct g; [done|]. unfold zlen in E1. simpl in E1. lia. }
    pose proof (rb_slack _ _ Hr Hone) as Hsl. cbn [app fmap list_fmap out_embeddings]. cbn [app fmap list_fmap] in Hnd. apply NoDup_cons in Hnd as [Hni Hnd].
    assert (rd (embs_left (req_idx r :: (req_idx <$> rest))) (req_idx r) = Ret (Some buf)) as Erd.
    { apply rd_ret. split; [apply Hok|]. rewrite (embs_left_nth _ _ fid (Some buf)) by apply Hok. rewrite decide_True; [done|]. rewrite Z2Nat.id by apply Hok. set_solver. }
    unfold lift. unfold bindM at 1. rewrite Erd. cbn [res_bind fst snd]. unfold bindM at 1. cbn [deref res_bind fst snd].
    rewrite (bindM_ret _ _ _ _ _ (bindM_ret _ _ _ _ _ (on_sys_read _ st' _ Hs (read_quiet c b f (entry_size b) (dr_entry_id r * entry_size b) Hc Hf)))).
    assert (take (Z.to_nat (entry_size b)) (drop (Z.to_nat (dr_entry_id r * entry_size b)) f) = entry_at (gsys st) b (dr_entry_id r)) as ->.
    { rewrite <- (entry_on_file (gsys st) b f); rewrite ?Hone, ?Z.mod_1_r, ?Z.div_1_r, ?Hsl; [..|lia|done|].
      - rewrite Z.mul_0_l. change (Z.to_nat 0) with 0%nat. rewrite drop_0, take_take. f_equal. lia.
      - done.
      - rewrite (ro_page _ _ _ _ Hok), Hone, Z.div_1_r in Hib. done.
      - rewrite (ro_page _ _ _ _ Hok), Hone, Z.div_1_r in Hin. done. }
    unfold bindM. rewrite copy_out_ret by done. cbn [res_bind fst snd]. unfold set_out. cbn [out_embeddings out_dims].
    assert (0 <= req_idx r < zlen (embs_left (req_idx r :: (req_idx <$> rest)))) as Hrng by (by eapply rd_ret_range). rewrite wr_ret by done. cbn [res_bind fst snd].
    rewrite <- Ha. rewrite embs_left_fill; [|apply Hok|done|apply Hok..].
    eexists _, _. split_and!; [| | |done]; [done|done|]. split; [done|]. exists b, r, (entry_at (gsys st) b (dr_entry_id r) ++ drop (List.length (entry_at (gsys st) b (dr_entry_id r))) buf).
    split_and!; [done..|]. unfold direct. rewrite Hb, Ed. done.
  - rewrite (bindM_ret _ _ _ _ _ (on_sys_read _ st' _ Hs (sys_ok_quiet _ (rd_quiet _ _ Hdb)))). cbn [negb].
    rewrite (bindM_ret _ _ _ _ _ (bindM_ret _ _ _ _ _ (on_sys_read _ st' _ Hs (read_quiet c b f (page_size b) (dr_page_id r * page_size b) Hc Hf)))).
    set (page := take (Z.to_nat (page_size b)) (drop (Z.to_nat (dr_page_id r * page_size b)) f)).
    assert (zlen page = page_size b) as Hpl. { unfold page, zlen in *. rewrite length_take, length_drop. nia. }
    unfold bindM, lift. rewrite copy_out_ret by (rewrite Hjunk; lia). cbn [res_bind fst snd]. rewrite drop_ge by (pose proof (Hjunk (page_size b)); unfold zlen in *; lia). rewrite app_nil_r.
    eexists _, _. split_and!; [| | |done]; [done|done|]. split; [done|]. exists b, r, page. split_and!; [done..|]. intros _. split; [done|].
    intros x Hx. destruct (go_reads _ _ _ Hg x Hx) as (_ & Ep & fx & bx & Hokx). destruct (read_ok_bin _ _ _ _ Hokx) as (_ & _ & Hex & _ & _ & f' & Hf' & Hibx & Hinx).
    simplify_eq. unfold page. rewrite <- Ep. rewrite (ro_off _ _ _ _ Hokx). rewrite (ro_page _ _ _ _ Hokx) in *. apply entry_on_file; [done..|lia|done|done].
Qed.

Lemma submit_pages_spec st' d : st ≡ st' -> forall gs c pre, initialized c = true -> (forall g, g ∈ gs -> exists b r, group_ok g b r) ->
  NoDup (req_idx <$> pre ++ concat gs) ->
  exists c' ps, initialized c' = true /\ errors c' = errors c /\ Forall2 page_got gs ps /\
    submit_pages junk c true (mkGetOut (embs_left (req_idx <$> pre ++ concat gs)) d) GRAVELDB_OK gs st' =
    Ret (c', mkGetOut (embs_left (req_idx <$> pre ++ concat (waiting <$> gs))) d, ps, GRAVELDB_OK, st').
Proof.
  intros Hs gs. induction gs as [|g gs IH]; intros c pre Hc Hgs Hnd; [exists c, []; by split_and!|].
  destruct (Hgs g) as (b & r & Hg); [set_solver|]. cbn [concat] in Hnd. rewrite (embs_left_perm (req_idx <$> pre ++ concat (g :: gs)) (req_idx <$> g ++ pre ++ concat gs)).
  2: { intros x. cbn [concat]. rewrite !fmap_app. set_solver. }
  assert (req_idx <$> pre ++ g ++ concat gs ≡ₚ req_idx <$> g ++ pre ++ concat gs) as Hperm by (apply fmap_Permutation; rewrite Permutation_app_swap_app; done).
  rewrite Hperm in Hnd. destruct (submit_page_spec st' c (pre ++ concat gs) g b r d Hs Hc Hg Hnd) as (c1 & p & Hc1 & He1 & Hp & E1).
  cbn [submit_pages]. rewrite (bindM_ret _ _ _ _ _ E1). rewrite bool_decide_eq_true_2 by done.
  rewrite (embs_left_perm (req_idx <$> waiting g ++ pre ++ concat gs) (req_idx <$> (pre ++ waiting g) ++ concat gs)) by (intros x; rewrite !fmap_app; set_solver).
  destruct (IH c1 (pre ++ waiting g) Hc1) as (c2 & ps & Hc2 & He2 & Hps & E2).
  { intros g' Hg'. apply Hgs. set_solver. }
  { rewrite fmap_app in Hnd. apply NoDup_app in Hnd as (Hn1 & Hn2 & Hn3). unfold waiting. destruct (direct g); [by rewrite app_nil_r|]. rewrite <- app_assoc, Hperm, fmap_app. by apply NoDup_app. }
  rewrite (bindM_ret _ _ _ _ _ E2). exists c2, (p :: ps). split_and!; [done|congruence|by constructor|]. cbn [fmap list_fmap concat]. by rewrite <- app_assoc.
Qed.

End phase2.

End get.

(** ** The theorem *)

(** An allocation that is only made for a large batch. *)
Lemma maybe_alloc {P} (c : bool) (st : DbSt P) : answers (gsys st) = [] -> (if c then on_sys sys_ok else ret true) st = Ret (true, st) /\ (if c then ret true else on_sys sys_ok) st = Ret (true, st).
Proof. intros Ha. assert (on_sys (P := P) sys_ok st = Ret (true, st)) as E by (unfold on_sys; rewrite sys_ok_quiet by done; by destruct st). by destruct c. Qed.

(** The two phases of a batched read: the submission, after which each buffer is
    still untouched or already answered, and the poll that completes it. *)
Lemma batch_get_phases {P : Type} {pool : ObjectPool P} (junk : Z -> list Z) (st : DbSt P) (m : gmap Z (Z * Z))
    (fids : list Z) (embs : list (option (list Z))) (dims : option (list Z))
  (Hjunk : forall n, 0 <= n -> zlen (junk n) = n)
  (Hdb : read_db st m)
  (Hlen : List.length embs = List.length fids)
  (Hdims : dims_ok dims (zlen fids))
  (Hroom : Forall2 (room st m) fids embs) :
  exists st' ag left, st ≡ st' /\
    let d := (fun _ => dim_answer st m <$> fids) <$> dims in
    graveldb_batch_get_submit junk fids (mkGetOut embs dims) st = Ret (GRAVELDB_OK, ag, mkGetOut (embs_left st m fids embs left) d, st') /\
    graveldb_batch_get_poll ag (mkGetOut (embs_left st m fids embs left) d) st' = Ret (GRAVELDB_OK, None, mkGetOut (zip_with (answer st m) fids embs) d, st').
Proof.
  destruct (get_all_spec m fids st 0 [] embs dims [] Hdb eq_refl Hlen Hdims Hroom) as (st1 & S1 & E1).
  cbn [app take] in E1. rewrite (first_left _ _ _ _ Hlen) in E1. set (reads := disk_reads st m 0 fids embs) in *. set (d := _ <$> dims) in E1.
  assert (d = (fun _ => dim_answer st m <$> fids) <$> dims) as Hd by (unfold d; by destruct dims). clearbody d. rewrite <- Hd. cbv zeta.
  destruct (disk_reads_spec st m fids embs Hlen 0 fids embs) as (Hnd & Hok & _); [done..|]. fold reads in Hnd, Hok.
  unfold graveldb_batch_get_submit. pose proof (rd_quiet _ _ Hdb) as Hq.
  assert (answers (gsys st1) = []) as Hq1 by (by rewrite (sd_sys _ _ S1)).
  destruct fids as [|f0 fids0] eqn:Ef.
  { destruct embs; [|done]. injection E1 as Ed <-. exists st, None, []. rewrite <- Ed. split; [reflexivity|]. split; reflexivity. }
  rewrite <- Ef in *.
  rewrite (bindM_ret _ _ _ _ _ (proj1 (maybe_alloc (64 <? zlen fids) st Hq))). cbn [negb]. rewrite number_imap.
  rewrite (bindM_ret _ _ _ _ _ E1).
  destruct (Z.eqb_spec (zlen reads) 0) as [Ez|Ez].
  { assert (reads = []) as -> by (destruct reads; [done|]; unfold zlen in Ez; simpl in Ez; lia). exists st1, None, []. split; [done|].
    cbn [ret fmap list_fmap]. split; [done|]. unfold graveldb_batch_get_poll, ret. by rewrite embs_left_nil. }
  set (sorted := insertion_sort_by read_gt reads). pose proof (insertion_sort_by_perm read_gt reads) as Hperm. fold sorted in Hperm.
  rewrite (bindM_ret _ _ _ _ _ (proj1 (maybe_alloc (64 <? zlen sorted) st1 Hq1))). cbn [negb].
  rewrite (bindM_ret _ _ _ _ _ (proj1 (maybe_alloc true st1 Hq1))). cbn [negb].
  rewrite (bindM_ret _ _ _ _ _ (proj2 (maybe_alloc (64 <? zlen fids) st1 Hq1))). cbn [negb].
  rewrite (bindM_ret _ _ _ _ _ (proj2 (maybe_alloc (64 <? zlen sorted) st1 Hq1))). cbn [negb uring_io_init].
  change (0 =? 0) with true. cbv iota.
  assert (NoDup (req_idx <$> [] ++ concat (runs same_page sorted))) as Hnd'. { rewrite runs_concat. cbn [app]. by rewrite Hperm. }
  destruct (submit_pages_spec st m fids embs Hdb Hlen Hroom junk Hjunk st1 d S1 (runs same_page sorted) (mkUringIoCtx 0 0 true []) [] eq_refl) as (c & ps & Hc & He & Hps & E2); [|done|].
  { apply (groups_ok st m fids embs Hdb Hlen Hroom). intros r Hr. by apply Hok. }
  cbn [app] in E2. rewrite (runs_concat same_page sorted) in E2. rewrite (embs_left_perm st m fids embs (req_idx <$> sorted) (req_idx <$> reads)) in E2 by (intros x; by rewrite Hperm).
  rewrite (bindM_ret _ _ _ _ _ E2). eexists st1, _, _. split; [done|]. split; [reflexivity|].
  unfold graveldb_batch_get_poll. cbn [ag_use_uring ag_ctx page_reads ag_submit_rc]. unfold uring_io_poll. rewrite Hc. cbn [negb errors]. change (0 <? 0) with false. rewrite He. cbv iota. cbn [errors andb].
  change (0 <? 0) with false. cbv iota.
  assert (NoDup (req_idx <$> concat (waiting st <$> runs same_page sorted))) as Hnd2.
  { eapply sublist_NoDup; [exact Hnd'|]. cbn [app]. apply fmap_sublist. clear. induction (runs same_page sorted) as [|g gs IH]; [done|]. cbn [fmap list_fmap concat].
    apply sublist_app; [|done]. unfold waiting. destruct (direct st g); [apply sublist_nil_l|done]. }
  unfold bindM. rewrite (scatter_pages_spec st m fids embs Hdb Hlen Hroom st1 d S1 _ _ Hps Hnd2). cbn [res_bind fst snd ret].
  by rewrite (embs_left_nil _ _ _ _).
Qed.

(** The call is the two phases in a row. *)
Lemma batch_get_spec {P : Type} {pool : ObjectPool P} (junk : Z -> list Z) (st : DbSt P) (m : gmap Z (Z * Z))
    (fids : list Z) (embs : list (option (list Z))) (dims : option (list Z))
  (Hjunk : forall n, 0 <= n -> zlen (junk n) = n)
  (Hdb : read_db st m)
  (Hlen : List.length embs = List.length fids)
  (Hdims : dims_ok dims (zlen fids))
  (Hroom : Forall2 (room st m) fids embs) :
  exists st', st ≡ st' /\
    graveldb_batch_get junk fids (mkGetOut embs dims) st =
    Ret (GRAVELDB_OK, mkGetOut (zip_with (answer st m) fids embs) ((fun _ => dim_answer st m <$> fids) <$> dims), st').
Proof.
  destruct (batch_get_phases junk st m fids embs dims Hjunk Hdb Hlen Hdims Hroom) as (st' & ag & left & S' & Es & Ep).
  exists st'. split; [done|]. unfold graveldb_batch_get. rewrite (bindM_ret _ _ _ _ _ Es). rewrite bool_decide_eq_true_2 by done. cbn [negb poll_get].
  unfold bindM. rewrite Ep. cbn [res_bind fst snd]. by rewrite bool_decide_eq_false_2 by done.
Qed.

(** C3: a batched read is one lookup per feature. A database at rest stores the map [m] of features to
    entries: no call to the system fails, the index does not migrate, and every feature has an entry of a
    bin that is not in a checkpoint, whose page is in the bin's write buffer or in the file; a bin with
    one entry per page has entries as large as its pages (with slack behind a single entry the offset is
    wrong: [graveldb_get_wrong_offset] of EngineProps.v), while a bin with more entries per page may have
    slack. For any batch of ids, repeated and unknown ones included, and buffers that are [NULL] or have
    room for the embeddings, [graveldb_batch_get] returns OK; buffer [i] begins with the embedding of
    feature [i] and is untouched behind it or if the feature is unknown, dimension [i] is the one of the
    feature or 0, and the database is the same up to the copies of the allocator in its bins. *)
Theorem graveldb_batch_get_correct {P : Type} {pool : ObjectPool P} (junk : Z -> list Z) (st : DbSt P) (m : gmap Z (Z * Z))
    (fids : list Z) (embs : list (option (list Z))) (dims : option (list Z))
  (Hjunk : forall n, 0 <= n -> zlen (junk n) = n)
  (Hdb : read_db st m)
  (Hlen : List.length embs = List.length fids)
  (Hdims : dims_ok dims (zlen fids))
  (Hroom : Forall2 (room st m) fids embs) :
  exists st', st ≡ st' /\
    graveldb_batch_get junk fids (mkGetOut embs dims) st =
    Ret (GRAVELDB_OK, mkGetOut (zip_with (answer st m) fids embs) ((fun _ => dim_answer st m <$> fids) <$> dims), st').
Proof. by apply batch_get_spec. Qed.

(** ** Witness *)

(** One bin of four pages in its file; feature 5 is entry 7. *)
Definition get_reg : DimRegistry := mkDimRegistry DIM_REG_LINEAR 1 4 (Some [100]) (Some [mkDimRegEntry 1 0]) 4 None 0 0 0 0.
Definition get_st : DbSt (SlabPool * Mem) :=
  mkDbSt (mkGravelDB small_config get_reg index_16_5 0 (p0, m0) (snd uring_io_init) false idle_progress {[ 100 := put_bin ]}) (sys put_state).
Definition get_map : gmap Z (Z * Z) := {[ 5 := (0, 7) ]}.

Lemma get_st_ok : read_db get_st get_map.
Proof.
  split; [exact index_16_5_inv|done|done|]. intros fid v Hv. unfold get_map in Hv. apply lookup_singleton_Some in Hv as [<- <-]. exists 100, put_bin. split; [reflexivity|]. split; [reflexivity|]. split.
  - split; try done. exists no_pages. apply put_state_ok.
  - split; [done|]. intros _. exists (replicate 64 1). split; [reflexivity|]. vm_compute. congruence.
Qed.

Lemma stale_len n : 0 <= n -> zlen (stale n) = n.
Proof. intros H. unfold stale. rewrite zlen_replicate. lia. Qed.

Lemma graveldb_batch_get_correct_witness :
  exists st', get_st ≡ st' /\
    graveldb_batch_get stale [5; 6; 5] (mkGetOut [Some (replicate 6 0); Some [2]; None] (Some [7; 7; 7])) get_st =
    Ret (GRAVELDB_OK, mkGetOut [Some [1; 1; 1; 1; 0; 0]; Some [2]; None] (Some [1; 0; 1]), st').
Proof.
  apply (graveldb_batch_get_correct stale get_st get_map [5; 6; 5] [Some (replicate 6 0); Some [2]; None] (Some [7; 7; 7]) stale_len get_st_ok eq_refl eq_refl).
  repeat constructor. vm_compute. congruence.
Defined.
