(* ===== verification/EnginePut.v ===== *)
(** EnginePut: a batched write changes the features of the batch and no others.

    [graveldb_batch_put] of src/graveldb.c sorts the batch by dimension and, for each
    dimension, finds or takes an entry per feature, buffers the keys and writes the
    embeddings to the bin. Here it is shown to be an update of the map from features to
    embeddings that a reader sees, which [graveldb_batch_get] then reads (EngineGet.v). *)

From Stdlib Require Import String.
From S2P Require Import Prelude LinearProbe Wire SlabAlloc Overlay DirtyTracker KeyBTree HashIndex DimRegistry IoBatch PageMap DimBin BinKeys BinFlush BinOps BinPut BinStore Engine EngineProps EngineGet.

#[local] Arguments file_write : simpl never.

(** ** An index with room *)

(** An index for [m] that is not migrating and takes [n] more keys without growing. *)
Definition index_room (idx : HashIndex) (m : gmap Z (Z * Z)) (n : Z) : Prop :=
  hi_inv idx m /\ hi_old_slots idx = None /\ 4 <= hi_capacity idx <= 2 ^ 29 /\ 10 * (hi_count idx + n) <= 7 * hi_capacity idx.

Lemma hash_put_room ok idx m n k d e : index_room idx m n -> 1 <= n -> k <> 0 ->
  exists idx', hash_index_put ok idx k d e = Ret (GRAVELDB_OK, idx') /\ index_room idx' (<[k := (d, e)]> m) (n - 1).
Proof.
  intros (Hi & Ho & Hc & Hr) Hn Hk. destruct (hash_index_put_spec ok idx m k d e Hi (proj2 Hc) Hk) as (idx1 & Hs & Hp).
  unfold rehash_step in Hs. rewrite Ho in Hs. injection Hs as <-. destruct Hp as (rc & idx' & E & Hp); [by apply not_lost_settled|].
  pose proof Hi as [_ (new & _ & Ht & Hcap & _ & _ & _ & Hold)]. rewrite Ho in Hold. destruct Hold as [Hcnt _].
  pose proof (countb_nonneg occ new) as Hc0. pose proof E as E'.
  unfold hash_index_put, rehash_step in E. rewrite (proj2 (Z.eqb_neq _ _)) in E by done. rewrite Ho in E. cbn [res_bind] in E. rewrite Ho in E.
  rewrite !u32_id, (proj2 (Z.ltb_ge _ _)) in E by lia. rewrite bool_decide_eq_true_2 in E by done. cbn [negb] in E.
  assert (rc = GRAVELDB_OK /\ hi_old_slots idx' = None /\ hi_capacity idx' = hi_capacity idx /\ hi_count idx' <= hi_count idx + 1) as (-> & Ho' & Hc' & Hn').
  { unfold put_at, probe_old in E. rewrite Ho in E. destruct (deref (hi_slots idx)) as [sl| |]; [|done..]. cbn [res_bind] in E.
    destruct (probe _ _ _ _ _ _) as [r| |]; [|done..]. cbn [res_bind] in E.
    destruct r as [h|h|h]; cbn [res_bind] in E; (destruct (wr sl h _) as [sl'| |]; [|done..]); cbn [res_bind] in E; injection E as <- <-; simpl;
      rewrite ?u32_id by lia; split_and!; done || lia. }
  exists idx'. split; [done|]. destruct Hp as [(_ & Hi' & _)|([=] & _)]. split; [done|]. split; [done|]. lia.
Qed.

(** ** The order of a batch *)

(** An insertion sort keeps the order of elements that it does not have to exchange. *)
Lemma insertion_sort_stable {A} (p : A -> bool) (gt : A -> A -> bool) (l : list A) :
  (forall x y, x ∈ l -> y ∈ l -> p x = true -> p y = true -> gt x y = false) ->
  List.filter p (insertion_sort_by gt l) = List.filter p l.
Proof.
  intros H. unfold insertion_sort_by.
  assert (forall e d, (forall x, x ∈ d -> p x = true -> p e = true -> gt x e = false) ->
    List.filter p (insert_last gt e d) = if p e then e :: List.filter p d else List.filter p d) as Hins.
  { intros e d Hd. induction d as [|x d IH]; [by simpl; destruct (p e)|]. simpl. destruct (gt x e) eqn:Eg.
    - simpl. rewrite IH by (intros; apply Hd; set_solver). destruct (p e) eqn:Ee, (p x) eqn:Ex; try done. rewrite Hd in Eg; [done|set_solver|done|done].
    - simpl. by destruct (p e). }
  assert (forall k d, (forall x, x ∈ k -> x ∈ l) -> (forall x, x ∈ d -> x ∈ l) ->
    List.filter p (foldl (fun done e => insert_last gt e done) d k) = reverse (List.filter p k) ++ List.filter p d) as Hf.
  { induction k as [|e k IH]; intros d Hk Hd; [done|]. cbn [foldl]. rewrite IH; [|intros; apply Hk; set_solver|].
    2: { intros x. rewrite insert_last_perm. intros [->|Hx]%elem_of_cons; [apply Hk; set_solver|by apply Hd]. }
    rewrite Hins by (intros x Hx; apply H; [by apply Hd|apply Hk; set_solver]). simpl. destruct (p e); [|done]. by rewrite reverse_cons, <- app_assoc. }
  assert (forall k, List.filter p (reverse k) = reverse (List.filter p k)) as Hrev.
  { induction k as [|x k IH]; [done|]. rewrite reverse_cons, List.filter_app, IH. simpl. destruct (p x); [by rewrite reverse_cons|by rewrite app_nil_r]. }
  rewrite Hrev, (Hf l []) by (done || by intros x ?%elem_of_nil). simpl. by rewrite app_nil_r, reverse_involutive.
Qed.

Lemma insertion_sort_by_sorted {A} (key : A -> Z) (l : list A) :
  StronglySorted (fun a b => key a <= key b) (insertion_sort_by (fun a b => key b <? key a) l).
Proof.
  unfold insertion_sort_by. apply sorted_reverse. set (R := flip (fun a b : A => key a <= key b)).
  assert (forall e d, StronglySorted R d -> StronglySorted R (insert_last (fun a b => key b <? key a) e d)) as Hins.
  { intros e d. induction 1 as [|x d Hs IH Hall]; [repeat constructor|]. simpl. destruct (Z.ltb_spec (key e) (key x)).
    - constructor; [done|]. apply Forall_forall. intros y. rewrite insert_last_perm. rewrite Forall_forall in Hall.
      intros [->|Hy]%elem_of_cons; [unfold R, flip; lia|by apply Hall].
    - constructor; [by constructor|]. rewrite Forall_forall in *. intros y [->|Hy]%elem_of_cons; [unfold R, flip; lia|]. specialize (Hall y Hy). unfold R, flip in *. lia. }
  assert (forall d, StronglySorted R d -> StronglySorted R (foldl (fun done e => insert_last (fun a b => key b <? key a) e done) d l)) as Hf; [|apply Hf; constructor].
  induction l as [|e l IH]; intros d Hd; [done|]. simpl. by apply IH, Hins.
Qed.

(** The last request for a feature. *)
Definition last_req (l : list PutReq) (fid : Z) : option PutReq := last (List.filter (fun r => pr_feat r =? fid) l).

Lemma last_req_app l1 l2 fid : last_req (l1 ++ l2) fid = match last_req l2 fid with Some r => Some r | None => last_req l1 fid end.
Proof. unfold last_req. rewrite List.filter_app. apply last_app. Qed.

Lemma last_req_elem l fid r : last_req l fid = Some r -> r ∈ l /\ pr_feat r = fid.
Proof. intros H%last_Some_elem_of. apply list_elem_of_In, List.filter_In in H as [H%list_elem_of_In E%Z.eqb_eq]. done. Qed.

(** Sorting by dimension keeps it, when a feature is given one dimension only. *)
Lemma last_req_sorted l fid : (forall r r', r ∈ l -> r' ∈ l -> pr_feat r = pr_feat r' -> pr_dim r = pr_dim r') ->
  last_req (insertion_sort_by (fun a b => pr_dim b <? pr_dim a) l) fid = last_req l fid.
Proof.
  intros H. unfold last_req. f_equal. apply insertion_sort_stable. intros x y Hx Hy Ex%Z.eqb_eq Ey%Z.eqb_eq. rewrite (H x y) by congruence. apply Z.ltb_irrefl.
Qed.

Section put.
Context {P : Type} `{!ObjectPool P}.
Implicit Types (st : DbSt P) (b : DimBin P) (y : Sys).

(** ** One bin of a database *)

(** The bin [b] of the database, with the allocator that the database has. *)
Definition binst st b : BinSt P := mkBinSt (set_allocator b (Some (allocator (gdb st)))) (gsys st).

(** A database in which the bin at [addr] was changed, and the index. *)
Definition rebin st addr (bs : BinSt P) : DbSt P := mkDbSt (set_bins (gdb st) (allocator (gdb st)) (<[addr := bin bs]> (bin_heap (gdb st)))) (sys bs).

Lemma with_bin_step {A} st addr b (m : M (BinSt P) A) a bs :
  bin_heap (gdb st) !! addr = Some b -> m (binst st b) = Ret (a, bs) -> DimBin.allocator (bin bs) = Some (allocator (gdb st)) ->
  with_bin addr m st = Ret (a, rebin st addr bs).
Proof. intros Hb Em Ha. unfold with_bin. rewrite Hb. cbn [deref res_bind]. unfold binst in Em. rewrite Em. cbn [res_bind fst snd]. by rewrite Ha. Qed.

Lemma binst_rebin st addr bs : DimBin.allocator (bin bs) = Some (allocator (gdb st)) -> binst (rebin st addr bs) (bin bs) = bs.
Proof. intros Ha. unfold binst, rebin. cbn [gdb gsys allocator set_bins]. rewrite <- Ha. by destruct bs as [[] ?]. Qed.

(** A feature is entered in an index with room. *)
Lemma index_put_room st m n fid d e : answers (gsys st) = [] -> index_room (index (gdb st)) m n -> 1 <= n -> fid <> 0 ->
  exists idx, index_put fid d e st = Ret (GRAVELDB_OK, mkDbSt (set_index (gdb st) idx) (gsys st)) /\ index_room idx (<[fid := (d, e)]> m) (n - 1).
Proof.
  intros Hq Hx Hn Hf. destruct (hash_put_room true (index (gdb st)) m n fid d e Hx Hn Hf) as (idx & E & Hx'). exists idx. split; [|done].
  unfold index_put. assert (on_sys sys_ok st = Ret (true, st)) as Es by (unfold on_sys; rewrite sys_ok_quiet by done; by destruct st).
  rewrite (bindM_ret _ _ _ _ _ Es). unfold get_db, gets, bindM. cbn [res_bind fst snd]. rewrite E. done.
Qed.

(** Only the bin at [addr] and the index differ. *)
Record db_kept st st' addr : Prop := {
  dk_rest : gdb st' = set_index (set_bins (gdb st) (allocator (gdb st)) (bin_heap (gdb st'))) (index (gdb st'));
  dk_heap : forall a, a <> addr -> bin_heap (gdb st') !! a = bin_heap (gdb st) !! a
}.
Lemma db_kept_refl st addr : db_kept st st addr.
Proof. split; [|done]. by destruct st as [[] ?]. Qed.
Lemma db_kept_trans st st1 st2 addr : db_kept st st1 addr -> db_kept st1 st2 addr -> db_kept st st2 addr.
Proof. intros [A1 A2] [B1 B2]. split; [rewrite B1, A1; done|]. intros a Ha. by rewrite B2, A2. Qed.
Lemma db_kept_rebin st addr bs : db_kept st (rebin st addr bs) addr.
Proof. split; [by destruct st as [[] ?]|]. intros a Ha. simpl. by rewrite lookup_insert_ne. Qed.
Lemma db_kept_index st addr idx : db_kept st (mkDbSt (set_index (gdb st) idx) (gsys st)) addr.
Proof. split; [by destruct st as [[] ?]|done]. Qed.
Lemma db_kept_alloc st st' addr : db_kept st st' addr -> allocator (gdb st') = allocator (gdb st) /\ dim_reg (gdb st') = dim_reg (gdb st).
Proof. intros [-> _]. done. Qed.

(** ** The entries of a group *)

Section group.
Variables (others : Z -> Prop) (theirs : gmap Z (list Z)).
Variables (di addr : Z) (sl : list PageSlot) (f : list Z).
Hypothesis Hdi : u16 di = di.

(** The bin of a group and the index while its entries are found: there is room for [n]
    more features, and the files were grown for [c] of them. *)
Record group_inv st (m : gmap Z (Z * Z)) b (n c : Z) : Prop := {
  gi_index : index_room (index (gdb st)) m n;
  gi_quiet : answers (gsys st) = [];
  gi_bin : bin_heap (gdb st) !! addr = Some b;
  gi_ready : bin_ready others theirs all_pages (binst st b) sl f n;
  gi_res : reserved (binst st b) c;
  gi_uses : uses (binst st b) (fun e => exists fid, m !! fid = Some (di, e));
  gi_inj : forall f1 f2 e, m !! f1 = Some (di, e) -> m !! f2 = Some (di, e) -> f1 = f2
}.

Record group_step st b st' b' : Prop := {
  gs_kept : db_kept st st' addr;
  gs_grew : grew (binst st b) f (binst st' b') f
}.
Lemma group_step_refl st b : group_step st b st b.
Proof. split; [apply db_kept_refl|apply grew_refl]. Qed.
Lemma group_step_trans st b st1 b1 st2 b2 : group_step st b st1 b1 -> group_step st1 b1 st2 b2 -> group_step st b st2 b2.
Proof. intros [] []. split; [by eapply db_kept_trans|by eapply grew_trans]. Qed.

(** An operation of the bin that a reader does not see. *)
Lemma group_bin {A} st b (mm : M (BinSt P) A) a bs :
  bin_heap (gdb st) !! addr = Some b -> mm (binst st b) = Ret (a, bs) -> grew (binst st b) f bs f ->
  exists st', with_bin addr mm st = Ret (a, st') /\ group_step st b st' (bin bs) /\ binst st' (bin bs) = bs /\
    bin_heap (gdb st') !! addr = Some (bin bs) /\ index (gdb st') = index (gdb st).
Proof.
  intros Hb Em Hg. assert (DimBin.allocator (bin bs) = Some (allocator (gdb st))) as Ha by (rewrite (gw_alloc _ _ _ _ Hg); done).
  exists (rebin st addr bs). split; [by eapply with_bin_step|]. rewrite binst_rebin by done.
  split; [|split; [done|split; [|done]]]; [|by simpl; rewrite lookup_insert_eq].
  split; [apply db_kept_rebin|by rewrite binst_rebin].
Qed.

(** The feature has an entry of the bin, or gets one that nothing uses. *)
Lemma put_entry_spec st m b n c fid : group_inv st m b n c -> 1 <= c <= n -> fid <> 0 -> (forall v, m !! fid = Some v -> fst v = di) ->
  exists e st' b', put_entry di addr fid st = Ret (Some e, st') /\ group_step st b st' b' /\
    group_inv st' (<[fid := (di, e)]> m) b' (n - 1) (c - 1) /\ (forall v, m !! fid = Some v -> v = (di, e)).
Proof.
  intros [Hx Hq Hb Hr Hv Hu Hi] Hn Hf Hd. unfold put_entry. rewrite (bindM_ret _ _ _ _ _ (index_get_settled st m fid (proj1 Hx) (proj1 (proj2 Hx)))). rewrite Hdi.
  destruct (m !! fid) as [[d e]|] eqn:Em.
  - specialize (Hd _ eq_refl). simpl in Hd. subst d. rewrite Z.eqb_refl. exists e, st, b. split; [done|]. split; [apply group_step_refl|].
    split; [|by intros v [= <-]]. rewrite insert_id by done. split; try done.
    + destruct Hx as (? & ? & ? & ?). split; [done|]. split; [done|]. lia.
    + eapply bin_ready_le; [exact Hr|lia].
    + eapply reserved_le; [exact Hr|exact Hv|lia].
  - destruct (alloc_reserved_spec others theirs all_pages _ _ _ _ c _ Hr ltac:(lia) ltac:(eapply reserved_le; [exact Hr|exact Hv|lia]) ltac:(done) Hu) as (e & bs & Ea & G & R & V & S & Hne & He & U).
    destruct (group_bin st b _ e bs Hb Ea G) as (st1 & E1 & K1 & B1 & H1 & X1). rewrite (bindM_ret _ _ _ _ _ E1).
    assert (gsys st1 = gsys st) as Ey. { change (gsys st1) with (sys (binst st1 (bin bs))). by rewrite B1, S. }
    destruct (index_put_room st1 m n fid di e) as (idx' & Ei & Hx'); [by rewrite Ey|by rewrite X1|lia|done|]. rewrite (bindM_ret _ _ _ _ _ Ei). unfold ret. set (st2 := mkDbSt _ _). exists e, st2, (bin bs).
    assert (binst st2 (bin bs) = bs) as B2 by (rewrite <- B1; done).
    split; [done|]. split; [|split; [|done]].
    { eapply group_step_trans; [exact K1|]. split; [apply db_kept_index|]. rewrite B1, B2. apply grew_refl. }
    split; rewrite ?B2; try done.
    + by rewrite <- Ey in Hq.
    + intros x (g & Hg). apply U. apply lookup_insert_Some in Hg as [[_ [= ->]]|[_ Hg]]; [by left|right; eauto].
    + intros f1 f2 x H1' H2'. apply lookup_insert_Some in H1', H2'. destruct H1' as [[<- E1']|[? ?]], H2' as [[<- E2']|[? ?]]; simplify_eq; try done;
        [exfalso; apply Hne; by eexists|exfalso; apply Hne; by eexists|by eapply Hi].
Qed.

(** The entries of a group: every request gets the entry of its feature. *)
Definition placed (m : gmap Z (Z * Z)) (r : PutReq) (d : EmbWriteEntry) : Prop :=
  pr_emb r = Some (snd d) /\ m !! pr_feat r = Some (di, fst d).

Lemma put_group_entries_spec l : forall st m b n c rc,
  group_inv st m b n c -> zlen l <= c <= n ->
  (forall r, r ∈ l -> pr_feat r <> 0 /\ is_Some (pr_emb r) /\ forall v, m !! pr_feat r = Some v -> fst v = di) ->
  exists st' m' b' ds, put_group_entries di addr true l rc st = Ret (rc, ds, st') /\ group_step st b st' b' /\
    group_inv st' m' b' (n - zlen l) (c - zlen l) /\ Forall2 (placed m') l ds /\ m ⊆ m' /\
    (forall fid v, m' !! fid = Some v -> m !! fid = Some v \/ fst v = di /\ fid ∈ pr_feat <$> l).
Proof.
  induction l as [|r l IH]; intros st m b n c rc Hi Hn Hl.
  { exists st, m, b, []. rewrite !Z.sub_0_r. split; [done|]. split; [apply group_step_refl|]. split_and!; [done|constructor|done|auto]. }
  destruct (Hl r) as (Hf & [emb Ee] & Hd); [set_solver|]. assert (zlen (r :: l) = 1 + zlen l) as Hz by (unfold zlen; simpl; lia). pose proof (zlen_nonneg l).
  cbn [put_group_entries]. rewrite Ee. rewrite (proj2 (Z.eqb_neq _ _)) by done.
  destruct (put_entry_spec st m b n c (pr_feat r) Hi ltac:(lia) Hf Hd) as (e & st1 & b1 & E1 & G1 & I1 & Hv1). rewrite (bindM_ret _ _ _ _ _ E1).
  set (m1 := <[pr_feat r := (di, e)]> m) in *. assert (m1 !! pr_feat r = Some (di, e)) as Hm1 by apply lookup_insert_eq.
  assert (m ⊆ m1) as Hsub. { apply map_subseteq_spec. intros k v Hk. destruct (decide (k = pr_feat r)) as [->|Hne]; [rewrite Hm1; by rewrite (Hv1 v Hk)|unfold m1; by rewrite lookup_insert_ne]. }
  pose proof I1 as [Hx1 Hq1 Hb1 Hr1 Hs1 Hu1 Hj1]. destruct (Hu1 e) as [He _]; [eauto|].
  destruct (buf_key_spec others theirs all_pages _ _ _ _ e (pr_feat r) Hr1 He) as (bs & Ek & Gk & Rk & t & Bk).
  destruct (group_bin st1 b1 _ tt bs Hb1 Ek Gk) as (st2 & E2 & G2 & B2 & H2 & X2). rewrite (bindM_ret _ _ _ _ _ E2).
  assert (group_inv st2 m1 (bin bs) (n - 1) (c - 1)) as I2.
  { split; rewrite ?B2, ?X2; try done.
    - change (gsys st2) with (sys (binst st2 (bin bs))). rewrite B2, (gw_quiet _ _ _ _ Gk). done.
    - unfold reserved. by rewrite Bk.
    - intros x Hx. rewrite Bk. by apply Hu1. }
  destruct (IH st2 m1 (bin bs) (n - 1) (c - 1) rc I2 ltac:(lia)) as (st' & m' & b' & ds & E3 & G3 & I3 & F3 & S3 & D3).
  { intros r' Hr'. destruct (Hl r') as (? & ? & Hd'); [set_solver|]. split_and!; [done..|]. intros v [[_ <-]|[_ Hv]]%lookup_insert_Some; [done|by apply Hd']. }
  rewrite (bindM_ret _ _ _ _ _ E3). unfold ret. exists st', m', b', ((e, emb) :: ds). split; [done|].
  split; [eapply group_step_trans; [exact G1|]; by eapply group_step_trans|]. split; [replace (n - zlen (r :: l)) with (n - 1 - zlen l) by lia; by replace (c - zlen (r :: l)) with (c - 1 - zlen l) by lia|].
  split; [constructor; [split; [done|]; by eapply lookup_weaken|done]|]. split; [by etrans|].
  intros fid v Hv. destruct (D3 fid v Hv) as [[[<- <-]|[_ Hm]]%lookup_insert_Some|[? Hin]]; [right; split; [done|set_solver]|by left|right; split; [done|set_solver]].
Qed.

End group.

(** ** The other bins *)

(** The page buffers of a bin, in use and recycled. *)
Definition addrs b : list Z := (pdata <$> List.filter occ (default [] (wslots (write_buf b)))) ++ page_pool (write_buf b).
Definition others_of st addr (x : Z) : Prop := exists a b, a <> addr /\ bin_heap (gdb st) !! a = Some b /\ x ∈ addrs b.

(** What a bin needs of the system is as it was. *)
Record undisturbed y y' b : Prop := {
  ud_bufs : forall x, x ∈ addrs b -> bufs y' !! x = bufs y !! x;
  ud_file : files y' !! fd b = files y !! fd b;
  ud_key : is_Some (files y !! key_fd b) -> is_Some (files y' !! key_fd b);
  ud_quiet : answers y' = answers y
}.

Lemma buf_st_undisturbed y y' b sl : undisturbed y y' b -> buf_st (mkBinSt b y) sl -> buf_st (mkBinSt b y') sl.
Proof.
  intros [Hb _ _ _] [B1 B2 B3 B4 B5 B6 B7]. split; try done. simpl in *. intros x Hx. destruct (B7 x Hx) as (? & buf & E & Hz). split; [done|]. exists buf.
  rewrite Hb; [done|]. unfold addrs. rewrite B1. apply elem_of_app. left. apply list_elem_of_fmap_2. exact (proj1 (stored_filter _ _) Hx).
Qed.

Lemma readable_undisturbed y y' b : undisturbed y y' b -> readable y b -> readable y' b.
Proof. intros Hu [[sl Hb] ? ? ? ? ?]. split; try done. exists sl. by eapply buf_st_undisturbed. Qed.

Lemma located_undisturbed y y' b e : undisturbed y y' b -> located y b e -> located y' b e.
Proof. intros [_ Hf _ _] [He Hl]. split; [done|]. by rewrite Hf. Qed.

Lemma entry_undisturbed y y' b e : undisturbed y y' b -> readable y b -> 0 <= e < UINT32_MAX -> entry_at y' b e = entry_at y b e.
Proof.
  intros Hu Hr He. destruct (rb_buf _ _ Hr) as [sl Hb]. pose proof (page_of_bound b e ltac:(apply Hr) He) as Hpg.
  unfold entry_at, bin_entry, entry_of. apply list_fmap_ext. intros i r _. unfold page_view. simpl bin. simpl sys. rewrite (ud_file _ _ _ Hu).
  destruct (List.find _ _) as [x|] eqn:E; [|done]. rewrite (ud_bufs _ _ _ Hu); [done|]. apply List.find_some in E as [Hin%list_elem_of_In Ek%Z.eqb_eq].
  unfold addrs. apply elem_of_app. left. apply list_elem_of_fmap_2. apply (proj1 (stored_filter _ _)). split; [done|]. apply occ_true. simpl. unfold PAGE_SLOT_EMPTY. lia.
Qed.

(** A bin stays ready when another one changed, with what the allocator knows then. *)
Lemma bin_ready_undisturbed o t o' t' y y' b al al' sl f n :
  undisturbed y y' b -> bin_ready o t all_pages (mkBinSt (set_allocator b (Some al)) y) sl f n ->
  (exists A, pool_owns al' A /\ (forall a, a ∈ addrs b -> a ∈ A) /\ forall a, o' a -> a ∈ A /\ ~ (a ∈ addrs b)) ->
  (forall a, o' a -> bufs y' !! a = t' !! a) ->
  bin_ready o' t' all_pages (mkBinSt (set_allocator b (Some al')) y') sl f n.
Proof.
  intros Hu [R1 R2 R3 R4 R5 R6 R7 R8 R9 R10 R11 R12 R13 (kf & Hne & Hkf) R15] (A & Ho & Ha1 & Ha2) Ht.
  split; try done.
  - destruct R1 as [B H2 H3 H4 H5 H6 H7 H8 H9 H10 H11]. split; try done.
    + destruct B as [B1 B2 B3 B4 B5 B6 B7]. split; try done. intros x Hx. destruct (B7 x Hx) as (? & buf & E & Hz). split; [done|]. exists buf. simpl in *.
      rewrite (ud_bufs _ _ _ Hu); [done|]. unfold addrs. rewrite B1. apply elem_of_app. left. apply list_elem_of_fmap_2. exact (proj1 (stored_filter _ _) Hx).
    + simpl. rewrite (ud_quiet _ _ _ Hu). done.
    + simpl. rewrite (ud_file _ _ _ Hu). done.
    + assert (buf_addrs (mkBinSt (set_allocator b (Some al')) y') sl = addrs b) as E by (unfold buf_addrs, addrs; simpl; pose proof (bs_slots _ _ B) as Es; simpl in Es; by rewrite Es).
      exists al', A. rewrite E. by split_and!.
  - destruct (ud_key _ _ _ Hu) as [kf' Hk']; [by eexists|]. by exists kf'.
Qed.

(** ** One group of a batch *)

(** The last embedding that a list of requests gives to a feature. *)
Definition last_emb (l : list PutReq) (fid : Z) : option (list Z) :=
  foldl (fun acc r => if pr_feat r =? fid then pr_emb r else acc) None l.

Lemma last_emb_elem l fid :
  (exists r, r ∈ l /\ pr_feat r = fid /\ last_emb l fid = pr_emb r) \/ last_emb l fid = None /\ forall r, r ∈ l -> pr_feat r <> fid.
Proof.
  induction l as [|r l IH] using rev_ind; [right; split; [done|]; by intros r ?%elem_of_nil|]. unfold last_emb in *. rewrite foldl_app. cbn [foldl].
  destruct (Z.eqb_spec (pr_feat r) fid) as [E|E]; [left; exists r; split_and!; [set_solver|done|done]|].
  destruct IH as [(r' & Hr & IH)|[-> Hn]]; [left; exists r'; split; [set_solver|done]|right]. split; [done|].
  intros r' [Hr| ->%list_elem_of_singleton]%elem_of_app; [by apply Hn|done].
Qed.

Lemma put_entries_last di m' esz l ds fid e :
  Forall2 (placed di m') l ds -> (forall f1 f2 e, m' !! f1 = Some (di, e) -> m' !! f2 = Some (di, e) -> f1 = f2) ->
  m' !! fid = Some (di, e) -> put_entries esz ∅ ds !! e = take (Z.to_nat esz) <$> last_emb l fid.
Proof.
  intros HF Hinj He. unfold put_entries, last_emb.
  assert (forall (mp : gmap Z (list Z)) acc, mp !! e = take (Z.to_nat esz) <$> acc ->
    foldl (fun m (x : EmbWriteEntry) => <[fst x := take (Z.to_nat esz) (snd x)]> m) mp ds !! e =
    take (Z.to_nat esz) <$> foldl (fun acc r => if pr_feat r =? fid then pr_emb r else acc) acc l) as H; [|by apply H; rewrite lookup_empty].
  induction HF as [|r d l ds [Hr1 Hr2] HF IH]; intros mp acc Hm; [done|]. cbn [foldl]. apply IH. destruct (Z.eqb_spec (pr_feat r) fid) as [E|E].
  - rewrite E, He in Hr2. injection Hr2 as ->. rewrite lookup_insert_eq, Hr1. done.
  - rewrite lookup_insert_ne; [done|]. intros Ee. apply E. rewrite Ee in Hr2. by eapply Hinj.
Qed.

(** Two registries that look up the same. *)
Definition reg_like (r r' : DimRegistry) : Prop :=
  (forall R bs, reg_inv r R bs -> reg_inv r' R bs) /\ forall di, dim_registry_get_bin r' di = dim_registry_get_bin r di.

(** What the put of a group does: the bin [b] at [addr] becomes [b'], the map [m] becomes [m']. *)
Record group_effect st (m : gmap Z (Z * Z)) st' (m' : gmap Z (Z * Z)) (addr di n : Z) b b' (g : list PutReq) : Prop := {
  ge_reg : reg_like (dim_reg (gdb st)) (dim_reg (gdb st'));
  ge_heap : forall a, a <> addr -> bin_heap (gdb st') !! a = bin_heap (gdb st) !! a;
  ge_bin : bin_heap (gdb st') !! addr = Some b';
  ge_same : fd b' = fd b /\ key_fd b' = key_fd b /\ DimBin.dim b' = DimBin.dim b /\ entry_size b' = entry_size b;
  ge_index : index_room (index (gdb st')) m' n;
  ge_quiet : answers (gsys st') = [];
  ge_owned : exists A, pool_owns (allocator (gdb st')) A /\ (forall x, x ∈ addrs b' -> x ∈ A) /\
    forall x, others_of st addr x -> x ∈ A /\ ~ (x ∈ addrs b');
  ge_others : forall x, others_of st addr x -> bufs (gsys st') !! x = bufs (gsys st) !! x;
  ge_files : forall i, i <> fd b -> i <> key_fd b -> files (gsys st') !! i = files (gsys st) !! i;
  ge_key : is_Some (files (gsys st') !! key_fd b);
  ge_readable : readable (gsys st') b';
  ge_located : forall fid e, m' !! fid = Some (di, e) -> located (gsys st') b' e;
  ge_inj : forall f1 f2 e, m' !! f1 = Some (di, e) -> m' !! f2 = Some (di, e) -> f1 = f2;
  ge_sub : forall fid, is_Some (m !! fid) -> is_Some (m' !! fid);
  ge_new : forall fid v, m' !! fid = Some v -> m !! fid = Some v \/ fst v = di /\ fid ∈ pr_feat <$> g;
  ge_stored : forall r, r ∈ g -> exists e, m' !! pr_feat r = Some (di, e);
  ge_entries : forall fid e, m' !! fid = Some (di, e) ->
    entry_at (gsys st') b' e = default (entry_at (gsys st) b e) (last_emb g fid)
}.

(** The bin is ready for more. *)
Definition bin_more st (m : gmap Z (Z * Z)) (di addr n : Z) b : Prop :=
  exists sl f, bin_ready (others_of st addr) (bufs (gsys st)) all_pages (binst st b) sl f n /\ uses (binst st b) (fun e => exists fid, m !! fid = Some (di, e)).
(** With memory for the pages of the group, it is after the group. *)
Definition group_more st st' (m' : gmap Z (Z * Z)) (addr di n : Z) b' (g : list PutReq) : Prop :=
  forall k, pool_grants (length g + k) (allocator (gdb st)) -> pool_grants k (allocator (gdb st')) /\ bin_more st' m' di addr n b'.

(** A request for the bin [b]. *)
Definition request_for (m : gmap Z (Z * Z)) (di : Z) b (r : PutReq) : Prop :=
  pr_feat r <> 0 /\ (exists x, pr_emb r = Some x /\ zlen x = entry_size b) /\ forall v, m !! pr_feat r = Some v -> fst v = di.


(** The data file of a bin that is ready covers the pages of its entries. *)
Lemma ready_covers o t lo (bs : BinSt P) sl f n e : bin_ready o t lo bs sl f n -> 0 <= e < bump_ptr (bin bs) ->
  (e / entries_per_page (bin bs) + 1) * page_size (bin bs) <= zlen f.
Proof.
  intros Hr He. pose proof (br_data _ _ _ _ _ _ _ Hr) as (Hd & _ & k & Hk). pose proof (br_geo _ _ _ _ _ _ _ Hr) as Hg. pose proof (br_put _ _ _ _ _ _ _ Hr) as Hp.
  pose proof (ps_esz _ _ _ _ _ Hp) as H1. pose proof (ps_epp _ _ _ _ _ Hp) as H2. set (epp := entries_per_page (bin bs)) in *. set (esz := entry_size (bin bs)) in *.
  pose proof (Z.div_mod e epp ltac:(lia)) as Hdm. pose proof (Z.mod_pos_bound e epp ltac:(lia)) as Hm. set (q := e / epp) in *.
  assert (q * page_size (bin bs) < k * page_size (bin bs)) as Hlt by (rewrite Hg in *; nia).
  assert (q < k) by (eapply Z.mul_lt_mono_pos_r; [|exact Hlt]; nia). nia.
Qed.

(** The embeddings of a group go to its bin in one batch. *)
Lemma put_deferred_spec st addr b ds bs al :
  answers (gsys st) = [] -> bin_heap (gdb st) !! addr = Some b -> dimbin_put_batch ds (binst st b) = Ret (GRAVELDB_OK, bs) ->
  ds <> [] -> DimBin.allocator (bin bs) = Some al ->
  put_deferred addr ds GRAVELDB_OK st = Ret (GRAVELDB_OK, mkDbSt (set_bins (gdb st) al (<[addr := bin bs]> (bin_heap (gdb st)))) (sys bs)).
Proof.
  intros Hq Hb Eb Hne Hal. destruct ds as [|d ds]; [done|]. unfold put_deferred. unfold bindM at 1.
  assert (on_sys sys_ok st = Ret (true, st)) as -> by (unfold on_sys; rewrite sys_ok_quiet by done; by destruct st).
  cbn [res_bind fst snd]. unfold bindM, with_bin. rewrite Hb. cbn [deref res_bind]. unfold binst in Eb. rewrite Eb. cbn [res_bind fst snd].
  rewrite bool_decide_eq_true_2 by done. by rewrite Hal.
Qed.

(** The effect of the batch at the end of a group. *)
Lemma group_finish st m st2 m' addr di n c b b2 sl f f1 bs3 sl3 f3 al ds g :
  let o := others_of st addr in let t := bufs (gsys st) in
  db_kept st st2 addr -> grew (binst st b) f (binst st2 b2) f1 -> group_inv o t di addr sl f1 st2 m' b2 n c ->
  put_st o t (binst st b) sl f -> put_st o t bs3 sl3 f3 -> DimBin.allocator (bin bs3) = Some al ->
  put_post (binst st2 b2) sl f1 bs3 sl3 f3 (sort_by_page (entries_per_page (bin (binst st2 b2))) ds) ->
  put_buffered (binst st2 b2) bs3 sl3 (sort_by_page (entries_per_page (bin (binst st2 b2))) ds) -> bin_ready o t all_pages (binst st b) sl f (zlen g + n) ->
  Forall2 (placed di m') g ds -> m ⊆ m' -> (forall fid v, m' !! fid = Some v -> m !! fid = Some v \/ fst v = di /\ fid ∈ pr_feat <$> g) ->
  (forall r, r ∈ g -> request_for m di b r) ->
  let st' := mkDbSt (set_bins (gdb st2) al (<[addr := bin bs3]> (bin_heap (gdb st2)))) (sys bs3) in
  group_effect st m st' m' addr di n b (bin bs3) g /\ group_more st st' m' addr di n (bin bs3) g.
Proof.
  intros o t K G I2 P0 P3 Hal Q3 Hbf Hr0 F2 S2 D2 Hreq st'. pose proof I2 as [X2 Q2 H2 R2 V2 U2 J2].
  pose proof (pp_bin _ _ _ _ _ _ _ Q3) as T3. destruct (touched_const _ _ T3) as (C1 & C2 & C3 & C4 & C5 & C6 & C7).
  assert (key_fd (bin bs3) = key_fd b2 /\ DimBin.dim (bin bs3) = DimBin.dim b2 /\ in_checkpoint (bin bs3) = in_checkpoint b2) as (C8 & C9 & C10)
    by (destruct T3 as (? & ? & ? & ? & -> & _); done).
  pose proof (gw_fd _ _ _ _ G) as G1. pose proof (gw_key_fd _ _ _ _ G) as G2. pose proof (gw_dim _ _ _ _ G) as G3. pose proof (gw_esz _ _ _ _ G) as G4. simpl in G1, G2, G3, G4.
  destruct (ps_alloc _ _ _ _ _ P3) as (al' & A & Hal' & Hown & Hin & Hout). assert (al' = al) as -> by congruence.
  assert (buf_addrs bs3 sl3 = addrs (bin bs3)) as Ead by (unfold buf_addrs, addrs; by rewrite (bs_slots _ _ (ps_buf _ _ _ _ _ P3))).
  assert (mkBinSt (bin bs3) (sys bs3) = bs3) as Eta by (by destruct bs3).
  assert (files (sys bs3) = <[fd b := f3]> (files (gsys st2))) as Ef by (rewrite (pp_files _ _ _ _ _ _ _ Q3); simpl; by rewrite G1).
  destruct (br_key_file _ _ _ _ _ _ _ R2) as (kf & Hkne & Hkf). simpl in Hkne, Hkf.
  split; [split; unfold st'; cbn [gdb gsys set_bins set_index allocator bin_heap index dim_reg]; try done|].
  - rewrite (proj2 (db_kept_alloc _ _ _ K)). done.
  - intros a Ha. rewrite lookup_insert_ne by done. by apply K.
  - by rewrite lookup_insert_eq.
  - simpl in *. split_and!; congruence.
  - apply P3.
  - exists A. rewrite <- Ead. done.
  - apply P3.
  - intros i Hi1 Hi2. rewrite Ef, lookup_insert_ne by done. by apply (gw_files _ _ _ _ G).
  - rewrite Ef, lookup_insert_ne by congruence. rewrite <- G2. by eexists.
  - split.
    + exists sl3. rewrite Eta. apply P3.
    + rewrite C10. apply R2.
    + apply P3.
    + apply P3.
    + apply P3.
    + rewrite C2, C3, C4. intros E1. pose proof (br_geo _ _ _ _ _ _ _ R2) as Hgeo. simpl in *. rewrite E1 in Hgeo. lia.
  - intros fid e He. destruct (U2 e) as [Hlt _]; [by eexists|]. pose proof (br_bump _ _ _ _ _ _ _ R2) as Hb. unfold UINT32_MAX in *. split; [unfold UINT32_MAX; lia|].
    intros _. exists f3. split; [rewrite Ef, C1; simpl; by rewrite G1, lookup_insert_eq|]. rewrite C2, C4. pose proof (ready_covers _ _ _ _ _ _ _ e R2 Hlt). pose proof (pp_len _ _ _ _ _ _ _ Q3). lia.
  - intros fid [v Hv]. exists v. by eapply lookup_weaken.
  - intros r Hr. apply list_elem_of_lookup in Hr as [i Hi]. destruct (Forall2_lookup_l _ _ _ _ _ F2 Hi) as (d & _ & [_ Hd]). by eexists.
  - intros fid e He. destruct (U2 e) as [Hlt _]; [by eexists|]. pose proof (br_bump _ _ _ _ _ _ _ R2) as Hb.
    unfold entry_at at 1. rewrite Eta. rewrite (put_post_entry _ _ _ _ _ _ _ _ _ Q3) by (unfold UINT32_MAX in *; lia).
    rewrite (put_entries_last di m' _ g ds fid e F2 J2 He). rewrite (bin_entry_grew _ _ _ _ _ _ _ e P0 G).
    change (bin_entry (binst st b) e) with (entry_at (gsys st) b e). destruct (last_emb g fid) as [x|] eqn:El; [|done]. cbn.
    destruct (last_emb_elem g fid) as [[r (Hr & _ & Er)]|[Hn _]]; [|congruence]. destruct (Hreq r Hr) as (_ & (x' & Ex & Hx') & _).
    assert (x' = x) as -> by congruence. rewrite G4, <- Hx'. unfold zlen. by rewrite Nat2Z.id, firstn_all.
  - intros k Hk. set (l := sort_by_page _ ds) in *.
    assert (zlen l = zlen g) as Hl by (unfold l; rewrite sort_by_page_len; unfold zlen; f_equal; symmetry; by eapply Forall2_length).
    assert (grants (binst st2 b2) (length l + k)) as Hg.
    { intros al' [= <-]. rewrite (proj1 (db_kept_alloc _ _ _ K)). by replace (length l) with (length g) by (unfold zlen in Hl; lia). }
    assert (binst st' (bin bs3) = bs3) as Eb by (unfold binst, st'; cbn [gdb gsys allocator set_bins]; rewrite <- Hal; by destruct bs3 as [[] ?]).
    destruct (Hbf k Hg) as [Hg' _]. split; [by apply Hg'|]. exists sl3, f3. rewrite Eb. split.
    + apply (bin_ready_others o _ t _ all_pages); [intros x (a & b4 & Ha & Hc & Hx); exists a, b4; split_and!; [done| |done]; unfold st' in Hc; simpl in Hc; rewrite lookup_insert_ne in Hc by done; by rewrite <- (dk_heap _ _ _ K)| |done|].
      { intros x (a & b4 & Ha & Hc & Hx). change (bufs (gsys st')) with (bufs (sys bs3)). apply P3. exists a, b4. split_and!; [done| |done]. unfold st' in Hc. simpl in Hc. rewrite lookup_insert_ne in Hc by done. by rewrite <- (dk_heap _ _ _ K). }
      eapply (bin_ready_put o t all_pages (binst st2 b2) sl f1 n bs3 sl3 f3 l k R2 P3 Q3 Hbf Hg); rewrite ?(gw_dirty _ _ _ _ G), ?(gw_buf _ _ _ _ G), Hl; apply Hr0.
    + intros e He. destruct (U2 e He) as [H1' H2']. destruct T3 as (? & ? & ? & ? & -> & _). done.
Qed.

(** The three steps of a group. *)
Lemma group_put st m addr di n b sl f g :
  u16 di = di -> g <> [] -> 0 <= n ->
  index_room (index (gdb st)) m (zlen g + n) -> answers (gsys st) = [] -> bin_heap (gdb st) !! addr = Some b ->
  bin_ready (others_of st addr) (bufs (gsys st)) all_pages (binst st b) sl f (zlen g + n) ->
  uses (binst st b) (fun e => exists fid, m !! fid = Some (di, e)) ->
  (forall f1 f2 e, m !! f1 = Some (di, e) -> m !! f2 = Some (di, e) -> f1 = f2) ->
  (forall r, r ∈ g -> request_for m di b r) ->
  exists st1 st2 ds st' m' b', with_bin addr (dimbin_reserve (zlen g)) st = Ret (tt, st1) /\
    put_group_entries di addr true g GRAVELDB_OK st1 = Ret (GRAVELDB_OK, ds, st2) /\
    put_deferred addr ds GRAVELDB_OK st2 = Ret (GRAVELDB_OK, st') /\ group_effect st m st' m' addr di n b b' g /\ group_more st st' m' addr di n b' g.
Proof.
  intros Hdi Hg Hn Hx Hq Hb Hr Hu Hi Hreq. pose proof (zlen_nonneg g) as Hz.
  destruct (reserve_spec _ _ _ _ _ _ _ (zlen g) Hr ltac:(lia)) as (bs1 & f1 & E1 & G1 & R1 & V1 & B1 & F1).
  assert (DimBin.allocator (bin bs1) = Some (allocator (gdb st))) as Ha1 by (rewrite (gw_alloc _ _ _ _ G1); done).
  pose proof (with_bin_step st addr b _ tt bs1 Hb E1 Ha1) as W1. set (st1 := rebin st addr bs1) in *.
  pose proof (binst_rebin st addr bs1 Ha1) as Hbs1. fold st1 in Hbs1.
  assert (group_inv (others_of st addr) (bufs (gsys st)) di addr sl f1 st1 m (bin bs1) (zlen g + n) (zlen g)) as I1.
  { split; rewrite ?Hbs1; try done.
    - change (gsys st1) with (sys bs1). by rewrite (gw_quiet _ _ _ _ G1).
    - simpl. by rewrite lookup_insert_eq.
    - intros e He. rewrite B1, F1. by apply Hu. }
  destruct (put_group_entries_spec _ _ di addr sl f1 Hdi g st1 m (bin bs1) (zlen g + n) (zlen g) GRAVELDB_OK I1 ltac:(lia)) as (st2 & m' & b2 & ds & E2 & [K2 G2] & I2 & F2 & S2 & D2).
  { intros r Hr'. destruct (Hreq r Hr') as (? & (x & ? & _) & ?). split_and!; [done|by eexists|done]. }
  replace (zlen g + n - zlen g) with n in I2 by lia. pose proof I2 as [X2 Q2 H2 R2 V2 U2 J2].
  rewrite Hbs1 in G2. pose proof (grew_trans _ _ _ _ _ _ G1 G2) as G. set (bs2 := binst st2 b2) in *.
  pose proof (br_put _ _ _ _ _ _ _ Hr) as P0. pose proof (br_put _ _ _ _ _ _ _ R2) as P2.
  assert (zlen ds = zlen g) as Hds by (unfold zlen; f_equal; symmetry; by eapply Forall2_length).
  assert (entry_size (bin bs2) = entry_size b) as Hes by (rewrite (gw_esz _ _ _ _ G); done).
  assert (forall d, d ∈ ds -> 0 <= fst d < bump_ptr (bin bs2) /\ zlen (snd d) = entry_size b) as Hd.
  { intros d Hd. apply list_elem_of_lookup in Hd as [j Hj]. destruct (Forall2_lookup_r _ _ _ _ _ F2 Hj) as (r & Hin%list_elem_of_lookup_2 & [P1 P2']). destruct (Hreq r Hin) as (_ & (x & Ex & Hx') & _). split; [|congruence].
    destruct (U2 (fst d)) as [? _]; [by eexists|done]. }
  pose proof (br_bump _ _ _ _ _ _ _ R2) as Hbump.
  destruct (dimbin_put_batch_spec _ _ bs2 sl f1 ds P2) as (bs3 & sl3 & f3 & E3 & P3 & Q3 & Hbf); try apply R2;
    rewrite ?(gw_dirty _ _ _ _ G), ?(gw_buf _ _ _ _ G), ?Hds.
  { pose proof (br_segs _ _ _ _ _ _ _ Hr). lia. }
  { pose proof (br_max _ _ _ _ _ _ _ Hr). lia. }
  { pose proof (br_batch _ _ _ _ _ _ _ Hr). lia. }
  { intros d Hin. destruct (Hd d Hin) as [H1 H1']. split; [split; [unfold UINT32_MAX in *; lia|rewrite Hes; lia]|]. apply R2; [|done].
    apply Z.div_pos; [lia|]. pose proof (ps_epp _ _ _ _ _ P2). lia. }
  destruct (ps_alloc _ _ _ _ _ P3) as (al & A & Hal & Hown & Hin & Hout).
  assert (ds <> []) as Hne. { intros ->. destruct g; [done|]. unfold zlen in Hds. simpl in Hds. lia. }
  pose proof (put_deferred_spec st2 addr b2 ds bs3 al Q2 H2 E3 Hne Hal) as W3.
  eexists st1, st2, ds, _, m', (bin bs3). split; [done|]. split; [done|]. split; [exact W3|].
  eapply (group_finish st m st2 m' addr di n _ b b2 sl f f1 bs3 sl3 f3 al ds g); try done.
  eapply db_kept_trans; [apply db_kept_rebin|exact K2].
Qed.


(** ** Databases that are ready for writes *)

(** The bins have files and page buffers of their own, and the allocator knows the buffers. *)
Record bins_apart st : Prop := {
  ba_files : forall a1 b1 a2 b2, a1 <> a2 -> bin_heap (gdb st) !! a1 = Some b1 -> bin_heap (gdb st) !! a2 = Some b2 ->
    fd b1 <> fd b2 /\ key_fd b1 <> fd b2 /\ forall x, x ∈ addrs b1 -> ~ (x ∈ addrs b2);
  ba_owned : exists A, pool_owns (allocator (gdb st)) A /\ forall a b x, bin_heap (gdb st) !! a = Some b -> x ∈ addrs b -> x ∈ A
}.

(** The bin of a dimension: [R] maps the registered dimensions to their indexes. *)
Record bin_of (R : gmap Z Z) st (d di a : Z) b : Prop := {
  bo_reg : R !! d = Some di;
  bo_addr : dim_registry_get_bin (dim_reg (gdb st)) di = Ret a;
  bo_bin : bin_heap (gdb st) !! a = Some b;
  bo_dim : DimBin.dim b = d
}.

(** A database that stores [m] and has room for [n] more features of the dimensions in [D]. *)
Record put_db (R : gmap Z Z) st (m : gmap Z (Z * Z)) (n : Z) (D : Z -> Prop) : Prop := {
  pd_index : index_room (index (gdb st)) m n;
  pd_quiet : answers (gsys st) = [];
  pd_reg : exists bs, reg_inv (dim_reg (gdb st)) R bs;
  pd_dims : forall d di, R !! d = Some di -> exists a b, bin_of R st d di a b;
  pd_apart : bins_apart st;
  pd_entry : forall fid di e, m !! fid = Some (di, e) ->
    exists d a b, bin_of R st d di a b /\ readable (gsys st) b /\ located (gsys st) b e;
  pd_inj : forall f1 f2 v, m !! f1 = Some v -> m !! f2 = Some v -> f1 = f2;
  pd_ready : forall d di a b, bin_of R st d di a b -> D d ->
    exists sl f, bin_ready (others_of st a) (bufs (gsys st)) all_pages (binst st b) sl f n /\ uses (binst st b) (fun e => exists fid, m !! fid = Some (di, e))
}.

Lemma put_db_read R st m n D : put_db R st m n D -> read_db st m.
Proof.
  intros [(Hi & Ho & _) Hq _ _ _ He _ _]. split; [done..|]. intros fid [di e] Hv. destruct (He fid di e Hv) as (d & a & b & [_ Ha Hb _] & Hr & Hl).
  exists a, b. split_and!; try done. unfold locate. by rewrite Hv, Ha, Hb.
Qed.

(** Two dimensions have different bins. *)
Lemma bin_of_ne R st d di a b d' di' a' b' : bin_of R st d di a b -> bin_of R st d' di' a' b' -> (d <> d' \/ di <> di') -> a <> a'.
Proof. intros [H1 H2 H3 H4] [H1' H2' H3' H4'] Hne ->. rewrite H3 in H3'. simplify_eq. destruct Hne; congruence. Qed.

Lemma effect_undisturbed st m st' m' addr di n b b' g a c :
  bins_apart st -> bin_heap (gdb st) !! addr = Some b -> answers (gsys st) = [] -> group_effect st m st' m' addr di n b b' g ->
  a <> addr -> bin_heap (gdb st) !! a = Some c -> undisturbed (gsys st) (gsys st') c.
Proof.
  intros [Hf _] Hb Hq He Ha Hc. destruct (Hf a c addr b Ha Hc Hb) as (F1 & F2 & _). destruct (Hf addr b a c ltac:(done) Hb Hc) as (_ & F3 & _). split.
  - intros x Hx. apply (ge_others _ _ _ _ _ _ _ _ _ _ He). by exists a, c.
  - apply (ge_files _ _ _ _ _ _ _ _ _ _ He); congruence.
  - intros Hk. destruct (decide (key_fd c = key_fd b)) as [->|Hne]; [apply (ge_key _ _ _ _ _ _ _ _ _ _ He)|]. by rewrite (ge_files _ _ _ _ _ _ _ _ _ _ He).
  - by rewrite (ge_quiet _ _ _ _ _ _ _ _ _ _ He).
Qed.

Lemma effect_apart st m st' m' addr di n b b' g : bins_apart st -> bin_heap (gdb st) !! addr = Some b -> group_effect st m st' m' addr di n b b' g -> bins_apart st'.
Proof.
  intros [Hf (A0 & Ho0 & Hi0)] Hb He. destruct (ge_same _ _ _ _ _ _ _ _ _ _ He) as (S1 & S2 & _). pose proof (ge_bin _ _ _ _ _ _ _ _ _ _ He) as Hb'.
  destruct (ge_owned _ _ _ _ _ _ _ _ _ _ He) as (A & Ho & Hi & Hx). pose proof (ge_heap _ _ _ _ _ _ _ _ _ _ He) as Hh. split.
  - intros a1 b1 a2 b2 Hne H1 H2. destruct (decide (a1 = addr)) as [->|N1]; [|destruct (decide (a2 = addr)) as [->|N2]].
    + rewrite Hh in H2 by done. simplify_eq. destruct (Hf addr b a2 b2) as (F1 & F2 & F3); [done..|]. rewrite S1, S2. split; [done|]. split; [done|].
      intros x H1' H2'. destruct (Hx x) as [_ Hn]; [by exists a2, b2|done].
    + rewrite Hh in H1 by done. simplify_eq. destruct (Hf a1 b1 addr b) as (F1 & F2 & F3); [done..|]. rewrite S1. split; [done|]. split; [done|].
      intros x H1' H2'. destruct (Hx x) as [_ Hn]; [by exists a1, b1|done].
    + rewrite Hh in H1, H2 by done. by apply (Hf a1 b1 a2 b2).
  - exists A. split; [done|]. intros a c x Hc Hxc. destruct (decide (a = addr)) as [->|N]; [simplify_eq; by apply Hi|].
    rewrite Hh in Hc by done. apply (Hx x). by exists a, c.
Qed.


(** After a group the database is ready for the other dimensions. *)
Lemma effect_db R st m n D st' m' d di addr b b' g : let k := zlen g in
  put_db R st m (k + n) D -> 0 <= n -> bin_of R st d di addr b -> group_effect st m st' m' addr di n b b' g ->
  put_db R st' m' n (fun x => D x /\ x <> d) /\ bin_of R st' d di addr b'.
Proof.
  intros k Hdb Hn Hbo He. pose proof Hdb as [Hx Hq (bs & Hreg) Hd Hap Hen Hj Hr]. pose proof He as [[E1 E1'] E2 E3 E4 E5 E6 E7 E8 E9 E10 E11 E12 E13 E14 E15 E16 E17].
  pose proof (bo_bin _ _ _ _ _ _ Hbo) as Hb. pose proof (effect_apart _ _ _ _ _ _ _ _ _ _ Hap Hb He) as Hap'.
  assert (bin_of R st' d di addr b') as Hbo' by (destruct Hbo; split; rewrite ?E1'; try done; destruct E4 as (_ & _ & -> & _); done). split; [|done].
  assert (forall d' di' a c, bin_of R st d' di' a c -> a <> addr -> bin_of R st' d' di' a c) as Hkeep.
  { intros d' di' a c [H1 H2 H3 H4] Ha. split; rewrite ?E1', ?E2; done. }
  assert (forall a c, a <> addr -> bin_heap (gdb st) !! a = Some c -> undisturbed (gsys st) (gsys st') c) as Hud by (intros a c Ha Hc; exact (effect_undisturbed _ _ _ _ _ _ _ _ _ _ _ _ Hap Hb Hq He Ha Hc)).
  split; [done|done|by exists bs; apply E1| |done| | |].
  - intros d' di' Hd'. destruct (Hd d' di' Hd') as (a & c & Hc). destruct (decide (a = addr)) as [->|Ha]; [|by exists a, c; apply Hkeep].
    exists addr, b'. assert (d' = d) as -> by (destruct Hc, Hbo; congruence). assert (di' = di) as -> by (destruct Hbo; congruence). done.
  - intros fid di' e Hm. destruct (decide (di' = di)) as [->|Hdi].
    + exists d, addr, b'. split_and!; [done..|]. by eapply E12.
    + destruct (E15 _ _ Hm) as [Hm'|[Hf _]]; [|done]. destruct (Hen fid di' e Hm') as (d' & a & c & Hc & R1 & R2). pose proof (bin_of_ne _ _ _ _ _ _ _ _ _ _ Hc Hbo ltac:(by right)) as Ha.
      pose proof (Hud a c Ha ltac:(apply Hc)) as U. exists d', a, c. split; [by apply Hkeep|]. split; [by eapply readable_undisturbed|by eapply located_undisturbed].
  - intros f1 f2 [di' e] H1 H2. destruct (decide (di' = di)) as [->|Hdi]; [by eapply E13|].
    destruct (E15 _ _ H1) as [H1'|[? _]]; [|done]. destruct (E15 _ _ H2) as [H2'|[? _]]; [|done]. by eapply Hj.
  - intros d' di' a c Hc [HD Hne]. pose proof (bin_of_ne _ _ _ _ _ _ _ _ _ _ Hc Hbo' ltac:(by left)) as Ha.
    assert (bin_of R st d' di' a c) as Hc0 by (destruct Hc as [A1 A2 A3 A4]; split; [done|by rewrite <- E1'|by rewrite <- E2|done]).
    assert (di' <> di) as Hdi. { intros ->. apply Ha. destruct Hc0, Hbo. congruence. }
    destruct (Hr d' di' a c Hc0 HD) as (sl & f & Hrd & Hus). exists sl, f. split; [|].
    + apply (bin_ready_le _ _ _ _ _ _ (k + n) n); [|pose proof (zlen_nonneg g); unfold k; lia]. destruct Hap' as [F' (A & Ho & Hi)].
      eapply (bin_ready_undisturbed _ _ _ _ (gsys st)); [by apply (Hud a), Hc0|exact Hrd| |done].
      exists A. split; [done|]. split; [intros x Hx'; eapply Hi; [apply Hc|done]|]. intros x (a2 & b2 & Ha2 & Hb2 & Hx2). split; [by eapply Hi|].
      intros Hx3. destruct (F' a2 b2 a c Ha2 Hb2 ltac:(apply Hc)) as (_ & _ & F). by apply (F x).
    + intros e (fid & Hm). destruct (E15 _ _ Hm) as [Hm'|[? _]]; [|done]. by apply Hus; exists fid.
Qed.

(** A feature is found where it was, with the embedding that the group gives it or the old one. *)
Lemma effect_feature R st m n0 n D st' m' d di addr b b' g fid :
  put_db R st m n0 D -> bin_of R st d di addr b -> group_effect st m st' m' addr di n b b' g -> (forall r, r ∈ g -> is_Some (pr_emb r)) ->
  feature st' m' fid = match last_emb g fid with Some x => Some (d, x) | None => feature st m fid end.
Proof.
  intros Hdb Hbo He Hs. pose proof He as [[E1 E1'] E2 E3 E4 E5 E6 E7 E8 E9 E10 E11 E12 E13 E14 E15 E16 E17].
  pose proof Hbo as [B1 B2 B3 B4]. destruct E4 as (_ & _ & Ed & _).
  assert (forall e, m' !! fid = Some (di, e) -> feature st' m' fid = Some (d, default (entry_at (gsys st) b e) (last_emb g fid))) as Hin.
  { intros e Hm. unfold feature, locate. rewrite Hm, E1', B2, E3. cbn. rewrite (E17 fid e Hm). congruence. }
  destruct (last_emb_elem g fid) as [(r & Hr & Ef & El)|[El Hno]].
  - destruct (E16 r Hr) as (e & Hm). rewrite Ef in Hm. rewrite (Hin e Hm). destruct (Hs r Hr) as [x Ex]. rewrite El, Ex. done.
  - rewrite El. destruct (m' !! fid) as [[di' e]|] eqn:Em'.
    + assert (m !! fid = Some (di', e)) as Em. { destruct (E15 _ _ Em') as [?|[_ Hf]]; [done|]. apply list_elem_of_fmap in Hf as (r & -> & Hr). by destruct (Hno r Hr). }
      destruct (decide (di' = di)) as [->|Hdi].
      * rewrite (Hin e eq_refl), El. cbn. unfold feature, locate. rewrite Em, B2, B3. cbn. by rewrite B4.
      * destruct (pd_entry _ _ _ _ _ Hdb fid di' e Em) as (d' & a & c & Hc & R1 & R2). pose proof (bin_of_ne _ _ _ _ _ _ _ _ _ _ Hc Hbo ltac:(by right)) as Ha.
        pose proof Hc as [C1 C2 C3 C4]. unfold feature, locate. rewrite Em', Em, E1', C2, E2, C3 by done. cbn. do 2 f_equal.
        apply entry_undisturbed; [|done|apply R2]. eapply effect_undisturbed; [apply Hdb|exact B3|apply Hdb|exact He|exact Ha|done].
    + unfold feature, locate. rewrite Em'. destruct (m !! fid) as [v|] eqn:Em; [|done]. destruct (E14 fid); [by eexists|congruence].
Qed.


(** ** Batches *)

Lemma last_emb_req l fid : last_emb l fid = last_req l fid ≫= pr_emb.
Proof.
  induction l as [|r l IH] using rev_ind; [done|]. unfold last_emb in *. rewrite foldl_app, last_req_app. cbn [foldl]. unfold last_req at 1. simpl.
  destruct (pr_feat r =? fid); [done|apply IH].
Qed.

(** An embedding has the size of the entries of its dimension. *)
Definition fits (R : gmap Z Z) st (d : Z) (x : list Z) : Prop := exists di a b, bin_of R st d di a b /\ zlen x = entry_size b.

(** A request that the database can take: of a registered dimension, and of the one that the
    feature has if it is stored. *)
Record request_ok (R : gmap Z Z) st m (D : Z -> Prop) (r : PutReq) : Prop := {
  rq_feat : pr_feat r <> 0;
  rq_dim : D (pr_dim r);
  rq_emb : exists x, pr_emb r = Some x /\ fits R st (pr_dim r) x;
  rq_same : forall d x, feature st m (pr_feat r) = Some (d, x) -> d = pr_dim r
}.

(** The features after a batch. *)
Definition put_features (l : list PutReq) (c : Z -> option (Z * list Z)) (fid : Z) : option (Z * list Z) :=
  match last_req l fid with Some r => Some (pr_dim r, default [] (pr_emb r)) | None => c fid end.

Lemma put_features_app l1 l2 c fid : put_features (l1 ++ l2) c fid = put_features l2 (put_features l1 c) fid.
Proof. unfold put_features. rewrite last_req_app. by destruct (last_req l2 fid). Qed.
Lemma put_features_ext l c c' fid : c fid = c' fid -> put_features l c fid = put_features l c' fid.
Proof. intros E. unfold put_features. by rewrite E. Qed.

Lemma request_group R st m n D d di addr b r : put_db R st m n D -> bin_of R st d di addr b -> request_ok R st m D r -> pr_dim r = d -> request_for m di b r.
Proof.
  intros Hdb [B1 B2 B3 B4] [Q1 Q2 (x & Q3 & di' & a' & b' & [B1' B2' B3' B4'] & Hx) Q4] Ed. rewrite Ed in *.
  assert (di' = di) as -> by congruence. assert (a' = addr) as -> by congruence. assert (b' = b) as -> by congruence. split; [done|]. split; [by exists x|].
  intros [dj e] Hm. destruct (pd_entry _ _ _ _ _ Hdb _ _ _ Hm) as (d' & a & c & [C1 C2 C3 C4] & _). specialize (Q4 d' (entry_at (gsys st) c e)).
  rewrite Q4 in C1; [simpl; congruence|]. unfold feature, locate. rewrite Hm, C2, C3. cbn. by rewrite C4.
Qed.

(** The dimension's bin is found, and nothing that matters changes. *)
Lemma resolve_bin_spec R st m n D d di addr b : put_db R st m n D -> bin_of R st d di addr b ->
  exists st', resolve_bin d st = Ret (inr (di, addr), st') /\ put_db R st' m n D /\ bin_of R st' d di addr b /\ u16 di = di /\
    (forall fid, feature st' m fid = feature st m fid) /\ (forall d' di' a' b', bin_of R st d' di' a' b' -> bin_of R st' d' di' a' b') /\
    allocator (gdb st') = allocator (gdb st).
Proof.
  intros Hdb Hbo. pose proof Hdb as [Hx Hq (bs & Hreg) Hd Hap Hen Hj Hr]. pose proof (ri_dom _ _ _ Hreg d di (bo_reg _ _ _ _ _ _ Hbo)) as [Hd0 Hdi].
  assert (u16 di = di) as Hu. { apply u16_id. pose proof (ri_cap _ _ _ Hreg) as [Hc ?]. pose proof (u16_cap_range _ Hc). lia. }
  unfold resolve_bin, get_db, gets. unfold bindM at 1. cbn [res_bind fst snd]. rewrite (find_spec _ R bs d Hreg Hd0). rewrite (bo_reg _ _ _ _ _ _ Hbo). cbn [default from_option id].
  unfold bindM at 1. cbn [lift res_bind fst snd]. unfold upd_db, modify. unfold bindM at 1. cbn [res_bind fst snd]. set (st' := mkDbSt _ _).
  assert (forall d' di' a' b', bin_of R st d' di' a' b' <-> bin_of R st' d' di' a' b') as Hbo' by (intros; split; intros []; by split).
  rewrite (proj2 (Z.ltb_ge _ _)) by lia. rewrite Hu. unfold bin_addr, get_db, gets, bindM. cbn [res_bind fst snd].
  change (dim_registry_get_bin (dim_reg (gdb st')) di) with (dim_registry_get_bin (dim_reg (gdb st)) di). rewrite (bo_addr _ _ _ _ _ _ Hbo). cbn [lift res_bind fst snd ret].
  exists st'. split; [done|]. split; [|split; [by apply Hbo'|split; [done|split; [done|split; [intros; by apply Hbo'|done]]]]].
  split; try done.
  - exists bs. by apply bump_inv.
  - intros d' di' H'. destruct (Hd d' di' H') as (a & c & Hc). exists a, c. by apply Hbo'.
  - destruct Hap. by split.
  - intros fid di' e Hm. destruct (Hen fid di' e Hm) as (d' & a & c & Hc & ?). exists d', a, c. split; [by apply Hbo'|done].
  - intros d' di' a c Hc HD. apply Hbo' in Hc. exact (Hr d' di' a c Hc HD).
Qed.


Lemma put_db_weaken R st m n (D D' : Z -> Prop) : (forall x, D' x -> D x) -> put_db R st m n D -> put_db R st m n D'.
Proof. intros H []. split; try done. intros. eauto. Qed.

(** A bin that is ready is one of those that are. *)
Lemma put_db_add R st m n (D : Z -> Prop) d di addr b (G : Prop) : put_db R st m n (fun x => D x /\ x <> d) -> bin_of R st d di addr b -> (G -> bin_more st m di addr n b) ->
  put_db R st m n (fun x => D x /\ (x <> d \/ G)).
Proof.
  intros [] Hbo Hm. split; try done. intros d' di' a c Hc [HD HG]. destruct (decide (d' = d)) as [->|Hne]; [|eauto].
  destruct HG as [?|HG]; [done|]. assert (di' = di) as -> by (destruct Hc, Hbo; congruence). assert (a = addr) as -> by (destruct Hc, Hbo; congruence).
  assert (c = b) as -> by (destruct Hc, Hbo; congruence). by apply Hm.
Qed.

Lemma effect_bin_of R st m st' m' addr di n b b' g d' di' a c :
  group_effect st m st' m' addr di n b b' g -> bin_of R st d' di' a c -> a <> addr -> bin_of R st' d' di' a c.
Proof. intros He [H1 H2 H3 H4] Ha. split; [done|by rewrite (proj2 (ge_reg _ _ _ _ _ _ _ _ _ _ He))|by rewrite (ge_heap _ _ _ _ _ _ _ _ _ _ He)|done]. Qed.

Lemma effect_put_features R st m n0 n D st' m' d di addr b b' g fid :
  put_db R st m n0 D -> bin_of R st d di addr b -> group_effect st m st' m' addr di n b b' g ->
  (forall r, r ∈ g -> pr_dim r = d /\ is_Some (pr_emb r)) -> feature st' m' fid = put_features g (feature st m) fid.
Proof.
  intros Hdb Hbo He Hg. rewrite (effect_feature R st m n0 n D st' m' d di addr b b' g fid Hdb Hbo He) by (intros; by apply Hg).
  rewrite last_emb_req. unfold put_features. destruct (last_req g fid) as [r|] eqn:El; [|done]. apply last_req_elem in El as [Hr _]. destruct (Hg r Hr) as [Ed [x Ex]]. cbn. by rewrite Ex, Ed.
Qed.

Definition group_dim (g : list PutReq) : Z := match g with x :: _ => pr_dim x | [] => 0 end.

(** One group: [st0] is the database after the dimension was looked up. *)
Lemma put_group_spec R g st m n D :
  put_db R st m (zlen g + n) D -> 0 <= n -> g <> [] -> (forall r, r ∈ g -> pr_dim r = group_dim g) -> (forall r, r ∈ g -> request_ok R st m D r) ->
  exists st' m', (forall groups, put_dim_groups (g :: groups) GRAVELDB_OK st = put_dim_groups groups GRAVELDB_OK st') /\
    put_db R st' m' n (fun x => D x /\ (x <> group_dim g \/ pool_grants (length g) (allocator (gdb st)))) /\
    (forall k, pool_grants (length g + k) (allocator (gdb st)) -> pool_grants k (allocator (gdb st'))) /\ (forall fid, feature st' m' fid = put_features g (feature st m) fid) /\
    (forall d x, fits R st d x -> fits R st' d x).
Proof.
  intros Hdb Hn Hne Hd Hok. assert (exists r0, r0 ∈ g) as [r0 Hr0] by (destruct g as [|r0 ?]; [done|]; exists r0; set_solver). set (d := group_dim g) in *.
  destruct (rq_emb _ _ _ _ _ (Hok r0 Hr0)) as (x0 & _ & di & addr & b & Hbo & _). rewrite (Hd r0 Hr0) in Hbo.
  destruct (resolve_bin_spec _ _ _ _ _ _ _ _ _ Hdb Hbo) as (st0 & E0 & Hdb0 & Hbo0 & Hdi & Hf0 & Hb0 & Hal0).
  assert (forall r, r ∈ g -> request_for m di b r) as Hreq by (intros r Hr; exact (request_group R st m _ D d di addr b r Hdb Hbo (Hok r Hr) (Hd r Hr))).
  assert (D d) as HD by (rewrite <- (Hd r0 Hr0); apply (Hok r0 Hr0)).
  destruct (pd_ready _ _ _ _ _ Hdb0 d di addr b Hbo0 HD) as (sl & f & Hrd & Hus).
  destruct (group_put st0 m addr di n b sl f g Hdi Hne Hn) as (st1 & st2 & ds & st' & m' & b' & E1 & E2 & E3 & He & Hmore); try done; try apply Hdb0; [apply Hbo0|intros f1 f2 e; apply (pd_inj _ _ _ _ _ Hdb0)|].
  exists st', m'. split.
  { intros groups. cbn [put_dim_groups]. change (match g with x :: _ => pr_dim x | [] => 0 end) with d. rewrite (bindM_ret _ _ _ _ _ E0).
    unfold bindM at 1. assert (on_sys sys_ok st0 = Ret (true, st0)) as -> by (unfold on_sys; rewrite sys_ok_quiet by apply Hdb0; by destruct st0).
    cbn [res_bind fst snd]. rewrite (bindM_ret _ _ _ _ _ E1). rewrite (bindM_ret _ _ _ _ _ E2). by rewrite (bindM_ret _ _ _ _ _ E3). }
  destruct (effect_db R st0 m n D st' m' d di addr b b' g Hdb0 Hn Hbo0 He) as [Hdb' Hbo'].
  rewrite <- Hal0. split; [apply (put_db_add R st' m' n D d di addr b' _ Hdb' Hbo'); intros Hk; apply (Hmore 0%nat); by rewrite Nat.add_0_r|]. split; [intros k Hk; by apply Hmore|]. split.
  - intros fid. rewrite (effect_put_features R st0 m _ n D st' m' d di addr b b' g fid Hdb0 Hbo0 He); [by apply put_features_ext|].
    intros r Hr. split; [by apply Hd|]. destruct (rq_emb _ _ _ _ _ (Hok r Hr)) as (x & -> & _). by eexists.
  - intros d' x (di' & a & c & Hc & Hx). apply Hb0 in Hc. destruct (decide (d' = d)) as [->|Hd'].
    + destruct (ge_same _ _ _ _ _ _ _ _ _ _ He) as (_ & _ & Ed & Ee). pose proof Hbo0 as [B1 B2 B3 B4]. exists di, addr, b'.
      assert (c = b) as -> by (destruct Hc; congruence). rewrite Ee. split; [|done].
      done.
    + exists di', a, c. split; [|done]. eapply effect_bin_of; [exact He|exact Hc|]. eapply bin_of_ne; [exact Hc|exact Hbo0|by left].
Qed.

Lemma put_dim_groups_spec R groups : forall st m n D,
  put_db R st m (zlen (concat groups) + n) D -> 0 <= n -> NoDup (group_dim <$> groups) ->
  (forall g, g ∈ groups -> g <> [] /\ forall r, r ∈ g -> pr_dim r = group_dim g) ->
  (forall r, r ∈ concat groups -> request_ok R st m D r) ->
  (forall r r', r ∈ concat groups -> r' ∈ concat groups -> pr_feat r = pr_feat r' -> pr_dim r = pr_dim r') ->
  exists st' m', put_dim_groups groups GRAVELDB_OK st = Ret (GRAVELDB_OK, st') /\
    put_db R st' m' n (fun x => D x /\ (~ (x ∈ group_dim <$> groups) \/ pool_grants (length (concat groups)) (allocator (gdb st)))) /\
    (forall k, pool_grants (length (concat groups) + k) (allocator (gdb st)) -> pool_grants k (allocator (gdb st'))) /\
    (forall d x, fits R st d x -> fits R st' d x) /\ forall fid, feature st' m' fid = put_features (concat groups) (feature st m) fid.
Proof.
  induction groups as [|g groups IH]; intros st m n D Hdb Hn Hnd Hg Hok Hcons.
  { exists st, m. split; [done|]. split; [|done]. eapply put_db_weaken; [|exact Hdb]. by intros x [? _]. }
  cbn [concat] in *. rewrite length_app. rewrite zlen_app, <- Z.add_assoc in Hdb. rewrite fmap_cons in Hnd. apply NoDup_cons in Hnd as [Hni Hnd]. destruct (Hg g) as [Hne Hd]; [set_solver|].
  pose proof (zlen_nonneg (concat groups)) as Hz.
  destruct (put_group_spec R g st m (zlen (concat groups) + n) D Hdb ltac:(lia) Hne Hd) as (st1 & m1 & E1 & Hdb1 & Hg1 & Hf1 & Hfit).
  { intros r Hr. apply Hok. set_solver. }
  destruct (IH st1 m1 n _ Hdb1 Hn Hnd) as (st' & m' & E2 & Hdb2 & Hg2 & Hfit2 & Hf2).
  { intros g' Hg'. apply Hg. set_solver. }
  2: { intros r r' Hr Hr'. apply Hcons; set_solver. }
  { intros r Hr. assert (pr_dim r <> group_dim g) as Hrd.
    { apply list_elem_of_In, in_concat in Hr as (g' & Hg'%list_elem_of_In & Hr%list_elem_of_In). destruct (Hg g') as [_ Hd']; [set_solver|]. rewrite (Hd' r Hr). intros E. apply Hni. rewrite <- E. by apply list_elem_of_fmap_2. }
    destruct (Hok r) as [Q1 Q2 (x & Q3 & Q3') Q4]; [set_solver|]. split; [done|split; [done|by left]|exists x; split; [done|by apply Hfit]|].
    intros d' y. rewrite Hf1. unfold put_features. destruct (last_req g (pr_feat r)) as [r'|] eqn:El; [|apply Q4].
    apply last_req_elem in El as [Hr' Ef]. intros [= <- _]. apply Hcons; [set_solver|set_solver|done]. }
  exists st', m'. split; [by rewrite E1|]. split; [|split; [|split; [auto|]]].
  - eapply put_db_weaken; [|exact Hdb2]. intros x. rewrite fmap_cons, elem_of_cons. intros [HD [Hx|Hx]]; [split; [split; [done|left]|left]; tauto|].
    split; [split; [done|right; eapply pool_grants_le; [|exact Hx]; lia]|right; by apply Hg1].
  - intros k Hk. apply Hg2, Hg1. by rewrite Nat.add_assoc.
  - intros fid. rewrite Hf2, put_features_app. by apply put_features_ext.
Qed.


(** A batch that gives each feature one dimension. *)
Definition consistent (l : list PutReq) : Prop := forall r r', r ∈ l -> r' ∈ l -> pr_feat r = pr_feat r' -> pr_dim r = pr_dim r'.

Lemma batch_put_spec R st m n D reqs :
  put_db R st m (zlen reqs + n) D -> 0 <= n -> (forall r, r ∈ reqs -> request_ok R st m D r) -> consistent reqs ->
  exists st' m', graveldb_batch_put reqs st = Ret (GRAVELDB_OK, st') /\ 
    put_db R st' m' n (fun x => D x /\ (~ (x ∈ pr_dim <$> reqs) \/ pool_grants (length reqs) (allocator (gdb st)))) /\
    (forall k, pool_grants (length reqs + k) (allocator (gdb st)) -> pool_grants k (allocator (gdb st'))) /\
    (forall d x, fits R st d x -> fits R st' d x) /\ forall fid, feature st' m' fid = put_features reqs (feature st m) fid.
Proof.
  intros Hdb Hn Hok Hcons. destruct reqs as [|r0 reqs0] eqn:Er.
  { exists st, m. split; [done|]. split; [|done]. eapply put_db_weaken; [|exact Hdb]. by intros x [? _]. }
  rewrite <- Er in *. set (order := insertion_sort_by (fun r1 r2 => pr_dim r2 <? pr_dim r1) reqs).
  pose proof (insertion_sort_by_perm (fun r1 r2 => pr_dim r2 <? pr_dim r1) reqs) as Hperm. fold order in Hperm.
  set (groups := runs (fun r1 r2 => pr_dim r2 =? pr_dim r1) order). assert (concat groups = order) as Hc by apply runs_concat.
  assert (forall g, g ∈ groups -> g <> [] /\ forall r, r ∈ g -> pr_dim r = group_dim g) as Hg.
  { intros g Hg. pose proof (runs_nonempty _ _ _ Hg) as Hne. split; [done|]. intros r Hr. destruct g as [|x g]; [done|].
    apply (runs_key (fun r1 r2 => pr_dim r2 =? pr_dim r1) pr_dim order (x :: g) r x); [intros r1 r2; apply Z.eqb_eq|done..]. }
  destruct (put_dim_groups_spec R groups st m n D) as (st' & m' & E & Hdb' & Hgr & Hfit & Hf); rewrite ?Hc.
  - unfold zlen in *. by rewrite Hperm.
  - done.
  - apply (runs_keys_nodup pr_dim), insertion_sort_by_sorted.
  - done.
  - intros r. rewrite Hperm. apply Hok.
  - intros r r'. rewrite !Hperm. apply Hcons.
  - exists st', m'. split.
    { assert (graveldb_batch_put reqs = graveldb_batch_put (r0 :: reqs0)) as -> by (by rewrite Er). unfold graveldb_batch_put. rewrite <- Er. unfold bindM at 1.
      assert (on_sys sys_ok st = Ret (true, st)) as -> by (unfold on_sys; rewrite sys_ok_quiet by apply Hdb; by destruct st). exact E. }
    rewrite Hc in *. assert (length order = length reqs) as Hlo by (by rewrite Hperm). rewrite Hlo in *.
    split; [|split; [done|split; [done|]]; intros fid; rewrite Hf; unfold put_features; unfold order; by rewrite last_req_sorted].
    eapply put_db_weaken; [|exact Hdb']. intros x [HD [Hx|Hx]]; (split; [done|]); [left|by right]. intros (g & -> & Hg')%list_elem_of_fmap. apply Hx.
    destruct (Hg g Hg') as [Hne Hd]. destruct g as [|r g]; [done|]. apply list_elem_of_fmap. exists r. split; [done|]. rewrite <- Hperm, <- Hc.
    apply list_elem_of_In, in_concat. exists (r :: g). split; apply list_elem_of_In; [done|set_solver].
Qed.

End put.

(** Reads see writes. A database at rest with the registered dimensions [R], room for the
    batch and pages that can be loaded takes any batch of embeddings, new features and stored ones,
    repeated ones, of any of its dimensions in any order, if a feature keeps its dimension:
    [graveldb_batch_put] returns OK, and a [graveldb_batch_get] of any features, in buffers with
    room, then returns for each feature of the batch the last embedding that the batch gives it,
    with its dimension, and for every other feature what the database held before, in all bins. The
    database is ready for further batches of the other dimensions, and of all of them if there was
    memory for the pages. *)
Theorem graveldb_put_get_correct {P : Type} {pool : ObjectPool P} (R : gmap Z Z) (st : DbSt P) (m : gmap Z (Z * Z)) (n : Z) (D : Z -> Prop) (reqs : list PutReq)
  (Hdb : put_db R st m (zlen reqs + n) D)
  (Hn : 0 <= n)
  (Hok : forall r, r ∈ reqs -> request_ok R st m D r)
  (Hcons : consistent reqs) :
  exists st' m', graveldb_batch_put reqs st = Ret (GRAVELDB_OK, st') /\
    (forall fid, feature st' m' fid = put_features reqs (feature st m) fid) /\
    put_db R st' m' n (fun x => D x /\ (~ (x ∈ pr_dim <$> reqs) \/ pool_grants (length reqs) (allocator (gdb st)))) /\
    forall junk fids embs dims, (forall k, 0 <= k -> zlen (junk k) = k) -> List.length embs = List.length fids -> dims_ok dims (zlen fids) ->
      Forall2 (room st' m') fids embs ->
      exists st2, st' ≡ st2 /\ graveldb_batch_get junk fids (mkGetOut embs dims) st' =
        Ret (GRAVELDB_OK, mkGetOut (zip_with (answer st' m') fids embs) ((fun _ => dim_answer st' m' <$> fids) <$> dims), st2).
Proof.
  destruct (batch_put_spec R st m n D reqs Hdb Hn Hok Hcons) as (st' & m' & E & Hdb' & _ & _ & Hf). exists st', m'. split; [done|]. split; [done|]. split; [done|].
  intros junk fids embs dims Hj Hl Hd Hr. apply batch_get_spec; try done. by eapply put_db_read.
Qed.

(** ** Witness *)

(** A bin with pages of 16 bytes and nothing buffered. *)
Definition plain_bin (d esz epp f kf bump size ksize : Z) : DimBin (SlabPool * Mem) :=
  mkDimBin d 16 esz epp f kf None None bump (Some []) 1024 put_tracker (mkWriteBuffer (Some no_pages) 4 0 64 0 [] 0)
    t_empty zero_overlay false false 0 None bump 0 0 size ksize.

(** Dimension 1 has eight entries of one float in two pages, dimension 2 none; feature 5 is entry 7
    of the first. *)
Definition two_bin1 : DimBin (SlabPool * Mem) := plain_bin 1 4 4 3 4 8 64 64.
Definition two_bin2 : DimBin (SlabPool * Mem) := plain_bin 2 8 2 5 6 0 0 0.
Definition two_file : list Z := replicate 32 1 ++ replicate 32 0.
Definition two_sys : Sys := mkSys (<[3 := two_file]> (<[4 := replicate 64 0]> (<[5 := []]> (<[6 := []]> ∅)))) ∅ [] [] ∅.
Definition two_reg : DimRegistry := mkDimRegistry DIM_REG_LINEAR 2 8 (Some [100; 200]) (Some [mkDimRegEntry 1 0; mkDimRegEntry 2 1]) 8 None 0 0 0 0.
Definition two_dims : gmap Z Z := {[ 1 := 0; 2 := 1 ]}.
Definition two_st : DbSt (SlabPool * Mem) :=
  mkDbSt (mkGravelDB small_config two_reg index_16_5 0 (p0, m0) (snd uring_io_init) false idle_progress {[ 100 := two_bin1; 200 := two_bin2 ]}) two_sys.

Lemma plain_ready (o : Z -> Prop) (y : Sys) d esz epp f kf bump size ksize (c kc : list Z) n :
  (forall x, ~ o x) -> answers y = [] -> files y !! f = Some c -> files y !! kf = Some kc -> kf <> f ->
  16 = epp * esz -> 0 < esz -> 0 < epp -> 0 <= n <= 64 -> 0 <= bump <= 2 ^ 30 -> bump * esz <= size <= zlen c -> size <= 2 ^ 62 ->
  (exists k, size = k * 16) -> bump * 8 <= ksize <= 2 ^ 62 ->
  (forall pg, 0 <= pg -> page_ready (mkBinSt (plain_bin d esz epp f kf bump size ksize) y) no_pages c pg) ->
  bin_ready o (bufs y) all_pages (mkBinSt (set_allocator (plain_bin d esz epp f kf bump size ksize) (Some (p0, m0))) y) no_pages c n.
Proof.
  intros Ho Hq Hf Hkf Hne Hgeo He Hp Hn Hb Hs Hs2 Hk Hks Hpg. assert (esz <= 16 /\ epp <= 16) as [He16 Hp16] by nia. split; simpl; unfold GRAVELDB_MAX_FLUSH_BATCH, UINT32_MAX; try done; try lia.
  - split; simpl; try done; try nia.
    + split; simpl; try done; [apply pages_inv_empty; [by exists 2|lia|done]|]. intros x Hx. by apply stored_replicate in Hx.
    + exists (p0, m0), []. split; [done|]. split; [split; [apply p0_inv | apply p0_os]|]. split; [intros a Ha; by apply elem_of_nil in Ha|]. intros a Ha. by destruct (Ho a).
    + constructor.
    + intros a Ha. by apply elem_of_nil in Ha.
  - constructor; apply (wf_tree_empty 1); lia.
  - change (segment_count _) with 0. lia.
  - change (countb occ _) with 0. lia.
  - change (countb occ _) with 0. lia.
  - intros pg Hpg0 _. by apply Hpg.
  - exists []. split; [done|]. split; [constructor|]. split; [intros e He'; by apply elem_of_nil in He'|]. by vm_compute.
  - by exists kc.
  - exists ∅. split; [apply t_empty_inv|]. split; [vm_compute; split; congruence|]. intros k v. by rewrite lookup_empty.
Qed.

Lemma two_reg_inv : reg_inv two_reg two_dims [100; 200].
Proof.
  assert (u16_cap 8) as Hc by (exists 3; split; [lia|done]). split; try done; try (split; [done|vm_compute; congruence]).
  - intros d b. unfold two_dims. intros [[<- <-]|[_ [<- <-]%lookup_singleton_Some]]%lookup_insert_Some; vm_compute; split; [congruence|split; congruence|congruence|split; congruence].
  - eexists. split; [reflexivity|]. split; [done|]. simpl. split; [|lia]. split; [by apply (bool_decide_unpack _); vm_compute|].
    intros d b. unfold two_dims. rewrite !elem_of_cons, elem_of_nil. split.
    + intros [[= -> ->]|[[= -> ->]|[]]]; done.
    + intros [[<- <-]|[_ [<- <-]%lookup_singleton_Some]]%lookup_insert_Some; auto.
Qed.

Lemma two_bin_of d di : two_dims !! d = Some di ->
  (d = 1 /\ di = 0 \/ d = 2 /\ di = 1) /\ forall a b, bin_of two_dims two_st d di a b -> (a = 100 /\ b = two_bin1 /\ d = 1) \/ (a = 200 /\ b = two_bin2 /\ d = 2).
Proof.
  unfold two_dims at 1. intros [[<- <-]|[_ [<- <-]%lookup_singleton_Some]]%lookup_insert_Some; (split; [auto|]); intros a b [_ H2 H3 _]; vm_compute in H2; injection H2 as <-; vm_compute in H3; injection H3 as <-; auto.
Qed.

Lemma two_apart : bins_apart two_st.
Proof.
  split.
  - intros a1 b1 a2 b2 Hne H1 H2. simpl in H1, H2. apply lookup_insert_Some in H1, H2.
    destruct H1 as [[<- <-]|[_ [<- <-]%lookup_singleton_Some]], H2 as [[<- <-]|[_ [<- <-]%lookup_singleton_Some]]; try done;
      (split; [done|]); (split; [done|]); intros x Hx; by apply elem_of_nil in Hx.
  - exists []. split; [split; [apply p0_inv | apply p0_os]|]. intros a b x Hb Hx. simpl in Hb. apply lookup_insert_Some in Hb.
    destruct Hb as [[<- <-]|[_ [<- <-]%lookup_singleton_Some]]; by apply elem_of_nil in Hx.
Qed.

Lemma two_others a x : ~ others_of two_st a x.
Proof.
  intros (a' & b & _ & Hb & Hx). simpl in Hb. apply lookup_insert_Some in Hb. destruct Hb as [[<- <-]|[_ [<- <-]%lookup_singleton_Some]]; by apply elem_of_nil in Hx.
Qed.

Lemma two_file_zero k : 32 <= k -> file_byte two_file k = 0.
Proof.
  intros Hk. unfold file_byte, two_file. rewrite lookup_app_r by (rewrite length_replicate; lia).
  destruct (replicate 32 0 !! _) as [v|] eqn:E; [|done]. by apply lookup_replicate in E as [-> _].
Qed.

Lemma two_st_ok n : 0 <= n <= 8 -> put_db two_dims two_st {[ 5 := (0, 7) ]} n (fun _ => True).
Proof.
  intros Hn. assert (forall a b, bin_of two_dims two_st 1 0 a b -> a = 100 /\ b = two_bin1) as H1.
  { intros a b [_ H2 H3 _]. vm_compute in H2. injection H2 as <-. vm_compute in H3. by injection H3 as <-. }
  split.
  - split; [exact index_16_5_inv|]. split; [done|]. split; [vm_compute; split; congruence|]. change (hi_count (index (gdb two_st))) with 1. change (hi_capacity (index (gdb two_st))) with 16. lia.
  - done.
  - exists [100; 200]. exact two_reg_inv.
  - intros d di Hd. destruct (two_bin_of d di Hd) as [[[-> ->]|[-> ->]] _]; [exists 100, two_bin1|exists 200, two_bin2]; by split.
  - exact two_apart.
  - intros fid di e [<- [= <- <-]]%lookup_singleton_Some. exists 1, 100, two_bin1. split; [by split|]. split.
    + split; try done. exists no_pages. split; try done; [apply pages_inv_empty; [by exists 2|lia|done]|]. intros x Hx. by apply stored_replicate in Hx.
    + split; [done|]. intros _. exists two_file. split; [reflexivity|]. vm_compute. congruence.
  - intros f1 f2 v [<- _]%lookup_singleton_Some [<- _]%lookup_singleton_Some. done.
  - intros d di a b Hb _. destruct (two_bin_of d di (bo_reg _ _ _ _ _ _ Hb)) as [_ Hc]. destruct (Hc a b Hb) as [(-> & -> & ->)|(-> & -> & ->)].
    + exists no_pages, two_file. split.
      * apply (plain_ready _ _ _ _ _ _ _ _ _ _ _ (replicate 64 0)); try done; try lia; [intros x; apply two_others|by exists 4|].
        intros pg Hpg. destruct (Z.ltb_spec pg 2) as [Hl|Hl]; [right; left|right; right; intros r Hr; apply two_file_zero; simpl in Hr |- *; lia].
        assert (pg = 0 \/ pg = 1) as [-> | ->] by lia; done.
      * intros e (fid & [_ [= _ <-]]%lookup_singleton_Some). split; [vm_compute; split; congruence|]. intros fr [= <-]. apply not_elem_of_nil.
    + exists no_pages, []. split.
      * apply (plain_ready _ _ _ _ _ _ _ _ _ _ _ []); try done; try lia; [intros x; apply two_others|by exists 0|]. intros pg Hpg. right. right. intros r Hr. done.
      * intros e (fid & [_ [= <- _]]%lookup_singleton_Some). destruct Hb as [Hb _ _ _]. vm_compute in Hb. done.
Qed.

(** A batch of both dimensions: a new feature that is written twice, a stored one and another new
    one. *)
Definition two_batch : list PutReq :=
  [mkPutReq 9 2 (Some [1; 2; 3; 4; 5; 6; 7; 8]); mkPutReq 5 1 (Some [7; 7; 7; 7]); mkPutReq 6 1 (Some [8; 8; 8; 8]);
   mkPutReq 9 2 (Some [9; 9; 9; 9; 9; 9; 9; 9])].

Lemma two_batch_ok r : r ∈ two_batch -> request_ok two_dims two_st {[ 5 := (0, 7) ]} (fun _ => True) r.
Proof.
  unfold two_batch. rewrite !elem_of_cons, elem_of_nil.
  intros [-> | [-> | [-> | [-> | []]]]]; (split; [done|done| |intros d x Hf; vm_compute in Hf; by inversion Hf]); eexists; (split; [reflexivity|]);
    [exists 1, 200, two_bin2|exists 0, 100, two_bin1|exists 0, 100, two_bin1|exists 1, 200, two_bin2]; by repeat split.
Qed.

Lemma two_batch_consistent : consistent two_batch.
Proof.
  intros r r'. unfold two_batch. rewrite !elem_of_cons, !elem_of_nil.
  intros [-> | [-> | [-> | [-> | []]]]] [-> | [-> | [-> | [-> | []]]]]; simpl; congruence.
Qed.

Lemma graveldb_put_get_correct_witness :
  exists st' m', graveldb_batch_put two_batch two_st = Ret (GRAVELDB_OK, st') /\
    feature st' m' 9 = Some (2, [9; 9; 9; 9; 9; 9; 9; 9]) /\ feature st' m' 5 = Some (1, [7; 7; 7; 7]) /\ feature st' m' 4 = None.
Proof.
  destruct (graveldb_put_get_correct two_dims two_st {[ 5 := (0, 7) ]} 0 (fun _ => True) two_batch) as (st' & m' & E & Hf & _);
    [apply two_st_ok; vm_compute; split; congruence|done|exact two_batch_ok|exact two_batch_consistent|].
  exists st', m'. split; [exact E|]. rewrite !Hf. repeat split; reflexivity.
Defined.
