(* ===== verification/EngineMap.v ===== *)
(** EngineMap: the database is a map from features to embeddings.

    [graveldb_batch_delete] of src/graveldb.c gives the entries of its features back and
    removes them from the index. With [graveldb_batch_put] (EnginePut.v) and
    [graveldb_batch_get] (EngineGet.v) it makes the public operations a refinement of a
    finite map: any sequence of batches returns what the same operations on the map return. *)

From Stdlib Require Import String.
From S2P Require Import Prelude LinearProbe Wire SlabAlloc Overlay DirtyTracker KeyBTree HashIndex DimRegistry IoBatch PageMap DimBin BinKeys BinFlush BinOps BinPut BinStore Engine EngineProps EngineGet EnginePut.

#[local] Arguments file_write : simpl never.

(** ** Removal from an index with room *)

Lemma hash_remove_room idx m n k : index_room idx m n -> k <> 0 -> is_Some (m !! k) ->
  exists idx', hash_index_remove idx k = Ret (GRAVELDB_OK, idx') /\ index_room idx' (delete k m) n.
Proof.
  intros (Hi & Ho & Hc & Hr) Hk [v Hv]. destruct (hash_index_remove_spec idx m k Hi (proj1 Hc) Hk) as (idx1 & _ & _ & Hid & rc & idx' & E & Hp).
  rewrite (Hid Ho) in Hp. destruct Hp as [(-> & _ & Hi')|(_ & _ & [Hn|Hl])]; [|congruence|by apply not_lost_settled in Hl].
  exists idx'. split; [done|]. unfold hash_index_remove, rehash_step in E. rewrite (proj2 (Z.eqb_neq _ _)) in E by done. rewrite Ho in E. cbn [res_bind] in E.
  destruct (deref (hi_slots idx)) as [sl| |]; [|done..]. cbn [res_bind] in E. destruct (probe _ _ _ _ _ _) as [r| |]; [|done..]. cbn [res_bind] in E.
  unfold remove_in_old, probe_old in E. rewrite Ho in E. destruct r as [h|h|h]; [|done..].
  destruct (shift_loop _ _ _ _ _ _) as [[sl1 em]| |]; [|done..]. cbn [res_bind] in E. destruct (rd sl1 em) as [s| |]; [|done..]. cbn [res_bind] in E.
  destruct (wr sl1 em _) as [sl2| |]; [|done..]. cbn [res_bind] in E. injection E as <-. simpl in *.
  split; [done|]. split; [done|]. split; [done|]. simpl. pose proof (hi_count_range _ _ Hi) as Hr0.
  destruct Hi' as [_ (new & Hn & Ht & Hcap & _ & _ & _ & Hold)]. simpl in *. rewrite Ho in Hold. destruct Hold as [Hcnt _]. pose proof (countb_le occ new).
  destruct (decide (hi_count idx = 0)) as [E0|E0]; [rewrite E0 in Hcnt; change (u32 (0 - 1)) with (2 ^ 32 - 1) in Hcnt; lia|]. rewrite u32_id in * by lia. lia.
Qed.

Section map.
Context {P : Type} `{!ObjectPool P}.
Implicit Types (st : DbSt P) (b : DimBin P) (y : Sys) (m : gmap Z (Z * Z)).

(** ** A change of one bin that a reader does not see *)

Lemma ready_readable o t lo (bs : BinSt P) sl f n : bin_ready o t lo bs sl f n -> readable (sys bs) (bin bs).
Proof.
  intros Hr. pose proof (br_put _ _ _ _ _ _ _ Hr) as Hp. split; try apply Hp; [exists sl; replace (mkBinSt (bin bs) (sys bs)) with bs by (by destruct bs); apply Hp|apply Hr|].
  intros E1. pose proof (br_geo _ _ _ _ _ _ _ Hr) as Hgeo. rewrite E1 in Hgeo. lia.
Qed.

(** The bin at [addr] becomes [bs], the index [idx]. *)
Definition restep st addr (bs : BinSt P) (idx : HashIndex) : DbSt P :=
  mkDbSt (set_index (set_bins (gdb st) (allocator (gdb st)) (<[addr := bin bs]> (bin_heap (gdb st)))) idx) (sys bs).

Section step.
Variables (R : gmap Z Z) (D : Z -> Prop) (st : DbSt P) (m m' : gmap Z (Z * Z)) (n d di addr : Z) (b : DimBin P) (bs : BinSt P) (idx : HashIndex) (sl : list PageSlot) (f : list Z).
Hypothesis Hdb : put_db R st m n D.
Hypothesis Hbo : bin_of R st d di addr b.
Hypothesis Hg : grew (binst st b) f bs f.
Hypothesis Hrd : bin_ready (others_of st addr) (bufs (gsys st)) all_pages bs sl f n.
Hypothesis Hp0 : put_st (others_of st addr) (bufs (gsys st)) (binst st b) sl f.
Hypothesis Hus : uses bs (fun e => exists fid, m' !! fid = Some (di, e)).
Hypothesis Hix : index_room idx m' n.
Hypothesis Hsub : m' ⊆ m.

Let st' := restep st addr bs idx.

Lemma restep_alloc : DimBin.allocator (bin bs) = Some (allocator (gdb st)).
Proof. rewrite (gw_alloc _ _ _ _ Hg). done. Qed.

Lemma restep_binst : binst st' (bin bs) = bs.
Proof. unfold binst, st', restep. cbn [gdb gsys allocator set_bins set_index]. rewrite <- restep_alloc. by destruct bs as [[] ?]. Qed.

Lemma restep_addrs : addrs (bin bs) = addrs b.
Proof. unfold addrs. by rewrite (gw_buf _ _ _ _ Hg). Qed.

Lemma restep_heap a : a <> addr -> bin_heap (gdb st') !! a = bin_heap (gdb st) !! a.
Proof. intros Ha. simpl. by rewrite lookup_insert_ne. Qed.

Lemma restep_bin : bin_heap (gdb st') !! addr = Some (bin bs).
Proof. simpl. by rewrite lookup_insert_eq. Qed.

Lemma restep_undisturbed a c : a <> addr -> bin_heap (gdb st) !! a = Some c -> undisturbed (gsys st) (gsys st') c.
Proof.
  intros Ha Hc. destruct (pd_apart _ _ _ _ _ Hdb) as [Hf _]. pose proof (bo_bin _ _ _ _ _ _ Hbo) as Hb.
  destruct (Hf a c addr b Ha Hc Hb) as (F1 & F2 & _). destruct (Hf addr b a c ltac:(done) Hb Hc) as (_ & F3 & _).
  split; simpl; rewrite ?(gw_bufs _ _ _ _ Hg), ?(gw_quiet _ _ _ _ Hg); try done.
  - rewrite (gw_files _ _ _ _ Hg); [done|simpl; congruence|simpl; congruence].
  - intros Hk. destruct (decide (key_fd c = key_fd b)) as [->|Hne].
    + destruct (br_key_file _ _ _ _ _ _ _ Hrd) as (kf & _ & Hkf). rewrite (gw_key_fd _ _ _ _ Hg) in Hkf. by eexists.
    + rewrite (gw_files _ _ _ _ Hg); [done|simpl; congruence|done].
Qed.

Lemma restep_apart : bins_apart st'.
Proof.
  destruct (pd_apart _ _ _ _ _ Hdb) as [Hf (A & Ho & Hi)]. pose proof (bo_bin _ _ _ _ _ _ Hbo) as Hb.
  assert (forall a c, bin_heap (gdb st') !! a = Some c -> exists c0, bin_heap (gdb st) !! a = Some c0 /\ fd c = fd c0 /\ key_fd c = key_fd c0 /\ addrs c = addrs c0) as Hold.
  { intros a c Hc. destruct (decide (a = addr)) as [->|Ha]; [|rewrite restep_heap in Hc by done; by exists c]. rewrite restep_bin in Hc. injection Hc as <-. exists b.
    split; [done|]. split; [apply (gw_fd _ _ _ _ Hg)|]. split; [apply (gw_key_fd _ _ _ _ Hg)|apply restep_addrs]. }
  split.
  - intros a1 b1 a2 b2 Hne H1 H2. destruct (Hold _ _ H1) as (c1 & C1 & -> & -> & ->). destruct (Hold _ _ H2) as (c2 & C2 & -> & _ & ->). by apply (Hf a1 c1 a2 c2).
  - exists A. split; [done|]. intros a c x Hc Hx. destruct (Hold _ _ Hc) as (c0 & C0 & _ & _ & E). rewrite E in Hx. by eapply Hi.
Qed.

Lemma restep_bin_of d' di' a c : bin_of R st' d' di' a c -> bin_of R st d' di' a c /\ a <> addr \/ d' = d /\ di' = di /\ a = addr /\ c = bin bs.
Proof.
  intros [H1 H2 H3 H4]. destruct (decide (a = addr)) as [->|Ha]; [right|left; split; [|done]; split; try done; by rewrite restep_heap in H3].
  rewrite restep_bin in H3. injection H3 as <-. rewrite (gw_dim _ _ _ _ Hg) in H4. pose proof Hbo as [B1 B2 B3 B4]. simpl in H4. split_and!; [congruence| |done|done].
  assert (d' = d) as -> by congruence. congruence.
Qed.

Lemma restep_bin_of_new : bin_of R st' d di addr (bin bs).
Proof. pose proof Hbo as [B1 B2 B3 B4]. split; try done; [apply restep_bin|]. by rewrite (gw_dim _ _ _ _ Hg). Qed.

Lemma restep_bin_of_kept d' di' a c : bin_of R st d' di' a c -> a <> addr -> bin_of R st' d' di' a c.
Proof. intros [H1 H2 H3 H4] Ha. split; try done. by rewrite restep_heap. Qed.

Lemma restep_located fid e : m' !! fid = Some (di, e) -> located (gsys st') (bin bs) e.
Proof.
  intros He. destruct (Hus e) as [Hlt _]; [by eexists|]. pose proof (br_bump _ _ _ _ _ _ _ Hrd). split; [unfold UINT32_MAX; lia|]. intros _. exists f.
  split; [exact (ps_file _ _ _ _ _ (br_put _ _ _ _ _ _ _ Hrd))|]. by eapply ready_covers.
Qed.

Lemma restep_db : put_db R st' m' n D.
Proof.
  pose proof Hdb as [_ Hq (rs & Hreg) Hd Hap Hen Hj Hr]. split; [done| |by exists rs| |apply restep_apart| | |].
  - simpl. by rewrite (gw_quiet _ _ _ _ Hg).
  - intros d' di' Hd'. destruct (Hd d' di' Hd') as (a & c & Hc). destruct (decide (a = addr)) as [->|Ha]; [|exists a, c; by apply restep_bin_of_kept].
    exists addr, (bin bs). assert (d' = d) as -> by (destruct Hc, Hbo; congruence). assert (di' = di) as -> by (destruct Hbo; congruence). apply restep_bin_of_new.
  - intros fid di' e Hm. destruct (decide (di' = di)) as [->|Hdi].
    + exists d, addr, (bin bs). split; [apply restep_bin_of_new|]. split; [exact (ready_readable _ _ _ _ _ _ _ Hrd)|by eapply restep_located].
    + destruct (Hen fid di' e) as (d' & a & c & Hc & R1 & R2); [by eapply lookup_weaken|]. pose proof (bin_of_ne _ _ _ _ _ _ _ _ _ _ Hc Hbo ltac:(by right)) as Ha.
      pose proof (restep_undisturbed a c Ha ltac:(apply Hc)) as U. exists d', a, c. split; [by apply restep_bin_of_kept|].
      split; [by eapply readable_undisturbed|by eapply located_undisturbed].
  - intros f1 f2 v H1 H2. eapply Hj; by eapply lookup_weaken.
  - intros d' di' a c Hc HD. destruct (restep_bin_of _ _ _ _ Hc) as [[Hc0 Ha]|(-> & -> & -> & ->)].
    + destruct (Hr d' di' a c Hc0 HD) as (sl' & f' & Hrd' & Hus'). exists sl', f'. split.
      * destruct restep_apart as [F' (A & Ho & Hi)]. eapply (bin_ready_undisturbed _ _ _ _ (gsys st)); [by apply (restep_undisturbed a), Hc0|exact Hrd'| |done].
        exists A. split; [done|]. split; [intros x Hx'; eapply Hi; [apply Hc|done]|]. intros x (a2 & b2 & Ha2 & Hb2 & Hx2). split; [by eapply Hi|].
        intros Hx3. destruct (F' a2 b2 a c Ha2 Hb2 ltac:(apply Hc)) as (_ & _ & F). by apply (F x).
      * intros e (fid & Hm). apply Hus'. exists fid. by eapply lookup_weaken.
    + exists sl, f. rewrite restep_binst. split; [|done]. eapply (bin_ready_others _ _ _ _ all_pages all_pages); [| |done|exact Hrd]; intros x (a & c & Ha & Hc' & Hx); rewrite restep_heap in Hc' by done; [by exists a, c|].
      simpl. by rewrite (gw_bufs _ _ _ _ Hg).
Qed.

Lemma restep_feature fid : feature st' m' fid = match m' !! fid with Some _ => feature st m fid | None => None end.
Proof.
  destruct (m' !! fid) as [[di' e]|] eqn:Em'; [|unfold feature, locate; by rewrite Em']. assert (m !! fid = Some (di', e)) as Em by (by eapply lookup_weaken).
  pose proof Hbo as [B1 B2 B3 B4]. unfold feature, locate. rewrite Em, Em'. change (dim_reg (gdb st')) with (dim_reg (gdb st)).
  destruct (decide (di' = di)) as [->|Hdi].
  - rewrite B2, restep_bin, B3. cbn. rewrite (gw_dim _ _ _ _ Hg). do 2 f_equal. unfold entry_at. replace (mkBinSt (bin bs) (sys bs)) with bs by (by destruct bs).
    rewrite (bin_entry_grew _ _ _ _ _ _ _ e Hp0 Hg). done.
  - destruct (pd_entry _ _ _ _ _ Hdb fid di' e Em) as (d' & a & c & Hc & R1 & R2). pose proof (bin_of_ne _ _ _ _ _ _ _ _ _ _ Hc Hbo ltac:(by right)) as Ha.
    destruct Hc as [C1 C2 C3 C4]. rewrite C2, restep_heap, C3 by done. cbn. do 2 f_equal. apply entry_undisturbed; [by apply (restep_undisturbed a)|done|apply R2].
Qed.

End step.

(** ** Deletion *)

(** One feature: its entry is free and the index does not have it any more. *)
Lemma delete_one_spec R st m n D fid : put_db R st m n D -> (forall d x, feature st m fid = Some (d, x) -> D d) ->
  exists st', delete_one fid st = Ret (tt, st') /\ put_db R st' (delete fid m) n D /\ allocator (gdb st') = allocator (gdb st) /\
    (forall d x, fits R st d x -> fits R st' d x) /\
    forall k, feature st' (delete fid m) k = if decide (k = fid) then None else feature st m k.
Proof.
  intros Hdb HD. pose proof (pd_index _ _ _ _ _ Hdb) as Hx. pose proof (pd_quiet _ _ _ _ _ Hdb) as Hq.
  pose proof (index_get_settled st m fid (proj1 Hx) (proj1 (proj2 Hx))) as Eg.
  assert (m !! fid = None -> delete_one fid st = Ret (tt, st) -> exists st', delete_one fid st = Ret (tt, st') /\ put_db R st' (delete fid m) n D /\ allocator (gdb st') = allocator (gdb st) /\
    (forall d x, fits R st d x -> fits R st' d x) /\ forall k, feature st' (delete fid m) k = if decide (k = fid) then None else feature st m k) as Hnone.
  { intros Hn E. exists st. rewrite delete_id by done. split_and!; [done..|]. intros k. destruct (decide (k = fid)) as [->|]; [|done]. unfold feature, locate. by rewrite Hn. }
  destruct (decide (fid = 0)) as [->|Hf].
  { apply Hnone; [|done]. destruct (m !! 0) as [v|] eqn:Ev; [|done]. exfalso. apply (hi_models _ _ (proj1 Hx)) in Ev. destruct Ev as [(t & _ & _ & Hocc)|(t & _ & _ & Hocc)]; by apply occ_true in Hocc. }
  unfold delete_one at 1 2 in Hnone. unfold delete_one. rewrite (proj2 (Z.eqb_neq _ _)) in Hnone |- * by done. rewrite (bindM_ret _ _ _ _ _ Eg) in Hnone |- *.
  destruct (m !! fid) as [[di e]|] eqn:Em; [|by apply Hnone]. clear Hnone.
  destruct (pd_entry _ _ _ _ _ Hdb fid di e Em) as (d & addr & b & Hbo & Hrb & _). pose proof Hbo as [B1 B2 B3 B4].
  assert (D d) as Hd. { apply (HD d (entry_at (gsys st) b e)). unfold feature, locate. rewrite Em, B2, B3. cbn. by rewrite B4. }
  destruct (pd_ready _ _ _ _ _ Hdb d di addr b Hbo Hd) as (sl & f & Hrd & Hus).
  destruct (free_entry_spec _ _ _ _ _ _ _ e _ Hrd Hus ltac:(by exists fid)) as (bs & Ef & G & Rd & Us).
  assert (bin_addr di st = Ret (addr, st)) as E1 by (unfold bin_addr, get_db, gets, bindM; cbn [res_bind fst snd]; by rewrite B2).
  assert (get_bin_at addr st = Ret (b, st)) as E2 by (unfold get_bin_at, get_db, gets, bindM; cbn [res_bind fst snd]; by rewrite B3).
  rewrite (bindM_ret _ _ _ _ _ E1), (bindM_ret _ _ _ _ _ E2). rewrite (rb_ckpt _ _ Hrb).
  assert (DimBin.allocator (bin bs) = Some (allocator (gdb st))) as Ha by (rewrite (gw_alloc _ _ _ _ G); done).
  rewrite (bindM_ret _ _ _ _ _ (with_bin_step st addr b _ tt bs B3 Ef Ha)).
  destruct (hash_remove_room (index (gdb st)) m n fid Hx Hf ltac:(by eexists)) as (idx & Er & Hx').
  unfold index_remove, get_db, gets, bindM. cbn [res_bind fst snd rebin gdb set_bins index]. rewrite Er. cbn [lift res_bind fst snd upd_db modify ret].
  exists (restep st addr bs idx). assert (uses bs (fun x => exists fid0, delete fid m !! fid0 = Some (di, x))) as Us'.
  { intros x (k & [Hk1 Hk2]%lookup_delete_Some). apply Us. split; [by exists k|]. intros ->. apply Hk1. by eapply (pd_inj _ _ _ _ _ Hdb). }
  pose proof (delete_subseteq m fid) as Hsub. pose proof (br_put _ _ _ _ _ _ _ Hrd) as Hp.
  split; [done|]. split; [by eapply restep_db|]. split; [done|]. split.
  - intros d' x (di' & a & c & Hc & Hz). destruct (decide (a = addr)) as [->|Hne]; [|exists di', a, c; split; [by apply restep_bin_of_kept|done]].
    assert (c = b) as -> by (destruct Hc; congruence). exists di, addr, (bin bs). assert (d' = d) as -> by (destruct Hc; congruence).
    split; [by eapply restep_bin_of_new|]. by rewrite (gw_esz _ _ _ _ G).
  - intros k. rewrite (restep_feature R D st m (delete fid m) n d di addr b bs idx sl f Hdb Hbo G Rd Hp Us' Hsub). destruct (decide (k = fid)) as [->|Hne]; [by rewrite lookup_delete_eq|].
    rewrite lookup_delete_ne by done. destruct (m !! k) as [v|] eqn:Ek; [done|]. unfold feature, locate. by rewrite Ek.
Qed.

(** The features after a batch of deletions. *)
Definition delete_features (fids : list Z) (c : Z -> option (Z * list Z)) (fid : Z) : option (Z * list Z) := if decide (fid ∈ fids) then None else c fid.

Lemma batch_delete_spec R fids : forall st m n D, put_db R st m n D -> (forall fid d x, fid ∈ fids -> feature st m fid = Some (d, x) -> D d) ->
  exists st' m', graveldb_batch_delete fids st = Ret (GRAVELDB_OK, st') /\ put_db R st' m' n D /\ allocator (gdb st') = allocator (gdb st) /\
    (forall d x, fits R st d x -> fits R st' d x) /\ forall fid, feature st' m' fid = delete_features fids (feature st m) fid.
Proof.
  unfold graveldb_batch_delete. induction fids as [|fid fids IH]; intros st m n D Hdb HD.
  { exists st, m. split; [done|]. split; [done|]. split; [done|]. split; [done|]. intros fid. unfold delete_features. by rewrite decide_False by apply not_elem_of_nil. }
  destruct (delete_one_spec R st m n D fid Hdb) as (st1 & E1 & Hdb1 & Ha1 & Hf1 & F1); [intros d x; apply HD; set_solver|].
  destruct (IH st1 (delete fid m) n D Hdb1) as (st' & m' & E2 & Hdb2 & Ha2 & Hf2 & F2).
  { intros k d x Hk. rewrite F1. destruct (decide (k = fid)); [done|]. apply HD. set_solver. }
  exists st', m'. split; [|split; [done|split; [congruence|split; [auto|]]]].
  - cbn [forM]. unfold bindM at 1 2. rewrite E1. cbn [res_bind fst snd]. exact E2.
  - intros k. rewrite F2. unfold delete_features. rewrite F1. destruct (decide (k ∈ fids)) as [Hk|Hk]; [by rewrite decide_True by set_solver|].
    destruct (decide (k = fid)) as [->|Hne]; [by rewrite decide_True by set_solver|]. by rewrite decide_False by set_solver.
Qed.

(** ** Reads *)

(** A read leaves the database ready. *)
Lemma same_bin_of R st st' d di a b : st ≡ st' -> bin_of R st d di a b -> exists b', bin_of R st' d di a b' /\ blank b' = blank b.
Proof.
  intros Hs [H1 H2 H3 H4]. destruct (same_reg _ _ Hs) as [Er _]. symmetry in Hs. destruct (same_bin _ _ _ _ Hs H3) as (b' & Hb' & E).
  exists b'. split; [|done]. split; rewrite ?Er; try done. apply blank_fields in E as [al ->]. done.
Qed.

Lemma blank_addrs b b' : blank b' = blank b -> addrs b' = addrs b.
Proof. intros [al ->]%blank_fields. done. Qed.

Lemma same_others st st' a x : st ≡ st' -> others_of st' a x -> others_of st a x.
Proof.
  intros Hs (a' & b' & Ha & Hb & Hx). destruct (same_bin _ _ _ _ Hs Hb) as (b & Hb0 & E). exists a', b. by rewrite <- (blank_addrs _ _ E).
Qed.

Lemma put_db_same R st st' m n D : st ≡ st' -> put_db R st m n D -> put_db R st' m n D.
Proof.
  intros Hs [Hx Hq (bs & Hreg) Hd [Hf (A & Ho & Hi)] Hen Hj Hr]. destruct (same_reg _ _ Hs) as [Er Ei]. pose proof (sd_sys _ _ Hs) as Ey.
  assert (allocator (gdb st') = allocator (gdb st)) as Ea by (by rewrite (sd_rest _ _ Hs)).
  split; rewrite ?Ei, ?Ey; try done.
  - exists bs. by rewrite Er.
  - intros d di Hdi. destruct (Hd d di Hdi) as (a & b & Hb). destruct (same_bin_of _ _ _ _ _ _ _ Hs Hb) as (b' & Hb' & _). by exists a, b'.
  - split.
    + intros a1 b1 a2 b2 Hne H1 H2. destruct (same_bin _ _ _ _ Hs H1) as (c1 & C1 & E1). destruct (same_bin _ _ _ _ Hs H2) as (c2 & C2 & E2).
      destruct (Hf a1 c1 a2 c2 Hne C1 C2) as (F1 & F2 & F3). rewrite (blank_addrs _ _ E1), (blank_addrs _ _ E2). apply blank_fields in E1 as [? ->]. apply blank_fields in E2 as [? ->]. done.
    + exists A. rewrite Ea. split; [done|]. intros a b x Hb Hxx. destruct (same_bin _ _ _ _ Hs Hb) as (c & C & E). rewrite (blank_addrs _ _ E) in Hxx. by eapply Hi.
  - intros fid di e Hm. destruct (Hen fid di e Hm) as (d & a & b & Hb & R1 & R2). destruct (same_bin_of _ _ _ _ _ _ _ Hs Hb) as (b' & Hb' & E).
    destruct (blank_same (gsys st) b b' e E) as (_ & B1 & B2 & _). exists d, a, b'. split_and!; [done|by apply B1|by apply B2].
  - intros d di a b Hb HD. assert (st' ≡ st) as Hs' by (by symmetry). destruct (same_bin_of _ _ _ _ _ _ _ Hs' Hb) as (b0 & Hb0 & E).
    destruct (Hr d di a b0 Hb0 HD) as (sl & f & H1 & H2). exists sl, f.
    assert (binst st' b = binst st b0) as Eb by (unfold binst; rewrite Ea, Ey; apply blank_fields in E as [? ->]; done). rewrite Eb. split; [|done].
    eapply (bin_ready_others _ _ _ _ all_pages all_pages); [| |done|exact H1]; [intros x; by apply same_others|done].
Qed.

(** ** Databases beside each other *)

(** A database does not notice what happens to files and buffers that are not those of its bins. *)
Lemma put_db_beside R st y m n D : put_db R st m n D -> answers y = [] -> (forall a b, bin_heap (gdb st) !! a = Some b -> undisturbed (gsys st) y b) ->
  put_db R (mkDbSt (gdb st) y) m n D /\ forall fid, feature (mkDbSt (gdb st) y) m fid = feature st m fid.
Proof.
  intros Hdb Hq' Hu. pose proof Hdb as [Hx Hq Hreg Hd Hap Hen Hj Hr]. set (st' := mkDbSt (gdb st) y).
  assert (forall d di a b, bin_of R st' d di a b <-> bin_of R st d di a b) as Hbo by (intros; split; intros []; by split).
  split.
  - split; try done.
    + intros d di Hdi. destruct (Hd d di Hdi) as (a & b & Hb). exists a, b. by apply Hbo.
    + destruct Hap as [Hf Ho]. by split.
    + intros fid di e Hm. destruct (Hen fid di e Hm) as (d & a & b & Hb & R1 & R2). pose proof (Hu a b ltac:(apply Hb)) as U. exists d, a, b.
      split; [by apply Hbo|]. split; [by eapply readable_undisturbed|by eapply located_undisturbed].
    + intros d di a b Hb HD. apply Hbo in Hb. destruct (Hr d di a b Hb HD) as (sl & f & H1 & H2). exists sl, f. split; [|exact H2]. destruct Hap as [Hf (A & Ho & Hi)].
      eapply (bin_ready_undisturbed _ _ _ _ (gsys st)); [apply (Hu a), Hb|exact H1| |done]. exists A. split; [done|]. split; [intros x; apply (Hi a), Hb|].
      intros x (a2 & b2 & Ha2 & Hb2 & Hx2). split; [by eapply Hi|]. intros Hx3. destruct (Hf a2 b2 a b Ha2 Hb2 ltac:(apply Hb)) as (_ & _ & F). by apply (F x).
  - intros fid. unfold feature, locate. destruct (m !! fid) as [[di e]|] eqn:Em; [|done]. destruct (Hen fid di e Em) as (d & a & b & [B1 B2 B3 B4] & R1 & R2).
    change (dim_reg (gdb st')) with (dim_reg (gdb st)). change (bin_heap (gdb st')) with (bin_heap (gdb st)). rewrite B2, B3. cbn. do 2 f_equal.
    apply entry_undisturbed; [by apply (Hu a)|done|apply R2].
Qed.

(** ** The map that a database stores *)

(** The database stores [c] in bins whose entries have the sizes [E], and has room and memory for
    [n] more features. It is at rest: no call to the system fails and the index does not migrate
    ([put_db]), no bin is in a checkpoint, has slack in its pages or entries of more than 4096 bytes,
    and every page can be loaded ([bin_ready] of BinStore.v, [page_ready] of BinPut.v). *)
Definition stores (R E : gmap Z Z) st (c : gmap Z (Z * list Z)) (n : Z) : Prop :=
  exists m, put_db R st m n (fun _ => True) /\ pool_grants (Z.to_nat n) (allocator (gdb st)) /\
    (forall d x, E !! d = Some (zlen x) -> fits R st d x) /\ forall fid, feature st m fid = c !! fid.

(** The public operations, and the same on a map. *)
Inductive Op : Type :=
| OpPut (reqs : list PutReq)
| OpDelete (fids : list Z)
| OpGet (fids : list Z) (out : GetOut).

Definition run_op (junk : Z -> list Z) (o : Op) : M (DbSt P) (graveldb_status_t * option GetOut) :=
  match o with
  | OpPut reqs => let* rc := graveldb_batch_put reqs in ret (rc, None)
  | OpDelete fids => let* rc := graveldb_batch_delete fids in ret (rc, None)
  | OpGet fids out => let* '(rc, out) := graveldb_batch_get junk fids out in ret (rc, Some out)
  end.

Fixpoint run_ops (junk : Z -> list Z) (l : list Op) : M (DbSt P) (list (graveldb_status_t * option GetOut)) :=
  match l with
  | [] => ret []
  | o :: l => let* r := run_op junk o in let* rs := run_ops junk l in ret (r :: rs)
  end.
End map.

Definition map_op (o : Op) (c : gmap Z (Z * list Z)) : gmap Z (Z * list Z) :=
  match o with
  | OpPut reqs => foldl (fun c r => <[pr_feat r := (pr_dim r, default [] (pr_emb r))]> c) c reqs
  | OpDelete fids => foldl (fun c fid => delete fid c) c fids
  | OpGet _ _ => c
  end.

(** What a buffer holds after a get: the embedding, and the rest of it as it was. *)
Definition map_buffer (c : gmap Z (Z * list Z)) (fid : Z) (buf : option (list Z)) : option (list Z) :=
  match buf, c !! fid with Some b, Some (_, x) => Some (x ++ drop (length x) b) | _, _ => buf end.
Definition map_result (o : Op) (c : gmap Z (Z * list Z)) : graveldb_status_t * option GetOut :=
  match o with
  | OpGet fids out => (GRAVELDB_OK, Some (mkGetOut (zip_with (map_buffer c) fids (out_embeddings out))
                                           ((fun _ => (fun fid => match c !! fid with Some (d, _) => d | None => 0 end) <$> fids) <$> out_dims out)))
  | _ => (GRAVELDB_OK, None)
  end.

Fixpoint map_run (l : list Op) (c : gmap Z (Z * list Z)) : list (graveldb_status_t * option GetOut) * gmap Z (Z * list Z) :=
  match l with
  | [] => ([], c)
  | o :: l => let '(rs, c') := map_run l (map_op o c) in (map_result o c :: rs, c')
  end.

(** What the caller of an operation has to observe. *)
Definition call_ok (E : gmap Z Z) (c : gmap Z (Z * list Z)) (o : Op) : Prop :=
  match o with
  | OpPut reqs => consistent reqs /\ forall r, r ∈ reqs -> pr_feat r <> 0 /\ (exists x, pr_emb r = Some x /\ E !! pr_dim r = Some (zlen x)) /\
                    forall d x, c !! pr_feat r = Some (d, x) -> d = pr_dim r
  | OpDelete _ => True
  | OpGet fids out => length (out_embeddings out) = length fids /\ dims_ok (out_dims out) (zlen fids) /\
                      Forall2 (fun fid buf => match buf, c !! fid with Some b, Some (_, x) => zlen x <= zlen b | _, _ => True end) fids (out_embeddings out)
  end.

Fixpoint calls_ok (E : gmap Z Z) (c : gmap Z (Z * list Z)) (l : list Op) : Prop :=
  match l with [] => True | o :: l => call_ok E c o /\ calls_ok E (map_op o c) l end.

(** The entries that a sequence may need. *)
Definition op_cost (o : Op) : Z := match o with OpPut reqs => zlen reqs | _ => 0 end.
Definition ops_cost (l : list Op) : Z := foldr (fun o k => op_cost o + k) 0 l.

(** ** The refinement *)

Lemma put_features_map reqs c fid : put_features reqs (fun k => c !! k) fid = map_op (OpPut reqs) c !! fid.
Proof.
  induction reqs as [|r reqs IH] using rev_ind; [done|]. rewrite put_features_app. simpl in *. rewrite foldl_app. simpl. unfold put_features at 1, last_req. simpl.
  destruct (Z.eqb_spec (pr_feat r) fid) as [->|Hne]; [by rewrite lookup_insert_eq|]. simpl. rewrite lookup_insert_ne by done. exact IH.
Qed.

Lemma delete_features_map fids c fid : delete_features fids (fun k => c !! k) fid = map_op (OpDelete fids) c !! fid.
Proof.
  unfold delete_features. simpl. revert c. induction fids as [|k fids IH]; intros c; [by rewrite decide_False by apply not_elem_of_nil|]. simpl. rewrite <- IH.
  destruct (decide (fid ∈ fids)) as [Hin|Hin]; [by rewrite decide_True by set_solver|]. destruct (decide (fid = k)) as [->|Hne].
  - by rewrite lookup_delete_eq, decide_True by set_solver.
  - rewrite lookup_delete_ne by done. by rewrite decide_False by set_solver.
Qed.

Section refine.
Context {P : Type} `{!ObjectPool P}.
Variables (junk : Z -> list Z) (R E : gmap Z Z).
Hypothesis Hjunk : forall k, 0 <= k -> zlen (junk k) = k.
Implicit Types (st : DbSt P) (c : gmap Z (Z * list Z)).

Lemma op_refines o st c n : stores R E st c (op_cost o + n) -> 0 <= n -> call_ok E c o ->
  exists st', run_op junk o st = Ret (map_result o c, st') /\ stores R E st' (map_op o c) n.
Proof.
  intros (m & Hdb & Hg & Hsz & Hf) Hn Hok. destruct o as [reqs|fids|fids [embs dims]]; cbn [op_cost call_ok run_op map_result] in *.
  - destruct Hok as [Hc Hok]. destruct (batch_put_spec R st m n (fun _ => True) reqs Hdb Hn) as (st' & m' & E1 & Hdb' & Hg' & Hsz' & Hf'); [|done|].
    { intros r Hr. destruct (Hok r Hr) as (H1 & (x & H2 & H3) & H4). split; [done|done|exists x; split; [done|by apply Hsz]|]. intros d y. rewrite Hf. apply H4. }
    unfold zlen in Hg. rewrite Z2Nat.inj_add, Nat2Z.id in Hg by lia.
    exists st'. split; [by rewrite (bindM_ret _ _ _ _ _ E1)|]. exists m'. split; [|split; [by apply Hg'|split; [auto|]]].
    + eapply put_db_weaken; [|exact Hdb']. intros x _. split; [done|]. right. eapply pool_grants_le; [|exact Hg]. lia.
    + intros fid. rewrite Hf', <- put_features_map. by apply put_features_ext.
  - destruct (batch_delete_spec R fids st m n (fun _ => True) Hdb) as (st' & m' & E1 & Hdb' & Ha & Hsz' & Hf'); [done|].
    exists st'. split; [by rewrite (bindM_ret _ _ _ _ _ E1)|]. exists m'. split; [done|]. rewrite Ha. split; [done|]. split; [auto|].
    intros fid. rewrite Hf', <- delete_features_map. unfold delete_features. by rewrite Hf.
  - destruct Hok as (Hl & Hd & Hr). destruct (batch_get_spec junk st m fids embs dims Hjunk) as (st' & Hs & E1); [by eapply put_db_read|done|done| |].
    { eapply Forall2_impl; [exact Hr|]. intros fid buf H. unfold room. by rewrite Hf. }
    exists st'. split.
    + rewrite (bindM_ret _ _ _ _ _ E1). unfold ret. do 5 f_equal; [|].
      * apply zip_with_ext; [|done|done]. intros fid buf. unfold answer, map_buffer. by rewrite Hf.
      * destruct dims as [l|]; [|done]. simpl. f_equal. apply list_fmap_ext. intros i fid _. unfold dim_answer. by rewrite Hf.
    + exists m. split; [by eapply put_db_same|]. split; [by rewrite (sd_rest _ _ Hs)|]. split; [|intros fid; rewrite <- Hf; symmetry; by apply feature_proper].
      intros d x Hx. destruct (Hsz d x Hx) as (di & a & b & Hb & Hz). destruct (same_bin_of _ _ _ _ _ _ _ Hs Hb) as (b' & Hb' & Eb). exists di, a, b'. split; [done|].
      apply blank_fields in Eb as [? ->]. done.
Qed.

(** C1: the database is a finite map under batched puts, deletions and gets. A database at rest that
    stores the map [c], in bins whose entries have the sizes [E], takes any sequence of batches of puts,
    deletions and gets, without a flush between them, that is well formed ([calls_ok]): a put has ids
    other than 0, embeddings of the size of their dimension, and for each feature the dimension that it is
    stored with, one within a batch (another one is answered with DIM_MISMATCH); a get has buffers that
    are [NULL] or have room. Then every call returns OK, every get fills its buffers with what the same
    operations on the map give, and the database stores the resulting map, through the index, the entries
    that are given back and taken again, the key buffers, the page buffers and the files.
    At rest ([stores]) means: no call to the system fails, no checkpoint runs, the index does not migrate,
    has at most 2^29 slots and does not have to grow, and in each bin pages have no slack, entries have at
    most 4096 bytes, the page buffers, the dirty pages and the files have room for the batches, and every
    page is in the write buffer, committed, or zero in the file ([page_ready]). A page that a flush left
    partly filled at the bump pointer is none of these: the next put zeroes it
    ([graveldb_put_loses_feature] of EngineProps.v), so the database must not be in that state. *)
Theorem graveldb_refines_map (st : DbSt P) (c : gmap Z (Z * list Z)) (n : Z) (l : list Op)
  (Hst : stores R E st c (ops_cost l + n))
  (Hn : 0 <= n)
  (Hok : calls_ok E c l) :
  exists st', run_ops junk l st = Ret (fst (map_run l c), st') /\ stores R E st' (snd (map_run l c)) n.
Proof.
  revert st c Hst Hok. induction l as [|o l IH]; intros st c Hst Hok; [by exists st|]. destruct Hok as [Ho Hok]. cbn [ops_cost foldr] in Hst. rewrite <- Z.add_assoc in Hst.
  assert (0 <= ops_cost l) as Hz by (clear; induction l as [|[]]; simpl; [lia|pose proof (zlen_nonneg reqs)|..]; lia).
  destruct (op_refines o st c (ops_cost l + n) Hst ltac:(lia) Ho) as (st1 & E1 & H1). destruct (IH st1 _ H1 Hok) as (st2 & E2 & H2).
  exists st2. cbn [run_ops map_run]. destruct (map_run l (map_op o c)) as [rs c'] eqn:El. cbn [fst snd] in *. split; [|done].
  rewrite (bindM_ret _ _ _ _ _ E1). by rewrite (bindM_ret _ _ _ _ _ E2).
Qed.
End refine.

(** ** Witness *)

(** Two dimensions of 4 and 8 bytes; feature 5 is stored. *)
Definition two_sizes : gmap Z Z := {[ 1 := 4; 2 := 8 ]}.
Definition two_map : gmap Z (Z * list Z) := {[ 5 := (1, [1; 1; 1; 1]) ]}.

Lemma two_grants : pool_grants 8 (p0, m0).
Proof. repeat (eexists _, _; split; [vm_compute; reflexivity|split; [done|]]). exact I. Qed.

Lemma two_stores n : 0 <= n <= 8 -> stores two_dims two_sizes two_st two_map n.
Proof.
  intros Hn. exists {[ 5 := (0, 7) ]}. split; [by apply two_st_ok|]. split; [eapply pool_grants_le; [|exact two_grants]; lia|]. split.
  - intros d x. unfold two_sizes. intros [[<- Hz]|[_ [<- Hz]%lookup_singleton_Some]]%lookup_insert_Some; [exists 0, 100, two_bin1|exists 1, 200, two_bin2]; by repeat split.
  - intros fid. destruct (decide (fid = 5)) as [->|Hne]; [by vm_compute|]. unfold feature, locate, two_map. by rewrite !lookup_singleton_ne.
Qed.

(** A batch for both dimensions; a get; feature 5 is deleted and its entry taken by feature 7. *)
Definition two_ops : list Op :=
  [OpPut two_batch; OpGet [5; 9; 4] (mkGetOut [Some [0; 0; 0; 0]; None; Some []] (Some [0; 0; 0])); OpDelete [5; 4];
   OpPut [mkPutReq 7 1 (Some [3; 3; 3; 3])]; OpGet [5; 7; 6] (mkGetOut [Some [0; 0; 0; 0]; Some [0; 0; 0; 0]; Some [0; 0; 0; 0; 2]] None)].

Lemma two_calls_ok : calls_ok two_sizes two_map two_ops.
Proof.
  split; [|split; [|split; [done|split; [|split; [|done]]]]].
  - split; [exact two_batch_consistent|]. intros r. unfold two_batch. rewrite !elem_of_cons, elem_of_nil.
    intros [-> | [-> | [-> | [-> | []]]]]; (split; [done|split; [by eexists|]]); intros d x Hf; vm_compute in Hf; by inversion Hf.
  - split; [done|]. split; [done|]. repeat constructor; vm_compute; congruence.
  - split.
    + intros r r' ->%list_elem_of_singleton ->%list_elem_of_singleton. done.
    + intros r ->%list_elem_of_singleton. split; [done|]. split; [by eexists|]. intros d x Hf. vm_compute in Hf. done.
  - split; [done|]. split; [done|]. repeat constructor; vm_compute; congruence.
Qed.

Lemma graveldb_refines_map_witness :
  exists st', run_ops (fun k => replicate (Z.to_nat k) 0) two_ops two_st =
    Ret ([(GRAVELDB_OK, None); (GRAVELDB_OK, Some (mkGetOut [Some [7; 7; 7; 7]; None; Some []] (Some [1; 2; 0]))); (GRAVELDB_OK, None); (GRAVELDB_OK, None);
          (GRAVELDB_OK, Some (mkGetOut [Some [0; 0; 0; 0]; Some [3; 3; 3; 3]; Some [8; 8; 8; 8; 2]] None))], st') /\
    stores two_dims two_sizes st' (snd (map_run two_ops two_map)) 0.
Proof.
  assert (forall k, 0 <= k -> zlen (replicate (Z.to_nat k) 0) = k) as Hj by (intros k Hk; rewrite zlen_replicate; lia).
  apply (graveldb_refines_map (fun k => replicate (Z.to_nat k) 0) two_dims two_sizes Hj two_st two_map 0 two_ops);
    [apply two_stores; vm_compute; split; congruence|lia|exact two_calls_ok].
Defined.
