(* ===== verification/DeltaFile.v ===== *)
(** DeltaFile: delta files, full copies and recovery, src/checkpoint.c.

    A delta file holds the pages of a bin that the last checkpoint froze as dirty:
    a header, then a run of pages after the other. [ckpt_dump_delta] writes one,
    [ckpt_replay_delta] applies one, and [ckpt_recover] applies, in order, those
    that are newer than the generation of the bin's meta file. *)

From Stdlib Require Import String.
From stdpp Require Import strings sorting.
From S2P Require Import Prelude LinearProbe Wire Overlay DirtyTracker KeyBTree HashIndex DimRegistry IoBatch PageMap DimBin Names CkptMeta Engine.

#[local] Open Scope string_scope.
#[local] Open Scope Z_scope.

(** [read]: [pos] is the position of the descriptor. *)
Definition read_at (fd pos len : Z) : M Sys (Z * list Z) := pread fd len pos.

(** A delta file of the checkpoint directory; [cd_path] is [None] when [strdup]
    failed. *)
Record CkptDeltaInfo : Type := mkCkptDeltaInfo { cd_path : option string; cd_generation : Z; cd_dim : Z }.

(** The order of [cmp_delta_info]. *)
Definition cmp_delta_info (a b : CkptDeltaInfo) : Prop := cd_generation a <= cd_generation b.
#[export] Instance cmp_delta_info_dec : RelDecision cmp_delta_info := fun a b => Z_le_dec (cd_generation a) (cd_generation b).
#[export] Instance cmp_delta_info_total : Total cmp_delta_info.
Proof. intros a b. unfold cmp_delta_info. lia. Qed.
#[export] Instance cmp_delta_info_trans : Transitive cmp_delta_info.
Proof. intros a b c. unfold cmp_delta_info. lia. Qed.

Section delta.
Context {P : Type} `{!ObjectPool P} {host : WireHost}.
Implicit Types b : DimBin P.

(** The order in which a directory is read. *)
Variable readdir_order : list string -> list string.

(** ** Writing *)

Definition delta_hdr_of b (num_entries checksum : Z) : DeltaHdr :=
  mkDeltaHdr GRAVELDB_DELTA_MAGIC 1 (generation (dirty b)) (u32 (DimBin.dim b)) (u32 (entry_size b)) (bump_ptr b) num_entries checksum.

Definition encode_delta_hdr b (num_entries checksum : Z) : res (list Z) :=
  wire_encode_delta_hdr (replicate (Z.to_nat WIRE_DELTA_HDR_SIZE) 0) (delta_hdr_of b num_entries checksum).

(** The running checksum, the bytes written and the entries. *)
Record DeltaAcc : Type := mkDeltaAcc { da_crc : Z; da_bytes : Z; da_entries : Z }.

(** One run of pages; nothing is counted unless all of it was written. *)
Definition dump_delta_run b (cfd : Z) (acc : DeltaAcc) (r : list Z) : M Sys DeltaAcc :=
  let pg_start := hd 0 r in
  let pg_count := zlen r in
  let byte_len := pg_count * page_size b in
  let* e := lift (wire_encode_delta_entry (replicate (Z.to_nat WIRE_DELTA_ENTRY_SIZE) 0) pg_start pg_count) in
  let* ok := sys_ok in
  if negb ok then ret acc
  else
    let* '(rd, buf) := pread (fd b) byte_len (pg_start * page_size b) in
    if negb (rd =? byte_len) then ret acc
    else
      let* w := write_end cfd e in
      if negb (w =? WIRE_DELTA_ENTRY_SIZE) then ret acc
      else
        let* w := write_end cfd buf in
        if negb (w =? byte_len) then ret acc
        else
          ret (mkDeltaAcc (crc32_update (crc32_update (da_crc acc) e) buf)
                 (u64 (da_bytes acc + WIRE_DELTA_ENTRY_SIZE + byte_len)) (u32 (da_entries acc + 1))).

Fixpoint dump_delta_runs b (cfd : Z) (acc : DeltaAcc) (rs : list (list Z)) : M Sys DeltaAcc :=
  match rs with
  | [] => ret acc
  | r :: rs => let* acc := dump_delta_run b cfd acc r in dump_delta_runs b cfd acc rs
  end.

(** The status and, when it is OK, the size of the file. *)
Definition ckpt_dump_delta b (dir : string) : M Sys (graveldb_status_t * option Z) :=
  let* cfd := open_path true true (delta_path dir (generation (dirty b)) (DimBin.dim b)) in
  if cfd <? 0 then ret (GRAVELDB_ERR_IO, None)
  else
    let* ok := sys_ok in
    if negb ok then ret (GRAVELDB_ERR_OOM, None)
    else
      let* dirty_pages := lift (dirty_tracker_scan_ckpt (dirty b) GRAVELDB_MAX_DIRTY) in
      let* hdr_buf := lift (encode_delta_hdr b 0 0) in
      let* w := write_end cfd hdr_buf in
      if negb (w =? WIRE_DELTA_HDR_SIZE) then ret (GRAVELDB_ERR_IO, None)
      else
        let* acc := dump_delta_runs b cfd (mkDeltaAcc 0xFFFFFFFF WIRE_DELTA_HDR_SIZE 0) (runs consecutive dirty_pages) in
        let* ne_buf := lift (wire_put_u32 (replicate 4 0) 0 (da_entries acc)) in
        let* w := pwrite cfd ne_buf 32 in
        if negb (w =? 4) then ret (GRAVELDB_ERR_IO, None)
        else
          let* full_hdr_buf := lift (encode_delta_hdr b (da_entries acc) 0) in
          let hdr_crc := crc32_simple (take (Z.to_nat (WIRE_DELTA_HDR_SIZE - 4)) full_hdr_buf) in
          let combined_crc := Z.lxor hdr_crc (not32 (da_crc acc)) in
          let* crc_buf := lift (wire_put_u32 (replicate 4 0) 0 combined_crc) in
          let* w := pwrite cfd crc_buf 36 in
          if negb (w =? 4) then ret (GRAVELDB_ERR_IO, None)
          else
            let* _ := fdatasync cfd in
            ret (GRAVELDB_OK, Some (da_bytes acc)).

(** ** A full copy of the data file *)

(** What remains to be copied; a round copies at least one byte. *)
Fixpoint copy_file (fuel : nat) (src dst remaining offset : Z) : M Sys Z :=
  match fuel with
  | O => lift Diverge
  | S fuel =>
    if 0 <? remaining then
      let chunk := if remaining <? 4 * 1024 * 1024 then remaining else 4 * 1024 * 1024 in
      let* '(rd, buf) := pread src chunk offset in
      if rd <=? 0 then ret remaining
      else
        let* wr := write_end dst buf in
        if negb (wr =? rd) then ret remaining
        else copy_file fuel src dst (remaining - rd) (offset + rd)
    else ret remaining
  end.

Definition ckpt_dump_full b (dir : string) : M Sys graveldb_status_t :=
  let* dst := open_path true true (full_path dir (generation (dirty b)) (DimBin.dim b)) in
  if dst <? 0 then ret GRAVELDB_ERR_IO
  else
    let* ok := sys_ok in
    let* fs := gets files in
    match (if (ok : bool) then fs !! fd b else None) with
    | None => ret GRAVELDB_ERR_IO
    | Some f =>
      let* ok := sys_ok in
      if negb ok then ret GRAVELDB_ERR_OOM
      else
        let* remaining := copy_file (S (List.length f)) (fd b) dst (zlen f) 0 in
        let* _ := fdatasync dst in
        ret (if remaining =? 0 then GRAVELDB_OK else GRAVELDB_ERR_IO)
    end.

(** ** Replay *)

(** The runs of a delta file from position [pos]; [false] when a write to the
    data file failed. *)
Fixpoint replay_runs (n : nat) (dfd pos : Z) : M (BinSt P) bool :=
  match n with
  | O => ret true
  | S n =>
    let* '(rd, e) := onsys (read_at dfd pos WIRE_DELTA_ENTRY_SIZE) in
    if negb (rd =? WIRE_DELTA_ENTRY_SIZE) then ret true
    else
      let* '(pg_start, pg_count) := lift (wire_decode_delta_entry e) in
      let* s := DimBin.get_bin in
      let byte_len := pg_count * page_size s in
      let* ok := onsys sys_ok in
      if negb ok then ret true
      else
        let* '(rd, buf) := onsys (read_at dfd (pos + WIRE_DELTA_ENTRY_SIZE) byte_len) in
        if negb (rd =? byte_len) then ret true
        else
          let* wr := onsys (pwrite (fd s) buf (pg_start * page_size s)) in
          if negb (wr =? byte_len) then ret false
          else replay_runs n dfd (pos + WIRE_DELTA_ENTRY_SIZE + byte_len)
  end.

(** [total_pages = (total_entries + entries_per_page - 1) / entries_per_page] *)
Definition raise_bump (s : DimBin P) (bump : Z) : DimBin P :=
  set_total_pages (set_total_entries (set_bump_ptr s bump) bump)
    (u64 (u64 (bump + entries_per_page s) - 1) / u64 (entries_per_page s)).

Definition ckpt_replay_delta (path : option string) : M (BinSt P) graveldb_status_t :=
  match path with
  | None => ret GRAVELDB_ERR_INVALID
  | Some path =>
    let* dfd := onsys (open_path false false path) in
    if dfd <? 0 then ret GRAVELDB_ERR_IO
    else
      let* '(rd, hdr_buf) := onsys (read_at dfd 0 WIRE_DELTA_HDR_SIZE) in
      if negb (rd =? WIRE_DELTA_HDR_SIZE) then ret GRAVELDB_ERR_CORRUPT
      else
        let* hdr := lift (wire_decode_delta_hdr hdr_buf) in
        if negb (dh_magic hdr =? GRAVELDB_DELTA_MAGIC) || negb (dh_version hdr =? 1) then ret GRAVELDB_ERR_CORRUPT
        else
          let* s := DimBin.get_bin in
          if negb (i32 (dh_dim hdr) =? DimBin.dim s) then ret GRAVELDB_ERR_INVALID
          else
            let* ok := replay_runs (Z.to_nat (dh_num_entries hdr)) dfd WIRE_DELTA_HDR_SIZE in
            if negb ok then ret GRAVELDB_ERR_IO
            else
              let* s := DimBin.get_bin in
              do* when (bump_ptr s <? dh_bump_ptr hdr)
                    (if entries_per_page s =? 0 then lift Ub else upd (fun s => raise_bump s (dh_bump_ptr hdr))) in
              ret GRAVELDB_OK
  end.

(** ** The delta files of a directory *)

(** The names in a directory. *)
Definition dir_entries (dir : string) (ns : gmap string Z) : list string :=
  readdir_order (omap (fun e => scan_lit (dir +:+ "/") e) (fst <$> map_to_list ns)).

(** "%s/%s" into 1024 characters. *)
Definition entry_path (dir name : string) : string := String.substring 0 1023 (dir +:+ "/" +:+ name).

(** [found]: the deltas so far; [None] when [realloc] failed. *)
Fixpoint list_entries (dir : string) (dim capacity : Z) (found : list CkptDeltaInfo) (es : list string) : M Sys (option (list CkptDeltaInfo)) :=
  match es with
  | [] => ret (Some found)
  | e :: es =>
    let* p := lift (parse_delta_filename e) in
    match p with
    | None => list_entries dir dim capacity found es
    | Some (gen, d) =>
      if negb (d =? dim) then list_entries dir dim capacity found es
      else
        let full := capacity <=? zlen found in
        let* ok := if full then sys_ok else ret true in
        if negb ok then ret None
        else
          let* dup := sys_ok in
          list_entries dir dim (if full then capacity * 2 else capacity)
            (found ++ [mkCkptDeltaInfo (if (dup : bool) then Some (entry_path dir e) else None) gen d]) es
    end
  end.

(** The deltas of a dimension, oldest first; [qsort] leaves the order of equal
    generations open, here it is the one of the directory. *)
Definition ckpt_list_deltas (dir : string) (dim : Z) : M Sys (list CkptDeltaInfo) :=
  let* ok := sys_ok in
  if negb ok then ret []
  else
    let* ok := sys_ok in
    if negb ok then ret []
    else
      let* ns := gets names in
      let* found := list_entries (ckpt_dir dir) dim 32 [] (dir_entries (ckpt_dir dir) ns) in
      ret (match found with Some l => merge_sort cmp_delta_info l | None => [] end).

Definition unlink_delta (d : CkptDeltaInfo) : M Sys unit :=
  match cd_path d with Some p => unlink p | None => ret tt end.

Definition ckpt_purge_old_deltas (dir : string) (dim last_full_generation : Z) : M Sys graveldb_status_t :=
  let* deltas := ckpt_list_deltas dir dim in
  do* forM deltas (fun d => when (cd_generation d <=? last_full_generation) (unlink_delta d)) in
  ret GRAVELDB_OK.

(** ** Recovery *)

(** The deltas of one bin that are newer than its meta file. *)
Definition recover_bin (dir : string) : M (BinSt P) unit :=
  let* s := DimBin.get_bin in
  let* '(_, meta) := onsys (ckpt_read_meta dir (DimBin.dim s)) in
  let base_generation := match meta with Some m => bm_generation m | None => 0 end in
  let* deltas := onsys (ckpt_list_deltas dir (DimBin.dim s)) in
  forM deltas (fun d => when (base_generation <? cd_generation d) (let* _ := ckpt_replay_delta (cd_path d) in ret tt)).

Definition ckpt_recover : M (DbSt P) graveldb_status_t :=
  let* d := get_db in
  let* dir := lift (deref (data_dir (config d))) in
  do* for_bins (fun _ addr => with_bin addr (recover_bin dir)) in
  ret GRAVELDB_OK.

End delta.
