(* ===== verification/DeltaProps.v ===== *)
(** DeltaProps: a delta file that was dumped is replayed.

    The bytes [ckpt_dump_delta] writes, as a function of the data file and the
    dirty pages, and what [ckpt_replay_delta] makes of them. *)

From Stdlib Require Import String.
From stdpp Require Import strings sorting.
From S2P Require Import Prelude LinearProbe Wire SlabAlloc Overlay DirtyTracker KeyBTree HashIndex DimRegistry IoBatch PageMap DimBin BinKeys BinFlush Names CkptMeta Engine DeltaFile.

#[local] Arguments file_write : simpl never.
#[local] Opaque crc32_bit.

(** ** The bytes of a delta file *)

Definition entry_image (pg_start pg_count : Z) : list Z := le_split 4 pg_start ++ le_split 4 pg_count.

(** The bytes of [n] pages from page [p]. *)
Definition pages_bytes (psz : Z) (f : list Z) (p n : Z) : list Z := take (Z.to_nat (n * psz)) (drop (Z.to_nat (p * psz)) f).

Definition run_image (psz : Z) (f : list Z) (r : list Z) : list Z := entry_image (hd 0 r) (zlen r) ++ pages_bytes psz f (hd 0 r) (zlen r).

Definition body_image (psz : Z) (f : list Z) (rs : list (list Z)) : list Z := concat (run_image psz f <$> rs).

(** The header up to the number of entries. *)
Definition hdr_front (h : DeltaHdr) : list Z :=
  le_split 4 (dh_magic h) ++ le_split 4 (dh_version h) ++ le_split 8 (dh_generation h) ++ le_split 4 (dh_dim h) ++
  le_split 4 (dh_entry_size h) ++ le_split 8 (dh_bump_ptr h).

Definition hdr_image (h : DeltaHdr) : list Z := hdr_front h ++ le_split 4 (dh_num_entries h) ++ le_split 4 (dh_checksum h).

Lemma hdr_image_bytes h : Forall is_byte (hdr_image h).
Proof. unfold hdr_image, hdr_front. rewrite !Forall_app. auto 10 using le_split_bytes. Qed.

(** Overwriting a field of a file. *)
Lemma file_write_mid (a x b c : list Z) off : off = zlen a -> List.length x = List.length b -> b <> [] ->
  file_write (a ++ x ++ c) off b = a ++ b ++ c.
Proof.
  intros -> Hl Hb. unfold file_write. destruct b as [|z b']; [done|]. set (b := z :: b') in *. unfold zlen. rewrite Nat2Z.id.
  rewrite <- (app_assoc a). rewrite take_app_length. rewrite drop_app_ge by lia. replace (List.length a + List.length b - List.length a)%nat with (List.length x) by lia.
  by rewrite drop_app_length.
Qed.

Lemma file_write_end (f b : list Z) off : off = zlen f -> file_write f off b = f ++ b.
Proof.
  intros ->. unfold file_write. destruct b as [|z b']; [by rewrite app_nil_r|]. unfold zlen. rewrite Nat2Z.id.
  rewrite take_app_length, drop_ge by lia. by rewrite app_nil_r.
Qed.

(** [write] at the end of a file, when nothing fails. *)
Lemma write_end_quiet y fd f b : answers y = [] -> files y !! fd = Some f ->
  write_end fd b y = Ret (zlen b, set_files y (<[fd := f ++ b]> (files y))).
Proof.
  intros Ha Hf. unfold write_end, gets. unfold bindM at 1. cbn [res_bind fst snd]. rewrite Hf, (pwrite_quiet y fd f) by done. by rewrite file_write_end.
Qed.

(** [fdatasync] when nothing fails. *)
Definition add_synced (y : Sys) (fd : Z) : Sys := mkSys (files y) (bufs y) (answers y) (synced y ++ [fd]) (names y).

Lemma fdatasync_quiet y fd : answers y = [] -> fdatasync fd y = Ret (0, add_synced y fd).
Proof. intros Ha. unfold fdatasync. unfold bindM at 1. rewrite sys_ok_quiet by done. done. Qed.

Lemma set_files_twice y f1 f2 : set_files (set_files y f1) f2 = set_files y f2.
Proof. done. Qed.

Lemma zero_bytes n : Forall is_byte (replicate n 0).
Proof. apply Forall_replicate. unfold is_byte. lia. Qed.

Section props.
Context {P : Type} `{!ObjectPool P} {host : WireHost} {host_ok : WireHostOk host}.
Implicit Types b : DimBin P.

Lemma encode_entry_image p n : wire_encode_delta_entry (replicate (Z.to_nat WIRE_DELTA_ENTRY_SIZE) 0) p n = Ret (entry_image p n).
Proof. unfold wire_encode_delta_entry. rewrite put_u32_ok by (vm_compute; intuition congruence). cbn [res_bind]. rewrite put_u32_ok by (vm_compute; intuition congruence). done. Qed.

Lemma decode_entry_image p n : is_u32 p -> is_u32 n -> wire_decode_delta_entry (entry_image p n) = Ret (p, n).
Proof.
  intros Hp Hn. destruct (delta_entry_decode_encode host host (replicate 8 0) p n eq_refl (zero_bytes 8) Hp Hn) as (buf & E & _ & D).
  pose proof (encode_entry_image p n) as E'. change (Z.to_nat WIRE_DELTA_ENTRY_SIZE) with 8%nat in E'. rewrite E' in E. by injection E as <-.
Qed.

Lemma encode_hdr_image h : wire_encode_delta_hdr (replicate (Z.to_nat WIRE_DELTA_HDR_SIZE) 0) h = Ret (hdr_image h).
Proof.
  unfold wire_encode_delta_hdr. do 7 (first [rewrite put_u32_ok by (vm_compute; intuition congruence)|rewrite put_u64_ok by (vm_compute; intuition congruence)]; cbn [res_bind]).
  rewrite put_u32_ok by (vm_compute; intuition congruence). done.
Qed.

Lemma decode_hdr_image h : delta_hdr_ok h -> wire_decode_delta_hdr (hdr_image h) = Ret h.
Proof.
  intros Hh. destruct (delta_hdr_decode_encode host host (replicate 40 0) h eq_refl (zero_bytes 40) Hh) as (buf & E & _ & D).
  pose proof (encode_hdr_image h) as E'. change (Z.to_nat WIRE_DELTA_HDR_SIZE) with 40%nat in E'. rewrite E' in E. by injection E as <-.
Qed.

(** ** Dumping *)

(** A run of pages of the file. *)
Definition run_in (psz : Z) (f r : list Z) : Prop := r <> [] /\ 0 <= hd 0 r /\ (hd 0 r + zlen r) * psz <= zlen f /\ hd 0 r + zlen r < 2 ^ 32.

Lemma pages_bytes_len psz f p n : 0 < psz -> 0 <= p -> 0 <= n -> (p + n) * psz <= zlen f -> zlen (pages_bytes psz f p n) = n * psz.
Proof. intros Hz Hp Hn Hl. unfold pages_bytes, zlen in *. rewrite length_take, length_drop. nia. Qed.

Lemma dump_runs_image b cfd (rs : list (list Z)) y f g acc :
  answers y = [] -> files y !! fd b = Some f -> files y !! cfd = Some g -> cfd <> fd b -> 0 < page_size b ->
  (forall r, r ∈ rs -> run_in (page_size b) f r) -> 0 <= da_entries acc -> da_entries acc + zlen rs < 2 ^ 32 ->
  exists n, dump_delta_runs b cfd acc rs y =
    Ret (mkDeltaAcc (crc32_update (da_crc acc) (body_image (page_size b) f rs)) n (da_entries acc + zlen rs),
         set_files y (<[cfd := g ++ body_image (page_size b) f rs]> (files y))) /\ (rs = [] -> n = da_bytes acc).
Proof.
  intros Hq Hf Hg Hne Hz. revert y g acc Hq Hf Hg. induction rs as [|r rs IH]; intros y g acc Hq Hf Hg Hr He Hn.
  { exists (da_bytes acc). split; [|done]. unfold body_image. simpl. rewrite app_nil_r, insert_id by done. unfold zlen. simpl. rewrite Z.add_0_r.
    destruct acc, y. done. }
  assert (zlen (r :: rs) = 1 + zlen rs) as Hl by (unfold zlen; simpl; lia). pose proof (zlen_nonneg rs). pose proof (zlen_nonneg r).
  destruct (Hr r ltac:(set_solver)) as (Hr0 & Hr1 & Hr2 & Hr3). cbn [dump_delta_runs]. unfold bindM at 1. unfold dump_delta_run. rewrite encode_entry_image.
  unfold bindM at 1. cbn [lift res_bind fst snd]. unfold bindM at 1. rewrite sys_ok_quiet by done. cbn [res_bind fst snd negb].
  unfold bindM at 1. rewrite (pread_quiet y (fd b) f) by done. cbn [res_bind fst snd]. fold (pages_bytes (page_size b) f (hd 0 r) (zlen r)).
  rewrite pages_bytes_len by done. rewrite Z.eqb_refl. cbn [negb]. set (d := pages_bytes _ _ _ _). set (e := entry_image _ _).
  unfold bindM at 1. rewrite (write_end_quiet y cfd g) by done. cbn [res_bind fst snd]. change (zlen e) with WIRE_DELTA_ENTRY_SIZE. rewrite Z.eqb_refl. cbn [negb].
  set (y1 := set_files y _). unfold bindM at 1. rewrite (write_end_quiet y1 cfd (g ++ e)) by (done || apply lookup_insert_eq). cbn [res_bind fst snd].
  assert (zlen d = zlen r * page_size b) as Hd by (by apply pages_bytes_len). rewrite Hd, Z.eqb_refl. cbn [negb ret res_bind fst snd].
  unfold y1. rewrite set_files_twice. cbn [set_files files]. rewrite insert_insert_eq. set (y2 := set_files y _).
  set (acc1 := mkDeltaAcc _ _ _). assert (da_entries acc1 = da_entries acc + 1) as Ha1 by (apply u32_id; lia).
  destruct (IH y2 ((g ++ e) ++ d) acc1) as (n & E & _);
    [done|simpl; by rewrite lookup_insert_ne|apply lookup_insert_eq|intros; apply Hr; set_solver|lia|lia|].
  rewrite E. unfold y2. rewrite set_files_twice. cbn [set_files files]. rewrite insert_insert_eq. exists n. split; [|done]. f_equal. f_equal.
  - f_equal; [|lia]. unfold acc1, crc32_update, body_image. cbn [da_crc]. rewrite fmap_cons. cbn [concat]. unfold run_image. fold e d. by rewrite !foldl_app.
  - unfold body_image. rewrite fmap_cons. cbn [concat]. unfold run_image. fold e d. by rewrite <- !app_assoc.
Qed.

(** The delta file of the dirty pages [pages] of a bin, with a checksum field. *)
Definition delta_bytes b (f pages : list Z) (crc : Z) : list Z :=
  let rs := runs consecutive pages in hdr_image (delta_hdr_of b (zlen rs) crc) ++ body_image (page_size b) f rs.

(** The checksum of the dump: that of the header without it, and that of the runs. *)
Definition delta_crc b (f pages : list Z) : Z :=
  let rs := runs consecutive pages in
  Z.lxor (crc32_simple (take 36 (hdr_image (delta_hdr_of b (zlen rs) 0)))) (not32 (crc32_update 0xFFFFFFFF (body_image (page_size b) f rs))).

Definition delta_image b (f pages : list Z) : list Z := delta_bytes b f pages (delta_crc b f pages).

Lemma delta_crc_u32 b f pages : is_u32 (delta_crc b f pages).
Proof. apply lxor_u32; apply not32_range. Qed.

(** Pages that a file has, in full. *)
Definition pages_in (psz : Z) (f pages : list Z) : Prop := forall p, p ∈ pages -> 0 <= p < UINT32_MAX /\ (p + 1) * psz <= zlen f.

Lemma run_seq (pages r : list Z) : (forall p, p ∈ pages -> 0 <= p < UINT32_MAX) -> r ∈ runs consecutive pages ->
  r = seqZ (hd 0 r) (zlen r) /\ r <> [].
Proof.
  intros Hp Hr. destruct (runs_consecutive pages r Hp Hr) as (p & E & Hne). split; [|done]. destruct r as [|x r]; [done|].
  rewrite E at 1. f_equal. assert (0 < zlen (x :: r)) as Hl by (unfold zlen; simpl; lia). rewrite seqZ_cons in E by done. by injection E.
Qed.

Lemma runs_in psz f pages r : 0 < psz -> pages_in psz f pages -> r ∈ runs consecutive pages -> run_in psz f r.
Proof.
  intros Hz Hp Hr. destruct (run_seq pages r) as [E Hne]; [intros p Hp'; by apply Hp|done|]. set (p := hd 0 r) in *.
  assert (0 < zlen r) as Hl by (destruct r; [done|]; unfold zlen; simpl; lia).
  assert (forall q, p <= q < p + zlen r -> q ∈ pages) as Hin by (intros q Hq; apply (runs_elem _ _ _ _ Hr); rewrite E; by apply elem_of_seqZ).
  destruct (Hp p) as [H1 _]; [apply Hin; lia|]. destruct (Hp (p + zlen r - 1)) as [H2 H3]; [apply Hin; lia|].
  split; [done|]. fold p. unfold UINT32_MAX in *. split; [lia|]. split; [nia|lia].
Qed.

Lemma runs_le {A} (ok : A -> A -> bool) (l : list A) : zlen (runs ok l) <= zlen l.
Proof.
  unfold zlen. apply inj_le. induction l as [|x l IH]; [done|]. simpl. destruct l as [|z l]; [simpl; lia|].
  destruct (runs_cons_ne ok z l) as (r & rs & E). rewrite E in *. destruct (ok x z); simpl in *; lia.
Qed.

Lemma dump_delta_spec b dir y f pages :
  names_ok y -> answers y = [] -> files y !! fd b = Some f -> names y !! delta_path dir (generation (dirty b)) (DimBin.dim b) <> Some (fd b) ->
  0 < page_size b -> dirty_tracker_scan_ckpt (dirty b) GRAVELDB_MAX_DIRTY = Ret pages -> pages_in (page_size b) f pages -> zlen pages < 2 ^ 32 ->
  exists cfd n y1, ckpt_dump_delta b dir y = Ret (GRAVELDB_OK, Some n, y1) /\ names_ok y1 /\ answers y1 = [] /\
    names y1 = <[delta_path dir (generation (dirty b)) (DimBin.dim b) := cfd]> (names y) /\
    (forall k, k <> cfd -> files y1 !! k = files y !! k) /\ files y1 !! cfd = Some (delta_image b f pages) /\
    (names y !! delta_path dir (generation (dirty b)) (DimBin.dim b) = Some cfd \/ files y !! cfd = None) /\ 3 <= cfd.
Proof.
  intros Hok Hq Hf Hne Hz Hscan Hin Hlen. set (path := delta_path _ _ _) in *. unfold ckpt_dump_delta. fold path.
  destruct (open_path_spec true true path y Hok) as (cfd & y0 & E0 & Hok0 & Hq0 & [(-> & _ & _ & H)|(H3 & En & Ef & Hold & Hnew)]); [by destruct (H Hq)|].
  specialize (Hq0 Hq). assert (cfd <> fd b) as Hcb. { intros ->. destruct Hold as [Ho|(_ & _ & Ho)]; congruence. }
  assert (files y0 !! fd b = Some f) as Hf0 by (by rewrite Ef by done).
  unfold bindM at 1. rewrite E0. cbn [res_bind fst snd]. rewrite (proj2 (Z.ltb_ge cfd 0)) by lia.
  unfold bindM at 1. rewrite sys_ok_quiet by done. cbn [res_bind fst snd negb]. rewrite Hscan. unfold bindM at 1. cbn [lift res_bind fst snd].
  unfold encode_delta_hdr. rewrite encode_hdr_image. unfold bindM at 1. cbn [lift res_bind fst snd].
  unfold bindM at 1. rewrite (write_end_quiet y0 cfd []) by done. cbn [res_bind fst snd]. change (zlen (hdr_image _)) with WIRE_DELTA_HDR_SIZE. rewrite Z.eqb_refl. cbn [negb].
  set (y1 := set_files y0 _). set (rs := runs consecutive pages). pose proof (runs_le consecutive pages). fold rs in H.
  destruct (dump_runs_image b cfd rs y1 f (hdr_image (delta_hdr_of b 0 0)) (mkDeltaAcc 0xFFFFFFFF WIRE_DELTA_HDR_SIZE 0)) as (n & E & _); try done;
    [by simpl; rewrite lookup_insert_ne|apply lookup_insert_eq|intros r Hr; by apply (runs_in _ f pages)|cbn [da_entries]; lia|].
  unfold bindM at 1. rewrite E. cbn [res_bind fst snd]. unfold y1. rewrite set_files_twice. cbn [set_files files da_entries da_crc]. rewrite insert_insert_eq, Z.add_0_l.
  set (body := body_image (page_size b) f rs). set (y2 := set_files y0 _).
  assert (forall v, wire_put_u32 (replicate 4 0) 0 v = Ret (le_split 4 v)) as Hput by (intros v; by rewrite put_u32_ok by (vm_compute; intuition congruence)).
  rewrite Hput. unfold bindM at 1. cbn [lift res_bind fst snd]. unfold bindM at 1. rewrite (pwrite_quiet y2 cfd (hdr_image (delta_hdr_of b 0 0) ++ body)) by (done || apply lookup_insert_eq).
  cbn [res_bind fst snd]. change (zlen (le_split 4 _)) with 4. rewrite Z.eqb_refl. cbn [negb].
  rewrite encode_hdr_image. unfold bindM at 1. cbn [lift res_bind fst snd]. rewrite Hput. unfold bindM at 1. cbn [lift res_bind fst snd].
  change (Z.to_nat (WIRE_DELTA_HDR_SIZE - 4)) with 36%nat. set (crc := Z.lxor _ _). unfold y2. rewrite set_files_twice. cbn [set_files files]. rewrite insert_insert_eq.
  unfold hdr_image at 1. rewrite <- !app_assoc. rewrite file_write_mid by done. set (y3 := set_files y0 _). unfold bindM at 1.
  rewrite (pwrite_quiet y3 cfd (hdr_front (delta_hdr_of b 0 0) ++ le_split 4 (zlen rs) ++ le_split 4 (dh_checksum (delta_hdr_of b 0 0)) ++ body)) by (done || apply lookup_insert_eq).
  cbn [res_bind fst snd]. change (zlen (le_split 4 _)) with 4. rewrite Z.eqb_refl. cbn [negb]. unfold y3. rewrite set_files_twice. cbn [set_files files]. rewrite insert_insert_eq.
  rewrite (app_assoc (hdr_front _)), file_write_mid by done. set (y4 := set_files y0 _). unfold bindM at 1. rewrite fdatasync_quiet by done. cbn [res_bind fst snd ret].
  exists cfd, n, (add_synced y4 cfd). split; [done|]. split; [|split; [done|]].
  - split; simpl; rewrite En.
    + intros p k Hk. destruct (no_file _ Hok0 p k ltac:(by rewrite En)) as [? ?]. split; [done|].
      destruct (decide (k = cfd)) as [->|]; [rewrite lookup_insert_eq; by eexists|by rewrite lookup_insert_ne].
    + intros p q k Hp' Hq'. apply (no_inj _ Hok0 p q k); by rewrite En.
  - split; [done|]. simpl. split; [intros k Hk; rewrite lookup_insert_ne by done; by apply Ef|]. split; [|split; [naive_solver|done]].
    rewrite lookup_insert_eq. apply (f_equal Some). unfold delta_image, delta_bytes, delta_crc. fold rs body crc. unfold hdr_image at 1. by rewrite <- !app_assoc.
Qed.

(** ** Replaying *)

(** A file after the pages of a run were written to it. *)
Definition apply_run (psz : Z) (f t r : list Z) : list Z := file_write t (hd 0 r * psz) (pages_bytes psz f (hd 0 r) (zlen r)).

(** A [read] of the next [len] bytes. *)
Lemma read_next y fd (pre x suf : list Z) pos len :
  answers y = [] -> files y !! fd = Some (pre ++ x ++ suf) -> pos = zlen pre -> len = zlen x -> read_at fd pos len y = Ret (len, x, y).
Proof.
  intros Hq Hf -> ->. unfold read_at. rewrite (pread_quiet y fd (pre ++ x ++ suf)) by done. unfold zlen. rewrite !Nat2Z.id, drop_app_length, take_app_length. done.
Qed.

Lemma replay_runs_spec (rs : list (list Z)) (st : BinSt P) dfd pos psz f t pre suf :
  answers (sys st) = [] -> files (sys st) !! fd (bin st) = Some t -> files (sys st) !! dfd = Some (pre ++ body_image psz f rs ++ suf) -> pos = zlen pre ->
  dfd <> fd (bin st) -> page_size (bin st) = psz -> 0 < psz -> (forall r, r ∈ rs -> run_in psz f r) ->
  replay_runs (List.length rs) dfd pos st =
  Ret (true, mkBinSt (bin st) (set_files (sys st) (<[fd (bin st) := foldl (apply_run psz f) t rs]> (files (sys st))))).
Proof.
  intros Hq Hf Hd Hpos Hne Hpsz Hz. revert st t pre pos Hq Hf Hd Hpos Hne Hpsz. induction rs as [|r rs IH]; intros st t pre pos Hq Hf Hd Hpos Hne Hpsz Hr.
  { simpl. rewrite insert_id by done. by destruct st as [? []]. }
  destruct (Hr r ltac:(set_solver)) as (Hr0 & Hr1 & Hr2 & Hr3). pose proof (zlen_nonneg r).
  assert (body_image psz f (r :: rs) = entry_image (hd 0 r) (zlen r) ++ pages_bytes psz f (hd 0 r) (zlen r) ++ body_image psz f rs) as Eb.
  { unfold body_image. rewrite fmap_cons. cbn [concat]. unfold run_image. by rewrite <- app_assoc. }
  rewrite Eb, <- !app_assoc in Hd. set (e := entry_image _ _) in *. set (d := pages_bytes _ _ _ _) in *.
  assert (zlen d = zlen r * psz) as Hdl by (by apply pages_bytes_len). cbn [List.length replay_runs].
  unfold bindM at 1. unfold onsys at 1. rewrite (read_next (sys st) dfd pre e (d ++ body_image psz f rs ++ suf)) by done. cbn [res_bind fst snd].
  rewrite Z.eqb_refl. cbn [negb]. unfold e at 1. rewrite decode_entry_image by (unfold is_u32; lia). unfold bindM at 1. cbn [lift res_bind fst snd].
  unfold DimBin.get_bin, gets. unfold bindM at 1. cbn [res_bind fst snd bin sys]. rewrite Hpsz.
  unfold bindM at 1. unfold onsys at 1. cbn [sys bin]. rewrite sys_ok_quiet by done. cbn [res_bind fst snd negb].
  unfold bindM at 1. unfold onsys at 1. cbn [sys bin].
  rewrite (read_next (sys st) dfd (pre ++ e) d (body_image psz f rs ++ suf)); [|done|by rewrite <- app_assoc|rewrite zlen_app, Hpos; done|done].
  cbn [res_bind fst snd]. rewrite Z.eqb_refl. cbn [negb]. unfold bindM at 1. unfold onsys at 1. cbn [sys bin]. rewrite (pwrite_quiet _ _ t) by done. cbn [res_bind fst snd].
  rewrite Hdl, Z.eqb_refl. cbn [negb]. fold (apply_run psz f t r). set (st1 := mkBinSt _ _).
  rewrite (IH st1 (apply_run psz f t r) (pre ++ e ++ d)); try done.
  - unfold st1. cbn [bin sys]. rewrite set_files_twice. cbn [set_files files]. by rewrite insert_insert_eq.
  - simpl. by rewrite lookup_insert_eq.
  - simpl. rewrite lookup_insert_ne by done. by rewrite <- !app_assoc.
  - rewrite !zlen_app, Hdl, Hpos. change (zlen e) with WIRE_DELTA_ENTRY_SIZE. lia.
  - intros; apply Hr; set_solver.
Qed.

(** The pages of the delta are those of the dumped file, the others are as before. *)
Lemma apply_runs_bytes psz f (rs : list (list Z)) t pg o :
  0 < psz -> (forall r, r ∈ rs -> run_in psz f r /\ r = seqZ (hd 0 r) (zlen r)) -> 0 <= pg -> 0 <= o < psz ->
  file_byte (foldl (apply_run psz f) t rs) (pg * psz + o) = if decide (pg ∈ concat rs) then file_byte f (pg * psz + o) else file_byte t (pg * psz + o).
Proof.
  intros Hz Hr Hpg Ho. revert t. induction rs as [|r rs IH]; intros t; [done|]. destruct (Hr r ltac:(set_solver)) as [(Hr0 & Hr1 & Hr2 & Hr3) Hseq].
  pose proof (zlen_nonneg r). cbn [foldl]. rewrite IH by (intros; apply Hr; set_solver). unfold apply_run. set (d := pages_bytes _ _ _ _).
  assert (zlen d = zlen r * psz) as Hdl by (by apply pages_bytes_len).
  rewrite file_byte_write by nia. rewrite Hdl. cbn [concat].
  destruct (decide (pg ∈ concat rs)) as [Hin|Hin]; [rewrite decide_True by set_solver; done|].
  assert (pg ∈ r <-> hd 0 r <= pg < hd 0 r + zlen r) as Hmem by (rewrite Hseq at 1; apply elem_of_seqZ).
  destruct (decide (hd 0 r <= pg < hd 0 r + zlen r)) as [Hrg|Hrg].
  - rewrite decide_True by set_solver. rewrite (proj2 (Z.leb_le _ _)), (proj2 (Z.ltb_lt _ _)) by nia. cbn [andb]. unfold file_byte. f_equal.
    unfold d, pages_bytes. rewrite lookup_take_lt by nia. rewrite lookup_drop. f_equal. nia.
  - rewrite decide_False by (rewrite elem_of_app; tauto).
    destruct (Z.leb_spec (hd 0 r * psz) (pg * psz + o)); [|done]. destruct (Z.ltb_spec (pg * psz + o) (hd 0 r * psz + zlen r * psz)); [|done]. exfalso. nia.
Qed.

Lemma i32_u32 z : - 2 ^ 31 <= z < 2 ^ 31 -> i32 (u32 z) = z.
Proof. intros Hz. unfold i32, u32. rewrite Z.add_mod_idemp_l by lia. rewrite Z.mod_small by lia. lia. Qed.

(** The fields of the bin fit the header. *)
Definition dump_ok b : Prop := 0 <= generation (dirty b) < 2 ^ 64 /\ 0 <= bump_ptr b < 2 ^ 64 /\ - 2 ^ 31 <= DimBin.dim b < 2 ^ 31.

Lemma delta_hdr_of_ok b n crc : dump_ok b -> is_u32 n -> is_u32 crc -> delta_hdr_ok (delta_hdr_of b n crc).
Proof.
  intros (Hg & Hb & Hd) Hn Hc. unfold delta_hdr_ok, delta_hdr_of, is_u32, is_u64 in *. simpl. unfold GRAVELDB_DELTA_MAGIC.
  pose proof (Z.mod_pos_bound (DimBin.dim b) (2 ^ 32)). pose proof (Z.mod_pos_bound (entry_size b) (2 ^ 32)). unfold u32. lia.
Qed.

(** Replaying the file of [delta_image], whatever its checksum field. *)
Lemma replay_image b f pages (s : DimBin P) t y dfd path crc :
  dump_ok b -> is_u32 crc -> answers y = [] -> names y !! path = Some dfd -> 3 <= dfd -> files y !! dfd = Some (delta_bytes b f pages crc) ->
  files y !! fd s = Some t -> dfd <> fd s -> DimBin.dim s = DimBin.dim b -> page_size s = page_size b -> 0 < page_size b -> entries_per_page s <> 0 ->
  pages_in (page_size b) f pages -> zlen pages < 2 ^ 32 ->
  let t' := foldl (apply_run (page_size b) f) t (runs consecutive pages) in
  ckpt_replay_delta (Some path) (mkBinSt s y) =
  Ret (GRAVELDB_OK, mkBinSt (if bump_ptr s <? bump_ptr b then raise_bump s (bump_ptr b) else s) (set_files y (<[fd s := t']> (files y)))).
Proof.
  intros Hok Hcrc Hq Hn H3 Hd Ht Hne Hdim Hpsz Hz Hepp Hin Hlen t'. set (rs := runs consecutive pages) in *. pose proof (runs_le consecutive pages) as Hle. fold rs in Hle.
  unfold delta_bytes in Hd. fold rs in Hd. set (body := body_image _ _ _) in *. pose proof (zlen_nonneg rs). set (h := delta_hdr_of b (zlen rs) crc) in *.
  assert (delta_hdr_ok h) as Hh by (apply delta_hdr_of_ok; [done|unfold is_u32; lia|done]).
  cbn [ckpt_replay_delta]. unfold bindM at 1. unfold onsys at 1. cbn [sys bin]. rewrite (open_quiet y path dfd) by done. cbn [res_bind fst snd].
  rewrite (proj2 (Z.ltb_ge dfd 0)) by lia. unfold bindM at 1. unfold onsys at 1. cbn [sys bin].
  rewrite (read_next y dfd [] (hdr_image h) body) by done. cbn [res_bind fst snd]. rewrite Z.eqb_refl. cbn [negb].
  rewrite decode_hdr_image by done. unfold bindM at 1. cbn [lift res_bind fst snd]. change (dh_magic h) with GRAVELDB_DELTA_MAGIC. change (dh_version h) with 1.
  rewrite !Z.eqb_refl. cbn [negb orb]. unfold DimBin.get_bin, gets. unfold bindM at 1. cbn [res_bind fst snd bin sys].
  change (dh_dim h) with (u32 (DimBin.dim b)). destruct Hok as (Hg & Hb & Hd2). rewrite i32_u32 by done. rewrite Hdim, Z.eqb_refl. cbn [negb].
  change (dh_num_entries h) with (zlen rs). unfold zlen at 1. rewrite Nat2Z.id. unfold bindM at 1.
  rewrite (replay_runs_spec rs (mkBinSt s y) dfd WIRE_DELTA_HDR_SIZE (page_size b) f t (hdr_image h) []);
    [|done|done|by rewrite app_nil_r|done|done|done|done|intros r Hr; by apply (runs_in _ f pages)].
  cbn [res_bind fst snd negb]. unfold bindM at 1. cbn [res_bind fst snd bin sys]. change (dh_bump_ptr h) with (bump_ptr b). fold t'.
  destruct (bump_ptr s <? bump_ptr b); cbn [when]; [|done]. rewrite (proj2 (Z.eqb_neq _ _)) by done. done.
Qed.

(** A file that ends after its header. *)
Lemma replay_header_only b n crc (s : DimBin P) y dfd path :
  dump_ok b -> is_u32 n -> is_u32 crc -> answers y = [] -> names y !! path = Some dfd -> 3 <= dfd -> files y !! dfd = Some (hdr_image (delta_hdr_of b n crc)) ->
  DimBin.dim s = DimBin.dim b -> entries_per_page s <> 0 ->
  ckpt_replay_delta (Some path) (mkBinSt s y) = Ret (GRAVELDB_OK, mkBinSt (if bump_ptr s <? bump_ptr b then raise_bump s (bump_ptr b) else s) y).
Proof.
  intros Hok Hn Hcrc Hq Hp H3 Hd Hdim Hepp. set (h := delta_hdr_of b n crc) in *. assert (delta_hdr_ok h) as Hh by (by apply delta_hdr_of_ok).
  cbn [ckpt_replay_delta]. unfold bindM at 1. unfold onsys at 1. cbn [sys bin]. rewrite (open_quiet y path dfd) by done. cbn [res_bind fst snd].
  rewrite (proj2 (Z.ltb_ge dfd 0)) by lia. unfold bindM at 1. unfold onsys at 1. cbn [sys bin].
  rewrite (read_next y dfd [] (hdr_image h) []) by (done || by rewrite Hd, app_nil_r). cbn [res_bind fst snd]. rewrite Z.eqb_refl. cbn [negb].
  rewrite decode_hdr_image by done. unfold bindM at 1. cbn [lift res_bind fst snd]. change (dh_magic h) with GRAVELDB_DELTA_MAGIC. change (dh_version h) with 1.
  rewrite !Z.eqb_refl. cbn [negb orb]. unfold DimBin.get_bin, gets. unfold bindM at 1. cbn [res_bind fst snd bin sys].
  change (dh_dim h) with (u32 (DimBin.dim b)). destruct Hok as (Hg & Hb & Hd2). rewrite i32_u32 by done. rewrite Hdim, Z.eqb_refl. cbn [negb].
  assert (replay_runs (Z.to_nat (dh_num_entries h)) dfd WIRE_DELTA_HDR_SIZE (mkBinSt s y) = Ret (true, mkBinSt s y)) as Er.
  { destruct (Z.to_nat (dh_num_entries h)) as [|k]; [done|]. cbn [replay_runs]. unfold bindM at 1. unfold onsys at 1, read_at. cbn [sys bin].
    rewrite (pread_quiet y dfd (hdr_image h)) by done. done. }
  rewrite (bindM_ret _ _ _ _ _ Er). cbn [negb]. unfold bindM at 1. cbn [res_bind fst snd bin sys]. change (dh_bump_ptr h) with (bump_ptr b).
  destruct (bump_ptr s <? bump_ptr b); cbn [when]; [|done]. rewrite (proj2 (Z.eqb_neq _ _)) by done. done.
Qed.

End props.

(** ** Properties *)

(** C14: a delta file round trip. [ckpt_dump_delta] of a bin whose dirty pages are in its data file
    returns OK, and replaying the file it leaves into the data file of any bin of the same dimension
    and page size, on a host of either byte order, returns OK: the dirty pages are then those of the
    dumped bin, every other page is as before, and the allocation pointer is the larger of the two. *)
Theorem ckpt_delta_roundtrip {P : Type} {pool : ObjectPool P} (hw hr : WireHost) (b s : DimBin P) dir y f pages :
  WireHostOk hw -> WireHostOk hr -> dump_ok b -> names_ok y -> answers y = [] -> files y !! fd b = Some f -> is_Some (files y !! fd s) ->
  let path := delta_path dir (generation (dirty b)) (DimBin.dim b) in
  names y !! path <> Some (fd b) -> names y !! path <> Some (fd s) ->
  DimBin.dim s = DimBin.dim b -> page_size s = page_size b -> 0 < page_size b -> entries_per_page s <> 0 ->
  dirty_tracker_scan_ckpt (dirty b) GRAVELDB_MAX_DIRTY = Ret pages -> pages_in (page_size b) f pages -> zlen pages < 2 ^ 32 ->
  exists n y1, @ckpt_dump_delta P hw b dir y = Ret (GRAVELDB_OK, Some n, y1) /\
    forall t, exists st' t', @ckpt_replay_delta P hr (Some path) (mkBinSt s (set_files y1 (<[fd s := t]> (files y1)))) = Ret (GRAVELDB_OK, st') /\
      files (sys st') !! fd s = Some t' /\ bump_ptr (bin st') = Z.max (bump_ptr s) (bump_ptr b) /\
      forall pg o, 0 <= pg -> 0 <= o < page_size b ->
        file_byte t' (pg * page_size b + o) = if decide (pg ∈ pages) then file_byte f (pg * page_size b + o) else file_byte t (pg * page_size b + o).
Proof.
  intros Hw Hr Hdump Hok Hq Hf [t0 Hs] path Hnb Hns Hdim Hpsz Hz Hepp Hscan Hin Hlen.
  destruct (dump_delta_spec (host := hw) b dir y f pages Hok Hq Hf Hnb Hz Hscan Hin Hlen) as (cfd & n & y1 & E & Hok1 & Hq1 & En & Ef & Himg & Hold & H3).
  exists n, y1. split; [done|]. intros t. assert (cfd <> fd s) as Hcs. { intros ->. destruct Hold as [?|?]; [done|congruence]. }
  set (y2 := set_files y1 _). eexists _, _. split; [|split; [|split]].
  - apply (replay_image (host := hr) b f pages s t y2 cfd path (delta_crc b f pages));
      [done|apply delta_crc_u32|done|simpl; by rewrite En, lookup_insert_eq|done|simpl; by rewrite lookup_insert_ne|simpl; by rewrite lookup_insert_eq|done..].
  - cbn [sys set_files files]. apply lookup_insert_eq.
  - cbn [bin]. destruct (Z.ltb_spec (bump_ptr s) (bump_ptr b)); cbn; lia.
  - intros pg o Hpg Ho. rewrite (apply_runs_bytes _ _ _ t pg o Hz); [by rewrite runs_concat| |done|done].
    intros r Hr'. split; [by apply (runs_in _ f pages)|]. apply (run_seq pages r); [intros p Hp; by apply Hin|done].
Qed.

(** A replay does not check the delta file. With any value in the checksum field the pages are
    written and the call returns OK; and a file that was cut off after its header also returns OK
    and raises the allocation pointer, with none of its pages written. *)
Theorem ckpt_replay_unchecked {P : Type} {pool : ObjectPool P} (host : WireHost) (b s : DimBin P) f pages t y dfd path crc :
  WireHostOk host -> dump_ok b -> is_u32 crc -> answers y = [] -> names y !! path = Some dfd -> 3 <= dfd -> files y !! fd s = Some t -> dfd <> fd s ->
  DimBin.dim s = DimBin.dim b -> page_size s = page_size b -> 0 < page_size b -> entries_per_page s <> 0 -> bump_ptr s < bump_ptr b ->
  pages_in (page_size b) f pages -> zlen pages < 2 ^ 32 ->
  (exists st', ckpt_replay_delta (Some path) (mkBinSt s (set_files y (<[dfd := delta_bytes b f pages crc]> (files y)))) = Ret (GRAVELDB_OK, st') /\
     files (sys st') !! fd s = Some (foldl (apply_run (page_size b) f) t (runs consecutive pages))) /\
  exists st', ckpt_replay_delta (Some path) (mkBinSt s (set_files y (<[dfd := hdr_image (delta_hdr_of b (zlen pages) crc)]> (files y)))) = Ret (GRAVELDB_OK, st') /\
     files (sys st') !! fd s = Some t /\ bump_ptr (bin st') = bump_ptr b.
Proof.
  intros Hh Hok Hcrc Hq Hn H3 Ht Hne Hdim Hpsz Hz Hepp Hbump Hin Hlen. pose proof (zlen_nonneg pages). split.
  - eexists. split; [apply (replay_image b f pages s t _ dfd path crc); try done; simpl; [by rewrite lookup_insert_eq|by rewrite lookup_insert_ne]|].
    cbn [sys set_files files]. apply lookup_insert_eq.
  - eexists. split; [apply (replay_header_only b (zlen pages) crc s _ dfd path); try done; simpl; by rewrite lookup_insert_eq|].
    split; [simpl; by rewrite lookup_insert_ne|]. cbn [bin]. by rewrite (proj2 (Z.ltb_lt _ _)).
Qed.

(** ** Witnesses *)

(** Pages 1 and 2 of four are dirty in the frozen tree; the other bin is at file 5. *)
Definition marked (dt : DirtyTracker) (pg : Z) : DirtyTracker :=
  match dirty_tracker_mark (mkMarkAlloc true true (fun _ => true)) dt pg with Ret dt => dt | _ => dt end.
Definition frozen_tracker : DirtyTracker :=
  match dirty_tracker_swap (marked (marked (mkDirtyTracker (mkDirtyTree [] 0 4096 1) (mkDirtyTree [] 0 4096 1) 1024 0) 1) 2) with Ret dt => dt | _ => zero_dirty end.
Definition delta_bin (fdn bump : Z) : DimBin (SlabPool * Mem) :=
  mkDimBin 4 16 16 1 fdn 4 None None bump (Some []) 1024 frozen_tracker zero_wb t_three zero_overlay false false 0 None 4 4 0 8192 8192.
Definition delta_sys : Sys := mkSys (<[3 := replicate 64 1]> (<[5 := replicate 64 2]> ∅)) ∅ [] [] ∅.

Lemma delta_bin_ok : dump_ok (delta_bin 3 4).
Proof. vm_compute. intuition congruence. Qed.

Lemma delta_pages_in : pages_in 16 (replicate 64 1) [1; 2].
Proof. intros p Hp. repeat (apply elem_of_cons in Hp as [->|Hp]; [vm_compute; intuition congruence|]). by apply elem_of_nil in Hp. Qed.

Lemma ckpt_delta_roundtrip_witness :
  exists n y1, @ckpt_dump_delta (SlabPool * Mem) host_le (delta_bin 3 4) "/db" delta_sys = Ret (GRAVELDB_OK, Some n, y1) /\
    forall t, exists st' t', @ckpt_replay_delta (SlabPool * Mem) host_be (Some "/db/ckpt/gen_0001_d4_delta.bin") (mkBinSt (delta_bin 5 0) (set_files y1 (<[5 := t]> (files y1)))) = Ret (GRAVELDB_OK, st') /\
      files (sys st') !! 5 = Some t' /\ bump_ptr (bin st') = Z.max 0 4 /\
      forall pg o, 0 <= pg -> 0 <= o < 16 ->
        file_byte t' (pg * 16 + o) = if decide (pg ∈ [1; 2]) then file_byte (replicate 64 1) (pg * 16 + o) else file_byte t (pg * 16 + o).
Proof.
  apply (ckpt_delta_roundtrip host_le host_be (delta_bin 3 4) (delta_bin 5 0) "/db" delta_sys (replicate 64 1) [1; 2]);
    [apply _|apply _|apply delta_bin_ok| |done|done|vm_compute; by eexists|done|done|done|done|done|done|vm_compute; done|apply delta_pages_in|done].
  split; intros p; simpl; intros; by rewrite lookup_empty in *.
Defined.


Lemma ckpt_replay_unchecked_witness :
  let y := mkSys (<[5 := replicate 64 2]> (<[6 := []]> ∅)) ∅ [] [] {[ "d" := 6 ]} in
  (exists st', @ckpt_replay_delta (SlabPool * Mem) host_le (Some "d")
       (mkBinSt (delta_bin 5 0) (set_files y (<[6 := delta_bytes (delta_bin 3 4) (replicate 64 1) [1; 2] 77]> (files y)))) = Ret (GRAVELDB_OK, st') /\
     files (sys st') !! 5 = Some (foldl (apply_run 16 (replicate 64 1)) (replicate 64 2) (runs consecutive [1; 2]))) /\
  exists st', @ckpt_replay_delta (SlabPool * Mem) host_le (Some "d")
       (mkBinSt (delta_bin 5 0) (set_files y (<[6 := hdr_image (delta_hdr_of (delta_bin 3 4) 2 77)]> (files y)))) = Ret (GRAVELDB_OK, st') /\
     files (sys st') !! 5 = Some (replicate 64 2) /\ bump_ptr (bin st') = 4.
Proof.
  intros y. apply (ckpt_replay_unchecked host_le (delta_bin 3 4) (delta_bin 5 0) (replicate 64 1) [1; 2] (replicate 64 2) y 6 "d" 77);
    [apply _|apply delta_bin_ok|unfold is_u32; lia|done|done|done|done|done|done|done|done|done|done|apply delta_pages_in|done].
Defined.
