(* ===== verification/Recover.v ===== *)
(** Recover: recovery replays the delta files that are newer than the meta file,
    oldest first.

    [ckpt_list_deltas] finds the delta files of a dimension by their names, in
    whatever order the directory is read, and sorts them; [recover_bin] is the part
    of [ckpt_recover] for one bin. *)

From Stdlib Require Import String Ascii.
From stdpp Require Import strings sorting.
From S2P Require Import Prelude LinearProbe Wire SlabAlloc Overlay DirtyTracker KeyBTree HashIndex DimRegistry IoBatch PageMap DimBin BinKeys BinFlush Names CkptMeta Engine DeltaFile DeltaProps.

#[local] Open Scope string_scope.
#[local] Open Scope Z_scope.
#[local] Opaque crc32_bit.

(** ** The directory *)

(** The names in a directory, in the order of the map. *)
Definition dir_names (dir : string) (y : Sys) : list string := omap (fun e => scan_lit (dir +:+ "/") e) (fst <$> map_to_list (names y)).

(** What a name stands for. *)
Definition info_of (dir : string) (dim : Z) (e : string) : option CkptDeltaInfo :=
  match parse_delta_filename e with
  | Ret (Some (g, d)) => if d =? dim then Some (mkCkptDeltaInfo (Some (entry_path dir e)) g d) else None
  | _ => None
  end.

(** No number in the names overflows. *)
Definition names_parse (dir : string) (y : Sys) : Prop := forall e, e ∈ dir_names dir y -> exists p, parse_delta_filename e = Ret p.

Lemma scan_lit_some p s t : scan_lit p s = Some t <-> s = p +:+ t.
Proof.
  revert s. induction p as [|a p IH]; intros s; simpl.
  - split; [intros [= ->]; done|]. intros ->. done.
  - destruct s as [|c s]; [split; intros H; discriminate H|]. destruct (ascii_dec a c) as [->|Hne].
    + rewrite IH. change (String c p +:+ t) with (String c (p +:+ t)). split; [intros ->; done|intros H; by injection H].
    + split; [intros H; discriminate H|]. change (String a p +:+ t) with (String a (p +:+ t)). intros H. injection H as Ha _. by destruct Hne.
Qed.

Lemma dir_names_elem dir y e : e ∈ dir_names dir y <-> is_Some (names y !! (dir +:+ "/" +:+ e)).
Proof.
  unfold dir_names. rewrite list_elem_of_omap. split.
  - intros (p & Hp & E%scan_lit_some). apply list_elem_of_fmap in Hp as ([q fd] & -> & Hq). simpl in E. apply elem_of_map_to_list in Hq.
    rewrite append_assoc in E. rewrite <- E. by eexists.
  - intros [fd H]. exists (dir +:+ "/" +:+ e). split; [|apply scan_lit_some; by rewrite append_assoc].
    apply list_elem_of_fmap. exists (dir +:+ "/" +:+ e, fd). split; [done|]. by apply elem_of_map_to_list.
Qed.

Lemma entry_path_full dir e : (String.length (dir +:+ "/" +:+ e) <= 1023)%nat -> entry_path dir e = dir +:+ "/" +:+ e.
Proof. intros H. by apply substring_all. Qed.

Section listing.
Context (readdir_order : list string -> list string).

Lemma list_entries_spec dir dim (es : list string) cap found y :
  answers y = [] -> (forall e, e ∈ es -> exists p, parse_delta_filename e = Ret p) ->
  list_entries dir dim cap found es y = Ret (Some (found ++ omap (info_of dir dim) es)%list, y).
Proof.
  intros Hq. revert cap found. induction es as [|e es IH]; intros cap found Hp; [by rewrite app_nil_r|].
  destruct (Hp e ltac:(set_solver)) as [p Ep]. cbn [list_entries]. rewrite Ep. unfold bindM at 1. cbn [lift res_bind fst snd].
  assert (forall e, e ∈ es -> exists p, parse_delta_filename e = Ret p) as Hp' by (intros; apply Hp; set_solver).
  assert (info_of dir dim e = match p with Some (g, d) => if d =? dim then Some (mkCkptDeltaInfo (Some (entry_path dir e)) g d) else None | None => None end) as Ei
    by (unfold info_of; by rewrite Ep). cbn [omap list_omap]. rewrite Ei. destruct p as [[g d]|]; [|by apply IH]. destruct (d =? dim); cbn [negb]; [|by apply IH].
  assert ((if cap <=? zlen found then sys_ok else ret true) y = Ret (true, y)) as Eok by (destruct (cap <=? zlen found); [by apply sys_ok_quiet|done]).
  unfold bindM at 1. rewrite Eok. cbn [res_bind fst snd negb]. unfold bindM at 1. rewrite sys_ok_quiet by done. cbn [res_bind fst snd]. rewrite IH by done.
  by rewrite <- app_assoc.
Qed.

Hypothesis readdir_perm : forall l, readdir_order l ≡ₚ l.

(** The delta files of a dimension, oldest first. *)
Definition deltas_of (dir : string) (dim : Z) (y : Sys) : list CkptDeltaInfo :=
  merge_sort cmp_delta_info (omap (info_of (ckpt_dir dir) dim) (readdir_order (dir_names (ckpt_dir dir) y))).

Lemma list_deltas_spec dir dim y : answers y = [] -> names_parse (ckpt_dir dir) y ->
  ckpt_list_deltas readdir_order dir dim y = Ret (deltas_of dir dim y, y).
Proof.
  intros Hq Hp. unfold ckpt_list_deltas. unfold bindM at 1. rewrite sys_ok_quiet by done. cbn [res_bind fst snd negb].
  unfold bindM at 1. rewrite sys_ok_quiet by done. cbn [res_bind fst snd negb]. unfold gets. unfold bindM at 1. cbn [res_bind fst snd].
  unfold bindM at 1. change (dir_entries readdir_order (ckpt_dir dir) (names y)) with (readdir_order (dir_names (ckpt_dir dir) y)).
  rewrite list_entries_spec by (done || intros e He; rewrite readdir_perm in He; by apply Hp). done.
Qed.

Lemma deltas_of_sorted dir dim y : Sorted cmp_delta_info (deltas_of dir dim y).
Proof. apply Sorted_merge_sort. apply _. Qed.

Lemma deltas_of_elem dir dim y d :
  d ∈ deltas_of dir dim y <-> exists e, is_Some (names y !! (ckpt_dir dir +:+ "/" +:+ e)) /\ info_of (ckpt_dir dir) dim e = Some d.
Proof.
  unfold deltas_of. rewrite merge_sort_Permutation, list_elem_of_omap. split; intros (e & He & Hi); exists e; (split; [|done]).
  - rewrite readdir_perm in He. by apply dir_names_elem.
  - rewrite readdir_perm. by apply dir_names_elem.
Qed.

End listing.

(** ** Replaying *)

Section recover.
Context {P : Type} `{!ObjectPool P} {host : WireHost} {host_ok : WireHostOk host}.

(** A delta file: the bin that was dumped, its data file and the dirty pages. *)
Record Dumped : Type := mkDumped { du_bin : DimBin P; du_file : list Z; du_pages : list Z }.

(** The data file after a delta. *)
Definition apply_delta (t : list Z) (d : Dumped) : list Z :=
  foldl (apply_run (page_size (du_bin d)) (du_file d)) t (runs consecutive (du_pages d)).

(** Path [p] holds the delta [d] of a bin like [s]. *)
Record holds (s : DimBin P) (y : Sys) (p : string) (d : Dumped) : Prop := {
  ho_file : content y p = Some (delta_image (du_bin d) (du_file d) (du_pages d));
  ho_fd : names y !! p <> Some (fd s);
  ho_dump : dump_ok (du_bin d);
  ho_dim : DimBin.dim (du_bin d) = DimBin.dim s;
  ho_psz : page_size (du_bin d) = page_size s;
  ho_in : pages_in (page_size (du_bin d)) (du_file d) (du_pages d);
  ho_len : zlen (du_pages d) < 2 ^ 32
}.

Lemma replay_holds s y p d t : names_ok y -> answers y = [] -> holds s y p d -> files y !! fd s = Some t -> 0 < page_size s -> entries_per_page s <> 0 ->
  exists s', ckpt_replay_delta (Some p) (mkBinSt s y) = Ret (GRAVELDB_OK, mkBinSt s' (set_files y (<[fd s := apply_delta t d]> (files y)))) /\
    bump_ptr s' = Z.max (bump_ptr s) (bump_ptr (du_bin d)) /\ fd s' = fd s /\ DimBin.dim s' = DimBin.dim s /\ page_size s' = page_size s /\ entries_per_page s' = entries_per_page s.
Proof.
  intros Hok Hq [Hf Hfd Hdump Hdim Hpsz Hin Hlen] Ht Hz Hepp. unfold content in Hf. destruct (names y !! p) as [dfd|] eqn:En; [|done]. simpl in Hf.
  destruct (no_file _ Hok _ _ En) as [H3 _]. assert (dfd <> fd s) as Hne by congruence. rewrite <- Hpsz in Hz.
  pose proof (replay_image (du_bin d) (du_file d) (du_pages d) s t y dfd p (delta_crc (du_bin d) (du_file d) (du_pages d)) Hdump (delta_crc_u32 _ _ _) Hq En H3 Hf Ht Hne
    (eq_sym Hdim) (eq_sym Hpsz) Hz Hepp Hin Hlen) as E. eexists. split; [exact E|].
  destruct (Z.ltb_spec (bump_ptr s) (bump_ptr (du_bin d))); simpl; split_and!; try done; lia.
Qed.

Lemma holds_kept s s' y p d t : fd s' = fd s -> DimBin.dim s' = DimBin.dim s -> page_size s' = page_size s ->
  holds s y p d -> holds s' (set_files y (<[fd s := t]> (files y))) p d.
Proof.
  intros E1 E2 E3 [Hf Hfd Hdump Hdim Hpsz Hin Hlen]. split; try done; rewrite ?E1, ?E2, ?E3; try done.
  unfold content in *. simpl. destruct (names y !! p) as [k|]; [|done]. simpl in *. rewrite lookup_insert_ne by congruence. done.
Qed.

Lemma names_ok_kept y fd f : names_ok y -> names_ok (set_files y (<[fd := f]> (files y))).
Proof.
  intros [N1 N2]. split; simpl; [|done]. intros p k Hk. destruct (N1 p k Hk) as [? ?]. split; [done|].
  destruct (decide (k = fd)) as [->|]; [rewrite lookup_insert_eq; by eexists|by rewrite lookup_insert_ne].
Qed.

(** The generations that are replayed. *)
Definition newer (base : Z) (ds : list CkptDeltaInfo) : list Z := List.filter (fun g => base <? g) (cd_generation <$> ds).

Lemma replay_all (D : Z -> Dumped) base (ds : list CkptDeltaInfo) s y t :
  names_ok y -> answers y = [] -> files y !! fd s = Some t -> 0 < page_size s -> entries_per_page s <> 0 ->
  (forall d, d ∈ ds -> base < cd_generation d -> exists p, cd_path d = Some p /\ holds s y p (D (cd_generation d))) ->
  exists s', forM ds (fun d => when (base <? cd_generation d) (let* _ := ckpt_replay_delta (cd_path d) in ret tt)) (mkBinSt s y) =
    Ret (tt, mkBinSt s' (set_files y (<[fd s := foldl apply_delta t (D <$> newer base ds)]> (files y)))) /\
    bump_ptr s' = foldl Z.max (bump_ptr s) ((fun g => bump_ptr (du_bin (D g))) <$> newer base ds).
Proof.
  revert s y t. induction ds as [|d ds IH]; intros s y t Hok Hq Ht Hz Hepp Hd.
  { exists s. split; [|done]. simpl. rewrite insert_id by done. by destruct y. }
  cbn [forM]. unfold newer. rewrite fmap_cons. cbn [List.filter]. destruct (Z.ltb_spec base (cd_generation d)) as [Hg|Hg]; cbn [when].
  - destruct (Hd d ltac:(set_solver) Hg) as (p & -> & Hh). destruct (replay_holds s y p _ t Hok Hq Hh Ht Hz Hepp) as (s1 & E & Hb & E1 & E2 & E3 & E4).
    unfold bindM at 1. unfold bindM at 1. rewrite E. cbn [res_bind fst snd ret]. set (y1 := set_files y _).
    destruct (IH s1 y1 (apply_delta t (D (cd_generation d)))) as (s2 & -> & Hb2); try done; [by apply names_ok_kept|simpl; by rewrite E1, lookup_insert_eq|by rewrite E3|by rewrite E4| |].
    { intros d' Hd' Hg'. destruct (Hd d' ltac:(set_solver) Hg') as (p' & Ep & Hh'). exists p'. split; [done|]. by apply holds_kept. }
    exists s2. unfold y1. rewrite set_files_twice, E1. cbn [set_files files]. rewrite insert_insert_eq. split; [done|]. rewrite Hb2, Hb. done.
  - unfold bindM at 1. cbn [ret res_bind fst snd]. apply IH; try done. intros d' Hd' Hg'. apply Hd; [set_solver|done].
Qed.

(** The generation recovery starts from: that of the meta file, or 0 without one. *)
Definition base_of (y : Sys) (dir : string) (dim base : Z) : Prop :=
  content y (meta_file_path dir dim) = Some (meta_image base) /\ 0 <= base < 2 ^ 64 \/ names y !! meta_file_path dir dim = None /\ base = 0.

Lemma read_base y dir dim base : names_ok y -> answers y = [] -> base_of y dir dim base ->
  exists rc meta, ckpt_read_meta dir dim y = Ret (rc, meta, y) /\ match meta with Some m => bm_generation m | None => 0 end = base.
Proof.
  intros Hok Hq [[Hc Hb]|[Hn ->]]; [rewrite (read_image dim dir base y) by done; by eexists _, _|].
  unfold ckpt_read_meta, open_path. unfold bindM at 1. unfold bindM at 1. rewrite sys_ok_quiet by done. cbn [res_bind fst snd negb].
  unfold gets. unfold bindM at 1. cbn [res_bind fst snd]. rewrite Hn. cbn [ret res_bind fst snd]. by eexists _, None.
Qed.

(** The newest of [gens] whose delta has page [pg]. *)
Definition newest (D : Z -> Dumped) (gens : list Z) (pg : Z) : option Z := last (filter (fun g => pg ∈ du_pages (D g)) gens).

Lemma apply_deltas_bytes (D : Z -> Dumped) gens psz t pg o :
  0 < psz -> 0 <= pg -> 0 <= o < psz ->
  (forall g, g ∈ gens -> page_size (du_bin (D g)) = psz /\ pages_in psz (du_file (D g)) (du_pages (D g))) ->
  file_byte (foldl apply_delta t (D <$> gens)) (pg * psz + o) =
  match newest D gens pg with Some g => file_byte (du_file (D g)) (pg * psz + o) | None => file_byte t (pg * psz + o) end.
Proof.
  intros Hz Hpg Ho. induction gens as [|g gens IH] using rev_ind; intros Hg; [done|]. rewrite fmap_app, foldl_app. cbn [fmap list_fmap foldl].
  destruct (Hg g ltac:(set_solver)) as [Hp Hin]. unfold apply_delta at 1. rewrite Hp. rewrite (apply_runs_bytes psz (du_file (D g)) _ _ pg o Hz); [| |done|done].
  2: { intros r Hr. split; [by apply (runs_in _ _ (du_pages (D g)))|]. apply (run_seq (du_pages (D g)) r); [intros q Hq; by apply Hin|done]. }
  rewrite runs_concat. unfold newest. rewrite filter_app. destruct (decide (pg ∈ du_pages (D g))) as [Hd|Hd].
  - rewrite filter_cons_True by done. rewrite filter_nil, last_snoc. done.
  - rewrite filter_cons_False by done. rewrite filter_nil, app_nil_r. apply IH. intros; apply Hg; set_solver.
Qed.

Lemma newer_sorted base ds : Sorted cmp_delta_info ds -> StronglySorted Z.le (newer base ds).
Proof.
  intros Hs%Sorted_StronglySorted; [|apply _]. induction Hs as [|d ds Hs IH Hall]; [constructor|]. unfold newer. rewrite fmap_cons. cbn [List.filter].
  destruct (base <? cd_generation d); [|done]. constructor; [done|]. apply Forall_forall. intros g Hg. apply list_elem_of_In, filter_In in Hg as [Hg _].
  apply list_elem_of_In, list_elem_of_fmap in Hg as (d' & -> & Hd'). rewrite Forall_forall in Hall. by apply Hall.
Qed.

End recover.

(** ** Properties *)

(** C13: recovery of a bin. Whatever the order in which the directory is read, the deltas of the bin's
    dimension that are newer than its meta file are replayed, oldest first and each after the ones
    before it: every page ends up as in the newest of these deltas that has it, every other page is
    as before, and the allocation pointer is the largest one. *)
Theorem recover_bin_correct {P : Type} {pool : ObjectPool P} (host : WireHost) (readdir_order : list string -> list string)
    (s : DimBin P) dir y t base (D : Z -> Dumped) :
  WireHostOk host -> (forall l, readdir_order l ≡ₚ l) -> names_ok y -> answers y = [] -> files y !! fd s = Some t -> 0 < page_size s -> entries_per_page s <> 0 ->
  base_of y dir (DimBin.dim s) base -> names_parse (ckpt_dir dir) y ->
  (forall e g, is_Some (names y !! (ckpt_dir dir +:+ "/" +:+ e)) -> parse_delta_filename e = Ret (Some (g, DimBin.dim s)) -> base < g ->
     (String.length (ckpt_dir dir +:+ "/" +:+ e) <= 1023)%nat /\ holds s y (ckpt_dir dir +:+ "/" +:+ e) (D g)) ->
  exists st' t' gens, recover_bin readdir_order dir (mkBinSt s y) = Ret (tt, st') /\ files (sys st') !! fd s = Some t' /\ StronglySorted Z.le gens /\
    (forall g, g ∈ gens <-> base < g /\ exists e, is_Some (names y !! (ckpt_dir dir +:+ "/" +:+ e)) /\ parse_delta_filename e = Ret (Some (g, DimBin.dim s))) /\
    bump_ptr (bin st') = foldl Z.max (bump_ptr s) ((fun g => bump_ptr (du_bin (D g))) <$> gens) /\
    forall pg o, 0 <= pg -> 0 <= o < page_size s ->
      file_byte t' (pg * page_size s + o) =
      match newest D gens pg with Some g => file_byte (du_file (D g)) (pg * page_size s + o) | None => file_byte t (pg * page_size s + o) end.
Proof.
  intros Hh Hperm Hok Hq Ht Hz Hepp Hbase Hparse Hd. unfold recover_bin, DimBin.get_bin, gets. unfold bindM at 1. cbn [res_bind fst snd bin].
  destruct (read_base y dir (DimBin.dim s) base Hok Hq Hbase) as (rc & meta & Em & Eb). unfold bindM at 1. unfold onsys at 1. cbn [sys bin]. rewrite Em. cbn [res_bind fst snd].
  unfold bindM at 1. unfold onsys at 1. cbn [sys bin]. rewrite (list_deltas_spec readdir_order Hperm) by done. cbn [res_bind fst snd]. rewrite Eb.
  set (ds := deltas_of readdir_order dir (DimBin.dim s) y).
  assert (forall d, d ∈ ds <-> exists e, is_Some (names y !! (ckpt_dir dir +:+ "/" +:+ e)) /\ parse_delta_filename e = Ret (Some (cd_generation d, DimBin.dim s)) /\
    d = mkCkptDeltaInfo (Some (entry_path (ckpt_dir dir) e)) (cd_generation d) (DimBin.dim s)) as Hds.
  { intros d. unfold ds. rewrite (deltas_of_elem readdir_order Hperm). unfold info_of. split; intros (e & He & Hi); exists e; (split; [done|]).
    - destruct (parse_delta_filename e) as [[[g d']|]| |]; try discriminate Hi. destruct (Z.eqb_spec d' (DimBin.dim s)) as [Ed|Ed]; [|discriminate Hi]. injection Hi as <-. by rewrite Ed.
    - destruct Hi as [-> ->]. simpl. by rewrite Z.eqb_refl. }
  destruct (replay_all D base ds s y t Hok Hq Ht Hz Hepp) as (s' & E & Hb).
  { intros d (e & He & Hp & Ed)%Hds Hg. destruct (Hd e _ He Hp Hg) as [Hl Hho]. eexists. split; [rewrite Ed; simpl; rewrite entry_path_full by done; reflexivity|done]. }
  eexists _, _, (newer base ds). split; [exact E|]. split; [simpl; by rewrite lookup_insert_eq|]. split; [apply newer_sorted, deltas_of_sorted|].
  assert (forall g, g ∈ newer base ds <-> base < g /\ exists e, is_Some (names y !! (ckpt_dir dir +:+ "/" +:+ e)) /\ parse_delta_filename e = Ret (Some (g, DimBin.dim s))) as Hgens.
  { intros g. unfold newer. rewrite list_elem_of_In, filter_In, <- list_elem_of_In, list_elem_of_fmap, Z.ltb_lt. split.
    - intros ((d & -> & (e & He & Hp & _)%Hds) & Hg). eauto.
    - intros (Hg & e & He & Hp). split; [|done]. exists (mkCkptDeltaInfo (Some (entry_path (ckpt_dir dir) e)) g (DimBin.dim s)). split; [done|]. apply Hds. by exists e. }
  split; [exact Hgens|]. split; [exact Hb|]. intros pg o Hpg Ho. apply apply_deltas_bytes; try done.
  intros g (Hg & e & He & Hp)%Hgens. destruct (Hd e g He Hp Hg) as [_ Hho]. rewrite <- (ho_psz _ _ _ _ Hho). split; [done|apply Hho].
Qed.

(** ** Witness *)

(** Two deltas, of generations 1 and 2, and no meta file. *)
Definition delta_at (g : Z) : Dumped :=
  if g =? 1 then mkDumped (delta_bin 3 4) (replicate 64 1) [1; 2] else mkDumped (delta_bin 3 9) (replicate 64 7) [2].
Definition crashed_sys : Sys :=
  mkSys (<[5 := replicate 64 2]> (<[6 := delta_image (delta_bin 3 4) (replicate 64 1) [1; 2]]> (<[7 := delta_image (delta_bin 3 9) (replicate 64 7) [2]]> ∅))) ∅ [] []
    (<["/db/ckpt/gen_0001_d4_delta.bin" := 6]> {[ "/db/ckpt/gen_0002_d4_delta.bin" := 7 ]}).

Lemma crashed_names e : e ∈ dir_names (ckpt_dir "/db") crashed_sys -> e = "gen_0001_d4_delta.bin" \/ e = "gen_0002_d4_delta.bin".
Proof.
  assert (dir_names (ckpt_dir "/db") crashed_sys ≡ₚ ["gen_0001_d4_delta.bin"; "gen_0002_d4_delta.bin"]) as E by (apply (bool_decide_unpack _); vm_compute; done).
  intros He. rewrite E in He. set_solver.
Qed.

Lemma crashed_ok : names_ok crashed_sys.
Proof.
  split; simpl.
  - intros p fd [[_ <-]|[_ [_ <-]%lookup_singleton_Some]]%lookup_insert_Some; (split; [lia|]);
      [rewrite lookup_insert_ne by done|rewrite !(lookup_insert_ne _ _ 7) by done]; rewrite lookup_insert_eq; by eexists.
  - intros p q fd H H'. apply lookup_insert_Some in H as [[E1 E2]|[_ [E1 E2]%lookup_singleton_Some]], H' as [[E3 E4]|[_ [E3 E4]%lookup_singleton_Some]]; congruence || lia.
Qed.

Lemma delta_pages_2 : pages_in 16 (replicate 64 7) [2].
Proof. intros p ->%list_elem_of_singleton. vm_compute. intuition congruence. Qed.

Lemma crashed_holds e g : is_Some (names crashed_sys !! (ckpt_dir "/db" +:+ "/" +:+ e)) -> parse_delta_filename e = Ret (Some (g, 4)) ->
  (String.length (ckpt_dir "/db" +:+ "/" +:+ e) <= 1023)%nat /\ holds (delta_bin 5 0) crashed_sys (ckpt_dir "/db" +:+ "/" +:+ e) (delta_at g).
Proof.
  intros He Hp. apply dir_names_elem in He. apply crashed_names in He as [->| ->]; vm_compute in Hp; injection Hp as <-; (split; [vm_compute; lia|]).
  - split; [vm_compute; reflexivity|vm_compute; congruence|vm_compute; intuition congruence|done|done|apply delta_pages_in|done].
  - split; [vm_compute; reflexivity|vm_compute; congruence|vm_compute; intuition congruence|done|done|apply delta_pages_2|done].
Qed.

Lemma recover_bin_correct_witness :
  exists st' t' gens, @recover_bin (SlabPool * Mem) host_le id "/db" (mkBinSt (delta_bin 5 0) crashed_sys) = Ret (tt, st') /\
    files (sys st') !! 5 = Some t' /\ StronglySorted Z.le gens /\
    (forall g, g ∈ gens <-> 0 < g /\ exists e, is_Some (names crashed_sys !! (ckpt_dir "/db" +:+ "/" +:+ e)) /\ parse_delta_filename e = Ret (Some (g, 4))) /\
    bump_ptr (bin st') = foldl Z.max 0 ((fun g => bump_ptr (du_bin (delta_at g))) <$> gens) /\
    forall pg o, 0 <= pg -> 0 <= o < 16 ->
      file_byte t' (pg * 16 + o) =
      match newest delta_at gens pg with Some g => file_byte (du_file (delta_at g)) (pg * 16 + o) | None => file_byte (replicate 64 2) (pg * 16 + o) end.
Proof.
  apply (recover_bin_correct host_le id (delta_bin 5 0) "/db" crashed_sys (replicate 64 2) 0 delta_at);
    [apply _|done|apply crashed_ok|done|done|done|done|right; split; [vm_compute; done|done]| |].
  - intros e [->| ->]%crashed_names; eexists; vm_compute; reflexivity.
  - intros e g He Hp _. by apply crashed_holds.
Defined.
