(* ===== verification/Scheduler.v ===== *)
(** Scheduler: the checkpoint scheduler of src/checkpoint.c.

    The scheduler runs flushes and checkpoints on a timer, and full checkpoints on
    request: the requests that wait for one form a linked list of response records
    owned by the callers, and are all completed at the next safepoint. *)

From Stdlib Require Import String.
From stdpp Require Import strings.
From S2P Require Import Prelude LinearProbe Wire SlabAlloc Overlay DirtyTracker KeyBTree HashIndex DimRegistry IoBatch PageMap DimBin Names CkptMeta Engine EngineProps DeltaFile.

(** ** State (checkpoint.h) *)

Record CkptConfig : Type := mkCkptConfig {
  flush_interval_ms : Z; flush_dirty_threshold : Z; checkpoint_interval_s : Z; cfg_full_cooldown_ms : Z; auto_recover_on_open : bool
}.

(** [next]: the address of the next response, 0 for [NULL]. *)
Record CkptFullResponse : Type := mkCkptFullResponse { completed : bool; checkpoint_id : Z; delta_base : Z; timestamp_ms : Z; next : Z }.

(** [has_db]: the pointer to the database is set. *)
Record CkptScheduler : Type := mkCkptScheduler {
  has_db : bool; sched_config : CkptConfig; last_flush_ms : Z; last_checkpoint_ms : Z;
  full_pending : bool; full_waiters : Z; last_full_generation : Z; last_full_time_ms : Z; full_cooldown_ms : Z; delta_chain_length : Z;
  total_flushes : Z; total_checkpoints : Z; total_full_checkpoints : Z; total_bytes_dumped : Z
}.

Record CkptStats : Type := mkCkptStats {
  cs_total_flushes : Z; cs_total_checkpoints : Z; cs_total_full_checkpoints : Z; cs_total_bytes_dumped : Z;
  cs_current_delta_chain_length : Z; cs_last_checkpoint_generation : Z
}.

(** A scheduler, the responses by address, and the database. *)
Record SchedSt (P : Type) : Type := mkSchedSt { sched : CkptScheduler; responses : gmap Z CkptFullResponse; sdb : DbSt P }.
Arguments mkSchedSt {P}. Arguments sched {P}. Arguments responses {P}. Arguments sdb {P}.

Definition zero_config : CkptConfig := mkCkptConfig 0 0 0 0 false.
Definition zero_sched : CkptScheduler := mkCkptScheduler false zero_config 0 0 false 0 0 0 0 0 0 0 0 0.

(** Assignment to a field. *)
Definition set_last_flush (s : CkptScheduler) (t : Z) : CkptScheduler :=
  mkCkptScheduler (has_db s) (sched_config s) t (last_checkpoint_ms s) (full_pending s) (full_waiters s) (last_full_generation s) (last_full_time_ms s)
    (full_cooldown_ms s) (delta_chain_length s) (total_flushes s) (total_checkpoints s) (total_full_checkpoints s) (total_bytes_dumped s).
Definition set_last_checkpoint (s : CkptScheduler) (t : Z) : CkptScheduler :=
  mkCkptScheduler (has_db s) (sched_config s) (last_flush_ms s) t (full_pending s) (full_waiters s) (last_full_generation s) (last_full_time_ms s)
    (full_cooldown_ms s) (delta_chain_length s) (total_flushes s) (total_checkpoints s) (total_full_checkpoints s) (total_bytes_dumped s).
Definition set_waiters (s : CkptScheduler) (pend : bool) (w : Z) : CkptScheduler :=
  mkCkptScheduler (has_db s) (sched_config s) (last_flush_ms s) (last_checkpoint_ms s) pend w (last_full_generation s) (last_full_time_ms s)
    (full_cooldown_ms s) (delta_chain_length s) (total_flushes s) (total_checkpoints s) (total_full_checkpoints s) (total_bytes_dumped s).
Definition count_flush (s : CkptScheduler) : CkptScheduler :=
  mkCkptScheduler (has_db s) (sched_config s) (last_flush_ms s) (last_checkpoint_ms s) (full_pending s) (full_waiters s) (last_full_generation s) (last_full_time_ms s)
    (full_cooldown_ms s) (delta_chain_length s) (u64 (total_flushes s + 1)) (total_checkpoints s) (total_full_checkpoints s) (total_bytes_dumped s).
Definition count_delta (s : CkptScheduler) : CkptScheduler :=
  mkCkptScheduler (has_db s) (sched_config s) (last_flush_ms s) (last_checkpoint_ms s) (full_pending s) (full_waiters s) (last_full_generation s) (last_full_time_ms s)
    (full_cooldown_ms s) (u32 (delta_chain_length s + 1)) (total_flushes s) (u64 (total_checkpoints s + 1)) (total_full_checkpoints s) (total_bytes_dumped s).
(** After a full checkpoint: the waiters are still to be told. *)
Definition count_full (s : CkptScheduler) (epoch : Z) : CkptScheduler :=
  mkCkptScheduler (has_db s) (sched_config s) (last_flush_ms s) (last_checkpoint_ms s) false (full_waiters s) epoch (last_checkpoint_ms s)
    (full_cooldown_ms s) 0 (total_flushes s) (total_checkpoints s) (u64 (total_full_checkpoints s + 1)) (total_bytes_dumped s).

(** ** Operations *)

Section ops.
Context {P : Type} `{!ObjectPool P} {host : WireHost}.
Variable create_pool : P -> option P.
Variable readdir_order : list string -> list string.

#[local] Abbreviation D := (M (DbSt P)).
#[local] Abbreviation S' := (M (SchedSt P)).

Definition on_db {A} (m : D A) : S' A := fun st =>
  let! '(a, d) := m (sdb st) in Ret (a, mkSchedSt (sched st) (responses st) d).
Definition get_sched : S' CkptScheduler := gets sched.
Definition upd_sched (f : CkptScheduler -> CkptScheduler) : S' unit := modify (fun st => mkSchedSt (f (sched st)) (responses st) (sdb st)).
Definition set_response (a : Z) (r : CkptFullResponse) : S' unit := modify (fun st => mkSchedSt (sched st) (<[a := r]> (responses st)) (sdb st)).

(** [cfg] is [None] for [NULL]; [db] says whether the database is given. *)
Definition ckpt_scheduler_init (db : bool) (cfg : option CkptConfig) : S' graveldb_status_t :=
  if negb db then ret GRAVELDB_ERR_INVALID
  else
    let* d := on_db get_db in
    let conf := match cfg with
                | Some c => mkCkptConfig (flush_interval_ms c) (flush_dirty_threshold c) (checkpoint_interval_s c) 0 (auto_recover_on_open c)
                | None => mkCkptConfig 1000 4096 60 0 true
                end in
    let cooldown := match cfg with Some c => cfg_full_cooldown_ms c | None => 60000 end in
    do* upd_sched (fun _ => mkCkptScheduler true conf 0 0 false 0 (current_epoch d) 0 cooldown 0 0 0 0 0) in
    ret GRAVELDB_OK.

Definition ckpt_scheduler_destroy : S' unit := upd_sched (fun _ => zero_sched).

Definition ckpt_scheduler_force_flush : S' graveldb_status_t :=
  let* s := get_sched in
  if negb (has_db s) then lift Ub
  else
    let* rc := on_db graveldb_flush in
    do* when (bool_decide (rc = GRAVELDB_OK)) (upd_sched count_flush) in
    ret rc.

(** The delta checkpoint and the meta files of all bins. *)
Definition persist_metas : D unit :=
  let* d := get_db in
  let* dir := lift (deref (data_dir (config d))) in
  for_bins (fun _ addr =>
    let* b := get_bin_at addr in
    let* _ := on_sys (ckpt_persist_meta (DimBin.dim b) dir (generation (dirty b))) in
    ret tt).

(** The copies of all data files. *)
Definition dump_fulls : D unit :=
  let* _ := graveldb_flush in
  let* d := get_db in
  let* dir := lift (deref (data_dir (config d))) in
  for_bins (fun _ addr =>
    let* b := get_bin_at addr in
    let* _ := on_sys (ckpt_dump_full b dir) in
    ret tt).

Definition purge_all (gen : Z) : D unit :=
  let* d := get_db in
  let* dir := lift (deref (data_dir (config d))) in
  for_bins (fun _ addr =>
    let* b := get_bin_at addr in
    let* _ := on_sys (ckpt_purge_old_deltas readdir_order dir (DimBin.dim b) gen) in
    ret tt).

(** [while (waiter)]: a list that ends in [NULL] has at most one node per response,
    so a longer one goes round in a circle. *)
Fixpoint complete_waiters (fuel : nat) (w epoch time : Z) : S' unit :=
  match fuel with
  | O => lift Diverge
  | S fuel =>
    if w =? 0 then ret tt
    else
      let* rs := gets responses in
      let* r := lift (deref (rs !! w)) in
      do* set_response w (mkCkptFullResponse true epoch epoch time (next r)) in
      complete_waiters fuel (next r) epoch time
  end.

(** The full checkpoint at a safepoint, if one was requested. *)
Definition full_checkpoint : S' unit :=
  do* on_db dump_fulls in
  let* d := on_db get_db in
  do* upd_sched (fun s => count_full s (current_epoch d)) in
  let* s := get_sched in
  let* rs := gets responses in
  do* complete_waiters (S (size rs)) (full_waiters s) (current_epoch d) (last_full_time_ms s) in
  do* upd_sched (fun s => set_waiters s (full_pending s) 0) in
  on_db (purge_all (last_full_generation s)).

Definition ckpt_scheduler_force_checkpoint : S' graveldb_status_t :=
  let* s := get_sched in
  if negb (has_db s) then lift Ub
  else
    let* rc := on_db (graveldb_checkpoint create_pool) in
    if negb (bool_decide (rc = GRAVELDB_OK)) then ret rc
    else
      do* on_db persist_metas in
      do* upd_sched count_delta in
      let* s := get_sched in
      do* when (full_pending s) full_checkpoint in
      ret GRAVELDB_OK.

(** The flush and the checkpoint of a tick, when they are due. *)
Definition tick_flush (now_ms : Z) : S' graveldb_status_t :=
  let* s := get_sched in
  if (0 <? flush_interval_ms (sched_config s)) && (flush_interval_ms (sched_config s) <=? u64 (now_ms - last_flush_ms s)) then
    let* rc := ckpt_scheduler_force_flush in
    do* upd_sched (fun s => set_last_flush s now_ms) in
    ret rc
  else ret GRAVELDB_OK.

Definition tick_checkpoint (now_ms : Z) : S' graveldb_status_t :=
  let* s := get_sched in
  let interval_ms := u64 (checkpoint_interval_s (sched_config s) * 1000) in
  if (0 <? checkpoint_interval_s (sched_config s)) && (interval_ms <=? u64 (now_ms - last_checkpoint_ms s)) then
    let* rc := ckpt_scheduler_force_checkpoint in
    do* upd_sched (fun s => set_last_checkpoint s now_ms) in
    ret rc
  else ret GRAVELDB_OK.

Definition ckpt_scheduler_tick (now_ms : Z) : S' graveldb_status_t :=
  let* s := get_sched in
  if negb (has_db s) then ret GRAVELDB_ERR_INVALID
  else
    let* rc := tick_flush now_ms in
    if negb (bool_decide (rc = GRAVELDB_OK)) then ret rc
    else tick_checkpoint now_ms.

(** [a]: the address of the response record. *)
Definition ckpt_scheduler_request_full (a : Z) : S' graveldb_status_t :=
  if a =? 0 then ret GRAVELDB_ERR_INVALID
  else
    let* rs := gets responses in
    let* r := lift (deref (rs !! a)) in
    do* set_response a (mkCkptFullResponse (completed r) (checkpoint_id r) (delta_base r) (timestamp_ms r) 0) in
    let* s := get_sched in
    if ((0 <? last_full_time_ms s) && (0 <? full_cooldown_ms s)) && (u64 (last_checkpoint_ms s - last_full_time_ms s) <? full_cooldown_ms s) then
      do* set_response a (mkCkptFullResponse true (last_full_generation s) (last_full_generation s) (last_full_time_ms s) 0) in
      ret GRAVELDB_OK
    else
      do* set_response a (mkCkptFullResponse false 0 0 0 (full_waiters s)) in
      do* upd_sched (fun s => set_waiters s true a) in
      ret GRAVELDB_OK.

Definition ckpt_scheduler_stats : S' CkptStats :=
  let* s := get_sched in
  let* d := on_db get_db in
  ret (mkCkptStats (total_flushes s) (total_checkpoints s) (total_full_checkpoints s) (total_bytes_dumped s) (delta_chain_length s)
         (if has_db s then current_epoch d else 0)).

End ops.

(** ** The list of waiters *)

Inductive chain (h : gmap Z CkptFullResponse) : Z -> list Z -> Prop :=
| chain_nil : chain h 0 []
| chain_cons a r l : a <> 0 -> h !! a = Some r -> chain h (next r) l -> chain h a (a :: l).

Lemma chain_dom h w l : chain h w l -> forall a, a ∈ l -> a <> 0 /\ is_Some (h !! a).
Proof. induction 1 as [|a r l Ha Hr Hc IH]; intros x Hx; [by apply elem_of_nil in Hx|]. apply elem_of_cons in Hx as [->|Hx]; [split; [done|by eexists]|by apply IH]. Qed.

(** The list depends on the nodes' [next] only. *)
Lemma chain_ext h h' w l : chain h w l -> (forall a, a ∈ l -> (next <$> h' !! a) = (next <$> h !! a)) -> chain h' w l.
Proof.
  induction 1 as [|a r l Ha Hr Hc IH]; intros Hh; [constructor|]. pose proof (Hh a ltac:(set_solver)) as E. rewrite Hr in E. destruct (h' !! a) as [r'|] eqn:Er; [|done].
  simpl in E. injection E as E. apply (chain_cons _ a r'); [done|done|]. rewrite E. apply IH. intros; apply Hh; set_solver.
Qed.

Lemma chain_fits h w l : chain h w l -> NoDup l -> (List.length l <= size h)%nat.
Proof.
  intros Hc Hnd. rewrite <- (size_dom (D := gset Z)). rewrite <- (size_list_to_set (C := gset Z) l Hnd). apply subseteq_size.
  intros a Ha%elem_of_list_to_set. apply elem_of_dom. by apply (chain_dom h w l Hc).
Qed.

Section props.
Context {P : Type} `{!ObjectPool P} {host : WireHost}.
Variable create_pool : P -> option P.
Variable readdir_order : list string -> list string.
Implicit Types st : SchedSt P.

(** The responses that wait, last request first. *)
Definition waiting st (l : list Z) : Prop := chain (responses st) (full_waiters (sched st)) l /\ NoDup l.

(** A response told that the checkpoint is done. *)
Definition told (epoch time : Z) (r : CkptFullResponse) : Prop := completed r = true /\ checkpoint_id r = epoch /\ delta_base r = epoch /\ timestamp_ms r = time.

(** A response that waits: its record was reset. *)
Definition untold (r : CkptFullResponse) : Prop := completed r = false /\ checkpoint_id r = 0 /\ delta_base r = 0 /\ timestamp_ms r = 0.

Lemma complete_spec fuel st w l epoch time :
  chain (responses st) w l -> NoDup l -> (List.length l < fuel)%nat ->
  exists h', complete_waiters fuel w epoch time st = Ret (tt, mkSchedSt (sched st) h' (sdb st)) /\
    (forall a, a ∈ l -> exists r, h' !! a = Some r /\ told epoch time r) /\ (forall a, ~ (a ∈ l) -> h' !! a = responses st !! a).
Proof.
  revert fuel st w. induction l as [|x l IH]; intros fuel st w Hc Hnd Hf; (destruct fuel as [|fuel]; [simpl in Hf; lia|]); inversion Hc as [|a r l' Ha Hr Hc']; subst.
  { exists (responses st). split; [by destruct st|]. split; [intros a Ha; by apply elem_of_nil in Ha|done]. }
  apply NoDup_cons in Hnd as [Hni Hnd]. cbn [complete_waiters]. rewrite (proj2 (Z.eqb_neq x 0)) by done. unfold gets. unfold bindM at 1. cbn [res_bind fst snd]. rewrite Hr.
  unfold bindM at 1. cbn [deref lift res_bind fst snd]. unfold bindM at 1, set_response, modify. cbn [res_bind fst snd]. set (st1 := mkSchedSt _ _ _).
  destruct (IH fuel st1 (next r)) as (h' & E & H1 & H2); [|done|simpl in Hf; lia|].
  { apply (chain_ext (responses st)); [done|]. intros a Hal. simpl. by rewrite lookup_insert_ne by congruence. }
  rewrite E. exists h'. split; [done|]. split.
  - intros a [->|Hal]%elem_of_cons; [|by apply H1]. rewrite H2 by done. simpl. rewrite lookup_insert_eq. by eexists.
  - intros a Hna. rewrite H2 by set_solver. simpl. rewrite lookup_insert_ne; [done|]. intros ->. apply Hna. set_solver.
Qed.

(** A list that comes back to its first node never ends. *)
Lemma complete_diverges fuel st w epoch time r : w <> 0 -> responses st !! w = Some r -> next r = w -> complete_waiters fuel w epoch time st = Diverge.
Proof.
  intros Hw. revert st r. induction fuel as [|fuel IH]; intros st r Hr Hn; [done|]. cbn [complete_waiters]. rewrite (proj2 (Z.eqb_neq w 0)) by done.
  unfold gets. unfold bindM at 1. cbn [res_bind fst snd]. rewrite Hr. unfold bindM at 1. cbn [deref lift res_bind fst snd]. unfold bindM at 1, set_response, modify. cbn [res_bind fst snd].
  rewrite Hn. eapply IH; [simpl; apply lookup_insert_eq|done].
Qed.

(** A request within the cooldown of the last full checkpoint. *)
Definition in_cooldown (s : CkptScheduler) : bool :=
  ((0 <? last_full_time_ms s) && (0 <? full_cooldown_ms s)) && (u64 (last_checkpoint_ms s - last_full_time_ms s) <? full_cooldown_ms s).

(** A request that has to wait. *)
Lemma request_waits st a : a <> 0 -> is_Some (responses st !! a) -> in_cooldown (sched st) = false ->
  exists r h', ckpt_scheduler_request_full a st = Ret (GRAVELDB_OK, mkSchedSt (set_waiters (sched st) true a) h' (sdb st)) /\
    h' !! a = Some r /\ untold r /\ next r = full_waiters (sched st) /\ (forall b, b <> a -> h' !! b = responses st !! b).
Proof.
  intros Ha [r0 Hr] Hc. unfold ckpt_scheduler_request_full. rewrite (proj2 (Z.eqb_neq a 0)) by done. unfold gets. unfold bindM at 1. cbn [res_bind fst snd]. rewrite Hr.
  unfold bindM at 1. cbn [deref lift res_bind fst snd]. unfold bindM at 1, set_response, modify. cbn [res_bind fst snd].
  unfold get_sched, gets. unfold bindM at 1. cbn [res_bind fst snd sched]. fold (in_cooldown (sched st)). rewrite Hc.
  unfold bindM at 1. cbn [res_bind fst snd responses sched sdb]. unfold bindM, upd_sched, modify, ret. cbn [res_bind fst snd responses sched sdb]. rewrite insert_insert_eq.
  eexists _, _. split; [reflexivity|]. split; [apply lookup_insert_eq|]. split; [done|]. split; [done|]. intros b Hb. by rewrite lookup_insert_ne.
Qed.

(** A request within the cooldown is answered with the last full checkpoint. *)
Lemma request_cooled st a : a <> 0 -> is_Some (responses st !! a) -> in_cooldown (sched st) = true ->
  exists r, ckpt_scheduler_request_full a st = Ret (GRAVELDB_OK, mkSchedSt (sched st) (<[a := r]> (responses st)) (sdb st)) /\
    told (last_full_generation (sched st)) (last_full_time_ms (sched st)) r.
Proof.
  intros Ha [r0 Hr] Hc. unfold ckpt_scheduler_request_full. rewrite (proj2 (Z.eqb_neq a 0)) by done. unfold gets. unfold bindM at 1. cbn [res_bind fst snd]. rewrite Hr.
  unfold bindM at 1. cbn [deref lift res_bind fst snd]. unfold bindM at 1, set_response, modify. cbn [res_bind fst snd].
  unfold get_sched, gets. unfold bindM at 1. cbn [res_bind fst snd sched]. fold (in_cooldown (sched st)). rewrite Hc.
  unfold bindM. cbn [res_bind fst snd responses sched sdb ret]. rewrite insert_insert_eq. eexists. split; [reflexivity|done].
Qed.

(** Requests one after the other, and what they return. *)
Fixpoint request_all (reqs : list Z) : M (SchedSt P) (list graveldb_status_t) :=
  match reqs with
  | [] => ret []
  | a :: reqs => let* rc := ckpt_scheduler_request_full a in let* rcs := request_all reqs in ret (rc :: rcs)
  end.

(** Requests that all wait. *)
Lemma requests_wait (reqs : list Z) st l :
  waiting st l -> in_cooldown (sched st) = false -> NoDup reqs -> (forall a, a ∈ reqs -> a <> 0 /\ is_Some (responses st !! a) /\ ~ (a ∈ l)) ->
  exists st', request_all reqs st = Ret (replicate (length reqs) GRAVELDB_OK, st') /\ waiting st' (reverse reqs ++ l) /\
    sdb st' = sdb st /\ (exists w, sched st' = set_waiters (sched st) (match reqs with [] => full_pending (sched st) | _ => true end) w) /\
    (forall a, a ∈ reqs -> exists r, responses st' !! a = Some r /\ untold r) /\
    (forall a, ~ (a ∈ reqs) -> responses st' !! a = responses st !! a).
Proof.
  revert st l. induction reqs as [|a reqs IH]; intros st l [Hc Hnd] Hcool Hr Hreq.
  { exists st. split; [done|]. split; [done|]. split; [done|]. split; [|split; [intros a Ha; by apply elem_of_nil in Ha|done]]. exists (full_waiters (sched st)). by destruct (sched st). }
  apply NoDup_cons in Hr as [Hni Hr]. destruct (Hreq a ltac:(set_solver)) as (Ha & Has & Hal).
  destruct (request_waits st a Ha Has Hcool) as (r & h' & E & Hr1 & Hu & Hr2 & Hr3). set (st1 := mkSchedSt _ _ _) in E.
  destruct (IH st1 (a :: l)) as (st' & E' & Hw & Hd & (w & Hs) & Hun & Ho).
  - split; [|by apply NoDup_cons]. apply (chain_cons _ a r); [done|done|]. rewrite Hr2. apply (chain_ext (responses st)); [done|].
    intros b Hb. simpl. by rewrite Hr3 by congruence.
  - done.
  - done.
  - intros b Hb. destruct (Hreq b ltac:(set_solver)) as (? & ? & ?). assert (b <> a) by congruence. split; [done|]. split; [simpl; by rewrite Hr3|]. set_solver.
  - exists st'. split.
    { cbn [request_all]. rewrite (bindM_ret _ _ _ _ _ E), (bindM_ret _ _ _ _ _ E'). done. }
    split; [rewrite reverse_cons, <- app_assoc; exact Hw|]. split; [by rewrite Hd|]. split; [exists w; rewrite Hs; by destruct reqs|]. split.
    + intros b [->|Hb]%elem_of_cons; [|by apply Hun]. exists r. by rewrite Ho.
    + intros b Hb. rewrite Ho by set_solver. simpl. apply Hr3. set_solver.
Qed.

(** The database's part of a safepoint: the delta checkpoint, the meta files, the
    copies (up to [d3]), and the removal of old deltas. *)
Record safepoint (d0 d3 d4 : DbSt P) : Prop := {
  sp_delta : exists d1 d2, graveldb_checkpoint create_pool d0 = Ret (GRAVELDB_OK, d1) /\ persist_metas d1 = Ret (tt, d2) /\ dump_fulls d2 = Ret (tt, d3);
  sp_purge : purge_all readdir_order (current_epoch (gdb d3)) d3 = Ret (tt, d4)
}.

Lemma on_db_ret {A} (m : M (DbSt P) A) st a d : m (sdb st) = Ret (a, d) -> on_db m st = Ret (a, mkSchedSt (sched st) (responses st) d).
Proof. intros E. unfold on_db. by rewrite E. Qed.

(** A checkpoint up to the point where the waiters are told. *)
Lemma force_until_told st d3 d4 : has_db (sched st) = true -> full_pending (sched st) = true -> safepoint (sdb st) d3 d4 ->
  ckpt_scheduler_force_checkpoint create_pool readdir_order st =
  let! '(_, st1) := complete_waiters (S (size (responses st))) (full_waiters (sched st)) (current_epoch (gdb d3)) (last_checkpoint_ms (sched st))
    (mkSchedSt (count_full (count_delta (sched st)) (current_epoch (gdb d3))) (responses st) d3) in
  let! '(_, st2) := on_db (purge_all readdir_order (current_epoch (gdb d3))) (mkSchedSt (set_waiters (sched st1) (full_pending (sched st1)) 0) (responses st1) (sdb st1)) in
  Ret (GRAVELDB_OK, st2).
Proof.
  intros Hdb Hp [(d1 & d2 & E1 & E2 & E3) _]. unfold ckpt_scheduler_force_checkpoint, get_sched, gets. unfold bindM at 1. cbn [res_bind fst snd]. rewrite Hdb. cbn [negb].
  unfold bindM at 1. rewrite (on_db_ret _ st _ d1 E1). cbn [res_bind fst snd]. rewrite bool_decide_eq_true_2 by done. cbn [negb].
  unfold bindM at 1. rewrite (on_db_ret _ (mkSchedSt _ _ d1) _ d2 E2). cbn [res_bind fst snd sched responses sdb].
  unfold upd_sched, modify. unfold bindM at 1. cbn [res_bind fst snd sched responses sdb]. unfold bindM at 1. cbn [res_bind fst snd sched].
  change (full_pending (count_delta (sched st))) with (full_pending (sched st)). rewrite Hp. cbn [when].
  unfold full_checkpoint, get_sched, upd_sched, modify, gets. unfold bindM at 1. unfold bindM at 1. rewrite (on_db_ret _ (mkSchedSt _ _ d2) _ d3 E3). cbn [res_bind fst snd sched responses sdb].
  unfold bindM at 1. unfold on_db at 1, get_db, gets. cbn [res_bind fst snd sched responses sdb]. unfold bindM at 1. cbn [res_bind fst snd sched responses sdb].
  unfold bindM at 1. cbn [res_bind fst snd sched responses sdb]. unfold bindM at 1. cbn [res_bind fst snd sched responses sdb]. unfold bindM at 1.
  cbn [count_full count_delta full_waiters last_full_time_ms last_checkpoint_ms last_full_generation].
  destruct (complete_waiters _ _ _ _ _) as [[[] st1]| |]; cbn [res_bind fst snd]; [|done|done].
  unfold bindM at 1. cbn [res_bind fst snd]. destruct (on_db _ _) as [[[] st2]| |]; done.
Qed.

(** A full checkpoint tells everyone who waits. *)
Lemma force_full_spec st l d3 d4 : has_db (sched st) = true -> full_pending (sched st) = true -> waiting st l -> safepoint (sdb st) d3 d4 ->
  exists h', ckpt_scheduler_force_checkpoint create_pool readdir_order st =
    Ret (GRAVELDB_OK, mkSchedSt (set_waiters (count_full (count_delta (sched st)) (current_epoch (gdb d3))) false 0) h' d4) /\
    (forall a, a ∈ l -> exists r, h' !! a = Some r /\ told (current_epoch (gdb d3)) (last_checkpoint_ms (sched st)) r) /\
    (forall a, ~ (a ∈ l) -> h' !! a = responses st !! a).
Proof.
  intros Hdb Hp [Hc Hnd] Hsp. pose proof (chain_fits _ _ _ Hc Hnd) as Hfit. rewrite (force_until_told st d3 d4) by done. set (st0 := mkSchedSt _ _ d3).
  destruct (complete_spec (S (size (responses st))) st0 (full_waiters (sched st)) l (current_epoch (gdb d3)) (last_checkpoint_ms (sched st))) as (h' & E & H1 & H2); [done|done|lia|].
  rewrite E. cbn [res_bind fst snd sched responses sdb]. rewrite (on_db_ret _ _ tt d4) by apply Hsp. cbn [res_bind fst snd sched responses sdb].
  exists h'. split; [done|]. split; [done|]. exact H2.
Qed.

End props.

(** ** Properties *)

(** C34: singleflight. Requests for a full checkpoint with different response records, none of them
    waiting already, outside the cooldown, all return OK, join the batch that is waiting, and leave
    their records not completed and reset to 0; the next checkpoint, when the database's part of it
    succeeds, returns OK after it went once through the whole list: every request of the batch is
    completed with the same checkpoint id, which is also its delta base, nobody waits any more, the
    delta chain is empty, and no other response record is touched. *)
Theorem ckpt_scheduler_singleflight {P : Type} {pool : ObjectPool P} (host : WireHost) (create_pool : P -> option P) (readdir_order : list string -> list string)
    (st : SchedSt P) (l reqs : list Z) (d3 d4 : DbSt P) :
  has_db (sched st) = true -> waiting st l -> in_cooldown (sched st) = false -> NoDup reqs -> reqs <> [] ->
  (forall a, a ∈ reqs -> a <> 0 /\ is_Some (responses st !! a) /\ ~ (a ∈ l)) -> safepoint create_pool readdir_order (sdb st) d3 d4 ->
  exists st1 st2, request_all reqs st = Ret (replicate (length reqs) GRAVELDB_OK, st1) /\
    full_pending (sched st1) = true /\ waiting st1 (reverse reqs ++ l) /\
    (forall a, a ∈ reqs -> exists r, responses st1 !! a = Some r /\ untold r) /\
    ckpt_scheduler_force_checkpoint create_pool readdir_order st1 = Ret (GRAVELDB_OK, st2) /\ sdb st2 = d4 /\
    full_pending (sched st2) = false /\ waiting st2 [] /\ delta_chain_length (sched st2) = 0 /\
    (forall a, a ∈ reqs ++ l -> exists r, responses st2 !! a = Some r /\ told (current_epoch (gdb d3)) (last_checkpoint_ms (sched st)) r) /\
    (forall a, ~ (a ∈ reqs ++ l) -> responses st2 !! a = responses st !! a).
Proof.
  intros Hdb Hw Hcool Hnd Hne Hreq Hsp. destruct (requests_wait reqs st l Hw Hcool Hnd Hreq) as (st1 & E1 & Hw1 & Hd1 & (w & Hs1) & Hu1 & Ho1).
  assert (full_pending (sched st1) = true) as Hp1 by (rewrite Hs1; by destruct reqs).
  destruct (force_full_spec create_pool readdir_order st1 (reverse reqs ++ l) d3 d4) as (h' & E2 & H1 & H2); [by rewrite Hs1|done|done|by rewrite Hd1|].
  eexists st1, _. split; [exact E1|]. split; [done|]. split; [done|]. split; [exact Hu1|]. split; [exact E2|]. cbn [sched responses sdb]. split; [done|]. split; [done|].
  split; [split; [constructor|by apply NoDup_nil_2]|]. split; [done|]. rewrite Hs1 in H1. split.
  - intros a Ha. apply H1. rewrite elem_of_app, elem_of_reverse in *. exact Ha.
  - intros a Ha. rewrite H2 by (rewrite elem_of_app, elem_of_reverse in *; exact Ha). apply Ho1. set_solver.
Qed.

(** A response record that is registered twice makes the list of waiters a circle. When the head of the list
    is requested again outside the cooldown, the request is accepted, and the next checkpoint never returns. *)
Theorem ckpt_scheduler_duplicate_hangs {P : Type} {pool : ObjectPool P} (host : WireHost) (create_pool : P -> option P) (readdir_order : list string -> list string)
    (st : SchedSt P) (a : Z) (d3 d4 : DbSt P) :
  has_db (sched st) = true -> full_waiters (sched st) = a -> a <> 0 -> is_Some (responses st !! a) -> in_cooldown (sched st) = false ->
  safepoint create_pool readdir_order (sdb st) d3 d4 ->
  exists st', ckpt_scheduler_request_full a st = Ret (GRAVELDB_OK, st') /\ ckpt_scheduler_force_checkpoint create_pool readdir_order st' = Diverge.
Proof.
  intros Hdb Hw Ha Has Hcool Hsp. destruct (request_waits st a Ha Has Hcool) as (r & h' & E & Hr1 & _ & Hr2 & _). eexists. split; [exact E|].
  set (st' := mkSchedSt _ _ _). rewrite (force_until_told create_pool readdir_order st' d3 d4) by done.
  rewrite (complete_diverges _ _ (full_waiters (sched st')) _ _ r); [done|done|exact Hr1|]. rewrite Hr2. by rewrite Hw.
Qed.

(** The cooldown starts one checkpoint late. A tick that runs a full checkpoint records the time of the checkpoint
    before it; after the first one that time is 0, which means never, so a request right after the full
    checkpoint is not answered with it but asks for another one, whatever the configured cooldown. *)
Theorem ckpt_scheduler_cooldown_late {P : Type} {pool : ObjectPool P} (host : WireHost) (create_pool : P -> option P) (readdir_order : list string -> list string)
    (st : SchedSt P) (l : list Z) (now a : Z) (d3 d4 : DbSt P) :
  has_db (sched st) = true -> waiting st l -> full_pending (sched st) = true -> flush_interval_ms (sched_config (sched st)) = 0 ->
  0 < checkpoint_interval_s (sched_config (sched st)) < 2 ^ 32 -> last_checkpoint_ms (sched st) = 0 ->
  checkpoint_interval_s (sched_config (sched st)) * 1000 <= now < 2 ^ 64 ->
  a <> 0 -> is_Some (responses st !! a) -> safepoint create_pool readdir_order (sdb st) d3 d4 ->
  exists st1 st2 r, ckpt_scheduler_tick create_pool readdir_order now st = Ret (GRAVELDB_OK, st1) /\
    total_full_checkpoints (sched st1) = u64 (total_full_checkpoints (sched st) + 1) /\ last_full_time_ms (sched st1) = 0 /\ last_checkpoint_ms (sched st1) = now /\
    ckpt_scheduler_request_full a st1 = Ret (GRAVELDB_OK, st2) /\ responses st2 !! a = Some r /\ untold r /\ full_pending (sched st2) = true.
Proof.
  intros Hdb Hw Hp Hfl Hint H0 Hnow Ha Has Hsp. destruct (force_full_spec create_pool readdir_order st l d3 d4 Hdb Hp Hw Hsp) as (h' & E & H1 & H2).
  set (s1 := set_last_checkpoint (set_waiters (count_full (count_delta (sched st)) (current_epoch (gdb d3))) false 0) now).
  assert (is_Some (h' !! a)) as Has'. { destruct (decide (a ∈ l)) as [Hin|Hin]; [destruct (H1 a Hin) as (r & Hr & _); by exists r|by rewrite H2]. }
  destruct (request_waits (mkSchedSt s1 h' d4) a Ha Has') as (r & h2 & E2 & Hr1 & Hr2 & _); [unfold in_cooldown; simpl; by rewrite H0|].
  eexists (mkSchedSt s1 h' d4), _, r. split; [|split; [done|]; split; [exact H0|]; split; [done|]; split; [exact E2|done]].
  unfold ckpt_scheduler_tick, get_sched, gets. unfold bindM at 1. cbn [res_bind fst snd]. rewrite Hdb. cbn [negb].
  unfold tick_flush, get_sched, gets. unfold bindM at 1. unfold bindM at 1. cbn [res_bind fst snd]. rewrite Hfl. cbn [andb Z.ltb Z.compare ret res_bind fst snd].
  rewrite bool_decide_eq_true_2 by done. cbn [negb]. unfold tick_checkpoint, get_sched, gets. unfold bindM at 1. cbn [res_bind fst snd].
  rewrite H0, Z.sub_0_r, !u64_id by lia. rewrite (proj2 (Z.ltb_lt _ _)), (proj2 (Z.leb_le _ _)) by lia. cbn [andb].
  unfold bindM at 1. rewrite E. cbn [res_bind fst snd]. done.
Qed.

(** ** Witnesses *)

#[local] Existing Instance host_le.

(** Two bins with a feature each, and a safepoint of that database. *)
Definition sched_db : DbSt (SlabPool * Mem) :=
  run_of (let! st := new_db in let! '(_, st) := graveldb_batch_put two_features st in Ret st) no_db.
Definition after_ckpt : graveldb_status_t * DbSt (SlabPool * Mem) := run_of (graveldb_checkpoint overlay_pool sched_db) (GRAVELDB_ERR_IO, no_db).
Definition after_metas : unit * DbSt (SlabPool * Mem) := run_of (persist_metas (snd after_ckpt)) (tt, no_db).
Definition after_fulls : unit * DbSt (SlabPool * Mem) := run_of (dump_fulls (snd after_metas)) (tt, no_db).
Definition after_purge : unit * DbSt (SlabPool * Mem) :=
  run_of (purge_all id (current_epoch (gdb (snd after_fulls))) (snd after_fulls)) (tt, no_db).

Lemma run_unit (r : res (unit * DbSt (SlabPool * Mem))) : returns r = true -> r = Ret (tt, snd (run_of r (tt, no_db))).
Proof. by destruct r as [[[] ?]| |]. Qed.

Lemma sched_db_safepoint : safepoint overlay_pool id sched_db (snd after_fulls) (snd after_purge).
Proof.
  split.
  - exists (snd after_ckpt), (snd after_metas). split; [|split].
    + assert (fst after_ckpt = GRAVELDB_OK) as <- by (vm_compute; reflexivity). rewrite <- surjective_pairing. apply run_of_returns. vm_compute. reflexivity.
    + apply run_unit. vm_compute. reflexivity.
    + apply run_unit. vm_compute. reflexivity.
  - apply run_unit. vm_compute. reflexivity.
Qed.

Definition no_response : CkptFullResponse := mkCkptFullResponse false 0 0 0 0.

(** Checkpoints every second, a cooldown of a minute, and the response 10 waiting. *)
Definition sched0 : CkptScheduler := mkCkptScheduler true (mkCkptConfig 0 4096 1 0 true) 0 0 true 10 0 0 60000 0 0 0 0 0.
Definition sched_st : SchedSt (SlabPool * Mem) := mkSchedSt sched0 (<[10 := no_response]> (<[20 := no_response]> (<[30 := no_response]> ∅))) sched_db.

Lemma sched_st_waiting : waiting sched_st [10].
Proof. split; [apply (chain_cons _ 10 no_response); [done|done|constructor]|apply NoDup_singleton]. Qed.

Lemma ckpt_scheduler_singleflight_witness :
  exists st1 st2, request_all [20; 30] sched_st = Ret ([GRAVELDB_OK; GRAVELDB_OK], st1) /\
    full_pending (sched st1) = true /\ waiting st1 (reverse [20; 30] ++ [10]) /\
    (forall a, a ∈ [20; 30] -> exists r, responses st1 !! a = Some r /\ untold r) /\
    ckpt_scheduler_force_checkpoint overlay_pool id st1 = Ret (GRAVELDB_OK, st2) /\ sdb st2 = snd after_purge /\
    full_pending (sched st2) = false /\ waiting st2 [] /\ delta_chain_length (sched st2) = 0 /\
    (forall a, a ∈ [20; 30] ++ [10] -> exists r, responses st2 !! a = Some r /\ told (current_epoch (gdb (snd after_fulls))) 0 r) /\
    (forall a, ~ (a ∈ [20; 30] ++ [10]) -> responses st2 !! a = responses sched_st !! a).
Proof.
  apply (ckpt_scheduler_singleflight host_le overlay_pool id sched_st [10] [20; 30] (snd after_fulls) (snd after_purge));
    [done|apply sched_st_waiting|done|apply (bool_decide_unpack _); vm_compute; done|done| |apply sched_db_safepoint].
  intros a Ha. repeat (apply elem_of_cons in Ha as [->|Ha]; [split; [done|]; split; [vm_compute; by eexists|apply (bool_decide_unpack _); vm_compute; done]|]).
  by apply elem_of_nil in Ha.
Defined.

Lemma ckpt_scheduler_duplicate_hangs_witness :
  exists st', ckpt_scheduler_request_full 10 sched_st = Ret (GRAVELDB_OK, st') /\ ckpt_scheduler_force_checkpoint overlay_pool id st' = Diverge.
Proof.
  apply (ckpt_scheduler_duplicate_hangs host_le overlay_pool id sched_st 10 (snd after_fulls) (snd after_purge));
    [done|done|done|vm_compute; by eexists|done|apply sched_db_safepoint].
Defined.

Lemma ckpt_scheduler_cooldown_late_witness :
  exists st1 st2 r, ckpt_scheduler_tick overlay_pool id 1000 sched_st = Ret (GRAVELDB_OK, st1) /\
    total_full_checkpoints (sched st1) = u64 (0 + 1) /\ last_full_time_ms (sched st1) = 0 /\ last_checkpoint_ms (sched st1) = 1000 /\
    ckpt_scheduler_request_full 20 st1 = Ret (GRAVELDB_OK, st2) /\ responses st2 !! 20 = Some r /\ untold r /\ full_pending (sched st2) = true.
Proof.
  apply (ckpt_scheduler_cooldown_late host_le overlay_pool id sched_st [10] 1000 20 (snd after_fulls) (snd after_purge));
    [done|apply sched_st_waiting|done|done|vm_compute; intuition congruence|done|vm_compute; intuition congruence|done|vm_compute; by eexists|apply sched_db_safepoint].
Defined.
