(* ===== verification/Export.v ===== *)
(** Export: checkpoint dumps of src/checkpoint.c: export, import and the parser.

    An export writes the valid entries of a bin to a dump file: it reads a batch of
    keys, then the embeddings of the entries in use, adjacent entries in one read,
    then writes them out. One step of the state machine is one phase. An import
    adds the entries of a dump to a bin, and the parser hands them to a callback. *)

From Stdlib Require Import String.
From stdpp Require Import strings.
From S2P Require Import Prelude LinearProbe Wire SlabAlloc Overlay DirtyTracker KeyBTree HashIndex DimRegistry IoBatch PageMap DimBin Names CkptMeta Engine DeltaFile.

#[local] Open Scope string_scope.
#[local] Open Scope Z_scope.

(** ** State (checkpoint.h, include/graveldb.h) *)

Definition GRAVELDB_CKPT_FULL : Z := 0.
Definition GRAVELDB_CKPT_DELTA : Z := 1.
Definition GRAVELDB_CKPT_ALSO_FULL : Z := 1.
Definition CKPT_EXPORT_IO_BATCH : Z := 256.
Definition CKPT_IMPORT_BATCH : Z := 256.

(** The places of the buffers are offsets in [read_buf_pool]. *)
Record CkptCoalescedRange : Type := mkRange { start_idx : Z; rng_count : Z; rng_buf : Z }.
Record CkptExportReadOp : Type := mkReadOp { op_feat_id : Z; op_entry_idx : Z; op_buf : Z }.

Inductive CkptExportPhase : Type := PHASE_IDLE | PHASE_KEY_READ | PHASE_EMB_READ | PHASE_OUTPUT.

(** An export of one kind. [ex_bin]: the address of the bin. The buffers are [None]
    after they are freed; [dirty_page_count], [read_op_count] and [range_count] are
    the lengths of the lists. *)
Record ExportOne : Type := mkExportOne {
  ex_bin : Z; cursor : Z; snapshot_bump : Z; ex_generation : Z; base_gen : Z; num_entries : Z; ex_type : Z; batch_entries : Z;
  header_written : bool; scan_done : bool; dump_fd : Z; dump_path : string; dump_size : Z; read_cursor : Z;
  dirty_pages : list Z; dirty_page_cursor : Z; ex_phase : CkptExportPhase;
  key_batch_buf : option (list Z); key_batch_start : Z; key_batch_count : Z;
  coalesced_ranges : list CkptCoalescedRange; read_ops : list CkptExportReadOp;
  ex_io_ctx : uring_io_ctx_t; read_buf_pool : option (list Z)
}.

(** An export and the full export that goes with it, if there is one. *)
Record GravelDBCkptExport : Type := mkExport { ex_main : ExportOne; paired_full : option ExportOne }.

(** [im_pos]: the position of [import_fd]. In the portable build a write is done when
    it is submitted, so the buffer of the batch is not kept. *)
Record GravelDBCkptImport : Type := mkImport {
  im_bin : Z; import_fd : Z; im_pos : Z; header_read : bool; im_done : bool; im_dim : Z; im_entry_size : Z; im_generation : Z;
  im_io_ctx : uring_io_ctx_t; pending_writes : Z
}.

Record GravelDBCkptEntry : Type := mkCkptEntry { ce_feat_id : Z; ce_embedding : list Z; ce_dim : Z }.
Record GravelDBCkptDumpHeader : Type := mkDumpHeader {
  dp_generation : Z; dp_base_gen : Z; dp_num_entries : Z; dp_dim : Z; dp_entry_size : Z; dp_type : Z
}.

(** Assignments of a step. *)
Definition set_header (e : ExportOne) (size : Z) : ExportOne :=
  mkExportOne (ex_bin e) (cursor e) (snapshot_bump e) (ex_generation e) (base_gen e) (num_entries e) (ex_type e) (batch_entries e)
    true (scan_done e) (dump_fd e) (dump_path e) size (read_cursor e) (dirty_pages e) (dirty_page_cursor e) (ex_phase e)
    (key_batch_buf e) (key_batch_start e) (key_batch_count e) (coalesced_ranges e) (read_ops e) (ex_io_ctx e) (read_buf_pool e).
Definition set_phase (e : ExportOne) (ph : CkptExportPhase) : ExportOne :=
  mkExportOne (ex_bin e) (cursor e) (snapshot_bump e) (ex_generation e) (base_gen e) (num_entries e) (ex_type e) (batch_entries e)
    (header_written e) (scan_done e) (dump_fd e) (dump_path e) (dump_size e) (read_cursor e) (dirty_pages e) (dirty_page_cursor e) ph
    (key_batch_buf e) (key_batch_start e) (key_batch_count e) (coalesced_ranges e) (read_ops e) (ex_io_ctx e) (read_buf_pool e).
Definition set_scan (e : ExportOne) (cur pgcur : Z) (fin : bool) : ExportOne :=
  mkExportOne (ex_bin e) cur (snapshot_bump e) (ex_generation e) (base_gen e) (num_entries e) (ex_type e) (batch_entries e)
    (header_written e) fin (dump_fd e) (dump_path e) (dump_size e) (read_cursor e) (dirty_pages e) pgcur (ex_phase e)
    (key_batch_buf e) (key_batch_start e) (key_batch_count e) (coalesced_ranges e) (read_ops e) (ex_io_ctx e) (read_buf_pool e).
Definition set_keys (e : ExportOne) (start count : Z) (buf : list Z) (c : uring_io_ctx_t) : ExportOne :=
  mkExportOne (ex_bin e) (cursor e) (snapshot_bump e) (ex_generation e) (base_gen e) (num_entries e) (ex_type e) (batch_entries e)
    (header_written e) (scan_done e) (dump_fd e) (dump_path e) (dump_size e) (read_cursor e) (dirty_pages e) (dirty_page_cursor e) (ex_phase e)
    (Some buf) start count (coalesced_ranges e) (read_ops e) c (read_buf_pool e).
Definition set_ops (e : ExportOne) (ops : list CkptExportReadOp) (rs : list CkptCoalescedRange) : ExportOne :=
  mkExportOne (ex_bin e) (cursor e) (snapshot_bump e) (ex_generation e) (base_gen e) (num_entries e) (ex_type e) (batch_entries e)
    (header_written e) (scan_done e) (dump_fd e) (dump_path e) (dump_size e) (read_cursor e) (dirty_pages e) (dirty_page_cursor e) (ex_phase e)
    (key_batch_buf e) (key_batch_start e) (key_batch_count e) rs ops (ex_io_ctx e) (read_buf_pool e).
Definition set_io (e : ExportOne) (c : uring_io_ctx_t) (pool : option (list Z)) : ExportOne :=
  mkExportOne (ex_bin e) (cursor e) (snapshot_bump e) (ex_generation e) (base_gen e) (num_entries e) (ex_type e) (batch_entries e)
    (header_written e) (scan_done e) (dump_fd e) (dump_path e) (dump_size e) (read_cursor e) (dirty_pages e) (dirty_page_cursor e) (ex_phase e)
    (key_batch_buf e) (key_batch_start e) (key_batch_count e) (coalesced_ranges e) (read_ops e) c pool.
Definition set_written (e : ExportOne) (size n : Z) : ExportOne :=
  mkExportOne (ex_bin e) (cursor e) (snapshot_bump e) (ex_generation e) (base_gen e) n (ex_type e) (batch_entries e)
    (header_written e) (scan_done e) (dump_fd e) (dump_path e) size (read_cursor e) (dirty_pages e) (dirty_page_cursor e) (ex_phase e)
    (key_batch_buf e) (key_batch_start e) (key_batch_count e) (coalesced_ranges e) (read_ops e) (ex_io_ctx e) (read_buf_pool e).
Definition set_read_cursor (e : ExportOne) (pos : Z) : ExportOne :=
  mkExportOne (ex_bin e) (cursor e) (snapshot_bump e) (ex_generation e) (base_gen e) (num_entries e) (ex_type e) (batch_entries e)
    (header_written e) (scan_done e) (dump_fd e) (dump_path e) (dump_size e) pos (dirty_pages e) (dirty_page_cursor e) (ex_phase e)
    (key_batch_buf e) (key_batch_start e) (key_batch_count e) (coalesced_ranges e) (read_ops e) (ex_io_ctx e) (read_buf_pool e).
(** The buffers are freed and the I/O context is closed; the dump stays open. *)
Definition release_export (e : ExportOne) (size : Z) : ExportOne :=
  mkExportOne (ex_bin e) (cursor e) (snapshot_bump e) (ex_generation e) (base_gen e) (num_entries e) (ex_type e) (batch_entries e)
    (header_written e) (scan_done e) (dump_fd e) (dump_path e) size (read_cursor e) [] (dirty_page_cursor e) (ex_phase e)
    None (key_batch_start e) (key_batch_count e) [] [] (uring_io_destroy (ex_io_ctx e)) None.

(** [rc < 0] *)
Definition is_error (rc : graveldb_status_t) : bool :=
  match rc with GRAVELDB_OK | GRAVELDB_AGAIN | GRAVELDB_FLUSH_NEEDED => false | _ => true end.

(** ** Pure parts *)

(** The entries in use of a batch of keys, [start] being the index of the first. *)
Fixpoint scan_keys (start : Z) (keys : list Z) : list CkptExportReadOp :=
  match keys with
  | [] => []
  | k :: keys => if k =? 0 then scan_keys (u32 (start + 1)) keys else mkReadOp k start 0 :: scan_keys (u32 (start + 1)) keys
  end.

(** The place of each entry in the pool. *)
Fixpoint place_ops (esz i : Z) (ops : list CkptExportReadOp) : list CkptExportReadOp :=
  match ops with
  | [] => []
  | o :: ops => mkReadOp (op_feat_id o) (op_entry_idx o) (i * esz) :: place_ops esz (i + 1) ops
  end.

(** [cur] is the range that is being extended; [i] is the index of the next entry. *)
Fixpoint build_ranges (esz i : Z) (cur : CkptCoalescedRange) (ops : list CkptExportReadOp) : list CkptCoalescedRange :=
  match ops with
  | [] => [cur]
  | o :: ops =>
    if op_entry_idx o =? u32 (start_idx cur + rng_count cur)
    then build_ranges esz (i + 1) (mkRange (start_idx cur) (u32 (rng_count cur + 1)) (rng_buf cur)) ops
    else cur :: build_ranges esz (i + 1) (mkRange (op_entry_idx o) 1 (i * esz)) ops
  end.

Definition export_build_coalesced_ranges (esz : Z) (ops : list CkptExportReadOp) : list CkptExportReadOp * list CkptCoalescedRange :=
  match ops with
  | [] => ([], [])
  | o :: ops' => (place_ops esz 0 ops, build_ranges esz 1 (mkRange (op_entry_idx o) 1 0) ops')
  end.

(** The dirty pages of a batch: the range of entries they span and the number of pages
    taken; [collected] counts entries. *)
Fixpoint collect_dirty (epp bump batch : Z) (pages : list Z) (lo hi collected npages : Z) : Z * Z * Z :=
  match pages with
  | [] => (lo, hi, npages)
  | pg :: pages =>
    if collected <? batch then
      let base_entry := u32 (pg * epp) in
      let page_end := u32 (base_entry + epp) in
      let page_end := if bump <? page_end then bump else page_end in
      collect_dirty epp bump batch pages (if base_entry <? lo then base_entry else lo) (if hi <? page_end then page_end else hi)
        (u32 (collected + u32 (page_end - base_entry))) (npages + 1)
    else (lo, hi, npages)
  end.

Section ops.
Context {P : Type} `{!ObjectPool P} {host : WireHost}.

(** The content of new memory. *)
Variable fresh : Z -> list Z.

#[local] Abbreviation D := (M (DbSt P)).

(** ** Export *)

Definition export_write_header (e : ExportOne) (b : DimBin P) : M Sys (graveldb_status_t * ExportOne) :=
  let* hdr := lift (wire_encode_ckpt_export_hdr (replicate (Z.to_nat WIRE_CKPT_EXPORT_HDR_SIZE) 0)
    (mkCkptExportHdr GRAVELDB_CKPT_EXPORT_MAGIC 1 (u32 (ex_type e + 1)) (ex_generation e) (u32 (DimBin.dim b)) (u32 (entry_size b)) 0 (base_gen e) 0)) in
  let* wr := write_end (dump_fd e) hdr in
  if negb (wr =? WIRE_CKPT_EXPORT_HDR_SIZE) then ret (GRAVELDB_ERR_IO, e)
  else ret (GRAVELDB_OK, set_header e (u64 (dump_size e + WIRE_CKPT_EXPORT_HDR_SIZE))).

(** One export; the failure of an allocation ends it with a status. *)
Definition begin_one (type dim base batch : Z) : D (graveldb_status_t + ExportOne) :=
  let* d := get_db in
  let* '(i, reg) := lift (dim_registry_find (dim_reg d) dim) in
  do* upd_db (fun d => set_reg d reg) in
  if i <? 0 then ret (inl GRAVELDB_ERR_NOT_FOUND)
  else
    let* addr := bin_addr (u16 i) in
    let* b := get_bin_at addr in
    let batch := if batch =? 0 then CKPT_EXPORT_IO_BATCH else batch in
    let* ok := on_sys sys_ok in
    if negb ok then ret (inl GRAVELDB_ERR_OOM)
    else
      let* dir := lift (deref (data_dir (config d))) in
      let path := export_path dir (generation (dirty b)) (DimBin.dim b) (if type =? GRAVELDB_CKPT_FULL then "full" else "delta") in
      let* fd := on_sys (open_path true true path) in
      if fd <? 0 then ret (inl GRAVELDB_ERR_IO)
      else
        let ctx := snd uring_io_init in
        let* ok_keys := on_sys sys_ok in
        if negb ok_keys then ret (inl GRAVELDB_ERR_OOM)
        else
          let* ok_ops := on_sys sys_ok in
          if negb ok_ops then ret (inl GRAVELDB_ERR_OOM)
          else
            let* ok_pool := on_sys sys_ok in
            if negb ok_pool then ret (inl GRAVELDB_ERR_OOM)
            else
              let* ok_ranges := on_sys sys_ok in
              if negb ok_ranges then ret (inl GRAVELDB_ERR_OOM)
              else
                let* ok_dirty := if type =? GRAVELDB_CKPT_DELTA then on_sys sys_ok else ret true in
                if negb ok_dirty then ret (inl GRAVELDB_ERR_OOM)
                else
                  let* pages := if type =? GRAVELDB_CKPT_DELTA then lift (dirty_tracker_scan_ckpt (dirty b) GRAVELDB_MAX_DIRTY) else ret [] in
                  ret (inr (mkExportOne addr 0 (u32 (bump_ptr b)) (generation (dirty b)) base 0 type batch false false fd path 0 0
                              pages 0 PHASE_IDLE (Some (fresh (batch * 8))) 0 0 [] [] ctx (Some (fresh (batch * entry_size b))))).

Definition graveldb_ckpt_export_begin (type dim base batch flags : Z) : D (graveldb_status_t * option GravelDBCkptExport) :=
  if negb (type =? GRAVELDB_CKPT_FULL) && negb (type =? GRAVELDB_CKPT_DELTA) then ret (GRAVELDB_ERR_INVALID, None)
  else
    let* r := begin_one type dim base batch in
    match r with
    | inl rc => ret (rc, None)
    | inr e =>
      if negb (Z.land flags GRAVELDB_CKPT_ALSO_FULL =? 0) && (type =? GRAVELDB_CKPT_DELTA) then
        let* r := begin_one GRAVELDB_CKPT_FULL dim 0 (batch_entries e) in
        match r with
        | inl rc => ret (rc, None)
        | inr f => ret (GRAVELDB_OK, Some (mkExport e (Some f)))
        end
      else ret (GRAVELDB_OK, Some (mkExport e None))
    end.

(** The keys of the entries [start ..., start + count), read as one request: the part
    of the key file that is not there is zero. *)
Definition submit_keys (e : ExportOne) (b : DimBin P) (start count : Z) : M Sys ExportOne :=
  let* buf := lift (deref (key_batch_buf e)) in
  let key_off := start * 8 in
  let want := count * 8 in
  let len := if key_file_size b <? key_off + want then (if key_file_size b <=? key_off then 0 else key_file_size b - key_off) else want in
  let* buf := lift (if key_file_size b <? key_off + want then copy_to buf len (replicate (Z.to_nat (want - len)) 0) else Ret buf) in
  if 0 <? len then
    let* '(_, bytes, c) := read_request (ex_io_ctx e) (key_fd b) len key_off in
    let* buf := lift (copy_to buf 0 bytes) in
    ret (set_keys e start count buf c)
  else ret (set_keys e start count buf (ex_io_ctx e)).

(** The next batch of a full export. *)
Definition idle_full (e : ExportOne) (b : DimBin P) : M Sys (graveldb_status_t * ExportOne) :=
  let end_ := u32 (cursor e + batch_entries e) in
  let end_ := if snapshot_bump e <? end_ then snapshot_bump e else end_ in
  let* e := submit_keys e b (cursor e) (u32 (end_ - cursor e)) in
  let e := set_scan e end_ (dirty_page_cursor e) (if snapshot_bump e <=? end_ then true else scan_done e) in
  ret (GRAVELDB_AGAIN, set_phase e PHASE_KEY_READ).

(** The next batch of a delta export. *)
Definition idle_delta (e : ExportOne) (b : DimBin P) : M Sys (graveldb_status_t * ExportOne) :=
  let '(lo, hi, n) := collect_dirty (u32 (entries_per_page b)) (snapshot_bump e) (batch_entries e)
                        (drop (Z.to_nat (dirty_page_cursor e)) (dirty_pages e)) UINT32_MAX 0 0 0 in
  let e := set_scan e (cursor e) (dirty_page_cursor e + n) (scan_done e) in
  if lo =? UINT32_MAX then ret (GRAVELDB_OK, set_scan e (cursor e) (dirty_page_cursor e) true)
  else
    let count := u32 (hi - lo) in
    let count := if batch_entries e <? count then batch_entries e else count in
    let* e := submit_keys e b lo count in
    let e := set_scan e (cursor e) (dirty_page_cursor e) (if zlen (dirty_pages e) <=? dirty_page_cursor e then true else scan_done e) in
    ret (GRAVELDB_AGAIN, set_phase e PHASE_KEY_READ).

(** The reads of the ranges into the pool. *)
Fixpoint submit_ranges (b : DimBin P) (c : uring_io_ctx_t) (pool : list Z) (rs : list CkptCoalescedRange) : M Sys (uring_io_ctx_t * list Z) :=
  match rs with
  | [] => ret (c, pool)
  | r :: rs =>
    let* '(_, bytes, c) := read_request c (DimBin.fd b) (rng_count r * entry_size b) (start_idx r * entry_size b) in
    let* pool := lift (copy_to pool (rng_buf r) bytes) in
    submit_ranges b c pool rs
  end.

(** The status of a step that may be the last one. *)
Definition step_status (e : ExportOne) : graveldb_status_t := if scan_done e then GRAVELDB_OK else GRAVELDB_AGAIN.

Definition step_keys (e : ExportOne) (b : DimBin P) : M Sys (graveldb_status_t * ExportOne) :=
  let '(still, c) := uring_io_poll (ex_io_ctx e) in
  let e := set_io e c (read_buf_pool e) in
  if 0 <? still then ret (GRAVELDB_AGAIN, e)
  else
    let* buf := lift (deref (key_batch_buf e)) in
    let* buf := lift (if zlen buf <? key_batch_count e * 8 then Ub else Ret buf) in
    let ops := take (Z.to_nat (i32 (batch_entries e))) (scan_keys (key_batch_start e) (keys_of (Z.to_nat (key_batch_count e)) buf)) in
    match ops with
    | [] => let e := set_phase (set_ops e [] (coalesced_ranges e)) PHASE_IDLE in ret (step_status e, e)
    | _ =>
      let '(ops, rs) := export_build_coalesced_ranges (entry_size b) ops in
      let* pool := lift (deref (read_buf_pool e)) in
      let* '(c, pool) := submit_ranges b (uring_io_reset (ex_io_ctx e)) pool rs in
      ret (GRAVELDB_AGAIN, set_phase (set_io (set_ops e ops rs) c (Some pool)) PHASE_EMB_READ)
    end.

(** Writes the entries; a short write ends the step where it is. *)
Fixpoint output_ops (e : ExportOne) (esz : Z) (pool : list Z) (ops : list CkptExportReadOp) : M Sys (bool * ExportOne) :=
  match ops with
  | [] => ret (true, e)
  | o :: ops =>
    let* feat_wire := lift (wire_put_u64 (replicate 8 0) 0 (op_feat_id o)) in
    let* w1 := write_end (dump_fd e) feat_wire in
    if negb (w1 =? 8) then ret (false, e)
    else
      let* emb := lift (copy_from pool (op_buf o) esz) in
      let* w2 := write_end (dump_fd e) emb in
      if negb (w2 =? esz) then ret (false, e)
      else output_ops (set_written e (u64 (dump_size e + 8 + esz)) (u64 (num_entries e + 1))) esz pool ops
  end.

Definition step_output (e : ExportOne) (b : DimBin P) : M Sys (graveldb_status_t * ExportOne) :=
  let* pool := lift (deref (read_buf_pool e)) in
  let* '(ok, e) := output_ops e (entry_size b) pool (read_ops e) in
  if negb ok then ret (GRAVELDB_ERR_IO, e)
  else let e := set_phase (set_ops e [] []) PHASE_IDLE in ret (step_status e, e).

(** One phase of the pipeline. *)
Definition step_phase (e : ExportOne) (b : DimBin P) : M Sys (graveldb_status_t * ExportOne) :=
  match ex_phase e with
  | PHASE_IDLE =>
    if scan_done e then ret (GRAVELDB_OK, e)
    else
      let e := set_io (set_ops e [] []) (uring_io_reset (ex_io_ctx e)) (read_buf_pool e) in
      if ex_type e =? GRAVELDB_CKPT_FULL then idle_full e b else idle_delta e b
  | PHASE_KEY_READ => step_keys e b
  | PHASE_EMB_READ =>
    let '(still, c) := uring_io_poll (ex_io_ctx e) in
    let e := set_io e c (read_buf_pool e) in
    if 0 <? still then ret (GRAVELDB_AGAIN, e) else ret (GRAVELDB_AGAIN, set_phase e PHASE_OUTPUT)
  | PHASE_OUTPUT => step_output e b
  end.

Definition export_step_single (e : ExportOne) (b : DimBin P) : M Sys (graveldb_status_t * ExportOne) :=
  match scan_done e, ex_phase e with
  | true, PHASE_IDLE => ret (GRAVELDB_OK, e)
  | _, _ =>
    let* '(rc, e) := if header_written e then ret (GRAVELDB_OK, e) else export_write_header e b in
    if negb (bool_decide (rc = GRAVELDB_OK)) then ret (rc, e) else step_phase e b
  end.

Definition step_on_bin (e : ExportOne) : D (graveldb_status_t * ExportOne) :=
  let* b := get_bin_at (ex_bin e) in on_sys (export_step_single e b).

Definition graveldb_ckpt_export_step (x : GravelDBCkptExport) : D (graveldb_status_t * GravelDBCkptExport) :=
  let* '(rc, e) := step_on_bin (ex_main x) in
  if is_error rc then ret (rc, mkExport e (paired_full x))
  else
    match paired_full x with
    | None => ret (rc, mkExport e None)
    | Some f =>
      let* '(rc_full, f) := step_on_bin f in
      let x := mkExport e (Some f) in
      if is_error rc_full then ret (rc_full, x)
      else if bool_decide (rc = GRAVELDB_OK) && bool_decide (rc_full = GRAVELDB_OK) then ret (GRAVELDB_OK, x)
      else ret (GRAVELDB_AGAIN, x)
    end.

Definition graveldb_ckpt_export_poll (x : GravelDBCkptExport) : D (graveldb_status_t * GravelDBCkptExport) := graveldb_ckpt_export_step x.

(** The trailer of one dump; whether it was written. *)
Definition end_one (e : ExportOne) : M Sys (bool * ExportOne) :=
  let* trailer := lift (wire_put_u32 (replicate 12 0) 0 GRAVELDB_CKPT_EXPORT_MAGIC) in
  let* trailer := lift (wire_put_u64 trailer 4 (num_entries e)) in
  let* wr := write_end (dump_fd e) trailer in
  let* _ := fdatasync (dump_fd e) in
  ret (wr =? 12, release_export e (u64 (dump_size e + 12))).

Definition graveldb_ckpt_export_end (x : GravelDBCkptExport) : M Sys (graveldb_status_t * GravelDBCkptExport) :=
  let* '(ok, e) := end_one (ex_main x) in
  match paired_full x with
  | None => ret (if (ok : bool) then GRAVELDB_OK else GRAVELDB_ERR_IO, mkExport e None)
  | Some f =>
    let* '(ok_full, f) := end_one f in
    ret (if (ok && negb ok_full)%bool then GRAVELDB_ERR_IO else if (ok : bool) then GRAVELDB_OK else GRAVELDB_ERR_IO, mkExport e (Some f))
  end.

Definition graveldb_ckpt_export_path (x : GravelDBCkptExport) : string := dump_path (ex_main x).
Definition graveldb_ckpt_export_full_path (x : GravelDBCkptExport) : option string := dump_path <$> paired_full x.
Definition graveldb_ckpt_export_size (x : GravelDBCkptExport) : Z := dump_size (ex_main x).

(** [pread] on a descriptor that was opened with [O_WRONLY]: [EBADF]. *)
Definition pread_wronly (fd len off : Z) : M Sys (Z * list Z) := ret (-1, []).

Definition graveldb_ckpt_export_read (x : GravelDBCkptExport) (len : Z) : M Sys (Z * list Z * GravelDBCkptExport) :=
  if len =? 0 then ret (-1, [], x)
  else
    let e := ex_main x in
    let* '(rd, b) := pread_wronly (dump_fd e) len (read_cursor e) in
    if rd <? 0 then ret (-1, [], x)
    else ret (rd, b, mkExport (set_read_cursor e (read_cursor e + rd)) (paired_full x)).

Definition graveldb_ckpt_export_read_reset (x : GravelDBCkptExport) : GravelDBCkptExport := mkExport (set_read_cursor (ex_main x) 0) (paired_full x).

(** The context is gone. *)
Definition graveldb_ckpt_export_destroy (x : GravelDBCkptExport) : option GravelDBCkptExport := None.

(** ** Import *)

Definition graveldb_ckpt_import_begin (dim : Z) (path : string) : D (graveldb_status_t * option GravelDBCkptImport) :=
  let* d := get_db in
  let* '(i, reg) := lift (dim_registry_find (dim_reg d) dim) in
  do* upd_db (fun d => set_reg d reg) in
  if i <? 0 then ret (GRAVELDB_ERR_NOT_FOUND, None)
  else
    let* addr := bin_addr (u16 i) in
    let* b := get_bin_at addr in
    let* ok := on_sys sys_ok in
    if negb ok then ret (GRAVELDB_ERR_OOM, None)
    else
      let* fd := on_sys (open_path false false path) in
      if fd <? 0 then ret (GRAVELDB_ERR_IO, None)
      else
        let* ok := on_sys sys_ok in
        if negb ok then ret (GRAVELDB_ERR_OOM, None)
        else ret (GRAVELDB_OK, Some (mkImport addr fd 0 false false (u32 dim) (u32 (entry_size b)) 0 (snd uring_io_init) 0)).

Definition im_at (imp : GravelDBCkptImport) (pos : Z) (fin : bool) : GravelDBCkptImport :=
  mkImport (im_bin imp) (import_fd imp) pos (header_read imp) fin (im_dim imp) (im_entry_size imp) (im_generation imp) (im_io_ctx imp) (pending_writes imp).
Definition im_io (imp : GravelDBCkptImport) (c : uring_io_ctx_t) (n : Z) : GravelDBCkptImport :=
  mkImport (im_bin imp) (import_fd imp) (im_pos imp) (header_read imp) (im_done imp) (im_dim imp) (im_entry_size imp) (im_generation imp) c n.
Definition im_header (imp : GravelDBCkptImport) (pos gen : Z) : GravelDBCkptImport :=
  mkImport (im_bin imp) (import_fd imp) pos true (im_done imp) (im_dim imp) (im_entry_size imp) gen (im_io_ctx imp) (pending_writes imp).

(** [read] from the dump: the count, the bytes, and the new position. *)
Definition read_dump (imp : GravelDBCkptImport) (len : Z) : D (Z * list Z * GravelDBCkptImport) :=
  let* '(rd, b) := on_sys (read_at (import_fd imp) (im_pos imp) len) in
  ret (rd, b, if rd <? 0 then imp else im_at imp (im_pos imp + rd) (im_done imp)).

Definition import_header (imp : GravelDBCkptImport) (b : DimBin P) : D (graveldb_status_t * GravelDBCkptImport) :=
  let* '(rd, hdr_buf, imp) := read_dump imp WIRE_CKPT_EXPORT_HDR_SIZE in
  if negb (rd =? WIRE_CKPT_EXPORT_HDR_SIZE) then ret (GRAVELDB_ERR_CORRUPT, imp)
  else
    let* h := lift (wire_decode_ckpt_export_hdr hdr_buf) in
    if negb (ch_magic h =? GRAVELDB_CKPT_EXPORT_MAGIC) || negb (ch_version h =? 1) then ret (GRAVELDB_ERR_CORRUPT, imp)
    else if negb (i32 (ch_dim h) =? DimBin.dim b) || negb (ch_entry_size h =? u32 (entry_size b)) then ret (GRAVELDB_ERR_INVALID, imp)
    else ret (GRAVELDB_OK, im_header imp (im_pos imp) (ch_generation h)).

(** An entry for the feature, its embedding and its key in the files, and the index. *)
Definition import_entry (imp : GravelDBCkptImport) (feat_id : Z) (emb : list Z) : D (option GravelDBCkptImport) :=
  let* entry_idx := with_bin (im_bin imp) dimbin_alloc_entry in
  if entry_idx =? UINT32_MAX then ret None
  else
    let* b := get_bin_at (im_bin imp) in
    let* '(_, c) := on_sys (write_request (im_io_ctx imp) (DimBin.fd b) emb (entry_idx * im_entry_size imp)) in
    let* _ := on_sys (pwrite (key_fd b) (key_bytes feat_id) (entry_idx * 8)) in
    let* d := get_db in
    let* '(i, reg) := lift (dim_registry_find (dim_reg d) (DimBin.dim b)) in
    do* upd_db (fun d => set_reg d reg) in
    do* when (0 <=? i) (let* _ := index_put feat_id (u16 i) entry_idx in ret tt) in
    ret (Some (im_io imp c (pending_writes imp + 1))).

(** [while (count < CKPT_IMPORT_BATCH)]; [None] when the bin is full. *)
Fixpoint import_entries (n : nat) (imp : GravelDBCkptImport) : D (option GravelDBCkptImport * GravelDBCkptImport) :=
  match n with
  | O => ret (Some imp, imp)
  | S n =>
    let* '(r1, feat_wire, imp) := read_dump imp 8 in
    if r1 <? 8 then let imp := im_at imp (im_pos imp) true in ret (Some imp, imp)
    else
      let* maybe_magic := lift (wire_get_u32 feat_wire 0) in
      if maybe_magic =? GRAVELDB_CKPT_EXPORT_MAGIC then
        let* '(_, _, imp) := read_dump imp 4 in
        let imp := im_at imp (im_pos imp) true in ret (Some imp, imp)
      else
        let* feat_id := lift (wire_get_u64 feat_wire 0) in
        let* '(r2, emb, imp) := read_dump imp (im_entry_size imp) in
        if negb (r2 =? im_entry_size imp) then let imp := im_at imp (im_pos imp) true in ret (Some imp, imp)
        else
          let* r := import_entry imp feat_id emb in
          match r with
          | None => ret (None, imp)
          | Some imp => import_entries n imp
          end
  end.

Definition graveldb_ckpt_import_step (imp : GravelDBCkptImport) : D (graveldb_status_t * GravelDBCkptImport) :=
  if im_done imp then ret (GRAVELDB_OK, imp)
  else
    let* b := get_bin_at (im_bin imp) in
    let* '(rc, imp) := if header_read imp then ret (GRAVELDB_OK, imp) else import_header imp b in
    if negb (bool_decide (rc = GRAVELDB_OK)) then ret (rc, imp)
    else
      let imp := im_io imp (uring_io_reset (im_io_ctx imp)) 0 in
      let* '(r, imp') := import_entries (Z.to_nat CKPT_IMPORT_BATCH) imp in
      match r with
      | None => ret (GRAVELDB_ERR_FULL, imp')
      | Some imp =>
        do* when (0 <? pending_writes imp) (let* _ := on_sys (uring_io_submit_fsyncs (im_io_ctx imp)) in ret tt) in
        ret (if im_done imp then GRAVELDB_OK else GRAVELDB_AGAIN, imp)
      end.

Definition graveldb_ckpt_import_poll (imp : GravelDBCkptImport) : graveldb_status_t * GravelDBCkptImport :=
  if pending_writes imp =? 0 then (GRAVELDB_OK, imp)
  else
    let '(still, c) := uring_io_poll (im_io_ctx imp) in
    let imp := im_io imp c (pending_writes imp) in
    if 0 <? still then (GRAVELDB_AGAIN, imp)
    else if 0 <? errors c then (GRAVELDB_ERR_IO, imp)
    else (GRAVELDB_OK, im_io imp c 0).

(** The context is gone; there is nothing to wait for in the portable build. *)
Definition graveldb_ckpt_import_end (imp : GravelDBCkptImport) : graveldb_status_t * option GravelDBCkptImport := (GRAVELDB_OK, None).

(** ** The parser *)

(** [emit]: the callback, on a state of its own. A value other than 0 ends the parse
    and is its result. *)
Context {C : Type}.
Variable emit : C -> GravelDBCkptEntry -> Z * C.

(** Each round reads at least eight bytes. *)
Fixpoint parse_entries (fuel : nat) (fd pos dim esz : Z) (ctx : C) : M Sys ((graveldb_status_t + Z) * C) :=
  match fuel with
  | O => lift Diverge
  | S fuel =>
    let* '(r1, feat_wire) := read_at fd pos 8 in
    if r1 <? 8 then ret (inl (if r1 =? 0 then GRAVELDB_OK else GRAVELDB_ERR_CORRUPT), ctx)
    else
      let* maybe_magic := lift (wire_get_u32 feat_wire 0) in
      if maybe_magic =? GRAVELDB_CKPT_EXPORT_MAGIC then ret (inl GRAVELDB_OK, ctx)
      else
        let* feat_id := lift (wire_get_u64 feat_wire 0) in
        let* '(r2, emb) := read_at fd (pos + 8) esz in
        if negb (r2 =? esz) then ret (inl GRAVELDB_ERR_CORRUPT, ctx)
        else
          let '(cb_ret, ctx) := emit ctx (mkCkptEntry feat_id emb dim) in
          if negb (cb_ret =? 0) then ret (inr cb_ret, ctx)
          else parse_entries fuel fd (pos + 8 + esz) dim esz ctx
  end.

(** The result, the header if it was read, and the state of the callback. *)
Definition graveldb_ckpt_parse (path : string) (ctx : C) : M Sys ((graveldb_status_t + Z) * option GravelDBCkptDumpHeader * C) :=
  let* fd := open_path false false path in
  if fd <? 0 then ret (inl GRAVELDB_ERR_IO, None, ctx)
  else
    let* '(rd, hdr_buf) := read_at fd 0 WIRE_CKPT_EXPORT_HDR_SIZE in
    if negb (rd =? WIRE_CKPT_EXPORT_HDR_SIZE) then ret (inl GRAVELDB_ERR_CORRUPT, None, ctx)
    else
      let* h := lift (wire_decode_ckpt_export_hdr hdr_buf) in
      if negb (ch_magic h =? GRAVELDB_CKPT_EXPORT_MAGIC) || negb (ch_version h =? 1) then ret (inl GRAVELDB_ERR_CORRUPT, None, ctx)
      else
        let* api_type := lift (if i32 (ch_type h) =? - 2 ^ 31 then Ub else Ret (i32 (ch_type h) - 1)) in
        let header := mkDumpHeader (ch_generation h) (ch_base_gen h) (ch_num_entries h) (ch_dim h) (ch_entry_size h) api_type in
        let* ok := sys_ok in
        if negb ok then ret (inl GRAVELDB_ERR_OOM, Some header, ctx)
        else
          let* fs := gets files in
          let* '(r, ctx) := parse_entries (S (List.length (default [] (fs !! fd)))) fd WIRE_CKPT_EXPORT_HDR_SIZE (ch_dim h) (ch_entry_size h) ctx in
          ret (r, Some header, ctx).

End ops.
