(* ===== verification/ExportProps.v ===== *)
(** ExportProps: a full export writes the valid entries of a bin, and the parser
    reads them back.

    The dump of a bin is described as a function of its key file and its data file;
    the export, driven to its end, produces that dump for every batch size. *)

From Stdlib Require Import String.
From stdpp Require Import strings.
From S2P Require Import Prelude LinearProbe Wire SlabAlloc Overlay DirtyTracker KeyBTree HashIndex DimRegistry IoBatch PageMap DimBin Names CkptMeta Engine EngineProps DeltaFile DeltaProps Export.

#[local] Open Scope string_scope.
#[local] Open Scope Z_scope.

(** ** The bytes of a dump *)

(** The embedding of an entry, and of a run of entries. *)
Definition embs (esz : Z) (f : list Z) (idx n : Z) : list Z := take (Z.to_nat (n * esz)) (drop (Z.to_nat (idx * esz)) f).

(** The keys of [n] entries: past the end of the key file they are zero. *)
Definition key_image (ksz : Z) (kf : list Z) : list Z := take (Z.to_nat ksz) kf.
Definition key_window (kb : list Z) (start n : Z) : list Z := file_byte kb <$> seqZ (start * 8) (n * 8).

(** The entries in use from [start] on. *)
Definition valid_ops (kb : list Z) (start n : Z) : list CkptExportReadOp := scan_keys start (keys_of (Z.to_nat n) (key_window kb start n)).

Definition op_image (esz : Z) (f : list Z) (o : CkptExportReadOp) : list Z := (le_split 8 (op_feat_id o) ++ embs esz f (op_entry_idx o) 1)%list.

(** ** Coalesced reads *)

Lemma splice_splice (pool A B : list Z) off : 0 <= off -> off + zlen A + zlen B <= zlen pool ->
  splice (splice pool off A) (off + zlen A) B = splice pool off (A ++ B).
Proof.
  intros Ho Hl. unfold splice, zlen in *. rewrite Z2Nat.inj_add, Nat2Z.id by lia. set (k := Z.to_nat off).
  assert (List.length (take k pool) = k) as Hk by (rewrite length_take; lia).
  assert (take (k + List.length A) (take k pool ++ A ++ drop (k + List.length A) pool) = (take k pool ++ A)%list) as ->.
  { rewrite app_assoc. rewrite <- Hk at 1. rewrite <- length_app. apply take_app_length. }
  rewrite <- !app_assoc. do 3 f_equal. rewrite app_assoc. rewrite drop_app_ge by (rewrite length_app; lia).
  rewrite drop_drop, length_app, length_app, Hk. f_equal. lia.
Qed.

Lemma embs_len esz f idx n : 0 <= esz -> 0 <= idx -> 0 <= n -> (idx + n) * esz <= zlen f -> zlen (embs esz f idx n) = n * esz.
Proof. intros He Hi Hn Hl. unfold embs, zlen in *. rewrite length_take, length_drop. nia. Qed.

Lemma embs_snoc esz f idx n : 0 <= esz -> 0 <= idx -> 0 <= n -> (idx + n + 1) * esz <= zlen f -> embs esz f idx (n + 1) = (embs esz f idx n ++ embs esz f (idx + n) 1)%list.
Proof.
  intros He Hi Hn Hl. unfold embs. replace ((n + 1) * esz) with (n * esz + 1 * esz) by lia. rewrite Z2Nat.inj_add by nia.
  rewrite <- (take_take_drop (drop (Z.to_nat (idx * esz)) f) (Z.to_nat (n * esz))). f_equal. rewrite drop_drop. do 2 f_equal. nia.
Qed.

(** Steps until the export is complete, as the callers make them; [GRAVELDB_AGAIN]
    when the fuel is used up. *)
Fixpoint run_steps {P : Type} {host : WireHost} (fuel : nat) (x : GravelDBCkptExport) : M (DbSt P) (graveldb_status_t * GravelDBCkptExport) :=
  match fuel with
  | O => ret (GRAVELDB_AGAIN, x)
  | S fuel =>
    let* '(rc, x) := graveldb_ckpt_export_step x in
    if bool_decide (rc = GRAVELDB_AGAIN) then run_steps fuel x else ret (rc, x)
  end.

Section props.
Context {P : Type} `{!ObjectPool P} {host : WireHost} {host_ok : WireHostOk host}.
Implicit Types b : DimBin P.

(** The entries of a list of operations are in the data file. *)
Definition ops_in (esz : Z) (f : list Z) (ops : list CkptExportReadOp) : Prop :=
  forall o, o ∈ ops -> 0 <= op_entry_idx o < 2 ^ 32 - 1 /\ (op_entry_idx o + 1) * esz <= zlen f.

Lemma zlen_embs esz f ops : 0 <= esz -> ops_in esz f ops -> zlen (concat ((fun o => embs esz f (op_entry_idx o) 1) <$> ops)) = zlen ops * esz.
Proof.
  intros He. induction ops as [|o ops IH]; intros Hin; [done|]. rewrite fmap_cons. cbn [concat]. destruct (Hin o ltac:(set_solver)) as [H1 H2].
  rewrite zlen_app, embs_len, IH by (lia || intros x Hx; apply Hin; set_solver). unfold zlen. simpl. lia.
Qed.

(** The ranges put the embeddings one after the other into the pool. *)
Lemma submit_ranges_spec b (ops : list CkptExportReadOp) i cur c pool y f :
  answers y = [] -> files y !! fd b = Some f -> initialized c = true -> 0 < entry_size b -> ops_in (entry_size b) f ops ->
  0 <= start_idx cur -> 0 < rng_count cur -> (start_idx cur + rng_count cur) * entry_size b <= zlen f -> start_idx cur + rng_count cur < 2 ^ 32 ->
  0 <= rng_buf cur -> rng_buf cur + rng_count cur * entry_size b = i * entry_size b -> (i + zlen ops) * entry_size b <= zlen pool ->
  exists c', submit_ranges b c pool (build_ranges (entry_size b) i cur ops) y =
    Ret (c', splice pool (rng_buf cur) (embs (entry_size b) f (start_idx cur) (rng_count cur) ++ concat ((fun o => embs (entry_size b) f (op_entry_idx o) 1) <$> ops)), y) /\
    initialized c' = true.
Proof.
  intros Hq Hf. set (esz := entry_size b). assert (forall cur c pool rs, initialized c = true -> 0 < esz -> 0 <= start_idx cur -> 0 < rng_count cur ->
    (start_idx cur + rng_count cur) * esz <= zlen f -> 0 <= rng_buf cur -> rng_buf cur + rng_count cur * esz <= zlen pool ->
    submit_ranges b c pool (cur :: rs) y = submit_ranges b (add_pending c) (splice pool (rng_buf cur) (embs esz f (start_idx cur) (rng_count cur))) rs y) as Hone.
  { intros cur0 c0 pool0 rs Hi He Hs Hc Hl Hb Hp. cbn [submit_ranges]. unfold read_request. rewrite Hi. cbn [negb]. unfold bindM at 1. unfold bindM at 1. fold esz.
    rewrite (pread_quiet y (fd b) f) by done. cbn [res_bind fst snd]. fold (embs esz f (start_idx cur0) (rng_count cur0)). rewrite embs_len by lia.
    rewrite (proj2 (Z.ltb_ge _ 0)) by nia. unfold bindM at 1. cbn [ret res_bind fst snd].
    rewrite copy_to_splice by (split; [done|]; rewrite embs_len by lia; nia). done. }
  revert i cur c pool. induction ops as [|o ops IH]; intros i cur c pool Hi He Hin Hs Hc Hl H32 Hb Hib Hp; cbn [build_ranges].
  - change (zlen []) with 0 in Hp. rewrite Hone by (done || nia). eexists. split; [simpl; by rewrite app_nil_r|done].
  - destruct (Hin o ltac:(set_solver)) as [Ho1 Ho2]. assert (ops_in esz f ops) as Hin' by (intros x Hx; apply Hin; set_solver).
    assert (zlen (o :: ops) = 1 + zlen ops) as Hlen by (unfold zlen; simpl; lia). pose proof (zlen_nonneg ops). rewrite u32_id by lia.
    destruct (Z.eqb_spec (op_entry_idx o) (start_idx cur + rng_count cur)) as [E|E].
    + destruct (IH (i + 1) (mkRange (start_idx cur) (u32 (rng_count cur + 1)) (rng_buf cur)) c pool) as (c' & E' & Hc'); cbn [start_idx rng_count rng_buf];
        rewrite ?u32_id by lia; try done; try nia. cbn [start_idx rng_count rng_buf] in E'. rewrite !u32_id in E' by lia. exists c'. split; [|done]. rewrite E'.
      rewrite fmap_cons. cbn [concat]. rewrite E, embs_snoc by nia. by rewrite <- app_assoc.
    + rewrite Hone by (done || nia). assert (zlen (embs esz f (start_idx cur) (rng_count cur)) = rng_count cur * esz) as Hel by (apply embs_len; lia).
      destruct (IH (i + 1) (mkRange (op_entry_idx o) 1 (i * esz)) (add_pending c) (splice pool (rng_buf cur) (embs esz f (start_idx cur) (rng_count cur)))) as (c' & E' & Hc');
        cbn [start_idx rng_count rng_buf]; try done; try nia. { rewrite zlen_splice; [nia|]. split; [done|]. nia. }
      cbn [start_idx rng_count rng_buf] in E'. exists c'. split; [|done]. rewrite E'. rewrite <- Hib, <- Hel. rewrite splice_splice; [|done|].
      * rewrite fmap_cons. cbn [concat]. done.
      * rewrite Hel, zlen_app, embs_len by nia. rewrite (zlen_embs esz f ops) by (done || lia). nia.
Qed.
(** ** Batches of keys *)

Lemma splice_front (buf X : list Z) : zlen X <= zlen buf -> splice buf 0 X = (X ++ drop (List.length X) buf)%list.
Proof. done. Qed.

Lemma key_window_len kb start n : 0 <= n -> List.length (key_window kb start n) = Z.to_nat (n * 8).
Proof. intros Hn. unfold key_window. by rewrite length_fmap, length_seqZ. Qed.

Lemma key_window_app kb start n m : 0 <= n -> 0 <= m -> key_window kb start (n + m) = (key_window kb start n ++ key_window kb (start + n) m)%list.
Proof.
  intros Hn Hm. unfold key_window. replace ((n + m) * 8) with (n * 8 + m * 8) by lia. rewrite seqZ_app by lia. rewrite fmap_app. do 3 f_equal. lia.
Qed.

(** The bytes of the key file, then zeros. *)
Lemma key_window_read ksz kf start n len : 0 <= ksz <= zlen kf -> 0 <= start -> 0 <= n ->
  len = (if ksz <? start * 8 + n * 8 then (if ksz <=? start * 8 then 0 else ksz - start * 8) else n * 8) ->
  0 <= len <= n * 8 /\ zlen (take (Z.to_nat len) (drop (Z.to_nat (start * 8)) kf)) = len /\
  key_window (key_image ksz kf) start n = (take (Z.to_nat len) (drop (Z.to_nat (start * 8)) kf) ++ replicate (Z.to_nat (n * 8 - len)) 0)%list.
Proof.
  intros Hk Hs Hn Hlen. assert (0 <= len <= n * 8 /\ (0 < len -> start * 8 + len <= ksz) /\ (len < n * 8 -> ksz <= start * 8 + len)) as (H1 & H2 & H3) by (subst len; repeat zb; lia).
  clear Hlen. assert (zlen (take (Z.to_nat len) (drop (Z.to_nat (start * 8)) kf)) = len) as Hl.
  { unfold zlen in *. rewrite length_take, length_drop. destruct (decide (len = 0)) as [->|]; lia. }
  split; [done|]. split; [done|]. apply list_eq. intros k. unfold key_window. rewrite list_lookup_fmap.
  destruct (decide (k < Z.to_nat (n * 8))%nat) as [Hkn|Hkn].
  - rewrite lookup_seqZ_lt by lia. cbn [fmap option_fmap option_map]. unfold file_byte, key_image. destruct (decide (k < Z.to_nat len)%nat) as [Hkl|Hkl].
    + rewrite lookup_app_l by (unfold zlen in Hl; lia). rewrite !lookup_take_lt by lia. rewrite lookup_drop. rewrite Z2Nat.inj_add, Nat2Z.id by lia.
      destruct (lookup_lt_is_Some_2 kf (Z.to_nat (start * 8) + k)) as [x ->]; [|done]. unfold zlen in Hk. lia.
    + rewrite lookup_app_r by (unfold zlen in Hl; lia). rewrite lookup_replicate_2 by (unfold zlen in Hl; lia).
      rewrite lookup_take_ge by lia. done.
  - rewrite lookup_seqZ_ge by lia. symmetry. apply lookup_ge_None_2. rewrite length_app, length_replicate. unfold zlen in Hl. lia.
Qed.

Lemma submit_keys_spec e b start count y kf buf :
  answers y = [] -> files y !! key_fd b = Some kf -> key_batch_buf e = Some buf -> initialized (ex_io_ctx e) = true ->
  0 <= key_file_size b <= zlen kf -> 0 <= start -> 0 <= count -> count * 8 <= zlen buf ->
  exists c, submit_keys e b start count y = Ret (set_keys e start count (splice buf 0 (key_window (key_image (key_file_size b) kf) start count)) c, y) /\ initialized c = true.
Proof.
  intros Hq Hf Hb Hi Hk Hs Hc Hl. unfold submit_keys. unfold bindM at 1. rewrite Hb. cbn [deref lift res_bind fst snd].
  set (len := if key_file_size b <? start * 8 + count * 8 then if key_file_size b <=? start * 8 then 0 else key_file_size b - start * 8 else count * 8). destruct (key_window_read (key_file_size b) kf start count len Hk Hs Hc eq_refl) as (H1 & H2 & ->).
  set (B := take (Z.to_nat len) _) in *. set (Zs := replicate _ 0).
  assert (exists buf1, (if key_file_size b <? start * 8 + count * 8 then copy_to buf len Zs else Ret buf) = Ret buf1 /\
    splice buf 0 (B ++ Zs) = splice buf1 0 B /\ zlen buf1 = zlen buf) as (buf1 & E1 & Esp & Hl1).
  { assert (zlen Zs = count * 8 - len) as HZ by (unfold Zs, zlen; rewrite length_replicate; lia). destruct (Z.ltb_spec (key_file_size b) (start * 8 + count * 8)) as [Hlt|Hge].
    - rewrite copy_to_splice by (split; lia). eexists. split; [reflexivity|]. split; [|apply zlen_splice; split; lia].
      unfold splice. change (Z.to_nat 0) with 0%nat. rewrite !take_0. cbn [app]. rewrite <- app_assoc. f_equal. unfold zlen in H2. rewrite Nat.add_0_l.
      rewrite drop_app_ge by (rewrite length_take; lia). rewrite length_take. assert (List.length B = Z.to_nat len) as HB by lia. rewrite HB.
      replace (0 + Z.to_nat len - Z.to_nat len `min` List.length buf)%nat with 0%nat by (unfold zlen in Hl; lia). rewrite drop_0. f_equal. rewrite length_app. f_equal. lia.
    - exists buf. split; [done|]. assert (len = count * 8) as E by (unfold len; repeat zb; lia).
      assert (Zs = []) as -> by (unfold Zs; replace (Z.to_nat (count * 8 - len)) with 0%nat by lia; done). by rewrite app_nil_r. }
  rewrite E1. unfold bindM at 1. cbn [lift res_bind fst snd]. rewrite Esp. destruct (Z.ltb_spec 0 len) as [Hlen|Hlen].
  - unfold read_request. rewrite Hi. cbn [negb]. unfold bindM at 1. unfold bindM at 1. rewrite (pread_quiet y (key_fd b) kf) by done. cbn [res_bind fst snd]. fold B. rewrite H2.
    rewrite (proj2 (Z.ltb_ge len 0)) by lia. unfold bindM at 1. cbn [ret res_bind fst snd]. rewrite copy_to_splice by (split; lia). cbn [lift res_bind fst snd].
    eexists. split; [reflexivity|done].
  - assert (B = []) as ->. { unfold B. replace (Z.to_nat len) with 0%nat by lia. done. } eexists. split; [reflexivity|done].
Qed.

(** ** The entries in use *)

Lemma keys_of_len n bs : List.length (keys_of n bs) = n.
Proof. revert bs. induction n as [|n IH]; intros bs; [done|]. simpl. by rewrite IH. Qed.

Lemma keys_of_app n m (b1 b2 : list Z) : List.length b1 = (n * 8)%nat -> keys_of (n + m) (b1 ++ b2) = (keys_of n b1 ++ keys_of m b2)%list.
Proof.
  revert b1. induction n as [|n IH]; intros b1 Hl; [by destruct b1|]. cbn [Nat.add keys_of app]. rewrite take_app_le, drop_app_le by lia.
  f_equal. apply IH. rewrite length_drop. lia.
Qed.

Lemma keys_of_front n (b1 b2 : list Z) : List.length b1 = (n * 8)%nat -> keys_of n (b1 ++ b2) = keys_of n b1.
Proof. intros Hl. rewrite <- (Nat.add_0_r n) at 1. rewrite keys_of_app by done. apply app_nil_r. Qed.

Lemma scan_keys_app s (k1 k2 : list Z) : 0 <= s -> s + zlen k1 < 2 ^ 32 -> scan_keys s (k1 ++ k2) = (scan_keys s k1 ++ scan_keys (s + zlen k1) k2)%list.
Proof.
  revert s. induction k1 as [|k k1 IH]; intros s Hs Hl; [by rewrite Z.add_0_r|].
  assert (zlen (k :: k1) = 1 + zlen k1) as E by (unfold zlen; simpl; lia). pose proof (zlen_nonneg k1). simpl. rewrite u32_id by lia. rewrite IH by lia.
  rewrite E, Z.add_assoc. by destruct (k =? 0).
Qed.

Lemma scan_keys_idx s (keys : list Z) o : 0 <= s -> s + zlen keys < 2 ^ 32 -> o ∈ scan_keys s keys -> s <= op_entry_idx o < s + zlen keys /\ op_feat_id o <> 0.
Proof.
  revert s. induction keys as [|k keys IH]; intros s Hs Hl Ho; [by apply elem_of_nil in Ho|].
  assert (zlen (k :: keys) = 1 + zlen keys) as E by (unfold zlen; simpl; lia). pose proof (zlen_nonneg keys). simpl in Ho. rewrite u32_id in Ho by lia.
  destruct (Z.eqb_spec k 0) as [Hk|Hk]; [apply IH in Ho; lia|]. apply elem_of_cons in Ho as [->|Ho]; [simpl; lia|apply IH in Ho; lia].
Qed.

Lemma scan_keys_len s (keys : list Z) : zlen (scan_keys s keys) <= zlen keys.
Proof. revert s. induction keys as [|k keys IH]; intros s; [done|]. specialize (IH (u32 (s + 1))). unfold zlen in *. simpl. destruct (k =? 0); simpl; lia. Qed.

Lemma valid_ops_app kb s n m : 0 <= s -> 0 <= n -> 0 <= m -> s + n < 2 ^ 32 -> valid_ops kb s (n + m) = (valid_ops kb s n ++ valid_ops kb (s + n) m)%list.
Proof.
  intros Hs Hn Hm Hl. unfold valid_ops. rewrite key_window_app, Z2Nat.inj_add by lia. rewrite keys_of_app by (rewrite key_window_len; lia).
  assert (zlen (keys_of (Z.to_nat n) (key_window kb s n)) = n) as E by (unfold zlen; rewrite keys_of_len; lia). rewrite scan_keys_app by lia. by rewrite E.
Qed.

(** A step of the interface is a step of the export. *)
Lemma api_step_eq b e d y : bin_heap d !! ex_bin e = Some b ->
  graveldb_ckpt_export_step (mkExport e None) (mkDbSt d y) = let! '(rc, e1, y1) := export_step_single e b y in Ret (rc, mkExport e1 None, mkDbSt d y1).
Proof.
  intros Hbin. unfold graveldb_ckpt_export_step, step_on_bin. cbn [ex_main paired_full]. unfold get_bin_at, get_db, gets.
  unfold bindM at 1 2 3. cbn [res_bind fst snd gdb]. rewrite Hbin. cbn [deref lift res_bind fst snd]. unfold on_sys. cbn [gsys gdb].
  destruct (export_step_single e b y) as [[[rc e1] y1]| |]; cbn [res_bind fst snd]; [|done|done]. by destruct (is_error rc).
Qed.

(** ** The steps of a full export *)

Section full.
Context (b : DimBin P) (kf f : list Z) (B n dfd : Z) (path : string) (gen base : Z) (addr : Z).
Context (HB : 0 < B < 2 ^ 31) (Hn : 0 <= n) (HnB : n + B < 2 ^ 32) (Hesz : 0 < entry_size b) (Hks : 0 <= key_file_size b <= zlen kf).
Context (Hdk : dfd <> key_fd b) (Hdf : dfd <> fd b) (d : GravelDB P) (Hbin : bin_heap d !! addr = Some b).

#[local] Abbreviation esz := (entry_size b).
#[local] Abbreviation kb := (key_image (key_file_size b) kf).

(** Every entry in use has its embedding in the data file. *)
Context (Hemb : forall o, o ∈ valid_ops kb 0 n -> (op_entry_idx o + 1) * esz <= zlen f).

(** An export between two steps: the dump is [g], [num] entries were written, and the
    scan is at entry [c]. *)
Record est (e : ExportOne) (y : Sys) (c : Z) (g : list Z) (num : Z) : Prop := {
  es_q : answers y = []; es_names : names y !! path = Some dfd;
  es_key : files y !! key_fd b = Some kf; es_data : files y !! fd b = Some f; es_dump : files y !! dfd = Some g;
  es_hdr : header_written e = true; es_type : ex_type e = GRAVELDB_CKPT_FULL; es_ctx : initialized (ex_io_ctx e) = true;
  es_buf : exists buf, key_batch_buf e = Some buf /\ zlen buf = B * 8;
  es_pool : exists pool, read_buf_pool e = Some pool /\ zlen pool = B * esz;
  es_batch : batch_entries e = B; es_bump : snapshot_bump e = n; es_cur : cursor e = c; es_num : num_entries e = num;
  es_fd : dump_fd e = dfd; es_path : dump_path e = path; es_bin : ex_bin e = addr; es_gen : ex_generation e = gen; es_base : base_gen e = base
}.

Lemma step_past_header e y c g num (Hs : scan_done e = false \/ ex_phase e <> PHASE_IDLE) : est e y c g num ->
  export_step_single e b y = step_phase e b y.
Proof.
  intros He. unfold export_step_single. rewrite (es_hdr _ _ _ _ _ He).
  assert ((let* '(rc, e0) := ret (GRAVELDB_OK, e) in if negb (bool_decide (rc = GRAVELDB_OK)) then ret (rc, e0) else step_phase e0 b) y = step_phase e b y) as E.
  { unfold bindM, ret. cbn [res_bind fst snd]. by rewrite bool_decide_eq_true_2. }
  destruct (scan_done e), (ex_phase e); try exact E. by destruct Hs.
Qed.

(** The end of the next batch. *)
Definition batch_end (c : Z) : Z := Z.min (c + B) n.

Lemma valid_in c m o : 0 <= c -> 0 <= m -> c + m <= n -> o ∈ valid_ops kb c m -> 0 <= op_entry_idx o < 2 ^ 32 - 1 /\ (op_entry_idx o + 1) * esz <= zlen f.
Proof.
  intros Hc Hm Hl Ho. assert (zlen (keys_of (Z.to_nat m) (key_window kb c m)) = m) as E by (unfold zlen; rewrite keys_of_len; lia).
  destruct (scan_keys_idx c (keys_of (Z.to_nat m) (key_window kb c m)) o Hc ltac:(lia) Ho) as [Hi _]. split; [lia|]. apply Hemb.
  replace n with (c + (m + (n - c - m))) by lia. rewrite valid_ops_app by lia. rewrite Z.add_0_l. rewrite (valid_ops_app _ c m) by lia. set_solver.
Qed.

Lemma step_idle e y c g num : est e y c g num -> ex_phase e = PHASE_IDLE -> scan_done e = false -> 0 <= c <= n ->
  exists e1 buf, export_step_single e b y = Ret (GRAVELDB_AGAIN, e1, y) /\ est e1 y (batch_end c) g num /\ ex_phase e1 = PHASE_KEY_READ /\
    scan_done e1 = (n <=? batch_end c) /\ key_batch_start e1 = c /\ key_batch_count e1 = batch_end c - c /\
    key_batch_buf e1 = Some (splice buf 0 (key_window kb c (batch_end c - c))) /\ zlen buf = B * 8.
Proof.
  intros He Hph Hsd Hc. rewrite (step_past_header e y c g num) by auto. pose proof He as [E1 E1b E2 E3 E4 E5 E6 E7 (buf & E8 & E8l) (pool & E9 & E9l) E10 E11 E12 E13 E14 E15 E16 E17 E18].
  unfold step_phase. rewrite Hph, Hsd. cbn [ex_type set_io set_ops]. rewrite E6, Z.eqb_refl. unfold idle_full. cbn [cursor batch_entries snapshot_bump set_io set_ops].
  rewrite E10, E11, E12. rewrite (u32_id (c + B)) by lia.
  assert ((if n <? c + B then n else c + B) = batch_end c) as Ee by (unfold batch_end; zb; lia). rewrite Ee. unfold batch_end in *. rewrite u32_id by lia.
  set (e0 := set_io _ _ _). destruct (submit_keys_spec e0 b c (Z.min (c + B) n - c) y kf buf) as (ctx & E & Hi); try done; try lia.
  { unfold e0. cbn [ex_io_ctx set_io]. unfold uring_io_reset. rewrite E7. cbn [negb]. done. }
  unfold bindM at 1. rewrite E. cbn [res_bind fst snd ret]. eexists _, buf. split; [reflexivity|]. split; [|split; [done|]].
  - split; try done; cbn; rewrite ?E9; eauto. eexists. split; [reflexivity|]. rewrite zlen_splice; [done|]. split; [done|]. unfold zlen. rewrite key_window_len by lia. unfold zlen in E8l. lia.
  - cbn. rewrite E11, Hsd. split; [|done]. by destruct (n <=? _).
Qed.

(** The keys of the batch are the valid entries. *)
Lemma batch_ops c buf : 0 <= c <= n -> zlen buf = B * 8 ->
  take (Z.to_nat (i32 B)) (scan_keys c (keys_of (Z.to_nat (batch_end c - c)) (splice buf 0 (key_window kb c (batch_end c - c))))) = valid_ops kb c (batch_end c - c).
Proof.
  intros Hc Hl. unfold batch_end in *. set (m := Z.min (c + B) n - c). rewrite splice_front by (unfold zlen in *; rewrite key_window_len by lia; lia).
  rewrite keys_of_front by (rewrite key_window_len; lia). fold (valid_ops kb c m). apply take_ge. unfold i32. rewrite Z.mod_small by lia.
  pose proof (scan_keys_len c (keys_of (Z.to_nat m) (key_window kb c m))) as H. unfold zlen in H. rewrite keys_of_len in H. unfold valid_ops. lia.
Qed.

Lemma step_keys_none e y c c0 g num buf : est e y c g num -> ex_phase e = PHASE_KEY_READ -> 0 <= c0 <= n -> key_batch_start e = c0 -> key_batch_count e = batch_end c0 - c0 ->
  key_batch_buf e = Some (splice buf 0 (key_window kb c0 (batch_end c0 - c0))) -> zlen buf = B * 8 -> valid_ops kb c0 (batch_end c0 - c0) = [] ->
  exists e1, export_step_single e b y = Ret (step_status e, e1, y) /\ est e1 y c g num /\ ex_phase e1 = PHASE_IDLE /\ scan_done e1 = scan_done e.
Proof.
  intros He Hph Hc Hst Hct Hbuf Hl Hops. rewrite (step_past_header e y c g num) by (rewrite ?Hph; auto). pose proof He as [E1 E1b E2 E3 E4 E5 E6 E7 _ (pool & E9 & E9l) E10 E11 E12 E13 E14 E15 E16 E17 E18].
  unfold step_phase. rewrite Hph. unfold step_keys, uring_io_poll. rewrite E7. cbn [negb]. change (0 <? 0) with false. cbv iota.
  cbn [key_batch_buf key_batch_count key_batch_start batch_entries coalesced_ranges set_io]. rewrite Hbuf, Hst, Hct, E10. unfold bindM at 1. cbn [deref lift res_bind fst snd].
  assert (zlen (splice buf 0 (key_window kb c0 (batch_end c0 - c0))) = B * 8) as Hsl.
  { rewrite zlen_splice; [done|]. split; [done|]. unfold zlen, batch_end in *. rewrite key_window_len by lia. lia. }
  rewrite Hsl. rewrite (proj2 (Z.ltb_ge _ _)) by (unfold batch_end; lia). unfold bindM at 1. cbn [lift res_bind fst snd]. rewrite batch_ops, Hops by done.
  eexists. split; [reflexivity|]. split; [|split; [done|done]].
  split; try done; cbn; rewrite ?E9; eauto.
Qed.

Lemma step_keys_some e y c c0 g num buf o ops : est e y c g num -> ex_phase e = PHASE_KEY_READ -> 0 <= c0 <= n -> key_batch_start e = c0 -> key_batch_count e = batch_end c0 - c0 ->
  key_batch_buf e = Some (splice buf 0 (key_window kb c0 (batch_end c0 - c0))) -> zlen buf = B * 8 -> valid_ops kb c0 (batch_end c0 - c0) = o :: ops ->
  exists e1 pool, export_step_single e b y = Ret (GRAVELDB_AGAIN, e1, y) /\ est e1 y c g num /\ ex_phase e1 = PHASE_EMB_READ /\ scan_done e1 = scan_done e /\
    read_ops e1 = place_ops esz 0 (o :: ops) /\ read_buf_pool e1 = Some (splice pool 0 (concat ((fun o => embs esz f (op_entry_idx o) 1) <$> o :: ops))) /\ zlen pool = B * esz.
Proof.
  intros He Hph Hc Hst Hct Hbuf Hl Hops. rewrite (step_past_header e y c g num) by (rewrite ?Hph; auto). pose proof He as [E1 E1b E2 E3 E4 E5 E6 E7 _ (pool & E9 & E9l) E10 E11 E12 E13 E14 E15 E16 E17 E18].
  unfold step_phase. rewrite Hph. unfold step_keys, uring_io_poll. rewrite E7. cbn [negb]. change (0 <? 0) with false. cbv iota.
  cbn [key_batch_buf key_batch_count key_batch_start batch_entries coalesced_ranges set_io]. rewrite Hbuf, Hst, Hct, E10. unfold bindM at 1. cbn [deref lift res_bind fst snd].
  assert (zlen (splice buf 0 (key_window kb c0 (batch_end c0 - c0))) = B * 8) as Hsl.
  { rewrite zlen_splice; [done|]. split; [done|]. unfold zlen, batch_end in *. rewrite key_window_len by lia. lia. }
  rewrite Hsl. rewrite (proj2 (Z.ltb_ge _ _)) by (unfold batch_end; lia). unfold bindM at 1. cbn [lift res_bind fst snd]. rewrite batch_ops, Hops by done.
  cbn [export_build_coalesced_ranges read_buf_pool set_io]. rewrite E9. unfold bindM at 1. cbn [deref lift res_bind fst snd].
  assert (forall x, x ∈ o :: ops -> 0 <= op_entry_idx x < 2 ^ 32 - 1 /\ (op_entry_idx x + 1) * esz <= zlen f) as Hin.
  { intros x Hx. rewrite <- Hops in Hx. unfold batch_end in *. eapply (valid_in c0 (Z.min (c0 + B) n - c0)); [lia|lia|lia|exact Hx]. }
  assert (zlen (o :: ops) <= B) as Hlo.
  { rewrite <- Hops. pose proof (scan_keys_len c0 (keys_of (Z.to_nat (batch_end c0 - c0)) (key_window kb c0 (batch_end c0 - c0)))) as H.
    unfold zlen in H at 2. rewrite keys_of_len in H. unfold valid_ops, batch_end in *. lia. }
  assert (zlen (o :: ops) = 1 + zlen ops) as Hlc by (unfold zlen; simpl; lia). destruct (Hin o ltac:(set_solver)) as [Ho1 Ho2].
  destruct (submit_ranges_spec b ops 1 (mkRange (op_entry_idx o) 1 0) (uring_io_reset (mkUringIoCtx 0 (errors (ex_io_ctx e)) (initialized (ex_io_ctx e)) (fsync_fds (ex_io_ctx e)))) pool y f) as (c' & E & Hc');
    cbn [start_idx rng_count rng_buf]; try done; try nia.
  { unfold uring_io_reset. cbn [initialized]. by rewrite E7. }
  { intros x Hx. apply Hin. set_solver. }
  cbn [start_idx rng_count rng_buf] in E. cbn [ex_io_ctx set_io]. rewrite E7 in E. unfold bindM at 1. rewrite E. cbn [res_bind fst snd ret].
  eexists _, pool. split; [reflexivity|]. split; [|split; [done|split; [done|split; [done|split; [|done]]]]].
  - split; try done; cbn.
    + eexists. split; [exact Hbuf|exact Hsl].
    + eexists. split; [reflexivity|]. rewrite zlen_splice; [done|]. split; [done|]. split; [apply zlen_nonneg|].
      rewrite zlen_app, embs_len by lia. rewrite (zlen_embs esz f ops) by (lia || intros x Hx; apply Hin; set_solver). nia.
  - cbn. done.
Qed.

Lemma step_emb e y c g num : est e y c g num -> ex_phase e = PHASE_EMB_READ ->
  exists e1, export_step_single e b y = Ret (GRAVELDB_AGAIN, e1, y) /\ est e1 y c g num /\ ex_phase e1 = PHASE_OUTPUT /\ scan_done e1 = scan_done e /\
    read_ops e1 = read_ops e /\ read_buf_pool e1 = read_buf_pool e.
Proof.
  intros He Hph. rewrite (step_past_header e y c g num) by (rewrite ?Hph; auto). pose proof He as [E1 E1b E2 E3 E4 E5 E6 E7 E8 E9 E10 E11 E12 E13 E14 E15 E16 E17 E18].
  unfold step_phase. rewrite Hph. unfold uring_io_poll. rewrite E7. cbn [negb]. change (0 <? 0) with false. cbv iota. eexists. split; [reflexivity|].
  split; [split; try done|done].
Qed.

(** The entries are written in order. *)
Lemma output_spec (ops : list CkptExportReadOp) i e y g pool A R :
  answers y = [] -> files y !! dump_fd e = Some g -> ops_in esz f ops -> 0 <= i -> zlen A = i * esz ->
  pool = (A ++ concat ((fun o => embs esz f (op_entry_idx o) 1) <$> ops) ++ R)%list -> 0 <= num_entries e -> num_entries e + zlen ops < 2 ^ 64 ->
  exists size, output_ops e esz pool (place_ops esz i ops) y =
    Ret (true, set_written e size (num_entries e + zlen ops), set_files y (<[dump_fd e := (g ++ concat (op_image esz f <$> ops))%list]> (files y))).
Proof.
  intros Hq. revert i e y g A Hq. induction ops as [|o ops IH]; intros i e y g A Hq Hg Hin Hi HA Hp Hn0 Hn64.
  { exists (dump_size e). change (zlen []) with 0. rewrite Z.add_0_r. simpl. rewrite app_nil_r, insert_id by done. destruct e, y. done. }
  destruct (Hin o ltac:(set_solver)) as [Ho1 Ho2]. assert (zlen (o :: ops) = 1 + zlen ops) as Hlen by (unfold zlen; simpl; lia). pose proof (zlen_nonneg ops).
  cbn [place_ops output_ops op_feat_id op_buf]. rewrite put_u64_ok by (vm_compute; intuition congruence). unfold bindM at 1. cbn [lift res_bind fst snd].
  change (splice (replicate 8 0) 0 (le_split 8 (op_feat_id o))) with (le_split 8 (op_feat_id o)).
  unfold bindM at 1. rewrite (write_end_quiet y (dump_fd e) g) by done. cbn [res_bind fst snd]. change (zlen (le_split 8 (op_feat_id o))) with 8. rewrite Z.eqb_refl. cbn [negb].
  set (m := embs esz f (op_entry_idx o) 1). assert (zlen m = esz) as Hm by (unfold m; rewrite embs_len; lia).
  assert (copy_from pool (i * esz) esz = Ret m) as Hcp.
  { rewrite fmap_cons in Hp. cbn [concat] in Hp. fold m in Hp. rewrite copy_from_window by (split; [nia|]; split; [lia|]; rewrite Hp, !zlen_app, HA, Hm; pose proof (zlen_nonneg R); pose proof (zlen_nonneg (concat ((fun o => embs esz f (op_entry_idx o) 1) <$> ops))); lia).
    f_equal. unfold window. rewrite Hp, <- HA. unfold zlen at 1. rewrite Nat2Z.id, drop_app_length, <- app_assoc. rewrite <- Hm. unfold zlen. rewrite Nat2Z.id. apply take_app_length. }
  rewrite Hcp. unfold bindM at 1. cbn [lift res_bind fst snd]. set (y1 := set_files y _). unfold bindM at 1.
  rewrite (write_end_quiet y1 (dump_fd e) (g ++ le_split 8 (op_feat_id o))) by (done || apply lookup_insert_eq). cbn [res_bind fst snd]. rewrite Hm, Z.eqb_refl. cbn [negb].
  unfold y1. rewrite set_files_twice. cbn [set_files files]. rewrite insert_insert_eq. set (y2 := set_files y _). rewrite (u64_id (num_entries e + 1)) by lia.
  set (e1 := set_written _ _ _). destruct (IH (i + 1) e1 y2 ((g ++ le_split 8 (op_feat_id o)) ++ m)%list (A ++ m)%list) as (size & E); try done.
  - apply lookup_insert_eq.
  - intros x Hx. apply Hin. set_solver.
  - lia.
  - rewrite zlen_app, HA, Hm. lia.
  - rewrite Hp, fmap_cons. cbn [concat]. fold m. by rewrite <- !app_assoc.
  - cbn. lia.
  - cbn. lia.
  - rewrite E. exists size. unfold y2. rewrite set_files_twice. cbn [set_files files]. cbn [dump_fd num_entries set_written e1]. rewrite insert_insert_eq. f_equal. f_equal; [f_equal|].
    + unfold e1. cbn. by replace (num_entries e + 1 + zlen ops) with (num_entries e + zlen (o :: ops)) by lia.
    + rewrite fmap_cons. cbn [concat]. unfold op_image at 2. fold m. by rewrite <- !app_assoc.
Qed.

Lemma step_output_spec e y c g num o ops pool : est e y c g num -> ex_phase e = PHASE_OUTPUT -> read_ops e = place_ops esz 0 (o :: ops) ->
  read_buf_pool e = Some (splice pool 0 (concat ((fun o => embs esz f (op_entry_idx o) 1) <$> o :: ops))) -> ops_in esz f (o :: ops) ->
  0 <= num -> num + zlen (o :: ops) < 2 ^ 64 ->
  exists e1 y1, export_step_single e b y = Ret (step_status e, e1, y1) /\ est e1 y1 c (g ++ concat (op_image esz f <$> o :: ops))%list (num + zlen (o :: ops)) /\
    ex_phase e1 = PHASE_IDLE /\ scan_done e1 = scan_done e /\ names y1 = names y /\ (forall k, k <> dfd -> files y1 !! k = files y !! k).
Proof.
  intros He Hph Hops Hpool Hin H0 H64. rewrite (step_past_header e y c g num) by (rewrite ?Hph; auto). pose proof He as [E1 E1b E2 E3 E4 E5 E6 E7 E8 (pl & E9 & E9l) E10 E11 E12 E13 E14 E15 E16 E17 E18].
  unfold step_phase. rewrite Hph. unfold step_output. rewrite Hpool. unfold bindM at 1. cbn [deref lift res_bind fst snd]. rewrite Hops.
  set (D := concat _) in *. destruct (output_spec (o :: ops) 0 e y g (splice pool 0 D) [] (drop (List.length D) pool)) as (size & E); try done; [by rewrite E14|by rewrite E13|by rewrite E13|].
  unfold bindM at 1. rewrite E. cbn [res_bind fst snd negb ret]. eexists _, _. split; [reflexivity|]. rewrite E13, E14. split; [|split; [done|split; [done|split; [done|]]]].
  - split; try done; cbn; try (by rewrite lookup_insert_ne by done); try (by rewrite lookup_insert_eq). exists pl. split; [|done]. by rewrite E9.
  - intros k Hk. simpl. by rewrite lookup_insert_ne.
Qed.

Lemma api_step e y c g num rc e1 y1 : est e y c g num -> export_step_single e b y = Ret (rc, e1, y1) ->
  graveldb_ckpt_export_step (mkExport e None) (mkDbSt d y) = Ret (rc, mkExport e1 None, mkDbSt d y1).
Proof. intros He E. rewrite (api_step_eq b) by (by rewrite (es_bin _ _ _ _ _ He)). by rewrite E. Qed.

Lemma run_again fuel e y c g num e1 y1 : est e y c g num -> export_step_single e b y = Ret (GRAVELDB_AGAIN, e1, y1) ->
  run_steps (S fuel) (mkExport e None) (mkDbSt d y) = run_steps fuel (mkExport e1 None) (mkDbSt d y1).
Proof. intros He E. cbn [run_steps]. unfold bindM at 1. rewrite (api_step e y c g num _ _ _ He E). cbn [res_bind fst snd]. by rewrite bool_decide_eq_true_2. Qed.

Lemma run_status fuel e y c g num e1 y1 : est e y c g num -> export_step_single e b y = Ret (step_status e, e1, y1) ->
  run_steps (S fuel) (mkExport e None) (mkDbSt d y) = if scan_done e then Ret (GRAVELDB_OK, mkExport e1 None, mkDbSt d y1) else run_steps fuel (mkExport e1 None) (mkDbSt d y1).
Proof.
  intros He E. cbn [run_steps]. unfold bindM at 1. rewrite (api_step e y c g num _ _ _ He E). cbn [res_bind fst snd]. unfold step_status.
  destruct (scan_done e); [by rewrite bool_decide_eq_false_2|by rewrite bool_decide_eq_true_2].
Qed.

(** Only the dump changes. *)
Definition dump_only (y y' : Sys) : Prop := names y' = names y /\ forall k, k <> dfd -> files y' !! k = files y !! k.

(** One batch takes two or four steps. *)
Lemma run_batch e y c g num : est e y c g num -> ex_phase e = PHASE_IDLE -> scan_done e = false -> 0 <= c <= n -> 0 <= num -> num + (batch_end c - c) < 2 ^ 64 ->
  exists k e1 y1, (2 <= k <= 4)%nat /\
    est e1 y1 (batch_end c) (g ++ concat (op_image esz f <$> valid_ops kb c (batch_end c - c)))%list (num + zlen (valid_ops kb c (batch_end c - c))) /\
    ex_phase e1 = PHASE_IDLE /\ scan_done e1 = (n <=? batch_end c) /\ dump_only y y1 /\
    forall fuel, run_steps (k + fuel) (mkExport e None) (mkDbSt d y) = if scan_done e1 then Ret (GRAVELDB_OK, mkExport e1 None, mkDbSt d y1) else run_steps fuel (mkExport e1 None) (mkDbSt d y1).
Proof.
  intros He Hph Hsd Hc Hn0 Hn64. destruct (step_idle e y c g num He Hph Hsd Hc) as (e1 & buf & S1 & He1 & Hph1 & Hsd1 & Hst1 & Hct1 & Hbuf1 & Hl1).
  assert (0 <= batch_end c - c) as Hm by (unfold batch_end; lia).
  assert (zlen (valid_ops kb c (batch_end c - c)) <= batch_end c - c) as Hvl.
  { unfold valid_ops. pose proof (scan_keys_len c (keys_of (Z.to_nat (batch_end c - c)) (key_window kb c (batch_end c - c)))) as H. unfold zlen in H at 2. rewrite keys_of_len in H. lia. }
  destruct (valid_ops kb c (batch_end c - c)) as [|o ops] eqn:Hops.
  - destruct (step_keys_none e1 y (batch_end c) c g num buf He1 Hph1 Hc Hst1 Hct1 Hbuf1 Hl1 Hops) as (e2 & S2 & He2 & Hph2 & Hsd2).
    exists 2%nat, e2, y. split; [lia|]. split; [by rewrite app_nil_r, Z.add_0_r|]. split; [done|]. split; [congruence|]. split; [done|]. intros fuel. cbn [Nat.add].
    rewrite (run_again _ _ _ _ _ _ _ _ He S1), (run_status _ _ _ _ _ _ _ _ He1 S2). by rewrite Hsd2.
  - destruct (step_keys_some e1 y (batch_end c) c g num buf o ops He1 Hph1 Hc Hst1 Hct1 Hbuf1 Hl1 Hops) as (e2 & pool & S2 & He2 & Hph2 & Hsd2 & Hro2 & Hpo2 & Hl2).
    destruct (step_emb e2 y (batch_end c) g num He2 Hph2) as (e3 & S3 & He3 & Hph3 & Hsd3 & Hro3 & Hpo3).
    destruct (step_output_spec e3 y (batch_end c) g num o ops pool He3 Hph3) as (e4 & y4 & S4 & He4 & Hph4 & Hsd4 & Hnm & Hfl); try congruence; try lia.
    { intros x Hx. rewrite <- Hops in Hx. eapply (valid_in c (batch_end c - c)); [lia|lia|unfold batch_end; lia|exact Hx]. }
    exists 4%nat, e4, y4. split; [lia|]. split; [done|]. split; [done|]. split; [congruence|]. split; [done|]. intros fuel. cbn [Nat.add].
    rewrite (run_again _ _ _ _ _ _ _ _ He S1), (run_again _ _ _ _ _ _ _ _ He1 S2), (run_again _ _ _ _ _ _ _ _ He2 S3), (run_status _ _ _ _ _ _ _ _ He3 S4). by rewrite Hsd4.
Qed.

(** The whole scan, with four steps for each of the [m] batches. *)
Lemma run_scan (m : nat) e y c g num : est e y c g num -> ex_phase e = PHASE_IDLE -> scan_done e = false -> 0 <= c <= n -> n - c < Z.of_nat m * B -> 0 <= num -> num + (n - c) < 2 ^ 64 ->
  exists e1 y1, est e1 y1 n (g ++ concat (op_image esz f <$> valid_ops kb c (n - c)))%list (num + zlen (valid_ops kb c (n - c))) /\ ex_phase e1 = PHASE_IDLE /\ scan_done e1 = true /\
    dump_only y y1 /\ forall fuel, (4 * m <= fuel)%nat -> run_steps fuel (mkExport e None) (mkDbSt d y) = Ret (GRAVELDB_OK, mkExport e1 None, mkDbSt d y1).
Proof.
  revert e y c g num. induction m as [|m IH]; intros e y c g num He Hph Hsd Hc Hmc Hn0 Hn64; [lia|].
  assert (batch_end c <= n /\ c <= batch_end c) as [Hb1 Hb2] by (unfold batch_end; lia).
  destruct (run_batch e y c g num He Hph Hsd Hc Hn0 ltac:(lia)) as (k & e1 & y1 & Hk & He1 & Hph1 & Hsd1 & [Hnm1 Hfl1] & Hrun).
  assert (zlen (valid_ops kb c (batch_end c - c)) <= batch_end c - c) as Hvl.
  { unfold valid_ops. pose proof (scan_keys_len c (keys_of (Z.to_nat (batch_end c - c)) (key_window kb c (batch_end c - c)))) as H. unfold zlen in H at 2. rewrite keys_of_len in H. lia. }
  pose proof (zlen_nonneg (valid_ops kb c (batch_end c - c))) as Hv0. destruct (Z.leb_spec n (batch_end c)) as [Hd|Hd].
  - assert (batch_end c = n) as Eb by lia. rewrite Eb in *. exists e1, y1. split; [done|]. split; [done|]. split; [done|]. split; [done|]. intros fuel Hf.
    replace fuel with (k + (fuel - k))%nat by lia. by rewrite Hrun, Hsd1.
  - destruct (IH e1 y1 (batch_end c) _ _ He1 Hph1 Hsd1) as (e2 & y2 & He2 & Hph2 & Hsd2 & [Hnm2 Hfl2] & Hrun2); try lia; [unfold batch_end in *; nia|].
    assert (valid_ops kb c (n - c) = (valid_ops kb c (batch_end c - c) ++ valid_ops kb (batch_end c) (n - batch_end c))%list) as Ev.
    { replace (n - c) with ((batch_end c - c) + (n - batch_end c)) by lia. rewrite valid_ops_app by lia. do 3 f_equal. lia. }
    exists e2, y2. split; [rewrite Ev, fmap_app, concat_app, zlen_app, app_assoc, Z.add_assoc; done|]. split; [done|]. split; [done|].
    split; [split; [congruence|intros k' Hk'; by rewrite Hfl2, Hfl1]|]. intros fuel Hf. replace fuel with (k + (fuel - k))%nat by lia. rewrite Hrun, Hsd1. apply Hrun2. lia.
Qed.

(** The header of a dump. *)
Definition dump_header : CkptExportHdr := mkCkptExportHdr GRAVELDB_CKPT_EXPORT_MAGIC 1 1 gen (u32 (DimBin.dim b)) (u32 esz) 0 base 0.

End full.

(** The forty-eight bytes of an export header. *)
Definition export_hdr_image (h : CkptExportHdr) : list Z :=
  (le_split 4 (ch_magic h) ++ le_split 4 (ch_version h) ++ le_split 4 (ch_type h) ++ le_split 8 (ch_generation h) ++ le_split 4 (ch_dim h) ++
   le_split 4 (ch_entry_size h) ++ le_split 8 (ch_num_entries h) ++ le_split 8 (ch_base_gen h) ++ le_split 4 (ch_checksum h))%list.

Lemma encode_export_hdr h : wire_encode_ckpt_export_hdr (replicate (Z.to_nat WIRE_CKPT_EXPORT_HDR_SIZE) 0) h = Ret (export_hdr_image h).
Proof.
  unfold wire_encode_ckpt_export_hdr. do 8 (first [rewrite put_u32_ok by (vm_compute; intuition congruence)|rewrite put_u64_ok by (vm_compute; intuition congruence)]; cbn [res_bind]).
  rewrite put_u32_ok by (vm_compute; intuition congruence). done.
Qed.

Lemma decode_export_hdr h : ckpt_export_hdr_ok h -> wire_decode_ckpt_export_hdr (export_hdr_image h) = Ret h.
Proof.
  intros Hh. destruct (ckpt_export_hdr_decode_encode host host (replicate 48 0) h eq_refl (zero_bytes 48) Hh) as (buf & E & _ & D).
  pose proof (encode_export_hdr h) as E'. change (Z.to_nat WIRE_CKPT_EXPORT_HDR_SIZE) with 48%nat in E'. rewrite E' in E. by injection E as <-.
Qed.

(** The trailer: the magic number and the number of entries. *)
Definition trailer_image (n : Z) : list Z := (le_split 4 GRAVELDB_CKPT_EXPORT_MAGIC ++ le_split 8 n)%list.

(** A whole dump. *)
Definition dump_image (h : CkptExportHdr) (esz : Z) (f : list Z) (ops : list CkptExportReadOp) : list Z :=
  (export_hdr_image h ++ concat (op_image esz f <$> ops) ++ trailer_image (zlen ops))%list.

(** The first step writes the header. *)
Lemma first_step b e y d fuel g :
  header_written e = false -> ex_phase e = PHASE_IDLE -> scan_done e = false -> ex_type e = GRAVELDB_CKPT_FULL -> bin_heap d !! ex_bin e = Some b ->
  answers y = [] -> files y !! dump_fd e = Some g ->
  run_steps (S fuel) (mkExport e None) (mkDbSt d y) =
  run_steps (S fuel) (mkExport (set_header e (u64 (dump_size e + WIRE_CKPT_EXPORT_HDR_SIZE))) None)
    (mkDbSt d (set_files y (<[dump_fd e := (g ++ export_hdr_image (dump_header b (ex_generation e) (base_gen e)))%list]> (files y)))).
Proof.
  intros Hh Hph Hsd Hty Hbin Hq Hg. cbn [run_steps]. set (e1 := set_header _ _). set (y1 := set_files _ _).
  assert (export_step_single e b y = export_step_single e1 b y1) as E.
  { unfold export_step_single. unfold e1. cbn [scan_done ex_phase header_written set_header]. rewrite Hsd, Hh. unfold export_write_header. rewrite Hty. rewrite encode_export_hdr.
    unfold bindM at 1. unfold bindM at 1. cbn [lift res_bind fst snd]. unfold bindM at 1. rewrite (write_end_quiet y (dump_fd e) g) by done. cbn [res_bind fst snd].
    change (u32 (GRAVELDB_CKPT_FULL + 1)) with 1. change (zlen (export_hdr_image _)) with WIRE_CKPT_EXPORT_HDR_SIZE. rewrite Z.eqb_refl. cbn [negb ret res_bind fst snd].
    rewrite bool_decide_eq_true_2 by done. cbn [negb]. done. }
  assert (graveldb_ckpt_export_step (mkExport e None) (mkDbSt d y) = graveldb_ckpt_export_step (mkExport e1 None) (mkDbSt d y1)) as Es.
  { rewrite (api_step_eq b e d y) by done. rewrite (api_step_eq b e1 d y1) by done. by rewrite E. }
  unfold bindM. by rewrite Es.
Qed.

End props.
