(* ===== verification/ExportRun.v ===== *)
(** ExportRun: an export from its beginning to its end, and the parser.

    Driven by steps until it is complete, a full export of a bin leaves the dump of
    its valid entries; [graveldb_ckpt_parse] hands exactly these entries to its
    callback, unless a feature id looks like the trailer. *)

From Stdlib Require Import String.
From stdpp Require Import strings.
From S2P Require Import Prelude LinearProbe Wire SlabAlloc Overlay DirtyTracker KeyBTree HashIndex DimRegistry IoBatch PageMap DimBin Names CkptMeta Engine EngineProps DeltaFile DeltaProps Export ExportProps.

#[local] Open Scope string_scope.
#[local] Open Scope Z_scope.

(** ** The export *)

Definition batch_size (batch : Z) : Z := if batch =? 0 then CKPT_EXPORT_IO_BATCH else batch.

Section run.
Context {P : Type} `{!ObjectPool P} {host : WireHost} {host_ok : WireHostOk host}.
Implicit Types b : DimBin P.
Context (fresh : Z -> list Z) (fresh_len : forall k, 0 <= k -> zlen (fresh k) = k).

Definition full_dump_path (dir : string) b : string := export_path dir (generation (dirty b)) (DimBin.dim b) "full".

(** The entries in use of a bin. *)
Definition bin_ops b (kf : list Z) : list CkptExportReadOp := valid_ops (key_image (key_file_size b) kf) 0 (bump_ptr b).

(** A database whose bin of dimension [dim] can be exported: its files are there, with
    an embedding for every entry in use. *)
Record export_ready (d : GravelDB P) (y : Sys) (dim batch : Z) (dir : string) (addr : Z) b (kf f : list Z) : Prop := {
  er_find : exists i reg, dim_registry_find (dim_reg d) dim = Ret (i, reg) /\ 0 <= i /\ dim_registry_get_bin reg (u16 i) = Ret addr;
  er_bin : bin_heap d !! addr = Some b;
  er_dir : data_dir (config d) = Some dir;
  er_names : names_ok y;
  er_quiet : answers y = [];
  er_key : files y !! key_fd b = Some kf;
  er_data : files y !! fd b = Some f;
  er_path_key : names y !! full_dump_path dir b <> Some (key_fd b);
  er_path_data : names y !! full_dump_path dir b <> Some (fd b);
  er_batch : 0 <= batch < 2 ^ 31;
  er_bump : 0 <= bump_ptr b /\ bump_ptr b + batch_size batch < 2 ^ 32;
  er_esz : 0 < entry_size b;
  er_ksz : 0 <= key_file_size b <= zlen kf;
  er_emb : forall o, o ∈ bin_ops b kf -> (op_entry_idx o + 1) * entry_size b <= zlen f
}.

(** The context [graveldb_ckpt_export_begin] creates. *)
Definition new_export (addr : Z) b (base batch fd : Z) (dir : string) : ExportOne :=
  mkExportOne addr 0 (bump_ptr b) (generation (dirty b)) base 0 GRAVELDB_CKPT_FULL (batch_size batch) false false fd (full_dump_path dir b) 0 0
    [] 0 PHASE_IDLE (Some (fresh (batch_size batch * 8))) 0 0 [] [] (snd uring_io_init) (Some (fresh (batch_size batch * entry_size b))).

Lemma begin_full d y dim base batch dir addr b kf f : export_ready d y dim batch dir addr b kf f ->
  exists fd y1 d1, graveldb_ckpt_export_begin fresh GRAVELDB_CKPT_FULL dim base batch 0 (mkDbSt d y) =
    Ret (GRAVELDB_OK, Some (mkExport (new_export addr b base batch fd dir) None), mkDbSt d1 y1) /\ bin_heap d1 = bin_heap d /\
    names_ok y1 /\ answers y1 = [] /\ names y1 = <[full_dump_path dir b := fd]> (names y) /\ (forall k, k <> fd -> files y1 !! k = files y !! k) /\
    files y1 !! fd = Some [] /\ fd <> key_fd b /\ fd <> DimBin.fd b.
Proof.
  intros [(i & reg & Ef & Hi & Eg) Hb Hdir Hok Hq Hk Hf Hpk Hpf Hbt Hbp Hes Hks Hem].
  destruct (open_path_spec true true (full_dump_path dir b) y Hok) as (fd & y1 & Eo & Hok1 & Hq1 & [(-> & _ & _ & H)|(H3 & En & Efl & Hold & Hnew)]); [by destruct (H Hq)|].
  exists fd, y1, (set_reg d reg). specialize (Hq1 Hq).
  split; [|split; [done|]; split; [done|]; split; [done|]; split; [done|]; split; [done|]; split; [done|]; split; intros ->; destruct Hold as [?|(_ & _ & ?)]; congruence].
  unfold graveldb_ckpt_export_begin, begin_one. change (GRAVELDB_CKPT_FULL =? GRAVELDB_CKPT_FULL) with true. cbn [negb andb].
  unfold get_db, gets. unfold bindM at 1. unfold bindM at 1. cbn [res_bind fst snd gdb]. unfold bindM at 1. rewrite Ef. cbn [lift res_bind fst snd].
  unfold bindM at 1, upd_db, modify. cbn [res_bind fst snd gdb gsys]. rewrite (proj2 (Z.ltb_ge i 0)) by lia.
  unfold bin_addr, get_db, gets. unfold bindM at 1. unfold bindM at 1. cbn [res_bind fst snd gdb]. change (dim_reg (set_reg d reg)) with reg. rewrite Eg. cbn [lift res_bind fst snd].
  unfold get_bin_at, get_db, gets. unfold bindM at 1. unfold bindM at 1. cbn [res_bind fst snd gdb]. change (bin_heap (set_reg d reg)) with (bin_heap d). rewrite Hb. cbn [deref lift res_bind fst snd].
  unfold bindM at 1. unfold on_sys at 1. cbn [gsys gdb]. rewrite sys_ok_quiet by done. cbn [res_bind fst snd negb].
  unfold bindM at 1. rewrite Hdir. cbn [deref lift res_bind fst snd]. unfold bindM at 1. unfold on_sys at 1. cbn [gsys gdb]. fold (full_dump_path dir b). rewrite Eo. cbn [res_bind fst snd].
  rewrite (proj2 (Z.ltb_ge fd 0)) by lia. do 4 (unfold bindM at 1; unfold on_sys at 1; cbn [gsys gdb]; rewrite sys_ok_quiet by done; cbn [res_bind fst snd negb]).
  change (GRAVELDB_CKPT_FULL =? GRAVELDB_CKPT_DELTA) with false. cbv iota. unfold bindM at 1. cbn [ret res_bind fst snd negb]. unfold bindM at 1. cbn [ret res_bind fst snd].
  rewrite u32_id by (unfold batch_size, CKPT_EXPORT_IO_BATCH in Hbp; destruct (batch =? 0); lia). done.
Qed.

(** The trailer. *)
Lemma end_spec e y g : answers y = [] -> files y !! dump_fd e = Some g ->
  exists e1 y1, graveldb_ckpt_export_end (mkExport e None) y = Ret (GRAVELDB_OK, mkExport e1 None, y1) /\ dump_path e1 = dump_path e /\ num_entries e1 = num_entries e /\
    files y1 = <[dump_fd e := (g ++ trailer_image (num_entries e))%list]> (files y) /\ names y1 = names y /\ answers y1 = [].
Proof.
  intros Hq Hg. unfold graveldb_ckpt_export_end, end_one. cbn [ex_main paired_full]. rewrite put_u32_ok by (vm_compute; intuition congruence).
  unfold bindM at 1. unfold bindM at 1. cbn [lift res_bind fst snd]. rewrite put_u64_ok by (vm_compute; intuition congruence). unfold bindM at 1. cbn [lift res_bind fst snd].
  change (splice (splice (replicate 12 0) 0 (le_split 4 GRAVELDB_CKPT_EXPORT_MAGIC)) 4 (le_split 8 (num_entries e))) with (trailer_image (num_entries e)).
  unfold bindM at 1. rewrite (write_end_quiet y (dump_fd e) g) by done. cbn [res_bind fst snd]. change (zlen (trailer_image (num_entries e))) with 12. change (12 =? 12) with true.
  unfold bindM at 1. rewrite fdatasync_quiet by done. cbn [ret res_bind fst snd]. eexists _, _. split; [reflexivity|]. done.
Qed.

(** The dump of a bin. *)
Definition bin_dump b (kf f : list Z) (base : Z) : list Z := dump_image (dump_header b (generation (dirty b)) base) (entry_size b) f (bin_ops b kf).

Lemma export_spec d y dim base batch dir addr b kf f : export_ready d y dim batch dir addr b kf f ->
  exists x1 d1 y1 x2 y2 x3 y3, graveldb_ckpt_export_begin fresh GRAVELDB_CKPT_FULL dim base batch 0 (mkDbSt d y) = Ret (GRAVELDB_OK, Some x1, mkDbSt d1 y1) /\
    (forall fuel, 4 * (bump_ptr b / batch_size batch + 1) <= Z.of_nat fuel -> run_steps fuel x1 (mkDbSt d1 y1) = Ret (GRAVELDB_OK, x2, mkDbSt d1 y2)) /\
    graveldb_ckpt_export_end x2 y2 = Ret (GRAVELDB_OK, x3, y3) /\ graveldb_ckpt_export_path x3 = full_dump_path dir b /\
    num_entries (ex_main x3) = zlen (bin_ops b kf) /\ content y3 (full_dump_path dir b) = Some (bin_dump b kf f base) /\ answers y3 = [] /\ names_ok y3.
Proof.
  intros Hr. destruct (begin_full d y dim base batch dir addr b kf f Hr) as (fd & y1 & d1 & E1 & Hbins & Hok1 & Hq1 & En1 & Ef1 & Hnew & Hfk & Hff).
  destruct Hr as [_ Hb Hdir Hok Hq Hk Hf _ _ Hbt Hbp Hes Hks Hem]. set (B := batch_size batch) in *.
  assert (0 < B < 2 ^ 31) as HB by (unfold B, batch_size, CKPT_EXPORT_IO_BATCH; zb; lia).
  set (e := new_export addr b base batch fd dir) in *. set (e0 := set_header e (u64 (dump_size e + WIRE_CKPT_EXPORT_HDR_SIZE))).
  set (hdr := export_hdr_image (dump_header b (generation (dirty b)) base)). set (y0 := set_files y1 (<[fd := hdr]> (files y1))).
  assert (est b kf f B (bump_ptr b) fd (full_dump_path dir b) (generation (dirty b)) base addr e0 y0 0 hdr 0) as Hest.
  { split; try done; simpl.
    - by rewrite En1, lookup_insert_eq.
    - by rewrite lookup_insert_ne, Ef1.
    - by rewrite lookup_insert_ne, Ef1.
    - by rewrite lookup_insert_eq.
    - eexists. split; [reflexivity|]. apply fresh_len. fold B. lia.
    - eexists. split; [reflexivity|]. apply fresh_len. fold B. nia. }
  assert (0 <= bump_ptr b / B) as Hq0 by (apply Z.div_pos; lia).
  destruct (run_scan b kf f B (bump_ptr b) fd (full_dump_path dir b) (generation (dirty b)) base addr HB ltac:(lia) ltac:(lia) Hes Hks Hfk Hff d1
    ltac:(by rewrite Hbins) Hem (Z.to_nat (bump_ptr b / B + 1)) e0 y0 0 hdr 0 Hest) as (e2 & y2 & He2 & _ & _ & [Hnm2 Hfl2] & Hrun); try done; try lia.
  { rewrite Z2Nat.id by lia. pose proof (Z.mul_succ_div_gt (bump_ptr b) B ltac:(lia)). lia. }
  rewrite Z.sub_0_r, Z.add_0_l in He2. fold (bin_ops b kf) in He2. pose proof He2 as [Q _ _ _ G _ _ _ _ _ _ _ _ N FD PA _ _ _].
  destruct (end_spec e2 y2 (hdr ++ concat (op_image (entry_size b) f <$> bin_ops b kf))%list Q) as (e3 & y3 & E3 & P3 & N3 & F3 & Nm3 & Q3); [by rewrite FD|].
  exists (mkExport e None), d1, y1, (mkExport e2 None), y2, (mkExport e3 None), y3. split; [exact E1|]. split; [|split; [exact E3|]].
  - intros fuel Hfu. destruct fuel as [|fuel]; [lia|]. rewrite (first_step b e y1 d1 fuel []) by (done || by rewrite Hbins). apply (Hrun (S fuel)). lia.
  - split; [unfold graveldb_ckpt_export_path; cbn [ex_main]; congruence|]. split; [cbn [ex_main]; congruence|]. split; [|split; [done|]].
    + unfold content. rewrite Nm3, Hnm2. simpl. rewrite En1, lookup_insert_eq. cbn. rewrite F3, FD, lookup_insert_eq. unfold bin_dump, dump_image. fold hdr. rewrite N. by rewrite <- app_assoc.
    + destruct Hok1 as [N1 N2]. split; rewrite Nm3, Hnm2; [|exact N2]. intros p k Hp. destruct (N1 p k Hp) as [? ?]. split; [done|]. rewrite F3, FD.
      destruct (decide (k = fd)) as [->|Hne]; [rewrite lookup_insert_eq; by eexists|]. rewrite lookup_insert_ne by done. rewrite Hfl2 by done. simpl. by rewrite lookup_insert_ne.
Qed.

End run.

(** ** The parser *)

Lemma le_combine_low n v : 0 <= v -> le_combine (le_split n v) = v mod 256 ^ Z.of_nat n.
Proof.
  revert v. induction n as [|n IH]; intros v Hv; [by rewrite Z.mod_1_r|]. cbn [le_split le_combine]. rewrite Z.shiftr_div_pow2 by lia. change (2 ^ 8) with 256.
  pose proof (Z.pow_pos_nonneg 256 (Z.of_nat n) ltac:(lia) ltac:(lia)). rewrite IH by (apply Z.div_pos; lia).
  rewrite lor_byte by (apply u8_range || apply Z.mod_pos_bound; lia). rewrite Nat2Z.inj_succ, Z.pow_succ_r by lia.
  rewrite Z.rem_mul_r by lia. unfold u8. change (2 ^ 8) with 256. lia.
Qed.

Section parse.
Context {host : WireHost} {host_ok : WireHostOk host} {C : Type} (emit : C -> GravelDBCkptEntry -> Z * C).

(** An entry as the callback sees it. *)
Definition entry_view (dim esz : Z) (f : list Z) (o : CkptExportReadOp) : GravelDBCkptEntry := mkCkptEntry (op_feat_id o) (embs esz f (op_entry_idx o) 1) dim.

(** The state of the callback after the entries. *)
Definition emit_all (dim esz : Z) (f : list Z) (ctx : C) (ops : list CkptExportReadOp) : C := foldl (fun c o => snd (emit c (entry_view dim esz f o))) ctx ops.

(** An entry whose feature id is not taken for the trailer. *)
Definition parsable (esz : Z) (f : list Z) (o : CkptExportReadOp) : Prop :=
  0 <= op_feat_id o < 2 ^ 64 /\ u32 (op_feat_id o) <> GRAVELDB_CKPT_EXPORT_MAGIC /\ zlen (embs esz f (op_entry_idx o) 1) = esz.

(** The low half of a little-endian number. *)
Lemma magic_of_feat v : 0 <= v < 2 ^ 64 -> wire_get_u32 (le_split 8 v) 0 = Ret (u32 v) /\ wire_get_u64 (le_split 8 v) 0 = Ret v.
Proof.
  intros Hv. rewrite get_u32_ok by (apply le_split_bytes || (vm_compute; intuition congruence)). rewrite get_u64_ok by (apply le_split_bytes || (vm_compute; intuition congruence)).
  change (window (le_split 8 v) 0 4) with (le_split 4 v). change (window (le_split 8 v) 0 8) with (le_split 8 v). rewrite le_combine_low by lia. by rewrite le_combine_split.
Qed.

(** The loop, up to eight bytes [t] that start with the magic number. *)
Lemma parse_entries_spec (ops : list CkptExportReadOp) fuel fd pos dim esz f ctx y pre (t suf : list Z) :
  answers y = [] -> files y !! fd = Some (pre ++ concat (op_image esz f <$> ops) ++ t ++ suf)%list -> pos = zlen pre -> (List.length ops < fuel)%nat ->
  (forall o, o ∈ ops -> parsable esz f o) -> (forall c x, fst (emit c x) = 0) ->
  zlen t = 8 -> wire_get_u32 t 0 = Ret GRAVELDB_CKPT_EXPORT_MAGIC ->
  parse_entries emit fuel fd pos dim esz ctx y = Ret (inl GRAVELDB_OK, emit_all dim esz f ctx ops, y).
Proof.
  intros Hq Hf Hpos Hfu Hops Hemit Ht Hmagic. revert fuel pos pre ctx Hf Hpos Hfu. induction ops as [|o ops IH]; intros fuel pos pre ctx Hf Hpos Hfu;
    (destruct fuel as [|fuel]; [simpl in Hfu; lia|]); cbn [parse_entries]; unfold bindM at 1.
  - rewrite (read_next y fd pre t suf pos 8) by done. cbn [res_bind fst snd]. change (8 <? 8) with false. cbv iota.
    rewrite Hmagic. unfold bindM at 1. cbn [lift res_bind fst snd]. by rewrite Z.eqb_refl.
  - destruct (Hops o ltac:(set_solver)) as (Hfe & Hnm & Hel). destruct (magic_of_feat (op_feat_id o) Hfe) as [G1 G2].
    assert (concat (op_image esz f <$> o :: ops) = (le_split 8 (op_feat_id o) ++ embs esz f (op_entry_idx o) 1 ++ concat (op_image esz f <$> ops))%list) as Ec.
    { rewrite fmap_cons. cbn [concat]. unfold op_image. by rewrite <- app_assoc. }
    rewrite Ec, <- !app_assoc in Hf. set (m := embs esz f (op_entry_idx o) 1) in *.
    rewrite (read_next y fd pre (le_split 8 (op_feat_id o)) (m ++ concat (op_image esz f <$> ops) ++ t ++ suf) pos 8) by done.
    cbn [res_bind fst snd]. change (8 <? 8) with false. cbv iota. rewrite G1. unfold bindM at 1. cbn [lift res_bind fst snd]. rewrite (proj2 (Z.eqb_neq _ _)) by done.
    rewrite G2. unfold bindM at 1. cbn [lift res_bind fst snd]. unfold bindM at 1.
    rewrite (read_next y fd (pre ++ le_split 8 (op_feat_id o)) m (concat (op_image esz f <$> ops) ++ t ++ suf) (pos + 8) esz); [|done|by rewrite <- app_assoc|rewrite zlen_app, Hpos; done|done].
    cbn [res_bind fst snd]. rewrite Z.eqb_refl. cbn [negb]. unfold emit_all. cbn [foldl]. change (mkCkptEntry (op_feat_id o) m dim) with (entry_view dim esz f o).
    pose proof (Hemit ctx (entry_view dim esz f o)) as Hz. destruct (emit ctx (entry_view dim esz f o)) as [r ctx']. simpl in Hz. subst r. cbn [Z.eqb negb snd].
    apply (IH ltac:(intros; apply Hops; set_solver) fuel _ (pre ++ le_split 8 (op_feat_id o) ++ m)%list); [by rewrite <- !app_assoc| |simpl in Hfu; lia].
    rewrite !zlen_app, Hel, Hpos. change (zlen (le_split 8 (op_feat_id o))) with 8. lia.
Qed.

(** The header the parser reports. *)
Definition header_view (h : CkptExportHdr) : GravelDBCkptDumpHeader :=
  mkDumpHeader (ch_generation h) (ch_base_gen h) (ch_num_entries h) (ch_dim h) (ch_entry_size h) (i32 (ch_type h) - 1).

Lemma ops_short (ops : list CkptExportReadOp) esz f : (List.length ops <= List.length (concat (op_image esz f <$> ops)))%nat.
Proof. induction ops as [|o ops IH]; [done|]. rewrite fmap_cons. cbn [concat List.length]. rewrite length_app. unfold op_image at 1. rewrite length_app, le_split_length. lia. Qed.

(** Parsing a file with a valid header. *)
Lemma parse_spec path ctx y h f (ops : list CkptExportReadOp) (t suf : list Z) :
  names_ok y -> answers y = [] -> content y path = Some (export_hdr_image h ++ concat (op_image (ch_entry_size h) f <$> ops) ++ t ++ suf)%list ->
  ckpt_export_hdr_ok h -> ch_magic h = GRAVELDB_CKPT_EXPORT_MAGIC -> ch_version h = 1 -> i32 (ch_type h) <> - 2 ^ 31 ->
  (forall o, o ∈ ops -> parsable (ch_entry_size h) f o) -> (forall c x, fst (emit c x) = 0) -> zlen t = 8 -> wire_get_u32 t 0 = Ret GRAVELDB_CKPT_EXPORT_MAGIC ->
  graveldb_ckpt_parse emit path ctx y = Ret (inl GRAVELDB_OK, Some (header_view h), emit_all (ch_dim h) (ch_entry_size h) f ctx ops, y).
Proof.
  unfold content. intros Hok Hq Hc Hh Hmg Hv Hty Hops Hemit Ht Htm. destruct (names y !! path) as [fd|] eqn:En; [|done]. cbn [mbind option_bind] in Hc.
  unfold graveldb_ckpt_parse. unfold bindM at 1. rewrite (open_quiet y path fd) by done. cbn [res_bind fst snd]. destruct (no_file _ Hok _ _ En) as [H3 _]. rewrite (proj2 (Z.ltb_ge fd 0)) by lia.
  unfold bindM at 1. rewrite (read_next y fd [] (export_hdr_image h) (concat (op_image (ch_entry_size h) f <$> ops) ++ t ++ suf)) by done. cbn [res_bind fst snd].
  rewrite Z.eqb_refl. cbn [negb]. rewrite decode_export_hdr by done. unfold bindM at 1. cbn [lift res_bind fst snd]. rewrite Hmg, Hv, !Z.eqb_refl. cbn [negb orb].
  rewrite (proj2 (Z.eqb_neq _ _)) by done. unfold bindM at 1. cbn [lift res_bind fst snd]. unfold bindM at 1. rewrite sys_ok_quiet by done. cbn [res_bind fst snd negb].
  unfold gets. unfold bindM at 1. cbn [res_bind fst snd]. set (F := (export_hdr_image h ++ _)%list) in Hc. rewrite Hc. change (default [] (Some F)) with F. unfold bindM at 1.
  rewrite (parse_entries_spec ops _ fd WIRE_CKPT_EXPORT_HDR_SIZE _ (ch_entry_size h) f ctx y (export_hdr_image h) t suf); try done.
  unfold F. rewrite !length_app. pose proof (ops_short ops (ch_entry_size h) f). lia.
Qed.

End parse.

(** ** The keys of a file of bytes *)

Lemma key_value_range (l : list Z) : Forall is_byte l -> 0 <= key_value l < 256 ^ zlen l.
Proof.
  induction 1 as [|x l Hx Hl IH]; [done|]. unfold key_value, zlen in *. cbn [foldr List.length]. rewrite Nat2Z.inj_succ, Z.pow_succ_r by lia. unfold is_byte in Hx. lia.
Qed.

Lemma keys_of_range n (l : list Z) k : Forall is_byte l -> k ∈ keys_of n l -> 0 <= k < 2 ^ 64.
Proof.
  revert l. induction n as [|n IH]; intros l Hl Hk; [by apply elem_of_nil in Hk|]. cbn [keys_of] in Hk. apply elem_of_cons in Hk as [->|Hk]; [|by apply (IH (drop 8 l)); [apply Forall_drop|]].
  pose proof (key_value_range (take 8 l) (Forall_take _ _ _ Hl)) as H. assert (256 ^ zlen (take 8 l) <= 256 ^ 8); [|lia].
  apply Z.pow_le_mono_r; [lia|]. unfold zlen. rewrite length_take. lia.
Qed.

Lemma scan_keys_feat s (keys : list Z) o : o ∈ scan_keys s keys -> op_feat_id o ∈ keys.
Proof.
  revert s. induction keys as [|k keys IH]; intros s Ho; [by apply elem_of_nil in Ho|]. simpl in Ho. destruct (k =? 0); [apply IH in Ho; set_solver|].
  apply elem_of_cons in Ho as [->|Ho]; [set_solver|apply IH in Ho; set_solver].
Qed.

Lemma bin_ops_feat {P} (b : DimBin P) kf o : Forall is_byte kf -> o ∈ bin_ops b kf -> 0 <= op_feat_id o < 2 ^ 64.
Proof.
  intros Hk Ho. apply scan_keys_feat in Ho. eapply keys_of_range; [|exact Ho]. unfold key_window. apply Forall_fmap, Forall_forall. intros i _. simpl. unfold file_byte.
  destruct (key_image _ _ !! Z.to_nat i) as [x|] eqn:E; simpl; [|unfold is_byte; lia]. apply list_elem_of_lookup_2 in E. unfold key_image in E. rewrite Forall_forall in Hk.
  apply Hk. eapply subseteq_take. exact E.
Qed.

(** ** Properties *)

(** A full export of a bin. Begun, stepped until it is complete, which takes at most four steps for each
    batch of keys and always ends, and ended, it leaves the dump of the bin at the path it reports: the header,
    then the feature id and the embedding of each entry in use, in the order of the entries, then the trailer
    with their number. This holds for every batch size and whatever the new buffers contained. *)
Theorem ckpt_export_full_correct {P : Type} {pool : ObjectPool P} (host : WireHost) (fresh : Z -> list Z) (d : GravelDB P) y dim base batch dir addr b kf f :
  WireHostOk host -> (forall k, 0 <= k -> zlen (fresh k) = k) -> export_ready d y dim batch dir addr b kf f ->
  exists x1 d1 y1 x2 y2 x3 y3, graveldb_ckpt_export_begin fresh GRAVELDB_CKPT_FULL dim base batch 0 (mkDbSt d y) = Ret (GRAVELDB_OK, Some x1, mkDbSt d1 y1) /\
    (forall fuel, 4 * (bump_ptr b / batch_size batch + 1) <= Z.of_nat fuel -> run_steps fuel x1 (mkDbSt d1 y1) = Ret (GRAVELDB_OK, x2, mkDbSt d1 y2)) /\
    graveldb_ckpt_export_end x2 y2 = Ret (GRAVELDB_OK, x3, y3) /\ graveldb_ckpt_export_path x3 = full_dump_path dir b /\
    num_entries (ex_main x3) = zlen (bin_ops b kf) /\ content y3 (full_dump_path dir b) = Some (bin_dump b kf f base).
Proof.
  intros Hh Hfr Hr. destruct (export_spec fresh Hfr d y dim base batch dir addr b kf f Hr) as (x1 & d1 & y1 & x2 & y2 & x3 & y3 & H1 & H2 & H3 & H4 & H5 & H6 & _).
  exists x1, d1, y1, x2, y2, x3, y3. done.
Qed.

(** The keys and sizes fit the dump format. *)
Record dump_fits {P} (b : DimBin P) (kf : list Z) (base : Z) : Prop := {
  df_keys : Forall is_byte kf;
  df_gen : 0 <= generation (dirty b) < 2 ^ 64;
  df_base : 0 <= base < 2 ^ 64;
  df_esz : entry_size b < 2 ^ 32
}.

(** The entries of a bin can be told from the trailer. *)
Lemma bin_ops_parsable {P : Type} {pool : ObjectPool P} (d : GravelDB P) y dim base batch dir addr b kf f : export_ready d y dim batch dir addr b kf f -> dump_fits b kf base ->
  (forall o, o ∈ bin_ops b kf -> u32 (op_feat_id o) <> GRAVELDB_CKPT_EXPORT_MAGIC) -> forall o, o ∈ bin_ops b kf -> parsable (entry_size b) f o /\ op_feat_id o <> 0.
Proof.
  intros Her [Hkb Hg Hbs He] Hnm o Ho. pose proof (er_esz _ _ _ _ _ _ _ _ _ Her) as He0. pose proof (er_emb _ _ _ _ _ _ _ _ _ Her o Ho) as Hem. pose proof (er_bump _ _ _ _ _ _ _ _ _ Her) as Hbp.
  assert (0 <= op_entry_idx o /\ op_feat_id o <> 0) as [H0 Hnz].
  { unfold bin_ops, valid_ops in Ho. apply scan_keys_idx in Ho; [split; [lia|apply Ho]|lia|]. unfold zlen. rewrite keys_of_len. unfold batch_size, CKPT_EXPORT_IO_BATCH in Hbp. pose proof (er_batch _ _ _ _ _ _ _ _ _ Her). destruct (batch =? 0); lia. }
  split; [|done]. split; [by apply (bin_ops_feat b kf)|]. split; [by apply Hnm|]. rewrite embs_len; lia.
Qed.

(** The header of a dump can be read back. *)
Lemma dump_header_ok {P : Type} {pool : ObjectPool P} (b : DimBin P) kf base : dump_fits b kf base -> 0 < entry_size b ->
  ckpt_export_hdr_ok (dump_header b (generation (dirty b)) base).
Proof.
  intros [Hkb Hg Hbs He] He0. unfold ckpt_export_hdr_ok, is_u32, is_u64. cbn. unfold GRAVELDB_CKPT_EXPORT_MAGIC.
  pose proof (Z.mod_pos_bound (DimBin.dim b) (2 ^ 32)). pose proof (Z.mod_pos_bound (entry_size b) (2 ^ 32)). unfold u32. lia.
Qed.

(** Export and parse. The parser, on a host of any byte order, run on the dump that a full export left,
    returns OK, reports the generation, the dimension and the entry size of the bin, and calls its callback once for
    each entry in use, in order, with the feature id and the bytes of the embedding, provided that no feature id has the
    magic number of the trailer as its low half. *)
Theorem ckpt_export_parse_roundtrip {P : Type} {pool : ObjectPool P} (hw hr : WireHost) (fresh : Z -> list Z) (d : GravelDB P) y dim base batch dir addr b kf f
    {C : Type} (emit : C -> GravelDBCkptEntry -> Z * C) (ctx : C) :
  WireHostOk hw -> WireHostOk hr -> (forall k, 0 <= k -> zlen (fresh k) = k) -> export_ready d y dim batch dir addr b kf f -> dump_fits b kf base ->
  (forall o, o ∈ bin_ops b kf -> u32 (op_feat_id o) <> GRAVELDB_CKPT_EXPORT_MAGIC) -> (forall c x, fst (emit c x) = 0) ->
  exists x1 d1 y1 x2 y2 x3 y3, @graveldb_ckpt_export_begin P fresh GRAVELDB_CKPT_FULL dim base batch 0 (mkDbSt d y) = Ret (GRAVELDB_OK, Some x1, mkDbSt d1 y1) /\
    (exists fuel, @run_steps P hw fuel x1 (mkDbSt d1 y1) = Ret (GRAVELDB_OK, x2, mkDbSt d1 y2)) /\
    @graveldb_ckpt_export_end hw x2 y2 = Ret (GRAVELDB_OK, x3, y3) /\
    @graveldb_ckpt_parse hr C emit (graveldb_ckpt_export_path x3) ctx y3 =
      Ret (inl GRAVELDB_OK, Some (mkDumpHeader (generation (dirty b)) base 0 (u32 (DimBin.dim b)) (entry_size b) GRAVELDB_CKPT_FULL),
           emit_all emit (u32 (DimBin.dim b)) (entry_size b) f ctx (bin_ops b kf), y3).
Proof.
  intros Hw Hr Hfr Her Hdf Hnm Hemit. pose proof (er_esz _ _ _ _ _ _ _ _ _ Her) as He0. pose proof (df_esz _ _ _ Hdf) as He.
  destruct (export_spec (host := hw) fresh Hfr d y dim base batch dir addr b kf f Her) as (x1 & d1 & y1 & x2 & y2 & x3 & y3 & H1 & H2 & H3 & H4 & H5 & H6 & H7 & H8).
  exists x1, d1, y1, x2, y2, x3, y3. split; [exact H1|]. split; [eexists; apply (H2 (Z.to_nat (4 * (bump_ptr b / batch_size batch + 1)))); lia|]. split; [exact H3|]. rewrite H4.
  set (h := dump_header b (generation (dirty b)) base). assert (ch_entry_size h = entry_size b) as Ees by (apply u32_id; lia).
  pose proof (dump_header_ok b kf base Hdf He0 : ckpt_export_hdr_ok h) as Hok.
  pose proof (parse_spec (host := hr) emit (full_dump_path dir b) ctx y3 h f (bin_ops b kf) (take 8 (trailer_image (zlen (bin_ops b kf)))) (drop 8 (trailer_image (zlen (bin_ops b kf)))) H8 H7) as Hp.
  rewrite Ees in Hp. rewrite take_drop in Hp. rewrite Hp; try done.
  - unfold header_view. rewrite Ees. done.
  - intros o Ho. by eapply bin_ops_parsable.
  - rewrite get_u32_ok; [done|vm_compute; intuition congruence|]. apply Forall_take. unfold trailer_image. apply Forall_app. auto using le_split_bytes.
Qed.

(** The parser takes a feature for the trailer. On a dump that contains an entry whose feature id has the magic number
    as its low half, the parser returns OK, as for a complete parse, after the entries before it: that entry and all the
    ones after it are not handed to the callback. *)
Theorem ckpt_parse_stops_at_magic {C : Type} (emit : C -> GravelDBCkptEntry -> Z * C) (host : WireHost) path ctx y h f (ops1 ops2 : list CkptExportReadOp) o :
  WireHostOk host -> names_ok y -> answers y = [] -> ckpt_export_hdr_ok h -> ch_magic h = GRAVELDB_CKPT_EXPORT_MAGIC -> ch_version h = 1 -> ch_type h = 1 ->
  content y path = Some (dump_image h (ch_entry_size h) f (ops1 ++ o :: ops2)) ->
  (forall o, o ∈ ops1 -> parsable (ch_entry_size h) f o) -> 0 <= op_feat_id o < 2 ^ 64 -> u32 (op_feat_id o) = GRAVELDB_CKPT_EXPORT_MAGIC -> (forall c x, fst (emit c x) = 0) ->
  graveldb_ckpt_parse emit path ctx y = Ret (inl GRAVELDB_OK, Some (header_view h), emit_all emit (ch_dim h) (ch_entry_size h) f ctx ops1, y).
Proof.
  intros Hh Hok Hq Hhok Hmg Hv Hty Hc Hops Hfe Hlow Hemit.
  apply (parse_spec emit path ctx y h f ops1 (le_split 8 (op_feat_id o))
    (embs (ch_entry_size h) f (op_entry_idx o) 1 ++ concat (op_image (ch_entry_size h) f <$> ops2) ++ trailer_image (zlen (ops1 ++ o :: ops2)))); try done.
  - rewrite Hc. unfold dump_image. rewrite fmap_app, fmap_cons, concat_app. cbn [concat]. unfold op_image at 2. by rewrite <- !app_assoc.
  - by rewrite Hty.
  - destruct (magic_of_feat (op_feat_id o) Hfe) as [-> _]. by rewrite Hlow.
Qed.


(** ** Witnesses *)

#[local] Existing Instance host_le.

(** A database with a feature of dimension 4 and one of dimension 2, flushed. *)
Definition exp_db : DbSt (SlabPool * Mem) :=
  run_of (let! st := new_db in let! '(_, st) := graveldb_batch_put two_features st in let! '(_, st) := graveldb_flush st in Ret st) no_db.
Definition exp_find : Z * DimRegistry := run_of (dim_registry_find (dim_reg (gdb exp_db)) 4) (0, dim_reg (gdb exp_db)).
Definition exp_addr : Z := run_of (dim_registry_get_bin (snd exp_find) (u16 (fst exp_find))) 0.
Definition exp_bin : DimBin (SlabPool * Mem) := default (delta_bin 3 4) (bin_heap (gdb exp_db) !! exp_addr).
Definition exp_keys : list Z := default [] (files (gsys exp_db) !! key_fd exp_bin).
Definition exp_data : list Z := default [] (files (gsys exp_db) !! fd exp_bin).

Lemma some_default {A} (o : option A) d : match o with Some _ => true | None => false end = true -> o = Some (default d o).
Proof. by destruct o. Qed.

Lemma exp_ops : bin_ops exp_bin exp_keys = [mkReadOp 5 0 0].
Proof. vm_compute. reflexivity. Qed.

Lemma exp_ready : export_ready (gdb exp_db) (gsys exp_db) 4 0 "/data" exp_addr exp_bin exp_keys exp_data.
Proof.
  split.
  - exists (fst exp_find), (snd exp_find). split; [rewrite <- surjective_pairing; apply run_of_returns; vm_compute; reflexivity|].
    split; [vm_compute; congruence|]. apply run_of_returns. vm_compute. reflexivity.
  - apply some_default. vm_compute. reflexivity.
  - vm_compute. reflexivity.
  - apply names_okb_ok. vm_compute. reflexivity.
  - vm_compute. reflexivity.
  - apply some_default. vm_compute. reflexivity.
  - apply some_default. vm_compute. reflexivity.
  - vm_compute. congruence.
  - vm_compute. congruence.
  - lia.
  - vm_compute. intuition congruence.
  - vm_compute. reflexivity.
  - vm_compute. intuition congruence.
  - rewrite exp_ops. intros o ->%list_elem_of_singleton. vm_compute. congruence.
Qed.

Definition zeros (k : Z) : list Z := replicate (Z.to_nat k) 0.
Lemma zeros_len k : 0 <= k -> zlen (zeros k) = k.
Proof. intros Hk. unfold zeros. rewrite zlen_replicate. lia. Qed.

Lemma ckpt_export_full_correct_witness :
  exists x1 d1 y1 x2 y2 x3 y3, graveldb_ckpt_export_begin zeros GRAVELDB_CKPT_FULL 4 7 0 0 (mkDbSt (gdb exp_db) (gsys exp_db)) = Ret (GRAVELDB_OK, Some x1, mkDbSt d1 y1) /\
    (forall fuel, 4 * (bump_ptr exp_bin / batch_size 0 + 1) <= Z.of_nat fuel -> run_steps fuel x1 (mkDbSt d1 y1) = Ret (GRAVELDB_OK, x2, mkDbSt d1 y2)) /\
    graveldb_ckpt_export_end x2 y2 = Ret (GRAVELDB_OK, x3, y3) /\ graveldb_ckpt_export_path x3 = full_dump_path "/data" exp_bin /\
    num_entries (ex_main x3) = zlen (bin_ops exp_bin exp_keys) /\ content y3 (full_dump_path "/data" exp_bin) = Some (bin_dump exp_bin exp_keys exp_data 7).
Proof.
  apply (ckpt_export_full_correct host_le zeros (gdb exp_db) (gsys exp_db) 4 7 0 "/data" exp_addr exp_bin exp_keys exp_data); [apply _|exact zeros_len|exact exp_ready].
Defined.

(** A callback that keeps the entries. *)
Definition keep (l : list GravelDBCkptEntry) (x : GravelDBCkptEntry) : Z * list GravelDBCkptEntry := (0, l ++ [x])%list.

Lemma exp_fits : dump_fits exp_bin exp_keys 7.
Proof. split; [|vm_compute; intuition congruence|lia|vm_compute; reflexivity]. apply (bool_decide_unpack (Forall (fun x => 0 <= x < 256) exp_keys)). vm_compute. done. Qed.

Lemma ckpt_export_parse_roundtrip_witness :
  exists x1 d1 y1 x2 y2 x3 y3, @graveldb_ckpt_export_begin (SlabPool * Mem) zeros GRAVELDB_CKPT_FULL 4 7 0 0 (mkDbSt (gdb exp_db) (gsys exp_db)) = Ret (GRAVELDB_OK, Some x1, mkDbSt d1 y1) /\
    (exists fuel, @run_steps (SlabPool * Mem) host_le fuel x1 (mkDbSt d1 y1) = Ret (GRAVELDB_OK, x2, mkDbSt d1 y2)) /\
    @graveldb_ckpt_export_end host_le x2 y2 = Ret (GRAVELDB_OK, x3, y3) /\
    @graveldb_ckpt_parse host_be _ keep (graveldb_ckpt_export_path x3) [] y3 =
      Ret (inl GRAVELDB_OK, Some (mkDumpHeader (generation (dirty exp_bin)) 7 0 (u32 (DimBin.dim exp_bin)) (entry_size exp_bin) GRAVELDB_CKPT_FULL),
           emit_all keep (u32 (DimBin.dim exp_bin)) (entry_size exp_bin) exp_data [] (bin_ops exp_bin exp_keys), y3).
Proof.
  apply (ckpt_export_parse_roundtrip host_le host_be zeros (gdb exp_db) (gsys exp_db) 4 7 0 "/data" exp_addr exp_bin exp_keys exp_data keep []);
    [apply _|apply _|exact zeros_len|exact exp_ready|exact exp_fits| |done].
  rewrite exp_ops. intros o ->%list_elem_of_singleton. vm_compute. congruence.
Defined.

(** Three entries of four bytes; the id of the second one ends in the magic number. *)
Definition magic_ops : list CkptExportReadOp := [mkReadOp 1 0 0; mkReadOp (2 ^ 32 + GRAVELDB_CKPT_EXPORT_MAGIC) 1 0; mkReadOp 3 2 0].
Definition magic_hdr : CkptExportHdr := mkCkptExportHdr GRAVELDB_CKPT_EXPORT_MAGIC 1 1 9 1 4 0 0 0.
Definition magic_sys : Sys := one_file (dump_image magic_hdr 4 (replicate 12 5) magic_ops).

Lemma ckpt_parse_stops_at_magic_witness :
  graveldb_ckpt_parse keep "/db/emb_d4.meta" [] magic_sys =
  Ret (inl GRAVELDB_OK, Some (header_view magic_hdr), emit_all keep 1 4 (replicate 12 5) [] [mkReadOp 1 0 0], magic_sys).
Proof.
  apply (ckpt_parse_stops_at_magic keep host_le "/db/emb_d4.meta" [] magic_sys magic_hdr (replicate 12 5) [mkReadOp 1 0 0] [mkReadOp 3 2 0]
    (mkReadOp (2 ^ 32 + GRAVELDB_CKPT_EXPORT_MAGIC) 1 0)).
  all: match goal with
       | |- WireHostOk _ => apply _
       | |- names_ok _ => apply one_file_ok
       | |- forall o, _ => intros o ->%list_elem_of_singleton; vm_compute; intuition congruence
       | |- _ => vm_compute; intuition congruence
       end.
Defined.
