(* ===== verification/ImportRun.v ===== *)
(** ImportRun: the import of a dump adds its entries to a database.

    [graveldb_ckpt_import_step] of src/checkpoint.c takes an entry for each feature of the
    dump, writes the embedding to the data file and the key to the key file, past the
    buffers of the bin, and enters the feature in the index. When no page of the bin is
    buffered, a reader then sees what the dump says. *)

From Stdlib Require Import String.
From stdpp Require Import strings.
From S2P Require Import Prelude LinearProbe Wire SlabAlloc Overlay DirtyTracker KeyBTree HashIndex DimRegistry IoBatch PageMap DimBin BinKeys BinFlush BinOps BinPut BinStore Names CkptMeta Engine EngineProps EngineGet EnginePut EngineMap DeltaFile DeltaProps Export ExportProps ExportRun.

#[local] Open Scope Z_scope.
#[local] Arguments file_write : simpl never.

(** ** One entry of a bin *)

Section entry.
Context {P : Type} `{!ObjectPool P}.
Implicit Types st : BinSt P.

(** No page is in the write buffer. *)
Definition unbuffered (b : DimBin P) : Prop := forall x, x ∈ default [] (wslots (write_buf b)) -> occ x = false.

(** No page has to be loaded. *)
Definition no_pages_load (pg : Z) : Prop := False.

Section ready.
Variables (o : Z -> Prop) (t : gmap Z (list Z)).

(** Entries are one after the other in the file, page after page. *)
Lemma unbuffered_entry st sl f e : put_st o t st sl f -> unbuffered (bin st) -> page_size (bin st) = entries_per_page (bin st) * entry_size (bin st) -> 0 <= e < UINT32_MAX ->
  bin_entry st e = (fun r => file_byte f (e * entry_size (bin st) + r)) <$> seqZ 0 (entry_size (bin st)).
Proof.
  intros Hp Hu Hg He. pose proof (ps_epp _ _ _ _ _ Hp) as Hepp. unfold bin_entry, entry_of. apply list_fmap_ext. intros i r _.
  rewrite (view_absent _ _ _ _ _ _ _ Hp).
  - f_equal. rewrite Hg. pose proof (Z.div_mod e (entries_per_page (bin st)) ltac:(lia)). nia.
  - intros x [Hin Hx] _. rewrite Hu in Hx; [done|]. by rewrite (bs_slots _ _ (ps_buf _ _ _ _ _ Hp)).
  - split; [apply Z.div_pos; lia|]. apply Z.div_lt_upper_bound; [lia|]. unfold UINT32_MAX in *. nia.
Qed.

(** The embedding and the key of an entry are written to the files. *)
Definition written_st st (f kf emb : list Z) (e fid : Z) : BinSt P :=
  mkBinSt (bin st) (set_files (sys st) (<[key_fd (bin st) := file_write kf (e * 8) (key_bytes fid)]> (<[fd (bin st) := file_write f (e * entry_size (bin st)) emb]> (files (sys st))))).

Lemma written_ready st sl f kf n e fid emb : bin_ready o t no_pages_load st sl f n -> 0 <= e < bump_ptr (bin st) -> zlen emb = entry_size (bin st) ->
  bin_ready o t no_pages_load (written_st st f kf emb e fid) sl (file_write f (e * entry_size (bin st)) emb) n.
Proof.
  intros [R1 R2 R3 R4 R5 R6 R7 R8 R9 R10 R11 R12 R13 (kf0 & Hne & Hkf) R15] He Hz. pose proof (ps_esz _ _ _ _ _ R1) as Hesz.
  assert (zlen (file_write f (e * entry_size (bin st)) emb) = zlen f) as Hl.
  { rewrite length_file_write; [nia|lia|]. intros ->. unfold zlen in Hz. simpl in Hz. lia. }
  split; try done.
  - destruct R1 as [[B1 B2 B3 B4 B5 B6 B7] H2 H3 H4 H5 H6 H7 H8 H9 H10 H11]. split; try done. simpl. rewrite lookup_insert_ne by done. by rewrite lookup_insert_eq.
  - by rewrite Hl.
  - exists (file_write kf (e * 8) (key_bytes fid)). split; [done|]. simpl. by rewrite lookup_insert_eq.
Qed.

(** A reader sees the embedding in its entry, and the other entries as before. *)
Lemma written_entry st sl f kf n e fid emb x : bin_ready o t no_pages_load st sl f n -> unbuffered (bin st) -> 0 <= e < bump_ptr (bin st) -> zlen emb = entry_size (bin st) ->
  0 <= x < bump_ptr (bin st) ->
  bin_entry (written_st st f kf emb e fid) x = if x =? e then emb else bin_entry st x.
Proof.
  intros Hr Hu He Hz Hx. pose proof (br_bump _ _ _ _ _ _ _ Hr) as Hb. pose proof (br_put _ _ _ _ _ _ _ Hr) as Hp. pose proof (ps_esz _ _ _ _ _ Hp) as Hesz.
  pose proof (br_geo _ _ _ _ _ _ _ Hr) as Hg. pose proof (br_put _ _ _ _ _ _ _ (written_ready st sl f kf n e fid emb Hr He Hz)) as Hp'.
  rewrite (unbuffered_entry _ _ _ x Hp' Hu Hg) by (unfold UINT32_MAX; lia). rewrite (unbuffered_entry _ _ _ x Hp Hu Hg) by (unfold UINT32_MAX; lia).
  change (entry_size (bin (written_st st f kf emb e fid))) with (entry_size (bin st)). set (esz := entry_size (bin st)) in *.
  destruct (Z.eqb_spec x e) as [->|Hne].
  - transitivity (take (Z.to_nat esz) emb); [|unfold zlen in Hz; rewrite <- Hz, Nat2Z.id; apply firstn_all]. rewrite <- bytes_take by lia.
    apply list_fmap_ext. intros i r [-> Hi]%lookup_seqZ. rewrite file_byte_write by lia. rewrite (proj2 (Z.leb_le _ _)), (proj2 (Z.ltb_lt _ _)) by lia. cbn [andb]. do 2 f_equal. lia.
  - apply list_fmap_ext. intros i r [-> Hi]%lookup_seqZ. rewrite file_byte_write by nia.
    assert (x <= e - 1 \/ e + 1 <= x) as [Hlt|Hlt] by lia.
    + rewrite (proj2 (Z.leb_gt (e * esz) _)) by nia. done.
    + rewrite (proj2 (Z.ltb_ge _ (e * esz + zlen emb))) by nia. by rewrite andb_false_r.
Qed.
End ready.
End entry.

(** ** A database during an import *)

Section db.
Context {P : Type} `{!ObjectPool P}.
Implicit Types (st : DbSt P) (b : DimBin P).
Variables (R : gmap Z Z) (D : Z -> Prop) (d di addr : Z).

(** The database stores [m], and its bin [b] for dimension [d] takes [n] more entries, as long as
    none of its pages is buffered. *)
Record import_db st (m : gmap Z (Z * Z)) (n : Z) b : Prop := {
  id_db : put_db R st m n (fun x => D x /\ x <> d);
  id_bin : bin_of R st d di addr b;
  id_ready : exists sl f, bin_ready (others_of st addr) (bufs (gsys st)) no_pages_load (binst st b) sl f n;
  id_free : unbuffered b;
  id_uses : uses (binst st b) (fun e => exists fid, m !! fid = Some (di, e))
}.

(** What a step of an import leaves. *)
Record import_kept st st' b b' : Prop := {
  ik_reg : reg_like (dim_reg (gdb st)) (dim_reg (gdb st'));
  ik_heap : forall a, a <> addr -> bin_heap (gdb st') !! a = bin_heap (gdb st) !! a;
  ik_bin : bin_heap (gdb st') !! addr = Some b';
  ik_alloc : allocator (gdb st') = allocator (gdb st);
  ik_same : fd b' = fd b /\ key_fd b' = key_fd b /\ DimBin.dim b' = DimBin.dim b /\ entry_size b' = entry_size b /\ write_buf b' = write_buf b;
  ik_bufs : bufs (gsys st') = bufs (gsys st);
  ik_files : forall i, i <> fd b -> i <> key_fd b -> files (gsys st') !! i = files (gsys st) !! i
}.

Lemma import_others st st' b b' x : import_kept st st' b b' -> others_of st' addr x <-> others_of st addr x.
Proof. intros K. split; intros (a & c & Ha & Hc & Hx); exists a, c; (split; [done|]); rewrite (ik_heap _ _ _ _ K) in *; done. Qed.

(** Such a step is one on a group of requests. *)
Lemma import_effect st m st' m' b b' n (g : list PutReq) :
  import_db st m (zlen g + n) b -> 0 <= n -> import_kept st st' b b' -> index_room (index (gdb st')) m' n ->
  (exists sl f, bin_ready (others_of st addr) (bufs (gsys st)) no_pages_load (binst st' b') sl f n) ->
  uses (binst st' b') (fun e => exists fid, m' !! fid = Some (di, e)) ->
  (forall f1 f2 e, m' !! f1 = Some (di, e) -> m' !! f2 = Some (di, e) -> f1 = f2) ->
  (forall fid, is_Some (m !! fid) -> is_Some (m' !! fid)) ->
  (forall fid v, m' !! fid = Some v -> m !! fid = Some v \/ fst v = di /\ fid ∈ pr_feat <$> g) ->
  (forall r, r ∈ g -> exists e, m' !! pr_feat r = Some (di, e)) ->
  (forall fid e, m' !! fid = Some (di, e) -> entry_at (gsys st') b' e = default (entry_at (gsys st) b e) (last_emb g fid)) ->
  import_db st' m' n b' /\ group_effect st m st' m' addr di n b b' g.
Proof.
  intros [Hdb Hbo _ Hun _] Hn K Hix (sl & f & Hr) Hus Hinj Hsub Hnew Hst Hent. pose proof K as [K1 K2 K3 K4 (K5 & K6 & K7 & K8 & K9) K10 K11].
  pose proof (br_put _ _ _ _ _ _ _ Hr) as Hp. pose proof (br_key_file _ _ _ _ _ _ _ Hr) as (kf & _ & Hkf).
  assert (group_effect st m st' m' addr di n b b' g) as He.
  { split; try done.
    - exact (ps_quiet _ _ _ _ _ Hp).
    - destruct (ps_alloc _ _ _ _ _ Hp) as (al & A & [= <-] & Hown & Hin & Hout). exists A. split; [done|].
      assert (buf_addrs (binst st' b') sl = addrs b') as <-; [|done]. pose proof (bs_slots _ _ (ps_buf _ _ _ _ _ Hp)) as Es. unfold buf_addrs, addrs. simpl in Es. by rewrite Es.
    - intros x _. by rewrite K10.
    - simpl in Hkf. rewrite <- K6. by eexists.
    - destruct (ready_readable _ _ _ _ _ _ _ Hr) as [[sl0 [B1 B2 B3 B4 B5 B6 B7]] H2 H3 H4 H5 H6]. split; try done. exists sl0. by split.
    - intros fid e He. destruct (Hus e) as [Hlt _]; [by eexists|]. pose proof (br_bump _ _ _ _ _ _ _ Hr). split; [unfold UINT32_MAX; lia|]. intros _. exists f.
      split; [exact (ps_file _ _ _ _ _ Hp)|]. exact (ready_covers _ _ _ _ _ _ _ e Hr Hlt). }
  split; [|done]. destruct (effect_db R st m n _ st' m' d di addr b b' g Hdb Hn Hbo He) as [Hdb' Hbo'].
  split; [|done| |unfold unbuffered; by rewrite K9|done].
  - eapply put_db_weaken; [|exact Hdb']. tauto.
  - exists sl, f. eapply (bin_ready_others _ _ _ _ no_pages_load); [| |done|exact Hr]; [intros x; apply (import_others _ _ _ _ _ K)|by rewrite K10].
Qed.

(** The dimension is found in the registry, which only counts the lookup. *)
Lemma import_find st m n D' b : put_db R st m n D' -> bin_of R st d di addr b ->
  exists reg, dim_registry_find (dim_reg (gdb st)) d = Ret (di, reg) /\ reg_like (dim_reg (gdb st)) reg /\ u16 di = di /\ 0 <= di.
Proof.
  intros Hdb Hbo. destruct (pd_reg _ _ _ _ _ Hdb) as (bs & Hreg). pose proof (ri_dom _ _ _ Hreg d di (bo_reg _ _ _ _ _ _ Hbo)) as [Hd0 Hdi].
  exists (bump_lookups (dim_reg (gdb st))). rewrite (find_spec _ R bs d Hreg Hd0), (bo_reg _ _ _ _ _ _ Hbo). split; [done|]. split; [split; [intros; by apply bump_inv|done]|].
  pose proof (ri_cap _ _ _ Hreg) as [Hc ?]. pose proof (u16_cap_range _ Hc). split; [apply u16_id|]; lia.
Qed.

Lemma write_request_quiet c g f emb off y : initialized c = true -> answers y = [] -> files y !! g = Some f ->
  exists c', write_request c g emb off y = Ret (0, c', set_files y (<[g := file_write f off emb]> (files y))) /\ initialized c' = true /\ errors c' = errors c.
Proof.
  intros Hi Hq Hf. unfold write_request. rewrite Hi. cbn [negb]. rewrite (bindM_ret _ _ _ _ _ (pwrite_quiet y g f emb off Hq Hf)).
  rewrite (proj2 (Z.ltb_ge _ _)) by apply zlen_nonneg. rewrite Z.eqb_refl. cbn [orb negb]. eexists. split; [done|]. unfold uring_io_track_fd_fallback. by repeat case_match.
Qed.

(** The import of one entry. *)
Lemma import_entry_spec st m n b imp fid emb :
  import_db st m (1 + n) b -> 0 <= n -> im_bin imp = addr -> im_entry_size imp = entry_size b -> initialized (im_io_ctx imp) = true -> fid <> 0 -> zlen emb = entry_size b ->
  exists c st' m' b', import_entry imp fid emb st = Ret (Some (im_io imp c (pending_writes imp + 1)), st') /\
    initialized c = true /\ errors c = errors (im_io_ctx imp) /\ import_db st' m' n b' /\ import_kept st st' b b' /\
    forall k, feature st' m' k = put_features [mkPutReq fid d (Some emb)] (feature st m) k.
Proof.
  intros Hi Hn Ea Ee Hc Hf Hz. pose proof Hi as [Hdb Hbo (sl & f & Hr) Hun Hus]. pose proof (bo_bin _ _ _ _ _ _ Hbo) as Hb.
  destruct (alloc_grown_spec _ _ _ _ _ _ _ _ Hr ltac:(lia) Hus) as (e & bs & f1 & Eal & G & Hr1 & He1 & He2 & Hus1). replace (1 + n - 1) with n in Hr1 by lia.
  assert (DimBin.allocator (bin bs) = Some (allocator (gdb st))) as Hal by (rewrite (gw_alloc _ _ _ _ G); done).
  unfold import_entry. rewrite Ea. rewrite (bindM_ret _ _ _ _ _ (with_bin_step st addr b _ e bs Hb Eal Hal)). set (st1 := rebin st addr bs).
  pose proof (br_bump _ _ _ _ _ _ _ Hr1) as Hbp. rewrite (proj2 (Z.eqb_neq _ _)) by (unfold UINT32_MAX; lia).
  assert (get_bin_at addr st1 = Ret (bin bs, st1)) as Eb by (unfold get_bin_at, get_db, gets, bindM, st1; simpl; by rewrite lookup_insert_eq). rewrite (bindM_ret _ _ _ _ _ Eb).
  pose proof (br_put _ _ _ _ _ _ _ Hr1) as Hp1. destruct (br_key_file _ _ _ _ _ _ _ Hr1) as (kf & Hkne & Hkf).
  destruct (write_request_quiet (im_io_ctx imp) (fd (bin bs)) f1 emb (e * im_entry_size imp) (gsys st1) Hc (ps_quiet _ _ _ _ _ Hp1) (ps_file _ _ _ _ _ Hp1)) as (c & Ew & Hc1 & Hc2).
  unfold bindM at 1, on_sys at 1. rewrite Ew. cbn [res_bind fst snd]. set (y2 := set_files _ _).
  unfold bindM at 1, on_sys at 1. cbn [gsys]. rewrite (pwrite_quiet y2 (key_fd (bin bs)) kf) by (first [exact (ps_quiet _ _ _ _ _ Hp1) | unfold y2; simpl; by rewrite lookup_insert_ne]). cbn [res_bind fst snd]. set (y3 := set_files y2 _).
  destruct (import_find st m _ _ b Hdb Hbo) as (reg & Efi & Hreg & Hdi & Hdi0). pose proof (gw_dim _ _ _ _ G) as Hgd. pose proof (bo_dim _ _ _ _ _ _ Hbo) as Hbd. simpl in Hgd.
  unfold get_db, gets. unfold bindM at 1. cbn [res_bind fst snd gdb]. rewrite Hgd, Hbd. change (dim_reg (gdb st1)) with (dim_reg (gdb st)). rewrite Efi. unfold bindM at 1. cbn [lift res_bind fst snd].
  unfold upd_db at 1, modify. unfold bindM at 1. cbn [res_bind fst snd]. rewrite (proj2 (Z.leb_le 0 di) Hdi0). cbn [when]. rewrite Hdi.
  cbn [gdb gsys]. set (st3 := mkDbSt (set_reg _ _) _). destruct (index_put_room st3 m (1 + n) fid di e (ps_quiet _ _ _ _ _ Hp1) (pd_index _ _ _ _ _ Hdb) ltac:(lia) Hf) as (idx & Ei & Hix).
  unfold bindM at 1 2. rewrite Ei. cbn [res_bind fst snd ret].
  replace (1 + n - 1) with n in Hix by lia. set (st' := mkDbSt _ (gsys st3)). set (m' := <[fid := (di, e)]> m) in *.
  assert (binst st' (bin bs) = written_st bs f1 kf emb e fid) as Ebs.
  { unfold binst, written_st, st', st3, y3, y2. cbn [gdb gsys allocator set_index set_reg set_bins st1 rebin]. rewrite <- Hal. rewrite Ee, <- (gw_esz _ _ _ _ G : entry_size (bin bs) = entry_size b). by destruct bs as [[] ?]. }
  pose proof (gw_esz _ _ _ _ G) as Hge. simpl in Hge. assert (unbuffered (bin bs)) as Hun1 by (unfold unbuffered; by rewrite (gw_buf _ _ _ _ G)).
  assert (import_kept st st' b (bin bs)) as K.
  { split.
    + exact Hreg.
    + intros a Ha. simpl. by rewrite lookup_insert_ne.
    + simpl. by rewrite lookup_insert_eq.
    + done.
    + pose proof (gw_fd _ _ _ _ G). pose proof (gw_key_fd _ _ _ _ G). pose proof (gw_buf _ _ _ _ G). simpl in *. done.
    + exact (gw_bufs _ _ _ _ G).
    + intros i H1 H2. simpl. rewrite (gw_fd _ _ _ _ G), (gw_key_fd _ _ _ _ G), !lookup_insert_ne by done. by apply (gw_files _ _ _ _ G). }
  destruct (import_effect st m st' m' b (bin bs) n [mkPutReq fid d (Some emb)] Hi Hn K) as [Hi' Hef].
  - exact Hix.
  - exists sl. eexists. rewrite Ebs. apply written_ready; [exact Hr1|done|congruence].
  - rewrite Ebs. intros x (k & [[_ [= <-]]|[_ Hk]]%lookup_insert_Some); apply Hus1; [by left|right; by exists k].
  - intros k1 k2 x H1 H2. apply lookup_insert_Some in H1, H2. destruct H1 as [[<- E1]|[? H1]], H2 as [[<- E2]|[? H2]]; [done|destruct He1; injection E1 as ->; by eexists|destruct He1; injection E2 as ->; by eexists|].
    exact (pd_inj _ _ _ _ _ Hdb _ _ _ H1 H2).
  - intros k Hk. unfold m'. destruct (decide (k = fid)) as [->|Hne]; [by rewrite lookup_insert_eq|by rewrite lookup_insert_ne].
  - intros k v [[<- <-]|[_ Hk]]%lookup_insert_Some; [right; split; [done|set_solver]|by left].
  - intros r ->%list_elem_of_singleton. exists e. apply lookup_insert_eq.
  - intros k x Hk. change (entry_at (gsys st') (bin bs) x) with (bin_entry (binst st' (bin bs)) x). rewrite Ebs.
    assert (0 <= x < bump_ptr (bin bs)) as Hx. { apply lookup_insert_Some in Hk as [[_ [= <-]]|[_ Hk]]; [done|]. apply (Hus1 x). right. by exists k. }
    rewrite (written_entry _ _ bs sl f1 kf n e fid emb x Hr1 Hun1) by (done || congruence). unfold last_emb. cbn [foldl pr_feat pr_emb].
    apply lookup_insert_Some in Hk as [[-> [= <-]]|[Hne Hk]]; [by rewrite !Z.eqb_refl|]. rewrite (proj2 (Z.eqb_neq fid k)) by done.
    rewrite (proj2 (Z.eqb_neq x e)) by (intros ->; apply He1; by eexists). cbn. exact (bin_entry_grew _ _ _ _ _ _ _ x (br_put _ _ _ _ _ _ _ Hr) G).
  - exists c, st', m', (bin bs). split; [done|]. split; [done|]. split; [done|]. split; [done|].
    split; [done|]. intros k. exact (effect_put_features R st m _ n _ st' m' d di addr b (bin bs) _ k Hdb Hbo Hef ltac:(by intros r ->%list_elem_of_singleton)).
Qed.

(** ** The entries of a dump *)

Context {host : WireHost} {host_ok : WireHostOk host}.

(** A feature and its embedding, and the bytes of a dump for it. *)
Definition entry_image (x : Z * list Z) : list Z := (le_split 8 (fst x) ++ snd x)%list.
(** An entry that is not taken for the trailer. *)
Definition importable (esz : Z) (x : Z * list Z) : Prop := 0 < fst x < 2 ^ 64 /\ u32 (fst x) <> GRAVELDB_CKPT_EXPORT_MAGIC /\ zlen (snd x) = esz.
(** The entries as requests. *)
Definition entry_req (x : Z * list Z) : PutReq := mkPutReq (fst x) d (Some (snd x)).

Variables (dfd : Z) (t suf : list Z).
Hypothesis Ht : zlen t = 8.
Hypothesis Hmagic : wire_get_u32 t 0 = Ret GRAVELDB_CKPT_EXPORT_MAGIC.

(** The context of an import whose entries [es] are still to be read. *)
Record import_ctx (imp : GravelDBCkptImport) b : Prop := {
  ic_bin : im_bin imp = addr;
  ic_fd : import_fd imp = dfd;
  ic_esz : im_entry_size imp = entry_size b;
  ic_io : initialized (im_io_ctx imp) = true;
  ic_errors : errors (im_io_ctx imp) = 0;
  ic_apart : dfd <> fd b /\ dfd <> key_fd b
}.
Definition dump_rest st (imp : GravelDBCkptImport) (es : list (Z * list Z)) : Prop :=
  exists pre, files (gsys st) !! dfd = Some (pre ++ concat (entry_image <$> es) ++ t ++ suf)%list /\ im_pos imp = zlen pre.

Lemma read_dump_next st imp pre l rest len : len = zlen l -> answers (gsys st) = [] -> files (gsys st) !! import_fd imp = Some (pre ++ l ++ rest)%list -> im_pos imp = zlen pre ->
  read_dump imp len st = Ret (len, l, im_at imp (zlen (pre ++ l)%list) (im_done imp), st).
Proof.
  intros -> Hq Hf Hp. unfold read_dump, on_sys. unfold bindM at 1. rewrite (read_next _ _ pre l rest (im_pos imp) (zlen l)) by done. cbn [res_bind fst snd ret].
  rewrite (proj2 (Z.ltb_ge _ _)) by apply zlen_nonneg. rewrite zlen_app, Hp. by destruct st.
Qed.

Lemma import_ctx_kept imp st st' b b' : import_kept st st' b b' -> import_ctx imp b -> import_ctx imp b'.
Proof. intros K [H1 H2 H3 H4 H5 [H6 H7]]. destruct (ik_same _ _ _ _ K) as (S1 & S2 & _ & S4 & _). split; try done; rewrite ?S1, ?S2, ?S4; done. Qed.

Lemma import_kept_trans st st1 st2 b b1 b2 : import_kept st st1 b b1 -> import_kept st1 st2 b1 b2 -> import_kept st st2 b b2.
Proof.
  intros [[A1 A1'] A2 A3 A4 (A5 & A6 & A7 & A8 & A9) A10 A11] [[B1 B1'] B2 B3 B4 (B5 & B6 & B7 & B8 & B9) B10 B11]. split; try congruence.
  - split; [auto|]. intros x. by rewrite B1', A1'.
  - intros a Ha. by rewrite B2, A2.
  - split_and!; congruence.
  - intros i H1 H2. rewrite B11, A11; congruence.
Qed.

Lemma import_kept_refl st b : bin_heap (gdb st) !! addr = Some b -> import_kept st st b b.
Proof. intros Hb. split; try done. Qed.

Lemma put_features_cons r l c k : put_features (r :: l) c k = put_features l (put_features [r] c) k.
Proof. exact (put_features_app [r] l c k). Qed.

(** A batch of the loop. *)
Lemma import_entries_spec (k : nat) : forall st m n b imp (es : list (Z * list Z)),
  import_db st m (zlen es + n) b -> 0 <= n -> import_ctx imp b -> im_done imp = false -> dump_rest st imp es -> Forall (importable (entry_size b)) es ->
  exists imp' st' m' b', import_entries k imp st = Ret (Some imp', imp', st') /\
    import_db st' m' (zlen (drop k es) + n) b' /\ import_kept st st' b b' /\ import_ctx imp' b' /\ im_done imp' = bool_decide (length es < k)%nat /\
    (im_done imp' = false -> dump_rest st' imp' (drop k es)) /\ header_read imp' = header_read imp /\
    forall fid, feature st' m' fid = put_features (entry_req <$> take k es) (feature st m) fid.
Proof.
  induction k as [|k IH]; intros st m n b imp es Hi Hn Hc Hd Hdr Hes.
  { exists imp, st, m, b. rewrite drop_0. split; [done|]. split; [done|]. split; [apply import_kept_refl, Hi|]. split; [done|]. rewrite bool_decide_eq_false_2 by lia. done. }
  destruct Hdr as (pre & Hf & Hpos). pose proof (pd_quiet _ _ _ _ _ (id_db _ _ _ _ Hi)) as Hq. pose proof Hc as [C1 C2 C3 C4 C5 C6]. rewrite <- C2 in Hf.
  cbn [import_entries]. destruct es as [|[fid emb] es].
  { rewrite (bindM_ret _ _ _ _ _ (read_dump_next st imp pre t suf 8 (eq_sym Ht) Hq Hf Hpos)). rewrite Z.ltb_irrefl, Hmagic. unfold bindM at 1. cbn [lift res_bind fst snd]. rewrite Z.eqb_refl.
    set (imp1 := im_at imp _ _). assert (exists imp2, (let* '(_, _, imp) := read_dump imp1 4 in let imp := im_at imp (im_pos imp) true in ret (Some imp, imp)) st = Ret (Some imp2, imp2, st) /\
      import_ctx imp2 b /\ im_done imp2 = true /\ header_read imp2 = header_read imp) as (imp2 & E2 & Hc2 & Hd2 & Hh2).
    { unfold read_dump, on_sys, read_at, bindM, ret. rewrite (pread_quiet _ _ _ _ _ Hq Hf). cbn [res_bind fst snd]. case_match; destruct st; (eexists; split; [done|]; split; [by split|done]). }
    exists imp2, st, m, b. split; [exact E2|]. split; [done|]. split; [apply import_kept_refl, Hi|]. split; [done|]. rewrite bool_decide_eq_true_2 by (simpl; lia). split; [done|]. split; [congruence|]. done. }
  apply Forall_cons in Hes as [(Hfid & Hnm & Hz) Hes]. cbn [fst snd] in Hfid, Hnm, Hz. destruct (magic_of_feat fid) as [G1 G2]; [lia|].
  rewrite fmap_cons in Hf. cbn [concat] in Hf. unfold entry_image at 1 in Hf. cbn [fst snd] in Hf. rewrite <- !app_assoc in Hf.
  rewrite (bindM_ret _ _ _ _ _ (read_dump_next st imp pre (le_split 8 fid) _ 8 ltac:(done) Hq Hf Hpos)). rewrite Z.ltb_irrefl, G1. unfold bindM at 1. cbn [lift res_bind fst snd].
  rewrite (proj2 (Z.eqb_neq _ _)) by done. rewrite G2. unfold bindM at 1. cbn [lift res_bind fst snd]. set (imp1 := im_at imp _ _).
  rewrite (bindM_ret _ _ _ _ _ (read_dump_next st imp1 (pre ++ le_split 8 fid) emb _ (im_entry_size imp1) ltac:(rewrite Hz; exact C3) Hq ltac:(rewrite <- app_assoc; exact Hf) eq_refl)).
  change (im_entry_size imp1) with (im_entry_size imp). rewrite Z.eqb_refl. cbn [negb]. set (imp2 := im_at imp1 _ _).
  assert (zlen ((fid, emb) :: es) + n = 1 + (zlen es + n)) as Hl by (unfold zlen; simpl; lia). rewrite Hl in Hi. pose proof (zlen_nonneg es).
  destruct (import_entry_spec st m (zlen es + n) b imp2 fid emb Hi ltac:(lia) C1 C3 C4 ltac:(lia) Hz) as (c & st1 & m1 & b1 & E1 & Hc1 & Hc2 & Hi1 & K1 & F1).
  rewrite (bindM_ret _ _ _ _ _ E1). set (imp3 := im_io imp2 c _). assert (import_ctx imp3 b) as Hc3 by (split; try done; simpl; by rewrite Hc2).
  destruct (IH st1 m1 n b1 imp3 es Hi1 Hn (import_ctx_kept _ _ _ _ _ K1 Hc3) Hd) as (imp' & st' & m' & b' & E2 & Hi2 & K2 & Hc4 & Hd2 & Hdr2 & Hh2 & F2).
  { exists ((pre ++ le_split 8 fid) ++ emb)%list. split; [|done]. rewrite (ik_files _ _ _ _ K1) by apply C6. rewrite <- !app_assoc, <- C2. exact Hf. }
  { destruct (ik_same _ _ _ _ K1) as (_ & _ & _ & -> & _). done. }
  exists imp', st', m', b'. split; [done|]. split; [done|]. split; [by eapply import_kept_trans|]. split; [done|]. split; [rewrite Hd2; apply bool_decide_ext; simpl; lia|].
  split; [done|]. split; [by rewrite Hh2|]. intros k'. rewrite F2. cbn [take fmap list_fmap]. rewrite put_features_cons. by apply put_features_ext.
Qed.

(** ** A step *)

Lemma fsyncs_quiet (l : list Z) : forall y, answers y = [] ->
  exists y', forM l (fun g => let* _ := fdatasync g in ret tt) y = Ret (tt, y') /\ files y' = files y /\ bufs y' = bufs y /\ answers y' = [] /\ names y' = names y.
Proof.
  induction l as [|g l IH]; intros y Hq; [by exists y|]. cbn [forM]. unfold bindM at 1 2. unfold fdatasync. rewrite (bindM_ret _ _ _ _ _ (sys_ok_quiet y Hq)).
  unfold bindM at 1, modify. cbn [res_bind fst snd ret]. apply (IH (mkSys (files y) (bufs y) (answers y) (synced y ++ [g]) (names y))). done.
Qed.

(** The requests of a batch are made durable, which nobody sees. *)
Lemma import_sync_spec st m n b c : import_db st m n b -> 0 <= n -> initialized c = true ->
  exists st', on_sys (uring_io_submit_fsyncs c) st = Ret (0, st') /\ import_db st' m n b /\ import_kept st st' b b /\ files (gsys st') = files (gsys st) /\
    forall fid, feature st' m fid = feature st m fid.
Proof.
  intros Hi Hn Hc. pose proof Hi as [Hdb Hbo (sl & f & Hr) Hun Hus]. destruct (fsyncs_quiet (fsync_fds c) (gsys st) (pd_quiet _ _ _ _ _ Hdb)) as (y' & E & H1 & H2 & H3 & H4).
  exists (mkDbSt (gdb st) y'). set (st' := mkDbSt _ _). split; [unfold on_sys, uring_io_submit_fsyncs; rewrite Hc; cbn [negb]; unfold bindM at 1; rewrite E; done|].
  assert (import_kept st st' b b) as K. { split; try done; [apply Hbo|]. intros i _ _. simpl. by rewrite H1. }
  assert (grew (binst st b) f (binst st' b) f) as G.
  { split; try done; simpl; [by rewrite H3, (pd_quiet _ _ _ _ _ Hdb)|exists 0%nat; by rewrite app_nil_r|by rewrite H1|intros g _ _; by rewrite H1]. }
  destruct (import_effect st m st' m b b n [] Hi Hn K (pd_index _ _ _ _ _ Hdb)) as [Hi' He].
  - exists sl, f. pose proof Hr as [R1 R2 R3 R4 R5 R6 R7 R8 R9 R10 R11 R12 R13 (kf & Hne & Hkf) R15]. eapply (bin_ready_grew _ _ _ _ sl f); [exact Hr|exact G|done|apply R11|exact R10|exact R12|exact R13| |exact R15|done].
    exists kf. simpl. rewrite H1. exact Hkf.
  - exact Hus.
  - intros f1 f2 e. apply (pd_inj _ _ _ _ _ Hdb).
  - done.
  - auto.
  - by intros r ?%elem_of_nil.
  - intros fid e _. cbn. unfold entry_at, bin_entry, entry_of. apply list_fmap_ext. intros i r _. unfold page_view. simpl. by rewrite H1, H2.
  - split; [done|]. split; [done|]. split; [done|]. intros fid. exact (effect_feature R st m _ n _ st' m d di addr b b [] fid Hdb Hbo He ltac:(by intros r ?%elem_of_nil)).
Qed.

Lemma import_step_spec st m n b imp (es : list (Z * list Z)) :
  import_db st m (zlen es + n) b -> 0 <= n -> import_ctx imp b -> header_read imp = true -> im_done imp = false -> dump_rest st imp es -> Forall (importable (entry_size b)) es ->
  let k := Z.to_nat CKPT_IMPORT_BATCH in
  exists imp' st' m' b', graveldb_ckpt_import_step imp st = Ret (if im_done imp' then GRAVELDB_OK else GRAVELDB_AGAIN, imp', st') /\
    import_db st' m' (zlen (drop k es) + n) b' /\ import_kept st st' b b' /\ import_ctx imp' b' /\ im_done imp' = bool_decide (length es < k)%nat /\
    (im_done imp' = false -> dump_rest st' imp' (drop k es)) /\ header_read imp' = true /\
    forall fid, feature st' m' fid = put_features (entry_req <$> take k es) (feature st m) fid.
Proof.
  intros Hi Hn Hc Hh Hd Hdr Hes k. pose proof Hc as [C1 C2 C3 C4 C5 C6].
  unfold graveldb_ckpt_import_step. rewrite Hd, C1. assert (get_bin_at addr st = Ret (b, st)) as Eb by (unfold get_bin_at, get_db, gets, bindM; simpl; by rewrite (bo_bin _ _ _ _ _ _ (id_bin _ _ _ _ Hi))).
  rewrite (bindM_ret _ _ _ _ _ Eb). rewrite Hh. unfold bindM at 1. cbn [ret res_bind fst snd]. change (bool_decide (GRAVELDB_OK = GRAVELDB_OK)) with true. cbn [negb].
  set (imp0 := im_io imp _ 0). assert (import_ctx imp0 b) as Hc0 by (unfold imp0, uring_io_reset; rewrite C4; by split).
  destruct (import_entries_spec k st m n b imp0 es Hi Hn Hc0 Hd Hdr Hes) as (imp' & st1 & m' & b' & E1 & Hi1 & K1 & Hc1 & Hd1 & Hr1 & Hh1 & F1).
  rewrite (bindM_ret _ _ _ _ _ E1). pose proof (zlen_nonneg (drop k es)).
  assert (exists st', when (0 <? pending_writes imp') (let* _ := on_sys (uring_io_submit_fsyncs (im_io_ctx imp')) in ret tt) st1 = Ret (tt, st') /\
    import_db st' m' (zlen (drop k es) + n) b' /\ import_kept st1 st' b' b' /\ files (gsys st') = files (gsys st1) /\ forall fid, feature st' m' fid = feature st1 m' fid) as (st' & E2 & Hi2 & K2 & Hf2 & F2).
  { destruct (0 <? pending_writes imp'); cbn [when]; [|exists st1; split; [done|]; split; [done|]; split; [apply import_kept_refl, Hi1|done]].
    destruct (import_sync_spec st1 m' _ b' (im_io_ctx imp') Hi1 ltac:(lia) (ic_io _ _ Hc1)) as (st' & E & H'). exists st'. split; [by rewrite (bindM_ret _ _ _ _ _ E)|done]. }
  rewrite (bindM_ret _ _ _ _ _ E2). exists imp', st', m', b'. split; [done|]. split; [done|]. split; [by eapply import_kept_trans|]. split; [done|]. split; [done|].
  split; [intros Hx; destruct (Hr1 Hx) as (pre & ? & ?); exists pre; by rewrite Hf2|]. split; [by rewrite Hh1|]. intros fid. by rewrite F2, F1.
Qed.

(** The first step reads the header. *)
Lemma import_header_spec st b imp h rest : answers (gsys st) = [] -> bin_heap (gdb st) !! addr = Some b -> im_bin imp = addr -> import_fd imp = dfd -> header_read imp = false ->
  im_done imp = false -> im_pos imp = 0 -> files (gsys st) !! dfd = Some (export_hdr_image h ++ rest)%list -> ckpt_export_hdr_ok h ->
  ch_magic h = GRAVELDB_CKPT_EXPORT_MAGIC -> ch_version h = 1 -> i32 (ch_dim h) = DimBin.dim b -> ch_entry_size h = u32 (entry_size b) ->
  graveldb_ckpt_import_step imp st = graveldb_ckpt_import_step (im_header imp WIRE_CKPT_EXPORT_HDR_SIZE (ch_generation h)) st.
Proof.
  intros Hq Hb Ea Ef Hh Hd Hp Hf Hok Hm Hv Hdim Hes. unfold graveldb_ckpt_import_step. cbn [im_done im_header header_read im_bin]. rewrite Hd, Ea.
  assert (get_bin_at addr st = Ret (b, st)) as Eb by (unfold get_bin_at, get_db, gets, bindM; simpl; by rewrite Hb). rewrite !(bindM_ret _ _ _ _ _ Eb). rewrite Hh.
  assert (import_header imp b st = Ret (GRAVELDB_OK, im_header imp WIRE_CKPT_EXPORT_HDR_SIZE (ch_generation h), st)) as E; [|by rewrite (bindM_ret _ _ _ _ _ E)].
  unfold import_header. rewrite <- Ef in Hf. rewrite (bindM_ret _ _ _ _ _ (read_dump_next st imp [] (export_hdr_image h) rest WIRE_CKPT_EXPORT_HDR_SIZE eq_refl Hq Hf Hp)).
  rewrite Z.eqb_refl. cbn [negb]. rewrite (decode_export_hdr h Hok). unfold bindM. cbn [lift res_bind fst snd]. rewrite Hm, Hv, Hdim, Hes, !Z.eqb_refl. cbn [negb orb]. done.
Qed.
End db.
