(* ===== verification/ExportMap.v ===== *)
(** ExportMap: a dump holds the features of the database.

    The export of ExportRun.v reads the key file and the data file of a bin at places that it
    computes itself. For a bin whose keys and pages were flushed and whose pages have no slack, these
    are the features of the dimension, with the embeddings that a get answers: what the parser hands
    to its callback is the map of the database. *)

From Stdlib Require Import String.
From stdpp Require Import strings.
From S2P Require Import Prelude LinearProbe Wire SlabAlloc Overlay DirtyTracker KeyBTree HashIndex DimRegistry IoBatch PageMap DimBin BinKeys BinFlush BinOps BinPut BinStore Names CkptMeta Engine EngineProps EngineGet EnginePut EngineMap DeltaFile DeltaProps Export ExportProps ExportRun ImportRun.

#[local] Open Scope string_scope.
#[local] Open Scope Z_scope.

(** ** The keys that the export finds *)

Lemma keys_of_lookup n : forall (l : list Z) i, (i < n)%nat -> keys_of n l !! i = Some (key_value (take 8 (drop (i * 8) l))).
Proof.
  induction n as [|n IH]; intros l i Hi; [lia|]. destruct i as [|i]; [done|]. cbn [keys_of lookup list_lookup]. rewrite IH by lia. by rewrite drop_drop.
Qed.

(** The bytes of slot [i] in the window that the export reads. *)
Lemma window_slot (kf : list Z) ksz n (i : nat) : 0 <= n * 8 <= ksz -> Z.of_nat i < n ->
  take 8 (drop (i * 8) (key_window (key_image ksz kf) 0 n)) = key_at kf (Z.of_nat i).
Proof.
  intros Hk Hi. apply list_eq. intros j. unfold key_window, key_at. destruct (decide (j < 8)%nat) as [Hj|Hj].
  - rewrite lookup_take_lt by lia. rewrite lookup_drop, !list_lookup_fmap, lookup_seq_lt by lia. rewrite lookup_seqZ_lt by lia. cbn. f_equal.
    unfold file_byte, key_image. rewrite lookup_take_lt by lia. do 2 f_equal. lia.
  - rewrite (proj2 (lookup_ge_None _ _)) by (rewrite length_take; lia). rewrite (proj2 (lookup_ge_None _ _)) by (rewrite length_fmap, length_seq; lia). done.
Qed.

Lemma scan_keys_elem (keys : list Z) : forall s k e, 0 <= s -> s + zlen keys < 2 ^ 32 ->
  ((exists o, o ∈ scan_keys s keys /\ op_feat_id o = k /\ op_entry_idx o = e) <-> s <= e < s + zlen keys /\ k <> 0 /\ keys !! Z.to_nat (e - s) = Some k).
Proof.
  induction keys as [|k0 keys IH]; intros s k e Hs Hl.
  { cbn. split; [intros (o & Ho & _); by apply elem_of_nil in Ho|]. unfold zlen. simpl. lia. }
  assert (zlen (k0 :: keys) = 1 + zlen keys) as El by (unfold zlen; simpl; lia). pose proof (zlen_nonneg keys). rewrite El in *.
  cbn [scan_keys]. rewrite u32_id by lia. specialize (IH (s + 1) k e ltac:(lia) ltac:(lia)).
  assert (s + 1 <= e < s + 1 + zlen keys -> (k0 :: keys) !! Z.to_nat (e - s) = keys !! Z.to_nat (e - (s + 1))) as Hnext.
  { intros He. replace (Z.to_nat (e - s)) with (S (Z.to_nat (e - (s + 1)))) by lia. done. }
  destruct (Z.eqb_spec k0 0) as [Hk|Hk].
  - rewrite IH. split; intros (He & Hn & Hx); (destruct (decide (e = s)) as [->|Hne]; [try lia|split; [lia|]; split; [done|]; rewrite Hnext in * by lia; done]).
    rewrite Z.sub_diag in Hx. injection Hx as Hx. congruence.
  - split.
    + intros (o & [->|Ho]%elem_of_cons & H1 & H2); cbn in *; [subst; rewrite Z.sub_diag; split; [lia|done]|].
      destruct (proj1 IH) as (He & Hn & Hx); [by exists o|]. split; [lia|]. split; [done|]. by rewrite Hnext.
    + intros (He & Hn & Hx). destruct (decide (e = s)) as [->|Hne].
      * rewrite Z.sub_diag in Hx. injection Hx as <-. exists (mkReadOp k0 s 0). split; [apply elem_of_cons; by left|done].
      * destruct (proj2 IH) as (o & Ho & H1); [split; [lia|]; split; [done|]; by rewrite <- Hnext by lia|]. exists o. split; [apply elem_of_cons; by right|done].
Qed.

Lemma scan_keys_sorted (keys : list Z) : forall s, 0 <= s -> s + zlen keys < 2 ^ 32 -> NoDup (op_entry_idx <$> scan_keys s keys).
Proof.
  induction keys as [|k keys IH]; intros s Hs Hl; [constructor|]. assert (zlen (k :: keys) = 1 + zlen keys) as El by (unfold zlen; simpl; lia). pose proof (zlen_nonneg keys). rewrite El in *.
  cbn [scan_keys]. rewrite u32_id by lia. destruct (k =? 0); [apply IH; lia|]. cbn [fmap list_fmap]. constructor; [|apply IH; lia].
  intros (o & Eo & Ho)%list_elem_of_fmap. cbn in Eo. apply scan_keys_idx in Ho; lia.
Qed.

Section export.
Context {P : Type} `{!ObjectPool P}.
Implicit Types (st : DbSt P) (b : DimBin P).

(** The entries that the export finds are those whose slot of the key file is not 0. *)
Lemma bin_ops_elem b (kf : list Z) k e : 0 <= bump_ptr b < 2 ^ 32 -> bump_ptr b * 8 <= key_file_size b ->
  ((exists o, o ∈ bin_ops b kf /\ op_feat_id o = k /\ op_entry_idx o = e) <-> 0 <= e < bump_ptr b /\ k <> 0 /\ key_value (key_at kf e) = k).
Proof.
  intros Hb Hk. unfold bin_ops, valid_ops. assert (zlen (keys_of (Z.to_nat (bump_ptr b)) (key_window (key_image (key_file_size b) kf) 0 (bump_ptr b))) = bump_ptr b) as El.
  { unfold zlen. rewrite keys_of_len. lia. }
  rewrite scan_keys_elem by lia. rewrite El, Z.add_0_l, Z.sub_0_r.
  split; intros (He & Hn & Hx); (split; [done|]); (split; [done|]).
  - rewrite keys_of_lookup, window_slot in Hx by lia. rewrite Z2Nat.id in Hx by lia. by injection Hx.
  - rewrite keys_of_lookup, window_slot by lia. rewrite Z2Nat.id by lia. by rewrite Hx.
Qed.

(** ** The embeddings that the export reads *)

(** Without slack and buffered pages, an entry is where the export reads it. *)
Lemma embs_entry y b (f : list Z) e : unbuffered b -> page_size b = entries_per_page b * entry_size b -> 0 < entries_per_page b -> 0 < entry_size b ->
  files y !! fd b = Some f -> 0 <= e < UINT32_MAX -> (e + 1) * entry_size b <= zlen f -> embs (entry_size b) f e 1 = entry_at y b e.
Proof.
  intros Hu Hg Hepp Hesz Hf He Hl. unfold entry_at, bin_entry, entry_of. cbn [bin sys]. apply list_eq. intros i. destruct (decide (Z.of_nat i < entry_size b)) as [Hi|Hi].
  - rewrite list_lookup_fmap, lookup_seqZ_lt by lia. cbn. unfold page_view. cbn [bin sys]. pose proof (page_of_bound b e Hepp He) as Hpg.
    destruct (List.find _ _) as [x|] eqn:Ef.
    { exfalso. apply List.find_some in Ef as [Hin%list_elem_of_In Hx%Z.eqb_eq]. pose proof (Hu x Hin) as Ho. apply occ_false in Ho. change (page_id x = UINT32_MAX) in Ho. lia. }
    rewrite Hf. cbn [default from_option id]. unfold embs, file_byte. rewrite lookup_take_lt by lia. rewrite lookup_drop.
    replace (Z.to_nat (e / entries_per_page b * page_size b + (e mod entries_per_page b * entry_size b + (0 + Z.of_nat i)))) with (Z.to_nat (e * entry_size b) + i)%nat.
    + destruct (f !! (Z.to_nat (e * entry_size b) + i)%nat) as [v|] eqn:Ev; [done|]. apply lookup_ge_None in Ev. unfold zlen in Hl. nia.
    + rewrite Hg. pose proof (Z.div_mod e (entries_per_page b) ltac:(lia)). set (q := e / entries_per_page b) in *. set (m := e mod entries_per_page b) in *. nia.
  - rewrite (proj2 (lookup_ge_None _ _)) by (unfold embs; rewrite length_take; lia). rewrite (proj2 (lookup_ge_None _ _)) by (rewrite length_fmap, length_seqZ; lia). done.
Qed.

(** ** The map *)

(** The features of a dimension. *)
Definition of_dim (d : Z) (c : gmap Z (Z * list Z)) : gmap Z (Z * list Z) := filter (fun kv => fst (snd kv) = d) c.

(** A database at rest answers every get from the map [c], and its bin [b] of the dimension [d] was
    flushed: no page is in the write buffer, and the slot of an entry in the key file [kf] holds the
    feature that the index has for the entry, 0 if there is none. The pages have no slack. *)
Record flushed_map (R : gmap Z Z) st (c : gmap Z (Z * list Z)) (d di addr : Z) b (kf : list Z) : Prop := {
  fm_map : exists m, put_db R st m 0 (fun _ => False) /\ (forall fid, feature st m fid = c !! fid) /\
    forall k e, m !! k = Some (di, e) <-> 0 <= e < bump_ptr b /\ k <> 0 /\ key_value (key_at kf e) = k;
  fm_bin : bin_of R st d di addr b;
  fm_pages : unbuffered b;
  fm_slack : page_size b = entries_per_page b * entry_size b;
  fm_keys : bump_ptr b * 8 <= key_file_size b
}.

(** The entries in use of a bin, as the export finds them: feature ids and embeddings. *)
Definition bin_entries b (kf f : list Z) : list (Z * list Z) := (fun o => (op_feat_id o, embs (entry_size b) f (op_entry_idx o) 1)) <$> bin_ops b kf.

(** They are the features of the dimension. *)
Lemma bin_entries_map R st c d di addr b kf f batch dir : flushed_map R st c d di addr b kf -> export_ready (gdb st) (gsys st) d batch dir addr b kf f ->
  NoDup (fst <$> bin_entries b kf f) /\ forall fid x, (fid, x) ∈ bin_entries b kf f <-> c !! fid = Some (d, x).
Proof.
  intros [(m & Hdb & Hc & Hm) Hbo Hu Hg Hk] Her. pose proof (er_bump _ _ _ _ _ _ _ _ _ Her) as Hb. pose proof (er_batch _ _ _ _ _ _ _ _ _ Her) as Hba.
  assert (0 <= bump_ptr b < 2 ^ 32) as Hb' by (unfold batch_size, CKPT_EXPORT_IO_BATCH in Hb; destruct (batch =? 0); lia).
  assert (forall o, o ∈ bin_ops b kf -> m !! op_feat_id o = Some (di, op_entry_idx o) /\ embs (entry_size b) f (op_entry_idx o) 1 = entry_at (gsys st) b (op_entry_idx o)) as Hops.
  { intros o Ho. assert (m !! op_feat_id o = Some (di, op_entry_idx o)) as Em by (apply Hm, bin_ops_elem; [done|done|by exists o]). split; [done|].
    destruct (pd_entry _ _ _ _ _ Hdb _ _ _ Em) as (d' & a' & b' & Hb1 & Hrd & Hloc).
    assert (a' = addr) as -> by (destruct Hb1, Hbo; congruence). assert (b' = b) as -> by (destruct Hb1, Hbo; congruence).
    apply embs_entry; try done; [apply Hrd|apply Hrd|apply Her|apply Hloc|by apply (er_emb _ _ _ _ _ _ _ _ _ Her)]. }
  split.
  - unfold bin_entries. rewrite <- list_fmap_compose. apply NoDup_fmap_2_strong; [|eapply NoDup_fmap_1, scan_keys_sorted; [lia|unfold zlen; rewrite keys_of_len; lia]].
    intros o1 o2 H1 H2 E. cbn in E. pose proof H1 as H1'. pose proof H2 as H2'. apply Hops in H1 as [H1 _]. apply Hops in H2 as [H2 _].
    assert (op_entry_idx o1 = op_entry_idx o2) as Ei by congruence.
    assert (NoDup (op_entry_idx <$> bin_ops b kf)) as Hnd by (apply scan_keys_sorted; [lia|unfold zlen; rewrite keys_of_len; lia]).
    apply list_elem_of_lookup in H1' as [i Hi]. apply list_elem_of_lookup in H2' as [j Hj].
    assert (i = j) as -> by (eapply (NoDup_lookup _ i j (op_entry_idx o1) Hnd); rewrite list_lookup_fmap; [by rewrite Hi|by rewrite Hj, Ei]). congruence.
  - intros fid x. unfold bin_entries. rewrite list_elem_of_fmap. rewrite <- Hc. unfold feature, locate. split.
    + intros (o & [= -> ->] & Ho). destruct (Hops o Ho) as [-> ->]. rewrite (bo_addr _ _ _ _ _ _ Hbo), (bo_bin _ _ _ _ _ _ Hbo). cbn. by rewrite (bo_dim _ _ _ _ _ _ Hbo).
    + destruct (m !! fid) as [[di' e]|] eqn:Em; [|done]. destruct (pd_entry _ _ _ _ _ Hdb _ _ _ Em) as (d' & a' & b' & [B1 B2 B3 B4] & _). rewrite B2, B3. cbn. intros [= Ed Ex].
      assert (d' = d) as -> by congruence. assert (di' = di) as -> by (destruct Hbo; congruence). assert (a' = addr) as -> by (destruct Hbo; congruence). assert (b' = b) as -> by (destruct Hbo; congruence).
      pose proof Em as Em'. apply Hm, bin_ops_elem in Em' as (o & Ho & H1 & H2); [|done|done]. exists o. destruct (Hops o Ho) as [_ ->]. by rewrite H1, H2, Ex.
Qed.

Lemma bin_entries_perm R st c d di addr b kf f batch dir : flushed_map R st c d di addr b kf -> export_ready (gdb st) (gsys st) d batch dir addr b kf f ->
  (fun x => (fst x, (d, snd x))) <$> bin_entries b kf f ≡ₚ map_to_list (of_dim d c).
Proof.
  intros Hfm Her. destruct (bin_entries_map R st c d di addr b kf f batch dir Hfm Her) as [Hnd Hin]. apply NoDup_Permutation.
  - apply (NoDup_fmap_1 fst). rewrite <- list_fmap_compose. exact Hnd.
  - apply NoDup_map_to_list.
  - intros [k [d' x]]. rewrite elem_of_map_to_list. unfold of_dim. rewrite map_lookup_filter_Some. cbn. rewrite list_elem_of_fmap. split.
    + intros ([k' x'] & [= -> -> ->] & Hk). cbn. by apply Hin in Hk.
    + intros [Hk ->]. exists (k, x). split; [done|]. by apply Hin.
Qed.

(** Putting the entries of a dimension into another map. *)
Lemma put_entries_map (es : list (Z * list Z)) d (c c2 : gmap Z (Z * list Z)) : NoDup (fst <$> es) -> (forall fid x, (fid, x) ∈ es <-> c !! fid = Some (d, x)) ->
  map_op (OpPut (entry_req d <$> es)) c2 = of_dim d c ∪ c2.
Proof.
  intros Hnd Hin. apply map_eq. intros fid. rewrite lookup_union. rewrite <- put_features_map.
  assert (forall l, NoDup (fst <$> l) -> forall g, put_features (entry_req d <$> l) g fid = match (list_to_map l : gmap Z (list Z)) !! fid with Some x => Some (d, x) | None => g fid end) as Hput.
  { clear. induction l as [|[k x] l IH] using rev_ind; intros Hnd g; [done|]. rewrite fmap_app, put_features_app. rewrite fmap_app in Hnd. cbn in Hnd.
    apply NoDup_app in Hnd as (Hnd & Hd & _). unfold put_features at 1, last_req. cbn.
    destruct (Z.eqb_spec k fid) as [->|Hne].
    - assert ((list_to_map (l ++ [(fid, x)]) : gmap Z (list Z)) !! fid = Some x) as ->; [|done]. rewrite list_to_map_app, lookup_union. cbn. rewrite lookup_insert_eq.
      assert ((list_to_map l : gmap Z (list Z)) !! fid = None) as ->; [|done]. apply not_elem_of_list_to_map_1. intros Hf. apply (Hd fid Hf). by apply list_elem_of_singleton.
    - rewrite IH by done. rewrite list_to_map_app, lookup_union. cbn. rewrite lookup_insert_ne, lookup_empty by done. by destruct (list_to_map l !! fid). }
  rewrite Hput by done. unfold of_dim. destruct (list_to_map es !! fid) as [x|] eqn:E.
  - apply elem_of_list_to_map_2 in E. apply Hin in E. assert (filter (fun kv => fst (snd kv) = d) c !! fid = Some (d, x)) as -> by (by apply map_lookup_filter_Some). by destruct (c2 !! fid).
  - assert (filter (fun kv => fst (snd kv) = d) c !! fid = None) as ->; [|by destruct (c2 !! fid)]. apply map_lookup_filter_None. right. intros [d' x] Hx Ed. cbn in Ed. subst d'.
    apply Hin in Hx. apply not_elem_of_list_to_map_2 in E. apply E. apply list_elem_of_fmap. by exists (fid, x).
Qed.
End export.

(** C18: export and parse round trip. A database at rest, whose calls to the system succeed and whose
    index does not migrate, answers every get from the map [c], and its bin of dimension [d] is not in
    a checkpoint, was flushed, keys and pages, and has pages without slack; the name of the dump is not
    that of one of the bin's files. The parser, on a host of any byte order, run on the dump that a full export of the
    bin left, returns OK, reports the generation, the dimension and the entry size of the bin, and
    calls its callback exactly once for each feature of the dimension in the map, with its id and the
    embedding that a get answers; provided that the callback always returns 0 and that no feature id
    has the magic number of the trailer as its low half. *)
Theorem export_parse_map {P : Type} {pool : ObjectPool P} (hw hr : WireHost) (fresh : Z -> list Z) (R : gmap Z Z) (st : DbSt P) c d di addr b kf f base batch dir
    {C : Type} (emit : C -> GravelDBCkptEntry -> Z * C) (ctx : C)
  (Hw : WireHostOk hw)
  (Hr : WireHostOk hr)
  (Hfr : forall k, 0 <= k -> zlen (fresh k) = k)
  (Hfm : flushed_map R st c d di addr b kf)
  (Her : export_ready (gdb st) (gsys st) d batch dir addr b kf f)
  (Hdf : dump_fits b kf base)
  (Hd : 0 <= d < 2 ^ 31)
  (Hmagic : forall fid x, c !! fid = Some (d, x) -> u32 fid <> GRAVELDB_CKPT_EXPORT_MAGIC)
  (Hemit : forall a x, fst (emit a x) = 0) :
  exists x1 d1 y1 x2 y2 x3 y3 (es : list (Z * list Z)), @graveldb_ckpt_export_begin P fresh GRAVELDB_CKPT_FULL d base batch 0 st = Ret (GRAVELDB_OK, Some x1, mkDbSt d1 y1) /\
    (exists fuel, @run_steps P hw fuel x1 (mkDbSt d1 y1) = Ret (GRAVELDB_OK, x2, mkDbSt d1 y2)) /\
    @graveldb_ckpt_export_end hw x2 y2 = Ret (GRAVELDB_OK, x3, y3) /\
    (fun x => (fst x, (d, snd x))) <$> es ≡ₚ map_to_list (of_dim d c) /\
    @graveldb_ckpt_parse hr C emit (graveldb_ckpt_export_path x3) ctx y3 =
      Ret (inl GRAVELDB_OK, Some (mkDumpHeader (generation (dirty b)) base 0 d (entry_size b) GRAVELDB_CKPT_FULL),
           foldl (fun a x => snd (emit a (mkCkptEntry (fst x) (snd x) d))) ctx es, y3).
Proof.
  destruct (bin_entries_map R st c d di addr b kf f batch dir Hfm Her) as [_ Hin]. pose proof (bo_dim _ _ _ _ _ _ (fm_bin _ _ _ _ _ _ _ _ Hfm)) as Eb.
  destruct (ckpt_export_parse_roundtrip hw hr fresh (gdb st) (gsys st) d base batch dir addr b kf f emit ctx Hw Hr Hfr Her Hdf) as (x1 & d1 & y1 & x2 & y2 & x3 & y3 & H1 & H2 & H3 & H4); [|done|].
  { intros o Ho. apply (Hmagic _ (embs (entry_size b) f (op_entry_idx o) 1)), Hin. apply list_elem_of_fmap. by exists o. }
  exists x1, d1, y1, x2, y2, x3, y3, (bin_entries b kf f). destruct st as [gd gy]. split; [exact H1|]. split; [exact H2|]. split; [exact H3|]. split; [by eapply bin_entries_perm|].
  rewrite H4, Eb, u32_id by lia. do 4 f_equal. unfold emit_all, bin_entries. by rewrite foldl_fmap.
Qed.

(** ** Witness *)

#[local] Existing Instance host_le.

(** What a database stores does not depend on the files of others. *)
Lemma stores_beside {P : Type} {pool : ObjectPool P} R E (st : DbSt P) y c n : stores R E st c n -> answers y = [] ->
  (forall a b, bin_heap (gdb st) !! a = Some b -> undisturbed (gsys st) y b) -> stores R E (mkDbSt (gdb st) y) c n.
Proof.
  intros (m & Hdb & Hg & Hsz & Hf) Hq Hu. destruct (put_db_beside R st y m n (fun _ => True) Hdb Hq Hu) as [Hdb' Hf'].
  exists m. split; [exact Hdb'|]. split; [done|]. split; [|intros fid; rewrite <- Hf; apply Hf'].
  intros d x Hx. destruct (Hsz d x Hx) as (di & a & b & [B1 B2 B3 B4] & Hz). exists di, a, b. by repeat split.
Qed.

(** A database with dimension 1 in files of its own; feature 5 is entry 7. *)
Definition one_bin : DimBin (SlabPool * Mem) := plain_bin 1 4 4 13 14 8 64 64.
Definition one_reg : DimRegistry := mkDimRegistry DIM_REG_LINEAR 1 8 (Some [100]) (Some [mkDimRegEntry 1 0]) 8 None 0 0 0 0.
Definition one_db : GravelDB (SlabPool * Mem) := mkGravelDB small_config one_reg index_16_5 0 (p0, m0) (snd uring_io_init) false idle_progress {[ 100 := one_bin ]}.
(** The slot of entry 7 in the key file has feature 5. *)
Definition one_keys : list Z := replicate 56 0 ++ [5; 0; 0; 0; 0; 0; 0; 0].
Definition one_sys : Sys := mkSys (<[13 := two_file]> (<[14 := one_keys]> ∅)) ∅ [] [] ∅.
Definition one_dims : gmap Z Z := {[ 1 := 0 ]}.

Lemma one_reg_inv : reg_inv one_reg one_dims [100].
Proof.
  assert (u16_cap 8) as Hc by (exists 3; split; [lia|done]). split; try done; try (split; [done|vm_compute; congruence]).
  - intros d b. unfold one_dims. intros [<- <-]%lookup_singleton_Some. vm_compute. split; [congruence|split; congruence].
  - eexists. split; [reflexivity|]. split; [done|]. simpl. split; [|lia]. split; [by apply (bool_decide_unpack _); vm_compute|].
    intros d b. unfold one_dims. rewrite list_elem_of_singleton, lookup_singleton_Some. split; [intros [= -> ->]; done|intros [<- <-]; done].
Qed.

Lemma one_heap a b : bin_heap one_db !! a = Some b -> a = 100 /\ b = one_bin.
Proof. simpl. by intros [<- <-]%lookup_singleton_Some. Qed.

Lemma one_bin_of d di a b : bin_of one_dims (mkDbSt one_db one_sys) d di a b -> d = 1 /\ di = 0 /\ a = 100 /\ b = one_bin.
Proof. unfold one_dims. intros [[<- <-]%lookup_singleton_Some _ H3 _]. by apply one_heap in H3 as [-> ->]. Qed.

Lemma one_put_db n : 0 <= n <= 8 -> put_db one_dims (mkDbSt one_db one_sys) {[ 5 := (0, 7) ]} n (fun _ => True).
Proof.
  intros Hn. assert (bin_of one_dims (mkDbSt one_db one_sys) 1 0 100 one_bin) as Hbo by (by split).
  assert (forall x, x ∈ addrs one_bin -> False) as Hno by (intros x Hx; by apply elem_of_nil in Hx).
  split.
  - split; [exact index_16_5_inv|]. split; [done|]. split; [vm_compute; split; congruence|]. change (hi_count _) with 1. change (hi_capacity _) with 16. lia.
  - done.
  - exists [100]. exact one_reg_inv.
  - intros d di. unfold one_dims at 1. intros [<- <-]%lookup_singleton_Some. by exists 100, one_bin.
  - split.
    + intros a1 b1 a2 b2 Hne [-> _]%one_heap [-> _]%one_heap. done.
    + exists []. split; [split; [apply p0_inv | apply p0_os]|]. intros a b x [_ ->]%one_heap Hx. by destruct (Hno x).
  - intros fid di e [<- [= <- <-]]%lookup_singleton_Some. exists 1, 100, one_bin. split; [done|]. split.
    + split; try done. exists no_pages. split; try done; [apply pages_inv_empty; [by exists 2|lia|done]|]. intros x Hx. by apply stored_replicate in Hx.
    + split; [done|]. intros _. exists two_file. split; [reflexivity|]. vm_compute. congruence.
  - intros f1 f2 v [<- _]%lookup_singleton_Some [<- _]%lookup_singleton_Some. done.
  - intros d di a b Hb _. destruct (one_bin_of d di a b Hb) as (-> & -> & -> & ->). exists no_pages, two_file. split.
    + apply (plain_ready _ _ _ _ _ _ _ _ _ _ _ one_keys); try done; try lia; [|by exists 4|].
      * intros x (a & b & Ha & [-> _]%one_heap & _). done.
      * intros pg Hpg. destruct (Z.ltb_spec pg 2) as [Hl|Hl]; [right; left|right; right; intros r Hr; apply two_file_zero; simpl in Hr |- *; lia].
         assert (pg = 0 \/ pg = 1) as [-> | ->] by lia; done.
    + intros e (fid & [_ [= <-]]%lookup_singleton_Some). split; [vm_compute; split; congruence|]. intros fr [= <-]. apply not_elem_of_nil.
Qed.

Lemma one_stores n : 0 <= n <= 8 -> stores one_dims {[ 1 := 4 ]} (mkDbSt one_db one_sys) two_map n.
Proof.
  intros Hn. assert (bin_of one_dims (mkDbSt one_db one_sys) 1 0 100 one_bin) as Hbo by (by split).
  exists {[ 5 := (0, 7) ]}. split; [by apply one_put_db|]. split; [eapply pool_grants_le; [|exact two_grants]; lia|split].
  - intros d x [<- Hz]%lookup_singleton_Some. by exists 0, 100, one_bin.
  - intros fid. destruct (decide (fid = 5)) as [->|Hne]; [by vm_compute|]. unfold feature, locate, two_map. by rewrite !lookup_singleton_ne.
Qed.


(** The key file has feature 5 for entry 7 and no other. *)
Lemma one_flushed : flushed_map one_dims (mkDbSt one_db one_sys) two_map 1 0 100 one_bin one_keys.
Proof.
  split.
  - exists {[ 5 := (0, 7) ]}. split; [eapply put_db_weaken; [|apply (one_put_db 0); lia]; done|]. split.
    + intros fid. destruct (decide (fid = 5)) as [->|Hne]; [by vm_compute|]. unfold feature, locate, two_map. by rewrite !lookup_singleton_ne.
    + intros k e. rewrite lookup_singleton_Some. split; [intros [<- [= <-]]; vm_compute; intuition congruence|]. intros (He & Hk & Hv). change (bump_ptr one_bin) with 8 in He.
      assert (e = 0 \/ e = 1 \/ e = 2 \/ e = 3 \/ e = 4 \/ e = 5 \/ e = 6 \/ e = 7) as Hc by lia. destruct Hc as [-> | [-> | [-> | [-> | [-> | [-> | [-> | ->]]]]]]]; vm_compute in Hv; subst k; done.
  - by split.
  - intros x Hx. simpl in Hx. unfold no_pages in Hx. by apply elem_of_replicate in Hx as [-> _].
  - done.
  - vm_compute. congruence.
Qed.

Lemma one_ops : bin_ops one_bin one_keys = [mkReadOp 5 7 0].
Proof. vm_compute. reflexivity. Qed.

Lemma one_export_ready : export_ready one_db one_sys 1 0 "/data" 100 one_bin one_keys two_file.
Proof.
  split; try (vm_compute; by intuition congruence); try done.
  - eexists 0, _. split; [vm_compute; reflexivity|]. split; [lia|vm_compute; reflexivity].
  - rewrite one_ops. intros o ->%list_elem_of_singleton. vm_compute. congruence.
Qed.

Lemma one_dump_fits : dump_fits one_bin one_keys 7.
Proof. split; [|vm_compute; intuition congruence|lia|vm_compute; reflexivity]. apply (bool_decide_unpack (Forall (fun x => 0 <= x < 256) one_keys)). vm_compute. done. Qed.

Lemma one_no_magic fid x : two_map !! fid = Some (1, x) -> u32 fid <> GRAVELDB_CKPT_EXPORT_MAGIC.
Proof. unfold two_map. intros [<- _]%lookup_singleton_Some. vm_compute. congruence. Qed.

Lemma export_parse_map_witness :
  exists x1 d1 y1 x2 y2 x3 y3 es, @graveldb_ckpt_export_begin (SlabPool * Mem) zeros GRAVELDB_CKPT_FULL 1 7 0 0 (mkDbSt one_db one_sys) = Ret (GRAVELDB_OK, Some x1, mkDbSt d1 y1) /\
    (exists fuel, @run_steps (SlabPool * Mem) host_le fuel x1 (mkDbSt d1 y1) = Ret (GRAVELDB_OK, x2, mkDbSt d1 y2)) /\
    @graveldb_ckpt_export_end host_le x2 y2 = Ret (GRAVELDB_OK, x3, y3) /\
    (fun x => (fst x, (1, snd x))) <$> es ≡ₚ [(5, (1, [1; 1; 1; 1]))] /\
    @graveldb_ckpt_parse host_be _ keep (graveldb_ckpt_export_path x3) [] y3 =
      Ret (inl GRAVELDB_OK, Some (mkDumpHeader 0 7 0 1 4 GRAVELDB_CKPT_FULL), foldl (fun a x => snd (keep a (mkCkptEntry (fst x) (snd x) 1))) [] es, y3).
Proof.
  apply (export_parse_map host_le host_be zeros one_dims (mkDbSt one_db one_sys) two_map 1 0 100 one_bin one_keys two_file 7 0 "/data" keep []);
    [apply _|apply _|exact zeros_len|exact one_flushed|exact one_export_ready|exact one_dump_fits|lia|exact one_no_magic|done].
Defined.
