(* ===== verification/Replica.v ===== *)
(** Replica: the double-buffered replica of example/replica/replica.c.

    A master writes features and exports a dump. The replica has two databases in the same
    file system. It loads a dump into the one that is not in use and then publishes it by an
    atomic store of its index, while reader threads read from the published one. *)

From Stdlib Require Import String.
From stdpp Require Import strings.
From S2P Require Import Prelude LinearProbe Wire SlabAlloc Overlay DirtyTracker KeyBTree HashIndex DimRegistry IoBatch PageMap DimBin BinKeys BinFlush BinOps BinPut BinStore Names CkptMeta Engine EngineProps EngineGet EnginePut EngineMap DeltaFile DeltaProps Export ExportProps ExportRun ImportRun ExportMap.

#[local] Open Scope string_scope.
#[local] Open Scope Z_scope.
#[local] Arguments file_write : simpl never.

(** ** The program *)

Definition DIM : Z := 128.
Definition NUM_FEATURES : Z := 1000.

(** The configuration of all three databases; the page size is that of the file system. *)
Definition replica_config (dir : string) : GravelDBConfig := mkGravelDBConfig (Some dir) [DIM] (64 * 1024 * 1024) (2 ^ 16) 0 0 true 0.

Section program.
Context {P : Type} `{!ObjectPool P} {host : WireHost}.
Variable create_pool : P -> option P.
Variables junk fresh : Z -> list Z.
#[local] Abbreviation D := (M (DbSt P)).

(** *** The master *)

(** [vec i]: the bytes of the floats of feature [i + 1]. *)
Variable vec : Z -> list Z.

Definition feature_batch (num batch : Z) : list PutReq :=
  let n := if num - batch <? 100 then num - batch else 100 in
  (fun i => mkPutReq (batch + i + 1) DIM (Some (vec (batch + i)))) <$> seqZ 0 n.

(** The batches at 0, 100, 200 and so on; the first error ends the loop. *)
Fixpoint write_batches (fuel : nat) (num batch : Z) : D graveldb_status_t :=
  match fuel with
  | O => lift Diverge
  | S fuel =>
    if batch <? num then
      let* st := graveldb_batch_put (feature_batch num batch) in
      if bool_decide (st = GRAVELDB_OK) then write_batches fuel num (batch + 100) else ret st
    else ret GRAVELDB_OK
  end.

Fixpoint while_again (fuel : nat) (m : D graveldb_status_t) : D graveldb_status_t :=
  match fuel with
  | O => lift Diverge
  | S fuel => let* st := m in if bool_decide (st = GRAVELDB_AGAIN) then while_again fuel m else ret st
  end.

Fixpoint export_polls (fuel : nat) (x : GravelDBCkptExport) : D GravelDBCkptExport :=
  match fuel with
  | O => lift Diverge
  | S fuel => let* '(st, x) := graveldb_ckpt_export_poll x in if bool_decide (st = GRAVELDB_AGAIN) then export_polls fuel x else ret x
  end.
Fixpoint export_steps (fuel : nat) (x : GravelDBCkptExport) : D (graveldb_status_t * GravelDBCkptExport) :=
  match fuel with
  | O => lift Diverge
  | S fuel =>
    let* '(st, x) := graveldb_ckpt_export_step x in
    if bool_decide (st = GRAVELDB_AGAIN) then let* x := export_polls fuel x in export_steps fuel x else ret (st, x)
  end.

(** The result of the export is not looked at. The path is [None] after an error. *)
Definition produce_checkpoint (fuel : nat) (num detected : Z) (al : P) (master_dir : string) : M Sys (graveldb_status_t * option string) :=
  let* '(st, master) := graveldb_open (replica_config master_dir) detected al in
  match master with
  | None => ret (st, None)
  | Some master => fun y =>
    let run : D (graveldb_status_t * option string) :=
      let* st := write_batches fuel num 0 in
      if negb (bool_decide (st = GRAVELDB_OK)) then do* graveldb_close in ret (st, None)
      else
        let* st := graveldb_flush in
        if negb (bool_decide (st = GRAVELDB_OK)) then do* graveldb_close in ret (st, None)
        else
          let* _ := while_again fuel (graveldb_checkpoint_step create_pool 64) in
          let* '(st, x) := graveldb_ckpt_export_begin fresh GRAVELDB_CKPT_FULL DIM 0 256 0 in
          match x with
          | None => do* graveldb_close in ret (st, None)
          | Some x =>
            let* '(_, x) := export_steps fuel x in
            let* '(_, x) := on_sys (graveldb_ckpt_export_end x) in
            let path := graveldb_ckpt_export_path x in
            do* graveldb_close in
            ret (GRAVELDB_OK, Some path)
          end in
    let! '(r, st) := run (mkDbSt master y) in Ret (r, gsys st)
  end.

(** *** Loading a dump *)

Fixpoint import_polls (fuel : nat) (imp : GravelDBCkptImport) : res GravelDBCkptImport :=
  match fuel with
  | O => Diverge
  | S fuel => let '(st, imp) := graveldb_ckpt_import_poll imp in if bool_decide (st = GRAVELDB_AGAIN) then import_polls fuel imp else Ret imp
  end.
Fixpoint import_steps (fuel : nat) (imp : GravelDBCkptImport) : D (graveldb_status_t * GravelDBCkptImport) :=
  match fuel with
  | O => lift Diverge
  | S fuel =>
    let* '(st, imp) := graveldb_ckpt_import_step imp in
    if bool_decide (st = GRAVELDB_AGAIN) then let* imp := lift (import_polls fuel imp) in import_steps fuel imp else ret (st, imp)
  end.

(** [dim] is [DIM] in the program. *)
Definition load_dump (fuel : nat) (dim : Z) (dump_path : string) : D graveldb_status_t :=
  let* '(st, imp) := graveldb_ckpt_import_begin dim dump_path in
  match imp with
  | None => ret st
  | Some imp =>
    let* '(st, imp) := import_steps fuel imp in
    let '(end_st, _) := graveldb_ckpt_import_end imp in
    ret (if bool_decide (st = GRAVELDB_OK) then end_st else st)
  end.

Definition open_replica (detected : Z) (al : P) (dir : string) : M Sys (graveldb_status_t * option (GravelDB P)) := graveldb_open (replica_config dir) detected al.

(** *** A reader *)

Record ReaderSt : Type := mkReaderSt { reads : Z; hits : Z }.

(** One round of [reader_thread] on the database of the index that was loaded, for the feature
    that [rand] chose: [out] is [NULL] before the call. *)
Definition reader_round (feat_id : Z) (r : ReaderSt) : D ReaderSt :=
  let* '(st, o) := graveldb_batch_get junk [feat_id] (mkGetOut [None] (Some [0])) in
  ret (mkReaderSt (u64 (reads r + 1)) (if bool_decide (st = GRAVELDB_OK) && bool_decide (out_embeddings o <> [None]) then u64 (hits r + 1) else hits r)).

(** *** The threads *)

(** Where [main] is in the reload: before it, in the loop of [load_dump] on the database
    [standby_idx], after it with its result, and after the swap. *)
Inductive Loader : Type :=
| Sleeping
| Loading (standby_idx : Z) (imp : GravelDBCkptImport)
| Loaded (standby_idx : Z) (st : graveldb_status_t)
| Reloaded.

(** The two databases share the file system. A reader has loaded the active index or not. *)
Record Replica : Type := mkReplica {
  g_db0 : GravelDB P; g_db1 : GravelDB P; r_sys : Sys; g_active_idx : Z; loader : Loader; readers : list (option Z * ReaderSt)
}.

Definition db_at (s : Replica) (idx : Z) : DbSt P := mkDbSt (if idx =? 0 then g_db0 s else g_db1 s) (r_sys s).
Definition set_db (s : Replica) (idx : Z) (st : DbSt P) : Replica :=
  if idx =? 0 then mkReplica (gdb st) (g_db1 s) (gsys st) (g_active_idx s) (loader s) (readers s)
  else mkReplica (g_db0 s) (gdb st) (gsys st) (g_active_idx s) (loader s) (readers s).
Definition set_loader (s : Replica) (l : Loader) : Replica := mkReplica (g_db0 s) (g_db1 s) (r_sys s) (g_active_idx s) l (readers s).
Definition set_reader (s : Replica) (i : nat) (x : option Z * ReaderSt) : Replica :=
  mkReplica (g_db0 s) (g_db1 s) (r_sys s) (g_active_idx s) (loader s) (<[i := x]> (readers s)).

Definition NUM_READERS : nat := 4.

(** [main] up to the start of the readers: the exit code after an error, or the replica whose first
    database is loaded. The allocators of the three databases have memory of their own. *)
Definition main_setup (fuel : nat) (num detected : Z) (alm al0 al1 : P) : M Sys (Z + Replica) :=
  let* '(_, path) := produce_checkpoint fuel num detected alm "/tmp/graveldb_master" in
  match path with
  | None => ret (inl 1)
  | Some dump_path =>
    let* '(_, d0) := open_replica detected al0 "/tmp/graveldb_replica_0" in
    match d0 with
    | None => ret (inl 1)
    | Some d0 =>
      let* '(_, d1) := open_replica detected al1 "/tmp/graveldb_replica_1" in
      match d1 with
      | None => ret (inl 1)
      | Some d1 => fun y =>
        let! '(rc, st) := load_dump fuel DIM dump_path (mkDbSt d0 y) in
        Ret (if bool_decide (rc = GRAVELDB_OK) then inr (mkReplica (gdb st) d1 (gsys st) 0 Sleeping (replicate NUM_READERS (None, mkReaderSt 0 0))) else inl 1, gsys st)
      end
    end
  end.

(** A step of [main] from the reload on: one call of the import, or the swap. *)
Definition main_step (fuel : nat) (dim : Z) (dump_path : string) (s : Replica) : res Replica :=
  match loader s with
  | Sleeping =>
    let standby_idx := 1 - g_active_idx s in
    let! '(rc, imp, st) := graveldb_ckpt_import_begin dim dump_path (db_at s standby_idx) in
    Ret (set_loader (set_db s standby_idx st) (match imp with Some imp => Loading standby_idx imp | None => Loaded standby_idx rc end))
  | Loading standby_idx imp =>
    let! '(rc, imp, st) := graveldb_ckpt_import_step imp (db_at s standby_idx) in
    let s := set_db s standby_idx st in
    if bool_decide (rc = GRAVELDB_AGAIN) then let! imp := import_polls fuel imp in Ret (set_loader s (Loading standby_idx imp))
    else Ret (set_loader s (Loaded standby_idx (if bool_decide (rc = GRAVELDB_OK) then fst (graveldb_ckpt_import_end imp) else rc)))
  | Loaded standby_idx rc =>
    if bool_decide (rc = GRAVELDB_OK) then Ret (mkReplica (g_db0 s) (g_db1 s) (r_sys s) standby_idx Reloaded (readers s))
    else Ret (set_loader s Reloaded)
  | Reloaded => Ret s
  end.

(** A step of a reader: it loads the index, or reads a feature from the database of the index
    that it has. *)
Definition reader_step (i : nat) (feat_id : Z) (s : Replica) : res Replica :=
  match readers s !! i with
  | Some (None, r) => Ret (set_reader s i (Some (g_active_idx s), r))
  | Some (Some idx, r) =>
    let! '(r, st) := reader_round feat_id r (db_at s idx) in
    Ret (set_reader (set_db s idx st) i (None, r))
  | None => Ret s
  end.

(** An interleaving of the threads, in which [main] takes [k] steps. *)
Inductive replica_run (fuel : nat) (dim : Z) (dump_path : string) : nat -> Replica -> Replica -> Prop :=
| run_none s : replica_run fuel dim dump_path 0 s s
| run_main k s s1 s' : main_step fuel dim dump_path s = Ret s1 -> replica_run fuel dim dump_path k s1 s' -> replica_run fuel dim dump_path (S k) s s'
| run_reader k s i feat_id s1 s' : reader_step i feat_id s = Ret s1 -> replica_run fuel dim dump_path k s1 s' -> replica_run fuel dim dump_path k s s'.
End program.

(** ** Loading a dump adds its entries *)

(** A dump with the header [h] and the entries [es]. *)
Definition dump_of (h : CkptExportHdr) (es : list (Z * list Z)) : list Z :=
  (export_hdr_image h ++ concat (entry_image <$> es) ++ trailer_image (zlen es))%list.

(** The header of a dump for a dimension whose entries have [esz] bytes. *)
Record header_for (h : CkptExportHdr) (d esz : Z) : Prop := {
  hf_ok : ckpt_export_hdr_ok h;
  hf_magic : ch_magic h = GRAVELDB_CKPT_EXPORT_MAGIC;
  hf_version : ch_version h = 1;
  hf_dim : i32 (ch_dim h) = d;
  hf_esz : ch_entry_size h = esz
}.

(** What a database answers, and what it is ready for: all dimensions but [d]. *)
Definition stores_but {P : Type} `{!ObjectPool P} (R : gmap Z Z) (st : DbSt P) (c : gmap Z (Z * list Z)) (n d : Z) : Prop :=
  exists m, put_db R st m n (fun x => x <> d) /\ forall fid, feature st m fid = c !! fid.

Section load.
Context {P : Type} `{!ObjectPool P} {host : WireHost} {host_ok : WireHostOk host}.
Implicit Types (st : DbSt P) (b : DimBin P).
Variables (R : gmap Z Z) (d di addr dfd : Z).
Variables (t suf : list Z).
Hypothesis Ht : zlen t = 8.
Hypothesis Hmagic : wire_get_u32 t 0 = Ret GRAVELDB_CKPT_EXPORT_MAGIC.

#[local] Abbreviation idb := (import_db R (fun _ => True) d di addr).

Lemma import_polls_ctx imp b fuel : import_ctx addr dfd imp b -> exists imp', import_polls (S fuel) imp = Ret imp' /\ import_ctx addr dfd imp' b /\
  im_done imp' = im_done imp /\ im_pos imp' = im_pos imp /\ header_read imp' = header_read imp.
Proof.
  intros [C1 C2 C3 C4 C5 C6]. cbn [import_polls]. unfold graveldb_ckpt_import_poll, uring_io_poll. destruct (pending_writes imp =? 0); [by exists imp|].
  rewrite C4. cbn [negb]. change (0 <? 0) with false. cbv iota. cbn [errors im_io]. rewrite C5. change (0 <? 0) with false. cbv iota.
  change (bool_decide (GRAVELDB_OK = GRAVELDB_AGAIN)) with false. cbv iota. eexists. split; [done|]. by split.
Qed.

(** The steps until the end of the dump. *)
Lemma import_steps_spec : forall fuel (es : list (Z * list Z)) st m n b imp, (Z.of_nat (length es) < 256 * Z.of_nat fuel) ->
  idb st m (zlen es + n) b -> 0 <= n -> import_ctx addr dfd imp b -> header_read imp = true -> im_done imp = false -> dump_rest dfd t suf st imp es -> Forall (importable (entry_size b)) es ->
  exists imp' st' m' b', import_steps fuel imp st = Ret (GRAVELDB_OK, imp', st') /\ idb st' m' n b' /\ import_kept addr st st' b b' /\
    forall fid, feature st' m' fid = put_features (entry_req d <$> es) (feature st m) fid.
Proof.
  induction fuel as [|fuel IH]; intros es st m n b imp Hfu Hi Hn Hc Hh Hd Hdr Hes; [lia|].
  destruct (import_step_spec R (fun _ => True) d di addr dfd t suf Ht Hmagic st m n b imp es Hi Hn Hc Hh Hd Hdr Hes) as (imp1 & st1 & m1 & b1 & E1 & Hi1 & K1 & Hc1 & Hd1 & Hr1 & Hh1 & F1).
  set (k := Z.to_nat CKPT_IMPORT_BATCH) in *. assert (k = 256%nat) as Hk by done. cbn [import_steps]. rewrite (bindM_ret _ _ _ _ _ E1).
  destruct (decide (length es < k)%nat) as [Hlt|Hge].
  - rewrite bool_decide_eq_true_2 in Hd1 by done. rewrite Hd1. change (bool_decide (GRAVELDB_OK = GRAVELDB_AGAIN)) with false. cbv iota.
    rewrite drop_ge in Hi1 by lia. rewrite take_ge in F1 by lia. exists imp1, st1, m1, b1. done.
  - rewrite bool_decide_eq_false_2 in Hd1 by done. rewrite Hd1. change (bool_decide (GRAVELDB_AGAIN = GRAVELDB_AGAIN)) with true. cbv iota.
    destruct fuel as [|fuel]; [lia|]. destruct (import_polls_ctx imp1 b1 fuel Hc1) as (imp2 & E2 & Hc2 & Hd2 & Hp2 & Hh2).
    unfold bindM at 1. unfold lift at 1. rewrite E2. cbn [res_bind fst snd]. destruct (Hr1 Hd1) as (pre & Hf & Hpos).
    destruct (IH (drop k es) st1 m1 n b1 imp2) as (imp' & st' & m' & b' & E3 & Hi3 & K3 & F3); try done; [rewrite length_drop; lia|congruence|congruence|exists pre; by rewrite Hp2| |].
    { destruct (ik_same _ _ _ _ _ K1) as (_ & _ & _ & -> & _). by apply Forall_drop. }
    exists imp', st', m', b'. split; [exact E3|]. split; [done|]. split; [by eapply import_kept_trans|]. intros fid. rewrite F3.
    replace (entry_req d <$> es) with ((entry_req d <$> take k es) ++ (entry_req d <$> drop k es))%list by (by rewrite <- fmap_app, take_drop).
    rewrite put_features_app. by apply put_features_ext.
Qed.

(** The import begins. *)
Lemma import_begin_spec st m n b path : idb st m n b -> 0 <= n -> names (gsys st) !! path = Some dfd -> 0 <= dfd ->
  exists st1, graveldb_ckpt_import_begin d path st = Ret (GRAVELDB_OK, Some (mkImport addr dfd 0 false false (u32 d) (u32 (entry_size b)) 0 (snd uring_io_init) 0), st1) /\
    idb st1 m n b /\ import_kept addr st st1 b b /\ gsys st1 = gsys st /\ forall fid, feature st1 m fid = feature st m fid.
Proof.
  intros Hi Hn Hnm Hdfd. pose proof Hi as [Hdb Hbo (sl & f & Hr) Hun Hus]. destruct (import_find R d di addr st m n _ b Hdb Hbo) as (reg & Ef & Hreg & Hu & Hdi0).
  set (st1 := mkDbSt (set_reg (gdb st) reg) (gsys st)). exists st1. pose proof (pd_quiet _ _ _ _ _ Hdb) as Hq. destruct Hbo as [B1 B2 B3 B4] eqn:Hbo'.
  assert (import_kept addr st st1 b b) as K by (by split).
  destruct (import_effect R (fun _ => True) d di addr st m st1 m b b n [] Hi Hn K (pd_index _ _ _ _ _ Hdb)) as [Hi' He].
  - by exists sl, f.
  - exact Hus.
  - intros f1 f2 e. apply (pd_inj _ _ _ _ _ Hdb).
  - done.
  - auto.
  - by intros r ?%elem_of_nil.
  - done.
  - split; [|split; [done|split; [done|split; [done|intros fid; exact (effect_feature R st m _ n _ st1 m d di addr b b [] fid Hdb Hbo He ltac:(by intros r ?%elem_of_nil))]]]].
    unfold graveldb_ckpt_import_begin, get_db, gets. unfold bindM at 1. cbn [res_bind fst snd]. rewrite Ef. unfold bindM at 1. cbn [lift res_bind fst snd].
    unfold upd_db, modify. unfold bindM at 1. cbn [res_bind fst snd]. rewrite (proj2 (Z.ltb_ge _ _)) by lia. rewrite Hu. fold st1.
    assert (bin_addr di st1 = Ret (addr, st1)) as E1 by (unfold bin_addr, get_db, gets, bindM; cbn [res_bind fst snd]; rewrite (proj2 Hreg), B2; done).
    assert (get_bin_at addr st1 = Ret (b, st1)) as E2 by (unfold get_bin_at, get_db, gets, bindM; simpl; by rewrite B3).
    assert (on_sys sys_ok st1 = Ret (true, st1)) as E3 by (unfold on_sys; rewrite sys_ok_quiet by done; by destruct st).
    assert (on_sys (open_path false false path) st1 = Ret (dfd, st1)) as E4 by (unfold on_sys; rewrite (open_quiet _ _ dfd) by done; done).
    rewrite (bindM_ret _ _ _ _ _ E1), (bindM_ret _ _ _ _ _ E2), (bindM_ret _ _ _ _ _ E3). cbn [negb]. rewrite (bindM_ret _ _ _ _ _ E4). rewrite (proj2 (Z.ltb_ge _ _)) by lia.
    by rewrite (bindM_ret _ _ _ _ _ E3).
Qed.

Lemma load_dump_spec fuel st m n b path h (es : list (Z * list Z)) :
  idb st m (zlen es + n) b -> 0 <= n -> names (gsys st) !! path = Some dfd -> 0 <= dfd -> dfd <> fd b -> dfd <> key_fd b ->
  files (gsys st) !! dfd = Some (export_hdr_image h ++ concat (entry_image <$> es) ++ t ++ suf)%list -> header_for h d (entry_size b) -> entry_size b < 2 ^ 32 ->
  Forall (importable (entry_size b)) es -> Z.of_nat (length es) < 256 * Z.of_nat fuel ->
  exists st' m' b', load_dump fuel d path st = Ret (GRAVELDB_OK, st') /\ idb st' m' n b' /\ import_kept addr st st' b b' /\
    forall fid, feature st' m' fid = put_features (entry_req d <$> es) (feature st m) fid.
Proof.
  intros Hi Hn Hnm Hd0 Hd1 Hd2 Hf [Hok Hmg Hv Hdim Hes] Hsz Hall Hfu. pose proof (zlen_nonneg es).
  destruct (import_begin_spec st m (zlen es + n) b path Hi ltac:(lia) Hnm Hd0) as (st1 & E1 & Hi1 & K1 & Ey & F1). set (imp := mkImport _ _ _ _ _ _ _ _ _ _) in E1.
  assert (0 < entry_size b) as Hpos by (destruct (id_ready _ _ _ _ _ _ _ _ _ Hi) as (sl & f & Hr); exact (ps_esz _ _ _ _ _ (br_put _ _ _ _ _ _ _ Hr))).
  unfold load_dump. rewrite (bindM_ret _ _ _ _ _ E1). set (imp1 := im_header imp WIRE_CKPT_EXPORT_HDR_SIZE (ch_generation h)).
  assert (import_steps fuel imp st1 = import_steps fuel imp1 st1) as E2.
  { destruct fuel as [|fuel]; [lia|]. cbn [import_steps]. unfold bindM at 1 3.
    rewrite (import_header_spec addr dfd st1 b imp h (concat (entry_image <$> es) ++ t ++ suf)%list); try done; rewrite ?Ey; try done;
      [apply (pd_quiet _ _ _ _ _ (id_db _ _ _ _ _ _ _ _ _ Hi))|apply (bo_bin _ _ _ _ _ _ (id_bin _ _ _ _ _ _ _ _ _ Hi1))|by rewrite Hdim, (bo_dim _ _ _ _ _ _ (id_bin _ _ _ _ _ _ _ _ _ Hi))|by rewrite u32_id by lia]. }
  destruct (import_steps_spec fuel es st1 m n b imp1 Hfu Hi1 Hn) as (imp' & st' & m' & b' & E3 & Hi3 & K3 & F3); try done.
  { split; try done. simpl. apply u32_id. lia. }
  { exists (export_hdr_image h). rewrite Ey. done. }
  exists st', m', b'. rewrite (bindM_ret _ _ _ _ _ (eq_trans E2 E3)). split; [done|]. split; [done|]. split; [by eapply import_kept_trans|]. intros fid. rewrite F3. by apply put_features_ext.
Qed.
End load.

Section roundtrip.
Context {P : Type} `{!ObjectPool P}.
Implicit Types (st : DbSt P) (b : DimBin P).

(** Every get answers from the map [c]. *)
Definition reads_as st (c : gmap Z (Z * list Z)) : Prop :=
  forall junk fids out, (forall k, 0 <= k -> zlen (junk k) = k) -> call_ok ∅ c (OpGet fids out) ->
    exists st', st ≡ st' /\ run_op junk (OpGet fids out) st = Ret (map_result (OpGet fids out) c, st').

Lemma read_db_reads st m c : read_db st m -> (forall fid, feature st m fid = c !! fid) -> reads_as st c.
Proof.
  intros Hdb Hf junk fids [embs dims] Hj (Hl & Hd & Hr). destruct (batch_get_spec junk st m fids embs dims Hj Hdb Hl Hd) as (st' & Hs & E1).
  { eapply Forall2_impl; [exact Hr|]. intros fid buf H. unfold room. by rewrite Hf. }
  exists st'. split; [done|]. cbn [run_op map_result]. rewrite (bindM_ret _ _ _ _ _ E1). unfold ret. do 5 f_equal.
  - apply zip_with_ext; [|done|done]. intros fid buf. unfold answer, map_buffer. by rewrite Hf.
  - destruct dims as [l|]; [|done]. simpl. f_equal. apply list_fmap_ext. intros i fid _. unfold dim_answer. by rewrite Hf.
Qed.

Lemma stores_but_reads R st c n d : stores_but R st c n d -> reads_as st c.
Proof. intros (m & Hdb & Hf). eapply read_db_reads; [by eapply put_db_read|done]. Qed.

(** A database that stores a map takes an import when none of its pages is buffered. *)
Lemma stores_import R E st c n d esz : stores R E st c n -> E !! d = Some esz -> 0 <= esz -> (forall di a b, bin_of R st d di a b -> unbuffered b) ->
  exists m di addr b, import_db R (fun _ => True) d di addr st m n b /\ entry_size b = esz /\ forall fid, feature st m fid = c !! fid.
Proof.
  intros (m & Hdb & _ & Hsz & Hf) HE He Hu. destruct (Hsz d (replicate (Z.to_nat esz) 0)) as (di & addr & b & Hbo & Hz); [rewrite HE, zlen_replicate; f_equal; lia|].
  rewrite zlen_replicate in Hz. exists m, di, addr, b. split; [|split; [lia|done]].
  destruct (pd_ready _ _ _ _ _ Hdb d di addr b Hbo I) as (sl & f & Hr & Hus). split; try done.
  - eapply put_db_weaken; [|exact Hdb]. done.
  - exists sl, f. eapply (bin_ready_others _ _ _ _ all_pages); [| |done|exact Hr]; done.
  - by eapply Hu.
Qed.

Context {host : WireHost} {host_ok : WireHostOk host}.

(** A dump is loaded. The database stores [c], and no page of the dimension's bin is buffered. *)
Theorem load_dump_correct R E st c n d esz path dfd h (es : list (Z * list Z)) fuel
  (Hst : stores R E st c (zlen es + n))
  (Hn : 0 <= n)
  (HE : E !! d = Some esz)
  (Hbin : forall di a b, bin_of R st d di a b -> unbuffered b /\ dfd <> fd b /\ dfd <> key_fd b)
  (Hname : names (gsys st) !! path = Some dfd)
  (Hdfd : 0 <= dfd)
  (Hfile : files (gsys st) !! dfd = Some (dump_of h es))
  (Hh : header_for h d esz)
  (Hes : Forall (importable esz) es)
  (Hfuel : zlen es < 256 * Z.of_nat fuel) :
  exists st', load_dump fuel d path st = Ret (GRAVELDB_OK, st') /\ stores_but R st' (map_op (OpPut (entry_req d <$> es)) c) n d.
Proof.
  assert (0 <= esz < 2 ^ 32) as Hesz. { rewrite <- (hf_esz _ _ _ Hh). destruct (hf_ok _ _ _ Hh) as (_ & _ & _ & _ & _ & H & _). exact H. }
  destruct (stores_import R E st c _ d esz Hst HE ltac:(lia)) as (m & di & addr & b & Hi & Eb & Hf); [intros di a b Hb; by apply (Hbin di a b)|].
  destruct (Hbin di addr b (id_bin _ _ _ _ _ _ _ _ _ Hi)) as (_ & Hd1 & Hd2). subst esz.
  destruct (load_dump_spec R d di addr dfd (take 8 (trailer_image (zlen es))) (drop 8 (trailer_image (zlen es))) ltac:(done)
    ltac:(rewrite get_u32_ok; [done|vm_compute; intuition congruence|]; apply Forall_take; unfold trailer_image; apply Forall_app; auto using le_split_bytes)
    fuel st m n b path h es Hi Hn Hname Hdfd Hd1 Hd2) as (st' & m' & b' & E1 & Hi' & _ & F); try done; try lia; try (by rewrite take_drop).
  exists st'. split; [done|]. exists m'. split; [eapply put_db_weaken; [|apply Hi']; done|]. intros fid. rewrite F, <- put_features_map. by apply put_features_ext.
Qed.
End roundtrip.

(** ** From a database to another *)

Lemma bin_dump_entries {P : Type} {pool : ObjectPool P} (b : DimBin P) kf f base : bin_dump b kf f base = dump_of (dump_header b (generation (dirty b)) base) (bin_entries b kf f).
Proof.
  unfold bin_dump, dump_image, dump_of, bin_entries. rewrite <- list_fmap_compose. do 2 f_equal. f_equal. unfold zlen. by rewrite length_fmap.
Qed.

Lemma bin_entries_importable {P : Type} {pool : ObjectPool P} (d : GravelDB P) y dim base batch dir addr b kf f : export_ready d y dim batch dir addr b kf f -> dump_fits b kf base ->
  (forall o, o ∈ bin_ops b kf -> u32 (op_feat_id o) <> GRAVELDB_CKPT_EXPORT_MAGIC) -> Forall (importable (entry_size b)) (bin_entries b kf f).
Proof.
  intros Her Hdf Hnm. apply Forall_fmap, Forall_forall. intros o Ho. destruct (bin_ops_parsable d y dim base batch dir addr b kf f Her Hdf Hnm o Ho) as [(H1 & H2 & H3) H4].
  split; [cbn; lia|]. by split.
Qed.

(** C16: export and import. A first database at rest answers every get from the map [c1], and its bin
    of the dimension [d] was flushed: its keys are in the key file, its pages are in the data file,
    and its pages have no slack. A full export of the bin, on a host of any byte order, ends, and the
    dump that it left is loaded, on another host, into a second database that stores the map [c]: the
    load returns OK, and the second database then stores [c] updated with the features of the dimension
    in [c1], which may be new, stored with this dimension or with another one, so that every get
    answers from it.
    All calls to the system succeed on both sides, and the dump does not replace a file of the first
    database. The second database is at rest with the conditions of [stores] (EngineMap.v: no checkpoint,
    a settled index, pages without slack that are buffered, committed or zero), has the dimension, with entries of the same size, and room for the entries of the
    dump in its index and its pools, none of the pages of its bin of the dimension is in the write
    buffer, and the dump is not a file of this bin. No feature id of the dimension has the magic
    number of the trailer as its low half. *)
Theorem export_import_roundtrip {P : Type} {pool : ObjectPool P} (hw hr : WireHost) (fresh : Z -> list Z) (R1 : gmap Z Z) (st1 : DbSt P) c1 d di addr b kf f base batch dir
  (Hw : WireHostOk hw)
  (Hr : WireHostOk hr)
  (Hfr : forall k, 0 <= k -> zlen (fresh k) = k)
  (Hfm : flushed_map R1 st1 c1 d di addr b kf)
  (Her : export_ready (gdb st1) (gsys st1) d batch dir addr b kf f)
  (Hdf : dump_fits b kf base)
  (Hd : 0 <= d < 2 ^ 31)
  (Hmagic : forall fid x, c1 !! fid = Some (d, x) -> u32 fid <> GRAVELDB_CKPT_EXPORT_MAGIC) :
  let k := Z.of_nat (size (of_dim d c1)) in
  exists x1 d1 y1 x2 y2 x3 y3, @graveldb_ckpt_export_begin P fresh GRAVELDB_CKPT_FULL d base batch 0 st1 = Ret (GRAVELDB_OK, Some x1, mkDbSt d1 y1) /\
    (exists fuel, @run_steps P hw fuel x1 (mkDbSt d1 y1) = Ret (GRAVELDB_OK, x2, mkDbSt d1 y2)) /\
    @graveldb_ckpt_export_end hw x2 y2 = Ret (GRAVELDB_OK, x3, y3) /\ is_Some (content y3 (graveldb_ckpt_export_path x3)) /\
    forall R E (st : DbSt P) c n path dfd fuel, stores R E st c (k + n) -> 0 <= n -> E !! d = Some (entry_size b) ->
      names (gsys st) !! path = Some dfd -> 0 <= dfd -> content (gsys st) path = content y3 (graveldb_ckpt_export_path x3) ->
      (forall di' a b', bin_of R st d di' a b' -> unbuffered b' /\ dfd <> fd b' /\ dfd <> key_fd b') -> k < 256 * Z.of_nat fuel ->
      exists st', @load_dump P hr fuel d path st = Ret (GRAVELDB_OK, st') /\ stores_but R st' (of_dim d c1 ∪ c) n d /\ reads_as st' (of_dim d c1 ∪ c).
Proof.
  intros k. destruct (bin_entries_map R1 st1 c1 d di addr b kf f batch dir Hfm Her) as [Hnd Hin]. pose proof (bo_dim _ _ _ _ _ _ (fm_bin _ _ _ _ _ _ _ _ Hfm)) as Eb.
  assert (zlen (bin_entries b kf f) = k) as Hk.
  { unfold zlen, k. f_equal. pose proof (bin_entries_perm R1 st1 c1 d di addr b kf f batch dir Hfm Her) as Hp. apply Permutation_length in Hp. by rewrite length_fmap, length_map_to_list in Hp. }
  pose proof (er_esz _ _ _ _ _ _ _ _ _ Her) as He0. pose proof (df_esz _ _ _ Hdf) as He. destruct st1 as [gd gy]. cbn [gdb gsys] in Her.
  destruct (export_spec (host := hw) fresh Hfr gd gy d base batch dir addr b kf f Her) as (x1 & d1 & y1 & x2 & y2 & x3 & y3 & H1 & H2 & H3 & H4 & H5 & H6 & H7 & H8).
  exists x1, d1, y1, x2, y2, x3, y3. split; [exact H1|]. split; [eexists; apply (H2 (Z.to_nat (4 * (bump_ptr b / batch_size batch + 1)))); lia|]. split; [exact H3|]. split; [rewrite H4, H6; by eexists|].
  intros R E st c n path dfd fuel Hst Hn HE Hname Hdfd Hc Hbin Hfu. rewrite H4, H6, bin_dump_entries in Hc. unfold content in Hc. rewrite Hname in Hc. cbn [mbind option_bind] in Hc.
  rewrite <- Hk in Hst, Hfu. rewrite <- (put_entries_map (bin_entries b kf f) d c1 c Hnd Hin).
  destruct (load_dump_correct R E st c n d (entry_size b) path dfd (dump_header b (generation (dirty b)) base) (bin_entries b kf f) fuel) as (st' & E1 & Hst'); try done.
  - split; [by eapply dump_header_ok|done|done| |].
    + cbn. rewrite Eb, u32_id by lia. unfold i32. rewrite Z.mod_small by lia. lia.
    + cbn. apply u32_id. lia.
  - eapply bin_entries_importable; [done|done|]. intros o Ho. apply (Hmagic _ (embs (entry_size b) f (op_entry_idx o) 1)), Hin. apply list_elem_of_fmap. by exists o.
  - exists st'. split; [exact E1|]. split; [done|]. by eapply stores_but_reads.
Qed.

(** ** Readers beside a load *)

Section readers.
Context {P : Type} `{!ObjectPool P} {host : WireHost} {host_ok : WireHostOk host}.
Implicit Types (st : DbSt P) (b : DimBin P) (s : @Replica P).
Variable junk : Z -> list Z.
Hypothesis Hjunk : forall k, 0 <= k -> zlen (junk k) = k.

(** A database that answers from the map [c]. *)
Definition serves (R : gmap Z Z) st (c : gmap Z (Z * list Z)) : Prop := exists m, put_db R st m 0 (fun _ => False) /\ forall fid, feature st m fid = c !! fid.

Lemma serves_weaken R st m n (D : Z -> Prop) c : put_db R st m n D -> 0 <= n -> (forall fid, feature st m fid = c !! fid) -> serves R st c.
Proof. intros [(? & ? & ? & ?) ? ? ? ? ? ? ?] Hn Hf. exists m. split; [|done]. split; try done. split; [done|]. split; [done|]. lia. Qed.

Lemma serves_reads R st c : serves R st c -> reads_as st c.
Proof. intros (m & Hdb & Hf). eapply read_db_reads; [by eapply put_db_read|done]. Qed.

Lemma serves_same R st st' c : st ≡ st' -> serves R st c -> serves R st' c.
Proof. intros Hs (m & Hdb & Hf). exists m. split; [by eapply put_db_same|]. intros fid. rewrite <- Hf. symmetry. by apply feature_proper. Qed.

(** A round of a reader: the database answers as before, in the same system, and there is no hit. *)
Lemma reader_round_spec R st c fid r : serves R st c ->
  exists st', reader_round junk fid r st = Ret (mkReaderSt (u64 (reads r + 1)) (hits r), st') /\ st ≡ st'.
Proof.
  intros Hs. destruct (serves_reads R st c Hs junk [fid] (mkGetOut [None] (Some [0])) Hjunk) as (st' & Hst & E).
  { split; [done|]. split; [done|]. by repeat constructor. }
  exists st'. split; [|done]. unfold reader_round. cbn [run_op map_result] in E. unfold bindM, ret in E |- *.
  destruct (graveldb_batch_get junk [fid] (mkGetOut [None] (Some [0])) st) as [[[rc o] st1]| |]; [|done..]. cbn [res_bind fst snd] in E |- *. injection E as -> -> ->. done.
Qed.

Variables (R0 R1 : gmap Z Z) (c0 c1 : gmap Z (Z * list Z)) (n d di addr dfd : Z) (path : string) (h : CkptExportHdr) (esz : Z) (es : list (Z * list Z)).
Hypothesis Hn : 0 <= n.
Hypothesis Hdfd : 0 <= dfd.
Hypothesis Hesz : 0 <= esz < 2 ^ 32.
Hypothesis Hh : header_for h d esz.
Hypothesis Hes : Forall (importable esz) es.

Let t : list Z := take 8 (trailer_image (zlen es)).
Let suf : list Z := drop 8 (trailer_image (zlen es)).
#[local] Abbreviation idb := (import_db R1 (fun _ => True) d di addr).

(** What the second database answers when the dump was loaded. *)
Definition reloaded : gmap Z (Z * list Z) := map_op (OpPut (entry_req d <$> es)) c1.

(** The files of the first database are not those of the bin that the dump is loaded into. *)
Definition apart (d0 : GravelDB P) b : Prop :=
  forall a b0, bin_heap d0 !! a = Some b0 -> fd b0 <> fd b /\ fd b0 <> key_fd b /\ key_fd b0 <> fd b /\ key_fd b0 <> key_fd b.

(** An import in progress: [rest] is still to be read. *)
Record in_load st (imp : GravelDBCkptImport) b (rest : list (Z * list Z)) : Prop := {
  il_db : exists m got, es = (got ++ rest)%list /\ idb st m (zlen rest + n) b /\ forall fid, feature st m fid = put_features (entry_req d <$> got) (fun k => c1 !! k) fid;
  il_ctx : import_ctx addr dfd imp b;
  il_esz : entry_size b = esz;
  il_open : im_done imp = false;
  il_pos : header_read imp = true /\ dump_rest dfd t suf st imp rest \/
           header_read imp = false /\ im_pos imp = 0 /\ rest = es /\ files (gsys st) !! dfd = Some (dump_of h es)
}.

(** The steps that [main] takes for the entries of [rest]: one per batch, one for the trailer and the swap. *)
Definition steps_for (rest : list (Z * list Z)) : nat := (length rest / Z.to_nat CKPT_IMPORT_BATCH + 2)%nat.

(** The state of the replica when [k] steps of [main] are left until the swap. *)
Record rep_inv (k : nat) s : Prop := {
  ri_first : serves R0 (db_at s 0) c0;
  ri_load : match loader s with
            | Sleeping => k = S (steps_for es) /\ g_active_idx s = 0 /\ exists m b, idb (db_at s 1) m (zlen es + n) b /\ entry_size b = esz /\ (forall fid, feature (db_at s 1) m fid = c1 !! fid) /\
                names (r_sys s) !! path = Some dfd /\ files (r_sys s) !! dfd = Some (dump_of h es) /\ dfd <> fd b /\ dfd <> key_fd b /\ apart (g_db0 s) b
            | Loading i imp => i = 1 /\ g_active_idx s = 0 /\ exists b rest, k = steps_for rest /\ in_load (db_at s 1) imp b rest /\ apart (g_db0 s) b
            | Loaded i rc => k = 1%nat /\ i = 1 /\ rc = GRAVELDB_OK /\ g_active_idx s = 0 /\ serves R1 (db_at s 1) reloaded
            | Reloaded => k = 0%nat /\ g_active_idx s = 1 /\ serves R1 (db_at s 1) reloaded
            end;
  ri_readers : forall i idx r, readers s !! i = Some (Some idx, r) -> idx = 0 \/ idx = 1 /\ loader s = Reloaded;
  ri_hits : forall i o r, readers s !! i = Some (o, r) -> hits r = 0
}.

Lemma trailer_ok : zlen t = 8 /\ wire_get_u32 t 0 = Ret GRAVELDB_CKPT_EXPORT_MAGIC.
Proof. split; [done|]. rewrite get_u32_ok; [done|vm_compute; intuition congruence|]. apply Forall_take. unfold trailer_image. apply Forall_app. auto using le_split_bytes. Qed.

Lemma put_features_all (l : list (Z * list Z)) fid : put_features (entry_req d <$> l) (fun k => c1 !! k) fid = map_op (OpPut (entry_req d <$> l)) c1 !! fid.
Proof. apply put_features_map. Qed.

(** A step of the import. *)
Lemma in_load_step st imp b rest : in_load st imp b rest ->
  exists imp' st' b', graveldb_ckpt_import_step imp st = Ret (if im_done imp' then GRAVELDB_OK else GRAVELDB_AGAIN, imp', st') /\ import_kept addr st st' b b' /\ answers (gsys st') = [] /\
    (im_done imp' = true -> (length rest < Z.to_nat CKPT_IMPORT_BATCH)%nat /\ serves R1 st' reloaded) /\
    (im_done imp' = false -> (Z.to_nat CKPT_IMPORT_BATCH <= length rest)%nat /\ forall fuel, exists imp2, import_polls (S fuel) imp' = Ret imp2 /\ in_load st' imp2 b' (drop (Z.to_nat CKPT_IMPORT_BATCH) rest)).
Proof.
  intros [(m & got & Eg & Hi & Hf) Hc Hez Hd Hpos]. destruct trailer_ok as [Ht Hmg]. pose proof Hh as [H1 H2 H3 H4 H5]. pose proof Hc as [C1 C2 C3 C4 C5 C6]. set (k := Z.to_nat CKPT_IMPORT_BATCH).
  assert (exists imp1, graveldb_ckpt_import_step imp st = graveldb_ckpt_import_step imp1 st /\ import_ctx addr dfd imp1 b /\ header_read imp1 = true /\ im_done imp1 = false /\ dump_rest dfd t suf st imp1 rest)
    as (imp1 & E0 & Hc1 & Hh1 & Hd1 & Hr1).
  { destruct Hpos as [[Hh1 Hr]|(Hh1 & Hp & -> & Hfl)]; [by exists imp|]. exists (im_header imp WIRE_CKPT_EXPORT_HDR_SIZE (ch_generation h)). split; [|split; [by split|split; [done|split; [done|]]]].
    - eapply (import_header_spec addr dfd st b imp h); try done; [apply (id_db _ _ _ _ _ _ _ _ _ Hi)|apply (id_bin _ _ _ _ _ _ _ _ _ Hi)|by rewrite H4, (bo_dim _ _ _ _ _ _ (id_bin _ _ _ _ _ _ _ _ _ Hi))|rewrite Hez, u32_id by lia; done].
    - exists (export_hdr_image h). split; [|done]. rewrite Hfl. unfold dump_of, t, suf. by rewrite take_drop. }
  assert (Forall (importable (entry_size b)) rest) as Hrest by (rewrite Hez; rewrite Eg in Hes; by apply Forall_app in Hes as [_ ?]).
  destruct (import_step_spec R1 (fun _ => True) d di addr dfd t suf Ht Hmg st m n b imp1 rest Hi Hn Hc1 Hh1 Hd1 Hr1 Hrest) as (imp' & st' & m' & b' & E1 & Hi' & K & Hc' & Hd' & Hr' & Hh' & F).
  fold k in Hi', Hd', Hr', F. exists imp', st', b'. split; [by rewrite E0|]. split; [done|]. split; [apply (id_db _ _ _ _ _ _ _ _ _ Hi')|].
  assert (forall fid, feature st' m' fid = put_features (entry_req d <$> (got ++ take k rest)%list) (fun k => c1 !! k) fid) as F'.
  { intros fid. rewrite F, fmap_app, put_features_app. by apply put_features_ext. }
  split; intros Hdn; rewrite Hdn in Hd'; symmetry in Hd'.
  - apply bool_decide_eq_true_1 in Hd'. split; [done|]. rewrite take_ge in F' by lia. rewrite <- Eg in F'. eapply serves_weaken; [apply Hi'|pose proof (zlen_nonneg (drop k rest)); lia|].
    intros fid. rewrite F'. apply put_features_all.
  - apply bool_decide_eq_false_1 in Hd'. split; [lia|]. intros fuel. destruct (import_polls_ctx addr dfd imp' b' fuel Hc') as (imp2 & E2 & Hc2 & Hd2 & Hp2 & Hh2). exists imp2. split; [done|]. split; try done.
    + exists m', (got ++ take k rest)%list. split; [by rewrite <- app_assoc, take_drop|done].
    + destruct (ik_same _ _ _ _ _ K) as (_ & _ & _ & -> & _). done.
    + congruence.
    + left. split; [congruence|]. destruct (Hr' Hdn) as (pre & ? & ?). exists pre. by rewrite Hp2.
Qed.

(** The first database is not disturbed. *)
Lemma first_kept d0 y st' b b' st : serves R0 (mkDbSt d0 y) c0 -> gsys st = y -> apart d0 b -> import_kept addr st st' b b' -> answers (gsys st') = [] ->
  serves R0 (mkDbSt d0 (gsys st')) c0 /\ apart d0 b'.
Proof.
  intros (m & Hdb & Hf) <- Ha K Hq. split.
  - destruct (put_db_beside R0 (mkDbSt d0 (gsys st)) (gsys st') m 0 (fun _ => False) Hdb Hq) as [Hdb' Hf'].
    { intros a b0 Hb0. destruct (Ha a b0 Hb0) as (A1 & A2 & A3 & A4). pose proof (pd_quiet _ _ _ _ _ Hdb) as Hq0. split; cbn [gsys] in *; rewrite ?(ik_bufs _ _ _ _ _ K); try done.
      - by apply (ik_files _ _ _ _ _ K).
      - by rewrite (ik_files _ _ _ _ _ K).
      - by rewrite Hq, Hq0. }
    exists m. split; [done|]. intros fid. rewrite <- Hf. apply Hf'.
  - destruct (ik_same _ _ _ _ _ K) as (S1 & S2 & _). intros a b0 Hb0. rewrite S1, S2. by apply (Ha a).
Qed.

Lemma steps_for_last (rest : list (Z * list Z)) : (length rest < Z.to_nat CKPT_IMPORT_BATCH)%nat -> steps_for rest = 2%nat.
Proof. intros Hl. unfold steps_for. by rewrite Nat.div_small. Qed.

Lemma steps_for_more (rest : list (Z * list Z)) : (Z.to_nat CKPT_IMPORT_BATCH <= length rest)%nat -> steps_for rest = S (steps_for (drop (Z.to_nat CKPT_IMPORT_BATCH) rest)).
Proof.
  intros Hl. unfold steps_for. rewrite length_drop. set (q := Z.to_nat CKPT_IMPORT_BATCH) in *. assert (q <> 0)%nat as Hq by done.
  replace (length rest) with (length rest - q + 1 * q)%nat at 1 by lia. rewrite Nat.div_add by done. lia.
Qed.

Lemma main_step_inv fuel k s : rep_inv k s -> exists s', main_step (S fuel) d path s = Ret s' /\ rep_inv (pred k) s'.
Proof.
  intros [H0 Hl Hr Hz]. unfold main_step. destruct (loader s) as [|i imp|i rc|] eqn:El.
  - destruct Hl as (-> & Ha & m & b & Hi & Hez & Hf & Hnm & Hfl & Hd1 & Hd2 & Hap). rewrite Ha. change (1 - 0) with 1. pose proof (zlen_nonneg es).
    destruct (import_begin_spec R1 d di addr dfd (db_at s 1) m (zlen es + n) b path Hi ltac:(lia) Hnm Hdfd) as (st1 & E1 & Hi1 & K1 & Ey & F1).
    rewrite E1. cbn [res_bind]. eexists. split; [done|].
    destruct (first_kept (g_db0 s) (r_sys s) st1 b b (db_at s 1) H0 eq_refl Hap K1) as [H0' Hap']; [apply (id_db _ _ _ _ _ _ _ _ _ Hi1)|].
    split; cbn; try done.
    + split; [done|]. split; [done|]. exists b, es. split; [done|]. split; [|done]. split; try done.
      * exists m, []. split; [done|]. split; [by destruct st1|]. intros fid. transitivity (c1 !! fid); [|done]. rewrite <- Hf, <- F1. by destruct st1.
      * split; try done. cbn. apply u32_id. lia.
      * right. split; [done|]. split; [done|]. split; [done|]. cbn [gsys db_at]. by rewrite Ey.
    + intros i idx r Hx. destruct (Hr i idx r Hx) as [?|[_ ?]]; [by left|congruence].
  - destruct Hl as (-> & Ha & b & rest & -> & Hin & Hap). destruct (in_load_step (db_at s 1) imp b rest Hin) as (imp' & st' & b' & E1 & K & Hq & Hdone & Hmore).
    rewrite E1. cbn [res_bind]. destruct (first_kept (g_db0 s) (r_sys s) st' b b' (db_at s 1) H0 eq_refl Hap K Hq) as [H0' Hap'].
    assert (forall j idx r, readers s !! j = Some (Some idx, r) -> idx = 0) as Hr0. { intros j idx r Hx. destruct (Hr j idx r Hx) as [?|[_ ?]]; [done|congruence]. }
    destruct (im_done imp') eqn:Ed.
    + change (bool_decide (GRAVELDB_OK = GRAVELDB_AGAIN)) with false. cbv iota. eexists. split; [done|]. split; cbn; try done; [|by intros; left; eapply Hr0].
      destruct (Hdone eq_refl) as [Hlast Hs]. rewrite steps_for_last by done. split; [done|]. split; [done|]. split; [done|]. split; [done|].
      unfold db_at, set_loader, set_db. cbn. by replace (mkDbSt (gdb st') (gsys st')) with st' by (by destruct st').
    + change (bool_decide (GRAVELDB_AGAIN = GRAVELDB_AGAIN)) with true. cbv iota. destruct (Hmore eq_refl) as [Hlong Hp]. destruct (Hp fuel) as (imp2 & E2 & Hin2). rewrite E2. cbn [res_bind]. eexists. split; [done|].
      split; cbn; try done; [|by intros; left; eapply Hr0]. split; [done|]. split; [done|]. exists b', (drop (Z.to_nat CKPT_IMPORT_BATCH) rest). split; [by rewrite steps_for_more|]. split; [|done].
      unfold db_at, set_loader, set_db. cbn. replace (mkDbSt (gdb st') (gsys st')) with st' by (by destruct st'). done.
  - destruct Hl as (-> & -> & -> & Ha & Hs). change (bool_decide (GRAVELDB_OK = GRAVELDB_OK)) with true. cbv iota. eexists. split; [done|]. split; cbn; try done.
    intros j idx r Hx. destruct (Hr j idx r Hx) as [?|[_ ?]]; [by left|congruence].
  - destruct Hl as (-> & Ha & Hs). exists s. split; [done|]. split; rewrite ?El; done.
Qed.

Lemma apart_same st st' b : st ≡ st' -> apart (gdb st) b -> apart (gdb st') b.
Proof.
  intros Hs Ha a b0 Hb0. destruct (same_bin _ _ _ _ Hs Hb0) as (b1 & Hb1 & E). apply blank_fields in E as [? ->]. exact (Ha a b1 Hb1).
Qed.

Lemma reader_step_inv i fid k s : rep_inv k s -> exists s', reader_step junk i fid s = Ret s' /\ rep_inv k s'.
Proof.
  intros [H0 Hl Hr Hz]. unfold reader_step. destruct (readers s !! i) as [[[idx|] r]|] eqn:Er; [| |by exists s].
  - assert (forall st' r', hits r' = 0 -> forall j o r0, readers (set_reader (set_db s idx st') i (None, r')) !! j = Some (o, r0) -> (readers s !! j = Some (o, r0) \/ o = None) /\ hits r0 = 0) as Hnew.
    { intros st' r' Hh' j o r0 Hx. unfold set_reader, set_db in Hx. assert (<[i := (None, r')]> (readers s) !! j = Some (o, r0)) as Hy by (destruct (idx =? 0); exact Hx).
      apply list_lookup_insert_Some in Hy as [(_ & [= <- <-] & _)|[_ Hy]]; [by split; [right|]|split; [by left|by eapply Hz]]. }
    assert (hits r = 0) as Hh0 by (by eapply Hz). destruct (Hr i idx r Er) as [->|[-> El]].
    + destruct (reader_round_spec R0 (db_at s 0) c0 fid r H0) as (st' & E & Hs). rewrite E. cbn [res_bind]. eexists. split; [done|].
      pose proof (sd_sys _ _ Hs) as Ey. cbn [gsys db_at] in Ey. split.
      * unfold db_at, set_reader, set_db. cbn. replace (mkDbSt (gdb st') (gsys st')) with st' by (by destruct st'). by eapply serves_same.
      * unfold set_reader, set_db, db_at in *. cbn in *. rewrite Ey. pose proof (fun b => apart_same _ _ b Hs) as Ha. cbn in Ha. destruct (loader s).
        -- destruct Hl as (? & ? & m & b & ? & ? & ? & ? & ? & ? & ? & Hap). split; [done|]. split; [done|]. exists m, b. split_and!; try done. by apply Ha.
        -- destruct Hl as (? & ? & b & rest & ? & ? & Hap). split; [done|]. split; [done|]. exists b, rest. split; [done|]. split; [done|]. by apply Ha.
        -- done.
        -- done.
      * intros j idx' r0 Hx. destruct (Hnew st' (mkReaderSt (u64 (reads r + 1)) (hits r)) Hh0 j _ r0 Hx) as [[Hy|[=]] _]. exact (Hr j idx' r0 Hy).
      * intros j o r0 Hx. by destruct (Hnew st' (mkReaderSt (u64 (reads r + 1)) (hits r)) Hh0 j o r0 Hx).
    + rewrite El in Hl. destruct Hl as (Hk & Ha & Hs1). destruct (reader_round_spec R1 (db_at s 1) reloaded fid r Hs1) as (st' & E & Hs). rewrite E. cbn [res_bind]. eexists. split; [done|].
      pose proof (sd_sys _ _ Hs) as Ey. cbn [gsys db_at] in Ey. split.
      * unfold db_at, set_reader, set_db. cbn. rewrite Ey. done.
      * unfold set_reader, set_db, db_at. cbn. rewrite El. split; [done|]. split; [done|]. replace (mkDbSt (gdb st') (gsys st')) with st' by (by destruct st'). by eapply serves_same.
      * intros j idx' r0 Hx. destruct (Hnew st' (mkReaderSt (u64 (reads r + 1)) (hits r)) Hh0 j _ r0 Hx) as [[Hy|[=]] _]. exact (Hr j idx' r0 Hy).
      * intros j o r0 Hx. by destruct (Hnew st' (mkReaderSt (u64 (reads r + 1)) (hits r)) Hh0 j o r0 Hx).
  - eexists. split; [done|]. split; try done.
    + intros j idx r0 Hx. apply list_lookup_insert_Some in Hx as [(_ & [= <- <-] & _)|[_ Hx]]; [|by eapply Hr]. cbn. destruct (loader s); [left; apply Hl|left; apply Hl|left; apply Hl|right; split; [apply Hl|done]].
    + intros j o r0 Hx. apply list_lookup_insert_Some in Hx as [(_ & [= <- <-] & _)|[_ Hx]]; by eapply Hz.
Qed.

Lemma replica_run_inv fuel k : forall j s s', rep_inv j s -> replica_run junk (S fuel) d path k s s' -> rep_inv (j - k) s'.
Proof.
  intros j s s' Hi Hs. revert j Hi. induction Hs as [s|k s s1 s' E _ IH|k s i fid s1 s' E _ IH]; intros j Hi.
  - by rewrite Nat.sub_0_r.
  - destruct (main_step_inv fuel j s Hi) as (s2 & E2 & H2). assert (s2 = s1) as -> by congruence. replace (j - S k)%nat with (pred j - k)%nat by lia. by apply IH.
  - destruct (reader_step_inv i fid j s Hi) as (s2 & E2 & H2). assert (s2 = s1) as -> by congruence. by apply IH.
Qed.

(** Without steps left, the second database is active. *)
Lemma rep_inv_end s : rep_inv 0 s -> loader s = Reloaded /\ g_active_idx s = 1.
Proof.
  intros [_ Hl _ _]. destruct (loader s); [by destruct Hl as [[=] _]| |by destruct Hl as [[=] _]|by destruct Hl as (_ & -> & _)].
  destruct Hl as (_ & _ & b & rest & Hk & _). unfold steps_for in Hk. lia.
Qed.
End readers.

(** A replica before its reload: the first database is active and stores [c0], the second one stores
    [c1] and has the dimension [d] of the dump, with entries of [esz] bytes, room for the dump and none
    of its pages buffered, and no reader has loaded the index. *)
Record reload_ready {P : Type} `{!ObjectPool P} (R0 E0 R1 E1 : gmap Z Z) (s : @Replica P) (c0 c1 : gmap Z (Z * list Z)) (n d esz : Z) (path : string) (h : CkptExportHdr)
    (es : list (Z * list Z)) : Prop := {
  rr_room : 0 <= n;
  rr_first : stores R0 E0 (db_at s 0) c0 n;
  rr_second : stores R1 E1 (db_at s 1) c1 (zlen es + n);
  rr_size : E1 !! d = Some esz;
  rr_header : header_for h d esz;
  rr_entries : Forall (importable esz) es;
  rr_dump : exists dfd, names (r_sys s) !! path = Some dfd /\ 0 <= dfd /\ files (r_sys s) !! dfd = Some (dump_of h es) /\
    forall di a b, bin_of R1 (db_at s 1) d di a b -> unbuffered b /\ dfd <> fd b /\ dfd <> key_fd b /\ apart (g_db0 s) b;
  rr_active : g_active_idx s = 0;
  rr_loader : loader s = Sleeping;
  rr_readers : Forall (fun x => fst x = None /\ hits (snd x) = 0) (readers s)
}.

Lemma reload_ready_inv {P : Type} {pool : ObjectPool P} R0 E0 R1 E1 (s : @Replica P) c0 c1 n d esz path h es : reload_ready R0 E0 R1 E1 s c0 c1 n d esz path h es ->
  exists di addr dfd, 0 <= dfd /\ 0 <= esz < 2 ^ 32 /\ rep_inv R0 R1 c0 c1 n d di addr dfd path h esz es (S (steps_for es)) s.
Proof.
  intros [Hn H0 H1 HE Hh Hes (dfd & Hnm & Hd & Hfl & Hb) Ha Hl Hr].
  assert (0 <= esz < 2 ^ 32) as Hesz. { rewrite <- (hf_esz _ _ _ Hh). destruct (hf_ok _ _ _ Hh) as (_ & _ & _ & _ & _ & H & _). exact H. }
  destruct (stores_import R1 E1 (db_at s 1) c1 _ d esz H1 HE ltac:(lia)) as (m & di & addr & b & Hi & Eb & Hf); [intros di a b Hbo; by apply (Hb di a b)|].
  destruct (Hb di addr b (id_bin _ _ _ _ _ _ _ _ _ Hi)) as (_ & Hd1 & Hd2 & Hap). exists di, addr, dfd. split; [done|]. split; [done|]. split.
  - destruct H0 as (m0 & Hdb & _ & _ & Hf0). by eapply serves_weaken.
  - rewrite Hl. split; [done|]. split; [done|]. exists m, b. split_and!; done.
  - intros i idx r Hx. rewrite Forall_lookup in Hr. destruct (Hr i _ Hx) as [[=] _].
  - intros i o r Hx. rewrite Forall_lookup in Hr. apply (Hr i _ Hx).
Qed.

(** C17: readers only see complete databases. A replica is before its reload: each database is at rest
    with the conditions of [stores] (EngineMap.v: no checkpoint, a settled index, pages without slack
    that are buffered, committed or zero in the file), the first one active with the map
    [c0], the second one with [c1]; all calls to the system succeed; the second one has the dimension
    of the dump, with its entry size, room for its entries in the index and the pools, and none of
    the pages of its bin of the dimension in the write buffer; the dump is intact, its ids are not 0
    and do not have the magic number of the trailer as their low half, and it and the files of the
    first database are not files of this bin. However the steps of the reader threads interleave with
    the [k] steps that [main] took of the reload, each call of the import and the swap of the index,
    the active database, and the database of the index that any reader has loaded before, answer every
    get from a complete map: the first one from its own, and the second one from its own updated with
    all the entries of the dump. The import never works on a database whose index a reader has loaded,
    and neither thread is ever stuck. The reload ends: it takes [main] one step to begin, one per 256
    entries, and two to finish, and then the second database is active. *)
Theorem replica_reads_complete {P : Type} {pool : ObjectPool P} {host : WireHost} {host_ok : WireHostOk host} (junk : Z -> list Z)
    R0 E0 R1 E1 (s0 s : @Replica P) c0 c1 n d esz path h es fuel (k : nat)
  (Hjunk : forall k, 0 <= k -> zlen (junk k) = k)
  (Hready : reload_ready R0 E0 R1 E1 s0 c0 c1 n d esz path h es)
  (Hrun : replica_run junk (S fuel) d path k s0 s) :
  let c idx := if idx =? 0 then c0 else map_op (OpPut (entry_req d <$> es)) c1 in
  reads_as (db_at s (g_active_idx s)) (c (g_active_idx s)) /\
  (forall i idx r, readers s !! i = Some (Some idx, r) -> reads_as (db_at s idx) (c idx) /\ forall imp, loader s <> Loading idx imp) /\
  (exists s', main_step (S fuel) d path s = Ret s') /\ (forall i fid, exists s', reader_step junk i fid s = Ret s') /\
  ((length es / 256 + 3 <= k)%nat -> loader s = Reloaded /\ g_active_idx s = 1).
Proof.
  intros c. destruct (reload_ready_inv _ _ _ _ _ _ _ _ _ _ _ _ _ Hready) as (di & addr & dfd & Hd & Hesz & Hinv). destruct Hready as [Hn _ _ _ Hh Hes _ _ _ _].
  assert (rep_inv R0 R1 c0 c1 n d di addr dfd path h esz es (S (steps_for es) - k) s) as Hi by (eapply (replica_run_inv junk Hjunk); eassumption).
  destruct (main_step_inv R0 R1 c0 c1 n d di addr dfd path h esz es Hn Hd Hesz Hh Hes fuel _ s Hi) as (s1 & E1' & _).
  assert (forall i fid, exists s', reader_step junk i fid s = Ret s') as Hrd.
  { intros i fid. destruct (reader_step_inv junk Hjunk R0 R1 c0 c1 n d di addr dfd path h esz es i fid _ s Hi) as (s2 & E2 & _). by exists s2. }
  split; [|split; [|split; [by exists s1|split; [done|]]]].
  3:{ intros Hk. apply (rep_inv_end R0 R1 c0 c1 n d di addr dfd path h esz es s). replace (S (steps_for es) - k)%nat with 0%nat in Hi; [done|].
      unfold steps_for. change (Z.to_nat CKPT_IMPORT_BATCH) with 256%nat. set (q := (length es / 256)%nat) in *. lia. }
  all: destruct Hi as [H0 Hl Hr _]; pose proof (serves_reads _ _ _ H0) as S0.
  - destruct (loader s); [destruct Hl as (_ & -> & _); exact S0|destruct Hl as (_ & -> & _); exact S0|destruct Hl as (_ & _ & _ & -> & _); exact S0|destruct Hl as (_ & -> & Hs); exact (serves_reads _ _ _ Hs)].
  - intros i idx r Hx. destruct (Hr i idx r Hx) as [->|[-> El]].
    + split; [exact S0|]. intros imp El. rewrite El in Hl. by destruct Hl as [[=] _].
    + rewrite El in Hl. destruct Hl as (_ & _ & Hs). split; [exact (serves_reads _ _ _ Hs)|]. intros imp El'. congruence.
Qed.

(** A reader never counts a hit: it passes [NULL] for the embedding, which [graveldb_batch_get] takes
    for a feature whose embedding is not wanted. *)
Theorem replica_readers_never_hit {P : Type} {pool : ObjectPool P} {host : WireHost} {host_ok : WireHostOk host} (junk : Z -> list Z)
    R0 E0 R1 E1 (s0 s : @Replica P) c0 c1 n d esz path h es fuel k :
  (forall k, 0 <= k -> zlen (junk k) = k) -> reload_ready R0 E0 R1 E1 s0 c0 c1 n d esz path h es -> replica_run junk (S fuel) d path k s0 s ->
  forall i o r, readers s !! i = Some (o, r) -> hits r = 0.
Proof.
  intros Hjunk Hready Hsteps. destruct (reload_ready_inv _ _ _ _ _ _ _ _ _ _ _ _ _ Hready) as (di & addr & dfd & Hd & Hesz & Hinv). destruct Hready as [Hn _ _ _ Hh Hes _ _ _ _].
  assert (rep_inv R0 R1 c0 c1 n d di addr dfd path h esz es (S (steps_for es) - k) s) as Hi by (eapply (replica_run_inv junk Hjunk); eassumption). apply Hi.
Qed.

(** ** Witnesses *)

(** The database with dimensions 1 and 2, and a file with the content [l] beside its own. *)
Definition beside (l : list Z) : DbSt (SlabPool * Mem) := mkDbSt (gdb two_st) (mkSys (<[9 := l]> (files two_sys)) ∅ [] [] {[ "/dump" := 9 ]}).

Lemma two_heap a b : bin_heap (gdb two_st) !! a = Some b -> a = 100 /\ b = two_bin1 \/ a = 200 /\ b = two_bin2.
Proof. simpl. intros [[<- <-]|[_ [<- <-]%lookup_singleton_Some]]%lookup_insert_Some; auto. Qed.

Lemma beside_stores l n : 0 <= n <= 8 -> stores two_dims two_sizes (beside l) two_map n.
Proof.
  intros Hn. apply (stores_beside two_dims two_sizes two_st); [by apply two_stores|done|].
  intros a b [[_ ->]|[_ ->]]%two_heap; split; try done; intros x Hx; by apply elem_of_nil in Hx.
Qed.

Lemma beside_bins l d di a b : bin_of two_dims (beside l) d di a b -> unbuffered b /\ 9 <> fd b /\ 9 <> key_fd b.
Proof.
  intros [_ _ H3 _]. apply (two_heap a b) in H3 as [[_ ->]|[_ ->]]; (split; [|done]); intros x Hx; simpl in Hx; unfold no_pages in Hx; apply elem_of_replicate in Hx as [-> _]; done.
Qed.

Lemma export_import_roundtrip_witness :
  exists x1 d1 y1 x2 y2 x3 y3, @graveldb_ckpt_export_begin (SlabPool * Mem) zeros GRAVELDB_CKPT_FULL 1 7 0 0 (mkDbSt one_db one_sys) = Ret (GRAVELDB_OK, Some x1, mkDbSt d1 y1) /\
    (exists fuel, @run_steps (SlabPool * Mem) host_le fuel x1 (mkDbSt d1 y1) = Ret (GRAVELDB_OK, x2, mkDbSt d1 y2)) /\
    @graveldb_ckpt_export_end host_le x2 y2 = Ret (GRAVELDB_OK, x3, y3) /\
    let st := beside (default [] (content y3 (graveldb_ckpt_export_path x3))) in
    exists st', @load_dump (SlabPool * Mem) host_be 1 1 "/dump" st = Ret (GRAVELDB_OK, st') /\ reads_as st' (of_dim 1 two_map ∪ two_map).
Proof.
  destruct (export_import_roundtrip host_le host_be zeros one_dims (mkDbSt one_db one_sys) two_map 1 0 100 one_bin one_keys two_file 7 0 "/data")
    as (x1 & d1 & y1 & x2 & y2 & x3 & y3 & H1 & H2 & H3 & [l H4] & H5);
    [apply _|apply _|exact zeros_len|exact one_flushed|exact one_export_ready|exact one_dump_fits|lia|exact one_no_magic|].
  exists x1, d1, y1, x2, y2, x3, y3. split; [exact H1|]. split; [exact H2|]. split; [exact H3|]. rewrite H4. cbn [default from_option id].
  destruct (H5 two_dims two_sizes (beside l) two_map 0 "/dump" 9 1%nat) as (st' & E & _ & Hr).
  - apply beside_stores. vm_compute. split; congruence.
  - lia.
  - vm_compute. reflexivity.
  - done.
  - lia.
  - rewrite H4. done.
  - intros di a b Hb. by apply (beside_bins l 1 di a).
  - vm_compute. reflexivity.
  - exists st'. split; [exact E|exact Hr].
Defined.

(** A dump of dimension 2 with a new feature and one that is stored with dimension 1. *)
Definition pair_header : CkptExportHdr := mkCkptExportHdr GRAVELDB_CKPT_EXPORT_MAGIC 1 1 9 2 8 0 0 0.
Definition pair_entries : list (Z * list Z) := [(6, replicate 8 3); (5, replicate 8 4)].
Definition pair_sys : Sys :=
  mkSys (<[13 := two_file]> (<[14 := replicate 64 0]> (<[9 := dump_of pair_header pair_entries]> (files two_sys)))) ∅ [] [] {[ "/dump" := 9 ]}.
(** The replica, with two readers. *)
Definition pair : Replica := mkReplica one_db (gdb two_st) pair_sys 0 Sleeping [(None, mkReaderSt 0 0); (None, mkReaderSt 0 0)].

Lemma pair_ready : reload_ready one_dims {[ 1 := 4 ]} two_dims two_sizes pair two_map two_map 0 2 8 "/dump" pair_header pair_entries.
Proof.
  split.
  - lia.
  - apply (stores_beside one_dims _ (mkDbSt one_db one_sys)); [apply one_stores; lia|done|]. intros a b [_ ->]%one_heap. split; try done.
  - apply (stores_beside two_dims two_sizes two_st); [apply two_stores; vm_compute; split; congruence|done|].
    intros a b [[_ ->]|[_ ->]]%two_heap; split; try done; intros x Hx; by apply elem_of_nil in Hx.
  - vm_compute. reflexivity.
  - by split.
  - repeat constructor; vm_compute; intuition congruence.
  - exists 9. split; [done|]. split; [lia|]. split; [done|]. intros di a b [_ _ H3 _]. apply (two_heap a b) in H3 as H3'.
    assert (unbuffered b) as Hu by (destruct H3' as [[_ ->]|[_ ->]]; intros x Hx; simpl in Hx; unfold no_pages in Hx; apply elem_of_replicate in Hx as [-> _]; done).
    split; [done|]. assert (apart one_db b) as Ha by (intros a0 b0 [_ ->]%one_heap; destruct H3' as [[_ ->]|[_ ->]]; done).
    destruct H3' as [[_ ->]|[_ ->]]; done.
  - done.
  - done.
  - repeat constructor.
Qed.

(** The first reader loads the index, the import begins and ends, the reader reads, the index is
    swapped, and the second reader loads it. *)
Definition pair_at (l : list (@Replica (SlabPool * Mem) -> res Replica)) : Replica := foldl (fun s f => run_of (f s) s) pair l.
Definition pair_junk (k : Z) : list Z := zeros k.
#[local] Abbreviation rd i := (reader_step pair_junk i 6).
#[local] Abbreviation mn := (main_step 1 2 "/dump").
Definition pair_run : list (@Replica (SlabPool * Mem) -> res Replica) := [rd 0%nat; mn; mn; rd 0%nat; mn; rd 1%nat].

Lemma pair_steps : replica_run pair_junk 1 2 "/dump" 3 pair (pair_at pair_run).
Proof.
  apply (run_reader _ _ _ _ _ _ 0 6 (pair_at [rd 0%nat])); [apply run_of_returns; vm_compute; reflexivity|].
  apply (run_main _ _ _ _ _ _ (pair_at [rd 0%nat; mn])); [apply run_of_returns; vm_compute; reflexivity|].
  apply (run_main _ _ _ _ _ _ (pair_at [rd 0%nat; mn; mn])); [apply run_of_returns; vm_compute; reflexivity|].
  apply (run_reader _ _ _ _ _ _ 0 6 (pair_at [rd 0%nat; mn; mn; rd 0%nat])); [apply run_of_returns; vm_compute; reflexivity|].
  apply (run_main _ _ _ _ _ _ (pair_at [rd 0%nat; mn; mn; rd 0%nat; mn])); [apply run_of_returns; vm_compute; reflexivity|].
  apply (run_reader _ _ _ _ _ _ 1 6 (pair_at pair_run)); [apply run_of_returns; vm_compute; reflexivity|]. apply run_none.
Qed.

Lemma replica_reads_complete_witness :
  let s := pair_at pair_run in
  readers s = [(None, mkReaderSt 1 0); (Some 1, mkReaderSt 0 0)] /\ loader s = Reloaded /\ reads_as (db_at s 1) (<[5 := (2, replicate 8 4)]> (<[6 := (2, replicate 8 3)]> two_map)).
Proof.
  intros s. split; [vm_compute; reflexivity|].
  destruct (replica_reads_complete pair_junk one_dims {[ 1 := 4 ]} two_dims two_sizes pair s two_map two_map 0 2 8 "/dump" pair_header pair_entries 0 3) as (_ & Hr & _ & _ & Hend);
    [exact zeros_len|exact pair_ready|exact pair_steps|].
  split; [apply Hend; simpl; lia|]. destruct (Hr 1%nat 1 (mkReaderSt 0 0)) as [Hx _]; [vm_compute; reflexivity|]. exact Hx.
Defined.

Lemma replica_readers_never_hit_witness : forall i o r, readers (pair_at pair_run) !! i = Some (o, r) -> hits r = 0.
Proof. exact (replica_readers_never_hit pair_junk one_dims {[ 1 := 4 ]} two_dims two_sizes pair _ two_map two_map 0 2 8 "/dump" pair_header pair_entries 0 3 zeros_len pair_ready pair_steps). Defined.

(** ** The program on two features *)

Definition two_vecs (i : Z) : list Z := replicate 512 (i + 1).
Definition pool_at (a : Z) : SlabPool * Mem := (mkSlabPool 4096 4096 65536 0 0 [] 0 0 0 0 0, mkMem ∅ [Some a; Some (a + 65536)]).
Definition main_replica : res (Z + Replica * Sys) :=
  let! '(r, y) := main_setup overlay_pool zeros two_vecs 20 2 4096 (pool_at 65536) (pool_at 1065536) (pool_at 2065536) (mkSys ∅ ∅ [] [] ∅) in
  Ret (match r with inl k => inl k | inr s => inr (s, y) end).

(** The master's features are in the first database of the replica before the readers start and, after
    the three steps of the reload, in the second one, which is then the active one. *)
Theorem main_copies_features :
  (let! r := main_replica in
   match r with
   | inl _ => Ub
   | inr (s, _) =>
     let dump := "/tmp/graveldb_master/ckpt/export_gen0001_d128_full.dump" in
     let get st := graveldb_batch_get zeros [1; 2; 3] (mkGetOut [Some (zeros 512); Some (zeros 512); None] (Some [0; 0; 0])) st in
     let! '(r0, o0, _) := get (db_at s (g_active_idx s)) in
     let! s := main_step 2 DIM dump s in let! s := main_step 2 DIM dump s in let! s := main_step 2 DIM dump s in
     let! '(r1, o1, _) := get (db_at s (g_active_idx s)) in
     Ret (r0, o0, r1, o1, g_active_idx s)
   end) =
  let o := mkGetOut [Some (two_vecs 0); Some (two_vecs 1); None] (Some [128; 128; 0]) in Ret (GRAVELDB_OK, o, GRAVELDB_OK, o, 1).
Proof. vm_compute. reflexivity. Qed.

(** ** Where a load goes wrong *)

(** What the two features of the dump read as, and the entries that the bin of dimension 2 has handed out. *)
Definition pair_view (st : DbSt (SlabPool * Mem)) : res (list (option (list Z)) * option Z) :=
  let! '(_, o, _) := graveldb_batch_get zeros [6; 5] (mkGetOut [Some (zeros 8); Some (zeros 8)] None) st in
  Ret (out_embeddings o, bump_ptr <$> bin_heap (gdb st) !! 200).
Definition pair_db : DbSt (SlabPool * Mem) := beside (dump_of pair_header pair_entries).
(** The same with a system that answers [l] first. *)
Definition failing (l : list Z) : DbSt (SlabPool * Mem) := mkDbSt (gdb pair_db) (mkSys (files (gsys pair_db)) ∅ l [] (names (gsys pair_db))).

(** A load whose write of an embedding fails returns OK, and the feature reads as zeros: neither
    [load_dump] looks at the error that the poll reports nor [graveldb_ckpt_import_end] at the errors. *)
Theorem load_dump_loses_write_error :
  (let! '(rc, st) := load_dump 2 2 "/dump" (failing (replicate 8 1000 ++ [-1])%list) in let! v := pair_view st in Ret (rc, v)) =
  Ret (GRAVELDB_OK, ([Some (replicate 8 0); Some (replicate 8 4)], Some 2)).
Proof. vm_compute. reflexivity. Qed.

(** An import beside a buffered page is not seen: after a put that leaves a page in the write buffer,
    the feature whose entry is on that page reads as zeros, although the load returns OK. *)
Theorem load_dump_hidden_by_buffer :
  (let! '(r1, st) := graveldb_batch_put [mkPutReq 9 2 (Some (replicate 8 1))] pair_db in
   let! '(r2, st) := load_dump 2 2 "/dump" st in let! v := pair_view st in Ret (r1, r2, v)) =
  Ret (GRAVELDB_OK, GRAVELDB_OK, ([Some (replicate 8 0); Some (replicate 8 4)], Some 3)).
Proof. vm_compute. reflexivity. Qed.

(** Every load takes new entries, also for features that are stored: the entries that they had are
    neither used nor free afterwards. *)
Theorem load_dump_leaks_entries :
  (let! '(r1, st) := load_dump 2 2 "/dump" pair_db in let! v1 := pair_view st in
   let! '(r2, st) := load_dump 2 2 "/dump" st in let! v2 := pair_view st in
   Ret (r1, v1, r2, v2, free_list <$> bin_heap (gdb st) !! 200)) =
  Ret (GRAVELDB_OK, ([Some (replicate 8 3); Some (replicate 8 4)], Some 2), GRAVELDB_OK, ([Some (replicate 8 3); Some (replicate 8 4)], Some 4), Some (Some [])).
Proof. vm_compute. reflexivity. Qed.
