(* ===== verification/Arena.v ===== *)
(** Arena: the request arena of example/server/server.c and the heap it takes its
    blocks from.

    An arena hands out memory from an inline block and, when that is full, from
    overflow blocks; a reset gives all of it back at once. The heap hands out
    blocks at increasing addresses and records which are allocated, so that a
    block that is released twice is undefined behaviour and a block that is
    never released stays in [live]. *)

From S2P Require Import Prelude.

(** ** The heap *)

(** [refusals]: whether the next calls of [malloc] fail; a missing answer is a
    success. [brk]: the address of the next block. [live]: the blocks in use. *)
Record Heap : Type := mkHeap { refusals : list bool; brk : Z; live : gset Z }.

(** No object is larger than [PTRDIFF_MAX]. *)
Definition PTRDIFF_MAX : Z := 2 ^ 63 - 1.

(** Blocks are aligned to 16 bytes and are at least one unit long. *)
Definition block_end (p n : Z) : Z := p + (n / 16 + 1) * 16.

Definition malloc (n : Z) : M Heap (option Z) := fun h =>
  let refused := match refusals h with r :: _ => r | [] => false end in
  let rs := tail (refusals h) in
  if refused || (PTRDIFF_MAX <? n) then Ret (None, mkHeap rs (brk h) (live h))
  else Ret (Some (brk h), mkHeap rs (block_end (brk h) n) ({[ brk h ]} ∪ live h)).

Definition free (p : Z) : M Heap unit := fun h =>
  if decide (p ∈ live h) then Ret (tt, mkHeap (refusals h) (brk h) (live h ∖ {[ p ]})) else Ub.

(** ** Data *)

Definition ARENA_INLINE_SIZE : Z := 64 * 1024.

(** [b_self]: the address of the structure itself. *)
Record ArenaBlock : Type := mkArenaBlock { b_self : Z; cap : Z; used : Z; data : Z }.

(** [current] and [overflow] are assigned together everywhere: the current block
    is the head of [overflow], or [first] when the list is empty. [epoch] counts
    the resets; it has no counterpart in the code and serves to tell which
    pointers into the arena are still valid. *)
Record ReqArena : Type := mkReqArena {
  first : ArenaBlock;
  overflow : list ArenaBlock;
  total_alloc : Z;
  epoch : Z
}.

Definition current (a : ReqArena) : ArenaBlock :=
  match overflow a with b :: _ => b | [] => first a end.

Definition set_used (b : ArenaBlock) (n : Z) : ArenaBlock := mkArenaBlock (b_self b) (cap b) n (data b).

Definition set_current (a : ReqArena) (b : ArenaBlock) (total : Z) : ReqArena :=
  match overflow a with
  | _ :: l => mkReqArena (first a) (b :: l) total (epoch a)
  | [] => mkReqArena b [] total (epoch a)
  end.

(** ** Operations *)

Record ArenaSt : Type := mkArenaSt { arena : ReqArena; heap : Heap }.

Definition on_heap {A} (m : M Heap A) : M ArenaSt A := fun s =>
  let! '(a, h) := m (heap s) in Ret (a, mkArenaSt (arena s) h).
Definition set_arena (a : ReqArena) : M ArenaSt unit := modify (fun s => mkArenaSt a (heap s)).

(** [inline_data]: the address of the inline block, inside the connection. *)
Definition arena_init (inline_data : Z) : ReqArena :=
  mkReqArena (mkArenaBlock 0 ARENA_INLINE_SIZE 0 inline_data) [] 0 0.

Definition free_block (b : ArenaBlock) : M Heap unit :=
  do* free (data b) in free (b_self b).

Definition arena_reset : M ArenaSt unit :=
  let* a := gets arena in
  do* on_heap (forM (overflow a) free_block) in
  set_arena (mkReqArena (set_used (first a) 0) [] 0 (epoch a + 1)).

Definition arena_destroy : M ArenaSt unit := arena_reset.

(** [(size + 7) & ~(size_t)7] *)
Definition align8 (size : Z) : Z := Z.land (u64 (size + 7)) (u64 (Z.lnot 7)).

Definition arena_alloc (size : Z) : M ArenaSt (option Z) :=
  let size := align8 size in
  let* a := gets arena in
  let blk := current a in
  if u64 (used blk + size) <=? cap blk then
    do* set_arena (set_current a (set_used blk (u64 (used blk + size))) (u64 (total_alloc a + size))) in
    ret (Some (data blk + used blk))
  else
    let new_cap := u64 (cap blk * 2) in
    let new_cap := if new_cap <? size then size else new_cap in
    let* nb := on_heap (malloc 32) in
    match nb with
    | None => ret None
    | Some nb =>
      let* d := on_heap (malloc new_cap) in
      match d with
      | None => do* on_heap (free nb) in ret None
      | Some d =>
        do* set_arena (mkReqArena (first a) (mkArenaBlock nb new_cap size d :: overflow a)
                                  (u64 (total_alloc a + size)) (epoch a)) in
        ret (Some d)
      end
    end.

(** ** What the arena promises *)

Lemma align8_eq size : 0 <= size <= PTRDIFF_MAX -> align8 size = (size + 7) / 8 * 8.
Proof.
  intros H. unfold PTRDIFF_MAX in H. unfold align8, u64.
  rewrite (Z.mod_small (size + 7)) by lia.
  rewrite <- (Z.land_ones (Z.lnot 7) 64), (Z.land_comm (Z.lnot 7)), Z.land_assoc, Z.land_ones by lia.
  rewrite Z.mod_small by lia. change 7 with (Z.ones 3) at 2.
  rewrite <- Z.ldiff_land, Z.ldiff_ones_r, Z.shiftl_mul_pow2, Z.shiftr_div_pow2 by lia. done.
Qed.

Lemma align8_spec size : 0 <= size <= PTRDIFF_MAX ->
  size <= align8 size < size + 8 /\ align8 size mod 8 = 0.
Proof.
  intros H. rewrite align8_eq by done. split; [|by apply Z.mod_mul].
  pose proof (Z.div_mod (size + 7) 8). pose proof (Z.mod_pos_bound (size + 7) 8). lia.
Qed.

(** The blocks of an arena, the current one first. *)
Definition blocks (a : ReqArena) : list ArenaBlock := overflow a ++ [first a].

(** An object is an address with a size. [apart]: they share no byte. *)
Definition object : Type := Z * Z.
Definition apart (x y : object) : Prop := fst x + snd x <= fst y \/ fst y + snd y <= fst x.

(** The object is aligned and inside the used part of a block of the arena. *)
Definition in_block (x : object) (b : ArenaBlock) : Prop :=
  data b <= fst x /\ fst x + snd x <= data b + used b.
Definition in_arena (a : ReqArena) (x : object) : Prop :=
  fst x mod 8 = 0 /\ exists b, b ∈ blocks a /\ in_block x b.

Definition block_ok (b : ArenaBlock) : Prop :=
  0 <= used b <= cap b /\ cap b <= PTRDIFF_MAX /\ used b mod 8 = 0 /\ data b mod 8 = 0.

(** Each overflow block lies above the blocks that were there before it. *)
Fixpoint stacked (base : Z) (l : list ArenaBlock) (top : Z) : Prop :=
  match l with
  | [] => base <= top
  | b :: l => stacked base l (b_self b) /\ b_self b < data b < top /\ data b + cap b <= top
  end.

Definition addresses (l : list ArenaBlock) : gset Z := list_to_set (b_self <$> l) ∪ list_to_set (data <$> l).

(** [base]: the end of the heap when the arena was made; [old]: the blocks that
    were in use then. *)
Record arena_inv (base : Z) (old : gset Z) (objs : list object) (s : ArenaSt) : Prop := {
  ai_blocks : Forall block_ok (blocks (arena s));
  ai_below : data (first (arena s)) + cap (first (arena s)) <= base;
  ai_stack : stacked base (overflow (arena s)) (brk (heap s));
  ai_brk : brk (heap s) mod 16 = 0;
  ai_live : live (heap s) = old ∪ addresses (overflow (arena s));
  ai_old : forall p, p ∈ old -> p < base;
  ai_in : Forall (in_arena (arena s)) objs;
  ai_apart : ForallOrdPairs apart objs
}.

Lemma stacked_le base l top : stacked base l top -> Forall block_ok l -> base <= top.
Proof.
  revert top. induction l as [|b l IH]; intros top; cbn; [lia|].
  intros (H & ? & ?) [(? & ?) ?]%Forall_cons. specialize (IH _ H). naive_solver lia.
Qed.

Lemma stacked_in base l top b : stacked base l top -> Forall block_ok l -> b ∈ l ->
  base <= b_self b /\ b_self b < data b < top /\ data b + cap b <= top.
Proof.
  revert top. induction l as [|b' l IH]; intros top; cbn; [set_solver|].
  intros (H & ? & ?) [Hb ?]%Forall_cons [->|Hin]%elem_of_cons.
  - split; [by eapply stacked_le|]. done.
  - destruct (IH _ H) as (? & ? & ?); [done..|]. destruct Hb as ((? & ?) & _). repeat split; lia.
Qed.

Lemma stacked_mono base l top top' : stacked base l top -> top <= top' -> stacked base l top'.
Proof. destruct l; cbn; [lia|]. intros (? & ? & ?) ?. repeat split; auto; lia. Qed.

Lemma malloc_spec n h : 0 <= n -> brk h mod 16 = 0 ->
  exists r h', malloc n h = Ret (r, h') /\ brk h' mod 16 = 0 /\
  match r with
  | Some p => p = brk h /\ p + n < brk h' /\ n <= PTRDIFF_MAX /\ live h' = {[ p ]} ∪ live h
  | None => brk h' = brk h /\ live h' = live h
  end.
Proof.
  intros Hn Hm. unfold malloc. set (refused := match refusals h with r :: _ => r | [] => false end).
  destruct refused; cbn [orb]; [do 2 eexists; by repeat split|].
  destruct (Z.ltb_spec PTRDIFF_MAX n); cbn [orb]; [do 2 eexists; by repeat split|].
  do 2 eexists. split; [done|]. cbn [brk live]. unfold block_end.
  rewrite Z.mod_add by lia. split; [done|]. split; [done|].
  pose proof (Z.div_mod n 16). pose proof (Z.mod_pos_bound n 16). split; [lia|]. done.
Qed.

Lemma free_spec p h : p ∈ live h -> free p h = Ret (tt, mkHeap (refusals h) (brk h) (live h ∖ {[ p ]})).
Proof. intros. unfold free. by rewrite decide_True. Qed.

Lemma addresses_cons b l : addresses (b :: l) = {[ b_self b; data b ]} ∪ addresses l.
Proof. unfold addresses. cbn. set_solver. Qed.

Lemma addresses_bound base l top p : stacked base l top -> Forall block_ok l -> p ∈ addresses l -> base <= p < top.
Proof.
  intros Hs Hok. unfold addresses.
  rewrite elem_of_union, !elem_of_list_to_set, !list_elem_of_fmap.
  intros [(b & -> & Hb)|(b & -> & Hb)]; destruct (stacked_in _ _ _ _ Hs Hok Hb); lia.
Qed.

Lemma free_blocks_spec base old l top h :
  stacked base l top -> Forall block_ok l -> (forall p, p ∈ old -> p < base) ->
  live h = old ∪ addresses l ->
  exists h', forM l free_block h = Ret (tt, h') /\ live h' = old /\ brk h' = brk h.
Proof.
  intros Hs Hok Hold. revert top h Hs Hok. induction l as [|b l IH]; intros top h Hs Hok Hl.
  { exists h. split; [done|]. split; [|done]. rewrite Hl. unfold addresses. set_solver. }
  cbn in Hs. destruct Hs as (Hs & Hd & Hc). apply Forall_cons in Hok as [Hb Hok].
  rewrite addresses_cons in Hl.
  assert (Hbase := stacked_le _ _ _ Hs Hok).
  assert (Hfresh : forall p, p ∈ old ∪ addresses l -> p < b_self b).
  { intros p [Hp|Hp]%elem_of_union; [specialize (Hold p Hp); lia|].
    by destruct (addresses_bound _ _ _ p Hs Hok Hp). }
  assert (data b ∉ old ∪ addresses l) by (intros ?%Hfresh; lia).
  assert (b_self b ∉ old ∪ addresses l) by (intros ?%Hfresh; lia).
  cbn [forM]. unfold free_block. unfold bindM at 1 2. rewrite free_spec by set_solver. cbn [res_bind fst snd].
  rewrite free_spec by (cbn [live]; rewrite Hl; set_solver by lia). cbn [res_bind fst snd refusals brk live].
  edestruct (IH (b_self b) (mkHeap (refusals h) (brk h) ((live h ∖ {[data b]}) ∖ {[b_self b]}))) as (h' & E & ? & ?);
    [done..| |].
  - cbn [live]. rewrite Hl. set_solver.
  - by exists h'.
Qed.

Section invariant.
Variables (base : Z) (old : gset Z).

Lemma current_in a : current a ∈ blocks a.
Proof. unfold current, blocks. destruct (overflow a); set_solver. Qed.

Lemma blocks_set_current a b t :
  blocks (set_current a b t) = b :: tail (blocks a).
Proof. unfold set_current, blocks. by destruct (overflow a). Qed.

Lemma blocks_current a : blocks a = current a :: tail (blocks a).
Proof. unfold blocks, current. by destruct (overflow a). Qed.

(** A block below the current one ends before the current one begins. *)
Lemma tail_below objs s b : arena_inv base old objs s -> b ∈ tail (blocks (arena s)) ->
  data b + cap b <= data (current (arena s)).
Proof.
  intros []. unfold blocks, current in *. destruct (overflow (arena s)) as [|c l]; cbn in *; [set_solver|].
  destruct ai_stack0 as (Hs & ? & ?).
  rewrite Forall_cons, Forall_app in ai_blocks0. destruct ai_blocks0 as (_ & Hok & _).
  rewrite elem_of_app. intros [Hb| ->%list_elem_of_singleton].
  - destruct (stacked_in _ _ _ _ Hs Hok Hb); lia.
  - assert (base <= b_self c) by by eapply stacked_le. lia.
Qed.

(** An object past the used part of the current block is apart from all others. *)
Lemma fresh_apart objs s p n : arena_inv base old objs s -> 0 <= n ->
  data (current (arena s)) + used (current (arena s)) <= p -> Forall (apart (p, n)) objs.
Proof.
  intros Hinv Hn Hp. eapply Forall_impl; [apply Hinv|]. intros y (_ & b & Hb & Hy).
  unfold apart, in_block in *. cbn in *. rewrite blocks_current in Hb.
  assert (Hall := ai_blocks _ _ _ _ Hinv). rewrite Forall_forall in Hall.
  assert (block_ok (current (arena s))) as ((? & ?) & _) by apply Hall, current_in.
  apply elem_of_cons in Hb as [->|Hb]; [lia|].
  assert (block_ok b) as ((? & ?) & _) by (apply Hall; rewrite blocks_current; set_solver).
  pose proof (tail_below _ _ _ Hinv Hb). lia.
Qed.

Lemma in_arena_grow a a' x : (forall b, b ∈ blocks a -> exists b', b' ∈ blocks a' /\ data b' = data b /\ used b <= used b') ->
  in_arena a x -> in_arena a' x.
Proof.
  intros H (? & b & Hb & ? & ?). split; [done|]. destruct (H b Hb) as (b' & ? & ? & ?).
  exists b'. unfold in_block. split; [done|]. lia.
Qed.

Lemma arena_inv_bump objs s size : arena_inv base old objs s -> 0 <= size <= PTRDIFF_MAX ->
  used (current (arena s)) + align8 size <= cap (current (arena s)) ->
  arena_inv base old ((data (current (arena s)) + used (current (arena s)), size) :: objs)
    (mkArenaSt (set_current (arena s) (set_used (current (arena s)) (used (current (arena s)) + align8 size))
                            (u64 (total_alloc (arena s) + align8 size))) (heap s)).
Proof.
  intros Hinv Hsz Hfit. destruct (align8_spec _ Hsz) as [Ha Hm8]. destruct s as [a h]. cbn [arena heap] in *.
  set (c := current a) in *.
  assert (block_ok c) as ((? & ?) & ? & Hu8 & Hd8).
  { assert (Hall := ai_blocks _ _ _ _ Hinv). rewrite Forall_forall in Hall. apply Hall, current_in. }
  assert (Hmod : (used c + align8 size) mod 8 = 0) by (rewrite Z.add_mod by lia; by rewrite Hu8, Hm8).
  assert (Hblk : block_ok (set_used c (used c + align8 size))) by (repeat split; cbn; auto; lia).
  constructor; cbn [arena heap].
  - rewrite blocks_set_current. assert (Hall := ai_blocks _ _ _ _ Hinv). cbn [arena] in Hall.
    rewrite blocks_current in Hall. apply Forall_cons in Hall as [_ ?]. by constructor.
  - pose proof (ai_below _ _ _ _ Hinv). subst c. unfold set_current, current in *. by destruct (overflow a).
  - pose proof (ai_stack _ _ _ _ Hinv). cbn in *. subst c. unfold set_current, current in *. by destruct (overflow a).
  - apply Hinv.
  - pose proof (ai_live _ _ _ _ Hinv) as Hl. cbn in *. rewrite Hl. subst c. unfold set_current, current in *. by destruct (overflow a).
  - apply Hinv.
  - constructor.
    + split; [cbn; rewrite Z.add_mod by lia; by rewrite Hd8, Hu8|].
      exists (set_used c (used c + align8 size)). rewrite blocks_set_current. split; [set_solver|].
      unfold in_block. cbn. lia.
    + eapply Forall_impl; [apply Hinv|]. intros x. apply in_arena_grow. intros b Hb. cbn [arena] in Hb.
      rewrite blocks_set_current. rewrite blocks_current in Hb. apply elem_of_cons in Hb as [->|Hb].
      * exists (set_used c (used c + align8 size)). split; [set_solver|]. cbn. subst c. lia.
      * exists b. split; [set_solver|]. lia.
  - constructor; [|apply Hinv]. eapply fresh_apart; [done|lia|]. subst c. cbn. lia.
Qed.

Lemma arena_inv_push objs s size nb d h' new_cap : arena_inv base old objs s -> 0 <= size <= PTRDIFF_MAX ->
  brk (heap s) <= nb < d -> d mod 8 = 0 -> align8 size <= new_cap <= PTRDIFF_MAX -> d + new_cap < brk h' -> brk h' mod 16 = 0 ->
  live h' = {[ d ]} ∪ ({[ nb ]} ∪ live (heap s)) ->
  arena_inv base old ((d, size) :: objs)
    (mkArenaSt (mkReqArena (first (arena s)) (mkArenaBlock nb new_cap (align8 size) d :: overflow (arena s))
                           (u64 (total_alloc (arena s) + align8 size)) (epoch (arena s))) h').
Proof.
  intros Hinv Hsz Hnb Hd8 Hcap Hbrk Hm Hl. destruct (align8_spec _ Hsz) as [Ha Hm8].
  set (b := mkArenaBlock nb new_cap (align8 size) d).
  assert (Hok := ai_blocks _ _ _ _ Hinv). unfold blocks in Hok. rewrite Forall_app in Hok. destruct Hok as [Hok _].
  assert (Hbase := stacked_le _ _ _ (ai_stack _ _ _ _ Hinv) Hok).
  constructor; cbn [arena heap].
  - constructor; [|apply Hinv]. repeat split; cbn; auto; lia.
  - apply Hinv.
  - cbn. split; [|lia]. eapply stacked_mono; [apply Hinv|]. lia.
  - done.
  - rewrite Hl, (ai_live _ _ _ _ Hinv). cbn [overflow]. rewrite addresses_cons. cbn. set_solver.
  - apply Hinv.
  - constructor.
    + split; [done|]. exists b. split; [set_solver|]. unfold in_block. cbn. lia.
    + eapply Forall_impl; [apply Hinv|]. intros x. apply in_arena_grow. intros b' Hb'.
      exists b'. split; [set_solver|]. lia.
  - constructor; [|apply Hinv]. eapply fresh_apart; [done|lia|].
    pose proof (current_in (arena s)) as Hc. unfold blocks in Hc. apply elem_of_app in Hc.
    assert (Hall := ai_blocks _ _ _ _ Hinv). rewrite Forall_forall in Hall.
    pose proof (Hall _ (current_in (arena s))) as ((? & ?) & _).
    destruct Hc as [Hc|Hc].
    + destruct (stacked_in _ _ _ _ (ai_stack _ _ _ _ Hinv) Hok Hc); lia.
    + apply list_elem_of_singleton in Hc. rewrite Hc in *. pose proof (ai_below _ _ _ _ Hinv). lia.
Qed.

Lemma arena_alloc_spec objs s size : arena_inv base old objs s -> 0 <= size <= PTRDIFF_MAX ->
  exists r s', arena_alloc size s = Ret (r, s') /\
  match r with
  | Some p => arena_inv base old ((p, size) :: objs) s'
  | None => arena s' = arena s /\ arena_inv base old objs s'
  end.
Proof.
  intros Hinv Hsz. destruct (align8_spec _ Hsz) as [Ha Hm8].
  assert (Hall := ai_blocks _ _ _ _ Hinv). rewrite Forall_forall in Hall.
  pose proof (Hall _ (current_in (arena s))) as ((? & ?) & ? & _).
  unfold arena_alloc. cbn [gets bindM res_bind fst snd]. set (c := current (arena s)) in *.
  assert (Hu : u64 (used c + align8 size) = used c + align8 size).
  { unfold PTRDIFF_MAX, u64 in *. apply Z.mod_small. pose proof (Z.div_mod (align8 size) 8). lia. }
  rewrite Hu. destruct (Z.leb_spec (used c + align8 size) (cap c)).
  { do 2 eexists. split; [reflexivity|]. by apply arena_inv_bump. }
  set (new_cap := u64 (cap c * 2)).
  assert (Hcap : 0 <= new_cap) by (unfold new_cap, u64; apply Z.mod_pos_bound; lia).
  set (want := if new_cap <? align8 size then align8 size else new_cap).
  assert (Hwant : align8 size <= want) by (subst want; zb; lia).
  destruct (malloc_spec 32 (heap s)) as (r1 & h1 & E1 & Hm1 & Hr1); [lia|apply Hinv|].
  unfold bindM at 1. unfold on_heap at 1. rewrite E1. cbn [res_bind fst snd arena heap].
  destruct r1 as [nb|]; cycle 1.
  { do 2 eexists. split; [reflexivity|]. cbn. split; [done|]. destruct Hr1 as [Hb1 Hl1], Hinv.
    constructor; cbn [arena heap]; rewrite ?Hb1, ?Hl1; auto. }
  destruct Hr1 as (-> & Hb1 & _ & Hl1).
  destruct (malloc_spec want h1) as (r2 & h2 & E2 & Hm2 & Hr2); [lia|done|].
  unfold bindM at 1. unfold on_heap at 1. cbn [heap]. rewrite E2. cbn [res_bind fst snd arena heap].
  destruct r2 as [d|]; cycle 1.
  { destruct Hr2 as [Hb2 Hl2]. unfold bindM, on_heap. cbn [heap]. rewrite free_spec by set_solver.
    cbn [res_bind fst snd]. do 2 eexists. split; [reflexivity|]. cbn [arena]. split; [done|].
    assert (Hfresh : brk (heap s) ∉ live (heap s)).
    { rewrite (ai_live _ _ _ _ Hinv), elem_of_union. intros [Ho|Hal].
      - apply (ai_old _ _ _ _ Hinv) in Ho. assert (Hok := ai_blocks _ _ _ _ Hinv). unfold blocks in Hok.
        rewrite Forall_app in Hok. pose proof (stacked_le _ _ _ (ai_stack _ _ _ _ Hinv) (proj1 Hok)). lia.
      - assert (Hok := ai_blocks _ _ _ _ Hinv). unfold blocks in Hok. rewrite Forall_app in Hok.
        pose proof (addresses_bound _ _ _ _ (ai_stack _ _ _ _ Hinv) (proj1 Hok) Hal). lia. }
    destruct Hinv. constructor; cbn [arena heap brk live]; auto.
    - eapply stacked_mono; [done|]. lia.
    - rewrite Hl2, Hl1, <- ai_live0. set_solver. }
  destruct Hr2 as (-> & Hb2 & ? & Hl2).
  do 2 eexists. split; [reflexivity|]. apply arena_inv_push; auto; try lia.
  - assert (brk h1 mod 16 = 0) by done. pose proof (Z.div_mod (brk h1) 16).
    replace (brk h1) with (brk h1 / 16 * 2 * 8) by lia. by apply Z.mod_mul.
  - cbn [heap]. by rewrite Hl2, Hl1.
Qed.

Lemma arena_reset_spec objs s : arena_inv base old objs s ->
  exists s', arena_reset s = Ret (tt, s') /\ arena_inv base old [] s' /\ live (heap s') = old.
Proof.
  intros Hinv. assert (Hok := ai_blocks _ _ _ _ Hinv). unfold blocks in Hok. rewrite Forall_app, Forall_singleton in Hok.
  destruct Hok as [Hok Hf].
  destruct (free_blocks_spec base old (overflow (arena s)) (brk (heap s)) (heap s)) as (h' & E & Hl & Hb);
    [apply Hinv|done|apply Hinv|apply Hinv|].
  unfold arena_reset. unfold bindM at 1, gets. cbn [res_bind fst snd]. unfold bindM, on_heap. rewrite E.
  eexists. split; [reflexivity|]. cbn [heap arena fst snd]. split; [|done].
  pose proof (stacked_le _ _ _ (ai_stack _ _ _ _ Hinv) Hok).
  destruct Hinv, Hf as ((? & ?) & ? & ? & ?). constructor; cbn [heap arena fst snd first overflow blocks app stacked]; rewrite ?Hb, ?Hl; auto.
  - constructor; [|constructor]. repeat split; cbn; auto; lia.
  - unfold addresses. set_solver.
  - constructor.
Qed.
End invariant.

(** ** Allocation that cannot fail

    Nothing refuses memory and [n] more bytes may be asked for: a block is at most
    twice as large as what was allocated since the reset, so that the sizes stay
    far from the limit of an object. *)
Record roomy (n : Z) (a : ReqArena) (h : Heap) : Prop := {
  rm_refusals : refusals h = [];
  rm_used : 0 <= used (current a) <= cap (current a) /\ used (current a) <= total_alloc a;
  rm_cap : cap (current a) <= Z.max ARENA_INLINE_SIZE (2 * total_alloc a);
  rm_total : 0 <= total_alloc a /\ total_alloc a + n <= 2 ^ 60
}.

Lemma roomy_le m n a h : roomy n a h -> m <= n -> roomy m a h.
Proof. intros [] ?. constructor; auto; lia. Qed.

Lemma current_set_current a b t : current (set_current a b t) = b.
Proof. unfold set_current, current. by destruct (overflow a). Qed.

Lemma malloc_grants n h : refusals h = [] -> n <= PTRDIFF_MAX ->
  malloc n h = Ret (Some (brk h), mkHeap [] (block_end (brk h) n) ({[ brk h ]} ∪ live h)).
Proof. intros E ?. unfold malloc. rewrite E. cbn [orb tail]. zdec. done. Qed.

Lemma arena_alloc_grants size n a h : 0 <= size -> roomy (n + size + 7) a h -> 0 <= n ->
  exists p a' h', arena_alloc size (mkArenaSt a h) = Ret (Some p, mkArenaSt a' h') /\ roomy n a' h' /\ epoch a' = epoch a.
Proof.
  intros Hs [Href Hused Hcap Htot] Hn. destruct (align8_spec size) as [Ha _]; [unfold PTRDIFF_MAX; lia|].
  unfold ARENA_INLINE_SIZE in *.
  assert (Hu : forall x, 0 <= x < 2 ^ 64 -> u64 x = x) by (intros; by apply Z.mod_small).
  unfold arena_alloc. unfold bindM at 1, gets. cbn [res_bind fst snd arena].
  rewrite (Hu (used (current a) + align8 size)), (Hu (total_alloc a + align8 size)) by lia.
  destruct (Z.leb_spec (used (current a) + align8 size) (cap (current a))).
  { do 3 eexists. split; [reflexivity|]. split; [|by unfold set_current; destruct (overflow a)].
    assert (Htc : forall b t, total_alloc (set_current a b t) = t) by (intros; unfold set_current; by destruct (overflow a)).
    constructor; cbn [heap]; rewrite ?current_set_current, ?Htc; cbn [used set_used cap]; auto; unfold ARENA_INLINE_SIZE; lia. }
  rewrite (Hu (cap (current a) * 2)) by lia.
  set (want := if cap (current a) * 2 <? align8 size then align8 size else cap (current a) * 2).
  assert (Hw : align8 size <= want <= 2 * (total_alloc a + align8 size)) by (subst want; zb; lia).
  unfold bindM at 1, on_heap at 1. cbn [heap]. rewrite (malloc_grants 32 h) by (auto; unfold PTRDIFF_MAX; lia).
  cbn [res_bind fst snd arena]. unfold bindM at 1, on_heap at 1. cbn [heap].
  rewrite malloc_grants by (cbn; auto; unfold PTRDIFF_MAX; lia). cbn [res_bind fst snd arena].
  do 3 eexists. split; [reflexivity|]. split; [|done].
  constructor; cbn; unfold ARENA_INLINE_SIZE; auto; lia.
Qed.

(** ** Any sequence of requests *)

Inductive arena_op : Type := Alloc (size : Z) | Reset.

(** Carries out the operations and collects the objects that were handed out
    since the last reset. *)
Fixpoint run_arena (ops : list arena_op) (objs : list object) : M ArenaSt (list object) :=
  match ops with
  | [] => ret objs
  | Alloc n :: ops =>
    let* r := arena_alloc n in
    run_arena ops (match r with Some p => (p, n) :: objs | None => objs end)
  | Reset :: ops => do* arena_reset in run_arena ops []
  end.

Definition op_ok (o : arena_op) : Prop := match o with Alloc n => 0 <= n <= PTRDIFF_MAX | Reset => True end.

Lemma run_arena_inv base old ops objs s : arena_inv base old objs s -> Forall op_ok ops ->
  exists objs' s', run_arena ops objs s = Ret (objs', s') /\ arena_inv base old objs' s'.
Proof.
  intros Hinv Hops. revert objs s Hinv. induction Hops as [|o ops Ho Hops IH]; intros objs s Hinv.
  { by exists objs, s. }
  destruct o as [n|]; cbn [run_arena].
  - destruct (arena_alloc_spec _ _ _ _ _ Hinv Ho) as (r & s' & E & Hr). rewrite (bindM_ret _ _ _ _ _ E).
    apply IH. destruct r; [done|]. apply Hr.
  - destruct (arena_reset_spec _ _ _ _ Hinv) as (s' & E & Hr & _). rewrite (bindM_ret _ _ _ _ _ E). by apply IH.
Qed.

(** The heap before the arena is made: blocks are below [brk], and so is the
    connection that contains the inline block. *)
Definition heap_ok (h : Heap) (inline_data : Z) : Prop :=
  brk h mod 16 = 0 /\ (forall p, p ∈ live h -> p < brk h) /\
  inline_data mod 8 = 0 /\ inline_data + ARENA_INLINE_SIZE <= brk h.

Lemma arena_init_inv h inline_data : heap_ok h inline_data ->
  arena_inv (brk h) (live h) [] (mkArenaSt (arena_init inline_data) h).
Proof.
  intros (Hb & Hl & Hi & Hle). constructor; cbn; auto; [|lia|unfold addresses; set_solver|constructor].
  repeat constructor; cbn; auto; unfold ARENA_INLINE_SIZE, PTRDIFF_MAX; lia.
Qed.

Lemma arena_init_roomy h inline_data n : refusals h = [] -> n <= 2 ^ 60 -> roomy n (arena_init inline_data) h.
Proof. intros. constructor; cbn; unfold ARENA_INLINE_SIZE; auto; lia. Qed.

Lemma arena_reset_epoch st st' : arena_reset st = Ret (tt, st') -> epoch (arena st') = epoch (arena st) + 1.
Proof.
  unfold arena_reset. unfold bindM at 1, gets. cbn [res_bind fst snd]. unfold bindM, on_heap.
  destruct (forM _ _ _) as [[[] h]| |]; cbn; [|done..]. by intros [= <-].
Qed.

(** C35: whatever the allocations of a connection are, and whichever of them the
    system refuses, the objects handed out since the last reset are aligned to
    eight bytes, lie inside the used part of a block of the arena, and share no
    byte with each other; the operations are defined (no block is released
    twice), and destroying the arena afterwards leaves exactly the blocks in use
    that were in use before. *)
Theorem arena_alloc_correct (h : Heap) (inline_data : Z) (ops : list arena_op) :
  heap_ok h inline_data -> Forall op_ok ops ->
  exists objs s s',
    run_arena ops [] (mkArenaSt (arena_init inline_data) h) = Ret (objs, s) /\
    Forall (in_arena (arena s)) objs /\ ForallOrdPairs apart objs /\
    arena_destroy s = Ret (tt, s') /\ live (heap s') = live h.
Proof.
  intros Hh Hops. pose proof (arena_init_inv _ _ Hh) as Hinv.
  destruct (run_arena_inv _ _ _ _ _ Hinv Hops) as (objs & s & E & Hs).
  destruct (arena_reset_spec _ _ _ _ Hs) as (s' & E' & _ & ?).
  exists objs, s, s'. destruct Hs. auto.
Qed.

(** Allocations that need two overflow blocks, one of which the system refuses
    at first. *)
Definition witness_ops : list arena_op := [Alloc 60000; Alloc 5001; Alloc 100; Alloc 200000; Alloc 262144; Alloc 3].
Definition witness_heap : Heap := mkHeap [false; true] 131072 {[ 16 ]}.

Lemma arena_alloc_correct_witness :
  heap_ok witness_heap 65536 /\
  exists objs s s',
    run_arena witness_ops [] (mkArenaSt (arena_init 65536) witness_heap) = Ret (objs, s) /\
    Forall (in_arena (arena s)) objs /\ ForallOrdPairs apart objs /\
    arena_destroy s = Ret (tt, s') /\ live (heap s') = live witness_heap.
Proof.
  assert (H : heap_ok witness_heap 65536).
  { repeat split; try done. intros p Hp. cbn in *. set_unfold in Hp. subst. lia. }
  split; [exact H|]. apply arena_alloc_correct; [exact H|].
  repeat constructor; cbn; unfold PTRDIFF_MAX; lia.
Defined.
