(* ===== verification/IoPoller.v ===== *)
(** IoPoller: example/server/io_poller.c in its portable build, the table of
    descriptors that a server waits on; Epoll.v and Kqueue.v have the other builds.

    The entries are an array with free places; [poll] of the system is an argument
    of [io_poller_wait], as the events it reports for each descriptor. *)

From S2P Require Import Prelude.

(** ** Data *)

Definition IO_EVENT_READ : Z := 0x01.
Definition IO_EVENT_WRITE : Z := 0x02.
Definition IO_EVENT_ERROR : Z := 0x04.
Definition IO_EVENT_HUP : Z := 0x08.

(** The flags of [poll]. *)
Definition POLLIN : Z := 0x001.
Definition POLLOUT : Z := 0x004.
Definition POLLERR : Z := 0x008.
Definition POLLHUP : Z := 0x010.

Section poller.
Context {U : Type}.

(** [userdata] is an opaque pointer; [None] is [NULL]. *)
Record IOEvent : Type := mkIOEvent { ev_fd : Z; ev_events : Z; ev_userdata : option U }.
Record PollEntry : Type := mkPollEntry { pe_fd : Z; pe_events : Z; pe_userdata : option U }.

(** [capacity] is the length of [entries]. *)
Record IOPoller : Type := mkIOPoller { entries : list PollEntry; pcount : Z }.

(** ** Operations *)

(** [calloc] of the poller and of its entries, which are then marked as free. *)
Definition io_poller_create (max_events : Z) (ok_p ok_e : bool) : option IOPoller :=
  if negb ok_p then None
  else
    let capacity := if 0 <? max_events then max_events else 256 in
    if negb ok_e then None
    else Some (mkIOPoller (replicate (Z.to_nat capacity) (mkPollEntry (-1) 0 None)) 0).

(** How many blocks are freed: those of [io_poller_create]. *)
Definition io_poller_destroy (p : option IOPoller) : Z := match p with None => 0 | Some _ => 2 end.

(** The first index at which the descriptor is [fd], or -1. *)
Fixpoint find_from (l : list PollEntry) (fd i : Z) : Z :=
  match l with
  | [] => -1
  | e :: l => if pe_fd e =? fd then i else find_from l fd (i + 1)
  end.
Definition find_entry (p : IOPoller) (fd : Z) : Z := find_from (entries p) fd 0.

(** The search of the free place is the loop of [io_poller_add]. *)
Definition io_poller_add (p : IOPoller) (fd events : Z) (userdata : option U) : res (Z * IOPoller) :=
  let i := find_from (entries p) (-1) 0 in
  if i <? 0 then Ret (-1, p)
  else
    let! es := wr (entries p) i (mkPollEntry fd events userdata) in
    Ret (0, mkIOPoller es (pcount p + 1)).

Definition io_poller_mod (p : IOPoller) (fd events : Z) (userdata : option U) : res (Z * IOPoller) :=
  let idx := find_entry p fd in
  if idx <? 0 then Ret (-1, p)
  else
    let! e := rd (entries p) idx in
    let! es := wr (entries p) idx (mkPollEntry (pe_fd e) events userdata) in
    Ret (0, mkIOPoller es (pcount p)).

Definition io_poller_del (p : IOPoller) (fd : Z) : res (Z * IOPoller) :=
  let idx := find_entry p fd in
  if idx <? 0 then Ret (-1, p)
  else
    let! e := rd (entries p) idx in
    let! es := wr (entries p) idx (mkPollEntry (-1) (pe_events e) None) in
    Ret (0, mkIOPoller es (pcount p - 1)).

Definition poll_events (events : Z) : Z :=
  let e := if negb (Z.land events IO_EVENT_READ =? 0) then POLLIN else 0 in
  if negb (Z.land events IO_EVENT_WRITE =? 0) then Z.lor e POLLOUT else e.

Definition fired_events (revents : Z) : Z :=
  let e := if negb (Z.land revents POLLIN =? 0) then IO_EVENT_READ else 0 in
  let e := if negb (Z.land revents POLLOUT =? 0) then Z.lor e IO_EVENT_WRITE else e in
  let e := if negb (Z.land revents POLLERR =? 0) then Z.lor e IO_EVENT_ERROR else e in
  if negb (Z.land revents POLLHUP =? 0) then Z.lor e IO_EVENT_HUP else e.

(** The array for [poll]: the descriptor, what is asked for, and the entry it
    comes from ([idx_map]); at most [n] of them. *)
Fixpoint build_pfds (l : list PollEntry) (n : Z) : list (Z * Z * PollEntry) :=
  match l with
  | [] => []
  | e :: l =>
    if n <=? 0 then []
    else if pe_fd e <? 0 then build_pfds l n
    else (pe_fd e, poll_events (pe_events e), e) :: build_pfds l (n - 1)
  end.

(** The events of the array, at most [max_events] of them. *)
Fixpoint fire (l : list (Z * Z * PollEntry)) (revents : Z -> Z -> Z) (max_events : Z) : list IOEvent :=
  match l with
  | [] => []
  | (fd, want, e) :: l =>
    if max_events <=? 0 then []
    else if revents fd want =? 0 then fire l revents max_events
    else mkIOEvent (pe_fd e) (fired_events (revents fd want)) (pe_userdata e) :: fire l revents (max_events - 1)
  end.

(** [poll]: [None] when the call fails, otherwise what it reports for a descriptor
    and the events asked for. [ok1], [ok2]: the two allocations. The events and
    the result of the call. *)
Definition io_poller_wait (p : IOPoller) (max_events : Z) (ok1 ok2 : bool) (poll : option (Z -> Z -> Z)) : list IOEvent * Z :=
  if negb ok1 then ([], -1)
  else if negb ok2 then ([], -1)
  else
    let pfds := build_pfds (entries p) (pcount p) in
    match poll with
    | None => ([], -1)
    | Some revents =>
      let ready := countb (fun x => negb (revents (fst (fst x)) (snd (fst x)) =? 0)) pfds in
      if ready =? 0 then ([], 0)
      else
        let out := fire pfds revents max_events in
        (out, zlen out)
    end.

End poller.
Arguments IOEvent : clear implicits.
Arguments PollEntry : clear implicits.
Arguments IOPoller : clear implicits.

(** ** The poller as a finite map *)

Section refinement.
Context {U : Type}.

Definition in_use (e : PollEntry U) : bool := negb (pe_fd e =? -1).

(** The descriptors that are waited on, with what is asked for each of them. *)
Definition watched (p : IOPoller U) : gmap Z (Z * option U) :=
  list_to_map ((fun e => (pe_fd e, (pe_events e, pe_userdata e))) <$> filter in_use (entries p)).

Record poller_ok (p : IOPoller U) : Prop := {
  po_fds : Forall (fun e => -1 <= pe_fd e) (entries p);
  po_nodup : NoDup (pe_fd <$> filter in_use (entries p));
  po_count : pcount p = zlen (filter in_use (entries p))
}.

Inductive poller_op : Type :=
| Add (fd events : Z) (u : option U)
| Mod (fd events : Z) (u : option U)
| Del (fd : Z).

Definition poller_run (p : IOPoller U) (o : poller_op) : res (Z * IOPoller U) :=
  match o with
  | Add fd ev u => io_poller_add p fd ev u
  | Mod fd ev u => io_poller_mod p fd ev u
  | Del fd => io_poller_del p fd
  end.

(** What the operations mean for a map of at most [cap] descriptors. *)
Definition map_run (cap : Z) (m : gmap Z (Z * option U)) (o : poller_op) : Z * gmap Z (Z * option U) :=
  match o with
  | Add fd ev u => if Z.of_nat (size m) <? cap then (0, <[fd := (ev, u)]> m) else (-1, m)
  | Mod fd ev u => if decide (is_Some (m !! fd)) then (0, <[fd := (ev, u)]> m) else (-1, m)
  | Del fd => if decide (is_Some (m !! fd)) then (0, delete fd m) else (-1, m)
  end.

(** A descriptor is not negative, and one that is added is not there yet. *)
Definition op_fits (m : gmap Z (Z * option U)) (o : poller_op) : Prop :=
  match o with
  | Add fd _ _ => 0 <= fd /\ m !! fd = None
  | Mod fd _ _ | Del fd => 0 <= fd
  end.

Definition view (e : PollEntry U) : Z * (Z * option U) := (pe_fd e, (pe_events e, pe_userdata e)).
Definition table (l : list (PollEntry U)) : gmap Z (Z * option U) := list_to_map (view <$> filter in_use l).
Definition fds (l : list (PollEntry U)) : list Z := pe_fd <$> filter in_use l.

Lemma fds_view l : (view <$> filter in_use l).*1 = fds l.
Proof. unfold fds. by rewrite <- list_fmap_compose. Qed.

Lemma find_from_spec l fd i : 0 <= i ->
  (find_from l fd i = -1 /\ Forall (fun e => pe_fd e <> fd) l) \/
  exists l1 (e : PollEntry U) l2, l = l1 ++ e :: l2 /\ pe_fd e = fd /\ find_from l fd i = i + zlen l1.
Proof.
  revert i. induction l as [|e l IH]; intros i Hi; cbn; [by left|].
  zb.
  - right. exists [], e, l. split; [done|]. split; [done|]. unfold zlen. cbn. lia.
  - destruct (IH (i + 1)) as [[-> H]|(l1 & e' & l2 & -> & ? & ->)]; [lia|left; auto|].
    right. exists (e :: l1), e', l2. split; [done|]. split; [done|]. unfold zlen. cbn. lia.
Qed.

Lemma rd_mid {A} (l1 l2 : list A) e : rd (l1 ++ e :: l2) (zlen l1) = Ret e.
Proof.
  apply rd_ret. split; [apply zlen_nonneg|]. unfold zlen. rewrite Nat2Z.id. by apply list_lookup_middle.
Qed.
Lemma wr_mid {A} (l1 l2 : list A) e e' : wr (l1 ++ e :: l2) (zlen l1) e' = Ret (l1 ++ e' :: l2).
Proof.
  rewrite wr_ret by (rewrite zlen_app; unfold zlen; cbn; lia). unfold zlen. rewrite Nat2Z.id.
  by rewrite insert_app_r_alt, Nat.sub_diag by lia.
Qed.

(** The table with one more entry, and with a free place. *)
Lemma filter_mid (l1 l2 : list (PollEntry U)) e : filter in_use (l1 ++ e :: l2) ≡ₚ
  if in_use e then e :: filter in_use (l1 ++ l2) else filter in_use (l1 ++ l2).
Proof.
  rewrite !filter_app, filter_cons. destruct (in_use e); cbn; [|done].
  symmetry. apply Permutation_middle.
Qed.

Lemma table_mid l1 l2 e : NoDup (fds (l1 ++ e :: l2)) ->
  table (l1 ++ e :: l2) = if in_use e then <[pe_fd e := (pe_events e, pe_userdata e)]> (table (l1 ++ l2)) else table (l1 ++ l2).
Proof.
  intros Hnd. unfold table. pose proof (filter_mid l1 l2 e) as Hp.
  rewrite (list_to_map_proper _ (view <$> if in_use e then e :: filter in_use (l1 ++ l2) else filter in_use (l1 ++ l2))).
  - by destruct (in_use e).
  - by rewrite fds_view.
  - by apply fmap_Permutation.
Qed.

Lemma fds_mid l1 l2 e : fds (l1 ++ e :: l2) ≡ₚ if in_use e then pe_fd e :: fds (l1 ++ l2) else fds (l1 ++ l2).
Proof. unfold fds. rewrite filter_mid. by destruct (in_use e). Qed.

Lemma table_lookup_None l fd : fd ∉ fds l <-> table l !! fd = None.
Proof. unfold table. rewrite <- not_elem_of_list_to_map, fds_view. done. Qed.

Lemma table_size l : NoDup (fds l) -> size (table l) = length (filter in_use l).
Proof.
  intros H. unfold table. rewrite <- length_map_to_list.
  rewrite map_to_list_to_map by (by rewrite fds_view). by rewrite length_fmap.
Qed.

Lemma filter_le (l : list (PollEntry U)) : (length (filter in_use l) <= length l)%nat.
Proof. apply length_filter. Qed.

Lemma fds_not_in l fd : Forall (fun e : PollEntry U => pe_fd e <> fd) l -> fd ∉ fds l.
Proof.
  intros H. unfold fds. rewrite list_elem_of_fmap. intros (e & -> & [_ He]%list_elem_of_filter).
  rewrite Forall_forall in H. by apply (H e).
Qed.

Lemma full_filter (l : list (PollEntry U)) : Forall (fun e => pe_fd e <> -1) l -> filter in_use l = l.
Proof.
  induction 1 as [|e l He _ IH]; [done|]. rewrite filter_cons, IH. unfold in_use.
  rewrite (proj2 (Z.eqb_neq _ _) He). done.
Qed.

(** Replacing the entry in the middle by one that is in use or free. *)
Lemma poller_ok_mid l1 l2 e n : Forall (fun e => -1 <= pe_fd e) (l1 ++ l2) -> -1 <= pe_fd e ->
  NoDup (fds (l1 ++ e :: l2)) -> n = zlen (filter in_use (l1 ++ e :: l2)) ->
  poller_ok (mkIOPoller (l1 ++ e :: l2) n).
Proof.
  intros Hf He Hnd ->. constructor; cbn [entries pcount]; auto.
  rewrite Forall_app in *. destruct Hf. auto.
Qed.

Lemma zlen_filter_mid (l1 l2 : list (PollEntry U)) e :
  zlen (filter in_use (l1 ++ e :: l2)) = zlen (filter in_use (l1 ++ l2)) + if in_use e then 1 else 0.
Proof. unfold zlen. rewrite (filter_mid l1 l2 e). destruct (in_use e); cbn; lia. Qed.

Lemma NoDup_fds_mid l1 l2 e : NoDup (fds (l1 ++ l2)) -> (in_use e -> pe_fd e ∉ fds (l1 ++ l2)) -> NoDup (fds (l1 ++ e :: l2)).
Proof. intros ? ?. rewrite fds_mid. destruct (in_use e); [|done]. constructor; auto. Qed.

Lemma NoDup_fds_mid_inv l1 l2 e : NoDup (fds (l1 ++ e :: l2)) ->
  NoDup (fds (l1 ++ l2)) /\ (in_use e -> pe_fd e ∉ fds (l1 ++ l2)).
Proof. rewrite fds_mid. destruct (in_use e); [rewrite NoDup_cons; naive_solver|]. intros; split; [done|]. naive_solver. Qed.

Lemma in_use_fd e : 0 <= pe_fd e -> in_use e = true.
Proof. intros. unfold in_use. zdec. done. Qed.

Lemma Forall_mid_inv {A} (Q : A -> Prop) l1 l2 e : Forall Q (l1 ++ e :: l2) -> Q e /\ Forall Q (l1 ++ l2).
Proof. rewrite !Forall_app, Forall_cons. tauto. Qed.

(** The operation on the poller and on the map agree. *)
Definition run_refines (p : IOPoller U) (o : poller_op) : Prop :=
  exists r p', poller_run p o = Ret (r, p') /\ poller_ok p' /\ length (entries p') = length (entries p) /\
    (r, watched p') = map_run (zlen (entries p)) (watched p) o.

Lemma add_refines p fd ev u : poller_ok p -> op_fits (watched p) (Add fd ev u) -> run_refines p (Add fd ev u).
Proof.
  intros Hok Hfit. pose proof Hok as [Hf Hnd Hc]. destruct p as [l n]. unfold run_refines. cbn [entries pcount] in *.
  change (watched (mkIOPoller l n)) with (table l) in *. change (NoDup (fds l)) in Hnd.
  cbn [poller_run map_run op_fits] in *.
  destruct Hfit as [Hfd Hnew]. unfold io_poller_add. cbn [entries pcount].
  rewrite (table_size l Hnd).
  destruct (find_from_spec l (-1) 0) as [[-> Hall]|(l1 & e & l2 & -> & He & ->)]; [lia| |].
  - rewrite (full_filter l Hall). cbn. eexists _, _. split; [done|]. split; [done|]. split; [done|].
    unfold zlen. by rewrite Z.ltb_irrefl.
  - pose proof (zlen_nonneg l1). rewrite Z.add_0_l. zdec. rewrite wr_mid. cbn [res_bind].
    destruct (NoDup_fds_mid_inv _ _ _ Hnd) as [Hnd' _].
    assert (Hu : in_use e = false) by (unfold in_use; by rewrite He).
    assert (Hu' : in_use (mkPollEntry fd ev u) = true) by by apply in_use_fd.
    assert (Htab := table_mid _ _ _ Hnd). rewrite Hu in Htab. rewrite Htab in *.
    assert (Hnd'' : NoDup (fds (l1 ++ mkPollEntry fd ev u :: l2))).
    { apply NoDup_fds_mid; [done|]. intros _. by apply table_lookup_None. }
    eexists _, _. split; [done|]. apply Forall_mid_inv in Hf as [_ Hf].
    split; [|split].
    + apply poller_ok_mid; auto; [cbn; lia|]. rewrite Hc, !zlen_filter_mid, Hu, Hu'. lia.
    + cbn [entries]. rewrite !length_app. done.
    + pose proof (filter_le (l1 ++ l2)). pose proof (zlen_filter_mid l1 l2 e) as Hz. rewrite Hu in Hz.
      unfold zlen in *. rewrite !length_app in *. cbn [length] in *. zdec.
      change (watched _) with (table (l1 ++ mkPollEntry fd ev u :: l2)). rewrite (table_mid _ _ _ Hnd''), Hu'. done.
Qed.

Lemma mod_refines p fd ev u : poller_ok p -> op_fits (watched p) (Mod fd ev u) -> run_refines p (Mod fd ev u).
Proof.
  intros Hok Hfit. pose proof Hok as [Hf Hnd Hc]. destruct p as [l n]. unfold run_refines. cbn [entries pcount] in *.
  change (watched (mkIOPoller l n)) with (table l) in *. change (NoDup (fds l)) in Hnd.
  cbn [poller_run map_run op_fits] in *.
  unfold io_poller_mod, find_entry. cbn [entries pcount].
  destruct (find_from_spec l fd 0) as [[-> Hall]|(l1 & e & l2 & -> & He & ->)]; [lia| |].
  - cbn. eexists _, _. split; [done|]. split; [done|]. split; [done|].
    apply fds_not_in, table_lookup_None in Hall. change (watched _) with (table l). rewrite Hall.
    by rewrite decide_False by (intros []%is_Some_None).
  - pose proof (zlen_nonneg l1). rewrite Z.add_0_l. zdec. rewrite rd_mid. cbn [res_bind]. rewrite wr_mid. cbn [res_bind].
    subst fd. destruct (NoDup_fds_mid_inv _ _ _ Hnd) as [Hnd' Hnin].
    assert (Hu : in_use e = true) by by apply in_use_fd.
    assert (Htab := table_mid _ _ _ Hnd). rewrite Hu in Htab. rewrite Htab in *.
    assert (Hnd'' : NoDup (fds (l1 ++ mkPollEntry (pe_fd e) ev u :: l2))) by (apply NoDup_fds_mid; auto).
    eexists _, _. split; [done|]. apply Forall_mid_inv in Hf as [? Hf].
    split; [|split].
    + apply poller_ok_mid; auto. rewrite Hc, !zlen_filter_mid. by rewrite Hu, in_use_fd.
    + cbn [entries]. rewrite !length_app. done.
    + rewrite decide_True by (rewrite lookup_insert_eq; eauto).
      change (watched _) with (table (l1 ++ mkPollEntry (pe_fd e) ev u :: l2)).
      rewrite (table_mid _ _ _ Hnd''), in_use_fd by done. cbn. by rewrite insert_insert_eq.
Qed.

Lemma del_refines p fd : poller_ok p -> op_fits (watched p) (Del fd) -> run_refines p (Del fd).
Proof.
  intros Hok Hfit. pose proof Hok as [Hf Hnd Hc]. destruct p as [l n]. unfold run_refines. cbn [entries pcount] in *.
  change (watched (mkIOPoller l n)) with (table l) in *. change (NoDup (fds l)) in Hnd.
  cbn [poller_run map_run op_fits] in *.
  unfold io_poller_del, find_entry. cbn [entries pcount].
  destruct (find_from_spec l fd 0) as [[-> Hall]|(l1 & e & l2 & -> & He & ->)]; [lia| |].
  - cbn. eexists _, _. split; [done|]. split; [done|]. split; [done|].
    apply fds_not_in, table_lookup_None in Hall. change (watched _) with (table l). rewrite Hall.
    by rewrite decide_False by (intros []%is_Some_None).
  - pose proof (zlen_nonneg l1). rewrite Z.add_0_l. zdec. rewrite rd_mid. cbn [res_bind]. rewrite wr_mid. cbn [res_bind].
    subst fd. destruct (NoDup_fds_mid_inv _ _ _ Hnd) as [Hnd' Hnin].
    assert (Hu : in_use e = true) by by apply in_use_fd.
    assert (Htab := table_mid _ _ _ Hnd). rewrite Hu in Htab. rewrite Htab in *.
    assert (Hnd'' : NoDup (fds (l1 ++ mkPollEntry (-1) (pe_events e) None :: l2))) by (apply NoDup_fds_mid; [done|intros []]).
    eexists _, _. split; [done|]. apply Forall_mid_inv in Hf as [? Hf].
    split; [|split].
    + apply poller_ok_mid; auto; [cbn; lia|]. rewrite Hc, !zlen_filter_mid, Hu. cbn. lia.
    + cbn [entries]. rewrite !length_app. done.
    + rewrite decide_True by (rewrite lookup_insert_eq; eauto).
      change (watched _) with (table (l1 ++ mkPollEntry (-1) (pe_events e) None :: l2)).
      rewrite (table_mid _ _ _ Hnd''). cbn. rewrite delete_insert_id; [done|]. apply table_lookup_None, Hnin. by rewrite Hu.
Qed.

Lemma poller_run_refines p o : poller_ok p -> op_fits (watched p) o -> run_refines p o.
Proof. destruct o; auto using add_refines, mod_refines, del_refines. Qed.

Lemma build_pfds_all (l : list (PollEntry U)) n : Forall (fun e => -1 <= pe_fd e) l -> zlen (filter in_use l) <= n ->
  build_pfds l n = (fun e => (pe_fd e, poll_events (pe_events e), e)) <$> filter in_use l.
Proof.
  intros Hf. revert n. induction Hf as [|e l He Hf IH]; intros n Hn; [done|]. cbn [build_pfds].
  destruct (in_use e) eqn:E; unfold in_use in E; destruct (Z.eqb_spec (pe_fd e) (-1)) as [E'|E']; try discriminate.
  - assert (Hu : Is_true (in_use e)) by (unfold in_use; by rewrite (proj2 (Z.eqb_neq _ _) E')).
    rewrite filter_cons_True by done. rewrite filter_cons_True in Hn by done.
    unfold zlen in Hn. cbn [length] in Hn. zdec. cbn. f_equal. apply IH. unfold zlen. lia.
  - assert (Hu : ~ Is_true (in_use e)) by (unfold in_use; rewrite E'; exact id).
    rewrite filter_cons_False by done. rewrite filter_cons_False in Hn by done.
    destruct (Z.leb_spec n 0).
    + assert (filter in_use l = []) as -> by (destruct (filter in_use l); [done|unfold zlen in *; cbn in *; lia]). done.
    + rewrite E'. cbn. by apply IH.
Qed.

Definition fired (revents : Z -> Z -> Z) (e : PollEntry U) : bool := negb (revents (pe_fd e) (poll_events (pe_events e)) =? 0).

Lemma fire_all (l : list (PollEntry U)) revents n : zlen l <= n ->
  fire ((fun e => (pe_fd e, poll_events (pe_events e), e)) <$> l) revents n =
  (fun e => mkIOEvent (pe_fd e) (fired_events (revents (pe_fd e) (poll_events (pe_events e)))) (pe_userdata e)) <$> filter (fired revents) l.
Proof.
  revert n. induction l as [|e l IH]; intros n Hn; [done|]. unfold zlen in Hn. cbn in Hn. cbn [fmap list_fmap fire]. zdec.
  destruct (Z.eqb_spec (revents (pe_fd e) (poll_events (pe_events e))) 0) as [E|E].
  - rewrite filter_cons_False by (unfold fired; rewrite E; exact id). apply IH. unfold zlen. lia.
  - rewrite filter_cons_True by (unfold fired; by rewrite (proj2 (Z.eqb_neq _ _) E)). cbn. f_equal. apply IH. unfold zlen. lia.
Qed.

Lemma ready_none (l : list (PollEntry U)) revents :
  countb (fun x => negb (revents (fst (fst x)) (snd (fst x)) =? 0)) ((fun e => (pe_fd e, poll_events (pe_events e), e)) <$> l) = 0 ->
  filter (fired revents) l = [].
Proof.
  induction l as [|e l IH]; [done|]. intros H. unfold countb, zlen in *. cbn in H.
  destruct (Z.eqb_spec (revents (pe_fd e) (poll_events (pe_events e))) 0) as [E|E]; cbn in H; [|lia].
  rewrite filter_cons_False by (unfold fired; rewrite E; exact id). by apply IH.
Qed.

Lemma table_Some l fd ev u : NoDup (fds l) ->
  table l !! fd = Some (ev, u) <-> exists e, e ∈ filter in_use l /\ pe_fd e = fd /\ pe_events e = ev /\ pe_userdata e = u.
Proof.
  intros H. unfold table. rewrite <- elem_of_list_to_map by (by rewrite fds_view).
  rewrite list_elem_of_fmap. unfold view. split.
  - intros (e & [= -> -> ->] & He). eauto 10.
  - intros (e & He & <- & <- & <-). eauto.
Qed.

Lemma wait_reports p revents max_events : poller_ok p -> Z.of_nat (size (watched p)) <= max_events ->
  exists out, io_poller_wait p max_events true true (Some revents) = (out, zlen out) /\ NoDup (ev_fd <$> out) /\
  forall fd ev u, mkIOEvent fd ev u ∈ out <->
    exists want, watched p !! fd = Some (want, u) /\ revents fd (poll_events want) <> 0 /\
                 ev = fired_events (revents fd (poll_events want)).
Proof.
  intros [Hf Hnd Hc] Hmax. destruct p as [l n]. cbn [entries pcount] in *. subst n.
  change (watched _) with (table l) in *. change (NoDup (fds l)) in Hnd. rewrite (table_size l Hnd) in Hmax.
  unfold io_poller_wait. cbn [negb entries pcount]. rewrite build_pfds_all by (auto; lia).
  set (live := filter in_use l) in *.
  set (out := (fun e => mkIOEvent (pe_fd e) (fired_events (revents (pe_fd e) (poll_events (pe_events e)))) (pe_userdata e)) <$> filter (fired revents) live).
  exists out. split; [|split].
  - rewrite (fire_all live) by done. change (fmap _ (filter (fired revents) live)) with out. zb; [|done].
    assert (out = []) as ->; [|done]. subst out.
    by rewrite (ready_none _ _ e).
  - subst out. rewrite <- list_fmap_compose. unfold compose. cbn [ev_fd].
    eapply sublist_NoDup; [exact Hnd|]. unfold fds. apply (fmap_sublist pe_fd), sublist_filter.
  - intros fd ev u. subst out. rewrite list_elem_of_fmap. unfold fired. split.
    + intros (e & [= -> -> ->] & [Hr He]%list_elem_of_filter). exists (pe_events e).
      rewrite (table_Some l) by done. split; [eauto 10|]. split; [|done]. zb; [done|]. done.
    + intros (want & (e & He & <- & <- & <-)%(table_Some l) & Hr & ->); [|done].
      exists e. split; [done|]. apply list_elem_of_filter. split; [|done]. by rewrite (proj2 (Z.eqb_neq _ _) Hr).
Qed.

(** The operations one after the other, on the poller and on the map. *)
Fixpoint poller_runs (p : IOPoller U) (ops : list poller_op) : res (list Z * IOPoller U) :=
  match ops with
  | [] => Ret ([], p)
  | o :: ops => let! '(r, p) := poller_run p o in let! '(rs, p) := poller_runs p ops in Ret (r :: rs, p)
  end.
Fixpoint map_runs (cap : Z) (m : gmap Z (Z * option U)) (ops : list poller_op) : list Z * gmap Z (Z * option U) :=
  match ops with
  | [] => ([], m)
  | o :: ops => let '(r, m) := map_run cap m o in let '(rs, m) := map_runs cap m ops in (r :: rs, m)
  end.
Fixpoint ops_fit (cap : Z) (m : gmap Z (Z * option U)) (ops : list poller_op) : Prop :=
  match ops with
  | [] => True
  | o :: ops => op_fits m o /\ ops_fit cap (snd (map_run cap m o)) ops
  end.

Lemma poller_runs_refine p ops : poller_ok p -> ops_fit (zlen (entries p)) (watched p) ops ->
  exists rs p', poller_runs p ops = Ret (rs, p') /\ poller_ok p' /\ length (entries p') = length (entries p) /\
    (rs, watched p') = map_runs (zlen (entries p)) (watched p) ops.
Proof.
  revert p. induction ops as [|o ops IH]; intros p Hok Hfit; [by exists [], p|].
  destruct Hfit as [Hfit Hrest]. destruct (poller_run_refines _ _ Hok Hfit) as (r & p' & E & Hok' & Hlen & Hm).
  assert (Hz : zlen (entries p') = zlen (entries p)) by (unfold zlen; lia).
  rewrite <- Hm in Hrest. cbn in Hrest. rewrite <- Hz in Hrest.
  destruct (IH _ Hok' Hrest) as (rs & p'' & E' & ? & ? & Hm').
  exists (r :: rs), p''. cbn. rewrite E. cbn. rewrite E'. split; [done|]. split; [done|]. split; [lia|].
  rewrite <- Hm, <- Hz, <- Hm'. done.
Qed.
End refinement.
Arguments poller_op : clear implicits.

(** A new poller is an empty map. *)
Lemma create_watched {U} max_events (p : IOPoller U) : 0 < max_events -> io_poller_create max_events true true = Some p ->
  poller_ok p /\ zlen (entries p) = max_events /\ watched p = ∅.
Proof.
  intros Hpos Hc. unfold io_poller_create in Hc. cbn [negb] in Hc.
  rewrite (proj2 (Z.ltb_lt 0 max_events)) in Hc by lia. injection Hc as <-. set (p := mkIOPoller _ _).
  assert (Hfree : filter in_use (entries p) = []).
  { subst p. cbn. induction (Z.to_nat max_events); [done|]. cbn [replicate]. by rewrite filter_cons_False by exact id. }
  split; [|split; [subst p; cbn; rewrite zlen_replicate; lia|unfold watched; by rewrite Hfree]].
  constructor; rewrite ?Hfree; [|constructor|done]. subst p. cbn. apply Forall_replicate. cbn. lia.
Qed.

(** C37: a poller is a finite map from descriptors to the events asked for and the
    user's pointer. From an empty poller, any sequence of additions of new
    descriptors, changes and removals returns what the operations on a map of at
    most [max_events] descriptors return and leaves that map; a wait then reports
    each descriptor of the map for which the system has an event, once, with the
    translated events and its pointer, and nothing else. *)
Theorem io_poller_refines {U} (max_events : Z) (p : IOPoller U) (ops : list (poller_op U)) (revents : Z -> Z -> Z) :
  0 < max_events -> io_poller_create max_events true true = Some p -> ops_fit max_events ∅ ops ->
  exists rs p' m out,
    poller_runs p ops = Ret (rs, p') /\ map_runs max_events ∅ ops = (rs, m) /\
    io_poller_wait p' max_events true true (Some revents) = (out, zlen out) /\ NoDup (ev_fd <$> out) /\
    forall fd ev u, mkIOEvent fd ev u ∈ out <->
      exists want, m !! fd = Some (want, u) /\ revents fd (poll_events want) <> 0 /\
                   ev = fired_events (revents fd (poll_events want)).
Proof.
  intros Hpos Hc Hfit. destruct (create_watched max_events p Hpos Hc) as (Hok & Hz & Hw).
  rewrite <- Hz, <- Hw in Hfit. destruct (poller_runs_refine _ _ Hok Hfit) as (rs & p' & E & Hok' & Hlen & Hm).
  rewrite Hz, Hw in Hm.
  destruct (wait_reports p' revents max_events Hok') as (out & ? & ? & ?).
  { change (watched p') with (table (entries p')). rewrite table_size by apply Hok'.
    pose proof (filter_le (entries p')). unfold zlen in Hz. lia. }
  exists rs, p', (watched p'), out. auto.
Qed.

(** Two descriptors are added and the second is removed again; the third addition
    finds the poller full. *)
Definition witness_poller_ops : list (poller_op Z) :=
  [Add 5 1 (Some 50); Add 6 1 (Some 60); Add 7 1 None; Mod 5 3 (Some 51); Del 6].

Lemma io_poller_refines_witness :
  ops_fit 2 ∅ witness_poller_ops /\
  exists rs p' m out,
    poller_runs (mkIOPoller (replicate 2 (mkPollEntry (-1) 0 None)) 0) witness_poller_ops = Ret (rs, p') /\
    map_runs 2 ∅ witness_poller_ops = (rs, m) /\
    io_poller_wait p' 2 true true (Some (fun fd want => want)) = (out, zlen out) /\ NoDup (ev_fd <$> out) /\
    forall fd ev u, mkIOEvent fd ev u ∈ out <->
      exists want, m !! fd = Some (want, u) /\ poll_events want <> 0 /\ ev = fired_events (poll_events want).
Proof.
  assert (H : ops_fit 2 ∅ witness_poller_ops) by (vm_compute; repeat split; try done).
  split; [exact H|]. apply (io_poller_refines 2 _ _ (fun _ want => want)); [lia|reflexivity|exact H].
Defined.
