(* ===== verification/Epoll.v ===== *)
(** Epoll: example/server/io_poller.c in its Linux build.

    The kernel is the class [EpollSys], the calls that the code makes; what their manual
    pages promise is the class [EpollLaws], stated over the interest list of an epoll
    instance. A kernel whose lists are maps is an instance ([EKernel]). *)

From S2P Require Import Prelude IoPoller.

Definition EPOLLIN : Z := 0x001.
Definition EPOLLOUT : Z := 0x004.
Definition EPOLLERR : Z := 0x008.
Definition EPOLLHUP : Z := 0x010.

Inductive EpollOp : Type := EPOLL_CTL_ADD | EPOLL_CTL_MOD | EPOLL_CTL_DEL.

(** [struct epoll_event]: the events and [data.ptr]. *)
Record EpollEvent (U : Type) : Type := mkEpollEvent { epe_events : Z; epe_data : option U }.
Arguments mkEpollEvent {U}.
Arguments epe_events {U}.
Arguments epe_data {U}.

(** The calls, with the state [K] of the kernel. [epoll_wait] returns the events that it writes to
    the array, or fails, with [true] for [EINTR]. *)
Class EpollSys (U K : Type) : Type := {
  epoll_create1 : M K Z;
  epoll_ctl : Z -> EpollOp -> Z -> option (EpollEvent U) -> M K Z;
  epoll_wait : Z -> Z -> Z -> M K (bool + list (EpollEvent U));
  epoll_close : Z -> M K unit
}.

(** ** The code *)

Section code.
Context {U K : Type} `{!EpollSys U K}.

(** [struct IOPoller]; [ep_events] is the array for [epoll_wait]. *)
Record EpollPoller : Type := mkEpollPoller { epfd : Z; max_events : Z; ep_events : list (EpollEvent U) }.

(** [ok_p], [ok_e]: the two allocations. *)
Definition io_poller_create (max : Z) (ok_p ok_e : bool) : M K (option EpollPoller) :=
  if negb ok_p then ret None
  else
    let* fd := epoll_create1 in
    if fd <? 0 then ret None
    else
      let max := if 0 <? max then max else 256 in
      if negb ok_e then do* epoll_close fd in ret None
      else ret (Some (mkEpollPoller fd max (replicate (Z.to_nat max) (mkEpollEvent 0 None)))).

Definition io_poller_destroy (p : option EpollPoller) : M K unit :=
  match p with None => ret tt | Some p => epoll_close (epfd p) end.

Definition to_epoll_events (ev : Z) : Z :=
  let e := if negb (Z.land ev IO_EVENT_READ =? 0) then EPOLLIN else 0 in
  if negb (Z.land ev IO_EVENT_WRITE =? 0) then Z.lor e EPOLLOUT else e.

Definition from_epoll_events (ep : Z) : Z :=
  let ev := if negb (Z.land ep EPOLLIN =? 0) then IO_EVENT_READ else 0 in
  let ev := if negb (Z.land ep EPOLLOUT =? 0) then Z.lor ev IO_EVENT_WRITE else ev in
  let ev := if negb (Z.land ep EPOLLERR =? 0) then Z.lor ev IO_EVENT_ERROR else ev in
  if negb (Z.land ep EPOLLHUP =? 0) then Z.lor ev IO_EVENT_HUP else ev.

Definition io_poller_add (p : EpollPoller) (fd events : Z) (userdata : option U) : M K Z :=
  epoll_ctl (epfd p) EPOLL_CTL_ADD fd (Some (mkEpollEvent (to_epoll_events events) userdata)).

Definition io_poller_mod (p : EpollPoller) (fd events : Z) (userdata : option U) : M K Z :=
  epoll_ctl (epfd p) EPOLL_CTL_MOD fd (Some (mkEpollEvent (to_epoll_events events) userdata)).

Definition io_poller_del (p : EpollPoller) (fd : Z) : M K Z := epoll_ctl (epfd p) EPOLL_CTL_DEL fd None.

(** The events for the caller, the result, and the poller with its array. *)
Definition io_poller_wait (p : EpollPoller) (max timeout_ms : Z) : M K (list (IOEvent U) * Z * EpollPoller) :=
  let cap := if max <? max_events p then max else max_events p in
  let* r := epoll_wait (epfd p) cap timeout_ms in
  match r with
  | inl eintr => ret ([], if (eintr : bool) then 0 else -1, p)
  | inr l =>
    let p := mkEpollPoller (epfd p) (max_events p) (l ++ drop (length l) (ep_events p)) in
    ret ((fun e => mkIOEvent (-1) (from_epoll_events (epe_events e)) (epe_data e)) <$> take (length l) (ep_events p), zlen l, p)
  end.

Definition poller_run (p : EpollPoller) (o : poller_op U) : M K Z :=
  match o with
  | Add fd ev u => io_poller_add p fd ev u
  | Mod fd ev u => io_poller_mod p fd ev u
  | Del fd => io_poller_del p fd
  end.
End code.
Arguments EpollPoller : clear implicits.

(** ** What the manual promises *)

(** What a successful [epoll_ctl] does to the interest list; [None] when the manual has an error for
    the list itself (EEXIST, ENOENT) or for a missing event (EFAULT). *)
Definition ctl_effect {U} (op : EpollOp) (fd : Z) (a : option (EpollEvent U)) (l : gmap Z (EpollEvent U)) : option (gmap Z (EpollEvent U)) :=
  match op, l !! fd, a with
  | EPOLL_CTL_ADD, None, Some v | EPOLL_CTL_MOD, Some _, Some v => Some (<[fd := v]> l)
  | EPOLL_CTL_DEL, Some _, _ => Some (delete fd l)
  | _, _, _ => None
  end.

(** [interest k e]: the interest list of the instance [e]. [instance_open k e]: [e] is the
    descriptor of an instance (else EBADF, EINVAL). [watchable k e fd]: [fd] is open, can be watched
    and is not [e] itself (else EBADF, EPERM, EINVAL, ELOOP). [serves k n]: the kernel has the memory
    and the watches for [n] more operations (else ENOMEM, ENOSPC). A call returns 0 and has its
    effect, or returns -1 and has none; it must succeed only when none of the errors applies.
    [awake k fd want]: the events of [want], and errors and hang-ups, that the descriptor has. *)
Class EpollLaws (U K : Type) `{!EpollSys U K} : Type := {
  interest : K -> Z -> gmap Z (EpollEvent U);
  instance_open : K -> Z -> Prop;
  watchable : K -> Z -> Z -> Prop;
  serves : K -> nat -> Prop;
  awake : K -> Z -> Z -> Z;
  create_law k : exists e k', epoll_create1 k = Ret (e, k') /\ (e = -1 \/ 0 <= e /\ instance_open k' e /\ interest k' e = ∅);
  ctl_law k e op fd a : exists r k', epoll_ctl e op fd a k = Ret (r, k') /\
    (r = 0 /\ ctl_effect op fd a (interest k e) = Some (interest k' e) \/ r = -1 /\ interest k' e = interest k e) /\
    (instance_open k e -> watchable k e fd -> serves k 1 -> is_Some (ctl_effect op fd a (interest k e)) -> r = 0) /\
    (forall n, serves k (S n) -> serves k' n) /\ (instance_open k e -> instance_open k' e) /\ (forall fd', watchable k e fd' -> watchable k' e fd');
  serves_le k n n' : serves k n -> (n' <= n)%nat -> serves k n';
  wait_law k e cap t : 0 < cap -> exists r k', epoll_wait e cap t k = Ret (r, k') /\ (forall e', interest k' e' = interest k e') /\
    forall l, r = inr l -> zlen l <= cap /\ exists fds, NoDup fds /\
      Forall2 (fun fd ev => exists v, interest k e !! fd = Some v /\ epe_data ev = epe_data v /\ epe_events ev = awake k fd (epe_events v) /\ awake k fd (epe_events v) <> 0) fds l
}.

(** ** The poller as a map *)

Section refines.
Context {U K : Type} `{!EpollSys U K} `{!EpollLaws U K}.
Implicit Types (p : EpollPoller U) (m : gmap Z (Z * option U)).

(** The kernel has the descriptors of [m], with the events translated. *)
Definition registers (k : K) p m : Prop :=
  interest k (epfd p) = (fun v => mkEpollEvent (to_epoll_events (fst v)) (snd v)) <$> m.

Lemma create_registers k max p k' : io_poller_create max true true k = Ret (Some p, k') -> registers k' p ∅ /\ instance_open k' (epfd p) /\ (0 < max_events p).
Proof.
  destruct (create_law k) as (e & k1 & E & Hi). unfold io_poller_create. cbn [negb]. rewrite (bindM_ret _ _ _ _ _ E). destruct (Z.ltb_spec e 0) as [He|He]; [done|].
  destruct Hi as [->|(_ & Ho & Hi)]; [lia|]. intros [= <- <-]. split; [unfold registers; cbn; rewrite Hi; by rewrite fmap_empty|]. split; [done|]. cbn. destruct (Z.ltb_spec 0 max); lia.
Qed.

Definition op_fd (o : poller_op U) : Z := match o with Add fd _ _ | Mod fd _ _ | Del fd => fd end.

(** An instance for which the kernel serves [n] operations on the descriptors [fds]. *)
Definition served (k : K) p (fds : list Z) (n : nat) : Prop :=
  instance_open k (epfd p) /\ (forall fd, fd ∈ fds -> watchable k (epfd p) fd) /\ serves k n.

(** The operations on the map, which has no bound here. *)
Lemma poller_run_registers k p m o fds n : registers k p m -> served k p fds (S n) -> op_fd o ∈ fds -> op_fits m o ->
  exists r k', poller_run p o k = Ret (r, k') /\ served k' p fds n /\
    r = fst (map_run (Z.of_nat (size m) + 1) m o) /\ registers k' p (snd (map_run (Z.of_nat (size m) + 1) m o)).
Proof.
  intros Hm (Ho & Hw & Hs) Hin Hfit. unfold registers in *.
  assert (forall op a, exists r k', epoll_ctl (epfd p) op (op_fd o) a k = Ret (r, k') /\ served k' p fds n /\
    match ctl_effect op (op_fd o) a (interest k (epfd p)) with Some l => r = 0 /\ interest k' (epfd p) = l | None => r = -1 /\ interest k' (epfd p) = interest k (epfd p) end) as Hctl.
  { intros op a. destruct (ctl_law k (epfd p) op (op_fd o) a) as (r & k' & E & Hr & Hok & Hs' & Ho' & Hw'). exists r, k'. split; [done|].
    split; [split; [auto|]; split; [auto|by apply Hs']|]. destruct (ctl_effect _ _ _ _) as [l|] eqn:El; [|destruct Hr as [[_ ?]|]; done].
    assert (r = 0) as -> by (apply Hok; [done|by apply Hw|eapply serves_le; [exact Hs|lia]|done]). destruct Hr as [[_ [= ->]]|[? _]]; done. }
  destruct o as [fd ev u|fd ev u|fd]; cbn [poller_run map_run op_fits op_fd] in *.
  - destruct Hfit as [_ Hn]. destruct (Hctl EPOLL_CTL_ADD (Some (mkEpollEvent (to_epoll_events ev) u))) as (r & k' & E & Hk & H). unfold ctl_effect in H.
    rewrite Hm, lookup_fmap, Hn in H. cbn in H. destruct H as [-> Hi]. exists 0, k'. rewrite (proj2 (Z.ltb_lt _ _)) by lia.
    split; [done|]. split; [done|]. split; [done|]. simpl. by rewrite Hi, fmap_insert.
  - destruct (Hctl EPOLL_CTL_MOD (Some (mkEpollEvent (to_epoll_events ev) u))) as (r & k' & E & Hk & H). unfold ctl_effect in H.
    rewrite Hm, lookup_fmap in H. exists r, k'. split; [done|]. split; [done|]. destruct (m !! fd) as [v|] eqn:Em; cbn in H; destruct H as [-> Hi].
    + rewrite decide_True by done. split; [done|]. simpl. by rewrite Hi, fmap_insert.
    + rewrite decide_False by (intros []%is_Some_None). by split.
  - destruct (Hctl EPOLL_CTL_DEL None) as (r & k' & E & Hk & H). unfold ctl_effect in H.
    rewrite Hm, lookup_fmap in H. exists r, k'. split; [done|]. split; [done|]. destruct (m !! fd) as [v|] eqn:Em; cbn in H; destruct H as [-> Hi].
    + rewrite decide_True by done. split; [done|]. simpl. by rewrite Hi, fmap_delete.
    + rewrite decide_False by (intros []%is_Some_None). by split.
Qed.

(** A wait reports descriptors of the map that have an event, each once, with the pointer and the
    translated events, or nothing when it is interrupted. *)
Lemma io_poller_wait_registers k p m max t : registers k p m -> 0 < max -> 0 < max_events p ->
  exists out n p' k', io_poller_wait p max t k = Ret (out, n, p', k') /\ registers k' p' m /\ n <= max /\ (0 <= n -> n = zlen out) /\
    exists fds, NoDup fds /\ Forall2 (fun fd ev => exists want u, m !! fd = Some (want, u) /\ awake k fd (to_epoll_events want) <> 0 /\
      ev = mkIOEvent (-1) (from_epoll_events (awake k fd (to_epoll_events want))) u) fds out.
Proof.
  intros Hm Hmax Hp. unfold io_poller_wait. set (cap := if max <? max_events p then max else max_events p).
  assert (0 < cap <= max) as Hcap by (unfold cap; destruct (Z.ltb_spec max (max_events p)); lia).
  destruct (wait_law k (epfd p) cap t) as (r & k' & E & Hi & Hl); [lia|]. rewrite (bindM_ret _ _ _ _ _ E). destruct r as [b|l].
  - eexists _, _, p, k'. split; [done|]. split; [unfold registers; by rewrite Hi|]. destruct b; (split; [lia|]); (split; [done || lia|]); exists []; (split; [constructor|constructor]).
  - destruct (Hl l eq_refl) as (Hz & fds & Hnd & HF). eexists _, _, _, k'. split; [reflexivity|]. split; [unfold registers; simpl; by rewrite Hi|]. split; [lia|].
    cbn [ep_events]. rewrite take_app_length. split; [intros _; unfold zlen; by rewrite length_fmap|]. exists fds. split; [done|].
    apply Forall2_fmap_r. eapply Forall2_impl; [exact HF|]. intros fd ev (v & Hv & H1 & H2 & H3). rewrite Hm, lookup_fmap in Hv.
    destruct (m !! fd) as [[want u]|]; [|done]. injection Hv as <-. cbn in *. exists want, u. split; [done|]. split; [done|]. by rewrite H1, H2.
Qed.
End refines.

(** ** A kernel *)

(** Interest lists as maps, the open descriptors, the operations that memory is left for, the events
    that descriptors have, and whether a call is interrupted. *)
Record EKernel (U : Type) : Type := mkEKernel {
  ek_next : Z; ek_lists : gmap Z (gmap Z (EpollEvent U)); ek_open : list Z; ek_memory : nat; ek_ready : gmap Z Z; ek_signal : bool
}.
Arguments mkEKernel {U}.
Arguments ek_next {U}.
Arguments ek_lists {U}.
Arguments ek_open {U}.
Arguments ek_memory {U}.
Arguments ek_ready {U}.
Arguments ek_signal {U}.

Definition ek_list {U} (k : EKernel U) (e : Z) : gmap Z (EpollEvent U) := default ∅ (ek_lists k !! e).
Definition ek_awake {U} (k : EKernel U) (fd want : Z) : Z := Z.land (default 0 (ek_ready k !! fd)) (Z.lor want (Z.lor EPOLLERR EPOLLHUP)).
Definition ek_set {U} (k : EKernel U) (e : Z) (l : gmap Z (EpollEvent U)) : EKernel U :=
  mkEKernel (ek_next k) (<[e := l]> (ek_lists k)) (ek_open k) (pred (ek_memory k)) (ek_ready k) (ek_signal k).
Definition ek_fired {U} (k : EKernel U) (e : Z) : list (Z * EpollEvent U) :=
  filter (fun x => ek_awake k (fst x) (epe_events (snd x)) <> 0) (map_to_list (ek_list k e)).

(** EBADF, EINVAL and ENOMEM. *)
Definition ek_refuses {U} (k : EKernel U) (e fd : Z) : bool :=
  negb (bool_decide (is_Some (ek_lists k !! e)) && bool_decide (fd ∈ ek_open k) && negb (fd =? e) && Nat.ltb 0 (ek_memory k)).

#[export] Instance ekernel_sys U : EpollSys U (EKernel U) := {
  epoll_create1 := fun k => if ek_next k <? 0 then Ret (-1, k) else Ret (ek_next k, mkEKernel (ek_next k + 1) (<[ek_next k := ∅]> (ek_lists k)) (ek_open k) (ek_memory k) (ek_ready k) (ek_signal k));
  epoll_ctl e op fd a := fun k => Ret
    (if ek_refuses k e fd then (-1, k)
     else match ctl_effect op fd a (ek_list k e) with Some l => (0, ek_set k e l) | None => (-1, k) end);
  epoll_wait e cap _ := fun k =>
    if ek_signal k then Ret (inl true, k)
    else Ret (inr ((fun x => mkEpollEvent (ek_awake k (fst x) (epe_events (snd x))) (epe_data (snd x))) <$> take (Z.to_nat cap) (ek_fired k e)), k);
  epoll_close e := fun k => Ret (tt, mkEKernel (ek_next k) (delete e (ek_lists k)) (ek_open k) (ek_memory k) (ek_ready k) (ek_signal k))
}.

#[export] Program Instance ekernel_laws U : EpollLaws U (EKernel U) := {
  interest := ek_list; instance_open k e := is_Some (ek_lists k !! e); watchable k e fd := fd ∈ ek_open k /\ fd <> e;
  serves k n := (n <= ek_memory k)%nat; awake := ek_awake
}.
Next Obligation.
  intros U k. cbn. destruct (Z.ltb_spec (ek_next k) 0) as [Hn|Hn]; eexists _, _; (split; [reflexivity|]); [by left|right].
  split; [done|]. unfold ek_list. simpl. by rewrite lookup_insert_eq.
Qed.
Next Obligation.
  intros U k e op fd a. cbn. unfold ek_refuses. destruct (bool_decide_reflect (is_Some (ek_lists k !! e))) as [He|He]; cbn [andb negb].
  2: { eexists _, _. split; [reflexivity|]. split; [by right|]. split; [done|]. split; [lia|]. done. }
  destruct (bool_decide_reflect (fd ∈ ek_open k)) as [Hf|Hf]; cbn [andb negb].
  2: { eexists _, _. split; [reflexivity|]. split; [by right|]. split; [by intros _ []|]. split; [lia|]. done. }
  destruct (Z.eqb_spec fd e) as [Hq|Hq]; cbn [andb negb].
  1: { eexists _, _. split; [reflexivity|]. split; [by right|]. split; [by intros _ []|]. split; [lia|]. done. }
  destruct (Nat.ltb_spec 0 (ek_memory k)) as [Hm|Hm]; cbn [andb negb].
  2: { eexists _, _. split; [reflexivity|]. split; [by right|]. split; [intros; lia|]. split; [lia|]. done. }
  destruct (ctl_effect op fd a (ek_list k e)) as [l|]; eexists _, _; (split; [reflexivity|]).
  - split; [left; split; [done|]; unfold ek_list; simpl; by rewrite lookup_insert_eq|]. split; [done|]. split; [simpl; lia|]. split; [|done]. intros _. simpl. by rewrite lookup_insert_eq.
  - split; [by right|]. split; [by intros _ _ _ []|]. split; [lia|]. done.
Qed.
Next Obligation. intros U k n n' H1 H2. cbn in *. lia. Qed.
Next Obligation.
  intros U k e cap t Hc. cbn. destruct (ek_signal k); eexists _, _; (split; [reflexivity|]); (split; [done|]); intros l [= <-].
  split; [unfold zlen; rewrite length_fmap, length_take; lia|]. exists (fst <$> take (Z.to_nat cap) (ek_fired k e)).
  assert (NoDup (fst <$> ek_fired k e)) as Hnd.
  { unfold ek_fired. eapply sublist_NoDup; [exact (NoDup_fst_map_to_list (ek_list k e))|]. apply fmap_sublist, sublist_filter. }
  split; [eapply sublist_NoDup; [exact Hnd|]; apply fmap_sublist, sublist_take|].
  apply Forall2_fmap. apply Forall_Forall2_diag, Forall_forall. intros [fd v] (i & Hin%list_elem_of_lookup_2 & _)%elem_of_take. exists v. apply list_elem_of_filter in Hin as [Ha Hin%elem_of_map_to_list]. cbn in *. by split_and!.
Qed.
