(* ===== verification/Kqueue.v ===== *)
(** Kqueue: example/server/io_poller.c in its build for macOS and the BSDs, and the three
    builds together.

    A kqueue watches a descriptor for reading and for writing with two filters of their own.
    The kernel is the class [KqueueSys]; what the manual page promises is [KqueueLaws]: the
    changes of a call are applied in their order up to the first that fails. *)

From S2P Require Import Prelude IoPoller Epoll.

Inductive Filter : Type := EVFILT_READ | EVFILT_WRITE.
#[export] Instance filter_eq_dec : EqDecision Filter.
Proof. solve_decision. Defined.

Definition EV_ADD : Z := 0x0001.
Definition EV_DELETE : Z := 0x0002.
Definition EV_ENABLE : Z := 0x0004.
Definition EV_ERROR : Z := 0x4000.
Definition EV_EOF : Z := 0x8000.

(** [struct kevent]; the fields [fflags] and [data] are 0 in all changes. *)
Record Kevent (U : Type) : Type := mkKevent { ident : Z; kfilter : Filter; kflags : Z; udata : option U }.
Arguments mkKevent {U}.
Arguments ident {U}.
Arguments kfilter {U}.
Arguments kflags {U}.
Arguments udata {U}.

(** [kevent kq changes nevents timeout]: the events, or a failure, [true] for [EINTR]. *)
Class KqueueSys (U K : Type) : Type := {
  kqueue : M K Z;
  kevent : Z -> list (Kevent U) -> Z -> option (Z * Z) -> M K (bool + list (Kevent U));
  kq_close : Z -> M K unit
}.

(** ** The code *)

Section code.
Context {U K : Type} `{!KqueueSys U K}.

(** [struct IOPoller]; [kev_buf] is the array for [kevent]. *)
Record KqueuePoller : Type := mkKqueuePoller { kqfd : Z; kmax_events : Z; kev_buf : list (Kevent U) }.

Definition io_poller_create (max : Z) (ok_p ok_e : bool) : M K (option KqueuePoller) :=
  if negb ok_p then ret None
  else
    let* fd := kqueue in
    if fd <? 0 then ret None
    else
      let max := if 0 <? max then max else 256 in
      if negb ok_e then do* kq_close fd in ret None
      else ret (Some (mkKqueuePoller fd max (replicate (Z.to_nat max) (mkKevent 0 EVFILT_READ 0 None)))).

Definition io_poller_destroy (p : option KqueuePoller) : M K unit :=
  match p with None => ret tt | Some p => kq_close (kqfd p) end.

Definition has_read (events : Z) : bool := negb (Z.land events IO_EVENT_READ =? 0).
Definition has_write (events : Z) : bool := negb (Z.land events IO_EVENT_WRITE =? 0).

(** The changes that add the filters of [events]. *)
Definition add_changes (fd events : Z) (u : option U) : list (Kevent U) :=
  (if has_read events then [mkKevent fd EVFILT_READ (Z.lor EV_ADD EV_ENABLE) u] else []) ++
  (if has_write events then [mkKevent fd EVFILT_WRITE (Z.lor EV_ADD EV_ENABLE) u] else []).

Definition kevent_failed (r : bool + list (Kevent U)) : bool := match r with inl _ => true | inr _ => false end.

Definition io_poller_add (p : KqueuePoller) (fd events : Z) (userdata : option U) : M K Z :=
  let changes := add_changes fd events userdata in
  if zlen changes =? 0 then ret (-1)
  else
    let* r := kevent (kqfd p) changes 0 None in
    ret (if kevent_failed r then -1 else 0).

(** Two calls for the deletions, whose errors are ignored. *)
Definition io_poller_mod (p : KqueuePoller) (fd events : Z) (userdata : option U) : M K Z :=
  let* _ := kevent (kqfd p) [mkKevent fd EVFILT_READ EV_DELETE None] 0 None in
  let* _ := kevent (kqfd p) [mkKevent fd EVFILT_WRITE EV_DELETE None] 0 None in
  let changes := add_changes fd events userdata in
  if 0 <? zlen changes then
    let* r := kevent (kqfd p) changes 0 None in
    ret (if kevent_failed r then -1 else 0)
  else ret 0.

(** One call for both deletions. *)
Definition io_poller_del (p : KqueuePoller) (fd : Z) : M K Z :=
  let* _ := kevent (kqfd p) [mkKevent fd EVFILT_READ EV_DELETE None; mkKevent fd EVFILT_WRITE EV_DELETE None] 0 None in
  ret 0.

Definition fired_event (e : Kevent U) : IOEvent U :=
  let ev := if bool_decide (kfilter e = EVFILT_READ) then IO_EVENT_READ else 0 in
  let ev := if bool_decide (kfilter e = EVFILT_WRITE) then Z.lor ev IO_EVENT_WRITE else ev in
  let ev := if negb (Z.land (kflags e) EV_EOF =? 0) then Z.lor ev IO_EVENT_HUP else ev in
  let ev := if negb (Z.land (kflags e) EV_ERROR =? 0) then Z.lor ev IO_EVENT_ERROR else ev in
  mkIOEvent (ident e) ev (udata e).

(** C division truncates, as for the non-negative numbers here. *)
Definition io_poller_wait (p : KqueuePoller) (max timeout_ms : Z) : M K (list (IOEvent U) * Z * KqueuePoller) :=
  let cap := if max <? kmax_events p then max else kmax_events p in
  let tsp := if 0 <=? timeout_ms then Some (timeout_ms / 1000, timeout_ms mod 1000 * 1000000) else None in
  let* r := kevent (kqfd p) [] cap tsp in
  match r with
  | inl eintr => ret ([], if (eintr : bool) then 0 else -1, p)
  | inr l =>
    let p := mkKqueuePoller (kqfd p) (kmax_events p) (l ++ drop (length l) (kev_buf p)) in
    ret (fired_event <$> take (length l) (kev_buf p), zlen l, p)
  end.

Definition poller_run (p : KqueuePoller) (o : poller_op U) : M K Z :=
  match o with
  | Add fd ev u => io_poller_add p fd ev u
  | Mod fd ev u => io_poller_mod p fd ev u
  | Del fd => io_poller_del p fd
  end.
End code.
Arguments KqueuePoller : clear implicits.

(** ** What the manual promises *)

(** The filters of a queue, with the pointers of their users. *)
Record Knotes (U : Type) : Type := mkKnotes { kn_read : gmap Z (option U); kn_write : gmap Z (option U) }.
Arguments mkKnotes {U}.
Arguments kn_read {U}.
Arguments kn_write {U}.

Definition kn_get {U} (kn : Knotes U) (f : Filter) : gmap Z (option U) := match f with EVFILT_READ => kn_read kn | EVFILT_WRITE => kn_write kn end.
Definition kn_set {U} (kn : Knotes U) (f : Filter) (m : gmap Z (option U)) : Knotes U :=
  match f with EVFILT_READ => mkKnotes m (kn_write kn) | EVFILT_WRITE => mkKnotes (kn_read kn) m end.

(** One change: an addition replaces, a deletion of what is not there fails. *)
Definition apply_change {U} (kn : Knotes U) (c : Kevent U) : option (Knotes U) :=
  if negb (Z.land (kflags c) EV_DELETE =? 0) then
    match kn_get kn (kfilter c) !! ident c with
    | Some _ => Some (kn_set kn (kfilter c) (delete (ident c) (kn_get kn (kfilter c))))
    | None => None
    end
  else Some (kn_set kn (kfilter c) (<[ident c := udata c]> (kn_get kn (kfilter c)))).

(** The changes of a call, up to the first that fails. *)
Fixpoint apply_changes {U} (kn : Knotes U) (l : list (Kevent U)) : bool * Knotes U :=
  match l with
  | [] => (true, kn)
  | c :: l => match apply_change kn c with Some kn => apply_changes kn l | None => (false, kn) end
  end.

(** [queue_open k q]: [q] is the descriptor of a queue. [can_watch k q fd]: [fd] is open and has the
    filters (else EBADF, EINVAL). [kserves k n]: the kernel has the memory for [n] more calls (else
    ENOMEM) and is not interrupted in them. The changes of a call are applied in their order up to the
    first that fails, and the call fails when one does; a change must succeed only when the list of the
    filters allows it (else ENOENT) and none of the other errors applies. [stirs k fd f]: the flags of
    the event of a filter, if it has one. *)
Class KqueueLaws (U K : Type) `{!KqueueSys U K} : Type := {
  knotes : K -> Z -> Knotes U;
  queue_open : K -> Z -> Prop;
  can_watch : K -> Z -> Z -> Prop;
  kserves : K -> nat -> Prop;
  stirs : K -> Z -> Filter -> option Z;
  kqueue_law k : exists q k', kqueue k = Ret (q, k') /\ (q = -1 \/ 0 <= q /\ queue_open k' q /\ knotes k' q = mkKnotes ∅ ∅);
  change_law k q l : l <> [] -> exists r k', kevent q l 0 None k = Ret (r, k') /\
    (exists n, (n <= length l)%nat /\ apply_changes (knotes k q) (take n l) = (true, knotes k' q) /\ kevent_failed r = Nat.ltb n (length l) /\
      forall c, l !! n = Some c -> queue_open k q -> (forall c, c ∈ l -> can_watch k q (ident c)) -> kserves k 1 -> apply_change (knotes k' q) c = None) /\
    (forall n, kserves k (S n) -> kserves k' n) /\ (queue_open k q -> queue_open k' q) /\ (forall fd, can_watch k q fd -> can_watch k' q fd);
  kserves_le k n n' : kserves k n -> (n' <= n)%nat -> kserves k n';
  kwait_law k q cap t : 0 < cap -> exists r k', kevent q [] cap t k = Ret (r, k') /\ knotes k' q = knotes k q /\
    forall l, r = inr l -> zlen l <= cap /\ NoDup ((fun e => (ident e, kfilter e)) <$> l) /\
      Forall (fun e => kn_get (knotes k q) (kfilter e) !! ident e = Some (udata e) /\ stirs k (ident e) (kfilter e) = Some (kflags e)) l
}.

(** ** The poller as a map *)

Section refines.
Context {U K : Type} `{!KqueueSys U K} `{!KqueueLaws U K}.
Implicit Types (p : KqueuePoller U) (m : gmap Z (Z * option U)) (kn : Knotes U).

Definition wants (f : Filter) (ev : Z) : bool := match f with EVFILT_READ => has_read ev | EVFILT_WRITE => has_write ev end.
Definition wanted (f : Filter) (v : option (Z * option U)) : option (option U) :=
  match v with Some (ev, u) => if wants f ev then Some u else None | None => None end.

(** A queue for which the kernel serves [n] calls with changes of the descriptors [fds]. *)
Definition kserved (k : K) p (fds : list Z) (n : nat) : Prop :=
  queue_open k (kqfd p) /\ (forall fd, fd ∈ fds -> can_watch k (kqfd p) fd) /\ kserves k n.

Lemma apply_changes_app kn kn' l l' : apply_changes kn l = (true, kn') -> apply_changes kn (l ++ l') = apply_changes kn' l'.
Proof. revert kn. induction l as [|c l IH]; intros kn; cbn; [by intros [= ->]|]. destruct (apply_change kn c); [apply IH|done]. Qed.

(** A call that is served: its changes are applied up to the first that the filters do not allow. *)
Lemma change_served k p l fds n : l <> [] -> kserved k p fds (S n) -> (forall c, c ∈ l -> ident c ∈ fds) ->
  exists r k', kevent (kqfd p) l 0 None k = Ret (r, k') /\ kserved k' p fds n /\
    (kevent_failed r, knotes k' (kqfd p)) = (negb (fst (apply_changes (knotes k (kqfd p)) l)), snd (apply_changes (knotes k (kqfd p)) l)).
Proof.
  intros Hl (Ho & Hw & Hs) Hin. destruct (change_law k (kqfd p) l Hl) as (r & k' & E & (i & Hi & Ha & Hr & Hc) & Hs' & Ho' & Hw').
  exists r, k'. split; [done|]. split; [split; [auto|]; split; [auto|by apply Hs']|]. rewrite Hr.
  rewrite <- (take_drop i l) at 2 3. rewrite (apply_changes_app _ _ _ _ Ha). destruct (drop i l) as [|c l'] eqn:Ed.
  - rewrite (proj2 (Nat.ltb_ge _ _)) by (apply (f_equal length) in Ed; rewrite length_drop in Ed; simpl in Ed; lia). done.
  - assert (l !! i = Some c) as Hic by (rewrite <- (take_drop i l), Ed, lookup_app_r; rewrite length_take; [by replace (_ - _)%nat with 0%nat by lia|lia]).
    rewrite (proj2 (Nat.ltb_lt _ _)) by (by eapply lookup_lt_Some). cbn [apply_changes].
    rewrite (Hc c Hic Ho); [done|intros c' Hc'; by apply Hw, Hin|eapply kserves_le; [exact Hs|lia]].
Qed.

(** The filters are those of the descriptors in [m]. *)
Definition models kn m : Prop := forall f fd, kn_get kn f !! fd = wanted f (m !! fd).

Lemma kn_get_set kn f g x : kn_get (kn_set kn f x) g = if decide (f = g) then x else kn_get kn g.
Proof. by destruct f, g. Qed.

Lemma apply_add kn fd f u l : apply_changes kn (mkKevent fd f (Z.lor EV_ADD EV_ENABLE) u :: l) = apply_changes (kn_set kn f (<[fd := u]> (kn_get kn f))) l.
Proof. done. Qed.

Lemma apply_delete kn fd f u l : apply_changes kn (mkKevent fd f EV_DELETE u :: l) =
  match kn_get kn f !! fd with Some _ => apply_changes (kn_set kn f (delete fd (kn_get kn f))) l | None => (false, kn) end.
Proof. cbn [apply_changes]. unfold apply_change. cbn [kflags kfilter ident]. change (Z.land EV_DELETE EV_DELETE =? 0) with false. cbn [negb]. by destruct (kn_get kn f !! fd). Qed.

(** Filters added for a descriptor that has none. *)
Lemma add_models kn m fd ev u : models kn (delete fd m) ->
  exists kn', apply_changes kn (add_changes fd ev u) = (true, kn') /\ models kn' (<[fd := (ev, u)]> m).
Proof.
  intros Hm. unfold add_changes.
  assert (forall kn', (forall f g, kn_get kn' f !! g = if decide (g = fd) then wanted f (Some (ev, u)) else kn_get kn f !! g) -> models kn' (<[fd := (ev, u)]> m)) as Hgo.
  { intros kn' H f g. rewrite H. destruct (decide (g = fd)) as [->|Hne]; [by rewrite lookup_insert_eq|]. by rewrite Hm, lookup_insert_ne, lookup_delete_ne. }
  assert (forall f, kn_get kn f !! fd = None) as Hno by (intros f; by rewrite Hm, lookup_delete_eq).
  assert (forall kn0 f g x, kn_get (kn_set kn0 f (<[fd := u]> (kn_get kn0 f))) g !! x = if decide (g = f /\ x = fd) then Some u else kn_get kn0 g !! x) as Hset.
  { intros kn0 f g x. rewrite kn_get_set. destruct (decide (f = g)) as [->|Hne]; [|by rewrite decide_False by (by intros [-> _])].
    destruct (decide (x = fd)) as [->|Hx]; [by rewrite decide_True, lookup_insert_eq by done|]. by rewrite decide_False, lookup_insert_ne by (done || by intros [_ ?]). }
  destruct (has_read ev) eqn:Er, (has_write ev) eqn:Ew; cbn [app]; rewrite ?apply_add; cbn [apply_changes]; (eexists; split; [reflexivity|]); apply Hgo; intros f g;
    rewrite ?Hset; unfold wanted, wants; (destruct (decide (g = fd)) as [->|Hx]; [|by rewrite ?decide_False by (by intros [_ ?])]);
    destruct f; rewrite ?Er, ?Ew; repeat (case_decide; try done); try apply Hno; naive_solver.
Qed.

(** The two deletions in calls of their own. *)
Lemma delete_models kn m fd : models kn m ->
  models (snd (apply_changes (snd (apply_changes kn [mkKevent fd EVFILT_READ EV_DELETE None])) [mkKevent fd EVFILT_WRITE EV_DELETE None])) (delete fd m).
Proof.
  intros Hm. assert (forall kn0 f u, let kn' := snd (apply_changes kn0 [mkKevent fd f EV_DELETE u]) in
    forall g x, kn_get kn' g !! x = if decide (g = f /\ x = fd) then None else kn_get kn0 g !! x) as H1.
  { intros kn0 f u. rewrite apply_delete. destruct (kn_get kn0 f !! fd) as [w|] eqn:E; cbn [snd apply_changes]; intros g x.
    - rewrite kn_get_set. destruct (decide (f = g)) as [->|Hne].
      + destruct (decide (g = g /\ x = fd)) as [[_ ->]|Hn]; [by rewrite lookup_delete_eq|]. rewrite lookup_delete_ne; [done|]. intros ->. by apply Hn.
      + rewrite decide_False; [done|]. by intros [-> _].
    - destruct (decide (g = f /\ x = fd)) as [[-> ->]|Hn]; done. }
  intros f x. rewrite !H1. destruct (decide (x = fd)) as [->|Hne].
  - rewrite lookup_delete_eq. destruct f; repeat case_decide; try done; naive_solver.
  - rewrite lookup_delete_ne by done. rewrite !decide_False by (by intros [_ ?]). apply Hm.
Qed.

(** One call for both: right when the descriptor is watched for reading. *)
Lemma delete_both_models kn m fd ev u : models kn m -> m !! fd = Some (ev, u) -> has_read ev = true ->
  models (snd (apply_changes kn [mkKevent fd EVFILT_READ EV_DELETE None; mkKevent fd EVFILT_WRITE EV_DELETE None])) (delete fd m).
Proof.
  intros Hm Hv Hr. pose proof (delete_models kn m fd Hm) as H. rewrite (apply_delete kn fd EVFILT_READ) in H |- *.
  assert (kn_get kn EVFILT_READ !! fd = Some u) as E by (rewrite Hm, Hv; cbn; by rewrite Hr). rewrite E in H |- *. done.
Qed.

Lemma create_models k max p k' : io_poller_create max true true k = Ret (Some p, k') -> models (knotes k' (kqfd p)) ∅ /\ queue_open k' (kqfd p) /\ 0 < kmax_events p.
Proof.
  destruct (kqueue_law k) as (q & k1 & E & Hi). unfold io_poller_create. cbn [negb]. rewrite (bindM_ret _ _ _ _ _ E). destruct (Z.ltb_spec q 0) as [Hq|Hq]; [done|].
  destruct Hi as [->|(_ & Ho & Hi)]; [lia|]. intros [= <- <-]. split; [|split; [done|cbn; destruct (Z.ltb_spec 0 max); lia]]. cbn. rewrite Hi. intros f fd. rewrite lookup_empty. by destruct f.
Qed.

(** What the three builds agree on: descriptors are watched for reading, and only known ones are
    changed or removed. *)
Definition proper_op m (o : poller_op U) : Prop :=
  match o with
  | Add fd ev _ => 0 <= fd /\ m !! fd = None /\ has_read ev = true
  | Mod fd ev _ => 0 <= fd /\ is_Some (m !! fd) /\ has_read ev = true
  | Del fd => 0 <= fd /\ is_Some (m !! fd)
  end.
Definition reading m : Prop := forall fd ev u, m !! fd = Some (ev, u) -> has_read ev = true.
Definition step_map m (o : poller_op U) : gmap Z (Z * option U) :=
  match o with Add fd ev u | Mod fd ev u => <[fd := (ev, u)]> m | Del fd => delete fd m end.

Lemma step_reading m o : reading m -> proper_op m o -> reading (step_map m o).
Proof.
  intros Hr Ho fd ev u. destruct o as [x e w|x e w|x]; cbn in *.
  - intros [[<- [= <- <-]]|[_ H]]%lookup_insert_Some; [apply Ho|by eapply Hr].
  - intros [[<- [= <- <-]]|[_ H]]%lookup_insert_Some; [apply Ho|by eapply Hr].
  - intros [_ H]%lookup_delete_Some. by eapply Hr.
Qed.

Lemma add_changes_ident fd ev (u : option U) c : c ∈ add_changes fd ev u -> ident c = fd.
Proof. unfold add_changes. intros [Hc|Hc]%elem_of_app; [destruct (has_read ev)|destruct (has_write ev)]; apply list_elem_of_In in Hc; simpl in Hc; naive_solver. Qed.

(** An operation makes at most three calls. *)
Lemma poller_run_models k p m o fds n : models (knotes k (kqfd p)) m -> reading m -> proper_op m o -> kserved k p fds (3 + n) -> op_fd o ∈ fds ->
  exists k', poller_run p o k = Ret (0, k') /\ kserved k' p fds n /\ models (knotes k' (kqfd p)) (step_map m o).
Proof.
  intros Hm Hr Ho Hs Hin. assert (forall k n n', kserved k p fds n -> (n' <= n)%nat -> kserved k p fds n') as Hle.
  { intros k0 n0 n' (H1 & H2 & H3) Hn. split; [done|]. split; [done|]. by eapply kserves_le. }
  destruct o as [fd ev u|fd ev u|fd]; cbn [poller_run proper_op step_map op_fd] in *.
  - destruct Ho as (_ & Hn & Hev). assert (add_changes fd ev u <> []) as Hne by (unfold add_changes; by rewrite Hev).
    unfold io_poller_add. rewrite (proj2 (Z.eqb_neq _ _)) by (destruct (add_changes fd ev u); [done|unfold zlen; simpl; lia]).
    destruct (change_served k p (add_changes fd ev u) fds _ Hne Hs) as (r & k' & E & Hk' & H); [intros c ->%add_changes_ident; done|].
    destruct (add_models (knotes k (kqfd p)) m fd ev u) as (kn' & Ek & Hk); [by rewrite delete_id|].
    rewrite Ek in H. injection H as H1 H2. cbn in H1, H2. exists k'. rewrite (bindM_ret _ _ _ _ _ E), H1, H2. split; [done|]. split; [eapply Hle; [exact Hk'|lia]|done].
  - destruct Ho as (_ & _ & Hev). assert (add_changes fd ev u <> []) as Hne by (unfold add_changes; by rewrite Hev). unfold io_poller_mod.
    destruct (change_served k p [mkKevent fd EVFILT_READ EV_DELETE None] fds _ ltac:(done) Hs) as (r1 & k1 & E1 & Hs1 & H1); [intros c ->%list_elem_of_singleton; done|]. injection H1 as _ H1.
    destruct (change_served k1 p [mkKevent fd EVFILT_WRITE EV_DELETE None] fds _ ltac:(done) Hs1) as (r2 & k2 & E2 & Hs2 & H2); [intros c ->%list_elem_of_singleton; done|]. injection H2 as _ H2.
    rewrite (bindM_ret _ _ _ _ _ E1), (bindM_ret _ _ _ _ _ E2). rewrite (proj2 (Z.ltb_lt _ _)) by (destruct (add_changes fd ev u); [done|unfold zlen; simpl; lia]).
    destruct (change_served k2 p (add_changes fd ev u) fds _ Hne Hs2) as (r & k' & E & Hs3 & H); [intros c ->%add_changes_ident; done|].
    destruct (add_models (knotes k2 (kqfd p)) m fd ev u) as (kn' & Ek & Hk).
    { rewrite H2, H1. by apply delete_models. }
    rewrite Ek in H. injection H as H3 H4. cbn in H3, H4. exists k'. rewrite (bindM_ret _ _ _ _ _ E), H3, H4. done.
  - destruct Ho as (_ & [ev u] & Hv). unfold io_poller_del.
    destruct (change_served k p [mkKevent fd EVFILT_READ EV_DELETE None; mkKevent fd EVFILT_WRITE EV_DELETE None] fds _ ltac:(done) Hs) as (r1 & k1 & E1 & Hs1 & H1).
    { intros c [-> | ->%list_elem_of_singleton]%elem_of_cons; done. }
    injection H1 as _ H1.
    exists k1. rewrite (bindM_ret _ _ _ _ _ E1). split; [done|]. split; [eapply Hle; [exact Hs1|lia]|]. rewrite H1. eapply delete_both_models; [done|exact Hv|by eapply Hr].
Qed.

(** A descriptor that is watched for writing only is not removed: the first deletion of the call
    fails, and the second is not carried out. *)
Lemma io_poller_del_keeps_writer k p m fd u : models (knotes k (kqfd p)) m -> m !! fd = Some (IO_EVENT_WRITE, u) ->
  exists k', io_poller_del p fd k = Ret (0, k') /\ models (knotes k' (kqfd p)) m.
Proof.
  intros Hm Hv. unfold io_poller_del.
  destruct (change_law k (kqfd p) [mkKevent fd EVFILT_READ EV_DELETE None; mkKevent fd EVFILT_WRITE EV_DELETE None]) as (r1 & k1 & E1 & (i & _ & H1 & _) & _); [done|].
  exists k1. rewrite (bindM_ret _ _ _ _ _ E1). split; [done|]. destruct i as [|i]; [by injection H1 as <-|]. cbn [take] in H1. rewrite apply_delete in H1.
  assert (kn_get (knotes k (kqfd p)) EVFILT_READ !! fd = None) as E by (by rewrite Hm, Hv). by rewrite E in H1.
Qed.

(** A wait reports filters of descriptors in the map that have an event, each once. *)
Lemma io_poller_wait_models k p m max t : models (knotes k (kqfd p)) m -> 0 < max -> 0 < kmax_events p ->
  exists out n p' k', io_poller_wait p max t k = Ret (out, n, p', k') /\ models (knotes k' (kqfd p')) m /\ n <= max /\ (0 <= n -> n = zlen out) /\
    Forall (fun ev => exists want f fl, m !! ev_fd ev = Some (want, ev_userdata ev) /\ wants f want = true /\ stirs k (ev_fd ev) f = Some fl /\
      ev = fired_event (mkKevent (ev_fd ev) f fl (ev_userdata ev))) out.
Proof.
  intros Hm Hmax Hp. unfold io_poller_wait. set (cap := if max <? kmax_events p then max else kmax_events p). set (tsp := if 0 <=? t then _ else _).
  assert (0 < cap <= max) as Hcap by (unfold cap; destruct (Z.ltb_spec max (kmax_events p)); lia).
  destruct (kwait_law k (kqfd p) cap tsp) as (r & k' & E & Hi & Hl); [lia|]. rewrite (bindM_ret _ _ _ _ _ E). destruct r as [b|l].
  - eexists _, _, p, k'. split; [done|]. split; [by rewrite Hi|]. destruct b; (split; [lia|]); (split; [done || lia|constructor]).
  - destruct (Hl l eq_refl) as (Hz & Hnd & HF). eexists _, _, _, k'. split; [reflexivity|]. split; [cbn; by rewrite Hi|]. split; [lia|].
    cbn [kev_buf]. rewrite take_app_length. split; [intros _; unfold zlen; by rewrite length_fmap|]. apply Forall_fmap. eapply Forall_impl; [exact HF|].
    intros [id f fl u] [H1 H2]. cbn in *. rewrite Hm in H1. unfold wanted in H1. destruct (m !! id) as [[want u']|] eqn:Em; [|done]. destruct (wants f want) eqn:Ew; [|done].
    injection H1 as ->. by exists want, f, fl.
Qed.
End refines.

(** ** A kernel *)

(** The filters of the queues, the open descriptors, the calls that memory is left for, and the flags of
    the descriptors' events for reading and writing. *)
Record KKernel (U : Type) : Type := mkKKernel { kk_next : Z; kk_queues : gmap Z (Knotes U); kk_open : list Z; kk_memory : nat; kk_ready : gmap Z (option Z * option Z) }.
Arguments mkKKernel {U}.
Arguments kk_next {U}.
Arguments kk_queues {U}.
Arguments kk_open {U}.
Arguments kk_memory {U}.
Arguments kk_ready {U}.

Definition kk_notes {U} (k : KKernel U) (q : Z) : Knotes U := default (mkKnotes ∅ ∅) (kk_queues k !! q).
Definition kk_stirs {U} (k : KKernel U) (fd : Z) (f : Filter) : option Z :=
  let r := default (None, None) (kk_ready k !! fd) in match f with EVFILT_READ => fst r | EVFILT_WRITE => snd r end.
Definition kk_fired {U} (k : KKernel U) (q : Z) (f : Filter) : list (Kevent U) :=
  omap (fun x => (fun fl => mkKevent (fst x) f fl (snd x)) <$> kk_stirs k (fst x) f) (map_to_list (kn_get (kk_notes k q) f)).

(** The changes of a call, up to the first that fails; EBADF for a descriptor that is not open. *)
Fixpoint kk_changes {U} (k : KKernel U) (kn : Knotes U) (l : list (Kevent U)) : bool * Knotes U :=
  match l with
  | [] => (true, kn)
  | c :: l =>
    if bool_decide (ident c ∈ kk_open k) then match apply_change kn c with Some kn => kk_changes k kn l | None => (false, kn) end
    else (false, kn)
  end.

(** EBADF for the queue and ENOMEM; a wait needs no memory. *)
#[export] Instance kkernel_sys U : KqueueSys U (KKernel U) := {
  kqueue := fun k =>
    if kk_next k <? 0 then Ret (-1, k)
    else Ret (kk_next k, mkKKernel (kk_next k + 1) (<[kk_next k := mkKnotes ∅ ∅]> (kk_queues k)) (kk_open k) (kk_memory k) (kk_ready k));
  kevent q l n _ := fun k =>
    if bool_decide (kk_queues k !! q = None) || match l with [] => false | _ => Nat.eqb (kk_memory k) 0 end then Ret (inl false, k)
    else
      let '(ok, kn) := kk_changes k (kk_notes k q) l in
      let k := mkKKernel (kk_next k) (<[q := kn]> (kk_queues k)) (kk_open k) (match l with [] => kk_memory k | _ => pred (kk_memory k) end) (kk_ready k) in
      Ret (if (ok : bool) then inr (take (Z.to_nat n) (kk_fired k q EVFILT_READ ++ kk_fired k q EVFILT_WRITE)) else inl false, k);
  kq_close q := fun k => Ret (tt, mkKKernel (kk_next k) (delete q (kk_queues k)) (kk_open k) (kk_memory k) (kk_ready k))
}.

Lemma kk_fired_elem {U} (k : KKernel U) q f e : e ∈ kk_fired k q f ->
  kfilter e = f /\ kn_get (kk_notes k q) f !! ident e = Some (udata e) /\ kk_stirs k (ident e) f = Some (kflags e).
Proof.
  unfold kk_fired. rewrite list_elem_of_omap. intros ([fd u] & Hin%elem_of_map_to_list & He). cbn in *. destruct (kk_stirs k fd f) as [fl|] eqn:E; [|done]. by injection He as <-.
Qed.

Lemma kk_fired_nodup {U} (k : KKernel U) q f : NoDup ((fun e => (ident e, kfilter e)) <$> kk_fired k q f).
Proof.
  unfold kk_fired. pose proof (NoDup_fst_map_to_list (kn_get (kk_notes k q) f)) as Hnd. induction (map_to_list _) as [|[fd u] l IH]; [constructor|].
  cbn in *. apply NoDup_cons in Hnd as [Hni Hnd]. destruct (kk_stirs k fd f) as [fl|]; [|by apply IH]. cbn. constructor; [|by apply IH].
  rewrite list_elem_of_fmap. intros (e & Ee & ([fd' u'] & Hin & He)%list_elem_of_omap). injection Ee as -> _. cbn in He. destruct (kk_stirs k fd' f); [|done]. injection He as <-. cbn in *. apply Hni.
  apply list_elem_of_fmap. by exists (fd', u').
Qed.

Lemma kk_changes_prefix {U} (k : KKernel U) l : forall kn ok kn', kk_changes k kn l = (ok, kn') ->
  exists n, (n <= length l)%nat /\ apply_changes kn (take n l) = (true, kn') /\ ok = negb (Nat.ltb n (length l)) /\
    forall c, l !! n = Some c -> (forall c, c ∈ l -> ident c ∈ kk_open k) -> apply_change kn' c = None.
Proof.
  induction l as [|c l IH]; intros kn ok kn' H; cbn [kk_changes] in H; [exists 0%nat; by injection H as <- <-|].
  destruct (bool_decide_reflect (ident c ∈ kk_open k)) as [Hc|Hc].
  - destruct (apply_change kn c) as [kn1|] eqn:Ec.
    + destruct (IH kn1 ok kn' H) as (n & H1 & H2 & H3 & H4). exists (S n). cbn [length take apply_changes]. rewrite Ec. split; [lia|]. split; [done|]. split; [done|].
      intros c' Hc' Hall. apply H4; [done|]. intros c0 Hc0. apply Hall. set_solver.
    + injection H as <- <-. exists 0%nat. split; [lia|]. split; [done|]. split; [done|]. intros c' [= <-] _. done.
  - injection H as <- <-. exists 0%nat. split; [lia|]. split; [done|]. split; [done|]. intros c' [= <-] Hall. exfalso. apply Hc, Hall. set_solver.
Qed.

#[export] Program Instance kkernel_laws U : KqueueLaws U (KKernel U) := {
  knotes := kk_notes; queue_open k q := is_Some (kk_queues k !! q); can_watch k _ fd := fd ∈ kk_open k; kserves k n := (n <= kk_memory k)%nat; stirs := kk_stirs
}.
Next Obligation.
  intros U k. cbn. destruct (Z.ltb_spec (kk_next k) 0) as [Hn|Hn]; eexists _, _; (split; [reflexivity|]); [by left|right].
  split; [done|]. unfold kk_notes. simpl. by rewrite lookup_insert_eq.
Qed.
Next Obligation.
  intros U k q l Hl. cbn. assert (forall (x y : nat), match l with [] => x | _ => y end = y) as El by (by destruct l).
  assert (match l with [] => false | _ => Nat.eqb (kk_memory k) 0 end = Nat.eqb (kk_memory k) 0) as -> by (by destruct l).
  destruct (bool_decide_reflect (kk_queues k !! q = None)) as [Hq|Hq]; cbn [orb].
  { eexists _, _. split; [reflexivity|]. split; [|split; [cbn; lia|done]]. exists 0%nat. split; [lia|]. split; [done|]. split; [by destruct l|]. intros c _ Ho. rewrite Hq in Ho. by destruct Ho. }
  destruct (Nat.eqb_spec (kk_memory k) 0) as [Hm|Hm].
  { eexists _, _. split; [reflexivity|]. split; [|split; [cbn; lia|done]]. exists 0%nat. split; [lia|]. split; [done|]. split; [by destruct l|]. intros c _ _ _ Hs. cbn in Hs. lia. }
  destruct (kk_changes k (kk_notes k q) l) as [ok kn] eqn:Ek. destruct (kk_changes_prefix _ _ _ _ _ Ek) as (n & H1 & H2 & H3 & H4).
  rewrite El. set (k' := mkKKernel _ _ _ _ _). assert (kk_notes k' q = kn) as En by (unfold kk_notes, k'; simpl; by rewrite lookup_insert_eq).
  eexists _, k'. split; [reflexivity|]. rewrite En.
  split; [exists n; split; [done|]; split; [done|]; split; [rewrite H3; unfold Nat.ltb; cbn [Nat.leb]; destruct (length l) as [|x]; [done|]; by destruct (n <=? x)%nat|]; intros; by apply H4|].
  split; [cbn; intros; lia|]. split; [|done]. intros _. cbn. rewrite lookup_insert_eq. by eexists.
Qed.
Next Obligation. intros U k n n' H1 H2. cbn in *. lia. Qed.
Next Obligation.
  intros U k q cap t Hc. cbn. rewrite orb_false_r. destruct (bool_decide_reflect (kk_queues k !! q = None)) as [Hq|Hq]; [eexists _, _; split; [reflexivity|]; by split|].
  eexists _, _. split; [reflexivity|]. set (k' := mkKKernel _ _ _ _ _). assert (kk_notes k' q = kk_notes k q) as Hq' by (unfold kk_notes, k'; simpl; by rewrite lookup_insert_eq).
  split; [done|]. intros l [= <-]. set (all := kk_fired k' q EVFILT_READ ++ kk_fired k' q EVFILT_WRITE). split; [unfold zlen; rewrite length_take; lia|]. split.
  - eapply sublist_NoDup; [|apply fmap_sublist, sublist_take]. unfold all. rewrite fmap_app. apply NoDup_app. split; [apply kk_fired_nodup|]. split; [|apply kk_fired_nodup].
    intros x (e & -> & [He _]%kk_fired_elem)%list_elem_of_fmap (e' & E & [He' _]%kk_fired_elem)%list_elem_of_fmap. congruence.
  - apply Forall_forall. intros e (j & Hin%list_elem_of_lookup_2 & _)%elem_of_take. unfold all in Hin. rewrite <- Hq'.
    apply elem_of_app in Hin as [(E & H1 & H2)%kk_fired_elem|(E & H1 & H2)%kk_fired_elem]; rewrite E; by split.
Qed.

(** ** The three builds *)

Fixpoint run_all {U K} (run : poller_op U -> M K Z) (ops : list (poller_op U)) : M K (list Z) :=
  match ops with
  | [] => ret []
  | o :: ops => let* r := run o in let* rs := run_all run ops in ret (r :: rs)
  end.

(** A sequence of operations for at most [cap] descriptors. *)
Fixpoint proper_ops {U} (cap : Z) (m : gmap Z (Z * option U)) (ops : list (poller_op U)) : Prop :=
  match ops with
  | [] => True
  | o :: ops => proper_op m o /\ Z.of_nat (size (step_map m o)) <= cap /\ proper_ops cap (step_map m o) ops
  end.

Section agree.
Context {U : Type}.
Implicit Types (m : gmap Z (Z * option U)) (ops : list (poller_op U)).

Lemma proper_map_run cap m o : proper_op m o -> Z.of_nat (size (step_map m o)) <= cap -> op_fits m o /\ map_run cap m o = (0, step_map m o).
Proof.
  destruct o as [fd ev u|fd ev u|fd]; cbn.
  - intros (H1 & H2 & _) Hc. split; [done|]. rewrite map_size_insert, H2 in Hc. rewrite (proj2 (Z.ltb_lt _ _)) by lia. done.
  - intros (H1 & H2 & _) _. split; [done|]. by rewrite decide_True.
  - intros (H1 & H2) _. split; [done|]. by rewrite decide_True.
Qed.

Lemma proper_runs cap ops : forall m, proper_ops cap m ops -> ops_fit cap m ops /\ map_runs cap m ops = (replicate (length ops) 0, foldl step_map m ops).
Proof.
  induction ops as [|o ops IH]; intros m; [done|]. intros (H1 & H2 & H3). destruct (proper_map_run cap m o H1 H2) as [Hf Hr]. destruct (IH _ H3) as [Hf' Hr'].
  cbn [ops_fit map_runs]. rewrite Hr. cbn [snd]. rewrite Hr'. done.
Qed.

Lemma epoll_runs {K} `{!EpollSys U K} `{!EpollLaws U K} cap (p : EpollPoller U) fds ops : forall m k, registers k p m -> served k p fds (length ops) ->
  (forall o, o ∈ ops -> op_fd o ∈ fds) -> proper_ops cap m ops ->
  exists k', run_all (Epoll.poller_run p) ops k = Ret (replicate (length ops) 0, k') /\ registers k' p (foldl step_map m ops).
Proof.
  induction ops as [|o ops IH]; intros m k Hm Hs Hin; [intros _; by exists k|]. intros (H1 & H2 & H3).
  assert (Z.of_nat (size (step_map m o)) <= Z.of_nat (size m) + 1) as Hsz.
  { destruct o; cbn; rewrite ?map_size_insert, ?map_size_delete; destruct (m !! fd); cbn; lia. }
  destruct (proper_map_run _ m o H1 Hsz) as [Hf Hmr].
  destruct (poller_run_registers k p m o fds (length ops) Hm Hs ltac:(apply Hin; set_solver) Hf) as (r & k1 & E1 & Hs1 & -> & Hm1). rewrite Hmr in E1, Hm1. cbn [fst snd] in *.
  destruct (IH _ k1 Hm1 Hs1 ltac:(intros; apply Hin; set_solver) H3) as (k' & E & Hk). exists k'. cbn [run_all]. rewrite (bindM_ret _ _ _ _ _ E1), (bindM_ret _ _ _ _ _ E). done.
Qed.

Lemma kqueue_runs {K} `{!KqueueSys U K} `{!KqueueLaws U K} cap (p : KqueuePoller U) fds ops : forall m k, models (knotes k (kqfd p)) m -> reading m ->
  kserved k p fds (length ops * 3) -> (forall o, o ∈ ops -> op_fd o ∈ fds) -> proper_ops cap m ops ->
  exists k', run_all (poller_run p) ops k = Ret (replicate (length ops) 0, k') /\ models (knotes k' (kqfd p)) (foldl step_map m ops).
Proof.
  induction ops as [|o ops IH]; intros m k Hm Hr Hs Hin; [intros _; by exists k|]. intros (H1 & H2 & H3).
  destruct (poller_run_models k p m o fds _ Hm Hr H1 Hs ltac:(apply Hin; set_solver)) as (k1 & E1 & Hs1 & Hm1).
  destruct (IH _ k1 Hm1 (step_reading _ _ Hr H1) Hs1 ltac:(intros; apply Hin; set_solver) H3) as (k' & E & Hk).
  exists k'. cbn [run_all]. rewrite (bindM_ret _ _ _ _ _ E1), (bindM_ret _ _ _ _ _ E). done.
Qed.
End agree.

(** C36: the three builds of the poller are interchangeable. A server adds new descriptors for
    reading, changes what it asks for, always reading included, and removes descriptors it added, at
    most [max] at a time. From new pollers for [max] descriptors, on kernels of which the manual pages
    hold and to which none of their errors applies (the descriptors are open and can be watched,
    and there are the memory and the watches for the operations), every such operation returns 0 in
    all builds, and afterwards the array of the portable build, the interest list of epoll and the
    filters of kqueue hold the same map from descriptors to events and pointers; what a wait then
    reports carries pointers of descriptors of that map. *)
Theorem pollers_agree {U KE KK : Type} `{!EpollSys U KE} `{!EpollLaws U KE} `{!KqueueSys U KK} `{!KqueueLaws U KK}
    (max : Z) (ops : list (poller_op U)) (pp : IOPoller U) (pe : EpollPoller U) (pk : KqueuePoller U) (ke ke1 : KE) (kk kk1 : KK)
  (Hmax : 0 < max)
  (Hpp : IoPoller.io_poller_create max true true = Some pp)
  (Hpe : Epoll.io_poller_create max true true ke = Ret (Some pe, ke1))
  (Hpk : io_poller_create max true true kk = Ret (Some pk, kk1))
  (Hops : proper_ops max ∅ ops)
  (Hewatch : forall fd, fd ∈ op_fd <$> ops -> watchable ke1 (epfd pe) fd)
  (Hemem : serves ke1 (length ops))
  (Hkwatch : forall fd, fd ∈ op_fd <$> ops -> can_watch kk1 (kqfd pk) fd)
  (Hkmem : kserves kk1 (length ops * 3)) :
  let m := foldl step_map ∅ ops in
  exists pp' ke' kk',
    poller_runs pp ops = Ret (replicate (length ops) 0, pp') /\ watched pp' = m /\
    run_all (Epoll.poller_run pe) ops ke1 = Ret (replicate (length ops) 0, ke') /\ registers ke' pe m /\
    run_all (poller_run pk) ops kk1 = Ret (replicate (length ops) 0, kk') /\ models (knotes kk' (kqfd pk)) m /\
    (forall n t, 0 < n -> exists out r pe' ke2, Epoll.io_poller_wait pe n t ke' = Ret (out, r, pe', ke2) /\ r <= n /\
      Forall (fun ev => exists fd want, m !! fd = Some (want, ev_userdata ev)) out) /\
    (forall n t, 0 < n -> exists out r pk' kk2, io_poller_wait pk n t kk' = Ret (out, r, pk', kk2) /\ r <= n /\
      Forall (fun ev => exists want, m !! ev_fd ev = Some (want, ev_userdata ev)) out).
Proof.
  intros m. destruct (proper_runs max ops ∅ Hops) as [Hfit Hruns]. destruct (create_registers _ _ _ _ Hpe) as (He & Heo & Hme). destruct (create_models _ _ _ _ Hpk) as (Hk & Hko & Hmk).
  destruct (create_watched max pp Hmax Hpp) as (Hok & Hz & Hw). rewrite <- Hz, <- Hw in Hfit.
  destruct (poller_runs_refine pp ops Hok Hfit) as (rs & pp' & E1 & _ & _ & Hm1). rewrite Hz, Hw, Hruns in Hm1. injection Hm1 as -> Hm1.
  assert (forall o, o ∈ ops -> op_fd o ∈ op_fd <$> ops) as Hin by (intros o Ho; by apply list_elem_of_fmap_2).
  destruct (epoll_runs max pe (op_fd <$> ops) ops ∅ ke1 He) as (ke' & E2 & Hm2); [done|done|done|].
  destruct (kqueue_runs max pk (op_fd <$> ops) ops ∅ kk1 Hk) as (kk' & E3 & Hm3); [by intros fd ev u; rewrite lookup_empty|done|done|done|].
  exists pp', ke', kk'. do 6 (split; [done|]). split; intros n t Hn.
  - destruct (io_poller_wait_registers ke' pe m n t Hm2 Hn Hme) as (out & r & pe' & ke2 & E & _ & Hle & _ & fds & _ & HF). exists out, r, pe', ke2. split; [done|]. split; [done|].
    apply Forall_forall. intros ev [i Hi]%list_elem_of_lookup. destruct (Forall2_lookup_r _ _ _ _ _ HF Hi) as (fd & _ & want & u & Hv & _ & ->). by exists fd, want.
  - destruct (io_poller_wait_models kk' pk m n t Hm3 Hn Hmk) as (out & r & pk' & kk2 & E & _ & Hle & _ & HF). exists out, r, pk', kk2. split; [done|]. split; [done|].
    eapply Forall_impl; [exact HF|]. intros ev (want & f & fl & Hv & _). by exists want.
Qed.

(** Two descriptors; the second is asked for writing too and removed again. *)
Definition agree_ops : list (poller_op Z) := [Add 5 1 (Some 50); Add 6 1 (Some 60); Mod 6 3 (Some 61); Del 6; Add 7 1 None].
Definition agree_ke (next : Z) (lists : gmap Z (gmap Z (EpollEvent Z))) : EKernel Z := mkEKernel next lists [5; 6; 7] 5 {[ 5 := EPOLLIN ]} false.
Definition agree_kk (next : Z) (queues : gmap Z (Knotes Z)) : KKernel Z := mkKKernel next queues [5; 6; 7] 15 {[ 5 := (Some EV_EOF, None) ]}.

Lemma agree_ops_proper : proper_ops 2 ∅ agree_ops.
Proof.
  split; [done|]. split; [vm_compute; congruence|]. split; [done|]. split; [vm_compute; congruence|]. split; [split; [done|]; split; [by eexists|done]|].
  split; [vm_compute; congruence|]. split; [split; [done|]; by eexists|]. split; [vm_compute; congruence|]. split; [done|]. split; [vm_compute; congruence|done].
Qed.

Lemma agree_fds (Q : Z -> Prop) : Q 5 -> Q 6 -> Q 7 -> forall fd, fd ∈ op_fd <$> agree_ops -> Q fd.
Proof. intros H5 H6 H7. apply Forall_forall. by repeat constructor. Qed.

Lemma pollers_agree_witness :
  exists pp' ke' kk',
    poller_runs (mkIOPoller (replicate 2 (mkPollEntry (-1) 0 None)) 0) agree_ops = Ret ([0; 0; 0; 0; 0], pp') /\ watched pp' = {[ 5 := (1, Some 50); 7 := (1, None) ]} /\
    run_all (Epoll.poller_run (mkEpollPoller 3 2 (replicate 2 (mkEpollEvent 0 None)))) agree_ops (agree_ke 4 {[ 3 := ∅ ]}) = Ret ([0; 0; 0; 0; 0], ke') /\
    run_all (poller_run (mkKqueuePoller 3 2 (replicate 2 (mkKevent 0 EVFILT_READ 0 None)))) agree_ops (agree_kk 4 {[ 3 := mkKnotes ∅ ∅ ]}) = Ret ([0; 0; 0; 0; 0], kk').
Proof.
  destruct (pollers_agree 2 agree_ops (mkIOPoller (replicate 2 (mkPollEntry (-1) 0 None)) 0) (mkEpollPoller 3 2 (replicate 2 (mkEpollEvent 0 None)))
    (mkKqueuePoller 3 2 (replicate 2 (mkKevent 0 EVFILT_READ 0 None))) (agree_ke 3 ∅) (agree_ke 4 {[ 3 := ∅ ]}) (agree_kk 3 ∅) (agree_kk 4 {[ 3 := mkKnotes ∅ ∅ ]}))
    as (pp' & ke' & kk' & E1 & Hw & E2 & _ & E3 & _); [lia|reflexivity|reflexivity|reflexivity|exact agree_ops_proper| | | | |].
  - apply agree_fds; (split; [apply (bool_decide_unpack _); vm_compute; done|cbn; congruence]).
  - vm_compute. lia.
  - apply agree_fds; cbn; apply (bool_decide_unpack _); vm_compute; done.
  - vm_compute. lia.
  - exists pp', ke', kk'. split; [exact E1|]. split; [rewrite Hw; by vm_compute|]. split; [exact E2|exact E3].
Defined.
