(* ===== verification/Protocol.v ===== *)
(** Protocol: example/protocol/graveldb_wire.h, and the socket that client and
    server talk through.

    Requests and responses are [magic][type or status][body_len][body]. Both sides
    copy integers from and to memory as they are, so the bytes are those of the
    host; the model is that of a little-endian host, the same on both sides. *)

From S2P Require Import Prelude Wire.

(** ** Constants *)

Definition GRAVELDB_WIRE_MAGIC : Z := 0x47565242.
Definition GRAVELDB_WIRE_PORT : Z := 9527.
Definition GRAVELDB_WIRE_MAX_BATCH : Z := 65536.
Definition GRAVELDB_WIRE_HEADER_SIZE : Z := 12.
Definition GRAVELDB_WIRE_STREAM_SENTINEL : Z := 0xFFFFFFFF.

Definition GRAVELDB_MSG_PULL : Z := 1.
Definition GRAVELDB_MSG_PUSH : Z := 2.
Definition GRAVELDB_MSG_DELETE : Z := 3.
Definition GRAVELDB_MSG_FLUSH : Z := 4.
Definition GRAVELDB_MSG_CHECKPOINT : Z := 5.
Definition GRAVELDB_MSG_STATS : Z := 6.
Definition GRAVELDB_MSG_PULL_STREAM : Z := 7.
Definition GRAVELDB_MSG_PING : Z := 255.

Definition GRAVELDB_WIRE_OK : Z := 0.
Definition GRAVELDB_WIRE_ERR : Z := 1.
Definition GRAVELDB_WIRE_NOT_FOUND : Z := 2.
Definition GRAVELDB_WIRE_INVALID : Z := 3.

(** ** Integers in memory: [memcpy] from and to a variable *)

Definition bytes_u32 (v : Z) : list Z := le_split 4 v.
Definition bytes_u64 (v : Z) : list Z := le_split 8 v.
Definition read_u32 (b : list Z) (off : Z) : res Z := let! bs := copy_from b off 4 in Ret (le_combine bs).
Definition read_u64 (b : list Z) (off : Z) : res Z := let! bs := copy_from b off 8 in Ret (le_combine bs).

(** The header of a message: a request with its type, or a response with its
    status. *)
Definition wire_header (what body_len : Z) : list Z :=
  bytes_u32 GRAVELDB_WIRE_MAGIC ++ bytes_u32 what ++ bytes_u32 body_len.

(** ** Sockets *)

Inductive errno_t : Type := E_NONE | EINTR | EAGAIN | E_OTHER.

#[export] Instance errno_eq_dec : EqDecision errno_t.
Proof. solve_decision. Defined.

(** What the system answers to a call: a number of bytes, or a failure with its
    [errno]. *)
Inductive reply : Type := Done (n : Z) | Refused (e : errno_t).

(** One end of a connection: what has arrived and was not read yet, what was
    written, the answers to the next calls (a missing one transfers as much as
    possible), and the variable [errno], which keeps its value when a call
    succeeds. With nothing left to arrive, a read is at the end of the stream. *)
Record Sock : Type := mkSock {
  inbox : list Z;
  outbox : list Z;
  replies : list reply;
  errno : errno_t
}.

Definition next_reply : M Sock (option reply) := fun s =>
  match replies s with
  | [] => Ret (None, s)
  | r :: rs => Ret (Some r, mkSock (inbox s) (outbox s) rs (errno s))
  end.

Definition fails (e : errno_t) : M Sock unit := modify (fun s => mkSock (inbox s) (outbox s) (replies s) e).

(** [write] and [writev]: the number of bytes taken, or -1. *)
Definition sock_write (b : list Z) : M Sock Z :=
  let* r := next_reply in
  let accept k :=
    let b := take k b in
    do* modify (fun s => mkSock (inbox s) (outbox s ++ b) (replies s) (errno s)) in ret (zlen b) in
  match r with
  | None => accept (length b)
  | Some (Done k) => accept (Z.to_nat k)
  | Some (Refused e) => do* fails e in ret (-1)
  end.

(** [read] of at most [len] bytes: the count and the bytes, 0 at the end of the
    stream, or -1. *)
Definition sock_read (len : Z) : M Sock (Z * list Z) :=
  let* r := next_reply in
  let deliver k :=
    let* i := gets inbox in
    let b := take k i in
    do* modify (fun s => mkSock (drop k i) (outbox s) (replies s) (errno s)) in ret (zlen b, b) in
  match r with
  | None => deliver (Z.to_nat len)
  | Some (Done k) => deliver (Z.to_nat (Z.min k len))
  | Some (Refused e) => do* fails e in ret (-1, [])
  end.

(** ** Lemmas on integers in memory *)

Lemma zlen_bytes_u32 v : zlen (bytes_u32 v) = 4.
Proof. apply zlen_le_split. Qed.
Lemma zlen_bytes_u64 v : zlen (bytes_u64 v) = 8.
Proof. apply zlen_le_split. Qed.

Lemma length_bytes_u32 v : length (bytes_u32 v) = 4%nat.
Proof. apply le_split_length. Qed.
Lemma length_bytes_u64 v : length (bytes_u64 v) = 8%nat.
Proof. apply le_split_length. Qed.

Lemma zlen_wire_header t n : zlen (wire_header t n) = GRAVELDB_WIRE_HEADER_SIZE.
Proof. unfold wire_header. rewrite !zlen_app, !zlen_bytes_u32. done. Qed.

(** Reading back what stands at the front, or behind a prefix. *)
Lemma copy_from_app a b c off n : off = zlen a -> n = zlen b -> copy_from (a ++ b ++ c) off n = Ret b.
Proof.
  intros -> ->. rewrite copy_from_window.
  - unfold window, zlen. rewrite !Nat2Z.id, drop_app_length, take_app_length. done.
  - unfold in_buf. rewrite !zlen_app. pose proof (zlen_nonneg a). pose proof (zlen_nonneg b). pose proof (zlen_nonneg c). lia.
Qed.

Lemma read_u32_app a v c off : off = zlen a -> 0 <= v < 2 ^ 32 -> read_u32 (a ++ bytes_u32 v ++ c) off = Ret v.
Proof.
  intros -> Hv. unfold read_u32. rewrite (copy_from_app a _ c) by (auto; by rewrite zlen_bytes_u32). cbn [res_bind].
  unfold bytes_u32. rewrite le_combine_split by (change (256 ^ Z.of_nat 4) with (2 ^ 32); lia). done.
Qed.

Lemma read_u64_app a v c off : off = zlen a -> 0 <= v < 2 ^ 64 -> read_u64 (a ++ bytes_u64 v ++ c) off = Ret v.
Proof.
  intros -> Hv. unfold read_u64. rewrite (copy_from_app a _ c) by (auto; by rewrite zlen_bytes_u64). cbn [res_bind].
  unfold bytes_u64. rewrite le_combine_split by (change (256 ^ Z.of_nat 8) with (2 ^ 64); lia). done.
Qed.

Lemma read_u32_front v c : 0 <= v < 2 ^ 32 -> read_u32 (bytes_u32 v ++ c) 0 = Ret v.
Proof. intros. by apply (read_u32_app []). Qed.
