(* ===== verification/Server.v ===== *)
(** Server: the connections and request handlers of example/server/server.c.

    The database behind the server is an instance of the class [Store], which has
    the operations of include/graveldb.h that the server calls; the engine is one
    ([engine_store] of StoreSpec). A handler is a computation on the part of the server it
    works on, [HSt]: the database, the connection and the heap. What lies in the
    arena of a connection is kept as values that carry the epoch of the arena they
    were allocated in; using them after the arena was reset is undefined. Of the
    receive buffer the model keeps the bytes that were received: reading beyond
    them is undefined. The temporaries that [graveldb_batch_put] takes from the
    arena are not accounted for in it. *)

From S2P Require Import Prelude Wire Protocol Arena Engine.

(** ** The database as the server sees it *)

Class Store (T : Type) : Type := {
  AsyncGet : Type;
  AsyncFlush : Type;
  store_get_submit : list Z -> GetOut -> M T (graveldb_status_t * option AsyncGet * GetOut);
  store_get_poll : option AsyncGet -> GetOut -> M T (graveldb_status_t * option AsyncGet * GetOut);
  store_put : list PutReq -> M T graveldb_status_t;
  store_delete : list Z -> M T graveldb_status_t;
  store_flush_needed : M T bool;
  store_flush_submit : M T (graveldb_status_t * option AsyncFlush);
  store_flush_poll : option AsyncFlush -> M T (graveldb_status_t * option AsyncFlush);
  store_checkpoint : M T graveldb_status_t;
  store_stats : M T GravelDBStats
}.

Definition MAX_CLIENTS : Z := 256.
Definition READ_BUF_SIZE : Z := 16 * 1024 * 1024.
Definition SEND_CHUNK_INLINE : Z := 4096.
Definition PULL_CHUNK_SIZE : Z := 64.
Definition PULL_MAX_DIM : Z := 1024.

(** [sizeof(SendChunk)]: five words and the inline buffer. *)
Definition SEND_CHUNK_SIZE : Z := 5 * 8 + SEND_CHUNK_INLINE.

(** ** Data *)

(** A piece of output: the [len] bytes written so far, the capacity of the
    buffer, and how many of the bytes were sent. *)
Record SendChunk : Type := mkSendChunk { ck_data : list Z; ck_cap : Z; ck_sent : Z; ck_epoch : Z }.
Definition ck_len (ch : SendChunk) : Z := zlen (ck_data ch).

Inductive ConnAsyncState : Type := CONN_IDLE | CONN_ASYNC_PULL | CONN_ASYNC_STREAM.

#[export] Instance conn_state_eq_dec : EqDecision ConnAsyncState.
Proof. solve_decision. Defined.

Section data.
Context {T : Type} `{!Store T}.

(** [chunk_scratch] is one block of which [chunk_bufs] are the 64 slices; the
    model keeps the slices. [a_epoch]: the arena they and [feat_ids] lie in. *)
Record ConnAsyncCtx : Type := mkAsync {
  a_state : ConnAsyncState;
  a_ag : option (AsyncGet (T := T));
  a_feat_ids : list Z;
  a_count : Z;
  a_offset : Z;
  a_chunk_bufs : list (option (list Z));
  a_chunk_dims : list Z;
  a_chunk_n : Z;
  a_first_frame : bool;
  a_phase : Z;
  a_epoch : Z
}.

(** [sock]: the kernel's side of the connection, which the code reaches through
    [fd]. [recv_buf]: the address of the receive buffer and the [recv_len] bytes
    received, of the [recv_cap] bytes it has; [None] is [NULL]. The send list,
    from [send_head] to [send_tail], is a list. *)
Record ClientConn : Type := mkClientConn {
  fd : Z;
  sock : Sock;
  recv_buf : option (Z * list Z);
  recv_cap : Z;
  send_list : list SendChunk;
  send_cur : option SendChunk;
  resp_hdr_off : Z;
  carena : ReqArena;
  async : ConnAsyncCtx
}.

Definition recv_len (c : ClientConn) : Z := match recv_buf c with Some (_, b) => zlen b | None => 0 end.

(** What a handler works on. *)
Record HSt : Type := mkHSt {
  db : T;
  async_flush : option (AsyncFlush (T := T));
  flush_in_flight : bool;
  readonly : bool;
  conn : ClientConn;
  mem : Heap
}.

Definition set_sock (c : ClientConn) (s : Sock) : ClientConn :=
  mkClientConn (fd c) s (recv_buf c) (recv_cap c) (send_list c) (send_cur c) (resp_hdr_off c) (carena c) (async c).
Definition set_recv (c : ClientConn) (b : option (Z * list Z)) (cap : Z) : ClientConn :=
  mkClientConn (fd c) (sock c) b cap (send_list c) (send_cur c) (resp_hdr_off c) (carena c) (async c).
Definition set_send_list (c : ClientConn) (l : list SendChunk) : ClientConn :=
  mkClientConn (fd c) (sock c) (recv_buf c) (recv_cap c) l (send_cur c) (resp_hdr_off c) (carena c) (async c).
Definition set_send_cur (c : ClientConn) (ch : option SendChunk) : ClientConn :=
  mkClientConn (fd c) (sock c) (recv_buf c) (recv_cap c) (send_list c) ch (resp_hdr_off c) (carena c) (async c).
Definition set_carena (c : ClientConn) (a : ReqArena) : ClientConn :=
  mkClientConn (fd c) (sock c) (recv_buf c) (recv_cap c) (send_list c) (send_cur c) (resp_hdr_off c) a (async c).
Definition set_async (c : ClientConn) (a : ConnAsyncCtx) : ClientConn :=
  mkClientConn (fd c) (sock c) (recv_buf c) (recv_cap c) (send_list c) (send_cur c) (resp_hdr_off c) (carena c) a.

Definition async_with_state (a : ConnAsyncCtx) (st : ConnAsyncState) : ConnAsyncCtx :=
  mkAsync st (a_ag a) (a_feat_ids a) (a_count a) (a_offset a) (a_chunk_bufs a) (a_chunk_dims a) (a_chunk_n a)
          (a_first_frame a) (a_phase a) (a_epoch a).
Definition async_with_offset (a : ConnAsyncCtx) (off : Z) : ConnAsyncCtx :=
  mkAsync (a_state a) (a_ag a) (a_feat_ids a) (a_count a) off (a_chunk_bufs a) (a_chunk_dims a) (a_chunk_n a)
          (a_first_frame a) (a_phase a) (a_epoch a).
Definition async_with_phase (a : ConnAsyncCtx) (ph : Z) : ConnAsyncCtx :=
  mkAsync (a_state a) (a_ag a) (a_feat_ids a) (a_count a) (a_offset a) (a_chunk_bufs a) (a_chunk_dims a) (a_chunk_n a)
          (a_first_frame a) ph (a_epoch a).
Definition async_with_first (a : ConnAsyncCtx) (b : bool) : ConnAsyncCtx :=
  mkAsync (a_state a) (a_ag a) (a_feat_ids a) (a_count a) (a_offset a) (a_chunk_bufs a) (a_chunk_dims a) (a_chunk_n a)
          b (a_phase a) (a_epoch a).
(** A get of a chunk of [n] ids is given the first [n] elements of the two arrays;
    what it leaves in them, with the get in flight. *)
Definition async_with_chunk (a : ConnAsyncCtx) (n : Z) (ag : option AsyncGet) (o : GetOut) : ConnAsyncCtx :=
  mkAsync (a_state a) ag (a_feat_ids a) (a_count a) (a_offset a) (out_embeddings o ++ drop (Z.to_nat n) (a_chunk_bufs a))
          (match out_dims o with Some d => d ++ drop (Z.to_nat n) (a_chunk_dims a) | None => a_chunk_dims a end)
          n (a_first_frame a) (a_phase a) (a_epoch a).
Definition chunk_out (a : ConnAsyncCtx) : GetOut :=
  mkGetOut (take (Z.to_nat (a_chunk_n a)) (a_chunk_bufs a)) (Some (take (Z.to_nat (a_chunk_n a)) (a_chunk_dims a))).

(** *** Parts of the state *)

#[local] Abbreviation H A := (M HSt A).

Definition set_db (s : HSt) (d : T) : HSt :=
  mkHSt d (async_flush s) (flush_in_flight s) (readonly s) (conn s) (mem s).
Definition set_flush (s : HSt) (af : option AsyncFlush) (b : bool) : HSt :=
  mkHSt (db s) af b (readonly s) (conn s) (mem s).
Definition set_conn (s : HSt) (c : ClientConn) : HSt :=
  mkHSt (db s) (async_flush s) (flush_in_flight s) (readonly s) c (mem s).
Definition set_mem (s : HSt) (h : Heap) : HSt :=
  mkHSt (db s) (async_flush s) (flush_in_flight s) (readonly s) (conn s) h.

Definition on_db {A} (m : M T A) : H A := fun s => let! '(a, d) := m (db s) in Ret (a, set_db s d).
Definition on_sock {A} (m : M Sock A) : H A := fun s =>
  let! '(a, k) := m (sock (conn s)) in Ret (a, set_conn s (set_sock (conn s) k)).
Definition on_mem {A} (m : M Heap A) : H A := fun s => let! '(a, h) := m (mem s) in Ret (a, set_mem s h).
Definition on_arena {A} (m : M ArenaSt A) : H A := fun s =>
  let! '(a, st) := m (mkArenaSt (carena (conn s)) (mem s)) in
  Ret (a, set_mem (set_conn s (set_carena (conn s) (arena st))) (heap st)).
Definition upd_conn (f : ClientConn -> ClientConn) : H unit := modify (fun s => set_conn s (f (conn s))).
Definition upd_async (f : ConnAsyncCtx -> ConnAsyncCtx) : H unit := upd_conn (fun c => set_async c (f (async c))).
Definition get_async : H ConnAsyncCtx := gets (fun s => async (conn s)).

(** A pointer into the arena is used. *)
Definition valid (e : Z) : H unit := fun s => if e =? epoch (carena (conn s)) then Ret (tt, s) else Ub.

(** ** Connections *)

Definition chunk_arena_new : H (option SendChunk) :=
  let* p := on_arena (arena_alloc SEND_CHUNK_SIZE) in
  let* e := gets (fun s => epoch (carena (conn s))) in
  ret (match p with Some _ => Some (mkSendChunk [] SEND_CHUNK_INLINE 0 e) | None => None end).

Definition idle_async : ConnAsyncCtx := mkAsync CONN_IDLE None [] 0 0 [] [] 0 false 0 0.

(** [inline_data]: the address of the inline block of the connection's arena. *)
Definition client_init (client_fd : Z) (s : Sock) (inline_data : Z) : M Heap ClientConn :=
  let* p := malloc READ_BUF_SIZE in
  ret (mkClientConn client_fd s (match p with Some p => Some (p, []) | None => None end) READ_BUF_SIZE [] None 0
         (arena_init inline_data) idle_async).

(** [while (graveldb_batch_get_poll(...) == GRAVELDB_AGAIN) {}] *)
Fixpoint drain_get (fuel : nat) (ag : option AsyncGet) (o : GetOut) : M T (option AsyncGet * GetOut) :=
  match fuel with
  | O => fun _ => Diverge
  | S fuel =>
    let* '(rc, ag, o) := store_get_poll ag o in
    if decide (rc = GRAVELDB_AGAIN) then drain_get fuel ag o else ret (ag, o)
  end.

(** [fuel]: how many polls the get in flight needs at most. Closing the socket
    leaves its record, which nothing reads any more. *)
Definition client_close (fuel : nat) : H unit :=
  let* a := get_async in
  do* (match a_state a, a_ag a with
       | CONN_IDLE, _ | _, None => ret tt
       | _, Some ag =>
         do* valid (a_epoch a) in
         let* '(ag, o) := on_db (drain_get fuel (Some ag) (chunk_out a)) in
         upd_async (fun a => async_with_chunk a (a_chunk_n a) ag o)
       end) in
  do* upd_async (fun a => async_with_state a CONN_IDLE) in
  let* b := gets (fun s => recv_buf (conn s)) in
  do* (match b with Some (p, _) => on_mem (free p) | None => ret tt end) in
  do* on_arena arena_destroy in
  upd_conn (fun c => mkClientConn (-1) (sock c) None (recv_cap c) [] None (resp_hdr_off c) (carena c) (async c)).

Definition client_has_pending_send (c : ClientConn) : bool :=
  match send_list c with [] => false | _ => true end.

(** The bytes of the first 64 chunks that are not sent yet. *)
Definition gather (l : list SendChunk) : list Z :=
  concat ((fun ch => drop (Z.to_nat (ck_sent ch)) (ck_data ch)) <$> take 64 l).

(** Drops [n] bytes from the head of the list. *)
Fixpoint advance (l : list SendChunk) (n : Z) : list SendChunk :=
  match l with
  | [] => []
  | ch :: l' =>
    if n <=? 0 then l
    else
      let avail := ck_len ch - ck_sent ch in
      if avail <=? n then advance l' (n - avail)
      else mkSendChunk (ck_data ch) (ck_cap ch) (ck_sent ch + n) (ck_epoch ch) :: l'
  end.

(** All the chunks of the list are in the arena as it is now. *)
Fixpoint valid_chunks (l : list SendChunk) : H unit :=
  match l with [] => ret tt | ch :: l => do* valid (ck_epoch ch) in valid_chunks l end.

(** Each round sends at least one byte or returns; [fuel] is a bound of the bytes. *)
Fixpoint flush_rounds (fuel : nat) : H Z :=
  match fuel with
  | O => fun _ => Diverge
  | S fuel =>
    let* l := gets (fun s => send_list (conn s)) in
    match l with
    | [] => ret 0
    | _ =>
      do* valid_chunks (take 64 l) in
      let* wr := on_sock (sock_write (gather l)) in
      if wr <=? 0 then
        let* e := gets (fun s => errno (sock (conn s))) in
        ret (if (wr <? 0) && bool_decide (e = EAGAIN) then 1 else -1)
      else
        do* upd_conn (fun c => set_send_list c (advance (send_list c) wr)) in
        flush_rounds fuel
    end
  end.

Definition pending_bytes (l : list SendChunk) : Z := foldr (fun ch n => (ck_len ch - ck_sent ch) + n) 0 l.

Definition client_flush_send_raw : H Z := fun s =>
  flush_rounds (S (Z.to_nat (pending_bytes (send_list (conn s))))) s.

Definition client_flush_send : H Z :=
  let* rc := client_flush_send_raw in
  do* when (rc =? 0) (on_arena arena_reset) in
  ret rc.

(** ** Responses *)

Definition enqueue (ch : SendChunk) : H unit := upd_conn (fun c => set_send_list c (send_list c ++ [ch])).

Definition response_begin (status : Z) : H unit :=
  let* ch := chunk_arena_new in
  match ch with
  | None => ret tt
  | Some ch =>
    upd_conn (fun c => mkClientConn (fd c) (sock c) (recv_buf c) (recv_cap c) (send_list c)
      (Some (mkSendChunk (wire_header status 0) (ck_cap ch) 0 (ck_epoch ch))) 0 (carena c) (async c))
  end.

(** [data] is what the pointer and the length designate. *)
Definition response_append (data : list Z) : H unit :=
  let* cur := gets (fun s => send_cur (conn s)) in
  match cur with
  | None => ret tt
  | Some ch =>
    do* valid (ck_epoch ch) in
    let* ch :=
      if ck_cap ch <? u64 (ck_len ch + zlen data) then
        let new_cap := u64 ((ck_len ch + zlen data) * 2) in
        let* p := on_arena (arena_alloc new_cap) in
        let* e := gets (fun s => epoch (carena (conn s))) in
        ret (match p with Some _ => Some (mkSendChunk (ck_data ch) new_cap (ck_sent ch) e) | None => None end)
      else ret (Some ch) in
    match ch with
    | None => ret tt
    | Some ch => upd_conn (fun c => set_send_cur c (Some (mkSendChunk (ck_data ch ++ data) (ck_cap ch) (ck_sent ch) (ck_epoch ch))))
    end
  end.

Definition response_finish : H unit :=
  let* cur := gets (fun s => send_cur (conn s)) in
  match cur with
  | None => ret tt
  | Some ch =>
    do* valid (ck_epoch ch) in
    let body_len := u32 (ck_len ch - GRAVELDB_WIRE_HEADER_SIZE) in
    let* d := lift (copy_to (ck_data ch) 8 (bytes_u32 body_len)) in
    do* enqueue (mkSendChunk d (ck_cap ch) (ck_sent ch) (ck_epoch ch)) in
    upd_conn (fun c => set_send_cur c None)
  end.

(** [response_begin] followed by [response_finish]. *)
Definition respond (status : Z) : H unit := do* response_begin status in response_finish.

(** ** Pull *)

(** Appends dimension and embedding of the entries [i] to [chunk_n - 1]. *)
Fixpoint append_entries (l : list Z) : H unit :=
  match l with
  | [] => ret tt
  | i :: l =>
    let* a := get_async in
    do* valid (a_epoch a) in
    let* dim := lift (rd (a_chunk_dims a) i) in
    let d := u32 dim in
    do* response_append (bytes_u32 d) in
    do* when (0 <? d) (
      let* b := lift (let! b := rd (a_chunk_bufs a) i in let! b := deref b in copy_from b 0 (d * 4)) in
      response_append b) in
    append_entries l
  end.

(** The [n] elements of an array from [off] on. *)
Definition sub_array {A} (l : list A) (off n : Z) : res (list A) :=
  if (0 <=? off) && (0 <=? n) && (off + n <=? zlen l) then Ret (take (Z.to_nat n) (drop (Z.to_nat off) l)) else Ub.

(** The dimensions of the chunk are zeroed and the get is submitted; the status of
    the submission is not looked at. *)
Definition submit_chunk (chunk_n : Z) : H unit :=
  let* a := get_async in
  do* valid (a_epoch a) in
  let* bufs := lift (sub_array (a_chunk_bufs a) 0 chunk_n) in
  let* dims := lift (sub_array (a_chunk_dims a) 0 chunk_n) in
  let* ids := lift (sub_array (a_feat_ids a) (a_offset a) chunk_n) in
  let* '(_, ag, o) := on_db (store_get_submit ids (mkGetOut bufs (Some ((fun _ => 0) <$> dims)))) in
  upd_async (fun a => async_with_chunk a chunk_n ag o).

(** [graveldb_batch_get_poll(&a->ag)]: a poll that answers [GRAVELDB_AGAIN] leaves the buffers in the
    arena alone; one that is done writes the embeddings to them, and its caller reads them. *)
Definition poll_chunk : H graveldb_status_t :=
  let* a := get_async in
  let* '(rc, ag, o) := on_db (store_get_poll (a_ag a) (chunk_out a)) in
  do* when (negb (bool_decide (rc = GRAVELDB_AGAIN))) (valid (a_epoch a)) in
  do* upd_async (fun a => async_with_chunk a (a_chunk_n a) ag o) in
  ret rc.

Definition next_chunk_n (a : ConnAsyncCtx) : Z :=
  let n := u32 (a_count a - a_offset a) in
  if PULL_CHUNK_SIZE <? n then PULL_CHUNK_SIZE else n.

(** The tail call consumes a chunk; [fuel] is a bound of the chunks. *)
Fixpoint pull_submit_next_chunk (fuel : nat) : H Z :=
  match fuel with
  | O => fun _ => Diverge
  | S fuel =>
    let* a := get_async in
    if a_count a <=? a_offset a then
      do* response_finish in
      do* upd_async (fun a => async_with_state a CONN_IDLE) in
      ret 0
    else
      let chunk_n := next_chunk_n a in
      do* submit_chunk chunk_n in
      let* rc := poll_chunk in
      if decide (rc = GRAVELDB_AGAIN) then
        do* upd_async (fun a => async_with_phase a 1) in
        ret 1
      else
        do* append_entries (seqZ 0 chunk_n) in
        do* upd_async (fun a => async_with_offset a (u32 (a_offset a + chunk_n))) in
        pull_submit_next_chunk fuel
  end.

Definition chunk_fuel (a : ConnAsyncCtx) : nat := S (Z.to_nat (a_count a - a_offset a)).

Definition pull_resume : H Z :=
  let* rc := poll_chunk in
  if decide (rc = GRAVELDB_AGAIN) then ret 1
  else
    let* a := get_async in
    do* append_entries (seqZ 0 (a_chunk_n a)) in
    do* upd_async (fun a => async_with_offset a (u32 (a_offset a + a_chunk_n a))) in
    let* a := get_async in
    pull_submit_next_chunk (chunk_fuel a).

(** [n] feature ids from [off]. *)
Fixpoint parse_ids (body : list Z) (off : Z) (n : nat) : res (list Z) :=
  match n with
  | O => Ret []
  | S n => let! f := read_u64 body off in let! l := parse_ids body (off + 8) n in Ret (f :: l)
  end.

(** The first [n] slices of [sz] bytes. *)
Fixpoint slices (n : nat) (sz : nat) (b : list Z) : list (list Z) :=
  match n with O => [] | S n => take sz b :: slices n sz (drop sz b) end.

(** [junk n]: the content of a new block of [n] bytes. *)
Variable junk : Z -> list Z.

Definition SCRATCH_SIZE : Z := PULL_CHUNK_SIZE * PULL_MAX_DIM * 4.

(** The parts of a pull request, and its rejection. *)
Definition pull_request (body : list Z) (body_len : Z) : H (option Z) :=
  if body_len <? 4 then ret None
  else
    let* count := lift (read_u32 body 0) in
    ret (if (GRAVELDB_WIRE_MAX_BATCH <? count) || (body_len <? u32 (4 + count * 8)) then None else Some count).

(** The scratch buffers; [None] when one of the allocations fails. *)
Definition alloc_scratch : H (option (list (option (list Z)) * list Z)) :=
  let* p1 := on_arena (arena_alloc SCRATCH_SIZE) in
  let* p2 := on_arena (arena_alloc (PULL_CHUNK_SIZE * 8)) in
  let* p3 := on_arena (arena_alloc (PULL_CHUNK_SIZE * 4)) in
  ret (match p1, p2, p3 with
       | Some _, Some _, Some _ =>
         Some (Some <$> slices (Z.to_nat PULL_CHUNK_SIZE) (Z.to_nat (PULL_MAX_DIM * 4)) (junk SCRATCH_SIZE),
               (fun b => i32 (le_combine b)) <$> slices (Z.to_nat PULL_CHUNK_SIZE) 4 (junk (PULL_CHUNK_SIZE * 4)))
       | _, _, _ => None
       end).

Definition start_async (st : ConnAsyncState) (ids : list Z) (count : Z) (bufs : list (option (list Z))) (dims : list Z)
    (first_frame : bool) : H unit :=
  let* e := gets (fun s => epoch (carena (conn s))) in
  upd_async (fun a => mkAsync st (a_ag a) ids count 0 bufs dims (a_chunk_n a) first_frame 0 e).

Definition handle_pull (body : list Z) (body_len : Z) : H unit :=
  let* req := pull_request body body_len in
  match req with
  | None => respond GRAVELDB_WIRE_INVALID
  | Some count =>
    let* p := on_arena (arena_alloc (count * 8)) in
    match p with
    | None => respond GRAVELDB_WIRE_ERR
    | Some _ =>
      let* ids := lift (parse_ids body 4 (Z.to_nat count)) in
      let* sc := alloc_scratch in
      match sc with
      | None => respond GRAVELDB_WIRE_ERR
      | Some (bufs, dims) =>
        do* response_begin GRAVELDB_WIRE_OK in
        do* response_append (bytes_u32 count) in
        let* a := get_async in
        do* start_async CONN_ASYNC_PULL ids count bufs dims (a_first_frame a) in
        let* a := get_async in
        do* pull_submit_next_chunk (chunk_fuel a) in
        ret tt
      end
    end
  end.

(** ** Streaming pull *)

Definition stream_send_terminator : H unit :=
  let* ch := chunk_arena_new in
  match ch with
  | Some ch => enqueue (mkSendChunk (bytes_u32 0) (ck_cap ch) 0 (ck_epoch ch))
  | None => ret tt
  end.

(** The sum of the sizes of the entries. *)
Fixpoint payload_size (dims : list Z) (n : Z) (l : list Z) : res Z :=
  match l with
  | [] => Ret n
  | i :: l => let! d := rd dims i in payload_size dims (u64 (n + 4 + u64 d * 4)) l
  end.

(** The bytes of the entries. *)
Fixpoint frame_entries (a : ConnAsyncCtx) (l : list Z) : res (list Z) :=
  match l with
  | [] => Ret []
  | i :: l =>
    let! dim := rd (a_chunk_dims a) i in
    let d := u32 dim in
    let! b := if 0 <? d then let! b := rd (a_chunk_bufs a) i in let! b := deref b in copy_from b 0 (d * 4) else Ret [] in
    let! rest := frame_entries a l in
    Ret (bytes_u32 d ++ b ++ rest)
  end.

Definition stream_build_frame : H unit :=
  let* a := get_async in
  do* valid (a_epoch a) in
  let idx := seqZ 0 (a_chunk_n a) in
  let* payload := lift (payload_size (a_chunk_dims a) (if a_first_frame a then 4 else 0) idx) in
  let frame_size := u64 (4 + payload) in
  let* ch := chunk_arena_new in
  match ch with
  | None => ret tt
  | Some ch =>
    let* cap :=
      if ck_cap ch <? frame_size then
        let* p := on_arena (arena_alloc frame_size) in
        ret (match p with Some _ => Some frame_size | None => None end)
      else ret (Some (ck_cap ch)) in
    match cap with
    | None => ret tt
    | Some cap =>
      let count := if a_first_frame a then bytes_u32 (a_count a) else [] in
      do* when (a_first_frame a) (upd_async (fun a => async_with_first a false)) in
      let* es := lift (frame_entries a idx) in
      let d := bytes_u32 (u32 payload) ++ count ++ es in
      if cap <? zlen d then fun _ => Ub
      else enqueue (mkSendChunk d cap 0 (ck_epoch ch))
    end
  end.

Fixpoint stream_submit_next_chunk (fuel : nat) : H Z :=
  match fuel with
  | O => fun _ => Diverge
  | S fuel =>
    let* a := get_async in
    if a_count a <=? a_offset a then
      do* stream_send_terminator in
      do* upd_async (fun a => async_with_state a CONN_IDLE) in
      ret 0
    else
      let chunk_n := next_chunk_n a in
      do* submit_chunk chunk_n in
      let* rc := poll_chunk in
      if decide (rc = GRAVELDB_AGAIN) then
        do* upd_async (fun a => async_with_phase a 1) in
        ret 1
      else
        do* stream_build_frame in
        do* upd_async (fun a => async_with_offset a (u32 (a_offset a + chunk_n))) in
        stream_submit_next_chunk fuel
  end.

Definition stream_resume : H Z :=
  let* rc := poll_chunk in
  if decide (rc = GRAVELDB_AGAIN) then ret 1
  else
    do* stream_build_frame in
    do* upd_async (fun a => async_with_offset a (u32 (a_offset a + a_chunk_n a))) in
    let* a := get_async in
    stream_submit_next_chunk (chunk_fuel a).

Definition handle_pull_stream (body : list Z) (body_len : Z) : H unit :=
  let* req := pull_request body body_len in
  match req with
  | None => respond GRAVELDB_WIRE_INVALID
  | Some count =>
    let* p := on_arena (arena_alloc (count * 8)) in
    match p with
    | None => respond GRAVELDB_WIRE_ERR
    | Some _ =>
      let* ids := lift (parse_ids body 4 (Z.to_nat count)) in
      let* ch := chunk_arena_new in
      match ch with
      | None => ret tt
      | Some ch =>
        do* enqueue (mkSendChunk (wire_header GRAVELDB_WIRE_OK GRAVELDB_WIRE_STREAM_SENTINEL) (ck_cap ch) 0 (ck_epoch ch)) in
        let* sc := alloc_scratch in
        match sc with
        | None => stream_send_terminator
        | Some (bufs, dims) =>
          do* start_async CONN_ASYNC_STREAM ids count bufs dims true in
          let* a := get_async in
          do* stream_submit_next_chunk (chunk_fuel a) in
          ret tt
        end
      end
    end
  end.

(** ** The other requests *)

(** The entries of a push, up to the first that does not fit in the body. *)
Fixpoint parse_push (body : list Z) (off body_len : Z) (n : nat) : res (list PutReq) :=
  match n with
  | O => Ret []
  | S n =>
    if body_len <? off + 12 then Ret []
    else
      let! feat_id := read_u64 body off in
      let! dim := read_u32 body (off + 8) in
      let off := off + 12 in
      if body_len <? off + dim * 4 then Ret []
      else
        let! emb := copy_from body off (dim * 4) in
        let! l := parse_push body (off + dim * 4) body_len n in
        Ret (mkPutReq feat_id (i32 dim) (Some emb) :: l)
  end.

Definition handle_push (body : list Z) (body_len : Z) : H unit :=
  if body_len <? 4 then respond GRAVELDB_WIRE_INVALID
  else
    let* count := lift (read_u32 body 0) in
    if GRAVELDB_WIRE_MAX_BATCH <? count then respond GRAVELDB_WIRE_INVALID
    else
      let* p1 := on_arena (arena_alloc (count * 8)) in
      let* p2 := on_arena (arena_alloc (count * 4)) in
      let* p3 := on_arena (arena_alloc (count * 8)) in
      match p1, p2, p3 with
      | Some _, Some _, Some _ =>
        let* reqs := lift (parse_push body 4 body_len (Z.to_nat count)) in
        do* when (0 <? zlen reqs) (
          let* _ := on_db (store_put reqs) in
          let* busy := gets flush_in_flight in
          if (busy : bool) then ret tt
          else
            let* need := on_db store_flush_needed in
            when need (
              let* '(_, af) := on_db store_flush_submit in
              modify (fun s => set_flush s af true))) in
        respond GRAVELDB_WIRE_OK
      | _, _, _ => respond GRAVELDB_WIRE_ERR
      end.

(** The ids of a delete: at most [count], as far as the body goes. Each one takes
    eight bytes of the body, which bounds the rounds. *)
Fixpoint parse_delete (fuel : nat) (body : list Z) (off body_len i count : Z) : res (list Z) :=
  match fuel with
  | O => Diverge
  | S fuel =>
    if (i <? count) && (off + 8 <=? body_len) then
      let! f := read_u64 body off in
      let! l := parse_delete fuel body (off + 8) body_len (i + 1) count in
      Ret (f :: l)
    else Ret []
  end.

Definition handle_delete (body : list Z) (body_len : Z) : H unit :=
  if body_len <? 4 then respond GRAVELDB_WIRE_INVALID
  else
    let* count := lift (read_u32 body 0) in
    let on_heap := 64 <? count in
    let* p := if on_heap then on_mem (malloc (count * 8)) else ret (Some 0) in
    match p with
    | None => respond GRAVELDB_WIRE_ERR
    | Some p =>
      let* ids := lift (parse_delete (S (Z.to_nat (body_len / 8))) body 4 body_len 0 count) in
      do* when (0 <? zlen ids) (let* _ := on_db (store_delete ids) in ret tt) in
      do* when on_heap (on_mem (free p)) in
      respond GRAVELDB_WIRE_OK
    end.

Definition handle_flush : H unit :=
  let* _ := on_db store_checkpoint in
  respond GRAVELDB_WIRE_OK.

Definition handle_checkpoint : H unit :=
  let* _ := on_db store_checkpoint in
  respond GRAVELDB_WIRE_OK.

(** [GravelDBStats] in memory: seven counters and two floats; those that the
    engine does not set are zero. *)
Definition stats_bytes (st : GravelDBStats) : list Z :=
  bytes_u64 (total_features st) ++ bytes_u64 (st_total_entries st) ++ bytes_u64 0 ++ bytes_u64 0 ++ bytes_u64 0 ++
  bytes_u64 (st_flush_bytes st) ++ bytes_u64 (checkpoint_generation st) ++ bytes_u32 0 ++ bytes_u32 0.

Definition handle_stats : H unit :=
  let* st := on_db store_stats in
  do* response_begin GRAVELDB_WIRE_OK in
  do* response_append (stats_bytes st) in
  response_finish.

Definition handle_ping : H unit :=
  do* response_begin GRAVELDB_WIRE_OK in
  do* response_append (bytes_u32 0x504F4E47) in
  response_finish.

(** ** Messages *)

Definition client_async_resume : H Z :=
  let* a := get_async in
  match a_state a with
  | CONN_IDLE => ret 0
  | CONN_ASYNC_PULL => pull_resume
  | CONN_ASYNC_STREAM => stream_resume
  end.

Definition handle_mutation (msg_type : Z) (body : list Z) (body_len : Z) : H unit :=
  if msg_type =? GRAVELDB_MSG_PUSH then handle_push body body_len
  else if msg_type =? GRAVELDB_MSG_DELETE then handle_delete body body_len
  else if msg_type =? GRAVELDB_MSG_FLUSH then handle_flush
  else handle_checkpoint.

Definition is_mutation (msg_type : Z) : bool :=
  (msg_type =? GRAVELDB_MSG_PUSH) || (msg_type =? GRAVELDB_MSG_DELETE) ||
  (msg_type =? GRAVELDB_MSG_FLUSH) || (msg_type =? GRAVELDB_MSG_CHECKPOINT).

Definition dispatch (msg_type : Z) (body : list Z) (body_len : Z) : H unit :=
  if msg_type =? GRAVELDB_MSG_PULL then handle_pull body body_len
  else if msg_type =? GRAVELDB_MSG_PULL_STREAM then handle_pull_stream body body_len
  else if is_mutation msg_type then
    let* ro := gets readonly in
    if (ro : bool) then respond GRAVELDB_WIRE_INVALID else handle_mutation msg_type body body_len
  else if msg_type =? GRAVELDB_MSG_STATS then handle_stats
  else if msg_type =? GRAVELDB_MSG_PING then handle_ping
  else respond GRAVELDB_WIRE_INVALID.

(** The sum of header size and body length is a [uint32_t]. *)
Definition message_size (body_len : Z) : Z := u32 (GRAVELDB_WIRE_HEADER_SIZE + body_len).

Definition process_message : H Z :=
  let* c := gets conn in
  if bool_decide (a_state (async c) <> CONN_IDLE) then ret 0
  else if recv_len c <? GRAVELDB_WIRE_HEADER_SIZE then ret 0
  else
    let* b := lift (deref (recv_buf c)) in
    let buf := snd b in
    let* magic := lift (read_u32 buf 0) in
    let* msg_type := lift (read_u32 buf 4) in
    let* body_len := lift (read_u32 buf 8) in
    if negb (magic =? GRAVELDB_WIRE_MAGIC) then ret (-1)
    else if recv_len c <? message_size body_len then ret 0
    else
      do* dispatch msg_type (drop (Z.to_nat GRAVELDB_WIRE_HEADER_SIZE) buf) body_len in
      let consumed := message_size body_len in
      do* upd_conn (fun c => set_recv c (Some (fst b, drop (Z.to_nat consumed) buf)) (recv_cap c)) in
      ret 1.

(** [while ((rc = process_message(srv, c)) > 0) {}] *)
Fixpoint process_messages (fuel : nat) : H Z :=
  match fuel with
  | O => fun _ => Diverge
  | S fuel =>
    let* rc := process_message in
    if 0 <? rc then process_messages fuel else ret rc
  end.

(** A message takes at least a header, unless its length wraps around. *)
Definition message_fuel (c : ClientConn) : nat := S (Z.to_nat (recv_len c)).
Definition process_all : H Z := fun s => process_messages (message_fuel (conn s)) s.

End data.
