(* ===== verification/ServerLoop.v ===== *)
(** ServerLoop: the event loops of example/server/server.c and the life of a server.

    [server_loop] and [read_worker_loop] repeat one iteration; the definitions here
    are one iteration of each ([server_tick], [worker_tick]), over the state that
    the two kinds of loop share ([EventLoop]). What the system reports is an
    argument of an iteration: the time, and the events of [poll]; connections that
    wait to be accepted are a queue. The timeout that is passed to [poll] only
    says how long the call may wait and is left out. *)

From S2P Require Import Prelude Wire Protocol Arena IoPoller Engine Server.

(** ** Data *)

(** The pointers registered with the poller. *)
Inductive UserData : Type := LISTEN_SENTINEL | NOTIFY_SENTINEL | ClientPtr (i : Z).

Definition WORKER_MAX_CLIENTS : Z := 64.

(** [sizeof(ClientConn)] and the offset of the inline block of its arena. *)
Definition CLIENT_CONN_SIZE : Z := 65728.
Definition INLINE_OFFSET : Z := 64.

Section loop.
Context {T : Type} `{!Store T}.

(** What [GravelServer] and [ReadWorker] have in common, with the fields of the
    server that handlers use. [base]: the address of [clients]. [pending]: the
    connections that [accept] or the pipe of a worker delivers next. *)
Record EventLoop : Type := mkEventLoop {
  l_db : T;
  l_flush : option (AsyncFlush (T := T));
  l_in_flight : bool;
  l_readonly : bool;
  l_clients : list (ClientConn (T := T));
  l_num_clients : Z;
  l_poller : IOPoller UserData;
  l_mem : Heap;
  l_base : Z;
  l_pending : list (Z * Sock);
  l_limit : Z
}.

#[local] Abbreviation L A := (M EventLoop A).

Definition set_clients (l : EventLoop) (cs : list ClientConn) : EventLoop :=
  mkEventLoop (l_db l) (l_flush l) (l_in_flight l) (l_readonly l) cs (l_num_clients l) (l_poller l) (l_mem l) (l_base l) (l_pending l) (l_limit l).
Definition set_num_clients (l : EventLoop) (n : Z) : EventLoop :=
  mkEventLoop (l_db l) (l_flush l) (l_in_flight l) (l_readonly l) (l_clients l) n (l_poller l) (l_mem l) (l_base l) (l_pending l) (l_limit l).
Definition set_poller (l : EventLoop) (p : IOPoller UserData) : EventLoop :=
  mkEventLoop (l_db l) (l_flush l) (l_in_flight l) (l_readonly l) (l_clients l) (l_num_clients l) p (l_mem l) (l_base l) (l_pending l) (l_limit l).
Definition set_pending (l : EventLoop) (q : list (Z * Sock)) : EventLoop :=
  mkEventLoop (l_db l) (l_flush l) (l_in_flight l) (l_readonly l) (l_clients l) (l_num_clients l) (l_poller l) (l_mem l) (l_base l) q (l_limit l).
Definition set_heap (l : EventLoop) (h : Heap) : EventLoop :=
  mkEventLoop (l_db l) (l_flush l) (l_in_flight l) (l_readonly l) (l_clients l) (l_num_clients l) (l_poller l) h (l_base l) (l_pending l) (l_limit l).
Definition set_loop_db (l : EventLoop) (d : T) (af : option AsyncFlush) (b : bool) : EventLoop :=
  mkEventLoop d af b (l_readonly l) (l_clients l) (l_num_clients l) (l_poller l) (l_mem l) (l_base l) (l_pending l) (l_limit l).

(** A computation on the connection in slot [i]. *)
Definition with_client {A} (i : Z) (m : M HSt A) : L A := fun l =>
  let! c := rd (l_clients l) i in
  let! '(a, s) := m (mkHSt (l_db l) (l_flush l) (l_in_flight l) (l_readonly l) c (l_mem l)) in
  let! cs := wr (l_clients l) i (conn s) in
  Ret (a, set_heap (set_clients (set_loop_db l (db s) (async_flush s) (flush_in_flight s)) cs) (mem s)).

Definition get_client (i : Z) : L ClientConn := fun l => let! c := rd (l_clients l) i in Ret (c, l).

Definition on_poller {A} (f : IOPoller UserData -> res (A * IOPoller UserData)) : L A := fun l =>
  let! '(a, p) := f (l_poller l) in Ret (a, set_poller l p).

(** [fuel]: how many polls a get in flight needs at most ([client_close]). *)
Variable fuel : nat.
Variable junk : Z -> list Z.

(** [io_poller_del], [client_close], [num_clients--] *)
Definition drop_client (i : Z) : L unit :=
  let* c := get_client i in
  let* _ := on_poller (fun p => io_poller_del p (fd c)) in
  do* with_client i (client_close fuel) in
  modify (fun l => set_num_clients l (l_num_clients l - 1)).

(** Registers what the connection waits for. *)
Definition update_interest (i : Z) : L unit :=
  let* c := get_client i in
  if 0 <=? fd c then
    let interest := if client_has_pending_send c then Z.lor IO_EVENT_READ IO_EVENT_WRITE else IO_EVENT_READ in
    let* _ := on_poller (fun p => io_poller_mod p (fd c) interest (Some (ClientPtr i))) in
    ret tt
  else ret tt.

(** Sends what is queued; false when the connection was dropped. *)
Definition send_or_drop (i : Z) (send : M HSt Z) : L bool :=
  let* c := get_client i in
  if client_has_pending_send c then
    let* rc := with_client i send in
    if rc <? 0 then do* drop_client i in ret false else ret true
  else ret true.

(** Processes the messages received; false when the connection was dropped. *)
Definition process_or_drop (i : Z) : L bool :=
  let* rc := with_client i (process_all junk) in
  if rc <? 0 then do* drop_client i in ret false else ret true.

(** ** Connections with a get in flight *)

(** Whether the connection was busy. *)
Definition resume_client (i : Z) : L bool :=
  let* c := get_client i in
  if (fd c <? 0) || bool_decide (a_state (async c) = CONN_IDLE) then ret false
  else
    let* still_busy := with_client i client_async_resume in
    let* alive :=
      if still_busy =? 0 then
        let* ok := send_or_drop i client_flush_send in
        if (ok : bool) then process_or_drop i else ret false
      else send_or_drop i client_flush_send_raw in
    do* when alive (update_interest i) in
    ret true.

Fixpoint resume_clients (slots : list Z) (has_async : bool) : L bool :=
  match slots with
  | [] => ret has_async
  | i :: slots => let* b := resume_client i in resume_clients slots (has_async || b)
  end.

(** ** New connections *)

Fixpoint free_slot (cs : list ClientConn) (i : Z) : option Z :=
  match cs with
  | [] => None
  | c :: cs => if fd c =? -1 then Some i else free_slot cs (i + 1)
  end.
Definition find_free_slot (l : EventLoop) : option Z := free_slot (l_clients l) 0.

(** A new connection gets a free slot, or is closed. *)
Definition add_client (client_fd : Z) (s : Sock) : L unit :=
  let* slot := gets find_free_slot in
  match slot with
  | None => ret tt
  | Some i =>
    let* b := gets l_base in
    do* (fun l =>
      let! '(c, h) := client_init client_fd s (b + i * CLIENT_CONN_SIZE + INLINE_OFFSET) (l_mem l) in
      let! cs := wr (l_clients l) i c in
      Ret (tt, set_heap (set_clients l cs) h)) in
    do* modify (fun l => set_num_clients l (l_num_clients l + 1)) in
    let* _ := on_poller (fun p => io_poller_add p client_fd IO_EVENT_READ (Some (ClientPtr i))) in
    ret tt
  end.

(** [accept] of one connection, when one waits. *)
Definition accept_one : L unit :=
  let* q := gets l_pending in
  match q with
  | [] => ret tt
  | (f, s) :: q =>
    do* modify (fun l => set_pending l q) in
    if 0 <=? f then add_client f s else ret tt
  end.

(** A worker takes all the descriptors out of its pipe. *)
Fixpoint take_notified (q : list (Z * Sock)) : L unit :=
  match q with
  | [] => modify (fun l => set_pending l [])
  | (f, s) :: q => do* (if f <? 0 then ret tt else add_client f s) in take_notified q
  end.

(** ** Events of a connection *)

(** Makes room in the receive buffer; false when the connection is to be dropped. *)
Definition grow_recv (limit : Z) : M HSt bool :=
  let* c := gets conn in
  if recv_cap c <=? recv_len c then
    let new_cap := u64 (recv_cap c * 2) in
    let new_cap := if limit <? new_cap then limit else new_cap in
    if new_cap <=? recv_cap c then ret false
    else
      let* p := on_mem (malloc new_cap) in
      match p with
      | None => ret false
      | Some p =>
        let* b := lift (deref (recv_buf c)) in
        do* on_mem (free (fst b)) in
        do* upd_conn (fun c => set_recv c (Some (p, snd b)) new_cap) in
        ret true
      end
  else ret true.

(** [read] into the receive buffer: the result of the call. A [NULL] buffer is
    refused by the system. *)
Definition receive : M HSt Z :=
  let* c := gets conn in
  match recv_buf c with
  | None => ret (-1)
  | Some (p, b) =>
    let* '(n, bs) := on_sock (sock_read (recv_cap c - recv_len c)) in
    do* when (0 <? n) (upd_conn (fun c => set_recv c (Some (p, b ++ bs)) (recv_cap c))) in
    ret n
  end.

(** The reading part; false when the connection was dropped. *)
Definition read_event (i : Z) : L bool :=
  let* limit := gets l_limit in
  let* room := with_client i (grow_recv limit) in
  if negb room then do* drop_client i in ret false
  else
    let* n := with_client i receive in
    if n <=? 0 then do* drop_client i in ret false
    else process_or_drop i.

Definition READ_MASK : Z := Z.lor IO_EVENT_READ (Z.lor IO_EVENT_HUP IO_EVENT_ERROR).

Definition client_event (i events : Z) : L unit :=
  let* c := get_client i in
  if fd c <? 0 then ret tt
  else
    let* alive := if negb (Z.land events READ_MASK =? 0) then read_event i else ret true in
    if negb alive then ret tt
    else
      let* alive := send_or_drop i client_flush_send in
      when alive (update_interest i).

Definition handle_event (ev : IOEvent UserData) : L unit :=
  match ev_userdata ev with
  | Some LISTEN_SENTINEL => accept_one
  | Some NOTIFY_SENTINEL => let* q := gets l_pending in take_notified q
  | Some (ClientPtr i) => client_event i (ev_events ev)
  | None => fun _ => Ub
  end.

(** The events that the poller reports; a failure reports none. *)
Definition poll_loop (max_events : Z) (poll : option (Z -> Z -> Z)) : L (list (IOEvent UserData)) :=
  gets (fun l => fst (io_poller_wait (l_poller l) max_events true true poll)).

(** ** One iteration of a worker *)

Definition worker_tick (poll : option (Z -> Z -> Z)) : L unit :=
  let* _ := resume_clients (seqZ 0 WORKER_MAX_CLIENTS) false in
  let* evs := poll_loop (WORKER_MAX_CLIENTS + 1) poll in
  forM evs handle_event.

(** The end of a worker: its connections are closed. *)
Fixpoint close_clients (slots : list Z) : L unit :=
  match slots with
  | [] => ret tt
  | i :: slots =>
    let* c := get_client i in
    do* when (0 <=? fd c) (
      let* _ := on_poller (fun p => io_poller_del p (fd c)) in
      with_client i (client_close fuel)) in
    close_clients slots
  end.
End loop.
Arguments EventLoop T {_}.

(** ** The server *)

Section server.
Context {T : Type} `{!Store T}.
Variable fuel : nat.
Variable junk : Z -> list Z.

(** The fields of [GravelServerConfig] that the server uses; the configuration of
    the database goes to [graveldb_open]. *)
Record GravelServerConfig : Type := mkServerConfig {
  port : Z;
  backlog : Z;
  max_request_size : Z;
  auto_checkpoint_interval_s : Z;
  cfg_readonly : bool;
  cfg_num_read_workers : Z
}.

(** [pipes]: the descriptors written to the pipe of each worker. *)
Record GravelServer : Type := mkGravelServer {
  config : GravelServerConfig;
  events : EventLoop T;
  last_checkpoint_ms : Z;
  checkpoint_interval_ms : Z;
  listen_fd : Z;
  running : bool;
  num_read_workers : Z;
  pipes : list (list (Z * Sock));
  rr_next : Z
}.

#[local] Abbreviation G A := (M GravelServer A).

Definition set_events (g : GravelServer) (l : EventLoop T) : GravelServer :=
  mkGravelServer (config g) l (last_checkpoint_ms g) (checkpoint_interval_ms g) (listen_fd g) (running g) (num_read_workers g) (pipes g) (rr_next g).
Definition set_last (g : GravelServer) (t : Z) : GravelServer :=
  mkGravelServer (config g) (events g) t (checkpoint_interval_ms g) (listen_fd g) (running g) (num_read_workers g) (pipes g) (rr_next g).
Definition set_listening (g : GravelServer) (f : Z) (run : bool) : GravelServer :=
  mkGravelServer (config g) (events g) (last_checkpoint_ms g) (checkpoint_interval_ms g) f run (num_read_workers g) (pipes g) (rr_next g).
Definition set_workers (g : GravelServer) (n : Z) (ps : list (list (Z * Sock))) (rr : Z) : GravelServer :=
  mkGravelServer (config g) (events g) (last_checkpoint_ms g) (checkpoint_interval_ms g) (listen_fd g) (running g) n ps rr.

Definition on_events {A} (m : M (EventLoop T) A) : G A := fun g =>
  let! '(a, l) := m (events g) in Ret (a, set_events g l).
Definition on_store {A} (m : M T A) : M (EventLoop T) A := fun l =>
  let! '(a, d) := m (l_db l) in Ret (a, set_loop_db l d (l_flush l) (l_in_flight l)).

(** *** One iteration of [server_loop] *)

Definition poll_flush : M (EventLoop T) unit :=
  let* l := gets (fun l => l) in
  if l_in_flight l then
    let* '(rc, af) := on_store (store_flush_poll (l_flush l)) in
    modify (fun l => set_loop_db l (l_db l) af (bool_decide (rc = GRAVELDB_AGAIN)))
  else ret tt.

Definition auto_checkpoint (now : Z) : G unit :=
  let* g := gets (fun g => g) in
  if negb (l_readonly (events g)) && (0 <? checkpoint_interval_ms g) && (checkpoint_interval_ms g <=? u64 (now - last_checkpoint_ms g)) then
    let* _ := on_events (on_store store_checkpoint) in
    modify (fun g => set_last g now)
  else ret tt.

Definition server_tick (now : Z) (poll : option (Z -> Z -> Z)) : G unit :=
  do* on_events poll_flush in
  let* _ := on_events (resume_clients fuel junk (seqZ 0 MAX_CLIENTS) false) in
  let* evs := on_events (poll_loop (MAX_CLIENTS + 1) poll) in
  do* auto_checkpoint now in
  on_events (forM evs (handle_event fuel junk)).

(** *** The accept loop of a read-only server *)

(** One event: the connection goes to the next worker, or is closed when its pipe
    refuses it. *)
Definition distribute_one (pipe_ok : bool) : G unit :=
  let* g := gets (fun g => g) in
  match l_pending (events g) with
  | [] => ret tt
  | (f, s) :: q =>
    do* on_events (modify (fun l => set_pending l q)) in
    if f <? 0 then ret tt
    else
      let target := Z.rem (rr_next g) (num_read_workers g) in
      do* modify (fun g => set_workers g (num_read_workers g) (pipes g) (i32 (rr_next g + 1))) in
      if pipe_ok then
        let* p := lift (rd (pipes g) target) in
        let* ps := lift (wr (pipes g) target (p ++ [(f, s)])) in
        modify (fun g => set_workers g (num_read_workers g) ps (rr_next g))
      else ret tt
  end.

(** [oks]: for each event, whether the pipe takes the descriptor. *)
Definition accept_tick (oks : list bool) : G unit := forM oks distribute_one.

(** *** Creation, start and stop *)

Definition no_client : ClientConn (T := T) :=
  mkClientConn (-1) (mkSock [] [] [] E_NONE) None 0 [] None 0 (arena_init 0) idle_async.

(** [ok]: the allocation of the server; [opened]: the result of [graveldb_open];
    [h], [base]: the heap and where the connections of the server lie in it. *)
Definition gravel_server_create (cfg : GravelServerConfig) (ok ok_p ok_e : bool) (opened : graveldb_status_t + T)
    (now base : Z) (h : Heap) : graveldb_status_t * option GravelServer :=
  if negb ok then (GRAVELDB_ERR_OOM, None)
  else
    match io_poller_create (MAX_CLIENTS + 16) ok_p ok_e with
    | None => (GRAVELDB_ERR_OOM, None)
    | Some p =>
      match opened with
      | inl rc => (rc, None)
      | inr d =>
        let interval_s := if 0 <? auto_checkpoint_interval_s cfg then u32 (auto_checkpoint_interval_s cfg) else 60 in
        let l := mkEventLoop d None false (cfg_readonly cfg) (replicate (Z.to_nat MAX_CLIENTS) no_client) 0 p h base []
                             (max_request_size cfg) in
        (GRAVELDB_OK,
         Some (mkGravelServer cfg l (if cfg_readonly cfg then 0 else now)
                 (if cfg_readonly cfg then 0 else u32 (interval_s * 1000)) (-1) false 0 [] 0))
      end
    end.

(** A worker before its thread starts; the notification pipe is descriptor [nfd]. *)
Definition new_worker (d : T) (nfd base : Z) (h : Heap) : res (EventLoop T) :=
  let! p := deref (io_poller_create (WORKER_MAX_CLIENTS + 4) true true) in
  let! '(_, p) := io_poller_add p nfd IO_EVENT_READ (Some NOTIFY_SENTINEL) in
  Ret (mkEventLoop d None false true (replicate (Z.to_nat WORKER_MAX_CLIENTS) no_client) 0 p h base []
                   (64 * 1024 * 1024)).

(** [sfd]: the result of [socket]; [bound], [listening]: whether [bind] and
    [listen] succeed; [piped]: whether the pipes of the workers could be made.
    The threads themselves are the iterations above. *)
Definition gravel_server_start (sfd : Z) (bound listening piped : bool) : G graveldb_status_t :=
  if sfd <? 0 then do* modify (fun g => set_listening g sfd (running g)) in ret GRAVELDB_ERR_IO
  else
    do* modify (fun g => set_listening g sfd (running g)) in
    if negb bound || negb listening then ret GRAVELDB_ERR_IO
    else
      let* _ := on_events (on_poller (fun p => io_poller_add p sfd IO_EVENT_READ (Some LISTEN_SENTINEL))) in
      do* modify (fun g => set_listening g sfd true) in
      let* g := gets (fun g => g) in
      if l_readonly (events g) && (0 <? cfg_num_read_workers (config g)) then
        do* modify (fun g => set_workers g (cfg_num_read_workers (config g)) (pipes g) (rr_next g)) in
        if piped then
          do* modify (fun g => set_workers g (num_read_workers g) (replicate (Z.to_nat (num_read_workers g)) []) (rr_next g)) in
          ret GRAVELDB_OK
        else ret GRAVELDB_ERR_IO
      else ret GRAVELDB_OK.

Definition gravel_server_stop : G unit :=
  let* g := gets (fun g => g) in
  if negb (running g) then ret tt
  else
    do* modify (fun g => set_listening g (listen_fd g) false) in
    do* on_events (close_clients fuel (seqZ 0 MAX_CLIENTS)) in
    do* when (0 <=? listen_fd g) (
      let* _ := on_events (on_poller (fun p => io_poller_del p (listen_fd g))) in
      modify (fun g => set_listening g (-1) (running g))) in
    let* g := gets (fun g => g) in
    if l_readonly (events g) then ret tt
    else let* _ := on_events (on_store store_checkpoint) in ret tt.

(** [close]: [graveldb_close]; the memory of the server is released with it. *)
Definition gravel_server_destroy (close : M T unit) : G unit :=
  do* gravel_server_stop in
  on_events (on_store close).

Definition gravel_server_get_db (g : GravelServer) : T := l_db (events g).
End server.
