(* ===== verification/StoreSpec.v ===== *)
(** StoreSpec: what the server relies on when it reads from the database, as the
    class [ReadStore], and two stores that keep the promise: the engine, and a map
    that answers a get after some polls. *)

From S2P Require Import Prelude LinearProbe Wire SlabAlloc Overlay HashIndex DimRegistry IoBatch PageMap DimBin Engine EngineProps EngineGet Protocol Arena Server.

(** What a store holds: for a feature, its dimension and the bytes of its entry. *)
Definition Contents : Type := Z -> option (Z * list Z).

(** What a get leaves in the buffer and the dimension of a feature. *)
Definition emb_answer (c : Contents) (fid : Z) (buf : option (list Z)) : option (list Z) :=
  match buf, c fid with Some b, Some (_, x) => Some (x ++ drop (length x) b) | _, _ => buf end.
Definition dim_of (c : Contents) (fid : Z) : Z := match c fid with Some (d, _) => d | None => 0 end.
Definition has_room (c : Contents) (fid : Z) (buf : option (list Z)) : Prop :=
  match buf, c fid with Some b, Some (_, x) => zlen x <= zlen b | _, _ => True end.

Definition answered (c : Contents) (ids : list Z) (bufs : list (option (list Z))) : GetOut :=
  mkGetOut (zip_with (emb_answer c) ids bufs) (Some (dim_of c <$> ids)).

(** [holds d c]: the store is at rest and holds [c]. [flying d c ag o ids bufs n]:
    a get of [ids] into the buffers [bufs] is in flight, its buffers are [o] now,
    and [n] polls answer [GRAVELDB_AGAIN] before it is done. *)
Class ReadStore (T : Type) `{!Store T} : Type := {
  holds : T -> Contents -> Prop;
  flying : T -> Contents -> option (AsyncGet (T := T)) -> GetOut -> list Z -> list (option (list Z)) -> nat -> Prop;
  flying_size d c ag o ids bufs n : flying d c ag o ids bufs n ->
    length (out_embeddings o) = length ids /\ exists l, out_dims o = Some l /\ length l = length ids;
  submit_spec d c ids bufs dims : holds d c -> length bufs = length ids -> length dims = length ids ->
    Forall2 (has_room c) ids bufs ->
    exists rc ag o d' n, store_get_submit ids (mkGetOut bufs (Some dims)) d = Ret (rc, ag, o, d') /\
      flying d' c ag o ids bufs n;
  poll_spec d c ag o ids bufs n : flying d c ag o ids bufs n ->
    exists rc ag' o' d', store_get_poll ag o d = Ret (rc, ag', o', d') /\
      match n with
      | S n => rc = GRAVELDB_AGAIN /\ flying d' c ag' o' ids bufs n
      | O => rc <> GRAVELDB_AGAIN /\ o' = answered c ids bufs /\ holds d' c
      end
}.

(** ** The map that answers after some polls *)

Record MapStore : Type := mkMapStore { ms_map : gmap Z (Z * list Z); ms_delay : nat; ms_checkpoints : Z }.

Definition ms_answer (m : gmap Z (Z * list Z)) (ids : list Z) (o : GetOut) : GetOut :=
  answered (fun f => m !! f) ids (out_embeddings o).

Definition ms_put (m : gmap Z (Z * list Z)) (r : PutReq) : gmap Z (Z * list Z) :=
  match pr_emb r with Some e => <[pr_feat r := (pr_dim r, e)]> m | None => m end.

#[export] Instance map_store : Store MapStore := {
  AsyncGet := list Z * nat;
  AsyncFlush := unit;
  store_get_submit ids o := fun s => Ret (GRAVELDB_OK, Some (ids, ms_delay s), o, s);
  store_get_poll ag o := fun s =>
    match ag with
    | None => Ret (GRAVELDB_OK, None, o, s)
    | Some (ids, O) => Ret (GRAVELDB_OK, None, ms_answer (ms_map s) ids o, s)
    | Some (ids, S n) => Ret (GRAVELDB_AGAIN, Some (ids, n), o, s)
    end;
  store_put reqs := fun s => Ret (GRAVELDB_OK, mkMapStore (foldl ms_put (ms_map s) reqs) (ms_delay s) (ms_checkpoints s));
  store_delete ids := fun s => Ret (GRAVELDB_OK, mkMapStore (foldl (fun m f => delete f m) (ms_map s) ids) (ms_delay s) (ms_checkpoints s));
  store_flush_needed := ret false;
  store_flush_submit := ret (GRAVELDB_OK, None);
  store_flush_poll _ := ret (GRAVELDB_OK, None);
  store_checkpoint := fun s => Ret (GRAVELDB_OK, mkMapStore (ms_map s) (ms_delay s) (ms_checkpoints s + 1));
  store_stats := gets (fun s => mkStats (Z.of_nat (size (ms_map s))) (ms_checkpoints s) 0 0)
}.


Definition map_flying (d : MapStore) (c : Contents) (ag : option (list Z * nat)) (o : GetOut) (ids : list Z)
    (bufs : list (option (list Z))) (n : nat) : Prop :=
  (forall f, c f = ms_map d !! f) /\ ag = Some (ids, n) /\ out_embeddings o = bufs /\ length bufs = length ids /\
  exists l, out_dims o = Some l /\ length l = length ids.

Lemma answered_ext c c' ids bufs : (forall f, c f = c' f) -> answered c ids bufs = answered c' ids bufs.
Proof.
  intros H. unfold answered. f_equal; [|f_equal].
  - revert bufs. induction ids as [|i ids IH]; intros [|b bufs]; cbn; [done..|]. by rewrite IH; unfold emb_answer; rewrite H.
  - induction ids as [|i ids IH]; cbn; [done|]. by rewrite IH; unfold dim_of; rewrite H.
Qed.

#[export] Program Instance map_reads : ReadStore MapStore := {
  holds d c := forall f, c f = ms_map d !! f;
  flying := map_flying
}.
Next Obligation. intros d c ag o ids bufs n (_ & _ & -> & -> & ?). done. Qed.
Next Obligation.
  intros d c ids bufs dims H Hl Hd _. do 5 eexists. split; [reflexivity|]. repeat split; eauto.
Qed.
Next Obligation.
  intros d c ag o ids bufs n (Hc & -> & <- & Hl & Hd). destruct n as [|n]; cbn.
  - do 4 eexists. split; [reflexivity|]. split; [done|]. split; [|done]. unfold ms_answer. by apply answered_ext.
  - do 4 eexists. split; [reflexivity|]. split; [done|]. by repeat split.
Qed.

(** ** The engine *)

Section engine.
Context {P : Type} `{!ObjectPool P} {host : WireHost}.
Variable create_pool : P -> option P.
Variable junk : Z -> list Z.

Definition engine_store : Store (DbSt P) := {|
  AsyncGet := AsyncGetState;
  AsyncFlush := AsyncFlushState;
  store_get_submit := graveldb_batch_get_submit junk;
  store_get_poll := graveldb_batch_get_poll;
  store_put := graveldb_batch_put;
  store_delete := graveldb_batch_delete;
  store_flush_needed := graveldb_flush_needed;
  store_flush_submit := graveldb_flush_submit;
  store_flush_poll := graveldb_flush_poll;
  store_checkpoint := graveldb_checkpoint create_pool;
  store_stats := graveldb_stats
|}.

Definition engine_holds (st : DbSt P) (c : Contents) : Prop :=
  exists m, read_db st m /\ forall f, c f = feature st m f.

(** A get of the portable build is done at the first poll. *)
Definition engine_flying (st : DbSt P) (c : Contents) (ag : option AsyncGetState) (o : GetOut) (ids : list Z)
    (bufs : list (option (list Z))) (n : nat) : Prop :=
  n = O /\ engine_holds st c /\
  graveldb_batch_get_poll ag o st = Ret (GRAVELDB_OK, None, answered c ids bufs, st) /\
  length (out_embeddings o) = length ids /\ exists l, out_dims o = Some l /\ length l = length ids.

Hypothesis Hjunk : forall n, 0 <= n -> zlen (junk n) = n.
#[local] Existing Instance engine_store.

#[export] Program Instance engine_reads : ReadStore (DbSt P) := {
  holds := engine_holds;
  flying := engine_flying
}.
Next Obligation. intros d c ag o ids bufs n (_ & _ & _ & ? & ?). done. Qed.
Next Obligation.
  intros st c ids bufs dims (m & Hdb & Hc) Hb Hd Hroom.
  destruct (batch_get_phases junk st m ids bufs (Some dims) Hjunk Hdb Hb) as (st' & ag & left & Hs & E1 & E2).
  { unfold dims_ok, zlen. by rewrite Hd. }
  { eapply Forall2_impl; [exact Hroom|]. intros f b. unfold has_room, room. by rewrite Hc. }
  assert (Hc' : forall f, c f = feature st' m f) by (intros f; rewrite Hc; by rewrite Hs).
  eexists _, ag, _, st', O. split; [exact E1|]. split; [done|]. split; [|split; [|split]].
  - exists m. split; [by rewrite <- Hs|done].
  - rewrite E2. do 4 f_equal. rewrite (answered_ext c (feature st m)) by done. done.
  - cbn [out_embeddings]. unfold embs_left. rewrite length_imap, length_zip. lia.
  - eexists. split; [reflexivity|]. by rewrite length_fmap.
Qed.
Next Obligation.
  intros st c ag o ids bufs n (-> & Hh & E & _). do 4 eexists. split; [exact E|]. done.
Qed.
End engine.

(** ** A server for examples *)

(** A connection with an empty arena, on which the bytes [b] have arrived and the
    chunks [l] are queued, of a server with the map [m], whose gets take [delay] polls. *)
Definition sample_heap : Heap := mkHeap [] 131072 {[ 16 ]}.
Definition sample_server (m : gmap Z (Z * list Z)) (delay : nat) (b : list Z) (l : list SendChunk) (k : Sock) (ro : bool) : HSt (T := MapStore) :=
  mkHSt (mkMapStore m delay 0) None false ro
    (mkClientConn 5 k (Some (16, b)) READ_BUF_SIZE l None 0 (arena_init 65536) idle_async) sample_heap.

Lemma sample_heap_ok : heap_ok sample_heap 65536.
Proof. repeat split; try done. intros p Hp. cbn in *. set_unfold in Hp. subst. lia. Qed.
