(* ===== verification/ServerSend.v ===== *)
(** ServerSend: what a server has queued reaches the socket, once and in order. *)

From S2P Require Import Prelude Wire Protocol Arena Engine Server StoreSpec.

Section send.
Context {T : Type} `{!Store T}.
Implicit Types (l : list SendChunk) (s : HSt (T := T)).

(** The bytes of a chunk that are not sent yet, and those of the list. *)
Definition rest (ch : SendChunk) : list Z := drop (Z.to_nat (ck_sent ch)) (ck_data ch).
Definition queued (l : list SendChunk) : list Z := concat (rest <$> l).

(** A chunk in the send list: something is left to send, and it lies in the arena. *)
Definition chunk_ok (e : Z) (ch : SendChunk) : Prop := 0 <= ck_sent ch < ck_len ch /\ ck_epoch ch = e.

Lemma zlen_rest ch : 0 <= ck_sent ch <= ck_len ch -> zlen (rest ch) = ck_len ch - ck_sent ch.
Proof. unfold rest, ck_len, zlen. rewrite length_drop. lia. Qed.

Lemma pending_queued e l : Forall (chunk_ok e) l -> pending_bytes l = zlen (queued l).
Proof.
  induction 1 as [|ch l [H _] _ IH]; [done|].
  change (ck_len ch - ck_sent ch + pending_bytes l = zlen (rest ch ++ queued l)).
  rewrite IH, zlen_app, zlen_rest by lia. done.
Qed.

Lemma gather_queued l : exists t, queued l = gather l ++ t.
Proof.
  exists (queued (drop 64 l)). unfold queued, gather. rewrite <- concat_app, <- fmap_app.
  change (fun ch => drop (Z.to_nat (ck_sent ch)) (ck_data ch)) with rest. by rewrite take_drop.
Qed.

Lemma gather_nonempty e ch l : chunk_ok e ch -> gather (ch :: l) <> [].
Proof.
  intros [H _] E. assert (Hz : zlen (rest ch) = ck_len ch - ck_sent ch) by (apply zlen_rest; lia).
  unfold gather in E. cbn in E. apply app_eq_nil in E as [E _]. change (rest ch = []) in E. rewrite E in Hz.
  unfold zlen in Hz. cbn in Hz. lia.
Qed.

Lemma advance_queued e l n : Forall (chunk_ok e) l -> 0 <= n <= zlen (queued l) ->
  queued (advance l n) = drop (Z.to_nat n) (queued l) /\ Forall (chunk_ok e) (advance l n).
Proof.
  intros Hl. revert n. induction Hl as [|ch l [Hs He] Hl IH]; intros n Hn.
  { change (queued []) with (@nil Z). by rewrite drop_nil. }
  cbn [advance]. destruct (Z.leb_spec n 0).
  { assert (n = 0) as -> by lia. split; [done|]. constructor; [by split|done]. }
  change (queued (ch :: l)) with (rest ch ++ queued l) in *. rewrite zlen_app in Hn.
  assert (Hr := zlen_rest ch ltac:(lia)). rewrite Hr in Hn.
  destruct (Z.leb_spec (ck_len ch - ck_sent ch) n).
  - destruct (IH (n - (ck_len ch - ck_sent ch))) as [-> ?]; [lia|]. split; [|done].
    unfold zlen in Hr. rewrite drop_app_ge by lia. f_equal. lia.
  - split; [|constructor; [|done]].
    + change (queued (?c :: l)) with (rest c ++ queued l). unfold zlen in Hr. rewrite drop_app_le by lia. f_equal.
      unfold rest. cbn. rewrite drop_drop. f_equal. lia.
    + unfold chunk_ok, ck_len in *. cbn. lia.
Qed.

Lemma valid_here e s : e = epoch (carena (conn s)) -> valid e s = Ret (tt, s).
Proof. intros ->. unfold valid. by rewrite Z.eqb_refl. Qed.

Lemma when_ret (b : bool) (m : M (HSt (T := T)) unit) s : m s = Ret (tt, s) -> when b m s = Ret (tt, s).
Proof. by destruct b. Qed.

Lemma valid_chunks_here l s : Forall (chunk_ok (epoch (carena (conn s)))) l -> valid_chunks l s = Ret (tt, s).
Proof.
  induction 1 as [|ch l [_ H] _ IH]; [done|]. cbn. rewrite (bindM_ret _ _ _ _ _ (valid_here _ _ H)). done.
Qed.

Lemma on_sock_ret {A} (m : M Sock A) s a k : m (sock (conn s)) = Ret (a, k) ->
  on_sock m s = Ret (a, set_conn s (set_sock (conn s) k)).
Proof. intros E. unfold on_sock. by rewrite E. Qed.

(** The answers that let a write make progress. *)
Definition accepts (r : reply) : Prop := match r with Done n => 0 < n | Refused _ => False end.

(** The outcomes of a write. *)
Lemma sock_write_spec b k : exists n k', sock_write b k = Ret (n, k') /\
  inbox k' = inbox k /\ -1 <= n <= zlen b /\
  outbox k' = outbox k ++ take (Z.to_nat n) b /\
  replies k' = tail (replies k) /\ (Forall accepts (replies k) -> b <> [] -> 0 < n).
Proof.
  unfold sock_write, next_reply. destruct k as [i o r e]. cbn.
  assert (Hb : b <> [] -> 0 < zlen b) by (destruct b; [done|unfold zlen; cbn; lia]).
  destruct r as [|[n|e'] r]; cbn.
  - do 2 eexists. split; [done|]. cbn. rewrite firstn_all. unfold zlen in *. rewrite Nat2Z.id, firstn_all.
    repeat split; auto; lia.
  - do 2 eexists. split; [done|]. cbn. unfold zlen in *. rewrite Nat2Z.id, length_take.
    repeat split; auto; try lia.
    + f_equal. destruct (decide (Z.to_nat n <= length b)%nat).
      * by rewrite Nat.min_l by lia.
      * rewrite Nat.min_r by lia. by rewrite !take_ge by lia.
    + intros [H _]%Forall_cons ?%Hb. cbn in H. lia.
  - do 2 eexists. split; [done|]. cbn. rewrite take_0, app_nil_r. unfold zlen.
    repeat split; auto; try lia. by intros [[] _]%Forall_cons.
Qed.

(** The state after some bytes were written: the socket and the list changed. *)
Definition moved (s : HSt (T := T)) (k : Sock) (l : list SendChunk) : HSt :=
  set_conn s (set_send_list (set_sock (conn s) k) l).

Lemma moved_id s : moved s (sock (conn s)) (send_list (conn s)) = s.
Proof. destruct s as [? ? ? ? [] ?]. done. Qed.

(** What is written and what stays queued are together what there was. *)
Definition conserved (k k' : Sock) (l l' : list SendChunk) : Prop :=
  outbox k' ++ queued l' = outbox k ++ queued l /\ inbox k' = inbox k.

(** The result tells whether the list is empty; 1 and -1 tell what the system said. *)
Definition flush_result (rc : Z) (k : Sock) (l : list SendChunk) : Prop :=
  (rc = 0 /\ l = []) \/ (rc = 1 /\ l <> [] /\ errno k = EAGAIN) \/ (rc = -1 /\ l <> []).

Lemma flush_rounds_spec fuel s :
  Forall (chunk_ok (epoch (carena (conn s)))) (send_list (conn s)) -> pending_bytes (send_list (conn s)) < Z.of_nat fuel ->
  exists rc k l, flush_rounds fuel s = Ret (rc, moved s k l) /\ conserved (sock (conn s)) k (send_list (conn s)) l /\
    Forall (chunk_ok (epoch (carena (conn s)))) l /\ flush_result rc k l /\ (Forall accepts (replies (sock (conn s))) -> rc = 0).
Proof.
  revert s. induction fuel as [|fuel IH]; intros s Hok Hf.
  { rewrite (pending_queued _ _ Hok) in Hf. pose proof (zlen_nonneg (queued (send_list (conn s)))). lia. }
  cbn [flush_rounds]. unfold bindM at 1, gets at 1. cbn [res_bind fst snd].
  destruct (send_list (conn s)) as [|ch l] eqn:El.
  { exists 0, (sock (conn s)), []. rewrite <- El at 1. rewrite moved_id. repeat split; auto. by left. }
  rewrite (bindM_ret _ _ s tt s) by (apply valid_chunks_here, Forall_take; done).
  destruct (sock_write_spec (gather (ch :: l)) (sock (conn s))) as (n & k & E & Hi & Hn & Ho & Hr' & Hacc).
  rewrite (bindM_ret _ _ _ _ _ (on_sock_ret _ _ _ _ E)).
  destruct (gather_queued (ch :: l)) as [t Ht].
  assert (Htake : queued (ch :: l) = take (Z.to_nat n) (gather (ch :: l)) ++ drop (Z.to_nat n) (queued (ch :: l))).
  { rewrite Ht, drop_app_le by (unfold zlen in Hn; lia). by rewrite (app_assoc (take _ _)), take_drop. }
  destruct (Z.leb_spec n 0).
  - unfold bindM, gets. cbn [res_bind fst snd conn set_conn sock set_sock errno].
    eexists _, k, (ch :: l). split; [|split; [|split; [done|split]]].
    + unfold moved. rewrite <- El. reflexivity.
    + split; [|done]. rewrite Ho. destruct (Z.to_nat n) eqn:?; [|lia]. by rewrite take_0, app_nil_r.
    + destruct (Z.ltb_spec n 0); cbn [andb]; [|by right; right].
      case_bool_decide; [by right; left|by right; right].
    + intros Ha. apply Forall_inv in Hok as Hch. specialize (Hacc Ha (gather_nonempty _ _ _ Hch)). lia.
  - unfold bindM at 1, upd_conn, modify. cbn [res_bind fst snd].
    set (s1 := set_conn _ _).
    assert (Hl1 : send_list (conn s1) = advance (ch :: l) n) by (cbn; by rewrite El).
    destruct (advance_queued _ _ n Hok) as [Hq Hok'].
    { rewrite Ht, zlen_app. pose proof (zlen_nonneg t). lia. }
    destruct (IH s1) as (rc & k' & l' & E' & [Hc1 Hc2] & Hok'' & Hr & Hz).
    { by rewrite Hl1. }
    { rewrite Hl1, (pending_queued _ _ Hok'), Hq. rewrite (pending_queued _ _ Hok) in Hf.
      unfold zlen in *. rewrite length_drop. rewrite Ht, length_app in *. lia. }
    exists rc, k', l'. split; [|split; [|split; [|split; [done|]]]].
    + rewrite E'. by destruct s as [? ? ? ? [] ?].
    + change (sock (conn s1)) with k in *. split; [|congruence].
      rewrite Hc1, Hl1, Hq, Ho, <- app_assoc, <- Htake. done.
    + done.
    + intros Ha. apply Hz. change (replies k)  with (replies (sock (conn s1))) in Hr'. rewrite Hr'.
      destruct (replies (sock (conn s))); [done|]. by apply Forall_cons in Ha as [_ ?].
Qed.

Lemma client_flush_send_raw_spec s :
  Forall (chunk_ok (epoch (carena (conn s)))) (send_list (conn s)) ->
  exists rc k l, client_flush_send_raw s = Ret (rc, moved s k l) /\ conserved (sock (conn s)) k (send_list (conn s)) l /\
    Forall (chunk_ok (epoch (carena (conn s)))) l /\ flush_result rc k l /\ (Forall accepts (replies (sock (conn s))) -> rc = 0).
Proof.
  intros H. apply flush_rounds_spec; [done|].
  rewrite (pending_queued _ _ H). pose proof (zlen_nonneg (queued (send_list (conn s)))). lia.
Qed.

(** C21: sending. Whatever the system does with the writes, [client_flush_send]
    returns, and the bytes that were written so far followed by those still
    queued are the same before and after, so that no byte of a response is lost,
    repeated or reordered. It returns 0 exactly when everything is sent, in which
    case the arena is reset and its blocks are released; it returns 1 only when the
    socket would block, and a socket that accepts some bytes of every write gets
    them all. *)
Theorem client_flush_send_correct (s : HSt (T := T)) (base : Z) (old : gset Z) (objs : list object) :
  arena_inv base old objs (mkArenaSt (carena (conn s)) (mem s)) ->
  Forall (chunk_ok (epoch (carena (conn s)))) (send_list (conn s)) ->
  exists rc s', client_flush_send s = Ret (rc, s') /\
    conserved (sock (conn s)) (sock (conn s')) (send_list (conn s)) (send_list (conn s')) /\
    flush_result rc (sock (conn s')) (send_list (conn s')) /\
    (Forall accepts (replies (sock (conn s))) -> rc = 0) /\
    (rc = 0 -> live (mem s') = old) /\ db s' = db s.
Proof.
  intros Ha Hok. destruct (client_flush_send_raw_spec s Hok) as (rc & k & l & E & Hc & _ & Hr & Hz).
  unfold client_flush_send. rewrite (bindM_ret _ _ _ _ _ E).
  destruct (Z.eqb_spec rc 0) as [->|Hne]; cbn [when].
  - destruct (arena_reset_spec _ _ _ _ Ha) as (st & Er & _ & Hl).
    assert (Eo : on_arena arena_reset (moved s k l) =
                 Ret (tt, set_mem (set_conn (moved s k l) (set_carena (conn (moved s k l)) (arena st))) (heap st))).
    { unfold on_arena. change (carena (conn (moved s k l))) with (carena (conn s)). change (mem (moved s k l)) with (mem s). by rewrite Er. }
    rewrite (bindM_ret _ _ _ _ _ Eo). eexists _, _. split; [reflexivity|]. repeat split; auto; apply Hc.
  - unfold bindM, ret. cbn [res_bind fst snd]. eexists _, _. split; [reflexivity|]. split; [apply Hc|].
    split; [done|]. split; [done|]. by split.
Qed.
End send.

(** Two chunks, the first of which was sent in part; the socket takes three bytes
    and then would block. *)
Definition send_sample : HSt (T := MapStore) :=
  sample_server ∅ 0 [] [mkSendChunk [1; 2; 3; 4] 4096 2 0; mkSendChunk [5; 6] 4096 0 0]
    (mkSock [] [1; 2] [Done 3; Refused EAGAIN] E_NONE) false.

Lemma client_flush_send_correct_witness :
  arena_inv 131072 {[ 16 ]} [] (mkArenaSt (carena (conn send_sample)) (mem send_sample)) /\
  exists rc s', client_flush_send send_sample = Ret (rc, s') /\
    conserved (sock (conn send_sample)) (sock (conn s')) (send_list (conn send_sample)) (send_list (conn s')) /\
    flush_result rc (sock (conn s')) (send_list (conn s')) /\
    (Forall accepts (replies (sock (conn send_sample))) -> rc = 0) /\
    (rc = 0 -> live (mem s') = {[ 16 ]}) /\ db s' = db send_sample.
Proof.
  assert (H : arena_inv 131072 {[ 16 ]} [] (mkArenaSt (carena (conn send_sample)) (mem send_sample)))
    by exact (arena_init_inv _ _ sample_heap_ok).
  split; [exact H|]. eapply client_flush_send_correct; [exact H|]. repeat constructor; vm_compute; congruence.
Defined.

(** ** Sending while a get is in flight *)

Section in_flight.
Context {T : Type} `{!Store T}.
Implicit Types (s : HSt (T := T)).

(** The get of a pull is done at the poll after [n] that answer [GRAVELDB_AGAIN]. *)
Fixpoint get_done_after (n : nat) (d : T) (a : ConnAsyncCtx) : Prop :=
  exists rc ag o d', store_get_poll (a_ag a) (chunk_out a) d = Ret (rc, ag, o, d') /\
    match n with
    | O => rc <> GRAVELDB_AGAIN
    | S n => rc = GRAVELDB_AGAIN /\ get_done_after n d' (async_with_chunk a (a_chunk_n a) ag o)
    end.

(** The event loop resumes the pull, and again while it waits, at most [n] more times. *)
Fixpoint resume_times (n : nat) s : res (Z * HSt (T := T)) :=
  let! '(r, s') := client_async_resume s in
  match n with
  | O => Ret (r, s')
  | S n => if r =? 1 then resume_times n s' else Ret (r, s')
  end.

(** The memory of the pull was released. *)
Definition pull_released s : Prop := a_state (async (conn s)) <> CONN_IDLE /\ a_epoch (async (conn s)) <> epoch (carena (conn s)).

Lemma poll_chunk_stale s rc ag o d : a_epoch (async (conn s)) <> epoch (carena (conn s)) ->
  store_get_poll (a_ag (async (conn s))) (chunk_out (async (conn s))) (db s) = Ret (rc, ag, o, d) ->
  poll_chunk s = if decide (rc = GRAVELDB_AGAIN)
                 then Ret (rc, set_conn (set_db s d) (set_async (conn s) (async_with_chunk (async (conn s)) (a_chunk_n (async (conn s))) ag o))) else Ub.
Proof.
  intros H E. unfold poll_chunk, get_async. unfold bindM at 1, gets. cbn [res_bind fst snd]. unfold bindM at 1, on_db. rewrite E. cbn [res_bind fst snd].
  destruct (decide (rc = GRAVELDB_AGAIN)) as [->|Hrc]; [by rewrite bool_decide_true by done|]. rewrite bool_decide_false by done. cbn [negb when].
  unfold bindM at 1, valid. cbn [conn set_db]. apply Z.eqb_neq in H. by rewrite H.
Qed.

(** Resuming a pull whose memory was released: nothing happens before its get is done. *)
Lemma resume_stale n : forall s, pull_released s -> get_done_after n (db s) (async (conn s)) -> resume_times n s = Ub.
Proof.
  assert (forall s rc ag o d, pull_released s -> store_get_poll (a_ag (async (conn s))) (chunk_out (async (conn s))) (db s) = Ret (rc, ag, o, d) ->
    client_async_resume s = if decide (rc = GRAVELDB_AGAIN)
      then Ret (1, set_conn (set_db s d) (set_async (conn s) (async_with_chunk (async (conn s)) (a_chunk_n (async (conn s))) ag o))) else Ub) as Hres.
  { intros s rc ag o d [Hst He] E. unfold client_async_resume, get_async. unfold bindM at 1, gets. cbn [res_bind fst snd].
    destruct (a_state (async (conn s))) eqn:Es; [done|..]; unfold pull_resume, stream_resume, bindM at 1; rewrite (poll_chunk_stale s rc ag o d He E); (destruct (decide (rc = GRAVELDB_AGAIN)) as [->|]; [done|done]). }
  induction n as [|n IH]; intros s Hs (rc & ag & o & d & E & H); cbn [resume_times]; rewrite (Hres s rc ag o d Hs E).
  - by rewrite decide_False.
  - destruct H as [-> H]. rewrite decide_True by done. cbn [res_bind Z.eqb Pos.eqb]. apply IH; [done|exact H].
Qed.

(** C38: a response that is sent while a pull is in progress takes the pull's memory away.
    [client_flush_send], which the event loop calls at the end of every event of a connection,
    resets the arena as soon as the send list is empty. When a pull of the same connection waits for
    its get, its ids and buffers lie in that arena: resuming it returns 1 as long as the poll of
    the get answers [GRAVELDB_AGAIN], and at the poll at which the get is done the buffers are used
    after they were released. A streaming pull, which queues its header before the first get, gets
    there by itself. *)
Theorem flush_releases_pull s (base : Z) (old : gset Z) (objs : list object) (n : nat) :
  arena_inv base old objs (mkArenaSt (carena (conn s)) (mem s)) ->
  Forall (chunk_ok (epoch (carena (conn s)))) (send_list (conn s)) -> Forall accepts (replies (sock (conn s))) ->
  a_state (async (conn s)) <> CONN_IDLE -> a_epoch (async (conn s)) = epoch (carena (conn s)) ->
  get_done_after n (db s) (async (conn s)) ->
  exists s', client_flush_send s = Ret (0, s') /\ resume_times n s' = Ub.
Proof.
  intros Ha Hok Hacc Hst He Hdone. destruct (client_flush_send_raw_spec s Hok) as (rc & k & l & E & _ & _ & _ & Hz).
  rewrite (Hz Hacc) in E. destruct (arena_reset_spec _ _ _ _ Ha) as (st & Er & _ & _).
  pose proof (arena_reset_epoch _ _ Er) as Hep. cbn [arena] in Hep.
  eexists. split.
  - unfold client_flush_send. rewrite (bindM_ret _ _ _ _ _ E). cbn [when Z.eqb].
    unfold bindM, on_arena. change (carena (conn (moved s k l))) with (carena (conn s)). change (mem (moved s k l)) with (mem s).
    rewrite Er. reflexivity.
  - apply resume_stale; [|exact Hdone]. split; [done|]. cbn. lia.
Qed.
End in_flight.

(** A single streaming pull whose get takes two more polls: the header of the stream is
    queued and the get is in flight when the message was processed. *)
Definition stream_request : list Z := wire_header GRAVELDB_MSG_PULL_STREAM 12 ++ bytes_u32 1 ++ bytes_u64 7.
Definition streaming_server : HSt (T := MapStore) := sample_server ∅ 2 stream_request [] (mkSock [] [] [] E_NONE) false.

(** The state after the message, with new memory that contains zeros. *)
Definition streaming_state : HSt (T := MapStore) :=
  match process_all (fun n => replicate (Z.to_nat n) 0) streaming_server with Ret (_, s) => s | _ => streaming_server end.

Lemma flush_releases_pull_witness :
  process_all (fun n => replicate (Z.to_nat n) 0) streaming_server = Ret (0, streaming_state) /\
  a_state (async (conn streaming_state)) = CONN_ASYNC_STREAM /\ client_has_pending_send (conn streaming_state) = true /\
  exists s', client_flush_send streaming_state = Ret (0, s') /\ resume_times 1 s' = Ub.
Proof.
  split; [vm_compute; reflexivity|]. split; [vm_compute; reflexivity|]. split; [vm_compute; reflexivity|].
  eassert (Ea : carena (conn streaming_state) = _) by (vm_compute; reflexivity).
  eassert (Em : mem streaming_state = _) by (vm_compute; reflexivity).
  eassert (El : send_list (conn streaming_state) = _) by (vm_compute; reflexivity).
  apply (flush_releases_pull streaming_state 131072 {[ 16 ]} [] 1).
  - rewrite Ea, Em. constructor; cbn.
    + repeat constructor; by vm_compute.
    + by vm_compute.
    + lia.
    + by vm_compute.
    + by vm_compute.
    + intros p Hp. set_unfold in Hp. subst. lia.
    + constructor.
    + constructor.
  - rewrite El, Ea. repeat constructor; by vm_compute.
  - vm_compute. constructor.
  - vm_compute. congruence.
  - vm_compute. reflexivity.
  - eexists _, _, _, _. split; [vm_compute; reflexivity|]. split; [reflexivity|]. eexists _, _, _, _. split; [vm_compute; reflexivity|done].
Defined.
