(* ===== verification/ServerPull.v ===== *)
(** ServerPull: a pull is answered with the contents of the store.

    The handlers of the two kinds of pull submit the ids in chunks of 64, emit each
    chunk when its get is done, possibly after returning to the event loop, and
    finish the response. What they have in common is proved once, for any way of
    emitting a chunk; the two responses follow. *)

From S2P Require Import Prelude Wire Protocol Arena Engine Server StoreSpec ServerSend.

(** ** Steps that change a part of the state *)

Section drive.
Context {T : Type} `{!Store T} `{!ReadStore T}.
Implicit Types (s : HSt (T := T)).

#[local] Abbreviation H A := (M (HSt (T := T)) A).

Lemma hdb_ret {A} (m : M T A) s a d : m (db s) = Ret (a, d) -> on_db m s = Ret (a, set_db s d).
Proof. intros E. unfold on_db. by rewrite E. Qed.

(** The database and the state of the pull are the only parts that differ. *)
Definition with_pull s (d : T) (a : ConnAsyncCtx) : HSt := set_conn (set_db s d) (set_async (conn s) a).

Lemma with_pull_twice s d a d' a' : with_pull (with_pull s d a) d' a' = with_pull s d' a'.
Proof. done. Qed.
Lemma with_pull_id s : with_pull s (db s) (async (conn s)) = s.
Proof. by destruct s as [? ? ? ? [] ?]. Qed.

(** The embeddings fit into the scratch buffers, and a dimension is a number of
    floats that the entry has. *)
Definition fits (c : Contents) : Prop :=
  forall fid d x, c fid = Some (d, x) -> 0 <= d <= PULL_MAX_DIM /\ 4 * d <= zlen x <= 4 * PULL_MAX_DIM.

Definition full_buf (b : option (list Z)) : Prop := exists x, b = Some x /\ zlen x = 4 * PULL_MAX_DIM.

Section chunks.
Variables (c : Contents) (ids : list Z) (st : ConnAsyncState).
Hypothesis Hfits : fits c.
Hypothesis Hcount : zlen ids <= GRAVELDB_WIRE_MAX_BATCH.

(** The state of a pull of [ids] that has emitted [o] of them; everything it uses
    is in the arena as it is now. *)
Record pulling (o : Z) s : Prop := {
  pl_state : a_state (async (conn s)) = st;
  pl_ids : a_feat_ids (async (conn s)) = ids;
  pl_count : a_count (async (conn s)) = zlen ids;
  pl_offset : a_offset (async (conn s)) = o;
  pl_range : 0 <= o <= zlen ids;
  pl_epoch : a_epoch (async (conn s)) = epoch (carena (conn s));
  pl_bufs : length (a_chunk_bufs (async (conn s))) = Z.to_nat PULL_CHUNK_SIZE;
  pl_dims : length (a_chunk_dims (async (conn s))) = Z.to_nat PULL_CHUNK_SIZE
}.

(** Between two chunks. *)
Definition ready (o : Z) s : Prop :=
  pulling o s /\ Forall full_buf (a_chunk_bufs (async (conn s))) /\ holds (db s) c.

(** The size of the chunk at [o], and its ids. *)
Definition chunk_size (o : Z) : Z := Z.min PULL_CHUNK_SIZE (zlen ids - o).
Definition chunk_ids (o : Z) : list Z := take (Z.to_nat (chunk_size o)) (drop (Z.to_nat o) ids).

Lemma chunk_ids_len o : 0 <= o <= zlen ids -> length (chunk_ids o) = Z.to_nat (chunk_size o).
Proof. intros. unfold chunk_ids, chunk_size, zlen, PULL_CHUNK_SIZE in *. rewrite length_take, length_drop. lia. Qed.

(** The get of the chunk at [o] is in flight and needs [n] more polls. *)
Definition in_flight (o : Z) (n : nat) s : Prop :=
  pulling o s /\ o < zlen ids /\ a_chunk_n (async (conn s)) = chunk_size o /\
  exists out bufs, flying (db s) c (a_ag (async (conn s))) out (chunk_ids o) (take (Z.to_nat (chunk_size o)) bufs) n /\
    Forall full_buf bufs /\ length bufs = Z.to_nat PULL_CHUNK_SIZE /\
    chunk_out (async (conn s)) = out /\
    drop (Z.to_nat (chunk_size o)) (a_chunk_bufs (async (conn s))) = drop (Z.to_nat (chunk_size o)) bufs.

(** The get of the chunk at [o] is done. *)
Definition landed (o : Z) s : Prop :=
  ready o s /\ o < zlen ids /\ a_chunk_n (async (conn s)) = chunk_size o /\
  forall i fid, chunk_ids o !! i = Some fid ->
    a_chunk_dims (async (conn s)) !! i = Some (dim_of c fid) /\
    exists b, a_chunk_bufs (async (conn s)) !! i = Some (Some b) /\ zlen b = 4 * PULL_MAX_DIM /\
      forall d x, c fid = Some (d, x) -> take (length x) b = x.

(** Only the database and the pull changed, and not the flag of the first frame. *)
Definition pull_step s s' : Prop :=
  exists d a, s' = with_pull s d a /\ a_first_frame a = a_first_frame (async (conn s)).

#[export] Instance pull_step_preorder : PreOrder pull_step.
Proof.
  split.
  - intros s. exists (db s), (async (conn s)). by rewrite with_pull_id.
  - intros s1 s2 s3 (d & a & -> & H1) (d' & a' & -> & H2). exists d', a'. split; [done|]. cbn in H2. congruence.
Qed.

Lemma next_chunk_size o s : pulling o s -> next_chunk_n (async (conn s)) = chunk_size o.
Proof.
  intros [_ _ Hc Ho Hr _ _ _]. unfold next_chunk_n, chunk_size. rewrite Hc, Ho. unfold GRAVELDB_WIRE_MAX_BATCH in *.
  unfold u32. rewrite Z.mod_small by lia. zb; lia.
Qed.

Lemma chunk_size_bounds o : 0 <= o < zlen ids -> 0 < chunk_size o <= PULL_CHUNK_SIZE /\ o + chunk_size o <= zlen ids.
Proof. unfold chunk_size, PULL_CHUNK_SIZE. lia. Qed.

Lemma sub_array_ret {A} (l : list A) off n : 0 <= off -> 0 <= n -> off + n <= zlen l ->
  sub_array l off n = Ret (take (Z.to_nat n) (drop (Z.to_nat off) l)).
Proof. intros. unfold sub_array. zdec. done. Qed.

Lemma full_room fids bufs : Forall full_buf bufs -> length bufs = length fids -> Forall2 (has_room c) fids bufs.
Proof.
  revert bufs. induction fids as [|f fids IH]; intros [|b bufs] Hb Hl; try done.
  apply Forall_cons in Hb as [(x & -> & Hx) Hb]. constructor; [|apply IH; auto].
  unfold has_room. destruct (c f) as [[d y]|] eqn:E; [|done]. apply Hfits in E. lia.
Qed.

Lemma submit_chunk_spec o s : ready o s -> o < zlen ids ->
  exists s' n, submit_chunk (chunk_size o) s = Ret (tt, s') /\ in_flight o n s' /\ pull_step s s'.
Proof.
  intros (Hp & Hb & Hd) Ho. pose proof Hp as [Hs Hi Hc Hoff Hr He Hlb Hld].
  destruct (chunk_size_bounds o) as [Hm Hm']; [lia|]. set (m := chunk_size o) in *.
  unfold PULL_CHUNK_SIZE in *.
  unfold submit_chunk. unfold bindM at 1, get_async, gets. cbn [res_bind fst snd].
  rewrite (bindM_ret _ _ _ _ _ (valid_here _ _ He)). unfold lift.
  rewrite Hi, Hoff. rewrite !sub_array_ret by (unfold zlen in *; lia). cbn [res_bind].
  unfold bindM at 1 2 3. cbn [res_bind fst snd]. change (Z.to_nat 0) with O. rewrite !drop_0.
  set (bufs := a_chunk_bufs (async (conn s))) in *.
  assert (Hcl : length (chunk_ids o) = Z.to_nat m) by (apply chunk_ids_len; lia).
  assert (Hl1 : length (take (Z.to_nat m) bufs) = length (chunk_ids o)) by (rewrite length_take, Hcl; lia).
  destruct (submit_spec (db s) c (chunk_ids o) (take (Z.to_nat m) bufs)
             ((fun _ => 0) <$> take (Z.to_nat m) (a_chunk_dims (async (conn s))))) as (rc & ag & out & d' & n & E & Hfl);
    [done|done| |apply full_room; [by apply Forall_take|done]|].
  { rewrite length_fmap, length_take, Hcl. lia. }
  destruct (flying_size _ _ _ _ _ _ _ Hfl) as (Hs1 & l & Hs2 & Hs3).
  unfold chunk_ids in E. fold m in E. rewrite (bindM_ret _ _ _ _ _ (hdb_ret _ _ _ _ E)).
  eexists _, n. split; [reflexivity|]. split.
  - split; [|split; [lia|split; [done|]]].
    + constructor; cbn -[PULL_CHUNK_SIZE]; auto; unfold PULL_CHUNK_SIZE; rewrite ?Hs2; rewrite ?length_app, ?length_drop; fold bufs; lia.
    + exists out, bufs. split; [done|]. split; [done|]. split; [done|]. cbn [async conn set_conn set_async].
      unfold chunk_out. cbn [async_with_chunk a_chunk_bufs a_chunk_dims a_chunk_n]. rewrite Hs2.
      split.
      * fold bufs. rewrite !take_app_le by lia. rewrite !take_ge by lia. rewrite <- Hs2. by destruct out.
      * cbn. rewrite drop_app_ge by lia. fold bufs. rewrite drop_drop. f_equal. lia.
  - eexists _, _. split; [reflexivity|]. done.
Qed.

Lemma emb_answer_full fid b : full_buf b -> full_buf (emb_answer c fid b).
Proof.
  intros (x & -> & Hx). unfold emb_answer. destruct (c fid) as [[d y]|] eqn:E; [|by exists x].
  apply Hfits in E. eexists. split; [done|]. unfold zlen in *. rewrite length_app, length_drop. lia.
Qed.

Lemma answers_full fids bufs : Forall full_buf bufs -> Forall full_buf (zip_with (emb_answer c) fids bufs).
Proof.
  intros H. revert fids. induction H as [|b bufs Hb _ IH]; intros [|f fids]; cbn; auto.
  constructor; [by apply emb_answer_full|apply IH].
Qed.

(** The buffers of a chunk that was answered. *)
Lemma answered_lookup fids bufs i fid : Forall full_buf bufs -> length bufs = length fids -> fids !! i = Some fid ->
  (dim_of c <$> fids) !! i = Some (dim_of c fid) /\
  exists b, zip_with (emb_answer c) fids bufs !! i = Some (Some b) /\ zlen b = 4 * PULL_MAX_DIM /\
    forall d x, c fid = Some (d, x) -> take (length x) b = x.
Proof.
  intros Hb Hl Hi. rewrite list_lookup_fmap, Hi. split; [done|].
  destruct (lookup_lt_is_Some_2 bufs i) as [b Eb]; [apply lookup_lt_Some in Hi; lia|].
  assert (Hfb : full_buf b) by (eapply Forall_lookup_1; eauto).
  pose proof (emb_answer_full fid b Hfb) as (y & Ey & Hy). exists y. rewrite lookup_zip_with, Hi, Eb. cbn. rewrite Ey.
  split; [done|]. split; [done|]. intros d x E. destruct Hfb as (z & -> & _). unfold emb_answer in Ey. rewrite E in Ey.
  injection Ey as <-. by rewrite take_app_length.
Qed.

Lemma poll_chunk_spec o n s : in_flight o n s ->
  exists rc s', poll_chunk s = Ret (rc, s') /\ pull_step s s' /\
    match n with S n => rc = GRAVELDB_AGAIN /\ in_flight o n s' | O => rc <> GRAVELDB_AGAIN /\ landed o s' end.
Proof.
  intros (Hp & Ho & Hn & out & bufs & Hfl & Hb & Hlb & Hout & Hrest). pose proof Hp as [Hs Hi Hc Hoff Hr He Hlb' Hld].
  destruct (chunk_size_bounds o) as [Hm Hm']; [lia|]. set (m := chunk_size o) in *.
  unfold poll_chunk. unfold bindM at 1, get_async, gets. cbn [res_bind fst snd].
  rewrite Hout. destruct (poll_spec _ _ _ _ _ _ _ Hfl) as (rc & ag & out' & d' & E & Hcase).
  rewrite (bindM_ret _ _ _ _ _ (hdb_ret _ _ _ _ E)).
  rewrite (bindM_ret _ _ _ tt _ (when_ret _ _ _ (valid_here _ (set_db s d') He))).
  exists rc, (with_pull s d' (async_with_chunk (async (conn s)) m ag out')). split; [rewrite <- Hn; reflexivity|].
  split; [eexists _, _; by split|]. unfold PULL_CHUNK_SIZE in *.
  assert (Hcl : length (chunk_ids o) = Z.to_nat m) by (apply chunk_ids_len; lia).
  assert (Hshape : forall d l, length (out_embeddings out') = Z.to_nat m -> out_dims out' = Some l -> length l = Z.to_nat m ->
            pulling o (with_pull s d (async_with_chunk (async (conn s)) m ag out'))).
  { intros d l H1 H2 H3. constructor; cbn -[PULL_CHUNK_SIZE]; auto; rewrite ?H2, ?length_app, ?length_drop; unfold PULL_CHUNK_SIZE; lia. }
  destruct n as [|n].
  - destruct Hcase as (Hrc & -> & Hh). split; [done|]. cbn [answered out_embeddings out_dims] in *.
    assert (Hl1 : length (take (Z.to_nat m) bufs) = length (chunk_ids o)) by (rewrite length_take; lia).
    split; [split; [|split]|split; [lia|split; [done|]]].
    + eapply Hshape; [rewrite length_zip_with; lia|done|by rewrite length_fmap].
    + cbn [async conn set_conn set_async async_with_chunk a_chunk_bufs out_embeddings answered with_pull]. rewrite Hrest.
      apply Forall_app. split; [apply answers_full; by apply Forall_take|by apply Forall_drop].
    + done.
    + intros i fid Hifid. cbn [with_pull async conn set_conn set_async async_with_chunk a_chunk_bufs a_chunk_dims out_embeddings out_dims answered].
      destruct (answered_lookup (chunk_ids o) (take (Z.to_nat m) bufs) i fid) as (Hd & b & Hz & Hrst); [by apply Forall_take|done|done|].
      assert (i < Z.to_nat m)%nat by (apply lookup_lt_Some in Hifid; lia).
      rewrite !lookup_app_l by (rewrite ?length_fmap, ?length_zip_with; lia). eauto.
  - destruct Hcase as [-> Hfl']. split; [done|]. destruct (flying_size _ _ _ _ _ _ _ Hfl') as (Hs1 & l & Hs2 & Hs3).
    split; [|split; [done|split; [done|]]].
    + eapply Hshape; [lia|done|lia].
    + exists out', bufs. split; [done|]. split; [done|]. split; [done|]. cbn [with_pull async conn set_conn set_async].
      unfold chunk_out. cbn [async_with_chunk a_chunk_bufs a_chunk_dims a_chunk_n]. rewrite Hs2. split.
      * rewrite !take_app_le by lia. rewrite !take_ge by lia. rewrite <- Hs2. by destruct out'.
      * fold m. rewrite drop_app_ge by lia. rewrite drop_drop, <- Hrest. rewrite !drop_drop || idtac. f_equal. lia.
Qed.

(** *** Emitting chunk after chunk *)

Section emit.
Variables (emit : Z -> H unit) (fin : H unit).
(** [Out o s]: [o] entries have been emitted. [Fin s]: the response is complete. *)
Variables (Out : Z -> HSt (T := T) -> Prop) (Fin : HSt (T := T) -> Prop).
Hypothesis Out_step : forall o s s', pull_step s s' -> Out o s -> Out o s'.
Hypothesis emit_spec : forall o s, landed o s -> Out o s ->
  exists s', emit (chunk_size o) s = Ret (tt, s') /\ Out (o + chunk_size o) s' /\ ready o s' /\
    a_chunk_n (async (conn s')) = chunk_size o.
Hypothesis fin_spec : forall s, ready (zlen ids) s -> Out (zlen ids) s -> exists s', fin s = Ret (tt, s') /\ Fin s'.

Fixpoint submit_next (fuel : nat) : H Z :=
  match fuel with
  | O => fun _ => Diverge
  | S fuel =>
    let* a := get_async in
    if a_count a <=? a_offset a then
      do* fin in
      ret 0
    else
      let chunk_n := next_chunk_n a in
      do* submit_chunk chunk_n in
      let* rc := poll_chunk in
      if decide (rc = GRAVELDB_AGAIN) then
        do* upd_async (fun a => async_with_phase a 1) in
        ret 1
      else
        do* emit chunk_n in
        do* upd_async (fun a => async_with_offset a (u32 (a_offset a + chunk_n))) in
        submit_next fuel
  end.

Definition resume : H Z :=
  let* rc := poll_chunk in
  if decide (rc = GRAVELDB_AGAIN) then ret 1
  else
    let* a := get_async in
    do* emit (a_chunk_n a) in
    do* upd_async (fun a => async_with_offset a (u32 (a_offset a + a_chunk_n a))) in
    let* a := get_async in
    submit_next (chunk_fuel a).

(** The result: finished, or waiting for the get of a later chunk. *)
Definition moved_on (o : Z) (rc : Z) s : Prop :=
  (rc = 0 /\ Fin s) \/ (rc = 1 /\ exists o' n, o <= o' /\ in_flight o' n s /\ Out o' s).

Lemma ready_offset o s : ready o s -> o < zlen ids ->
  exists s', upd_async (fun a => async_with_offset a (u32 (a_offset a + chunk_size o))) s = Ret (tt, s') /\
    ready (o + chunk_size o) s' /\ pull_step s s'.
Proof.
  intros (Hp & Hb & Hh) Ho. destruct (chunk_size_bounds o) as [Hm Hm']; [destruct Hp; lia|].
  eexists. split; [reflexivity|]. split; [|eexists _, _; by split].
  split; [|by split]. destruct Hp. constructor; cbn -[PULL_CHUNK_SIZE]; auto; [|lia].
  rewrite pl_offset0. unfold u32, GRAVELDB_WIRE_MAX_BATCH in *. apply Z.mod_small. lia.
Qed.

Lemma in_flight_phase o n s : in_flight o n s ->
  exists s', upd_async (fun a => async_with_phase a 1) s = Ret (tt, s') /\ in_flight o n s' /\ pull_step s s'.
Proof.
  intros ([] & Ho & Hn & out & bufs & Hrest). eexists. split; [reflexivity|]. split; [|eexists _, _; by split].
  split; [by constructor|]. split; [done|]. split; [done|]. by exists out, bufs.
Qed.

Lemma submit_next_spec fuel o s : ready o s -> Out o s -> zlen ids - o < Z.of_nat fuel ->
  exists rc s', submit_next fuel s = Ret (rc, s') /\ moved_on o rc s'.
Proof.
  revert o s. induction fuel as [|fuel IH]; intros o s Hr Ho Hf.
  { destruct Hr as ([] & _). lia. }
  pose proof Hr as (Hp & Hb & Hh). cbn [submit_next]. unfold bindM at 1, get_async, gets. cbn [res_bind fst snd].
  rewrite (pl_count _ _ Hp), (pl_offset _ _ Hp). destruct (Z.leb_spec (zlen ids) o) as [Hle|Hlt].
  { assert (o = zlen ids) as -> by (destruct Hp; lia). destruct (fin_spec s Hr Ho) as (s' & E & HF).
    rewrite (bindM_ret _ _ _ _ _ E). exists 0, s'. split; [done|]. by left. }
  rewrite (next_chunk_size _ _ Hp). destruct (chunk_size_bounds o) as [Hm Hm']; [destruct Hp; lia|].
  destruct (submit_chunk_spec o s Hr Hlt) as (s1 & n & E1 & Hfl & Hs1). rewrite (bindM_ret _ _ _ _ _ E1).
  destruct (poll_chunk_spec o n s1 Hfl) as (rc & s2 & E2 & Hs2 & Hcase). rewrite (bindM_ret _ _ _ _ _ E2).
  assert (Ho2 : Out o s2) by (eapply Out_step; [|exact Ho]; by transitivity s1).
  destruct n as [|n]; destruct Hcase as [Hrc Hcase].
  - rewrite decide_False by done. destruct (emit_spec o s2 Hcase Ho2) as (s3 & E3 & Ho3 & Hr3 & _).
    rewrite (bindM_ret _ _ _ _ _ E3). destruct (ready_offset o s3 Hr3 Hlt) as (s4 & E4 & Hr4 & Hs4).
    rewrite (bindM_ret _ _ _ _ _ E4). destruct (IH (o + chunk_size o) s4) as (rc' & s5 & E5 & [[-> HF]|(-> & o' & n & ? & ? & ?)]); [done|by eapply Out_step|lia| |].
    + exists 0, s5. split; [done|]. by left.
    + exists 1, s5. split; [done|]. right. split; [done|]. exists o', n. split; [lia|]. by split.
  - rewrite decide_True by done. destruct (in_flight_phase o n s2 Hcase) as (s3 & E3 & Hfl3 & Hs3).
    rewrite (bindM_ret _ _ _ _ _ E3). exists 1, s3. split; [done|]. right. split; [done|]. exists o, n.
    split; [lia|]. split; [done|]. by eapply Out_step.
Qed.

Lemma resume_spec o n s : in_flight o n s -> Out o s ->
  exists rc s', resume s = Ret (rc, s') /\
    ((rc = 0 /\ Fin s') \/
     (rc = 1 /\ exists o' n', in_flight o' n' s' /\ Out o' s' /\ (o < o' \/ (o' = o /\ (n' < n)%nat)))).
Proof.
  intros Hfl Ho. destruct (poll_chunk_spec o n s Hfl) as (rc & s1 & E1 & Hs1 & Hcase). unfold resume.
  rewrite (bindM_ret _ _ _ _ _ E1). assert (Ho1 : Out o s1) by by eapply Out_step.
  destruct n as [|n]; destruct Hcase as [Hrc Hcase].
  - rewrite decide_False by done. unfold bindM at 1, get_async, gets. cbn [res_bind fst snd].
    pose proof Hcase as (Hr1 & Hlt & Hn & _). rewrite Hn.
    destruct (chunk_size_bounds o) as [Hm Hm']; [destruct Hr1 as ([] & _); lia|].
    destruct (emit_spec o s1 Hcase Ho1) as (s2 & E2 & Ho2 & Hr2 & Hn2).
    rewrite (bindM_ret _ _ _ _ _ E2). destruct (ready_offset o s2 Hr2 Hlt) as (s3 & E3 & Hr3 & Hs3).
    assert (E3' : upd_async (fun a => async_with_offset a (u32 (a_offset a + a_chunk_n a))) s2 = Ret (tt, s3)).
    { rewrite <- E3. unfold upd_async, upd_conn, modify. by rewrite Hn2. }
    rewrite (bindM_ret _ _ _ _ _ E3'). unfold bindM at 1, gets. cbn [res_bind fst snd].
    destruct (submit_next_spec (chunk_fuel (async (conn s3))) (o + chunk_size o) s3) as (rc' & s4 & E4 & Hm4); [done|by eapply Out_step| |].
    { unfold chunk_fuel. destruct Hr3 as ([] & _). rewrite pl_count0, pl_offset0. lia. }
    exists rc', s4. split; [done|]. destruct Hm4 as [?|(-> & o' & n' & ? & ? & ?)]; [by left|]. right. split; [done|].
    exists o', n'. split; [done|]. split; [done|]. left. lia.
  - rewrite decide_True by done. exists 1, s1. split; [done|]. right. split; [done|]. exists o, n.
    split; [done|]. split; [done|]. right. split; [done|]. lia.
Qed.

(** The event loop resumes the connection until the response is complete. *)
Fixpoint drive (m : H Z) (fuel : nat) : H unit :=
  match fuel with
  | O => fun _ => Diverge
  | S fuel => let* rc := m in if rc =? 0 then ret tt else drive m fuel
  end.

(** What the event loop calls resumes the pull, as long as it is one. *)
Variable step : H Z.
Hypothesis step_eq : forall s, a_state (async (conn s)) = st -> step s = resume s.

Lemma drive_spec o n s : in_flight o n s -> Out o s -> exists fuel s', drive step fuel s = Ret (tt, s') /\ Fin s'.
Proof.
  remember (Z.to_nat (zlen ids - o)) as k eqn:Ek. revert o n s Ek.
  induction k as [k IHk] using lt_wf_ind. intros o n. revert o. induction n as [n IHn] using lt_wf_ind.
  intros o s Ek Hfl Ho. assert (o < zlen ids) by apply Hfl.
  destruct (resume_spec o n s Hfl Ho) as (rc & s' & E & Hcase). rewrite <- step_eq in E by apply Hfl.
  destruct Hcase as [[-> HF]|(-> & o' & n' & Hfl' & Ho' & Hlt)].
  - exists 1%nat, s'. split; [|done]. cbn. by rewrite (bindM_ret _ _ _ _ _ E).
  - assert (Hgo : exists fuel s'', drive step fuel s' = Ret (tt, s'') /\ Fin s'').
    { destruct Hlt as [Hlt|[-> Hlt]].
      - assert (o' < zlen ids) by apply Hfl'. eapply (IHk (Z.to_nat (zlen ids - o'))); [lia|reflexivity|done|done].
      - eapply IHn; eauto. }
    destruct Hgo as (fuel & s'' & E' & HF). exists (S fuel), s''. split; [|done]. cbn. by rewrite (bindM_ret _ _ _ _ _ E).
Qed.

Lemma drive_moved o rc s : moved_on o rc s -> (forall s, Fin s -> step s = Ret (0, s)) ->
  exists fuel s', drive step fuel s = Ret (tt, s') /\ Fin s'.
Proof.
  intros [[_ Hf]|(_ & o' & n & _ & Hfl & Ho')] HF; [|by eapply drive_spec].
  exists 1%nat, s. split; [|done]. cbn. by rewrite (bindM_ret _ _ _ _ _ (HF _ Hf)).
Qed.

(** A pull that starts at [s]. *)
Lemma start_spec s : ready 0 s -> Out 0 s ->
  exists rc s', submit_next (chunk_fuel (async (conn s))) s = Ret (rc, s') /\ moved_on 0 rc s'.
Proof.
  intros Hr Ho. apply (submit_next_spec _ 0 s Hr Ho).
  unfold chunk_fuel. destruct Hr as ([] & _). rewrite pl_count0, pl_offset0. lia.
Qed.
End emit.
End chunks.

(** The receive buffer is replaced, which no pull looks at. *)
Definition rebuf (r : option (Z * list Z)) s : HSt := set_conn s (set_recv (conn s) r (recv_cap (conn s))).

Lemma in_flight_rebuf c ids st o n r s : in_flight c ids st o n s -> in_flight c ids st o n (rebuf r s).
Proof. intros ([] & Hrest). split; [by constructor|exact Hrest]. Qed.

(** ** The response to a pull *)

Definition pull_emit (n : Z) : H unit := append_entries (seqZ 0 n).
Definition pull_fin : H unit :=
  do* response_finish in upd_async (fun a => async_with_state a CONN_IDLE).

Lemma pull_submit_eq fuel s : pull_submit_next_chunk fuel s = submit_next pull_emit pull_fin fuel s.
Proof.
  revert s. induction fuel as [|fuel IH]; intros s; [done|]. cbn [pull_submit_next_chunk submit_next].
  unfold pull_fin, pull_emit, bindM, get_async, gets. cbn [res_bind fst snd].
  destruct (_ <=? _); [by destruct (response_finish s) as [[]| |]|].
  destruct (submit_chunk _ s) as [[? s1]| |]; cbn [res_bind fst snd]; [|done..].
  destruct (poll_chunk s1) as [[rc s2]| |]; cbn [res_bind fst snd]; [|done..].
  destruct (decide (rc = GRAVELDB_AGAIN)); [done|].
  destruct (append_entries _ s2) as [[? s3]| |]; cbn [res_bind fst snd]; [|done..]. cbn. apply IH.
Qed.

Lemma pull_resume_eq s : pull_resume s = resume pull_emit pull_fin s.
Proof.
  unfold pull_resume, resume, pull_emit, bindM, get_async, gets.
  destruct (poll_chunk s) as [[rc s1]| |]; cbn [res_bind fst snd]; [|done..].
  destruct (decide (rc = GRAVELDB_AGAIN)); [done|].
  destruct (append_entries _ s1) as [[? s2]| |]; cbn [res_bind fst snd]; [|done..]. apply pull_submit_eq.
Qed.

(** Only the response being built and the arena changed, within the epoch. *)
Definition out_step s s' : Prop :=
  exists cur off a h, s' = set_mem (set_conn s (mkClientConn (fd (conn s)) (sock (conn s)) (recv_buf (conn s)) (recv_cap (conn s))
    (send_list (conn s)) cur off a (async (conn s)))) h /\ epoch a = epoch (carena (conn s)).

#[export] Instance out_step_preorder : PreOrder out_step.
Proof.
  split.
  - intros s. exists (send_cur (conn s)), (resp_hdr_off (conn s)), (carena (conn s)), (mem s). by destruct s as [? ? ? ? [] ?].
  - intros s1 s2 s3 (c1 & o1 & a1 & h1 & -> & E1) (c2 & o2 & a2 & h2 & -> & E2). exists c2, o2, a2, h2. split; [done|]. cbn in E2. congruence.
Qed.

(** The arena of the connection has room for [n] more bytes. *)
Definition arena_room (n : Z) s : Prop := roomy n (carena (conn s)) (mem s).

(** A response with the bytes [d] so far is being built. *)
Definition building (n : Z) (d : list Z) s : Prop :=
  arena_room n s /\ exists ch, send_cur (conn s) = Some ch /\ ck_data ch = d /\ ck_sent ch = 0 /\ ck_epoch ch = epoch (carena (conn s)).

Lemma building_le m n d s : building n d s -> m <= n -> building m d s.
Proof. intros [H1 H2] ?. split; [by eapply roomy_le|done]. Qed.

Lemma alloc_here n size s : 0 <= size -> 0 <= n -> arena_room (n + size + 7) s ->
  exists p s', on_arena (arena_alloc size) s = Ret (Some p, s') /\ out_step s s' /\ send_cur (conn s') = send_cur (conn s) /\ arena_room n s'.
Proof.
  intros Hs Hn Hr. destruct (arena_alloc_grants size n _ _ Hs Hr Hn) as (p & a' & h' & E & Hr' & He).
  exists p. eexists. split; [unfold on_arena; rewrite E; reflexivity|]. split; [|by split].
  exists (send_cur (conn s)), (resp_hdr_off (conn s)), a', h'. split; [|done]. by destruct s as [? ? ? ? [] ?].
Qed.

Lemma out_step_epoch s s' : out_step s s' -> epoch (carena (conn s')) = epoch (carena (conn s)).
Proof. intros (? & ? & a & ? & -> & E). done. Qed.

Lemma append_building n d x s : 0 <= n -> zlen d + zlen x < 2 ^ 40 -> building (n + 2 * (zlen d + zlen x) + 7) d s ->
  exists s', response_append x s = Ret (tt, s') /\ out_step s s' /\ building n (d ++ x) s'.
Proof.
  intros Hn Hz (Hr & ch & Hc & Hd & Hs & He). unfold response_append. unfold bindM at 1, gets. cbn [res_bind fst snd]. rewrite Hc.
  rewrite (bindM_ret _ _ _ _ _ (valid_here _ _ He)). pose proof (zlen_nonneg d). pose proof (zlen_nonneg x).
  unfold ck_len. rewrite Hd. assert (Hu : forall y, 0 <= y < 2 ^ 64 -> u64 y = y) by (intros; by apply Z.mod_small).
  rewrite !Hu by lia. destruct (Z.ltb_spec (ck_cap ch) (zlen d + zlen x)) as [Hlt|Hge].
  - destruct (alloc_here n ((zlen d + zlen x) * 2) s) as (p & s1 & E & Hst & Hcur & Hr1); [lia|done|eapply roomy_le; [exact Hr|lia]|].
    unfold bindM at 1 2. rewrite E. cbn [res_bind fst snd]. unfold bindM, gets, ret. cbn [res_bind fst snd].
    eexists. split; [reflexivity|]. split.
    + transitivity s1; [done|]. eexists _, _, _, _. by split.
    + split; [done|]. eexists. split; [reflexivity|]. cbn. repeat split; congruence.
  - eexists. split; [reflexivity|]. split.
    + eexists _, _, _, _. by split.
    + split; [eapply roomy_le; [exact Hr|lia]|]. eexists. split; [reflexivity|]. cbn. repeat split; congruence.
Qed.

(** An entry of a response: the dimension and the embedding. *)
Definition entry_bytes (c : Contents) (fid : Z) : list Z :=
  match c fid with Some (d, x) => bytes_u32 d ++ take (Z.to_nat (4 * d)) x | None => bytes_u32 0 end.
Definition entries_bytes (c : Contents) (fids : list Z) : list Z := concat (entry_bytes c <$> fids).

Lemma entries_bytes_app c l1 l2 : entries_bytes c (l1 ++ l2) = entries_bytes c l1 ++ entries_bytes c l2.
Proof. unfold entries_bytes. by rewrite fmap_app, concat_app. Qed.

Lemma zlen_entry_bytes c fid : fits c -> 4 <= zlen (entry_bytes c fid) <= 4 + 4 * PULL_MAX_DIM.
Proof.
  intros H. unfold entry_bytes. destruct (c fid) as [[d x]|] eqn:E.
  - apply H in E. rewrite zlen_app, zlen_bytes_u32. unfold zlen in *. rewrite length_take. lia.
  - rewrite zlen_bytes_u32. unfold PULL_MAX_DIM. lia.
Qed.

Lemma zlen_entries_bytes c fids : fits c -> 0 <= zlen (entries_bytes c fids) <= zlen fids * (4 + 4 * PULL_MAX_DIM).
Proof.
  intros H. induction fids as [|f fids IH]; [done|]. change (entries_bytes c (f :: fids)) with (entry_bytes c f ++ entries_bytes c fids).
  rewrite zlen_app. pose proof (zlen_entry_bytes c f H). unfold PULL_MAX_DIM in *. unfold zlen in *. cbn [length]. lia.
Qed.

(** What an entry may take from the arena, and the size of any response. *)
Definition ENTRY_ROOM : Z := 2 ^ 32.
Definition MAX_RESPONSE : Z := 2 ^ 29.

(** The buffers at index [i] hold the answer for [fid]. *)
Definition answers_at (c : Contents) (a : ConnAsyncCtx (T := T)) (i : nat) (fid : Z) : Prop :=
  a_chunk_dims a !! i = Some (dim_of c fid) /\
  exists b, a_chunk_bufs a !! i = Some (Some b) /\ zlen b = 4 * PULL_MAX_DIM /\ forall d x, c fid = Some (d, x) -> take (length x) b = x.

Lemma rd_lookup {A} (l : list A) (i : nat) x : l !! i = Some x -> rd l (Z.of_nat i) = Ret x.
Proof. intros E. apply rd_ret. rewrite Nat2Z.id. split; [lia|done]. Qed.

(** The embedding of an entry, read from its buffer. *)
Lemma answer_bytes c a i fid d x : fits c -> answers_at c a i fid -> c fid = Some (d, x) ->
  (let! b := rd (a_chunk_bufs a) (Z.of_nat i) in let! b := deref b in copy_from b 0 (d * 4)) = Ret (take (Z.to_nat (4 * d)) x).
Proof.
  intros Hf (_ & b & Hb & Hz & Hx) E. rewrite (rd_lookup _ _ _ Hb). cbn [res_bind deref].
  apply Hf in E as Hd. specialize (Hx _ _ E). rewrite copy_from_window by (unfold in_buf, PULL_MAX_DIM in *; lia).
  unfold window. change (Z.to_nat 0) with O. rewrite drop_0. rewrite <- Hx, take_take. f_equal. f_equal. unfold zlen in *. lia.
Qed.

Lemma u32_dim c fid : fits c -> u32 (dim_of c fid) = dim_of c fid.
Proof.
  intros Hf. unfold dim_of. destruct (c fid) as [[d x]|] eqn:E; [|done]. apply Hf in E. unfold u32, PULL_MAX_DIM in *. apply Z.mod_small. lia.
Qed.

Lemma append_entry_spec c n d s i fid l : fits c -> 0 <= n -> zlen d + zlen (entry_bytes c fid) < MAX_RESPONSE ->
  a_epoch (async (conn s)) = epoch (carena (conn s)) -> answers_at c (async (conn s)) i fid ->
  building (n + ENTRY_ROOM) d s ->
  exists s', append_entries (Z.of_nat i :: l) s = append_entries l s' /\ out_step s s' /\ building n (d ++ entry_bytes c fid) s'.
Proof.
  intros Hf Hn Hz He Ha Hb. cbn [append_entries]. unfold bindM at 1, get_async, gets. cbn [res_bind fst snd].
  rewrite (bindM_ret _ _ _ _ _ (valid_here _ _ He)). pose proof Ha as (Hd & _).
  unfold lift at 1. rewrite (rd_lookup _ _ _ Hd). unfold bindM at 1. cbn [res_bind fst snd]. rewrite (u32_dim _ _ Hf).
  unfold MAX_RESPONSE, ENTRY_ROOM in *. pose proof (zlen_nonneg d).
  destruct (append_building (n + 2 ^ 31) d (bytes_u32 (dim_of c fid)) s) as (s1 & E1 & H1 & B1); [lia| | |].
  { rewrite zlen_bytes_u32. pose proof (zlen_entry_bytes c fid Hf). lia. }
  { eapply building_le; [exact Hb|]. rewrite zlen_bytes_u32. pose proof (zlen_entry_bytes c fid Hf). lia. }
  rewrite (bindM_ret _ _ _ _ _ E1). unfold dim_of, entry_bytes in *. destruct (c fid) as [[dim x]|] eqn:E.
  - apply Hf in E as Hdim. rewrite zlen_app, zlen_bytes_u32 in Hz. destruct (Z.ltb_spec 0 dim) as [Hp|Hp]; cbn [when].
    + rewrite (answer_bytes c _ i fid dim x Hf Ha E). unfold lift, bindM at 1 2. cbn [res_bind fst snd].
      destruct (append_building n (d ++ bytes_u32 dim) (take (Z.to_nat (4 * dim)) x) s1) as (s2 & E2 & H2 & B2); [done| | |].
      { rewrite zlen_app, zlen_bytes_u32. lia. }
      { eapply building_le; [exact B1|]. rewrite zlen_app, zlen_bytes_u32. lia. }
      rewrite E2. cbn [res_bind fst snd]. exists s2. split; [done|]. split; [by transitivity s1|]. by rewrite app_assoc.
    + assert (dim = 0) as -> by lia. exists s1. split; [done|]. split; [done|]. change (Z.to_nat (4 * 0)) with O.
      rewrite take_0, app_nil_r. eapply building_le; [exact B1|lia].
  - exists s1. split; [done|]. split; [done|]. eapply building_le; [exact B1|lia].
Qed.

Lemma out_step_async s s' : out_step s s' -> async (conn s') = async (conn s) /\ db s' = db s.
Proof. by intros (? & ? & ? & ? & -> & _). Qed.

Lemma append_entries_spec c fids : fits c -> forall k n d s, 0 <= n -> zlen d + zlen (entries_bytes c fids) < MAX_RESPONSE ->
  a_epoch (async (conn s)) = epoch (carena (conn s)) ->
  (forall j fid, fids !! j = Some fid -> answers_at c (async (conn s)) (k + j) fid) ->
  building (n + ENTRY_ROOM * zlen fids) d s ->
  exists s', append_entries (seqZ (Z.of_nat k) (zlen fids)) s = Ret (tt, s') /\ out_step s s' /\ building n (d ++ entries_bytes c fids) s'.
Proof.
  intros Hf. induction fids as [|f fids IH]; intros k n d s Hn Hz He Ha Hb.
  { exists s. split; [done|]. split; [reflexivity|]. change (entries_bytes c []) with (@nil Z). rewrite app_nil_r.
    eapply building_le; [exact Hb|]. unfold zlen. cbn. lia. }
  change (entries_bytes c (f :: fids)) with (entry_bytes c f ++ entries_bytes c fids) in *. rewrite zlen_app in Hz.
  assert (Hl : zlen (f :: fids) = Z.succ (zlen fids)) by (unfold zlen; cbn; lia). rewrite Hl in *. pose proof (zlen_nonneg fids).
  rewrite seqZ_cons by lia. rewrite Z.pred_succ.
  pose proof (zlen_entries_bytes c fids Hf). pose proof (zlen_nonneg (entries_bytes c fids)). unfold ENTRY_ROOM in *.
  destruct (append_entry_spec c (n + 2 ^ 32 * zlen fids) d s k f (seqZ (Z.succ (Z.of_nat k)) (zlen fids)) Hf) as (s1 & E1 & Ho1 & B1).
  { lia. }
  { lia. }
  { done. }
  { specialize (Ha 0%nat f eq_refl). by rewrite Nat.add_0_r in Ha. }
  { eapply building_le; [exact Hb|]. unfold ENTRY_ROOM. lia. }
  rewrite E1. destruct (out_step_async _ _ Ho1) as [Ea _].
  replace (Z.succ (Z.of_nat k)) with (Z.of_nat (S k)) by lia.
  destruct (IH (S k) n (d ++ entry_bytes c f) s1) as (s2 & E2 & H2 & B2); [done| | | |done|].
  - rewrite zlen_app. lia.
  - rewrite Ea, He. symmetry. by apply out_step_epoch.
  - intros j fid Hj. rewrite Ea. specialize (Ha (S j) fid Hj). by rewrite Nat.add_succ_r in Ha.
  - exists s2. split; [done|]. split; [by transitivity s1|]. by rewrite app_assoc.
Qed.

(** *** What stays the same while a response is built *)

Record same_rest s0 s : Prop := {
  sr_flush : async_flush s = async_flush s0;
  sr_busy : flush_in_flight s = flush_in_flight s0;
  sr_ro : readonly s = readonly s0;
  sr_fd : fd (conn s) = fd (conn s0);
  sr_sock : sock (conn s) = sock (conn s0);
  sr_recv : recv_buf (conn s) = recv_buf (conn s0);
  sr_cap : recv_cap (conn s) = recv_cap (conn s0);
  sr_epoch : epoch (carena (conn s)) = epoch (carena (conn s0))
}.

#[export] Instance same_rest_preorder : PreOrder same_rest.
Proof. split; [by intros s; constructor|]. intros s1 s2 s3 [] []. constructor; congruence. Qed.

Lemma pull_step_rest s s' : pull_step s s' -> same_rest s s' /\ send_list (conn s') = send_list (conn s) /\
  send_cur (conn s') = send_cur (conn s) /\ carena (conn s') = carena (conn s) /\ mem s' = mem s.
Proof. intros (d & a & -> & _). by repeat split. Qed.

Lemma out_step_rest s s' : out_step s s' -> same_rest s s' /\ send_list (conn s') = send_list (conn s).
Proof. intros (? & ? & ? & ? & -> & ?). by repeat split. Qed.

Lemma building_pull_step n d s s' : pull_step s s' -> building n d s -> building n d s'.
Proof.
  intros H [Hr Hb]. destruct (pull_step_rest _ _ H) as (_ & _ & Hc & Ha & Hm). unfold building, arena_room. by rewrite Hc, Ha, Hm.
Qed.

(** [response_finish] puts the length into the header. *)
Lemma patch_header st body n : copy_to (wire_header st n ++ body) 8 (bytes_u32 (zlen body)) = Ret (wire_header st (zlen body) ++ body).
Proof.
  unfold wire_header, copy_to. pose proof (zlen_nonneg body). rewrite !zlen_app, !zlen_bytes_u32. zdec.
  reflexivity.
Qed.

(** A complete response was added to the send list. *)
Definition responded s0 s (d : list Z) : Prop :=
  same_rest s0 s /\ send_cur (conn s) = None /\
  exists ch, send_list (conn s) = send_list (conn s0) ++ [ch] /\ ck_data ch = d /\ ck_sent ch = 0 /\ ck_epoch ch = epoch (carena (conn s0)).

Lemma finish_building n st body s : zlen body < 2 ^ 32 -> building n (wire_header st 0 ++ body) s ->
  exists s', response_finish s = Ret (tt, s') /\ responded s s' (wire_header st (zlen body) ++ body) /\
    async (conn s') = async (conn s) /\ db s' = db s /\ arena_room n s'.
Proof.
  intros Hz (Hr & ch & Hc & Hd & Hs & He). unfold response_finish. unfold bindM at 1, gets. cbn [res_bind fst snd]. rewrite Hc.
  rewrite (bindM_ret _ _ _ _ _ (valid_here _ _ He)). unfold ck_len. rewrite Hd, zlen_app, zlen_wire_header.
  replace (GRAVELDB_WIRE_HEADER_SIZE + zlen body - GRAVELDB_WIRE_HEADER_SIZE) with (zlen body) by lia.
  unfold u32. rewrite Z.mod_small by (pose proof (zlen_nonneg body); lia).
  unfold lift, bindM at 1. rewrite patch_header. cbn [res_bind fst snd].
  eexists. split; [reflexivity|]. split; [|by split]. split; [by constructor|]. split; [done|]. eexists. split; [reflexivity|]. cbn. by rewrite Hs, He.
Qed.

(** *** The parts of the handlers *)

Lemma chunk_new_spec n s : 0 <= n -> arena_room (n + SEND_CHUNK_SIZE + 7) s ->
  exists s', chunk_arena_new s = Ret (Some (mkSendChunk [] SEND_CHUNK_INLINE 0 (epoch (carena (conn s)))), s') /\
    out_step s s' /\ send_cur (conn s') = send_cur (conn s) /\ arena_room n s'.
Proof.
  intros Hn Hr. destruct (alloc_here n SEND_CHUNK_SIZE s) as (p & s' & E & Ho & Hc & Hr'); [done|done|done|].
  exists s'. split; [|done]. unfold chunk_arena_new. rewrite (bindM_ret _ _ _ _ _ E). unfold bindM, gets, ret. cbn [res_bind fst snd].
  by rewrite (out_step_epoch _ _ Ho).
Qed.

Lemma begin_spec n st s : 0 <= n -> arena_room (n + SEND_CHUNK_SIZE + 7) s ->
  exists s', response_begin st s = Ret (tt, s') /\ out_step s s' /\ building n (wire_header st 0) s'.
Proof.
  intros Hn Hr. destruct (chunk_new_spec n s Hn Hr) as (s1 & E & Ho & Hc & Hr'). unfold response_begin.
  rewrite (bindM_ret _ _ _ _ _ E). eexists. split; [reflexivity|]. split.
  - transitivity s1; [done|]. eexists _, _, _, _. split; [reflexivity|]. done.
  - split; [done|]. eexists. split; [reflexivity|]. cbn. by rewrite (out_step_epoch _ _ Ho).
Qed.

(** The body of a request for [ids]. *)
Definition ids_bytes (ids : list Z) : list Z := concat (bytes_u64 <$> ids).
Definition pull_request_body (ids : list Z) : list Z := bytes_u32 (zlen ids) ++ ids_bytes ids.

Definition is_u64 (v : Z) : Prop := 0 <= v < 2 ^ 64.

Lemma zlen_ids_bytes ids : zlen (ids_bytes ids) = 8 * zlen ids.
Proof.
  induction ids as [|f ids IH]; [done|]. change (ids_bytes (f :: ids)) with (bytes_u64 f ++ ids_bytes ids).
  rewrite zlen_app, IH, zlen_bytes_u64. unfold zlen. cbn [length]. lia.
Qed.

Lemma parse_ids_spec pre ids post off : Forall is_u64 ids -> off = zlen pre ->
  parse_ids (pre ++ ids_bytes ids ++ post) off (length ids) = Ret ids.
Proof.
  intros Hids. revert pre off. induction Hids as [|f ids Hf _ IH]; intros pre off ->; [done|]. cbn [length parse_ids].
  change (ids_bytes (f :: ids)) with (bytes_u64 f ++ ids_bytes ids). rewrite <- app_assoc.
  rewrite read_u64_app by done. cbn [res_bind].
  rewrite app_assoc, IH by (rewrite zlen_app, zlen_bytes_u64; lia). done.
Qed.

Lemma pull_request_spec ids post s : zlen ids <= GRAVELDB_WIRE_MAX_BATCH ->
  pull_request (pull_request_body ids ++ post) (zlen (pull_request_body ids)) s = Ret (Some (zlen ids), s).
Proof.
  intros Hn. unfold pull_request, pull_request_body, GRAVELDB_WIRE_MAX_BATCH in *. pose proof (zlen_nonneg ids).
  rewrite zlen_app, zlen_bytes_u32, zlen_ids_bytes. zdec. unfold lift, bindM. rewrite <- app_assoc.
  rewrite read_u32_front by lia. cbn [res_bind fst snd]. unfold ret, u32. rewrite Z.mod_small by lia. zdec. done.
Qed.

Lemma slices_length n sz b : length (slices n sz b) = n.
Proof. revert b. induction n as [|n IH]; intros b; cbn; [done|]. by rewrite IH. Qed.

Lemma slices_full n sz b : (n * sz <= length b)%nat -> Forall (fun x => length x = sz) (slices n sz b).
Proof.
  revert b. induction n as [|n IH]; intros b Hb; cbn; [constructor|]. constructor.
  - rewrite length_take. lia.
  - apply IH. rewrite length_drop. lia.
Qed.

Definition SCRATCH_ROOM : Z := 2 ^ 20.

Lemma alloc_scratch_spec junk n s : (forall k, 0 <= k -> zlen (junk k) = k) -> 0 <= n -> arena_room (n + SCRATCH_ROOM) s ->
  exists bufs dims s', alloc_scratch junk s = Ret (Some (bufs, dims), s') /\ out_step s s' /\ send_cur (conn s') = send_cur (conn s) /\
    arena_room n s' /\ length bufs = Z.to_nat PULL_CHUNK_SIZE /\ Forall full_buf bufs /\ length dims = Z.to_nat PULL_CHUNK_SIZE.
Proof.
  intros Hj Hn Hr. unfold alloc_scratch.
  destruct (alloc_here (n + PULL_CHUNK_SIZE * 8 + 7 + PULL_CHUNK_SIZE * 4 + 7) SCRATCH_SIZE s) as (p1 & s1 & E1 & O1 & C1 & R1);
    [done|unfold PULL_CHUNK_SIZE; lia|eapply roomy_le; [exact Hr|]; unfold SCRATCH_SIZE, PULL_CHUNK_SIZE, PULL_MAX_DIM, SCRATCH_ROOM; lia|].
  rewrite (bindM_ret _ _ _ _ _ E1).
  destruct (alloc_here (n + PULL_CHUNK_SIZE * 4 + 7) (PULL_CHUNK_SIZE * 8) s1) as (p2 & s2 & E2 & O2 & C2 & R2);
    [done|unfold PULL_CHUNK_SIZE; lia|eapply roomy_le; [exact R1|]; lia|].
  rewrite (bindM_ret _ _ _ _ _ E2).
  destruct (alloc_here n (PULL_CHUNK_SIZE * 4) s2) as (p3 & s3 & E3 & O3 & C3 & R3); [done|done|done|].
  rewrite (bindM_ret _ _ _ _ _ E3). eexists _, _, s3. split; [reflexivity|].
  split; [transitivity s1; [done|by transitivity s2]|]. split; [congruence|]. split; [done|].
  rewrite !length_fmap, !slices_length. split; [done|]. split; [|done].
  apply Forall_fmap. eapply Forall_impl; [apply slices_full|].
  - assert (Hz := Hj SCRATCH_SIZE ltac:(unfold SCRATCH_SIZE, PULL_CHUNK_SIZE, PULL_MAX_DIM; lia)).
    unfold zlen, SCRATCH_SIZE, PULL_CHUNK_SIZE, PULL_MAX_DIM in *. lia.
  - intros x Hx. exists x. split; [done|]. unfold zlen. rewrite Hx. unfold PULL_MAX_DIM. lia.
Qed.

Lemma start_async_spec st ids bufs dims ff s : zlen ids <= GRAVELDB_WIRE_MAX_BATCH ->
  length bufs = Z.to_nat PULL_CHUNK_SIZE -> length dims = Z.to_nat PULL_CHUNK_SIZE ->
  exists s', start_async st ids (zlen ids) bufs dims ff s = Ret (tt, s') /\ pulling ids st 0 s' /\
    s' = with_pull s (db s) (async (conn s')) /\ a_chunk_bufs (async (conn s')) = bufs /\ a_first_frame (async (conn s')) = ff.
Proof.
  intros Hn Hb Hd. unfold start_async. eexists. split; [reflexivity|]. split; [|done].
  constructor; cbn -[PULL_CHUNK_SIZE]; auto. pose proof (zlen_nonneg ids). lia.
Qed.

(** ** Pull *)

(** The body of the response. *)
Definition pull_response_body (c : Contents) (ids : list Z) : list Z := bytes_u32 (zlen ids) ++ entries_bytes c ids.

(** What a pull may take from the arena. *)
Definition PULL_ROOM : Z := 2 ^ 50.

(** The part of it with [o] entries. *)
Definition pull_response_body_upto (c : Contents) (ids : list Z) (o : Z) : list Z :=
  bytes_u32 (zlen ids) ++ entries_bytes c (take (Z.to_nat o) ids).

(** [o] entries are in the response. *)
Definition pull_out (c : Contents) (ids : list Z) s0 (o : Z) s : Prop :=
  same_rest s0 s /\ send_list (conn s) = send_list (conn s0) /\
  building (ENTRY_ROOM * (zlen ids - o)) (wire_header GRAVELDB_WIRE_OK 0 ++ pull_response_body_upto c ids o) s.

Definition pull_done (c : Contents) (ids : list Z) s0 s : Prop :=
  responded s0 s (wire_header GRAVELDB_WIRE_OK (zlen (pull_response_body c ids)) ++ pull_response_body c ids) /\
  a_state (async (conn s)) = CONN_IDLE /\ holds (db s) c.

Lemma upto_bound c ids o : fits c -> zlen ids <= GRAVELDB_WIRE_MAX_BATCH -> 
  zlen (wire_header GRAVELDB_WIRE_OK 0 ++ pull_response_body_upto c ids o) < MAX_RESPONSE.
Proof.
  intros Hf Hn. unfold pull_response_body_upto, MAX_RESPONSE, GRAVELDB_WIRE_MAX_BATCH in *.
  rewrite !zlen_app, zlen_wire_header, zlen_bytes_u32. unfold GRAVELDB_WIRE_HEADER_SIZE.
  pose proof (zlen_entries_bytes c (take (Z.to_nat o) ids) Hf). unfold PULL_MAX_DIM in *.
  assert (zlen (take (Z.to_nat o) ids) <= zlen ids) by (unfold zlen; rewrite length_take; lia). lia.
Qed.

(** The chunk at [o] continues what came before it. *)
Lemma take_chunk ids o : 0 <= o <= zlen ids -> take (Z.to_nat (o + chunk_size ids o)) ids = take (Z.to_nat o) ids ++ chunk_ids ids o.
Proof.
  intros. unfold chunk_ids. assert (0 <= chunk_size ids o) by (unfold chunk_size, PULL_CHUNK_SIZE; lia).
  rewrite Z2Nat.inj_add by lia. by rewrite take_take_drop.
Qed.

Lemma pull_emit_spec c ids s0 o s : fits c -> zlen ids <= GRAVELDB_WIRE_MAX_BATCH ->
  landed c ids CONN_ASYNC_PULL o s -> pull_out c ids s0 o s ->
  exists s', pull_emit (chunk_size ids o) s = Ret (tt, s') /\ pull_out c ids s0 (o + chunk_size ids o) s' /\
    ready c ids CONN_ASYNC_PULL o s' /\ a_chunk_n (async (conn s')) = chunk_size ids o.
Proof.
  intros Hf Hn ((Hp & Hfull & Hh) & Hlt & Hcn & Hans) (Hrest & Hl & Hb).
  destruct (chunk_size_bounds ids o) as [Hm Hm']; [destruct Hp; lia|].
  assert (Hcz : zlen (chunk_ids ids o) = chunk_size ids o) by (unfold zlen; rewrite chunk_ids_len by (destruct Hp; lia); lia).
  assert (Hup : pull_response_body_upto c ids (o + chunk_size ids o) = pull_response_body_upto c ids o ++ entries_bytes c (chunk_ids ids o)).
  { unfold pull_response_body_upto. rewrite take_chunk by (destruct Hp; lia). by rewrite entries_bytes_app, app_assoc. }
  destruct (append_entries_spec c (chunk_ids ids o) Hf 0 (ENTRY_ROOM * (zlen ids - (o + chunk_size ids o)))
             (wire_header GRAVELDB_WIRE_OK 0 ++ pull_response_body_upto c ids o) s) as (s' & E & Ho & Hb').
  - unfold ENTRY_ROOM. lia.
  - rewrite <- zlen_app, <- app_assoc, <- Hup. by apply upto_bound.
  - apply Hp.
  - intros j fid Hj. apply Hans, Hj.
  - eapply building_le; [exact Hb|]. rewrite Hcz. lia.
  - exists s'. rewrite Hcz in E. split; [exact E|]. destruct (out_step_rest _ _ Ho) as [Hr' Hl'], (out_step_async _ _ Ho) as [Ha Hd].
    split; [|split].
    + split; [by transitivity s|]. split; [congruence|]. by rewrite Hup, app_assoc.
    + split; [|rewrite Ha, Hd; by split]. destruct Hp. constructor; rewrite ?Ha, ?(out_step_epoch _ _ Ho); auto.
    + by rewrite Ha.
Qed.

Lemma pull_fin_spec c ids s0 s : fits c -> zlen ids <= GRAVELDB_WIRE_MAX_BATCH ->
  ready c ids CONN_ASYNC_PULL (zlen ids) s -> pull_out c ids s0 (zlen ids) s ->
  exists s', pull_fin s = Ret (tt, s') /\ pull_done c ids s0 s'.
Proof.
  intros Hf Hn (Hp & Hfull & Hh) (Hrest & Hl & Hb).
  assert (Hup : pull_response_body_upto c ids (zlen ids) = pull_response_body c ids).
  { unfold pull_response_body_upto, zlen. by rewrite Nat2Z.id, firstn_all. }
  pose proof (upto_bound c ids (zlen ids) Hf Hn) as Hz. rewrite Hup in *. rewrite zlen_app, zlen_wire_header in Hz. unfold MAX_RESPONSE, GRAVELDB_WIRE_HEADER_SIZE in Hz.
  destruct (finish_building (ENTRY_ROOM * (zlen ids - zlen ids)) GRAVELDB_WIRE_OK (pull_response_body c ids) s) as (s1 & E & (Hr1 & Hc1 & ch & Hch & Hd & Hs & He) & Ha & Hdb & _); [lia|exact Hb|].
  unfold pull_fin. rewrite (bindM_ret _ _ _ _ _ E). eexists. split; [reflexivity|].
  split; [|split; [done|]]; [|cbn; by rewrite Hdb].
  split; [|split; [done|]].
  - transitivity s1; [by transitivity s|]. by constructor.
  - exists ch. cbn. rewrite Hch, Hl. split; [done|]. split; [done|]. split; [done|]. rewrite He. apply Hrest.
Qed.

Lemma resume_pull s : a_state (async (conn s)) = CONN_ASYNC_PULL -> client_async_resume s = resume pull_emit pull_fin s.
Proof. intros E. unfold client_async_resume, bindM, get_async, gets. cbn [res_bind fst snd]. rewrite E. apply pull_resume_eq. Qed.

Lemma resume_idle s : a_state (async (conn s)) = CONN_IDLE -> client_async_resume s = Ret (0, s).
Proof. intros E. unfold client_async_resume, bindM, get_async, gets. cbn [res_bind fst snd]. by rewrite E. Qed.

Lemma pull_out_step c ids s0 o x x' : pull_step x x' -> pull_out c ids s0 o x -> pull_out c ids s0 o x'.
Proof.
  intros Hx (Hx1 & Hx2 & Hx3). destruct (pull_step_rest _ _ Hx) as (Hy1 & Hy2 & _).
  split; [by transitivity x|]. split; [congruence|]. by eapply building_pull_step.
Qed.

Lemma handle_pull_spec (junk : Z -> list Z) c ids post s :
  (forall k, 0 <= k -> zlen (junk k) = k) -> fits c -> holds (db s) c ->
  zlen ids <= GRAVELDB_WIRE_MAX_BATCH -> Forall is_u64 ids -> arena_room PULL_ROOM s ->
  exists rc s1,
    handle_pull junk (pull_request_body ids ++ post) (zlen (pull_request_body ids)) s = Ret (tt, s1) /\
    moved_on c ids CONN_ASYNC_PULL (pull_out c ids s) (pull_done c ids s) 0 rc s1.
Proof.
  intros Hj Hf Hh Hn Hids Hr. pose proof (zlen_nonneg ids) as Hpos. unfold handle_pull.
  rewrite (bindM_ret _ _ _ _ _ (pull_request_spec ids post s Hn)). unfold PULL_ROOM, GRAVELDB_WIRE_MAX_BATCH in *.
  destruct (alloc_here (2 ^ 49) (zlen ids * 8) s) as (p & s1 & E1 & O1 & _ & R1); [lia|lia|eapply roomy_le; [exact Hr|lia]|].
  rewrite (bindM_ret _ _ _ _ _ E1). unfold pull_request_body. rewrite <- app_assoc.
  unfold lift at 1. replace (Z.to_nat (zlen ids)) with (length ids) by (unfold zlen; lia).
  rewrite (parse_ids_spec (bytes_u32 (zlen ids)) ids post 4) by (auto; by rewrite zlen_bytes_u32).
  unfold bindM at 1. cbn [res_bind fst snd].
  destruct (alloc_scratch_spec junk (2 ^ 49 - 2 ^ 20) s1 Hj) as (bufs & dims & s2 & E2 & O2 & _ & R2 & Hb1 & Hb2 & Hd); [lia|eapply roomy_le; [exact R1|unfold SCRATCH_ROOM; lia]|].
  rewrite (bindM_ret _ _ _ _ _ E2).
  destruct (begin_spec (ENTRY_ROOM * zlen ids + 39) GRAVELDB_WIRE_OK s2) as (s3 & E3 & O3 & B3);
    [unfold ENTRY_ROOM; lia|eapply roomy_le; [exact R2|unfold ENTRY_ROOM, SEND_CHUNK_SIZE, SEND_CHUNK_INLINE; lia]|].
  rewrite (bindM_ret _ _ _ _ _ E3).
  destruct (append_building (ENTRY_ROOM * zlen ids) (wire_header GRAVELDB_WIRE_OK 0) (bytes_u32 (zlen ids)) s3) as (s4 & E4 & O4 & B4);
    [unfold ENTRY_ROOM; lia|done|eapply building_le; [exact B3|]; rewrite zlen_wire_header, zlen_bytes_u32; unfold GRAVELDB_WIRE_HEADER_SIZE; lia|].
  rewrite (bindM_ret _ _ _ _ _ E4). unfold bindM at 1, get_async at 1, gets. cbn [res_bind fst snd].
  destruct (start_async_spec CONN_ASYNC_PULL ids bufs dims (a_first_frame (async (conn s4))) s4 Hn Hb1 Hd) as (s5 & E5 & Hp5 & Hs5 & Hb5 & Hff).
  rewrite (bindM_ret _ _ _ _ _ E5). unfold bindM at 1, gets. cbn [res_bind fst snd].
  assert (Hos : out_step s s4) by (transitivity s1; [done|]; transitivity s2; [done|]; by transitivity s3).
  assert (Hps : pull_step s4 s5) by (eexists _, _; split; [exact Hs5|done]).
  destruct (out_step_rest _ _ Hos) as [Hr4 Hl4], (out_step_async _ _ Hos) as [_ Hd4], (pull_step_rest _ _ Hps) as (Hr5 & Hl5 & _).
  destruct (start_spec c ids CONN_ASYNC_PULL Hf Hn pull_emit pull_fin (pull_out c ids s) (pull_done c ids s)) with (s := s5)
    as (rc & s6 & E6 & HF).
  - apply pull_out_step.
  - intros. by apply pull_emit_spec.
  - intros. by apply pull_fin_spec.
  - split; [done|]. rewrite Hb5. split; [done|]. rewrite Hs5. cbn. by rewrite Hd4.
  - split; [by transitivity s4|]. split; [congruence|]. rewrite Z.sub_0_r.
    unfold pull_response_body_upto. change (Z.to_nat 0) with O. rewrite take_0. change (entries_bytes c []) with (@nil Z). rewrite app_nil_r.
    by eapply building_pull_step.
  - exists rc, s6. split; [|done]. unfold get_async, gets. cbn [res_bind fst snd]. unfold bindM. rewrite pull_submit_eq, E6. done.
Qed.

(** ** Streaming pull *)

Definition stream_emit (_ : Z) : H unit := stream_build_frame.
Definition stream_fin : H unit :=
  do* stream_send_terminator in upd_async (fun a => async_with_state a CONN_IDLE).

Lemma stream_submit_eq fuel s : stream_submit_next_chunk fuel s = submit_next stream_emit stream_fin fuel s.
Proof.
  revert s. induction fuel as [|fuel IH]; intros s; [done|]. cbn [stream_submit_next_chunk submit_next].
  unfold stream_fin, stream_emit, bindM, get_async, gets. cbn [res_bind fst snd].
  destruct (_ <=? _); [by destruct (stream_send_terminator s) as [[]| |]|].
  destruct (submit_chunk _ s) as [[? s1]| |]; cbn [res_bind fst snd]; [|done..].
  destruct (poll_chunk s1) as [[rc s2]| |]; cbn [res_bind fst snd]; [|done..].
  destruct (decide (rc = GRAVELDB_AGAIN)); [done|].
  destruct (stream_build_frame s2) as [[? s3]| |]; cbn [res_bind fst snd]; [|done..]. cbn. apply IH.
Qed.

Lemma stream_resume_eq s : stream_resume s = resume stream_emit stream_fin s.
Proof.
  unfold stream_resume, resume, stream_emit, bindM, get_async, gets.
  destruct (poll_chunk s) as [[rc s1]| |]; cbn [res_bind fst snd]; [|done..].
  destruct (decide (rc = GRAVELDB_AGAIN)); [done|].
  destruct (stream_build_frame s1) as [[? s2]| |]; cbn [res_bind fst snd]; [|done..]. apply stream_submit_eq.
Qed.

Lemma resume_stream s : a_state (async (conn s)) = CONN_ASYNC_STREAM -> client_async_resume s = resume stream_emit stream_fin s.
Proof. intros E. unfold client_async_resume, bindM, get_async, gets. cbn [res_bind fst snd]. rewrite E. apply stream_resume_eq. Qed.

Lemma frame_entries_spec c fids (a : ConnAsyncCtx (T := T)) : fits c -> forall k,
  (forall j fid, fids !! j = Some fid -> answers_at c a (k + j) fid) ->
  frame_entries a (seqZ (Z.of_nat k) (zlen fids)) = Ret (entries_bytes c fids).
Proof.
  intros Hf. induction fids as [|f fids IH]; intros k Ha; [done|].
  assert (Hl : zlen (f :: fids) = Z.succ (zlen fids)) by (unfold zlen; cbn; lia). rewrite Hl. pose proof (zlen_nonneg fids).
  rewrite seqZ_cons by lia. rewrite Z.pred_succ. cbn [frame_entries].
  pose proof (Ha 0%nat f eq_refl) as Ha0. rewrite Nat.add_0_r in Ha0. pose proof Ha0 as (Hd & _).
  rewrite (rd_lookup _ _ _ Hd). cbn [res_bind]. rewrite (u32_dim _ _ Hf).
  assert (Hb : (if 0 <? dim_of c f then let! b := rd (a_chunk_bufs a) (Z.of_nat k) in let! b := deref b in copy_from b 0 (dim_of c f * 4) else Ret [])
               = Ret (drop 4 (entry_bytes c f))).
  { unfold entry_bytes, dim_of. destruct (c f) as [[dim x]|] eqn:E; [|done]. apply Hf in E as Hdim.
    destruct (Z.ltb_spec 0 dim); [by rewrite (answer_bytes c a k f dim x Hf Ha0 E)|]. assert (dim = 0) as -> by lia. done. }
  rewrite Hb. cbn [res_bind]. replace (Z.succ (Z.of_nat k)) with (Z.of_nat (S k)) by lia.
  rewrite IH by (intros j fid Hj; specialize (Ha (S j) fid Hj); by rewrite Nat.add_succ_r in Ha). cbn [res_bind].
  change (entries_bytes c (f :: fids)) with (entry_bytes c f ++ entries_bytes c fids). rewrite app_assoc. do 2 f_equal.
  unfold entry_bytes, dim_of. destruct (c f) as [[dim x]|]; [|done]. done.
Qed.

Lemma payload_size_spec c fids dims : fits c -> forall k n, 0 <= n -> n + zlen (entries_bytes c fids) < 2 ^ 40 ->
  (forall j fid, fids !! j = Some fid -> dims !! (k + j)%nat = Some (dim_of c fid)) ->
  payload_size dims n (seqZ (Z.of_nat k) (zlen fids)) = Ret (n + zlen (entries_bytes c fids)).
Proof.
  intros Hf. induction fids as [|f fids IH]; intros k n Hn Hz Ha.
  { change (Ret n = Ret (n + 0)). f_equal. lia. }
  assert (Hl : zlen (f :: fids) = Z.succ (zlen fids)) by (unfold zlen; cbn; lia). rewrite Hl. pose proof (zlen_nonneg fids).
  rewrite seqZ_cons by lia. rewrite Z.pred_succ. cbn [payload_size].
  pose proof (Ha 0%nat f eq_refl) as Hd. rewrite Nat.add_0_r in Hd. rewrite (rd_lookup _ _ _ Hd). cbn [res_bind].
  change (entries_bytes c (f :: fids)) with (entry_bytes c f ++ entries_bytes c fids) in *. rewrite zlen_app in *.
  assert (He : zlen (entry_bytes c f) = 4 + 4 * dim_of c f /\ 0 <= dim_of c f <= PULL_MAX_DIM).
  { unfold entry_bytes, dim_of. destruct (c f) as [[dim x]|] eqn:E; [|done]. apply Hf in E. rewrite zlen_app, zlen_bytes_u32.
    unfold zlen in *. rewrite length_take. lia. }
  pose proof (zlen_nonneg (entries_bytes c fids)). unfold PULL_MAX_DIM in *.
  unfold u64. rewrite (Z.mod_small (dim_of c f)) by lia. rewrite Z.mod_small by lia.
  replace (Z.succ (Z.of_nat k)) with (Z.of_nat (S k)) by lia.
  rewrite IH; [f_equal; lia|lia|lia|]. intros j fid Hj. specialize (Ha (S j) fid Hj). by rewrite Nat.add_succ_r in Ha.
Qed.

(** A frame with the payload [p], in a chunk of the send list. *)
Definition frame_bytes (p : list Z) : list Z := bytes_u32 (zlen p) ++ p.
Definition new_chunk (e : Z) (d : list Z) (ch : SendChunk) : Prop := ck_data ch = d /\ ck_sent ch = 0 /\ ck_epoch ch = e.
Definition frame_chunk (e : Z) (p : list Z) (ch : SendChunk) : Prop := 0 < zlen p < 2 ^ 32 /\ new_chunk e (frame_bytes p) ch.

Definition FRAME_ROOM : Z := 2 ^ 32.

(** The payloads of the frames for groups of ids: the first one starts with the
    number of all ids. *)
Fixpoint stream_payloads (c : Contents) (total : Z) (first_frame : bool) (groups : list (list Z)) : list (list Z) :=
  match groups with
  | [] => []
  | g :: gs => ((if first_frame then bytes_u32 total else []) ++ entries_bytes c g) :: stream_payloads c total false gs
  end.

Lemma stream_payloads_snoc c total ff groups g : stream_payloads c total ff (groups ++ [g]) =
  stream_payloads c total ff groups ++ [(if ff && bool_decide (groups = []) then bytes_u32 total else []) ++ entries_bytes c g].
Proof.
  revert ff. induction groups as [|g' gs IH]; intros ff.
  - cbn. rewrite andb_true_r. done.
  - cbn [app stream_payloads]. rewrite IH. by rewrite andb_false_r.
Qed.

(** The groups of [o] ids. *)
Definition grouped (ids : list Z) (o : Z) (groups : list (list Z)) : Prop :=
  concat groups = take (Z.to_nat o) ids /\ Forall (fun g => g <> []) groups.

Lemma grouped_first ids o groups : 0 <= o <= zlen ids -> grouped ids o groups -> bool_decide (groups = []) = (o =? 0).
Proof.
  intros Ho [Hc Hg]. destruct groups as [|g gs]; cbn in Hc.
  - rewrite bool_decide_true by done. symmetry. apply Z.eqb_eq. apply (f_equal length) in Hc. rewrite length_take in Hc. unfold zlen in *. cbn in Hc. lia.
  - rewrite bool_decide_false by done. symmetry. apply Z.eqb_neq. intros ->. apply Forall_cons in Hg as [Hg _]. by destruct g.
Qed.

(** The header of the stream and frames with [o] entries are in the send list. *)
Definition stream_out (c : Contents) (ids : list Z) s0 (o : Z) s : Prop :=
  same_rest s0 s /\ send_cur (conn s) = send_cur (conn s0) /\ a_first_frame (async (conn s)) = (o =? 0) /\
  arena_room (FRAME_ROOM * (zlen ids - o) + FRAME_ROOM) s /\
  exists hd groups chs, send_list (conn s) = send_list (conn s0) ++ hd :: chs /\
    new_chunk (epoch (carena (conn s0))) (wire_header GRAVELDB_WIRE_OK GRAVELDB_WIRE_STREAM_SENTINEL) hd /\
    Forall2 (frame_chunk (epoch (carena (conn s0)))) (stream_payloads c (zlen ids) true groups) chs /\ grouped ids o groups.

(** The payload of the frame at [o]. *)
Definition stream_payload (c : Contents) (ids : list Z) (o : Z) : list Z :=
  (if o =? 0 then bytes_u32 (zlen ids) else []) ++ entries_bytes c (chunk_ids ids o).

Lemma zlen_stream_payload c ids o : fits c -> 0 <= o < zlen ids -> 4 <= zlen (stream_payload c ids o) < 2 ^ 20.
Proof.
  intros Hf Ho. unfold stream_payload. rewrite zlen_app.
  assert (Hcz : zlen (chunk_ids ids o) = chunk_size ids o) by (unfold zlen; rewrite chunk_ids_len by lia; unfold chunk_size, PULL_CHUNK_SIZE; lia).
  pose proof (chunk_size_bounds ids o Ho) as [Hm _].
  assert (Hlow : 4 <= zlen (entries_bytes c (chunk_ids ids o))).
  { destruct (chunk_ids ids o) as [|f l] eqn:E; [unfold zlen in Hcz; cbn in Hcz; lia|].
    change (entries_bytes c (f :: l)) with (entry_bytes c f ++ entries_bytes c l). rewrite zlen_app.
    pose proof (zlen_entry_bytes c f Hf). pose proof (zlen_nonneg (entries_bytes c l)). lia. }
  pose proof (zlen_entries_bytes c (chunk_ids ids o) Hf) as Hup. rewrite Hcz in Hup. unfold PULL_MAX_DIM, PULL_CHUNK_SIZE in *.
  assert (zlen (if o =? 0 then bytes_u32 (zlen ids) else []) <= 4) by (destruct (o =? 0); [by rewrite zlen_bytes_u32|unfold zlen; cbn; lia]).
  pose proof (zlen_nonneg (if o =? 0 then bytes_u32 (zlen ids) else [])). lia.
Qed.

(** One frame is built. *)
Lemma build_frame_spec c ids n o s : fits c -> zlen ids <= GRAVELDB_WIRE_MAX_BATCH -> 0 <= n ->
  landed c ids CONN_ASYNC_STREAM o s -> a_first_frame (async (conn s)) = (o =? 0) -> arena_room (n + FRAME_ROOM) s ->
  exists s' ch, stream_build_frame s = Ret (tt, s') /\ same_rest s s' /\ send_cur (conn s') = send_cur (conn s) /\
    send_list (conn s') = send_list (conn s) ++ [ch] /\ frame_chunk (epoch (carena (conn s))) (stream_payload c ids o) ch /\
    async (conn s') = async_with_first (async (conn s)) false /\ db s' = db s /\ arena_room n s'.
Proof.
  intros Hf Hn Hn0 ((Hp & Hfull & Hh) & Hlt & Hcn & Hans) Hff Hr. unfold FRAME_ROOM in *.
  assert (Ho : 0 <= o < zlen ids) by (destruct Hp; lia).
  pose proof (zlen_stream_payload c ids o Hf Ho) as Hz.
  assert (Hcz : zlen (chunk_ids ids o) = chunk_size ids o) by (unfold zlen; rewrite chunk_ids_len by lia; unfold chunk_size, PULL_CHUNK_SIZE; lia).
  unfold stream_build_frame. unfold bindM at 1, get_async, gets. cbn [res_bind fst snd].
  rewrite (bindM_ret _ _ _ _ _ (valid_here _ _ (pl_epoch _ _ _ _ Hp))). rewrite Hff, Hcn, <- Hcz.
  assert (Hps : payload_size (a_chunk_dims (async (conn s))) (if o =? 0 then 4 else 0) (seqZ (Z.of_nat 0) (zlen (chunk_ids ids o))) = Ret (zlen (stream_payload c ids o))).
  { rewrite (payload_size_spec c (chunk_ids ids o)); [|done|by destruct (o =? 0)| |].
    - unfold stream_payload. rewrite zlen_app. by destruct (o =? 0).
    - unfold stream_payload in Hz. rewrite zlen_app in Hz. pose proof (zlen_bytes_u32 (zlen ids)). destruct (o =? 0); unfold zlen in *; cbn in *; lia.
    - intros j fid Hj. apply Hans, Hj. }
  change (Z.of_nat 0) with 0 in Hps. unfold lift at 1. rewrite Hps. unfold bindM at 1. cbn [res_bind fst snd].
  set (P := zlen (stream_payload c ids o)) in *. unfold u64. rewrite (Z.mod_small (4 + P)) by lia.
  destruct (chunk_new_spec (n + 2 ^ 31) s) as (s1 & E1 & O1 & C1 & R1); [lia|eapply roomy_le; [exact Hr|unfold SEND_CHUNK_SIZE, SEND_CHUNK_INLINE; lia]|].
  rewrite (bindM_ret _ _ _ _ _ E1). cbn [ck_cap ck_epoch].
  assert (Hcap : exists s2 cap, (if SEND_CHUNK_INLINE <? 4 + P then let* p := on_arena (arena_alloc (4 + P)) in ret (match p with Some _ => Some (4 + P) | None => None end)
                   else ret (Some SEND_CHUNK_INLINE)) s1 = Ret (Some cap, s2) /\ out_step s1 s2 /\ send_cur (conn s2) = send_cur (conn s1) /\ arena_room n s2 /\ 4 + P <= cap).
  { destruct (Z.ltb_spec SEND_CHUNK_INLINE (4 + P)).
    - destruct (alloc_here n (4 + P) s1) as (p & s2 & E2 & O2 & C2 & R2); [lia|done|eapply roomy_le; [exact R1|lia]|].
      exists s2, (4 + P). rewrite (bindM_ret _ _ _ _ _ E2). split; [done|]. split; [done|]. split; [done|]. split; [done|lia].
    - exists s1, SEND_CHUNK_INLINE. split; [done|]. split; [reflexivity|]. split; [done|]. split; [eapply roomy_le; [exact R1|lia]|lia]. }
  destruct Hcap as (s2 & cap & E2 & O2 & C2 & R2 & Hcap). rewrite (bindM_ret _ _ _ _ _ E2).
  assert (Hos : out_step s s2) by by transitivity s1.
  destruct (out_step_rest _ _ Hos) as [Hrest Hl], (out_step_async _ _ Hos) as [Ha Hd].
  assert (Hfirst : exists s3, when (o =? 0) (upd_async (fun a => async_with_first a false)) s2 = Ret (tt, s3) /\ same_rest s2 s3 /\ send_cur (conn s3) = send_cur (conn s2) /\
            send_list (conn s3) = send_list (conn s2) /\ async (conn s3) = async_with_first (async (conn s)) false /\ db s3 = db s2 /\ arena_room n s3).
  { destruct (o =? 0) eqn:Eo; cbn [when].
    - eexists. split; [reflexivity|]. split; [by constructor|]. split; [done|]. split; [done|]. cbn [conn set_conn async set_async]. rewrite Ha. by split.
    - exists s2. split; [done|]. split; [reflexivity|]. split; [done|]. split; [done|]. split; [|by split]. rewrite Ha.
      destruct (async (conn s)); cbn in *. by rewrite Hff. }
  destruct Hfirst as (s3 & E3 & Hr3 & Hc3 & Hl3 & Ha3 & Hd3 & R3). rewrite (bindM_ret _ _ _ _ _ E3).
  unfold lift. assert (Hfe := frame_entries_spec c (chunk_ids ids o) (async (conn s)) Hf 0 Hans). change (Z.of_nat 0) with 0 in Hfe.
  rewrite Hfe. unfold bindM. cbn [res_bind fst snd].
  rewrite (pl_count _ _ _ _ Hp). unfold u32. rewrite Z.mod_small by lia.
  assert (Hdata : bytes_u32 P ++ (if o =? 0 then bytes_u32 (zlen ids) else []) ++ entries_bytes c (chunk_ids ids o) = frame_bytes (stream_payload c ids o)) by done.
  rewrite Hdata. assert (Hzf : zlen (frame_bytes (stream_payload c ids o)) = 4 + P) by (unfold frame_bytes; by rewrite zlen_app, zlen_bytes_u32).
  rewrite Hzf. zdec. eexists _, _. split; [reflexivity|]. cbn.
  split; [transitivity s2; [done|]; transitivity s3; [done|by constructor]|]. split; [congruence|]. split; [by rewrite Hl3, Hl|].
  split; [split; [lia|by repeat split]|]. split; [exact Ha3|]. split; [congruence|exact R3].
Qed.

(** The stream: a header without length, a frame for each group of ids, and an empty
    frame. For no ids there is no frame, and so not even the count. *)
Definition stream_of (c : Contents) (ids : list Z) (groups : list (list Z)) (d : list Z) : Prop :=
  Forall (fun p => 0 < zlen p < 2 ^ 32) (stream_payloads c (zlen ids) true groups) /\
  concat groups = ids /\ Forall (fun g => g <> []) groups /\
  d = wire_header GRAVELDB_WIRE_OK GRAVELDB_WIRE_STREAM_SENTINEL ++
      concat (frame_bytes <$> stream_payloads c (zlen ids) true groups) ++ bytes_u32 0.

(** The payloads put together are the body of the response to a pull. *)
Lemma stream_payloads_concat c total ff groups : concat (stream_payloads c total ff groups) =
  (if ff && negb (bool_decide (groups = [])) then bytes_u32 total else []) ++ entries_bytes c (concat groups).
Proof.
  revert ff. induction groups as [|g gs IH]; intros ff.
  - cbn. by rewrite andb_false_r.
  - cbn [stream_payloads concat]. rewrite IH. cbn [andb]. rewrite entries_bytes_app. rewrite bool_decide_false by done.
    cbn [negb]. rewrite andb_true_r. by rewrite <- app_assoc.
Qed.

(** New chunks with the bytes [d] were added to the send list. *)
Definition sent_new s0 s (d : list Z) : Prop :=
  exists chs, send_list (conn s) = send_list (conn s0) ++ chs /\ concat (ck_data <$> chs) = d /\
    Forall (fun ch => ck_sent ch = 0 /\ ck_epoch ch = epoch (carena (conn s0)) /\ ck_data ch <> []) chs.

Definition stream_done (c : Contents) (ids : list Z) s0 s : Prop :=
  same_rest s0 s /\ send_cur (conn s) = send_cur (conn s0) /\ (exists groups d, stream_of c ids groups d /\ sent_new s0 s d) /\
  a_state (async (conn s)) = CONN_IDLE /\ holds (db s) c.

Lemma stream_emit_spec c ids s0 o s : fits c -> zlen ids <= GRAVELDB_WIRE_MAX_BATCH ->
  landed c ids CONN_ASYNC_STREAM o s -> stream_out c ids s0 o s ->
  exists s', stream_emit (chunk_size ids o) s = Ret (tt, s') /\ stream_out c ids s0 (o + chunk_size ids o) s' /\
    ready c ids CONN_ASYNC_STREAM o s' /\ a_chunk_n (async (conn s')) = chunk_size ids o.
Proof.
  intros Hf Hn Hland (Hrest & Hc & Hff & Hr & hd & gs & chs & Hl & Hhd & Hps & Hgr).
  pose proof Hland as ((Hp & Hfull & Hh) & Hlt & Hcn & _).
  assert (Ho : 0 <= o < zlen ids) by (destruct Hp; lia). destruct (chunk_size_bounds ids o Ho) as [Hm Hm'].
  destruct (build_frame_spec c ids (FRAME_ROOM * (zlen ids - (o + chunk_size ids o)) + FRAME_ROOM) o s) as (s' & ch & E & Hr' & Hc' & Hl' & Hch & Ha & Hd & R');
    [done|done|unfold FRAME_ROOM; lia|done|done|eapply roomy_le; [exact Hr|unfold FRAME_ROOM; lia]|].
  exists s'. split; [exact E|]. assert (He : epoch (carena (conn s)) = epoch (carena (conn s0))) by apply Hrest. rewrite He in Hch.
  assert (Hne : (o + chunk_size ids o =? 0) = false) by (apply Z.eqb_neq; lia).
  split; [|split; [|by rewrite Ha]].
  - split; [by transitivity s|]. split; [congruence|]. split; [by rewrite Ha, Hne|]. split; [done|].
    exists hd, (gs ++ [chunk_ids ids o]), (chs ++ [ch]). split; [by rewrite Hl', Hl, <- app_assoc|]. split; [done|]. split.
    + rewrite stream_payloads_snoc, (grouped_first ids o) by (auto; lia). cbn [andb].
      apply Forall2_app; [done|]. by repeat constructor; apply Hch.
    + destruct Hgr as [Hg1 Hg2]. split; [rewrite concat_app, Hg1, take_chunk by lia; cbn; by rewrite app_nil_r|].
      apply Forall_app. split; [done|]. constructor; [|constructor]. intros E0. apply (f_equal length) in E0.
      rewrite chunk_ids_len in E0 by lia. cbn in E0. lia.
  - split; [|rewrite Ha, Hd; by split]. destruct Hp. constructor; rewrite ?Ha; cbn -[PULL_CHUNK_SIZE]; auto. rewrite pl_epoch0. symmetry. apply Hr'.
Qed.

Lemma frame_chunks_data e ps chs : Forall2 (frame_chunk e) ps chs -> concat (ck_data <$> chs) = concat (frame_bytes <$> ps).
Proof. induction 1 as [|p ch ps chs (_ & Hd & _) _ IH]; [done|]. cbn [fmap list_fmap concat]. by rewrite Hd, IH. Qed.

Lemma stream_fin_spec c ids s0 s : ready c ids CONN_ASYNC_STREAM (zlen ids) s -> stream_out c ids s0 (zlen ids) s ->
  exists s', stream_fin s = Ret (tt, s') /\ stream_done c ids s0 s'.
Proof.
  intros (Hp & Hfull & Hh) (Hrest & Hc & Hff & Hr & hd & gs & chs & Hl & Hhd & Hps & Hgr).
  assert (He : epoch (carena (conn s)) = epoch (carena (conn s0))) by apply Hrest.
  destruct (chunk_new_spec 0 s) as (s1 & E1 & O1 & C1 & R1); [done|eapply roomy_le; [exact Hr|unfold FRAME_ROOM, SEND_CHUNK_SIZE, SEND_CHUNK_INLINE; lia]|].
  destruct (out_step_rest _ _ O1) as [Hr1 Hl1], (out_step_async _ _ O1) as [Ha1 Hd1].
  unfold stream_fin, stream_send_terminator. unfold bindM at 1. rewrite (bindM_ret _ _ _ _ _ E1). cbn [ck_cap ck_epoch].
  eexists. split; [reflexivity|]. split; [transitivity s; [done|]; transitivity s1; [done|by constructor]|]. split; [cbn; congruence|].
  split; [|split; [done|cbn; by rewrite Hd1]].
  destruct Hgr as [Hg1 Hg2]. exists gs. eexists. split; [split; [|split; [|split; [done|reflexivity]]]|].
  - clear -Hps. induction Hps as [|p ch ps chs [Hz _] _ IH]; auto.
  - rewrite Hg1. unfold zlen. by rewrite Nat2Z.id, firstn_all.
  - exists (hd :: chs ++ [mkSendChunk (bytes_u32 0) SEND_CHUNK_INLINE 0 (epoch (carena (conn s)))]).
    split; [cbn; by rewrite Hl1, Hl, <- app_assoc|]. destruct Hhd as (Hh1 & Hh2 & Hh3). split.
    + cbn [fmap list_fmap concat]. rewrite Hh1, fmap_app, concat_app, (frame_chunks_data _ _ _ Hps). cbn [fmap list_fmap concat ck_data]. by rewrite app_nil_r.
    + constructor; [by rewrite Hh1|]. apply Forall_app. split; [|by repeat constructor].
      clear -Hps. induction Hps as [|p ch ps chs (_ & Hd & Hs & He) _ IH]; constructor; auto. by rewrite Hd.
Qed.

Lemma stream_out_step c ids s0 o x x' : pull_step x x' -> stream_out c ids s0 o x -> stream_out c ids s0 o x'.
Proof.
  intros Hx (Hx1 & Hx2 & Hx3 & Hx4 & Hx5). destruct (pull_step_rest _ _ Hx) as (Hy1 & Hy2 & Hy3 & Hy4 & Hy5).
  split; [by transitivity x|]. split; [congruence|]. destruct Hx as (d & a & -> & Hfa). split; [cbn; congruence|]. by split.
Qed.

Lemma handle_pull_stream_spec (junk : Z -> list Z) c ids post s :
  (forall k, 0 <= k -> zlen (junk k) = k) -> fits c -> holds (db s) c ->
  zlen ids <= GRAVELDB_WIRE_MAX_BATCH -> Forall is_u64 ids -> arena_room PULL_ROOM s ->
  exists rc s1,
    handle_pull_stream junk (pull_request_body ids ++ post) (zlen (pull_request_body ids)) s = Ret (tt, s1) /\
    moved_on c ids CONN_ASYNC_STREAM (stream_out c ids s) (stream_done c ids s) 0 rc s1.
Proof.
  intros Hj Hf Hh Hn Hids Hr. pose proof (zlen_nonneg ids) as Hpos. unfold handle_pull_stream.
  rewrite (bindM_ret _ _ _ _ _ (pull_request_spec ids post s Hn)). unfold PULL_ROOM, GRAVELDB_WIRE_MAX_BATCH in *.
  destruct (alloc_here (2 ^ 49) (zlen ids * 8) s) as (p & s1 & E1 & O1 & C1 & R1); [lia|lia|eapply roomy_le; [exact Hr|lia]|].
  rewrite (bindM_ret _ _ _ _ _ E1). unfold pull_request_body. rewrite <- app_assoc.
  unfold lift at 1. replace (Z.to_nat (zlen ids)) with (length ids) by (unfold zlen; lia).
  rewrite (parse_ids_spec (bytes_u32 (zlen ids)) ids post 4) by (auto; by rewrite zlen_bytes_u32).
  unfold bindM at 1. cbn [res_bind fst snd].
  destruct (chunk_new_spec (2 ^ 49 - 2 ^ 20) s1) as (s2 & E2 & O2 & C2 & R2); [lia|eapply roomy_le; [exact R1|unfold SEND_CHUNK_SIZE, SEND_CHUNK_INLINE; lia]|].
  rewrite (bindM_ret _ _ _ _ _ E2). cbn [ck_cap ck_epoch]. unfold bindM at 1, enqueue, upd_conn, modify. cbn [res_bind fst snd].
  set (s3 := set_conn s2 _).
  destruct (alloc_scratch_spec junk (2 ^ 49 - 2 ^ 21) s3 Hj) as (bufs & dims & s4 & E4 & O4 & C4 & R4 & Hb1 & Hb2 & Hd); [lia|eapply roomy_le; [exact R2|unfold SCRATCH_ROOM; lia]|].
  rewrite (bindM_ret _ _ _ _ _ E4).
  destruct (start_async_spec CONN_ASYNC_STREAM ids bufs dims true s4 Hn Hb1 Hd) as (s5 & E5 & Hp5 & Hs5 & Hb5 & Hff).
  rewrite (bindM_ret _ _ _ _ _ E5). unfold bindM at 1, get_async, gets. cbn [res_bind fst snd].
  assert (Hos : out_step s s2) by by transitivity s1.
  destruct (out_step_rest _ _ Hos) as [Hr2 Hl2], (out_step_async _ _ Hos) as [_ Hd2], (out_step_rest _ _ O4) as [Hr4 Hl4], (out_step_async _ _ O4) as [_ Hd4].
  assert (Hrest : same_rest s s5).
  { transitivity s2; [done|]. transitivity s3; [by constructor|]. transitivity s4; [done|]. rewrite Hs5. by constructor. }
  destruct (start_spec c ids CONN_ASYNC_STREAM Hf Hn stream_emit stream_fin (stream_out c ids s) (stream_done c ids s)) with (s := s5)
    as (rc & s6 & E6 & HF).
  - apply stream_out_step.
  - intros. by apply stream_emit_spec.
  - intros. by apply stream_fin_spec.
  - split; [done|]. rewrite Hb5. split; [done|]. rewrite Hs5. cbn. rewrite Hd4. cbn. by rewrite Hd2.
  - split; [done|]. split; [rewrite Hs5; cbn; rewrite C4; cbn; congruence|]. split; [done|].
    split; [rewrite Hs5; eapply roomy_le; [exact R4|unfold FRAME_ROOM; lia]|].
    eexists _, [], []. split; [rewrite Hs5; cbn; rewrite Hl4; cbn; rewrite Hl2; reflexivity|]. split; [|split; [done|by split]].
    repeat split. cbn. by destruct (out_step_rest _ _ O1) as [[] _].
  - exists rc, s6. split; [|done]. unfold bindM. rewrite stream_submit_eq, E6. done.
Qed.

(** *** Resuming until the response is complete *)

Lemma same_rest_rebuf r s0 s : same_rest s0 s -> same_rest (rebuf r s0) (rebuf r s).
Proof. intros []. constructor; cbn; congruence. Qed.

Lemma finish_pull c ids rc r s0 s : fits c -> zlen ids <= GRAVELDB_WIRE_MAX_BATCH ->
  moved_on c ids CONN_ASYNC_PULL (pull_out c ids s0) (pull_done c ids s0) 0 rc s ->
  exists fuel s', drive client_async_resume fuel (rebuf r s) = Ret (tt, s') /\ pull_done c ids (rebuf r s0) s'.
Proof.
  intros Hf Hn Hm.
  apply (drive_moved c ids CONN_ASYNC_PULL Hf Hn pull_emit pull_fin (pull_out c ids (rebuf r s0)) (pull_done c ids (rebuf r s0))) with (o := 0) (rc := rc).
  - apply pull_out_step.
  - intros. by apply pull_emit_spec.
  - intros. by apply pull_fin_spec.
  - apply resume_pull.
  - destruct Hm as [(-> & (Hr & Hc & Hch) & Hi & Hh)|(-> & o & n & Ho & Hfl & Hr & Hl & Hb)].
    + left. split; [done|]. split; [|done]. split; [by apply same_rest_rebuf|done].
    + right. split; [done|]. exists o, n. split; [done|]. split; [by apply in_flight_rebuf|]. split; [by apply same_rest_rebuf|done].
  - intros x (_ & Hi & _). by apply resume_idle.
Qed.

Lemma finish_stream c ids rc r s0 s : fits c -> zlen ids <= GRAVELDB_WIRE_MAX_BATCH ->
  moved_on c ids CONN_ASYNC_STREAM (stream_out c ids s0) (stream_done c ids s0) 0 rc s ->
  exists fuel s', drive client_async_resume fuel (rebuf r s) = Ret (tt, s') /\ stream_done c ids (rebuf r s0) s'.
Proof.
  intros Hf Hn Hm.
  apply (drive_moved c ids CONN_ASYNC_STREAM Hf Hn stream_emit stream_fin (stream_out c ids (rebuf r s0)) (stream_done c ids (rebuf r s0))) with (o := 0) (rc := rc).
  - apply stream_out_step.
  - intros. by apply stream_emit_spec.
  - intros. by apply stream_fin_spec.
  - apply resume_stream.
  - destruct Hm as [(-> & Hr & Hc & Hs & Hi & Hh)|(-> & o & n & Ho & Hfl & Hr & Hrest)].
    + left. split; [done|]. split; [by apply same_rest_rebuf|]. by repeat split.
    + right. split; [done|]. exists o, n. split; [done|]. split; [by apply in_flight_rebuf|]. split; [by apply same_rest_rebuf|done].
  - intros x (_ & _ & _ & Hi & _). by apply resume_idle.
Qed.
End drive.
