(* ===== verification/Client.v ===== *)
(** Client: the client library, example/client/client.c.

    A client owns one end of a connection ([Sock]) and two buffers. The operations
    are computations on it; they return what the C functions return, 0 or a count
    on success and -1 on failure, with the caller's output arrays. A pointer
    argument that may be [NULL] is an option. *)

From S2P Require Import Prelude Wire Protocol Engine Server.

(** ** Data *)

(** Of the send buffer only the capacity is kept between calls; the receive buffer
    holds the bytes of the last response. [grants]: whether the next calls of
    [realloc] succeed; a missing answer is a success. *)
Record GravelDBClient : Type := mkClient {
  cl_sock : Sock;
  send_cap : Z;
  cl_recv_buf : option (list Z);
  cl_recv_cap : Z;
  pending : Z;
  grants : list bool
}.

#[local] Abbreviation K A := (M GravelDBClient A).

Definition set_cl_sock (c : GravelDBClient) (s : Sock) : GravelDBClient :=
  mkClient s (send_cap c) (cl_recv_buf c) (cl_recv_cap c) (pending c) (grants c).
Definition set_send_cap (c : GravelDBClient) (n : Z) : GravelDBClient :=
  mkClient (cl_sock c) n (cl_recv_buf c) (cl_recv_cap c) (pending c) (grants c).
Definition set_cl_recv (c : GravelDBClient) (b : option (list Z)) (n : Z) : GravelDBClient :=
  mkClient (cl_sock c) (send_cap c) b n (pending c) (grants c).
Definition set_pending (c : GravelDBClient) (n : Z) : GravelDBClient :=
  mkClient (cl_sock c) (send_cap c) (cl_recv_buf c) (cl_recv_cap c) n (grants c).

Definition on_wire {A} (m : M Sock A) : K A := fun c =>
  let! '(a, s) := m (cl_sock c) in Ret (a, set_cl_sock c s).
Definition realloc : K bool := fun c =>
  match grants c with
  | [] => Ret (true, c)
  | g :: gs => Ret (g, mkClient (cl_sock c) (send_cap c) (cl_recv_buf c) (cl_recv_cap c) (pending c) gs)
  end.
Definition upd_pending (d : Z) : K unit := modify (fun c => set_pending c (i32 (pending c + d))).

(** The body of an output array element, as in [GetOut]. *)
Record PullOut : Type := mkPullOut { po_embs : option (list (option (list Z))); po_dims : option (list Z) }.

(** ** Sending and receiving everything *)

(** A write that takes nothing is repeated when [errno] is [EINTR]. *)
Fixpoint send_rounds (fuel : nat) (b : list Z) : M Sock Z :=
  match fuel with
  | O => fun _ => Diverge
  | S fuel =>
    match b with
    | [] => ret 0
    | _ =>
      let* wr := sock_write b in
      if wr <=? 0 then
        let* e := gets errno in
        if decide (e = EINTR) then send_rounds fuel b else ret (-1)
      else send_rounds fuel (drop (Z.to_nat wr) b)
    end
  end.

(** A round either consumes an answer of the system or sends everything. *)
Definition send_all (b : list Z) : M Sock Z := fun s => send_rounds (S (S (length (replies s)))) b s.

(** The bytes received so far are [acc]. *)
Fixpoint recv_rounds (fuel : nat) (len : Z) (acc : list Z) : M Sock (Z * list Z) :=
  match fuel with
  | O => fun _ => Diverge
  | S fuel =>
    if len <=? 0 then ret (0, acc)
    else
      let* '(rd, b) := sock_read len in
      if rd <=? 0 then
        let* e := gets errno in
        if decide (e = EINTR) then recv_rounds fuel len acc else ret (-1, acc)
      else recv_rounds fuel (len - rd) (acc ++ b)
  end.

Definition recv_all (len : Z) : M Sock (Z * list Z) := fun s => recv_rounds (S (S (length (replies s)))) len [] s.

(** ** Requests and responses *)

(** [body]: the [body_len] bytes of the body. *)
Definition send_request (type : Z) (body : list Z) : K Z :=
  let* r := on_wire (send_all (wire_header type (zlen body))) in
  if r <? 0 then ret (-1)
  else if 0 <? zlen body then
    let* r := on_wire (send_all body) in
    ret (if r <? 0 then -1 else 0)
  else ret 0.

(** The buffer grows to [n] bytes; false when [realloc] fails, which loses it. *)
Definition grow_recv_buf (n : Z) : K bool :=
  let* c := gets (fun c => c) in
  if cl_recv_cap c <? n then
    let* ok := realloc in
    do* modify (fun c => set_cl_recv c (if ok then Some [] else None) n) in
    ret ok
  else ret true.

(** [recv_all] into the receive buffer; [NULL] is refused by the system. *)
Definition recv_into_buf (n : Z) : K Z :=
  let* b := gets cl_recv_buf in
  match b with
  | None => ret (-1)
  | Some _ =>
    let* '(r, d) := on_wire (recv_all n) in
    do* modify (fun c => set_cl_recv c (Some d) (cl_recv_cap c)) in
    ret r
  end.

(** The status and the body; [None] when the call returns -1. *)
Definition recv_response : K (option (Z * option (list Z))) :=
  let* '(r, h) := on_wire (recv_all GRAVELDB_WIRE_HEADER_SIZE) in
  if r <? 0 then ret None
  else
    let* magic := lift (read_u32 h 0) in
    if negb (magic =? GRAVELDB_WIRE_MAGIC) then ret None
    else
      let* status := lift (read_u32 h 4) in
      let* body_len := lift (read_u32 h 8) in
      if 0 <? body_len then
        let* ok := grow_recv_buf body_len in
        if negb ok then ret None
        else
          let* r := recv_into_buf body_len in
          if r <? 0 then ret None
          else let* b := gets cl_recv_buf in ret (Some (status, b))
      else ret (Some (status, None)).

(** The send buffer grows to [n] bytes; false when [realloc] fails. *)
Definition grow_send_buf (n : Z) : K bool :=
  let* c := gets (fun c => c) in
  if send_cap c <? n then
    do* modify (fun c => set_send_cap c n) in
    realloc
  else ret true.

(** The body [count][ids] in the send buffer. Its length [4 + n * 8] is computed as
    an [int]; a buffer that could not grow is [NULL], which [checked] callers
    notice. [None]: the caller returns -1. *)
Definition ids_body (ids : list Z) : list Z := bytes_u32 (zlen ids) ++ concat (bytes_u64 <$> ids).
Definition ids_request (checked : bool) (ids : list Z) : K (option (list Z)) :=
  if 2 ^ 31 <=? 4 + zlen ids * 8 then fun _ => Ub
  else
    let* ok := grow_send_buf (4 + zlen ids * 8) in
    if (ok : bool) then ret (Some (ids_body ids))
    else if checked then ret None else fun _ => Ub.

(** ** Pull *)

(** The entries of a response, from entry [i] at [ptr] on. [limit]: the size of the
    caller's arrays, where the code looks at it. *)
Fixpoint parse_pull (fuel : nat) (body : list Z) (limit : option Z) (count i ptr : Z) (o : PullOut) : res PullOut :=
  match fuel with
  | O => Diverge
  | S fuel =>
    if (i <? count) && (match limit with Some n => i32 i <? n | None => true end) && (ptr <? zlen body) then
      let! dim := read_u32 body ptr in
      let ptr := ptr + 4 in
      let! dims := match po_dims o with Some l => let! l := wr l i (i32 dim) in Ret (Some l) | None => Ret None end in
      let! slot := if 0 <? dim then match po_embs o with Some l => rd l i | None => Ret None end else Ret None in
      match po_embs o, slot with
      | Some l, Some b =>
        let bytes := dim * 4 in
        let! l := if ptr + bytes <=? zlen body then
                    let! src := copy_from body ptr bytes in
                    let! b := copy_out b src in
                    wr l i (Some b)
                  else Ret l in
        parse_pull fuel body limit count (i + 1) (ptr + bytes) (mkPullOut (Some l) dims)
      | e, _ => parse_pull fuel body limit count (i + 1) ptr (mkPullOut e dims)
      end
    else Ret o
  end.

(** An entry has at least four bytes. *)
Definition parse_response (body : list Z) (limit : option Z) (o : PullOut) : res PullOut :=
  let! count := read_u32 body 0 in
  parse_pull (S (length body)) body limit count 0 4 o.

Definition graveldb_client_pull (ids : list Z) (o : PullOut) : K (Z * PullOut) :=
  let* body := ids_request false ids in
  match body with
  | None => ret (-1, o)
  | Some body =>
    let* r := send_request GRAVELDB_MSG_PULL body in
    if r <? 0 then ret (-1, o)
    else
      let* resp := recv_response in
      match resp with
      | None => ret (-1, o)
      | Some (status, b) =>
        if negb (status =? GRAVELDB_WIRE_OK) then ret (-1, o)
        else
          match b with
          | None => ret (-1, o)
          | Some b =>
            if zlen b <? 4 then ret (-1, o)
            else let* o := lift (parse_response b None o) in ret (0, o)
          end
      end
  end.

Definition graveldb_client_pull_send (ids : list Z) : K Z :=
  let* body := ids_request true ids in
  match body with
  | None => ret (-1)
  | Some body =>
    let* r := send_request GRAVELDB_MSG_PULL body in
    if r <? 0 then ret (-1) else do* upd_pending 1 in ret 0
  end.

Definition graveldb_client_pull_recv (o : PullOut) (n : Z) : K (Z * PullOut) :=
  let* resp := recv_response in
  match resp with
  | None => ret (-1, o)
  | Some (status, b) =>
    if negb (status =? GRAVELDB_WIRE_OK) then do* upd_pending (-1) in ret (-1, o)
    else
      match b with
      | None => do* upd_pending (-1) in ret (-1, o)
      | Some b =>
        if zlen b <? 4 then do* upd_pending (-1) in ret (-1, o)
        else
          let* o := lift (parse_response b (Some n) o) in
          do* upd_pending (-1) in ret (0, o)
      end
  end.

(** *** Streaming pull *)

(** The entries of a frame, from entry [i] at [ptr] on. *)
Fixpoint parse_frame (fuel : nat) (body : list Z) (n i ptr : Z) (o : PullOut) : res (Z * PullOut) :=
  match fuel with
  | O => Diverge
  | S fuel =>
    if (ptr <? zlen body) && (i32 i <? n) then
      let! dim := read_u32 body ptr in
      let ptr := ptr + 4 in
      let! dims := match po_dims o with Some l => let! l := wr l i (i32 dim) in Ret (Some l) | None => Ret None end in
      let! slot := if 0 <? dim then match po_embs o with Some l => rd l i | None => Ret None end else Ret None in
      let! embs :=
        match po_embs o, slot with
        | Some l, Some b =>
          if ptr + dim * 4 <=? zlen body then
            let! src := copy_from body ptr (dim * 4) in
            let! b := copy_out b src in
            let! l := wr l i (Some b) in
            Ret (Some l)
          else Ret (Some l)
        | e, _ => Ret e
        end in
      parse_frame fuel body n (i + 1) (ptr + dim * 4) (mkPullOut embs dims)
    else Ret (i, o)
  end.

(** Frames are read until an empty one. Each takes four bytes of what arrives. *)
Fixpoint recv_frames (fuel : nat) (n : Z) (first_frame : bool) (i : Z) (o : PullOut) : K (Z * PullOut) :=
  match fuel with
  | O => fun _ => Diverge
  | S fuel =>
    let* '(r, l) := on_wire (recv_all 4) in
    if r <? 0 then ret (-1, o)
    else
      let* frame_len := lift (read_u32 l 0) in
      if frame_len =? 0 then ret (0, o)
      else
        let* ok := grow_recv_buf frame_len in
        if negb ok then ret (-1, o)
        else
          let* r := recv_into_buf frame_len in
          if r <? 0 then ret (-1, o)
          else
            let* b := gets cl_recv_buf in
            let* b := lift (deref b) in
            if first_frame && (frame_len <? 4) then ret (-1, o)
            else
              let* '(i, o) := lift (parse_frame (S (length b)) b n i (if first_frame then 4 else 0) o) in
              recv_frames fuel n false i o
  end.

(** A response that is not a stream. *)
Definition recv_plain (resp_len n : Z) (o : PullOut) : K (Z * PullOut) :=
  let* ok := grow_recv_buf resp_len in
  if negb ok then ret (-1, o)
  else
    let* r := if 0 <? resp_len then recv_into_buf resp_len else ret 0 in
    if r <? 0 then ret (-1, o)
    else if resp_len <? 4 then ret (-1, o)
    else
      let* b := gets cl_recv_buf in
      let* b := lift (deref b) in
      let* o := lift (parse_response b (Some n) o) in
      ret (0, o).

Definition graveldb_client_pull_stream (ids : list Z) (o : PullOut) : K (Z * PullOut) :=
  let* body := ids_request true ids in
  match body with
  | None => ret (-1, o)
  | Some body =>
    let* r := send_request GRAVELDB_MSG_PULL_STREAM body in
    if r <? 0 then ret (-1, o)
    else
      let* '(r, h) := on_wire (recv_all GRAVELDB_WIRE_HEADER_SIZE) in
      if r <? 0 then ret (-1, o)
      else
        let* magic := lift (read_u32 h 0) in
        if negb (magic =? GRAVELDB_WIRE_MAGIC) then ret (-1, o)
        else
          let* status := lift (read_u32 h 4) in
          if negb (status =? GRAVELDB_WIRE_OK) then ret (-1, o)
          else
            let* sentinel := lift (read_u32 h 8) in
            if negb (sentinel =? GRAVELDB_WIRE_STREAM_SENTINEL) then recv_plain sentinel (zlen ids) o
            else
              let* k := gets (fun c => length (inbox (cl_sock c))) in
              recv_frames (S k) (zlen ids) true 0 o
  end.

(** ** Push *)

(** The entries of a push: feature, dimension and embedding, of which the first
    [dims[i]] floats are copied. A negative dimension becomes a huge length. *)
Fixpoint push_entries (l : list (Z * Z * list Z)) : res (list Z) :=
  match l with
  | [] => Ret []
  | (fid, dim, emb) :: l =>
    let! e := copy_from emb 0 (u64 (dim * 4)) in
    let! rest := push_entries l in
    Ret (bytes_u64 fid ++ bytes_u32 (u32 dim) ++ e ++ rest)
  end.

Definition push_size (l : list (Z * Z * list Z)) : Z :=
  foldl (fun n '(_, dim, _) => u64 (n + 12 + u64 (dim * 4))) 4 l.

(** The body; [None] when the buffer cannot grow. What does not fit into the
    buffer is written past its end. *)
Definition push_serialize (l : list (Z * Z * list Z)) : K (option (list Z)) :=
  let* ok := grow_send_buf (push_size l) in
  if negb ok then ret None
  else
    let* es := lift (push_entries l) in
    let b := bytes_u32 (u32 (zlen l)) ++ es in
    let* cap := gets send_cap in
    if cap <? zlen b then fun _ => Ub else ret (Some (take (Z.to_nat (push_size l)) b)).

(** The length goes into a [uint32_t]. *)
Definition send_push (b : list Z) : K Z := send_request GRAVELDB_MSG_PUSH (take (Z.to_nat (u32 (zlen b))) b).

Definition status_of (resp : option (Z * option (list Z))) : Z :=
  match resp with Some (status, _) => if status =? GRAVELDB_WIRE_OK then 0 else -1 | None => -1 end.

Definition graveldb_client_push (l : list (Z * Z * list Z)) : K Z :=
  let* b := push_serialize l in
  match b with
  | None => ret (-1)
  | Some b =>
    let* r := send_push b in
    if r <? 0 then ret (-1)
    else let* resp := recv_response in ret (status_of resp)
  end.

Definition graveldb_client_push_async (l : list (Z * Z * list Z)) : K Z :=
  let* b := push_serialize l in
  match b with
  | None => ret (-1)
  | Some b =>
    let* r := send_push b in
    if r <? 0 then ret (-1) else do* upd_pending 1 in ret 0
  end.

(** ** Waiting for responses *)

(** One response less is pending after each round. *)
Fixpoint await_rounds (fuel : nat) (max_drain drained errors : Z) : K Z :=
  match fuel with
  | O => fun _ => Diverge
  | S fuel =>
    let* n := gets pending in
    if (drained <? max_drain) && (0 <? n) then
      let* resp := recv_response in
      match resp with
      | None => ret (-1)
      | Some (status, _) =>
        do* upd_pending (-1) in
        await_rounds fuel max_drain (drained + 1) (if status =? GRAVELDB_WIRE_OK then errors else errors + 1)
      end
    else ret errors
  end.

Definition graveldb_client_await (max_drain : Z) : K Z :=
  let* n := gets pending in
  await_rounds (S (Z.to_nat n)) (if max_drain <=? 0 then n else max_drain) 0 0.

Definition graveldb_client_pending : K Z := gets pending.

(** ** Other requests *)

Definition graveldb_client_delete (ids : list Z) : K Z :=
  let* body := ids_request false ids in
  match body with
  | None => ret (-1)
  | Some body =>
    let* r := send_request GRAVELDB_MSG_DELETE body in
    if r <? 0 then ret (-1)
    else let* resp := recv_response in ret (status_of resp)
  end.

(** A request without body whose response is a status. *)
Definition simple_request (type : Z) : K Z :=
  let* r := send_request type [] in
  if r <? 0 then ret (-1)
  else let* resp := recv_response in ret (status_of resp).

Definition graveldb_client_flush : K Z := simple_request GRAVELDB_MSG_FLUSH.
Definition graveldb_client_checkpoint : K Z := simple_request GRAVELDB_MSG_CHECKPOINT.
Definition graveldb_client_ping : K Z := simple_request GRAVELDB_MSG_PING.

(** [sizeof(GravelDBClientStats)]: seven counters and two floats. *)
Definition CLIENT_STATS_SIZE : Z := 64.

(** The bytes of the statistics. *)
Definition graveldb_client_stats : K (option (list Z)) :=
  let* r := send_request GRAVELDB_MSG_STATS [] in
  if r <? 0 then ret None
  else
    let* resp := recv_response in
    match resp with
    | None => ret None
    | Some (status, b) =>
      let len := match b with Some b => zlen b | None => 0 end in
      if negb (status =? GRAVELDB_WIRE_OK) || (len <? CLIENT_STATS_SIZE) then ret None
      else let* s := lift (let! b := deref b in copy_from b 0 CLIENT_STATS_SIZE) in ret (Some s)
    end.

(** ** Connecting *)

(** [sfd]: whether [socket] succeeds; [resolved]: whether the address of the host is
    found; [connected]: the connection. The two buffers are not checked. *)
Definition graveldb_client_connect (ok sfd resolved : bool) (connected : option Sock) (ok_recv : bool) : option GravelDBClient :=
  if negb ok then None
  else if negb sfd then None
  else if negb resolved then None
  else
    match connected with
    | None => None
    | Some s => Some (mkClient s (1024 * 1024) (if ok_recv then Some [] else None) (1024 * 1024) 0 [])
    end.

(** The connection that is closed, if there is one; the buffers are released with it. *)
Definition graveldb_client_close (c : option GravelDBClient) : option Sock := cl_sock <$> c.
