(* ===== verification/ClientProps.v ===== *)
(** ClientProps: the client sends and receives whole messages, and reads the
    entries of a response into the caller's arrays. *)

From S2P Require Import Prelude Wire Protocol Arena IoPoller Engine Server StoreSpec ServerSend ServerPull Client.

(** ** Whole messages *)

(** Answers that a blocking socket gives while the connection stands. *)
Definition benign (r : reply) : Prop := match r with Done n => 0 < n | Refused e => e = EINTR end.

Definition sock_ok (s : Sock) : Prop := Forall benign (replies s).

Lemma sock_ok_tail i o r e e' rs : sock_ok (mkSock i o (r :: rs) e) -> forall i' o', sock_ok (mkSock i' o' rs e').
Proof. intros H i' o'. by apply Forall_cons in H as [_ H]. Qed.

Lemma send_rounds_spec fuel b s : sock_ok s -> (length (replies s) + 1 < fuel)%nat ->
  exists s', send_rounds fuel b s = Ret (0, s') /\ outbox s' = outbox s ++ b /\ inbox s' = inbox s /\ sock_ok s'.
Proof.
  revert b s. induction fuel as [|fuel IH]; intros b s Hok Hf; [lia|].
  destruct b as [|x b]; [exists s; rewrite app_nil_r; done|]. cbn [send_rounds].
  set (B := x :: b). assert (Hb : (0 < length B)%nat) by (unfold B; cbn; lia).
  clearbody B.
  destruct s as [i o r e]. destruct r as [|[k|e'] r].
  - unfold bindM at 1, sock_write, next_reply, bindM, modify, ret. cbn [res_bind fst snd replies inbox outbox errno]. rewrite firstn_all.
    unfold zlen. zdec. rewrite Nat2Z.id, drop_all. destruct fuel as [|fuel]; [cbn in Hf; lia|].
    eexists. split; [reflexivity|]. done.
  - assert (Hk : 0 < k) by (by apply Forall_cons in Hok as [? _]).
    unfold bindM at 1, sock_write, next_reply, bindM, modify, ret. cbn [res_bind fst snd replies inbox outbox errno].
    unfold zlen. rewrite length_take. zdec. rewrite Nat2Z.id.
    destruct (IH (drop (Z.to_nat k `min` length B) B) (mkSock i (o ++ take (Z.to_nat k) B) r e)) as (s' & E & Ho & Hi & Hs); [by eapply sock_ok_tail|cbn in *; lia|].
    exists s'. split; [exact E|]. split; [|done]. rewrite Ho. cbn [outbox]. rewrite <- app_assoc. f_equal.
    destruct (decide (Z.to_nat k <= length B)%nat).
    + by rewrite Nat.min_l, take_drop by lia.
    + rewrite Nat.min_r by lia. by rewrite take_ge, drop_all, app_nil_r by lia.
  - assert (e' = EINTR) as -> by (by apply Forall_cons in Hok as [? _]).
    unfold bindM at 1, sock_write, next_reply, fails, bindM, modify, gets, ret. cbn [res_bind fst snd replies inbox outbox errno].
    change (-1 <=? 0) with true. cbv beta iota. cbn [errno]. rewrite decide_True by done.
    destruct (IH B (mkSock i o r EINTR)) as (s' & E & Ho & Hi & Hs); [by eapply sock_ok_tail|cbn in *; lia|]. by exists s'.
Qed.

Lemma send_all_spec b s : sock_ok s ->
  exists s', send_all b s = Ret (0, s') /\ outbox s' = outbox s ++ b /\ inbox s' = inbox s /\ sock_ok s'.
Proof. intros H. apply send_rounds_spec; [done|lia]. Qed.

Lemma recv_rounds_spec fuel b rest acc s : sock_ok s -> inbox s = b ++ rest -> (length (replies s) + 1 < fuel)%nat ->
  exists s', recv_rounds fuel (zlen b) acc s = Ret (0, acc ++ b, s') /\ inbox s' = rest /\ outbox s' = outbox s /\ sock_ok s'.
Proof.
  revert b acc s. induction fuel as [|fuel IH]; intros b acc s Hok Hin Hf; [lia|]. cbn [recv_rounds].
  destruct (Z.leb_spec (zlen b) 0) as [Hz|Hz].
  { assert (b = []) as -> by (destruct b; [done|unfold zlen in Hz; cbn in Hz; lia]). exists s. rewrite app_nil_r. done. }
  unfold zlen in Hz. destruct s as [i o r e]. cbn in Hin. subst i. destruct r as [|[k|e'] r].
  - unfold bindM at 1, sock_read, next_reply, bindM, modify, gets, ret. cbn [res_bind fst snd replies inbox outbox errno].
    unfold zlen. rewrite !Nat2Z.id, !take_app_length. cbn [fst snd]. rewrite drop_app_length. zdec. rewrite Z.sub_diag.
    destruct fuel as [|fuel]; [cbn in Hf; lia|]. eexists. split; [reflexivity|]. done.
  - assert (Hk : 0 < k) by (by apply Forall_cons in Hok as [? _]).
    unfold bindM at 1, sock_read, next_reply, bindM, modify, gets, ret. cbn [res_bind fst snd replies inbox outbox errno].
    set (j := Z.to_nat (k `min` zlen b)). assert (Hj : (0 < j <= length b)%nat) by (unfold zlen in *; lia).
    rewrite !take_app_le, !drop_app_le by lia. unfold zlen. rewrite length_take. replace (j `min` length b)%nat with j by lia. zdec.
    replace (Z.of_nat (length b) - Z.of_nat j) with (zlen (drop j b)) by (unfold zlen; rewrite length_drop; lia).
    destruct (IH (drop j b) (acc ++ take j b) (mkSock (drop j b ++ rest) o r e)) as (s' & E & Hi & Ho & Hs); [by eapply sock_ok_tail|done|cbn in *; lia|].
    exists s'. split; [|done]. rewrite E. by rewrite <- app_assoc, take_drop.
  - assert (e' = EINTR) as -> by (by apply Forall_cons in Hok as [? _]).
    unfold bindM at 1, sock_read, next_reply, fails, bindM, modify, gets, ret. cbn [res_bind fst snd replies inbox outbox errno].
    change (-1 <=? 0) with true. cbv beta iota. cbn [errno]. rewrite decide_True by done.
    destruct (IH b acc (mkSock (b ++ rest) o r EINTR)) as (s' & E & Hi & Ho & Hs); [by eapply sock_ok_tail|done|cbn in *; lia|]. by exists s'.
Qed.

Lemma recv_all_spec n b rest s : sock_ok s -> inbox s = b ++ rest -> n = zlen b ->
  exists s', recv_all n s = Ret (0, b, s') /\ inbox s' = rest /\ outbox s' = outbox s /\ sock_ok s'.
Proof. intros H1 H2 ->. apply (recv_rounds_spec _ b rest []); [done|done|lia]. Qed.

(** ** Requests and responses *)

(** A client that can work: nothing refuses memory, and a receive buffer. *)
Definition client_ok (c : GravelDBClient) : Prop := sock_ok (cl_sock c) /\ grants c = [] /\ is_Some (cl_recv_buf c).

Lemma on_wire_ret {A} (m : M Sock A) c a s : m (cl_sock c) = Ret (a, s) -> on_wire m c = Ret (a, set_cl_sock c s).
Proof. intros E. unfold on_wire. by rewrite E. Qed.

Lemma send_request_spec t body c : client_ok c ->
  exists c', send_request t body c = Ret (0, c') /\ client_ok c' /\ pending c' = pending c /\
    outbox (cl_sock c') = outbox (cl_sock c) ++ wire_header t (zlen body) ++ body /\ inbox (cl_sock c') = inbox (cl_sock c).
Proof.
  intros (Hs & Hg & Hb). unfold send_request.
  destruct (send_all_spec (wire_header t (zlen body)) _ Hs) as (s1 & E1 & Ho1 & Hi1 & Hs1).
  rewrite (bindM_ret _ _ _ _ _ (on_wire_ret _ _ _ _ E1)). change (0 <? 0) with false. cbv iota.
  destruct (Z.ltb_spec 0 (zlen body)) as [Hz|Hz].
  - destruct (send_all_spec body s1 Hs1) as (s2 & E2 & Ho2 & Hi2 & Hs2).
    rewrite (bindM_ret _ _ _ _ _ (on_wire_ret _ (set_cl_sock c s1) _ _ E2)). eexists. split; [reflexivity|]. split; [by repeat split|].
    split; [done|]. cbn [cl_sock set_cl_sock]. rewrite Ho2, Ho1, <- app_assoc. split; [done|congruence].
  - assert (body = []) as -> by (destruct body; [done|unfold zlen in Hz; cbn in Hz; lia]).
    eexists. split; [reflexivity|]. split; [by repeat split|]. split; [done|]. cbn [cl_sock set_cl_sock]. by rewrite app_nil_r.
Qed.

Lemma read_header st n : 0 <= st < 2 ^ 32 -> 0 <= n < 2 ^ 32 ->
  read_u32 (wire_header st n) 0 = Ret GRAVELDB_WIRE_MAGIC /\ read_u32 (wire_header st n) 4 = Ret st /\ read_u32 (wire_header st n) 8 = Ret n.
Proof.
  intros Hst Hn. unfold wire_header. split; [by apply read_u32_front|]. split.
  - by apply (read_u32_app (bytes_u32 GRAVELDB_WIRE_MAGIC) st (bytes_u32 n)).
  - rewrite <- (app_nil_r (bytes_u32 n)), app_assoc. by apply (read_u32_app (bytes_u32 GRAVELDB_WIRE_MAGIC ++ bytes_u32 st) n []).
Qed.

Lemma grow_recv_buf_spec n c : client_ok c -> exists c', grow_recv_buf n c = Ret (true, c') /\ client_ok c' /\
  pending c' = pending c /\ cl_sock c' = cl_sock c.
Proof.
  intros (Hs & Hg & Hb). unfold grow_recv_buf, bindM, gets. cbn [res_bind fst snd]. destruct (_ <? n).
  - unfold realloc. rewrite Hg. cbn [res_bind fst snd]. eexists. split; [reflexivity|]. split; [|done]. split; [done|]. split; [done|]. by eexists.
  - exists c. by repeat split.
Qed.

Lemma recv_into_buf_spec n b rest c : client_ok c -> inbox (cl_sock c) = b ++ rest -> n = zlen b ->
  exists c', recv_into_buf n c = Ret (0, c') /\ client_ok c' /\ pending c' = pending c /\ cl_recv_buf c' = Some b /\
    inbox (cl_sock c') = rest /\ outbox (cl_sock c') = outbox (cl_sock c).
Proof.
  intros (Hs & Hg & [x Hb]) Hi ->. unfold recv_into_buf, bindM, gets. cbn [res_bind fst snd]. rewrite Hb.
  destruct (recv_all_spec _ b rest (cl_sock c) Hs Hi eq_refl) as (s & E & Hi' & Ho' & Hs').
  rewrite (on_wire_ret _ _ _ _ E). cbn [res_bind fst snd]. eexists. split; [reflexivity|].
  split; [split; [done|]; split; [done|]; by eexists|]. done.
Qed.

Lemma recv_response_spec st body rest c : client_ok c -> 0 <= st < 2 ^ 32 -> zlen body < 2 ^ 32 ->
  inbox (cl_sock c) = wire_header st (zlen body) ++ body ++ rest ->
  exists c', recv_response c = Ret (Some (st, if 0 <? zlen body then Some body else None), c') /\ client_ok c' /\ pending c' = pending c /\
    inbox (cl_sock c') = rest /\ outbox (cl_sock c') = outbox (cl_sock c).
Proof.
  intros Hc Hst Hz Hi. pose proof (zlen_nonneg body). unfold recv_response.
  destruct (recv_all_spec GRAVELDB_WIRE_HEADER_SIZE (wire_header st (zlen body)) (body ++ rest) (cl_sock c)) as (s1 & E1 & Hi1 & Ho1 & Hs1);
    [apply Hc|done|by rewrite zlen_wire_header|].
  rewrite (bindM_ret _ _ _ _ _ (on_wire_ret _ _ _ _ E1)). change (0 <? 0) with false. cbv iota.
  destruct (read_header st (zlen body)) as (R1 & R2 & R3); [done|lia|]. unfold lift. rewrite R1, R2, R3.
  unfold bindM at 1 2 3. cbn [res_bind fst snd]. rewrite Z.eqb_refl. cbn [negb].
  assert (Hc1 : client_ok (set_cl_sock c s1)) by (split; [done|]; apply Hc).
  destruct (Z.ltb_spec 0 (zlen body)) as [Hp|Hp].
  - destruct (grow_recv_buf_spec (zlen body) _ Hc1) as (c2 & E2 & Hc2 & Hp2 & Hs2). rewrite (bindM_ret _ _ _ _ _ E2). cbn [negb].
    destruct (recv_into_buf_spec (zlen body) body rest c2 Hc2) as (c3 & E3 & Hc3 & Hp3 & Hb3 & Hi3 & Ho3); [by rewrite Hs2|done|].
    rewrite (bindM_ret _ _ _ _ _ E3). change (0 <? 0) with false. cbv iota. unfold bindM, gets. cbn [res_bind fst snd]. rewrite Hb3.
    eexists. split; [reflexivity|]. split; [done|]. split; [by rewrite Hp3, Hp2|]. split; [done|]. rewrite Ho3, Hs2. exact Ho1.
  - assert (body = []) as -> by (destruct body; [done|unfold zlen in *; cbn in *; lia]).
    eexists. split; [reflexivity|]. split; [done|]. split; [done|]. by split.
Qed.

(** ** The entries of a response *)

(** What the caller finds in the buffer of a feature. *)
Definition client_answer (c : Contents) (fid : Z) (b : option (list Z)) : option (list Z) :=
  match b, c fid with
  | Some b, Some (d, x) => Some (take (Z.to_nat (4 * d)) x ++ drop (Z.to_nat (4 * d)) b)
  | _, _ => b
  end.

(** A feature with an embedding needs a buffer with room for it. *)
Definition client_room (c : Contents) (fid : Z) (b : option (list Z)) : Prop :=
  forall d x, c fid = Some (d, x) -> 0 < d -> exists y, b = Some y /\ 4 * d <= zlen y.

Lemma i32_small v : 0 <= v < 2 ^ 31 -> i32 v = v.
Proof. intros. unfold i32. rewrite Z.mod_small; lia. Qed.

(** One entry in the middle of a body. *)
Lemma read_entry_dim c fid pre post off : fits c -> off = zlen pre -> read_u32 (pre ++ entry_bytes c fid ++ post) off = Ret (dim_of c fid).
Proof.
  intros Hf ->. unfold entry_bytes, dim_of. destruct (c fid) as [[d x]|] eqn:E.
  - apply Hf in E. unfold PULL_MAX_DIM in *. rewrite <- app_assoc. apply read_u32_app; [done|lia].
  - by apply read_u32_app.
Qed.

Lemma read_entry_emb c fid d x pre post off : fits c -> c fid = Some (d, x) -> off = zlen pre + 4 ->
  copy_from (pre ++ entry_bytes c fid ++ post) off (d * 4) = Ret (take (Z.to_nat (4 * d)) x).
Proof.
  intros Hf E ->. unfold entry_bytes. rewrite E. apply Hf in E.
  rewrite <- app_assoc, (app_assoc pre). apply copy_from_app; [by rewrite zlen_app, zlen_bytes_u32|].
  unfold zlen in *. rewrite length_take. lia.
Qed.

Lemma zlen_entry_dim c fid : fits c -> zlen (entry_bytes c fid) = 4 + 4 * dim_of c fid /\ 0 <= dim_of c fid <= PULL_MAX_DIM.
Proof.
  intros Hf. unfold entry_bytes, dim_of. destruct (c fid) as [[d x]|] eqn:E; [|done]. apply Hf in E. rewrite zlen_app, zlen_bytes_u32.
  unfold zlen in *. rewrite length_take. lia.
Qed.

(** The step that both loops over entries make: the entry at the front of [todo] is
    stored behind [D] and [A]. *)
Section parse.
Variables (c : Contents) (Hf : fits c).

Lemma copy_emb fid y : client_room c fid y -> 0 < dim_of c fid ->
  exists b b', y = Some b /\ copy_out b (take (Z.to_nat (4 * dim_of c fid)) (match c fid with Some (_, x) => x | None => [] end)) = Ret b' /\
    client_answer c fid y = Some b'.
Proof.
  intros Hr Hp. unfold client_answer, dim_of in *. destruct (c fid) as [[d x]|] eqn:E; [|lia].
  destruct (Hr d x E Hp) as (b & -> & Hz). apply Hf in E. exists b. eexists. split; [done|].
  assert (Hl : length (take (Z.to_nat (4 * d)) x) = Z.to_nat (4 * d)) by (unfold zlen in *; rewrite length_take; lia).
  split; [unfold copy_out; rewrite (proj2 (Z.ltb_ge _ _)) by (unfold zlen in *; lia); reflexivity|]. by rewrite Hl.
Qed.

Lemma client_answer_zero fid y : dim_of c fid = 0 -> client_answer c fid y = y.
Proof.
  unfold client_answer, dim_of. intros H. destruct y as [y|]; [|done]. destruct (c fid) as [[d x]|]; [|done]. subst d. done.
Qed.

Lemma parse_pull_spec todo : forall fuel pre (D dims : list Z) (A embs : list (option (list Z))) count limit,
  (length todo < fuel)%nat -> length dims = length todo -> length embs = length todo ->
  count = zlen D + zlen todo -> count < 2 ^ 31 -> length A = length D ->
  (match limit with Some n => count <= n < 2 ^ 31 | None => True end) ->
  Forall2 (client_room c) todo embs ->
  parse_pull fuel (pre ++ entries_bytes c todo) limit count (zlen D) (zlen pre) (mkPullOut (Some (A ++ embs)) (Some (D ++ dims))) =
  Ret (mkPullOut (Some (A ++ zip_with (client_answer c) todo embs)) (Some (D ++ (dim_of c <$> todo)))).
Proof.
  induction todo as [|f todo IH]; intros fuel pre D dims A embs count limit Hfu Hd He Hc Hc31 HA Hlim Hroom.
  { destruct dims, embs; try done. destruct fuel as [|fuel]; [cbn in Hfu; lia|]. cbn [parse_pull].
    unfold zlen in Hc at 2. cbn in Hc. rewrite (proj2 (Z.ltb_ge (zlen D) count)) by lia. done. }
  destruct dims as [|d0 dims]; [done|]. destruct embs as [|y embs]; [done|]. destruct fuel as [|fuel]; [cbn in Hfu; lia|].
  apply Forall2_cons in Hroom as [Hy Hroom]. assert (Ht : zlen (f :: todo) = 1 + zlen todo) by (unfold zlen; cbn; lia). rewrite Ht in Hc.
  pose proof (zlen_nonneg D). pose proof (zlen_nonneg todo). pose proof (zlen_nonneg pre).
  change (entries_bytes c (f :: todo)) with (entry_bytes c f ++ entries_bytes c todo).
  destruct (zlen_entry_dim c f Hf) as [Hel Hdim]. pose proof (zlen_nonneg (entries_bytes c todo)). unfold PULL_MAX_DIM in Hdim.
  set (rest := entries_bytes c todo) in *. set (body := pre ++ entry_bytes c f ++ rest) in *.
  assert (Hbz : zlen body = zlen pre + 4 + 4 * dim_of c f + zlen rest) by (subst body; rewrite !zlen_app; lia).
  cbn [parse_pull]. rewrite (proj2 (Z.ltb_lt (zlen D) count)) by lia. rewrite (proj2 (Z.ltb_lt (zlen pre) (zlen body))) by lia.
  assert (Hl : match limit with Some n => i32 (zlen D) <? n | None => true end = true).
  { destruct limit as [n|]; [|done]. rewrite i32_small by lia. apply Z.ltb_lt. lia. }
  rewrite Hl. cbn [andb]. rewrite (read_entry_dim c f pre rest) by done. cbn [res_bind po_dims po_embs].
  rewrite wr_mid. cbn [res_bind]. rewrite i32_small by lia.
  assert (Hbody : body = (pre ++ entry_bytes c f) ++ rest) by (subst body; by rewrite app_assoc).
  assert (Hpz : zlen (pre ++ entry_bytes c f) = zlen pre + 4 + dim_of c f * 4) by (rewrite zlen_app; lia).
  assert (HD : zlen (D ++ [dim_of c f]) = zlen D + 1) by (rewrite zlen_app; done).
  assert (Hnext : forall a, parse_pull fuel body limit count (zlen D + 1) (zlen pre + 4 + dim_of c f * 4)
             (mkPullOut (Some (A ++ a :: embs)) (Some (D ++ dim_of c f :: dims))) =
           Ret (mkPullOut (Some (A ++ a :: zip_with (client_answer c) todo embs)) (Some (D ++ dim_of c f :: (dim_of c <$> todo))))).
  { intros a. rewrite <- Hpz, <- HD, Hbody. 
    replace (D ++ dim_of c f :: dims) with ((D ++ [dim_of c f]) ++ dims) by (by rewrite <- app_assoc).
    replace (A ++ a :: embs) with ((A ++ [a]) ++ embs) by (by rewrite <- app_assoc).
    rewrite (IH fuel (pre ++ entry_bytes c f) (D ++ [dim_of c f]) dims (A ++ [a]) embs count limit); try done.
    - by rewrite <- !app_assoc.
    - cbn in Hfu. lia.
    - by injection Hd.
    - by injection He.
    - lia.
    - rewrite !length_app. cbn. lia. }
  assert (HzA : zlen D = zlen A) by (unfold zlen; lia). cbn [zip_with fmap list_fmap].
  destruct (Z.ltb_spec 0 (dim_of c f)) as [Hp|Hp].
  - destruct (copy_emb f y Hy Hp) as (b & b' & -> & Ecp & ->). rewrite HzA, rd_mid. cbn [res_bind].
    rewrite (proj2 (Z.leb_le _ _)) by lia. unfold dim_of in *. destruct (c f) as [[d x]|] eqn:E; [|lia].
    subst body. rewrite (read_entry_emb c f d x pre rest) by done. cbn [res_bind]. rewrite Ecp. cbn [res_bind].
    rewrite wr_mid. cbn [res_bind]. rewrite <- HzA. apply Hnext.
  - assert (Hz0 : dim_of c f = 0) by lia. rewrite client_answer_zero by done. cbn [res_bind].
    replace (zlen pre + 4) with (zlen pre + 4 + dim_of c f * 4) by lia. apply Hnext.
Qed.

Lemma parse_frame_spec n todo : forall fuel pre (D dims dims' : list Z) (A embs embs' : list (option (list Z))),
  (length todo < fuel)%nat -> length dims = length todo -> length embs = length todo ->
  zlen D + zlen todo <= n < 2 ^ 31 -> length A = length D ->
  Forall2 (client_room c) todo embs ->
  parse_frame fuel (pre ++ entries_bytes c todo) n (zlen D) (zlen pre) (mkPullOut (Some (A ++ embs ++ embs')) (Some (D ++ dims ++ dims'))) =
  Ret (zlen D + zlen todo, mkPullOut (Some (A ++ zip_with (client_answer c) todo embs ++ embs')) (Some (D ++ (dim_of c <$> todo) ++ dims'))).
Proof.
  induction todo as [|f todo IH]; intros fuel pre D dims dims' A embs embs' Hfu Hd He Hn HA Hroom.
  { destruct dims, embs; try done. destruct fuel as [|fuel]; [cbn in Hfu; lia|]. cbn [parse_frame].
    change (entries_bytes c []) with (@nil Z). rewrite app_nil_r, Z.ltb_irrefl. cbn [andb]. unfold zlen at 3. cbn. by rewrite Z.add_0_r. }
  destruct dims as [|d0 dims]; [done|]. destruct embs as [|y embs]; [done|]. destruct fuel as [|fuel]; [cbn in Hfu; lia|].
  apply Forall2_cons in Hroom as [Hy Hroom]. assert (Ht : zlen (f :: todo) = 1 + zlen todo) by (unfold zlen; cbn; lia). rewrite Ht in *.
  pose proof (zlen_nonneg D). pose proof (zlen_nonneg todo). pose proof (zlen_nonneg pre).
  change (entries_bytes c (f :: todo)) with (entry_bytes c f ++ entries_bytes c todo).
  destruct (zlen_entry_dim c f Hf) as [Hel Hdim]. pose proof (zlen_nonneg (entries_bytes c todo)). unfold PULL_MAX_DIM in Hdim.
  set (rest := entries_bytes c todo) in *. set (body := pre ++ entry_bytes c f ++ rest) in *.
  assert (Hbz : zlen body = zlen pre + 4 + 4 * dim_of c f + zlen rest) by (subst body; rewrite !zlen_app; lia).
  cbn [parse_frame]. rewrite (proj2 (Z.ltb_lt (zlen pre) (zlen body))) by lia. rewrite i32_small by lia.
  rewrite (proj2 (Z.ltb_lt (zlen D) n)) by lia. cbn [andb].
  rewrite (read_entry_dim c f pre rest) by done. cbn [res_bind po_dims po_embs app]. rewrite wr_mid. cbn [res_bind]. rewrite i32_small by lia.
  assert (Hbody : body = (pre ++ entry_bytes c f) ++ rest) by (subst body; by rewrite app_assoc).
  assert (Hpz : zlen (pre ++ entry_bytes c f) = zlen pre + 4 + dim_of c f * 4) by (rewrite zlen_app; lia).
  assert (HD : zlen (D ++ [dim_of c f]) = zlen D + 1) by (rewrite zlen_app; done).
  assert (Hnext : forall a, parse_frame fuel body n (zlen D + 1) (zlen pre + 4 + dim_of c f * 4)
             (mkPullOut (Some (A ++ a :: embs ++ embs')) (Some (D ++ dim_of c f :: dims ++ dims'))) =
           Ret (zlen D + (1 + zlen todo), mkPullOut (Some (A ++ a :: zip_with (client_answer c) todo embs ++ embs')) (Some (D ++ dim_of c f :: (dim_of c <$> todo) ++ dims')))).
  { intros a. rewrite <- Hpz, <- HD, Hbody.
    replace (D ++ dim_of c f :: dims ++ dims') with ((D ++ [dim_of c f]) ++ dims ++ dims') by (by rewrite <- app_assoc).
    replace (A ++ a :: embs ++ embs') with ((A ++ [a]) ++ embs ++ embs') by (by rewrite <- app_assoc).
    rewrite (IH fuel (pre ++ entry_bytes c f) (D ++ [dim_of c f]) dims dims' (A ++ [a]) embs embs'); try done.
    - rewrite HD, <- !app_assoc. do 2 f_equal. lia.
    - cbn in Hfu. lia.
    - by injection Hd.
    - by injection He.
    - lia.
    - rewrite !length_app. cbn. lia. }
  assert (HzA : zlen D = zlen A) by (unfold zlen; lia). cbn [zip_with fmap list_fmap].
  destruct (Z.ltb_spec 0 (dim_of c f)) as [Hp|Hp].
  - destruct (copy_emb f y Hy Hp) as (b & b' & -> & Ecp & ->). rewrite HzA, rd_mid. cbn [res_bind].
    rewrite (proj2 (Z.leb_le _ _)) by lia. unfold dim_of in *. destruct (c f) as [[d x]|] eqn:E; [|lia].
    subst body. rewrite (read_entry_emb c f d x pre rest) by done. cbn [res_bind]. rewrite Ecp. cbn [res_bind].
    rewrite wr_mid. cbn [res_bind]. rewrite <- HzA. apply Hnext.
  - assert (Hz0 : dim_of c f = 0) by lia. rewrite client_answer_zero by done. cbn [res_bind]. apply Hnext.
Qed.
End parse.

(** ** Frames *)

Lemma app_length_split {A} (l : list A) n m : length l = (n + m)%nat -> exists l1 l2, l = l1 ++ l2 /\ length l1 = n /\ length l2 = m.
Proof. intros. exists (take n l), (drop n l). rewrite take_drop, length_take, length_drop. split; [done|lia]. Qed.

Lemma entries_bytes_long c fids : fits c -> (length fids <= length (entries_bytes c fids))%nat.
Proof.
  intros Hf. induction fids as [|f fids IH]; [done|]. change (entries_bytes c (f :: fids)) with (entry_bytes c f ++ entries_bytes c fids).
  rewrite length_app. pose proof (zlen_entry_bytes c f Hf). unfold zlen in *. cbn. lia.
Qed.

Lemma recv_frames_spec cc total rest groups : fits cc -> forall fuel ff (D dims : list Z) (A embs : list (option (list Z))) c,
  client_ok c -> (length groups < fuel)%nat ->
  Forall (fun p => 0 < zlen p < 2 ^ 32) (stream_payloads cc total ff groups) ->
  inbox (cl_sock c) = concat (frame_bytes <$> stream_payloads cc total ff groups) ++ bytes_u32 0 ++ rest ->
  length dims = length (concat groups) -> length embs = length (concat groups) -> length A = length D ->
  zlen D + zlen (concat groups) < 2 ^ 31 -> Forall2 (client_room cc) (concat groups) embs ->
  exists c', recv_frames fuel (zlen D + zlen (concat groups)) ff (zlen D) (mkPullOut (Some (A ++ embs)) (Some (D ++ dims))) c =
      Ret (0, mkPullOut (Some (A ++ zip_with (client_answer cc) (concat groups) embs)) (Some (D ++ (dim_of cc <$> concat groups))), c') /\
    client_ok c' /\ inbox (cl_sock c') = rest /\ outbox (cl_sock c') = outbox (cl_sock c) /\ pending c' = pending c.
Proof.
  intros Hf. induction groups as [|g gs IH]; intros fuel ff D dims A embs c Hc Hfu Hps Hi Hd He HA Hn Hroom;
    (destruct fuel as [|fuel]; [cbn in Hfu; lia|]); cbn [recv_frames].
  - cbn in Hi. destruct dims, embs; try done.
    destruct (recv_all_spec 4 (bytes_u32 0) rest (cl_sock c)) as (s1 & E1 & Hi1 & Ho1 & Hs1); [apply Hc|done|done|].
    rewrite (bindM_ret _ _ _ _ _ (on_wire_ret _ _ _ _ E1)). change (0 <? 0) with false. cbv iota.
    eexists. split; [reflexivity|]. split; [split; [done|apply Hc]|]. done.
  - cbn [stream_payloads fmap list_fmap concat] in *. apply Forall_cons in Hps as [Hpz Hps].
    set (pre := if ff then bytes_u32 total else []) in *. set (p := pre ++ entries_bytes cc g) in *.
    unfold frame_bytes at 1 in Hi. rewrite <- !app_assoc in Hi.
    destruct (recv_all_spec 4 (bytes_u32 (zlen p)) (p ++ concat (frame_bytes <$> stream_payloads cc total false gs) ++ bytes_u32 0 ++ rest) (cl_sock c))
      as (s1 & E1 & Hi1 & Ho1 & Hs1); [apply Hc|done|by rewrite zlen_bytes_u32|].
    rewrite (bindM_ret _ _ _ _ _ (on_wire_ret _ _ _ _ E1)). change (0 <? 0) with false. cbv iota.
    unfold lift at 1. rewrite <- (app_nil_r (bytes_u32 (zlen p))), read_u32_front by lia. unfold bindM at 1. cbn [res_bind fst snd].
    rewrite (proj2 (Z.eqb_neq _ _)) by lia. assert (Hc1 : client_ok (set_cl_sock c s1)) by (split; [done|apply Hc]).
    destruct (grow_recv_buf_spec (zlen p) _ Hc1) as (c2 & E2 & Hc2 & Hp2 & Hs2). rewrite (bindM_ret _ _ _ _ _ E2). cbn [negb].
    destruct (recv_into_buf_spec (zlen p) p (concat (frame_bytes <$> stream_payloads cc total false gs) ++ bytes_u32 0 ++ rest) c2 Hc2)
      as (c3 & E3 & Hc3 & Hp3 & Hb3 & Hi3 & Ho3); [by rewrite Hs2|done|].
    rewrite (bindM_ret _ _ _ _ _ E3). change (0 <? 0) with false. cbv iota. unfold bindM at 1, gets. cbn [res_bind fst snd]. rewrite Hb3.
    unfold lift at 1. cbn [deref]. unfold bindM at 1. cbn [res_bind fst snd].
    assert (Hpre : zlen pre = if ff then 4 else 0) by (subst pre; destruct ff; [apply zlen_bytes_u32|done]).
    assert (Hshort : ff && (zlen p <? 4) = false).
    { destruct ff; [|done]. apply Z.ltb_ge. subst p. rewrite zlen_app, Hpre. pose proof (zlen_nonneg (entries_bytes cc g)). lia. }
    rewrite Hshort, <- Hpre.
    rewrite length_app in *. rewrite zlen_app in *.
    apply Forall2_app_inv_l in Hroom as (embs1 & embs2 & Hr1 & Hr2 & ->). apply Forall2_length in Hr1 as Hl1.
    destruct (app_length_split dims (length g) (length (concat gs))) as (dims1 & dims2 & -> & Hd1 & Hd2); [lia|].
    pose proof (zlen_nonneg g). pose proof (zlen_nonneg (concat gs)). pose proof (zlen_nonneg D).
    assert (Epf := parse_frame_spec cc Hf (zlen D + (zlen g + zlen (concat gs))) g (S (length p)) pre D dims1 dims2 A embs1 embs2).
    fold p in Epf. unfold lift. rewrite Epf; clear Epf;
      [|subst p; rewrite length_app; pose proof (entries_bytes_long cc g Hf); lia|done|lia|lia|done|done].
    unfold bindM. cbn [res_bind fst snd].
    destruct (IH fuel false (D ++ (dim_of cc <$> g)) dims2 (A ++ zip_with (client_answer cc) g embs1) embs2 c3) as (c' & E & Hc' & Hi' & Ho' & Hp'); try done.
    + cbn in Hfu. lia.
    + rewrite length_app in He. lia.
    + rewrite !length_app, length_zip_with, length_fmap. lia.
    + rewrite zlen_app. unfold zlen in *. rewrite length_fmap. lia.
    + exists c'. split; [|split; [done|split; [done|split; [|by rewrite Hp', Hp3, Hp2]]]].
      * rewrite zlen_app in E. replace (zlen (dim_of cc <$> g)) with (zlen g) in E by (unfold zlen; by rewrite length_fmap).
        rewrite <- !app_assoc in E. rewrite Z.add_assoc, E. rewrite zip_with_app by lia. by rewrite fmap_app.
      * rewrite Ho', Ho3, Hs2. exact Ho1.
Qed.

(** ** The calls *)

Lemma grow_send_buf_spec n c : client_ok c -> exists c', grow_send_buf n c = Ret (true, c') /\ client_ok c' /\
  pending c' = pending c /\ cl_sock c' = cl_sock c /\ n <= send_cap c'.
Proof.
  intros (Hs & Hg & Hb). unfold grow_send_buf, bindM, gets. cbn [res_bind fst snd]. destruct (Z.ltb_spec (send_cap c) n).
  - unfold modify. cbn [res_bind fst snd]. unfold realloc. cbn [grants set_send_cap]. rewrite Hg. eexists. split; [reflexivity|].
    split; [by repeat split|]. cbn. repeat split; auto; lia.
  - exists c. repeat split; auto.
Qed.

Lemma ids_request_spec checked ids c : client_ok c -> zlen ids <= GRAVELDB_WIRE_MAX_BATCH ->
  exists c', ids_request checked ids c = Ret (Some (pull_request_body ids), c') /\ client_ok c' /\ pending c' = pending c /\ cl_sock c' = cl_sock c.
Proof.
  intros Hc Hn. unfold ids_request, GRAVELDB_WIRE_MAX_BATCH in *. rewrite (proj2 (Z.leb_gt _ _)) by lia.
  destruct (grow_send_buf_spec (4 + zlen ids * 8) c Hc) as (c' & E & ? & ? & ? & _). rewrite (bindM_ret _ _ _ _ _ E). by exists c'.
Qed.

(** The bytes of a request for [ids]. *)
Definition request_bytes (type : Z) (ids : list Z) : list Z :=
  wire_header type (zlen (pull_request_body ids)) ++ pull_request_body ids.

Definition pull_response_bytes (c : Contents) (ids : list Z) : list Z :=
  wire_header GRAVELDB_WIRE_OK (zlen (pull_response_body c ids)) ++ pull_response_body c ids.

(** The caller's arrays after a successful call. *)
Definition pulled (c : Contents) (ids : list Z) (embs : list (option (list Z))) : PullOut :=
  mkPullOut (Some (zip_with (client_answer c) ids embs)) (Some (dim_of c <$> ids)).

Lemma parse_response_spec cc ids limit embs dims : fits cc -> zlen ids <= GRAVELDB_WIRE_MAX_BATCH ->
  (match limit with Some n => n = zlen ids | None => True end) ->
  length embs = length ids -> length dims = length ids -> Forall2 (client_room cc) ids embs ->
  parse_response (pull_response_body cc ids) limit (mkPullOut (Some embs) (Some dims)) = Ret (pulled cc ids embs).
Proof.
  intros Hf Hn Hl He Hd Hr. unfold parse_response, pull_response_body, GRAVELDB_WIRE_MAX_BATCH in *. pose proof (zlen_nonneg ids).
  rewrite read_u32_front by lia. cbn [res_bind].
  apply (parse_pull_spec cc Hf ids _ (bytes_u32 (zlen ids)) [] dims [] embs); try done; try (cbn; lia).
  - rewrite length_app. pose proof (entries_bytes_long cc ids Hf). lia.
  - by destruct limit as [n|]; [subst; lia|].
Qed.

(** The call, for any output arrays that the response can be parsed into. *)
Lemma client_pull_call cc ids o o' rest c : fits cc -> client_ok c -> zlen ids <= GRAVELDB_WIRE_MAX_BATCH ->
  parse_response (pull_response_body cc ids) None o = Ret o' ->
  inbox (cl_sock c) = pull_response_bytes cc ids ++ rest ->
  exists c', graveldb_client_pull ids o c = Ret (0, o', c') /\
    client_ok c' /\ pending c' = pending c /\ inbox (cl_sock c') = rest /\
    outbox (cl_sock c') = outbox (cl_sock c) ++ request_bytes GRAVELDB_MSG_PULL ids.
Proof.
  intros Hf Hc Hn Hparse Hi. unfold graveldb_client_pull.
  destruct (ids_request_spec false ids c Hc Hn) as (c1 & E1 & Hc1 & Hp1 & Hs1). rewrite (bindM_ret _ _ _ _ _ E1).
  destruct (send_request_spec GRAVELDB_MSG_PULL (pull_request_body ids) c1 Hc1) as (c2 & E2 & Hc2 & Hp2 & Ho2 & Hi2).
  rewrite (bindM_ret _ _ _ _ _ E2). change (0 <? 0) with false. cbv iota.
  assert (Hz : 4 <= zlen (pull_response_body cc ids) < 2 ^ 32).
  { pose proof (upto_bound cc ids (zlen ids) Hf Hn) as Hz. unfold pull_response_body_upto in Hz.
    replace (take (Z.to_nat (zlen ids)) ids) with ids in Hz by (unfold zlen; by rewrite Nat2Z.id, firstn_all).
    fold (pull_response_body cc ids) in Hz. rewrite zlen_app, zlen_wire_header in Hz. unfold GRAVELDB_WIRE_HEADER_SIZE, MAX_RESPONSE in Hz.
    unfold pull_response_body in *. rewrite zlen_app, zlen_bytes_u32 in *. pose proof (zlen_nonneg (entries_bytes cc ids)). lia. }
  destruct (recv_response_spec GRAVELDB_WIRE_OK (pull_response_body cc ids) rest c2 Hc2) as (c3 & E3 & Hc3 & Hp3 & Hi3 & Ho3); [done|lia| |].
  { rewrite Hi2, Hs1, Hi. unfold pull_response_bytes. by rewrite <- app_assoc. }
  rewrite (bindM_ret _ _ _ _ _ E3). rewrite Z.eqb_refl, (proj2 (Z.ltb_lt 0 _)) by lia. cbn [negb]. rewrite (proj2 (Z.ltb_ge _ 4)) by lia.
  unfold lift. rewrite Hparse. unfold bindM. cbn [res_bind fst snd].
  eexists. split; [reflexivity|]. split; [done|]. split; [congruence|]. split; [done|]. by rewrite Ho3, Ho2, Hs1.
Qed.

Lemma client_pull_spec cc ids embs dims rest c : fits cc -> client_ok c -> zlen ids <= GRAVELDB_WIRE_MAX_BATCH ->
  length embs = length ids -> length dims = length ids -> Forall2 (client_room cc) ids embs ->
  inbox (cl_sock c) = pull_response_bytes cc ids ++ rest ->
  exists c', graveldb_client_pull ids (mkPullOut (Some embs) (Some dims)) c = Ret (0, pulled cc ids embs, c') /\
    client_ok c' /\ pending c' = pending c /\ inbox (cl_sock c') = rest /\
    outbox (cl_sock c') = outbox (cl_sock c) ++ request_bytes GRAVELDB_MSG_PULL ids.
Proof. intros Hf Hc Hn He Hd Hr Hi. apply (client_pull_call cc); auto. by apply parse_response_spec. Qed.

Lemma stream_payloads_length cc total ff groups : length (stream_payloads cc total ff groups) = length groups.
Proof. revert ff. induction groups as [|g gs IH]; intros ff; [done|]. cbn. by rewrite IH. Qed.

Lemma frames_long ps : (length ps <= length (concat (frame_bytes <$> ps)))%nat.
Proof. induction ps as [|p ps IH]; [done|]. cbn. rewrite !length_app. lia. Qed.

Lemma client_pull_stream_spec cc ids groups d embs dims rest c : fits cc -> client_ok c -> zlen ids <= GRAVELDB_WIRE_MAX_BATCH ->
  length embs = length ids -> length dims = length ids -> Forall2 (client_room cc) ids embs ->
  stream_of cc ids groups d -> inbox (cl_sock c) = d ++ rest ->
  exists c', graveldb_client_pull_stream ids (mkPullOut (Some embs) (Some dims)) c = Ret (0, pulled cc ids embs, c') /\
    client_ok c' /\ pending c' = pending c /\ inbox (cl_sock c') = rest /\
    outbox (cl_sock c') = outbox (cl_sock c) ++ request_bytes GRAVELDB_MSG_PULL_STREAM ids.
Proof.
  intros Hf Hc Hn He Hd Hr (Hz & Hcat & Hne & ->) Hi. unfold graveldb_client_pull_stream.
  destruct (ids_request_spec true ids c Hc Hn) as (c1 & E1 & Hc1 & Hp1 & Hs1). rewrite (bindM_ret _ _ _ _ _ E1).
  destruct (send_request_spec GRAVELDB_MSG_PULL_STREAM (pull_request_body ids) c1 Hc1) as (c2 & E2 & Hc2 & Hp2 & Ho2 & Hi2).
  rewrite (bindM_ret _ _ _ _ _ E2). change (0 <? 0) with false. cbv iota. rewrite Hs1, Hi, <- !app_assoc in Hi2.
  destruct (recv_all_spec GRAVELDB_WIRE_HEADER_SIZE _ _ (cl_sock c2) (proj1 Hc2) Hi2) as (s3 & E3 & Hi3 & Ho3 & Hs3); [by rewrite zlen_wire_header|].
  rewrite (bindM_ret _ _ _ _ _ (on_wire_ret _ _ _ _ E3)). change (0 <? 0) with false. cbv iota.
  destruct (read_header GRAVELDB_WIRE_OK GRAVELDB_WIRE_STREAM_SENTINEL) as (R1 & R2 & R3); [done|done|]. unfold lift. rewrite R1, R2, R3.
  unfold bindM at 1 2 3 4. unfold gets. cbn [res_bind fst snd]. rewrite !Z.eqb_refl. cbn [negb].
  destruct (recv_frames_spec cc (zlen ids) rest groups Hf (S (length (inbox s3))) true [] dims [] embs (set_cl_sock c2 s3)) as (c4 & E4 & Hc4 & Hi4 & Ho4 & Hp4);
    rewrite ?Hcat; try done.
  - split; [done|apply Hc2].
  - rewrite Hi3, length_app. pose proof (frames_long (stream_payloads cc (zlen ids) true groups)). rewrite stream_payloads_length in *. lia.
  - unfold zlen at 1. cbn. unfold GRAVELDB_WIRE_MAX_BATCH in *. lia.
  - exists c4. rewrite Hcat in E4. split; [exact E4|]. split; [done|]. split; [by rewrite Hp4; cbn; congruence|]. split; [done|].
    rewrite Ho4. cbn [cl_sock set_cl_sock]. by rewrite Ho3, Ho2, Hs1.
Qed.

(** ** Where the client goes wrong *)

(** The bytes of an entry that is not the first of a body. *)
Lemma parse_skipped cc f1 f2 d1 x1 a b : fits cc -> cc f1 = Some (d1, x1) -> 0 < d1 ->
  parse_response (pull_response_body cc [f1; f2]) None (mkPullOut None (Some [a; b])) =
  Ret (mkPullOut None (Some [d1; i32 (le_combine (take 4 x1))])).
Proof.
  intros Hf H1 Hd. destruct (Hf _ _ _ H1) as [Hd1 Hx]. unfold PULL_MAX_DIM in *. unfold parse_response, pull_response_body.
  rewrite read_u32_front by done. cbn [res_bind]. change (entries_bytes cc [f1; f2]) with (entry_bytes cc f1 ++ entry_bytes cc f2 ++ []).
  rewrite app_nil_r. assert (E1 : entry_bytes cc f1 = bytes_u32 d1 ++ take (Z.to_nat (4 * d1)) x1) by (unfold entry_bytes; by rewrite H1).
  set (y := drop 4 (take (Z.to_nat (4 * d1)) x1) ++ entry_bytes cc f2).
  assert (Hx4 : length (take 4 x1) = 4%nat) by (unfold zlen in Hx; rewrite length_take; lia).
  assert (Eb : bytes_u32 (zlen [f1; f2]) ++ entry_bytes cc f1 ++ entry_bytes cc f2 = bytes_u32 (zlen [f1; f2]) ++ bytes_u32 d1 ++ take 4 x1 ++ y).
  { rewrite E1. unfold y. rewrite <- app_assoc. f_equal. f_equal. rewrite app_assoc. f_equal.
    rewrite <- (take_drop 4 (take (Z.to_nat (4 * d1)) x1)) at 1. f_equal. rewrite take_take. f_equal. lia. }
  rewrite Eb. set (body := bytes_u32 _ ++ _). change (zlen [f1; f2]) with 2 in *.
  assert (Hlen : 12 <= zlen body).
  { unfold body. rewrite !zlen_app, !zlen_bytes_u32. pose proof (zlen_nonneg y). unfold zlen at 1. lia. }
  assert (R1 : read_u32 body 4 = Ret d1) by (apply read_u32_app; [done|lia]).
  assert (R2 : read_u32 body 8 = Ret (le_combine (take 4 x1))).
  { unfold read_u32, body. rewrite (app_assoc (bytes_u32 2)), copy_from_app; [done|done|]. unfold zlen. by rewrite Hx4. }
  assert (Hfuel : exists k, length body = S (S k)) by (unfold zlen in Hlen; destruct (length body) as [|[|k]]; [lia..|by exists k]).
  destruct Hfuel as [k ->]. cbn [parse_pull po_embs po_dims]. rewrite !(proj2 (Z.ltb_lt _ (zlen body))) by lia.
  cbn [andb Z.ltb Z.compare Z.add Pos.add Pos.succ]. rewrite R1. cbn [res_bind].
  change (wr [a; b] 0 (i32 d1)) with (Ret [i32 d1; b]). cbn [res_bind]. rewrite i32_small by lia.
  rewrite (proj2 (Z.ltb_lt 0 d1)) by lia. cbn [res_bind]. change (0 + 1 <? 2) with true. cbn [andb]. change (4 + 4) with 8. rewrite R2. cbn [res_bind].
  change (wr [d1; b] (0 + 1) (i32 (le_combine (take 4 x1)))) with (Ret [d1; i32 (le_combine (take 4 x1))]). cbn [res_bind].
  by destruct (0 <? _).
Qed.

(** A client that asks for dimensions only misreads the response. client.h lets
    the caller pass [NULL] for the embeddings; the embedding of an entry is then not
    skipped, and the dimension that the call reports, with result 0, for the id after
    a feature that is present is the first four bytes of that feature's embedding. *)
Theorem client_pull_null_misreads cc f1 f2 d1 x1 a b rest c :
  fits cc -> client_ok c -> cc f1 = Some (d1, x1) -> 0 < d1 ->
  inbox (cl_sock c) = pull_response_bytes cc [f1; f2] ++ rest ->
  exists c', graveldb_client_pull [f1; f2] (mkPullOut None (Some [a; b])) c =
    Ret (0, mkPullOut None (Some [d1; i32 (le_combine (take 4 x1))]), c').
Proof.
  intros Hf Hc H1 Hd Hi.
  destruct (client_pull_call cc [f1; f2] (mkPullOut None (Some [a; b])) (mkPullOut None (Some [d1; i32 (le_combine (take 4 x1))])) rest c) as (c' & E & _); auto.
  - by vm_compute.
  - by apply parse_skipped.
  - by exists c'.
Qed.

(** One round at the end of the stream. *)
Lemma recv_round_ends fuel i o e len acc : zlen i < len -> recv_rounds (S fuel) len acc (mkSock i o [] e) =
  if zlen i <=? 0 then if decide (e = EINTR) then recv_rounds fuel len acc (mkSock [] o [] e) else Ret (-1, acc, mkSock [] o [] e)
  else recv_rounds fuel (len - zlen i) (acc ++ i) (mkSock [] o [] e).
Proof.
  intros Hlen. cbn [recv_rounds]. pose proof (zlen_nonneg i). rewrite (proj2 (Z.leb_gt _ 0)) by lia.
  unfold sock_read, next_reply, bindM, gets, modify, ret. cbn [replies res_bind fst snd inbox outbox errno].
  rewrite take_ge, drop_ge by (unfold zlen in *; lia). destruct (zlen i <=? 0); [|done]. cbn [res_bind fst snd errno]. by destruct (decide _).
Qed.

(** The end of the stream. When the connection ends before the bytes that are
    waited for have arrived, [recv_all] returns -1, unless [errno] still is [EINTR]
    from a call that was interrupted earlier: [read] returns 0 at the end of the
    stream and leaves [errno] alone, the loop takes this for another interruption,
    and no number of rounds ends it. *)
Theorem recv_end_of_stream (s : Sock) len acc :
  replies s = [] -> zlen (inbox s) < len ->
  (errno s = EINTR -> forall fuel, recv_rounds fuel len acc s = Diverge) /\
  (errno s <> EINTR -> forall fuel, exists s', recv_rounds (S (S fuel)) len acc s = Ret (-1, acc ++ inbox s, s')).
Proof.
  destruct s as [i o r e]. cbn [replies inbox errno]. intros -> Hlen. split; intros He.
  - intros fuel. revert i len acc Hlen. induction fuel as [|fuel IH]; intros i len acc Hlen; [done|].
    rewrite recv_round_ends by done. pose proof (zlen_nonneg i). rewrite decide_True by done.
    destruct (zlen i <=? 0); apply IH; change (zlen []) with 0; lia.
  - intros fuel. rewrite recv_round_ends by done. rewrite decide_False by done. destruct (Z.leb_spec (zlen i) 0) as [Hz|Hz].
    + assert (i = []) as -> by (destruct i; [done|unfold zlen in Hz; cbn in Hz; lia]). rewrite app_nil_r. by eexists.
    + rewrite recv_round_ends by (change (zlen []) with 0; lia). change (zlen [] <=? 0) with true. rewrite decide_False by done. by eexists.
Qed.

Definition null_contents : Contents := fun f => if f =? 7 then Some (1, [9; 0; 0; 0]) else None.

(** Feature 8 is absent, and its dimension is reported as 9. *)
Lemma client_pull_null_misreads_witness :
  null_contents 8 = None /\
  exists c', graveldb_client_pull [7; 8] (mkPullOut None (Some [0; 0]))
      (mkClient (mkSock (pull_response_bytes null_contents [7; 8] ++ []) [] [] E_NONE) 4096 (Some []) 4096 0 []) =
    Ret (0, mkPullOut None (Some [1; 9]), c').
Proof.
  split; [reflexivity|]. eapply (client_pull_null_misreads null_contents 7 8 1 [9; 0; 0; 0]).
  - intros f d x. unfold null_contents. destruct (f =? 7); intros [= <- <-]. by vm_compute.
  - split; [constructor|]. split; [done|]. by eexists.
  - reflexivity.
  - lia.
  - reflexivity.
Defined.

Lemma recv_end_of_stream_witness :
  (EINTR = EINTR -> forall fuel, recv_rounds fuel 4 [] (mkSock [1; 2] [] [] EINTR) = Diverge) /\
  (EINTR <> EINTR -> forall fuel, exists s', recv_rounds (S (S fuel)) 4 [] (mkSock [1; 2] [] [] EINTR) = Ret (-1, [] ++ [1; 2], s')).
Proof. apply (recv_end_of_stream (mkSock [1; 2] [] [] EINTR) 4 []); [reflexivity|by vm_compute]. Defined.
