(* ===== verification/ServerProps.v ===== *)
(** ServerProps: what a server does with the messages of a connection, and the
    round trips of client and server. *)

From S2P Require Import Prelude Wire Protocol Arena IoPoller Engine Server StoreSpec ServerSend ServerPull Client ClientProps ServerLoop.

Section messages.
Context {T : Type} `{!Store T}.
Implicit Types (s : HSt (T := T)).
Variable junk : Z -> list Z.

(** ** One message *)

Definition message (type : Z) (body : list Z) : list Z := wire_header type (zlen body) ++ body.

(** The connection is idle and the bytes [b] have arrived. *)
Definition arrived s (p : Z) (b : list Z) : Prop :=
  recv_buf (conn s) = Some (p, b) /\ a_state (async (conn s)) = CONN_IDLE.

Lemma read_header_front st n c : 0 <= st < 2 ^ 32 -> 0 <= n < 2 ^ 32 ->
  read_u32 (wire_header st n ++ c) 0 = Ret GRAVELDB_WIRE_MAGIC /\ read_u32 (wire_header st n ++ c) 4 = Ret st /\ read_u32 (wire_header st n ++ c) 8 = Ret n.
Proof.
  intros Hst Hn. unfold wire_header. rewrite <- !app_assoc. split; [by apply read_u32_front|]. split.
  - by apply (read_u32_app (bytes_u32 GRAVELDB_WIRE_MAGIC) st).
  - rewrite (app_assoc (bytes_u32 GRAVELDB_WIRE_MAGIC)). by apply (read_u32_app (bytes_u32 GRAVELDB_WIRE_MAGIC ++ bytes_u32 st) n).
Qed.

(** A whole message is dispatched with what follows its header, and consumed. *)
Lemma process_message_whole s p type body rest : arrived s p (message type body ++ rest) -> 0 <= type < 2 ^ 32 ->
  GRAVELDB_WIRE_HEADER_SIZE + zlen body < 2 ^ 32 ->
  process_message junk s = (do* dispatch junk type (body ++ rest) (zlen body) in do* modify (rebuf (Some (p, rest))) in ret 1) s.
Proof.
  intros [Hb Hi] Ht Hz. pose proof (zlen_nonneg body) as Hpos. unfold message in Hb. rewrite <- app_assoc in Hb.
  unfold process_message. unfold bindM at 1, gets at 1. cbn [res_bind fst snd]. rewrite Hi, bool_decide_false by naive_solver.
  assert (Hlen : recv_len (conn s) = GRAVELDB_WIRE_HEADER_SIZE + zlen body + zlen rest).
  { unfold recv_len. rewrite Hb, !zlen_app, zlen_wire_header. lia. }
  pose proof (zlen_nonneg rest). rewrite Hlen. rewrite (proj2 (Z.ltb_ge _ GRAVELDB_WIRE_HEADER_SIZE)) by lia.
  rewrite Hb. cbn [deref snd fst]. unfold GRAVELDB_WIRE_HEADER_SIZE in Hz.
  destruct (read_header_front type (zlen body) (body ++ rest)) as (R1 & R2 & R3); [done|lia|]. unfold lift.
  unfold bindM at 1. cbn [res_bind fst snd]. rewrite R1. unfold bindM at 1. cbn [res_bind fst snd]. rewrite R2. unfold bindM at 1. cbn [res_bind fst snd].
  rewrite R3. unfold bindM at 1. cbn [res_bind fst snd]. rewrite Z.eqb_refl. cbn [negb]. unfold message_size, u32, GRAVELDB_WIRE_HEADER_SIZE.
  rewrite Z.mod_small by lia. rewrite (proj2 (Z.ltb_ge _ _)) by lia.
  assert (Hd : forall n, n = zlen body -> drop (Z.to_nat (12 + n)) (wire_header type (zlen body) ++ body ++ rest) = rest).
  { intros n ->. rewrite app_assoc. apply drop_app_length'. pose proof (zlen_wire_header type (zlen body)) as Hw.
    unfold GRAVELDB_WIRE_HEADER_SIZE, zlen in *. rewrite length_app. lia. }
  rewrite Hd by done. change (drop (Z.to_nat 12) (wire_header type (zlen body) ++ body ++ rest)) with (body ++ rest).
  done.
Qed.

(** ** Responses without a body *)

Lemma respond_spec st n s : 0 <= n -> arena_room (n + SEND_CHUNK_SIZE + 7) s ->
  exists s', respond st s = Ret (tt, s') /\ responded s s' (wire_header st 0) /\ async (conn s') = async (conn s) /\ db s' = db s /\ arena_room n s'.
Proof.
  intros Hn Hr. destruct (begin_spec n st s Hn Hr) as (s1 & E1 & O1 & B1). unfold respond. rewrite (bindM_ret _ _ _ _ _ E1).
  destruct (finish_building n st [] s1) as (s2 & E2 & (Hr2 & Hc2 & ch & Hl2 & Hch) & Ha2 & Hd2 & R2); [done|by rewrite app_nil_r|].
  destruct (out_step_rest _ _ O1) as [Hr1 Hl1], (out_step_async _ _ O1) as [Ha1 Hd1].
  exists s2. split; [done|]. rewrite app_nil_r in Hch. split; [|split; [congruence|split; [congruence|done]]].
  split; [by transitivity s1|]. split; [done|]. exists ch. rewrite Hl2, Hl1. split; [done|].
  destruct Hch as (? & ? & He). split; [done|]. split; [done|]. rewrite He. by apply out_step_epoch.
Qed.

Definition RESPOND_ROOM : Z := SEND_CHUNK_SIZE + 7.

(** A read-only server refuses the requests that would change the database:
    a push, delete, flush or checkpoint, whatever its body, is consumed and
    answered with INVALID and an empty body, and the database and its background
    flush are untouched. *)
Theorem server_readonly_rejects s p type body rest :
  readonly s = true -> is_mutation type = true -> arrived s p (message type body ++ rest) ->
  GRAVELDB_WIRE_HEADER_SIZE + zlen body < 2 ^ 32 -> arena_room RESPOND_ROOM s ->
  exists s' ch, process_message junk s = Ret (1, s') /\ db s' = db s /\ async_flush s' = async_flush s /\
    flush_in_flight s' = flush_in_flight s /\ arrived s' p rest /\
    send_list (conn s') = send_list (conn s) ++ [ch] /\ ck_data ch = wire_header GRAVELDB_WIRE_INVALID 0.
Proof.
  intros Hro Hm Ha Hz Hr.
  assert (Ht : 0 <= type < 2 ^ 32).
  { unfold is_mutation in Hm. rewrite !orb_true_iff, !Z.eqb_eq in Hm.
    unfold GRAVELDB_MSG_PUSH, GRAVELDB_MSG_DELETE, GRAVELDB_MSG_FLUSH, GRAVELDB_MSG_CHECKPOINT in Hm. lia. }
  rewrite (process_message_whole s p type body rest Ha Ht Hz).
  destruct (respond_spec GRAVELDB_WIRE_INVALID 0 s) as (s1 & E1 & (Hrest & Hc & ch & Hl & Hd & _) & Hasy & Hdb & _); [done|done|].
  assert (Ed : dispatch junk type (body ++ rest) (zlen body) s = Ret (tt, s1)).
  { unfold dispatch. unfold is_mutation in Hm. rewrite !orb_true_iff, !Z.eqb_eq in Hm.
    destruct Hm as [[[-> | ->] | ->] | ->]; cbn; unfold bindM, gets; cbn [res_bind fst snd]; by rewrite Hro. }
  rewrite (bindM_ret _ _ _ _ _ Ed). eexists _, ch. split; [reflexivity|]. cbn.
  split; [done|]. split; [apply Hrest|]. split; [apply Hrest|]. split; [split; [done|]; cbn; rewrite Hasy; apply Ha|]. by split.
Qed.

(** ** A length that wraps around *)

Lemma arena_alloc_total size (st : ArenaSt) : exists r st', arena_alloc size st = Ret (r, st') /\ epoch (arena st') = epoch (arena st).
Proof.
  destruct st as [a h]. unfold arena_alloc. unfold bindM at 1, gets. cbn [res_bind fst snd arena]. destruct (_ <=? _).
  { eexists _, _. split; [reflexivity|]. cbn. unfold set_current. by destruct (overflow a). }
  set (want := if _ <? _ then _ else _). unfold bindM at 1, on_heap at 1. cbn [heap].
  assert (Hm : forall n h, exists r h', malloc n h = Ret (r, h') /\ live h ⊆ live h' /\ (forall p, r = Some p -> p ∈ live h')).
  { intros n h1. unfold malloc. destruct (_ || _); eexists _, _; (split; [reflexivity|]); cbn; [done|]. set_solver. }
  destruct (Hm 32 h) as (r1 & h1 & -> & _ & H1). cbn [res_bind fst snd arena]. destruct r1 as [nb|]; [|by eexists _, _].
  specialize (H1 nb eq_refl). unfold bindM at 1, on_heap at 1. cbn [heap].
  destruct (Hm want h1) as (r2 & h2 & -> & H2 & _). cbn [res_bind fst snd arena]. destruct r2 as [d|]; [by eexists _, _|].
  unfold bindM, on_heap. cbn [heap]. rewrite free_spec by set_solver. by eexists _, _.
Qed.

(** What the loop over the messages relies on: the bytes received, no pull in
    progress, and no response left over. *)
Definition between s s' : Prop :=
  recv_buf (conn s') = recv_buf (conn s) /\ async (conn s') = async (conn s) /\ send_cur (conn s') = None.

(** A chunk that fits in the inline buffer needs no more memory. *)
Lemma append_inline data ch s : send_cur (conn s) = Some ch -> ck_epoch ch = epoch (carena (conn s)) ->
  u64 (ck_len ch + zlen data) <= ck_cap ch ->
  response_append data s =
    Ret (tt, set_conn s (set_send_cur (conn s) (Some (mkSendChunk (ck_data ch ++ data) (ck_cap ch) (ck_sent ch) (ck_epoch ch))))).
Proof.
  intros Hc He Hl. unfold response_append, bindM at 1, gets. cbn [res_bind fst snd]. rewrite Hc, He.
  rewrite (bindM_ret _ _ _ _ _ (valid_here _ s eq_refl)), <- He, (proj2 (Z.ltb_ge _ _)) by done. done.
Qed.

Lemma finish_total ch s : send_cur (conn s) = Some ch -> ck_epoch ch = epoch (carena (conn s)) -> 12 <= ck_len ch ->
  exists s', response_finish s = Ret (tt, s') /\ between s s'.
Proof.
  intros Hc He Hl. unfold response_finish, bindM at 1, gets. cbn [res_bind fst snd]. rewrite Hc, He.
  rewrite (bindM_ret _ _ _ _ _ (valid_here _ s eq_refl)). unfold lift, copy_to, bindM at 1.
  rewrite zlen_bytes_u32. unfold ck_len in Hl. rewrite (proj2 (Z.leb_le (8 + 4) _)) by lia. cbn [res_bind fst snd]. eexists. split; [reflexivity|]. by repeat split.
Qed.

Lemma handle_ping_total s : send_cur (conn s) = None -> exists s', handle_ping s = Ret (tt, s') /\ between s s'.
Proof.
  intros Hc. unfold handle_ping, response_begin, chunk_arena_new.
  destruct (arena_alloc_total SEND_CHUNK_SIZE (mkArenaSt (carena (conn s)) (mem s))) as (r & st & E & He).
  assert (E1 : on_arena (arena_alloc SEND_CHUNK_SIZE) s = Ret (r, set_mem (set_conn s (set_carena (conn s) (arena st))) (heap st)))
    by (unfold on_arena; by rewrite E).
  unfold bindM at 1 2 3. rewrite E1. unfold bindM at 1, gets. cbn [res_bind fst snd]. destruct r as [p|].
  - unfold ret. cbn [res_bind fst snd]. unfold upd_conn, modify. cbn [res_bind fst snd].
    set (ch := mkSendChunk (wire_header GRAVELDB_WIRE_OK 0) _ 0 _). set (s1 := set_conn _ _).
    rewrite (bindM_ret _ _ _ _ _ (append_inline (bytes_u32 0x504F4E47) ch s1 eq_refl eq_refl ltac:(done))).
    set (ch2 := mkSendChunk (ck_data ch ++ _) _ _ _). set (s2 := set_conn s1 _).
    destruct (finish_total ch2 s2) as (s' & E3 & B); [done..|]. exists s'. split; [exact E3|exact B].
  - unfold ret. cbn [res_bind fst snd]. unfold bindM, response_append, response_finish, bindM, gets. cbn [res_bind fst snd send_cur conn set_conn set_mem set_carena].
    rewrite Hc. cbn [res_bind fst snd ret]. eexists. unfold ret. cbn [res_bind fst snd send_cur conn set_conn set_mem set_carena]. rewrite Hc.
    split; [reflexivity|]. by repeat split.
Qed.

(** C39: twelve bytes stop the server. The size of a message is computed in 32 bits,
    so that a body length of 2^32 - 12 makes it 0: the check that the message has
    arrived passes, and nothing is consumed after it was handled. For a ping with
    that length, whatever follows it, [while (process_message(...) > 0)] never
    ends, with any number of rounds. *)
Theorem server_length_wrap_hangs s p rest (fuel : nat) :
  arrived s p (wire_header GRAVELDB_MSG_PING (2 ^ 32 - GRAVELDB_WIRE_HEADER_SIZE) ++ rest) -> send_cur (conn s) = None ->
  process_messages junk fuel s = Diverge.
Proof.
  revert s. induction fuel as [|fuel IH]; intros s [Hb Hi] Hc; [done|]. cbn [process_messages].
  destruct (handle_ping_total s Hc) as (s1 & E & Hb1 & Ha1 & Hc1).
  assert (Em : process_message junk s = Ret (1, rebuf (recv_buf (conn s)) s1)).
  { unfold process_message. unfold bindM at 1, gets at 1. cbn [res_bind fst snd]. rewrite Hi, bool_decide_false by naive_solver.
    assert (Hlen : recv_len (conn s) = 12 + zlen rest) by (unfold recv_len; rewrite Hb, zlen_app, zlen_wire_header; done).
    pose proof (zlen_nonneg rest). rewrite Hlen. rewrite (proj2 (Z.ltb_ge _ GRAVELDB_WIRE_HEADER_SIZE)) by (unfold GRAVELDB_WIRE_HEADER_SIZE; lia).
    rewrite Hb. cbn [deref snd fst].
    destruct (read_header_front GRAVELDB_MSG_PING (2 ^ 32 - GRAVELDB_WIRE_HEADER_SIZE) rest) as (R1 & R2 & R3); [done|done|]. unfold lift.
    unfold bindM at 1. cbn [res_bind fst snd]. rewrite R1. unfold bindM at 1. cbn [res_bind fst snd]. rewrite R2. unfold bindM at 1. cbn [res_bind fst snd].
    rewrite R3. unfold bindM at 1. cbn [res_bind fst snd]. rewrite Z.eqb_refl. cbn [negb].
    change (message_size (2 ^ 32 - GRAVELDB_WIRE_HEADER_SIZE)) with 0. rewrite (proj2 (Z.ltb_ge _ 0)) by lia.
    unfold bindM. change (dispatch junk GRAVELDB_MSG_PING ?b ?n s) with (handle_ping s). rewrite E. cbn [res_bind fst snd]. done. }
  rewrite (bindM_ret _ _ _ _ _ Em). change (0 <? 1) with true. cbv iota.
  apply IH; [|exact Hc1]. split; [by rewrite <- Hb|]. cbn. by rewrite Ha1.
Qed.
End messages.

(** ** A pull from client to server and back *)

Section roundtrip.
Context {T : Type} `{!Store T} `{!ReadStore T}.
Implicit Types (s : HSt (T := T)).
Variable junk : Z -> list Z.

(** The server takes one request from the bytes that have arrived, and after some
    rounds of its event loop it is idle again, has queued the response [d], and
    holds what it held. *)
Definition answers (c : Contents) s (p : Z) (rest d : list Z) : Prop :=
  exists s1 fuel s2, process_message junk s = Ret (1, s1) /\ drive client_async_resume fuel s1 = Ret (tt, s2) /\
    arrived s2 p rest /\ sent_new s s2 d /\ holds (db s2) c.

(** A server that is idle, holds [c] and has received a request for [ids]. *)
Record requested (c : Contents) (type : Z) (ids : list Z) s (p : Z) (rest : list Z) : Prop := {
  rq_fits : fits c;
  rq_holds : holds (db s) c;
  rq_arrived : arrived s p (request_bytes type ids ++ rest);
  rq_room : arena_room PULL_ROOM s
}.

(** A request that a client can make: the ids, and arrays for them. *)
Record request_ok (c : Contents) (ids : list Z) (embs : list (option (list Z))) (dims : list Z) : Prop := {
  ro_ids : Forall is_u64 ids /\ zlen ids <= GRAVELDB_WIRE_MAX_BATCH;
  ro_embs : Forall2 (client_room c) ids embs;
  ro_dims : length dims = length ids
}.

Lemma body_bound ids : zlen ids <= GRAVELDB_WIRE_MAX_BATCH ->
  GRAVELDB_WIRE_HEADER_SIZE + zlen (pull_request_body ids) < 2 ^ 32.
Proof.
  unfold pull_request_body. rewrite zlen_app, zlen_ids_bytes, zlen_bytes_u32.
  unfold GRAVELDB_WIRE_HEADER_SIZE, GRAVELDB_WIRE_MAX_BATCH. lia.
Qed.

Hypothesis Hjunk : forall k, 0 <= k -> zlen (junk k) = k.

Lemma server_pull c ids s p rest : Forall is_u64 ids -> zlen ids <= GRAVELDB_WIRE_MAX_BATCH ->
  requested c GRAVELDB_MSG_PULL ids s p rest -> answers c s p rest (pull_response_bytes c ids).
Proof.
  intros Hids Hn [Hf Hh Ha Hr].
  destruct (handle_pull_spec junk c ids rest s Hjunk Hf Hh Hn Hids Hr) as (rc & s1 & E & Hm).
  destruct (finish_pull c ids rc (Some (p, rest)) s s1 Hf Hn Hm) as (fuel & s2 & Ed & (Hrest & _ & ch & Hl & Hd & Hs & He) & Hi & Hh').
  exists (rebuf (Some (p, rest)) s1), fuel, s2. split; [|split; [done|split; [|split; [|done]]]].
  - rewrite (process_message_whole junk s p GRAVELDB_MSG_PULL (pull_request_body ids) rest Ha) by (done || by apply body_bound).
    change (dispatch junk GRAVELDB_MSG_PULL) with (handle_pull (T := T) junk). by rewrite (bindM_ret _ _ _ _ _ E).
  - split; [apply Hrest|done].
  - exists [ch]. split; [done|]. cbn. rewrite app_nil_r. split; [done|]. constructor; [|done]. split; [done|]. split; [done|].
    rewrite Hd. intros X. apply (f_equal zlen) in X. rewrite zlen_app, zlen_wire_header in X. pose proof (zlen_nonneg (pull_response_body c ids)).
    unfold GRAVELDB_WIRE_HEADER_SIZE, zlen in *. cbn in X. lia.
Qed.


(** A call of the client with the request that it makes and what it leaves. *)
Definition client_gets (call : list Z -> PullOut -> M GravelDBClient (Z * PullOut)) (cl : GravelDBClient)
    (ids : list Z) (o : PullOut) (req left : list Z) (o' : PullOut) : Prop :=
  exists cl', call ids o cl = Ret (0, o', cl') /\ client_ok cl' /\ outbox (cl_sock cl') = outbox (cl_sock cl) ++ req /\
    inbox (cl_sock cl') = left.

Lemma pull_answered c ids embs dims s p rest : request_ok c ids embs dims -> requested c GRAVELDB_MSG_PULL ids s p rest ->
  exists d, answers c s p rest d /\
    forall cl left, client_ok cl -> inbox (cl_sock cl) = d ++ left ->
      client_gets graveldb_client_pull cl ids (mkPullOut (Some embs) (Some dims)) (request_bytes GRAVELDB_MSG_PULL ids) left (pulled c ids embs).
Proof.
  intros [[Hids Hn] He Hd] Hs. exists (pull_response_bytes c ids). split; [by apply server_pull|].
  intros cl left Hcl Hin. destruct (client_pull_spec c ids embs dims left cl) as (cl' & E & Hok & _ & Hi & Ho); [apply Hs|done..| |done|done|done|].
  { symmetry. by eapply Forall2_length. }
  by exists cl'.
Qed.

(** C9: the round trip of a pull. The client's [graveldb_client_pull] writes a request of at most the
    wire's batch size, which the server, whatever else has arrived behind it, takes in one call of
    [process_message]; after finitely many resumptions by the event loop, as many as the asynchronous
    gets need, the server has queued one response; and a client that receives these bytes stores, for
    every id, the dimension and the embedding that the database holds, 0 and an untouched buffer for an
    absent id, and returns 0. This holds when every dimension in the store is at most 1024 (the server's
    buffers have this size and are overrun by a larger one), when the caller gives a buffer with room,
    not [NULL], for every id that is stored, and an array for the dimensions, when the arena of the
    connection has room for the request, and when the client's calls to its socket do not fail. The store
    is any one that keeps the promise of [ReadStore]; the engine does. *)
Theorem pull_roundtrip c ids embs dims s p rest :
  request_ok c ids embs dims -> requested c GRAVELDB_MSG_PULL ids s p rest ->
  exists d, answers c s p rest d /\
    forall cl left, client_ok cl -> inbox (cl_sock cl) = d ++ left ->
      client_gets graveldb_client_pull cl ids (mkPullOut (Some embs) (Some dims)) (request_bytes GRAVELDB_MSG_PULL ids) left (pulled c ids embs).
Proof. apply pull_answered. Qed.

End roundtrip.

(** ** Examples *)

Definition no_sock : Sock := mkSock [] [] [] E_NONE.
Definition zeros (n : Z) : list Z := replicate (Z.to_nat n) 0.

Lemma zeros_full k : 0 <= k -> zlen (zeros k) = k.
Proof. intros. unfold zeros, zlen. rewrite length_replicate. lia. Qed.

Lemma sample_room m delay b l k ro n : n <= 2 ^ 60 -> arena_room n (sample_server m delay b l k ro).
Proof. intros. by apply arena_init_roomy. Qed.

(** A flush request, with a body that nobody looks at, and the start of another. *)
Definition readonly_sample : HSt (T := MapStore) :=
  sample_server {[ 7 := (1, [1; 2; 3; 4]) ]} 0 (message GRAVELDB_MSG_FLUSH [9] ++ [66]) [] no_sock true.

Lemma server_readonly_rejects_witness :
  is_mutation GRAVELDB_MSG_FLUSH = true /\
  exists s' ch, process_message zeros readonly_sample = Ret (1, s') /\ db s' = db readonly_sample /\ async_flush s' = async_flush readonly_sample /\
    flush_in_flight s' = flush_in_flight readonly_sample /\ arrived s' 16 [66] /\
    send_list (conn s') = send_list (conn readonly_sample) ++ [ch] /\ ck_data ch = wire_header GRAVELDB_WIRE_INVALID 0.
Proof.
  split; [reflexivity|]. apply (server_readonly_rejects zeros readonly_sample 16 GRAVELDB_MSG_FLUSH [9] [66]);
    [reflexivity|reflexivity|by split|by vm_compute|by apply sample_room].
Defined.

Definition wrap_sample : HSt (T := MapStore) :=
  sample_server ∅ 0 (wire_header GRAVELDB_MSG_PING (2 ^ 32 - GRAVELDB_WIRE_HEADER_SIZE)) [] no_sock false.

(** The bound of the rounds that suffices for any other input is not enough. *)
Lemma server_length_wrap_hangs_witness :
  recv_len (conn wrap_sample) = 12 /\ process_messages zeros (message_fuel (conn wrap_sample)) wrap_sample = Diverge.
Proof.
  split; [reflexivity|]. apply (server_length_wrap_hangs zeros wrap_sample 16 []); by split || reflexivity.
Defined.

(** Feature 7 has two floats, feature 8 none; the get takes two polls. *)
Definition pull_contents : Contents := fun f => ({[ 7 := (2, [1; 2; 3; 4; 5; 6; 7; 8]) ]} : gmap Z (Z * list Z)) !! f.
Definition pull_sample (type : Z) : HSt (T := MapStore) :=
  sample_server {[ 7 := (2, [1; 2; 3; 4; 5; 6; 7; 8]) ]} 2 (request_bytes type [7; 8] ++ [66]) [] no_sock false.
Definition sample_client (b : list Z) : GravelDBClient := mkClient (mkSock b [] [Done 5; Refused EINTR] E_NONE) 4096 (Some []) 4096 0 [].
Definition sample_bufs : list (option (list Z)) := [Some (zeros 12); Some (zeros 12)].

Lemma pull_contents_cases f d x : pull_contents f = Some (d, x) -> f = 7 /\ d = 2 /\ x = [1; 2; 3; 4; 5; 6; 7; 8].
Proof. unfold pull_contents. intros [<- [= <- <-]]%lookup_singleton_Some. done. Qed.

Lemma pull_sample_requested type : requested pull_contents type [7; 8] (pull_sample type) 16 [66].
Proof.
  constructor.
  - intros f d x (-> & -> & ->)%pull_contents_cases. by vm_compute.
  - intros f. done.
  - by split.
  - by apply sample_room.
Qed.

Lemma sample_request_ok : request_ok pull_contents [7; 8] sample_bufs [0; 0].
Proof.
  constructor; [|repeat constructor|done].
  - split; [|done]. by repeat constructor.
  - intros d x (_ & -> & ->)%pull_contents_cases _. eexists. split; [reflexivity|]. by vm_compute.
  - intros d x (? & _)%pull_contents_cases. done.
Qed.

Lemma sample_client_ok b : client_ok (sample_client b).
Proof. split; [repeat constructor|split; [done|]]. by eexists. Qed.

(** The client's arrays: dimension 2 and the eight bytes, and 0 with the buffer as it was. *)
Lemma pull_roundtrip_witness :
  pulled pull_contents [7; 8] sample_bufs = mkPullOut (Some [Some [1; 2; 3; 4; 5; 6; 7; 8; 0; 0; 0; 0]; Some (zeros 12)]) (Some [2; 0]) /\
  exists d, answers zeros pull_contents (pull_sample GRAVELDB_MSG_PULL) 16 [66] d /\
    forall cl left, client_ok cl -> inbox (cl_sock cl) = d ++ left ->
      client_gets graveldb_client_pull cl [7; 8] (mkPullOut (Some sample_bufs) (Some [0; 0]))
        (request_bytes GRAVELDB_MSG_PULL [7; 8]) left (pulled pull_contents [7; 8] sample_bufs).
Proof.
  split; [reflexivity|]. apply pull_roundtrip.
  - exact zeros_full.
  - exact sample_request_ok.
  - exact (pull_sample_requested GRAVELDB_MSG_PULL).
Defined.

