(* ===== verification/ServerFrames.v ===== *)
(** ServerFrames: how the received bytes were cut into reads makes no difference.

    What a handler does with the bytes it can read, it does also when more bytes follow
    them ([extends]), and no handler looks at the receive buffer ([agnostic]); both have
    one rule per way of composing computations. So a step of the message loop commutes
    with the arrival of more bytes, and the loop run after each read of a stream does
    what one run on the whole stream does. *)

From S2P Require Import Prelude Wire Protocol Arena IoPoller Engine Server StoreSpec ServerSend ServerLoop.

Create HintDb agnostic.

(** ** More bytes after those that are read *)

Lemma copy_from_more (a r : list Z) off n x : copy_from a off n = Ret x -> copy_from (a ++ r) off n = Ret x.
Proof.
  unfold copy_from. rewrite zlen_app. pose proof (zlen_nonneg r).
  destruct (Z.leb_spec 0 off), (Z.leb_spec 0 n); cbn [andb]; try done.
  destruct (Z.leb_spec (off + n) (zlen a)) as [Hl|Hl]; [|done]. rewrite (proj2 (Z.leb_le (off + n) _)) by lia.
  intros [= <-]. f_equal. rewrite drop_app_le by (unfold zlen in *; lia). rewrite take_app_le; [done|].
  rewrite length_drop. unfold zlen in *. lia.
Qed.

(** A result of the first computation is the result of the second. *)
Definition ret_le {A} (m m' : res A) : Prop := forall x, m = Ret x -> m' = Ret x.

Lemma ret_le_refl {A} (m : res A) : ret_le m m.
Proof. by intros x. Qed.
Lemma ret_le_bind {A B} (m m' : res A) (k k' : A -> res B) :
  ret_le m m' -> (forall a, ret_le (k a) (k' a)) -> ret_le (res_bind m k) (res_bind m' k').
Proof. intros Hm Hk x. destruct m as [a| |] eqn:E; [|done..]. rewrite (Hm a eq_refl). apply Hk. Qed.

Lemma read_u32_more a r off : ret_le (read_u32 a off) (read_u32 (a ++ r) off).
Proof. apply ret_le_bind; [|intros; apply ret_le_refl]. intros x. apply copy_from_more. Qed.
Lemma read_u64_more a r off : ret_le (read_u64 a off) (read_u64 (a ++ r) off).
Proof. apply ret_le_bind; [|intros; apply ret_le_refl]. intros x. apply copy_from_more. Qed.
#[local] Hint Resolve ret_le_refl read_u32_more read_u64_more : agnostic.

Ltac more :=
  repeat match goal with
    | |- ret_le (res_bind _ _) _ => apply ret_le_bind; [|intros ?]
    | |- ret_le (match ?x with _ => _ end) _ => destruct x
    | |- ret_le (copy_from _ _ _) _ => intros ?; apply copy_from_more
    | |- _ => solve [eauto with agnostic]
    end.

Lemma parse_ids_more a r n : forall off, ret_le (parse_ids a off n) (parse_ids (a ++ r) off n).
Proof. induction n as [|n IH]; intros off; cbn [parse_ids]; more. Qed.
Lemma parse_push_more a r len n : forall off, ret_le (parse_push a off len n) (parse_push (a ++ r) off len n).
Proof. induction n as [|n IH]; intros off; cbn [parse_push]; more. Qed.
Lemma parse_delete_more a r len fuel : forall off i count,
  ret_le (parse_delete fuel a off len i count) (parse_delete fuel (a ++ r) off len i count).
Proof. induction fuel as [|fuel IH]; intros off i count; cbn [parse_delete]; more. Qed.
#[local] Hint Resolve parse_ids_more parse_push_more parse_delete_more : agnostic.

Definition extends {S A} (m m' : M S A) : Prop := forall s, ret_le (m s) (m' s).

Lemma extends_refl {S A} (m : M S A) : extends m m.
Proof. intros s. apply ret_le_refl. Qed.
Lemma extends_bind {S A B} (m m' : M S A) (k k' : A -> M S B) :
  extends m m' -> (forall a, extends (k a) (k' a)) -> extends (bindM m k) (bindM m' k').
Proof. intros Hm Hk s. apply ret_le_bind; [apply Hm|]. intros [a s1]. apply Hk. Qed.
Lemma extends_lift {S A} (r r' : res A) : ret_le r r' -> extends (S := S) (lift r) (lift r').
Proof. intros Hr s. apply ret_le_bind; [done|]. intros. apply ret_le_refl. Qed.
#[local] Hint Resolve extends_refl extends_lift : agnostic.

Ltac extends :=
  repeat match goal with
    | |- extends ?m ?m => apply extends_refl
    | |- extends (bindM _ _) (bindM _ _) => apply extends_bind; [|intros ?]
    | |- extends (match ?x with _ => _ end) _ => destruct x
    | |- _ => solve [eauto with agnostic]
    end.

Section frames.
Context {T : Type} `{!Store T}.
Implicit Types (s : HSt (T := T)).
Variable junk : Z -> list Z.

(** A message is handled in the same way when other bytes follow it. *)
Lemma dispatch_more t a r n : extends (dispatch (T := T) junk t a n) (dispatch junk t (a ++ r) n).
Proof.
  unfold dispatch, handle_mutation, handle_pull, handle_pull_stream, handle_push, handle_delete, pull_request. extends.
Qed.

(** ** Handlers do not look at the receive buffer *)

Definition rebuf (r : option (Z * list Z)) s : HSt := set_conn s (set_recv (conn s) r (recv_cap (conn s))).

Definition agnostic {A} (m : M (HSt (T := T)) A) : Prop :=
  forall r s, m (rebuf r s) = let! '(a, s') := m s in Ret (a, rebuf r s').

Lemma agnostic_ret {A} (a : A) : agnostic (ret a).
Proof. done. Qed.
Lemma agnostic_gets {A} (f : HSt -> A) : (forall r s, f (rebuf r s) = f s) -> agnostic (gets f).
Proof. intros Hf r s. unfold gets. cbn. by rewrite Hf. Qed.
Lemma agnostic_ub {A} : agnostic (fun _ => Ub : res (A * HSt)).
Proof. done. Qed.
Lemma agnostic_diverge {A} : agnostic (fun _ => Diverge : res (A * HSt)).
Proof. done. Qed.
Lemma agnostic_lift {A} (x : res A) : agnostic (lift x).
Proof. intros r s. unfold lift. by destruct x. Qed.
Lemma agnostic_valid e : agnostic (valid e).
Proof. intros r s. unfold valid. cbn. by destruct (_ =? _). Qed.
Lemma agnostic_bind {A B} (m : M HSt A) (k : A -> M HSt B) : agnostic m -> (forall a, agnostic (k a)) -> agnostic (bindM m k).
Proof. intros Hm Hk r s. unfold bindM. rewrite Hm. destruct (m s) as [[a s1]| |]; [|done..]. cbn. apply Hk. Qed.
Lemma agnostic_modify (f : HSt -> HSt) : (forall r s, f (rebuf r s) = rebuf r (f s)) -> agnostic (modify f).
Proof. intros Hf r s. unfold modify. cbn. by rewrite Hf. Qed.
Lemma agnostic_on_arena {A} (m : M ArenaSt A) : agnostic (on_arena m).
Proof. intros r s. unfold on_arena. cbn. by destruct (m _) as [[a st]| |]. Qed.
Lemma agnostic_on_mem {A} (m : M Heap A) : agnostic (on_mem m).
Proof. intros r s. unfold on_mem. cbn. by destruct (m _) as [[a st]| |]. Qed.
Lemma agnostic_on_sock {A} (m : M Sock A) : agnostic (on_sock m).
Proof. intros r s. unfold on_sock. cbn. by destruct (m _) as [[a st]| |]. Qed.
Lemma agnostic_on_db {A} (m : M T A) : agnostic (on_db m).
Proof. intros r s. unfold on_db. cbn. by destruct (m _) as [[a st]| |]. Qed.
#[local] Hint Resolve agnostic_ret agnostic_ub agnostic_diverge agnostic_lift agnostic_valid agnostic_on_arena agnostic_on_mem
  agnostic_on_sock agnostic_on_db : agnostic.

(** Follows the structure of a computation. *)
Ltac agnostic :=
  repeat match goal with
    | |- agnostic (bindM _ _) => apply agnostic_bind; [|intros ?]
    | |- agnostic (match ?x with _ => _ end) => destruct x
    | |- agnostic (when ?x _) => unfold when
    | |- agnostic (gets _) => apply agnostic_gets; reflexivity
    | |- agnostic (modify _) => apply agnostic_modify; reflexivity
    | |- agnostic (upd_async _) => apply agnostic_modify; reflexivity
    | |- agnostic (upd_conn _) => apply agnostic_modify; reflexivity
    | |- agnostic get_async => apply agnostic_gets; reflexivity
    | |- agnostic _ => progress eauto with agnostic
    end.

Lemma agnostic_begin st : agnostic (response_begin st).
Proof. unfold response_begin, chunk_arena_new. agnostic. Qed.
Lemma agnostic_append d : agnostic (response_append d).
Proof. unfold response_append. agnostic. Qed.
Lemma agnostic_finish : agnostic response_finish.
Proof. unfold response_finish, enqueue. agnostic. Qed.
#[local] Hint Resolve agnostic_begin agnostic_append agnostic_finish : agnostic.
Lemma agnostic_respond st : agnostic (respond st).
Proof. unfold respond. agnostic. Qed.
Lemma agnostic_append_entries l : agnostic (append_entries l).
Proof. induction l; cbn [append_entries]; agnostic. Qed.
Lemma agnostic_submit n : agnostic (submit_chunk n).
Proof. unfold submit_chunk. agnostic. Qed.
Lemma agnostic_poll : agnostic poll_chunk.
Proof. unfold poll_chunk. agnostic. Qed.
#[local] Hint Resolve agnostic_respond agnostic_append_entries agnostic_submit agnostic_poll : agnostic.
Lemma agnostic_pull_next fuel : agnostic (pull_submit_next_chunk fuel).
Proof. induction fuel; cbn [pull_submit_next_chunk]; agnostic. Qed.
Lemma agnostic_terminator : agnostic stream_send_terminator.
Proof. unfold stream_send_terminator, chunk_arena_new, enqueue. agnostic. Qed.
Lemma agnostic_build_frame : agnostic stream_build_frame.
Proof. unfold stream_build_frame, chunk_arena_new, enqueue. agnostic. Qed.
#[local] Hint Resolve agnostic_pull_next agnostic_terminator agnostic_build_frame : agnostic.
Lemma agnostic_stream_next fuel : agnostic (stream_submit_next_chunk fuel).
Proof. induction fuel; cbn [stream_submit_next_chunk]; agnostic. Qed.
#[local] Hint Resolve agnostic_stream_next : agnostic.

Lemma agnostic_dispatch t body n : agnostic (dispatch junk t body n).
Proof.
  unfold dispatch, handle_mutation, handle_pull, handle_pull_stream, handle_push, handle_delete, handle_flush, handle_checkpoint,
    handle_stats, handle_ping, pull_request, alloc_scratch, start_async, chunk_arena_new, enqueue. agnostic.
Qed.

(** ** The loop over the messages *)

(** Bytes arrive at the end of the receive buffer. *)
Definition more (r : list Z) s : HSt :=
  rebuf (match recv_buf (conn s) with Some (p, b) => Some (p, b ++ r) | None => None end) s.

Lemma more_app r r' s : more r' (more r s) = more (r ++ r') s.
Proof. unfold more. destruct s as [? ? ? ? [? ? [[p b]|] ? ? ? ? ? ?] ?]; cbn; [by rewrite <- app_assoc|done]. Qed.
Lemma more_nil s : more [] s = s.
Proof. unfold more. destruct s as [? ? ? ? [? ? [[p b]|] ? ? ? ? ? ?] ?]; cbn; [by rewrite app_nil_r|done]. Qed.

Lemma recv_len_more r s : recv_len (conn s) <= recv_len (conn (more r s)).
Proof. unfold more, recv_len. cbn. destruct (recv_buf (conn s)) as [[p b]|]; [|done]. rewrite zlen_app. pose proof (zlen_nonneg r). lia. Qed.

(** A read leaves the bytes it got behind those that wait. *)
Lemma receive_more s n s' : receive s = Ret (n, s') ->
  exists k bs, s' = more bs (set_conn s (set_sock (conn s) k)).
Proof.
  unfold receive, bindM, gets. cbn [res_bind fst snd]. destruct (recv_buf (conn s)) as [[p b]|] eqn:Eb.
  - unfold on_sock. destruct (sock_read _ _) as [[[n' bs] k]| |]; [|done..]. cbn [res_bind fst snd]. unfold when. destruct (0 <? n').
    + intros [= <- <-]. exists k, bs. unfold more. cbn. by rewrite Eb.
    + intros [= <- <-]. exists k, []. by rewrite more_nil.
  - intros [= <- <-]. exists (sock (conn s)), []. rewrite more_nil. by destruct s as [? ? ? ? [] ?].
Qed.

Lemma process_message_idle s s' : process_message junk s = Ret (0, s') -> s' = s.
Proof.
  unfold process_message, bindM, gets. cbn [res_bind fst snd]. destruct (bool_decide _); [by intros [= <-]|].
  destruct (_ <? _); [by intros [= <-]|]. unfold lift.
  destruct (recv_buf (conn s)) as [[p b]|]; cbn; [|done]. do 3 (destruct (read_u32 b _); cbn; [|done..]).
  destruct (negb _); [done|]. destruct (_ <? _); [by intros [= <-]|]. by destruct (dispatch _ _ _ _ _) as [[[] s1]| |].
Qed.

(** A message that is complete is handled in the same way when more bytes follow it. *)
Lemma process_message_more r s rc s' : process_message junk s = Ret (rc, s') -> rc <> 0 ->
  process_message junk (more r s) = Ret (rc, more r s').
Proof.
  unfold process_message, bindM, gets. cbn [res_bind fst snd]. pose proof (recv_len_more r s) as Hl.
  change (async (conn (more r s))) with (async (conn s)). destruct (bool_decide _); [by intros [= <- <-]|].
  destruct (Z.ltb_spec (recv_len (conn s)) GRAVELDB_WIRE_HEADER_SIZE) as [|Hh]; [by intros [= <- <-]|].
  rewrite (proj2 (Z.ltb_ge (recv_len (conn (more r s))) _)) by lia.
  destruct (recv_buf (conn s)) as [[p b]|] eqn:Eb; [|done].
  assert (Ebr : recv_buf (conn (more r s)) = Some (p, b ++ r)) by (unfold more; cbn; by rewrite Eb).
  assert (Hb : recv_len (conn s) = zlen b) by (unfold recv_len; by rewrite Eb).
  rewrite Ebr. cbn [deref lift res_bind fst snd]. unfold lift.
  do 3 (match goal with |- context [read_u32 b ?o] => destruct (read_u32 b o) as [?x| |] eqn:?E; cbn [res_bind fst snd]; [|done..];
    erewrite (read_u32_more b r o) by eassumption; cbn [res_bind fst snd] end).
  destruct (negb _); [by intros [= <- <-]|]. destruct (Z.ltb_spec (recv_len (conn s)) (message_size x1)) as [|Hm]; [by intros [= <- <-]|].
  rewrite (proj2 (Z.ltb_ge (recv_len (conn (more r s))) _)) by lia.
  destruct (dispatch junk x0 _ x1 s) as [[[] s1]| |] eqn:Ed; [|done..]. cbn [res_bind fst snd].
  intros [= <- <-] _. apply (dispatch_more _ _ r) in Ed.
  rewrite !drop_app_le by (unfold message_size, u32, zlen in *; lia). unfold more at 1. rewrite agnostic_dispatch, Ed. cbn.
  unfold more. cbn. done.
Qed.

Lemma process_message_rc s rc s' : process_message junk s = Ret (rc, s') -> rc = 1 \/ rc = 0 \/ rc = -1.
Proof.
  unfold process_message, bindM, gets. cbn [res_bind fst snd]. destruct (bool_decide _); [intros [= <- _]; lia|].
  destruct (_ <? _); [intros [= <- _]; lia|]. unfold lift.
  destruct (recv_buf (conn s)) as [[p b]|]; cbn; [|done]. do 3 (destruct (read_u32 b _); cbn; [|done..]).
  destruct (negb _); [intros [= <- _]; lia|]. destruct (_ <? _); [intros [= <- _]; lia|].
  destruct (dispatch _ _ _ _ _) as [[[] s1]| |]; [|done..]. intros [= <- _]; lia.
Qed.

Lemma process_messages_rc fuel : forall s rc s', process_messages junk fuel s = Ret (rc, s') -> rc = 0 \/ rc = -1.
Proof.
  induction fuel as [|fuel IH]; intros s rc s'; [done|]. cbn [process_messages]. unfold bindM.
  destruct (process_message junk s) as [[rc1 s1]| |] eqn:E; [|done..]. cbn [res_bind fst snd].
  destruct (Z.ltb_spec 0 rc1); [apply IH|]. intros [= <- _]. apply process_message_rc in E. lia.
Qed.

(** A result does not depend on the bound of the rounds. *)
Lemma process_messages_fuel f : forall f' s x, process_messages junk f s = Ret x -> (f <= f')%nat -> process_messages junk f' s = Ret x.
Proof.
  induction f as [|f IH]; intros [|f'] s x; [done|done|lia|]. cbn [process_messages]. unfold bindM.
  destruct (process_message junk s) as [[rc1 s1]| |]; [|done..]. cbn [res_bind fst snd].
  destruct (0 <? rc1); [|done]. intros E Hf. apply (IH _ _ _ E). lia.
Qed.

(** Once the loop has stopped, it goes on with the bytes that arrive then as if they had
    been there from the start. *)
Lemma process_messages_more r f1 : forall f2 s s1 x, process_messages junk f1 s = Ret (0, s1) ->
  process_messages junk f2 (more r s1) = Ret x -> process_messages junk (f1 + f2) (more r s) = Ret x.
Proof.
  induction f1 as [|f1 IH]; intros f2 s s1 x; [done|]. cbn [process_messages]. unfold bindM at 1.
  destruct (process_message junk s) as [[rc1 s']| |] eqn:E; [|done..]. cbn [res_bind fst snd].
  destruct (Z.ltb_spec 0 rc1) as [Hr|Hr].
  - intros E1 E2. cbn [Nat.add process_messages]. unfold bindM. rewrite (process_message_more r _ _ _ E) by lia. cbn [res_bind fst snd].
    rewrite (proj2 (Z.ltb_lt 0 rc1)) by done. by eapply IH.
  - intros [= -> ->] E2. apply process_message_idle in E as ->. apply (process_messages_fuel f2); [done|lia].
Qed.

Lemma process_messages_refuse r f : forall s s1, process_messages junk f s = Ret (-1, s1) ->
  process_messages junk f (more r s) = Ret (-1, more r s1).
Proof.
  induction f as [|f IH]; intros s s1; [done|]. cbn [process_messages]. unfold bindM.
  destruct (process_message junk s) as [[rc1 s']| |] eqn:E; [|done..]. cbn [res_bind fst snd].
  destruct (Z.ltb_spec 0 rc1) as [Hr|Hr].
  - intros E1. rewrite (process_message_more r _ _ _ E) by lia. cbn [res_bind fst snd]. rewrite (proj2 (Z.ltb_lt 0 rc1)) by done. by apply IH.
  - intros [= -> ->]. by rewrite (process_message_more r _ _ _ E) by lia.
Qed.

(** The loop runs after each of the reads [segs], until it refuses a message. *)
Fixpoint serve_reads (segs : list (list Z)) : M HSt Z :=
  match segs with
  | [] => ret 0
  | b :: segs =>
    do* modify (more b) in
    let* rc := process_all junk in
    if rc <? 0 then ret rc else serve_reads segs
  end.

Lemma serve_reads_one segs : forall b s rc s1, serve_reads (b :: segs) s = Ret (rc, s1) ->
  exists f rest, process_messages junk f (more (b ++ concat segs) s) = Ret (rc, more rest s1) /\ (rc = 0 -> rest = []).
Proof.
  induction segs as [|b' segs IH]; intros b s rc s1 E.
  all: cbn [serve_reads] in E; unfold bindM in E at 1; unfold modify in E at 1; cbn [res_bind fst snd] in E; unfold bindM in E at 1.
  all: unfold process_all in E at 1; set (f := message_fuel _) in *.
  all: destruct (process_messages junk f (more b s)) as [[rc1 s']| |] eqn:E1; [|done..]; cbn [res_bind fst snd] in E.
  all: destruct (Z.ltb_spec rc1 0) as [Hn|Hn]; [injection E as <- <-; destruct (process_messages_rc _ _ _ _ E1) as [->| ->]; [done|]|].
  - exists f, []. rewrite app_nil_r, more_nil. done.
  - injection E as <- <-. destruct (process_messages_rc _ _ _ _ E1) as [->| ->]; [|done]. exists f, []. rewrite app_nil_r, more_nil. done.
  - exists f, (b' ++ concat segs). split; [|done]. rewrite <- more_app. by apply process_messages_refuse.
  - destruct (process_messages_rc _ _ _ _ E1) as [->| ->]; [|done]. destruct (IH b' s' rc s1 E) as (f' & rest & E2 & Hr).
    exists (f + f')%nat, rest. split; [|done]. rewrite <- more_app. by eapply process_messages_more.
Qed.

(** C12: how the network cuts the requests into reads does not matter. When the message loop, run
    after each of the reads [b :: segs], returns, then one run of it on all their bytes at once ends
    too, whatever bound of its rounds is chosen from some bound on, with the same result; the server
    is left in the same state (the store, the responses that are queued, the pull in progress, the
    bytes of a message that is not complete yet), apart from the bytes not read any more after a
    message that is refused. *)
Theorem reads_segmentation b segs s rc s1 : serve_reads (b :: segs) s = Ret (rc, s1) ->
  exists f rest, (forall f', (f <= f')%nat -> process_messages junk f' (more (b ++ concat segs) s) = Ret (rc, more rest s1)) /\
    (rc = 0 -> more rest s1 = s1).
Proof.
  intros (f & rest & E & Hr)%serve_reads_one. exists f, rest. split.
  - intros f' Hf. by eapply process_messages_fuel.
  - intros ->%Hr. apply more_nil.
Qed.
End frames.

(** A ping and a pull that goes on, in three reads. *)
Definition cut_sample : HSt (T := MapStore) := sample_server ∅ 1 [] [] (mkSock [] [] [] E_NONE) false.
Definition cut_bytes : list Z := wire_header GRAVELDB_MSG_PING 0 ++ wire_header GRAVELDB_MSG_PULL 12 ++ bytes_u32 1 ++ bytes_u64 7 ++ [1; 2].
Definition cut_reads : list (list Z) := [take 30 (drop 5 cut_bytes); drop 35 cut_bytes].
Definition cut_end : HSt (T := MapStore) :=
  match serve_reads (fun n => replicate (Z.to_nat n) 0) (take 5 cut_bytes :: cut_reads) cut_sample with Ret (_, s) => s | _ => cut_sample end.

Lemma reads_segmentation_witness :
  a_state (async (conn cut_end)) = CONN_ASYNC_PULL /\
  exists f rest, (forall f', (f <= f')%nat -> process_messages (fun n => replicate (Z.to_nat n) 0) f' (more cut_bytes cut_sample) = Ret (0, more rest cut_end)) /\
    (0 = 0 -> more rest cut_end = cut_end).
Proof.
  split; [by vm_compute|]. apply (reads_segmentation (fun n => replicate (Z.to_nat n) 0) (take 5 cut_bytes) cut_reads cut_sample 0 cut_end).
  by vm_compute.
Defined.
