(* ===== verification/PushProps.v ===== *)
(** PushProps: what a client pushes is what the server puts into the store. *)

From S2P Require Import Prelude Wire Protocol Arena IoPoller Engine Server StoreSpec ServerSend ServerPull Client ClientProps ServerLoop ServerProps.

(** ** The body of a push *)

(** An entry that the caller can push: its embedding has as many floats as it says. *)
Definition push_ok (e : Z * Z * list Z) : Prop :=
  let '(fid, dim, emb) := e in 0 <= fid < 2 ^ 64 /\ 0 <= dim < 2 ^ 31 /\ dim * 4 <= zlen emb.

Definition push_entry (e : Z * Z * list Z) : list Z :=
  let '(fid, dim, emb) := e in bytes_u64 fid ++ bytes_u32 dim ++ take (Z.to_nat (dim * 4)) emb.

Definition push_body (l : list (Z * Z * list Z)) : list Z := bytes_u32 (zlen l) ++ concat (push_entry <$> l).

(** The request that an entry stands for. *)
Definition push_req (e : Z * Z * list Z) : PutReq :=
  let '(fid, dim, emb) := e in mkPutReq fid dim (Some (take (Z.to_nat (dim * 4)) emb)).

Lemma zlen_push_emb dim (emb : list Z) : 0 <= dim -> dim * 4 <= zlen emb -> zlen (take (Z.to_nat (dim * 4)) emb) = dim * 4.
Proof. unfold zlen. rewrite length_take. lia. Qed.

Lemma zlen_push_entry fid dim emb : push_ok (fid, dim, emb) -> zlen (push_entry (fid, dim, emb)) = 12 + dim * 4.
Proof.
  intros (? & ? & ?). unfold push_entry. rewrite !zlen_app, zlen_bytes_u64, zlen_bytes_u32, zlen_push_emb by lia. lia.
Qed.

Lemma copy_front (b : list Z) n : 0 <= n <= zlen b -> copy_from b 0 n = Ret (take (Z.to_nat n) b).
Proof.
  intros H. rewrite <- (take_drop (Z.to_nat n) b) at 1. apply (copy_from_app []); [done|].
  unfold zlen in *. rewrite length_take. lia.
Qed.

Lemma push_entries_spec l : Forall push_ok l -> zlen (concat (push_entry <$> l)) < 2 ^ 32 ->
  push_entries l = Ret (concat (push_entry <$> l)).
Proof.
  induction 1 as [|[[fid dim] emb] l He Hl IH]; intros Hz; [done|]. cbn [push_entries fmap list_fmap concat] in *.
  rewrite zlen_app, (zlen_push_entry _ _ _ He) in Hz. pose proof (zlen_nonneg (concat (push_entry <$> l))).
  destruct He as (Hf & Hd & Hm). unfold u64, u32. rewrite !Z.mod_small by lia.
  rewrite copy_front by lia. cbn [res_bind]. rewrite IH by lia. cbn [res_bind].
  change (push_entry (fid, dim, emb)) with (bytes_u64 fid ++ bytes_u32 dim ++ take (Z.to_nat (dim * 4)) emb). by rewrite <- !app_assoc.
Qed.

Lemma push_size_from n l : Forall push_ok l -> 0 <= n -> n + zlen (concat (push_entry <$> l)) < 2 ^ 32 ->
  foldl (fun n '(_, dim, _) => u64 (n + 12 + u64 (dim * 4))) n l = n + zlen (concat (push_entry <$> l)).
Proof.
  intros Hl. revert n. induction Hl as [|[[fid dim] emb] l He Hl IH]; intros n Hn Hz; [unfold zlen; cbn; lia|].
  cbn [foldl fmap list_fmap concat] in *. rewrite zlen_app, (zlen_push_entry _ _ _ He) in *.
  pose proof (zlen_nonneg (concat (push_entry <$> l))). destruct He as (Hf & Hd & Hm). unfold u64.
  rewrite (Z.mod_small (dim * 4)) by lia. rewrite Z.mod_small by lia. rewrite IH by lia. lia.
Qed.

Lemma zlen_push_body l : zlen (push_body l) = 4 + zlen (concat (push_entry <$> l)).
Proof. unfold push_body. by rewrite zlen_app, zlen_bytes_u32. Qed.

(** An entry has at least twelve bytes. *)
Lemma push_entries_long l : Forall push_ok l -> 12 * zlen l <= zlen (concat (push_entry <$> l)).
Proof.
  induction 1 as [|[[fid dim] emb] l He Hl IH]; [done|]. cbn [fmap list_fmap concat]. rewrite zlen_app, (zlen_push_entry _ _ _ He).
  destruct He as (_ & ? & _). unfold zlen in *. cbn [length]. lia.
Qed.

(** ** The client's side *)

Lemma push_serialize_spec l c : client_ok c -> Forall push_ok l -> zlen (push_body l) < 2 ^ 32 ->
  exists c', push_serialize l c = Ret (Some (push_body l), c') /\ client_ok c' /\ pending c' = pending c /\ cl_sock c' = cl_sock c.
Proof.
  intros Hc Hl Hz. rewrite zlen_push_body in Hz. pose proof (push_entries_long l Hl).
  assert (Hsz : push_size l = zlen (push_body l)) by (rewrite zlen_push_body; unfold push_size; apply push_size_from; auto; lia).
  destruct (grow_send_buf_spec (push_size l) c Hc) as (c' & E & Hok & Hp & Hs & Hcap).
  exists c'. split; [|done]. unfold push_serialize. rewrite (bindM_ret _ _ _ _ _ E). cbn [negb].
  rewrite push_entries_spec by (auto; lia). unfold lift, bindM at 1. cbn [res_bind fst snd].
  assert (Hu : u32 (zlen l) = zlen l) by (apply Z.mod_small; pose proof (zlen_nonneg l); lia). rewrite Hu.
  fold (push_body l). unfold bindM, gets. cbn [res_bind fst snd]. rewrite (proj2 (Z.ltb_ge _ _)) by lia.
  rewrite Hsz. unfold zlen. rewrite Nat2Z.id, firstn_all. done.
Qed.

Lemma send_push_spec l c : client_ok c -> zlen (push_body l) < 2 ^ 32 ->
  exists c', send_push (push_body l) c = Ret (0, c') /\ client_ok c' /\ pending c' = pending c /\
    outbox (cl_sock c') = outbox (cl_sock c) ++ message GRAVELDB_MSG_PUSH (push_body l) /\ inbox (cl_sock c') = inbox (cl_sock c).
Proof.
  intros Hc Hz. unfold send_push, u32. pose proof (zlen_nonneg (push_body l)). rewrite Z.mod_small by lia.
  unfold zlen. rewrite Nat2Z.id, firstn_all. by apply send_request_spec.
Qed.

Lemma client_push_spec l st rest c : client_ok c -> Forall push_ok l -> zlen (push_body l) < 2 ^ 32 -> 0 <= st < 2 ^ 32 ->
  inbox (cl_sock c) = message st [] ++ rest ->
  exists c', graveldb_client_push l c = Ret (if st =? GRAVELDB_WIRE_OK then 0 else -1, c') /\ client_ok c' /\ pending c' = pending c /\
    outbox (cl_sock c') = outbox (cl_sock c) ++ message GRAVELDB_MSG_PUSH (push_body l) /\ inbox (cl_sock c') = rest.
Proof.
  intros Hc Hl Hz Hst Hin. destruct (push_serialize_spec l c Hc Hl Hz) as (c1 & E1 & K1 & P1 & S1).
  destruct (send_push_spec l c1 K1 Hz) as (c2 & E2 & K2 & P2 & O2 & I2).
  destruct (recv_response_spec st [] rest c2 K2 Hst) as (c3 & E3 & K3 & P3 & I3 & O3); [done|by rewrite I2, S1|].
  exists c3. unfold graveldb_client_push. rewrite (bindM_ret _ _ _ _ _ E1), (bindM_ret _ _ _ _ _ E2). cbn [Z.ltb Z.compare].
  rewrite (bindM_ret _ _ _ _ _ E3). split; [done|]. split; [done|]. rewrite O3, O2, S1. split; [congruence|]. done.
Qed.

(** ** The server's side *)

Lemma parse_push_spec l : forall pre post, Forall push_ok l ->
  parse_push (pre ++ concat (push_entry <$> l) ++ post) (zlen pre) (zlen pre + zlen (concat (push_entry <$> l))) (length l) =
  Ret (push_req <$> l).
Proof.
  induction l as [|[[fid dim] emb] l IH]; intros pre post Hl; [done|]. apply Forall_cons in Hl as [He Hl].
  cbn [parse_push length fmap list_fmap concat]. rewrite zlen_app, (zlen_push_entry _ _ _ He).
  pose proof (zlen_nonneg (concat (push_entry <$> l))) as Hpos. pose proof He as (Hf & Hd & Hm).
  rewrite (proj2 (Z.ltb_ge _ _)) by lia. set (X := concat (push_entry <$> l)) in *.
  assert (Eb : pre ++ (push_entry (fid, dim, emb) ++ X) ++ post =
               pre ++ bytes_u64 fid ++ bytes_u32 dim ++ take (Z.to_nat (dim * 4)) emb ++ X ++ post)
    by (unfold push_entry; by rewrite <- !app_assoc).
  rewrite Eb, read_u64_app by done. cbn [res_bind]. rewrite (app_assoc pre), read_u32_app; [|by rewrite zlen_app, zlen_bytes_u64|lia].
  cbn [res_bind]. rewrite (proj2 (Z.ltb_ge _ (_ + 12 + dim * 4))) by lia. rewrite (app_assoc (pre ++ _)), copy_from_app;
    [|rewrite !zlen_app, zlen_bytes_u64, zlen_bytes_u32; lia|by rewrite zlen_push_emb by lia].
  cbn [res_bind]. rewrite (app_assoc (_ ++ bytes_u32 dim)).
  assert (Hp : zlen (((pre ++ bytes_u64 fid) ++ bytes_u32 dim) ++ take (Z.to_nat (dim * 4)) emb) = zlen pre + 12 + dim * 4)
    by (rewrite !zlen_app, zlen_bytes_u64, zlen_bytes_u32, zlen_push_emb by lia; lia).
  rewrite <- Hp. replace (zlen pre + (12 + dim * 4 + zlen X)) with (zlen (((pre ++ bytes_u64 fid) ++ bytes_u32 dim) ++ take (Z.to_nat (dim * 4)) emb) + zlen X) by lia.
  rewrite (IH _ post Hl). cbn [res_bind push_req]. rewrite i32_small by lia. done.
Qed.

Section push.
Context {T : Type} `{!Store T}.
Implicit Types (s : HSt (T := T)).
Variable junk : Z -> list Z.

(** What a push does to the database and to the flush in the background: the
    requests are put, and when no flush is in flight and one is needed, it is
    submitted. *)
Definition stored (reqs : list PutReq) s (d' : T) (af : option (AsyncFlush (T := T))) (busy : bool) : Prop :=
  exists rc d1, store_put reqs (db s) = Ret (rc, d1) /\
    if flush_in_flight s then d' = d1 /\ af = async_flush s /\ busy = true
    else exists need d2, store_flush_needed d1 = Ret (need, d2) /\
      if (need : bool) then busy = true /\ exists rc', store_flush_submit d2 = Ret (rc', af, d')
      else d' = d2 /\ af = async_flush s /\ busy = false.

Definition PUSH_ROOM : Z := 2 ^ 22.

Definition put_and_flush (reqs : list PutReq) : M (HSt (T := T)) unit :=
  let* _ := on_db (store_put reqs) in
  let* busy := gets flush_in_flight in
  if (busy : bool) then ret tt
  else
    let* need := on_db store_flush_needed in
    when need (
      let* '(_, af) := on_db store_flush_submit in
      modify (fun s => set_flush s af true)).

Lemma put_and_flush_spec reqs s d' af busy : stored reqs s d' af busy ->
  put_and_flush reqs s = Ret (tt, set_flush (set_db s d') af busy).
Proof.
  intros (rc & d1 & E1 & Hrest). unfold put_and_flush. rewrite (bindM_ret _ _ _ _ _ (hdb_ret _ _ _ _ E1)).
  unfold bindM at 1, gets. cbn [res_bind fst snd flush_in_flight set_db]. destruct (flush_in_flight s) eqn:Ef.
  - destruct Hrest as (-> & -> & ->). unfold ret, set_flush, set_db. cbn. by rewrite Ef.
  - destruct Hrest as (need & d2 & E2 & Hrest).
    rewrite (bindM_ret _ _ _ _ _ (hdb_ret _ (set_db s d1) _ _ E2)). destruct need; cbn [when].
    + destruct Hrest as (-> & rc' & E3). rewrite (bindM_ret _ _ _ _ _ (hdb_ret _ (set_db (set_db s d1) d2) _ _ E3)). done.
    + destruct Hrest as (-> & -> & ->). unfold ret, set_flush, set_db. cbn. by rewrite Ef.
Qed.

Lemma handle_push_spec l post s d' af busy : Forall push_ok l -> l <> [] -> zlen l <= GRAVELDB_WIRE_MAX_BATCH ->
  arena_room PUSH_ROOM s -> stored (push_req <$> l) s d' af busy ->
  exists s', handle_push (push_body l ++ post) (zlen (push_body l)) s = Ret (tt, s') /\
    db s' = d' /\ async_flush s' = af /\ flush_in_flight s' = busy /\ async (conn s') = async (conn s) /\
    exists ch, send_list (conn s') = send_list (conn s) ++ [ch] /\ ck_data ch = message GRAVELDB_WIRE_OK [] /\
      ck_sent ch = 0 /\ ck_epoch ch = epoch (carena (conn s)).
Proof.
  intros Hl Hne Hn Hr Hst. unfold handle_push. pose proof (zlen_nonneg (concat (push_entry <$> l))). pose proof (zlen_nonneg l).
  rewrite zlen_push_body, (proj2 (Z.ltb_ge _ 4)) by lia. unfold PUSH_ROOM, GRAVELDB_WIRE_MAX_BATCH in *.
  unfold push_body. rewrite <- app_assoc. unfold lift at 1. rewrite read_u32_front by lia.
  unfold bindM at 1. cbn [res_bind fst snd]. rewrite (proj2 (Z.ltb_ge GRAVELDB_WIRE_MAX_BATCH _)) by (unfold GRAVELDB_WIRE_MAX_BATCH; lia).
  destruct (alloc_here (2 ^ 22 - 2 ^ 20) (zlen l * 8) s) as (p1 & s1 & E1 & O1 & _ & R1); [lia|lia|eapply roomy_le; [exact Hr|lia]|].
  rewrite (bindM_ret _ _ _ _ _ E1).
  destruct (alloc_here (2 ^ 22 - 2 * 2 ^ 20) (zlen l * 4) s1) as (p2 & s2 & E2 & O2 & _ & R2); [lia|lia|eapply roomy_le; [exact R1|lia]|].
  rewrite (bindM_ret _ _ _ _ _ E2).
  destruct (alloc_here (2 ^ 22 - 3 * 2 ^ 20) (zlen l * 8) s2) as (p3 & s3 & E3 & O3 & _ & R3); [lia|lia|eapply roomy_le; [exact R2|lia]|].
  rewrite (bindM_ret _ _ _ _ _ E3). assert (O : out_step s s3) by (by transitivity s2; [transitivity s1|]).
  pose proof (parse_push_spec l (bytes_u32 (zlen l)) post Hl) as Ep. rewrite zlen_bytes_u32 in Ep.
  replace (Z.to_nat (zlen l)) with (length l) by (unfold zlen; lia). rewrite Ep. unfold lift at 1, bindM at 1. cbn [res_bind fst snd].
  assert (Hpos : 0 < zlen (push_req <$> l)) by (unfold zlen; rewrite length_fmap; destruct l; [done|cbn; lia]).
  rewrite (proj2 (Z.ltb_lt _ _) Hpos). cbn [when]. destruct (out_step_rest _ _ O) as [Hrest Hsl], (out_step_async _ _ O) as [Ha Hd].
  fold (put_and_flush (push_req <$> l)).
  assert (Hst3 : stored (push_req <$> l) s3 d' af busy).
  { unfold stored. rewrite Hd, (sr_busy _ _ Hrest), (sr_flush _ _ Hrest). exact Hst. }
  rewrite (bindM_ret _ _ _ _ _ (put_and_flush_spec _ _ _ _ _ Hst3)). set (s4 := set_flush _ _ _).
  destruct (respond_spec GRAVELDB_WIRE_OK 0 s4) as (s5 & E5 & (Hr5 & _ & ch & Hl5 & Hch & Hs5 & He5) & Ha5 & Hd5 & _); [done|eapply roomy_le; [exact R3|unfold SEND_CHUNK_SIZE, SEND_CHUNK_INLINE; lia]|].
  exists s5. split; [exact E5|]. rewrite Hd5, (sr_flush _ _ Hr5), (sr_busy _ _ Hr5), Ha5. do 3 (split; [done|]). split; [exact Ha|].
  exists ch. rewrite Hl5. split; [change (send_list (conn s4)) with (send_list (conn s3)); by rewrite Hsl|]. split; [done|]. split; [done|].
  rewrite He5. change (epoch (carena (conn s4))) with (epoch (carena (conn s3))). by apply out_step_epoch.
Qed.

(** The server's part of a push. *)
Lemma server_push l s p rest d' af busy :
  Forall push_ok l -> l <> [] -> zlen l <= GRAVELDB_WIRE_MAX_BATCH ->
  GRAVELDB_WIRE_HEADER_SIZE + zlen (push_body l) < 2 ^ 32 ->
  readonly s = false -> arrived s p (message GRAVELDB_MSG_PUSH (push_body l) ++ rest) -> arena_room PUSH_ROOM s ->
  stored (push_req <$> l) s d' af busy ->
  exists s', process_message junk s = Ret (1, s') /\ arrived s' p rest /\ sent_new s s' (message GRAVELDB_WIRE_OK []) /\
    db s' = d' /\ async_flush s' = af /\ flush_in_flight s' = busy.
Proof.
  intros Hl Hne Hn Hz Hro Ha Hr Hst.
  destruct (handle_push_spec l rest s d' af busy Hl Hne Hn Hr Hst) as (s1 & E & Hd & Haf & Hb & Hasy & ch & Hsl & Hch & Hs & He).
  exists (rebuf (Some (p, rest)) s1). split.
  { rewrite (process_message_whole junk s p GRAVELDB_MSG_PUSH (push_body l) rest Ha) by done.
    assert (Ed : dispatch junk GRAVELDB_MSG_PUSH (push_body l ++ rest) (zlen (push_body l)) s = Ret (tt, s1)).
    { change (dispatch junk GRAVELDB_MSG_PUSH ?b ?n s) with ((let* ro := gets readonly in if (ro : bool) then respond GRAVELDB_WIRE_INVALID else handle_push b n) s).
      unfold bindM, gets. cbn [res_bind fst snd]. by rewrite Hro. }
    by rewrite (bindM_ret _ _ _ _ _ Ed). }
  split; [split; [done|]; cbn; rewrite Hasy; apply Ha|]. split; [|by repeat split].
  exists [ch]. split; [done|]. cbn. rewrite app_nil_r. split; [done|]. constructor; [|done]. split; [done|]. split; [done|]. by rewrite Hch.
Qed.

(** C11: the round trip of a push. The client's [graveldb_client_push] writes a request
    from which the server reads back exactly the caller's features, dimensions and
    embeddings, in order, however many bytes follow it, and puts them into the
    database in one call, submitting a flush when one is needed and none is in
    flight. Its response is OK whatever status the put returned, and the client that
    receives it returns 0. *)
Theorem push_roundtrip l s p rest cl left d' af busy :
  Forall push_ok l -> l <> [] -> zlen l <= GRAVELDB_WIRE_MAX_BATCH ->
  GRAVELDB_WIRE_HEADER_SIZE + zlen (push_body l) < 2 ^ 32 ->
  readonly s = false -> arrived s p (message GRAVELDB_MSG_PUSH (push_body l) ++ rest) -> arena_room PUSH_ROOM s ->
  stored (push_req <$> l) s d' af busy -> client_ok cl -> inbox (cl_sock cl) = message GRAVELDB_WIRE_OK [] ++ left ->
  exists s' cl', process_message junk s = Ret (1, s') /\ arrived s' p rest /\ sent_new s s' (message GRAVELDB_WIRE_OK []) /\
    db s' = d' /\ async_flush s' = af /\ flush_in_flight s' = busy /\
    graveldb_client_push l cl = Ret (0, cl') /\ inbox (cl_sock cl') = left /\
    outbox (cl_sock cl') = outbox (cl_sock cl) ++ message GRAVELDB_MSG_PUSH (push_body l).
Proof.
  intros Hl Hne Hn Hz Hro Ha Hr Hst Hcl Hin. unfold GRAVELDB_WIRE_HEADER_SIZE in Hz.
  destruct (client_push_spec l GRAVELDB_WIRE_OK left cl) as (cl' & Ec & _ & _ & Hout & Hleft); [done..|lia|done|done|].
  destruct (server_push l s p rest d' af busy) as (s' & E & A & S & Hd & Haf & Hb); try done.
  exists s', cl'. by repeat (split; [done|]).
Qed.
End push.

Definition push_sample_entries : list (Z * Z * list Z) := [(7, 1, [1; 2; 3; 4; 5]); (9, 0, [])].
Definition push_sample : HSt (T := MapStore) :=
  sample_server ∅ 0 (message GRAVELDB_MSG_PUSH (push_body push_sample_entries) ++ [66]) [] no_sock false.

Lemma push_roundtrip_witness :
  push_req <$> push_sample_entries = [mkPutReq 7 1 (Some [1; 2; 3; 4]); mkPutReq 9 0 (Some [])] /\
  exists s' cl', process_message zeros push_sample = Ret (1, s') /\ arrived s' 16 [66] /\ sent_new push_sample s' (message GRAVELDB_WIRE_OK []) /\
    db s' = mkMapStore {[ 7 := (1, [1; 2; 3; 4]); 9 := (0, []) ]} 0 0 /\ async_flush s' = None /\ flush_in_flight s' = false /\
    graveldb_client_push push_sample_entries (sample_client (message GRAVELDB_WIRE_OK [])) = Ret (0, cl') /\ inbox (cl_sock cl') = [] /\
    outbox (cl_sock cl') = [] ++ message GRAVELDB_MSG_PUSH (push_body push_sample_entries).
Proof.
  split; [reflexivity|].
  apply (push_roundtrip zeros push_sample_entries push_sample 16 [66] (sample_client (message GRAVELDB_WIRE_OK []))).
  - repeat constructor; by vm_compute.
  - done.
  - by vm_compute.
  - by vm_compute.
  - reflexivity.
  - by split.
  - by apply sample_room.
  - eexists _, _. split; [reflexivity|]. cbn. eexists _, _. split; [reflexivity|]. split; [by vm_compute|]. done.
  - exact (sample_client_ok _).
  - by rewrite app_nil_r.
Defined.
