(* ===== verification/LoopProps.v ===== *)
(** LoopProps: what every iteration of the server's loops keeps.

    Two facts are carried through all handlers: the descriptor of a connection stays
    what it is until the connection is closed, and the operations that a read-only
    server performs on its store are reads. Both are frame properties ([framed]) with
    one rule per way of composing computations; the hints of [frame] apply them. *)

From S2P Require Import Prelude Wire Protocol Arena IoPoller Engine Server StoreSpec ServerLoop.

Create HintDb frame.

(** A relation between stores that holds across reads. *)
Record reads_keep {T : Type} `{!Store T} (R : T -> T -> Prop) : Prop := {
  rk_preorder : PreOrder R;
  rk_submit ids o d r d' : store_get_submit ids o d = Ret (r, d') -> R d d';
  rk_poll ag o d r d' : store_get_poll ag o d = Ret (r, d') -> R d d';
  rk_stats d r d' : store_stats d = Ret (r, d') -> R d d'
}.

Section frame.
Context {T : Type} `{!Store T}.
Implicit Types (s : HSt (T := T)).
Variable R : T -> T -> Prop.
Hypothesis HR : reads_keep R.
Variable b : bool.

#[local] Abbreviation H A := (M (HSt (T := T)) A).

Let R_preorder : PreOrder R := rk_preorder R HR.
#[local] Existing Instance R_preorder.

(** [b]: whether the server is read-only. *)
Definition quiet (d d' : T) (f f' : bool) : Prop := b = true -> f' = f /\ R d d'.

Lemma quiet_refl d f : quiet d d f f.
Proof. intros _. by split. Qed.
Lemma quiet_trans d1 d2 d3 f1 f2 f3 : quiet d1 d2 f1 f2 -> quiet d2 d3 f2 f3 -> quiet d1 d3 f1 f3.
Proof. intros H1 H2 Hb. destruct (H1 Hb), (H2 Hb). split; [congruence|by transitivity d2]. Qed.

Definition frame s s' : Prop :=
  readonly s' = readonly s /\ quiet (db s) (db s') (flush_in_flight s) (flush_in_flight s').

Definition framed {A} (m : H A) : Prop :=
  forall s a s', readonly s = b -> m s = Ret (a, s') -> frame s s' /\ fd (conn s') = fd (conn s).

Lemma framed_same {A} (m : H A) : (forall s a s', m s = Ret (a, s') -> s' = s) -> framed m.
Proof. intros Hm s a s' _ E. rewrite (Hm _ _ _ E). split; [split; [done|apply quiet_refl]|done]. Qed.

Lemma framed_ret {A} (a : A) : framed (ret a).
Proof. apply framed_same. by intros s a' s' [= _ <-]. Qed.
Lemma framed_gets {A} (f : HSt -> A) : framed (gets f).
Proof. apply framed_same. by intros s a' s' [= _ <-]. Qed.
Lemma framed_ub {A} : framed (fun _ => Ub : res (A * HSt)).
Proof. by intros s a s' _ E. Qed.
Lemma framed_diverge {A} : framed (fun _ => Diverge : res (A * HSt)).
Proof. by intros s a s' _ E. Qed.
Lemma framed_lift {A} (r : res A) : framed (lift r).
Proof. apply framed_same. intros s a s'. unfold lift. destruct r; cbn; [|done..]. by intros [= _ <-]. Qed.
Lemma framed_valid e : framed (valid e).
Proof. apply framed_same. intros s a s'. unfold valid. destruct (_ =? _); [|done]. by intros [= _ <-]. Qed.

Lemma framed_bind {A B} (m : H A) (k : A -> H B) : framed m -> (forall a, framed (k a)) -> framed (bindM m k).
Proof.
  intros Hm Hk s a s' Hb E. unfold bindM in E. destruct (m s) as [[a1 s1]| |] eqn:E1; [|done..]. cbn in E.
  destruct (Hm _ _ _ Hb E1) as [[Hr1 Hq1] Hf1]. assert (Hb1 : readonly s1 = b) by congruence.
  destruct (Hk _ _ _ _ Hb1 E) as [[Hr2 Hq2] Hf2]. split; [split; [congruence|by eapply quiet_trans]|congruence].
Qed.

(** A step that changes the connection, but not its descriptor, or the heap. *)
Lemma framed_conn {A} (m : H A) :
  (forall s a s', m s = Ret (a, s') -> exists c h, s' = set_mem (set_conn s c) h /\ fd c = fd (conn s)) -> framed m.
Proof. intros Hm s a s' _ E. destruct (Hm _ _ _ E) as (c & h & -> & Hf). split; [split; [done|apply quiet_refl]|done]. Qed.

Lemma framed_upd_conn (f : ClientConn -> ClientConn) : (forall c, fd (f c) = fd c) -> framed (upd_conn f).
Proof. intros Hf. apply framed_conn. intros s a s' [= _ <-]. exists (f (conn s)), (mem s). by rewrite Hf. Qed.
Lemma framed_upd_async f : framed (upd_async f).
Proof. by apply framed_upd_conn. Qed.
Lemma framed_on_arena {A} (m : M ArenaSt A) : framed (on_arena m).
Proof.
  apply framed_conn. intros s a s'. unfold on_arena. destruct (m _) as [[a' st]| |]; cbn; [|done..]. intros [= _ <-].
  by eexists _, _.
Qed.
Lemma framed_on_mem {A} (m : M Heap A) : framed (on_mem m).
Proof.
  apply framed_conn. intros s a s'. unfold on_mem. destruct (m _) as [[a' h]| |]; cbn; [|done..]. intros [= _ <-].
  exists (conn s), h. by destruct s.
Qed.
Lemma framed_on_sock {A} (m : M Sock A) : framed (on_sock m).
Proof.
  apply framed_conn. intros s a s'. unfold on_sock. destruct (m _) as [[a' k]| |]; cbn; [|done..]. intros [= _ <-].
  by exists (set_sock (conn s) k), (mem s).
Qed.

Lemma framed_on_db {A} (m : M T A) : (forall d a d', m d = Ret (a, d') -> R d d') -> framed (on_db m).
Proof.
  intros Hm s a s' _ E. unfold on_db in E. destruct (m (db s)) as [[a' d]| |] eqn:Em; [|done..]. injection E as _ <-.
  split; [split; [done|]|done]. intros _. split; [done|]. by apply Hm in Em.
Qed.

#[local] Hint Resolve framed_ret framed_gets framed_ub framed_diverge framed_lift framed_valid framed_upd_async
  framed_on_arena framed_on_mem framed_on_sock : frame.

(** Follows the structure of a computation. *)
Ltac framed :=
  repeat match goal with
    | |- framed (bindM _ _) => apply framed_bind; [|intros ?]
    | |- framed (match ?x with _ => _ end) => destruct x
    | |- framed (when ?x _) => unfold when
    | |- framed (let '(_, _) := ?x in _) => destruct x
    | |- framed (upd_conn _) => apply framed_upd_conn; intros ?; reflexivity
    | |- framed _ => progress eauto with frame
    end.

(** *** Connections and responses *)

Lemma framed_chunk_new : framed chunk_arena_new.
Proof. unfold chunk_arena_new. framed. Qed.
#[local] Hint Resolve framed_chunk_new : frame.

Lemma framed_valid_chunks l : framed (valid_chunks l).
Proof. induction l; cbn [valid_chunks]; framed. Qed.
#[local] Hint Resolve framed_valid_chunks : frame.

Lemma framed_flush_rounds fuel : framed (flush_rounds fuel).
Proof. induction fuel; cbn [flush_rounds]; framed. Qed.

Lemma framed_flush_raw : framed client_flush_send_raw.
Proof. intros s a s' Hb E. by eapply framed_flush_rounds. Qed.
#[local] Hint Resolve framed_flush_raw : frame.

Lemma framed_flush : framed client_flush_send.
Proof. unfold client_flush_send. framed. Qed.

Lemma framed_begin st : framed (response_begin st).
Proof. unfold response_begin. framed. Qed.
Lemma framed_append d : framed (response_append d).
Proof. unfold response_append. framed. Qed.
Lemma framed_finish : framed response_finish.
Proof. unfold response_finish, enqueue. framed. Qed.
#[local] Hint Resolve framed_begin framed_append framed_finish : frame.
Lemma framed_respond st : framed (respond st).
Proof. unfold respond. framed. Qed.
#[local] Hint Resolve framed_respond : frame.

(** *** Pulls *)

Lemma framed_append_entries l : framed (append_entries l).
Proof. induction l; cbn [append_entries]; unfold get_async; framed. Qed.
Lemma framed_submit n : framed (submit_chunk n).
Proof. unfold submit_chunk, get_async. framed. apply framed_on_db. intros. by eapply rk_submit. Qed.
Lemma framed_poll : framed poll_chunk.
Proof. unfold poll_chunk, get_async. framed. apply framed_on_db. intros. by eapply rk_poll. Qed.
#[local] Hint Resolve framed_append_entries framed_submit framed_poll : frame.

Lemma framed_pull_next fuel : framed (pull_submit_next_chunk fuel).
Proof. induction fuel; cbn [pull_submit_next_chunk]; unfold get_async; framed. Qed.
#[local] Hint Resolve framed_pull_next : frame.

Lemma framed_terminator : framed stream_send_terminator.
Proof. unfold stream_send_terminator, enqueue. framed. Qed.
Lemma framed_build_frame : framed stream_build_frame.
Proof. unfold stream_build_frame, enqueue, get_async. framed. Qed.
#[local] Hint Resolve framed_terminator framed_build_frame : frame.
Lemma framed_stream_next fuel : framed (stream_submit_next_chunk fuel).
Proof. induction fuel; cbn [stream_submit_next_chunk]; unfold get_async; framed. Qed.
#[local] Hint Resolve framed_stream_next : frame.

Lemma framed_resume : framed client_async_resume.
Proof. unfold client_async_resume, pull_resume, stream_resume, get_async. framed. Qed.

Lemma framed_pull junk body n : framed (handle_pull junk body n).
Proof. unfold handle_pull, pull_request, alloc_scratch, start_async, get_async. framed. Qed.
Lemma framed_pull_stream junk body n : framed (handle_pull_stream junk body n).
Proof. unfold handle_pull_stream, pull_request, alloc_scratch, start_async, get_async, enqueue. framed. Qed.
#[local] Hint Resolve framed_resume framed_pull framed_pull_stream framed_flush : frame.

(** *** The other requests *)

Lemma framed_stats : framed handle_stats.
Proof. unfold handle_stats. framed. apply framed_on_db. intros. by eapply rk_stats. Qed.
Lemma framed_ping : framed handle_ping.
Proof. unfold handle_ping. framed. Qed.
#[local] Hint Resolve framed_stats framed_ping : frame.

(** What changes the store is framed when the server is not read-only. *)
Lemma framed_write {A} (m : M T A) : b = false -> framed (on_db m).
Proof.
  intros Hb s a s' _ E. unfold on_db in E. destruct (m (db s)) as [[a' d]| |] eqn:Em; [|done..]. injection E as _ <-.
  split; [split; [done|]|done]. intros Hb'. congruence.
Qed.
Lemma framed_set_flush af f : b = false -> framed (modify (fun s => set_flush s af f)).
Proof. intros Hb s a s' _ [= _ <-]. split; [split; [done|]|done]. intros Hb'. congruence. Qed.
#[local] Hint Resolve framed_write framed_set_flush : frame.

Lemma framed_mutation t body n : b = false -> framed (handle_mutation t body n).
Proof. intros Hb. unfold handle_mutation, handle_push, handle_delete, handle_flush, handle_checkpoint. framed. Qed.

Lemma framed_dispatch junk t body n : framed (dispatch junk t body n).
Proof.
  unfold dispatch. destruct (t =? GRAVELDB_MSG_PULL); [framed|]. destruct (t =? GRAVELDB_MSG_PULL_STREAM); [framed|].
  destruct (is_mutation t); [|framed]. intros s a s' Hb E. unfold bindM, gets in E. cbn [res_bind fst snd] in E.
  destruct (readonly s) eqn:Er.
  - eapply framed_respond; [|exact E]. congruence.
  - eapply framed_mutation; [congruence| |exact E]; congruence.
Qed.
#[local] Hint Resolve framed_dispatch : frame.

Lemma framed_process junk : framed (process_message junk).
Proof. unfold process_message. framed. Qed.
#[local] Hint Resolve framed_process : frame.
Lemma framed_process_messages junk fuel : framed (process_messages junk fuel).
Proof. induction fuel; cbn [process_messages]; framed. Qed.
Lemma framed_process_all junk : framed (process_all junk).
Proof. intros s a s' Hb E. exact (framed_process_messages junk (message_fuel (conn s)) s a s' Hb E). Qed.

Lemma framed_grow limit : framed (grow_recv limit).
Proof. unfold grow_recv. framed. Qed.
Lemma framed_receive : framed receive.
Proof. unfold receive. framed. Qed.

(** *** Closing *)

Lemma drain_keeps fuel : forall ag o d r d', drain_get fuel ag o d = Ret (r, d') -> R d d'.
Proof.
  induction fuel as [|fuel IH]; intros ag o d r d' E; [done|]. cbn [drain_get] in E. unfold bindM in E.
  destruct (store_get_poll ag o d) as [[[[rc ag'] o'] d1]| |] eqn:Ep; [|done..]. cbn [res_bind fst snd] in E.
  apply (rk_poll R HR) in Ep. destruct (decide _); [|by injection E as _ <-]. transitivity d1; [done|by eapply IH].
Qed.

Definition closes {A} (m : H A) : Prop :=
  forall s a s', readonly s = b -> m s = Ret (a, s') -> frame s s' /\ fd (conn s') = -1.

Lemma closes_bind {A B} (m : H A) (k : A -> H B) : framed m -> (forall a, closes (k a)) -> closes (bindM m k).
Proof.
  intros Hm Hk s a s' Hb E. unfold bindM in E. destruct (m s) as [[a1 s1]| |] eqn:E1; [|done..]. cbn in E.
  destruct (Hm _ _ _ Hb E1) as [[Hr1 Hq1] Hf1]. assert (Hb1 : readonly s1 = b) by congruence.
  destruct (Hk _ _ _ _ Hb1 E) as [[Hr2 Hq2] Hf2]. split; [split; [congruence|by eapply quiet_trans]|done].
Qed.

Lemma closes_client_close fuel : closes (client_close fuel).
Proof.
  unfold client_close, get_async.
  repeat (apply closes_bind; [framed; apply framed_on_db; intros; by eapply drain_keeps|intros ?]).
  intros s x s' _ [= _ <-]. split; [split; [done|apply quiet_refl]|done].
Qed.

(** ** The loops *)

Implicit Types (l : EventLoop T).

(** How many connections there are, and how far the counter is from it. *)
Definition is_live (c : ClientConn (T := T)) : bool := 0 <=? fd c.
Definition live_count (cs : list (ClientConn (T := T))) : Z := foldr (fun c n => (if is_live c then 1 else 0) + n) 0 cs.
Definition balance l : Z := l_num_clients l - live_count (l_clients l).

Definition live_at (i : Z) l : Prop := exists c, rd (l_clients l) i = Ret c /\ is_live c = true.

Definition lframe l l' : Prop :=
  l_readonly l' = l_readonly l /\ quiet (l_db l) (l_db l') (l_in_flight l) (l_in_flight l') /\ balance l' = balance l.

#[export] Instance lframe_preorder : PreOrder lframe.
Proof.
  split.
  - intros l. split; [done|]. split; [apply quiet_refl|done].
  - intros l1 l2 l3 (H1 & H2 & H3) (H4 & H5 & H6). split; [congruence|]. split; [by eapply quiet_trans|congruence].
Qed.

Lemma live_count_insert cs i c c' : cs !! i = Some c ->
  live_count (<[i:=c']> cs) = live_count cs - (if is_live c then 1 else 0) + (if is_live c' then 1 else 0).
Proof.
  revert i. induction cs as [|c0 cs IH]; intros [|i] Hi; [done..| |].
  - injection Hi as ->. unfold live_count. cbn. lia.
  - change (<[S i:=c']> (c0 :: cs)) with (c0 :: <[i:=c']> cs). cbn [live_count foldr]. fold (live_count cs). fold (live_count (<[i:=c']> cs)).
    rewrite (IH i Hi). lia.
Qed.

Lemma balance_client l i c c' n : rd (l_clients l) i = Ret c -> n = (if is_live c' then 1 else 0) - (if is_live c then 1 else 0) ->
  l_num_clients l + n - live_count (<[Z.to_nat i:=c']> (l_clients l)) = balance l.
Proof. intros [_ Hi]%rd_ret ->. rewrite (live_count_insert _ _ _ _ Hi). unfold balance. lia. Qed.

(** A handler runs on the connection in slot [i]. *)
Lemma with_client_inv {A} i (m : H A) l a l' : with_client i m l = Ret (a, l') ->
  exists c s, rd (l_clients l) i = Ret c /\ m (mkHSt (l_db l) (l_flush l) (l_in_flight l) (l_readonly l) c (l_mem l)) = Ret (a, s) /\
    l' = set_heap (set_clients (set_loop_db l (db s) (async_flush s) (flush_in_flight s)) (<[Z.to_nat i := conn s]> (l_clients l))) (mem s).
Proof.
  unfold with_client. destruct (rd (l_clients l) i) as [c| |] eqn:Ec; [|done..]. cbn [res_bind].
  destruct (m _) as [[a1 s]| |] eqn:Em; [|done..]. cbn [res_bind].
  rewrite wr_ret by (by eapply rd_ret_range). cbn [res_bind]. intros [= <- <-]. by exists c, s.
Qed.

#[local] Abbreviation L A := (M (EventLoop T) A).

(** Computations that keep the frame; those that also keep the connection in slot
    [i] alive; those that tell whether they did. *)
Definition steps {A} (m : L A) : Prop := forall l a l', l_readonly l = b -> m l = Ret (a, l') -> lframe l l'.
Definition stays {A} (i : Z) (m : L A) : Prop :=
  forall l a l', l_readonly l = b -> live_at i l -> m l = Ret (a, l') -> lframe l l' /\ live_at i l'.
Definition tells (i : Z) (m : L bool) : Prop :=
  forall l a l', l_readonly l = b -> live_at i l -> m l = Ret (a, l') -> lframe l l' /\ (a = true -> live_at i l').

Lemma lframe_client l i c s : l_readonly l = b -> rd (l_clients l) i = Ret c -> fd (conn s) = fd c ->
  frame (mkHSt (l_db l) (l_flush l) (l_in_flight l) (l_readonly l) c (l_mem l)) s ->
  lframe l (set_heap (set_clients (set_loop_db l (db s) (async_flush s) (flush_in_flight s)) (<[Z.to_nat i := conn s]> (l_clients l))) (mem s)).
Proof.
  intros Hb Hc Hf [_ Hq]. split; [done|]. split; [done|]. unfold balance at 1. cbn.
  rewrite <- (balance_client l i c (conn s) 0 Hc) by (unfold is_live; rewrite Hf; by rewrite Z.sub_diag). by rewrite Z.add_0_r.
Qed.

Lemma stays_with_client {A} i (m : H A) : framed m -> stays i (with_client i m).
Proof.
  intros Hm l a l' Hb (c & Hc & Hl) E. apply with_client_inv in E as (c' & s & Hc' & Em & ->). rewrite Hc in Hc'. injection Hc' as <-.
  apply Hm in Em as [Hfr Hfd]; [|done]. split; [by eapply (lframe_client l i c)|].
  exists (conn s). cbn. rewrite rd_insert_eq by (by eapply rd_ret_range). split; [done|]. unfold is_live in *. by rewrite Hfd.
Qed.

Lemma steps_with_client {A} i (m : H A) : framed m -> steps (with_client i m).
Proof.
  intros Hm l a l' Hb E. apply with_client_inv in E as (c & s & Hc & Em & ->).
  apply Hm in Em as [Hfr Hfd]; [|done]. by eapply (lframe_client l i c).
Qed.

Lemma lsteps_bind {A B} (m : L A) (k : A -> L B) : steps m -> (forall a, steps (k a)) -> steps (bindM m k).
Proof.
  intros Hm Hk l a l' Hb E. unfold bindM in E. destruct (m l) as [[a1 l1]| |] eqn:E1; [|done..]. cbn in E.
  pose proof (Hm _ _ _ Hb E1) as H1. transitivity l1; [done|]. eapply Hk; [|exact E]. destruct H1; congruence.
Qed.

Lemma stays_bind_tells {A} i (m : L A) (k : A -> L bool) : stays i m -> (forall a, tells i (k a)) -> tells i (bindM m k).
Proof.
  intros Hm Hk l a l' Hb Hl E. unfold bindM in E. destruct (m l) as [[a1 l1]| |] eqn:E1; [|done..]. cbn in E.
  destruct (Hm _ _ _ Hb Hl E1) as [H1 Hl1]. destruct (Hk a1 l1 a l') as [H2 H3]; [destruct H1; congruence|done|done|].
  split; [by transitivity l1|done].
Qed.

(** A computation that starts with the connection alive and need not leave it so. *)
Definition ends {A} (i : Z) (m : L A) : Prop := forall l a l', l_readonly l = b -> live_at i l -> m l = Ret (a, l') -> lframe l l'.

Lemma stays_bind {A B} i (m : L A) (k : A -> L B) : stays i m -> (forall a, ends i (k a)) -> ends i (bindM m k).
Proof.
  intros Hm Hk l a l' Hb Hl E. unfold bindM in E. destruct (m l) as [[a1 l1]| |] eqn:E1; [|done..]. cbn in E.
  destruct (Hm _ _ _ Hb Hl E1) as [H1 Hl1]. transitivity l1; [done|]. eapply Hk; [|done|exact E]. destruct H1; congruence.
Qed.

Lemma tells_bind {B} i (m : L bool) (k : bool -> L B) : tells i m -> ends i (k true) -> steps (k false) -> ends i (bindM m k).
Proof.
  intros Hm Ht Hf l a l' Hb Hl E. unfold bindM in E. destruct (m l) as [[a1 l1]| |] eqn:E1; [|done..]. cbn in E.
  destruct (Hm _ _ _ Hb Hl E1) as [H1 Hl1]. transitivity l1; [done|]. assert (l_readonly l1 = b) by (destruct H1; congruence).
  destruct a1; [eapply Ht|eapply Hf]; eauto.
Qed.

Lemma tells_bind_tells i (m : L bool) (k : bool -> L bool) : tells i m -> tells i (k true) -> (forall l, k false l = Ret (false, l)) -> tells i (bindM m k).
Proof.
  intros Hm Ht Hf l a l' Hb Hl E. unfold bindM in E. destruct (m l) as [[a1 l1]| |] eqn:E1; [|done..]. cbn in E.
  destruct (Hm _ _ _ Hb Hl E1) as [H1 Hl1]. assert (l_readonly l1 = b) by (destruct H1; congruence). destruct a1.
  - destruct (Ht l1 a l') as [H2 H3]; auto. split; [by transitivity l1|done].
  - rewrite Hf in E. by injection E as <- <-.
Qed.

Lemma steps_same {A} (m : L A) : (forall l a l', m l = Ret (a, l') -> l' = l) -> steps m.
Proof. intros Hm l a l' _ E. by rewrite (Hm _ _ _ E). Qed.
Lemma stays_same {A} i (m : L A) : (forall l a l', m l = Ret (a, l') -> l' = l) -> stays i m.
Proof. intros Hm l a l' _ Hl E. by rewrite (Hm _ _ _ E). Qed.

Lemma get_client_same i l a l' : get_client i l = Ret (a, l') -> l' = l /\ rd (l_clients l) i = Ret a.
Proof. unfold get_client. destruct (rd _ _); cbn; [|done..]. by intros [= <- <-]. Qed.

Lemma on_poller_frame {A} (f : IOPoller UserData -> res (A * IOPoller UserData)) l a l' : on_poller f l = Ret (a, l') ->
  lframe l l' /\ l_clients l' = l_clients l.
Proof.
  unfold on_poller. destruct (f _) as [[a1 p]| |]; cbn; [|done..]. intros [= <- <-]. split; [|done].
  split; [done|]. split; [apply quiet_refl|done].
Qed.

#[local] Hint Resolve framed_process_all framed_grow framed_receive framed_flush framed_flush_raw framed_resume : frame.

Lemma lsteps_ret {A} (a : A) : steps (ret a).
Proof. apply steps_same. by intros l a' l' [= _ <-]. Qed.
Lemma steps_gets {A} (f : EventLoop T -> A) : steps (gets f).
Proof. apply steps_same. by intros l a' l' [= _ <-]. Qed.
Lemma steps_get_client i : steps (get_client i).
Proof. apply steps_same. intros l a l' E. by apply get_client_same in E as [-> _]. Qed.
Lemma steps_on_poller {A} (f : IOPoller UserData -> res (A * IOPoller UserData)) : steps (on_poller f).
Proof. intros l a l' _ E. by apply on_poller_frame in E as [? _]. Qed.
Lemma stays_get_client i j : stays i (get_client j).
Proof. apply stays_same. intros l a l' E. by apply get_client_same in E as [-> _]. Qed.
Lemma stays_gets {A} i (f : EventLoop T -> A) : stays i (gets f).
Proof. apply stays_same. by intros l a' l' [= _ <-]. Qed.
Lemma stays_on_poller {A} i (f : IOPoller UserData -> res (A * IOPoller UserData)) : stays i (on_poller f).
Proof. intros l a l' _ (c & Hc & Hl) E. apply on_poller_frame in E as [Hf Hcs]. split; [done|]. exists c. by rewrite Hcs. Qed.
Lemma tells_true i : tells i (ret true).
Proof. by intros l a l' _ Hl [= <- <-]. Qed.
Lemma ends_steps {A} i (m : L A) : steps m -> ends i m.
Proof. intros Hm l a l' Hb _ E. by eapply Hm. Qed.
#[local] Hint Resolve lsteps_ret steps_gets steps_get_client steps_on_poller stays_get_client stays_gets stays_on_poller tells_true
  stays_with_client steps_with_client : frame.

(** Dropping a live connection. *)
Lemma ends_drop fuel i : ends i (drop_client fuel i).
Proof.
  unfold drop_client. apply stays_bind; [auto with frame|intros c]. apply stays_bind; [auto with frame|intros _].
  intros l a l' Hb (c0 & Hc & Hl) E. unfold bindM in E. destruct (with_client i (client_close fuel) l) as [[[] l1]| |] eqn:E1; [|done..].
  apply with_client_inv in E1 as (c1 & s & Hc1 & Em & ->). rewrite Hc in Hc1. injection Hc1 as <-.
  apply closes_client_close in Em as [[_ Hq] Hfd]; [|done]. injection E as _ <-.
  split; [done|]. split; [done|]. unfold balance at 1. cbn. apply (balance_client l i c0 (conn s) (-1) Hc).
  rewrite Hl. unfold is_live. rewrite Hfd. done.
Qed.

Lemma tells_drop fuel i : tells i (do* drop_client fuel i in ret false).
Proof.
  intros l a l' Hb Hl E. unfold bindM in E. destruct (drop_client fuel i l) as [[[] l1]| |] eqn:E1; [|done..].
  injection E as <- <-. split; [by eapply ends_drop|done].
Qed.
#[local] Hint Resolve tells_drop : frame.

Lemma tells_send fuel i m : framed m -> tells i (send_or_drop fuel i m).
Proof.
  intros Hm. unfold send_or_drop. apply stays_bind_tells; [auto with frame|intros c]. destruct (client_has_pending_send c); [|auto with frame].
  apply stays_bind_tells; [auto with frame|intros rc]. destruct (rc <? 0); auto with frame.
Qed.

Lemma tells_process fuel junk i : tells i (process_or_drop fuel junk i).
Proof.
  unfold process_or_drop. apply stays_bind_tells; [auto with frame|intros rc]. destruct (rc <? 0); auto with frame.
Qed.

Lemma steps_interest i : steps (update_interest i).
Proof.
  unfold update_interest. apply lsteps_bind; [auto with frame|intros c]. destruct (0 <=? fd c); [|auto with frame].
  apply lsteps_bind; auto with frame.
Qed.
#[local] Hint Resolve tells_send tells_process steps_interest ends_steps : frame.

Lemma steps_resume_client fuel junk i : steps (resume_client fuel junk i).
Proof.
  unfold resume_client. intros l a l' Hb E. unfold bindM at 1 in E. destruct (get_client i l) as [[c l1]| |] eqn:E1; [|done..].
  apply get_client_same in E1 as [-> Hc]. cbn [res_bind fst snd] in E. destruct (_ || _) eqn:Ef.
  { by injection E as _ <-. }
  apply orb_false_iff in Ef as [Ef _]. apply Z.ltb_ge in Ef.
  assert (Hl : live_at i l) by (exists c; split; [done|by apply Z.leb_le]).
  revert Hb Hl E. match goal with |- _ -> _ -> ?m l = _ -> _ => cut (ends i m); [intros X; intros; by eapply X|] end.
  apply stays_bind; [auto with frame|intros rc].
  assert (Hend : ends i (do* update_interest i in ret true) /\ steps (do* ret tt in (ret true : L bool))).
  { split; [apply ends_steps|]; apply lsteps_bind; auto with frame. }
  apply tells_bind; [|by apply Hend..]. destruct (rc =? 0); [|auto with frame].
  apply tells_bind_tells; auto with frame.
Qed.

Lemma steps_resume_clients fuel junk slots : forall h, steps (resume_clients fuel junk slots h).
Proof.
  induction slots as [|i slots IH]; intros h; cbn [resume_clients]; [auto with frame|].
  apply lsteps_bind; [apply steps_resume_client|done].
Qed.

(** *** New connections *)

Lemma free_slot_spec cs k i : free_slot cs k = Some i -> 0 <= k -> exists c, rd cs (i - k) = Ret c /\ fd c = -1 /\ k <= i.
Proof.
  revert k. induction cs as [|c cs IH]; intros k; cbn [free_slot]; [done|]. destruct (Z.eqb_spec (fd c) (-1)) as [Hc|Hc].
  - intros [= <-] _. exists c. by rewrite Z.sub_diag.
  - intros E Hk. apply IH in E as (c' & Hc' & Hfd & Hle); [|lia]. exists c'. rewrite rd_cons by lia.
    replace (i - k - 1) with (i - (k + 1)) by lia. repeat split; auto; lia.
Qed.

Lemma steps_add_client f k : 0 <= f -> steps (add_client f k).
Proof.
  intros Hf. unfold add_client. intros l a l' Hb E. unfold bindM at 1, gets at 1 in E. cbn [res_bind fst snd] in E.
  destruct (find_free_slot l) as [i|] eqn:Es; [|by injection E as _ <-].
  apply free_slot_spec in Es as (c & Hc & Hfd & Hi); [|lia]. rewrite Z.sub_0_r in Hc.
  unfold bindM at 1, gets at 1 in E. cbn [res_bind fst snd] in E. unfold bindM at 1 in E.
  destruct (client_init f k (l_base l + i * CLIENT_CONN_SIZE + INLINE_OFFSET) (l_mem l)) as [[c' h]| |] eqn:Ei; [|done..]. cbn [res_bind] in E.
  rewrite wr_ret in E by (by eapply rd_ret_range). cbn [res_bind fst snd] in E. unfold bindM at 1, modify in E. cbn [res_bind fst snd] in E.
  set (l1 := set_num_clients _ _) in E.
  assert (H1 : lframe l l1).
  { split; [done|]. split; [apply quiet_refl|]. unfold balance at 1. cbn. apply (balance_client l i c c' 1 Hc).
    unfold is_live. rewrite Hfd. assert (fd c' = f) as ->; [|by apply Z.leb_le in Hf; rewrite Hf].
    unfold client_init, bindM in Ei. destruct (malloc _ _) as [[p h1]| |]; [|done..]. by injection Ei as <- _. }
  transitivity l1; [done|]. eapply (lsteps_bind (on_poller _) (fun _ => ret tt)); [auto with frame..| |exact E]. done.
Qed.

Lemma steps_set_pending q : steps (modify (fun l => ServerLoop.set_pending l q)).
Proof. intros l a l' _ [= _ <-]. split; [done|]. split; [apply quiet_refl|done]. Qed.
#[local] Hint Resolve steps_set_pending : frame.

Lemma steps_accept : steps accept_one.
Proof.
  unfold accept_one. apply lsteps_bind; [auto with frame|intros [|[f k] q]]; [auto with frame|].
  apply lsteps_bind; [auto with frame|intros _]. destruct (Z.leb_spec 0 f); [by apply steps_add_client|auto with frame].
Qed.

Lemma steps_notified q : steps (take_notified q).
Proof.
  induction q as [|[f k] q IH]; cbn [take_notified]; [auto with frame|]. apply lsteps_bind; [|done].
  destruct (Z.ltb_spec f 0); [auto with frame|by apply steps_add_client].
Qed.

(** *** Events *)

Lemma tells_read fuel junk i : tells i (read_event fuel junk i).
Proof.
  unfold read_event. apply stays_bind_tells; [auto with frame|intros limit]. apply stays_bind_tells; [auto with frame|intros room].
  destruct (negb room); [auto with frame|]. apply stays_bind_tells; [auto with frame|intros n]. destruct (n <=? 0); auto with frame.
Qed.
#[local] Hint Resolve tells_read : frame.

Lemma steps_client_event fuel junk i ev : steps (client_event fuel junk i ev).
Proof.
  unfold client_event. intros l a l' Hb E. unfold bindM at 1 in E. destruct (get_client i l) as [[c l1]| |] eqn:E1; [|done..].
  apply get_client_same in E1 as [-> Hc]. cbn [res_bind fst snd] in E. destruct (Z.ltb_spec (fd c) 0).
  { by injection E as _ <-. }
  assert (Hl : live_at i l) by (exists c; split; [done|by apply Z.leb_le]).
  revert Hb Hl E. match goal with |- _ -> _ -> ?m l = _ -> _ => cut (ends i m); [intros X; intros; by eapply X|] end.
  apply tells_bind; cbn [negb]; [destruct (negb _); auto with frame| |auto with frame].
  apply tells_bind; cbn [when]; auto with frame.
Qed.

Lemma steps_event fuel junk ev : steps (handle_event fuel junk ev).
Proof.
  unfold handle_event. destruct (ev_userdata ev) as [[| |i]|].
  - apply steps_accept.
  - apply lsteps_bind; [auto with frame|apply steps_notified].
  - apply steps_client_event.
  - by intros l a l' _ E.
Qed.

Lemma steps_events fuel junk evs : steps (forM evs (handle_event fuel junk)).
Proof. induction evs as [|ev evs IH]; cbn [forM]; [auto with frame|]. apply lsteps_bind; [apply steps_event|done]. Qed.

Lemma steps_worker_tick fuel junk poll : steps (worker_tick fuel junk poll).
Proof.
  unfold worker_tick. apply lsteps_bind; [apply steps_resume_clients|intros _].
  apply lsteps_bind; [unfold poll_loop; auto with frame|intros evs; apply steps_events].
Qed.

(** Closing all connections keeps what a read-only server promises. *)
Definition silent l l' : Prop := l_readonly l' = l_readonly l /\ quiet (l_db l) (l_db l') (l_in_flight l) (l_in_flight l').

Lemma silent_close fuel slots : forall l l', l_readonly l = b -> close_clients fuel slots l = Ret (tt, l') -> silent l l'.
Proof.
  induction slots as [|i slots IH]; intros l l' Hb E; cbn [close_clients] in E.
  { injection E as <-. split; [done|apply quiet_refl]. }
  unfold bindM at 1 in E. destruct (get_client i l) as [[c l0]| |] eqn:E1; [|done..].
  apply get_client_same in E1 as [-> _]. cbn [res_bind fst snd] in E. unfold bindM at 1 in E.
  match type of E with res_bind (when ?c ?m l) _ = _ => destruct (when c m l) as [[[] l1]| |] eqn:E2; [|done..] end.
  assert (H1 : silent l l1).
  { destruct (0 <=? fd c); cbn [when] in E2; [|injection E2 as <-; split; [done|apply quiet_refl]].
    unfold bindM at 1 in E2. destruct (on_poller _ l) as [[x l2]| |] eqn:Ep; [|done..]. apply on_poller_frame in Ep as [(Hr2 & Hq2 & _) _].
    cbn [res_bind fst snd] in E2. apply with_client_inv in E2 as (c1 & s & _ & Em & ->).
    apply closes_client_close in Em as [[_ Hq] _]; [|cbn; congruence]. split; [done|]. by eapply quiet_trans. }
  cbn [res_bind fst snd] in E. destruct H1 as [Hr1 Hq1]. apply IH in E as [Hr3 Hq3]; [|congruence].
  split; [congruence|by eapply quiet_trans].
Qed.
End frame.

(** ** The life of a server *)

Section life.
Context {T : Type} `{!Store T}.
Variable fuel : nat.
Variable junk : Z -> list Z.

(** What a server does, and what happens to it: an iteration of its loop, an
    iteration of the accept loop, the start; connections arrive, and the system
    delivers bytes or takes some on a connection. *)
Inductive server_step : GravelServer (T := T) -> GravelServer (T := T) -> Prop :=
| step_tick g g' now poll : server_tick fuel junk now poll g = Ret (tt, g') -> server_step g g'
| step_accept g g' oks : accept_tick oks g = Ret (tt, g') -> server_step g g'
| step_start g g' sfd bound listening piped rc : gravel_server_start sfd bound listening piped g = Ret (rc, g') -> server_step g g'
| step_arrive g q : server_step g (set_events g (ServerLoop.set_pending (events g) (l_pending (events g) ++ q)))
| step_net g i c k : l_clients (events g) !! i = Some c ->
    server_step g (set_events g (set_clients (events g) (<[i := set_sock c k]> (l_clients (events g))))).

(** The same of a worker. *)
Inductive worker_step : EventLoop T -> EventLoop T -> Prop :=
| worker_ticks l l' poll : worker_tick fuel junk poll l = Ret (tt, l') -> worker_step l l'
| worker_arrive l q : worker_step l (ServerLoop.set_pending l (l_pending l ++ q))
| worker_net l i c k : l_clients l !! i = Some c -> worker_step l (set_clients l (<[i := set_sock c k]> (l_clients l))).

Section frame.
Variable R : T -> T -> Prop.
Hypothesis HR : reads_keep R.
Variable b : bool.
Let R_preorder : PreOrder R := rk_preorder R HR.
#[local] Existing Instance R_preorder.

(** A read-only server has no flush in flight. *)
Definition calm (l : EventLoop T) : Prop := l_readonly l = b /\ (b = true -> l_in_flight l = false).

Lemma calm_lframe l l' : calm l -> lframe R b l l' -> calm l'.
Proof. intros [Hb Hf] (Hr & Hq & _). split; [congruence|]. intros E. destruct (Hq E) as [-> _]. by apply Hf. Qed.

Definition gsteps {A} (m : M (GravelServer (T := T)) A) : Prop :=
  forall g a g', calm (events g) -> m g = Ret (a, g') -> lframe R b (events g) (events g').

Lemma gsteps_bind {A B} (m : M GravelServer A) (k : A -> M GravelServer B) : gsteps m -> (forall a, gsteps (k a)) -> gsteps (bindM m k).
Proof.
  intros Hm Hk g a g' Hc E. unfold bindM in E. destruct (m g) as [[a1 g1]| |] eqn:E1; [|done..]. cbn in E.
  pose proof (Hm _ _ _ Hc E1) as H1. pose proof (lframe_preorder R HR b). transitivity (events g1); [done|]. eapply Hk; [|exact E]. by eapply calm_lframe.
Qed.

Lemma gsteps_on_events {A} (m : M (EventLoop T) A) : (forall l a l', calm l -> m l = Ret (a, l') -> lframe R b l l') -> gsteps (on_events m).
Proof.
  intros Hm g a g' Hc E. unfold on_events in E. destruct (m (events g)) as [[a1 l]| |] eqn:E1; [|done..].
  injection E as _ <-. by eapply Hm.
Qed.

Lemma gsteps_steps {A} (m : M (EventLoop T) A) : steps R b m -> gsteps (on_events m).
Proof. intros Hm. apply gsteps_on_events. intros l a l' [Hb _] E. by eapply Hm. Qed.

Lemma gsteps_same {A} (m : M GravelServer A) : (forall g a g', m g = Ret (a, g') -> events g' = events g) -> gsteps m.
Proof. intros Hm g a g' _ E. rewrite (Hm _ _ _ E). pose proof (lframe_preorder R HR b). reflexivity. Qed.

Lemma gsteps_poll_flush : gsteps (on_events poll_flush).
Proof.
  apply gsteps_on_events. intros l a l' [Hb Hf] E. unfold poll_flush in E. unfold bindM at 1, gets in E. cbn [res_bind fst snd] in E.
  pose proof (lframe_preorder R HR b). destruct (l_in_flight l) eqn:El; [|by injection E as _ <-].
  assert (Hbf : b = false) by (destruct b; [by specialize (Hf eq_refl)|done]).
  unfold bindM, on_store in E. destruct (store_flush_poll _ _) as [[[rc af] d]| |]; [|done..]. injection E as _ <-.
  split; [done|]. split; [|done]. intros Hb'. congruence.
Qed.

Lemma gsteps_checkpoint now : gsteps (auto_checkpoint now).
Proof.
  intros g a g' [Hb Hf] E. unfold auto_checkpoint in E. unfold bindM at 1, gets in E. cbn [res_bind fst snd] in E.
  pose proof (lframe_preorder R HR b). destruct (l_readonly (events g)) eqn:Er; cbn [negb andb] in E; [by injection E as _ <-|].
  destruct (_ && _); [|by injection E as _ <-]. unfold bindM, on_events, on_store in E.
  destruct (store_checkpoint _) as [[rc d]| |]; [|done..]. injection E as _ <-. split; [done|]. split; [|done]. intros Hb'. congruence.
Qed.

Lemma gsteps_tick now poll : gsteps (server_tick fuel junk now poll).
Proof.
  unfold server_tick. apply gsteps_bind; [apply gsteps_poll_flush|intros _].
  apply gsteps_bind; [apply gsteps_steps; by apply steps_resume_clients|intros _].
  apply gsteps_bind; [apply gsteps_steps; unfold poll_loop; by apply steps_gets|intros evs].
  apply gsteps_bind; [apply gsteps_checkpoint|intros _]. apply gsteps_steps. by apply steps_events.
Qed.

Lemma gsteps_modify (f : GravelServer -> GravelServer) : (forall g, events (f g) = events g) -> gsteps (modify f).
Proof. intros Hf. apply gsteps_same. intros g a g' [= _ <-]. done. Qed.

Lemma gsteps_gets {A} (f : GravelServer -> A) : gsteps (gets f).
Proof. apply gsteps_same. by intros g a g' [= _ <-]. Qed.
Lemma gsteps_ret {A} (a : A) : gsteps (ret a).
Proof. apply gsteps_same. by intros g a' g' [= _ <-]. Qed.
Lemma gsteps_lift {A} (r : res A) : gsteps (lift r).
Proof. apply gsteps_same. intros g a g'. unfold lift. destruct r; cbn; [|done..]. by intros [= _ <-]. Qed.

Ltac gsteps :=
  repeat match goal with
    | |- gsteps (bindM (on_events _) _) => apply gsteps_bind; [apply gsteps_steps|intros ?]
    | |- gsteps (bindM _ _) => apply gsteps_bind; [|intros ?]
    | |- gsteps (match ?x with _ => _ end) => destruct x
    | |- gsteps (modify _) => apply gsteps_modify; intros ?; reflexivity
    | |- gsteps (gets _) => apply gsteps_gets
    | |- gsteps (ret _) => apply gsteps_ret
    | |- gsteps (lift _) => apply gsteps_lift
    end.

Lemma gsteps_distribute ok : gsteps (distribute_one ok).
Proof. unfold distribute_one. gsteps. by apply steps_set_pending. Qed.

Lemma gsteps_accept oks : gsteps (accept_tick oks).
Proof. unfold accept_tick. induction oks as [|ok oks IH]; cbn [forM]; [apply gsteps_ret|]. apply gsteps_bind; [apply gsteps_distribute|done]. Qed.

Lemma gsteps_start sfd bound listening piped : gsteps (gravel_server_start sfd bound listening piped).
Proof. unfold gravel_server_start. gsteps. by apply steps_on_poller. Qed.

Lemma lframe_net l i c k : l_clients l !! i = Some c -> lframe R b l (set_clients l (<[i := set_sock c k]> (l_clients l))).
Proof.
  intros Hi. split; [done|]. split; [by apply quiet_refl|]. unfold balance. cbn [l_num_clients l_clients set_clients].
  rewrite (live_count_insert _ _ _ _ Hi). unfold is_live. cbn [fd set_sock]. lia.
Qed.

Lemma lframe_pending l q : lframe R b l (ServerLoop.set_pending l q).
Proof. split; [done|]. split; [by apply quiet_refl|done]. Qed.

Lemma server_step_frame g g' : calm (events g) -> server_step g g' -> lframe R b (events g) (events g').
Proof.
  intros Hc H. destruct H as [???? E|??? E|??????? E|g q|g i c k Hi].
  - by eapply gsteps_tick.
  - by eapply gsteps_accept.
  - by eapply gsteps_start.
  - apply lframe_pending.
  - by apply lframe_net.
Qed.

Lemma server_steps_frame g g' : calm (events g) -> rtc server_step g g' -> lframe R b (events g) (events g') /\ calm (events g').
Proof.
  intros Hc H. pose proof (lframe_preorder R HR b). induction H as [g|g1 g2 g3 H1 _ IH]; [done|].
  pose proof (server_step_frame _ _ Hc H1) as Hf. destruct IH as [Hf' Hc']; [by eapply calm_lframe|]. split; [by transitivity (events g2)|done].
Qed.

Lemma worker_steps_frame l l' : calm l -> rtc worker_step l l' -> lframe R b l l'.
Proof.
  intros Hc H. pose proof (lframe_preorder R HR b). induction H as [l|l1 l2 l3 H1 _ IH]; [done|].
  assert (Hf : lframe R b l1 l2).
  { destruct H1 as [l l' poll E|l q|l i c k Hi]; [|apply lframe_pending|by apply lframe_net]. destruct Hc. by eapply steps_worker_tick. }
  transitivity l2; [done|]. apply IH. by eapply calm_lframe.
Qed.
End frame.

(** C20: at any moment of a server's life, after any iterations of its loops and
    whatever the network does, the counter of its connections is the number of slots
    that are in use, whichever of the many paths that close a connection was taken;
    and a read-only server has no flush in flight. *)
Theorem server_loop_invariant cfg ok ok_p ok_e opened now base h g0 g :
  gravel_server_create cfg ok ok_p ok_e opened now base h = (GRAVELDB_OK, Some g0) -> rtc server_step g0 g ->
  l_num_clients (events g) = live_count (l_clients (events g)) /\
  l_readonly (events g) = cfg_readonly cfg /\ (cfg_readonly cfg = true -> l_in_flight (events g) = false).
Proof.
  intros E Hsteps. assert (HT : reads_keep (fun _ _ : T => True)) by (constructor; auto; by split).
  destruct (server_steps_frame (fun _ _ => True) HT (cfg_readonly cfg) g0 g) as [(Hr & _ & Hb) [_ Hf]]; [|done|].
  all: unfold gravel_server_create in E; destruct ok, (io_poller_create _ _ _), opened; cbn [negb] in E; simplify_eq.
  { by split. }
  split; [|by split]. unfold balance in Hb at 2. cbn in Hb.
  change (foldr _ 0 _) with (live_count (replicate 256 (no_client (T := T)))) in Hb.
  change (live_count (replicate 256 no_client)) with 0 in Hb. unfold balance in Hb. lia.
Qed.

(** C19: a read-only server only reads. Whatever relation between stores the three
    reading operations keep (a get that is submitted, a get that is polled, the
    statistics), it holds between the store that the server was created with and the
    store at any later moment, and after the server was stopped; and the same of its
    workers. Nothing that clients send makes it call anything else. *)
Theorem readonly_server_only_reads (R : T -> T -> Prop) cfg ok ok_p ok_e d now base h g0 g :
  reads_keep R -> cfg_readonly cfg = true ->
  gravel_server_create cfg ok ok_p ok_e (inr d) now base h = (GRAVELDB_OK, Some g0) -> rtc server_step g0 g ->
  R d (l_db (events g)) /\
  (forall g', gravel_server_stop fuel g = Ret (tt, g') -> R d (l_db (events g'))) /\
  (forall nfd base h w w', new_worker d nfd base h = Ret w -> rtc worker_step w w' -> R d (l_db w')).
Proof.
  intros HR Hro E Hsteps. assert (Hd : l_db (events g0) = d /\ calm true (events g0)).
  { unfold gravel_server_create in E. destruct ok, (io_poller_create _ _ _); cbn [negb] in E; simplify_eq. by split; [|split]. }
  destruct Hd as [Hd Hc]. destruct (server_steps_frame R HR true g0 g Hc Hsteps) as [(Hr & Hq & _) Hcg].
  destruct (Hq eq_refl) as [_ HRd]. rewrite Hd in HRd. pose proof (rk_preorder R HR). split; [done|]. split.
  - intros g' Es. unfold gravel_server_stop in Es. unfold bindM at 1, gets at 1 in Es. cbn [res_bind fst snd] in Es.
    destruct (negb (running g)); [by injection Es as <-|]. unfold bindM at 1, modify at 1 in Es. cbn [res_bind fst snd] in Es.
    unfold bindM at 1, on_events at 1 in Es. cbn [events set_listening] in Es.
    destruct (close_clients fuel _ (events g)) as [[[] l1]| |] eqn:Ec; [|done..]. cbn [res_bind fst snd] in Es.
    apply (silent_close R HR true) in Ec as [Hr1 Hq1]; [|apply Hcg]. destruct (Hq1 eq_refl) as [_ HR1].
    unfold bindM at 1 in Es. match type of Es with res_bind (when ?c ?m ?x) _ = _ => destruct (when c m x) as [[[] g2]| |] eqn:E2; [|done..] end.
    assert (H2 : l_db (events g2) = l_db l1 /\ l_readonly (events g2) = true).
    { destruct Hcg as [Hcg _]. destruct (0 <=? listen_fd g); cbn [when] in E2; [|injection E2 as <-; cbn; split; congruence].
      unfold bindM at 1, on_events, on_poller in E2. cbn [events set_events] in E2.
      destruct (io_poller_del _ _) as [[x p]| |]; [|done..]. injection E2 as <-. cbn. split; congruence. }
    destruct H2 as [H2 H3]. cbn [res_bind fst snd] in Es. unfold bindM at 1, gets in Es. cbn [res_bind fst snd] in Es. rewrite H3 in Es.
    injection Es as <-. rewrite H2. by transitivity (l_db (events g)).
  - intros nfd base' h' w w' Ew Hw. assert (Hdw : l_db w = d /\ calm true w).
    { unfold new_worker in Ew. destruct (deref _); [|done..]. cbn [res_bind] in Ew. destruct (io_poller_add _ _ _ _) as [[x p]| |]; [|done..].
      injection Ew as <-. by split; [|split]. }
    destruct Hdw as [Hdw Hcw]. destruct (worker_steps_frame R HR true w w' Hcw Hw) as (_ & Hqw & _). destruct (Hqw eq_refl) as [_ HRw]. by rewrite Hdw in HRw.
Qed.
End life.

(** ** Example: a read-only server that is asked to push *)

Definition life_cfg (ro : bool) : GravelServerConfig := mkServerConfig 9527 16 (64 * 1024 * 1024) 0 ro 0.
Definition life_store : MapStore := mkMapStore {[ 7 := (1, [1; 2; 3; 4]) ]} 0 0.
Definition life_create (ro : bool) : graveldb_status_t * option (GravelServer (T := MapStore)) :=
  gravel_server_create (life_cfg ro) true true true (inr life_store) 0 (2 ^ 40) (mkHeap [] (2 ^ 41) ∅).

(** The client sends a push of one entry with one float. *)
Definition life_push : list Z :=
  wire_header GRAVELDB_MSG_PUSH 20 ++ bytes_u32 1 ++ bytes_u64 7 ++ bytes_u32 1 ++ [9; 9; 9; 9].

Definition ran {S A} (m : M S A) (s : S) : S := match m s with Ret (_, s') => s' | _ => s end.
Definition life0 (ro : bool) : GravelServer (T := MapStore) :=
  mkGravelServer (life_cfg ro)
    (mkEventLoop life_store None false ro (replicate 256 no_client) 0 (default (mkIOPoller [] 0) (io_poller_create (MAX_CLIENTS + 16) true true))
       (mkHeap [] (2 ^ 41) ∅) (2 ^ 40) [] (64 * 1024 * 1024))
    0 (if ro then 0 else 60000) (-1) false 0 [] 0.
Definition all_ready : option (Z -> Z -> Z) := Some (fun _ ev => ev).
Definition no_bytes (n : Z) : list Z := [].

Definition life1 (ro : bool) : GravelServer := ran (gravel_server_start 3 true true true) (life0 ro).
Definition life2 (ro : bool) : GravelServer :=
  set_events (life1 ro) (ServerLoop.set_pending (events (life1 ro)) (l_pending (events (life1 ro)) ++ [(9, mkSock life_push [] [] E_NONE)])).
Definition life3 (ro : bool) : GravelServer := ran (server_tick 1 no_bytes 0 all_ready) (life2 ro).
Definition life4 (ro : bool) : GravelServer := ran (server_tick 1 no_bytes 0 all_ready) (life3 ro).

Lemma life_created ro : life_create ro = (GRAVELDB_OK, Some (life0 ro)).
Proof. by destruct ro. Qed.

Lemma ran_ret {S A} (m : M S A) (s : S) : (match m s with Ret _ => true | _ => false end) = true -> exists a, m s = Ret (a, ran m s).
Proof. unfold ran. destruct (m s) as [[a' s']| |]; intros; [by exists a'|done..]. Qed.

Lemma life_reached ro : rtc (server_step 1 no_bytes) (life0 ro) (life4 ro).
Proof.
  assert (H1 : (match gravel_server_start 3 true true true (life0 ro) with Ret _ => true | _ => false end) = true) by (destruct ro; vm_compute; reflexivity).
  assert (H3 : (match server_tick 1 no_bytes 0 all_ready (life2 ro) with Ret _ => true | _ => false end) = true) by (destruct ro; vm_compute; reflexivity).
  assert (H4 : (match server_tick 1 no_bytes 0 all_ready (life3 ro) with Ret _ => true | _ => false end) = true) by (destruct ro; vm_compute; reflexivity).
  apply ran_ret in H1 as [rc H1], H3 as [[] H3], H4 as [[] H4].
  apply (rtc_l _ _ (life1 ro)); [by eapply step_start|]. apply (rtc_l _ _ (life2 ro)); [apply step_arrive|].
  apply (rtc_l _ _ (life3 ro)); [by eapply step_tick|]. apply (rtc_l _ _ (life4 ro)); [by eapply step_tick|]. done.
Qed.

(** The connection is there after the push was answered. *)
Lemma server_loop_invariant_witness :
  l_num_clients (events (life4 false)) = 1 /\
  l_num_clients (events (life4 false)) = live_count (l_clients (events (life4 false))) /\
  l_readonly (events (life4 false)) = false /\ (false = true -> l_in_flight (events (life4 false)) = false).
Proof.
  split; [vm_compute; reflexivity|].
  exact (server_loop_invariant 1 no_bytes (life_cfg false) true true true (inr life_store) 0 (2 ^ 40) (mkHeap [] (2 ^ 41) ∅)
           (life0 false) (life4 false) (life_created false) (life_reached false)).
Defined.

Lemma map_reads_keep : reads_keep (fun d d' : MapStore => ms_map d = ms_map d').
Proof.
  constructor.
  - by split; [intros ?|intros ??? -> ->].
  - by intros ids o d r d' [= _ <-].
  - intros [[ids [|n]]|] o d r d'; cbn; by intros [= _ <-].
  - by intros d r d' [= _ <-].
Qed.

(** The push changes the map of a server that is not read-only, and was refused by one
    that is. *)
Lemma readonly_server_only_reads_witness :
  ms_map (l_db (events (life4 false))) !! 7 = Some (1, [9; 9; 9; 9]) /\
  ms_map life_store = ms_map (l_db (events (life4 true))) /\
  (forall g', gravel_server_stop 1 (life4 true) = Ret (tt, g') -> ms_map life_store = ms_map (l_db (events g'))) /\
  (forall nfd base h w w', new_worker life_store nfd base h = Ret w -> rtc (worker_step 1 no_bytes) w w' -> ms_map life_store = ms_map (l_db w')).
Proof.
  split; [vm_compute; reflexivity|].
  exact (readonly_server_only_reads 1 no_bytes (fun d d' => ms_map d = ms_map d') (life_cfg true) true true true life_store 0 (2 ^ 40) (mkHeap [] (2 ^ 41) ∅)
           (life0 true) (life4 true) map_reads_keep eq_refl (life_created true) (life_reached true)).
Defined.
