(* ===== verification/EndToEnd.v ===== *)
(** EndToEnd: a client's call, the server's handler and the storage engine together. *)

From S2P Require Import Prelude LinearProbe Wire SlabAlloc Overlay HashIndex DimRegistry IoBatch PageMap DimBin Engine EngineProps EngineGet EnginePut EngineMap Protocol Arena Server StoreSpec ServerSend ServerPull Client ClientProps ServerLoop ServerProps PushProps.

(** The server on top of the engine. *)
Section engine.
Context {P : Type} `{!ObjectPool P} {host : WireHost}.
Variable create_pool : P -> option P.
Variable junk : Z -> list Z.
Hypothesis Hjunk : forall n, 0 <= n -> zlen (junk n) = n.

#[local] Instance engine_db : Store (DbSt P) := engine_store create_pool junk.
#[local] Instance engine_db_reads : ReadStore (DbSt P) := engine_reads create_pool junk Hjunk.

(** From the client to the files and back. For a database at rest that stores the
    map [m] (the features with their bins and entries, in write buffers or files), the
    server's process and the client's call compose: the bytes that the client writes
    make the server read exactly those features from the bins, through the two phases
    of [graveldb_batch_get_submit] and [graveldb_batch_get_poll] for each chunk of 64,
    and a client that receives the response finds for every id the dimension of the
    feature's bin and the floats of its entry, or dimension 0. The database holds the
    same features afterwards. *)
Theorem engine_pull_roundtrip (st : DbSt P) (m : gmap Z (Z * Z)) ids embs dims (s : HSt (T := DbSt P)) p rest :
  read_db st m -> db s = st -> fits (feature st m) ->
  request_ok (feature st m) ids embs dims ->
  arrived s p (request_bytes GRAVELDB_MSG_PULL ids ++ rest) -> arena_room PULL_ROOM s ->
  exists s1 fuel s2 d, process_message junk s = Ret (1, s1) /\ drive client_async_resume fuel s1 = Ret (tt, s2) /\
    arrived s2 p rest /\ sent_new s s2 d /\
    (exists m', read_db (db s2) m' /\ forall f, feature (db s2) m' f = feature st m f) /\
    forall cl left, client_ok cl -> inbox (cl_sock cl) = d ++ left ->
      client_gets graveldb_client_pull cl ids (mkPullOut (Some embs) (Some dims)) (request_bytes GRAVELDB_MSG_PULL ids) left
        (pulled (feature st m) ids embs).
Proof.
  intros Hdb Hs Hf Hreq Ha Hr.
  destruct (pull_answered junk Hjunk (feature st m) ids embs dims s p rest) as (d & (s1 & fuel & s2 & E1 & E2 & A2 & Hsent & (m' & Hm' & Hfe)) & Hcl);
    [done| |].
  { constructor; auto. exists m. rewrite Hs. by split. }
  exists s1, fuel, s2, d. split; [exact E1|]. split; [exact E2|]. split; [done|]. split; [done|]. split; [|done].
  exists m'. split; [done|]. intros f. by rewrite Hfe.
Qed.

(** C2: what one client pushes another one pulls. The server, which is not read-only, has a database that
    stores the map [c] under the conditions of [stores] that [graveldb_refines_map] spells out: a system
    without failures, no checkpoint, a settled index with room, pages without slack, entries of at most
    4096 bytes, and every page in the write buffer, committed or zero in the file. A client's push of the
    entries [l], not empty and of at most the wire's batch size, with ids other than 0, one dimension per
    feature, the stored one if there is one, and embeddings of the size of their dimension, has arrived
    whole on a connection whose arena has room, and the clients' sockets do not fail; no flush is in flight, and after the put none is needed.
    Then the entries are put into the database, which stores the updated map, and the push is answered
    with OK; the call that writes these bytes and reads this answer returns 0. A pull that arrives
    afterwards on any connection of the server, whose arena has room, gives its client for every id the
    dimension and the embedding of the updated map: the last pushed one, or the one from before; provided
    that all dimensions of the map are at most 1024, the size of the server's buffers, and that the client
    has a buffer with room, not [NULL], for every feature that is stored. Between the two calls lie the
    serialisation and the framing of both, the batched put with its index, key buffers and page buffers,
    and the batched get from buffers and files. *)
Theorem engine_push_pull (R E : gmap Z Z) (c : gmap Z (Z * list Z)) (n : Z) (l : list (Z * Z * list Z)) (s : HSt (T := DbSt P)) p rest
  (Hst : stores R E (db s) c (zlen l + n)) (Hn : 0 <= n) (Hok : call_ok E c (OpPut (push_req <$> l)))
  (Hl : Forall push_ok l) (Hne : l <> []) (Hmax : zlen l <= GRAVELDB_WIRE_MAX_BATCH) (Hlen : GRAVELDB_WIRE_HEADER_SIZE + zlen (push_body l) < 2 ^ 32)
  (Hro : readonly s = false) (Hfl : flush_in_flight s = false)
  (Hcalm : forall st', graveldb_batch_put (push_req <$> l) (db s) = Ret (GRAVELDB_OK, st') -> graveldb_flush_needed st' = Ret (false, st'))
  (Ha : arrived s p (message GRAVELDB_MSG_PUSH (push_body l) ++ rest)) (Hr : arena_room PUSH_ROOM s) :
  let c' := map_op (OpPut (push_req <$> l)) c in
  exists s', process_message junk s = Ret (1, s') /\ arrived s' p rest /\ sent_new s s' (message GRAVELDB_WIRE_OK []) /\ stores R E (db s') c' n /\
    (forall cl left, client_ok cl -> inbox (cl_sock cl) = message GRAVELDB_WIRE_OK [] ++ left ->
      exists cl', graveldb_client_push l cl = Ret (0, cl') /\ outbox (cl_sock cl') = outbox (cl_sock cl) ++ message GRAVELDB_MSG_PUSH (push_body l) /\ inbox (cl_sock cl') = left) /\
    forall s2 ids embs dims p2 rest2, db s2 = db s' -> fits (fun f => c' !! f) -> request_ok (fun f => c' !! f) ids embs dims ->
      arrived s2 p2 (request_bytes GRAVELDB_MSG_PULL ids ++ rest2) -> arena_room PULL_ROOM s2 ->
      exists s3 fuel s4 d, process_message junk s2 = Ret (1, s3) /\ drive client_async_resume fuel s3 = Ret (tt, s4) /\
        arrived s4 p2 rest2 /\ sent_new s2 s4 d /\
        forall cl left, client_ok cl -> inbox (cl_sock cl) = d ++ left ->
          client_gets graveldb_client_pull cl ids (mkPullOut (Some embs) (Some dims)) (request_bytes GRAVELDB_MSG_PULL ids) left (pulled (fun f => c' !! f) ids embs).
Proof.
  intros c'. assert (zlen (push_req <$> l) = zlen l) as Hz by (unfold zlen; by rewrite length_fmap).
  destruct (op_refines junk R E Hjunk (OpPut (push_req <$> l)) (db s) c n) as (st' & E1 & Hst'); [simpl op_cost; by rewrite Hz|done|done|]. fold c' in Hst'.
  assert (graveldb_batch_put (push_req <$> l) (db s) = Ret (GRAVELDB_OK, st')) as Eput.
  { cbn [run_op map_result] in E1. unfold bindM in E1. destruct (graveldb_batch_put _ _) as [[rc st1]| |]; [|done..]. cbn in E1. unfold ret in E1. by simplify_eq. }
  destruct (server_push junk l s p rest st' (async_flush s) false) as (s' & E2 & A & S & Hd & _); try done.
  { exists GRAVELDB_OK, st'. split; [exact Eput|]. rewrite Hfl. exists false, st'. split; [exact (Hcalm st' Eput)|done]. }
  exists s'. rewrite Hd. split; [done|]. split; [done|]. split; [done|]. split; [done|]. split.
  { intros cl left Hcl Hin. unfold GRAVELDB_WIRE_HEADER_SIZE in Hlen. destruct (client_push_spec l GRAVELDB_WIRE_OK left cl) as (cl' & Ec & _ & _ & Hout & Hleft); [done..|lia|done|done|]. by exists cl'. }
  intros s2 ids embs dims p2 rest2 Hd2 Hf Hq A2 R2. destruct Hst' as (m & Hdb & _ & _ & Hfe).
  destruct (pull_answered junk Hjunk (fun f => c' !! f) ids embs dims s2 p2 rest2 Hq) as (d & (s3 & fuel & s4 & E3 & E4 & A4 & Hsent & _) & Hcl).
  { constructor; auto. exists m. rewrite Hd2. split; [by eapply put_db_read|]. intros f. by rewrite Hfe. }
  exists s3, fuel, s4, d. by repeat (split; [done|]).
Qed.
End engine.

(** The database has feature 5, with one float; the client also asks for feature 6. *)
Definition end_pool (p : SlabPool * Mem) : option (SlabPool * Mem) := Some p.
#[local] Instance end_db : Store (DbSt (SlabPool * Mem)) := engine_db (host := host_le) end_pool stale.
Definition end_server : HSt (T := DbSt (SlabPool * Mem)) :=
  mkHSt get_st None false false
    (mkClientConn 5 (mkSock [] [] [] E_NONE) (Some (16, request_bytes GRAVELDB_MSG_PULL [5; 6] ++ [66])) READ_BUF_SIZE [] None 0 (arena_init 65536) idle_async)
    sample_heap.

Lemma get_feature fid : feature get_st get_map fid = if decide (fid = 5) then Some (1, [1; 1; 1; 1]) else None.
Proof.
  unfold feature, locate. destruct (decide (fid = 5)) as [->|Hne]; [vm_compute; reflexivity|].
  unfold get_map. by rewrite lookup_singleton_ne.
Qed.

Lemma engine_pull_roundtrip_witness :
  pulled (feature get_st get_map) [5; 6] [Some (replicate 6 0); Some [2]] = mkPullOut (Some [Some [1; 1; 1; 1; 0; 0]; Some [2]]) (Some [1; 0]) /\
  exists s1 fuel s2 d, process_message stale end_server = Ret (1, s1) /\ drive client_async_resume fuel s1 = Ret (tt, s2) /\
    arrived s2 16 [66] /\ sent_new end_server s2 d /\
    (exists m', read_db (db s2) m' /\ forall f, feature (db s2) m' f = feature get_st get_map f) /\
    forall cl left, client_ok cl -> inbox (cl_sock cl) = d ++ left ->
      client_gets graveldb_client_pull cl [5; 6] (mkPullOut (Some [Some (replicate 6 0); Some [2]]) (Some [0; 0])) (request_bytes GRAVELDB_MSG_PULL [5; 6]) left
        (pulled (feature get_st get_map) [5; 6] [Some (replicate 6 0); Some [2]]).
Proof.
  split; [vm_compute; reflexivity|].
  apply (engine_pull_roundtrip (host := host_le) end_pool stale stale_len get_st get_map [5; 6] [Some (replicate 6 0); Some [2]] [0; 0] end_server 16 [66]).
  - exact get_st_ok.
  - reflexivity.
  - intros f d x. rewrite get_feature. destruct (decide _); intros [= <- <-]. by vm_compute.
  - constructor.
    + split; [|by vm_compute]. repeat constructor; vm_compute; congruence.
    + repeat constructor; intros d x; rewrite get_feature; intros [= <- <-] _. eexists. split; [reflexivity|]. by vm_compute.
    + reflexivity.
  - by split.
  - by apply arena_init_roomy.
Defined.

(** Two dimensions; a client pushes features 9 and 6 and again 9, another one pulls. *)
Definition both_entries : list (Z * Z * list Z) := [(9, 2, [1; 2; 3; 4; 5; 6; 7; 8]); (6, 1, [8; 8; 8; 8]); (9, 2, replicate 8 9)].
Definition both_reqs : list PutReq := [mkPutReq 9 2 (Some [1; 2; 3; 4; 5; 6; 7; 8]); mkPutReq 6 1 (Some [8; 8; 8; 8]); mkPutReq 9 2 (Some (replicate 8 9))].
Definition both_conn (bytes : list Z) (d : DbSt (SlabPool * Mem)) : HSt (T := DbSt (SlabPool * Mem)) :=
  mkHSt d None false false (mkClientConn 5 (mkSock [] [] [] E_NONE) (Some (16, bytes)) READ_BUF_SIZE [] None 0 (arena_init 65536) idle_async) sample_heap.
Definition both_server : HSt (T := DbSt (SlabPool * Mem)) := both_conn (message GRAVELDB_MSG_PUSH (push_body both_entries) ++ [66]) two_st.
Definition both_map : gmap Z (Z * list Z) := map_op (OpPut (push_req <$> both_entries)) two_map.

Lemma both_calm st' : graveldb_batch_put (push_req <$> both_entries) two_st = Ret (GRAVELDB_OK, st') -> graveldb_flush_needed st' = Ret (false, st').
Proof. intros E. vm_compute in E. injection E as <-. vm_compute. reflexivity. Qed.

Lemma both_fits : fits (fun f => both_map !! f).
Proof.
  assert (map_Forall (fun (_ : Z) (v : Z * list Z) => 0 <= fst v <= PULL_MAX_DIM /\ 4 * fst v <= zlen (snd v) <= 4 * PULL_MAX_DIM) both_map) as H
    by (apply (bool_decide_unpack _); vm_compute; exact I).
  intros f d x Hf. exact (H f (d, x) Hf).
Qed.

Lemma both_request : request_ok (fun f => both_map !! f) [9; 5; 8] [Some (replicate 8 0); Some [0; 0; 0; 0]; None] [0; 0; 0].
Proof.
  constructor; [split; [repeat constructor; vm_compute; congruence|by vm_compute]| |reflexivity].
  repeat constructor; intros d x Hf; vm_compute in Hf; try done; injection Hf as <- <-; intros _; eexists; (split; [reflexivity|by vm_compute]).
Qed.

Lemma engine_push_pull_witness :
  pulled (fun f => both_map !! f) [9; 5; 8] [Some (replicate 8 0); Some [0; 0; 0; 0]; None] = mkPullOut (Some [Some (replicate 8 9); Some [1; 1; 1; 1]; None]) (Some [2; 1; 0]) /\
  exists s', process_message stale both_server = Ret (1, s') /\ arrived s' 16 [66] /\ sent_new both_server s' (message GRAVELDB_WIRE_OK []) /\
    stores two_dims two_sizes (db s') both_map 0 /\
    exists s3 fuel s4 d, process_message stale (both_conn (request_bytes GRAVELDB_MSG_PULL [9; 5; 8]) (db s')) = Ret (1, s3) /\
      drive client_async_resume fuel s3 = Ret (tt, s4) /\ arrived s4 16 [] /\ sent_new (both_conn (request_bytes GRAVELDB_MSG_PULL [9; 5; 8]) (db s')) s4 d /\
      forall cl left, client_ok cl -> inbox (cl_sock cl) = d ++ left ->
        client_gets graveldb_client_pull cl [9; 5; 8] (mkPullOut (Some [Some (replicate 8 0); Some [0; 0; 0; 0]; None]) (Some [0; 0; 0])) (request_bytes GRAVELDB_MSG_PULL [9; 5; 8]) left
          (pulled (fun f => both_map !! f) [9; 5; 8] [Some (replicate 8 0); Some [0; 0; 0; 0]; None]).
Proof.
  split; [vm_compute; reflexivity|].
  destruct (engine_push_pull (host := host_le) end_pool stale stale_len two_dims two_sizes two_map 0 both_entries both_server 16 [66]) as (s' & E & A & S & Hs & _ & Hp).
  - apply two_stores. vm_compute. split; congruence.
  - lia.
  - change (push_req <$> both_entries) with both_reqs. split.
    + intros r r'. unfold both_reqs. rewrite !elem_of_cons, !elem_of_nil. intros [-> | [-> | [-> | []]]] [-> | [-> | [-> | []]]]; simpl; congruence.
    + intros r. unfold both_reqs. rewrite !elem_of_cons, elem_of_nil. intros [-> | [-> | [-> | []]]]; (split; [done|split; [by eexists|]]); intros d x Hf; vm_compute in Hf; by inversion Hf.
  - repeat constructor; by vm_compute.
  - done.
  - by vm_compute.
  - by vm_compute.
  - reflexivity.
  - reflexivity.
  - exact both_calm.
  - by split.
  - by apply arena_init_roomy.
  - exists s'. split; [exact E|]. split; [exact A|]. split; [exact S|]. split; [exact Hs|]. apply Hp.
    + reflexivity.
    + exact both_fits.
    + exact both_request.
    + rewrite app_nil_r. by split.
    + by apply arena_init_roomy.
Defined.
