(* ===== verification/Programs.v ===== *)
(** Programs: the other two programs of the examples.

    The options of the server, example/server/main.c, up to the configuration that
    [gravel_server_create] is called with, and the walk through the library of
    example/minimal/minimal.c. What they print is left out, but not what the printing reads. *)

From Stdlib Require Import String Ascii.
From stdpp Require Import strings.
From S2P Require Import Prelude Wire SlabAlloc Overlay HashIndex DimRegistry IoBatch DimBin Names Protocol Engine EngineProps ServerLoop.

#[local] Open Scope string_scope.
#[local] Open Scope Z_scope.

(** ** Options of the server *)

Definition MAX_CLI_DIMS : nat := 64.

(** [atoi]: 0 without a number; a number that is no [int] is undefined. *)
Definition atoi (s : string) : res Z :=
  match scan_int s with
  | Some (v, _) => if (- 2 ^ 31 <=? v) && (v <? 2 ^ 31) then Ret v else Ub
  | None => Ret 0
  end.

(** [strtok] with the delimiter ",": the tokens, which are never empty. [cur] is the one that is being read. *)
Fixpoint tokens (cur s : string) : list string :=
  let emit l := match cur with EmptyString => l | _ => cur :: l end in
  match s with
  | EmptyString => emit []
  | String a s => if ascii_dec a ","%char then emit (tokens "" s) else tokens (cur +:+ String a "") s
  end.

Fixpoint atois (l : list string) : res (list Z) :=
  match l with
  | [] => Ret []
  | s :: l => let! v := atoi s in let! vs := atois l in Ret (v :: vs)
  end.

(** [ok]: the result of [strdup], which is not checked. *)
Definition parse_dims (ok : bool) (str : string) (max_dims : nat) : res (list Z) :=
  if ok then atois (take max_dims (tokens "" str)) else Ub.

(** The variables of [main]; [o_dims]: the first [num_dims] elements of [dims]. *)
Record Options : Type := mkOptions {
  o_data_dir : string; o_port : Z; o_buffer_mb : Z; o_dims : list Z; o_flush_ms : Z; o_ckpt_s : Z; o_readonly : bool; o_read_workers : Z
}.
Definition default_options : Options := mkOptions "./graveldb_data" GRAVELDB_WIRE_PORT 256 [32; 64; 128] 1000 300 false 0.

(** The options that take a value. *)
Definition option_with (a v : string) (o : Options) : res (option Options) :=
  let '(mkOptions dir p mb ds fl ck ro rw) := o in
  if String.eqb a "-d" then Ret (Some (mkOptions v p mb ds fl ck ro rw))
  else if String.eqb a "-p" then let! x := atoi v in Ret (Some (mkOptions dir x mb ds fl ck ro rw))
  else if String.eqb a "-b" then let! x := atoi v in Ret (Some (mkOptions dir p (u64 x) ds fl ck ro rw))
  else if String.eqb a "-D" then let! x := parse_dims true v MAX_CLI_DIMS in Ret (Some (mkOptions dir p mb x fl ck ro rw))
  else if String.eqb a "--flush-ms" then let! x := atoi v in Ret (Some (mkOptions dir p mb ds x ck ro rw))
  else if String.eqb a "--checkpoint-s" then let! x := atoi v in Ret (Some (mkOptions dir p mb ds fl x ro rw))
  else if String.eqb a "--read-workers" then let! x := atoi v in Ret (Some (mkOptions dir p mb ds fl ck ro x))
  else Ret None.

(** The others: the exit code after the help and after an unknown option. *)
Definition option_alone (a : string) (o : Options) : Z + Options :=
  if String.eqb a "--readonly" then
    inr (mkOptions (o_data_dir o) (o_port o) (o_buffer_mb o) (o_dims o) (o_flush_ms o) (o_ckpt_s o) true (o_read_workers o))
  else if String.eqb a "-h" || String.eqb a "--help" then inl 0
  else inl 1.

Fixpoint parse_args (argv : list string) (o : Options) : res (Z + Options) :=
  match argv with
  | [] => Ret (inr o)
  | a :: rest =>
    let alone := match option_alone a o with inl k => Ret (inl k) | inr o => parse_args rest o end in
    match rest with
    | v :: rest' => let! r := option_with a v o in match r with Some o => parse_args rest' o | None => alone end
    | [] => alone
    end
  end.

Definition server_config (o : Options) : GravelServerConfig :=
  mkServerConfig (o_port o) 128 (64 * 1024 * 1024) (o_ckpt_s o) (o_readonly o) (o_read_workers o).
Definition server_db_config (o : Options) : GravelDBConfig :=
  mkGravelDBConfig (Some (o_data_dir o)) (o_dims o) (u64 (o_buffer_mb o * 1024 * 1024)) (2 ^ 24) 0 0 false 0.

(** [main] up to [gravel_server_create]. The printed configuration has the buffer size of a bin. *)
Definition server_main (argv : list string) : res (Z + GravelDBConfig * GravelServerConfig) :=
  let! r := parse_args argv default_options in
  match r with
  | inl k => Ret (inl k)
  | inr o => if zlen (o_dims o) =? 0 then Ub else Ret (inr (server_db_config o, server_config o))
  end.

(** ** The minimal program *)

Section minimal.
Context {P : Type} `{!ObjectPool P} {host : WireHost}.
Variable create_pool : P -> option P.
Variable junk : Z -> list Z.
(** The bytes of [embeddings[i]]. *)
Variable embeddings : Z -> list Z.

Definition MINIMAL_DIM : Z := 128.
Definition MINIMAL_FEATURES : Z := 10.
Definition minimal_config : GravelDBConfig := mkGravelDBConfig (Some "/tmp/graveldb_minimal") [MINIMAL_DIM] (64 * 1024 * 1024) (2 ^ 16) 0 0 true 0.

(** [main]: the exit code. The argument of [printf] reads through [out_embeddings[0]]. *)
Definition minimal_main (detected : Z) (al : P) : M Sys Z :=
  let* '(st, db) := graveldb_open minimal_config detected al in
  match db with
  | None => ret 1
  | Some db => fun y =>
    let feat_ids := (fun i => 1000 + i) <$> seqZ 0 MINIMAL_FEATURES in
    let cleanup st : M (DbSt P) Z := do* graveldb_close in ret (if bool_decide (st = GRAVELDB_OK) then 0 else 1) in
    let run : M (DbSt P) Z :=
      let* st := graveldb_batch_put ((fun i => mkPutReq (1000 + i) MINIMAL_DIM (Some (embeddings i))) <$> seqZ 0 MINIMAL_FEATURES) in
      if negb (bool_decide (st = GRAVELDB_OK)) then cleanup st
      else
        let* '(st, o) := graveldb_batch_get junk feat_ids (mkGetOut (replicate (length feat_ids) None) (Some (replicate (length feat_ids) 0))) in
        if negb (bool_decide (st = GRAVELDB_OK)) then cleanup st
        else
          let* _ := lift (deref (default None (out_embeddings o !! 0%nat))) in
          let* st := graveldb_checkpoint create_pool in
          if negb (bool_decide (st = GRAVELDB_OK)) then cleanup st
          else let* _ := graveldb_stats in cleanup st in
    let! '(k, st) := run (mkDbSt db y) in Ret (k, gsys st)
  end.
End minimal.

(** ** Properties *)

(** The digits of a number are a token. *)
Fixpoint no_comma (s : string) : Prop := match s with EmptyString => True | String a s => a <> ","%char /\ no_comma s end.

Lemma digit_no_comma d : 0 <= d < 10 -> digit d <> ","%char.
Proof. intros Hd E%(f_equal nat_of_ascii). unfold digit in E. rewrite nat_ascii_embedding in E by lia. change (nat_of_ascii ","%char) with 44%nat in E. lia. Qed.

Lemma dec_go_no_comma fuel n s : 0 <= n -> no_comma s -> no_comma (dec_go fuel n s).
Proof.
  revert n s. induction fuel as [|fuel IH]; intros n s Hn Hs; [done|]. cbn [dec_go]. pose proof (Z.mod_pos_bound n 10 ltac:(lia)).
  assert (no_comma (String (digit (n mod 10)) s)) by (split; [apply digit_no_comma; lia|done]). case_match; [done|]. apply IH; [apply Z.div_pos; lia|done].
Qed.

Lemma fmt_d_no_comma n : no_comma (fmt_d n).
Proof. unfold fmt_d. destruct (Z.ltb_spec n 0); [split; [done|]; apply dec_go_no_comma; [lia|done]|by apply dec_go_no_comma]. Qed.

Lemma append_nil (s : string) : s +:+ "" = s.
Proof. induction s as [|a s IH]; [done|]. change (String a (s +:+ "") = String a s). by rewrite IH. Qed.

Lemma tokens_run cur s t : no_comma s -> tokens cur (s +:+ t) = tokens (cur +:+ s) t.
Proof.
  revert cur. induction s as [|a s IH]; intros cur Hs; [by rewrite append_nil|]. destruct Hs as [Ha Hs].
  change (tokens cur (String a (s +:+ t)) = tokens (cur +:+ String a s) t). cbn [tokens]. destruct (ascii_dec a ","%char); [done|]. rewrite IH by done.
  by rewrite append_assoc.
Qed.

(** A list with commas between its elements. *)
Fixpoint join (l : list string) : string :=
  match l with
  | [] => ""
  | [s] => s
  | s :: l => s +:+ "," +:+ join l
  end.

Lemma fmt_d_head n : - 2 ^ 31 <= n < 2 ^ 31 -> exists a s, fmt_d n = String a s.
Proof.
  intros Hn. unfold fmt_d. destruct (Z.ltb_spec n 0); [by eexists _, _|]. destruct (dec_go_head 20 n "") as (d & s & _ & E); [lia|lia|]. by eexists _, _.
Qed.

Lemma tokens_join (l : list Z) : Forall (fun n => - 2 ^ 31 <= n < 2 ^ 31) l -> tokens "" (join (fmt_d <$> l)) = fmt_d <$> l.
Proof.
  induction 1 as [|n l Hn Hl IH]; [done|]. destruct (fmt_d_head n Hn) as (a & s & E). pose proof (fmt_d_no_comma n) as Hc. destruct l as [|n2 l].
  - cbn [fmap list_fmap join]. rewrite <- (append_nil (fmt_d n)) at 1. rewrite tokens_run by done. rewrite E. done.
  - change (join (fmt_d <$> n :: n2 :: l)) with (fmt_d n +:+ "," +:+ join (fmt_d <$> n2 :: l)). rewrite tokens_run by done.
    change ("" +:+ fmt_d n) with (fmt_d n). change ("," +:+ join (fmt_d <$> n2 :: l)) with (String "," (join (fmt_d <$> n2 :: l))). cbn [tokens].
    destruct (ascii_dec _ _); [|done]. rewrite IH. rewrite !fmap_cons, E. done.
Qed.

Lemma atoi_fmt n : - 2 ^ 31 <= n < 2 ^ 31 -> atoi (fmt_d n) = Ret n.
Proof.
  intros Hn. unfold atoi. rewrite <- (append_nil (fmt_d n)). rewrite scan_int_signed by done. rewrite (proj2 (Z.leb_le _ _)), (proj2 (Z.ltb_lt _ _)) by lia. done.
Qed.

(** The dimensions of a command line are read back: the numbers of a list with commas, up to the
    first 64 of them. *)
Theorem parse_dims_roundtrip (l : list Z) : Forall (fun n => - 2 ^ 31 <= n < 2 ^ 31) l ->
  parse_dims true (join (fmt_d <$> l)) MAX_CLI_DIMS = Ret (take MAX_CLI_DIMS l).
Proof.
  intros Hl. unfold parse_dims. rewrite tokens_join by done. rewrite <- fmap_take. apply (Forall_take _ MAX_CLI_DIMS) in Hl.
  induction Hl as [|n k Hn _ IH]; [done|]. cbn [fmap list_fmap atois]. rewrite atoi_fmt by done. cbn [res_bind]. change (atois (fmt_d <$> k) = Ret k) in IH. by rewrite IH.
Qed.

Lemma parse_dims_roundtrip_witness : parse_dims true "64,128,256" MAX_CLI_DIMS = Ret [64; 128; 256].
Proof. apply (parse_dims_roundtrip [64; 128; 256]). repeat constructor; lia. Defined.

(** A list of dimensions without a number stops the server: the size of a bin's buffer, which is
    printed, is divided by the number of dimensions. *)
Theorem server_main_divides_by_zero : server_main ["-D"; ","] = Ub.
Proof. vm_compute. reflexivity. Qed.

(** A missing value makes an option unknown, and the help ends the program at once. *)
Theorem server_main_exits :
  server_main ["--readonly"; "-p"] = Ret (inl 1) /\ server_main ["-p"; "80"; "-h"; "-x"] = Ret (inl 0) /\
  server_main ["-D"; "16,,8"; "-b"; "64"; "--readonly"] =
    Ret (inr (mkGravelDBConfig (Some "./graveldb_data") [16; 8] (64 * 2 ^ 20) (2 ^ 24) 0 0 false 0, mkServerConfig 9527 128 (2 ^ 26) 300 true 0)).
Proof. split_and!; vm_compute; reflexivity. Qed.

(** The minimal program reads through a null pointer: it passes null pointers for the embeddings,
    which [graveldb_batch_get] leaves alone, and prints the first number of the first one. *)
Theorem minimal_main_null :
  minimal_main overlay_pool stale (fun i => replicate 512 i) 4096 page_pool_4k (mkSys ∅ ∅ [] [] ∅) = Ub.
Proof. vm_compute. reflexivity. Qed.
